(* ===== verification/_CoqProject ===== *)
-Q . S2P
Prelude.v
ProbeTable.v
ChunkTable.v
BaseRanges.v
Memory.v
ListHead.v
Thermometer.v
BumpArena.v
ArenaWorld.v
RequestArena.v
ArenaInvariant.v
DualArena.v
ArenaOps.v
ArenaHooks.v
ArenaLifecycle.v
ArenaSystem.v
ArenaTheorems.v
ArenaWitness.v
StateRun.v
Pool.v
PoolInvariant.v
PoolUpdates.v
PoolSpecs.v
PoolCalls.v
PoolHeap.v
PoolTheorems.v
PoolTeardown.v
PoolBase.v
ShadowTable.v
Shadow.v
ShadowProofs.v
ShadowInvariant.v
ShadowTheorems.v
TraceJson.v
Trace.v
TraceProofs.v
TraceTheorems.v
Pc2Line.v
FrameWalk.v
Requests.v
RequestsProofs.v
RequestsTheorems.v
Reactor.v
ReactorTheorems.v
ReactorRuns.v
RqSort.v
RqSortProofs.v
RqSortTheorems.v
RqExchange.v
CharRange.v
CharRangeSets.v
CharRangeProofs.v
CaseTables.v
CaseConv.v
CaseProofs.v
CaseSets.v
CharTheorems.v
PropTables.v
UniProps.v
UniPropsProofs.v
UniScripts.v
UniTheorems.v
Utf8.v
Utf8Proofs.v
Utf8Theorems.v
JsString.v
Atoms.v
JsStringProofs.v
JsStringOps.v
JsStringTheorems.v
AtomsProofs.v
AtomsIntern.v
AtomsTheorems.v
Dtoa.v
DtoaText.v
DtoaProofs.v
DtoaRound.v
DtoaPrint.v
DtoaParse.v
DtoaTheorems.v
