(* ===== verification/Prelude.v ===== *)
(** * arenajs: a verification development

    arenajs is a fork of the QuickJS-ng engine for hosts that serve many short
    requests from one prepared JavaScript heap.  A runtime is built once in a
    _base arena_ and frozen; after that each request runs in a _request arena_
    of its own, which is reset or thrown away as a whole, and the frozen
    snapshot is never written again.  This development models the code that
    the fork adds to make that work, and proves it correct.

    ** The parts and how they interact

    - The allocator (src/qjs-arena.c, src/qjs-arena.h).  A base bump arena, any
      number of request arenas made of extents from a host-supplied provider,
      and the [JSMallocFunctions] hooks that dispatch every engine allocation
      to one of them.  Two thread-local tables classify addresses: the chunk
      set says which request arena owns an address, the base ranges say whether
      it is snapshot memory.  The write thermometer and the hardening of a base
      use page protection to observe or forbid writes to it.
    - The runtime's allocation functions (src/quickjs.c, src/list.h).
      [js_malloc_rt] and its family put a header on every engine allocation and
      carve small ones out of size-classed pages taken from those hooks, until
      the freeze turns the runtime into an arena runtime and the pages into
      snapshot memory.
    - Copy on write (src/quickjs.c).  A request that writes to a snapshot object
      or closure cell gets a private copy through a per-request shadow table;
      reads are redirected to the copy.
    - Requests (src/quickjs.c).  The mutable part of [JSRuntime] lives in the
      head slot of each request arena and is reached through one cell; requests
      are created, entered, left, reset and freed, each starting from the
      template the freeze recorded.
    - The tracer (src/qjs-arena-trace.c).  Interpreter hooks turn execution into
      binary events for a host callback, which may stop the run or ask for a
      JSON snapshot of the stack.  It reads source positions and frame variables
      through functions in src/quickjs.c.
    - The reactor (src/qjs-arena-reactor.c).  The embedder's API over all of the
      above: instances, script and module runs, result codes, pins of clock and
      random seed, held requests, a default instance.
    - Strings and atoms (src/quickjs.c, src/cutils.h).  Strings are counted blocks
      that may be slices of one another; UTF-8 is what the embedder sees of them.
      Property names are interned: the table of the runtime is snapshot memory
      after the freeze, and a request interns into an overlay of its own.
    - Support code of the engine that the fork inherits and relies on:
      [rqsort] (src/cutils.h), which sorts keys, names, arrays and intervals;
      the Unicode part of regular expressions and of the lexer
      (src/libunicode.c): character ranges, case conversion, properties and
      scripts; and the conversion between numbers and text (src/dtoa.c) that
      every printed or parsed number goes through.

    ** Files

    - Prelude: machine integers, array access, the [run] type (a call returns,
      aborts or spins), its weakest precondition, tactics and hint databases.
    - Memory: the byte store with its little-endian words, [memcpy], [memset]
      and their frame lemmas.  StateRun: the state-and-failure monad of the
      engine-side components and its program logic.
    - ProbeTable: linear probing and backward-shift deletion, generic in the
      hash, against finite maps.  ChunkTable (the chunk set,
      [js_arena_register_request] and its neighbours) and ShadowTable (the
      per-request shadow tables) instantiate it.
    - BaseRanges: [js_arena_register_base], [js_arena_ptr_is_base].
    - Thermometer: [js_arena_thermometer_*], [js_dual_arena_harden] and
      [js_dual_arena_unharden], with the signal handlers as transitions.
    - BumpArena: the base arena ([arena_init] .. [arena_realloc]).
    - ArenaWorld: the allocator's whole state and the interfaces it is built on
      ([Env], [Mspace]).  RequestArena: extents, bump path, growth, reset and
      teardown of request arenas.  ArenaInvariant: the invariant [winv].
      DualArena: the [JSDualArena] API and the five hooks.  ArenaOps, ArenaHooks,
      ArenaLifecycle: their specifications.  ArenaSystem: sequences of calls.
      ArenaTheorems: the properties.  ArenaWitness: a concrete environment.
    - ListHead: the intrusive lists of src/list.h on byte memory.  Pool: the
      pages, blocks and headers of the small-block pool and [js_malloc_rt] ..
      [js_realloc_rt].  PoolInvariant: the contract of the backing functions and
      the invariant [pcore].  PoolUpdates, PoolSpecs, PoolCalls: its
      preservation, from single stores to whole calls.  PoolHeap: the abstract
      heap and the charges.  PoolTheorems, PoolTeardown: the properties.
      PoolBase: the pool over the base arena of BumpArena, with the witnesses.
    - Shadow: [js_object_for_write], [js_object_active] and their closure-cell
      twins, with the deep copy.  ShadowProofs, ShadowInvariant, ShadowTheorems:
      the contract, the invariant and the properties.
    - TraceJson: the JSON buffer and the stack document.  Trace: the emitter.
      TraceProofs, TraceTheorems: what the host receives.
    - Pc2Line: recording, packing and lookup of source positions.  FrameWalk: the
      frame accessors of the tracer.
    - Requests, RequestsProofs, RequestsTheorems: requests of a runtime.
    - Reactor, ReactorTheorems, ReactorRuns: the reactor, its properties, and a
      concrete interpreter for the witnesses.
    - RqSort: [rqsort], [heapsortx], [med3] on an array of elements.
      RqSortProofs (rearrangements, insertion and heap sort, the partition),
      RqSortTheorems (the whole sort).  RqExchange: the [exchange_*]
      functions on bytes.
    - CharRange: [cr_op] .. [cr_invert] and the merge of overlapping intervals;
      CharRangeSets: sets as lists of points; CharRangeProofs: the contract of
      [realloc_func] and the specifications.
    - CaseTables, CaseConv: the case tables, [lre_case_conv],
      [lre_canonicalize], [cr_regexp_canonicalize].  CaseProofs, CaseSets,
      CharTheorems: the search, the checked tables, the walk over a set, the
      properties.
    - PropTables, UniProps: property and script tables, [lre_is_in_table] and
      the predicates over it, [lre_is_space], [unicode_prop1],
      [unicode_script].  UniPropsProofs, UniScripts, UniTheorems: the decoded
      tables and the properties.
    - Utf8: [utf8_encode], [utf8_decode], [utf8_scan] and the four buffer
      conversions.  Utf8Proofs, Utf8Theorems: one code point, then buffers.
    - JsString: the heap of string blocks; allocation, [js_free_string], slices,
      conversion from and to UTF-8 and UTF-16 buffers, comparison.
      JsStringProofs: the heap invariant.  JsStringOps: the functions that make
      strings.  JsStringTheorems: clients, contents and round trips.
    - Atoms: the two atom tables, hashing, [__JS_NewAtom] and its neighbours.
      AtomsProofs: the invariant of the hash chains.  AtomsIntern: insertion into
      the overlay.  AtomsTheorems: one call, then whole requests.
    - Dtoa: limb arrays, division by an invariant limb, powers of the radix,
      rounding ([mpb_shr_round], [mul_pow_round], [round_to_d]).  DtoaText:
      [js_dtoa], [js_dtoa_max_len], [js_atod], integers as text.  DtoaProofs,
      DtoaRound: the arithmetic on integers and on quotients.  DtoaPrint,
      DtoaParse: the digits of each format, and what a numeral is read as.
      DtoaTheorems: the properties.

    C structs are records with the source's field names, enums and unions are
    inductive types, heap objects are addressed by [Z], and each C function is
    one definition under its C name (helpers cut out of a long function body are
    listed beside it).  Code that keeps state threads it explicitly or through
    [ST]; NULL results are [0] or [None] as in each file's comments.  A [double]
    is its 64 bits, a multi-precision number the list of its limbs with the
    number of limbs that were allocated for it, and an [int] that overflows
    aborts.

    ** What the theorems show

    - Isolation of the snapshot: no sequence of allocator calls touches a frozen
      base ([ArenaTheorems.frozen_base_inviolate]); scripts see a private copy of
      the snapshot ([ShadowTheorems.requests_see_private_snapshot],
      [identity_of_active]); a host sees a map from requests to states that only
      the entered request can change ([RequestsTheorems.requests_refine]).
    - Isolation of requests from each other: [hooks_isolate_requests],
      [request_extents_exact], [free_classifies_by_owner],
      [chunk_set_refines_owner_map].
    - The engine's heap: [pool_refines_heap], [pool_well_formed],
      [malloc_accounting_exact], [size_class_best], [free_all_releases_pages];
      and that an arena runtime leaves the pages of the pool, then part of the
      snapshot, alone: [arena_calls_spare_pages].
    - Repeatability: [reset_is_fresh], [runs_start_alike],
      [seeded_random_replays], [new_request_pins], [calloc_zeroes].
    - The tracer delivers what it should and describes itself:
      [trace_run_delivers], [trace_self_describing], [snapshot_is_json],
      [json_string_roundtrip], [source_locations_found], [leb128_roundtrips],
      [frame_walk_shows_variables], [nested_run_keeps_dispatch].
    - Results and termination of runs: [script_run_codes],
      [module_run_returns], [interrupt_stops_script], [oom_latches_first_refusal].
    - Sorting: [rqsort_sorts] for every total preorder, [rqsort_any_cmp_safe]
      (termination, array and stack bounds, permutation) for every comparison
      function, [exchange_refines_swap] from elements down to bytes.
    - Characters: ranges compute set operations in canonical form
      ([range_ops_are_set_ops]); case conversion is total and in bounds
      ([case_conv_in_bounds]), canonicalisation a projection
      ([canonicalize_idempotent]), and a canonicalised class is the image of the
      class ([regexp_canonicalize_image]); the readers of the property tables
      agree ([prop_readers_agree], [is_space_is_white_space]); a script is what
      its tables say ([unicode_script_set_or_hangs]).
    - Text: the scan of a buffer predicts its decoder
      ([utf8_scan_predicts_decode]), encoding fits its buffer
      ([utf8_encode_truncates]) and loses nothing ([utf16_survives_utf8],
      [cstring_roundtrip]); string clients are memory safe
      ([string_clients_safe]) and get the units they asked for
      ([new_string_has_units], [sub_string_has_units],
      [string_compare_lexicographic]).
    - Atoms: a text has one atom ([atoms_interned_once]), and the atoms of a
      request end with it ([atoms_end_with_request]).
    - Numbers: the shortest text of a number is read back as the number
      ([number_text_roundtrip]); a literal is read as the number nearest to it
      ([decimal_literals_nearest]); the formats with a fixed number of digits
      round the exact value ([fixed_point_exact], [significant_digits_exact]);
      the text fits its buffer ([dtoa_fits_max_len]); integers have their
      canonical digits in every radix ([integer_text_canonical]).
    - Limits and defects the model exposed, each stated as the behaviour the code
      has: [register_request_spins_past_limit], [arena_alloc_wraps],
      [freeze_publishes_if_room], [unharden_drops_thermometer],
      [windows_helper_writes_snapshot], [js_malloc_rt_wraps], [throw_delivered_after_stop],
      [throw_snapshot_refused], [free_foreign_request_clears_cell],
      [run_unentered_writes_template], [script_stop_is_error],
      [canonicalize_loses_refused_interval], [unicode_script_hangs],
      [fixed_exceeds_max_len], [accepted_exponent_overflows].

    ** Interfaces to code outside the model

    What the modelled code calls but is not modelled is a class of operations,
    with the relied-on behaviour in a separate class of laws: [Env]/[EnvLaws]
    (mmap, malloc and the extent provider hand out fresh, aligned, disjoint
    blocks or fail), [Mspace]/[MspaceLaws] (dlmalloc stays inside the segments it
    was given), [Backing]/[BackingLaws] (the [JSMallocFunctions] under the pool
    hand out disjoint blocks and leave live ones alone; the base arena is an
    instance), [ReqAlloc]/[ReqAllocLaws] (the request allocator as the shadow
    layer uses it), [QuietHost] (a trace callback that does not reconfigure the
    instance that is calling it), [Engine]/[EngineLaws]/[FiniteJobs] (the
    interpreter as the reactor uses it), [Realloc]/[ReallocLaws] (the
    [realloc_func] of a character range keeps the old points or refuses, and
    remembers that it did), [StrAlloc]/[StrAllocLaws] (the allocator under the
    heap of strings hands out free addresses outside the base, or refuses),
    [CmpLaws] (a comparison function is the sign of a total preorder).  The toy modules of the theorem files
    ([ArenaWitness], [ToyAlloc], [ToyRequests], [ToyTrace], [ToyReactor], ...)
    instantiate them with concrete functions, and every theorem with hypotheses
    is applied there to a computed state.

    ** Loops, fuel and bounds

    Running out of fuel is [Spins] or [None], a value the theorems exclude:
    probing and deletion take as many steps as the table has slots, enough as a
    table always has an empty slot; doubling loops take one step per bit of the
    counter, and [register_request_spins_past_limit] states the one case where the
    C loop does not end either; LEB128 takes five groups of seven bits and the
    position lookup as many steps as the table has bytes; releasing the pages of
    the pool takes more fuel than a class has pages; the loops of the sort take as
    much fuel as the segment has elements, its outer loop twice as much, as every
    split sets the pivot aside; the loops over tables and points take their
    length; case conversion calls itself once, for the parts of an expansion; the
    scans and encoders of text take one step more than the text has bytes or
    units, as every step uses one; hash chains take one step more than the two
    tables have slots; freeing a string frees at most its parent, as a slice is
    never a slice of a slice; the digit loops of a number take one step per digit,
    the search for the fewest digits 60 steps of which 17 are needed, the
    corrections of the decimal exponent three of which two are needed; the job and
    await loops of the reactor take fuel as an argument and [module_run_returns]
    holds for every sufficiently large one.  Integers are at their C width
    wherever the source's arithmetic can leave it: sizes wrap at 2^64, table sizes
    and hashes at 2^32, line numbers are signed 32-bit.

    ** Not modelled

    - The engine behind the interfaces: parser, bytecode compiler, interpreter
      loop, built-in objects and garbage collector of src/quickjs.c;
      src/libregexp.c, string buffers and ropes, and the clock and path helpers
      of src/cutils.h.  The theorems do not depend on how scripts compute, only
      on the operations named above.
    - The definitions of number conversion cover every radix and format; the
      theorems about floating point numbers are for base 10, and for literals of
      at most 38 significant digits, as the code drops further ones.  Strings
      and atoms are modelled during a request; weak references to symbols
      are not part of the state.
    - Normalisation, general categories, derived properties, emoji sequences and
      the name tables of src/libunicode.c; src/unicode_gen.c, which generates
      the tables.  The tables that are modelled are copied value for value.
    - src/dlmalloc.c, vendored and used through its mspace interface.
    - Host programs and bindings (src/qjs.c, src/qjsc.c, src/quickjs-libc.c,
      src/qjs-wasi-reactor.c, src/qjs-arena-replay-bindings.c), which pass
      values between a host and the functions modelled here; tests, benchmarks
      and generated files.
    - Diagnostic output beyond what the reactor prints, the Windows
      branches of conditional code, and the sections compiled only with
      [ROVE_ARENA]. *)

From stdpp Require Import base list numbers.
From Stdlib Require Import ZArith Lia.

#[global] Open Scope Z_scope.

(** ** Machine integers

    C integers are [Z] values; a [w]-bit unsigned result is written with its
    wrap-around, as in [u32 (a * b)].  [SIZE_MAX] is that of the 64-bit
    targets. *)

Definition u8 (x : Z) : Z := x mod 2 ^ 8.
Definition u16 (x : Z) : Z := x mod 2 ^ 16.
Definition u32 (x : Z) : Z := x mod 2 ^ 32.
Definition u64 (x : Z) : Z := x mod 2 ^ 64.

(** Two's complement reading of a 32-bit word. *)
Definition i32 (x : Z) : Z := (x + 2 ^ 31) mod 2 ^ 32 - 2 ^ 31.

Definition SIZE_MAX : Z := 2 ^ 64 - 1.

(** The C idiom [(x + a - 1) & ~(a - 1)] on [size_t]. *)
Definition round_up (a x : Z) : Z :=
  Z.land (u64 (x + a - 1)) (u64 (Z.lnot (a - 1))).

(** [b2z] is C's reading of a comparison as an [int]. *)
Definition b2z (b : bool) : Z := if b then 1 else 0.

(** Array access through a [Z] index: [nthZ] with an explicit default for the
    positions no C program may read, [setZ] leaving the array unchanged there. *)
Definition nthZ {A} (d : A) (l : list A) (i : Z) : A := default d (l !! Z.to_nat i).
Definition setZ {A} (i : Z) (x : A) (l : list A) : list A := <[Z.to_nat i := x]> l.
Definition lenZ {A} (l : list A) : Z := Z.of_nat (length l).

(** ** Runs of C code

    A call either returns, fails an assertion (or dereferences [NULL]), or sits
    in a loop that never ends.  Loops whose termination is not structural take
    fuel; running out of it is [Spins], and the theorems show it does not
    happen. *)

Inductive run (A : Type) : Type :=
  | Done (a : A)
  | Aborts
  | Spins.
Arguments Done {A} a.
Arguments Aborts {A}.
Arguments Spins {A}.

Definition run_bind {A B} (m : run A) (f : A -> run B) : run B :=
  match m with
  | Done a => f a
  | Aborts => Aborts
  | Spins => Spins
  end.

Declare Scope run_scope.
Delimit Scope run_scope with run.
Notation "'let*' x := m 'in' k" := (run_bind m (fun x => k))
  (at level 10, x pattern at level 0, k at level 200) : run_scope.
#[global] Open Scope run_scope.

(** [assert(b)]. *)
Definition assert_ (b : bool) : run unit := if b then Done tt else Aborts.

Definition of_option {A} (o : option A) : run A :=
  match o with Some a => Done a | None => Spins end.

Create HintDb arenajs.

(** ** Tactics *)

(** Case analysis on the boolean comparisons of the goal, then [lia]. *)
Ltac bool_lia :=
  repeat (match goal with
    | |- context [Z.leb ?a ?b] => destruct (Z.leb_spec a b)
    | |- context [Z.ltb ?a ?b] => destruct (Z.ltb_spec a b)
    | |- context [Z.eqb ?a ?b] => destruct (Z.eqb_spec a b)
    | H : context [Z.leb ?a ?b] |- _ => destruct (Z.leb_spec a b)
    | H : context [Z.ltb ?a ?b] |- _ => destruct (Z.ltb_spec a b)
    | H : context [Z.eqb ?a ?b] |- _ => destruct (Z.eqb_spec a b)
    end; simpl in *; try lia; try congruence).

(** Split the innermost conditional of a hypothesis or of the goal. *)
Ltac case_if :=
  match goal with
  | |- context [if ?b then _ else _] => destruct b eqn:?
  | H : context [if ?b then _ else _] |- _ => destruct b eqn:?
  end.

(** Turn boolean hypotheses into propositions. *)
Ltac b2p :=
  repeat match goal with
  | H : (_ && _)%bool = true |- _ => apply andb_prop in H as [? ?]
  | H : (_ || _)%bool = false |- _ => apply orb_false_elim in H as [? ?]
  | H : (_ && _)%bool = false |- _ => apply andb_false_iff in H
  | H : (_ || _)%bool = true |- _ => apply orb_true_iff in H
  | H : negb _ = true |- _ => apply negb_true_iff in H
  | H : negb _ = false |- _ => apply negb_false_iff in H
  | H : Z.leb _ _ = true |- _ => apply Z.leb_le in H
  | H : Z.leb _ _ = false |- _ => apply Z.leb_gt in H
  | H : Z.ltb _ _ = true |- _ => apply Z.ltb_lt in H
  | H : Z.ltb _ _ = false |- _ => apply Z.ltb_ge in H
  | H : Z.eqb _ _ = true |- _ => apply Z.eqb_eq in H
  | H : Z.eqb _ _ = false |- _ => apply Z.eqb_neq in H
  end.

(** ** Machine integer lemmas *)

Lemma u64_small x : 0 <= x < 2 ^ 64 -> u64 x = x.
Proof. intros. unfold u64. apply Z.mod_small. lia. Qed.

Lemma u32_small x : 0 <= x < 2 ^ 32 -> u32 x = x.
Proof. intros. unfold u32. apply Z.mod_small. lia. Qed.

Lemma u16_small x : 0 <= x < 2 ^ 16 -> u16 x = x.
Proof. intros. unfold u16. apply Z.mod_small. lia. Qed.

Lemma u8_small x : 0 <= x < 2 ^ 8 -> u8 x = x.
Proof. intros. unfold u8. apply Z.mod_small. lia. Qed.

Lemma u64_range x : 0 <= u64 x < 2 ^ 64.
Proof. unfold u64. apply Z.mod_pos_bound. lia. Qed.

Lemma u32_range x : 0 <= u32 x < 2 ^ 32.
Proof. unfold u32. apply Z.mod_pos_bound. lia. Qed.

Lemma u16_range x : 0 <= u16 x < 2 ^ 16.
Proof. unfold u16. apply Z.mod_pos_bound. lia. Qed.

Lemma u8_range x : 0 <= u8 x < 2 ^ 8.
Proof. unfold u8. apply Z.mod_pos_bound. lia. Qed.

#[export] Hint Resolve u64_range u32_range u16_range u8_range : arenajs.

(** Masking with [2^k - 1] is reduction modulo [2^k]. *)
Lemma land_mask x k : 0 <= k -> Z.land x (2 ^ k - 1) = x mod 2 ^ k.
Proof.
  intros. replace (2 ^ k - 1) with (Z.ones k) by (rewrite Z.ones_equiv; lia).
  apply Z.land_ones. lia.
Qed.

(** Masking off the low [k] bits of a 64-bit word rounds it down. *)
Lemma land_lnot_mask x k :
  0 <= k < 64 -> 0 <= x < 2 ^ 64 ->
  Z.land x (u64 (Z.lnot (2 ^ k - 1))) = x - x mod 2 ^ k.
Proof.
  intros Hk Hx.
  assert (Hp : 0 < 2 ^ k) by (apply Z.pow_pos_nonneg; lia).
  assert (Hu : u64 (Z.lnot (2 ^ k - 1)) = 2 ^ 64 - 2 ^ k).
  { assert (2 ^ k <= 2 ^ 63) by (apply Z.pow_le_mono_r; lia).
    unfold u64, Z.lnot. replace (Z.pred (- (2 ^ k - 1))) with (- 2 ^ k) by lia.
    symmetry. apply Z.mod_unique with (-1); lia. }
  rewrite Hu.
  replace (2 ^ 64 - 2 ^ k) with (Z.shiftl (Z.ones (64 - k)) k).
  2:{ rewrite Z.shiftl_mul_pow2, Z.ones_equiv by lia.
      replace (2 ^ 64) with (2 ^ (64 - k) * 2 ^ k) by (rewrite <- Z.pow_add_r; f_equal; lia). lia. }
  transitivity (Z.shiftl (Z.shiftr x k) k).
  2:{ rewrite Z.shiftl_mul_pow2, Z.shiftr_div_pow2 by lia.
      pose proof (Z.div_mod x (2 ^ k)). lia. }
  apply Z.bits_inj'; intros i Hi.
  rewrite Z.land_spec, !Z.shiftl_spec by lia.
  destruct (Z.ltb_spec i k) as [Hik | Hik].
  { rewrite !(Z.testbit_neg_r _ (i - k)) by lia. now rewrite andb_false_r. }
  rewrite Z.shiftr_spec by lia. replace (i - k + k) with i by lia.
  destruct (Z.ltb_spec i 64) as [Hi64 | Hi64].
  { rewrite Z.ones_spec_low by lia. now rewrite andb_true_r. }
  rewrite Z.ones_spec_high by lia. rewrite andb_false_r.
  symmetry. destruct (Z.eq_dec x 0) as [-> | Hx0]; [apply Z.testbit_0_l |].
  apply Z.bits_above_log2; [lia |].
  apply Z.lt_le_trans with 64; [apply Z.log2_lt_pow2; lia | lia].
Qed.

(** [round_up] without overflow: the least multiple of [2^k] above [x]. *)
Lemma round_up_spec k x :
  0 <= k < 64 -> 0 <= x -> x + 2 ^ k - 1 < 2 ^ 64 ->
  x <= round_up (2 ^ k) x < x + 2 ^ k /\ (2 ^ k | round_up (2 ^ k) x).
Proof.
  intros Hk Hx Ho. assert (0 < 2 ^ k) by (apply Z.pow_pos_nonneg; lia).
  unfold round_up. rewrite u64_small by lia.
  rewrite land_lnot_mask by lia.
  set (y := x + 2 ^ k - 1) in *.
  pose proof (Z.mod_pos_bound y (2 ^ k) ltac:(lia)).
  split; [lia |]. exists (y / 2 ^ k). pose proof (Z.div_mod y (2 ^ k)). lia.
Qed.

(** ** Arrays through [Z] indices *)

Section arrays.
Context {A : Type} (d : A).

Lemma lenZ_nonneg (l : list A) : 0 <= lenZ l.
Proof. unfold lenZ. lia. Qed.

Lemma lenZ_app (l l' : list A) : lenZ (l ++ l') = lenZ l + lenZ l'.
Proof. unfold lenZ. rewrite length_app. lia. Qed.

Lemma lenZ_cons (x : A) l : lenZ (x :: l) = 1 + lenZ l.
Proof. unfold lenZ. simpl. lia. Qed.

Lemma lenZ_setZ (l : list A) i x : lenZ (setZ i x l) = lenZ l.
Proof. unfold lenZ, setZ. now rewrite length_insert. Qed.

Lemma nthZ_setZ_eq (l : list A) i x :
  0 <= i < lenZ l -> nthZ d (setZ i x l) i = x.
Proof.
  unfold nthZ, setZ, lenZ. intros. rewrite list_lookup_insert_eq; [done | lia].
Qed.

Lemma nthZ_setZ_ne (l : list A) i j x :
  0 <= i -> 0 <= j -> i <> j -> nthZ d (setZ i x l) j = nthZ d l j.
Proof.
  unfold nthZ, setZ. intros. rewrite list_lookup_insert_ne; [done | lia].
Qed.

Lemma nthZ_setZ (l : list A) i j x :
  0 <= i < lenZ l -> 0 <= j ->
  nthZ d (setZ i x l) j = if i =? j then x else nthZ d l j.
Proof.
  intros. destruct (Z.eqb_spec i j) as [-> | ].
  - now apply nthZ_setZ_eq.
  - apply nthZ_setZ_ne; lia.
Qed.

Lemma nthZ_replicate n i : 0 <= i < Z.of_nat n -> nthZ d (replicate n d) i = d.
Proof. unfold nthZ. intros. rewrite lookup_replicate_2; [done | lia]. Qed.

Lemma nthZ_out (l : list A) i : lenZ l <= i -> nthZ d l i = d.
Proof. unfold nthZ, lenZ. intros. rewrite lookup_ge_None_2; [done | lia]. Qed.
End arrays.

#[export] Hint Rewrite @lenZ_setZ : arenajs.
