(* ===== verification/ProbeTable.v ===== *)
(** * Open-addressing tables with linear probing

    The thread's request chunk set (qjs-arena.c) and the two per-request
    shadow tables (quickjs.c) are the same data structure: an array of
    power-of-two size whose slots hold a key and a value, key 0 marking an
    empty slot, probed linearly from a hash of the key.  This file holds the
    slot type, the probe loop and the well-formedness predicate they share,
    and proves that a probe finds exactly what the table holds, that storing a
    key is a map insertion and that backward-shift deletion is a map deletion.

    The tables are related to finite maps by [contents]. *)

From stdpp Require Import base list numbers gmap.
From Stdlib Require Import ZArith Lia.
From S2P Require Import Prelude.

(** ** Slots and the probe loop *)

(** A slot [{ key; owner }]; key 0 is an empty slot. *)
Record slot := Slot { s_key : Z; s_val : Z }.

Definition empty_slot : slot := Slot 0 0.

Abbreviation slot_at tab i := (nthZ empty_slot tab i).
Abbreviation key_at tab i := (s_key (nthZ empty_slot tab i)).

(** The probe step [i = (i + 1) & mask]. *)
Definition next_slot (mask i : Z) : Z := Z.land (u32 (i + 1)) mask.

(** [while (!stop(tab[i].key)) i = (i + 1) & mask;] with [fuel] iterations at
    most; [None] is a loop that has not ended by then. *)
Fixpoint probe (fuel : nat) (stop : Z -> bool) (tab : list slot) (mask i : Z) : option Z :=
  match fuel with
  | O => None
  | S fuel' =>
      if stop (key_at tab i) then Some i
      else probe fuel' stop tab mask (next_slot mask i)
  end.

(** ** Well-formed tables *)

(** Steps of the cyclic walk from slot [a] to slot [b] in a table of [n]. *)
Definition dist (n a b : Z) : Z := if a <=? b then b - a else b - a + n.

(** The number of occupied slots. *)
Definition occupied (tab : list slot) : nat :=
  length (filter (fun s => s_key s <> 0) tab).

(** The finite map a table stands for. *)
Definition contents (tab : list slot) : gmap Z Z :=
  foldr (fun s m => if s_key s =? 0 then m else <[s_key s := s_val s]> m) ∅ tab.

(** A table of [n = 2^b] slots, no key stored twice, every stored key
    reachable from its hash through occupied slots only. *)
Record wf_table (hash : Z -> Z -> Z) (n : Z) (tab : list slot) : Prop := {
  wf_size : exists b, 0 <= b <= 31 /\ n = 2 ^ b;
  wf_len : lenZ tab = n;
  wf_distinct : forall p q, 0 <= p < n -> 0 <= q < n ->
    key_at tab p = key_at tab q -> key_at tab p <> 0 -> p = q;
  wf_reach : forall q, 0 <= q < n -> key_at tab q <> 0 ->
    forall p, 0 <= p < n ->
      dist n (hash (key_at tab q) (n - 1)) p < dist n (hash (key_at tab q) (n - 1)) q ->
      key_at tab p <> 0
}.

(** The hash functions used are masked by [mask]. *)
Class MaskedHash (hash : Z -> Z -> Z) : Prop :=
  masked_hash : forall k mask, 0 <= mask -> 0 <= hash k mask <= mask.

(** ** Arithmetic of the cyclic walk *)

Lemma dist_range n a b : 0 <= a < n -> 0 <= b < n -> 0 <= dist n a b < n.
Proof. unfold dist. intros. bool_lia. Qed.

Lemma dist_inj n a p q :
  0 <= a < n -> 0 <= p < n -> 0 <= q < n -> dist n a p = dist n a q -> p = q.
Proof. unfold dist. intros. bool_lia. Qed.

Lemma next_slot_spec n i b :
  n = 2 ^ b -> 0 <= b <= 31 -> 0 <= i < n ->
  next_slot (n - 1) i = if i + 1 =? n then 0 else i + 1.
Proof.
  intros -> Hb Hi. unfold next_slot.
  assert (2 ^ b <= 2 ^ 31) by (apply Z.pow_le_mono_r; lia).
  rewrite u32_small, land_mask by lia.
  destruct (Z.eqb_spec (i + 1) (2 ^ b)) as [E | E].
  - rewrite E. apply Z.mod_same. lia.
  - apply Z.mod_small. lia.
Qed.

Lemma next_slot_range n i b :
  n = 2 ^ b -> 0 <= b <= 31 -> 0 <= i < n -> 0 <= next_slot (n - 1) i < n.
Proof. intros. rewrite (next_slot_spec n i b) by done. bool_lia. Qed.

(** One probe step brings every slot but the current one a step closer. *)
Lemma dist_next n i e b :
  n = 2 ^ b -> 0 <= b <= 31 -> 0 <= i < n -> 0 <= e < n -> i <> e ->
  dist n (next_slot (n - 1) i) e = dist n i e - 1.
Proof. intros. rewrite (next_slot_spec n i b) by done. unfold dist. bool_lia. Qed.

(** ** Occupation and contents *)

Lemma nthZ_lookup (tab : list slot) i s :
  0 <= i -> tab !! Z.to_nat i = Some s -> slot_at tab i = s.
Proof. intros _ H. unfold nthZ. now rewrite H. Qed.

Lemma lookup_nthZ (tab : list slot) i :
  0 <= i < lenZ tab -> tab !! Z.to_nat i = Some (slot_at tab i).
Proof.
  unfold lenZ, nthZ. intros Hi.
  destruct (lookup_lt_is_Some_2 tab (Z.to_nat i)) as [s Hs]; [lia |].
  now rewrite Hs.
Qed.

Lemma occupied_insert_new tab i s :
  0 <= i < lenZ tab -> key_at tab i = 0 -> s_key s <> 0 ->
  occupied (setZ i s tab) = S (occupied tab).
Proof.
  intros Hi Hk Hs. pose proof (lookup_nthZ tab i Hi) as Hl.
  unfold occupied, setZ.
  rewrite insert_take_drop by (unfold lenZ in Hi; lia).
  rewrite <- (take_drop_middle tab (Z.to_nat i) _ Hl) at 3.
  rewrite !filter_app, !filter_cons, !length_app.
  rewrite decide_True by done. rewrite decide_False by (simpl in *; lia).
  simpl. lia.
Qed.

Lemma occupied_insert_same tab i s :
  0 <= i < lenZ tab -> key_at tab i <> 0 -> s_key s <> 0 ->
  occupied (setZ i s tab) = occupied tab.
Proof.
  intros Hi Hk Hs. pose proof (lookup_nthZ tab i Hi) as Hl.
  unfold occupied, setZ.
  rewrite insert_take_drop by (unfold lenZ in Hi; lia).
  rewrite <- (take_drop_middle tab (Z.to_nat i) _ Hl) at 3.
  rewrite !filter_app, !filter_cons, !length_app.
  rewrite !decide_True by done. simpl. lia.
Qed.

Lemma occupied_clear tab i s :
  0 <= i < lenZ tab -> key_at tab i <> 0 -> s_key s = 0 ->
  S (occupied (setZ i s tab)) = occupied tab.
Proof.
  intros Hi Hk Hs. pose proof (lookup_nthZ tab i Hi) as Hl.
  unfold occupied, setZ.
  rewrite insert_take_drop by (unfold lenZ in Hi; lia).
  rewrite <- (take_drop_middle tab (Z.to_nat i) _ Hl) at 3.
  rewrite !filter_app, !filter_cons, !length_app.
  rewrite decide_False by (rewrite Hs; lia). rewrite decide_True by done. simpl. lia.
Qed.

(** A table that is not full has an empty slot. *)
Lemma empty_slot_exists tab :
  Z.of_nat (occupied tab) < lenZ tab -> exists e, 0 <= e < lenZ tab /\ key_at tab e = 0.
Proof.
  unfold occupied, lenZ. induction tab as [| s tab IH]; simpl; intros H; [lia |].
  rewrite filter_cons in H. case_decide as Hs.
  - simpl in H. destruct IH as (e & He & Hk); [lia |].
    exists (e + 1). split; [lia |]. unfold nthZ in *.
    replace (Z.to_nat (e + 1)) with (S (Z.to_nat e)) by lia. done.
  - exists 0. split; [lia |]. unfold nthZ. simpl.
    destruct (Z.eq_dec (s_key s) 0); [done | contradiction].
Qed.

(** Membership in [contents] when no key is stored twice. *)
Lemma contents_lookup_nat (tab : list slot) k v :
  (forall p q s t, tab !! p = Some s -> tab !! q = Some t ->
     s_key s = s_key t -> s_key s <> 0 -> p = q) ->
  contents tab !! k = Some v <-> k <> 0 /\ exists i, tab !! i = Some (Slot k v).
Proof.
  induction tab as [| s tab IH]; intros Hd; simpl.
  { rewrite lookup_empty. split; [done | intros [_ [i Hi]]; done]. }
  assert (Hd' : forall p q s t, tab !! p = Some s -> tab !! q = Some t ->
     s_key s = s_key t -> s_key s <> 0 -> p = q).
  { intros p q s1 t1 Hp Hq E N. pose proof (Hd (S p) (S q) s1 t1 Hp Hq E N). lia. }
  specialize (IH Hd').
  destruct (Z.eqb_spec (s_key s) 0) as [Hz | Hz].
  - rewrite IH. split; intros [Hk [i Hi]]; (split; [done |]).
    + exists (S i). done.
    + destruct i as [| i]; [| eauto]. simpl in Hi. injection Hi as ->. simpl in Hz. done.
  - destruct (decide (s_key s = k)) as [<- | Hne].
    + rewrite lookup_insert_eq. split.
      * intros [= <-]. split; [done |]. exists 0%nat. simpl. destruct s; done.
      * intros [_ [i Hi]]. destruct i as [| i]; simpl in Hi; [injection Hi as ->; done |].
        pose proof (Hd 0%nat (S i) _ _ eq_refl Hi eq_refl Hz). lia.
    + rewrite lookup_insert_ne by done. rewrite IH.
      split; intros [Hk [i Hi]]; (split; [done |]).
      * exists (S i). done.
      * destruct i as [| i]; [| eauto]. simpl in Hi. injection Hi as ->. simpl in Hne. done.
Qed.

Lemma contents_size_nat (tab : list slot) :
  (forall p q s t, tab !! p = Some s -> tab !! q = Some t ->
     s_key s = s_key t -> s_key s <> 0 -> p = q) ->
  size (contents tab) = occupied tab.
Proof.
  unfold occupied. induction tab as [| s tab IH]; intros Hd; simpl; [done |].
  assert (Hd' : forall p q s t, tab !! p = Some s -> tab !! q = Some t ->
     s_key s = s_key t -> s_key s <> 0 -> p = q).
  { intros p q s1 t1 Hp Hq E N. pose proof (Hd (S p) (S q) s1 t1 Hp Hq E N). lia. }
  rewrite filter_cons. destruct (Z.eqb_spec (s_key s) 0) as [Hz | Hz].
  - rewrite decide_False by lia. auto.
  - rewrite decide_True by done. simpl. rewrite map_size_insert_None; [now rewrite IH |].
    destruct (contents tab !! s_key s) as [v |] eqn:E; [| done].
    apply (contents_lookup_nat tab _ _ Hd') in E as [_ [i Hi]].
    pose proof (Hd 0%nat (S i) _ _ eq_refl Hi eq_refl Hz). lia.
Qed.

Section probing.
Context (hash : Z -> Z -> Z) `{!MaskedHash hash}.
Context (n : Z) (tab : list slot).
Hypothesis Hwf : wf_table hash n tab.

Lemma wf_n_pos : 0 < n <= 2 ^ 31.
Proof.
  destruct Hwf as [[b [Hb ->]] _ _ _].
  split; [apply Z.pow_pos_nonneg; lia | apply Z.pow_le_mono_r; lia].
Qed.

Lemma hash_in_range k : 0 <= hash k (n - 1) < n.
Proof. pose proof wf_n_pos. pose proof (masked_hash k (n - 1)). lia. Qed.

Lemma wf_distinct_nat : forall p q s t, tab !! p = Some s -> tab !! q = Some t ->
   s_key s = s_key t -> s_key s <> 0 -> p = q.
Proof.
  intros p q s t Hp Hq E N.
  assert (Hp' : 0 <= Z.of_nat p < n).
  { rewrite <- (wf_len _ _ _ Hwf). unfold lenZ. apply lookup_lt_Some in Hp. lia. }
  assert (Hq' : 0 <= Z.of_nat q < n).
  { rewrite <- (wf_len _ _ _ Hwf). unfold lenZ. apply lookup_lt_Some in Hq. lia. }
  rewrite <- (Nat2Z.id p) in Hp. rewrite <- (Nat2Z.id q) in Hq.
  apply nthZ_lookup in Hp; [| lia]. apply nthZ_lookup in Hq; [| lia].
  pose proof (wf_distinct _ _ _ Hwf (Z.of_nat p) (Z.of_nat q) Hp' Hq') as D.
  rewrite Hp, Hq in D. specialize (D E N). lia.
Qed.

(** What [contents] holds, slot by slot. *)
Lemma contents_lookup k v :
  contents tab !! k = Some v <->
  k <> 0 /\ exists i, 0 <= i < n /\ slot_at tab i = Slot k v.
Proof.
  rewrite contents_lookup_nat by apply wf_distinct_nat.
  pose proof (wf_len _ _ _ Hwf) as Hlen.
  split; intros [Hk [i Hi]]; (split; [done |]).
  - exists (Z.of_nat i). pose proof (lookup_lt_Some _ _ _ Hi). unfold lenZ in Hlen.
    split; [lia |]. apply nthZ_lookup; [lia |]. now rewrite Nat2Z.id.
  - destruct Hi as [Hr <-]. exists (Z.to_nat i). apply lookup_nthZ. lia.
Qed.

Lemma contents_size : size (contents tab) = occupied tab.
Proof. apply contents_size_nat, wf_distinct_nat. Qed.

Lemma contents_key_in i :
  0 <= i < n -> key_at tab i <> 0 -> contents tab !! key_at tab i = Some (s_val (slot_at tab i)).
Proof.
  intros Hi Hk. apply contents_lookup. split; [done |].
  exists i. split; [done |]. now destruct (slot_at tab i).
Qed.

(** The probe loop ends at the first slot that stops it, provided an empty
    slot does. *)
Lemma probe_spec stop i e fuel :
  stop 0 = true -> 0 <= i < n -> 0 <= e < n -> key_at tab e = 0 ->
  dist n i e < Z.of_nat fuel ->
  exists r, probe fuel stop tab (n - 1) i = Some r /\ 0 <= r < n /\
    stop (key_at tab r) = true /\
    forall p, 0 <= p < n -> dist n i p < dist n i r -> stop (key_at tab p) = false.
Proof.
  destruct (wf_size _ _ _ Hwf) as [b [Hb Hn]].
  intros Hs Hi He Hke. revert i Hi. induction fuel as [| fuel IH]; intros i Hi Hf.
  { pose proof (dist_range n i e Hi He). lia. }
  simpl. destruct (stop (key_at tab i)) eqn:Hst.
  { exists i. repeat split; try lia; [done |]. intros p Hp Hd.
    pose proof (dist_range n i p Hi Hp). unfold dist in Hd. bool_lia. }
  assert (Hie : i <> e) by (intros ->; rewrite Hke in Hst; congruence).
  pose proof (next_slot_range n i b Hn Hb Hi) as Hr.
  pose proof (dist_next n i e b Hn Hb Hi He Hie) as Hde.
  destruct (IH _ Hr) as (r & Hpr & Hrr & Hsr & Hmin); [lia |].
  exists r. repeat split; try lia; [done | done |]. intros p Hp Hd.
  destruct (Z.eq_dec i p) as [<- | Hip]; [done |].
  destruct (Z.eq_dec i r) as [<- | Hir]; [congruence |].
  apply Hmin; [done |].
  rewrite !(dist_next n i _ b) by done. lia.
Qed.

(** The stop condition of lookups and stores: an empty slot or the key. *)
Definition stop_key (key k : Z) : bool := (k =? 0) || (k =? key).

(** Probing for a stored key ends at its slot. *)
Lemma probe_key_unique key r q :
  key <> 0 -> 0 <= r < n -> 0 <= q < n ->
  stop_key key (key_at tab r) = true ->
  (forall p, 0 <= p < n -> dist n (hash key (n - 1)) p < dist n (hash key (n - 1)) r ->
     stop_key key (key_at tab p) = false) ->
  key_at tab q = key -> r = q.
Proof.
  intros Hk Hr Hq Hst Hmin Hkq. pose proof (hash_in_range key) as Hh.
  destruct (Z.lt_trichotomy (dist n (hash key (n - 1)) r) (dist n (hash key (n - 1)) q))
    as [Hlt | [Heq | Hgt]].
  - pose proof (wf_reach _ _ _ Hwf q Hq) as Hreach. rewrite Hkq in Hreach.
    specialize (Hreach Hk r Hr Hlt). unfold stop_key in Hst.
    apply orb_true_iff in Hst as [Hst | Hst]; b2p; [lia |].
    apply (wf_distinct _ _ _ Hwf); congruence.
  - eapply dist_inj; [apply Hh | done | done | done].
  - specialize (Hmin q Hq Hgt). unfold stop_key in Hmin. rewrite Hkq in Hmin.
    rewrite Z.eqb_refl, orb_true_r in Hmin. congruence.
Qed.

(** A probe for [key] ends, and the slot it ends at decides membership. *)
Lemma probe_key_spec key :
  key <> 0 -> Z.of_nat (occupied tab) < n ->
  exists r, probe (length tab) (stop_key key) tab (n - 1) (hash key (n - 1)) = Some r /\
    0 <= r < n /\
    (key_at tab r = 0 \/ key_at tab r = key) /\
    (key_at tab r = 0 -> contents tab !! key = None) /\
    (key_at tab r = key -> contents tab !! key = Some (s_val (slot_at tab r))) /\
    (forall p, 0 <= p < n -> dist n (hash key (n - 1)) p < dist n (hash key (n - 1)) r ->
       key_at tab p <> 0).
Proof.
  intros Hk Hocc. pose proof (wf_len _ _ _ Hwf) as Hlen.
  destruct (empty_slot_exists tab) as (e & He & Hke); [lia |]. rewrite Hlen in He.
  pose proof (hash_in_range key) as Hh.
  pose proof (dist_range n _ _ Hh He) as Hde.
  destruct (probe_spec (stop_key key) (hash key (n - 1)) e (length tab)) as (r & Hp & Hr & Hst & Hmin);
    try done; [unfold lenZ in Hlen; lia |].
  exists r. split; [done |]. split; [done |]. split.
  { unfold stop_key in Hst. apply orb_true_iff in Hst as [Hst | Hst]; b2p; auto. }
  split; [| split].
  - intros Hz. destruct (contents tab !! key) as [v |] eqn:E; [| done].
    apply contents_lookup in E as [_ (q & Hq & Hsq)].
    assert (Hkq : key_at tab q = key) by now rewrite Hsq.
    pose proof (probe_key_unique key r q Hk Hr Hq Hst Hmin Hkq) as ->. congruence.
  - intros Hkr. rewrite <- Hkr. apply contents_key_in; [done | congruence].
  - intros p Hp' Hd. specialize (Hmin p Hp' Hd). unfold stop_key in Hmin. b2p. lia.
Qed.
End probing.

(** ** Storing a key *)

Section storing.
Context (hash : Z -> Z -> Z) `{!MaskedHash hash}.
Context (n : Z) (tab : list slot).
Hypothesis Hwf : wf_table hash n tab.
Context (key v r : Z).
Hypothesis Hkey : key <> 0.
Hypothesis Hr : 0 <= r < n.

(** [r] is where the store may go: the key's own slot, or an empty slot at
    the end of the key's occupied probe path when the key is absent. *)
Definition store_ok : Prop :=
  key_at tab r = key \/
  (key_at tab r = 0 /\ contents tab !! key = None /\
   forall p, 0 <= p < n -> dist n (hash key (n - 1)) p < dist n (hash key (n - 1)) r ->
     key_at tab p <> 0).

Hypothesis Hok : store_ok.

Lemma store_slot_at p :
  0 <= p -> slot_at (setZ r (Slot key v) tab) p = if r =? p then Slot key v else slot_at tab p.
Proof. intros. apply nthZ_setZ; [| done]. now rewrite (wf_len _ _ _ Hwf). Qed.

Lemma store_key_elsewhere p : 0 <= p < n -> p <> r -> key_at tab p <> key.
Proof.
  intros Hp Hpr E. destruct Hok as [Hk | (Hz & Hnone & _)].
  - apply Hpr. apply (wf_distinct _ _ _ Hwf); congruence.
  - pose proof (contents_key_in hash n tab Hwf p Hp) as C. rewrite E, Hnone in C.
    specialize (C Hkey). congruence.
Qed.

Lemma store_wf : wf_table hash n (setZ r (Slot key v) tab).
Proof.
  pose proof (store_key_elsewhere) as Helse.
  split.
  - apply (wf_size _ _ _ Hwf).
  - rewrite lenZ_setZ. apply (wf_len _ _ _ Hwf).
  - intros p q Hp Hq. rewrite !store_slot_at by lia.
    destruct (Z.eqb_spec r p) as [<- | Hrp], (Z.eqb_spec r q) as [<- | Hrq]; simpl; intros E N.
    + done.
    + destruct (Helse q); [done | auto | congruence].
    + destruct (Helse p); [done | auto | congruence].
    + apply (wf_distinct _ _ _ Hwf); done.
  - intros q Hq. rewrite store_slot_at by lia.
    destruct (Z.eqb_spec r q) as [<- | Hrq]; simpl; intros N p Hp; rewrite store_slot_at by lia;
      destruct (Z.eqb_spec r p) as [<- | Hrp]; simpl; try done.
    + intros Hd. destruct Hok as [Hk | (Hz & Hnone & Hpath)].
      * rewrite <- Hk in Hd. apply (wf_reach _ _ _ Hwf r); [done | congruence | done | done].
      * apply Hpath; done.
    + intros Hd. apply (wf_reach _ _ _ Hwf q); done.
Qed.

Lemma store_contents : contents (setZ r (Slot key v) tab) = <[key := v]> (contents tab).
Proof.
  pose proof store_wf as Hwf'.
  apply map_eq. intros k. apply option_eq. intros x.
  rewrite (contents_lookup hash n _ Hwf').
  destruct (decide (key = k)) as [<- | Hne].
  - rewrite lookup_insert_eq. split.
    + intros [_ (i & Hi & Hs)]. rewrite store_slot_at in Hs by lia.
      destruct (Z.eqb_spec r i) as [<- | Hri]; [congruence |].
      destruct (store_key_elsewhere i); [done | done |]. now rewrite Hs.
    + intros [= <-]. split; [done |]. exists r. split; [done |].
      rewrite store_slot_at, Z.eqb_refl by lia. done.
  - rewrite lookup_insert_ne by done. rewrite (contents_lookup hash n _ Hwf).
    split; intros [Hk (i & Hi & Hs)]; (split; [done |]); exists i; (split; [done |]).
    + rewrite store_slot_at in Hs by lia. destruct (Z.eqb_spec r i); [congruence | done].
    + rewrite store_slot_at by lia. destruct (Z.eqb_spec r i) as [<- | ]; [| done].
      destruct Hok as [Hk' | (Hz & _)]; rewrite Hs in *; simpl in *; congruence.
Qed.
End storing.

(** ** Backward-shift deletion *)

(** The loop of [chunk_tab_del]: [i] is the hole, [j] the slot examined. *)
Fixpoint del_loop (hash : Z -> Z -> Z) (fuel : nat) (tab : list slot) (mask i j : Z)
    : option (list slot * Z) :=
  match fuel with
  | O => None
  | S fuel' =>
      let j := next_slot mask j in
      if key_at tab j =? 0 then Some (tab, i)
      else
        let h := hash (key_at tab j) mask in
        let stays := if i <=? j then (i <? h) && (h <=? j) else (i <? h) || (h <=? j) in
        if stays then del_loop hash fuel' tab mask i j
        else del_loop hash fuel' (setZ i (slot_at tab j) tab) mask j j
  end.

(** The entry at [j] may stay exactly when its probe path avoids the hole. *)
Lemma stays_spec n i j h :
  0 <= i < n -> 0 <= j < n -> 0 <= h < n -> i <> j ->
  (if i <=? j then (i <? h) && (h <=? j) else (i <? h) || (h <=? j)) = negb (dist n h i <? dist n h j).
Proof. intros. unfold dist. bool_lia. Qed.

(** A path through [i] splits there. *)
Lemma dist_split n h i q :
  0 <= h < n -> 0 <= i < n -> 0 <= q < n -> dist n h i <= dist n h q ->
  dist n h q = dist n h i + dist n i q.
Proof. unfold dist. intros. bool_lia. Qed.

Lemma dist_prefix n h i q x :
  0 <= h < n -> 0 <= i < n -> 0 <= q < n -> 0 <= x < n ->
  dist n h i <= dist n h q -> dist n i x <= dist n i q ->
  dist n h x = dist n h i + dist n i x.
Proof. unfold dist. intros. bool_lia. Qed.

(** The loop invariant: the table with the hole at [i] ignored holds [m], and
    only entries past [j] may have probe paths through the hole. *)
Record del_inv (hash : Z -> Z -> Z) (n : Z) (m : gmap Z Z) (tab : list slot) (i j : Z) : Prop := {
  di_size : exists b, 0 <= b <= 31 /\ n = 2 ^ b;
  di_len : lenZ tab = n;
  di_i : 0 <= i < n;
  di_j : 0 <= j < n;
  di_distinct : forall p q, 0 <= p < n -> 0 <= q < n -> p <> i -> q <> i ->
    key_at tab p = key_at tab q -> key_at tab p <> 0 -> p = q;
  di_full : forall p, 0 <= p < n -> p <> i -> dist n i p <= dist n i j -> key_at tab p <> 0;
  di_reach : forall q, 0 <= q < n -> q <> i -> key_at tab q <> 0 ->
    forall p, 0 <= p < n -> p <> i ->
      dist n (hash (key_at tab q) (n - 1)) p < dist n (hash (key_at tab q) (n - 1)) q ->
      key_at tab p <> 0;
  di_past : forall q, 0 <= q < n -> q <> i -> key_at tab q <> 0 ->
    dist n (hash (key_at tab q) (n - 1)) i < dist n (hash (key_at tab q) (n - 1)) q ->
    dist n i j < dist n i q;
  di_holds : forall k v, m !! k = Some v <->
    k <> 0 /\ exists q, 0 <= q < n /\ q <> i /\ slot_at tab q = Slot k v
}.

Section deleting.
Context (hash : Z -> Z -> Z) `{!MaskedHash hash}.
Context (n : Z) (m : gmap Z Z).

Lemma del_inv_init tab i :
  wf_table hash n tab -> 0 <= i < n -> key_at tab i <> 0 ->
  del_inv hash n (delete (key_at tab i) (contents tab)) tab i i.
Proof.
  intros Hwf Hi Hk. split; try apply Hwf; try done.
  - intros p q Hp Hq _ _. apply (wf_distinct _ _ _ Hwf); done.
  - intros p Hp Hne Hd. unfold dist in Hd. bool_lia.
  - intros q Hq _ N p Hp _. apply (wf_reach _ _ _ Hwf q); done.
  - intros q Hq Hne N _. unfold dist. bool_lia.
  - intros k v. destruct (decide (key_at tab i = k)) as [<- | Hne].
    + rewrite lookup_delete_eq. split; [done |]. intros [_ (q & Hq & Hqi & Hs)].
      destruct Hqi. apply (wf_distinct _ _ _ Hwf); [done | done | now rewrite Hs | now rewrite Hs].
    + rewrite lookup_delete_ne by done. rewrite (contents_lookup hash n tab Hwf).
      split; intros [Hkz (q & Hq)]; (split; [done |]); exists q; [| tauto].
      destruct Hq as [Hq Hs]. split; [done |]. split; [| done]. intros ->. apply Hne. now rewrite Hs.
Qed.

Lemma del_hash_range b k : n = 2 ^ b -> 0 <= b <= 31 -> 0 <= hash k (n - 1) < n.
Proof using MaskedHash0.
  intros -> Hb. assert (0 < 2 ^ b) by (apply Z.pow_pos_nonneg; lia).
  pose proof (masked_hash k (2 ^ b - 1)). lia.
Qed.

Section step.
Context (tab : list slot) (i j e b : Z).
Hypothesis Hinv : del_inv hash n m tab i j.
Hypothesis He : 0 <= e < n /\ e <> i /\ key_at tab e = 0.
Hypothesis Hb : n = 2 ^ b /\ 0 <= b <= 31.

Let j' := next_slot (n - 1) j.

Lemma del_next : 0 <= j' < n /\ j' <> i /\ dist n i j' = dist n i j + 1 /\ dist n j' e = dist n j e - 1.
Proof.
  destruct Hinv as [_ _ Hi Hj _ Hfull _ _ _], He as (He' & Hei & Hke), Hb as [Hn Hb'].
  assert (Hlt : dist n i j < dist n i e).
  { destruct (Z.le_gt_cases (dist n i e) (dist n i j)) as [Hle | Hgt]; [| done].
    destruct (Hfull e He' Hei Hle). done. }
  subst j'. rewrite (next_slot_spec n j b) by done. unfold dist in *. bool_lia.
Qed.

(** Clearing the hole when the cluster ends at [j']. *)
Lemma del_finish :
  key_at tab j' = 0 ->
  wf_table hash n (setZ i empty_slot tab) /\ contents (setZ i empty_slot tab) = m.
Proof.
  destruct Hinv as [Hsz Hlen Hi Hj Hdist Hfull Hreach Hpast Hholds].
  destruct del_next as (Hj' & Hji & Hdj & _). intros Hkz.
  assert (Hat : forall p, 0 <= p ->
    slot_at (setZ i empty_slot tab) p = if i =? p then empty_slot else slot_at tab p).
  { intros p Hp. apply nthZ_setZ; lia. }
  assert (Hw : wf_table hash n (setZ i empty_slot tab)).
  { split; [done | now rewrite lenZ_setZ | |].
    - intros p q Hp Hq. rewrite !Hat by lia.
      destruct (Z.eqb_spec i p), (Z.eqb_spec i q); simpl; intros; try congruence.
      apply Hdist; auto.
    - intros q Hq. rewrite Hat by lia. destruct (Z.eqb_spec i q) as [| Hiq]; simpl; [done |].
      intros N p Hp Hd. rewrite Hat by lia.
      destruct (Z.eqb_spec i p) as [<- | Hip]; simpl; [| apply (Hreach q); auto].
      assert (Hlt := Hpast q Hq ltac:(auto) N Hd).
      pose proof (del_hash_range b (key_at tab q) (proj1 Hb) (proj2 Hb)) as Hh.
      set (h := hash (key_at tab q) (n - 1)) in *.
      assert (Hqj : j' <> q) by congruence.
      assert (Hdq : dist n i j' < dist n i q).
      { destruct (Z.eq_dec (dist n i j') (dist n i q)) as [E | E]; [| lia].
        destruct Hqj. eapply dist_inj; [| | | exact E]; done. }
      pose proof (dist_split n h i q Hh Hi Hq ltac:(lia)).
      pose proof (dist_prefix n h i q j' Hh Hi Hq Hj' ltac:(lia) ltac:(lia)).
      destruct (Hreach q Hq ltac:(auto) N j' Hj' Hji); [fold h; lia | done]. }
  split; [done |]. apply map_eq. intros k. apply option_eq. intros v.
  rewrite (contents_lookup hash n _ Hw), Hholds.
  split; intros [Hk (q & Hq)]; (split; [done |]); exists q.
  - destruct Hq as [Hq Hs]. rewrite Hat in Hs by lia.
    destruct (Z.eqb_spec i q); [injection Hs; congruence | auto].
  - destruct Hq as (Hq & Hqi & Hs). split; [done |]. rewrite Hat by lia.
    destruct (Z.eqb_spec i q); [congruence | done].
Qed.

(** The entry at [j'] stays: the hole does not move. *)
Lemma del_stay :
  key_at tab j' <> 0 ->
  ~ dist n (hash (key_at tab j') (n - 1)) i < dist n (hash (key_at tab j') (n - 1)) j' ->
  del_inv hash n m tab i j'.
Proof.
  destruct Hinv as [Hsz Hlen Hi Hj Hdist Hfull Hreach Hpast Hholds].
  destruct del_next as (Hj' & Hji & Hdj & _). intros Hk Hst.
  split; try done.
  - intros p Hp Hpi Hd. destruct (Z.eq_dec p j') as [-> | Hpj]; [done |].
    apply Hfull; [done | done |].
    destruct (Z.eq_dec (dist n i p) (dist n i j')) as [E | E]; [| lia].
    destruct Hpj. eapply dist_inj; [| | | exact E]; done.
  - intros q Hq Hqi N Hd. pose proof (Hpast q Hq Hqi N Hd) as Hlt.
    destruct (Z.eq_dec q j') as [-> | Hqj]; [done |].
    destruct (Z.eq_dec (dist n i j') (dist n i q)) as [E | E]; [| lia].
    destruct Hqj. symmetry. eapply dist_inj; [| | | exact E]; done.
Qed.

(** The entry at [j'] moves into the hole, which becomes [j']. *)
Lemma del_move :
  key_at tab j' <> 0 ->
  dist n (hash (key_at tab j') (n - 1)) i < dist n (hash (key_at tab j') (n - 1)) j' ->
  del_inv hash n m (setZ i (slot_at tab j') tab) j' j'.
Proof.
  destruct Hinv as [Hsz Hlen Hi Hj Hdist Hfull Hreach Hpast Hholds].
  destruct del_next as (Hj' & Hji & Hdj & _). intros Hk Hmv.
  assert (Hat : forall p, 0 <= p ->
    slot_at (setZ i (slot_at tab j') tab) p = if i =? p then slot_at tab j' else slot_at tab p).
  { intros p Hp. apply nthZ_setZ; lia. }
  split; try done.
  - now rewrite lenZ_setZ.
  - intros p q Hp Hq Hpj Hqj. rewrite !Hat by lia.
    destruct (Z.eqb_spec i p) as [Ep | Hip], (Z.eqb_spec i q) as [Eq | Hiq]; intros E N.
    + congruence.
    + destruct Hqj. symmetry. apply Hdist; auto.
    + destruct Hpj. apply Hdist; auto.
    + apply Hdist; auto.
  - intros p Hp Hpj Hd. unfold dist in Hd. bool_lia.
  - intros q Hq Hqj N p Hp Hpj Hd.
    rewrite (Hat q) in N, Hd by lia. rewrite (Hat p) by lia.
    destruct (Z.eqb_spec i p) as [Ep | Hip]; [done |].
    destruct (Z.eqb_spec i q) as [<- | Hiq].
    + apply (Hreach j'); auto. lia.
    + apply (Hreach q); auto.
  - intros q Hq Hqj N _. unfold dist. bool_lia.
  - intros k v. rewrite Hholds.
    split; intros [Hkz (q & Hq)]; (split; [done |]).
    + destruct Hq as (Hq & Hqi & Hs). destruct (Z.eq_dec q j') as [-> | Hqj].
      * exists i. repeat split; try lia. rewrite Hat, Z.eqb_refl by lia. done.
      * exists q. repeat split; try lia. rewrite Hat by lia.
        destruct (Z.eqb_spec i q); [congruence | done].
    + destruct Hq as (Hq & Hqj & Hs). rewrite Hat in Hs by lia.
      destruct (Z.eqb_spec i q) as [-> | Hiq].
      * exists j'. auto.
      * exists q. auto.
Qed.
End step.

(** The deletion loop ends within a turn of the table, and clearing the hole
    it ends with leaves a well-formed table that holds [m]. *)
Lemma del_loop_spec fuel tab i j e :
  del_inv hash n m tab i j ->
  0 <= e < n -> e <> i -> key_at tab e = 0 -> dist n j e <= Z.of_nat fuel -> (0 < fuel)%nat ->
  exists tab' i', del_loop hash fuel tab (n - 1) i j = Some (tab', i') /\
    wf_table hash n (setZ i' empty_slot tab') /\ contents (setZ i' empty_slot tab') = m /\
    0 <= i' < n /\ lenZ tab' = n.
Proof.
  revert tab i j. induction fuel as [| fuel IH]; intros tab i j Hinv He Hei Hke Hf H0; [lia |].
  destruct (di_size _ _ _ _ _ _ Hinv) as [b [Hb Hn]].
  pose proof (del_next tab i j e b Hinv (conj He (conj Hei Hke)) (conj Hn Hb)) as (Hj' & Hji & Hdj & Hde).
  simpl. set (j' := next_slot (n - 1) j) in *.
  destruct (Z.eqb_spec (key_at tab j') 0) as [Hz | Hnz].
  - exists tab, i.
    destruct (del_finish tab i j e b Hinv (conj He (conj Hei Hke)) (conj Hn Hb) Hz).
    split; [done |]. split; [done |]. split; [done |].
    split; [apply (di_i _ _ _ _ _ _ Hinv) | apply (di_len _ _ _ _ _ _ Hinv)].
  - assert (Hej : e <> j') by congruence.
    assert (0 < dist n j' e) by (pose proof (dist_range n j' e Hj' He); unfold dist in *; bool_lia).
    pose proof (del_hash_range b (key_at tab j') Hn Hb) as Hh.
    rewrite (stays_spec n i j') by (try apply (di_i _ _ _ _ _ _ Hinv); auto).
    destruct (Z.ltb_spec (dist n (hash (key_at tab j') (n - 1)) i)
                         (dist n (hash (key_at tab j') (n - 1)) j')) as [Hmv | Hst]; simpl.
    + apply IH; try done; try lia.
      * apply (del_move tab i j e b Hinv (conj He (conj Hei Hke)) (conj Hn Hb) Hnz Hmv).
      * rewrite nthZ_setZ by (rewrite ?(di_len _ _ _ _ _ _ Hinv); try apply (di_i _ _ _ _ _ _ Hinv); lia).
        destruct (Z.eqb_spec i e); [congruence | done].
    + apply IH; try done; try lia. apply (del_stay tab i j e b Hinv (conj He (conj Hei Hke)) (conj Hn Hb) Hnz). fold j'. lia.
Qed.
End deleting.
