(* ===== verification/ChunkTable.v ===== *)
(** * The request chunk set (qjs-arena.h, qjs-arena.c)

    [js_arena_chunk_tab]/[_mask]/[_count]: the per-thread hash set that maps
    every 4 KiB chunk of request memory to the request arena that owns it.
    Operations: registering the chunks of an extent, dropping an extent's
    chunks (backward-shift deletion), dropping every chunk of an arena, and
    the owner lookup behind [free]/[realloc]/[usable_size].

    The specification is [owner_of]: the owner of an address, 0 (NULL) for
    addresses outside request memory.  The theorems show each operation
    terminates, keeps the table well formed and changes [owner_of] exactly on
    the addresses it names; allocation failure is an argument. *)

From stdpp Require Import base list numbers gmap.
From Stdlib Require Import ZArith Lia.
From S2P Require Import Prelude ProbeTable.

(** ** State and operations *)

Definition JS_ARENA_CHUNK_SHIFT : Z := 12.
Definition JS_ARENA_CHUNK_SIZE : Z := Z.shiftl 1 JS_ARENA_CHUNK_SHIFT.
Definition JS_ARENA_CHUNK_TAB_INITIAL : Z := 64.

(** The thread's three variables; [None] is a NULL table. *)
Record chunk_set := ChunkSet {
  js_arena_chunk_tab : option (list slot);
  js_arena_chunk_mask : Z;
  js_arena_chunk_count : Z
}.

Definition chunk_set_init : chunk_set := ChunkSet None 0 0.

Definition js_arena_chunk_hash (key mask : Z) : Z :=
  let v := u64 (key * 0x9E3779B97F4A7C15) in
  Z.land (u32 (Z.shiftr v 32)) mask.

(** [js_arena_ptr_request_owner]: the owning arena, 0 for NULL. *)
Definition js_arena_ptr_request_owner (st : chunk_set) (p : Z) : run Z :=
  match js_arena_chunk_tab st with
  | None => Done 0
  | Some tab =>
      let key := Z.shiftr p JS_ARENA_CHUNK_SHIFT + 1 in
      let mask := js_arena_chunk_mask st in
      let* i := of_option (probe (length tab) (stop_key key) tab mask (js_arena_chunk_hash key mask)) in
      if key_at tab i =? 0 then Done 0 else Done (s_val (slot_at tab i))
  end.

Definition js_arena_ptr_is_request (st : chunk_set) (p : Z) : run bool :=
  let* o := js_arena_ptr_request_owner st p in Done (negb (o =? 0)).

Definition chunk_tab_put (tab : list slot) (mask key owner : Z) : run (list slot) :=
  let* i := of_option (probe (length tab) (stop_key key) tab mask (js_arena_chunk_hash key mask)) in
  Done (setZ i (Slot key owner) tab).

(** The copy loop of [chunk_tab_rebuild] over the old table's slots. *)
Fixpoint chunk_tab_rebuild_loop (old : list slot) (drop : Z) (nt : list slot) (nmask kept : Z)
    : run (list slot * Z) :=
  match old with
  | [] => Done (nt, kept)
  | e :: old' =>
      if negb (s_key e =? 0) && negb (s_val e =? 0) && negb (s_val e =? drop) then
        let* nt := chunk_tab_put nt nmask (s_key e) (s_val e) in
        chunk_tab_rebuild_loop old' drop nt nmask (u32 (kept + 1))
      else chunk_tab_rebuild_loop old' drop nt nmask kept
  end.

(** [calloc_ok] says whether [calloc] succeeds; [drop = 0] drops nothing. *)
Definition chunk_tab_rebuild (calloc_ok : bool) (st : chunk_set) (new_size drop : Z)
    : run (Z * chunk_set) :=
  if negb calloc_ok then Done (-1, st)
  else
    let nt := replicate (Z.to_nat new_size) empty_slot in
    let nmask := u32 (new_size - 1) in
    let* (nt, kept) :=
      match js_arena_chunk_tab st with
      | Some tab => chunk_tab_rebuild_loop tab drop nt nmask 0
      | None => Done (nt, 0)
      end in
    Done (0, ChunkSet (Some nt) nmask kept).

(** [while ((size_t)size < need * 2) size *= 2;] on a [uint32_t].  After 32
    doublings the size has wrapped to 0 and the loop cannot end, so 33 tests
    decide. *)
Fixpoint grow_size (fuel : nat) (size need : Z) : run Z :=
  match fuel with
  | O => Spins
  | S fuel' =>
      if size <? u64 (need * 2) then grow_size fuel' (u32 (size * 2)) need
      else Done size
  end.

(** [for (c = 0; c < n; c++) chunk_tab_put(tab, mask, first + c + 1, owner);] *)
Fixpoint chunk_tab_put_range (n : nat) (tab : list slot) (mask key owner : Z) : run (list slot) :=
  match n with
  | O => Done tab
  | S n' =>
      let* tab := chunk_tab_put tab mask key owner in
      chunk_tab_put_range n' tab mask (key + 1) owner
  end.

Definition js_arena_register_request (calloc_ok : bool) (st : chunk_set) (lo hi owner : Z)
    : run (Z * chunk_set) :=
  let* _ := assert_ (Z.land lo (JS_ARENA_CHUNK_SIZE - 1) =? 0) in
  let* _ := assert_ (Z.land hi (JS_ARENA_CHUNK_SIZE - 1) =? 0) in
  let first := Z.shiftr lo JS_ARENA_CHUNK_SHIFT in
  let n := u64 (Z.shiftr hi JS_ARENA_CHUNK_SHIFT - first) in
  let need := u64 (js_arena_chunk_count st + n) in
  let size := if js_arena_chunk_mask st =? 0 then JS_ARENA_CHUNK_TAB_INITIAL
              else u32 (js_arena_chunk_mask st + 1) in
  let* size := grow_size 33 size need in
  let* (rc, st) :=
    if negb (size =? u32 (js_arena_chunk_mask st + 1))
    then chunk_tab_rebuild calloc_ok st size 0
    else Done (0, st) in
  if rc <? 0 then Done (-1, st)
  else
    match js_arena_chunk_tab st with
    | None => Aborts
    | Some tab =>
        let* tab := chunk_tab_put_range (Z.to_nat n) tab (js_arena_chunk_mask st) (first + 1) owner in
        Done (0, ChunkSet (Some tab) (js_arena_chunk_mask st) (u32 (js_arena_chunk_count st + u32 n)))
    end.

Definition chunk_tab_del (tab : list slot) (mask i : Z) : run (list slot) :=
  let* (tab, i) := of_option (del_loop js_arena_chunk_hash (length tab) tab mask i i) in
  Done (setZ i empty_slot tab).

(** The loop of [js_arena_unregister_request_range] over the range's keys. *)
Fixpoint chunk_tab_del_range (n : nat) (tab : list slot) (mask key count : Z) : run (list slot * Z) :=
  match n with
  | O => Done (tab, count)
  | S n' =>
      let* i := of_option (probe (length tab) (stop_key key) tab mask (js_arena_chunk_hash key mask)) in
      if key_at tab i =? 0 then chunk_tab_del_range n' tab mask (key + 1) count
      else
        let* tab := chunk_tab_del tab mask i in
        chunk_tab_del_range n' tab mask (key + 1) (u32 (count - 1))
  end.

Definition js_arena_unregister_request_range (st : chunk_set) (lo hi : Z) : run chunk_set :=
  match js_arena_chunk_tab st with
  | None => Done st
  | Some tab =>
      let first := Z.shiftr lo JS_ARENA_CHUNK_SHIFT in
      let n := u64 (Z.shiftr hi JS_ARENA_CHUNK_SHIFT - first) in
      let mask := js_arena_chunk_mask st in
      let* (tab, count) :=
        chunk_tab_del_range (Z.to_nat n) tab mask (first + 1) (js_arena_chunk_count st) in
      if count =? 0 then Done (ChunkSet None 0 count)
      else Done (ChunkSet (Some tab) mask count)
  end.

Definition js_arena_unregister_request (calloc_ok : bool) (st : chunk_set) (owner : Z) : run chunk_set :=
  match js_arena_chunk_tab st with
  | None => Done st
  | Some tab =>
      let live := length (List.filter (fun s => negb (s_key s =? 0) && negb (s_val s =? 0)
                                           && negb (s_val s =? owner)) tab) in
      if (live =? 0)%nat then Done (ChunkSet None 0 0)
      else
        let* (rc, st') :=
          chunk_tab_rebuild calloc_ok st (u32 (js_arena_chunk_mask st + 1)) owner in
        if rc <? 0 then
          let blank s := if s_val s =? owner then Slot (s_key s) 0 else s in
          Done (ChunkSet (Some (map blank tab)) (js_arena_chunk_mask st) (js_arena_chunk_count st))
        else Done st'
  end.

(** ** Specification *)

(** The finite map from chunk keys to owners. *)
Definition owners (st : chunk_set) : gmap Z Z :=
  match js_arena_chunk_tab st with Some tab => contents tab | None => ∅ end.

(** The owner of an address; 0 for memory no request arena owns. *)
Definition owner_of (st : chunk_set) (p : Z) : Z :=
  default 0 (owners st !! (Z.shiftr p JS_ARENA_CHUNK_SHIFT + 1)).

(** A NULL table has mask and count 0; a table has [n = mask + 1 >= 64] slots,
    is at most half full by [count], and holds at most [count] keys. *)
Definition wf_set (st : chunk_set) : Prop :=
  match js_arena_chunk_tab st with
  | None => js_arena_chunk_mask st = 0 /\ js_arena_chunk_count st = 0
  | Some tab =>
      let n := js_arena_chunk_mask st + 1 in
      wf_table js_arena_chunk_hash n tab /\ 64 <= n /\
      Z.of_nat (occupied tab) <= js_arena_chunk_count st /\
      js_arena_chunk_count st * 2 <= n
  end.

#[export] Instance chunk_hash_masked : MaskedHash js_arena_chunk_hash.
Proof.
  intros k mask Hm. unfold js_arena_chunk_hash.
  set (v := u32 _). assert (0 <= v < 2 ^ 32) by apply u32_range.
  split; [apply Z.land_nonneg; lia |].
  apply Z.ldiff_le; [lia |].
  apply Z.bits_inj'. intros i Hi. rewrite Z.ldiff_spec, Z.land_spec, Z.testbit_0_l.
  now destruct (Z.testbit v i), (Z.testbit mask i).
Qed.

(** ** The table operations as map operations *)

(** [chunk_tab_put] on a table with room is a map insertion. *)
Lemma chunk_tab_put_spec n tab key owner :
  wf_table js_arena_chunk_hash n tab -> key <> 0 -> Z.of_nat (occupied tab) < n ->
  exists tab', chunk_tab_put tab (n - 1) key owner = Done tab' /\
    wf_table js_arena_chunk_hash n tab' /\
    contents tab' = <[key := owner]> (contents tab) /\
    (occupied tab' <= S (occupied tab))%nat /\
    (contents tab !! key = None -> occupied tab' = S (occupied tab)).
Proof.
  intros Hwf Hk Hocc.
  destruct (probe_key_spec js_arena_chunk_hash n tab Hwf key Hk Hocc)
    as (r & Hp & Hr & Hcase & Hnone & Hsome & Hpath).
  assert (Hok : store_ok js_arena_chunk_hash n tab key r).
  { unfold store_ok. destruct Hcase as [Hz | He]; [right | left]; auto. }
  exists (setZ r (Slot key owner) tab). unfold chunk_tab_put. rewrite Hp. simpl.
  assert (Hlen := wf_len _ _ _ Hwf).
  split; [done |]. split; [by apply store_wf |]. split; [by eapply store_contents |].
  destruct Hcase as [Hz | He].
  - rewrite occupied_insert_new by (simpl; lia). lia.
  - rewrite occupied_insert_same by (simpl; lia). split; [lia |].
    intros Hn. rewrite (Hsome He) in Hn. done.
Qed.

(** The owner lookup reads the map. *)
Lemma probe_lookup n tab key :
  wf_table js_arena_chunk_hash n tab -> key <> 0 -> Z.of_nat (occupied tab) < n ->
  exists i, probe (length tab) (stop_key key) tab (n - 1) (js_arena_chunk_hash key (n - 1)) = Some i /\
    0 <= i < n /\
    (key_at tab i = 0 -> contents tab !! key = None) /\
    (key_at tab i <> 0 -> key_at tab i = key /\ contents tab !! key = Some (s_val (slot_at tab i))).
Proof.
  intros Hwf Hk Hocc.
  destruct (probe_key_spec js_arena_chunk_hash n tab Hwf key Hk Hocc)
    as (r & Hp & Hr & Hcase & Hnone & Hsome & _).
  exists r. split; [done |]. split; [done |]. split; [done |].
  intros Hnz. destruct Hcase as [Hz | He]; [done | auto].
Qed.

(** Backward-shift deletion of a stored key is a map deletion. *)
Lemma chunk_tab_del_spec n tab i :
  wf_table js_arena_chunk_hash n tab -> 0 <= i < n -> key_at tab i <> 0 ->
  Z.of_nat (occupied tab) < n ->
  exists tab', chunk_tab_del tab (n - 1) i = Done tab' /\
    wf_table js_arena_chunk_hash n tab' /\
    contents tab' = delete (key_at tab i) (contents tab) /\
    S (occupied tab') = occupied tab.
Proof.
  intros Hwf Hi Hk Hocc. pose proof (wf_len _ _ _ Hwf) as Hlen.
  destruct (empty_slot_exists tab) as (e & He & Hke); [lia |]. rewrite Hlen in He.
  pose proof (dist_range n i e Hi He) as Hd.
  destruct (del_loop_spec js_arena_chunk_hash n (delete (key_at tab i) (contents tab))
              (length tab) tab i i e) as (tab' & i' & Hloop & Hwf' & Hc & Hi' & Hl'); try done.
  - by apply del_inv_init.
  - intros ->. done.
  - unfold lenZ in Hlen. lia.
  - unfold lenZ in Hlen. lia.
  - exists (setZ i' empty_slot tab'). unfold chunk_tab_del. rewrite Hloop. simpl.
    split; [done |]. split; [done |]. split; [done |].
    rewrite <- (contents_size _ _ _ Hwf'), <- (contents_size _ _ _ Hwf), Hc.
    pose proof (contents_key_in _ n tab Hwf i Hi Hk) as Hin.
    rewrite map_size_delete_Some; [| eexists; exact Hin].
    assert (size (contents tab) <> 0%nat) by (rewrite map_size_ne_0_lookup; eauto).
    lia.
Qed.

(** Registering a run of keys. *)
Lemma put_range_spec n cnt tab key owner :
  wf_table js_arena_chunk_hash n tab -> 0 < key ->
  Z.of_nat (occupied tab) + Z.of_nat cnt < n ->
  exists tab', chunk_tab_put_range cnt tab (n - 1) key owner = Done tab' /\
    wf_table js_arena_chunk_hash n tab' /\
    (occupied tab' <= occupied tab + cnt)%nat /\
    forall k, contents tab' !! k =
      if (key <=? k) && (k <? key + Z.of_nat cnt) then Some owner else contents tab !! k.
Proof.
  revert tab key. induction cnt as [| cnt IH]; intros tab key Hwf Hk Hocc.
  - exists tab. simpl. split; [done |]. split; [done |]. split; [lia |].
    intros k. bool_lia.
  - destruct (chunk_tab_put_spec n tab key owner Hwf ltac:(lia) ltac:(lia))
      as (tab1 & Hput & Hwf1 & Hc1 & Ho1 & _).
    destruct (IH tab1 (key + 1) Hwf1 ltac:(lia) ltac:(lia)) as (tab2 & Hr & Hwf2 & Ho2 & Hc2).
    exists tab2. simpl. rewrite Hput. simpl. split; [done |]. split; [done |]. split; [lia |].
    intros k. rewrite Hc2, Hc1.
    destruct (decide (key = k)) as [<- | Hne].
    + rewrite lookup_insert_eq. bool_lia.
    + rewrite lookup_insert_ne by done. bool_lia.
Qed.

(** Dropping a run of keys. *)
Lemma del_range_spec n cnt tab key count :
  wf_table js_arena_chunk_hash n tab -> 0 < key ->
  Z.of_nat (occupied tab) <= count -> count < n ->
  exists tab' count', chunk_tab_del_range cnt tab (n - 1) key count = Done (tab', count') /\
    wf_table js_arena_chunk_hash n tab' /\
    Z.of_nat (occupied tab') <= count' <= count /\
    (forall k, contents tab' !! k =
      if (key <=? k) && (k <? key + Z.of_nat cnt) then None else contents tab !! k) /\
    ((forall k, key <= k < key + Z.of_nat cnt -> contents tab !! k <> None) ->
     count' = count - Z.of_nat cnt).
Proof.
  revert tab key count. induction cnt as [| cnt IH]; intros tab key count Hwf Hk Hocc Hn.
  - exists tab, count. simpl. split; [done |]. split; [done |]. split; [lia |].
    split; [intros k; bool_lia | lia].
  - destruct (probe_lookup n tab key Hwf ltac:(lia) ltac:(lia)) as (i & Hp & Hi & Hnone & Hsome).
    simpl. rewrite Hp. simpl. destruct (Z.eqb_spec (key_at tab i) 0) as [Hz | Hnz].
    + destruct (IH tab (key + 1) count Hwf ltac:(lia) Hocc Hn) as (tab' & c' & Hr & Hwf' & Ho & Hc & _).
      exists tab', c'. split; [done |]. split; [done |]. split; [done |]. split.
      2:{ intros Hall. destruct (Hall key); [lia | by apply Hnone]. }
      intros k. rewrite Hc. destruct (decide (key = k)) as [<- | Hne].
      * rewrite (Hnone Hz). bool_lia.
      * bool_lia.
    + destruct (Hsome Hnz) as [Hkk Hin].
      destruct (chunk_tab_del_spec n tab i Hwf Hi Hnz ltac:(lia)) as (tab1 & Hd & Hwf1 & Hc1 & Ho1).
      rewrite Hd. simpl. pose proof (wf_n_pos _ _ _ Hwf) as Hnp.
      rewrite u32_small by lia.
      destruct (IH tab1 (key + 1) (count - 1) Hwf1 ltac:(lia) ltac:(lia) ltac:(lia))
        as (tab' & c' & Hr & Hwf' & Ho & Hc & Hcnt).
      exists tab', c'. split; [done |]. split; [done |]. split; [lia |]. split.
      2:{ intros Hall. rewrite Hcnt; [lia |]. intros k Hk'. rewrite Hc1, Hkk, lookup_delete_ne by lia.
          apply Hall. lia. }
      intros k. rewrite Hc, Hc1, Hkk. destruct (decide (key = k)) as [<- | Hne].
      * rewrite lookup_delete_eq. bool_lia.
      * rewrite lookup_delete_ne by done. bool_lia.
Qed.

(** ** Rebuilding *)

(** The entries a rebuild keeps: occupied, owned, and not by [drop]. *)
Definition kept_entry (drop : Z) (s : slot) : bool :=
  negb (s_key s =? 0) && negb (s_val s =? 0) && negb (s_val s =? drop).

Lemma kept_entry_key drop s : kept_entry drop s = true -> s_key s <> 0.
Proof. unfold kept_entry. intros H. b2p. lia. Qed.

Lemma rebuild_loop_spec n drop old nt kept :
  wf_table js_arena_chunk_hash n nt ->
  (forall p q s t, old !! p = Some s -> old !! q = Some t -> s_key s = s_key t -> s_key s <> 0 -> p = q) ->
  (forall i s, old !! i = Some s -> kept_entry drop s = true -> contents nt !! s_key s = None) ->
  0 <= kept ->
  kept + lenZ (List.filter (kept_entry drop) old) < 2 ^ 32 ->
  Z.of_nat (occupied nt) + lenZ (List.filter (kept_entry drop) old) < n ->
  exists nt', chunk_tab_rebuild_loop old drop nt (n - 1) kept
      = Done (nt', kept + lenZ (List.filter (kept_entry drop) old)) /\
    wf_table js_arena_chunk_hash n nt' /\
    Z.of_nat (occupied nt') = Z.of_nat (occupied nt) + lenZ (List.filter (kept_entry drop) old) /\
    forall k v, contents nt' !! k = Some v <->
      (exists i, old !! i = Some (Slot k v) /\ kept_entry drop (Slot k v) = true) \/
      contents nt !! k = Some v.
Proof.
  unfold lenZ. revert nt kept. induction old as [| e old IH]; intros nt kept Hwf Hd Hfresh Hk0 Hk Hn.
  { exists nt. simpl in *. rewrite Z.add_0_r.
    split; [done |]. split; [done |]. split; [lia |]. intros k v.
    split; [auto |]. intros [(i & Hi & _) | H]; [done | done]. }
  assert (Hd' : forall p q s t, old !! p = Some s -> old !! q = Some t ->
     s_key s = s_key t -> s_key s <> 0 -> p = q).
  { intros p q s1 t1 Hp Hq E N. pose proof (Hd (S p) (S q) s1 t1 Hp Hq E N). lia. }
  simpl. fold (kept_entry drop e). simpl in Hk, Hn.
  destruct (kept_entry drop e) eqn:Hke; simpl in Hk, Hn.
  - pose proof (kept_entry_key _ _ Hke) as Hez.
    destruct (chunk_tab_put_spec n nt (s_key e) (s_val e) Hwf Hez ltac:(lia))
      as (nt1 & Hput & Hwf1 & Hc1 & _ & Ho1).
    specialize (Ho1 (Hfresh 0%nat e eq_refl Hke)).
    rewrite Hput. simpl. rewrite u32_small by lia.
    destruct (IH nt1 (kept + 1)) as (nt2 & Hr & Hwf2 & Ho2 & Hc2); try done; try lia.
    { intros i s Hi Hks. rewrite Hc1. rewrite lookup_insert_ne; [by apply (Hfresh (S i)) |].
      intros E. pose proof (Hd 0%nat (S i) e s eq_refl Hi E Hez). lia. }
    exists nt2. rewrite Hr. split; [f_equal; f_equal; lia |]. split; [done |]. split; [lia |].
    intros k v. rewrite Hc2, Hc1. split.
    + intros [(i & Hi & Hks) | Hin].
      * left. exists (S i). done.
      * destruct (decide (s_key e = k)) as [<- | Hne].
        -- rewrite lookup_insert_eq in Hin. injection Hin as <-.
           left. exists 0%nat. simpl. split; [by destruct e | by destruct e].
        -- rewrite lookup_insert_ne in Hin by done. auto.
    + intros [(i & Hi & Hks) | Hin].
      * destruct i as [| i]; [| left; eauto]. simpl in Hi. injection Hi as ->.
        right. simpl. apply lookup_insert_eq.
      * right. rewrite lookup_insert_ne; [done |]. intros <-.
        rewrite (Hfresh 0%nat e eq_refl Hke) in Hin. done.
  - destruct (IH nt kept) as (nt2 & Hr & Hwf2 & Ho2 & Hc2); try done.
    { intros i s Hi. by apply (Hfresh (S i)). }
    exists nt2. split; [done |]. split; [done |]. split; [done |].
    intros k v. rewrite Hc2. split; intros [(i & Hi & Hks) | Hin]; auto.
    + left. exists (S i). done.
    + left. destruct i as [| i]; [| eauto]. simpl in Hi. injection Hi as ->. congruence.
Qed.

(** A fresh table. *)
Lemma wf_fresh b :
  0 <= b <= 31 ->
  let tab := replicate (Z.to_nat (2 ^ b)) empty_slot in
  wf_table js_arena_chunk_hash (2 ^ b) tab /\ occupied tab = 0%nat /\ contents tab = ∅.
Proof.
  intros Hb tab. assert (0 < 2 ^ b) by (apply Z.pow_pos_nonneg; lia).
  assert (Hat : forall p, 0 <= p < 2 ^ b -> key_at tab p = 0).
  { intros p Hp. subst tab. unfold nthZ. rewrite lookup_replicate_2; [done | lia]. }
  split; [split |].
  - eauto.
  - subst tab. unfold lenZ. rewrite length_replicate. lia.
  - intros p q Hp Hq _ N. rewrite Hat in N; done.
  - intros q Hq N. rewrite Hat in N; done.
  - subst tab. generalize (Z.to_nat (2 ^ b)). unfold occupied.
    intros m. induction m as [| m [IH1 IH2]]; simpl; [done |].
    rewrite filter_cons, decide_False by (simpl; lia). done.
Qed.

(** A rebuild keeps exactly the kept entries; it fails only when [calloc]
    does, and then changes nothing. *)
Lemma chunk_tab_rebuild_spec st b drop :
  wf_set st -> 0 <= b <= 31 -> js_arena_chunk_count st < 2 ^ b ->
  chunk_tab_rebuild false st (2 ^ b) drop = Done (-1, st) /\
  exists nt kept, chunk_tab_rebuild true st (2 ^ b) drop = Done (0, ChunkSet (Some nt) (2 ^ b - 1) kept) /\
    wf_table js_arena_chunk_hash (2 ^ b) nt /\ Z.of_nat (occupied nt) = kept /\
    0 <= kept <= js_arena_chunk_count st /\
    forall k v, contents nt !! k = Some v <-> owners st !! k = Some v /\ v <> 0 /\ v <> drop.
Proof.
  intros Hwf Hb Hcnt. split; [done |].
  assert (2 ^ b <= 2 ^ 31) by (apply Z.pow_le_mono_r; lia).
  destruct (wf_fresh b Hb) as (Hf & Hfo & Hfc).
  unfold chunk_tab_rebuild, wf_set, owners in *. simpl.
  assert (Hmask : u32 (2 ^ b - 1) = 2 ^ b - 1).
  { assert (0 < 2 ^ b) by (apply Z.pow_pos_nonneg; lia). apply u32_small. lia. }
  rewrite Hmask. destruct (js_arena_chunk_tab st) as [tab |] eqn:Ht; simpl.
  - destruct Hwf as (Hwt & Hn & Hoc & Hload).
    pose proof (wf_distinct_nat _ _ _ Hwt) as Hdn.
    assert (Hlen : lenZ (List.filter (kept_entry drop) tab) <= Z.of_nat (occupied tab)).
    { unfold lenZ, occupied. apply inj_le. clear. induction tab as [| s tab IH]; simpl; [lia |].
      rewrite filter_cons. destruct (kept_entry drop s) eqn:E.
      - rewrite decide_True by (eapply kept_entry_key; eauto). simpl. lia.
      - case_decide; simpl; lia. }
    assert (0 <= lenZ (List.filter (kept_entry drop) tab)) by apply lenZ_nonneg.
    destruct (rebuild_loop_spec (2 ^ b) drop tab (replicate (Z.to_nat (2 ^ b)) empty_slot) 0)
      as (nt & Hr & Hwn & Hno & Hnc); try done; try lia.
    { intros i s _ _. by rewrite Hfc. }
    exists nt, (0 + lenZ (List.filter (kept_entry drop) tab)). rewrite Hr. simpl.
    split; [done |]. split; [done |]. split; [lia |]. split; [lia |].
    intros k v. rewrite Hnc, Hfc, (contents_lookup_nat tab k v Hdn).
    unfold kept_entry. simpl. split.
    + intros [(i & Hi & Hk) | Hk]; [| done]. b2p. split; [| lia]. split; [lia |]. eauto.
    + intros ((Hk & i & Hi) & Hv & Hvd). left. exists i. split; [done |]. bool_lia.
  - exists (replicate (Z.to_nat (2 ^ b)) empty_slot), 0. destruct Hwf as [_ Hc0].
    split; [done |]. split; [done |]. split; [lia |]. split; [lia |].
    intros k v. rewrite Hfc, !lookup_empty. split; [done | tauto].
Qed.

(** ** The doubling loop *)

(** From a power of two, the loop ends at the first power of two that is at
    least [2 * need], provided that fits in 32 bits. *)
Lemma grow_size_spec fuel b need :
  0 <= b -> 0 <= need <= 2 ^ 30 -> 31 - b < Z.of_nat fuel -> b <= 31 ->
  exists b', grow_size fuel (2 ^ b) need = Done (2 ^ b') /\ b <= b' <= 31 /\ need * 2 <= 2 ^ b'.
Proof.
  intros Hb Hneed Hf Hb31. revert b Hb Hf Hb31. induction fuel as [| fuel IH]; intros b Hb Hf Hb31; [lia |].
  simpl. rewrite u64_small by lia.
  destruct (Z.ltb_spec (2 ^ b) (need * 2)) as [Hlt | Hge]; [| exists b; split; [done | lia]].
  assert (Hb30 : b < 31).
  { destruct (Z.eq_dec b 31) as [-> | ]; lia. }
  replace (u32 (2 ^ b * 2)) with (2 ^ (b + 1)).
  - destruct (IH (b + 1)) as (b' & Hg & Hb' & Hn'); try lia.
    exists b'. split; [done |]. lia.
  - rewrite Z.pow_add_r by lia. symmetry. apply u32_small.
    assert (2 ^ b <= 2 ^ 30) by (apply Z.pow_le_mono_r; lia).
    assert (0 < 2 ^ b) by (apply Z.pow_pos_nonneg; lia). lia.
Qed.

(** Past [2^30] chunks the wrapped size can never catch up. *)
Lemma grow_size_zero_spins fuel need :
  0 < need < 2 ^ 63 -> grow_size fuel 0 need = Spins.
Proof.
  intros Hn. induction fuel as [| fuel IH]; [done |]. simpl.
  rewrite u64_small by lia. destruct (Z.ltb_spec 0 (need * 2)); [done | lia].
Qed.

Lemma grow_size_step fuel size need :
  size < u64 (need * 2) -> grow_size (S fuel) size need = grow_size fuel (u32 (size * 2)) need.
Proof. intros H. simpl. destruct (Z.ltb_spec size (u64 (need * 2))); [done | lia]. Qed.

#[local] Arguments grow_size : simpl never.

(** From 64 slots, a need above [2^30] doubles 25 times to [2^31] and then
    wraps to 0. *)
Lemma grow_size_spins need : 2 ^ 30 < need < 2 ^ 63 -> grow_size 33 64 need = Spins.
Proof.
  intros Hn.
  assert (Hg : forall k f, (k <= 25)%nat ->
    grow_size (k + f) (2 ^ (31 - Z.of_nat k)) need = grow_size f (2 ^ 31) need).
  { intros k. induction k as [| k IH]; intros f Hk; [done |].
    assert (2 ^ (31 - Z.of_nat (S k)) <= 2 ^ 30) by (apply Z.pow_le_mono_r; lia).
    rewrite Nat.add_succ_l, grow_size_step by (rewrite u64_small; lia).
    rewrite <- IH by lia. f_equal.
    replace (31 - Z.of_nat k) with (31 - Z.of_nat (S k) + 1) by lia.
    rewrite Z.pow_add_r by lia. apply u32_small.
    assert (0 < 2 ^ (31 - Z.of_nat (S k))) by (apply Z.pow_pos_nonneg; lia). lia. }
  change 33%nat with (25 + 8)%nat. change 64 with (2 ^ (31 - Z.of_nat 25)).
  rewrite Hg by lia. rewrite grow_size_step by (rewrite u64_small; lia).
  apply grow_size_zero_spins. lia.
Qed.

(** ** The chunk set operations *)

Lemma wf_set_mask st tab :
  wf_set st -> js_arena_chunk_tab st = Some tab ->
  exists b, 6 <= b <= 31 /\ js_arena_chunk_mask st = 2 ^ b - 1.
Proof.
  unfold wf_set. intros Hwf Ht. rewrite Ht in Hwf. destruct Hwf as (Hw & Hn & _).
  destruct (wf_size _ _ _ Hw) as (b & Hb & Hbn). exists b. split; [| lia].
  destruct (Z.lt_ge_cases b 6); [| lia].
  assert (2 ^ b <= 2 ^ 5) by (apply Z.pow_le_mono_r; lia). lia.
Qed.

Lemma wf_set_count st : wf_set st -> 0 <= js_arena_chunk_count st <= 2 ^ 30.
Proof.
  unfold wf_set. destruct (js_arena_chunk_tab st); [| lia].
  intros (Hw & Hn & Ho & Hl). pose proof (wf_n_pos _ _ _ Hw). lia.
Qed.

(** The lookup behind [free] and [realloc] is the abstract owner map. *)
Lemma request_owner_spec st p :
  wf_set st -> 0 <= p -> js_arena_ptr_request_owner st p = Done (owner_of st p).
Proof.
  intros Hwf Hp. unfold js_arena_ptr_request_owner, owner_of, owners, wf_set in *.
  destruct (js_arena_chunk_tab st) as [tab |] eqn:Ht; [| by rewrite lookup_empty].
  destruct Hwf as (Hw & Hn & Ho & Hl). pose proof (wf_n_pos _ _ _ Hw) as Hnp.
  assert (Hsh : 0 <= Z.shiftr p JS_ARENA_CHUNK_SHIFT) by (apply Z.shiftr_nonneg; lia).
  destruct (probe_lookup _ tab (Z.shiftr p JS_ARENA_CHUNK_SHIFT + 1) Hw ltac:(lia) ltac:(lia))
    as (i & Hpr & Hi & Hnone & Hsome).
  replace (js_arena_chunk_mask st + 1 - 1) with (js_arena_chunk_mask st) in Hpr by lia.
  rewrite Hpr. simpl. destruct (Z.eqb_spec (key_at tab i) 0) as [Hz | Hnz].
  - by rewrite (Hnone Hz).
  - destruct (Hsome Hnz) as [_ ->]. done.
Qed.

(** Chunk keys of aligned ranges. *)
Lemma chunk_key_range lo hi p :
  lo mod 4096 = 0 -> hi mod 4096 = 0 -> 0 <= lo <= hi -> 0 <= p ->
  (Z.shiftr lo JS_ARENA_CHUNK_SHIFT + 1 <=? Z.shiftr p JS_ARENA_CHUNK_SHIFT + 1) &&
  (Z.shiftr p JS_ARENA_CHUNK_SHIFT + 1 <?
     Z.shiftr lo JS_ARENA_CHUNK_SHIFT + 1 +
     (Z.shiftr hi JS_ARENA_CHUNK_SHIFT - Z.shiftr lo JS_ARENA_CHUNK_SHIFT))
  = (lo <=? p) && (p <? hi).
Proof.
  intros Hlo Hhi Hr Hp. unfold JS_ARENA_CHUNK_SHIFT.
  rewrite !Z.shiftr_div_pow2 by lia. change (2 ^ 12) with 4096.
  pose proof (Z.div_mod lo 4096). pose proof (Z.div_mod hi 4096).
  pose proof (Z.div_mod p 4096). pose proof (Z.mod_pos_bound p 4096).
  bool_lia.
Qed.

Lemma chunk_aligned lo : lo mod 4096 = 0 -> (Z.land lo (JS_ARENA_CHUNK_SIZE - 1) =? 0) = true.
Proof.
  intros H. change (JS_ARENA_CHUNK_SIZE - 1) with (2 ^ 12 - 1).
  rewrite land_mask by lia. change (2 ^ 12) with 4096. rewrite H. done.
Qed.

(** Number of chunks of a range. *)
Definition chunks_in (lo hi : Z) : Z :=
  Z.shiftr hi JS_ARENA_CHUNK_SHIFT - Z.shiftr lo JS_ARENA_CHUNK_SHIFT.

(** The first address of a chunk of the range lies in it. *)
Lemma chunk_key_of lo hi k :
  lo mod 4096 = 0 -> hi mod 4096 = 0 -> 0 <= lo <= hi ->
  Z.shiftr lo JS_ARENA_CHUNK_SHIFT + 1 <= k <
    Z.shiftr lo JS_ARENA_CHUNK_SHIFT + 1 + chunks_in lo hi ->
  lo <= (k - 1) * 4096 < hi.
Proof.
  intros Hlo Hhi Hr. unfold chunks_in, JS_ARENA_CHUNK_SHIFT. rewrite !Z.shiftr_div_pow2 by lia.
  change (2 ^ 12) with 4096. pose proof (Z.div_mod lo 4096). pose proof (Z.div_mod hi 4096). lia.
Qed.

Lemma chunks_in_bounds lo hi : 0 <= lo <= hi -> hi < 2 ^ 64 -> 0 <= chunks_in lo hi < 2 ^ 64.
Proof.
  intros Hr Hh. unfold chunks_in, JS_ARENA_CHUNK_SHIFT. rewrite !Z.shiftr_div_pow2 by lia.
  pose proof (Z.div_le_mono lo hi (2 ^ 12)). pose proof (Z.div_pos lo (2 ^ 12)).
  assert (hi / 2 ^ 12 <= hi) by (apply Z.div_le_upper_bound; lia). lia.
Qed.

(** Insertion of the whole range into a table that has room. *)
Lemma register_finish n tab count lo hi owner st0 :
  wf_table js_arena_chunk_hash n tab -> 64 <= n ->
  Z.of_nat (occupied tab) <= count -> 0 <= count ->
  lo mod 4096 = 0 -> hi mod 4096 = 0 -> 0 <= lo <= hi -> hi < 2 ^ 64 ->
  (count + chunks_in lo hi) * 2 <= n ->
  (forall p, 0 <= p -> default 0 (contents tab !! (Z.shiftr p JS_ARENA_CHUNK_SHIFT + 1)) = owner_of st0 p) ->
  exists tab', chunk_tab_put_range (Z.to_nat (chunks_in lo hi)) tab (n - 1)
                 (Z.shiftr lo JS_ARENA_CHUNK_SHIFT + 1) owner = Done tab' /\
    let st' := ChunkSet (Some tab') (n - 1) (count + chunks_in lo hi) in
    wf_set st' /\
    forall p, 0 <= p -> owner_of st' p = if (lo <=? p) && (p <? hi) then owner else owner_of st0 p.
Proof.
  intros Hw Hn Ho Hc Hlo Hhi Hr Hh Hload Hold.
  pose proof (chunks_in_bounds lo hi Hr Hh) as Hcb.
  assert (0 <= Z.shiftr lo JS_ARENA_CHUNK_SHIFT) by (apply Z.shiftr_nonneg; lia).
  destruct (put_range_spec n (Z.to_nat (chunks_in lo hi)) tab
              (Z.shiftr lo JS_ARENA_CHUNK_SHIFT + 1) owner Hw ltac:(lia) ltac:(lia))
    as (tab' & Hput & Hw' & Ho' & Hc').
  exists tab'. split; [done |]. split.
  - unfold wf_set. simpl. rewrite Z.sub_add. split; [done |]. lia.
  - intros p Hp. unfold owner_of at 1, owners. simpl. rewrite Hc'.
    rewrite Z2Nat.id by lia. unfold chunks_in.
    rewrite chunk_key_range by done. case_if; [done |]. by apply Hold.
Qed.

Lemma register_request_spec ok st lo hi owner :
  wf_set st -> lo mod 4096 = 0 -> hi mod 4096 = 0 -> 0 <= lo <= hi -> hi < 2 ^ 64 ->
  js_arena_chunk_count st + chunks_in lo hi <= 2 ^ 30 ->
  exists rc st', js_arena_register_request ok st lo hi owner = Done (rc, st') /\ wf_set st' /\
    ((rc = 0 /\ js_arena_chunk_count st' <= js_arena_chunk_count st + chunks_in lo hi /\
      forall p, 0 <= p -> owner_of st' p = if (lo <=? p) && (p <? hi) then owner else owner_of st p)
     \/ (rc = -1 /\ st' = st /\ ok = false)).
Proof.
  intros Hwf Hlo Hhi Hr Hh Hbound. unfold js_arena_register_request.
  rewrite !chunk_aligned by done. simpl. fold (chunks_in lo hi).
  pose proof (chunks_in_bounds lo hi Hr Hh) as Hcb.
  pose proof (wf_set_count st Hwf) as Hcnt.
  rewrite (u64_small (chunks_in lo hi)), u64_small, (u32_small (chunks_in lo hi)) by lia.
  assert (Hsz : exists b, 6 <= b <= 31 /\
    (if js_arena_chunk_mask st =? 0 then JS_ARENA_CHUNK_TAB_INITIAL
     else u32 (js_arena_chunk_mask st + 1)) = 2 ^ b /\
    (js_arena_chunk_tab st <> None -> js_arena_chunk_mask st = 2 ^ b - 1)).
  { destruct (js_arena_chunk_tab st) as [tab |] eqn:Ht.
    - destruct (wf_set_mask st tab Hwf Ht) as (b & Hb & Hm). exists b.
      assert (2 ^ 6 <= 2 ^ b) by (apply Z.pow_le_mono_r; lia).
      assert (2 ^ b <= 2 ^ 31) by (apply Z.pow_le_mono_r; lia).
      split; [done |]. split; [| done]. rewrite Hm.
      destruct (Z.eqb_spec (2 ^ b - 1) 0); [lia |]. rewrite u32_small; lia.
    - exists 6. unfold wf_set in Hwf. rewrite Ht in Hwf. destruct Hwf as [-> _].
      split; [lia |]. split; [done | done]. }
  destruct Hsz as (b & Hb & -> & Hmaskb).
  destruct (grow_size_spec 33 b (js_arena_chunk_count st + chunks_in lo hi))
    as (b' & Hg & Hb' & Hneed); try lia.
  assert (H64 : 2 ^ 6 <= 2 ^ b') by (apply Z.pow_le_mono_r; lia).
  unfold run_bind at 1. rewrite Hg.
  assert (Hu : u32 (js_arena_chunk_mask st + 1) = js_arena_chunk_mask st + 1).
  { apply u32_small. destruct (js_arena_chunk_tab st) as [tab |] eqn:Ht.
    - rewrite Hmaskb by done. assert (2 ^ b <= 2 ^ 31) by (apply Z.pow_le_mono_r; lia).
      assert (0 < 2 ^ b) by (apply Z.pow_pos_nonneg; lia). lia.
    - unfold wf_set in Hwf. rewrite Ht in Hwf. lia. }
  rewrite Hu. destruct (Z.eqb_spec (2 ^ b') (js_arena_chunk_mask st + 1)) as [Heq | Hne]; simpl.
  - (* no growth: the table is there *)
    destruct (js_arena_chunk_tab st) as [tab |] eqn:Ht.
    2:{ unfold wf_set in Hwf. rewrite Ht in Hwf. lia. }
    pose proof Hwf as Hwf0. unfold wf_set in Hwf0. rewrite Ht in Hwf0.
    destruct Hwf0 as (Hw & Hn & Ho & Hl). rewrite <- Heq in Hw, Hn, Hl.
    destruct (register_finish (2 ^ b') tab (js_arena_chunk_count st) lo hi owner st)
      as (tab' & Hput & Hwf' & Hown); try done; try lia.
    { intros p Hp. unfold owner_of, owners. by rewrite Ht. }
    replace (js_arena_chunk_mask st) with (2 ^ b' - 1) by lia. rewrite Hput. simpl.
    rewrite u32_small by lia.
    exists 0, (ChunkSet (Some tab') (2 ^ b' - 1) (js_arena_chunk_count st + chunks_in lo hi)).
    split; [done |]. split; [done |]. left. simpl. split; [done |]. split; [lia | done].
  - destruct (Z.eq_dec (2 ^ b') 0) as [Hz | Hz]; [lia |].
    assert (Hlt : js_arena_chunk_count st < 2 ^ b') by lia.
    destruct (chunk_tab_rebuild_spec st b' 0 Hwf ltac:(lia) Hlt) as [Hfail Hok].
    destruct ok.
    + destruct Hok as (nt & kept & Hre & Hw & Ho & Hk & Hc). rewrite Hre. simpl.
      destruct (register_finish (2 ^ b') nt kept lo hi owner st)
        as (tab' & Hput & Hwf' & Hown); try done; try lia.
      { intros p Hp. unfold owner_of.
        destruct (contents nt !! _) as [v |] eqn:E.
        - apply Hc in E as (-> & _). done.
        - simpl. destruct (owners st !! _) as [v |] eqn:E'; [| done]. simpl.
          destruct (Z.eq_dec v 0) as [-> | Hv]; [done |].
          assert (Some v = None :> option Z); [| done]. rewrite <- E. symmetry. by apply Hc. }
      rewrite Hput. simpl. rewrite u32_small by lia.
      exists 0, (ChunkSet (Some tab') (2 ^ b' - 1) (kept + chunks_in lo hi)).
      split; [done |]. split; [done |]. left. simpl. split; [done |]. split; [lia | done].
    + rewrite Hfail. simpl. exists (-1), st. split; [done |]. split; [done |]. right. done.
Qed.

Lemma unregister_range_spec st lo hi :
  wf_set st -> lo mod 4096 = 0 -> hi mod 4096 = 0 -> 0 <= lo <= hi -> hi < 2 ^ 64 ->
  exists st', js_arena_unregister_request_range st lo hi = Done st' /\ wf_set st' /\
    js_arena_chunk_count st' <= js_arena_chunk_count st /\
    (forall p, 0 <= p -> owner_of st' p = if (lo <=? p) && (p <? hi) then 0 else owner_of st p) /\
    ((forall p, lo <= p < hi -> owner_of st p <> 0) ->
     js_arena_chunk_count st' = js_arena_chunk_count st - chunks_in lo hi).
Proof.
  intros Hwf Hlo Hhi Hr Hh. unfold js_arena_unregister_request_range.
  pose proof (chunks_in_bounds lo hi Hr Hh) as Hcb. fold (chunks_in lo hi).
  rewrite u64_small by done.
  destruct (js_arena_chunk_tab st) as [tab |] eqn:Ht.
  2:{ exists st. split; [done |]. split; [done |]. split; [lia |].
      split; [intros p Hp; unfold owner_of, owners; rewrite Ht, lookup_empty; by case_if |].
      intros Hall. destruct (Z.eq_dec lo hi) as [-> | Hne]; [unfold chunks_in; lia |].
      destruct (Hall lo ltac:(lia)). unfold owner_of, owners. by rewrite Ht, lookup_empty. }
  pose proof Hwf as Hwf0. unfold wf_set in Hwf0. rewrite Ht in Hwf0.
  destruct Hwf0 as (Hw & Hn & Ho & Hl).
  assert (0 <= Z.shiftr lo JS_ARENA_CHUNK_SHIFT) by (apply Z.shiftr_nonneg; lia).
  destruct (del_range_spec _ (Z.to_nat (chunks_in lo hi)) tab
              (Z.shiftr lo JS_ARENA_CHUNK_SHIFT + 1) (js_arena_chunk_count st) Hw ltac:(lia) Ho ltac:(lia))
    as (tab' & c' & Hd & Hw' & Ho' & Hc' & Hcn).
  assert (Hcn' : (forall p, lo <= p < hi -> owner_of st p <> 0) ->
    c' = js_arena_chunk_count st - chunks_in lo hi).
  { intros Hall. rewrite Hcn; [lia |]. intros k Hk E.
    apply (Hall ((k - 1) * 4096)); [apply (chunk_key_of lo hi); try done; lia |]. unfold owner_of, owners.
    rewrite Ht, Z.shiftr_div_pow2, Z.div_mul, Z.sub_add, E by done. done. }
  rewrite Z.add_simpl_r in Hd. rewrite Hd. simpl.
  assert (Hown : forall p, 0 <= p ->
    default 0 (contents tab' !! (Z.shiftr p JS_ARENA_CHUNK_SHIFT + 1)) =
    if (lo <=? p) && (p <? hi) then 0 else owner_of st p).
  { intros p Hp. rewrite Hc', Z2Nat.id by lia. unfold chunks_in.
    rewrite chunk_key_range by done. unfold owner_of, owners. rewrite Ht. by case_if. }
  destruct (Z.eqb_spec c' 0) as [-> | Hc0]; eexists; (split; [reflexivity |]); split.
  - split; done.
  - simpl. split; [lia |]. split; [| done]. intros p Hp. rewrite <- Hown by done.
    unfold owner_of, owners. simpl. rewrite lookup_empty.
    assert (Hz : size (contents tab') = 0%nat) by (rewrite (contents_size _ _ _ Hw'); lia).
    apply map_size_empty_iff in Hz. by rewrite Hz.
  - unfold wf_set. simpl. lia || (split; [done |]; lia).
  - simpl. split; [lia | done].
Qed.

(** Keys and occupation do not depend on the stored values. *)
Lemma blank_table n tab owner :
  wf_table js_arena_chunk_hash n tab ->
  let tab' := map (fun s => if s_val s =? owner then Slot (s_key s) 0 else s) tab in
  wf_table js_arena_chunk_hash n tab' /\ occupied tab' = occupied tab /\
  forall k, contents tab' !! k = (fun v => if v =? owner then 0 else v) <$> contents tab !! k.
Proof.
  intros Hw tab'. set (f := fun s => if s_val s =? owner then Slot (s_key s) 0 else s) in *.
  assert (Hf : forall s, s_key (f s) = s_key s) by (intros s; unfold f; by case_if).
  assert (Hlen : length tab' = length tab) by (subst tab'; apply length_map).
  assert (Hat : forall p, key_at tab' p = key_at tab p).
  { intros p. subst tab'. unfold nthZ. rewrite <- list_fmap_alt || idtac.
    change (map f tab) with (f <$> tab). rewrite list_lookup_fmap.
    destruct (tab !! Z.to_nat p); simpl; [apply Hf | done]. }
  split; [| split].
  - destruct Hw as [H1 H2 H3 H4]. split; [done | unfold lenZ in *; lia | |].
    + intros p q Hp Hq. rewrite !Hat. by apply H3.
    + intros q Hq. rewrite Hat. intros N p Hp. rewrite Hat. by apply H4.
  - subst tab'. unfold occupied. clear -Hf. induction tab as [| s tab IH]; simpl; [done |].
    rewrite !filter_cons, !Hf. case_decide; simpl; congruence.
  - intros k. subst tab'. clear -Hf. induction tab as [| s tab IH]; simpl; [done |].
    rewrite Hf. case_if; [done |]. destruct (decide (s_key s = k)) as [<- | Hne].
    + rewrite !lookup_insert_eq. simpl. unfold f. by case_if.
    + rewrite !lookup_insert_ne by done. done.
Qed.

Lemma unregister_request_spec ok st owner :
  wf_set st -> owner <> 0 ->
  exists st', js_arena_unregister_request ok st owner = Done st' /\ wf_set st' /\
    js_arena_chunk_count st' <= js_arena_chunk_count st /\
    forall p, 0 <= p -> owner_of st' p = if owner_of st p =? owner then 0 else owner_of st p.
Proof.
  intros Hwf Ho0. unfold js_arena_unregister_request.
  destruct (js_arena_chunk_tab st) as [tab |] eqn:Ht.
  2:{ exists st. split; [done |]. split; [done |]. split; [lia |].
      intros p Hp. unfold owner_of, owners. rewrite Ht, lookup_empty. simpl. by case_if. }
  pose proof Hwf as Hwf0. unfold wf_set in Hwf0. rewrite Ht in Hwf0.
  destruct Hwf0 as (Hw & Hn & Hoc & Hl). pose proof (wf_set_count st Hwf) as Hcnt.
  fold (kept_entry owner).
  destruct (Nat.eqb_spec (length (List.filter (kept_entry owner) tab)) 0) as [Hz | Hnz].
  - eexists. split; [reflexivity |]. split; [done |]. simpl. split; [lia |].
    intros p Hp. unfold owner_of, owners. rewrite Ht. simpl. rewrite lookup_empty. simpl.
    destruct (contents tab !! _) as [v |] eqn:E; simpl; [| by case_if].
    apply (contents_lookup_nat tab _ _ (wf_distinct_nat _ _ _ Hw)) in E as (Hk & i & Hi).
    apply list_elem_of_lookup_2, list_elem_of_In in Hi.
    destruct (Z.eqb_spec v owner) as [| Hvo]; [done |].
    destruct (Z.eq_dec v 0) as [| Hv0]; [done |].
    apply length_zero_iff_nil in Hz.
    assert (Hin : List.In (Slot (Z.shiftr p JS_ARENA_CHUNK_SHIFT + 1) v) (List.filter (kept_entry owner) tab)).
    { apply filter_In. split; [done |]. unfold kept_entry. simpl. bool_lia. }
    rewrite Hz in Hin. done.
  - destruct (wf_set_mask st tab Hwf Ht) as (b & Hb & Hm).
    assert (2 ^ b <= 2 ^ 31) by (apply Z.pow_le_mono_r; lia).
    assert (0 < 2 ^ b) by (apply Z.pow_pos_nonneg; lia).
    rewrite Hm, Z.sub_add, u32_small by lia.
    destruct (chunk_tab_rebuild_spec st b owner Hwf ltac:(lia) ltac:(lia)) as [Hfail Hok].
    destruct ok.
    + destruct Hok as (nt & kept & Hre & Hwn & Hno & Hk & Hc). rewrite Hre. simpl.
      eexists. split; [reflexivity |]. split; [unfold wf_set; simpl; rewrite Z.sub_add; split; [done |]; lia |].
      simpl. split; [lia |]. intros p Hp. unfold owner_of, owners at 1. simpl.
      destruct (contents nt !! _) as [v |] eqn:E.
      * apply Hc in E as (-> & Hv & Hvo). simpl. bool_lia.
      * simpl. destruct (owners st !! _) as [v |] eqn:E'; simpl; [| by case_if].
        destruct (Z.eqb_spec v owner) as [| Hvo]; [done |].
        destruct (Z.eq_dec v 0) as [| Hv0]; [done |].
        assert (Some v = None :> option Z); [| done]. rewrite <- E. symmetry. by apply Hc.
    + rewrite Hfail. simpl. eexists. split; [reflexivity |].
      destruct (blank_table _ tab owner Hw) as (Hwb & Hob & Hcb).
      split; [unfold wf_set; simpl; rewrite Z.sub_add; split; [by rewrite Hm, Z.sub_add in Hwb |];
              rewrite Hm in *; lia |].
      simpl. split; [lia |]. intros p Hp. unfold owner_of, owners. simpl. rewrite Ht, Hcb.
      destruct (contents tab !! _) as [v |]; simpl; [done | by case_if].
Qed.

(** ** Sequences of operations

    The chunk set as the rest of the engine sees it: an address-to-owner
    function changed by the operations a thread performs. *)

Inductive chunk_op :=
  | RegisterRequest (calloc_ok : bool) (lo hi owner : Z)
  | UnregisterRequestRange (lo hi : Z)
  | UnregisterRequest (calloc_ok : bool) (owner : Z).

(** One operation, with its C result (0 for the [void] ones). *)
Definition chunk_step (st : chunk_set) (op : chunk_op) : run (Z * chunk_set) :=
  match op with
  | RegisterRequest ok lo hi owner => js_arena_register_request ok st lo hi owner
  | UnregisterRequestRange lo hi =>
      let* st := js_arena_unregister_request_range st lo hi in Done (0, st)
  | UnregisterRequest ok owner =>
      let* st := js_arena_unregister_request ok st owner in Done (0, st)
  end.

Fixpoint chunk_run (st : chunk_set) (ops : list chunk_op) : run (list Z * chunk_set) :=
  match ops with
  | [] => Done ([], st)
  | op :: ops' =>
      let* (rc, st) := chunk_step st op in
      let* (rcs, st) := chunk_run st ops' in
      Done (rc :: rcs, st)
  end.

(** What an operation with result [rc] does to the owner function. *)
Definition spec_step (f : Z -> Z) (op : chunk_op) (rc : Z) : Z -> Z :=
  match op with
  | RegisterRequest _ lo hi owner =>
      fun p => if (rc =? 0) && ((lo <=? p) && (p <? hi)) then owner else f p
  | UnregisterRequestRange lo hi => fun p => if (lo <=? p) && (p <? hi) then 0 else f p
  | UnregisterRequest _ owner => fun p => if f p =? owner then 0 else f p
  end.

Fixpoint spec_run (f : Z -> Z) (ops : list chunk_op) (rcs : list Z) : Z -> Z :=
  match ops, rcs with
  | op :: ops', rc :: rcs' => spec_run (spec_step f op rc) ops' rcs'
  | _, _ => f
  end.

(** Extents are chunk-aligned and below [2^64]; owners are not NULL. *)
Definition valid_op (op : chunk_op) : Prop :=
  match op with
  | RegisterRequest _ lo hi _ | UnregisterRequestRange lo hi =>
      lo mod 4096 = 0 /\ hi mod 4096 = 0 /\ 0 <= lo <= hi /\ hi < 2 ^ 64
  | UnregisterRequest _ owner => owner <> 0
  end.

Definition op_chunks (op : chunk_op) : Z :=
  match op with RegisterRequest _ lo hi _ => chunks_in lo hi | _ => 0 end.

Definition ops_chunks (ops : list chunk_op) : Z := foldr (fun op n => op_chunks op + n) 0 ops.

Lemma op_chunks_nonneg op : valid_op op -> 0 <= op_chunks op.
Proof.
  destruct op; simpl; try lia. intros (_ & _ & Hr & Hh).
  pose proof (chunks_in_bounds lo hi Hr Hh). lia.
Qed.

Lemma ops_chunks_nonneg ops : Forall valid_op ops -> 0 <= ops_chunks ops.
Proof.
  induction 1 as [| op ops Hv _ IH]; simpl; [lia |].
  pose proof (op_chunks_nonneg op Hv). lia.
Qed.

Lemma chunk_step_spec st op :
  wf_set st -> valid_op op -> js_arena_chunk_count st + op_chunks op <= 2 ^ 30 ->
  exists rc st', chunk_step st op = Done (rc, st') /\ wf_set st' /\
    js_arena_chunk_count st' <= js_arena_chunk_count st + op_chunks op /\
    forall p, 0 <= p -> owner_of st' p = spec_step (owner_of st) op rc p.
Proof.
  intros Hwf Hv Hb. destruct op as [ok lo hi o | lo hi | ok o]; simpl in *.
  - destruct Hv as (H1 & H2 & H3 & H4). pose proof (chunks_in_bounds lo hi H3 H4).
    destruct (register_request_spec ok st lo hi o) as (rc & st' & Hr & Hwf' & Hcase); try done.
    exists rc, st'. split; [done |]. split; [done |].
    destruct Hcase as [(-> & Hc & Ho) | (-> & -> & _)]; split; try lia.
    + intros p Hp. rewrite Ho by done. done.
    + done.
  - destruct Hv as (H1 & H2 & H3 & H4).
    destruct (unregister_range_spec st lo hi) as (st' & -> & Hwf' & Hc & Ho & _); try done.
    exists 0, st'. split; [done |]. split; [done |]. split; [lia | done].
  - destruct (unregister_request_spec ok st o) as (st' & -> & Hwf' & Hc & Ho); try done.
    exists 0, st'. split; [done |]. split; [done |]. split; [lia | done].
Qed.

Lemma spec_step_ext f g op rc p :
  0 <= p -> (forall p, 0 <= p -> f p = g p) -> spec_step f op rc p = spec_step g op rc p.
Proof. intros Hp Hfg. destruct op; simpl; rewrite !Hfg by done; done. Qed.

Lemma spec_run_ext ops f g rcs p :
  0 <= p -> (forall p, 0 <= p -> f p = g p) -> spec_run f ops rcs p = spec_run g ops rcs p.
Proof.
  revert f g rcs. induction ops as [| op ops IH]; intros f g rcs Hp Hfg; simpl; [auto |].
  destruct rcs as [| rc rcs]; [auto |]. apply IH; [done |].
  intros q Hq. by apply spec_step_ext.
Qed.

Lemma chunk_run_spec st ops :
  wf_set st -> Forall valid_op ops -> js_arena_chunk_count st + ops_chunks ops <= 2 ^ 30 ->
  exists rcs st', chunk_run st ops = Done (rcs, st') /\ wf_set st' /\
    forall p, 0 <= p -> owner_of st' p = spec_run (owner_of st) ops rcs p.
Proof.
  revert st. induction ops as [| op ops IH]; intros st Hwf Hv Hb; simpl in *.
  { exists [], st. done. }
  apply Forall_cons in Hv as [Hv Hvs].
  pose proof (ops_chunks_nonneg ops Hvs). pose proof (op_chunks_nonneg op Hv).
  destruct (chunk_step_spec st op Hwf Hv ltac:(lia)) as (rc & st1 & Hs & Hwf1 & Hc1 & Ho1).
  destruct (IH st1 Hwf1 Hvs ltac:(lia)) as (rcs & st2 & Hr & Hwf2 & Ho2).
  exists (rc :: rcs), st2. rewrite Hs. simpl. rewrite Hr. simpl.
  split; [done |]. split; [done |]. intros p Hp. rewrite Ho2 by done.
  by apply spec_run_ext.
Qed.

(** ** Properties *)

(** C13: the chunk set refines an address-to-owner map.  For every sequence of
    registrations and unregistrations of chunk-aligned extents, up to [2^30]
    chunks (4 TiB) and with any pattern of [calloc] failures, every operation
    terminates, and afterwards [js_arena_ptr_request_owner] answers every
    address with the owner the sequence gave it, NULL if none. *)
Theorem chunk_set_refines_owner_map (st : chunk_set) (ops : list chunk_op) :
  wf_set st -> Forall valid_op ops -> js_arena_chunk_count st + ops_chunks ops <= 2 ^ 30 ->
  exists rcs st', chunk_run st ops = Done (rcs, st') /\ wf_set st' /\
    forall p, 0 <= p ->
      js_arena_ptr_request_owner st' p = Done (spec_run (owner_of st) ops rcs p).
Proof.
  intros Hwf Hv Hb. destruct (chunk_run_spec st ops Hwf Hv Hb) as (rcs & st' & Hr & Hwf' & Ho).
  exists rcs, st'. split; [done |]. split; [done |]. intros p Hp.
  rewrite request_owner_spec by done. by rewrite Ho.
Qed.

Lemma chunk_set_refines_owner_map_witness :
  exists rcs st',
    chunk_run chunk_set_init
      [RegisterRequest true 0x10000 0x14000 7; RegisterRequest true 0x20000 0x21000 9;
       UnregisterRequestRange 0x11000 0x12000; UnregisterRequest false 9] = Done (rcs, st') /\
    wf_set st' /\
    forall p, 0 <= p ->
      js_arena_ptr_request_owner st' p =
        Done (spec_run (owner_of chunk_set_init)
                [RegisterRequest true 0x10000 0x14000 7; RegisterRequest true 0x20000 0x21000 9;
                 UnregisterRequestRange 0x11000 0x12000; UnregisterRequest false 9] rcs p).
Proof.
  apply chunk_set_refines_owner_map.
  - done.
  - repeat constructor; simpl; lia.
  - vm_compute. discriminate.
Defined.

(** a failed table allocation leaves the registration state as it was, and
    dropping an arena's chunks takes effect even when the rebuild cannot
    allocate: no address is attributed to a dead arena afterwards. *)
Theorem chunk_set_survives_calloc_failure (st : chunk_set) (lo hi owner dead : Z) :
  wf_set st -> lo mod 4096 = 0 -> hi mod 4096 = 0 -> 0 <= lo <= hi -> hi < 2 ^ 64 ->
  js_arena_chunk_count st + chunks_in lo hi <= 2 ^ 30 -> dead <> 0 ->
  (exists rc st1, js_arena_register_request false st lo hi owner = Done (rc, st1) /\
     (rc = -1 -> st1 = st)) /\
  exists st2, js_arena_unregister_request false st dead = Done st2 /\
    forall p, 0 <= p ->
      js_arena_ptr_request_owner st2 p = Done (if owner_of st p =? dead then 0 else owner_of st p).
Proof.
  intros Hwf H1 H2 H3 H4 H5 H6. split.
  - destruct (register_request_spec false st lo hi owner) as (rc & st1 & Hr & _ & Hc); try done.
    exists rc, st1. split; [done |]. intros ->. destruct Hc as [(Hc & _) | (_ & Hc & _)]; done.
  - destruct (unregister_request_spec false st dead) as (st2 & Hr & Hwf2 & _ & Ho); try done.
    exists st2. split; [done |]. intros p Hp. rewrite request_owner_spec, Ho by done. done.
Qed.

Lemma chunk_set_survives_calloc_failure_witness :
  (exists rc st1, js_arena_register_request false chunk_set_init 0x10000 0x14000 7 = Done (rc, st1) /\
     (rc = -1 -> st1 = chunk_set_init)) /\
  exists st2, js_arena_unregister_request false chunk_set_init 7 = Done st2 /\
    forall p, 0 <= p ->
      js_arena_ptr_request_owner st2 p =
        Done (if owner_of chunk_set_init p =? 7 then 0 else owner_of chunk_set_init p).
Proof.
  apply chunk_set_survives_calloc_failure; try done; vm_compute; congruence || (split; discriminate).
Defined.

(** The [uint32_t] table size cannot double past [2^31]: registering more
    than [2^30] chunks on one thread never returns. *)
Theorem register_request_spins_past_limit (ok : bool) (lo hi owner : Z) :
  lo mod 4096 = 0 -> hi mod 4096 = 0 -> 0 <= lo <= hi -> hi < 2 ^ 64 ->
  2 ^ 30 < chunks_in lo hi ->
  js_arena_register_request ok chunk_set_init lo hi owner = Spins.
Proof.
  intros H1 H2 H3 H4 H5. pose proof (chunks_in_bounds lo hi H3 H4) as Hb.
  assert (Hb' : chunks_in lo hi <= 2 ^ 52).
  { unfold chunks_in, JS_ARENA_CHUNK_SHIFT. rewrite !Z.shiftr_div_pow2 by lia.
    pose proof (Z.div_pos lo (2 ^ 12)).
    assert (hi / 2 ^ 12 <= 2 ^ 52) by (apply Z.div_le_upper_bound; lia). lia. }
  unfold js_arena_register_request. rewrite !chunk_aligned by done. simpl.
  fold (chunks_in lo hi). rewrite (u64_small (chunks_in lo hi)), u64_small by lia.
  change (JS_ARENA_CHUNK_TAB_INITIAL) with 64.
  by rewrite Z.add_0_l, grow_size_spins by lia.
Qed.

Lemma register_request_spins_past_limit_witness :
  js_arena_register_request true chunk_set_init 0x10000 (0x10000 + 2 ^ 43) 7 = Spins.
Proof. apply register_request_spins_past_limit; vm_compute; intuition congruence. Defined.
