(* ===== verification/BaseRanges.v ===== *)
(** * Registered base ranges (qjs-arena.h, qjs-arena.c)

    [js_arena_ranges]/[js_arena_range_count]: the per-thread array of at most
    16 address ranges that [js_arena_ptr_is_base] scans on every chokepoint of
    the engine.  Freezing a dual arena adds its base range, freeing it removes
    it by moving the last entry into the hole.

    The specification is the bag of live ranges. *)

From stdpp Require Import base list numbers.
From Stdlib Require Import ZArith Lia.
From S2P Require Import Prelude.

Definition JS_ARENA_RANGES_MAX : Z := 16.

Record js_arena_range := Range { r_lo : Z; r_hi : Z }.

#[export] Instance js_arena_range_eq_dec : EqDecision js_arena_range.
Proof. solve_decision. Defined.

Definition no_range : js_arena_range := Range 0 0.

Record base_ranges := {
  js_arena_ranges : list js_arena_range;
  js_arena_range_count : Z
}.

Definition base_ranges_init : base_ranges :=
  {| js_arena_ranges := replicate (Z.to_nat JS_ARENA_RANGES_MAX) no_range; js_arena_range_count := 0 |}.

Definition range_at (st : base_ranges) (i : Z) : js_arena_range := nthZ no_range (js_arena_ranges st) i.

Definition js_arena_register_base (st : base_ranges) (lo hi : Z) : Z * base_ranges :=
  if JS_ARENA_RANGES_MAX <=? js_arena_range_count st then (-1, st)
  else (0, {| js_arena_ranges := setZ (js_arena_range_count st) (Range lo hi) (js_arena_ranges st);
              js_arena_range_count := js_arena_range_count st + 1 |}).

(** The scan of [js_arena_unregister_base] from entry [i], [n] entries left. *)
Fixpoint unregister_base_loop (n : nat) (st : base_ranges) (lo hi i : Z) : base_ranges :=
  match n with
  | O => st
  | S n' =>
      if (r_lo (range_at st i) =? lo) && (r_hi (range_at st i) =? hi) then
        let count := js_arena_range_count st - 1 in
        let tab := setZ i (range_at st count) (js_arena_ranges st) in
        {| js_arena_ranges := setZ count no_range tab; js_arena_range_count := count |}
      else unregister_base_loop n' st lo hi (i + 1)
  end.

Definition js_arena_unregister_base (st : base_ranges) (lo hi : Z) : base_ranges :=
  unregister_base_loop (Z.to_nat (js_arena_range_count st)) st lo hi 0.

Fixpoint ptr_is_base_loop (n : nat) (st : base_ranges) (p i : Z) : bool :=
  match n with
  | O => false
  | S n' =>
      if (r_lo (range_at st i) <=? p) && (p <? r_hi (range_at st i)) then true
      else ptr_is_base_loop n' st p (i + 1)
  end.

Definition js_arena_ptr_is_base (st : base_ranges) (p : Z) : bool :=
  ptr_is_base_loop (Z.to_nat (js_arena_range_count st)) st p 0.

(** ** The bag of live ranges *)

Definition live_ranges (st : base_ranges) : list js_arena_range :=
  take (Z.to_nat (js_arena_range_count st)) (js_arena_ranges st).

Definition in_range (p : Z) (r : js_arena_range) : bool := (r_lo r <=? p) && (p <? r_hi r).

Definition wf_ranges (st : base_ranges) : Prop :=
  lenZ (js_arena_ranges st) = JS_ARENA_RANGES_MAX /\ 0 <= js_arena_range_count st <= JS_ARENA_RANGES_MAX.

(** Removing one occurrence. *)
Fixpoint bag_remove (r : js_arena_range) (l : list js_arena_range) : list js_arena_range :=
  match l with
  | [] => []
  | x :: l' => if decide (x = r) then l' else x :: bag_remove r l'
  end.

#[export] Instance bag_remove_proper r : Proper ((≡ₚ) ==> (≡ₚ)) (bag_remove r).
Proof.
  intros l l' H. induction H as [| x l l' H IH | x y l | l1 l2 l3 _ IH1 _ IH2]; simpl.
  - done.
  - case_decide; [done | by rewrite IH].
  - repeat case_decide; subst; done || apply Permutation_swap.
  - by rewrite IH1.
Qed.

Lemma live_length st : wf_ranges st -> length (live_ranges st) = Z.to_nat (js_arena_range_count st).
Proof.
  intros [Hl Hc]. unfold live_ranges, JS_ARENA_RANGES_MAX, lenZ in *. rewrite length_take. lia.
Qed.

Lemma live_lookup st i :
  0 <= i < js_arena_range_count st -> wf_ranges st ->
  live_ranges st !! Z.to_nat i = Some (range_at st i).
Proof.
  intros Hi [Hl Hc]. unfold live_ranges, range_at, nthZ, JS_ARENA_RANGES_MAX, lenZ in *.
  rewrite lookup_take_lt by lia.
  destruct (lookup_lt_is_Some_2 (js_arena_ranges st) (Z.to_nat i)) as [x ->]; [lia | done].
Qed.

(** Registration appends, and is refused exactly when 16 ranges are live. *)
Lemma register_base_spec st lo hi :
  wf_ranges st ->
  let '(rc, st') := js_arena_register_base st lo hi in
  wf_ranges st' /\
  ((rc = 0 /\ live_ranges st' = live_ranges st ++ [Range lo hi]) \/
   (rc = -1 /\ st' = st /\ length (live_ranges st) = 16%nat)).
Proof.
  intros [Hl Hc]. pose proof (live_length st (conj Hl Hc)) as Hlen. unfold js_arena_register_base.
  destruct (Z.leb_spec JS_ARENA_RANGES_MAX (js_arena_range_count st)) as [Hfull | Hroom].
  { split; [done |]. right. split; [done |]. split; [done |].
    rewrite Hlen. unfold JS_ARENA_RANGES_MAX in *. lia. }
  split; [split; simpl; rewrite ?lenZ_setZ; lia |]. left. split; [done |].
  unfold live_ranges, JS_ARENA_RANGES_MAX, lenZ, setZ in *. simpl.
  replace (Z.to_nat (js_arena_range_count st + 1)) with (S (Z.to_nat (js_arena_range_count st))) by lia.
  rewrite (take_S_r _ _ (Range lo hi)).
  - by rewrite take_insert_ge.
  - apply list_lookup_insert_eq. lia.
Qed.

(** Swap-with-last removal, on lists. *)
Lemma swap_remove (l : list js_arena_range) (i : nat) x y :
  l !! i = Some x -> list.last l = Some y ->
  take (length l - 1) (<[i := y]> l) ≡ₚ delete i l.
Proof.
  intros Hi Hy. apply last_Some in Hy as [l' ->]. rewrite length_app. simpl.
  replace (length l' + 1 - 1)%nat with (length l') by lia.
  destruct (decide (i < length l')%nat) as [Hlt | Hge].
  - rewrite insert_app_l, take_app_length' by (rewrite ?length_insert; done).
    rewrite delete_take_drop, drop_app_le, take_app_le by lia.
    rewrite (insert_take_drop l' i y Hlt). rewrite app_assoc.
    rewrite <- Permutation_cons_append. by rewrite Permutation_middle.
  - assert (i = length l') as ->.
    { apply lookup_lt_Some in Hi. rewrite length_app in Hi. simpl in Hi. lia. }
    rewrite <- (Nat.add_0_r (length l')) at 2. rewrite insert_app_r. simpl.
    rewrite take_app_length. rewrite delete_take_drop, take_app_length, drop_ge; [by rewrite app_nil_r |].
    rewrite length_app. simpl. lia.
Qed.

Lemma bag_remove_first l i r :
  l !! i = Some r -> (forall j x, (j < i)%nat -> l !! j = Some x -> x <> r) ->
  bag_remove r l = delete i l.
Proof.
  revert i. induction l as [| x l IH]; intros i Hi Hf; [done |]. simpl.
  destruct i as [| i]; simpl in Hi.
  - simplify_eq. by rewrite decide_True.
  - rewrite decide_False by (apply (Hf 0%nat x); [lia | done]). simpl. f_equal.
    apply IH; [done |]. intros j y Hj Hy. apply (Hf (S j)); [lia | done].
Qed.

Lemma bag_remove_absent l r : r ∉ l -> bag_remove r l = l.
Proof.
  induction l as [| x l IH]; simpl; [done |]. intros Hn.
  rewrite decide_False by (intros ->; apply Hn; by left). f_equal. apply IH.
  intros Hr. apply Hn. by right.
Qed.

Lemma unregister_loop_spec st lo hi n i :
  wf_ranges st -> 0 <= i -> i + Z.of_nat n = js_arena_range_count st ->
  (forall j, 0 <= j < i -> range_at st j <> Range lo hi) ->
  let st' := unregister_base_loop n st lo hi i in
  wf_ranges st' /\ live_ranges st' ≡ₚ bag_remove (Range lo hi) (live_ranges st).
Proof.
  intros Hwf. revert i. induction n as [| n IH]; intros i Hi Hn Hno; simpl.
  - split; [done |]. rewrite bag_remove_absent; [done |].
    intros Hin. apply list_elem_of_lookup in Hin as [j Hj].
    pose proof (lookup_lt_Some _ _ _ Hj) as Hjl. rewrite live_length in Hjl by done.
    apply (Hno (Z.of_nat j)); [lia |].
    rewrite <- (Nat2Z.id j), live_lookup in Hj by (done || lia). congruence.
  - destruct ((r_lo (range_at st i) =? lo) && (r_hi (range_at st i) =? hi)) eqn:Heq.
    + b2p. assert (Hr : range_at st i = Range lo hi) by (destruct (range_at st i); simpl in *; congruence).
      pose proof Hwf as [Hl Hc]. unfold JS_ARENA_RANGES_MAX in *.
      split; [split; simpl; rewrite ?lenZ_setZ; unfold JS_ARENA_RANGES_MAX; lia |].
      set (c := js_arena_range_count st) in *.
      rewrite (bag_remove_first _ (Z.to_nat i)).
      * pose proof (live_length st Hwf) as Hlen. fold c in Hlen.
        rewrite <- (swap_remove (live_ranges st) (Z.to_nat i) (Range lo hi) (range_at st (c - 1))).
        -- rewrite Hlen. unfold live_ranges. simpl. fold c. unfold setZ.
           replace (Z.to_nat c - 1)%nat with (Z.to_nat (c - 1)) by lia.
           rewrite take_insert_ge by lia.
           rewrite <- take_insert_lt by lia. rewrite take_take.
           replace (Z.to_nat (c - 1) `min` Z.to_nat c)%nat with (Z.to_nat (c - 1)) by lia. done.
        -- rewrite live_lookup by (done || (fold c; lia)). by rewrite Hr.
        -- rewrite last_lookup, Hlen. replace (pred (Z.to_nat c)) with (Z.to_nat (c - 1)) by lia.
           apply live_lookup; [fold c; lia | done].
      * rewrite live_lookup by (done || (fold c; lia)). by rewrite Hr.
      * intros j x Hj Hx. rewrite <- (Nat2Z.id j), live_lookup in Hx by (done || (fold c; lia)).
        injection Hx as <-. apply Hno. lia.
    + apply IH; [lia | lia |]. intros j Hj. destruct (Z.eq_dec j i) as [-> | Hne]; [| apply Hno; lia].
      intros E. rewrite E in Heq. simpl in Heq. rewrite !Z.eqb_refl in Heq. done.
Qed.

Lemma unregister_base_spec st lo hi :
  wf_ranges st ->
  wf_ranges (js_arena_unregister_base st lo hi) /\
  live_ranges (js_arena_unregister_base st lo hi) ≡ₚ bag_remove (Range lo hi) (live_ranges st).
Proof.
  intros Hwf. apply unregister_loop_spec; try done; [| lia].
  destruct Hwf as [_ Hc]. lia.
Qed.

(** The scan decides membership in the bag. *)
Lemma is_base_loop_spec st p n i :
  wf_ranges st -> 0 <= i -> i + Z.of_nat n = js_arena_range_count st ->
  ptr_is_base_loop n st p i = existsb (in_range p) (drop (Z.to_nat i) (live_ranges st)).
Proof.
  intros Hwf. revert i. induction n as [| n IH]; intros i Hi Hn; simpl.
  - rewrite drop_ge; [done |]. rewrite live_length by done. lia.
  - pose proof (live_lookup st i ltac:(lia) Hwf) as Hl. rewrite (drop_S _ _ _ Hl). simpl.
    fold (in_range p (range_at st i)). destruct (in_range p (range_at st i)); simpl; [done |].
    rewrite IH by lia. do 2 f_equal. lia.
Qed.

Lemma ptr_is_base_spec st p :
  wf_ranges st -> js_arena_ptr_is_base st p = existsb (in_range p) (live_ranges st).
Proof.
  intros Hwf. unfold js_arena_ptr_is_base. rewrite is_base_loop_spec; try done.
  - destruct Hwf as [_ Hc]. lia.
Qed.

#[export] Instance existsb_proper {A} (f : A -> bool) : Proper ((≡ₚ) ==> (=)) (existsb f).
Proof.
  intros l l' H. induction H as [| x l l' _ IH | x y l | l1 l2 l3 _ IH1 _ IH2]; simpl.
  - done.
  - by rewrite IH.
  - by destruct (f x), (f y).
  - congruence.
Qed.

(** ** Sequences *)

Inductive base_op := RegBase (lo hi : Z) | UnregBase (lo hi : Z).

Definition base_step (st : base_ranges) (op : base_op) : base_ranges :=
  match op with
  | RegBase lo hi => snd (js_arena_register_base st lo hi)
  | UnregBase lo hi => js_arena_unregister_base st lo hi
  end.

(** The bag a thread means to keep: a full table silently drops a range. *)
Definition bag_step (l : list js_arena_range) (op : base_op) : list js_arena_range :=
  match op with
  | RegBase lo hi => if (length l <? 16)%nat then l ++ [Range lo hi] else l
  | UnregBase lo hi => bag_remove (Range lo hi) l
  end.

Lemma base_steps_spec ops st l :
  wf_ranges st -> live_ranges st ≡ₚ l ->
  wf_ranges (foldl base_step st ops) /\ live_ranges (foldl base_step st ops) ≡ₚ foldl bag_step l ops.
Proof.
  revert st l. induction ops as [| op ops IH]; intros st l Hwf Hl; simpl; [done |].
  assert (Hs : wf_ranges (base_step st op) /\ live_ranges (base_step st op) ≡ₚ bag_step l op).
  { destruct op as [lo hi | lo hi]; simpl.
    - pose proof (register_base_spec st lo hi Hwf) as H. destruct (js_arena_register_base st lo hi) as [rc st'].
      destruct H as (Hwf' & Hc). split; [done |]. simpl. rewrite <- Hl.
      pose proof (live_length st Hwf) as Hlen. pose proof (proj2 Hwf') as Hcb.
      pose proof (live_length st' Hwf') as Hlen'. unfold JS_ARENA_RANGES_MAX in Hcb.
      destruct Hc as [[_ E] | (_ & -> & E)].
      + rewrite E in *. rewrite length_app in Hlen'. simpl in Hlen'.
        destruct (Nat.ltb_spec (length (live_ranges st)) 16); [by rewrite Hl |].
        exfalso. lia.
      + rewrite E. simpl. done.
    - destruct (unregister_base_spec st lo hi Hwf) as [H1 H2]. split; [done |]. by rewrite H2, Hl. }
  destruct Hs as [H1 H2]. by apply IH.
Qed.

(** The range array implements the bag of registered base ranges: after
    any sequence of registrations and removals, [js_arena_ptr_is_base] answers
    exactly membership in a range that was registered (within the limit of 16)
    and not removed since. *)
Theorem base_ranges_refine_bag ops p :
  js_arena_ptr_is_base (foldl base_step base_ranges_init ops) p =
  existsb (in_range p) (foldl bag_step [] ops).
Proof.
  destruct (base_steps_spec ops base_ranges_init []) as [H1 H2]; [done | done |].
  rewrite ptr_is_base_spec by done. by rewrite H2.
Qed.
