(* ===== verification/Memory.v ===== *)
(** * Byte memory

    The process memory the allocators read and write: addresses are [Z], a
    byte never stored is 0 (fresh anonymous pages).  [load64]/[store64] are the
    little-endian [uint64_t] accesses, [memcpy] and [memset] the libc calls.
    The lemmas are the usual ones of such a store: reading back what was
    written, and frame lemmas for disjoint ranges. *)

From stdpp Require Import base list numbers gmap.
From Stdlib Require Import ZArith Lia.
From S2P Require Import Prelude.

(** Use [gmap Z Z] directly so that map lemmas apply. *)
Abbreviation mem := (gmap Z Z).

Definition load8 (m : mem) (a : Z) : Z := default 0 (m !! a).

Fixpoint load_bytes (m : mem) (a : Z) (n : nat) : list Z :=
  match n with
  | O => []
  | S n' => load8 m a :: load_bytes m (a + 1) n'
  end.

Fixpoint store_bytes (m : mem) (a : Z) (l : list Z) : mem :=
  match l with
  | [] => m
  | b :: l' => store_bytes (<[a := b]> m) (a + 1) l'
  end.

(** Little-endian encoding on [n] bytes. *)
Fixpoint le_bytes (n : nat) (v : Z) : list Z :=
  match n with
  | O => []
  | S n' => v mod 256 :: le_bytes n' (v / 256)
  end.

Fixpoint le_value (l : list Z) : Z :=
  match l with
  | [] => 0
  | b :: l' => b + 256 * le_value l'
  end.

Definition load64 (m : mem) (a : Z) : Z := le_value (load_bytes m a 8).
Definition store64 (m : mem) (a v : Z) : mem := store_bytes m a (le_bytes 8 v).

Definition memcpy (m : mem) (dst src n : Z) : mem :=
  store_bytes m dst (load_bytes m src (Z.to_nat n)).
Definition memset (m : mem) (a c n : Z) : mem :=
  store_bytes m a (replicate (Z.to_nat n) c).

(** Two memories agree on [lo, hi). *)
Definition mem_agree (m m' : mem) (lo hi : Z) : Prop :=
  forall x, lo <= x < hi -> load8 m x = load8 m' x.

(** ** Encoding *)

Lemma length_le_bytes n v : length (le_bytes n v) = n.
Proof. revert v. induction n; simpl; auto. Qed.

Lemma le_value_bytes n v : 0 <= v -> le_value (le_bytes n v) = v mod 256 ^ Z.of_nat n.
Proof.
  revert v. induction n as [| n IH]; intros v Hv.
  { simpl. by rewrite Z.mod_1_r. }
  cbn [le_bytes le_value]. rewrite IH by (apply Z.div_pos; lia).
  rewrite Nat2Z.inj_succ, Z.pow_succ_r by lia.
  rewrite Z.rem_mul_r by (try apply Z.pow_pos_nonneg; lia). done.
Qed.

Lemma le_bytes_range n v : Forall (fun b => 0 <= b < 256) (le_bytes n v).
Proof.
  revert v. induction n as [| n IH]; intros v; simpl; constructor; [| apply IH].
  apply Z.mod_pos_bound. lia.
Qed.

(** ** Loads and stores *)

Lemma length_load_bytes m a n : length (load_bytes m a n) = n.
Proof. revert a. induction n; simpl; auto. Qed.

Lemma load8_insert m a b x : load8 (<[a := b]> m) x = if a =? x then b else load8 m x.
Proof.
  unfold load8. destruct (Z.eqb_spec a x) as [-> | Hne].
  - by rewrite lookup_insert_eq.
  - by rewrite lookup_insert_ne.
Qed.

(** What a run of stores leaves at an address. *)
Lemma load8_store_bytes m a l x :
  load8 (store_bytes m a l) x =
  if (a <=? x) && (x <? a + lenZ l) then nthZ 0 l (x - a) else load8 m x.
Proof.
  revert m a. induction l as [| b l IH]; intros m a; unfold lenZ; simpl store_bytes.
  - simpl. bool_lia.
  - rewrite IH, load8_insert. unfold nthZ, lenZ.
    rewrite length_cons, Nat2Z.inj_succ.
    destruct (Z.leb_spec (a + 1) x), (Z.ltb_spec x (a + 1 + Z.of_nat (length l)));
      destruct (Z.leb_spec a x), (Z.ltb_spec x (a + Z.succ (Z.of_nat (length l))));
      destruct (Z.eqb_spec a x); simpl; try lia; try done.
    + replace (Z.to_nat (x - a)) with (S (Z.to_nat (x - (a + 1)))) by lia. done.
    + replace (Z.to_nat (x - a)) with 0%nat by lia. done.
Qed.

Lemma load8_store_out m a l x :
  ~ a <= x < a + lenZ l -> load8 (store_bytes m a l) x = load8 m x.
Proof. intros H. rewrite load8_store_bytes. bool_lia. Qed.

Lemma nthZ_load_bytes m a n i :
  0 <= i < Z.of_nat n -> nthZ 0 (load_bytes m a n) i = load8 m (a + i).
Proof.
  revert a i. induction n as [| n IH]; intros a i Hi; [lia |].
  simpl. destruct (Z.eq_dec i 0) as [-> | Hi0].
  - unfold nthZ. simpl. by rewrite Z.add_0_r.
  - specialize (IH (a + 1) (i - 1) ltac:(lia)). unfold nthZ in *.
    replace (Z.to_nat i) with (S (Z.to_nat (i - 1))) by lia. simpl. rewrite IH.
    f_equal. lia.
Qed.

Lemma load_bytes_ext m m' a n :
  (forall x, a <= x < a + Z.of_nat n -> load8 m x = load8 m' x) ->
  load_bytes m a n = load_bytes m' a n.
Proof.
  revert a. induction n as [| n IH]; intros a H; simpl; [done |].
  f_equal; [apply H; lia |]. apply IH. intros x Hx. apply H. lia.
Qed.

Lemma load_store_bytes_same m a l : load_bytes (store_bytes m a l) a (length l) = l.
Proof.
  apply list_eq_same_length with (n := length l); [done | by rewrite length_load_bytes |].
  intros i x y Hi Hx Hy.
  pose proof (nthZ_load_bytes (store_bytes m a l) a (length l) (Z.of_nat i) ltac:(lia)) as H.
  unfold nthZ in H. rewrite Nat2Z.id, Hx in H. simpl in H.
  rewrite load8_store_bytes in H.
  replace ((a <=? a + Z.of_nat i) && (a + Z.of_nat i <? a + lenZ l)) with true in H
    by (unfold lenZ; bool_lia).
  unfold nthZ in H. replace (Z.to_nat (a + Z.of_nat i - a)) with i in H by lia.
  rewrite Hy in H. done.
Qed.

Lemma load64_store64_same m a v : 0 <= v < 2 ^ 64 -> load64 (store64 m a v) a = v.
Proof.
  intros Hv. unfold load64, store64.
  pose proof (load_store_bytes_same m a (le_bytes 8 v)) as H.
  rewrite length_le_bytes in H. rewrite H, le_value_bytes by lia.
  apply Z.mod_small. change (256 ^ Z.of_nat 8) with (2 ^ 64). lia.
Qed.

Lemma load64_ext m m' a : mem_agree m m' a (a + 8) -> load64 m a = load64 m' a.
Proof. intros H. unfold load64. f_equal. apply load_bytes_ext. intros x Hx. apply H. lia. Qed.

Lemma load8_store64_out m a v x : ~ a <= x < a + 8 -> load8 (store64 m a v) x = load8 m x.
Proof.
  intros H. unfold store64. apply load8_store_out. unfold lenZ. rewrite length_le_bytes. lia.
Qed.

Lemma load64_store64_out m a v b :
  b + 8 <= a \/ a + 8 <= b -> load64 (store64 m a v) b = load64 m b.
Proof. intros H. apply load64_ext. intros x Hx. apply load8_store64_out. lia. Qed.

Lemma load8_memcpy_out m dst src n x :
  0 <= n -> ~ dst <= x < dst + n -> load8 (memcpy m dst src n) x = load8 m x.
Proof.
  intros Hn H. unfold memcpy. apply load8_store_out. unfold lenZ.
  rewrite length_load_bytes. lia.
Qed.

(** [memcpy] makes the destination a copy of the source. *)
Lemma load_bytes_memcpy m dst src n :
  0 <= n -> load_bytes (memcpy m dst src n) dst (Z.to_nat n) = load_bytes m src (Z.to_nat n).
Proof.
  intros Hn. unfold memcpy.
  pose proof (load_store_bytes_same m dst (load_bytes m src (Z.to_nat n))) as H.
  by rewrite length_load_bytes in H.
Qed.

Lemma load8_memset m a c n x :
  0 <= n -> load8 (memset m a c n) x = if (a <=? x) && (x <? a + n) then c else load8 m x.
Proof.
  intros Hn. unfold memset. rewrite load8_store_bytes. unfold lenZ.
  rewrite length_replicate, Z2Nat.id by lia. case_if; [| done]. b2p.
  unfold nthZ. rewrite lookup_replicate_2 by lia. done.
Qed.

(** ** Agreement *)

Lemma mem_agree_refl m lo hi : mem_agree m m lo hi.
Proof. done. Qed.

Lemma mem_agree_sym m m' lo hi : mem_agree m m' lo hi -> mem_agree m' m lo hi.
Proof. intros H x Hx. symmetry. by apply H. Qed.

Lemma mem_agree_trans m1 m2 m3 lo hi :
  mem_agree m1 m2 lo hi -> mem_agree m2 m3 lo hi -> mem_agree m1 m3 lo hi.
Proof. intros H1 H2 x Hx. etrans; [by apply H1 | by apply H2]. Qed.

Lemma mem_agree_sub m m' lo hi lo' hi' :
  mem_agree m m' lo hi -> lo <= lo' -> hi' <= hi -> mem_agree m m' lo' hi'.
Proof. intros H H1 H2 x Hx. apply H. lia. Qed.

Lemma mem_agree_store64 m a v lo hi :
  a + 8 <= lo \/ hi <= a -> mem_agree m (store64 m a v) lo hi.
Proof. intros H x Hx. symmetry. apply load8_store64_out. lia. Qed.

Lemma mem_agree_memcpy m dst src n lo hi :
  0 <= n -> dst + n <= lo \/ hi <= dst -> mem_agree m (memcpy m dst src n) lo hi.
Proof. intros Hn H x Hx. symmetry. apply load8_memcpy_out; lia. Qed.

Lemma mem_agree_memset m a c n lo hi :
  0 <= n -> a + n <= lo \/ hi <= a -> mem_agree m (memset m a c n) lo hi.
Proof. intros Hn H x Hx. rewrite load8_memset by done. bool_lia. Qed.

Lemma load_bytes_agree m m' a n :
  mem_agree m m' a (a + Z.of_nat n) -> load_bytes m a n = load_bytes m' a n.
Proof. intros H. apply load_bytes_ext. exact H. Qed.

#[export] Hint Resolve mem_agree_refl mem_agree_store64 mem_agree_memcpy mem_agree_memset : arenajs.

(** ** Fields of any width, and changes confined to a region *)

(** A little-endian [n]-byte field of a struct. *)
Definition loadw (n : nat) (m : mem) (a : Z) : Z := le_value (load_bytes m a n).
Definition storew (n : nat) (m : mem) (a v : Z) : mem := store_bytes m a (le_bytes n v).

(** [m'] differs from [m] only at addresses in [R]. *)
Definition only (R : Z -> Prop) (m m' : mem) : Prop := forall x, ~ R x -> load8 m' x = load8 m x.

(** The [n] bytes at [a]. *)
Definition at_ (a n x : Z) : Prop := a <= x < a + n.

Lemma only_refl R m : only R m m.
Proof. done. Qed.

Lemma only_mono (R R' : Z -> Prop) m m' : only R m m' -> (forall x, R x -> R' x) -> only R' m m'.
Proof. intros H Hs x Hx. apply H. auto. Qed.

Lemma only_trans R m1 m2 m3 : only R m1 m2 -> only R m2 m3 -> only R m1 m3.
Proof. intros H1 H2 x Hx. rewrite H2 by done. by apply H1. Qed.

Lemma only_or R R' m1 m2 m3 : only R m1 m2 -> only R' m2 m3 -> only (fun x => R x \/ R' x) m1 m3.
Proof. intros H1 H2 x Hx. rewrite H2 by tauto. apply H1. tauto. Qed.

Lemma only_storew n m a v : only (at_ a (Z.of_nat n)) m (storew n m a v).
Proof. intros x Hx. apply load8_store_out. unfold lenZ. by rewrite length_le_bytes. Qed.

Lemma only_store_bytes m a l : only (at_ a (lenZ l)) m (store_bytes m a l).
Proof. intros x Hx. by apply load8_store_out. Qed.

Lemma only_memcpy m dst src n : 0 <= n -> only (at_ dst n) m (memcpy m dst src n).
Proof. intros Hn x Hx. by apply load8_memcpy_out. Qed.

Lemma load8_memcpy_in m dst src n i :
  0 <= i < n -> load8 (memcpy m dst src n) (dst + i) = load8 m (src + i).
Proof.
  intros Hi. unfold memcpy. rewrite load8_store_bytes. unfold lenZ. rewrite length_load_bytes, Z2Nat.id by lia.
  replace ((dst <=? dst + i) && (dst + i <? dst + n)) with true by bool_lia.
  replace (dst + i - dst) with i by lia. apply nthZ_load_bytes. lia.
Qed.

Lemma only_memset m a c n : 0 <= n -> only (at_ a n) m (memset m a c n).
Proof. intros Hn x Hx. rewrite load8_memset by done. unfold at_ in Hx. bool_lia. Qed.

Lemma only_load_bytes R m m' a n :
  only R m m' -> (forall x, at_ a (Z.of_nat n) x -> ~ R x) -> load_bytes m' a n = load_bytes m a n.
Proof. intros H Hd. apply load_bytes_ext. intros x Hx. apply H. by apply Hd. Qed.

Lemma only_loadw R m m' a n :
  only R m m' -> (forall x, at_ a (Z.of_nat n) x -> ~ R x) -> loadw n m' a = loadw n m a.
Proof. intros H Hd. unfold loadw. f_equal. by eapply only_load_bytes. Qed.

Lemma only_load8 R m m' a : only R m m' -> ~ R a -> load8 m' a = load8 m a.
Proof. intros H. apply H. Qed.

Lemma loadw_storew n m a v : 0 <= v < 256 ^ Z.of_nat n -> loadw n (storew n m a v) a = v.
Proof.
  intros Hv. unfold loadw, storew.
  pose proof (load_store_bytes_same m a (le_bytes n v)) as H. rewrite length_le_bytes in H.
  rewrite H, le_value_bytes by lia. by apply Z.mod_small.
Qed.

Lemma loadw_storew_out n k m a v b :
  b + Z.of_nat k <= a \/ a + Z.of_nat n <= b -> loadw k (storew n m a v) b = loadw k m b.
Proof. intros H. eapply only_loadw; [apply only_storew |]. unfold at_. lia. Qed.

#[export] Hint Resolve only_refl only_storew only_store_bytes only_memcpy only_memset : arenajs.
