(* ===== verification/ListHead.v ===== *)
(** * Intrusive doubly linked lists (list.h)

    [struct list_head] is a pair of pointers embedded in other structs; a list
    is a ring through a head node.  The operations work on byte memory; the
    specification is the sequence of nodes: [dll m h l] says that the ring
    through [h] visits [l].

    An operation writes only inside the nodes of its ring, which is what lets
    rings through different fields of the same structs coexist. *)

From stdpp Require Import base list numbers gmap.
From Stdlib Require Import ZArith Lia.
From S2P Require Import Prelude Memory.

(** [prev] is the first field, [next] the second. *)
Definition SIZEOF_LIST_HEAD : Z := 16.

Definition lh_prev (m : mem) (el : Z) : Z := loadw 8 m el.
Definition lh_next (m : mem) (el : Z) : Z := loadw 8 m (el + 8).
Definition set_prev (m : mem) (el v : Z) : mem := storew 8 m el v.
Definition set_next (m : mem) (el v : Z) : mem := storew 8 m (el + 8) v.

Definition init_list_head (m : mem) (head : Z) : mem :=
  set_next (set_prev m head head) head head.

Definition __list_add (m : mem) (el prev next : Z) : mem :=
  let m := set_next m prev el in
  let m := set_prev m el prev in
  let m := set_next m el next in
  set_prev m next el.

Definition list_add (m : mem) (el head : Z) : mem := __list_add m el head (lh_next m head).
Definition list_add_tail (m : mem) (el head : Z) : mem := __list_add m el (lh_prev m head) head.

Definition list_del (m : mem) (el : Z) : mem :=
  let prev := lh_prev m el in
  let next := lh_next m el in
  let m := set_next m prev next in
  let m := set_prev m next prev in
  let m := set_prev m el 0 in
  set_next m el 0.

Definition list_empty (m : mem) (el : Z) : bool := lh_next m el =? el.

(** ** Rings *)

Definition linked (m : mem) (a b : Z) : Prop := lh_next m a = b /\ lh_prev m b = a.

(** From [a] through [l] to [z]. *)
Fixpoint chain (m : mem) (a : Z) (l : list Z) (z : Z) : Prop :=
  match l with
  | [] => linked m a z
  | x :: l => linked m a x /\ chain m x l z
  end.

Definition dll (m : mem) (h : Z) (l : list Z) : Prop := chain m h l h.

(** Two nodes are the same or do not overlap. *)
Definition apart (a b : Z) : Prop := a = b \/ a + 16 <= b \/ b + 16 <= a.

(** Nodes of a ring: addresses that fit a pointer, pairwise apart. *)
Record nodes_ok (N : list Z) : Prop := {
  no_range : forall a, a ∈ N -> 0 <= a < 2 ^ 63;
  no_apart : forall a b, a ∈ N -> b ∈ N -> apart a b
}.

(** The bytes of the nodes. *)
Definition in_nodes (N : list Z) (x : Z) : Prop := exists a, a ∈ N /\ at_ a SIZEOF_LIST_HEAD x.

Lemma nodes_ok_sub N N' : nodes_ok N -> (forall a, a ∈ N' -> a ∈ N) -> nodes_ok N'.
Proof. intros [H1 H2] Hs. split; eauto. Qed.

Lemma in_nodes_sub N N' x : in_nodes N x -> (forall a, a ∈ N -> a ∈ N') -> in_nodes N' x.
Proof. intros (a & Ha & Hx) Hs. exists a. eauto. Qed.

(** *** Fields after a store *)

Section fields.
Context (m : mem) (a b v : Z).
Hypothesis Hap : apart a b.
Hypothesis Hv : 0 <= v < 2 ^ 64.

Lemma prev_set_prev : lh_prev (set_prev m a v) b = if a =? b then v else lh_prev m b.
Proof.
  unfold lh_prev, set_prev. destruct (Z.eqb_spec a b) as [<- | Hne].
  - apply loadw_storew. simpl. lia.
  - apply loadw_storew_out. unfold apart in Hap. lia.
Qed.

Lemma next_set_next : lh_next (set_next m a v) b = if a =? b then v else lh_next m b.
Proof.
  unfold lh_next, set_next. destruct (Z.eqb_spec a b) as [<- | Hne].
  - apply loadw_storew. simpl. lia.
  - apply loadw_storew_out. unfold apart in Hap. lia.
Qed.

Lemma prev_set_next : lh_prev (set_next m a v) b = lh_prev m b.
Proof. unfold lh_prev, set_next. apply loadw_storew_out. unfold apart in Hap. lia. Qed.

Lemma next_set_prev : lh_next (set_prev m a v) b = lh_next m b.
Proof. unfold lh_next, set_prev. apply loadw_storew_out. unfold apart in Hap. lia. Qed.
End fields.

(** Read a field through a sequence of field stores; the side conditions are
    about the nodes at hand. *)
Ltac fields :=
  repeat first [ rewrite prev_set_prev | rewrite next_set_next
               | rewrite prev_set_next | rewrite next_set_prev ].

Lemma only_set_prev m a v : only (at_ a SIZEOF_LIST_HEAD) m (set_prev m a v).
Proof. eapply only_mono; [apply only_storew |]. unfold at_, SIZEOF_LIST_HEAD. lia. Qed.

Lemma only_set_next m a v : only (at_ a SIZEOF_LIST_HEAD) m (set_next m a v).
Proof. eapply only_mono; [apply only_storew |]. unfold at_, SIZEOF_LIST_HEAD. lia. Qed.

(** *** Chains *)

Lemma chain_app m a l1 x l2 z : chain m a (l1 ++ x :: l2) z <-> chain m a l1 x /\ chain m x l2 z.
Proof. revert a. induction l1 as [| y l1 IH]; intros a; simpl; [done |]. rewrite IH. tauto. Qed.

Lemma chain_frame m m' a l z :
  (forall x, x ∈ a :: l -> lh_next m' x = lh_next m x) ->
  (forall x, x ∈ l ++ [z] -> lh_prev m' x = lh_prev m x) ->
  chain m a l z -> chain m' a l z.
Proof.
  revert a. induction l as [| y l IH]; intros a Hn Hp; simpl; unfold linked.
  - rewrite Hn, Hp by set_solver. done.
  - rewrite Hn, Hp by set_solver. intros [H1 H2]. split; [done |]. apply IH; set_solver.
Qed.

Lemma last_cons {A} (y : A) l a : List.last (y :: l) a = List.last l y.
Proof.
  revert y a. induction l as [| w l IH]; intros y a; [done |].
  change (List.last (w :: l) a = List.last (w :: l) y). by rewrite !IH.
Qed.

Lemma last_in {A} (a : A) l : List.last l a ∈ a :: l.
Proof.
  revert a. induction l as [| x l IH]; intros a; [set_solver |]. rewrite last_cons. specialize (IH x). set_solver.
Qed.

(** Send the end of a chain elsewhere. *)
Lemma chain_retarget m m' a l z z' :
  NoDup (a :: l) ->
  lh_next m' (List.last l a) = z' -> lh_prev m' z' = List.last l a ->
  (forall x, x ∈ a :: l -> x <> List.last l a -> lh_next m' x = lh_next m x) ->
  (forall x, x ∈ l -> lh_prev m' x = lh_prev m x) ->
  chain m a l z -> chain m' a l z'.
Proof.
  revert a. induction l as [| y l IH]; intros a Hnd Hn Hp Hns Hps; simpl; unfold linked.
  { done. }
  rewrite last_cons in *. apply NoDup_cons in Hnd as [Ha Hnd].
  pose proof (last_in y l) as Hin.
  assert (a <> List.last l y) by set_solver.
  rewrite Hns, Hps by set_solver. intros [H1 H2]. split; [done |]. apply IH; auto; set_solver.
Qed.

(** The end of a chain points back to its last node. *)
Lemma chain_last m a l z : chain m a l z -> linked m (List.last l a) z.
Proof.
  revert a. induction l as [| x l IH]; intros a; [done |]. rewrite last_cons. intros [_ H]. by apply IH.
Qed.

(** ** What the operations do *)

Lemma init_list_head_spec m h :
  0 <= h < 2 ^ 63 ->
  dll (init_list_head m h) h [] /\ only (at_ h SIZEOF_LIST_HEAD) m (init_list_head m h).
Proof.
  intros Hh. unfold dll, init_list_head, chain, linked. split.
  - fields; rewrite ?Z.eqb_refl; try done; try (by left); lia.
  - eapply only_trans; [apply only_set_prev | apply only_set_next].
Qed.

Lemma only_list_add_nodes m el p n :
  only (in_nodes [el; p; n]) m (__list_add m el p n).
Proof.
  unfold __list_add.
  assert (Hn : forall m a, a ∈ [el; p; n] -> forall v, only (in_nodes [el; p; n]) m (set_next m a v)).
  { intros m' a Ha v. eapply only_mono; [apply only_set_next |]. intros x Hx. by exists a. }
  assert (Hp : forall m a, a ∈ [el; p; n] -> forall v, only (in_nodes [el; p; n]) m (set_prev m a v)).
  { intros m' a Ha v. eapply only_mono; [apply only_set_prev |]. intros x Hx. by exists a. }
  do 3 (eapply only_trans; [| first [apply Hn | apply Hp]; set_solver]). apply Hn. set_solver.
Qed.

Lemma NoDup_middle (h el : Z) l1 l2 :
  NoDup (h :: l1 ++ el :: l2) -> (el ∉ h :: l1 ++ l2) /\ NoDup (h :: l1 ++ l2).
Proof.
  change (h :: l1 ++ el :: l2) with ((h :: l1) ++ el :: l2).
  change (h :: l1 ++ l2) with ((h :: l1) ++ l2). intros Hnd.
  apply NoDup_app in Hnd as (N1 & N2 & N3). apply NoDup_cons in N3 as [N3 N4].
  split; [| apply NoDup_app; split; [done |]; split; [| done]]; clear -N2 N3; set_solver.
Qed.

(** The side conditions of [fields] from the facts [Ha], [Hr] of a ring. *)
Ltac ring_sides :=
  try match goal with
  | Ha : forall a b, _ -> _ -> apart a b |- apart _ _ => apply Ha; assumption
  | Hr : forall a, _ -> 0 <= a < 2 ^ 64 |- 0 <= ?v < 2 ^ 64 => first [lia | apply Hr; assumption]
  end.

Section ring.
Context (m : mem) (h : Z) (l : list Z).
Hypothesis Hd : dll m h l.

Lemma list_add_spec el :
  nodes_ok (el :: h :: l) -> NoDup (el :: h :: l) ->
  dll (list_add m el h) h (el :: l) /\ only (in_nodes (el :: h :: l)) m (list_add m el h).
Proof.
  intros Hok Hnd. unfold list_add. set (n := lh_next m h).
  assert (Hn : n ∈ h :: l).
  { unfold n. destruct l as [| y l']; simpl in Hd.
    - destruct Hd as [-> _]. set_solver.
    - destruct Hd as [[-> _] _]. set_solver. }
  assert (Ha : forall a b, a ∈ el :: h :: l -> b ∈ el :: h :: l -> apart a b) by apply Hok.
  assert (Hr : forall a, a ∈ el :: h :: l -> 0 <= a < 2 ^ 64).
  { intros a Hin. pose proof (no_range _ Hok a Hin). lia. }
  split.
  2:{ eapply only_mono; [apply only_list_add_nodes |]. intros x Hx. eapply in_nodes_sub; [exact Hx | set_solver]. }
  apply NoDup_cons in Hnd as [Hel Hnd]. apply NoDup_cons in Hnd as [Hh Hnd].
  assert (Hne1 : el <> h) by (clear -Hel; set_solver).
  assert (Hne2 : n <> el) by (intros E; apply Hel; by rewrite <- E).
  assert (Iel : el ∈ el :: h :: l) by apply list_elem_of_here.
  assert (Ih : h ∈ el :: h :: l) by apply list_elem_of_further, list_elem_of_here.
  assert (In : n ∈ el :: h :: l) by by apply list_elem_of_further.
  unfold __list_add, dll. cbn [chain].
  assert (Hn' : lh_next (set_prev (set_next (set_prev (set_next m h el) el h) el n) n el) h = el).
  { fields; ring_sides.
    destruct (Z.eqb_spec el h); [done |]. by rewrite Z.eqb_refl. }
  split; [split; [exact Hn' |] |].
  - fields; ring_sides.
    rewrite Z.eqb_refl. destruct (Z.eqb_spec n el); done.
  - assert (Hlk : linked (set_prev (set_next (set_prev (set_next m h el) el h) el n) n el) el n).
    { split; fields; ring_sides; by rewrite Z.eqb_refl. }
    destruct l as [| y l'].
    + simpl in Hd. destruct Hd as [E _]. fold n in E. rewrite E in *. exact Hlk.
    + destruct Hd as [[E _] Hc]. fold n in E. rewrite E in *. split; [exact Hlk |].
      revert Hc. apply NoDup_cons in Hnd as [Hy _]. apply chain_frame; intros x Hx.
      * assert (Ix : x ∈ el :: h :: y :: l') by (clear -Hx; set_solver).
        assert (el <> x /\ h <> x) as [] by (clear -Hx Hel Hh; set_solver).
        fields; ring_sides. bool_lia.
      * assert (Ix : x ∈ el :: h :: y :: l') by (clear -Hx; set_solver).
        assert (el <> x /\ y <> x) as [] by (clear -Hx Hel Hh Hy; set_solver).
        fields; ring_sides. bool_lia.
Qed.

Lemma list_add_tail_spec el :
  nodes_ok (el :: h :: l) -> NoDup (el :: h :: l) ->
  dll (list_add_tail m el h) h (l ++ [el]) /\ only (in_nodes (el :: h :: l)) m (list_add_tail m el h).
Proof.
  intros Hok Hnd. unfold list_add_tail. destruct (chain_last _ _ _ _ Hd) as [_ ->].
  set (e := List.last l h). pose proof (last_in h l) as He. fold e in He.
  assert (Ha : forall a b, a ∈ el :: h :: l -> b ∈ el :: h :: l -> apart a b) by apply Hok.
  assert (Hr : forall a, a ∈ el :: h :: l -> 0 <= a < 2 ^ 64).
  { intros a Hin. pose proof (no_range _ Hok a Hin). lia. }
  split.
  2:{ eapply only_mono; [apply only_list_add_nodes |]. intros x Hx. eapply in_nodes_sub; [exact Hx | set_solver]. }
  apply NoDup_cons in Hnd as [Hel Hnd]. assert (el <> e /\ el <> h) as [Hne1 Hne2] by set_solver.
  assert (Iel : el ∈ el :: h :: l) by apply list_elem_of_here.
  assert (Ih : h ∈ el :: h :: l) by apply list_elem_of_further, list_elem_of_here.
  assert (Ie : e ∈ el :: h :: l) by by apply list_elem_of_further.
  unfold __list_add, dll. apply chain_app. split; [| split].
  - revert Hd. apply chain_retarget; [done | | | |]; fold e.
    1,2: fields; ring_sides; rewrite ?Z.eqb_refl; bool_lia.
    + intros x Hx Hxe. assert (Ix : x ∈ el :: h :: l) by by apply list_elem_of_further.
      assert (el <> x) by (clear -Hel Hx; set_solver). fields; ring_sides. bool_lia.
    + intros x Hx. apply NoDup_cons in Hnd as [Hh _]. assert (Ix : x ∈ el :: h :: l) by (clear -Hx; set_solver).
      assert (el <> x /\ h <> x) as [] by (clear -Hel Hh Hx; set_solver). fields; ring_sides. bool_lia.
  - fields; ring_sides. by rewrite Z.eqb_refl.
  - fields; ring_sides. by rewrite Z.eqb_refl.
Qed.

Lemma list_del_spec el l1 l2 :
  l = l1 ++ el :: l2 -> nodes_ok (h :: l) -> NoDup (h :: l) ->
  dll (list_del m el) h (l1 ++ l2) /\ only (in_nodes (h :: l)) m (list_del m el).
Proof.
  intros El Hok Hnd. unfold dll in Hd. rewrite El in Hd. apply chain_app in Hd as [Hc1 Hc2].
  destruct (chain_last _ _ _ _ Hc1) as [_ Ep]. set (e := List.last l1 h) in Ep.
  assert (He : e ∈ h :: l1) by apply last_in.
  unfold list_del. rewrite Ep. set (n := lh_next m el).
  assert (Hn : n ∈ l2 ++ [h] /\ lh_prev m n = el).
  { unfold n. destruct l2 as [| y l2']; simpl in Hc2; [destruct Hc2 as [-> ?] | destruct Hc2 as [[-> ?] _]]; (split; [clear; set_solver | done]). }
  destruct Hn as [Hn _].
  assert (Ha : forall a b, a ∈ h :: l -> b ∈ h :: l -> apart a b) by apply Hok.
  assert (Hr : forall a, a ∈ h :: l -> 0 <= a < 2 ^ 64).
  { intros a Hin. pose proof (no_range _ Hok a Hin). lia. }
  assert (Hz : 0 <= 0 < 2 ^ 64) by lia.
  rewrite El in Hnd. pose proof (NoDup_middle _ _ _ _ Hnd) as Hel.
  destruct Hel as [Hel Hnd'].
  assert (Hne1 : e <> el) by (intros E; apply Hel; rewrite <- E; clear -He; set_solver).
  assert (Hne2 : n <> el) by (intros E; apply Hel; rewrite <- E; clear -Hn; set_solver).
  assert (Hin : e ∈ h :: l /\ n ∈ h :: l /\ el ∈ h :: l) by (clear -He Hn El; subst l; set_solver).
  destruct Hin as (Ie & In & Iel). assert (Hin := conj Ie (conj In Iel)).
  assert (Hsub : forall x, x ∈ h :: l1 ++ l2 -> x ∈ h :: l) by (clear -El; subst l; set_solver).
  split.
  2:{ do 3 (eapply only_trans; [| eapply only_mono; [apply only_set_next || apply only_set_prev | intros x Hx; eexists; split; [| exact Hx]; tauto]]).
      eapply only_mono; [apply only_set_next | intros x Hx; eexists; split; [| exact Hx]; tauto]. }
  set (m' := set_next _ el 0).
  assert (Fn : forall x, x ∈ h :: l -> x <> e -> x <> el -> lh_next m' x = lh_next m x).
  { intros x Hx H1 H2. unfold m'. fields; ring_sides. bool_lia. }
  assert (Fp : forall x, x ∈ h :: l -> x <> n -> x <> el -> lh_prev m' x = lh_prev m x).
  { intros x Hx H1 H2. unfold m'. fields; ring_sides. bool_lia. }
  assert (Lk : linked m' e n).
  { split; unfold m'; fields; ring_sides; rewrite ?Z.eqb_refl; bool_lia. }
  destruct l2 as [| y l2'].
  - rewrite app_nil_r in *. simpl in Hc2. destruct Hc2 as [E _]. fold n in E.
    unfold dll. apply (chain_retarget m m' h l1 el h); fold e; try done; try (rewrite <- E; apply Lk).
    + intros x Hx Hxe. apply Fn; [by apply Hsub | done | clear -Hx Hel; set_solver].
    + intros x Hx. apply NoDup_cons in Hnd' as [Hh _].
      apply Fp; [apply Hsub | rewrite E | ]; clear -Hx Hel Hh; set_solver.
  - destruct Hc2 as [[E _] Hc2]. fold n in E. subst y. unfold dll. apply chain_app.
    change (h :: l1 ++ n :: l2') with ((h :: l1) ++ n :: l2') in Hnd'.
    apply NoDup_app in Hnd' as (N1 & N2 & N3). apply NoDup_cons in N3 as [N3 N4]. split.
    + apply (chain_retarget m m' h l1 el n); fold e; try done; try apply Lk.
      * intros x Hx Hxe. apply Fn; [apply Hsub | done |]; clear -Hx Hel; set_solver.
      * intros x Hx. apply Fp; [apply Hsub | |]; clear -Hx Hel N2; set_solver.
    + revert Hc2. apply chain_frame; intros x Hx.
      * apply Fn; [apply Hsub | |]; clear -Hx Hel N2 He; set_solver.
      * apply Fp; [apply Hsub | |]; clear -Hx Hel N2 N3; set_solver.
Qed.

Lemma list_empty_spec : NoDup (h :: l) -> list_empty m h = bool_decide (l = []).
Proof.
  intros Hnd. unfold list_empty. destruct l as [| x l']; simpl in Hd.
  - destruct Hd as [-> _]. rewrite Z.eqb_refl. done.
  - destruct Hd as [[-> _] _]. rewrite bool_decide_eq_false_2 by done. apply Z.eqb_neq. apply NoDup_cons in Hnd as [Hh _]. set_solver.
Qed.

Lemma list_first_spec : lh_next m h = hd h l.
Proof. destruct l; [apply Hd | apply Hd]. Qed.

End ring.
