(* ===== verification/Thermometer.v ===== *)
(** * Write thermometer and hard protection (qjs-arena.c)

    Two process-wide tools built on [mprotect] and [SIGSEGV].  The thermometer
    write-protects a base range and counts the pages written to; hardening
    write-protects a frozen base for good.  The model holds both tables, the
    two saved [sigaction]s, and the kernel's part: the current [SIGSEGV] action
    and the set of read-only pages.  A store to a read-only page delivers the
    signal and, if the handler returns, is executed again, which is how the
    code counts and continues.

    Diagnostic output (the message and the backtrace) is not modelled.

    The theorems: with the thermometer on, every store of the program
    completes and has its plain effect, [dirty_offsets]/[pages] report exactly
    the pages stored to, and [changed_bytes], which compares only dirty pages,
    counts exactly the bytes of the range that differ from the baseline. *)

From stdpp Require Import base list numbers gmap.
From Stdlib Require Import ZArith Lia.
From S2P Require Import Prelude Memory BaseRanges.

Definition HARD_MAX : Z := 8.
Definition THERM_MAX : Z := 8.

(** A [SIGSEGV] action: default, ignore, the embedder's own, or one of ours. *)
Inductive handler :=
  | SIG_DFL
  | SIG_IGN
  | HostHandler (n : Z)
  | ThermHandler
  | HardHandler.

Record therm_state := {
  t_lo : Z;
  t_hi : Z;
  base_pages : Z;
  dirty_bitmap : list Z;
  baseline : list Z;
  writes : Z;
  pages_dirty : Z
}.

(** The file's static variables and the kernel's state; tables are the live
    prefix of the C arrays. *)
Record guard := {
  hard_ranges : list (Z * Z);
  hard_handler_installed : bool;
  hard_prev_sa : handler;
  therm_states : list therm_state;
  therm_handler_installed : bool;
  therm_prev_sa : handler;
  therm_page_size : Z;
  therm_trace_lo : Z;
  therm_trace_hi : Z;
  segv_action : handler;
  read_only : gset Z
}.

Definition guard_init (action : handler) : guard :=
  {| hard_ranges := []; hard_handler_installed := false; hard_prev_sa := SIG_DFL;
     therm_states := []; therm_handler_installed := false; therm_prev_sa := SIG_DFL;
     therm_page_size := 0; therm_trace_lo := 0; therm_trace_hi := 0;
     segv_action := action; read_only := ∅ |}.

(** What the system answers during a call. *)
Record os_answers := {
  page_size_answer : Z;
  calloc_ok : bool;
  malloc_ok : bool;
  sigaction_ok : bool;
  mprotect_ok : bool
}.

(** Field updates. *)
Definition set_hard (g : guard) (rs : list (Z * Z)) (inst : bool) (prev action : handler) (ro : gset Z) : guard :=
  {| hard_ranges := rs; hard_handler_installed := inst; hard_prev_sa := prev;
     therm_states := therm_states g; therm_handler_installed := therm_handler_installed g;
     therm_prev_sa := therm_prev_sa g; therm_page_size := therm_page_size g;
     therm_trace_lo := therm_trace_lo g; therm_trace_hi := therm_trace_hi g;
     segv_action := action; read_only := ro |}.

Definition set_therm (g : guard) (ts : list therm_state) (inst : bool) (prev action : handler) (ro : gset Z) : guard :=
  {| hard_ranges := hard_ranges g; hard_handler_installed := hard_handler_installed g;
     hard_prev_sa := hard_prev_sa g; therm_states := ts; therm_handler_installed := inst;
     therm_prev_sa := prev; therm_page_size := therm_page_size g;
     therm_trace_lo := therm_trace_lo g; therm_trace_hi := therm_trace_hi g;
     segv_action := action; read_only := ro |}.

Definition set_states (g : guard) (ts : list therm_state) (ro : gset Z) : guard :=
  set_therm g ts (therm_handler_installed g) (therm_prev_sa g) (segv_action g) ro.

Definition set_page_size (g : guard) (p : Z) : guard :=
  {| hard_ranges := hard_ranges g; hard_handler_installed := hard_handler_installed g;
     hard_prev_sa := hard_prev_sa g; therm_states := therm_states g;
     therm_handler_installed := therm_handler_installed g;
     therm_prev_sa := therm_prev_sa g; therm_page_size := p;
     therm_trace_lo := therm_trace_lo g; therm_trace_hi := therm_trace_hi g;
     segv_action := segv_action g; read_only := read_only g |}.

Definition set_trace (g : guard) (lo hi : Z) : guard :=
  {| hard_ranges := hard_ranges g; hard_handler_installed := hard_handler_installed g;
     hard_prev_sa := hard_prev_sa g; therm_states := therm_states g;
     therm_handler_installed := therm_handler_installed g;
     therm_prev_sa := therm_prev_sa g; therm_page_size := therm_page_size g;
     therm_trace_lo := lo; therm_trace_hi := hi;
     segv_action := segv_action g; read_only := read_only g |}.

(** The page numbers of [lo, hi); [mprotect] works on them. *)
Definition pages_of (psize lo hi : Z) : gset Z :=
  list_to_set (seqZ (lo / psize) ((hi - lo + psize - 1) / psize)).

(** ** Lookup *)

Fixpoint hard_find_from (rs : list (Z * Z)) (lo i : Z) : Z :=
  match rs with
  | [] => -1
  | (l, _) :: rs' => if l =? lo then i else hard_find_from rs' lo (i + 1)
  end.

Definition hard_find (g : guard) (lo : Z) : Z := hard_find_from (hard_ranges g) lo 0.

Fixpoint therm_find (f : therm_state -> bool) (ts : list therm_state) (i : Z) : option Z :=
  match ts with
  | [] => None
  | s :: ts' => if f s then Some i else therm_find f ts' (i + 1)
  end.

Definition therm_find_for (g : guard) (addr : Z) : option Z :=
  therm_find (fun s => (t_lo s <=? addr) && (addr <? t_hi s)) (therm_states g) 0.

Definition therm_find_by_lo (g : guard) (lo : Z) : option Z :=
  therm_find (fun s => t_lo s =? lo) (therm_states g) 0.

Definition no_therm : therm_state := Build_therm_state 0 0 0 [] [] 0 0.
Definition therm_at (g : guard) (i : Z) : therm_state := nthZ no_therm (therm_states g) i.

(** ** The signal handlers

    A handler either ends the process, hands over to the embedder's handler,
    or returns, after which the faulting store is executed again. *)

Inductive delivered :=
  | Returns (g : guard)
  | Killed
  | Foreign (n : Z).

Definition bit_set (bm : list Z) (page : Z) : bool :=
  Z.testbit (nthZ 0 bm (Z.shiftr page 3)) (Z.land page 7).

(** The body of [therm_sigsegv] for a fault in entry [i]. *)
Definition therm_record (g : guard) (i addr : Z) : guard :=
  let s := therm_at g i in
  let page_idx := (addr - t_lo s) / therm_page_size g in
  let byte_idx := Z.shiftr page_idx 3 in
  let bit := Z.shiftl 1 (Z.land page_idx 7) in
  let byte := nthZ 0 (dirty_bitmap s) byte_idx in
  let fresh := Z.land byte bit =? 0 in
  let s' := {| t_lo := t_lo s; t_hi := t_hi s; base_pages := base_pages s;
               dirty_bitmap := if fresh then setZ byte_idx (Z.lor byte bit) (dirty_bitmap s)
                               else dirty_bitmap s;
               baseline := baseline s;
               writes := u64 (writes s + 1);
               pages_dirty := if fresh then u64 (pages_dirty s + 1) else pages_dirty s |} in
  let page_addr := t_lo s + page_idx * therm_page_size g in
  set_states g (setZ i s' (therm_states g))
    (read_only g ∖ pages_of (therm_page_size g) page_addr (page_addr + therm_page_size g)).

Definition hard_hit (g : guard) (addr : Z) : bool :=
  existsb (fun r => (fst r <=? addr) && (addr <? snd r)) (hard_ranges g).

(** [therm_sigsegv] with [therm_chain], and [hard_sigsegv]; handlers chain to
    the action they replaced, at most [fuel] deep. *)
Fixpoint deliver (fuel : nat) (h : handler) (g : guard) (addr : Z) : delivered :=
  let chain prev :=
    match prev with
    | SIG_DFL => Killed
    | SIG_IGN => Returns g
    | HostHandler n => Foreign n
    | _ => match fuel with O => Killed | S fuel' => deliver fuel' prev g addr end
    end in
  match h with
  | SIG_DFL | SIG_IGN => Killed
  | HostHandler n => Foreign n
  | ThermHandler =>
      match therm_find_for g addr with
      | Some i => Returns (therm_record g i addr)
      | None => chain (therm_prev_sa g)
      end
  | HardHandler =>
      if hard_hit g addr then
        Returns (set_hard g (hard_ranges g) (hard_handler_installed g) (hard_prev_sa g) SIG_DFL (read_only g))
      else chain (hard_prev_sa g)
  end.

(** A store by the program, executed until it completes. *)
Inductive stored :=
  | Stored (g : guard) (m : mem)
  | Died
  | HostFault (n : Z)
  | Livelock.

Fixpoint user_store (fuel : nat) (psize : Z) (g : guard) (m : mem) (addr b : Z) : stored :=
  if bool_decide (addr / psize ∈ read_only g) then
    match fuel with
    | O => Livelock
    | S fuel' =>
        match deliver 2 (segv_action g) g addr with
        | Returns g' => user_store fuel' psize g' m addr b
        | Killed => Died
        | Foreign n => HostFault n
        end
    end
  else Stored g (<[addr := b]> m).

(** ** Installing the handler *)

Definition therm_install_handler (os : os_answers) (g : guard) : Z * guard :=
  if therm_handler_installed g then (0, g)
  else if negb (sigaction_ok os) then (-1, g)
  else (0, set_therm g (therm_states g) true (segv_action g) ThermHandler (read_only g)).

Definition therm_uninstall_handler_if_idle (g : guard) : guard :=
  if negb (therm_handler_installed g) || (0 <? lenZ (therm_states g)) then g
  else set_therm g (therm_states g) false (therm_prev_sa g) (therm_prev_sa g) (read_only g).

(** ** Ranges on and off *)

Definition js_arena_thermometer_enable_range (os : os_answers) (g : guard) (m : mem) (lo hi : Z) : Z * guard :=
  if (lo =? 0) || (hi =? 0) || (hi <=? lo) then (-1, g)
  else match therm_find_by_lo g lo with
  | Some _ => (0, g)
  | None =>
  if 0 <=? hard_find g lo then (-1, g)
  else if THERM_MAX <=? lenZ (therm_states g) then (-1, g)
  else
    let g := if therm_page_size g =? 0 then set_page_size g (page_size_answer os) else g in
    if therm_page_size g <=? 0 then (-1, g)
    else if negb (Z.land lo (therm_page_size g - 1) =? 0) then (-1, g)
    else
      let base_size := hi - lo in
      let pages := base_size / therm_page_size g in
      let bitmap_bytes := (pages + 7) / 8 in
      if negb (calloc_ok os) then (-1, g)
      else
        let bitmap := replicate (Z.to_nat (if bitmap_bytes =? 0 then 1 else bitmap_bytes)) 0 in
        if negb (malloc_ok os) then (-1, g)
        else
          let base := load_bytes m lo (Z.to_nat base_size) in
          let '(rc, g) := therm_install_handler os g in
          if rc <? 0 then (-1, g)
          else if negb (mprotect_ok os) then (-1, therm_uninstall_handler_if_idle g)
          else
            let s := {| t_lo := lo; t_hi := hi; base_pages := pages; dirty_bitmap := bitmap;
                        baseline := base; writes := 0; pages_dirty := 0 |} in
            (0, set_states g (therm_states g ++ [s]) (read_only g ∪ pages_of (therm_page_size g) lo hi))
  end.

(** Move the last entry into slot [i] and drop the last slot. *)
Definition compact {A} (i : Z) (l : list A) : list A :=
  match list.last l with
  | Some x => take (length l - 1) (setZ i x l)
  | None => l
  end.

Definition js_arena_thermometer_disable_range (g : guard) (lo hi : Z) : guard :=
  match therm_find_by_lo g lo with
  | None => g
  | Some i =>
      let s := therm_at g i in
      let g := set_states g (compact i (therm_states g))
                 (read_only g ∖ pages_of (therm_page_size g) (t_lo s) (t_hi s)) in
      therm_uninstall_handler_if_idle g
  end.

(** ** The no-argument interface: the most recently enabled range *)

Definition therm_current (g : guard) : option therm_state := list.last (therm_states g).

Definition js_arena_thermometer_enable (os : os_answers) (ranges : base_ranges) (g : guard) (m : mem) : Z * guard :=
  if js_arena_range_count ranges =? 0 then (-1, g)
  else
    let r := range_at ranges (js_arena_range_count ranges - 1) in
    js_arena_thermometer_enable_range os g m (r_lo r) (r_hi r).

(** One entry leaves the table per round. *)
Fixpoint thermometer_disable_loop (n : nat) (g : guard) : guard :=
  match n with
  | O => g
  | S n' =>
      match list.last (therm_states g) with
      | None => g
      | Some s => thermometer_disable_loop n' (js_arena_thermometer_disable_range g (t_lo s) (t_hi s))
      end
  end.

Definition js_arena_thermometer_disable (g : guard) : guard :=
  thermometer_disable_loop (length (therm_states g)) g.

Definition js_arena_thermometer_reset (g : guard) (m : mem) : guard :=
  match therm_current g with
  | None => g
  | Some s =>
      let s' := {| t_lo := t_lo s; t_hi := t_hi s; base_pages := base_pages s;
                   dirty_bitmap := map (fun _ => 0) (take (Z.to_nat ((base_pages s + 7) / 8)) (dirty_bitmap s))
                                   ++ drop (Z.to_nat ((base_pages s + 7) / 8)) (dirty_bitmap s);
                   baseline := load_bytes m (t_lo s) (Z.to_nat (t_hi s - t_lo s));
                   writes := 0; pages_dirty := 0 |} in
      set_states g (setZ (lenZ (therm_states g) - 1) s' (therm_states g))
        (read_only g ∪ pages_of (therm_page_size g) (t_lo s) (t_hi s))
  end.

Definition js_arena_thermometer_pages (g : guard) : Z :=
  match therm_current g with Some s => pages_dirty s | None => 0 end.

Definition js_arena_thermometer_writes (g : guard) : Z :=
  match therm_current g with Some s => writes s | None => 0 end.

Definition js_arena_thermometer_trace_range (g : guard) (lo_off hi_off : Z) : guard :=
  if (lo_off =? 0) && (hi_off =? 0) then set_trace g 0 0
  else match therm_current g with
  | None => g
  | Some s => set_trace g (t_lo s + lo_off) (t_lo s + hi_off)
  end.

Definition js_arena_thermometer_page_size (g : guard) : Z :=
  if 0 <? lenZ (therm_states g) then therm_page_size g else 0.

(** ** Reports *)

(** The loop over pages [i, i + n): the count and the offsets stored, [cap]
    of them at most. *)
Fixpoint dirty_offsets_loop (n : nat) (psize : Z) (bm : list Z) (i cap found : Z) (out : list Z) : Z * list Z :=
  match n with
  | O => (found, out)
  | S n' =>
      if bit_set bm i then
        dirty_offsets_loop n' psize bm (i + 1) cap (found + 1)
          (if found <? cap then out ++ [i * psize] else out)
      else dirty_offsets_loop n' psize bm (i + 1) cap found out
  end.

Definition js_arena_thermometer_dirty_offsets (g : guard) (cap : Z) : Z * list Z :=
  match therm_current g with
  | None => (0, [])
  | Some s => dirty_offsets_loop (Z.to_nat (base_pages s)) (therm_page_size g) (dirty_bitmap s) 0 cap 0 []
  end.

(** [live[i] != base[i]]. *)
Definition differs (m : mem) (s : therm_state) (i : Z) : bool :=
  negb (load8 m (t_lo s + i) =? nthZ 0 (baseline s) i).

Fixpoint count_diff (n : nat) (m : mem) (s : therm_state) (i acc : Z) : Z :=
  match n with
  | O => acc
  | S n' => count_diff n' m s (i + 1) (if differs m s i then acc + 1 else acc)
  end.

Definition changed_in_page (psize : Z) (m : mem) (s : therm_state) (page_offset : Z) : Z :=
  let base_size := t_hi s - t_lo s in
  if base_size <=? page_offset then 0
  else
    let e := page_offset + psize in
    let e := if base_size <? e then base_size else e in
    count_diff (Z.to_nat (e - page_offset)) m s page_offset 0.

Definition js_arena_thermometer_changed_in_page (g : guard) (m : mem) (page_offset : Z) : Z :=
  match therm_current g with
  | None => 0
  | Some s => changed_in_page (therm_page_size g) m s page_offset
  end.

Fixpoint changed_bytes_loop (n : nat) (g : guard) (m : mem) (bm : list Z) (i total : Z) : Z :=
  match n with
  | O => total
  | S n' =>
      changed_bytes_loop n' g m bm (i + 1)
        (if bit_set bm i then total + js_arena_thermometer_changed_in_page g m (i * therm_page_size g)
         else total)
  end.

Definition js_arena_thermometer_changed_bytes (g : guard) (m : mem) : Z :=
  match therm_current g with
  | None => 0
  | Some s => changed_bytes_loop (Z.to_nat (base_pages s)) g m (dirty_bitmap s) 0 0
  end.

(** [None] is NULL, otherwise the baseline byte pointed to. *)
Definition js_arena_thermometer_baseline_at (g : guard) (offset : Z) : option Z :=
  match therm_current g with
  | None => None
  | Some s => if t_hi s - t_lo s <=? offset then None else Some (nthZ 0 (baseline s) offset)
  end.

Fixpoint changed_offsets_loop (n : nat) (m : mem) (s : therm_state) (i cap found : Z) (out : list Z) : Z * list Z :=
  match n with
  | O => (found, out)
  | S n' =>
      if differs m s i then
        changed_offsets_loop n' m s (i + 1) cap (found + 1) (if found <? cap then out ++ [i] else out)
      else changed_offsets_loop n' m s (i + 1) cap found out
  end.

Definition js_arena_thermometer_changed_byte_offsets (g : guard) (m : mem) (page_offset cap : Z) : Z * list Z :=
  match therm_current g with
  | None => (0, [])
  | Some s =>
      let base_size := t_hi s - t_lo s in
      if base_size <=? page_offset then (0, [])
      else
        let e := page_offset + therm_page_size g in
        let e := if base_size <? e then base_size else e in
        changed_offsets_loop (Z.to_nat (e - page_offset)) m s page_offset cap 0 []
  end.

(** ** Hardening; [frozen] is [da->mode == JS_ARENA_MODE_REQUEST] *)

Definition js_dual_arena_harden (os : os_answers) (g : guard) (frozen : bool) (base_buf base_cap : Z) : Z * guard :=
  if negb frozen then (-1, g)
  else match therm_find_by_lo g base_buf with
  | Some _ => (-1, g)
  | None =>
    if 0 <=? hard_find g base_buf then (0, g)
    else if HARD_MAX <=? lenZ (hard_ranges g) then (-1, g)
    else
      let '(rc, g) :=
        if hard_handler_installed g then (0, g)
        else if negb (sigaction_ok os) then (-1, g)
        else (0, set_hard g (hard_ranges g) true (segv_action g) HardHandler (read_only g)) in
      if rc <? 0 then (-1, g)
      else if negb (mprotect_ok os) then
        (-1, if lenZ (hard_ranges g) =? 0
             then set_hard g (hard_ranges g) false (hard_prev_sa g) (hard_prev_sa g) (read_only g)
             else g)
      else
        (0, set_hard g (hard_ranges g ++ [(base_buf, base_buf + base_cap)]) (hard_handler_installed g)
              (hard_prev_sa g) (segv_action g)
              (read_only g ∪ pages_of (page_size_answer os) base_buf (base_buf + base_cap)))
  end.

Definition js_dual_arena_unharden (os : os_answers) (g : guard) (base_buf base_cap : Z) : Z * guard :=
  let idx := hard_find g base_buf in
  if idx <? 0 then (-1, g)
  else
    let ro := read_only g ∖ pages_of (page_size_answer os) base_buf (base_buf + base_cap) in
    let rs := compact idx (hard_ranges g) in
    if (lenZ rs =? 0) && hard_handler_installed g
    then (0, set_hard g rs false (hard_prev_sa g) (hard_prev_sa g) ro)
    else (0, set_hard g rs (hard_handler_installed g) (hard_prev_sa g) (segv_action g) ro).

Definition js_dual_arena_is_hardened (g : guard) (base_buf : Z) : bool := 0 <=? hard_find g base_buf.

(** ** Bitmaps *)

Lemma bit_index i : 0 <= i -> Z.shiftr i 3 = i / 8 /\ Z.land i 7 = i mod 8.
Proof.
  intros. rewrite Z.shiftr_div_pow2 by lia. split; [done |].
  change 7 with (2 ^ 3 - 1). by rewrite land_mask.
Qed.

Lemma land_single b k : 0 <= k -> (Z.land b (Z.shiftl 1 k) =? 0) = negb (Z.testbit b k).
Proof.
  intros Hk. rewrite Z.shiftl_1_l. destruct (Z.testbit b k) eqn:E; simpl.
  - apply Z.eqb_neq. intros Hz. assert (Z.testbit (Z.land b (2 ^ k)) k = false) by (rewrite Hz; apply Z.testbit_0_l).
    rewrite Z.land_spec, E, Z.pow2_bits_true in H by lia. done.
  - apply Z.eqb_eq, Z.bits_inj'. intros i Hi. rewrite Z.land_spec, Z.testbit_0_l.
    destruct (Z.eq_dec i k) as [-> | Hne]; [by rewrite E |].
    rewrite Z.pow2_bits_false by lia. apply andb_false_r.
Qed.

(** Setting the bit of page [p]. *)
Lemma bit_set_update bm p i :
  0 <= p < 8 * lenZ bm -> 0 <= i ->
  bit_set (setZ (Z.shiftr p 3) (Z.lor (nthZ 0 bm (Z.shiftr p 3)) (Z.shiftl 1 (Z.land p 7))) bm) i
  = bit_set bm i || (i =? p).
Proof.
  intros Hp Hi. unfold bit_set. destruct (bit_index p ltac:(lia)) as [-> ->].
  destruct (bit_index i Hi) as [-> ->].
  pose proof (Z.div_mod p 8 ltac:(lia)). pose proof (Z.mod_pos_bound p 8 ltac:(lia)).
  pose proof (Z.div_mod i 8 ltac:(lia)). pose proof (Z.mod_pos_bound i 8 ltac:(lia)).
  rewrite nthZ_setZ by lia. destruct (Z.eqb_spec (p / 8) (i / 8)) as [E | E].
  - rewrite E, Z.lor_spec, Z.shiftl_1_l. f_equal.
    destruct (Z.eqb_spec i p) as [-> | Hne]; [by apply Z.pow2_bits_true; lia |].
    apply Z.pow2_bits_false; lia.
  - destruct (Z.eqb_spec i p) as [-> | Hne]; [done | by rewrite orb_false_r].
Qed.

Lemma bit_set_replicate n i : 0 <= i -> bit_set (replicate n 0) i = false.
Proof.
  intros Hi. unfold bit_set, nthZ. destruct (replicate n 0 !! _) as [x |] eqn:E; simpl.
  - apply lookup_replicate in E as [-> _]. apply Z.testbit_0_l.
  - apply Z.testbit_0_l.
Qed.

(** ** Invariant *)

(** The dirty pages of an entry, in order. *)
Definition dirty_list (s : therm_state) : list Z :=
  List.filter (bit_set (dirty_bitmap s)) (seqZ 0 (base_pages s)).

Record state_ok (P : Z) (ro : gset Z) (m : mem) (s : therm_state) : Prop := {
  so_range : 0 < t_lo s < t_hi s;
  so_lo : (P | t_lo s);
  so_pages : t_hi s - t_lo s = base_pages s * P;
  so_bitmap : base_pages s <= 8 * lenZ (dirty_bitmap s);
  so_bits : forall i, 0 <= i < base_pages s ->
    bit_set (dirty_bitmap s) i = negb (bool_decide (t_lo s / P + i ∈ ro));
  so_clean : forall x, 0 <= x < t_hi s - t_lo s -> bit_set (dirty_bitmap s) (x / P) = false ->
    load8 m (t_lo s + x) = nthZ 0 (baseline s) x;
  so_count : pages_dirty s = lenZ (dirty_list s);
  so_small : base_pages s < 2 ^ 64
}.

Definition ranges_apart (s t : therm_state) : Prop := t_hi s <= t_lo t \/ t_hi t <= t_lo s.

Record guard_ok (g : guard) (m : mem) : Prop := {
  go_page : 0 < therm_page_size g;
  go_states : Forall (state_ok (therm_page_size g) (read_only g) m) (therm_states g);
  go_apart : ForallOrdPairs ranges_apart (therm_states g);
  go_handler : (therm_states g = [] /\ therm_handler_installed g = false) \/
    (therm_handler_installed g = true /\ segv_action g = ThermHandler);
  go_ro : forall pg, pg ∈ read_only g -> exists s, s ∈ therm_states g /\
    t_lo s / therm_page_size g <= pg < t_hi s / therm_page_size g
}.

Lemma elem_pages_of P lo hi pg :
  0 < P -> (P | lo) -> (P | hi - lo) -> lo <= hi ->
  pg ∈ pages_of P lo hi <-> lo / P <= pg < hi / P.
Proof.
  intros HP [a Ha] [b Hb] Hle. unfold pages_of. rewrite elem_of_list_to_set, elem_of_seqZ.
  assert (hi = (a + b) * P) as -> by lia. subst lo.
  replace ((a + b) * P - a * P + P - 1) with (b * P + (P - 1)) by lia.
  rewrite !Z.div_mul, Z.div_add_l, (Z.div_small (P - 1)) by lia. lia.
Qed.

(** The page of an address of the range. *)
Lemma page_of_addr P s ro m addr :
  0 < P -> state_ok P ro m s -> t_lo s <= addr < t_hi s ->
  let i := (addr - t_lo s) / P in
  0 <= i < base_pages s /\ addr / P = t_lo s / P + i /\
  t_lo s / P <= addr / P < t_hi s / P.
Proof.
  intros HP [Hr [a Ha] Hp _ _ _ _ _] Had i.
  assert (Hi : 0 <= i < base_pages s).
  { subst i. split; [apply Z.div_pos; lia | apply Z.div_lt_upper_bound; lia]. }
  assert (E : addr / P = t_lo s / P + i).
  { subst i. rewrite Ha, Z.div_mul by lia. rewrite <- Z.div_add_l by lia. f_equal. lia. }
  split; [done |]. split; [done |]. rewrite E.
  replace (t_hi s) with (t_lo s + base_pages s * P) by lia. rewrite Z.div_add by lia. lia.
Qed.

(** [therm_find] returns the first match. *)
Lemma therm_find_spec f ts i :
  match therm_find f ts i with
  | Some j => exists s, i <= j /\ ts !! Z.to_nat (j - i) = Some s /\ f s = true
  | None => forall s, s ∈ ts -> f s = false
  end.
Proof.
  revert i. induction ts as [| s ts IH]; intros i; simpl.
  - intros s Hs. by apply elem_of_nil in Hs.
  - destruct (f s) eqn:E.
    + exists s. split; [lia |]. by replace (Z.to_nat (i - i)) with 0%nat by lia.
    + specialize (IH (i + 1)). destruct (therm_find f ts (i + 1)) as [j |].
      * destruct IH as (s' & Hj & Hl & Hf). exists s'. split; [lia |]. split; [| done].
        by replace (Z.to_nat (j - i)) with (S (Z.to_nat (j - (i + 1)))) by lia.
      * intros s' Hs. apply elem_of_cons in Hs as [-> | Hs]; [done | by apply IH].
Qed.

Lemma states_apart ts i j s t :
  ForallOrdPairs ranges_apart ts -> ts !! i = Some s -> ts !! j = Some t -> i <> j -> ranges_apart s t.
Proof.
  intros H. revert i j. induction H as [| x l Hx _ IH]; intros i j Hi Hj Hne; [done |].
  destruct i as [| i], j as [| j]; simpl in *; simplify_eq.
  - exact (proj1 (Forall_forall _ _) Hx t (list_elem_of_lookup_2 _ _ _ Hj)).
  - destruct (proj1 (Forall_forall _ _) Hx s (list_elem_of_lookup_2 _ _ _ Hi)); [by right | by left].
  - apply (IH i j); congruence.
Qed.

(** Replacing an entry by one with the same range keeps the ranges apart. *)
Lemma ForallOrdPairs_setZ ts k s s' :
  0 <= k -> ts !! Z.to_nat k = Some s -> t_lo s' = t_lo s -> t_hi s' = t_hi s ->
  ForallOrdPairs ranges_apart ts -> ForallOrdPairs ranges_apart (setZ k s' ts).
Proof.
  unfold setZ. intros _ Hs Hlo Hhi Hap. remember (Z.to_nat k) as n eqn:En. clear k En.
  revert n Hs. induction Hap as [| x l Hx Hap IH]; intros n Hs; [done |].
  destruct n as [| n]; simpl in *.
  - simplify_eq. constructor; [| done]. eapply Forall_impl; [exact Hx |].
    intros y Hy. unfold ranges_apart in *. by rewrite Hlo, Hhi.
  - constructor; [| by apply IH]. apply Forall_insert; [done |].
    pose proof (proj1 (Forall_lookup _ _) Hx n s Hs) as H. unfold ranges_apart in *.
    by rewrite Hlo, Hhi.
Qed.

(** ** One store *)

(** The dirty bits after a store, for every entry. *)
Definition store_effect (P addr : Z) (s s' : therm_state) : Prop :=
  t_lo s' = t_lo s /\ t_hi s' = t_hi s /\ base_pages s' = base_pages s /\ baseline s' = baseline s /\
  forall i, 0 <= i < base_pages s ->
    bit_set (dirty_bitmap s') i =
    bit_set (dirty_bitmap s) i || ((t_lo s <=? addr) && (addr <? t_hi s) && (i =? (addr - t_lo s) / P)).

Lemma filter_add_length (f : Z -> bool) (p : Z) (l : list Z) :
  NoDup l -> p ∈ l -> f p = false ->
  lenZ (List.filter (fun i => f i || (i =? p)) l) = lenZ (List.filter f l) + 1.
Proof.
  unfold lenZ. intros Hnd. induction Hnd as [| x l Hx Hnd IH]; intros Hin Hf.
  { by apply elem_of_nil in Hin. }
  apply elem_of_cons in Hin as [-> | Hin]; simpl.
  - rewrite Hf, Z.eqb_refl. simpl.
    rewrite (List.filter_ext_in (fun i => f i || (i =? x)) f); [lia |].
    intros a Ha. destruct (Z.eqb_spec a x) as [-> | _]; [| apply orb_false_r].
    exfalso. apply Hx. by apply list_elem_of_In.
  - specialize (IH Hin Hf). destruct (Z.eqb_spec x p) as [-> | _]; [done |].
    rewrite orb_false_r. destruct (f x); simpl; lia.
Qed.

Lemma pages_of_single P a : 0 < P -> (P | a) -> pages_of P a (a + P) = {[ a / P ]}.
Proof.
  intros HP [k ->]. apply set_eq. intros x.
  rewrite elem_pages_of, elem_of_singleton.
  - replace (k * P + P) with ((k + 1) * P) by lia. rewrite !Z.div_mul by lia. lia.
  - done.
  - by exists k.
  - exists 1. lia.
  - lia.
Qed.

(** The entry after a fault on its page [pg]. *)
Definition touched (s : therm_state) (pg : Z) : therm_state :=
  let byte := nthZ 0 (dirty_bitmap s) (Z.shiftr pg 3) in
  let bit := Z.shiftl 1 (Z.land pg 7) in
  {| t_lo := t_lo s; t_hi := t_hi s; base_pages := base_pages s;
     dirty_bitmap := if Z.land byte bit =? 0 then setZ (Z.shiftr pg 3) (Z.lor byte bit) (dirty_bitmap s)
                     else dirty_bitmap s;
     baseline := baseline s; writes := u64 (writes s + 1);
     pages_dirty := if Z.land byte bit =? 0 then u64 (pages_dirty s + 1) else pages_dirty s |}.

Lemma page_fresh s pg :
  0 <= pg ->
  (Z.land (nthZ 0 (dirty_bitmap s) (Z.shiftr pg 3)) (Z.shiftl 1 (Z.land pg 7)) =? 0) =
  negb (bit_set (dirty_bitmap s) pg).
Proof.
  intros Hpg. destruct (bit_index pg Hpg) as [_ E7]. unfold bit_set.
  apply land_single. rewrite E7. apply Z.mod_pos_bound. lia.
Qed.

Lemma touched_bits s pg i :
  0 <= pg < 8 * lenZ (dirty_bitmap s) -> 0 <= i ->
  bit_set (dirty_bitmap (touched s pg)) i = bit_set (dirty_bitmap s) i || (i =? pg).
Proof.
  intros Hpg Hi. simpl. rewrite page_fresh by lia. destruct (bit_set (dirty_bitmap s) pg) eqn:Eb; simpl.
  - destruct (Z.eqb_spec i pg) as [-> | _]; [by rewrite Eb | by rewrite orb_false_r].
  - by apply bit_set_update.
Qed.

Lemma dirty_list_le s : 0 <= base_pages s -> 0 <= lenZ (dirty_list s) <= base_pages s.
Proof.
  intros Hb. unfold dirty_list, lenZ.
  pose proof (List.filter_length_le (bit_set (dirty_bitmap s)) (seqZ 0 (base_pages s))) as Hl.
  rewrite length_seqZ in Hl. lia.
Qed.

Lemma touched_dirty_list s pg :
  0 <= pg < base_pages s -> base_pages s <= 8 * lenZ (dirty_bitmap s) ->
  lenZ (dirty_list (touched s pg)) = lenZ (dirty_list s) + if bit_set (dirty_bitmap s) pg then 0 else 1.
Proof.
  intros Hpg Hbm. unfold dirty_list at 1. change (base_pages (touched s pg)) with (base_pages s).
  rewrite (List.filter_ext_in _ (fun i => bit_set (dirty_bitmap s) i || (i =? pg))).
  2:{ intros i Hin. apply list_elem_of_In, elem_of_seqZ in Hin. apply touched_bits; lia. }
  destruct (bit_set (dirty_bitmap s) pg) eqn:Eb.
  - rewrite Z.add_0_r. unfold dirty_list. f_equal. apply List.filter_ext. intros i.
    destruct (Z.eqb_spec i pg) as [-> | _]; [by rewrite Eb | by rewrite orb_false_r].
  - apply filter_add_length; [apply NoDup_seqZ | apply elem_of_seqZ; lia | done].
Qed.

(** The entry still agrees with the protection once its page is writable. *)
Lemma touched_ok P ro m s pg :
  state_ok P ro m s -> 0 < P -> 0 <= pg < base_pages s ->
  state_ok P (ro ∖ {[ t_lo s / P + pg ]}) m (touched s pg).
Proof.
  intros [S1 S2 S3 S4 S5 S6 S7 S8] HP Hpg. split; try done.
  - simpl. case_if; rewrite ?lenZ_setZ; done.
  - simpl base_pages. simpl t_lo. intros i Hi. rewrite touched_bits by lia. rewrite S5 by done.
    destruct (Z.eqb_spec i pg) as [-> | Hne].
    + rewrite orb_true_r, bool_decide_false by set_solver. done.
    + rewrite orb_false_r. f_equal. apply bool_decide_ext.
      assert (t_lo s / P + i <> t_lo s / P + pg) by lia. set_solver.
  - intros x Hx Hc. rewrite touched_bits in Hc by (lia || apply Z.div_pos; simpl in Hx; lia). b2p. by apply S6.
  - pose proof (touched_dirty_list s pg Hpg S4) as Hl.
    pose proof (dirty_list_le (touched s pg) ltac:(simpl; lia)) as Hle. simpl base_pages in Hle.
    rewrite Hl. simpl pages_dirty. rewrite page_fresh by lia. pose proof (dirty_list_le s ltac:(lia)).
    destruct (bit_set (dirty_bitmap s) pg); simpl; [lia |]. rewrite S7, u64_small by lia. done.
Qed.

Section one_store.
Context (g : guard) (m : mem) (addr : Z).
Hypothesis Hok : guard_ok g m.
Abbreviation P := (therm_page_size g).

Lemma state_at i s : therm_states g !! i = Some s -> state_ok P (read_only g) m s.
Proof. intros H. by eapply Forall_lookup_1; [apply Hok |]. Qed.

(** A store to a writable page leaves every entry as it is. *)
Lemma plain_store_ok b :
  addr / P ∉ read_only g ->
  guard_ok g (<[addr := b]> m) /\
  forall j s, therm_states g !! j = Some s -> store_effect P addr s s.
Proof.
  intros Hw. pose proof (go_page _ _ Hok) as HP.
  assert (Hbit : forall j s, therm_states g !! j = Some s -> t_lo s <= addr < t_hi s ->
    bit_set (dirty_bitmap s) ((addr - t_lo s) / P) = true).
  { intros j s Hj Ha. pose proof (state_at j s Hj) as Hs.
    destruct (page_of_addr P s _ _ addr HP Hs Ha) as (Hi & E & _).
    rewrite (so_bits _ _ _ _ Hs) by done. rewrite <- E. by rewrite bool_decide_false. }
  split.
  - destruct Hok as [H1 H2 H3 H4 H5]. split; try done. apply Forall_lookup_2. intros j s Hj.
    pose proof (state_at j s Hj) as Hs. pose proof (Hbit j s Hj) as Hb.
    destruct Hs as [S1 S2 S3 S4 S5 S6 S7 S8]. split; try done.
    intros x Hx Hc. rewrite load8_insert. destruct (Z.eqb_spec addr (t_lo s + x)) as [E | _].
    + specialize (Hb ltac:(lia)). replace (addr - t_lo s) with x in Hb by lia. congruence.
    + by apply S6.
  - intros j s Hj. split; [done |]. split; [done |]. split; [done |]. split; [done |].
    intros i Hi. destruct ((t_lo s <=? addr) && (addr <? t_hi s)) eqn:Hr; simpl; [| by rewrite orb_false_r].
    b2p. specialize (Hbit j s Hj ltac:(lia)).
    destruct (Z.eqb_spec i ((addr - t_lo s) / P)) as [-> | _]; [by rewrite Hbit | by rewrite orb_false_r].
Qed.

(** What the handler's bookkeeping for a fault in entry [k] writes. *)
Lemma therm_record_eq k s :
  therm_states g !! Z.to_nat k = Some s -> t_lo s <= addr < t_hi s ->
  therm_states (therm_record g k addr) = setZ k (touched s ((addr - t_lo s) / P)) (therm_states g) /\
  read_only (therm_record g k addr) = read_only g ∖ {[ addr / P ]}.
Proof.
  intros Hs Ha. pose proof (go_page _ _ Hok) as HP. pose proof (state_at _ _ Hs) as Hsok.
  destruct (page_of_addr P s _ _ addr HP Hsok Ha) as (_ & Epg & _).
  assert (Hat : therm_at g k = s) by (unfold therm_at, nthZ; by rewrite Hs).
  unfold therm_record. rewrite Hat. split; [done |]. simpl. rewrite pages_of_single.
  - by rewrite Z.div_add, Epg by lia.
  - done.
  - apply Z.divide_add_r; [apply Hsok | apply Z.divide_factor_r].
Qed.

(** An entry the address is not in does not care whether its page is writable. *)
Lemma other_entry_ok t j :
  therm_states g !! j = Some t -> ~ t_lo t <= addr < t_hi t ->
  state_ok P (read_only g ∖ {[ addr / P ]}) m t.
Proof.
  intros Hj Hout. pose proof (go_page _ _ Hok) as HP.
  pose proof (state_at _ _ Hj) as [S1 S2 S3 S4 S5 S6 S7 S8]. split; try done.
  intros i Hi. rewrite S5 by done. f_equal. apply bool_decide_ext.
  assert (Hnp : t_lo t / P + i <> addr / P); [| set_solver].
  intros E. apply Hout. destruct S2 as [a Ea]. rewrite Ea, Z.div_mul in E by lia.
  pose proof (Z.div_mod addr P ltac:(lia)) as Hdm. pose proof (Z.mod_pos_bound addr P HP) as Hmb.
  rewrite <- E in Hdm. rewrite Ea in *. nia.
Qed.

Lemma record_lookup k s' j t :
  0 <= k < lenZ (therm_states g) -> setZ k s' (therm_states g) !! j = Some t ->
  (j = Z.to_nat k /\ t = s') \/ (j <> Z.to_nat k /\ therm_states g !! j = Some t).
Proof.
  unfold setZ, lenZ. intros Hk Hj. destruct (decide (j = Z.to_nat k)) as [-> | Hne].
  - rewrite list_lookup_insert_eq in Hj by lia. left. split; congruence.
  - rewrite list_lookup_insert_ne in Hj by done. by right.
Qed.

Lemma record_entry k s s' j t :
  therm_states g !! Z.to_nat k = Some s -> therm_states g !! j = Some t ->
  (j = Z.to_nat k /\ t = s /\ setZ k s' (therm_states g) !! j = Some s') \/
  (j <> Z.to_nat k /\ setZ k s' (therm_states g) !! j = Some t).
Proof.
  unfold setZ. intros Hs Hj. destruct (decide (j = Z.to_nat k)) as [-> | Hne].
  - left. rewrite list_lookup_insert_eq by (by eapply lookup_lt_Some). split; [done |]. split; [congruence | done].
  - right. by rewrite list_lookup_insert_ne.
Qed.

(** The handler's bookkeeping for a fault in entry [k]. *)
Lemma therm_record_ok k s :
  0 <= k -> therm_states g !! Z.to_nat k = Some s -> t_lo s <= addr < t_hi s ->
  let g' := therm_record g k addr in
  guard_ok g' m /\ ~ (addr / P ∈ read_only g') /\ therm_page_size g' = P /\
  length (therm_states g') = length (therm_states g) /\
  forall j t, therm_states g !! j = Some t ->
    exists t', therm_states g' !! j = Some t' /\ store_effect P addr t t'.
Proof.
  intros Hk Hs Ha g'. pose proof (go_page _ _ Hok) as HP. pose proof (state_at _ _ Hs) as Hsok.
  destruct (page_of_addr P s _ _ addr HP Hsok Ha) as (Hi & Epg & _).
  destruct (therm_record_eq k s Hs Ha) as [Hts Hro]. fold g' in Hts, Hro.
  set (pg := (addr - t_lo s) / P) in *.
  assert (Hkl : 0 <= k < lenZ (therm_states g)) by (apply lookup_lt_Some in Hs; unfold lenZ; lia).
  assert (Hout : forall j t, therm_states g !! j = Some t -> j <> Z.to_nat k -> ~ t_lo t <= addr < t_hi t).
  { intros j t Hj Hne. destruct (states_apart _ _ _ _ _ (go_apart _ _ Hok) Hj Hs Hne); lia. }
  split; [split | split; [| split; [| split]]].
  - done.
  - apply Forall_lookup_2. intros j t Hj. change (therm_page_size g') with P. rewrite Hts in Hj. rewrite Hro.
    destruct (record_lookup _ _ _ _ Hkl Hj) as [[-> ->] | [Hne Hj0]].
    + rewrite Epg. by apply touched_ok.
    + apply (other_entry_ok t j); eauto.
  - rewrite Hts. apply ForallOrdPairs_setZ with s; try done. apply Hok.
  - destruct (go_handler _ _ Hok) as [[E _] | H4]; [rewrite E in Hs; done |]. right. exact H4.
  - intros q Hq. rewrite Hro in Hq. apply elem_of_difference in Hq as [Hq _]. rewrite Hts.
    destruct (go_ro _ _ Hok q Hq) as (t & Ht & Hr). apply list_elem_of_lookup in Ht as [j Hj].
    destruct (record_entry k s (touched s pg) j t Hs Hj) as [(-> & -> & E) | [Hne E]];
      eexists; (split; [by eapply list_elem_of_lookup_2 | done]).
  - rewrite Hro. set_solver.
  - done.
  - rewrite Hts. unfold setZ. apply length_insert.
  - intros j t Hj. rewrite Hts.
    destruct (record_entry k s (touched s pg) j t Hs Hj) as [(-> & -> & E) | [Hne E]];
      (eexists; split; [exact E |]; do 4 (split; [done |])); intros i Hi'.
    + pose proof (so_bitmap _ _ _ _ Hsok). rewrite touched_bits by lia. fold pg.
      replace ((t_lo s <=? addr) && (addr <? t_hi s)) with true by bool_lia. done.
    + specialize (Hout j t Hj Hne).
      replace ((t_lo t <=? addr) && (addr <? t_hi t)) with false by bool_lia. simpl. by rewrite orb_false_r.
Qed.
End one_store.

(** Every store completes after at most one fault, with its plain effect. *)
Lemma user_store_ok g m addr b :
  guard_ok g m ->
  exists g', user_store 1 (therm_page_size g) g m addr b = Stored g' (<[addr := b]> m) /\
    guard_ok g' (<[addr := b]> m) /\ therm_page_size g' = therm_page_size g /\
    length (therm_states g') = length (therm_states g) /\
    forall j s, therm_states g !! j = Some s ->
      exists s', therm_states g' !! j = Some s' /\ store_effect (therm_page_size g) addr s s'.
Proof.
  intros Hok. pose proof (go_page _ _ Hok) as HP. simpl.
  destruct (bool_decide_reflect (addr / therm_page_size g ∈ read_only g)) as [Hro | Hro].
  2:{ destruct (plain_store_ok g m addr Hok b Hro) as [H1 H2]. exists g. split; [done |].
      split; [done |]. split; [done |]. split; [done |]. eauto. }
  destruct (go_ro _ _ Hok _ Hro) as (s & Hs & Hpg).
  destruct (go_handler _ _ Hok) as [[E _] | [_ Hact]]; [rewrite E in Hs; by apply elem_of_nil in Hs |].
  rewrite Hact. simpl.
  assert (Hin : t_lo s <= addr < t_hi s).
  { pose proof (proj1 (Forall_forall _ _) (go_states _ _ Hok) s Hs) as [S1 [a Ha] S3 _ _ _ _ _].
    replace (t_hi s) with ((a + base_pages s) * therm_page_size g) in * by lia.
    rewrite Ha, !Z.div_mul in Hpg by lia. rewrite Ha.
    pose proof (Z.div_mod addr (therm_page_size g) ltac:(lia)).
    pose proof (Z.mod_pos_bound addr (therm_page_size g) HP). nia. }
  unfold therm_find_for.
  pose proof (therm_find_spec (fun s => (t_lo s <=? addr) && (addr <? t_hi s)) (therm_states g) 0) as Hf.
  destruct (therm_find _ (therm_states g) 0) as [k |].
  2:{ specialize (Hf s Hs). simpl in Hf. bool_lia. }
  destruct Hf as (s' & Hk & Hl & Hr). rewrite Z.sub_0_r in Hl. b2p.
  destruct (therm_record_ok g m addr Hok k s' Hk Hl ltac:(lia)) as (H1 & H2 & H3 & H4 & H5).
  set (g1 := therm_record g k addr) in *.
  rewrite bool_decide_false by done. exists g1. split; [done |].
  rewrite <- H3 in H2. destruct (plain_store_ok g1 m addr H1 b H2) as [H6 _].
  split; [done |]. split; [done |]. split; [done |]. exact H5.
Qed.

(** ** Runs of stores *)

Fixpoint run_stores (psize : Z) (g : guard) (m : mem) (l : list (Z * Z)) : stored :=
  match l with
  | [] => Stored g m
  | (a, b) :: l' =>
      match user_store 1 psize g m a b with
      | Stored g m => run_stores psize g m l'
      | r => r
      end
  end.

Definition plain_stores (m : mem) (l : list (Z * Z)) : mem := foldl (fun m ab => <[ab.1 := ab.2]> m) m l.

(** The page [i] of the range starting at [lo] was stored to. *)
Definition page_hit (P lo hi : Z) (l : list (Z * Z)) (i : Z) : bool :=
  existsb (fun ab => (lo <=? ab.1) && (ab.1 <? hi) && (i =? (ab.1 - lo) / P)) l.

Lemma run_stores_ok l g m :
  guard_ok g m ->
  exists g', run_stores (therm_page_size g) g m l = Stored g' (plain_stores m l) /\
    guard_ok g' (plain_stores m l) /\ therm_page_size g' = therm_page_size g /\
    length (therm_states g') = length (therm_states g) /\
    forall j s, therm_states g !! j = Some s ->
      exists s', therm_states g' !! j = Some s' /\
        t_lo s' = t_lo s /\ t_hi s' = t_hi s /\ base_pages s' = base_pages s /\ baseline s' = baseline s /\
        forall i, 0 <= i < base_pages s ->
          bit_set (dirty_bitmap s') i =
          bit_set (dirty_bitmap s) i || page_hit (therm_page_size g) (t_lo s) (t_hi s) l i.
Proof.
  revert g m. induction l as [| [a b] l IH]; intros g m Hok.
  - exists g. split; [done |]. split; [done |]. split; [done |]. split; [done |].
    intros j s Hj. exists s. split; [done |]. repeat (split; [done |]). intros i _. by rewrite orb_false_r.
  - destruct (user_store_ok g m a b Hok) as (g1 & E1 & H1 & HP1 & HL1 & HS1).
    destruct (IH g1 (<[a := b]> m) H1) as (g2 & E2 & H2 & HP2 & HL2 & HS2).
    cbn [run_stores]. rewrite E1, <- HP1, E2. exists g2. split; [done |]. split; [done |].
    split; [done |]. split; [congruence |].
    intros j s Hj. destruct (HS1 j s Hj) as (s1 & Hj1 & (T1 & T2 & T3 & T4 & T5)).
    destruct (HS2 j s1 Hj1) as (s2 & Hj2 & U1 & U2 & U3 & U4 & U5).
    exists s2. rewrite U1, U2, U3, U4, T1, T2, T3, T4. split; [done |]. repeat (split; [done |]).
    intros i Hi. rewrite U5 by (rewrite T3; lia). rewrite T5 by done. rewrite T1, T2, HP1. simpl.
    by rewrite orb_assoc.
Qed.

(** ** Enabling *)

Lemma pow2_aligned lo k : 0 <= k -> Z.land lo (2 ^ k - 1) = 0 -> (2 ^ k | lo).
Proof.
  intros Hk. rewrite land_mask by done. intros E. apply Z.mod_divide; [| done].
  pose proof (Z.pow_pos_nonneg 2 k ltac:(lia) Hk). lia.
Qed.

(** A page is power-of-two sized, and the range is a whole number of pages. *)
Definition page_ok (os : os_answers) (g : guard) : Prop :=
  exists k, 0 <= k /\ page_size_answer os = 2 ^ k /\
    (therm_page_size g = 2 ^ k \/ (therm_page_size g = 0 /\ therm_states g = [])).

Definition fresh_range (P : Z) (g : guard) (lo hi : Z) : Prop :=
  0 <= lo /\ (P | hi - lo) /\ hi - lo < 2 ^ 63 /\ Forall (fun s => t_hi s <= lo \/ hi <= t_lo s) (therm_states g).

(** Everything an enabled entry starts with. *)
Definition just_enabled (m : mem) (lo hi P : Z) (s : therm_state) : Prop :=
  t_lo s = lo /\ t_hi s = hi /\ base_pages s = (hi - lo) / P /\
  baseline s = load_bytes m lo (Z.to_nat (hi - lo)) /\
  (forall i, 0 <= i -> bit_set (dirty_bitmap s) i = false) /\ writes s = 0 /\ pages_dirty s = 0.

(** An idle guard has no read-only page and no handler. *)
Definition guard_idle (g : guard) : Prop :=
  therm_states g = [] /\ therm_handler_installed g = false /\ read_only g = ∅.

(** The page size after [sysconf] has been consulted. *)
Lemma page_size_known os g :
  page_ok os g -> (therm_page_size g = 0 -> therm_states g = []) ->
  let g1 := if therm_page_size g =? 0 then set_page_size g (page_size_answer os) else g in
  therm_page_size g1 = page_size_answer os /\ therm_states g1 = therm_states g /\
  read_only g1 = read_only g /\ therm_handler_installed g1 = therm_handler_installed g /\
  segv_action g1 = segv_action g /\ therm_prev_sa g1 = therm_prev_sa g.
Proof.
  intros (k & Hk & Ek & Hp) _. pose proof (Z.pow_pos_nonneg 2 k ltac:(lia) Hk).
  destruct (Z.eqb_spec (therm_page_size g) 0) as [E | E]; simpl; [done |].
  destruct Hp as [Hp | [Hp _]]; [| lia]. by rewrite Hp, Ek.
Qed.

(** Pages of the new range were writable, pages of the others are elsewhere. *)
Lemma new_pages_apart P ro m s lo hi pg :
  0 < P -> state_ok P ro m s -> (P | lo) -> (P | hi - lo) -> lo < hi ->
  t_hi s <= lo \/ hi <= t_lo s -> t_lo s / P <= pg < t_hi s / P -> ~ lo / P <= pg < hi / P.
Proof.
  intros HP Hs [a ->] [b Hb] Hlt Hap Hpg. assert (hi = (a + b) * P) as -> by lia.
  destruct Hs as [S1 [c Hc] S3 _ _ _ _ _].
  replace (t_hi s) with ((c + base_pages s) * P) in * by lia. rewrite Hc in *.
  rewrite !Z.div_mul in * by lia. nia.
Qed.

Lemma state_ok_more_ro P ro ro' m s :
  state_ok P ro m s ->
  (forall i, 0 <= i < base_pages s -> (t_lo s / P + i ∈ ro' <-> t_lo s / P + i ∈ ro)) ->
  state_ok P ro' m s.
Proof.
  intros [S1 S2 S3 S4 S5 S6 S7 S8] H. split; try done. intros i Hi. rewrite S5 by done.
  f_equal. apply bool_decide_ext. by rewrite H.
Qed.

Lemma fresh_entry_ok P ro m lo hi :
  0 < P -> (P | lo) -> (P | hi - lo) -> 0 < lo < hi -> hi - lo < 2 ^ 63 ->
  (forall pg, lo / P <= pg < hi / P -> pg ∈ ro) ->
  let pages := (hi - lo) / P in
  let bb := (pages + 7) / 8 in
  let s := {| t_lo := lo; t_hi := hi; base_pages := pages;
              dirty_bitmap := replicate (Z.to_nat (if bb =? 0 then 1 else bb)) 0;
              baseline := load_bytes m lo (Z.to_nat (hi - lo)); writes := 0; pages_dirty := 0 |} in
  state_ok P ro m s /\ just_enabled m lo hi P s.
Proof.
  intros HP Hlo Hhi Hr Hsz Hro pages bb s.
  assert (Hpg : hi - lo = pages * P).
  { subst pages. destruct Hhi as [z Hz]. rewrite Hz, Z.div_mul by lia. lia. }
  assert (Hbits : forall i, 0 <= i -> bit_set (dirty_bitmap s) i = false).
  { intros i Hi. apply bit_set_replicate. done. }
  split; [| by repeat (split; [done |])].
  assert (Hhp : hi / P = lo / P + pages).
  { replace hi with (lo + pages * P) by lia. by rewrite Z.div_add by lia. }
  split; try done.
  - simpl. unfold lenZ. rewrite length_replicate.
    pose proof (Z.div_mod (pages + 7) 8). pose proof (Z.mod_pos_bound (pages + 7) 8).
    subst bb. destruct (Z.eqb_spec ((pages + 7) / 8) 0); lia.
  - intros i Hi. rewrite Hbits by lia. rewrite bool_decide_true; [done |].
    apply Hro. simpl in *. lia.
  - intros x Hx _. simpl in *. by rewrite nthZ_load_bytes by lia.
  - unfold dirty_list. rewrite (List.filter_ext_in _ (fun _ => false)).
    + simpl. clear. induction (seqZ 0 pages); simpl; done.
    + intros i Hin. apply Hbits. apply list_elem_of_In, elem_of_seqZ in Hin. lia.
  - simpl. nia.
Qed.

(** What the invariant says of the entries, the handler and the protected pages
    at the page size the system answers. *)
Lemma guard_parts os g m :
  guard_ok g m \/ guard_idle g -> page_ok os g ->
  Forall (state_ok (page_size_answer os) (read_only g) m) (therm_states g) /\
  ForallOrdPairs ranges_apart (therm_states g) /\
  ((therm_states g = [] /\ therm_handler_installed g = false) \/
   (therm_handler_installed g = true /\ segv_action g = ThermHandler)) /\
  (forall pg, pg ∈ read_only g -> exists s, s ∈ therm_states g /\
    t_lo s / page_size_answer os <= pg < t_hi s / page_size_answer os).
Proof.
  intros Hg (k & Hk & Ek & Hp). pose proof (Z.pow_pos_nonneg 2 k ltac:(lia) Hk).
  destruct Hg as [[H1 H2 H3 H4 H5] | (H1 & H2 & H3)].
  - destruct Hp as [Hp | [Hp _]]; [| lia]. rewrite Ek, <- Hp. done.
  - rewrite H1, H3. split; [done |]. split; [constructor |]. split; [by left |].
    intros pg Hpg. set_solver.
Qed.

Lemma install_handler_ok os g rc g' :
  therm_install_handler os g = (rc, g') -> 0 <= rc ->
  therm_handler_installed g = false \/ segv_action g = ThermHandler ->
  therm_page_size g' = therm_page_size g /\ therm_states g' = therm_states g /\ read_only g' = read_only g /\
  therm_handler_installed g' = true /\ segv_action g' = ThermHandler.
Proof.
  unfold therm_install_handler. intros E Hrc Hh. destruct (therm_handler_installed g) eqn:Ei.
  - injection E as <- <-. destruct Hh as [Hh | Hh]; [done |]. done.
  - destruct (sigaction_ok os); simpl in E; injection E as <- <-; [done | lia].
Qed.

Lemma enable_range_ok os g m lo hi :
  guard_ok g m \/ guard_idle g -> page_ok os g -> fresh_range (page_size_answer os) g lo hi ->
  forall g', js_arena_thermometer_enable_range os g m lo hi = (0, g') -> 
  guard_ok g' m /\ therm_page_size g' = page_size_answer os /\
  exists s, therm_states g' = therm_states g ++ [s] /\ just_enabled m lo hi (page_size_answer os) s.
Proof.
  intros Hg Hpo (Hlo0 & Hmul & Hsz & Hfr) g'. unfold js_arena_thermometer_enable_range.
  destruct (Z.eqb_spec lo 0), (Z.eqb_spec hi 0), (Z.leb_spec hi lo); simpl; try done.
  pose proof (guard_parts os g m Hg Hpo) as Hgo.
  destruct Hgo as (Hst & Hap & Hh & Hro).
  pose proof Hpo as (k & Hk & Ek & Hp). pose proof (Z.pow_pos_nonneg 2 k ltac:(lia) Hk) as Hkp.
  unfold therm_find_by_lo. pose proof (therm_find_spec (fun s => t_lo s =? lo) (therm_states g) 0) as Hf.
  destruct (therm_find _ (therm_states g) 0) as [j |].
  { destruct Hf as (s & _ & Hl & E). simpl in E. b2p. exfalso. apply list_elem_of_lookup_2 in Hl.
    pose proof (proj1 (Forall_forall _ _) Hfr s Hl) as Hd. simpl in Hd.
    pose proof (proj1 (Forall_forall _ _) Hst s Hl) as [S1 _ _ _ _ _ _ _]. lia. }
  clear Hf. destruct (0 <=? hard_find g lo); [done |]. case_if; [done |].
  destruct (page_size_known os g Hpo) as (G1 & G2 & G3 & G4 & G5 & G6).
  { intros E. destruct Hp as [Hp | [_ Hp]]; [lia | done]. }
  set (g1 := if therm_page_size g =? 0 then _ else g) in *. rewrite G1.
  case_if; [done |]. destruct (Z.land lo (page_size_answer os - 1) =? 0) eqn:Hal; simpl; [| done]. b2p.
  rewrite Ek in Hal. apply pow2_aligned in Hal; [| done]. rewrite <- Ek in *.
  destruct (calloc_ok os), (malloc_ok os); simpl; try done.
  set (P := page_size_answer os) in *.
  destruct (therm_install_handler os g1) as [rc g2] eqn:Ein.
  case_if; [done |]. b2p.
  destruct (install_handler_ok os g1 rc g2 Ein ltac:(lia)) as (I1 & I2 & I3 & I4 & I5).
  { rewrite G4, G5. destruct Hh as [[_ Hh] | [_ Hh]]; [left; done | right; done]. }
  rewrite G1 in I1. rewrite G2 in I2. rewrite G3 in I3.
  destruct (mprotect_ok os); simpl; [| done]. intros E. injection E as <-. rewrite I1.
  destruct (fresh_entry_ok P (read_only g2 ∪ pages_of P lo hi) m lo hi) as [Hnew Hje]; try done; try lia.
  { intros pg Hpg. apply elem_of_union_r. apply elem_pages_of; try done; lia. }
  set (s := Build_therm_state _ _ _ _ _ _ _) in *.
  assert (Hcase : forall t, t ∈ therm_states g ->
    state_ok P (read_only g2 ∪ pages_of P lo hi) m t).
  { intros t Ht. pose proof (proj1 (Forall_forall _ _) Hst t Ht) as Hs.
    pose proof (proj1 (Forall_forall _ _) Hfr t Ht) as Hapt. rewrite I3.
    apply (state_ok_more_ro P (read_only g)); [done |]. intros i Hi. rewrite elem_of_union.
    rewrite elem_pages_of by (done || lia).
    assert (Hr : t_lo t / P <= t_lo t / P + i < t_hi t / P).
    { pose proof Hs as [S1 [c Hc] S3 _ _ _ _ _]. replace (t_hi t) with (t_lo t + base_pages t * P) by lia.
      rewrite Z.div_add by lia. lia. }
    pose proof (new_pages_apart P _ m t lo hi _ ltac:(lia) Hs ltac:(done) Hmul ltac:(lia) Hapt Hr). tauto. }
  split; [split; simpl | split].
  - lia.
  - rewrite I2. apply Forall_app. split; [apply Forall_forall; rewrite I1; done | by rewrite I1; apply Forall_singleton].
  - rewrite I2. clear -Hap Hfr. induction Hap as [| x l Hx Hap IH]; simpl; [repeat constructor |].
    apply Forall_cons in Hfr as [Hf Hfr]. constructor; [| by apply IH].
    apply Forall_app. split; [done |]. apply Forall_singleton. unfold ranges_apart. simpl. lia.
  - by right.
  - rewrite I1, I2. intros pg Hpg. apply elem_of_union in Hpg as [Hpg | Hpg].
    + rewrite I3 in Hpg. destruct (Hro pg Hpg) as (t & Ht & Hr). exists t. split; [set_solver | done].
    + exists s. split; [set_solver |]. simpl. apply elem_pages_of in Hpg; try done; lia.
  - simpl. done.
  - exists s. simpl. by rewrite I2.
Qed.

(** ** What the reports say *)

Lemma filter_app_b {A} (f : A -> bool) l1 l2 :
  List.filter f (l1 ++ l2) = List.filter f l1 ++ List.filter f l2.
Proof. induction l1 as [| x l1 IH]; simpl; [done |]. destruct (f x); simpl; congruence. Qed.

Lemma seqZ_step i n : seqZ i (Z.of_nat (S n)) = i :: seqZ (i + 1) (Z.of_nat n).
Proof. rewrite seqZ_cons by lia. do 2 f_equal; lia. Qed.

Lemma dirty_offsets_loop_spec n P bm i cap found out :
  0 <= found ->
  dirty_offsets_loop n P bm i cap found out =
  (found + lenZ (List.filter (bit_set bm) (seqZ i (Z.of_nat n))),
   out ++ take (Z.to_nat (cap - found)) (map (fun i => i * P) (List.filter (bit_set bm) (seqZ i (Z.of_nat n))))).
Proof.
  revert i found out. induction n as [| n IH]; intros i found out Hf.
  - simpl. unfold lenZ. simpl. by rewrite take_nil, app_nil_r, Z.add_0_r.
  - rewrite seqZ_step. simpl. destruct (bit_set bm i); simpl; rewrite IH by lia; [| done].
    f_equal; [unfold lenZ; simpl; lia |].
    destruct (Z.ltb_spec found cap).
    + replace (Z.to_nat (cap - found)) with (S (Z.to_nat (cap - (found + 1)))) by lia.
      simpl. by rewrite <- app_assoc.
    + replace (Z.to_nat (cap - found)) with 0%nat by lia.
      by replace (Z.to_nat (cap - (found + 1))) with 0%nat by lia.
Qed.

Lemma count_diff_spec n m s i acc :
  count_diff n m s i acc = acc + lenZ (List.filter (differs m s) (seqZ i (Z.of_nat n))).
Proof.
  revert i acc. induction n as [| n IH]; intros i acc; [unfold lenZ; simpl; lia |].
  rewrite seqZ_step. simpl. rewrite IH. destruct (differs m s i); unfold lenZ; simpl; lia.
Qed.

Lemma changed_in_page_spec P m s i :
  0 < P -> t_hi s - t_lo s = base_pages s * P -> 0 <= i < base_pages s ->
  changed_in_page P m s (i * P) = lenZ (List.filter (differs m s) (seqZ (i * P) P)).
Proof.
  intros HP Hsz Hi. unfold changed_in_page. rewrite Hsz.
  destruct (Z.leb_spec (base_pages s * P) (i * P)); [nia |].
  destruct (Z.ltb_spec (base_pages s * P) (i * P + P)); [nia |].
  rewrite count_diff_spec. rewrite Z.add_0_l. do 3 f_equal. lia.
Qed.

Lemma filter_none {A} (f : A -> bool) l : (forall x, x ∈ l -> f x = false) -> List.filter f l = [].
Proof.
  induction l as [| x l IH]; intros H; simpl; [done |].
  rewrite H by (by left). apply IH. intros y Hy. apply H. by right.
Qed.

(** Only dirty pages are compared, and clean pages have not changed. *)
Lemma changed_bytes_loop_spec g m s n i total :
  0 < therm_page_size g -> therm_current g = Some s ->
  t_hi s - t_lo s = base_pages s * therm_page_size g ->
  (forall x, 0 <= x < t_hi s - t_lo s ->
     bit_set (dirty_bitmap s) (x / therm_page_size g) = false -> differs m s x = false) ->
  0 <= i -> i + Z.of_nat n <= base_pages s ->
  changed_bytes_loop n g m (dirty_bitmap s) i total =
  total + lenZ (List.filter (differs m s)
    (seqZ (i * therm_page_size g) (Z.of_nat n * therm_page_size g))).
Proof.
  intros HP Hcur Hsz Hclean. set (P := therm_page_size g) in *. revert i total.
  induction n as [| n IH]; intros i total Hi Hn.
  - simpl. unfold lenZ. simpl. lia.
  - simpl changed_bytes_loop. rewrite IH by lia. fold P.
    replace (Z.of_nat (S n) * P) with (P + Z.of_nat n * P) by lia.
    rewrite seqZ_app by lia. rewrite filter_app_b. unfold lenZ at 2. rewrite length_app, Nat2Z.inj_add.
    fold (lenZ (List.filter (differs m s) (seqZ (i * P) P))).
    replace (i * P + P) with ((i + 1) * P) by lia.
    fold (lenZ (List.filter (differs m s) (seqZ ((i + 1) * P) (Z.of_nat n * P)))).
    destruct (bit_set (dirty_bitmap s) i) eqn:Hb.
    + unfold js_arena_thermometer_changed_in_page. rewrite Hcur.
      rewrite changed_in_page_spec by lia. lia.
    + rewrite (filter_none (differs m s) (seqZ (i * P) P)); [unfold lenZ at 2; simpl; lia |].
      intros x Hx. apply elem_of_seqZ in Hx. apply Hclean; [nia |].
      replace (x / P) with i; [done |]. apply Z.div_unique with (x - i * P); lia.
Qed.

(** Against the enable-time baseline, [differs] compares the two memories. *)
Lemma differs_baseline m m' s lo size k o :
  t_lo s = lo -> baseline s = load_bytes m lo (Z.to_nat size) ->
  0 <= o -> o + Z.of_nat k <= size ->
  lenZ (List.filter (differs m' s) (seqZ o (Z.of_nat k))) =
  lenZ (List.filter (fun x => negb (load8 m' x =? load8 m x)) (seqZ (lo + o) (Z.of_nat k))).
Proof.
  intros Hlo Hb. revert o. induction k as [| k IH]; intros o Ho Hk; [done |].
  rewrite !seqZ_step. simpl. replace (lo + o + 1) with (lo + (o + 1)) by lia.
  specialize (IH (o + 1) ltac:(lia) ltac:(lia)). unfold lenZ in *.
  unfold differs at 1. rewrite Hlo, Hb, nthZ_load_bytes by lia.
  destruct (negb (load8 m' (lo + o) =? load8 m (lo + o))); simpl; lia.
Qed.

(** ** Properties *)

(** C25: the thermometer is exact.  Enable it on a range of whole pages, run any
    stores: every one completes with its plain effect (the faults are
    invisible); [dirty_offsets] lists exactly the pages of the range that were
    stored to, in order, cut to the caller's capacity, and [pages] is their
    number; [changed_bytes] is the number of bytes of the range whose value
    differs from the one at enable time. *)
Theorem thermometer_exact os g m lo hi g1 stores cap :
  guard_ok g m \/ guard_idle g -> page_ok os g -> fresh_range (page_size_answer os) g lo hi ->
  js_arena_thermometer_enable_range os g m lo hi = (0, g1) ->
  let P := page_size_answer os in
  let m' := plain_stores m stores in
  let hit := List.filter (page_hit P lo hi stores) (seqZ 0 ((hi - lo) / P)) in
  exists g2, run_stores P g1 m stores = Stored g2 m' /\
    js_arena_thermometer_dirty_offsets g2 cap =
      (lenZ hit, take (Z.to_nat cap) (map (fun i => i * P) hit)) /\
    js_arena_thermometer_pages g2 = lenZ hit /\
    js_arena_thermometer_changed_bytes g2 m' =
      lenZ (List.filter (fun x => negb (load8 m' x =? load8 m x)) (seqZ lo (hi - lo))).
Proof.
  intros Hg Hpo Hfr Hen P m' hit.
  destruct (enable_range_ok os g m lo hi Hg Hpo Hfr g1 Hen) as (Hok & HP1 & s & Hst & Hje).
  destruct (run_stores_ok stores g1 m Hok) as (g2 & Hrun & Hok2 & HP2 & Hlen & Heff).
  rewrite HP1 in *. fold P m' in Hrun, Heff, Hok2, HP2. exists g2. split; [done |].
  set (n := length (therm_states g)).
  assert (Hn : therm_states g1 !! n = Some s).
  { rewrite Hst. by rewrite lookup_app_r, Nat.sub_diag by (unfold n; lia). }
  destruct (Heff n s Hn) as (s2 & Hn2 & E1 & E2 & E3 & E4 & Hbits).
  destruct Hje as (J1 & J2 & J3 & J4 & J5 & _ & _). fold P in J3.
  assert (Hcur : therm_current g2 = Some s2).
  { unfold therm_current. rewrite last_lookup, Hlen, Hst, length_app. simpl. fold n.
    replace (pred (n + 1)) with n by lia. done. }
  pose proof (Forall_lookup_1 _ _ _ _ (go_states _ _ Hok2) Hn2) as Hs2. rewrite HP2 in Hs2.
  pose proof (go_page _ _ Hok2) as HPp. rewrite HP2 in HPp.
  assert (Hhit : dirty_list s2 = hit).
  { unfold dirty_list, hit. rewrite E3, J3. apply List.filter_ext_in. intros i Hi.
    apply list_elem_of_In, elem_of_seqZ in Hi. rewrite Hbits by (rewrite J3; lia).
    rewrite J5 by lia. rewrite J1, J2. done. }
  split; [| split].
  - unfold js_arena_thermometer_dirty_offsets. rewrite Hcur, dirty_offsets_loop_spec by lia.
    rewrite HP2. assert (Hb : Z.of_nat (Z.to_nat (base_pages s2)) = base_pages s2).
    { pose proof (so_pages _ _ _ _ Hs2). pose proof (so_range _ _ _ _ Hs2). nia. }
    rewrite Hb. fold (dirty_list s2). rewrite Hhit. rewrite Z.sub_0_r. done.
  - unfold js_arena_thermometer_pages. rewrite Hcur, (so_count _ _ _ _ Hs2). by rewrite Hhit.
  - pose proof (so_pages _ _ _ _ Hs2) as Hsz. pose proof (so_range _ _ _ _ Hs2) as Hrg.
    unfold js_arena_thermometer_changed_bytes. rewrite Hcur.
    rewrite (changed_bytes_loop_spec g2 m' s2); rewrite ?HP2; try done; try nia.
    + rewrite Z2Nat.id by nia. rewrite Z.mul_0_l, <- Hsz, E1, E2, J1, J2, Z.add_0_l.
      replace (hi - lo) with (Z.of_nat (Z.to_nat (hi - lo))) by lia.
      rewrite (differs_baseline m m' s2 lo (hi - lo)); try congruence; try lia. by rewrite Z.add_0_r.
    + intros x Hx Hb. unfold differs. rewrite (so_clean _ _ _ _ Hs2 x Hx Hb), Z.eqb_refl. done.
Qed.

Definition os_fine : os_answers :=
  {| page_size_answer := 4096; calloc_ok := true; malloc_ok := true; sigaction_ok := true; mprotect_ok := true |}.

(** Two pages at 64 KiB, three stores, two of them in the range. *)
Lemma thermometer_exact_witness :
  exists g1 g2, js_arena_thermometer_enable_range os_fine (guard_init SIG_DFL) ∅ 65536 73728 = (0, g1) /\
    run_stores 4096 g1 ∅ [(69632, 7); (69633, 0); (1000, 3)]
      = Stored g2 (plain_stores ∅ [(69632, 7); (69633, 0); (1000, 3)]) /\
    js_arena_thermometer_dirty_offsets g2 8 = (1, [4096]).
Proof.
  assert (He : exists g1, js_arena_thermometer_enable_range os_fine (guard_init SIG_DFL) ∅ 65536 73728 = (0, g1)).
  { eexists. vm_compute. reflexivity. }
  destruct He as [g1 He]. exists g1.
  destruct (thermometer_exact os_fine (guard_init SIG_DFL) ∅ 65536 73728 g1
    [(69632, 7); (69633, 0); (1000, 3)] 8) as (g2 & H1 & H2 & _).
  - right. by repeat split.
  - exists 12. split; [lia |]. split; [done |]. right. done.
  - split; [lia |]. split; [by exists 2 |]. split; [done | constructor].
  - exact He.
  - exists g2. split; [exact He |]. split; [exact H1 |]. rewrite H2. vm_compute. reflexivity.
Defined.

(** Hardening one arena and then unhardening it while the thermometer is on
    for another takes the thermometer's handler away: [unharden] reinstates the
    action [harden] saved, so the next store to the still protected range of the
    other arena kills the process (under the default action) although the
    thermometer is installed. *)
Theorem unharden_drops_thermometer os m hard_buf hard_cap lo hi g1 g2 g3 rc x b :
  js_dual_arena_harden os (guard_init SIG_DFL) true hard_buf hard_cap = (0, g1) ->
  js_arena_thermometer_enable_range os g1 m lo hi = (0, g2) ->
  js_dual_arena_unharden os g2 hard_buf hard_cap = (rc, g3) ->
  x / page_size_answer os ∈ read_only g3 ->
  therm_handler_installed g3 = true /\ segv_action g3 = SIG_DFL /\
  user_store 1 (page_size_answer os) g3 m x b = Died.
Proof.
  intros Hh Ht Hu Hx.
  unfold js_dual_arena_harden in Hh. simpl in Hh.
  destruct (sigaction_ok os) eqn:Es; simpl in Hh; [| done].
  destruct (mprotect_ok os) eqn:Em; simpl in Hh; [| done]. injection Hh as <-.
  unfold js_arena_thermometer_enable_range, therm_install_handler in Ht. simpl in Ht.
  rewrite Es, Em in Ht. repeat (case_if; simpl in Ht; try done); injection Ht as <-;
    unfold js_dual_arena_unharden, hard_find in Hu; simpl in Hu; rewrite Z.eqb_refl in Hu; simpl in Hu;
    injection Hu as <- <-; (split; [done |]); (split; [done |]);
    unfold user_store; rewrite bool_decide_true by done; done.
Qed.

Lemma unharden_drops_thermometer_witness :
  exists g1 g2 g3, js_dual_arena_harden os_fine (guard_init SIG_DFL) true 65536 4096 = (0, g1) /\
    js_arena_thermometer_enable_range os_fine g1 ∅ 131072 139264 = (0, g2) /\
    js_dual_arena_unharden os_fine g2 65536 4096 = (0, g3) /\
    user_store 1 4096 g3 ∅ 131080 1 = Died.
Proof.
  eexists _, _, _. split; [vm_compute; reflexivity |]. split; [vm_compute; reflexivity |].
  split; [vm_compute; reflexivity |].
  eapply (unharden_drops_thermometer os_fine ∅ 65536 4096 131072 139264);
    [vm_compute; reflexivity | vm_compute; reflexivity | vm_compute; reflexivity |].
  eapply bool_decide_unpack. vm_compute. exact I.
Defined.
