(* ===== verification/BumpArena.v ===== *)
(** * The base bump arena (qjs-arena.c, "low-level arena ops")

    [JSArena]: one mapped buffer whose first 8 bytes hold the bump cursor and
    whose allocations are [ 8B size | 8B pad | payload ], 16-byte aligned.
    [arena_alloc] bumps, [arena_realloc] grows or shrinks the last allocation
    in place and copies otherwise, nothing is ever freed.

    The theorems: the blocks handed out never overlap, stay inside the
    buffer, carry their requested size in the header and keep their bytes;
    a reallocation keeps the common prefix.  The one requirement, that sizes
    are below [2^62], is necessary: [arena_alloc] does not guard its additions
    against wrap-around, and the last theorems show what happens then. *)

From stdpp Require Import base list numbers gmap.
From Stdlib Require Import ZArith Lia.
From S2P Require Import Prelude Memory ChunkTable.

(** ** State and operations *)

Definition ARENA_ALIGN : Z := 16.
Definition ARENA_HEADER_SIZE : Z := 16.
Definition ARENA_PREFIX_LEN : Z := 16.
Definition ARENA_DEFAULT_SIZE : Z := Z.shiftl 16 20.

Record JSArena := {
  buf : Z;
  capacity : Z;
  floor : Z;
  last_alloc_ptr : Z;
  last_alloc_aligned : Z
}.

(** A zeroed [JSArena]. *)
Definition arena_zero : JSArena := Build_JSArena 0 0 0 0 0.

Definition arena_cursor (a : JSArena) (m : mem) : Z := load64 m (buf a).
Definition arena_set_cursor (a : JSArena) (m : mem) (v : Z) : mem := store64 m (buf a) v.

(** [pagesz] is what [sysconf(_SC_PAGESIZE)] returns. *)
Definition pages_round (pagesz size : Z) : Z :=
  let round := if (0 <? pagesz) && (JS_ARENA_CHUNK_SIZE <? pagesz) then pagesz else JS_ARENA_CHUNK_SIZE in
  Z.land (u64 (size + round - 1)) (u64 (Z.lnot (round - 1))).

(** [mapped] is the address [mmap] returns, 0 when it fails; anonymous pages
    read as zero. *)
Definition pages_map (mapped : Z) (m : mem) (size : Z) : Z * mem :=
  if mapped =? 0 then (0, m) else (mapped, memset m mapped 0 size).

(** Result 0 or -1, the arena and the memory. *)
Definition arena_init (pagesz mapped : Z) (a : JSArena) (m : mem) (cap : Z) : Z * JSArena * mem :=
  let cap := if cap =? 0 then ARENA_DEFAULT_SIZE else cap in
  let cap := pages_round pagesz cap in
  if cap <? ARENA_PREFIX_LEN + ARENA_HEADER_SIZE + ARENA_ALIGN then (-1, a, m)
  else
    let '(b, m) := pages_map mapped m cap in
    if b =? 0 then (-1, a, m)
    else
      let a := {| buf := b; capacity := cap; floor := ARENA_PREFIX_LEN;
                  last_alloc_ptr := 0; last_alloc_aligned := 0 |} in
      (0, a, arena_set_cursor a m (floor a)).

(** The user pointer, 0 for NULL. *)
Definition arena_alloc (a : JSArena) (m : mem) (size : Z) : Z * JSArena * mem :=
  if size =? 0 then (0, a, m)
  else
    let aligned := round_up ARENA_ALIGN size in
    let total := u64 (ARENA_HEADER_SIZE + aligned) in
    let cursor := arena_cursor a m in
    if capacity a <? u64 (cursor + total) then (0, a, m)
    else
      let header := buf a + cursor in
      let m := store64 m header size in
      let user_ptr := header + ARENA_HEADER_SIZE in
      let m := arena_set_cursor a m (u64 (cursor + total)) in
      (user_ptr,
       {| buf := buf a; capacity := capacity a; floor := floor a;
          last_alloc_ptr := user_ptr; last_alloc_aligned := aligned |}, m).

Definition arena_user_size (m : mem) (ptr : Z) : Z := load64 m (ptr - 16).
Definition arena_set_user_size (m : mem) (ptr size : Z) : mem := store64 m (ptr - 16) size.

Definition set_last_aligned (a : JSArena) (aligned : Z) : JSArena :=
  {| buf := buf a; capacity := capacity a; floor := floor a;
     last_alloc_ptr := last_alloc_ptr a; last_alloc_aligned := aligned |}.

(** The copying tail of [arena_realloc]. *)
Definition arena_realloc_copy (a : JSArena) (m : mem) (ptr size old_size : Z) : Z * JSArena * mem :=
  let '(np, a, m) := arena_alloc a m size in
  if np =? 0 then (0, a, m)
  else (np, a, memcpy m np ptr (if size <? old_size then size else old_size)).

Definition arena_realloc (a : JSArena) (m : mem) (ptr size : Z) : Z * JSArena * mem :=
  if ptr =? 0 then arena_alloc a m size
  else if size =? 0 then (0, a, m)
  else
    let aligned := round_up ARENA_ALIGN size in
    let old_size := arena_user_size m ptr in
    if ptr =? last_alloc_ptr a then
      let old_aligned := last_alloc_aligned a in
      let cursor := arena_cursor a m in
      if aligned <=? old_aligned then
        let m := arena_set_cursor a m (u64 (cursor - (old_aligned - aligned))) in
        (ptr, set_last_aligned a aligned, arena_set_user_size m ptr size)
      else
        let delta := aligned - old_aligned in
        if u64 (cursor + delta) <=? capacity a then
          let m := arena_set_cursor a m (u64 (cursor + delta)) in
          (ptr, set_last_aligned a aligned, arena_set_user_size m ptr size)
        else arena_realloc_copy a m ptr size old_size
    else arena_realloc_copy a m ptr size old_size.

Definition arena_contains (a : JSArena) (ptr : Z) : bool :=
  negb (buf a =? 0) && (buf a <=? ptr) && (ptr <? buf a + capacity a).

(** ** Invariant

    [bs] is the ghost list of blocks handed out, newest first, as
    [(pointer, requested size)]. *)

Definition block : Type := Z * Z.

(** The bytes of a block, header included. *)
Definition block_lo (b : block) : Z := fst b - 16.
Definition block_hi (b : block) : Z := fst b + round_up ARENA_ALIGN (snd b).

Definition blocks_disjoint (b c : block) : Prop := block_hi b <= block_lo c \/ block_hi c <= block_lo b.

Record block_ok (a : JSArena) (m : mem) (b : block) : Prop := {
  bo_size : 0 < snd b < 2 ^ 62;
  bo_align : (16 | fst b);
  bo_lo : buf a + ARENA_PREFIX_LEN <= block_lo b;
  bo_hi : block_hi b <= buf a + arena_cursor a m;
  bo_header : arena_user_size m (fst b) = snd b
}.

Record arena_inv (a : JSArena) (m : mem) (bs : list block) : Prop := {
  ai_buf : 0 < buf a /\ (16 | buf a);
  ai_cap : 0 <= capacity a <= 2 ^ 62 /\ buf a + capacity a < 2 ^ 63;
  ai_cursor : ARENA_PREFIX_LEN <= arena_cursor a m <= capacity a /\ (16 | arena_cursor a m);
  ai_blocks : Forall (block_ok a m) bs;
  ai_disjoint : ForallOrdPairs blocks_disjoint bs;
  ai_last : last_alloc_ptr a = 0 \/
    exists size bs', bs = (last_alloc_ptr a, size) :: bs' /\
      last_alloc_aligned a = round_up ARENA_ALIGN size /\
      block_hi (last_alloc_ptr a, size) = buf a + arena_cursor a m
}.

(** ** Rounding *)

Lemma round16 size :
  0 <= size < 2 ^ 62 ->
  size <= round_up ARENA_ALIGN size < size + 16 /\ (16 | round_up ARENA_ALIGN size).
Proof.
  intros H. pose proof (round_up_spec 4 size) as R. change (2 ^ 4) with 16 in R.
  apply R; lia.
Qed.

(** Rounding to a page is rounding up to a multiple of it. *)
Lemma pages_round_spec pagesz size :
  (exists k, 12 <= k < 40 /\ pagesz = 2 ^ k) \/ pagesz <= 4096 ->
  0 <= size < 2 ^ 62 ->
  size <= pages_round pagesz size < size + Z.max 4096 pagesz /\ (4096 | pages_round pagesz size).
Proof.
  intros Hp Hs. unfold pages_round. change JS_ARENA_CHUNK_SIZE with 4096.
  fold (round_up (if (0 <? pagesz) && (4096 <? pagesz) then pagesz else 4096) size).
  pose proof (round_up_spec 12 size ltac:(lia) ltac:(lia) ltac:(lia)) as [R1 R2].
  change (2 ^ 12) with 4096 in R1, R2.
  destruct Hp as [(k & Hk & ->) | Hp].
  - assert (2 ^ 12 <= 2 ^ k) by (apply Z.pow_le_mono_r; lia).
    assert (2 ^ k <= 2 ^ 39) by (apply Z.pow_le_mono_r; lia).
    pose proof (round_up_spec k size ltac:(lia) ltac:(lia) ltac:(lia)) as [R3 R4].
    replace (0 <? 2 ^ k) with true by (symmetry; apply Z.ltb_lt; lia). simpl.
    destruct (Z.ltb_spec 4096 (2 ^ k)).
    + split; [lia |]. etrans; [| exact R4]. exists (2 ^ (k - 12)).
      change 4096 with (2 ^ 12). rewrite <- Z.pow_add_r by lia. f_equal. lia.
    + split; [lia | done].
  - replace ((0 <? pagesz) && (4096 <? pagesz)) with false by bool_lia.
    split; [lia | done].
Qed.

(** ** Blocks survive writes elsewhere *)

(** A block is still a block when its header and the cursor's reach are. *)
Lemma block_ok_frame a a' m m' b :
  block_ok a m b -> buf a' = buf a ->
  mem_agree m m' (block_lo b) (block_lo b + 8) ->
  block_hi b <= buf a + arena_cursor a' m' ->
  block_ok a' m' b.
Proof.
  intros [H1 H2 H3 H4 H5] Hb Hm Hc. split; try done; rewrite ?Hb; try done.
  rewrite <- H5. symmetry. apply load64_ext. unfold block_lo in Hm. exact Hm.
Qed.

Lemma round16_nonneg b : 0 < snd b < 2 ^ 62 -> block_lo b + 16 <= block_hi b.
Proof. intros H. unfold block_lo, block_hi. pose proof (round16 (snd b)). lia. Qed.

(** The invariant only reads the buffer. *)
Lemma arena_inv_frame a m m' bs :
  arena_inv a m bs -> mem_agree m m' (buf a) (buf a + capacity a) -> arena_inv a m' bs.
Proof.
  intros [H1 H2 H3 H4 H5 H6] Hm. unfold ARENA_PREFIX_LEN in *.
  assert (Hcur : arena_cursor a m' = arena_cursor a m).
  { symmetry. apply load64_ext. eapply mem_agree_sub; [exact Hm | lia | lia]. }
  split; rewrite ?Hcur; try done. eapply Forall_impl; [exact H4 |]. intros b Hb.
  pose proof (round16_nonneg b (bo_size _ _ _ Hb)). pose proof (bo_lo _ _ _ Hb). pose proof (bo_hi _ _ _ Hb).
  unfold ARENA_PREFIX_LEN in *.
  apply (block_ok_frame a a m m' b Hb eq_refl); [| rewrite Hcur; apply Hb].
  eapply mem_agree_sub; [exact Hm | lia | lia].
Qed.

(** ** Initialisation *)

Lemma arena_init_spec pagesz mapped a m cap :
  (exists k, 12 <= k < 40 /\ pagesz = 2 ^ k) \/ pagesz <= 4096 ->
  0 <= cap < 2 ^ 61 -> 0 < mapped < 2 ^ 62 -> (16 | mapped) ->
  let '(rc, a', m') := arena_init pagesz mapped a m cap in
  rc = 0 /\ arena_inv a' m' [] /\ buf a' = mapped /\
  capacity a' = pages_round pagesz (if cap =? 0 then ARENA_DEFAULT_SIZE else cap) /\
  arena_cursor a' m' = ARENA_PREFIX_LEN /\
  forall lo hi, hi <= mapped \/ mapped + capacity a' <= lo -> mem_agree m m' lo hi.
Proof.
  intros Hp Hc Hm Ha. unfold arena_init.
  set (cap' := if cap =? 0 then ARENA_DEFAULT_SIZE else cap).
  assert (Hc' : 0 < cap' < 2 ^ 61).
  { subst cap'. destruct (Z.eqb_spec cap 0); [| lia]. vm_compute. by split. }
  destruct (pages_round_spec pagesz cap' Hp ltac:(lia)) as [[R1 R2] R3].
  assert (R4 : pages_round pagesz cap' < 2 ^ 61 + 2 ^ 39).
  { destruct Hp as [(k & Hk & ->) | Hp]; [| lia].
    assert (2 ^ k <= 2 ^ 39) by (apply Z.pow_le_mono_r; lia). lia. }
  assert (R5 : 4096 <= pages_round pagesz cap').
  { destruct R3 as [z Hz]. lia. }
  assert (R6 : (16 | pages_round pagesz cap')) by (etrans; [| exact R3]; by exists 256).
  unfold pages_map. destruct (Z.ltb_spec (pages_round pagesz cap')
    (ARENA_PREFIX_LEN + ARENA_HEADER_SIZE + ARENA_ALIGN)) as [Hlt | Hge].
  { unfold ARENA_PREFIX_LEN, ARENA_HEADER_SIZE, ARENA_ALIGN in Hlt. lia. }
  destruct (Z.eqb_spec mapped 0); [lia |]. destruct (Z.eqb_spec mapped 0); [lia |].
  set (a1 := Build_JSArena _ _ _ _ _).
  assert (Hcur : arena_cursor a1 (arena_set_cursor a1 (memset m mapped 0 (pages_round pagesz cap')) (floor a1))
                 = ARENA_PREFIX_LEN).
  { unfold arena_cursor, arena_set_cursor. simpl. apply load64_store64_same. by vm_compute. }
  split; [done |]. split; [| split; [done |]; split; [done |]; split; [done |]].
  2:{ intros lo hi Hr. simpl in Hr. eapply mem_agree_trans; [apply (mem_agree_memset m mapped 0 (pages_round pagesz cap')); lia |].
      apply mem_agree_store64. simpl. lia. }
  simpl in Hcur. split; simpl; try rewrite Hcur; try done; try lia.
  - split; [lia | done].
  - split; [unfold ARENA_PREFIX_LEN; lia |]. by exists 1.
  - constructor.
Qed.

(** ** Allocation *)

Section alloc.
Context (a : JSArena) (m : mem) (bs : list block).
Hypothesis Hinv : arena_inv a m bs.

(** Whether the request fits, computed without overflow. *)
Definition fits (size : Z) : Prop :=
  arena_cursor a m + ARENA_HEADER_SIZE + round_up ARENA_ALIGN size <= capacity a.

Lemma arena_alloc_refused size :
  0 < size < 2 ^ 62 -> ~ fits size -> arena_alloc a m size = (0, a, m).
Proof.
  intros Hs Hf. unfold arena_alloc, fits in *. destruct (Z.eqb_spec size 0); [lia |].
  destruct Hinv as [Hb [Hc Hc2] [Hcur _] _ _ _]. pose proof (round16 size ltac:(lia)) as [R _].
  unfold ARENA_HEADER_SIZE, ARENA_PREFIX_LEN in *.
  rewrite !(u64_small) by (rewrite ?(u64_small (16 + _)) by lia; lia).
  destruct (Z.ltb_spec (capacity a) (arena_cursor a m + (16 + round_up ARENA_ALIGN size))); [done | lia].
Qed.

(** A request that fits gets a fresh block at the cursor; only the header and
    the cursor word are written. *)
Lemma arena_alloc_granted size :
  0 < size < 2 ^ 62 -> fits size ->
  exists a' m', let p := buf a + arena_cursor a m + ARENA_HEADER_SIZE in
    arena_alloc a m size = (p, a', m') /\
    arena_inv a' m' ((p, size) :: bs) /\
    buf a' = buf a /\ capacity a' = capacity a /\
    (forall lo hi, buf a + 8 <= lo ->
       (hi <= p - 16 \/ p - 8 <= lo) -> mem_agree m m' lo hi) /\
    (forall lo hi, hi <= buf a -> mem_agree m m' lo hi).
Proof.
  intros Hs Hf. unfold fits in Hf. pose proof (round16 size ltac:(lia)) as [R1 R2].
  destruct Hinv as [[Hb0 Hb] [Hc Hc2] [Hcur Hcura] Hblk Hdis _].
  unfold ARENA_HEADER_SIZE, ARENA_PREFIX_LEN in *.
  set (c := arena_cursor a m) in *. set (al := round_up ARENA_ALIGN size) in *.
  set (p := buf a + c + 16).
  set (a' := Build_JSArena (buf a) (capacity a) (floor a) p al).
  set (m' := store64 (store64 m (buf a + c) size) (buf a) (c + (16 + al))).
  assert (Hcur' : arena_cursor a' m' = c + 16 + al).
  { unfold arena_cursor, m'. simpl. rewrite load64_store64_same; lia. }
  assert (Hhdr : load64 m' (buf a + c) = size).
  { unfold m'. rewrite load64_store64_out by lia. apply load64_store64_same. lia. }
  assert (Hframe : forall lo hi, buf a + 8 <= lo -> (hi <= p - 16 \/ p - 8 <= lo) -> mem_agree m m' lo hi).
  { intros lo hi H1 H2. eapply mem_agree_trans.
    - apply (mem_agree_store64 m (buf a + c) size). lia.
    - apply mem_agree_store64. lia. }
  exists a', m'. split.
  { unfold arena_alloc, arena_set_cursor, ARENA_HEADER_SIZE. destruct (Z.eqb_spec size 0); [lia |].
    fold c al. rewrite (u64_small (16 + al)), u64_small by lia.
    destruct (Z.ltb_spec (capacity a) (c + (16 + al))); [lia |]. done. }
  split.
  { split; simpl; try done.
    - rewrite Hcur'. unfold ARENA_PREFIX_LEN. split; [lia |].
      apply Z.divide_add_r; [| done]. apply Z.divide_add_r; [done | by exists 1].
    - constructor.
      + split; simpl; unfold block_lo, block_hi, ARENA_PREFIX_LEN; simpl; fold al; try lia.
        * unfold p. do 2 (apply Z.divide_add_r; [| done || by exists 1]). done.
        * unfold arena_user_size. rewrite <- Hhdr. f_equal. lia.
      + eapply Forall_impl; [exact Hblk |]. intros b Hbk.
        pose proof (round16_nonneg b (bo_size _ _ _ Hbk)).
        pose proof (bo_lo _ _ _ Hbk). pose proof (bo_hi _ _ _ Hbk).
        unfold ARENA_PREFIX_LEN in *. fold c in H1.
        apply (block_ok_frame a a' m m' b Hbk eq_refl); [apply Hframe; lia | lia].
    - constructor; [| done]. eapply Forall_impl; [exact Hblk |]. intros b Hbk.
      pose proof (bo_hi _ _ _ Hbk) as Hh. fold c in Hh. right.
      unfold block_lo at 1. simpl. lia.
    - right. exists size, bs. split; [done |]. split; [done |].
      unfold block_hi. simpl. fold al. lia. }
  split; [done |]. split; [done |]. split; [done |].
  intros lo hi H. eapply mem_agree_trans.
  - apply (mem_agree_store64 m (buf a + c) size). lia.
  - apply mem_agree_store64. lia.
Qed.

(** ** Reallocation *)

(** Two live blocks at one address are the same block. *)
Lemma live_block_unique bs0 b c :
  Forall (block_ok a m) bs0 -> ForallOrdPairs blocks_disjoint bs0 ->
  b ∈ bs0 -> c ∈ bs0 -> fst b = fst c -> b = c.
Proof.
  intros Hok Hd. induction Hd as [| x l Hx Hd IH]; intros Hb Hc Heq.
  { by apply elem_of_nil in Hb. }
  apply Forall_cons in Hok as [Hokx Hok].
  assert (Hno : forall y, y ∈ l -> fst x = fst y -> False).
  { intros y Hy Exy. pose proof (proj1 (Forall_forall _ _) Hok y Hy) as Hoky.
    pose proof (proj1 (Forall_forall _ _) Hx y Hy) as Hxy.
    pose proof (round16_nonneg x (bo_size _ _ _ Hokx)).
    pose proof (round16_nonneg y (bo_size _ _ _ Hoky)).
    unfold blocks_disjoint, block_lo in *. lia. }
  apply elem_of_cons in Hb as [-> | Hb], Hc as [-> | Hc]; auto; exfalso; eauto.
Qed.

(** The reservation of the last block can be moved to any aligned size that
    fits: its neighbours and its payload stay. *)
Lemma resize_last p old bs' size :
  bs = (p, old) :: bs' -> last_alloc_ptr a = p ->
  block_hi (p, old) = buf a + arena_cursor a m ->
  0 < size < 2 ^ 62 ->
  p - buf a + round_up ARENA_ALIGN size <= capacity a ->
  let a' := set_last_aligned a (round_up ARENA_ALIGN size) in
  let m' := arena_set_user_size (arena_set_cursor a m (p - buf a + round_up ARENA_ALIGN size)) p size in
  arena_inv a' m' ((p, size) :: bs').
Proof.
  intros Ebs Hl Hhi Hs Hfit a' m'. pose proof (round16 size ltac:(lia)) as [R1 R2].
  destruct Hinv as [Hb [Hc Hc2] [Hcur Hcura] Hblk Hdis _].
  rewrite Ebs in Hblk, Hdis. apply Forall_cons in Hblk as [Hp Hblk].
  inversion Hdis as [| ? ? Hdp Hdis']; subst.
  pose proof (bo_lo _ _ _ Hp) as Hplo. pose proof (bo_align _ _ _ Hp) as Hpal.
  unfold block_lo, ARENA_PREFIX_LEN in Hplo. simpl in Hplo, Hpal. set (p := last_alloc_ptr a) in *.
  set (al := round_up ARENA_ALIGN size) in *.
  assert (Hcur' : arena_cursor a' m' = p - buf a + al).
  { unfold arena_cursor, m', arena_set_user_size, arena_set_cursor. simpl.
    rewrite load64_store64_out by lia. apply load64_store64_same. lia. }
  assert (Hfr : forall lo hi, buf a + 8 <= lo -> (hi <= p - 16 \/ p - 8 <= lo) -> mem_agree m m' lo hi).
  { intros lo hi H1 H2. eapply mem_agree_trans.
    - apply (mem_agree_store64 m (buf a) (p - buf a + al)). lia.
    - apply mem_agree_store64. lia. }
  split; simpl; try done.
  - rewrite Hcur'. unfold ARENA_PREFIX_LEN. split; [lia |].
    apply Z.divide_add_r; [| done]. apply Z.divide_sub_r; [done | apply Hb].
  - constructor.
    + split; simpl; try done.
      * unfold block_hi. simpl. fold al. lia.
      * unfold m', arena_user_size, arena_set_user_size. rewrite load64_store64_same; lia.
    + apply Forall_forall. intros b Hin.
      pose proof (proj1 (Forall_forall _ _) Hblk b Hin) as Hbk.
      pose proof (proj1 (Forall_forall _ _) Hdp b Hin) as Hd.
      pose proof (round16_nonneg b (bo_size _ _ _ Hbk)).
      pose proof (bo_lo _ _ _ Hbk). pose proof (bo_hi _ _ _ Hbk).
      unfold blocks_disjoint, ARENA_PREFIX_LEN in *. rewrite Hhi in Hd.
      unfold block_lo at 2 in Hd. simpl in Hd.
      apply (block_ok_frame a a' m m' b Hbk eq_refl); [apply Hfr; lia |].
      rewrite Hcur'. lia.
  - constructor; [| done]. apply Forall_forall. intros b Hin.
    pose proof (proj1 (Forall_forall _ _) Hblk b Hin) as Hbk.
    pose proof (proj1 (Forall_forall _ _) Hdp b Hin) as Hd.
    pose proof (round16_nonneg b (bo_size _ _ _ Hbk)). pose proof (bo_hi _ _ _ Hbk).
    unfold blocks_disjoint in *. rewrite Hhi in Hd. unfold block_lo in *. simpl in *. lia.
  - right. exists size, bs'. split; [done |]. split; [done |].
    rewrite Hcur'. unfold block_hi. simpl. fold al. lia.
Qed.
End alloc.

(** What a call to [arena_realloc] or [arena_alloc] may change: nothing below
    the cursor but the cursor word and the header of the block resized. *)
Definition frame_ok (a : JSArena) (m m' : mem) (p : Z) : Prop :=
  forall lo hi, buf a + 8 <= lo -> hi <= buf a + arena_cursor a m ->
    (hi <= p - 16 \/ p - 8 <= lo) -> mem_agree m m' lo hi.

(** The common prefix of the old and the new block. *)
Definition common (old size : Z) : nat := Z.to_nat (Z.min old size).

(** The outcome of a resizing call on the live block [(p, old)]. *)
Record resized (a : JSArena) (m : mem) (bs : list block) (p old size : Z)
    (np : Z) (a' : JSArena) (m' : mem) (bs' : list block) : Prop := {
  rz_inv : arena_inv a' m' bs';
  rz_new : (np, size) ∈ bs';
  rz_where : np = p \/ buf a + arena_cursor a m < np;
  rz_others : forall b, b ∈ bs -> fst b <> p -> b ∈ bs';
  rz_geom : buf a' = buf a /\ capacity a' = capacity a;
  rz_prefix : load_bytes m' np (common old size) = load_bytes m p (common old size);
  rz_frame : frame_ok a m m' p
}.

Section realloc.
Context (a : JSArena) (m : mem) (bs : list block).
Hypothesis Hinv : arena_inv a m bs.
Context (p old size : Z).
Hypothesis Hlive : (p, old) ∈ bs.
Hypothesis Hsize : 0 < size < 2 ^ 62.

Lemma live_ok : block_ok a m (p, old).
Proof. exact (proj1 (Forall_forall _ _) (ai_blocks _ _ _ Hinv) _ Hlive). Qed.

Lemma realloc_copy_spec :
  (arena_realloc_copy a m p size old = (0, a, m) /\ ~ fits a m size) \/
  exists np a' m' bs', arena_realloc_copy a m p size old = (np, a', m') /\
    np <> 0 /\ resized a m bs p old size np a' m' bs'.
Proof.
  pose proof live_ok as Hok. pose proof (bo_size _ _ _ Hok) as Hold. simpl in Hold.
  pose proof (bo_lo _ _ _ Hok) as Hlo. pose proof (bo_hi _ _ _ Hok) as Hhi.
  pose proof (round16 old ltac:(lia)) as [Ro _]. pose proof (round16 size ltac:(lia)) as [Rs _].
  unfold block_lo, block_hi, ARENA_PREFIX_LEN in Hlo, Hhi. simpl in Hlo, Hhi.
  destruct (ai_buf _ _ _ Hinv) as [Hb0 _]. destruct (ai_cursor _ _ _ Hinv) as [Hcur _].
  unfold ARENA_PREFIX_LEN in Hcur.
  unfold arena_realloc_copy.
  destruct (Z.le_gt_cases (arena_cursor a m + ARENA_HEADER_SIZE + round_up ARENA_ALIGN size) (capacity a))
    as [Hf | Hf].
  2:{ left. rewrite (arena_alloc_refused a m bs Hinv size Hsize) by (unfold fits; lia).
      split; [done | unfold fits; lia]. }
  right. destruct (arena_alloc_granted a m bs Hinv size Hsize Hf)
    as (a' & m' & E & Hi' & Eb & Ec & Hfr & _).
  unfold ARENA_HEADER_SIZE in *. set (np := buf a + arena_cursor a m + 16) in *.
  rewrite E. destruct (Z.eqb_spec np 0); [lia |].
  replace (if size <? old then size else old) with (Z.min old size) by bool_lia.
  set (m'' := memcpy m' np p (Z.min old size)).
  assert (Hlow : forall lo hi, hi <= np \/ np + Z.min old size <= lo -> mem_agree m' m'' lo hi).
  { intros lo hi H. apply mem_agree_memcpy; lia. }
  assert (Hcu : arena_cursor a' m'' = arena_cursor a' m').
  { unfold arena_cursor. rewrite Eb. symmetry. apply load64_ext, Hlow. lia. }
  exists np, a', m'', ((np, size) :: bs). split; [done |]. split; [done |].
  split; try done.
  - destruct Hi' as [H1 H2 H3 H4 H5 H6]. split; try done; try (by rewrite Hcu).
    apply Forall_forall. intros b Hin.
    pose proof (proj1 (Forall_forall _ _) H4 b Hin) as Hbk.
    apply (block_ok_frame a' a' m' m'' b Hbk eq_refl); [| rewrite Hcu; apply (bo_hi _ _ _ Hbk)].
    apply Hlow. apply elem_of_cons in Hin as [-> | Hin]; [unfold block_lo; simpl; lia |].
    pose proof (proj1 (Forall_forall _ _) (ai_blocks _ _ _ Hinv) b Hin) as Hb.
    pose proof (bo_hi _ _ _ Hb). pose proof (round16_nonneg b (bo_size _ _ _ Hb)). lia.
  - by left.
  - right. unfold np. lia.
  - intros b Hb _. by right.
  - unfold common, m''. rewrite load_bytes_memcpy by lia. symmetry.
    apply load_bytes_agree, Hfr; lia.
  - intros lo hi H1 H2 H3. eapply mem_agree_trans; [apply Hfr; lia | apply Hlow; lia].
Qed.

(** Every successful reallocation of a live block is a resizing; a refused one
    changes nothing. *)
Lemma realloc_spec :
  (arena_realloc a m p size = (0, a, m) /\ ~ fits a m size) \/
  exists np a' m' bs', arena_realloc a m p size = (np, a', m') /\
    np <> 0 /\ resized a m bs p old size np a' m' bs'.
Proof.
  pose proof live_ok as Hok. pose proof (bo_size _ _ _ Hok) as Hold. simpl in Hold.
  pose proof (bo_lo _ _ _ Hok) as Hlo. pose proof (bo_header _ _ _ Hok) as Hh. simpl in Hh.
  pose proof (round16 old ltac:(lia)) as [Ro _]. pose proof (round16 size ltac:(lia)) as [Rs _].
  unfold block_lo, ARENA_PREFIX_LEN in Hlo. simpl in Hlo.
  destruct (ai_buf _ _ _ Hinv) as [Hb0 _]. destruct (ai_cursor _ _ _ Hinv) as [Hcur _].
  destruct (ai_cap _ _ _ Hinv) as [Hc Hc2].
  unfold ARENA_PREFIX_LEN in Hcur.
  unfold arena_realloc. destruct (Z.eqb_spec p 0); [lia |]. destruct (Z.eqb_spec size 0); [lia |].
  rewrite Hh. destruct (Z.eqb_spec p (last_alloc_ptr a)) as [Hl | _]; [| exact realloc_copy_spec].
  destruct (ai_last _ _ _ Hinv) as [H0 | (old' & bs0 & Ebs & Eal & Ehi)]; [lia |].
  assert (Eold : (p, old) = (last_alloc_ptr a, old')).
  { apply (live_block_unique a m bs (p, old) (last_alloc_ptr a, old')); try apply Hinv; try done.
    rewrite Ebs. by left. }
  injection Eold as Ep Eo. subst old'.
  assert (Hcu : arena_cursor a m = p - buf a + last_alloc_aligned a).
  { rewrite Eal. unfold block_hi in Ehi. simpl in Ehi. lia. }
  rewrite <- Ep in Ebs, Ehi.
  assert (Hres : p - buf a + round_up ARENA_ALIGN size <= capacity a ->
    resized a m bs p old size p (set_last_aligned a (round_up ARENA_ALIGN size))
      (arena_set_user_size (arena_set_cursor a m (p - buf a + round_up ARENA_ALIGN size)) p size)
      ((p, size) :: bs0)).
  { intros Hfit. set (c' := p - buf a + round_up ARENA_ALIGN size).
    assert (Hfr : forall lo hi, buf a + 8 <= lo -> (hi <= p - 16 \/ p - 8 <= lo) ->
        mem_agree m (arena_set_user_size (arena_set_cursor a m c') p size) lo hi).
    { intros lo hi H1 H2. eapply mem_agree_trans; [apply (mem_agree_store64 m (buf a) c'); lia |].
      apply mem_agree_store64. lia. }
    split; try done.
    - by apply (resize_last a m bs Hinv p old bs0 size).
    - by left.
    - by left.
    - intros b Hb Hne. rewrite Ebs in Hb. apply elem_of_cons in Hb as [-> | Hb]; [done |]. by right.
    - symmetry. apply load_bytes_agree, Hfr; lia.
    - intros lo hi H1 _ H3. by apply Hfr. }
  destruct (Z.leb_spec (round_up ARENA_ALIGN size) (last_alloc_aligned a)).
  { right. eexists _, _, _, _. split; [| split; [exact n | apply Hres; lia]].
    rewrite u64_small by lia. do 3 f_equal. lia. }
  rewrite u64_small by lia.
  destruct (Z.leb_spec (arena_cursor a m + (round_up ARENA_ALIGN size - last_alloc_aligned a)) (capacity a)).
  { right. eexists _, _, _, _. split; [| split; [exact n | apply Hres; lia]].
    do 3 f_equal. lia. }
  exact realloc_copy_spec.
Qed.
End realloc.

(** ** The abstract heap an arena implements

    A client sees blocks with contents, and how much of the buffer is used. *)

Record heap := { hp_blocks : gmap Z (list Z); hp_used : Z }.

Inductive arena_op :=
  | OpAlloc (size : Z)
  | OpRealloc (ptr size : Z)
  | OpWrite (ptr : Z) (i : nat) (b : Z).

(** What a client may ask: sizes a program can have, and only its own blocks. *)
Definition op_legal (h : heap) (o : arena_op) : Prop :=
  match o with
  | OpAlloc size => 0 <= size < 2 ^ 62
  | OpRealloc ptr size => 0 <= size < 2 ^ 62 /\ (ptr = 0 \/ is_Some (hp_blocks h !! ptr))
  | OpWrite ptr i b => exists c, hp_blocks h !! ptr = Some c /\ (i < length c)%nat
  end.

(** Contents of the resized block: the common prefix is kept. *)
Definition keeps_prefix (c c' : list Z) : Prop :=
  forall i, (i < length c)%nat -> (i < length c')%nat -> c !! i = c' !! i.

(** [heap_step cap h o r h']: the operation may return [r] and lead to [h']. *)
Inductive heap_step (cap : Z) : heap -> arena_op -> Z -> heap -> Prop :=
  | hs_alloc_zero h : heap_step cap h (OpAlloc 0) 0 h
  | hs_alloc_full h size :
      0 < size -> cap < hp_used h + 16 + round_up ARENA_ALIGN size ->
      heap_step cap h (OpAlloc size) 0 h
  | hs_alloc h size p c :
      0 < size -> hp_used h + 16 + round_up ARENA_ALIGN size <= cap ->
      p <> 0 -> (16 | p) -> hp_blocks h !! p = None -> lenZ c = size ->
      heap_step cap h (OpAlloc size) p
        {| hp_blocks := <[p := c]> (hp_blocks h); hp_used := hp_used h + 16 + round_up ARENA_ALIGN size |}
  | hs_realloc_null h size r h' :
      heap_step cap h (OpAlloc size) r h' -> heap_step cap h (OpRealloc 0 size) r h'
  | hs_realloc_zero h p : p <> 0 -> heap_step cap h (OpRealloc p 0) 0 h
  | hs_realloc_full h p size :
      p <> 0 -> 0 < size -> cap < hp_used h + 16 + round_up ARENA_ALIGN size ->
      heap_step cap h (OpRealloc p size) 0 h
  | hs_realloc h p size c np c' used' :
      0 < size -> hp_blocks h !! p = Some c -> np <> 0 -> (16 | np) ->
      (np = p \/ hp_blocks h !! np = None) -> lenZ c' = size -> keeps_prefix c c' ->
      used' <= cap ->
      heap_step cap h (OpRealloc p size) np
        {| hp_blocks := <[np := c']> (delete p (hp_blocks h)); hp_used := used' |}
  | hs_write h p i b c :
      hp_blocks h !! p = Some c ->
      heap_step cap h (OpWrite p i b) 0
        {| hp_blocks := <[p := <[i := b]> c]> (hp_blocks h); hp_used := hp_used h |}.

(** The arena side of an operation; a client write is a plain store. *)
Definition arena_do (a : JSArena) (m : mem) (o : arena_op) : Z * JSArena * mem :=
  match o with
  | OpAlloc size => arena_alloc a m size
  | OpRealloc ptr size => arena_realloc a m ptr size
  | OpWrite ptr i b => (0, a, store_bytes m (ptr + Z.of_nat i) [b])
  end.

(** The arena represents the heap. *)
Definition represents (a : JSArena) (m : mem) (h : heap) : Prop :=
  hp_used h = arena_cursor a m /\
  exists bs, arena_inv a m bs /\
    forall p c, hp_blocks h !! p = Some c ->
      (p, lenZ c) ∈ bs /\ load_bytes m p (length c) = c.

(** Blocks of a represented heap do not overlap and lie in the buffer. *)
Definition heap_separate (a : JSArena) (h : heap) : Prop :=
  (forall p c, hp_blocks h !! p = Some c ->
     0 < lenZ c /\ buf a + 32 <= p /\ p + lenZ c <= buf a + capacity a) /\
  (forall p q c d, hp_blocks h !! p = Some c -> hp_blocks h !! q = Some d -> p <> q ->
     p + lenZ c <= q - 16 \/ q + lenZ d <= p - 16).

Lemma disjoint_in bs b c :
  ForallOrdPairs blocks_disjoint bs -> b ∈ bs -> c ∈ bs -> b <> c -> blocks_disjoint b c.
Proof.
  intros Hd. induction Hd as [| x l Hx Hd IH]; intros Hb Hc Hne; [by apply elem_of_nil in Hb |].
  apply elem_of_cons in Hb as [-> | Hb], Hc as [-> | Hc]; auto; [done | |].
  - exact (proj1 (Forall_forall _ _) Hx c Hc).
  - destruct (proj1 (Forall_forall _ _) Hx b Hb); [by right | by left].
Qed.

Lemma represents_separate a m h : represents a m h -> heap_separate a h.
Proof.
  intros (_ & bs & Hi & Hb). split.
  - intros p c Hc. apply Hb in Hc as [Hin _].
    pose proof (proj1 (Forall_forall _ _) (ai_blocks _ _ _ Hi) _ Hin) as [H1 _ H3 H4 _].
    destruct (ai_cursor _ _ _ Hi) as [H5 _]. pose proof (round16 (lenZ c)).
    unfold block_lo, block_hi, ARENA_PREFIX_LEN in *. simpl in *. lia.
  - intros p q c d Hc Hd Hne. apply Hb in Hc as [Hc _], Hd as [Hd _].
    pose proof (proj1 (Forall_forall _ _) (ai_blocks _ _ _ Hi) _ Hc) as [H1 _ _ _ _].
    pose proof (proj1 (Forall_forall _ _) (ai_blocks _ _ _ Hi) _ Hd) as [H2 _ _ _ _].
    pose proof (round16 (lenZ c)). pose proof (round16 (lenZ d)).
    pose proof (disjoint_in bs _ _ (ai_disjoint _ _ _ Hi) Hc Hd) as Hdis.
    unfold blocks_disjoint, block_lo, block_hi in Hdis. simpl in *.
    destruct Hdis; [congruence | lia | lia].
Qed.

(** A store inside one block keeps the invariant. *)
Lemma inv_store a m bs p size i b :
  arena_inv a m bs -> (p, size) ∈ bs -> 0 <= i < size ->
  arena_inv a (store_bytes m (p + i) [b]) bs.
Proof.
  intros Hi Hin Hr. set (m' := store_bytes _ _ _).
  assert (Hfr : forall lo hi, hi <= p \/ p + size <= lo -> mem_agree m m' lo hi).
  { intros lo hi H x Hx. symmetry. apply load8_store_out. unfold lenZ. simpl. lia. }
  pose proof (proj1 (Forall_forall _ _) (ai_blocks _ _ _ Hi) _ Hin) as [Hs _ Hlo Hhi _].
  pose proof (round16 size). unfold block_lo, block_hi, ARENA_PREFIX_LEN in *. simpl in *.
  assert (Hcu : arena_cursor a m' = arena_cursor a m).
  { symmetry. apply load64_ext, Hfr. lia. }
  destruct Hi as [H1 H2 H3 H4 H5 H6]. split; try done; try (by rewrite Hcu).
  apply Forall_forall. intros c Hc. pose proof (proj1 (Forall_forall _ _) H4 c Hc) as Hok.
  apply (block_ok_frame a a m m' c Hok eq_refl); [| rewrite Hcu; apply Hok].
  apply Hfr. destruct (decide (c = (p, size))) as [-> | Hne].
  - unfold block_lo. simpl. lia.
  - pose proof (round16_nonneg c (bo_size _ _ _ Hok)).
    destruct (disjoint_in bs c (p, size) H5 Hc Hin Hne) as [Hd | Hd];
      unfold block_lo, block_hi in *; simpl in *; lia.
Qed.

Section simulation.
Context (a : JSArena) (m : mem) (h : heap).
Hypothesis Hrep : represents a m h.

Lemma sim_alloc size :
  0 <= size < 2 ^ 62 ->
  let '(r, a', m') := arena_alloc a m size in
  exists h', heap_step (capacity a) h (OpAlloc size) r h' /\ represents a' m' h' /\
    buf a' = buf a /\ capacity a' = capacity a.
Proof.
  intros Hs. destruct Hrep as (Hu & bs & Hi & Hb).
  destruct (Z.eq_dec size 0) as [-> | Hnz].
  { unfold arena_alloc. simpl. exists h. split; [constructor | done]. }
  destruct (decide (arena_cursor a m + ARENA_HEADER_SIZE + round_up ARENA_ALIGN size <= capacity a))
    as [Hf | Hf].
  2:{ rewrite (arena_alloc_refused a m bs Hi) by (unfold fits; lia || lia). exists h.
      split; [| done]. apply hs_alloc_full; unfold ARENA_HEADER_SIZE in *; lia. }
  destruct (arena_alloc_granted a m bs Hi size ltac:(lia) Hf) as (a' & m' & E & Hi' & Eb & Ec & Hfr & _).
  unfold ARENA_HEADER_SIZE in *. set (p := buf a + arena_cursor a m + 16) in *. rewrite E.
  pose proof (proj1 (Forall_forall _ _) (ai_blocks _ _ _ Hi') (p, size) ltac:(by left)) as Hp.
  destruct (ai_buf _ _ _ Hi) as [Hb0 _]. destruct (ai_cursor _ _ _ Hi) as [Hcur _].
  unfold ARENA_PREFIX_LEN in Hcur.
  exists {| hp_blocks := <[p := load_bytes m' p (Z.to_nat size)]> (hp_blocks h);
            hp_used := hp_used h + 16 + round_up ARENA_ALIGN size |}.
  split; [| split; [| done]].
  - apply hs_alloc; try lia.
    + apply (bo_align _ _ _ Hp).
    + destruct (hp_blocks h !! p) as [c |] eqn:Hc; [| done]. apply Hb in Hc as [Hin _].
      pose proof (proj1 (Forall_forall _ _) (ai_blocks _ _ _ Hi) _ Hin) as Hok.
      pose proof (bo_hi _ _ _ Hok). pose proof (round16_nonneg _ (bo_size _ _ _ Hok)).
      unfold block_lo in *. simpl in *. lia.
    + unfold lenZ. rewrite length_load_bytes. lia.
  - split.
    + simpl. destruct (ai_last _ _ _ Hi') as [H0 | (s & l & El & _ & Eh)].
      * unfold arena_alloc in E. repeat case_if; simplify_eq; simpl in *; lia.
      * simplify_eq. unfold block_hi in Eh. simpl in Eh. rewrite Eb in Eh. lia.
    + exists ((p, size) :: bs). split; [done |]. simpl. intros q c Hq.
      apply lookup_insert_Some in Hq as [[<- <-] | [Hne Hq]].
      * unfold lenZ. rewrite !length_load_bytes, Z2Nat.id by lia. split; [by left | done].
      * apply Hb in Hq as [Hin Hc]. split; [by right |]. rewrite <- Hc at 2. symmetry.
        pose proof (proj1 (Forall_forall _ _) (ai_blocks _ _ _ Hi) _ Hin) as [Hsz _ Hlo Hhi _].
        pose proof (round16 (lenZ c)).
        unfold block_lo, block_hi, ARENA_PREFIX_LEN, lenZ in *. simpl in *.
        apply load_bytes_agree, Hfr; lia.
Qed.

Lemma sim_realloc p size :
  0 <= size < 2 ^ 62 -> p = 0 \/ is_Some (hp_blocks h !! p) ->
  let '(r, a', m') := arena_realloc a m p size in
  exists h', heap_step (capacity a) h (OpRealloc p size) r h' /\ represents a' m' h' /\
    buf a' = buf a /\ capacity a' = capacity a.
Proof.
  intros Hs Hp. destruct (Z.eq_dec p 0) as [-> | Hp0].
  { unfold arena_realloc. simpl. pose proof (sim_alloc size Hs) as H.
    destruct (arena_alloc a m size) as [[r a'] m'].
    destruct H as (h' & H1 & H2). exists h'. split; [by constructor | done]. }
  destruct Hp as [| [c Hc]]; [done |].
  destruct (Z.eq_dec size 0) as [-> | Hnz].
  { unfold arena_realloc. destruct (Z.eqb_spec p 0); [done |]. simpl. exists h.
    split; [by constructor | done]. }
  destruct Hrep as (Hu & bs & Hi & Hb). destruct (Hb _ _ Hc) as [Hin Hcont].
  destruct (realloc_spec a m bs Hi p (lenZ c) size Hin ltac:(lia))
    as [[E Hf] | (np & a' & m' & bs' & E & Hnp & HR)]; rewrite E.
  { exists h. split; [| done]. apply hs_realloc_full; unfold fits, ARENA_HEADER_SIZE in *; lia. }
  destruct HR as [Hi' Hnew Hwh Hoth [Eb Ec] Hpre Hfr].
  pose proof (proj1 (Forall_forall _ _) (ai_blocks _ _ _ Hi') _ Hnew) as Hok'.
  exists {| hp_blocks := <[np := load_bytes m' np (Z.to_nat size)]> (delete p (hp_blocks h));
            hp_used := arena_cursor a' m' |}.
  split; [| split; [| done]].
  - apply (hs_realloc _ h p size c); try done; try lia.
    + apply (bo_align _ _ _ Hok').
    + destruct Hwh as [-> | Hwh]; [by left |]. right.
      destruct (hp_blocks h !! np) as [d |] eqn:Hd; [| done]. apply Hb in Hd as [Hd _].
      pose proof (proj1 (Forall_forall _ _) (ai_blocks _ _ _ Hi) _ Hd) as Hok.
      pose proof (bo_hi _ _ _ Hok). pose proof (round16 (lenZ d)). pose proof (bo_size _ _ _ Hok).
      unfold block_hi in *. simpl in *. lia.
    + unfold lenZ. rewrite length_load_bytes. lia.
    + intros i Hi1 Hi2. rewrite length_load_bytes in Hi2.
      assert (Hic : (i < common (lenZ c) size)%nat) by (unfold common, lenZ; lia).
      rewrite <- Hcont.
      pose proof (nthZ_load_bytes m p (length c) (Z.of_nat i) ltac:(lia)) as E1.
      pose proof (nthZ_load_bytes m' np (Z.to_nat size) (Z.of_nat i) ltac:(lia)) as E2.
      pose proof (nthZ_load_bytes m p (common (lenZ c) size) (Z.of_nat i) ltac:(lia)) as E3.
      rewrite <- Hpre, nthZ_load_bytes in E3 by lia.
      unfold nthZ in E1, E2. rewrite Nat2Z.id in E1, E2.
      destruct (lookup_lt_is_Some_2 (load_bytes m p (length c)) i) as [x Hx];
        [by rewrite length_load_bytes |].
      destruct (lookup_lt_is_Some_2 (load_bytes m' np (Z.to_nat size)) i) as [y Hy];
        [by rewrite length_load_bytes |].
      rewrite Hx in *. rewrite Hy in *. simpl in *. congruence.
    + rewrite <- Ec. destruct (ai_cursor _ _ _ Hi') as [? _]. lia.
  - split; [done |]. exists bs'. split; [done |]. simpl. intros q d Hq.
    apply lookup_insert_Some in Hq as [[<- <-] | [Hne Hq]].
    + unfold lenZ. rewrite !length_load_bytes, Z2Nat.id by lia. done.
    + apply lookup_delete_Some in Hq as [Hqp Hq]. apply Hb in Hq as [Hq Hd].
      split; [apply Hoth; [done | simpl; congruence] |].
      rewrite <- Hd at 2. symmetry.
      pose proof (proj1 (Forall_forall _ _) (ai_blocks _ _ _ Hi) _ Hq) as [Hsz _ Hlo Hhi _].
      pose proof (proj1 (Forall_forall _ _) (ai_blocks _ _ _ Hi) _ Hin) as [Hsz' _ _ _ _].
      pose proof (round16 (lenZ d)). pose proof (round16 (lenZ c)).
      pose proof (disjoint_in bs _ _ (ai_disjoint _ _ _ Hi) Hq Hin ltac:(congruence)) as Hdis.
      unfold blocks_disjoint, block_lo, block_hi, ARENA_PREFIX_LEN, lenZ in *. simpl in *.
      apply load_bytes_agree, Hfr; lia.
Qed.

Lemma sim_write p i b c :
  hp_blocks h !! p = Some c -> (i < length c)%nat ->
  represents a (store_bytes m (p + Z.of_nat i) [b])
    {| hp_blocks := <[p := <[i := b]> c]> (hp_blocks h); hp_used := hp_used h |}.
Proof.
  intros Hc Hlt. pose proof (represents_separate a m h Hrep) as [_ Hsep].
  destruct Hrep as (Hu & bs & Hi & Hb). destruct (Hb _ _ Hc) as [Hin Hcont].
  pose proof (proj1 (Forall_forall _ _) (ai_blocks _ _ _ Hi) _ Hin) as [Hsz _ Hlo Hhi _].
  unfold block_lo, ARENA_PREFIX_LEN in Hlo. simpl in Hlo.
  set (m' := store_bytes _ _ _).
  assert (Hx : forall x, load8 m' x = if x =? p + Z.of_nat i then b else load8 m x).
  { intros x. unfold m'. simpl. rewrite load8_insert. by rewrite Z.eqb_sym. }
  split; [simpl; rewrite Hu; apply load64_ext; intros x Hr; rewrite Hx; bool_lia |].
  exists bs. split; [apply (inv_store a m bs p (lenZ c)); unfold lenZ; try done; lia |].
  simpl. intros q d Hq. apply lookup_insert_Some in Hq as [[<- <-] | [Hne Hq]].
  - unfold lenZ. rewrite length_insert. split; [done |].
    apply list_eq_same_length with (n := length c);
      [by rewrite length_insert | by rewrite length_load_bytes |].
    intros j x y Hj H1 H2.
    pose proof (nthZ_load_bytes m' p (length c) (Z.of_nat j) ltac:(lia)) as E.
    pose proof (nthZ_load_bytes m p (length c) (Z.of_nat j) ltac:(lia)) as E0.
    unfold nthZ in E, E0. rewrite Nat2Z.id in E, E0. rewrite H1 in E. simpl in E.
    rewrite Hx in E. subst x. rewrite Hcont in E0.
    destruct (Z.eqb_spec (p + Z.of_nat j) (p + Z.of_nat i)).
    + replace j with i in * by lia. rewrite list_lookup_insert_eq in H2 by done. congruence.
    + rewrite list_lookup_insert_ne in H2 by lia. rewrite H2 in E0. simpl in E0. congruence.
  - destruct (Hb _ _ Hq) as [Hqi Hqc]. split; [done |]. rewrite <- Hqc at 2.
    apply load_bytes_ext. intros x Hr. rewrite Hx.
    destruct (Hsep p q c d Hc Hq ltac:(congruence)); unfold lenZ in *; bool_lia.
Qed.

(** Every legal operation is a step of the abstract heap. *)
Lemma sim_op o :
  op_legal h o ->
  let '(r, a', m') := arena_do a m o in
  exists h', heap_step (capacity a) h o r h' /\ represents a' m' h' /\
    buf a' = buf a /\ capacity a' = capacity a.
Proof.
  destruct o as [size | p size | p i b]; simpl.
  - apply sim_alloc.
  - intros [H1 H2]. by apply sim_realloc.
  - intros (c & Hc & Hl). eexists. split; [by apply hs_write |]. split; [| done].
    by apply sim_write.
Qed.
End simulation.

(** A trace of operations with their results, on both sides. *)
Inductive arena_trace : JSArena -> mem -> list (arena_op * Z) -> JSArena -> mem -> Prop :=
  | at_nil a m : arena_trace a m [] a m
  | at_cons a m o r a1 m1 l a2 m2 :
      arena_do a m o = (r, a1, m1) -> arena_trace a1 m1 l a2 m2 ->
      arena_trace a m ((o, r) :: l) a2 m2.

Inductive heap_trace (cap : Z) : heap -> list (arena_op * Z) -> heap -> Prop :=
  | ht_nil h : heap_trace cap h [] h
  | ht_cons h o r h1 l h2 :
      heap_step cap h o r h1 -> heap_trace cap h1 l h2 -> heap_trace cap h ((o, r) :: l) h2.

(** A client is well behaved when, whatever the heap did so far, the next
    operation it issues is legal. *)
Fixpoint client_legal (cap : Z) (h : heap) (l : list (arena_op * Z)) : Prop :=
  match l with
  | [] => True
  | (o, r) :: l => op_legal h o /\ forall h', heap_step cap h o r h' -> client_legal cap h' l
  end.

Lemma trace_refines a m l a' m' :
  arena_trace a m l a' m' -> forall h, represents a m h -> client_legal (capacity a) h l ->
  exists h', heap_trace (capacity a) h l h' /\ represents a' m' h' /\ heap_separate a' h' /\
    buf a' = buf a /\ capacity a' = capacity a.
Proof.
  induction 1 as [a m | a m o r a1 m1 l a2 m2 E _ IH]; intros h Hrep Hleg.
  { exists h. split; [constructor |]. split; [done |]. split; [| done].
    by eapply represents_separate. }
  destruct Hleg as [Ho Hl]. pose proof (sim_op a m h Hrep o Ho) as Hsim. rewrite E in Hsim.
  destruct Hsim as (h1 & Hs & Hr1 & Eb & Ec).
  rewrite Ec in IH. destruct (IH h1 Hr1 (Hl _ Hs)) as (h2 & Ht & Hr2 & Hsep & Eb2 & Ec2).
  exists h2. split; [by econstructor |]. split; [done |]. split; [done |]. split; congruence.
Qed.

(** ** Properties *)

(** C24: a freshly initialised base arena implements a heap of disjoint,
    16-byte aligned blocks: whatever sequence of allocations, reallocations
    and stores into its own blocks a client issues, each call's result and
    effect are those of the abstract heap (an allocation is refused exactly
    when it does not fit, a reallocation keeps the common prefix, every other
    block keeps its contents), and no two live blocks or headers overlap. *)
Theorem base_arena_refines_heap pagesz mapped m cap :
  (exists k, 12 <= k < 40 /\ pagesz = 2 ^ k) \/ pagesz <= 4096 ->
  0 <= cap < 2 ^ 61 -> 0 < mapped < 2 ^ 62 -> (16 | mapped) ->
  exists a0 m0, arena_init pagesz mapped arena_zero m cap = (0, a0, m0) /\
  forall l a' m', arena_trace a0 m0 l a' m' ->
    client_legal (capacity a0) {| hp_blocks := ∅; hp_used := ARENA_PREFIX_LEN |} l ->
    exists h', heap_trace (capacity a0) {| hp_blocks := ∅; hp_used := ARENA_PREFIX_LEN |} l h' /\
      represents a' m' h' /\ heap_separate a' h' /\ buf a' = mapped /\ capacity a' = capacity a0.
Proof.
  intros Hp Hc Hm Ha. pose proof (arena_init_spec pagesz mapped arena_zero m cap Hp Hc Hm Ha) as Hs.
  destruct (arena_init pagesz mapped arena_zero m cap) as [[rc a0] m0].
  destruct Hs as (-> & Hinv & Hb & Hcap & Hcur & _). exists a0, m0. split; [done |].
  intros l a' m' Ht Hl.
  assert (Hrep : represents a0 m0 {| hp_blocks := ∅; hp_used := ARENA_PREFIX_LEN |}).
  { split; [done |]. exists []. split; [done |]. simpl. intros p c Hpc.
    by rewrite lookup_empty in Hpc. }
  destruct (trace_refines a0 m0 l a' m' Ht _ Hrep Hl) as (h' & H1 & H2 & H3 & H4 & H5).
  exists h'. rewrite H4, Hb. done.
Qed.

(** The theorem at an 8 KiB arena mapped at 1 MiB. *)
Lemma base_arena_refines_heap_witness :
  exists a0 m0, arena_init 4096 1048576 arena_zero ∅ 8192 = (0, a0, m0) /\
  forall l a' m', arena_trace a0 m0 l a' m' ->
    client_legal (capacity a0) {| hp_blocks := ∅; hp_used := ARENA_PREFIX_LEN |} l ->
    exists h', heap_trace (capacity a0) {| hp_blocks := ∅; hp_used := ARENA_PREFIX_LEN |} l h' /\
      represents a' m' h' /\ heap_separate a' h' /\ buf a' = 1048576 /\ capacity a' = capacity a0.
Proof.
  apply base_arena_refines_heap; [right; lia | lia | lia | by exists 65536].
Defined.

(** [arena_alloc] does not guard its additions: from any arena in good
    order, a size within 16 of [SIZE_MAX] is granted a non-NULL pointer with
    no payload reserved, and a size of [2^64 - 32] is granted and moves the
    cursor back by 16 bytes, into the newest block. *)
Theorem arena_alloc_wraps a m bs :
  arena_inv a m bs -> arena_cursor a m + 16 <= capacity a ->
  (forall size, 2 ^ 64 - 15 <= size < 2 ^ 64 ->
     let '(p, a', m') := arena_alloc a m size in
     p <> 0 /\ arena_cursor a' m' = arena_cursor a m + 16 /\ p = buf a' + arena_cursor a' m') /\
  (let '(p, a', m') := arena_alloc a m (2 ^ 64 - 32) in
   p <> 0 /\ arena_cursor a' m' = arena_cursor a m - 16).
Proof.
  intros Hi Hroom. destruct Hi as [[Hb0 Hb] [Hc Hc2] [Hcur _] _ _ _].
  unfold ARENA_PREFIX_LEN in Hcur. set (c := arena_cursor a m) in *.
  assert (Hal : forall size, 2 ^ 64 - 15 <= size < 2 ^ 64 -> round_up ARENA_ALIGN size = 0).
  { intros size Hs. unfold round_up, ARENA_ALIGN.
    replace (u64 (size + 16 - 1)) with (size + 15 - 2 ^ 64)
      by (unfold u64; apply Z.mod_unique with 1; lia).
    change 16 with (2 ^ 4). rewrite land_lnot_mask by lia.
    rewrite Z.mod_small by lia. lia. }
  split.
  - intros size Hs. unfold arena_alloc, ARENA_HEADER_SIZE. rewrite (Hal size Hs). fold c.
    destruct (Z.eqb_spec size 0); [lia |]. rewrite (u64_small (16 + 0)), u64_small by lia.
    destruct (Z.ltb_spec (capacity a) (c + (16 + 0))); [lia |].
    assert (Hcu : load64 (store64 (store64 m (buf a + c) size) (buf a) (c + (16 + 0))) (buf a) = c + 16).
    { rewrite load64_store64_same; lia. }
    unfold arena_cursor, arena_set_cursor. simpl buf. rewrite Hcu. lia.
  - unfold arena_alloc, ARENA_HEADER_SIZE.
    change (round_up ARENA_ALIGN (2 ^ 64 - 32)) with (2 ^ 64 - 32). fold c.
    change (2 ^ 64 - 32 =? 0) with false. change (u64 (16 + (2 ^ 64 - 32))) with (2 ^ 64 - 16).
    replace (u64 (c + (2 ^ 64 - 16))) with (c - 16)
      by (unfold u64; apply Z.mod_unique with 1; lia).
    destruct (Z.ltb_spec (capacity a) (c - 16)); [lia |].
    unfold arena_cursor, arena_set_cursor. simpl buf. rewrite load64_store64_same; lia.
Qed.

Lemma arena_alloc_wraps_witness :
  let '(rc, a, m) := arena_init 4096 1048576 arena_zero ∅ 4096 in
  let '(p, a', m') := arena_alloc a m (2 ^ 64 - 32) in
  p <> 0 /\ arena_cursor a' m' = arena_cursor a m - 16.
Proof.
  pose proof (arena_init_spec 4096 1048576 arena_zero ∅ 4096 ltac:(right; lia) ltac:(lia) ltac:(lia)
    ltac:(by exists 65536)) as H.
  destruct (arena_init 4096 1048576 arena_zero ∅ 4096) as [[rc a] m].
  destruct H as (_ & Hi & _ & Hc & Hcur & _).
  apply (proj2 (arena_alloc_wraps a m [] Hi
    ltac:(rewrite Hc, Hcur; vm_compute; intros E; discriminate E))).
Defined.
