(* ===== verification/ArenaWorld.v ===== *)
(** * The world the dual arena lives in

    Interfaces and state shared by [RequestArena] and [DualArena].

    - [Env]: what the arena code calls outside the repository: libc's
      allocator for bookkeeping nodes, the page mapper, the embedder's chunk
      provider.  [EnvLaws] states what the code relies on: blocks handed out are
      chunk aligned and disjoint from those still out, and at most 4 TiB are
      out at once.
    - [Mspace]: dlmalloc's mspace calls (qjs-dlmalloc.c, a vendored copy).  A
      call may come back through [MORECORE], so it is a tree of
      interactions, [mcall].  [MspaceLaws] states its confinement contract:
      an mspace writes only into segments it was given and returns memory
      inside them.
    - [world]: the thread's variables, the structs on the heap, the memory.
    - [M]: the state-and-failure monad the C functions are written in. *)

From stdpp Require Import base list numbers gmap.
From Stdlib Require Import ZArith Lia.
From S2P Require Import Prelude Memory ChunkTable BaseRanges Thermometer BumpArena.

(** ** The environment *)

Class Env := {
  env_state : Type;
  (** [sysconf(_SC_PAGESIZE)] *)
  env_pagesz : Z;
  (** [malloc] or [calloc] of a bookkeeping node or table: did it succeed *)
  node_alloc : env_state -> bool * env_state;
  (** [calloc] of a [JSDualArena] or [JSRequestArena]: the address, 0 for NULL *)
  struct_alloc : env_state -> Z * env_state;
  struct_free : env_state -> Z -> env_state;
  (** [mmap] and [munmap] *)
  os_map : env_state -> Z -> Z * env_state;
  os_unmap : env_state -> Z -> Z -> env_state;
  (** the embedder's [JSArenaChunkProvider], by its opaque pointer *)
  host_acquire : env_state -> Z -> Z -> Z * env_state;
  host_release : env_state -> Z -> Z -> Z -> env_state;
  (** [mprotect] and [sigaction] *)
  env_os : env_state -> os_answers
}.

Abbreviation extent := (Z * Z)%type.

Definition in_block (x : Z) (b : extent) : Prop := fst b <= x < fst b + snd b.
Definition extents_apart (b c : extent) : Prop := fst b + snd b <= fst c \/ fst c + snd c <= fst b.

(** Total bytes of a list of blocks. *)
Definition extents_total (l : list extent) : Z := foldr (fun b n => snd b + n) 0 l.

Definition fresh_extent (outs : list extent) (b size : Z) : Prop :=
  0 < b /\ (4096 | b) /\ b + size < 2 ^ 62 /\ Forall (extents_apart (b, size)) outs.

Class EnvLaws `{Env} := {
  (** blocks handed out and not yet returned, and live structs *)
  outs : env_state -> list extent;
  live_structs : env_state -> gset Z;
  law_pagesz : (exists k, 12 <= k < 40 /\ env_pagesz = 2 ^ k) \/ env_pagesz <= 4096;
  law_node e b e' : node_alloc e = (b, e') -> outs e' = outs e /\ live_structs e' = live_structs e;
  law_struct e p e' : struct_alloc e = (p, e') ->
    outs e' = outs e /\
    ((p = 0 /\ live_structs e' = live_structs e) \/
     (0 < p /\ ~ (p ∈ live_structs e) /\ live_structs e' = {[ p ]} ∪ live_structs e));
  law_struct_free e p :
    outs (struct_free e p) = outs e /\ live_structs (struct_free e p) = live_structs e ∖ {[ p ]};
  law_map e size b e' : os_map e size = (b, e') ->
    live_structs e' = live_structs e /\
    ((b = 0 /\ outs e' = outs e) \/ (fresh_extent (outs e) b size /\ outs e' = (b, size) :: outs e));
  law_unmap e b size :
    live_structs (os_unmap e b size) = live_structs e /\
    forall x, x ∈ outs e -> x <> (b, size) -> x ∈ outs (os_unmap e b size);
  law_acquire e o size b e' : host_acquire e o size = (b, e') ->
    live_structs e' = live_structs e /\
    ((b = 0 /\ outs e' = outs e) \/ (fresh_extent (outs e) b size /\ outs e' = (b, size) :: outs e));
  law_release e o b size :
    live_structs (host_release e o b size) = live_structs e /\
    forall x, x ∈ outs e -> x <> (b, size) -> x ∈ outs (host_release e o b size);
  (** no more than 4 TiB is ever out *)
  law_limit e l : NoDup l -> Forall (fun b => b ∈ outs e) l -> extents_total l <= 2 ^ 42
}.

(** ** dlmalloc *)

(** A call in progress: finished, or asking [MORECORE(n)] with the memory as it
    is at that moment and continuing with the answer and the memory then. *)
Inductive mcall (A : Type) : Type :=
  | MRet (a : A)
  | MMore (n : Z) (m : mem) (k : Z -> mem -> mcall A).
Arguments MRet {A} a.
Arguments MMore {A} n m k.

Definition REQ_MFAIL : Z := 2 ^ 64 - 1.

Class Mspace := {
  mspace : Type;
  create_mspace_with_base : mem -> Z -> Z -> option mspace * mem;
  mspace_malloc : mspace -> mem -> Z -> mcall (Z * mspace * mem);
  mspace_calloc : mspace -> mem -> Z -> Z -> mcall (Z * mspace * mem);
  mspace_realloc : mspace -> mem -> Z -> Z -> mcall (Z * mspace * mem);
  mspace_free : mspace -> mem -> Z -> mspace * mem;
  mspace_usable_size : mem -> Z -> Z
}.

(** Segments are [lo, hi). *)
Definition agree_outside (segs : list extent) (m m' : mem) : Prop :=
  forall x, Forall (fun s => ~ in_block x s) segs -> load8 m x = load8 m' x.

Definition agree_inside (segs : list extent) (m m' : mem) : Prop :=
  forall x s, s ∈ segs -> in_block x s -> load8 m x = load8 m' x.

(** The contract of a call started with segments [segs], program break [brk]
    and memory [m]: memory is written inside the segments granted so far only,
    and [Q] holds of the segments, result and memory at the end. *)
Fixpoint mcall_ok {R} (brk : Z) (segs : list extent) (m : mem) (c : mcall (R * mem))
    (Q : list extent -> R -> mem -> Prop) : Prop :=
  match c with
  | MRet (r, m') => agree_outside segs m m' /\ Q segs r m'
  | MMore n m1 k =>
      agree_outside segs m m1 /\ n < 2 ^ 61 /\
      (n = 0 -> mcall_ok brk segs m1 (k (if brk =? 0 then REQ_MFAIL else brk) m1) Q) /\
      (n < 0 -> mcall_ok brk segs m1 (k REQ_MFAIL m1) Q) /\
      (0 < n -> forall m2, agree_inside segs m1 m2 ->
         mcall_ok brk segs m2 (k REQ_MFAIL m2) Q /\
         forall b size, n <= size -> 0 < b -> (4096 | b) -> b + size < 2 ^ 62 ->
           Forall (extents_apart (b, size)) segs ->
           mcall_ok (b + size) (segs ++ [(b, size)]) m2 (k b m2) Q)
  end.

(** Where a successful allocation of [size] bytes lies. *)
Definition inside (segs : list extent) (p size : Z) : Prop :=
  exists s, s ∈ segs /\ fst s <= p /\ p + size <= fst s + snd s.

Class MspaceLaws `{Mspace} := {
  segments : mspace -> list extent;
  law_create m b size : 0 < b -> 2048 <= size -> b + size < 2 ^ 62 ->
    exists ms m', create_mspace_with_base m b size = (Some ms, m') /\
      segments ms = [(b, size)] /\ agree_outside [(b, size)] m m';
  law_malloc ms m size brk :
    mcall_ok brk (segments ms) m (mspace_malloc ms m size)
      (fun segs '(p, ms') m' => segments ms' = segs /\ (p <> 0 -> 0 <= p /\ inside segs p size));
  law_calloc ms m count size brk :
    mcall_ok brk (segments ms) m (mspace_calloc ms m count size)
      (fun segs '(p, ms') m' => segments ms' = segs /\
        (p <> 0 -> 0 <= p /\ inside segs p (count * size) /\
          forall i, 0 <= i < count * size -> load8 m' (p + i) = 0));
  law_realloc ms m ptr size brk :
    mcall_ok brk (segments ms) m (mspace_realloc ms m ptr size)
      (fun segs '(p, ms') m' => segments ms' = segs /\ (p <> 0 -> 0 <= p /\ inside segs p size));
  law_free ms m ptr :
    let '(ms', m') := mspace_free ms m ptr in
    segments ms' = segments ms /\ agree_outside (segments ms) m m';
  law_usable m p : 0 <= mspace_usable_size m p < 2 ^ 64
}.

(** ** Structs *)

Definition JS_ARENA_REQ_EXTENT_DEFAULT : Z := Z.shiftl 256 10.
Definition JS_ARENA_REQUEST_SLOT_SIZE : Z := 512.

Inductive JSArenaMode := JS_ARENA_MODE_BASE | JS_ARENA_MODE_REQUEST.
Inductive JSArenaReqMode := JS_ARENA_REQ_MODE_GC | JS_ARENA_REQ_MODE_BUMP.

#[export] Instance JSArenaMode_eq_dec : EqDecision JSArenaMode.
Proof. solve_decision. Defined.
#[export] Instance JSArenaReqMode_eq_dec : EqDecision JSArenaReqMode.
Proof. solve_decision. Defined.

Record JSArenaOOM := { hit : bool; requested : Z; oom_used : Z; limit : Z }.
Definition oom_none : JSArenaOOM := {| hit := false; requested := 0; oom_used := 0; limit := 0 |}.

(** The built-in provider of a dual arena, or the embedder's. *)
Inductive JSArenaChunkProvider :=
  | DefaultProvider (da : Z)
  | HostProvider (opaque : Z).

(** The bump fields of a request arena; [cur] is the position in the extent
    list of the extent being bumped. *)
Record bump_state := {
  cur : nat;
  cursor : Z;
  bump_used : Z;
  b_last_ptr : Z;
  b_last_aligned : Z
}.

Section structs.
Context `{Mspace}.

(** An extent node is its [(buf, size)]; the list runs head to tail. *)
Record JSRequestArena := {
  ra_da : Z;
  prov : JSArenaChunkProvider;
  chunks : list extent;
  extents : Z;
  cap : Z;
  held : Z;
  ra_floor : Z;
  bump : bump_state;
  brk : Z;
  msp : option mspace;
  used : Z;
  oom : JSArenaOOM;
  ra_mode : JSArenaReqMode;
  mode_next : JSArenaReqMode
}.

Definition ra_set_extents (ra : JSRequestArena) (l : list extent) (n h : Z) : JSRequestArena :=
  {| ra_da := ra_da ra; prov := prov ra; chunks := l; extents := n; cap := cap ra; held := h;
     ra_floor := ra_floor ra; bump := bump ra; brk := brk ra; msp := msp ra; used := used ra;
     oom := oom ra; ra_mode := ra_mode ra; mode_next := mode_next ra |}.
Definition ra_set_bump (ra : JSRequestArena) (b : bump_state) : JSRequestArena :=
  {| ra_da := ra_da ra; prov := prov ra; chunks := chunks ra; extents := extents ra; cap := cap ra;
     held := held ra; ra_floor := ra_floor ra; bump := b; brk := brk ra; msp := msp ra; used := used ra;
     oom := oom ra; ra_mode := ra_mode ra; mode_next := mode_next ra |}.
Definition ra_set_brk (ra : JSRequestArena) (b : Z) : JSRequestArena :=
  {| ra_da := ra_da ra; prov := prov ra; chunks := chunks ra; extents := extents ra; cap := cap ra;
     held := held ra; ra_floor := ra_floor ra; bump := bump ra; brk := b; msp := msp ra; used := used ra;
     oom := oom ra; ra_mode := ra_mode ra; mode_next := mode_next ra |}.
Definition ra_set_msp (ra : JSRequestArena) (ms : option mspace) (u : Z) : JSRequestArena :=
  {| ra_da := ra_da ra; prov := prov ra; chunks := chunks ra; extents := extents ra; cap := cap ra;
     held := held ra; ra_floor := ra_floor ra; bump := bump ra; brk := brk ra; msp := ms; used := u;
     oom := oom ra; ra_mode := ra_mode ra; mode_next := mode_next ra |}.
Definition ra_set_oom (ra : JSRequestArena) (o : JSArenaOOM) : JSRequestArena :=
  {| ra_da := ra_da ra; prov := prov ra; chunks := chunks ra; extents := extents ra; cap := cap ra;
     held := held ra; ra_floor := ra_floor ra; bump := bump ra; brk := brk ra; msp := msp ra;
     used := used ra; oom := o; ra_mode := ra_mode ra; mode_next := mode_next ra |}.
Definition ra_set_mode (ra : JSRequestArena) (md next : JSArenaReqMode) : JSRequestArena :=
  {| ra_da := ra_da ra; prov := prov ra; chunks := chunks ra; extents := extents ra; cap := cap ra;
     held := held ra; ra_floor := ra_floor ra; bump := bump ra; brk := brk ra; msp := msp ra;
     used := used ra; oom := oom ra; ra_mode := md; mode_next := next |}.

Record JSDualArena := {
  da_base : JSArena;
  da_mode : JSArenaMode;
  da_cur : Z;
  requests : list Z;
  state_cell : Z;
  cache : list extent
}.

Definition da_set_base (da : JSDualArena) (a : JSArena) : JSDualArena :=
  {| da_base := a; da_mode := da_mode da; da_cur := da_cur da; requests := requests da;
     state_cell := state_cell da; cache := cache da |}.
Definition da_set_mode (da : JSDualArena) (md : JSArenaMode) : JSDualArena :=
  {| da_base := da_base da; da_mode := md; da_cur := da_cur da; requests := requests da;
     state_cell := state_cell da; cache := cache da |}.
Definition da_set_cur (da : JSDualArena) (r cell : Z) : JSDualArena :=
  {| da_base := da_base da; da_mode := da_mode da; da_cur := r; requests := requests da;
     state_cell := cell; cache := cache da |}.
Definition da_set_requests (da : JSDualArena) (l : list Z) : JSDualArena :=
  {| da_base := da_base da; da_mode := da_mode da; da_cur := da_cur da; requests := l;
     state_cell := state_cell da; cache := cache da |}.
Definition da_set_cache (da : JSDualArena) (l : list extent) : JSDualArena :=
  {| da_base := da_base da; da_mode := da_mode da; da_cur := da_cur da; requests := requests da;
     state_cell := state_cell da; cache := l |}.
End structs.

(** ** World and monad *)

Section world.
Context `{Env} `{Mspace}.

Record world := {
  w_mem : mem;
  w_chunks : chunk_set;
  w_ranges : base_ranges;
  w_guard : guard;
  w_das : gmap Z JSDualArena;
  w_ras : gmap Z JSRequestArena;
  morecore_ra : Z;
  w_env : env_state
}.

Definition w_set_mem (w : world) (m : mem) : world :=
  {| w_mem := m; w_chunks := w_chunks w; w_ranges := w_ranges w; w_guard := w_guard w; w_das := w_das w;
     w_ras := w_ras w; morecore_ra := morecore_ra w; w_env := w_env w |}.
Definition w_set_chunks (w : world) (c : chunk_set) : world :=
  {| w_mem := w_mem w; w_chunks := c; w_ranges := w_ranges w; w_guard := w_guard w; w_das := w_das w;
     w_ras := w_ras w; morecore_ra := morecore_ra w; w_env := w_env w |}.
Definition w_set_ranges (w : world) (r : base_ranges) : world :=
  {| w_mem := w_mem w; w_chunks := w_chunks w; w_ranges := r; w_guard := w_guard w; w_das := w_das w;
     w_ras := w_ras w; morecore_ra := morecore_ra w; w_env := w_env w |}.
Definition w_set_guard (w : world) (g : guard) : world :=
  {| w_mem := w_mem w; w_chunks := w_chunks w; w_ranges := w_ranges w; w_guard := g; w_das := w_das w;
     w_ras := w_ras w; morecore_ra := morecore_ra w; w_env := w_env w |}.
Definition w_set_das (w : world) (d : gmap Z JSDualArena) : world :=
  {| w_mem := w_mem w; w_chunks := w_chunks w; w_ranges := w_ranges w; w_guard := w_guard w; w_das := d;
     w_ras := w_ras w; morecore_ra := morecore_ra w; w_env := w_env w |}.
Definition w_set_ras (w : world) (r : gmap Z JSRequestArena) : world :=
  {| w_mem := w_mem w; w_chunks := w_chunks w; w_ranges := w_ranges w; w_guard := w_guard w; w_das := w_das w;
     w_ras := r; morecore_ra := morecore_ra w; w_env := w_env w |}.
Definition w_set_morecore (w : world) (r : Z) : world :=
  {| w_mem := w_mem w; w_chunks := w_chunks w; w_ranges := w_ranges w; w_guard := w_guard w; w_das := w_das w;
     w_ras := w_ras w; morecore_ra := r; w_env := w_env w |}.
Definition w_set_env (w : world) (e : env_state) : world :=
  {| w_mem := w_mem w; w_chunks := w_chunks w; w_ranges := w_ranges w; w_guard := w_guard w; w_das := w_das w;
     w_ras := w_ras w; morecore_ra := morecore_ra w; w_env := e |}.

Definition M (A : Type) : Type := world -> run (A * world).
Definition mret {A} (a : A) : M A := fun w => Done (a, w).
Definition mbind {A B} (m : M A) (f : A -> M B) : M B :=
  fun w => let* (a, w) := m w in f a w.
Definition abort {A} : M A := fun _ => Aborts.
Definition gets {A} (f : world -> A) : M A := fun w => Done (f w, w).
Definition modify (f : world -> world) : M unit := fun w => Done (tt, f w).
(** Lift a call that may not return. *)
Definition lift {A} (r : run A) : M A := fun w => let* a := r in Done (a, w).

(** Dereferencing a struct pointer; a dangling or NULL one aborts. *)
Definition load_ra (r : Z) : M JSRequestArena :=
  fun w => match w_ras w !! r with Some ra => Done (ra, w) | None => Aborts end.
Definition store_ra (r : Z) (ra : JSRequestArena) : M unit := modify (fun w => w_set_ras w (<[r := ra]> (w_ras w))).
Definition load_da (d : Z) : M JSDualArena :=
  fun w => match w_das w !! d with Some da => Done (da, w) | None => Aborts end.
Definition store_da (d : Z) (da : JSDualArena) : M unit := modify (fun w => w_set_das w (<[d := da]> (w_das w))).

(** Calls into the environment. *)
Definition env_call {A} (f : env_state -> A * env_state) : M A :=
  fun w => let '(a, e) := f (w_env w) in Done (a, w_set_env w e).
Definition env_do (f : env_state -> env_state) : M unit := modify (fun w => w_set_env w (f (w_env w))).
End world.

Declare Scope m_scope.
Delimit Scope m_scope with m.
Notation "'let!' x := m 'in' k" := (mbind m (fun x => k))
  (at level 10, x pattern at level 0, k at level 200) : m_scope.
Notation "m ;; k" := (mbind m (fun _ => k)) (at level 100, right associativity) : m_scope.
