(* ===== verification/RequestArena.v ===== *)
(** * Request arenas: provider extents, bump path, lifecycle (qjs-arena.c)

    [default_acquire] .. [js_request_arena_slot]: a request arena is a list of
    extents taken from a provider within a byte budget, registered in the
    thread's chunk set, and used either as a bump region or as the segments of
    an mspace.

    The invariant [winv] ties the structs, the chunk set and the environment
    together through a ghost map [own] from blocks to holders; each operation
    preserves it and touches no memory of any other holder. *)

From stdpp Require Import base list numbers gmap.
From Stdlib Require Import ZArith Lia.
From S2P Require Import Prelude Memory ChunkTable BaseRanges Thermometer BumpArena ArenaWorld.

#[local] Open Scope m_scope.

Section ops.
Context `{EV : Env} `{MS : Mspace}.

(** ** The built-in provider *)

Definition pages_map_w (size : Z) : M Z :=
  let! mapped := env_call (fun e => os_map e size) in
  let! m := gets w_mem in
  let '(b, m) := pages_map mapped m size in
  modify (fun w => w_set_mem w m) ;;
  mret b.

Definition pages_unmap (buf size : Z) : M unit := env_do (fun e => os_unmap e buf size).

(** The first cache entry of exactly this size, and the list without it. *)
Fixpoint take_cached (size : Z) (l : list extent) : option (Z * list extent) :=
  match l with
  | [] => None
  | e :: l' =>
      if snd e =? size then Some (fst e, l')
      else match take_cached size l' with
           | Some (b, rest) => Some (b, e :: rest)
           | None => None
           end
  end.

Definition default_acquire (d size : Z) : M Z :=
  let! da := load_da d in
  match take_cached size (cache da) with
  | Some (b, rest) => store_da d (da_set_cache da rest) ;; mret b
  | None => pages_map_w size
  end.

Definition default_release (d block size : Z) : M unit :=
  let! ok := (if size =? JS_ARENA_REQ_EXTENT_DEFAULT then env_call node_alloc else mret false) in
  if negb ok then pages_unmap block size
  else
    let! da := load_da d in
    store_da d (da_set_cache da ((block, size) :: cache da)).

Fixpoint drain_loop (l : list extent) : M unit :=
  match l with
  | [] => mret tt
  | e :: l' => pages_unmap (fst e) (snd e) ;; drain_loop l'
  end.

Definition default_cache_drain (d : Z) : M unit :=
  let! da := load_da d in
  drain_loop (cache da) ;;
  store_da d (da_set_cache da []).

Definition prov_acquire (p : JSArenaChunkProvider) (size : Z) : M Z :=
  match p with
  | DefaultProvider d => default_acquire d size
  | HostProvider o => env_call (fun e => host_acquire e o size)
  end.

Definition prov_release (p : JSArenaChunkProvider) (block size : Z) : M unit :=
  match p with
  | DefaultProvider d => default_release d block size
  | HostProvider o => env_do (fun e => host_release e o block size)
  end.

(** ** Extents *)

(** The extent size asked for, [None] when even the exact need is over budget. *)
Definition extent_size (ra : JSRequestArena) (need : Z) : option Z :=
  let exact := pages_round env_pagesz need in
  let size := if exact <? JS_ARENA_REQ_EXTENT_DEFAULT then JS_ARENA_REQ_EXTENT_DEFAULT else exact in
  if cap ra <? u64 (held ra + size) then
    if cap ra <? u64 (held ra + exact) then None else Some exact
  else Some size.

(** The position of the new extent in the list, [None] for NULL. *)
Definition req_acquire (r need : Z) : M (option nat) :=
  let! ra := load_ra r in
  match extent_size ra need with
  | None => mret None
  | Some size =>
      let! ok := env_call node_alloc in
      if negb ok then mret None
      else
        let! b := prov_acquire (prov ra) size in
        if b =? 0 then mret None
        else
          lift (assert_ (Z.land b (JS_ARENA_CHUNK_SIZE - 1) =? 0)) ;;
          let! calloc_ok := env_call node_alloc in
          let! st := gets w_chunks in
          let! (rc, st) := lift (js_arena_register_request calloc_ok st b (b + size) r) in
          modify (fun w => w_set_chunks w st) ;;
          if rc <? 0 then prov_release (prov ra) b size ;; mret None
          else
            store_ra r (ra_set_extents ra (chunks ra ++ [(b, size)]) (extents ra + 1) (u64 (held ra + size))) ;;
            mret (Some (length (chunks ra)))
  end.

Definition req_release_chunk (r : Z) (c : extent) : M unit :=
  let! ra := load_ra r in
  let! st := gets w_chunks in
  let! st := lift (js_arena_unregister_request_range st (fst c) (fst c + snd c)) in
  modify (fun w => w_set_chunks w st) ;;
  prov_release (prov ra) (fst c) (snd c).

Fixpoint release_loop (r : Z) (l : list extent) : M unit :=
  match l with
  | [] => mret tt
  | c :: l' => req_release_chunk r c ;; release_loop r l'
  end.

Definition req_release_extents (r : Z) : M unit :=
  let! ra := load_ra r in
  release_loop r (tail (chunks ra)) ;;
  let! ra := load_ra r in
  store_ra r (ra_set_brk (match chunks ra with
    | h :: _ => ra_set_extents ra [h] 1 (snd h)
    | [] => ra_set_extents ra [] 0 0
    end) 0).

(** ** The bump path *)

Definition bump_fresh (floor : Z) : bump_state :=
  {| cur := 0; cursor := floor; bump_used := 0; b_last_ptr := 0; b_last_aligned := 0 |}.

Definition req_bump_reset (r : Z) : M unit :=
  let! ra := load_ra r in
  store_ra r (ra_set_bump ra (bump_fresh (ra_floor ra))).

(** [ra->cur], aborting on a dangling pointer. *)
Definition cur_extent (ra : JSRequestArena) : M extent :=
  match chunks ra !! cur (bump ra) with Some c => mret c | None => abort end.

(** The tail of [req_bump_alloc]: write the header, advance. *)
Definition bump_take (r size : Z) : M Z :=
  let! ra := load_ra r in
  let! c := cur_extent ra in
  let b := bump ra in
  let aligned := round_up ARENA_ALIGN size in
  let total := u64 (ARENA_HEADER_SIZE + aligned) in
  let header := fst c + cursor b in
  modify (fun w => w_set_mem w (store64 (w_mem w) header size)) ;;
  let user_ptr := header + ARENA_HEADER_SIZE in
  store_ra r (ra_set_bump ra {| cur := cur b; cursor := u64 (cursor b + total);
    bump_used := u64 (bump_used b + aligned); b_last_ptr := user_ptr; b_last_aligned := aligned |}) ;;
  mret user_ptr.

Definition req_bump_alloc (r size : Z) : M Z :=
  if size =? 0 then mret 0
  else
    let! ra := load_ra r in
    let aligned := round_up ARENA_ALIGN size in
    let total := u64 (ARENA_HEADER_SIZE + aligned) in
    let! c := cur_extent ra in
    if snd c <? u64 (cursor (bump ra) + total) then
      let! got := req_acquire r total in
      match got with
      | None => mret 0
      | Some i =>
          let! ra := load_ra r in
          let b := bump ra in
          store_ra r (ra_set_bump ra {| cur := i; cursor := 0; bump_used := bump_used b;
            b_last_ptr := b_last_ptr b; b_last_aligned := b_last_aligned b |}) ;;
          bump_take r size
      end
    else bump_take r size.

(** In-place resize of the last allocation to [aligned] bytes. *)
Definition bump_resize (r ptr size aligned cursor' used' : Z) : M Z :=
  let! ra := load_ra r in
  let b := bump ra in
  store_ra r (ra_set_bump ra {| cur := cur b; cursor := cursor'; bump_used := used';
    b_last_ptr := b_last_ptr b; b_last_aligned := aligned |}) ;;
  modify (fun w => w_set_mem w (arena_set_user_size (w_mem w) ptr size)) ;;
  mret ptr.

Definition bump_realloc_copy (r ptr size old_size : Z) : M Z :=
  let! np := req_bump_alloc r size in
  if np =? 0 then mret 0
  else
    modify (fun w => w_set_mem w (memcpy (w_mem w) np ptr (if size <? old_size then size else old_size))) ;;
    mret np.

Definition req_bump_realloc (r ptr size old_size : Z) : M Z :=
  let! ra := load_ra r in
  let b := bump ra in
  let aligned := round_up ARENA_ALIGN size in
  if ptr =? b_last_ptr b then
    let old_aligned := b_last_aligned b in
    if aligned <=? old_aligned then
      bump_resize r ptr size aligned (u64 (cursor b - (old_aligned - aligned)))
        (u64 (bump_used b - (old_aligned - aligned)))
    else
      let delta := aligned - old_aligned in
      let! c := cur_extent ra in
      if u64 (cursor b + delta) <=? snd c then
        bump_resize r ptr size aligned (u64 (cursor b + delta)) (u64 (bump_used b + delta))
      else bump_realloc_copy r ptr size old_size
  else bump_realloc_copy r ptr size old_size.

(** ** Lifecycle *)

Definition request_mode_apply (r : Z) : M unit :=
  let! ra := load_ra r in
  match chunks ra with
  | [h] =>
      let ra := ra_set_mode ra (mode_next ra) (mode_next ra) in
      match ra_mode ra with
      | JS_ARENA_REQ_MODE_GC =>
          let! m := gets w_mem in
          let '(ms, m) := create_mspace_with_base m (fst h + ra_floor ra) (snd h - ra_floor ra) in
          modify (fun w => w_set_mem w m) ;;
          match ms with
          | None => abort
          | Some _ => store_ra r (ra_set_msp ra ms 0)
          end
      | JS_ARENA_REQ_MODE_BUMP =>
          store_ra r (ra_set_msp ra None (used ra)) ;;
          req_bump_reset r
      end
  | _ => abort
  end.

Definition oom_clear (r : Z) : M unit :=
  let! ra := load_ra r in
  store_ra r (ra_set_oom ra oom_none).

(** [free(ra)]. *)
Definition free_ra (r : Z) : M unit :=
  modify (fun w => w_set_ras w (delete r (w_ras w))) ;;
  env_do (fun e => struct_free e r).

Definition js_request_arena_new (d request_cap : Z) (p : option JSArenaChunkProvider) : M Z :=
  let! r := env_call struct_alloc in
  if r =? 0 then mret 0
  else
    let request_cap := if request_cap =? 0 then ARENA_DEFAULT_SIZE else request_cap in
    let cap' := if request_cap =? SIZE_MAX then SIZE_MAX else pages_round env_pagesz request_cap in
    let floor' := ARENA_PREFIX_LEN + JS_ARENA_REQUEST_SLOT_SIZE in
    store_ra r {| ra_da := d; prov := match p with Some p => p | None => DefaultProvider d end;
      chunks := []; extents := 0; cap := cap'; held := 0; ra_floor := floor';
      bump := bump_fresh 0; brk := 0; msp := None; used := 0; oom := oom_none;
      ra_mode := JS_ARENA_REQ_MODE_GC; mode_next := JS_ARENA_REQ_MODE_GC |} ;;
    let head := if cap' <? JS_ARENA_REQ_EXTENT_DEFAULT then cap' else JS_ARENA_REQ_EXTENT_DEFAULT in
    let! got :=
      (if head <? floor' + ARENA_HEADER_SIZE + ARENA_ALIGN then mret None else req_acquire r head) in
    match got with
    | None => free_ra r ;; mret 0
    | Some _ =>
        let! ra := load_ra r in
        let! h := match chunks ra with h :: _ => mret h | [] => abort end in
        modify (fun w => w_set_mem w (memset (w_mem w) (fst h) 0 ARENA_PREFIX_LEN)) ;;
        req_bump_reset r ;;
        let! da := load_da d in
        (if decide (da_mode da = JS_ARENA_MODE_REQUEST) then request_mode_apply r else mret tt) ;;
        let! da := load_da d in
        store_da d (da_set_requests da (r :: requests da)) ;;
        mret r
    end.

(** Unlink the first occurrence. *)
Fixpoint unlink (r : Z) (l : list Z) : list Z :=
  match l with
  | [] => []
  | x :: l' => if x =? r then l' else x :: unlink r l'
  end.

Definition js_request_arena_free (r : Z) : M unit :=
  if r =? 0 then mret tt
  else
    let! ra := load_ra r in
    let d := ra_da ra in
    let! da := load_da d in
    let da := da_set_requests da (unlink r (requests da)) in
    store_da d (if da_cur da =? r then da_set_cur da 0 0 else da) ;;
    req_release_extents r ;;
    let! ra := load_ra r in
    match chunks ra with
    | h :: _ => req_release_chunk r h ;; store_ra r (ra_set_extents ra [] (extents ra) (held ra))
    | [] => mret tt
    end ;;
    let! calloc_ok := env_call node_alloc in
    let! st := gets w_chunks in
    let! st := lift (js_arena_unregister_request calloc_ok st r) in
    modify (fun w => w_set_chunks w st) ;;
    free_ra r.

Definition js_request_arena_dual (r : Z) : M Z := let! ra := load_ra r in mret (ra_da ra).

(** [ra->head->buf + ARENA_PREFIX_LEN]. *)
Definition js_request_arena_slot (r : Z) : M Z :=
  let! ra := load_ra r in
  match chunks ra with h :: _ => mret (fst h + ARENA_PREFIX_LEN) | [] => abort end.

Definition js_request_arena_reset (r : Z) : M unit :=
  req_release_extents r ;;
  let! ra := load_ra r in
  let! da := load_da (ra_da ra) in
  (if decide (da_mode da = JS_ARENA_MODE_REQUEST) then request_mode_apply r else req_bump_reset r) ;;
  oom_clear r.

Definition note_oom (r size : Z) : M unit :=
  let! ra := load_ra r in
  let! da := load_da (ra_da ra) in
  if negb (bool_decide (da_mode da = JS_ARENA_MODE_REQUEST)) || hit (oom ra) then mret tt
  else store_ra r (ra_set_oom ra
    {| hit := true; requested := size;
       oom_used := if decide (ra_mode ra = JS_ARENA_REQ_MODE_GC) then used ra else bump_used (bump ra);
       limit := if cap ra =? SIZE_MAX then SIZE_MAX else u64 (cap ra - ra_floor ra) |}).

Definition js_request_arena_oom_hit (r : Z) : M bool := let! ra := load_ra r in mret (hit (oom ra)).
Definition js_request_arena_oom_requested (r : Z) : M Z := let! ra := load_ra r in mret (requested (oom ra)).
Definition js_request_arena_oom_used (r : Z) : M Z := let! ra := load_ra r in mret (oom_used (oom ra)).
Definition js_request_arena_oom_limit (r : Z) : M Z := let! ra := load_ra r in mret (limit (oom ra)).

Definition js_request_arena_contains (r ptr : Z) : M bool :=
  let! st := gets w_chunks in
  let! o := lift (js_arena_ptr_request_owner st ptr) in
  mret (o =? r).

Definition js_request_arena_used (r : Z) : M Z :=
  let! ra := load_ra r in
  let! da := load_da (ra_da ra) in
  mret (if bool_decide (da_mode da = JS_ARENA_MODE_REQUEST) && bool_decide (ra_mode ra = JS_ARENA_REQ_MODE_GC)
        then used ra else bump_used (bump ra)).

Definition js_request_arena_held (r : Z) : M Z := let! ra := load_ra r in mret (held ra).
Definition js_request_arena_extents (r : Z) : M Z := let! ra := load_ra r in mret (extents ra).

(** ** Growth from inside dlmalloc *)

Definition js_arena_morecore (n : Z) : M Z :=
  let! r := gets morecore_ra in
  if r =? 0 then mret REQ_MFAIL
  else
    let! ra := load_ra r in
    if n =? 0 then mret (if brk ra =? 0 then REQ_MFAIL else brk ra)
    else if n <? 0 then mret REQ_MFAIL
    else
      let! got := req_acquire r n in
      match got with
      | None => mret REQ_MFAIL
      | Some i =>
          let! ra := load_ra r in
          match chunks ra !! i with
          | None => abort
          | Some c => store_ra r (ra_set_brk ra (fst c + snd c)) ;; mret (fst c)
          end
      end.

(** Running a dlmalloc call: it works on the memory and calls [MORECORE]. *)
Fixpoint run_mcall {R} (c : mcall (R * mem)) : M R :=
  match c with
  | MRet (a, m) => modify (fun w => w_set_mem w m) ;; mret a
  | MMore n m k =>
      modify (fun w => w_set_mem w m) ;;
      let! a := js_arena_morecore n in
      let! m := gets w_mem in
      run_mcall (k a m)
  end.
End ops.
