(* ===== verification/ArenaInvariant.v ===== *)
(** * The ownership invariant of the arenas

    A ghost map [own] says who holds each block obtained from the environment:
    a dual arena's base, a request arena (as one of its extents), or a dual
    arena's cache.  [wcore] states that the structs, the chunk set and the
    environment agree with it.  The lemmas show that acquiring and releasing
    extents preserve it, stay inside the budget and leave every held block's
    bytes alone. *)

From stdpp Require Import base list numbers gmap.
From Stdlib Require Import ZArith Lia.
From S2P Require Import Prelude Memory ChunkTable BaseRanges Thermometer BumpArena ArenaWorld.
From S2P Require Import RequestArena.

#[local] Open Scope m_scope.

(** ** Weakest preconditions *)

Section wp.
Context `{EV : Env} `{MS : Mspace}.

(** The call returns, and returns into [Q]. *)
Definition wp {A} (m : M A) (Q : A -> world -> Prop) (w : world) : Prop :=
  match m w with Done (a, w') => Q a w' | _ => False end.

Lemma wp_ret {A} (a : A) Q w : Q a w -> wp (mret a) Q w.
Proof. done. Qed.

Lemma wp_bind {A B} (m : M A) (f : A -> M B) Q w :
  wp m (fun a w' => wp (f a) Q w') w -> wp (mbind m f) Q w.
Proof. unfold wp, mbind. destruct (m w) as [[a w'] | |]; simpl; done. Qed.

Lemma wp_mono {A} (m : M A) (P Q : A -> world -> Prop) w :
  wp m P w -> (forall a w', P a w' -> Q a w') -> wp m Q w.
Proof. unfold wp. destruct (m w) as [[a w'] | |]; eauto. Qed.

Lemma wp_gets {A} (f : world -> A) Q w : Q (f w) w -> wp (gets f) Q w.
Proof. done. Qed.

Lemma wp_modify f Q w : Q tt (f w) -> wp (modify f) Q w.
Proof. done. Qed.

Lemma wp_load_ra r ra Q w : w_ras w !! r = Some ra -> Q ra w -> wp (load_ra r) Q w.
Proof. unfold wp, load_ra. by intros ->. Qed.

Lemma wp_load_da d da Q w : w_das w !! d = Some da -> Q da w -> wp (load_da d) Q w.
Proof. unfold wp, load_da. by intros ->. Qed.

Lemma wp_store_ra r ra Q w : Q tt (w_set_ras w (<[r := ra]> (w_ras w))) -> wp (store_ra r ra) Q w.
Proof. done. Qed.

Lemma wp_store_da d da Q w : Q tt (w_set_das w (<[d := da]> (w_das w))) -> wp (store_da d da) Q w.
Proof. done. Qed.

Lemma wp_lift {A} (r : run A) a Q w : r = Done a -> Q a w -> wp (lift r) Q w.
Proof. unfold wp, lift. intros ->. done. Qed.

Lemma wp_env_call {A} (f : env_state -> A * env_state) Q w :
  (forall a e, f (w_env w) = (a, e) -> Q a (w_set_env w e)) -> wp (env_call f) Q w.
Proof. unfold wp, env_call. destruct (f (w_env w)) as [a e] eqn:E. auto. Qed.

Lemma wp_env_do f Q w : Q tt (w_set_env w (f (w_env w))) -> wp (env_do f) Q w.
Proof. done. Qed.
End wp.

(** Run the monad up to the next call that needs a lemma. *)
Ltac wp_step :=
  match goal with
  | |- wp (mbind _ _) _ _ => apply wp_bind
  | |- wp (mret _) _ _ => apply wp_ret
  | |- wp (gets _) _ _ => apply wp_gets
  | |- wp (modify _) _ _ => apply wp_modify
  | |- wp (store_ra _ _) _ _ => apply wp_store_ra
  | |- wp (store_da _ _) _ _ => apply wp_store_da
  | |- wp (env_do _) _ _ => apply wp_env_do
  end; cbv beta.
Ltac wp_steps := repeat wp_step.

(** ** Ghost ownership *)

Inductive holder :=
  | HBase (d : Z)
  | HChunk (r : Z)
  | HCache (d : Z).

#[export] Instance holder_eq_dec : EqDecision holder.
Proof. solve_decision. Defined.

Definition is_chunk (h : holder) : bool := match h with HChunk _ => true | _ => false end.
Definition is_cache (h : holder) : bool := match h with HCache _ => true | _ => false end.

Abbreviation owners_map := (gmap extent holder).

Definition chunk_list (own : owners_map) : list extent :=
  (filter (fun bh => is_chunk bh.2 = true) (map_to_list own)).*1.
Definition chunk_total (own : owners_map) : Z := extents_total (chunk_list own).

#[export] Instance extents_total_proper : Proper ((≡ₚ) ==> (=)) extents_total.
Proof. intros l l' Hp. induction Hp; simpl; lia. Qed.

Lemma extents_total_app l l' : extents_total (l ++ l') = extents_total l + extents_total l'.
Proof. induction l as [| b l IH]; simpl; lia. Qed.

Lemma chunk_list_insert own b h :
  own !! b = None ->
  chunk_list (<[b := h]> own) ≡ₚ if is_chunk h then b :: chunk_list own else chunk_list own.
Proof.
  intros Hb. unfold chunk_list. rewrite map_to_list_insert by done. rewrite filter_cons. simpl.
  destruct (is_chunk h); simpl; done.
Qed.

Lemma chunk_total_insert own b h :
  own !! b = None ->
  chunk_total (<[b := h]> own) = (if is_chunk h then snd b else 0) + chunk_total own.
Proof.
  intros Hb. unfold chunk_total. rewrite (chunk_list_insert own b h Hb). by destruct (is_chunk h).
Qed.

Lemma chunk_total_delete own b h :
  own !! b = Some h ->
  chunk_total own = (if is_chunk h then snd b else 0) + chunk_total (delete b own).
Proof.
  intros Hb. rewrite <- (insert_delete_id own b h Hb) at 1.
  by rewrite chunk_total_insert by apply lookup_delete_eq.
Qed.

Lemma chunk_list_NoDup own : NoDup (chunk_list own).
Proof.
  unfold chunk_list. apply NoDup_fmap_fst; [| apply NoDup_filter, NoDup_map_to_list].
  intros b h1 h2 H1 H2. apply list_elem_of_filter in H1 as [_ H1], H2 as [_ H2].
  apply elem_of_map_to_list in H1, H2. congruence.
Qed.

Lemma chunk_list_elem own b : b ∈ chunk_list own -> exists h, own !! b = Some h.
Proof.
  unfold chunk_list. intros Hb. apply list_elem_of_fmap in Hb as ([b' h] & -> & Hb).
  apply list_elem_of_filter in Hb as [_ Hb]. apply elem_of_map_to_list in Hb. eauto.
Qed.

(** ** The invariant *)

Definition extent_ok (b : extent) : Prop :=
  0 < fst b /\ (4096 | fst b) /\ (4096 | snd b) /\ 0 < snd b /\ fst b + snd b < 2 ^ 62.

(** The base block of a dual arena, once mapped. *)
Definition base_of (da : JSDualArena) : option extent :=
  if buf (da_base da) =? 0 then None else Some (buf (da_base da), capacity (da_base da)).

Section inv.
Context `{EV : Env} `{EL : !EnvLaws} `{MS : Mspace}.

(** Extents and budget of one request arena. *)
Record ra_core (r : Z) (ra : JSRequestArena) : Prop := {
  rc_addr : 0 < r;
  rc_nodup : NoDup (chunks ra);
  rc_extents : extents ra = lenZ (chunks ra);
  rc_held : held ra = extents_total (chunks ra);
  rc_cap : held ra <= cap ra < 2 ^ 64;
  rc_floor : ra_floor ra = 528;
  rc_prov : prov ra = DefaultProvider (ra_da ra) \/ exists o, prov ra = HostProvider o
}.

(** [ras] is the logical view of the request arenas; between operations it is
    [w_ras w]. *)
Record wcore (own : owners_map) (ras : gmap Z JSRequestArena) (w : world) : Prop := {
  wi_out : forall b h, own !! b = Some h -> b ∈ outs (w_env w) /\ extent_ok b;
  wi_apart : forall b c hb hc, own !! b = Some hb -> own !! c = Some hc -> b <> c -> extents_apart b c;
  wi_chunk : forall b r, own !! b = Some (HChunk r) <-> exists ra, ras !! r = Some ra /\ b ∈ chunks ra;
  wi_cache : forall b d, own !! b = Some (HCache d) <-> exists da, w_das w !! d = Some da /\ b ∈ cache da;
  wi_base : forall b d, own !! b = Some (HBase d) <->
    exists da, w_das w !! d = Some da /\ base_of da = Some b;
  wi_nodup : forall d da, w_das w !! d = Some da -> NoDup (cache da);
  wi_wf : wf_set (w_chunks w);
  wi_owner : forall p r, 0 <= p -> r <> 0 ->
    owner_of (w_chunks w) p = r <-> exists b, own !! b = Some (HChunk r) /\ in_block p b;
  wi_count : js_arena_chunk_count (w_chunks w) * 4096 <= chunk_total own;
  wi_ras : forall r ra, ras !! r = Some ra -> ra_core r ra /\ is_Some (w_das w !! ra_da ra);
  wi_live : forall r, is_Some (ras !! r) \/ is_Some (w_das w !! r) -> r ∈ live_structs (w_env w)
}.

(** The dual arenas up to their caches. *)
Definition strip (da : JSDualArena) : JSDualArena := da_set_cache da [].
Definition das_sim (w w' : world) : Prop := strip <$> w_das w = strip <$> w_das w'.

Lemma das_sim_lookup w w' d da :
  das_sim w w' -> w_das w !! d = Some da ->
  exists da', w_das w' !! d = Some da' /\ strip da = strip da'.
Proof.
  unfold das_sim. intros Hs Hd. assert (Hf : (strip <$> w_das w) !! d = Some (strip da)) by (by rewrite lookup_fmap, Hd).
  rewrite Hs, lookup_fmap in Hf. destruct (w_das w' !! d) as [da' |] eqn:E; simpl in Hf; [| done].
  exists da'. split; [done | congruence].
Qed.

#[export] Instance das_sim_equiv : Equivalence das_sim.
Proof. unfold das_sim. split; [done | by intros ? ? -> | by intros ? ? ? -> ->]. Qed.

(** What acquiring or releasing memory does not touch. *)
Record quiet (own : owners_map) (w : world) (own' : owners_map) (w' : world) : Prop := {
  q_das : das_sim w w';
  q_ranges : w_ranges w' = w_ranges w;
  q_guard : w_guard w' = w_guard w;
  q_more : morecore_ra w' = morecore_ra w;
  q_live : live_structs (w_env w') = live_structs (w_env w);
  q_mem : forall b h, own !! b = Some h -> mem_agree (w_mem w) (w_mem w') (fst b) (fst b + snd b);
  q_own : forall b h, own !! b = Some h -> is_cache h = false -> own' !! b = Some h
}.

Lemma quiet_refl own w : quiet own w own w.
Proof. split; try done. Qed.

Lemma quiet_trans own1 w1 own2 w2 own3 w3 :
  quiet own1 w1 own2 w2 -> quiet own2 w2 own3 w3 ->
  (forall b h, own1 !! b = Some h -> is_cache h = true -> is_Some (own2 !! b) \/
     mem_agree (w_mem w2) (w_mem w3) (fst b) (fst b + snd b)) ->
  quiet own1 w1 own3 w3.
Proof.
  intros H1 H2 Hc. split; try (rewrite (q_ranges _ _ _ _ H2) || rewrite (q_guard _ _ _ _ H2) ||
    rewrite (q_more _ _ _ _ H2) || rewrite (q_live _ _ _ _ H2); apply H1).
  - etrans; [apply H1 | apply H2].
  - intros b h Hb. eapply mem_agree_trans; [by eapply H1 |]. destruct (is_cache h) eqn:E.
    + destruct (Hc b h Hb E) as [[h' Hb'] | Hm]; [by eapply H2 | done].
    + eapply H2. by eapply (q_own _ _ _ _ H1).
  - intros b h Hb E. eapply H2; [| done]. by eapply H1.
Qed.

(** *** Extents and rounding *)

Lemma pages_round_ok need :
  0 <= need < 2 ^ 61 ->
  need <= pages_round env_pagesz need < 2 ^ 61 + 2 ^ 40 /\ (4096 | pages_round env_pagesz need).
Proof.
  intros Hn. destruct (pages_round_spec env_pagesz need law_pagesz ltac:(lia)) as [[H1 H2] H3].
  split; [| done]. split; [done |].
  destruct law_pagesz as [(k & Hk & E) | E]; [| lia].
  assert (2 ^ k <= 2 ^ 39) by (apply Z.pow_le_mono_r; lia). lia.
Qed.

Lemma chunks_in_extent b size : (4096 | b) -> (4096 | size) -> chunks_in b (b + size) * 4096 = size.
Proof.
  intros [x ->] [y ->]. unfold chunks_in, JS_ARENA_CHUNK_SHIFT. rewrite !Z.shiftr_div_pow2 by lia.
  change (2 ^ 12) with 4096. rewrite <- Z.mul_add_distr_r, !Z.div_mul by lia. lia.
Qed.

Lemma divide_mod x : (4096 | x) -> x mod 4096 = 0.
Proof. intros H. by apply Z.mod_divide. Qed.

(** *** Moving blocks *)

(** A block we hold that no holder claims yet. *)
Definition detached (own : owners_map) (w : world) (b : extent) : Prop :=
  own !! b = None /\ b ∈ outs (w_env w) /\ extent_ok b /\
  forall c h, own !! c = Some h -> extents_apart b c.

(** The core reads only these parts of the world. *)
Lemma wcore_frame own ras w w' :
  wcore own ras w -> w_das w' = w_das w -> w_chunks w' = w_chunks w ->
  live_structs (w_env w') = live_structs (w_env w) ->
  (forall b h, own !! b = Some h -> b ∈ outs (w_env w')) ->
  wcore own ras w'.
Proof.
  intros [H1 H2 H3 H4 H5 H6 H7 H8 H9 H10 H11] Ed Ec El Ho.
  split; rewrite ?Ed, ?Ec, ?El; try done.
  intros b h Hb. split; [by eapply Ho | by eapply H1].
Qed.

Lemma apart_sym b c : extents_apart b c -> extents_apart c b.
Proof. unfold extents_apart. lia. Qed.

Lemma apart_ne b c : extents_apart b c -> extent_ok b -> b <> c.
Proof. intros Ha (_ & _ & _ & Hb & _) <-. unfold extents_apart in Ha. lia. Qed.

(** A block fresh from the environment is detached. *)
Lemma fresh_detached own ras w w' b size :
  wcore own ras w -> (4096 | size) -> 0 < size -> fresh_extent (outs (w_env w)) b size ->
  outs (w_env w') = (b, size) :: outs (w_env w) -> detached own w' (b, size).
Proof.
  intros Hw Hm Hs (F1 & F2 & F3 & F4) Ho.
  assert (Hok : extent_ok (b, size)) by (by split; [| split; [| split; [| split]]]).
  assert (Hap : forall c h, own !! c = Some h -> extents_apart (b, size) c).
  { intros c h Hc. destruct (wi_out _ _ _ Hw c h Hc) as [Hin _].
    exact (proj1 (Forall_forall _ _) F4 c Hin). }
  split; [| split; [rewrite Ho; by left | split; [done | done]]].
  destruct (own !! (b, size)) as [h |] eqn:E; [| done].
  exfalso. exact (apart_ne _ _ (Hap _ _ E) Hok eq_refl).
Qed.

Lemma pages_map_spec own ras w size :
  wcore own ras w -> (4096 | size) -> 0 < size ->
  wp (pages_map_w size) (fun b w' =>
    wcore own ras w' /\ quiet own w own w' /\ w_ras w' = w_ras w /\
    (b <> 0 -> detached own w' (b, size))) w.
Proof.
  intros Hw Hm Hs. unfold pages_map_w. wp_step. apply wp_env_call. intros b e He. wp_steps.
  destruct (law_map _ _ _ _ He) as [El Hc]. unfold pages_map. simpl.
  destruct (Z.eqb_spec b 0) as [-> | Hb]; wp_steps.
  - destruct Hc as [[_ Eo] | [(Hb & _) _]]; [| lia].
    split; [apply (wcore_frame own ras w); try done; intros b h Hb; simpl; rewrite Eo; by eapply Hw |].
    split; [by split | done].
  - destruct Hc as [[-> _] | [Hf Eo]]; [done |].
    assert (Hd : detached own (w_set_env w e) (b, size)) by (by eapply fresh_detached).
    split; [| split; [split; try done | split; [done |]]].
    + apply (wcore_frame own ras w); try done. intros c h Hc. simpl. rewrite Eo. right. by eapply Hw.
    + simpl. intros c h Hc. destruct Hd as (_ & _ & _ & Hap). specialize (Hap c h Hc).
      apply mem_agree_memset; [lia |]. unfold extents_apart in Hap. simpl in Hap. lia.
    + intros _. destruct Hd as (D1 & D2 & D3 & D4). by split.
Qed.

Lemma take_cached_spec size l :
  match take_cached size l with
  | Some (b, rest) => exists l1 l2, l = l1 ++ (b, size) :: l2 /\ rest = l1 ++ l2
  | None => True
  end.
Proof.
  induction l as [| e l IH]; simpl; [done |]. destruct (Z.eqb_spec (snd e) size) as [E | E].
  - exists [], l. destruct e as [b s]. simpl in *. by subst.
  - destruct (take_cached size l) as [[b rest] |]; [| done].
    destruct IH as (l1 & l2 & -> & ->). by exists (e :: l1), l2.
Qed.

(** Taking a block out of a cache detaches it. *)
Lemma uncache_spec own ras w d da l1 b l2 :
  wcore own ras w -> w_das w !! d = Some da -> cache da = l1 ++ b :: l2 ->
  let w' := w_set_das w (<[d := da_set_cache da (l1 ++ l2)]> (w_das w)) in
  wcore (delete b own) ras w' /\ quiet own w (delete b own) w' /\ detached (delete b own) w' b.
Proof.
  intros Hw Hd Hc w'.
  assert (Hob : own !! b = Some (HCache d)).
  { apply (wi_cache _ _ _ Hw). exists da. split; [done |]. rewrite Hc. set_solver. }
  pose proof (wi_nodup _ _ _ Hw d da Hd) as Hnd. rewrite Hc in Hnd.
  assert (Hbn : ~ (b ∈ l1 ++ l2) /\ NoDup (l1 ++ l2)).
  { rewrite <- Permutation_middle in Hnd. by apply NoDup_cons in Hnd. }
  assert (Hlook : forall d' da', w_das w' !! d' = Some da' ->
    exists da0, w_das w !! d' = Some da0 /\ strip da0 = strip da' /\
      (d' <> d /\ da' = da0 \/ d' = d /\ cache da' = l1 ++ l2 /\ da0 = da)).
  { simpl. intros d' da' H'. apply lookup_insert_Some in H' as [[<- <-] | [Hne H']].
    - exists da. split; [done |]. split; [done |]. right. done.
    - exists da'. split; [done |]. split; [done |]. left. done. }
  split; [split; simpl | split; [split; try done |]].
  - intros c h Hcc. apply lookup_delete_Some in Hcc as [_ Hcc]. by eapply Hw.
  - intros x y hx hy Hx Hy. apply lookup_delete_Some in Hx as [_ Hx], Hy as [_ Hy]. by eapply Hw.
  - intros x r. rewrite lookup_delete_Some, (wi_chunk _ _ _ Hw). split; [tauto |]. intros Hx.
    split; [| done]. intros <-. apply (wi_chunk _ _ _ Hw) in Hx. congruence.
  - intros x d'. rewrite lookup_delete_Some, (wi_cache _ _ _ Hw). split.
    + intros [Hne (da0 & H0 & Hx)]. destruct (decide (d' = d)) as [-> | Hdd].
      * exists (da_set_cache da (l1 ++ l2)). rewrite lookup_insert_eq. split; [done |]. simpl.
        simplify_eq. rewrite Hc in Hx. set_solver.
      * exists da0. rewrite lookup_insert_ne by done. done.
    + intros (da' & H' & Hx). destruct (Hlook d' da' H') as (da0 & H0 & _ & [[Hne ->] | (-> & E & ->)]).
      * split; [| by exists da0]. intros <-.
        assert (own !! b = Some (HCache d')) by (apply (wi_cache _ _ _ Hw); by exists da0). congruence.
      * split; [intros <-; rewrite E in Hx; tauto |]. exists da. split; [done |]. rewrite Hc.
        rewrite E in Hx. set_solver.
  - intros x d'. rewrite lookup_delete_Some, (wi_base _ _ _ Hw). split.
    + intros [_ (da0 & H0 & Hx)]. destruct (decide (d' = d)) as [-> | Hdd].
      * exists (da_set_cache da (l1 ++ l2)). rewrite lookup_insert_eq. split; [done |]. by simplify_eq.
      * exists da0. by rewrite lookup_insert_ne.
    + intros (da' & H' & Hx). destruct (Hlook d' da' H') as (da0 & H0 & Hs & _).
      assert (Eb : da_base da0 = da_base da') by (unfold strip, da_set_cache in Hs; congruence).
      assert (Hx' : base_of da0 = Some x) by (unfold base_of in *; by rewrite Eb).
      split; [| by exists da0]. intros <-.
      assert (own !! b = Some (HBase d')) by (apply (wi_base _ _ _ Hw); by exists da0). congruence.
  - intros d' da' H'. destruct (Hlook d' da' H') as (da0 & H0 & _ & [[Hne ->] | (-> & E & ->)]).
    + by eapply Hw.
    + rewrite E. apply Hbn.
  - apply Hw.
  - intros p r Hp Hr. rewrite (wi_owner _ _ _ Hw) by done. split.
    + intros (c & Hcc & Hin). exists c. split; [| done]. rewrite lookup_delete_ne; [done |]. congruence.
    + intros (c & Hcc & Hin). apply lookup_delete_Some in Hcc as [_ Hcc]. by exists c.
  - pose proof (wi_count _ _ _ Hw) as Hn. rewrite (chunk_total_delete own b _ Hob) in Hn. simpl in Hn. lia.
  - intros r ra Hr. destruct (wi_ras _ _ _ Hw r ra Hr) as [H1 H2]. split; [done |].
    destruct (decide (ra_da ra = d)) as [-> | Hne]; [rewrite lookup_insert_eq; eauto | by rewrite lookup_insert_ne].
  - intros r Hr. apply (wi_live _ _ _ Hw). destruct Hr as [Hr | [da' H']]; [by left |]. right.
    destruct (Hlook r da' H') as (da0 & H0 & _). eauto.
  - unfold das_sim. simpl. rewrite fmap_insert. change (strip (da_set_cache da (l1 ++ l2))) with (strip da).
    rewrite <- fmap_insert, insert_id by done. done.
  - intros c h Hcc Hh. rewrite lookup_delete_ne; [done |]. intros <-. rewrite Hob in Hcc. by simplify_eq.
  - destruct (wi_out _ _ _ Hw b _ Hob) as [Ho Hok]. split; [apply lookup_delete_eq |]. split; [done |].
    split; [done |]. intros c h Hcc. apply lookup_delete_Some in Hcc as [Hne Hcc]. by eapply Hw.
Qed.

Definition provider_ok (w : world) (p : JSArenaChunkProvider) : Prop :=
  match p with DefaultProvider d => is_Some (w_das w !! d) | HostProvider _ => True end.

Lemma ra_provider_ok own ras w r ra :
  wcore own ras w -> ras !! r = Some ra -> provider_ok w (prov ra).
Proof.
  intros Hw Hr. destruct (wi_ras _ _ _ Hw r ra Hr) as [Hc Hd].
  destruct (rc_prov _ _ Hc) as [-> | [o ->]]; done.
Qed.

Lemma prov_acquire_spec own ras w p size :
  wcore own ras w -> provider_ok w p -> (4096 | size) -> 0 < size ->
  wp (prov_acquire p size) (fun b w' => exists own',
    wcore own' ras w' /\ quiet own w own' w' /\ w_ras w' = w_ras w /\
    (b <> 0 -> detached own' w' (b, size))) w.
Proof.
  intros Hw Hp Hm Hs. destruct p as [d | o]; simpl.
  - destruct Hp as [da Hd]. unfold default_acquire. wp_step. apply (wp_load_da d da); [done |].
    pose proof (take_cached_spec size (cache da)) as Ht. destruct (take_cached size (cache da)) as [[b rest] |].
    + destruct Ht as (l1 & l2 & Hc & ->). wp_steps.
      destruct (uncache_spec own ras w d da l1 (b, size) l2 Hw Hd Hc) as (H1 & H2 & H3).
      by exists (delete (b, size) own).
    + eapply wp_mono; [by apply (pages_map_spec own ras w size) |]. intros b w' H'. by exists own.
  - apply wp_env_call. intros b e He. destruct (law_acquire _ _ _ _ _ He) as [El Hc]. exists own.
    assert (Hq : quiet own w own (w_set_env w e)) by (by split).
    destruct Hc as [[-> Eo] | [Hf Eo]].
    + split; [| done]. apply (wcore_frame own ras w); try done.
      intros c h Hcc. simpl. rewrite Eo. by eapply Hw.
    + split; [| split; [done | split; [done |]]].
      * apply (wcore_frame own ras w); try done. intros c h Hcc. simpl. rewrite Eo. right. by eapply Hw.
      * intros _. by eapply fresh_detached.
Qed.

(** Returning a detached block: to the system, to the embedder or to a cache. *)
Definition released (own : owners_map) (ras : gmap Z JSRequestArena) (w w' : world) : Prop :=
  exists own', wcore own' ras w' /\ quiet own w own' w' /\ w_mem w' = w_mem w /\ w_ras w' = w_ras w /\
    forall c h, own !! c = Some h -> own' !! c = Some h.

Lemma unmapped_spec own ras w b e :
  wcore own ras w -> detached own w b ->
  live_structs e = live_structs (w_env w) ->
  (forall x, x ∈ outs (w_env w) -> x <> b -> x ∈ outs e) ->
  released own ras w (w_set_env w e).
Proof.
  intros Hw (D1 & _ & D3 & D4) El Ho. exists own. split; [| by split].
  apply (wcore_frame own ras w); try done. intros c h Hc. apply Ho; [by eapply Hw |].
  intros ->. congruence.
Qed.

Lemma cached_spec own ras w d da b :
  wcore own ras w -> detached own w b -> w_das w !! d = Some da ->
  released own ras w (w_set_das w (<[d := da_set_cache da (b :: cache da)]> (w_das w))).
Proof.
  intros Hw (D1 & D2 & D3 & D4) Hd. exists (<[b := HCache d]> own).
  assert (Hne : forall c h, own !! c = Some h -> b <> c) by congruence.
  assert (Hkeep : forall c h, own !! c = Some h -> <[b := HCache d]> own !! c = Some h).
  { intros c h Hc. rewrite lookup_insert_ne; [done |]. by eapply Hne. }
  assert (Hcases : forall c h, <[b := HCache d]> own !! c = Some h ->
    (c = b /\ h = HCache d) \/ own !! c = Some h).
  { intros c h Hc. apply lookup_insert_Some in Hc as [[<- <-] | [_ Hc]]; auto. }
  split; [split; simpl | split; [split; try done |]].
  - intros c h Hc. destruct (Hcases c h Hc) as [[-> ->] | Hc']; [done | by eapply Hw].
  - intros x y hx hy Hx Hy Hxy. destruct (Hcases x hx Hx) as [[-> ->] | Hx'], (Hcases y hy Hy) as [[-> ->] | Hy'].
    + done.
    + by eapply D4.
    + apply apart_sym. by eapply D4.
    + by eapply Hw.
  - intros x r. rewrite <- (wi_chunk _ _ _ Hw). split.
    + intros Hx. destruct (Hcases _ _ Hx) as [[_ ?] | ?]; done.
    + apply Hkeep.
  - intros x d'. split.
    + intros Hx. destruct (Hcases _ _ Hx) as [[-> E] | Hx'].
      * injection E as ->. exists (da_set_cache da (b :: cache da)). rewrite lookup_insert_eq.
        split; [done | by left].
      * apply (wi_cache _ _ _ Hw) in Hx' as (da0 & H0 & Hx'). destruct (decide (d' = d)) as [-> | Hdd].
        -- exists (da_set_cache da (b :: cache da)). rewrite lookup_insert_eq. split; [done |].
           simplify_eq. by right.
        -- exists da0. by rewrite lookup_insert_ne.
    + intros (da' & H' & Hx). apply lookup_insert_Some in H' as [[<- <-] | [Hdd H']].
      * simpl in Hx. apply elem_of_cons in Hx as [-> | Hx]; [apply lookup_insert_eq |].
        apply Hkeep, (wi_cache _ _ _ Hw). by exists da.
      * apply Hkeep, (wi_cache _ _ _ Hw). by exists da'.
  - intros x d'. split.
    + intros Hx. destruct (Hcases _ _ Hx) as [[_ ?] | Hx']; [done |].
      apply (wi_base _ _ _ Hw) in Hx' as (da0 & H0 & Hx'). destruct (decide (d' = d)) as [-> | Hdd].
      * exists (da_set_cache da (b :: cache da)). rewrite lookup_insert_eq. by simplify_eq.
      * exists da0. by rewrite lookup_insert_ne.
    + intros (da' & H' & Hx). apply Hkeep, (wi_base _ _ _ Hw).
      apply lookup_insert_Some in H' as [[<- <-] | [Hdd H']]; eauto.
  - intros d' da' H'. apply lookup_insert_Some in H' as [[<- <-] | [Hdd H']]; [| by eapply Hw].
    simpl. constructor; [| by eapply Hw]. intros Hin.
    assert (own !! b = Some (HCache d)) by (apply (wi_cache _ _ _ Hw); by exists da). congruence.
  - apply Hw.
  - intros p r Hp Hr. rewrite (wi_owner _ _ _ Hw) by done. split.
    + intros (c & Hc & Hin). exists c. auto.
    + intros (c & Hc & Hin). destruct (Hcases _ _ Hc) as [[_ ?] | Hc']; [done |]. by exists c.
  - pose proof (wi_count _ _ _ Hw). rewrite chunk_total_insert by done. simpl. lia.
  - intros r ra Hr. destruct (wi_ras _ _ _ Hw r ra Hr) as [H1 H2]. split; [done |].
    destruct (decide (ra_da ra = d)) as [-> | Hdd]; [rewrite lookup_insert_eq; eauto | by rewrite lookup_insert_ne].
  - intros r Hr. apply (wi_live _ _ _ Hw). destruct Hr as [Hr | Hr]; [by left |]. right.
    destruct (decide (r = d)) as [-> | Hdd]; [by exists da | by rewrite lookup_insert_ne in Hr].
  - unfold das_sim. simpl. rewrite fmap_insert. change (strip (da_set_cache da (b :: cache da))) with (strip da).
    rewrite <- fmap_insert, insert_id by done. done.
  - intros c h Hc _. by apply Hkeep.
  - split; [done | split; [done | exact Hkeep]].
Qed.

Lemma prov_release_spec own ras w p b :
  wcore own ras w -> provider_ok w p -> detached own w b ->
  wp (prov_release p (fst b) (snd b)) (fun _ w' => released own ras w w') w.
Proof.
  intros Hw Hp Hd. destruct b as [b size]. simpl. destruct p as [d | o]; simpl.
  - unfold default_release. wp_step.
    assert (Hun : forall e, outs e = outs (w_env w) -> live_structs e = live_structs (w_env w) ->
      released own ras w (w_set_env w (os_unmap e b size))).
    { intros e Eo El. destruct (law_unmap e b size) as [H1 H2].
      apply (unmapped_spec own ras w (b, size)); try done; [by rewrite H1 |].
      intros x Hx Hne. apply H2; [by rewrite Eo | done]. }
    destruct (Z.eqb_spec size JS_ARENA_REQ_EXTENT_DEFAULT) as [Esz | Esz].
    + apply wp_env_call. intros ok e He. destruct (law_node _ _ _ He) as [Eo El].
      destruct ok; simpl.
      * destruct Hp as [da Hda]. wp_step. apply (wp_load_da d da); [done |]. wp_steps.
        destruct (cached_spec own ras (w_set_env w e) d da (b, size)) as (own' & H1 & H2 & H3 & H4 & H5); try done.
        -- apply (wcore_frame own ras w); try done. intros c h Hc. simpl. rewrite Eo. by eapply Hw.
        -- destruct Hd as (D1 & D2 & D3 & D4). split; [done |]. split; [simpl; by rewrite Eo | done].
        -- exists own'. split; [done |]. split; [| done]. destruct H2. by split; simpl in *; try congruence.
      * wp_steps. by apply Hun.
    + wp_steps. simpl. wp_steps. apply Hun; done.
  - wp_steps. destruct (law_release (w_env w) o b size) as [H1 H2].
    by apply (unmapped_spec own ras w (b, size)).
Qed.

(** *** Extents of a request arena *)

Definition ra_with (ra : JSRequestArena) (l : list extent) : JSRequestArena :=
  ra_set_extents ra l (lenZ l) (extents_total l).

Lemma extents_total_nonneg l : Forall extent_ok l -> 0 <= extents_total l.
Proof.
  induction 1 as [| b l (_ & _ & _ & Hb & _) _ IH]; simpl; lia.
Qed.

Lemma ra_chunks_ok own ras w r ra :
  wcore own ras w -> ras !! r = Some ra -> Forall extent_ok (chunks ra).
Proof.
  intros Hw Hr. apply Forall_forall. intros b Hb.
  apply (wi_out _ _ _ Hw b (HChunk r)), (wi_chunk _ _ _ Hw). by exists ra.
Qed.

(** What is held, with one more block, is within the environment's limit. *)
Lemma total_limit own ras w b :
  wcore own ras w -> detached own w b -> chunk_total own + snd b <= 2 ^ 42.
Proof.
  intros Hw (D1 & D2 & D3 & D4).
  pose proof (law_limit (w_env w) (b :: chunk_list own)) as Hl. simpl in Hl. unfold chunk_total.
  rewrite Z.add_comm. apply Hl.
  - constructor; [| apply chunk_list_NoDup]. intros Hin. destruct (chunk_list_elem own b Hin) as [h Hh]. congruence.
  - constructor; [done |]. apply Forall_forall. intros c Hc. destruct (chunk_list_elem own c Hc) as [h Hh].
    by eapply Hw.
Qed.

Lemma held_limit own ras w r ra : wcore own ras w -> ras !! r = Some ra -> 0 <= held ra <= 2 ^ 42.
Proof.
  intros Hw Hr. destruct (wi_ras _ _ _ Hw r ra Hr) as [Hc _]. rewrite (rc_held _ _ Hc). split.
  { by eapply extents_total_nonneg, ra_chunks_ok. }
  apply (law_limit (w_env w)); [apply Hc |]. apply Forall_forall. intros b Hb.
  apply (wi_out _ _ _ Hw b (HChunk r)), (wi_chunk _ _ _ Hw). by exists ra.
Qed.

(** Registering a detached block makes it an extent of the arena. *)
Lemma attach_spec own ras w r ra b st :
  wcore own ras w -> detached own w b -> ras !! r = Some ra -> held ra + snd b <= cap ra ->
  wf_set st -> js_arena_chunk_count st <= js_arena_chunk_count (w_chunks w) + chunks_in (fst b) (fst b + snd b) ->
  (forall p, 0 <= p -> owner_of st p =
     if (fst b <=? p) && (p <? fst b + snd b) then r else owner_of (w_chunks w) p) ->
  wcore (<[b := HChunk r]> own) (<[r := ra_with ra (chunks ra ++ [b])]> ras) (w_set_chunks w st).
Proof.
  intros Hw (D1 & D2 & D3 & D4) Hr Hcap Hst Hcnt Hown.
  destruct (wi_ras _ _ _ Hw r ra Hr) as [Hc Hda]. pose proof (rc_addr _ _ Hc) as Hr0.
  assert (Hkeep : forall c h, own !! c = Some h -> <[b := HChunk r]> own !! c = Some h).
  { intros c h Hcc. rewrite lookup_insert_ne; [done |]. congruence. }
  assert (Hcases : forall c h, <[b := HChunk r]> own !! c = Some h ->
    (c = b /\ h = HChunk r) \/ own !! c = Some h).
  { intros c h Hcc. apply lookup_insert_Some in Hcc as [[<- <-] | [_ Hcc]]; auto. }
  assert (Hbn : ~ (b ∈ chunks ra)).
  { intros Hin. assert (own !! b = Some (HChunk r)); [| congruence]. apply (wi_chunk _ _ _ Hw). by exists ra. }
  split; simpl.
  - intros c h Hcc. destruct (Hcases c h Hcc) as [[-> ->] | Hc']; [done | by eapply Hw].
  - intros x y hx hy Hx Hy Hxy. destruct (Hcases x hx Hx) as [[-> ->] | Hx'], (Hcases y hy Hy) as [[-> ->] | Hy'].
    + done.
    + by eapply D4.
    + apply apart_sym. by eapply D4.
    + by eapply Hw.
  - intros x r'. split.
    + intros Hx. destruct (Hcases _ _ Hx) as [[-> E] | Hx'].
      * injection E as ->. exists (ra_with ra (chunks ra ++ [b])). rewrite lookup_insert_eq.
        split; [done |]. simpl. set_solver.
      * apply (wi_chunk _ _ _ Hw) in Hx' as (ra0 & H0 & Hx'). destruct (decide (r' = r)) as [-> | Hne].
        -- exists (ra_with ra (chunks ra ++ [b])). rewrite lookup_insert_eq. split; [done |].
           simplify_eq. simpl. set_solver.
        -- exists ra0. by rewrite lookup_insert_ne.
    + intros (ra' & H' & Hx). apply lookup_insert_Some in H' as [[<- <-] | [Hne H']].
      * simpl in Hx. apply elem_of_app in Hx as [Hx | Hx].
        -- apply Hkeep, (wi_chunk _ _ _ Hw). by exists ra.
        -- apply list_elem_of_singleton in Hx as ->. apply lookup_insert_eq.
      * apply Hkeep, (wi_chunk _ _ _ Hw). by exists ra'.
  - intros x d. rewrite <- (wi_cache _ _ _ Hw). split; [| apply Hkeep].
    intros Hx. destruct (Hcases _ _ Hx) as [[_ ?] | ?]; done.
  - intros x d. rewrite <- (wi_base _ _ _ Hw). split; [| apply Hkeep].
    intros Hx. destruct (Hcases _ _ Hx) as [[_ ?] | ?]; done.
  - apply Hw.
  - done.
  - intros p r' Hp Hr'. rewrite Hown by done. destruct ((fst b <=? p) && (p <? fst b + snd b)) eqn:Hin.
    + b2p. split.
      * intros <-. exists b. split; [apply lookup_insert_eq | done].
      * intros (c & Hcc & Hpc). destruct (Hcases _ _ Hcc) as [[-> E] | Hc']; [congruence |].
        specialize (D4 c _ Hc'). unfold extents_apart, in_block in *. lia.
    + rewrite (wi_owner _ _ _ Hw) by done. split.
      * intros (c & Hcc & Hpc). exists c. auto.
      * intros (c & Hcc & Hpc). destruct (Hcases _ _ Hcc) as [[-> E] | Hc']; [| by exists c].
        unfold in_block in Hpc. bool_lia.
  - rewrite chunk_total_insert by done. simpl. pose proof (wi_count _ _ _ Hw).
    destruct D3 as (_ & E1 & E2 & _). pose proof (chunks_in_extent _ _ E1 E2). lia.
  - intros r' ra' H'. apply lookup_insert_Some in H' as [[<- <-] | [Hne H']]; [| by eapply Hw].
    split; [| done]. destruct Hc as [C1 C2 C3 C4 C5 C6 C7]. split; simpl; try done.
    + apply NoDup_app. split; [done |]. split; [| apply NoDup_singleton].
      intros x Hx Hx'. apply list_elem_of_singleton in Hx' as ->. done.
    + rewrite extents_total_app. simpl. lia.
  - intros r' Hr'. apply (wi_live _ _ _ Hw). destruct Hr' as [Hr' | Hr']; [| by right]. left.
    destruct (decide (r' = r)) as [-> | Hne]; [by exists ra | by rewrite lookup_insert_ne in Hr'].
Qed.

(** The size asked for covers the need and stays in the budget. *)
Lemma extent_size_spec ra need size :
  0 < need < 2 ^ 61 -> 0 <= held ra <= 2 ^ 42 -> extent_size ra need = Some size ->
  need <= size < 2 ^ 62 /\ (4096 | size) /\ held ra + size <= cap ra.
Proof.
  intros Hn Hh. unfold extent_size. destruct (pages_round_ok need ltac:(lia)) as [[R1 R2] R3].
  assert (HD : (4096 | JS_ARENA_REQ_EXTENT_DEFAULT)) by (by exists 64).
  change JS_ARENA_REQ_EXTENT_DEFAULT with 262144 in *.
  set (ex := pages_round env_pagesz need) in *.
  destruct (Z.ltb_spec ex 262144).
  - rewrite u64_small by lia. destruct (Z.ltb_spec (cap ra) (held ra + 262144)).
    + rewrite u64_small by lia. destruct (Z.ltb_spec (cap ra) (held ra + ex)); [done |].
      intros E. injection E as <-. split; [lia |]. split; [done | lia].
    + intros E. injection E as <-. split; [lia |]. split; [done | lia].
  - rewrite u64_small by lia. destruct (Z.ltb_spec (cap ra) (held ra + ex)); [done |].
    intros E. injection E as <-. split; [lia |]. split; [done | lia].
Qed.

Lemma quiet_env own w own' w' e :
  quiet own (w_set_env w e) own' w' -> live_structs e = live_structs (w_env w) -> quiet own w own' w'.
Proof. intros [] El. by split; simpl in *; try congruence. Qed.

(** The outcome of [req_acquire]. *)
Definition acquired (own : owners_map) (w : world) (r : Z) (ra : JSRequestArena) (need : Z)
    (got : option nat) (w' : world) : Prop :=
  exists own', wcore own' (w_ras w') w' /\ quiet own w own' w' /\
    match got with
    | None => w_ras w' = w_ras w
    | Some i => exists b, i = length (chunks ra) /\ need <= snd b /\ own' !! b = Some (HChunk r) /\
        (forall c h, own !! c = Some h -> is_cache h = false -> extents_apart b c) /\
        held ra + snd b <= cap ra /\
        w_ras w' = <[r := ra_with ra (chunks ra ++ [b])]> (w_ras w)
    end.

Lemma req_acquire_spec own w r ra need :
  wcore own (w_ras w) w -> w_ras w !! r = Some ra -> 0 < need < 2 ^ 61 ->
  wp (req_acquire r need) (acquired own w r ra need) w.
Proof.
  intros Hw Hr Hn. unfold req_acquire. wp_step. apply (wp_load_ra r ra); [done |].
  pose proof (held_limit _ _ _ _ _ Hw Hr) as Hh.
  destruct (extent_size ra need) as [size |] eqn:Hsz.
  2:{ wp_steps. exists own. split; [done |]. split; [apply quiet_refl | done]. }
  destruct (extent_size_spec ra need size Hn Hh Hsz) as ([S1 S2] & S3 & S4).
  wp_step. apply wp_env_call. intros ok e He. destruct (law_node _ _ _ He) as [Eo El].
  assert (Hw1 : wcore own (w_ras w) (w_set_env w e)).
  { apply (wcore_frame own _ w); try done. intros b h Hb. simpl. rewrite Eo. by eapply Hw. }
  destruct ok; simpl.
  2:{ wp_steps. exists own. split; [done |]. split; [| done]. eapply quiet_env; [apply quiet_refl | done]. }
  wp_step. eapply wp_mono.
  { apply (prov_acquire_spec own (w_ras w) _ (prov ra) size Hw1);
      [by eapply ra_provider_ok | done | lia]. }
  intros b w2 (own2 & Hw2 & Hq2 & Er2 & Hd2). simpl.
  apply quiet_env in Hq2; [| done].
  destruct (Z.eqb_spec b 0) as [_ | Hb0].
  { wp_steps. exists own2. rewrite Er2. done. }
  specialize (Hd2 Hb0). pose proof Hd2 as (D1 & D2 & (E1 & E2 & E3 & E4 & E5) & D4). simpl in *.
  wp_step. apply (wp_lift _ tt); [rewrite chunk_aligned; [done | by apply divide_mod] |].
  wp_step. apply wp_env_call. intros ok2 e2 He2. destruct (law_node _ _ _ He2) as [Eo2 El2]. wp_steps. simpl.
  pose proof (total_limit _ _ _ _ Hw2 Hd2) as Hlim. simpl in Hlim.
  pose proof (chunks_in_extent b size E2 E3) as Hci.
  destruct (register_request_spec ok2 (w_chunks w2) b (b + size) r) as (rc & st & Hreg & Hwf & Hcase).
  { apply Hw2. } { by apply divide_mod. } { apply divide_mod. by apply Z.divide_add_r. } { lia. } { lia. }
  { pose proof (wi_count _ _ _ Hw2). lia. }
  eapply wp_lift; [exact Hreg |]. simpl. wp_steps. simpl.
  assert (Hw3 : wcore own2 (w_ras w) (w_set_env w2 e2)).
  { apply (wcore_frame own2 _ w2); try done. intros c h Hc. simpl. rewrite Eo2. by eapply Hw2. }
  assert (Hd3 : detached own2 (w_set_env w2 e2) (b, size)).
  { split; [done |]. split; [simpl; by rewrite Eo2 | done]. }
  destruct Hcase as [(-> & Hcnt & Hown) | (-> & -> & _)].
  - simpl. wp_steps.
    pose proof (attach_spec own2 (w_ras w) (w_set_env w2 e2) r ra (b, size) st Hw3 Hd3 Hr S4 Hwf Hcnt Hown) as Hat.
    exists (<[(b, size) := HChunk r]> own2). simpl. rewrite Er2. simpl in Er2.
    destruct (wi_ras _ _ _ Hw r ra Hr) as [Hcr _].
    assert (Era : ra_set_extents ra (chunks ra ++ [(b, size)]) (extents ra + 1) (u64 (held ra + size))
                  = ra_with ra (chunks ra ++ [(b, size)])).
    { unfold ra_with. rewrite (rc_extents _ _ Hcr), u64_small by lia. rewrite (rc_held _ _ Hcr).
      rewrite extents_total_app. unfold lenZ. rewrite length_app. simpl. f_equal; lia. }
    rewrite Era. split; [| split].
    + destruct Hat as [A1 A2 A3 A4 A5 A6 A7 A8 A9 A10 A11]. by split.
    + destruct Hq2 as [Q1 Q2 Q3 Q4 Q5 Q6 Q7]. split; simpl; try done; try congruence.
      intros c h Hc Hh'. rewrite lookup_insert_ne; [by apply Q7 |]. intros <-.
      assert (own2 !! (b, size) = Some h) by (by apply Q7). congruence.
    + exists (b, size). split; [done |]. split; [done |]. split; [apply lookup_insert_eq |].
      split; [| done]. intros c h Hc Hh'. eapply D4. by eapply (q_own _ _ _ _ Hq2).
  - simpl. wp_step. eapply wp_mono.
    { apply (prov_release_spec own2 (w_ras w) (w_set_chunks (w_set_env w2 e2) (w_chunks w2)) (prov ra) (b, size)).
      - apply (wcore_frame own2 _ (w_set_env w2 e2)); try done. intros c h Hc. by eapply Hw3.
      - by eapply (ra_provider_ok own2 (w_ras w) (w_set_env w2 e2)).
      - done. }
    intros _ w4 (own4 & Hw4 & Hq4 & Em4 & Er4 & Hk4). simpl in *. wp_steps. exists own4.
    rewrite Er4, Er2. split; [done |]. split; [| done].
    destruct Hq2 as [Q1 Q2 Q3 Q4 Q5 Q6 Q7]. destruct Hq4 as [P1 P2 P3 P4 P5 P6 P7]. simpl in *.
    split; try congruence.
    + etrans; [exact Q1 | exact P1].
    + rewrite Em4. exact Q6.
    + intros c h Hc Hh'. apply Hk4. by apply Q7.
Qed.

(** *** Releasing extents *)

(** Unregistering an extent detaches it. *)
Lemma detach_spec own ras w r ra l1 c l2 st :
  wcore own ras w -> ras !! r = Some ra -> chunks ra = l1 ++ c :: l2 ->
  wf_set st ->
  js_arena_chunk_count st = js_arena_chunk_count (w_chunks w) - chunks_in (fst c) (fst c + snd c) ->
  (forall p, 0 <= p -> owner_of st p =
     if (fst c <=? p) && (p <? fst c + snd c) then 0 else owner_of (w_chunks w) p) ->
  wcore (delete c own) (<[r := ra_with ra (l1 ++ l2)]> ras) (w_set_chunks w st) /\
  detached (delete c own) (w_set_chunks w st) c.
Proof.
  intros Hw Hr Hl Hst Hcnt Hown. destruct (wi_ras _ _ _ Hw r ra Hr) as [Hc Hda].
  assert (Hoc : own !! c = Some (HChunk r)).
  { apply (wi_chunk _ _ _ Hw). exists ra. split; [done |]. rewrite Hl. set_solver. }
  destruct (wi_out _ _ _ Hw c _ Hoc) as [Hout Hok].
  pose proof (rc_nodup _ _ Hc) as Hnd. rewrite Hl in Hnd.
  assert (Hcn : ~ (c ∈ l1 ++ l2) /\ NoDup (l1 ++ l2)).
  { rewrite <- Permutation_middle in Hnd. by apply NoDup_cons in Hnd. }
  destruct Hcn as [Hcn Hnd'].
  split; [split; simpl |].
  - intros x h Hx. apply lookup_delete_Some in Hx as [_ Hx]. by eapply Hw.
  - intros x y hx hy Hx Hy. apply lookup_delete_Some in Hx as [_ Hx], Hy as [_ Hy]. by eapply Hw.
  - intros x r'. rewrite lookup_delete_Some, (wi_chunk _ _ _ Hw). split.
    + intros [Hne (ra0 & H0 & Hx)]. destruct (decide (r' = r)) as [-> | Hrr].
      * exists (ra_with ra (l1 ++ l2)). rewrite lookup_insert_eq. split; [done |]. simpl.
        simplify_eq. rewrite Hl in Hx. set_solver.
      * exists ra0. by rewrite lookup_insert_ne.
    + intros (ra' & H' & Hx). apply lookup_insert_Some in H' as [[<- <-] | [Hrr H']].
      * simpl in Hx. split; [intros <-; done |]. exists ra. split; [done |]. rewrite Hl. set_solver.
      * split; [| by exists ra']. intros <-.
        assert (own !! c = Some (HChunk r')) by (apply (wi_chunk _ _ _ Hw); by exists ra'). congruence.
  - intros x d. rewrite lookup_delete_Some, <- (wi_cache _ _ _ Hw). split; [tauto |].
    intros Hx. split; [congruence | done].
  - intros x d. rewrite lookup_delete_Some, <- (wi_base _ _ _ Hw). split; [tauto |].
    intros Hx. split; [congruence | done].
  - apply Hw.
  - done.
  - intros p r' Hp Hr'. rewrite Hown by done. destruct ((fst c <=? p) && (p <? fst c + snd c)) eqn:Hin.
    + b2p. split; [congruence |]. intros (x & Hx & Hpx). apply lookup_delete_Some in Hx as [Hne Hx].
      pose proof (wi_apart _ _ _ Hw _ _ _ _ Hoc Hx Hne). unfold extents_apart, in_block in *. lia.
    + rewrite (wi_owner _ _ _ Hw) by done. split.
      * intros (x & Hx & Hpx). exists x. split; [| done]. rewrite lookup_delete_ne; [done |].
        intros <-. unfold in_block in Hpx. bool_lia.
      * intros (x & Hx & Hpx). apply lookup_delete_Some in Hx as [_ Hx]. by exists x.
  - rewrite Hcnt. pose proof (wi_count _ _ _ Hw) as Hn. rewrite (chunk_total_delete own c _ Hoc) in Hn.
    simpl in Hn. destruct Hok as (_ & E1 & E2 & _). pose proof (chunks_in_extent _ _ E1 E2). lia.
  - intros r' ra' H'. apply lookup_insert_Some in H' as [[<- <-] | [Hne H']]; [| by eapply Hw].
    split; [| done]. destruct Hc as [C1 C2 C3 C4 C5 C6 C7]. split; simpl; try done.
    rewrite C4, Hl, !extents_total_app in C5. simpl in C5. rewrite extents_total_app.
    destruct Hok as (_ & _ & _ & H0 & _). lia.
  - intros r' Hr'. apply (wi_live _ _ _ Hw). destruct Hr' as [Hr' | Hr']; [| by right]. left.
    destruct (decide (r' = r)) as [-> | Hne]; [by exists ra | by rewrite lookup_insert_ne in Hr'].
  - split; [apply lookup_delete_eq |]. split; [done |]. split; [done |].
    intros x h Hx. apply lookup_delete_Some in Hx as [Hne Hx]. by eapply (wi_apart _ _ _ Hw).
Qed.

(** The effect of giving extents back: no byte changes, the remaining blocks
    keep their holders. *)
Record gave_back (own : owners_map) (w : world) (own' : owners_map) (w' : world) (gone : list extent) : Prop := {
  gb_das : das_sim w w';
  gb_ranges : w_ranges w' = w_ranges w;
  gb_guard : w_guard w' = w_guard w;
  gb_more : morecore_ra w' = morecore_ra w;
  gb_live : live_structs (w_env w') = live_structs (w_env w);
  gb_mem : w_mem w' = w_mem w;
  gb_ras : w_ras w' = w_ras w;
  gb_own : forall b h, own !! b = Some h -> ~ (b ∈ gone) -> own' !! b = Some h
}.

Lemma gave_back_nil own w : gave_back own w own w [].
Proof. by split. Qed.

Lemma gave_back_trans own1 w1 own2 w2 own3 w3 l l' :
  gave_back own1 w1 own2 w2 l -> gave_back own2 w2 own3 w3 l' -> gave_back own1 w1 own3 w3 (l ++ l').
Proof.
  intros [A1 A2 A3 A4 A5 A6 A7 A8] [B1 B2 B3 B4 B5 B6 B7 B8]. split; try congruence.
  - intros b h Hb Hn. apply B8; [apply A8; [done |] |]; set_solver.
Qed.

Lemma req_release_chunk_spec own ras w r ra ra0 l1 c l2 :
  wcore own ras w -> ras !! r = Some ra -> chunks ra = l1 ++ c :: l2 ->
  w_ras w !! r = Some ra0 -> prov ra0 = prov ra ->
  wp (req_release_chunk r c) (fun _ w' => exists own',
    wcore own' (<[r := ra_with ra (l1 ++ l2)]> ras) w' /\ gave_back own w own' w' [c]) w.
Proof.
  intros Hw Hr Hl Hr0 Hp. unfold req_release_chunk. wp_step. apply (wp_load_ra r ra0); [done |]. wp_steps.
  assert (Hoc : own !! c = Some (HChunk r)).
  { apply (wi_chunk _ _ _ Hw). exists ra. split; [done |]. rewrite Hl. set_solver. }
  destruct (wi_out _ _ _ Hw c _ Hoc) as [Hout (K1 & K2 & K3 & K4 & K5)].
  destruct (wi_ras _ _ _ Hw r ra Hr) as [Hcr _]. pose proof (rc_addr _ _ Hcr) as Hr0'.
  destruct (unregister_range_spec (w_chunks w) (fst c) (fst c + snd c)) as (st & Hun & Hwf & _ & Hown & Hcnt).
  { apply Hw. } { by apply divide_mod. } { apply divide_mod. by apply Z.divide_add_r. } { lia. } { lia. }
  specialize (Hcnt ltac:(intros p Hp'; assert (owner_of (w_chunks w) p = r) as ->; [| lia];
    apply (wi_owner _ _ _ Hw); [lia | lia |]; by exists c)).
  eapply wp_lift; [exact Hun |]. wp_steps.
  destruct (detach_spec own ras w r ra l1 c l2 st Hw Hr Hl Hwf Hcnt Hown) as [Hw1 Hd1].
  rewrite Hp. eapply wp_mono.
  { apply (prov_release_spec (delete c own) (<[r := ra_with ra (l1 ++ l2)]> ras) (w_set_chunks w st)); try done.
    by eapply (ra_provider_ok own ras w). }
  intros _ w' (own' & Hw' & Hq & Em & Er & Hk). exists own'. split; [done |].
  destruct Hq as [Q1 Q2 Q3 Q4 Q5 Q6 Q7]. simpl in *. split; try done.
  intros b h Hb Hn. apply Hk. rewrite lookup_delete_ne; [done |]. set_solver.
Qed.

Lemma ra_with_with ra l l' : ra_with (ra_with ra l) l' = ra_with ra l'.
Proof. done. Qed.

Lemma release_loop_spec l own ras w r ra ra0 h :
  wcore own ras w -> ras !! r = Some ra -> chunks ra = h ++ l ->
  w_ras w !! r = Some ra0 -> prov ra0 = prov ra ->
  wp (release_loop r l) (fun _ w' => exists own',
    wcore own' (<[r := ra_with ra h]> ras) w' /\ gave_back own w own' w' l) w.
Proof.
  revert own ras w ra. induction l as [| c l IH]; intros own ras w ra Hw Hr Hl Hr0 Hp; simpl.
  - wp_steps. exists own. split; [| apply gave_back_nil].
    rewrite app_nil_r in Hl. destruct (wi_ras _ _ _ Hw r ra Hr) as [[C1 C2 C3 C4 C5 C6 C7] _].
    assert (E : ra_with ra h = ra).
    { unfold ra_with, ra_set_extents. rewrite <- Hl, <- C3, <- C4. by destruct ra. }
    by rewrite E, insert_id.
  - wp_step. eapply wp_mono; [by apply (req_release_chunk_spec own ras w r ra ra0 h c l) |].
    intros _ w1 (own1 & Hw1 & Hg1). simpl.
    pose proof (gb_ras _ _ _ _ _ Hg1) as Er.
    eapply wp_mono.
    { apply (IH own1 (<[r := ra_with ra (h ++ l)]> ras) w1 (ra_with ra (h ++ l))); try done.
      - apply lookup_insert_eq.
      - by rewrite Er. }
    intros _ w2 (own2 & Hw2 & Hg2). exists own2. rewrite insert_insert_eq, ra_with_with in Hw2.
    split; [done |]. by apply (gave_back_trans own w own1 w1 own2 w2 [c] l).
Qed.

(** Changing fields of a request arena the core does not read. *)
Lemma wcore_update own ras w w' r ra ra' :
  wcore own ras w -> ras !! r = Some ra -> ra_core r ra' -> chunks ra' = chunks ra -> ra_da ra' = ra_da ra ->
  w_das w' = w_das w -> w_chunks w' = w_chunks w -> w_env w' = w_env w ->
  wcore own (<[r := ra']> ras) w'.
Proof.
  intros [H1 H2 H3 H4 H5 H6 H7 H8 H9 H10 H11] Hr Hc El Ed Ea Eb Ec.
  split; rewrite ?Ea, ?Eb, ?Ec; try done.
  - intros b r'. rewrite H3. split; intros (ra0 & H0 & Hb).
    + destruct (decide (r' = r)) as [-> | Hne].
      * exists ra'. rewrite lookup_insert_eq. simplify_eq. by rewrite El.
      * exists ra0. by rewrite lookup_insert_ne.
    + apply lookup_insert_Some in H0 as [[<- <-] | [Hne H0]]; [exists ra; by rewrite <- El | by exists ra0].
  - intros r' ra0 H0. apply lookup_insert_Some in H0 as [[<- <-] | [Hne H0]]; [| by apply H10].
    split; [done |]. rewrite Ed. by eapply H10.
  - intros r' [Hr' | Hr']; [| by apply H11; right]. apply H11. left.
    destruct (decide (r' = r)) as [-> | Hne]; [by exists ra | by rewrite lookup_insert_ne in Hr'].
Qed.

Lemma req_release_extents_spec own w r ra h l :
  wcore own (w_ras w) w -> w_ras w !! r = Some ra -> chunks ra = h :: l ->
  wp (req_release_extents r) (fun _ w' => exists own' w1,
    w' = w_set_ras w1 (<[r := ra_set_brk (ra_with ra [h]) 0]> (w_ras w)) /\
    wcore own' (w_ras w') w' /\ gave_back own w own' w1 l) w.
Proof.
  intros Hw Hr Hl. unfold req_release_extents. wp_step. apply (wp_load_ra r ra); [done |].
  rewrite Hl. simpl. wp_step. eapply wp_mono.
  { by apply (release_loop_spec l own (w_ras w) w r ra ra [h]). }
  intros _ w1 (own1 & Hw1 & Hg1). simpl. pose proof (gb_ras _ _ _ _ _ Hg1) as Er.
  wp_step. apply (wp_load_ra r ra); [by rewrite Er |]. wp_steps. rewrite Hl, Er.
  exists own1, w1. split; [unfold ra_with; simpl; by rewrite Z.add_0_r |].
  split; [| done]. simpl.
  assert (Hu : wcore own1 (<[r := ra_set_brk (ra_with ra [h]) 0]> (<[r := ra_with ra [h]]> (w_ras w)))
    (w_set_ras w1 (<[r := ra_set_brk (ra_with ra [h]) 0]> (w_ras w)))).
  { apply (wcore_update _ _ w1 _ _ (ra_with ra [h])); try done.
    - apply lookup_insert_eq.
    - destruct (wi_ras _ _ _ Hw1 r (ra_with ra [h]) ltac:(apply lookup_insert_eq)) as [[C1 C2 C3 C4 C5 C6 C7] _].
      by split. }
  rewrite insert_insert_eq in Hu. unfold ra_with in *. simpl in *. by rewrite Z.add_0_r in *.
Qed.
End inv.
