(* ===== verification/DualArena.v ===== *)
(** * The dual arena and its allocator hooks (qjs-arena.c)

    [js_dual_arena_new2] .. [jda_usable_size]: creation, freeze, request
    selection, and the five [JSMallocFunctions] hooks the engine allocates
    through.  Base mode bumps the base arena; request mode serves new memory
    from the selected request arena and classifies every pointer it is given by
    owner. *)

From stdpp Require Import base list numbers gmap.
From Stdlib Require Import ZArith Lia.
From S2P Require Import Prelude Memory ChunkTable BaseRanges Thermometer BumpArena ArenaWorld.
From S2P Require Import RequestArena.

#[local] Open Scope m_scope.

Section ops.
Context `{EV : Env} `{MS : Mspace}.

(** ** Selection *)

Definition js_dual_arena_select_request (d r : Z) : M unit :=
  (if r =? 0 then mret tt
   else let! ra := load_ra r in lift (assert_ (ra_da ra =? d))) ;;
  let! cell := (if r =? 0 then mret 0 else js_request_arena_slot r) in
  let! da := load_da d in
  store_da d (da_set_cur da r cell).

Definition js_dual_arena_current_request (d : Z) : M Z := let! da := load_da d in mret (da_cur da).
Definition js_dual_arena_state_cell (d : Z) : M Z := let! da := load_da d in mret (state_cell da).

(** ** Creation and teardown *)

(** [arena_init(&da->base, size)]. *)
Definition base_init (d size : Z) : M Z :=
  let! da := load_da d in
  let cap := pages_round env_pagesz (if size =? 0 then ARENA_DEFAULT_SIZE else size) in
  let! mapped :=
    (if cap <? ARENA_PREFIX_LEN + ARENA_HEADER_SIZE + ARENA_ALIGN then mret 0
     else env_call (fun e => os_map e cap)) in
  let! m := gets w_mem in
  let '(rc, a, m) := arena_init env_pagesz mapped (da_base da) m size in
  modify (fun w => w_set_mem w m) ;;
  store_da d (da_set_base da a) ;;
  mret rc.

(** [arena_destroy(&da->base)]. *)
Definition arena_destroy (d : Z) : M unit :=
  let! da := load_da d in
  (if buf (da_base da) =? 0 then mret tt else pages_unmap (buf (da_base da)) (capacity (da_base da))) ;;
  store_da d (da_set_base da arena_zero).

Definition free_da (d : Z) : M unit :=
  modify (fun w => w_set_das w (delete d (w_das w))) ;;
  env_do (fun e => struct_free e d).

Definition js_dual_arena_new2 (base_size request_cap : Z) (p : option JSArenaChunkProvider) : M Z :=
  let! d := env_call struct_alloc in
  if d =? 0 then mret 0
  else
    store_da d {| da_base := arena_zero; da_mode := JS_ARENA_MODE_BASE; da_cur := 0; requests := [];
                  state_cell := 0; cache := [] |} ;;
    let! rc := base_init d base_size in
    if rc <? 0 then free_da d ;; mret 0
    else
      let! r := js_request_arena_new d request_cap p in
      if r =? 0 then arena_destroy d ;; free_da d ;; mret 0
      else js_dual_arena_select_request d r ;; mret d.

Definition js_dual_arena_new (base_size request_cap : Z) : M Z := js_dual_arena_new2 base_size request_cap None.

(** [while (da->requests) js_request_arena_free(da->requests);] *)
Fixpoint free_requests_loop (n : nat) (d : Z) : M unit :=
  match n with
  | O => mret tt
  | S n' =>
      let! da := load_da d in
      match requests da with
      | [] => mret tt
      | r :: _ => js_request_arena_free r ;; free_requests_loop n' d
      end
  end.

Definition js_dual_arena_free (d : Z) : M unit :=
  if d =? 0 then mret tt
  else
    let! da := load_da d in
    let lo := buf (da_base da) in
    let hi := lo + capacity (da_base da) in
    modify (fun w => w_set_guard w (js_arena_thermometer_disable_range (w_guard w) lo hi)) ;;
    modify (fun w => w_set_guard w (snd (js_dual_arena_unharden (env_os (w_env w)) (w_guard w) lo
                                          (capacity (da_base da))))) ;;
    modify (fun w => w_set_ranges w (js_arena_unregister_base (w_ranges w) lo hi)) ;;
    free_requests_loop (length (requests da)) d ;;
    default_cache_drain d ;;
    arena_destroy d ;;
    free_da d.

(** ** Freeze and reset *)

Fixpoint mode_apply_all (l : list Z) : M unit :=
  match l with
  | [] => mret tt
  | r :: l' => request_mode_apply r ;; mode_apply_all l'
  end.

(** The result of [js_arena_register_base] is dropped, as in the code. *)
Definition js_dual_arena_freeze (d : Z) : M unit :=
  let! da := load_da d in
  store_da d (da_set_mode da JS_ARENA_MODE_REQUEST) ;;
  mode_apply_all (requests da) ;;
  modify (fun w => w_set_ranges w (snd (js_arena_register_base (w_ranges w) (buf (da_base da))
                                         (buf (da_base da) + capacity (da_base da))))).

Definition js_dual_arena_set_request_mode (d : Z) (md : JSArenaReqMode) : M unit :=
  let! da := load_da d in
  if da_cur da =? 0 then mret tt
  else
    let! ra := load_ra (da_cur da) in
    store_ra (da_cur da) (ra_set_mode ra (ra_mode ra) md).

Definition js_dual_arena_request_mode (d : Z) : M JSArenaReqMode :=
  let! da := load_da d in
  if da_cur da =? 0 then mret JS_ARENA_REQ_MODE_GC
  else let! ra := load_ra (da_cur da) in mret (ra_mode ra).

Definition js_dual_arena_reset_request (d : Z) : M unit :=
  let! da := load_da d in
  if da_cur da =? 0 then mret tt else js_request_arena_reset (da_cur da).

(** The request calls that act on the selected arena, [dflt] when none is. *)
Definition on_current {A} (d : Z) (dflt : A) (f : Z -> M A) : M A :=
  let! da := load_da d in
  if da_cur da =? 0 then mret dflt else f (da_cur da).

Definition js_dual_arena_oom_hit (d : Z) : M bool := on_current d false js_request_arena_oom_hit.
Definition js_dual_arena_oom_requested (d : Z) : M Z := on_current d 0 js_request_arena_oom_requested.
Definition js_dual_arena_oom_used (d : Z) : M Z := on_current d 0 js_request_arena_oom_used.
Definition js_dual_arena_oom_limit (d : Z) : M Z := on_current d 0 js_request_arena_oom_limit.
Definition js_dual_arena_request_slot (d : Z) : M Z := on_current d 0 js_request_arena_slot.
Definition js_dual_arena_request_used (d : Z) : M Z := on_current d 0 js_request_arena_used.
Definition js_dual_arena_request_held (d : Z) : M Z := on_current d 0 js_request_arena_held.
Definition js_dual_arena_request_extents (d : Z) : M Z := on_current d 0 js_request_arena_extents.

Definition js_dual_arena_is_frozen (d : Z) : M bool :=
  let! da := load_da d in mret (bool_decide (da_mode da = JS_ARENA_MODE_REQUEST)).

Definition js_dual_arena_in_base (d ptr : Z) : M bool :=
  let! da := load_da d in mret (arena_contains (da_base da) ptr).

Definition js_dual_arena_in_request (d ptr : Z) : M bool :=
  let! st := gets w_chunks in
  let! o := lift (js_arena_ptr_request_owner st ptr) in
  if o =? 0 then mret false
  else let! ra := load_ra o in mret (ra_da ra =? d).

Definition js_dual_arena_base_used (d : Z) : M Z :=
  let! da := load_da d in
  let! m := gets w_mem in
  mret (u64 (arena_cursor (da_base da) m - ARENA_PREFIX_LEN)).

(** ** Allocator hooks *)

(** Usable size of a pointer owned by request arena [owner], or by none. *)
Definition req_ptr_size (owner ptr : Z) : M Z :=
  let! m := gets w_mem in
  if owner =? 0 then mret (arena_user_size m ptr)
  else
    let! ra := load_ra owner in
    mret (match ra_mode ra with
          | JS_ARENA_REQ_MODE_GC => mspace_usable_size m ptr
          | JS_ARENA_REQ_MODE_BUMP => arena_user_size m ptr
          end).

Definition base_alloc (d size : Z) : M Z :=
  let! da := load_da d in
  let! m := gets w_mem in
  let '(p, a, m) := arena_alloc (da_base da) m size in
  modify (fun w => w_set_mem w m) ;;
  store_da d (da_set_base da a) ;;
  mret p.

(** A call on the arena's mspace, run with [morecore_ra] parked, and the new
    mspace stored back. *)
Definition with_mspace (r : Z) (f : mspace -> mem -> mcall (Z * mspace * mem)) : M Z :=
  modify (fun w => w_set_morecore w r) ;;
  let! ra := load_ra r in
  match msp ra with
  | None => abort
  | Some ms =>
      let! m := gets w_mem in
      let! (p, ms) := run_mcall (f ms m) in
      let! ra := load_ra r in
      store_ra r (ra_set_msp ra (Some ms) (used ra)) ;;
      mret p
  end.

Definition add_used (r n : Z) : M unit :=
  let! ra := load_ra r in
  store_ra r (ra_set_msp ra (msp ra) (u64 (used ra + n))).

(** Account a successful allocation, or note a refused one. *)
Definition settle (r p requested : Z) : M Z :=
  if p =? 0 then note_oom r requested ;; mret p
  else
    let! m := gets w_mem in
    add_used r (mspace_usable_size m p) ;;
    mret p.

Definition jda_calloc (d count size : Z) : M Z :=
  if (count =? 0) || (size =? 0) then mret 0
  else if SIZE_MAX / size <? count then mret 0
  else
    let total := count * size in
    let! da := load_da d in
    match da_mode da with
    | JS_ARENA_MODE_BASE =>
        let! p := base_alloc d total in
        (if p =? 0 then mret tt else modify (fun w => w_set_mem w (memset (w_mem w) p 0 total))) ;;
        mret p
    | JS_ARENA_MODE_REQUEST =>
        let r := da_cur da in
        if r =? 0 then mret 0
        else
          let! ra := load_ra r in
          match ra_mode ra with
          | JS_ARENA_REQ_MODE_BUMP =>
              let! p := req_bump_alloc r total in
              (if p =? 0 then note_oom r total
               else modify (fun w => w_set_mem w (memset (w_mem w) p 0 total))) ;;
              mret p
          | JS_ARENA_REQ_MODE_GC =>
              let! p := with_mspace r (fun ms m => mspace_calloc ms m count size) in
              settle r p total
          end
    end.

Definition jda_malloc (d size : Z) : M Z :=
  let! da := load_da d in
  match da_mode da with
  | JS_ARENA_MODE_BASE => base_alloc d size
  | JS_ARENA_MODE_REQUEST =>
      let r := da_cur da in
      if r =? 0 then mret 0
      else
        let! ra := load_ra r in
        match ra_mode ra with
        | JS_ARENA_REQ_MODE_BUMP =>
            let! p := req_bump_alloc r size in
            (if p =? 0 then note_oom r size else mret tt) ;;
            mret p
        | JS_ARENA_REQ_MODE_GC =>
            let! p := with_mspace r (fun ms m => mspace_malloc ms m size) in
            settle r p size
        end
  end.

Definition jda_free (d ptr : Z) : M unit :=
  let! da := load_da d in
  if (ptr =? 0) || bool_decide (da_mode da = JS_ARENA_MODE_BASE) then mret tt
  else
    let! st := gets w_chunks in
    let! o := lift (js_arena_ptr_request_owner st ptr) in
    if o =? 0 then mret tt
    else
      let! ra := load_ra o in
      match ra_mode ra with
      | JS_ARENA_REQ_MODE_BUMP => mret tt
      | JS_ARENA_REQ_MODE_GC =>
          let! m := gets w_mem in
          match msp ra with
          | None => abort
          | Some ms =>
              let used' := u64 (used ra - mspace_usable_size m ptr) in
              let '(ms, m) := mspace_free ms m ptr in
              modify (fun w => w_set_mem w m) ;;
              store_ra o (ra_set_msp ra (Some ms) used')
          end
      end.

Definition base_realloc (d ptr size : Z) : M Z :=
  let! da := load_da d in
  let! m := gets w_mem in
  let '(p, a, m) := arena_realloc (da_base da) m ptr size in
  modify (fun w => w_set_mem w m) ;;
  store_da d (da_set_base da a) ;;
  mret p.

Definition jda_realloc (d ptr size : Z) : M Z :=
  let! da := load_da d in
  match da_mode da with
  | JS_ARENA_MODE_BASE => base_realloc d ptr size
  | JS_ARENA_MODE_REQUEST =>
      if ptr =? 0 then jda_malloc d size
      else if size =? 0 then mret 0
      else
        let r := da_cur da in
        if r =? 0 then mret 0
        else
          let! ra := load_ra r in
          let! st := gets w_chunks in
          let! o := lift (js_arena_ptr_request_owner st ptr) in
          let! old_size := req_ptr_size o ptr in
          match ra_mode ra with
          | JS_ARENA_REQ_MODE_BUMP =>
              let! p := req_bump_realloc r ptr size old_size in
              (if p =? 0 then note_oom r size else mret tt) ;;
              mret p
          | JS_ARENA_REQ_MODE_GC =>
              if o =? r then
                let! np := with_mspace r (fun ms m => mspace_realloc ms m ptr size) in
                if np =? 0 then note_oom r size ;; mret 0
                else
                  let! m := gets w_mem in
                  add_used r (mspace_usable_size m np - old_size) ;;
                  mret np
              else
                let! np := with_mspace r (fun ms m => mspace_malloc ms m size) in
                if np =? 0 then note_oom r size ;; mret 0
                else
                  modify (fun w => w_set_mem w (memcpy (w_mem w) np ptr
                                     (if size <? old_size then size else old_size))) ;;
                  let! m := gets w_mem in
                  add_used r (mspace_usable_size m np) ;;
                  mret np
          end
  end.

Definition jda_usable_size (ptr : Z) : M Z :=
  if ptr =? 0 then mret 0
  else
    let! st := gets w_chunks in
    let! o := lift (js_arena_ptr_request_owner st ptr) in
    req_ptr_size o ptr.
End ops.
