(* ===== verification/ArenaOps.v ===== *)
(** * Operations on a live request arena preserve the invariant

    [winv] completes the ownership core with what the allocation modes, the
    list links and the base arenas need.  [evo] is the relation every operation
    of a request arena satisfies: other arenas, the base arenas and their bytes
    are untouched.  The lemmas cover the bump path, dlmalloc calls with their
    growth callback, mode changes and reset. *)

From stdpp Require Import base list numbers gmap.
From Stdlib Require Import ZArith Lia.
From S2P Require Import Prelude Memory ChunkTable BaseRanges Thermometer BumpArena ArenaWorld.
From S2P Require Import RequestArena ArenaInvariant DualArena.

#[local] Open Scope m_scope.

Section ops.
Context `{EV : Env} `{EL : !EnvLaws} `{MS : Mspace} `{ML : !MspaceLaws}.

(** ** Invariant *)

(** Where the bump cursor of extent [i] starts. *)
Definition bump_low (i : nat) : Z := if decide (i = 0%nat) then 528 else 0.

Definition bump_ok (l : list extent) (b : bump_state) : Prop :=
  exists c, l !! cur b = Some c /\
    bump_low (cur b) <= cursor b <= snd c /\ (16 | cursor b) /\
    (b_last_ptr b = 0 \/
     (fst c + bump_low (cur b) + 16 <= b_last_ptr b /\ (16 | b_last_ptr b) /\
      b_last_ptr b + b_last_aligned b = fst c + cursor b /\ 0 <= b_last_aligned b)).

(** The segments of an arena's mspace: the head past its slot, the rest whole. *)
Definition territory (l : list extent) : list extent :=
  match l with
  | h :: l' => (fst h + 528, snd h - 528) :: l'
  | [] => []
  end.

Definition mode_ok (frozen : JSArenaMode) (ra : JSRequestArena) : Prop :=
  match frozen with
  | JS_ARENA_MODE_BASE => exists h, chunks ra = [h] /\ bump ra = bump_fresh 528
  | JS_ARENA_MODE_REQUEST =>
      chunks ra <> [] /\
      match ra_mode ra with
      | JS_ARENA_REQ_MODE_GC => exists ms, msp ra = Some ms /\ segments ms = territory (chunks ra)
      | JS_ARENA_REQ_MODE_BUMP => bump_ok (chunks ra) (bump ra)
      end
  end.

Definition slot_of (ra : JSRequestArena) : option Z := (fun h => fst h + 16) <$> hd_error (chunks ra).

Record links_ok (w : world) : Prop := {
  lk_nodup : forall d da, w_das w !! d = Some da -> NoDup (requests da);
  lk_in : forall d da r, w_das w !! d = Some da -> r ∈ requests da ->
    exists ra, w_ras w !! r = Some ra /\ ra_da ra = d;
  lk_out : forall r ra, w_ras w !! r = Some ra ->
    exists da, w_das w !! ra_da ra = Some da /\ r ∈ requests da;
  lk_cur : forall d da, w_das w !! d = Some da -> da_cur da = 0 \/
    (da_cur da ∈ requests da /\
     exists ra, w_ras w !! da_cur da = Some ra /\ slot_of ra = Some (state_cell da));
  lk_apart : forall r ra, w_ras w !! r = Some ra -> w_das w !! r = None
}.

Record winv (own : owners_map) (w : world) : Prop := {
  wv_core : wcore own (w_ras w) w;
  wv_modes : forall r ra da, w_ras w !! r = Some ra -> w_das w !! ra_da ra = Some da -> mode_ok (da_mode da) ra;
  wv_links : links_ok w;
  wv_bases : forall d da, w_das w !! d = Some da -> exists bs, arena_inv (da_base da) (w_mem w) bs;
  wv_ranges : wf_ranges (w_ranges w)
}.

(** Blocks an operation of arena [r] has no business with. *)
Definition foreign (r : Z) (h : holder) : Prop :=
  match h with HBase _ => True | HChunk r' => r' <> r | HCache _ => False end.

Record evo (r : Z) (ra ra' : JSRequestArena) (own : owners_map) (w : world) (own' : owners_map) (w' : world)
    : Prop := {
  ev_core : wcore own' (w_ras w') w';
  ev_das : das_sim w w';
  ev_ranges : w_ranges w' = w_ranges w;
  ev_guard : w_guard w' = w_guard w;
  ev_live : live_structs (w_env w') = live_structs (w_env w);
  ev_ra : w_ras w' !! r = Some ra';
  ev_others : forall r', r' <> r -> w_ras w' !! r' = w_ras w !! r';
  ev_da : ra_da ra' = ra_da ra;
  ev_cap : cap ra' = cap ra;
  ev_head : hd_error (chunks ra') = hd_error (chunks ra);
  ev_frame : forall b h, own !! b = Some h -> foreign r h ->
    own' !! b = Some h /\ mem_agree (w_mem w) (w_mem w') (fst b) (fst b + snd b)
}.

Lemma evo_refl r ra own w : wcore own (w_ras w) w -> w_ras w !! r = Some ra -> evo r ra ra own w own w.
Proof. intros Hw Hr. by split. Qed.

Lemma evo_trans r ra1 ra2 ra3 own1 w1 own2 w2 own3 w3 :
  evo r ra1 ra2 own1 w1 own2 w2 -> evo r ra2 ra3 own2 w2 own3 w3 -> evo r ra1 ra3 own1 w1 own3 w3.
Proof.
  intros [A1 A2 A3 A4 A5 A6 A7 A8 A9 A10 A11] [B1 B2 B3 B4 B5 B6 B7 B8 B9 B10 B11]. split; try congruence.
  - intros r' Hne. rewrite B7, A7; done.
  - intros b h Hb Hf. destruct (A11 b h Hb Hf) as [Hb2 Hm2]. destruct (B11 b h Hb2 Hf) as [Hb3 Hm3].
    split; [done |]. by eapply mem_agree_trans.
Qed.

(** Writing inside the arena's own extents. *)
Lemma evo_mem r ra own w m' :
  wcore own (w_ras w) w -> w_ras w !! r = Some ra -> agree_outside (chunks ra) (w_mem w) m' ->
  evo r ra ra own w own (w_set_mem w m').
Proof.
  intros Hw Hr Hm. split; try done.
  - by apply (wcore_frame own _ w); try done; intros b h Hb; eapply Hw.
  - simpl. intros b h Hb Hf. split; [done |]. intros x Hx. apply Hm. apply Forall_forall. intros c Hc Hin.
    assert (Hoc : own !! c = Some (HChunk r)) by (apply (wi_chunk _ _ _ Hw); by exists ra).
    destruct (decide (b = c)) as [-> | Hne].
    { rewrite Hb in Hoc. injection Hoc as ->. by apply Hf. }
    pose proof (wi_apart _ _ _ Hw _ _ _ _ Hb Hoc Hne). unfold extents_apart, in_block in *. lia.
Qed.

(** Changing fields outside the extent list. *)
Lemma evo_store r ra ra' own w :
  wcore own (w_ras w) w -> w_ras w !! r = Some ra ->
  chunks ra' = chunks ra -> extents ra' = extents ra -> held ra' = held ra -> cap ra' = cap ra ->
  ra_floor ra' = ra_floor ra -> prov ra' = prov ra -> ra_da ra' = ra_da ra ->
  evo r ra ra' own w own (w_set_ras w (<[r := ra']> (w_ras w))).
Proof.
  intros Hw Hr E1 E2 E3 E4 E5 E6 E7. destruct (wi_ras _ _ _ Hw r ra Hr) as [[C1 C2 C3 C4 C5 C6 C7] _].
  split; simpl; try done.
  - apply (wcore_update own (w_ras w) w _ r ra); try done. split; congruence || (rewrite ?E1, ?E2, ?E3, ?E4, ?E5, ?E6, ?E7; done).
  - apply lookup_insert_eq.
  - intros r' Hne. by rewrite lookup_insert_ne.
  - by rewrite E1.
Qed.

(** [req_acquire]. *)
Lemma evo_acquired r ra own w need got w' :
  w_ras w !! r = Some ra -> chunks ra <> [] -> acquired own w r ra need got w' ->
  exists own', quiet own w own' w' /\
    match got with
    | None => evo r ra ra own w own' w'
    | Some i => exists b, i = length (chunks ra) /\ need <= snd b /\ extent_ok b /\
        (forall c, c ∈ chunks ra -> extents_apart b c) /\
        evo r ra (ra_with ra (chunks ra ++ [b])) own w own' w'
    end.
Proof.
  intros Hr Hne (own' & Hw' & Hq & Hg). exists own'. split; [done |].
  pose proof Hq as [Q1 Q2 Q3 Q4 Q5 Q6 Q7].
  assert (Hfr : forall b h, own !! b = Some h -> foreign r h ->
    own' !! b = Some h /\ mem_agree (w_mem w) (w_mem w') (fst b) (fst b + snd b)).
  { intros b h Hb Hf. split; [| by eapply Q6]. apply Q7; [done |]. by destruct h. }
  destruct got as [i |].
  - destruct Hg as (b & -> & Hn & Hb & Hap & Hcap & Er). exists b. split; [done |]. split; [done |].
    split; [by eapply (wi_out _ _ _ Hw' b) |]. split.
    { intros c Hc. destruct (decide (c = b)) as [-> | Hcb].
      - exfalso. destruct (wi_ras _ _ _ Hw' r (ra_with ra (chunks ra ++ [b]))) as [[_ Hnd _ _ _ _ _] _].
        { rewrite Er. apply lookup_insert_eq. }
        simpl in Hnd. apply NoDup_app in Hnd as (_ & Hd & _). by apply (Hd b Hc); left.
      - assert (Hoc : own' !! c = Some (HChunk r)).
        { apply (wi_chunk _ _ _ Hw'). rewrite Er. exists (ra_with ra (chunks ra ++ [b])).
          rewrite lookup_insert_eq. split; [done |]. simpl. set_solver. }
        eapply (wi_apart _ _ _ Hw'); [exact Hb | exact Hoc | done]. }
    split; try done.
    + rewrite Er. apply lookup_insert_eq.
    + intros r' Hr'. rewrite Er. by rewrite lookup_insert_ne.
    + simpl. by destruct (chunks ra).
  - split; try done.
    + by rewrite Hg.
    + intros r' _. by rewrite Hg.
Qed.

(** The arena's own bytes survive growth. *)
Lemma quiet_inside own w own' w' r ra :
  wcore own (w_ras w) w -> w_ras w !! r = Some ra -> quiet own w own' w' ->
  agree_inside (chunks ra) (w_mem w) (w_mem w').
Proof.
  intros Hw Hr Hq x c Hc Hx. eapply (q_mem _ _ _ _ Hq); [| exact Hx].
  apply (wi_chunk _ _ _ Hw). by exists ra.
Qed.

(** An evolution of one arena that ends in a good mode keeps the invariant. *)
Lemma evo_winv r ra ra' own w own' w' :
  winv own w -> w_ras w !! r = Some ra -> evo r ra ra' own w own' w' ->
  (forall da, w_das w !! ra_da ra = Some da -> mode_ok (da_mode da) ra') ->
  winv own' w'.
Proof.
  intros [V1 V2 V3 V4 V5] Hr [E1 E2 E3 E4 E5 E6 E7 E8 E9 E10 E11] Hm.
  assert (Hda : forall d da', w_das w' !! d = Some da' -> exists da, w_das w !! d = Some da /\ strip da = strip da').
  { intros d da' H'. destruct (das_sim_lookup w' w d da') as (da & H1 & H2); [by symmetry | done |].
    by exists da. }
  assert (Hras : forall r' ra0, w_ras w' !! r' = Some ra0 -> exists ra1, w_ras w !! r' = Some ra1 /\
    ra_da ra0 = ra_da ra1 /\ hd_error (chunks ra0) = hd_error (chunks ra1) /\ (r' <> r -> ra0 = ra1)).
  { intros r' ra0 H0. destruct (decide (r' = r)) as [-> | Hne].
    - simplify_eq. exists ra. done.
    - rewrite E7 in H0 by done. by exists ra0. }
  assert (Hras2 : forall r' ra0, w_ras w !! r' = Some ra0 -> exists ra1, w_ras w' !! r' = Some ra1 /\
    ra_da ra1 = ra_da ra0 /\ hd_error (chunks ra1) = hd_error (chunks ra0)).
  { intros r' ra0 H0. destruct (decide (r' = r)) as [-> | Hne]; [simplify_eq; by exists ra' |].
    exists ra0. by rewrite E7. }
  split; try done.
  - intros r' ra0 da' H0 Hd. destruct (Hda _ _ Hd) as (da & Hd0 & Hs). unfold strip, da_set_cache in Hs.
    replace (da_mode da') with (da_mode da) by congruence.
    destruct (decide (r' = r)) as [-> | Hne].
    + simplify_eq. apply Hm. congruence.
    + rewrite E7 in H0 by done. by eapply V2.
  - destruct V3 as [L1 L2 L3 L4 L5]. split.
    + intros d da' Hd. destruct (Hda _ _ Hd) as (da & Hd0 & Hs). unfold strip, da_set_cache in Hs.
      replace (requests da') with (requests da) by congruence. by eapply L1.
    + intros d da' r' Hd Hin. destruct (Hda _ _ Hd) as (da & Hd0 & Hs). unfold strip, da_set_cache in Hs.
      replace (requests da') with (requests da) in Hin by congruence.
      destruct (L2 d da r' Hd0 Hin) as (ra0 & H0 & Ed). destruct (Hras2 _ _ H0) as (ra1 & H1 & Ed1 & _).
      exists ra1. split; [done | congruence].
    + intros r' ra0 H0. destruct (Hras _ _ H0) as (ra1 & H1 & Ed & _). destruct (L3 r' ra1 H1) as (da & Hd & Hin).
      destruct (das_sim_lookup w w' _ da E2 Hd) as (da' & Hd' & Hs). unfold strip, da_set_cache in Hs.
      exists da'. rewrite Ed. split; [done |]. replace (requests da') with (requests da) by congruence. done.
    + intros d da' Hd. destruct (Hda _ _ Hd) as (da & Hd0 & Hs). unfold strip, da_set_cache in Hs.
      replace (da_cur da') with (da_cur da) by congruence. replace (requests da') with (requests da) by congruence.
      replace (state_cell da') with (state_cell da) by congruence.
      destruct (L4 d da Hd0) as [Hz | [Hin (ra0 & H0 & Hsl)]]; [by left |]. right. split; [done |].
      destruct (Hras2 _ _ H0) as (ra1 & H1 & _ & Eh). exists ra1. split; [done |].
      unfold slot_of in *. by rewrite Eh.
    + intros r' ra0 H0. destruct (Hras _ _ H0) as (ra1 & H1 & _). apply eq_None_not_Some. intros [x Hx].
      destruct (Hda _ _ Hx) as (da & Hd0 & _). rewrite (L5 r' ra1 H1) in Hd0. done.
  - intros d da' Hd. destruct (Hda _ _ Hd) as (da & Hd0 & Hs). unfold strip, da_set_cache in Hs.
    replace (da_base da') with (da_base da) by congruence. destruct (V4 d da Hd0) as [bs Hbs].
    exists bs. apply (arena_inv_frame _ (w_mem w)); [done |].
    destruct (E11 (buf (da_base da), capacity (da_base da)) (HBase d)) as [_ Hmm]; [| done | exact Hmm].
    apply (wi_base _ _ _ V1). exists da. split; [done |]. unfold base_of.
    destruct (ai_buf _ _ _ Hbs) as [Hb0 _]. by destruct (Z.eqb_spec (buf (da_base da)) 0); [lia |].
  - by rewrite E3.
Qed.

(** ** Bump path *)

(** Fields an allocation leaves alone. *)
Definition same_kind (ra ra' : JSRequestArena) : Prop :=
  ra_mode ra' = ra_mode ra /\ mode_next ra' = mode_next ra /\ oom ra' = oom ra.

(** The outcome of an allocation of [size] bytes by arena [r]. *)
Definition alloc_post (r : Z) (ra : JSRequestArena) (own : owners_map) (w : world) (size p : Z) (w' : world)
    : Prop :=
  exists own' ra', evo r ra ra' own w own' w' /\ same_kind ra ra' /\
    mode_ok JS_ARENA_MODE_REQUEST ra' /\
    (p <> 0 -> 0 < p /\ inside (territory (chunks ra')) p size).

Lemma agree_outside_store64 l m a v c lo :
  c ∈ l -> fst c <= lo -> lo <= a -> a + 8 <= fst c + snd c -> agree_outside l m (store64 m a v).
Proof.
  intros Hc Hlo Ha Hh x Hx. symmetry. apply load8_store64_out. intros Hin.
  apply (proj1 (Forall_forall _ _) Hx c Hc). unfold in_block. lia.
Qed.

Lemma territory_in l i c p size :
  l !! i = Some c -> fst c + bump_low i <= p -> p + size <= fst c + snd c -> inside (territory l) p size.
Proof.
  intros Hc Hlo Hhi. unfold bump_low in Hlo. destruct l as [| h l]; [done |]. simpl. destruct i as [| i]; simpl in *.
  - simplify_eq. exists (fst c + 528, snd c - 528). split; [by left |]. simpl. lia.
  - exists c. split; [right; by eapply list_elem_of_lookup_2 |]. simpl. lia.
Qed.

Lemma bump_take_spec own w r ra c size :
  wcore own (w_ras w) w -> w_ras w !! r = Some ra -> 
  chunks ra !! cur (bump ra) = Some c -> bump_low (cur (bump ra)) <= cursor (bump ra) -> (16 | cursor (bump ra)) ->
  0 < size < 2 ^ 60 -> cursor (bump ra) + 16 + round_up ARENA_ALIGN size <= snd c ->
  ra_mode ra = JS_ARENA_REQ_MODE_BUMP ->
  wp (bump_take r size) (alloc_post r ra own w size) w.
Proof.
  intros Hw Hr Hc Hlo Hal Hs Hfit Hmode. unfold bump_take. wp_step. apply (wp_load_ra r ra); [done |].
  unfold cur_extent. rewrite Hc. wp_steps. simpl.
  pose proof (round16 size ltac:(lia)) as [R1 R2].
  assert (Hcin : c ∈ chunks ra) by (by eapply list_elem_of_lookup_2).
  assert (Hok : extent_ok c) by exact (proj1 (Forall_forall _ _) (ra_chunks_ok _ _ _ _ _ Hw Hr) c Hcin).
  destruct Hok as (K1 & K2 & _ & _ & K5).
  assert (Hlow : 0 <= bump_low (cur (bump ra))) by (unfold bump_low; case_decide; lia).
  rewrite (u64_small (ARENA_HEADER_SIZE + _)) by (unfold ARENA_HEADER_SIZE; lia).
  rewrite (u64_small (cursor (bump ra) + _)) by (unfold ARENA_HEADER_SIZE; lia).
  unfold ARENA_HEADER_SIZE. set (p := fst c + cursor (bump ra) + 16).
  set (w1 := w_set_mem w _).
  assert (He1 : evo r ra ra own w own w1).
  { apply evo_mem; try done. eapply (agree_outside_store64 _ _ _ _ c (fst c)); try done; lia. }
  match goal with |- context [<[r := ?x]> _] => set (ra' := x) end.
  assert (He2 : evo r ra ra' own w1 own (w_set_ras w1 (<[r := ra']> (w_ras w1)))).
  { apply evo_store; try done. apply He1. }
  exists own, ra'. split; [by eapply evo_trans |]. split; [done |]. split.
  - split; [simpl; intros E; by rewrite E in Hcin; apply elem_of_nil in Hcin |]. simpl. rewrite Hmode.
    exists c. simpl. split; [done |]. split; [lia |]. split.
    { apply Z.divide_add_r; [done |]. apply Z.divide_add_r; [by exists 1 | done]. }
    right. split; [lia |]. split; [| lia].
    unfold p. apply Z.divide_add_r; [apply Z.divide_add_r; [| done] | by exists 1].
    etrans; [| exact K2]. by exists 256.
  - intros _. split; [lia |]. apply (territory_in _ (cur (bump ra)) c); simpl; [done | |]; unfold p; lia.
Qed.

Lemma ra_with_lookup_last ra b : chunks (ra_with ra (chunks ra ++ [b])) !! length (chunks ra) = Some b.
Proof. simpl. by rewrite lookup_app_r, Nat.sub_diag by lia. Qed.

Lemma req_bump_alloc_spec own w r ra size :
  wcore own (w_ras w) w -> w_ras w !! r = Some ra -> ra_mode ra = JS_ARENA_REQ_MODE_BUMP ->
  bump_ok (chunks ra) (bump ra) -> 0 <= size < 2 ^ 60 ->
  wp (req_bump_alloc r size) (alloc_post r ra own w size) w.
Proof.
  intros Hw Hr Hmode Hb Hs. pose proof Hb as (c & Hc & Hcur & Hal & Hlast).
  assert (Hne : chunks ra <> []) by (intros E; by rewrite E in Hc).
  assert (Hmok : mode_ok JS_ARENA_MODE_REQUEST ra) by (split; [done |]; by rewrite Hmode).
  unfold req_bump_alloc. destruct (Z.eqb_spec size 0) as [_ | Hnz].
  { wp_steps. exists own, ra. split; [by apply evo_refl |]. split; [done |]. split; [done | lia]. }
  wp_step. apply (wp_load_ra r ra); [done |]. unfold cur_extent. rewrite Hc. wp_steps.
  pose proof (round16 size ltac:(lia)) as [R1 R2].
  assert (Hcin : c ∈ chunks ra) by (by eapply list_elem_of_lookup_2).
  assert (Hok : extent_ok c) by exact (proj1 (Forall_forall _ _) (ra_chunks_ok _ _ _ _ _ Hw Hr) c Hcin).
  destruct Hok as (K1 & K2 & _ & _ & K5).
  assert (Hlow : 0 <= bump_low (cur (bump ra))) by (unfold bump_low; case_decide; lia).
  unfold ARENA_HEADER_SIZE. rewrite (u64_small (16 + _)) by lia. rewrite (u64_small (cursor (bump ra) + _)) by lia.
  destruct (Z.ltb_spec (snd c) (cursor (bump ra) + (16 + round_up ARENA_ALIGN size))) as [Hfull | Hfit].
  2:{ apply (bump_take_spec own w r ra c size); try done; lia. }
  wp_step. eapply wp_mono; [apply (req_acquire_spec own w r ra); try done; lia |].
  intros got w1 Hacq. destruct (evo_acquired r ra own w _ got w1 Hr Hne Hacq) as (own1 & Hq1 & Hg).
  destruct got as [i |].
  2:{ wp_steps. exists own1, ra. done. }
  destruct Hg as (b & -> & Hnb & Hbok & Hap & He1). set (ra1 := ra_with ra (chunks ra ++ [b])) in *.
  wp_step. apply (wp_load_ra r ra1); [apply He1 |]. wp_steps.
  match goal with |- context [<[r := ?x]> _] => set (ra2 := x) end.
  set (w2 := w_set_ras w1 _).
  assert (He2 : evo r ra1 ra2 own1 w1 own1 w2) by (apply evo_store; try done; apply He1).
  assert (He : evo r ra ra2 own w own1 w2) by (by eapply evo_trans).
  eapply wp_mono.
  { apply (bump_take_spec own1 w2 r ra2 b size); try apply He; try done; try lia.
    - apply ra_with_lookup_last.
    - unfold bump_low. simpl. rewrite decide_False; [lia |]. by destruct (chunks ra).
    - by exists 0. }
  intros p w3 (own3 & ra3 & He3 & Hk3 & Hm3 & Hp3). exists own3, ra3. split; [by eapply evo_trans |]. done.
Qed.

(** A range inside the territory is inside an extent. *)
Lemma territory_extent l p size :
  inside (territory l) p size -> exists c, c ∈ l /\ fst c <= p /\ p + size <= fst c + snd c.
Proof.
  intros (s & Hs & H1 & H2). destruct l as [| h l]; simpl in Hs; [by apply elem_of_nil in Hs |].
  apply elem_of_cons in Hs as [-> | Hs].
  - exists h. simpl in *. split; [by left | lia].
  - exists s. split; [by right | lia].
Qed.

Lemma agree_outside_bytes l m p size bs :
  inside (territory l) p size -> lenZ bs <= size -> agree_outside l m (store_bytes m p bs).
Proof.
  intros Hin Hlen x Hx. symmetry. apply load8_store_out. intros Hr.
  destruct (territory_extent l p size Hin) as (c & Hc & H1 & H2).
  apply (proj1 (Forall_forall _ _) Hx c Hc). unfold in_block. lia.
Qed.

(** Filling freshly allocated memory keeps the outcome. *)
Lemma alloc_post_fill r ra own w size p w1 bs :
  alloc_post r ra own w size p w1 -> p <> 0 -> lenZ bs <= size ->
  alloc_post r ra own w size p (w_set_mem w1 (store_bytes (w_mem w1) p bs)).
Proof.
  intros (own1 & ra1 & He & Hk & Hm & Hp) Hnz Hl. destruct (Hp Hnz) as [Hp0 Hin].
  exists own1, ra1. split; [| done]. eapply evo_trans; [exact He |].
  apply evo_mem; [apply He | apply He |]. by eapply agree_outside_bytes.
Qed.

Lemma bump_realloc_copy_spec own w r ra ptr size old_size :
  wcore own (w_ras w) w -> w_ras w !! r = Some ra -> ra_mode ra = JS_ARENA_REQ_MODE_BUMP ->
  bump_ok (chunks ra) (bump ra) -> 0 < size < 2 ^ 60 ->
  wp (bump_realloc_copy r ptr size old_size) (alloc_post r ra own w size) w.
Proof.
  intros Hw Hr Hm Hb Hs. unfold bump_realloc_copy. wp_step. eapply wp_mono.
  { apply (req_bump_alloc_spec own w r ra size); try done. lia. }
  intros np w1 Hpost. simpl. destruct (Z.eqb_spec np 0) as [-> | Hnz]; wp_steps; [done |].
  unfold memcpy. apply alloc_post_fill; [done | done |]. unfold lenZ. rewrite length_load_bytes.
  destruct (Z.ltb_spec size old_size); lia.
Qed.

Lemma bump_resize_spec own w r ra c ptr size cursor' used' :
  wcore own (w_ras w) w -> w_ras w !! r = Some ra -> ra_mode ra = JS_ARENA_REQ_MODE_BUMP ->
  chunks ra !! cur (bump ra) = Some c ->
  fst c + bump_low (cur (bump ra)) + 16 <= ptr -> (16 | ptr) -> b_last_ptr (bump ra) = ptr ->
  0 < size < 2 ^ 60 -> cursor' = ptr - fst c + round_up ARENA_ALIGN size -> cursor' <= snd c ->
  wp (bump_resize r ptr size (round_up ARENA_ALIGN size) cursor' used') (alloc_post r ra own w size) w.
Proof.
  intros Hw Hr Hmode Hc Hlo Hal Hlast Hs Ecur Hfit. unfold bump_resize. wp_step.
  apply (wp_load_ra r ra); [done |]. wp_steps. simpl.
  pose proof (round16 size ltac:(lia)) as [R1 R2].
  assert (Hcin : c ∈ chunks ra) by (by eapply list_elem_of_lookup_2).
  assert (Hok : extent_ok c) by exact (proj1 (Forall_forall _ _) (ra_chunks_ok _ _ _ _ _ Hw Hr) c Hcin).
  destruct Hok as (K1 & K2 & _ & _ & K5).
  assert (Hlow : 0 <= bump_low (cur (bump ra))) by (unfold bump_low; case_decide; lia).
  match goal with |- context [<[r := ?x]> _] => set (ra' := x) end.
  set (w1 := w_set_ras w (<[r := ra']> (w_ras w))).
  assert (He1 : evo r ra ra' own w own w1) by (apply evo_store; done).
  exists own, ra'. split.
  { eapply evo_trans; [exact He1 |]. apply evo_mem; [apply He1 | apply He1 |].
    unfold arena_set_user_size. eapply (agree_outside_store64 _ _ _ _ c (fst c)); simpl; try done; lia. }
  split; [done |]. split.
  - split; [simpl; intros E; by rewrite E in Hcin; apply elem_of_nil in Hcin |]. simpl. rewrite Hmode.
    exists c. simpl. split; [done |]. split; [lia |]. split.
    { rewrite Ecur. apply Z.divide_add_r; [| done]. apply Z.divide_sub_r; [done |].
      etrans; [| exact K2]. by exists 256. }
    right. rewrite Hlast. split; [lia |]. split; [done |]. lia.
  - intros _. split; [lia |]. apply (territory_in _ (cur (bump ra)) c); simpl; [done | |]; lia.
Qed.

Lemma req_bump_realloc_spec own w r ra ptr size old_size :
  wcore own (w_ras w) w -> w_ras w !! r = Some ra -> ra_mode ra = JS_ARENA_REQ_MODE_BUMP ->
  bump_ok (chunks ra) (bump ra) -> ptr <> 0 -> 0 < size < 2 ^ 60 ->
  wp (req_bump_realloc r ptr size old_size) (alloc_post r ra own w size) w.
Proof.
  intros Hw Hr Hm Hb Hp Hs. unfold req_bump_realloc. wp_step. apply (wp_load_ra r ra); [done |].
  pose proof Hb as (c & Hc & Hcur & Hal & Hlast).
  pose proof (round16 size ltac:(lia)) as [R1 R2].
  assert (Hcin : c ∈ chunks ra) by (by eapply list_elem_of_lookup_2).
  assert (Hok : extent_ok c) by exact (proj1 (Forall_forall _ _) (ra_chunks_ok _ _ _ _ _ Hw Hr) c Hcin).
  destruct Hok as (K1 & K2 & _ & _ & K5).
  assert (Hlow : 0 <= bump_low (cur (bump ra))) by (unfold bump_low; case_decide; lia).
  destruct (Z.eqb_spec ptr (b_last_ptr (bump ra))) as [E | _]; [| by apply bump_realloc_copy_spec].
  destruct Hlast as [Hz | (L1 & L2 & L3 & L4)]; [congruence |]. rewrite <- E in *.
  destruct (Z.leb_spec (round_up ARENA_ALIGN size) (b_last_aligned (bump ra))).
  { apply (bump_resize_spec own w r ra c); try done.
    - rewrite u64_small by lia. lia.
    - rewrite u64_small by lia. lia. }
  unfold cur_extent. rewrite Hc. wp_steps. rewrite (u64_small (cursor (bump ra) + _)) by lia.
  case_if; [| by apply bump_realloc_copy_spec]. b2p.
  apply (bump_resize_spec own w r ra c); try done. lia.
Qed.

(** ** dlmalloc calls *)

(** Growing the arena from inside a call adds segments at the end. *)
Lemma territory_app l b : l <> [] -> territory (l ++ [b]) = territory l ++ [b].
Proof. by destruct l. Qed.

Lemma agree_inside_territory l m m' : agree_inside l m m' -> Forall extent_ok l -> agree_inside (territory l) m m'.
Proof.
  intros H Hok x s Hs Hx. destruct l as [| h l]; simpl in Hs; [by apply elem_of_nil in Hs |].
  apply elem_of_cons in Hs as [-> | Hs].
  - apply (H x h); [by left |]. unfold in_block in *. simpl in *. lia.
  - apply (H x s); [by right | done].
Qed.

Lemma agree_outside_territory l m m' : agree_outside (territory l) m m' -> agree_outside l m m'.
Proof.
  intros H x Hx. apply H. destruct l as [| h l]; simpl; [done |]. apply Forall_cons in Hx as [Hh Hl].
  constructor; [| done]. unfold in_block in *. simpl. lia.
Qed.

(** What changes during a call: only the extents, the break and memory. *)
Definition grown (ra ra' : JSRequestArena) : Prop :=
  exists l b, ra' = ra_set_brk (ra_set_extents ra l (lenZ l) (extents_total l)) b.

Lemma run_mcall_spec {R} (c : mcall (R * mem)) Q own w r ra :
  wcore own (w_ras w) w -> w_ras w !! r = Some ra -> chunks ra <> [] -> morecore_ra w = r -> r <> 0 ->
  mcall_ok (brk ra) (territory (chunks ra)) (w_mem w) c Q ->
  wp (run_mcall c) (fun a w' => exists own' ra', evo r ra ra' own w own' w' /\ grown ra ra' /\
    chunks ra' <> [] /\ Q (territory (chunks ra')) a (w_mem w')) w.
Proof.
  revert own w ra. induction c as [[a m'] | n m1 k IH]; intros own w ra Hw Hr Hne Hmr Hr0 Hok.
  - destruct Hok as [Hm HQ]. simpl. wp_steps. exists own, ra.
    split; [apply evo_mem; try done; by apply agree_outside_territory |]. split; [| done].
    destruct (wi_ras _ _ _ Hw r ra Hr) as [[C1 C2 C3 C4 C5 C6 C7] _]. exists (chunks ra), (brk ra).
    rewrite <- C3, <- C4. by destruct ra.
  - destruct Hok as (Hm & Hn & Hzero & Hneg & Hpos). simpl. wp_steps.
    set (w1 := w_set_mem w m1).
    assert (He1 : evo r ra ra own w own w1) by (apply evo_mem; try done; by apply agree_outside_territory).
    pose proof (ev_core _ _ _ _ _ _ _ He1) as Hw1.
    unfold js_arena_morecore. wp_steps. simpl. rewrite Hmr.
    destruct (Z.eqb_spec r 0); [done |]. wp_steps. apply (wp_load_ra r ra); [done |].
    destruct (Z.eqb_spec n 0) as [Hz | Hnz].
    { wp_steps. eapply wp_mono; [apply (IH _ _ own w1 ra); try done; by apply Hzero |].
      intros a w' (own' & ra' & H1 & H2 & H3 & H4). exists own', ra'. split; [by eapply evo_trans | done]. }
    destruct (Z.ltb_spec n 0) as [Hlt | Hge].
    { wp_steps. eapply wp_mono; [apply (IH _ _ own w1 ra); try done; by apply Hneg |].
      intros a w' (own' & ra' & H1 & H2 & H3 & H4). exists own', ra'. split; [by eapply evo_trans | done]. }
    wp_step. eapply wp_mono; [apply (req_acquire_spec own w1 r ra n); try done; lia |].
    intros got w2 Hacq. destruct (evo_acquired r ra own w1 _ got w2 Hr Hne Hacq) as (own2 & Hq2 & Hg).
    assert (Hmore : morecore_ra w2 = r) by (rewrite (q_more _ _ _ _ Hq2); done).
    assert (Hag : agree_inside (territory (chunks ra)) m1 (w_mem w2)).
    { apply agree_inside_territory; [| by eapply ra_chunks_ok].
      by apply (quiet_inside own w1 own2 w2 r ra). }
    destruct (Hpos ltac:(lia) (w_mem w2) Hag) as [Hfail Hgot].
    destruct got as [i |].
    + destruct Hg as (b & -> & Hnb & Hbok & Hap & He2). set (ra2 := ra_with ra (chunks ra ++ [b])) in *.
      wp_step. apply (wp_load_ra r ra2); [apply He2 |]. unfold ra2 at 1. rewrite ra_with_lookup_last.
      wp_steps. set (ra3 := ra_set_brk ra2 (fst b + snd b)).
      set (w3 := w_set_ras w2 (<[r := ra3]> (w_ras w2))).
      assert (He3 : evo r ra2 ra3 own2 w2 own2 w3) by (apply evo_store; try done; apply He2).
      assert (He : evo r ra ra3 own w own2 w3) by (eapply evo_trans; [exact He1 |]; by eapply evo_trans).
      assert (Hcall : mcall_ok (brk ra3) (territory (chunks ra3)) (w_mem w3) (k (fst b) (w_mem w2)) Q).
      { simpl. rewrite territory_app by done. destruct b as [bb bs]. simpl.
        destruct Hbok as (B1 & B2 & _ & _ & B5). apply Hgot; try done.
        apply Forall_forall. intros s Hs. destruct (chunks ra) as [| h l] eqn:El; [done |]. simpl in Hs.
        apply elem_of_cons in Hs as [-> | Hs]; [| apply Hap; by right].
        pose proof (Hap h ltac:(by left)). unfold extents_apart in *. simpl in *. lia. }
      eapply wp_mono; [apply (IH _ _ own2 w3 ra3); try done; try apply He; by destruct (chunks ra) |].
      intros a w' (own' & ra' & H1 & (l' & b' & H2) & H3 & H4). exists own', ra'.
      split; [by eapply evo_trans |]. split; [| done]. exists l', b'. by rewrite H2.
    + wp_steps. eapply wp_mono; [apply (IH _ _ own2 w2 ra); try done; apply Hg |].
      intros a w' (own' & ra' & H1 & H2 & H3 & H4). exists own', ra'.
      split; [eapply evo_trans; [exact He1 |]; by eapply evo_trans | done].
Qed.

Lemma mcall_ok_mono {R} brk segs m (c : mcall (R * mem)) (P Q : list extent -> R -> mem -> Prop) :
  (forall segs a m', P segs a m' -> Q segs a m') -> mcall_ok brk segs m c P -> mcall_ok brk segs m c Q.
Proof.
  intros HPQ. revert brk segs m. induction c as [[a m'] | n m1 k IH]; intros brk segs m.
  - intros [H1 H2]. split; [done | by apply HPQ].
  - intros (H1 & H2 & H3 & H4 & H5). split; [done |]. split; [done |]. split; [auto |]. split; [auto |].
    intros Hn m2 Hag. destruct (H5 Hn m2 Hag) as [H6 H7]. split; [auto |]. intros. apply IH. auto.
Qed.

(** Changing the parked arena is invisible. *)
Lemma evo_morecore r ra own w q :
  wcore own (w_ras w) w -> w_ras w !! r = Some ra -> evo r ra ra own w own (w_set_morecore w q).
Proof.
  intros Hw Hr. split; try done. by apply (wcore_frame own _ w); try done; intros b h Hb; eapply Hw.
Qed.

(** A dlmalloc call that returns memory inside its segments. *)
Definition ms_call_ok (f : mspace -> mem -> mcall (Z * mspace * mem)) (size : Z) (R : Z -> mem -> Prop) : Prop :=
  forall ms m brk, mcall_ok brk (segments ms) m (f ms m)
    (fun segs '(p, ms') m' => segments ms' = segs /\ (p <> 0 -> 0 <= p /\ inside segs p size /\ R p m')).

Lemma with_mspace_spec own w r ra f size R :
  wcore own (w_ras w) w -> w_ras w !! r = Some ra -> r <> 0 ->
  ra_mode ra = JS_ARENA_REQ_MODE_GC -> mode_ok JS_ARENA_MODE_REQUEST ra -> ms_call_ok f size R ->
  wp (with_mspace r f) (fun p w' => alloc_post r ra own w size p w' /\ (p <> 0 -> R p (w_mem w'))) w.
Proof.
  intros Hw Hr Hr0 Hmode [Hne Hms] Hf. rewrite Hmode in Hms. destruct Hms as (ms & Ems & Eseg).
  unfold with_mspace. wp_steps. set (w1 := w_set_morecore w r).
  assert (He1 : evo r ra ra own w own w1) by (by apply evo_morecore).
  apply (wp_load_ra r ra); [done |]. rewrite Ems. wp_steps.
  eapply wp_mono.
  { apply (run_mcall_spec (f ms (w_mem w1)) (fun segs '(p, ms') m' => segments ms' = segs /\
      (p <> 0 -> 0 <= p /\ inside segs p size /\ R p m')) own w1 r ra); try done; [apply He1 |].
    rewrite <- Eseg. apply Hf. }
  intros [p ms'] w2 (own2 & ra2 & He2 & (l & b & Hg) & Hne2 & Hseg2 & Hp). simpl.
  wp_step. apply (wp_load_ra r ra2); [apply He2 |]. wp_steps. simpl.
  set (ra3 := ra_set_msp ra2 (Some ms') (used ra2)).
  assert (He3 : evo r ra2 ra3 own2 w2 own2 (w_set_ras w2 (<[r := ra3]> (w_ras w2)))).
  { apply evo_store; try done; apply He2. }
  split; [| intros Hnz; apply Hp; done].
  exists own2, ra3. split; [eapply evo_trans; [exact He1 |]; by eapply evo_trans |].
  split; [unfold same_kind, ra3; by rewrite Hg |].
  split.
  - split; [done |]. simpl. rewrite Hg. simpl. rewrite Hmode. exists ms'. split; [done |].
    rewrite Hseg2, Hg. done.
  - intros Hnz. destruct (Hp Hnz) as (P1 & P2 & _). split; [lia | done].
Qed.

(** ** Recording refusals *)

(** The latch: the first refusal is recorded, later ones and successes leave it. *)
Definition oom_after (o : JSArenaOOM) (p size : Z) (o' : JSArenaOOM) : Prop :=
  if p =? 0 then
    if hit o then o' = o else hit o' = true /\ requested o' = size
  else o' = o.

Definition hook_post (r : Z) (ra : JSRequestArena) (own : owners_map) (w : world) (size p : Z) (w' : world)
    : Prop :=
  exists own' ra', evo r ra ra' own w own' w' /\ ra_mode ra' = ra_mode ra /\ mode_next ra' = mode_next ra /\
    mode_ok JS_ARENA_MODE_REQUEST ra' /\ oom_after (oom ra) p size (oom ra') /\
    (p <> 0 -> 0 < p /\ inside (territory (chunks ra')) p size).

Lemma evo_da_mode r ra ra' own w own' w' da :
  evo r ra ra' own w own' w' -> w_das w !! ra_da ra = Some da ->
  exists da', w_das w' !! ra_da ra' = Some da' /\ da_mode da' = da_mode da.
Proof.
  intros He Hd. destruct (das_sim_lookup w w' _ da (ev_das _ _ _ _ _ _ _ He) Hd) as (da' & Hd' & Hs).
  exists da'. rewrite (ev_da _ _ _ _ _ _ _ He). split; [done |]. unfold strip, da_set_cache in Hs. congruence.
Qed.

(** After a refusal. *)
Lemma note_oom_spec r ra own w size w1 da :
  alloc_post r ra own w size 0 w1 -> w_das w !! ra_da ra = Some da -> da_mode da = JS_ARENA_MODE_REQUEST ->
  wp (note_oom r size) (fun _ w' => hook_post r ra own w size 0 w') w1.
Proof.
  intros (own1 & ra1 & He & (K1 & K2 & K3) & Hm & _) Hd Hreq. unfold note_oom.
  wp_step. apply (wp_load_ra r ra1); [apply He |].
  destruct (evo_da_mode _ _ _ _ _ _ _ da He Hd) as (da1 & Hd1 & Em).
  wp_step. apply (wp_load_da _ da1); [done |]. rewrite Em, Hreq. simpl. rewrite K3.
  destruct (hit (oom ra)) eqn:Eh; simpl; wp_steps.
  - exists own1, ra1. split; [done |]. split; [done |]. split; [done |]. split; [done |].
    split; [| done]. unfold oom_after. simpl. by rewrite Eh.
  - match goal with |- context [<[r := ?x]> _] => set (ra2 := x) end. exists own1, ra2. split.
    { eapply evo_trans; [exact He |]. apply evo_store; try done; apply He. }
    split; [done |]. split; [done |]. split; [exact Hm |]. split; [| done].
    unfold oom_after. simpl. by rewrite Eh.
Qed.

Lemma alloc_hook r ra own w size p w' : alloc_post r ra own w size p w' -> p <> 0 -> hook_post r ra own w size p w'.
Proof.
  intros (own' & ra' & He & (K1 & K2 & K3) & Hm & Hp) Hnz. exists own', ra'.
  split; [done |]. split; [done |]. split; [done |]. split; [done |]. split; [| done].
  unfold oom_after. by destruct (Z.eqb_spec p 0).
Qed.

(** Accounting changes nothing else. *)
Lemma add_used_spec r ra own w size p w1 n :
  hook_post r ra own w size p w1 ->
  wp (add_used r n) (fun _ w' => hook_post r ra own w size p w' /\ w_mem w' = w_mem w1) w1.
Proof.
  intros (own1 & ra1 & He & K1 & K2 & Hm & Ho & Hp). unfold add_used. wp_step.
  apply (wp_load_ra r ra1); [apply He |]. wp_steps.
  match goal with |- context [<[r := ?x]> _] => set (ra2 := x) end. split; [| done].
  exists own1, ra2. split; [eapply evo_trans; [exact He |]; apply evo_store; try done; apply He |].
  split; [done |]. split; [done |]. split; [| split; [done | done]]. exact Hm.
Qed.

Lemma settle_spec r ra own w size p w1 da :
  alloc_post r ra own w size p w1 -> w_das w !! ra_da ra = Some da -> da_mode da = JS_ARENA_MODE_REQUEST ->
  wp (settle r p size) (fun p' w' => p' = p /\ hook_post r ra own w size p w' /\
    (p <> 0 -> w_mem w' = w_mem w1)) w1.
Proof.
  intros Ha Hd Hreq. unfold settle. destruct (Z.eqb_spec p 0) as [-> | Hnz].
  - wp_step. eapply wp_mono; [by apply (note_oom_spec r ra own w size w1 da) |].
    intros u w' Hh. simpl. wp_steps. done.
  - wp_steps. eapply wp_mono; [apply (add_used_spec r ra own w size p w1); by apply alloc_hook |].
    intros _ w' [Hh Hm]. simpl. wp_steps. done.
Qed.
End ops.
