(* ===== verification/ArenaHooks.v ===== *)
(** * Reset and the allocator hooks preserve the invariant

    Specifications of [js_request_arena_reset] and of [jda_malloc],
    [jda_calloc], [jda_realloc], [jda_free] in request mode, against the
    interfaces of [ArenaWorld]. *)

From stdpp Require Import base list numbers gmap.
From Stdlib Require Import ZArith Lia.
From S2P Require Import Prelude Memory ChunkTable BaseRanges Thermometer BumpArena ArenaWorld.
From S2P Require Import RequestArena ArenaInvariant DualArena ArenaOps.

#[local] Open Scope m_scope.

Section hooks.
Context `{EV : Env} `{EL : !EnvLaws} `{MS : Mspace} `{ML : !MspaceLaws}.

(** ** Reset *)

(** A request arena right after its mode was applied to its head extent. *)
Record fresh_arena (ra ra' : JSRequestArena) (h : extent) : Prop := {
  fa_chunks : chunks ra' = [h];
  fa_mode : ra_mode ra' = mode_next ra;
  fa_next : mode_next ra' = mode_next ra;
  fa_bump : ra_mode ra' = JS_ARENA_REQ_MODE_BUMP -> bump ra' = bump_fresh 528 /\ msp ra' = None;
  fa_used : ra_mode ra' = JS_ARENA_REQ_MODE_GC -> used ra' = 0
}.

Lemma bump_fresh_ok h : 4096 <= snd h -> bump_ok [h] (bump_fresh 528).
Proof.
  intros Hh. exists h. simpl. split; [done |]. unfold bump_low. simpl. split; [lia |].
  split; [by exists 33 | by left].
Qed.

Lemma extent_min h : extent_ok h -> 4096 <= snd h.
Proof. intros (_ & _ & [k Hk] & H0 & _). lia. Qed.

Lemma request_mode_apply_spec own w r ra h :
  wcore own (w_ras w) w -> w_ras w !! r = Some ra -> chunks ra = [h] ->
  wp (request_mode_apply r) (fun _ w' => exists ra', evo r ra ra' own w own w' /\
    mode_ok JS_ARENA_MODE_REQUEST ra' /\ fresh_arena ra ra' h /\ oom ra' = oom ra /\
    w_das w' = w_das w) w.
Proof.
  intros Hw Hr Hc. unfold request_mode_apply. wp_step. apply (wp_load_ra r ra); [done |]. rewrite Hc.
  destruct (wi_ras _ _ _ Hw r ra Hr) as [Hcr _]. pose proof (rc_floor _ _ Hcr) as Hfl.
  assert (Hok : extent_ok h).
  { apply (proj1 (Forall_forall _ _) (ra_chunks_ok _ _ _ _ _ Hw Hr) h). rewrite Hc. by left. }
  pose proof (extent_min h Hok) as Hmin. pose proof Hok as (K1 & _ & _ & _ & K5).
  simpl. destruct (mode_next ra) eqn:Hmn.
  - wp_steps. rewrite Hfl.
    destruct (law_create (w_mem w) (fst h + 528) (snd h - 528)) as (ms & m' & -> & Eseg & Hag); [lia | lia | lia |].
    wp_steps. set (ra' := ra_set_msp _ _ _). exists ra'.
    assert (He1 : evo r ra ra own w own (w_set_mem w m')).
    { apply evo_mem; try done. rewrite Hc. by apply (agree_outside_territory [h]). }
    split; [eapply evo_trans; [exact He1 |]; apply evo_store; try done; apply He1 |].
    split; [split; [simpl; by rewrite Hc |]; simpl; exists ms; split; [done |]; by rewrite Hc |].
    split; [by split |]. done.
  - wp_steps. set (ra1 := ra_set_msp _ None _). set (w1 := w_set_ras w _).
    assert (He1 : evo r ra ra1 own w own w1) by (apply evo_store; done).
    unfold req_bump_reset. wp_step. apply (wp_load_ra r ra1); [apply He1 |]. wp_steps.
    set (ra2 := ra_set_bump ra1 _). exists ra2.
    assert (He2 : evo r ra1 ra2 own w1 own (w_set_ras w1 (<[r := ra2]> (w_ras w1)))).
    { apply evo_store; try done; apply He1. }
    split; [by eapply evo_trans |]. simpl. rewrite Hfl.
    split; [split; [simpl; by rewrite Hc |]; simpl; rewrite Hc; by apply bump_fresh_ok |].
    split; [| done]. split; try done. intros _. simpl. by rewrite Hfl.
Qed.

(** Giving back every extent but the head. *)
Lemma evo_release_extents own w r ra h l :
  wcore own (w_ras w) w -> w_ras w !! r = Some ra -> chunks ra = h :: l ->
  wp (req_release_extents r) (fun _ w' => exists own',
    evo r ra (ra_set_brk (ra_with ra [h]) 0) own w own' w' /\ w_mem w' = w_mem w) w.
Proof.
  intros Hw Hr Hl. eapply wp_mono; [by apply (req_release_extents_spec own w r ra h l) |].
  intros _ w' (own' & w1 & -> & Hw' & [G1 G2 G3 G4 G5 G6 G7 G8]). exists own'. split; [| done].
  split; simpl in *; try done.
  - apply lookup_insert_eq.
  - intros r' Hne. by rewrite lookup_insert_ne.
  - by rewrite Hl.
  - intros b hb Hb Hf. split; [| by rewrite G6]. apply G8; [done |]. intros Hin.
    assert (own !! b = Some (HChunk r)) as E.
    { apply (wi_chunk _ _ _ Hw). exists ra. split; [done |]. rewrite Hl. by right. }
    rewrite Hb in E. injection E as ->. by apply Hf.
Qed.

Definition reset_done (da : JSDualArena) (ra ra' : JSRequestArena) (h : extent) : Prop :=
  chunks ra' = [h] /\ extents ra' = 1 /\ held ra' = snd h /\ oom ra' = oom_none /\
  match da_mode da with
  | JS_ARENA_MODE_REQUEST => fresh_arena ra ra' h
  | JS_ARENA_MODE_BASE => bump ra' = bump_fresh 528
  end.

Lemma evo_core_held r ra ra' own w own' w' h :
  evo r ra ra' own w own' w' -> chunks ra' = [h] -> extents ra' = 1 /\ held ra' = snd h.
Proof.
  intros He Hc. destruct (wi_ras _ _ _ (ev_core _ _ _ _ _ _ _ He) r ra' (ev_ra _ _ _ _ _ _ _ He)) as [[C1 C2 C3 C4 C5 C6 C7] _].
  rewrite C3, C4, Hc. simpl. unfold lenZ. simpl. lia.
Qed.

Lemma reset_spec own w r ra da :
  winv own w -> w_ras w !! r = Some ra -> w_das w !! ra_da ra = Some da ->
  exists h, hd_error (chunks ra) = Some h /\
  wp (js_request_arena_reset r) (fun _ w' => exists own' ra',
    evo r ra ra' own w own' w' /\ winv own' w' /\ reset_done da ra ra' h) w.
Proof.
  intros Hv Hr Hd. pose proof (wv_core _ _ Hv) as Hw. pose proof (wv_modes _ _ Hv r ra da Hr Hd) as Hm.
  assert (Hne : exists h l, chunks ra = h :: l).
  { unfold mode_ok in Hm. destruct (da_mode da).
    - destruct Hm as (h & E & _). by exists h, [].
    - destruct Hm as [Hne _]. destruct (chunks ra) as [| h l]; [done |]. by exists h, l. }
  destruct Hne as (h & l & Hl). exists h. split; [by rewrite Hl |].
  assert (Hok : extent_ok h).
  { apply (proj1 (Forall_forall _ _) (ra_chunks_ok _ _ _ _ _ Hw Hr) h). rewrite Hl. by left. }
  unfold js_request_arena_reset. wp_step. eapply wp_mono; [by apply (evo_release_extents own w r ra h l) |].
  intros u w1 (own1 & He1 & _). set (ra1 := ra_set_brk (ra_with ra [h]) 0) in *.
  wp_step. apply (wp_load_ra r ra1); [apply He1 |].
  destruct (evo_da_mode _ _ _ _ _ _ _ da He1 Hd) as (da1 & Hd1 & Em1).
  wp_step. apply (wp_load_da _ da1); [done |]. wp_step. rewrite Em1.
  assert (Hfin : forall w2 ra2, evo r ra ra2 own w own1 w2 -> chunks ra2 = [h] ->
    mode_ok (da_mode da) (ra_set_oom ra2 oom_none) ->
    match da_mode da with
    | JS_ARENA_MODE_REQUEST => fresh_arena ra (ra_set_oom ra2 oom_none) h
    | JS_ARENA_MODE_BASE => bump ra2 = bump_fresh 528
    end ->
    wp (oom_clear r) (fun _ w' => exists own' ra',
      evo r ra ra' own w own' w' /\ winv own' w' /\ reset_done da ra ra' h) w2).
  { intros w2 ra2 He2 Hc2 Hmk Hfa. unfold oom_clear. wp_step. apply (wp_load_ra r ra2); [apply He2 |]. wp_steps.
    set (ra3 := ra_set_oom ra2 oom_none).
    assert (He3 : evo r ra ra3 own w own1 (w_set_ras w2 (<[r := ra3]> (w_ras w2)))).
    { eapply evo_trans; [exact He2 |]. apply evo_store; try done; apply He2. }
    exists own1, ra3. split; [done |]. split.
    - apply (evo_winv r ra ra3 own w); try done. intros da' Hd'. by simplify_eq.
    - destruct (evo_core_held _ _ _ _ _ _ _ h He3 Hc2) as [X1 X2]. by split. }
  destruct (da_mode da) eqn:Edm; simpl.
  - unfold req_bump_reset. wp_step. apply (wp_load_ra r ra1); [apply He1 |]. wp_steps.
    set (ra2 := ra_set_bump ra1 _). set (w2 := w_set_ras w1 _).
    destruct (wi_ras _ _ _ Hw r ra Hr) as [Hcr _]. pose proof (rc_floor _ _ Hcr) as Hfl.
    assert (He2 : evo r ra ra2 own w own1 w2).
    { eapply evo_trans; [exact He1 |]. apply evo_store; try done; apply He1. }
    apply (Hfin w2 ra2); try done; simpl; rewrite Hfl; [by exists h | done].
  - eapply wp_mono; [apply (request_mode_apply_spec own1 w1 r ra1 h); try done; apply He1 |].
    intros _ w2 (ra2 & He2 & Hmk & Hfa & _ & _).
    apply (Hfin w2 ra2); [by eapply evo_trans | apply Hfa | done |].
    destruct Hfa as [F1 F2 F3 F4 F5]. by split.
Qed.

(** ** Hooks in request mode *)

Section request_mode.
Context (own : owners_map) (w : world) (d r : Z) (da : JSDualArena) (ra : JSRequestArena).
Hypothesis Hv : winv own w.
Hypothesis Hd : w_das w !! d = Some da.
Hypothesis Hreq : da_mode da = JS_ARENA_MODE_REQUEST.
Hypothesis Hcur : da_cur da = r.
Hypothesis Hr0 : r <> 0.
Hypothesis Hr : w_ras w !! r = Some ra.

Lemma cur_da : ra_da ra = d.
Proof.
  destruct (lk_cur _ (wv_links _ _ Hv) d da Hd) as [Hz | [Hin _]]; [congruence |].
  destruct (lk_in _ (wv_links _ _ Hv) d da _ Hd Hin) as (ra0 & H0 & E). congruence.
Qed.

Lemma cur_mode : mode_ok JS_ARENA_MODE_REQUEST ra.
Proof. rewrite <- Hreq. eapply (wv_modes _ _ Hv); [exact Hr |]. by rewrite cur_da. Qed.

Lemma cur_lookup : w_das w !! ra_da ra = Some da.
Proof. by rewrite cur_da. Qed.

Lemma hook_inv size p w' : hook_post r ra own w size p w' -> exists own', winv own' w'.
Proof.
  intros (own' & ra' & He & _ & _ & Hm & _). exists own'. apply (evo_winv r ra ra' own w); try done.
  intros da' Hd'. rewrite cur_da in Hd'. simplify_eq. by rewrite Hreq.
Qed.

Lemma jda_malloc_spec size :
  0 <= size < 2 ^ 60 -> wp (jda_malloc d size) (hook_post r ra own w size) w.
Proof.
  intros Hs. pose proof (wv_core _ _ Hv) as Hw. pose proof cur_mode as Hm. unfold jda_malloc.
  wp_step. apply (wp_load_da d da); [done |]. rewrite Hreq, Hcur. destruct (Z.eqb_spec r 0); [done |].
  wp_step. apply (wp_load_ra r ra); [done |]. destruct (ra_mode ra) eqn:Emd.
  - wp_step. eapply wp_mono.
    { apply (with_mspace_spec own w r ra _ size (fun _ _ => True)); try done.
      intros ms m brk. pose proof (law_malloc ms m size brk) as Hl. revert Hl. apply mcall_ok_mono.
      intros segs [p ms'] m' [X1 X2]. split; [done |]. intros Hp. destruct (X2 Hp). done. }
    intros p w1 [Ha _]. eapply wp_mono; [apply (settle_spec r ra own w size p w1 da Ha cur_lookup Hreq) |].
    intros p' w' (-> & Hh & _). done.
  - wp_step. eapply wp_mono.
    { apply (req_bump_alloc_spec own w r ra size); try done. destruct Hm as [_ Hb]. by rewrite Emd in Hb. }
    intros p w1 Ha. simpl. destruct (Z.eqb_spec p 0) as [-> | Hnz]; wp_steps.
    + eapply wp_mono; [by apply (note_oom_spec r ra own w size w1 da Ha cur_lookup) |]. intros u w' Hh. by wp_steps.
    + by apply alloc_hook.
Qed.

(** After a refused bump allocation. *)
Lemma bump_settle size p w1 :
  alloc_post r ra own w size p w1 ->
  wp ((if p =? 0 then note_oom r size else mret tt) ;; mret p) (hook_post r ra own w size) w1.
Proof.
  intros Ha. destruct (Z.eqb_spec p 0) as [-> | Hnz]; wp_steps.
  - eapply wp_mono; [by apply (note_oom_spec r ra own w size w1 da Ha cur_lookup) |]. intros u w' Hh. by wp_steps.
  - by apply alloc_hook.
Qed.

(** [jda_calloc] returns zeroed memory in either mode. *)
Lemma jda_calloc_spec count size :
  0 < count -> 0 < size -> count * size < 2 ^ 60 ->
  wp (jda_calloc d count size) (fun p w' => hook_post r ra own w (count * size) p w' /\
    (p <> 0 -> forall i, 0 <= i < count * size -> load8 (w_mem w') (p + i) = 0)) w.
Proof.
  intros Hc Hs Hb. pose proof (wv_core _ _ Hv) as Hw. pose proof cur_mode as Hm. unfold jda_calloc.
  destruct (Z.eqb_spec count 0); [lia |]. destruct (Z.eqb_spec size 0); [lia |]. simpl.
  destruct (Z.ltb_spec (SIZE_MAX / size) count) as [Hov | _].
  { exfalso. assert (count <= SIZE_MAX / size); [| lia]. apply Z.div_le_lower_bound; [lia |]. unfold SIZE_MAX. lia. }
  wp_step. apply (wp_load_da d da); [done |]. rewrite Hreq, Hcur. destruct (Z.eqb_spec r 0); [done |].
  wp_step. apply (wp_load_ra r ra); [done |]. destruct (ra_mode ra) eqn:Emd.
  - wp_step. eapply wp_mono.
    { apply (with_mspace_spec own w r ra _ (count * size)
        (fun p m' => forall i, 0 <= i < count * size -> load8 m' (p + i) = 0)); try done.
      intros ms m brk. pose proof (law_calloc ms m count size brk) as Hl. revert Hl. apply mcall_ok_mono.
      intros segs [p ms'] m' [X1 X2]. by split. }
    intros p w1 [Ha Hz]. eapply wp_mono; [apply (settle_spec r ra own w _ p w1 da Ha cur_lookup Hreq) |].
    intros p' w' (-> & Hh & Hmem). split; [done |]. intros Hnz. rewrite Hmem by done. by apply Hz.
  - wp_step. eapply wp_mono.
    { apply (req_bump_alloc_spec own w r ra (count * size)); try done; [| nia].
      destruct Hm as [_ Hbb]. by rewrite Emd in Hbb. }
    intros p w1 Ha. simpl. destruct (Z.eqb_spec p 0) as [-> | Hnz]; wp_steps.
    + eapply wp_mono; [by apply (note_oom_spec r ra own w _ w1 da Ha cur_lookup) |]. intros u w' Hh. by wp_steps.
    + split.
      * apply alloc_hook; [| done]. unfold memset. apply alloc_post_fill; [done | done |].
        unfold lenZ. rewrite length_replicate. nia.
      * intros _ i Hi. simpl. rewrite load8_memset by nia. bool_lia.
Qed.

(** The usable size never aborts for a pointer with a known owner. *)
Lemma req_ptr_size_spec o ptr :
  o = 0 \/ is_Some (w_ras w !! o) ->
  wp (req_ptr_size o ptr) (fun n w' => w' = w) w.
Proof.
  intros Ho. unfold req_ptr_size. wp_steps. destruct (Z.eqb_spec o 0); [by wp_steps |].
  destruct Ho as [Ho | [rao Ho]]; [done |]. wp_step. apply (wp_load_ra o rao); [done |]. by wp_steps.
Qed.

Lemma owner_known ptr : 0 <= ptr -> owner_of (w_chunks w) ptr = 0 \/ is_Some (w_ras w !! owner_of (w_chunks w) ptr).
Proof.
  intros Hp. destruct (Z.eq_dec (owner_of (w_chunks w) ptr) 0) as [E | E]; [by left |]. right.
  destruct (proj1 (wi_owner _ _ _ (wv_core _ _ Hv) ptr _ Hp E) eq_refl) as (b & Hb & _).
  apply (wi_chunk _ _ _ (wv_core _ _ Hv)) in Hb as (rao & Ho & _). eauto.
Qed.

Lemma jda_realloc_spec ptr size :
  0 < ptr -> 0 < size < 2 ^ 60 -> wp (jda_realloc d ptr size) (hook_post r ra own w size) w.
Proof.
  intros Hp Hs. pose proof (wv_core _ _ Hv) as Hw. pose proof cur_mode as Hm. unfold jda_realloc.
  wp_step. apply (wp_load_da d da); [done |]. rewrite Hreq, Hcur.
  destruct (Z.eqb_spec ptr 0); [lia |]. destruct (Z.eqb_spec size 0); [lia |]. destruct (Z.eqb_spec r 0); [done |].
  wp_step. apply (wp_load_ra r ra); [done |]. wp_steps.
  apply (wp_lift _ (owner_of (w_chunks w) ptr)); [apply request_owner_spec; [apply Hw | lia] |].
  wp_step. eapply wp_mono; [apply req_ptr_size_spec, owner_known; lia |]. intros old_size w0 ->.
  destruct (ra_mode ra) eqn:Emd.
  - destruct (Z.eqb_spec (owner_of (w_chunks w) ptr) r) as [_ | _].
    + wp_step. eapply wp_mono.
      { apply (with_mspace_spec own w r ra _ size (fun _ _ => True)); try done.
        intros ms m brk. pose proof (law_realloc ms m ptr size brk) as Hl. revert Hl. apply mcall_ok_mono.
        intros segs [p ms'] m' [X1 X2]. split; [done |]. intros Hnz. destruct (X2 Hnz). done. }
      intros p w1 [Ha _]. simpl. destruct (Z.eqb_spec p 0) as [-> | Hnz]; wp_steps.
      * eapply wp_mono; [by apply (note_oom_spec r ra own w size w1 da Ha cur_lookup) |]. intros u w' Hh. by wp_steps.
      * eapply wp_mono; [by apply (add_used_spec r ra own w size p w1), alloc_hook |].
        intros u w' [Hh _]. by wp_steps.
    + wp_step. eapply wp_mono.
      { apply (with_mspace_spec own w r ra _ size (fun _ _ => True)); try done.
        intros ms m brk. pose proof (law_malloc ms m size brk) as Hl. revert Hl. apply mcall_ok_mono.
        intros segs [p ms'] m' [X1 X2]. split; [done |]. intros Hnz. destruct (X2 Hnz). done. }
      intros p w1 [Ha _]. simpl. destruct (Z.eqb_spec p 0) as [-> | Hnz]; wp_steps.
      * eapply wp_mono; [by apply (note_oom_spec r ra own w size w1 da Ha cur_lookup) |]. intros u w' Hh. by wp_steps.
      * eapply wp_mono.
        { apply (add_used_spec r ra own w size p). apply alloc_hook; [| done]. unfold memcpy.
          apply alloc_post_fill; [done | done |]. unfold lenZ. rewrite length_load_bytes.
          destruct (Z.ltb_spec size old_size); lia. }
        intros u w' [Hh _]. by wp_steps.
  - wp_step. eapply wp_mono.
    { apply (req_bump_realloc_spec own w r ra ptr size old_size); try done; try lia.
      destruct Hm as [_ Hbb]. by rewrite Emd in Hbb. }
    intros p w1 Ha. by apply bump_settle.
Qed.
End request_mode.

(** [jda_free] reaches the mspace of the pointer's owner and nothing else. *)
Lemma jda_free_spec own w d da ptr :
  winv own w -> w_das w !! d = Some da -> da_mode da = JS_ARENA_MODE_REQUEST -> 0 <= ptr ->
  (forall o rao dao, owner_of (w_chunks w) ptr = o -> w_ras w !! o = Some rao ->
     w_das w !! ra_da rao = Some dao -> da_mode dao = JS_ARENA_MODE_REQUEST) ->
  wp (jda_free d ptr) (fun _ w' =>
    let o := owner_of (w_chunks w) ptr in
    (w' = w /\ (ptr = 0 \/ o = 0 \/ exists rao, w_ras w !! o = Some rao /\ ra_mode rao = JS_ARENA_REQ_MODE_BUMP)) \/
    exists rao rao', w_ras w !! o = Some rao /\ o <> 0 /\ ra_mode rao = JS_ARENA_REQ_MODE_GC /\
      evo o rao rao' own w own w' /\ winv own w' /\ oom rao' = oom rao /\ mode_next rao' = mode_next rao) w.
Proof.
  intros Hv Hd Hreq Hp Hfr. pose proof (wv_core _ _ Hv) as Hw. unfold jda_free.
  wp_step. apply (wp_load_da d da); [done |]. rewrite Hreq.
  destruct (Z.eqb_spec ptr 0) as [-> | Hnz]; simpl; [wp_steps; left; tauto |].
  wp_steps. apply (wp_lift _ (owner_of (w_chunks w) ptr)); [by apply request_owner_spec; [apply Hw |] |].
  set (o := owner_of (w_chunks w) ptr) in *.
  destruct (Z.eqb_spec o 0) as [Ho | Ho]; [wp_steps; left; tauto |].
  destruct (owner_known own w Hv ptr Hp) as [Hz | [rao Hro]]; [done |]. fold o in Hro.
  destruct (lk_out _ (wv_links _ _ Hv) o rao Hro) as (dao & Hdao & _).
  pose proof (wv_modes _ _ Hv o rao dao Hro Hdao) as Hm. rewrite (Hfr o rao dao eq_refl Hro Hdao) in Hm.
  destruct Hm as [Hne Hmm]. wp_step. apply (wp_load_ra o rao); [done |].
  destruct (ra_mode rao) eqn:Emd; [| wp_steps; left; split; [done |]; right; right; by exists rao].
  destruct Hmm as (ms & Ems & Eseg). wp_steps. rewrite Ems.
  pose proof (law_free ms (w_mem w) ptr) as Hlf. destruct (mspace_free ms (w_mem w) ptr) as [ms' m'].
  destruct Hlf as [Eseg' Hag]. wp_steps. right.
  match goal with |- context [<[o := ?x]> _] => set (rao' := x) end.
  assert (He1 : evo o rao rao own w own (w_set_mem w m')).
  { apply evo_mem; try done. apply agree_outside_territory. by rewrite <- Eseg. }
  assert (He2 : evo o rao rao' own w own (w_set_ras (w_set_mem w m') (<[o := rao']> (w_ras (w_set_mem w m'))))).
  { eapply evo_trans; [exact He1 |]. apply evo_store; try done; apply He1. }
  exists rao, rao'. split; [done |]. split; [done |]. split; [done |]. split; [done |]. split; [| done].
  apply (evo_winv o rao rao' own w); try done. intros da' Hd'. rewrite (Hfr o rao da' eq_refl Hro Hd').
  split; [done |]. simpl. rewrite Emd. exists ms'. split; [done |]. congruence.
Qed.
End hooks.
