(* ===== verification/ArenaLifecycle.v ===== *)
(** * Creating, selecting, freezing and freeing arenas preserves the invariant

    [js_request_arena_new], [js_request_arena_free],
    [js_dual_arena_select_request], [js_dual_arena_set_request_mode],
    [js_dual_arena_freeze] and [js_dual_arena_new2] against [winv]. *)

From stdpp Require Import base list numbers gmap.
From Stdlib Require Import ZArith Lia.
From S2P Require Import Prelude Memory ChunkTable BaseRanges Thermometer BumpArena ArenaWorld.
From S2P Require Import RequestArena ArenaInvariant DualArena ArenaOps ArenaHooks.

#[local] Open Scope m_scope.

Section lifecycle.
Context `{EV : Env} `{EL : !EnvLaws} `{MS : Mspace} `{ML : !MspaceLaws}.

(** Every base block keeps its holder and bytes, every base arena its struct
    and mode. *)
Definition bases_kept (own : owners_map) (w : world) (own' : owners_map) (w' : world) : Prop :=
  (forall b d, own !! b = Some (HBase d) ->
     own' !! b = Some (HBase d) /\ mem_agree (w_mem w) (w_mem w') (fst b) (fst b + snd b)) /\
  (forall d da, w_das w !! d = Some da ->
     exists da', w_das w' !! d = Some da' /\ da_base da' = da_base da /\ da_mode da' = da_mode da).

(** Every dual arena has the same request selected and the same state cell. *)
Definition selected_alike (w w' : world) : Prop :=
  forall d da, w_das w !! d = Some da ->
    exists da', w_das w' !! d = Some da' /\ da_cur da' = da_cur da /\ state_cell da' = state_cell da.

Lemma sim_selection w w' : das_sim w w' -> selected_alike w w'.
Proof.
  intros Hs d da Hd. destruct (das_sim_lookup w w' d da Hs Hd) as (da' & Hd' & E).
  unfold strip, da_set_cache in E. exists da'. split; [done |]. split; congruence.
Qed.

Lemma bases_kept_refl own w : bases_kept own w own w.
Proof. split; [done |]. intros d da Hd. by exists da. Qed.

Lemma bases_kept_trans own1 w1 own2 w2 own3 w3 :
  bases_kept own1 w1 own2 w2 -> bases_kept own2 w2 own3 w3 -> bases_kept own1 w1 own3 w3.
Proof.
  intros [A1 A2] [B1 B2]. split.
  - intros b d Hb. destruct (A1 b d Hb) as [H1 M1]. destruct (B1 b d H1) as [H2 M2].
    split; [done | by eapply mem_agree_trans].
  - intros d da Hd. destruct (A2 d da Hd) as (da2 & H2 & E2 & F2). destruct (B2 d da2 H2) as (da3 & H3 & E3 & F3).
    exists da3. split; [done |]. split; congruence.
Qed.

Lemma sim_bases w w' d da : das_sim w w' -> w_das w !! d = Some da ->
  exists da', w_das w' !! d = Some da' /\ da_base da' = da_base da /\ da_mode da' = da_mode da.
Proof.
  intros Hs Hd. destruct (das_sim_lookup w w' d da Hs Hd) as (da' & H' & E). exists da'.
  split; [done |]. unfold strip, da_set_cache in E. split; congruence.
Qed.

Lemma evo_bases r ra ra' own w own' w' : evo r ra ra' own w own' w' -> bases_kept own w own' w'.
Proof.
  intros He. split.
  - intros b d Hb. by apply (ev_frame _ _ _ _ _ _ _ He b (HBase d)).
  - intros d da. apply sim_bases, He.
Qed.

(** Changing a dual arena's links leaves the core alone. *)
Lemma wcore_das own ras w d da da' :
  wcore own ras w -> w_das w !! d = Some da -> da_base da' = da_base da -> cache da' = cache da ->
  wcore own ras (w_set_das w (<[d := da']> (w_das w))).
Proof.
  intros [H1 H2 H3 H4 H5 H6 H7 H8 H9 H10 H11] Hd Eb Ec. split; simpl; try done.
  - intros b d0. rewrite H4. split; intros (da0 & H0 & Hb).
    + destruct (decide (d0 = d)) as [-> | Hne].
      * exists da'. rewrite lookup_insert_eq. simplify_eq. by rewrite Ec.
      * exists da0. by rewrite lookup_insert_ne.
    + apply lookup_insert_Some in H0 as [[<- <-] | [Hne H0]]; [exists da; by rewrite <- Ec | by exists da0].
  - intros b d0. rewrite H5. split; intros (da0 & H0 & Hb).
    + destruct (decide (d0 = d)) as [-> | Hne].
      * exists da'. rewrite lookup_insert_eq. simplify_eq. unfold base_of in *. by rewrite Eb.
      * exists da0. by rewrite lookup_insert_ne.
    + apply lookup_insert_Some in H0 as [[<- <-] | [Hne H0]]; [| by exists da0].
      exists da. split; [done |]. unfold base_of in *. by rewrite <- Eb.
  - intros d0 da0 H0. apply lookup_insert_Some in H0 as [[<- <-] | [Hne H0]]; [rewrite Ec |]; by eapply H6.
  - intros r ra Hr. destruct (H10 r ra Hr) as [C D]. split; [done |].
    destruct (decide (ra_da ra = d)) as [-> | Hne]; [rewrite lookup_insert_eq; eauto | by rewrite lookup_insert_ne].
  - intros r [Hr | Hr]; [apply H11; by left |]. apply H11. right.
    destruct (decide (r = d)) as [-> | Hne]; [by exists da | by rewrite lookup_insert_ne in Hr].
Qed.

(** ** Selection and mode *)

(** Selecting a request, or none, and setting the state cell to its slot (to
    anything when none is selected). *)
Lemma winv_set_cur own w d da r cell :
  winv own w -> w_das w !! d = Some da ->
  r = 0 \/ (r ∈ requests da /\ exists ra, w_ras w !! r = Some ra /\ slot_of ra = Some cell) ->
  let w' := w_set_das w (<[d := da_set_cur da r cell]> (w_das w)) in
  winv own w' /\ bases_kept own w own w'.
Proof.
  intros [V1 V2 [L1 L2 L3 L4 L5] V4 V5] Hd Hc.
  assert (Hlook : forall d0 da0, <[d := da_set_cur da r cell]> (w_das w) !! d0 = Some da0 ->
    exists da1, w_das w !! d0 = Some da1 /\ requests da0 = requests da1 /\ da_mode da0 = da_mode da1 /\
      da_base da0 = da_base da1 /\ (d0 = d \/ da0 = da1)).
  { intros d0 da0 H0. apply lookup_insert_Some in H0 as [[<- <-] | [Hne H0]]; [exists da; split_and!; auto | exists da0; split_and!; auto]. }
  split; [split; simpl; try done |].
  - by apply (wcore_das own (w_ras w) w d da).
  - intros r' ra' da0 Hr' H0. destruct (Hlook _ _ H0) as (da1 & H1 & _ & -> & _). by eapply V2.
  - split; simpl.
    + intros d0 da0 H0. destruct (Hlook _ _ H0) as (da1 & H1 & -> & _). by eapply L1.
    + intros d0 da0 r' H0. destruct (Hlook _ _ H0) as (da1 & H1 & -> & _). by eapply L2.
    + intros r' ra' Hr'. destruct (L3 r' ra' Hr') as (da1 & H1 & Hin). destruct (decide (ra_da ra' = d)) as [E | Hne].
      * exists (da_set_cur da r cell). rewrite E, lookup_insert_eq. split; [done |]. simpl.
        rewrite E in H1. by simplify_eq.
      * exists da1. by rewrite lookup_insert_ne.
    + intros d0 da0 H0. apply lookup_insert_Some in H0 as [[<- <-] | [Hne H0]]; [by simpl | by eapply L4].
    + intros r' ra' Hr'. pose proof (L5 r' ra' Hr') as Hn. rewrite lookup_insert_ne; [done |]. congruence.
  - intros d0 da0 H0. destruct (Hlook _ _ H0) as (da1 & H1 & _ & _ & -> & _). by eapply V4.
  - split; [done |]. simpl. intros d0 da0 H0. destruct (decide (d0 = d)) as [-> | Hne].
    + exists (da_set_cur da r cell). rewrite lookup_insert_eq. by simplify_eq.
    + exists da0. by rewrite lookup_insert_ne.
Qed.

(** The head extent of a live request arena. *)
Lemma head_extent own w r ra :
  winv own w -> w_ras w !! r = Some ra -> exists h l, chunks ra = h :: l.
Proof.
  intros Hv Hr. destruct (lk_out _ (wv_links _ _ Hv) r ra Hr) as (da & Hd & _).
  pose proof (wv_modes _ _ Hv r ra da Hr Hd) as Hm. unfold mode_ok in Hm. destruct (da_mode da).
  - destruct Hm as (h & E & _). by exists h, [].
  - destruct Hm as [Hne _]. destruct (chunks ra) as [| h l]; [done |]. by exists h, l.
Qed.

Lemma select_request_spec own w d da r :
  winv own w -> w_das w !! d = Some da -> r = 0 \/ r ∈ requests da ->
  wp (js_dual_arena_select_request d r) (fun _ w' => winv own w' /\ bases_kept own w own w' /\
    exists cell, w' = w_set_das w (<[d := da_set_cur da r cell]> (w_das w)) /\
      (r = 0 -> cell = 0) /\ (forall ra, w_ras w !! r = Some ra -> r <> 0 -> slot_of ra = Some cell)) w.
Proof.
  intros Hv Hd Hr. pose proof (wv_links _ _ Hv) as Hl. unfold js_dual_arena_select_request.
  destruct (Z.eqb_spec r 0) as [-> | Hr0].
  - wp_steps. apply (wp_load_da d da); [done |]. wp_steps.
    destruct (winv_set_cur own w d da 0 0 Hv Hd ltac:(by left)) as [F1 F2].
    split; [done |]. split; [done |]. by exists 0.
  - destruct Hr as [Hr | Hr]; [done |]. destruct (lk_in _ Hl d da r Hd Hr) as (ra & Hra & Eda).
    destruct (head_extent own w r ra Hv Hra) as (h & l & El).
    wp_step. wp_step. apply (wp_load_ra r ra); [done |]. eapply wp_lift; [by rewrite Eda, Z.eqb_refl |].
    wp_step. unfold js_request_arena_slot. wp_step. apply (wp_load_ra r ra); [done |]. rewrite El. wp_steps.
    apply (wp_load_da d da); [done |]. wp_steps. change ARENA_PREFIX_LEN with 16.
    assert (Hsl : slot_of ra = Some (fst h + 16)) by (unfold slot_of; by rewrite El).
    destruct (winv_set_cur own w d da r (fst h + 16) Hv Hd) as [F1 F2]; [right; split; [done |]; by exists ra |].
    split; [done |]. split; [done |]. exists (fst h + 16). split; [done |]. split; [done |].
    intros ra' Hra' _. by simplify_eq.
Qed.

Lemma set_request_mode_spec own w d da md :
  winv own w -> w_das w !! d = Some da ->
  wp (js_dual_arena_set_request_mode d md) (fun _ w' => winv own w' /\ bases_kept own w own w' /\
    w_das w' = w_das w /\ w_mem w' = w_mem w /\
    (forall r, r <> da_cur da -> w_ras w' !! r = w_ras w !! r) /\
    (forall ra, w_ras w !! da_cur da = Some ra -> da_cur da <> 0 ->
       w_ras w' !! da_cur da = Some (ra_set_mode ra (ra_mode ra) md))) w.
Proof.
  intros Hv Hd. unfold js_dual_arena_set_request_mode. wp_step. apply (wp_load_da d da); [done |].
  destruct (Z.eqb_spec (da_cur da) 0) as [Hz | Hc0]; wp_steps.
  { split; [done |]. split; [apply bases_kept_refl |]. by split_and!. }
  destruct (lk_cur _ (wv_links _ _ Hv) d da Hd) as [Hz | [Hin (ra & Hra & _)]]; [done |].
  apply (wp_load_ra _ ra); [done |]. wp_steps.
  set (ra' := ra_set_mode ra (ra_mode ra) md).
  assert (He : evo (da_cur da) ra ra' own w own (w_set_ras w (<[da_cur da := ra']> (w_ras w)))).
  { apply evo_store; try done. apply Hv. }
  split; [| split; [by eapply evo_bases | split; [done | split; [done | split]]]].
  - apply (evo_winv (da_cur da) ra ra' own w); try done. intros da' Hd'.
    pose proof (wv_modes _ _ Hv _ ra da' Hra Hd') as Hm. exact Hm.
  - apply He.
  - intros ra0 H0 _. simplify_eq. apply He.
Qed.

(** ** Creating a request arena *)

(** A struct with no extents yet. *)
Lemma wcore_add_ra own w r ra e :
  wcore own (w_ras w) w -> w_ras w !! r = None -> ra_core r ra -> chunks ra = [] ->
  is_Some (w_das w !! ra_da ra) -> outs e = outs (w_env w) -> live_structs e = {[ r ]} ∪ live_structs (w_env w) ->
  let w' := w_set_ras (w_set_env w e) (<[r := ra]> (w_ras w)) in
  wcore own (w_ras w') w'.
Proof.
  intros [H1 H2 H3 H4 H5 H6 H7 H8 H9 H10 H11] Hr Hc Hch Hd Eo El. split; simpl; try done.
  - intros b h Hb. rewrite Eo. by apply (H1 b h).
  - intros b r'. rewrite H3. split; intros (ra0 & H0 & Hb).
    + exists ra0. rewrite lookup_insert_ne; [done |]. congruence.
    + apply lookup_insert_Some in H0 as [[<- <-] | [Hne H0]]; [| by exists ra0].
      rewrite Hch in Hb. by apply elem_of_nil in Hb.
  - intros r' ra0 H0. apply lookup_insert_Some in H0 as [[<- <-] | [Hne H0]]; [done | by apply H10].
  - intros r' Hr'. rewrite El. destruct (decide (r' = r)) as [-> | Hne]; [set_solver |].
    apply elem_of_union_r, H11. destruct Hr' as [Hr' | Hr']; [left; by rewrite lookup_insert_ne in Hr' | by right].
Qed.

Lemma wcore_del_ra own ras w r ra w' :
  wcore own ras w -> ras !! r = Some ra -> chunks ra = [] -> w_das w !! r = None ->
  w_das w' = w_das w -> w_chunks w' = w_chunks w ->
  outs (w_env w') = outs (w_env w) -> live_structs (w_env w') = live_structs (w_env w) ∖ {[ r ]} ->
  wcore own (delete r ras) w'.
Proof.
  intros [H1 H2 H3 H4 H5 H6 H7 H8 H9 H10 H11] Hr Hch Hdr Ed Ec Eo El.
  split; rewrite ?Ed, ?Ec, ?Eo; try done.
  - intros b r'. rewrite H3. split; intros (ra0 & H0 & Hb).
    + exists ra0. rewrite lookup_delete_ne; [done |]. intros <-. simplify_eq. rewrite Hch in Hb.
      by apply elem_of_nil in Hb.
    + apply lookup_delete_Some in H0 as [_ H0]. by exists ra0.
  - intros r' ra0 H0. apply lookup_delete_Some in H0 as [_ H0]. by apply H10.
  - intros r' Hr'. rewrite El. apply elem_of_difference. split.
    + apply H11. destruct Hr' as [[x Hx] | Hr']; [left; apply lookup_delete_Some in Hx as [_ Hx]; eauto | by right].
    + intros E. apply elem_of_singleton in E as ->. destruct Hr' as [[x Hx] | [x Hx]].
      * by apply lookup_delete_Some in Hx as [? _].
      * congruence.
Qed.

(** The invariant with one more arena linked in. *)
Lemma winv_add own w d da r ra' own2 w2 da2 :
  winv own w -> w_das w !! d = Some da -> w_ras w !! r = None -> w_das w !! r = None ->
  wcore own2 (w_ras w2) w2 -> das_sim w w2 -> w_ranges w2 = w_ranges w ->
  w_ras w2 !! r = Some ra' -> (forall r', r' <> r -> w_ras w2 !! r' = w_ras w !! r') ->
  (forall b h, own !! b = Some h -> foreign r h ->
     own2 !! b = Some h /\ mem_agree (w_mem w) (w_mem w2) (fst b) (fst b + snd b)) ->
  ra_da ra' = d -> mode_ok (da_mode da) ra' -> w_das w2 !! d = Some da2 ->
  let w3 := w_set_das w2 (<[d := da_set_requests da2 (r :: requests da2)]> (w_das w2)) in
  winv own2 w3 /\ bases_kept own w own2 w3.
Proof.
  intros [V1 V2 [L1 L2 L3 L4 L5] V4 V5] Hd Hr Hdr Hw2 Hsim Hrng Hr2 Hoth Hfr Eda Hmk Hd2 w3.
  assert (Hlook : forall d0 da0, w_das w3 !! d0 = Some da0 -> exists da1, w_das w !! d0 = Some da1 /\
    requests da0 = (if decide (d0 = d) then r :: requests da1 else requests da1) /\
    da_mode da0 = da_mode da1 /\ da_base da0 = da_base da1 /\ da_cur da0 = da_cur da1 /\
    state_cell da0 = state_cell da1).
  { simpl. intros d0 da0 H0.
    assert (Hb : forall da', w_das w2 !! d0 = Some da' -> exists da1, w_das w !! d0 = Some da1 /\ strip da1 = strip da').
    { intros da' H'. destruct (das_sim_lookup w2 w d0 da') as (da1 & X1 & X2); [by symmetry | done |]. by exists da1. }
    apply lookup_insert_Some in H0 as [[<- <-] | [Hne H0]].
    - destruct (Hb da2 Hd2) as (da1 & X1 & X2). exists da1. rewrite decide_True by done. unfold strip, da_set_cache in X2.
      simpl. split; [done |]. split_and!; congruence.
    - destruct (Hb da0 H0) as (da1 & X1 & X2). exists da1. rewrite decide_False by done. unfold strip, da_set_cache in X2.
      split; [done |]. split_and!; congruence. }
  assert (Hlook2 : forall d0 da1, w_das w !! d0 = Some da1 -> is_Some (w_das w3 !! d0)).
  { simpl. intros d0 da1 H1. destruct (decide (d0 = d)) as [-> | Hne]; [rewrite lookup_insert_eq; eauto |].
    rewrite lookup_insert_ne by done. destruct (das_sim_lookup w w2 d0 da1 Hsim H1) as (da' & X & _). eauto. }
  split; [split |].
  - by apply (wcore_das own2 (w_ras w2) w2 d da2).
  - simpl. intros r' ra0 da0 H0 Hd0. destruct (Hlook _ _ Hd0) as (da1 & X1 & _ & -> & _).
    destruct (decide (r' = r)) as [-> | Hne].
    + simplify_eq. done.
    + rewrite Hoth in H0 by done. by eapply V2.
  - split; simpl.
    + intros d0 da0 H0. destruct (Hlook _ _ H0) as (da1 & X1 & -> & _). case_decide as Ed; [| by eapply L1].
      constructor; [| by eapply L1]. intros Hin. destruct (L2 d0 da1 r X1 Hin) as (ra0 & X & _). congruence.
    + intros d0 da0 r' H0 Hin. destruct (Hlook _ _ H0) as (da1 & X1 & E & _). rewrite E in Hin.
      assert (Hcase : r' = r /\ d0 = d \/ r' ∈ requests da1).
      { case_decide; [| auto]. apply elem_of_cons in Hin as [-> | Hin]; auto. }
      destruct Hcase as [[-> ->] | Hin'].
      * exists ra'. done.
      * destruct (L2 d0 da1 r' X1 Hin') as (ra0 & X & Y). exists ra0. split; [| done].
        rewrite Hoth; [done |]. congruence.
    + intros r' ra0 H0. destruct (decide (r' = r)) as [-> | Hne].
      * simplify_eq. exists (da_set_requests da2 (r :: requests da2)). rewrite lookup_insert_eq. split; [done | by left].
      * rewrite Hoth in H0 by done. destruct (L3 r' ra0 H0) as (da1 & X1 & Hin).
        destruct (Hlook2 _ _ X1) as [da0 X0]. exists da0. split; [done |].
        destruct (Hlook _ _ X0) as (da1' & X1' & E & _). simplify_eq. rewrite E. case_decide; [by right | done].
    + intros d0 da0 H0. destruct (Hlook _ _ H0) as (da1 & X1 & E & _ & _ & -> & ->). rewrite E.
      destruct (L4 d0 da1 X1) as [Hz | [Hin (ra0 & H1 & Hs)]]; [by left |]. right. split.
      * case_decide; [by right | done].
      * exists ra0. split; [| done]. rewrite Hoth; [done |]. congruence.
    + intros r' ra0 H0. apply eq_None_not_Some. intros [x Hx]. destruct (Hlook _ _ Hx) as (da1 & X1 & _).
      destruct (decide (r' = r)) as [-> | Hne]; [congruence |]. rewrite Hoth in H0 by done.
      rewrite (L5 r' ra0 H0) in X1. done.
  - simpl. intros d0 da0 H0. destruct (Hlook _ _ H0) as (da1 & X1 & _ & _ & -> & _).
    destruct (V4 d0 da1 X1) as [bs Hbs]. exists bs. apply (arena_inv_frame _ (w_mem w)); [done |].
    destruct (Hfr (buf (da_base da1), capacity (da_base da1)) (HBase d0)) as [_ Hm]; [| done | exact Hm].
    apply (wi_base _ _ _ V1). exists da1. split; [done |]. unfold base_of.
    destruct (ai_buf _ _ _ Hbs) as [Hb0 _]. by destruct (Z.eqb_spec (buf (da_base da1)) 0); [lia |].
  - simpl. by rewrite Hrng.
  - split.
    + intros b d0 Hb. by apply (Hfr b (HBase d0)).
    + intros d0 da1 H1. destruct (Hlook2 _ _ H1) as [da0 H0]. exists da0. split; [done |].
      destruct (Hlook _ _ H0) as (da1' & X1 & _ & E1 & E2 & _). by simplify_eq.
Qed.

Definition cap_legal (c : Z) : Prop := 0 <= c < 2 ^ 61 \/ c = SIZE_MAX.
Definition prov_legal (p : option JSArenaChunkProvider) : Prop :=
  match p with Some (DefaultProvider _) => False | _ => True end.

Lemma cap_rounded c :
  cap_legal c ->
  let c1 := if c =? 0 then ARENA_DEFAULT_SIZE else c in
  let cap' := if c1 =? SIZE_MAX then SIZE_MAX else pages_round env_pagesz c1 in
  4096 <= cap' < 2 ^ 64.
Proof.
  intros Hc c1 cap'. assert (H1 : 0 < c1 < 2 ^ 61 \/ c1 = SIZE_MAX).
  { subst c1. destruct (Z.eqb_spec c 0); [left; vm_compute; by split |]. destruct Hc; [left; lia | by right]. }
  subst cap'. destruct (Z.eqb_spec c1 SIZE_MAX); [vm_compute; split; [discriminate | done] |].
  destruct H1 as [H1 |]; [| done]. destruct (pages_round_ok c1 ltac:(lia)) as [[R1 R2] [k Hk]]. lia.
Qed.

(** Post of [js_request_arena_new]: refused, or a new arena linked to [d]. *)
Definition new_post (own : owners_map) (w : world) (d r : Z) (w' : world) : Prop :=
  exists own', winv own' w' /\ bases_kept own w own' w' /\
    (r <> 0 -> w_ras w !! r = None /\ exists da', w_das w' !! d = Some da' /\ r ∈ requests da') /\
    (forall r', r' <> r -> w_ras w' !! r' = w_ras w !! r') /\
    selected_alike w w'.

(** Freeing the struct of an arena that got no extent. *)
Lemma new_failed own w d da r e ra0 own1 w1 :
  winv own w -> w_das w !! d = Some da -> r <> 0 ->
  live_structs e = {[ r ]} ∪ live_structs (w_env w) -> ~ (r ∈ live_structs (w_env w)) ->
  chunks ra0 = [] ->
  wcore own1 (w_ras w1) w1 -> quiet own (w_set_ras (w_set_env w e) (<[r := ra0]> (w_ras w))) own1 w1 ->
  w_ras w1 = <[r := ra0]> (w_ras w) ->
  wp (free_ra r ;; mret 0) (new_post own w d) w1.
Proof.
  intros Hv Hd Hr0 El Hfresh Hch Hw1 Hq Er1. unfold free_ra. wp_steps.
  assert (Hrn : w_ras w !! r = None /\ w_das w !! r = None).
  { split; apply eq_None_not_Some; intros Hs; apply Hfresh, (wi_live _ _ _ (wv_core _ _ Hv)); auto. }
  destruct Hrn as [Hrn Hdn]. destruct Hq as [Q1 Q2 Q3 Q4 Q5 Q6 Q7]. simpl in *.
  destruct (law_struct_free (w_env w1) r) as [F1 F2].
  assert (Hdn1 : w_das w1 !! r = None).
  { apply eq_None_not_Some. intros [x Hx]. assert (Hs : das_sim w w1) by exact Q1.
    destruct (das_sim_lookup w1 w r x) as (y & Hy & _); [by symmetry | done |]. congruence. }
  set (w2 := w_set_env (w_set_ras w1 (delete r (w_ras w1))) (struct_free (w_env w1) r)).
  assert (Ed : delete r (<[r := ra0]> (w_ras w)) = w_ras w) by (by apply delete_insert_id).
  assert (Hw2 : wcore own1 (w_ras w2) w2).
  { simpl. apply (wcore_del_ra own1 (w_ras w1) w1 r ra0); try done. rewrite Er1. apply lookup_insert_eq. }
  assert (Hbk : bases_kept own w own1 w2).
  { split.
    - intros b d0 Hb. split; [by apply Q7 | by apply (Q6 b (HBase d0))].
    - intros d0 da0. by apply (sim_bases w w1). }
  exists own1. split; [| split; [done | split; [done | split]]].
  - pose proof Hv as [V1 V2 [L1 L2 L3 L4 L5] V4 V5].
    assert (Hlook : forall d0 da0, w_das w2 !! d0 = Some da0 -> exists da1, w_das w !! d0 = Some da1 /\ strip da1 = strip da0).
    { intros d0 da0 H0. destruct (das_sim_lookup w1 w d0 da0) as (da1 & X1 & X2); [symmetry; exact Q1 | done |]. by exists da1. }
    assert (Eras : w_ras w2 = w_ras w) by (simpl; by rewrite Er1, Ed).
    split; [done | | | |].
    + rewrite Eras. intros r' ra da0 Hr' H0. destruct (Hlook _ _ H0) as (da1 & X1 & X2).
      unfold strip, da_set_cache in X2. replace (da_mode da0) with (da_mode da1) by congruence. by eapply V2.
    + split; rewrite ?Eras.
      * intros d0 da0 H0. destruct (Hlook _ _ H0) as (da1 & X1 & X2). unfold strip, da_set_cache in X2.
        replace (requests da0) with (requests da1) by congruence. by eapply L1.
      * intros d0 da0 r' H0. destruct (Hlook _ _ H0) as (da1 & X1 & X2). unfold strip, da_set_cache in X2.
        replace (requests da0) with (requests da1) by congruence. by eapply L2.
      * intros r' ra Hr'. destruct (L3 r' ra Hr') as (da1 & X1 & X2).
        destruct (das_sim_lookup w w1 _ da1 Q1 X1) as (da0 & X0 & E). exists da0. split; [done |].
        unfold strip, da_set_cache in E. replace (requests da0) with (requests da1) by congruence. done.
      * intros d0 da0 H0. destruct (Hlook _ _ H0) as (da1 & X1 & X2). unfold strip, da_set_cache in X2.
        replace (requests da0) with (requests da1) by congruence. replace (da_cur da0) with (da_cur da1) by congruence.
        replace (state_cell da0) with (state_cell da1) by congruence. by eapply L4.
      * intros r' ra Hr'. apply eq_None_not_Some. intros [x Hx]. destruct (Hlook _ _ Hx) as (da1 & X1 & _).
        rewrite (L5 r' ra Hr') in X1. done.
    + intros d0 da0 H0. destruct (Hlook _ _ H0) as (da1 & X1 & X2). unfold strip, da_set_cache in X2.
      replace (da_base da0) with (da_base da1) by congruence. destruct (V4 _ _ X1) as [bs Hbs]. exists bs.
      apply (arena_inv_frame _ (w_mem w)); [done |]. eapply (Q6 (buf (da_base da1), capacity (da_base da1)) (HBase d0)).
      apply (wi_base _ _ _ V1). exists da1. split; [done |]. unfold base_of.
      destruct (ai_buf _ _ _ Hbs) as [Hb0 _]. by destruct (Z.eqb_spec (buf (da_base da1)) 0); [lia |].
    + simpl. by rewrite Q2.
  - intros r' _. change (w_ras w2) with (delete r (w_ras w1)). by rewrite Er1, Ed.
  - by apply sim_selection.
Qed.

Lemma request_arena_new_spec own w d da c p :
  winv own w -> w_das w !! d = Some da -> cap_legal c -> prov_legal p ->
  wp (js_request_arena_new d c p) (new_post own w d) w.
Proof.
  intros Hv Hd Hcl Hpl. pose proof (wv_core _ _ Hv) as Hw. unfold js_request_arena_new.
  wp_step. apply wp_env_call. intros r e He. destruct (law_struct _ _ _ He) as [Eo Hs].
  destruct (Z.eqb_spec r 0) as [-> | Hr0].
  { destruct Hs as [[_ El] | (? & _)]; [| lia]. wp_steps. exists own.
    assert (Hv' : winv own (w_set_env w e)).
    { destruct Hv as [V1 V2 V3 V4 V5]. split; try done.
      - apply (wcore_frame own _ w); try done. intros b h Hb. simpl. rewrite Eo. by eapply Hw.
      - by destruct V3. }
    split; [done |]. split; [split; [done |]; intros d0 da0 H0; by exists da0 |]. split; [done |]. split; [done |].
    intros d0 da0 H0. by exists da0. }
  destruct Hs as [[? _] | (Hr0' & Hfresh & El)]; [done |].
  assert (Hrn : w_ras w !! r = None).
  { apply eq_None_not_Some. intros Hs. apply Hfresh, (wi_live _ _ _ Hw). auto. }
  assert (Hdn : w_das w !! r = None).
  { apply eq_None_not_Some. intros Hs. apply Hfresh, (wi_live _ _ _ Hw). auto. }
  pose proof (cap_rounded c Hcl) as Hcap. simpl in Hcap.
  set (cap' := if (if c =? 0 then _ else _) =? SIZE_MAX then _ else _) in *.
  wp_steps. change (ARENA_PREFIX_LEN + JS_ARENA_REQUEST_SLOT_SIZE) with 528.
  change (528 + ARENA_HEADER_SIZE + ARENA_ALIGN) with 560.
  set (ra0 := Build_JSRequestArena _ _ _ _ _ _ _ _ _ _ _ _ _ _).
  set (w0 := w_set_ras (w_set_env w e) (<[r := ra0]> (w_ras w))).
  assert (Hc0 : ra_core r ra0).
  { split; simpl; try done; try lia; [constructor |]. destruct p as [[|] |]; [done | right; eauto | by left]. }
  assert (Hw0 : wcore own (w_ras w0) w0) by (apply wcore_add_ra; try done; eauto).
  assert (Hr : w_ras w0 !! r = Some ra0) by apply lookup_insert_eq.
  set (head := if cap' <? _ then _ else _).
  assert (Hhead : 4096 <= head < 2 ^ 61).
  { subst head. change JS_ARENA_REQ_EXTENT_DEFAULT with 262144. destruct (Z.ltb_spec cap' 262144); lia. }
  destruct (Z.ltb_spec head 560); [lia |].
  eapply wp_mono; [apply (req_acquire_spec own w0 r ra0 head); try done; lia |].
  intros got w1 (own1 & Hw1 & Hq1 & Hg). destruct got as [i |].
  2:{ by apply (new_failed own w d da r e ra0 own1 w1). }
  destruct Hg as (b & _ & Hnb & Hob & _ & _ & Er1).
  set (ra1 := ra_with ra0 (chunks ra0 ++ [b])) in *. simpl in Er1. rewrite insert_insert_eq in Er1.
  assert (Hr1 : w_ras w1 !! r = Some ra1) by (rewrite Er1; apply lookup_insert_eq).
  pose proof (wi_out _ _ _ Hw1 b _ Hob) as [_ Hbok].
  wp_step. apply (wp_load_ra r ra1); [done |]. simpl. wp_steps.
  change ARENA_PREFIX_LEN with 16. set (w2 := w_set_mem w1 _).
  assert (He2 : evo r ra1 ra1 own1 w1 own1 w2).
  { apply evo_mem; try done. simpl. intros x Hx. rewrite load8_memset by lia.
    apply Forall_cons in Hx as [Hx _]. unfold in_block in Hx. pose proof (extent_min b Hbok). bool_lia. }
  unfold req_bump_reset. wp_step. apply (wp_load_ra r ra1); [apply He2 |]. wp_steps.
  set (ra3 := ra_set_bump ra1 _). set (w3 := w_set_ras w2 _).
  assert (He3 : evo r ra1 ra3 own1 w1 own1 w3).
  { eapply evo_trans; [exact He2 |]. apply evo_store; try done; apply He2. }
  assert (Hd3 : exists da3, w_das w3 !! d = Some da3 /\ strip da = strip da3).
  { apply (das_sim_lookup w w3 d da); [| done]. etrans; [| apply He3]. exact (q_das _ _ _ _ Hq1). }
  destruct Hd3 as (da3 & Hd3 & Es3).
  apply (wp_load_da d da3); [done |]. wp_step.
  assert (Hfin : forall ra4 w4, evo r ra1 ra4 own1 w1 own1 w4 -> mode_ok (da_mode da) ra4 ->
    wp (let! da := load_da d in store_da d (da_set_requests da (r :: requests da)) ;; mret r) (new_post own w d) w4).
  { intros ra4 w4 He4 Hm4.
    assert (Hsim : das_sim w w4) by (etrans; [exact (q_das _ _ _ _ Hq1) | apply He4]).
    destruct (das_sim_lookup w w4 d da Hsim Hd) as (da4 & Hd4 & Es4).
    wp_step. apply (wp_load_da d da4); [done |]. wp_steps.
    destruct (winv_add own w d da r ra4 own1 w4 da4) as [F1 F2]; try done; try apply He4.
    - rewrite (ev_ranges _ _ _ _ _ _ _ He4). exact (q_ranges _ _ _ _ Hq1).
    - intros r' Hne. rewrite (ev_others _ _ _ _ _ _ _ He4) by done. rewrite Er1. by rewrite lookup_insert_ne.
    - intros b0 h Hb0 Hf.
      assert (Hb1 : own1 !! b0 = Some h) by (apply (q_own _ _ _ _ Hq1); [done | by destruct h]).
      destruct (ev_frame _ _ _ _ _ _ _ He4 b0 h Hb1 Hf) as [X1 X2]. split; [done |].
      eapply mem_agree_trans; [| exact X2]. exact (q_mem _ _ _ _ Hq1 b0 h Hb0).
    - exists own1. split; [done |]. split; [done |]. split.
      + intros _. split; [done |]. exists (da_set_requests da4 (r :: requests da4)). simpl.
        rewrite lookup_insert_eq. split; [done | by left].
      + split.
        * intros r' Hne. simpl. rewrite (ev_others _ _ _ _ _ _ _ He4) by done. rewrite Er1. by rewrite lookup_insert_ne.
        * intros d0 da0 H0. simpl. destruct (sim_selection w w4 Hsim d0 da0 H0) as (da1 & X1 & X2 & X3).
          destruct (decide (d0 = d)) as [-> | Hne]; [| exists da1; by rewrite lookup_insert_ne].
          rewrite lookup_insert_eq. exists (da_set_requests da4 (r :: requests da4)). by simplify_eq. }
  unfold strip, da_set_cache in Es3. replace (da_mode da3) with (da_mode da) by congruence.
  destruct (da_mode da) eqn:Emd; simpl.
  - wp_step. apply (Hfin ra3 w3); [done |]. by exists b.
  - eapply wp_mono; [apply (request_mode_apply_spec own1 w3 r ra3 b); try done; apply He3 |].
    intros u w4 (ra4 & He4 & Hm4 & _). apply (Hfin ra4 w4); [by eapply evo_trans | done].
Qed.

(** ** Freeing a request arena *)

Lemma unlink_spec r l : NoDup l -> NoDup (unlink r l) /\ forall x, x ∈ unlink r l <-> x ∈ l /\ x <> r.
Proof.
  induction 1 as [| y l Hy Hnd [IH1 IH2]]; simpl; [split; [constructor | set_solver] |].
  destruct (Z.eqb_spec y r) as [-> | Hne].
  - split; [done |]. intros x. set_solver.
  - split; [constructor; [rewrite IH2; set_solver | done] |]. intros x. rewrite !elem_of_cons, IH2. set_solver.
Qed.

(** A chunk set with the same owners will do. *)
Lemma wcore_chunks own ras w st w' :
  wcore own ras w -> wf_set st -> js_arena_chunk_count st <= js_arena_chunk_count (w_chunks w) ->
  (forall p, 0 <= p -> owner_of st p = owner_of (w_chunks w) p) ->
  w_chunks w' = st -> w_das w' = w_das w -> outs (w_env w') = outs (w_env w) ->
  live_structs (w_env w') = live_structs (w_env w) -> wcore own ras w'.
Proof.
  intros [H1 H2 H3 H4 H5 H6 H7 H8 H9 H10 H11] Hst Hc Ho Es Ed Eo El.
  split; rewrite ?Es, ?Ed, ?Eo, ?El; try done; [| lia].
  intros p r Hp Hr. rewrite Ho by done. by apply H8.
Qed.

(** What remains after arena [r] is gone. *)
Definition free_post (own : owners_map) (w : world) (r : Z) (w' : world) : Prop :=
  exists own', winv own' w' /\ bases_kept own w own' w' /\ w_ras w' = delete r (w_ras w) /\
    w_mem w' = w_mem w /\ (forall b h, own !! b = Some h -> foreign r h -> own' !! b = Some h) /\
    (forall p, 0 <= p -> owner_of (w_chunks w') p <> r) /\
    (forall d da, w_das w !! d = Some da -> exists da', w_das w' !! d = Some da' /\
       if da_cur da =? r then da_cur da' = 0 /\ state_cell da' = 0
       else da_cur da' = da_cur da /\ state_cell da' = state_cell da).

Lemma winv_del own w d da r ra own' w' da1 :
  winv own w -> w_das w !! d = Some da -> w_ras w !! r = Some ra -> ra_da ra = d ->
  w_das w !! r = None -> r <> 0 ->
  wcore own' (delete r (w_ras w)) w' -> w_ras w' = delete r (w_ras w) ->
  das_sim (w_set_das w (<[d := da1]> (w_das w))) w' ->
  da1 = (let da0 := da_set_requests da (unlink r (requests da)) in
         if da_cur da0 =? r then da_set_cur da0 0 0 else da0) ->
  w_mem w' = w_mem w -> w_ranges w' = w_ranges w ->
  winv own' w'.
Proof.
  intros [V1 V2 [L1 L2 L3 L4 L5] V4 V5] Hd Hr Eda Hdr Hr0 Hw' Er Hsim Eda1 Em Erng.
  assert (Hda1 : requests da1 = unlink r (requests da) /\ da_base da1 = da_base da /\ da_mode da1 = da_mode da /\
    (da_cur da1 = 0 \/ (da_cur da1 = da_cur da /\ state_cell da1 = state_cell da /\ da_cur da <> r))).
  { subst da1. simpl. destruct (Z.eqb_spec (da_cur da) r); split_and!; try done; [by left | by right]. }
  destruct Hda1 as (D1 & D2 & D3 & D4). destruct (unlink_spec r (requests da) (L1 d da Hd)) as [U1 U2].
  assert (Hlook : forall d0 da0, w_das w' !! d0 = Some da0 -> exists dax, w_das w !! d0 = Some dax /\
    da_base da0 = da_base dax /\ da_mode da0 = da_mode dax /\
    ((d0 <> d /\ requests da0 = requests dax /\ da_cur da0 = da_cur dax /\ state_cell da0 = state_cell dax) \/
     (d0 = d /\ dax = da /\ requests da0 = requests da1 /\ da_cur da0 = da_cur da1 /\ state_cell da0 = state_cell da1))).
  { intros d0 da0 H0. destruct (das_sim_lookup w' (w_set_das w (<[d := da1]> (w_das w))) d0 da0) as (day & X1 & X2);
      [by symmetry | done |]. unfold strip, da_set_cache in X2. simpl in X1.
    apply lookup_insert_Some in X1 as [[<- <-] | [Hne X1]].
    - exists da. split; [done |]. split; [congruence |]. split; [congruence |]. right. split_and!; congruence.
    - exists day. split; [done |]. split; [congruence |]. split; [congruence |]. left. split_and!; congruence. }
  split; [by rewrite Er | | | |].
  - rewrite Er. intros r' ra' da0 H' H0. apply lookup_delete_Some in H' as [Hne H'].
    destruct (Hlook _ _ H0) as (dax & X1 & _ & -> & _). by eapply V2.
  - split; rewrite ?Er.
    + intros d0 da0 H0. destruct (Hlook _ _ H0) as (dax & X1 & _ & _ & [(_ & -> & _) | (-> & -> & -> & _)]).
      * by eapply L1.
      * by rewrite D1.
    + intros d0 da0 r' H0 Hin. destruct (Hlook _ _ H0) as (dax & X1 & _ & _ & [(Hne & E & _) | (-> & -> & E & _)]); rewrite E in Hin.
      * destruct (L2 d0 dax r' X1 Hin) as (ra' & Y1 & Y2). exists ra'. split; [| done].
        rewrite lookup_delete_ne; [done |]. intros <-. simplify_eq.
      * rewrite D1 in Hin. apply U2 in Hin as [Hin Hne]. destruct (L2 d da r' Hd Hin) as (ra' & Y1 & Y2).
        exists ra'. by rewrite lookup_delete_ne.
    + intros r' ra' H'. apply lookup_delete_Some in H' as [Hne H']. destruct (L3 r' ra' H') as (dax & X1 & Hin).
      assert (Hx : exists da0, w_das w' !! ra_da ra' = Some da0).
      { destruct (decide (ra_da ra' = d)) as [E | E].
        - destruct (das_sim_lookup _ w' d da1 Hsim) as (y & Hy & _); [simpl; apply lookup_insert_eq |]. exists y. by rewrite E.
        - destruct (das_sim_lookup _ w' (ra_da ra') dax Hsim) as (y & Hy & _); [simpl; by rewrite lookup_insert_ne |]. by exists y. }
      destruct Hx as [da0 H0]. exists da0. split; [done |].
      destruct (Hlook _ _ H0) as (dax' & X1' & _ & _ & [(_ & -> & _) | (E & -> & -> & _)]).
      * by simplify_eq.
      * rewrite D1. apply U2. split; [| congruence]. rewrite E in X1. by simplify_eq.
    + intros d0 da0 H0. destruct (Hlook _ _ H0) as (dax & X1 & _ & _ & [(Hne & E1 & E2 & E3) | (-> & -> & E1 & E2 & E3)]);
        rewrite E1, E2, E3; clear E1 E2 E3.
      * destruct (L4 d0 dax X1) as [Hz | [Hin (ra' & Y1 & Y2)]]; [by left |]. right. split; [done |].
        exists ra'. split; [| done]. rewrite lookup_delete_ne; [done |]. intros E.
        destruct (L2 d0 dax _ X1 Hin) as (ra'' & Z1 & Z2). rewrite <- E in Z1. by simplify_eq.
      * destruct D4 as [Hz | (E1 & E2 & Hne)]; [by left |]. rewrite E1, E2.
        destruct (L4 d da Hd) as [Hz | [Hin (ra' & Y1 & Y2)]]; [by left |]. right. split; [rewrite D1; by apply U2 |].
        exists ra'. by rewrite lookup_delete_ne.
    + intros r' ra' H'. apply lookup_delete_Some in H' as [_ H']. apply eq_None_not_Some. intros [x Hx].
      destruct (Hlook _ _ Hx) as (dax & X1 & _). rewrite (L5 r' ra' H') in X1. done.
  - intros d0 da0 H0. destruct (Hlook _ _ H0) as (dax & X1 & -> & _). rewrite Em. by eapply V4.
  - by rewrite Erng.
Qed.

Lemma foreign_not_chunk own w r ra b h :
  wcore own (w_ras w) w -> w_ras w !! r = Some ra -> own !! b = Some h -> foreign r h -> b ∉ chunks ra.
Proof.
  intros Hw Hr Hb Hf Hin. assert (E : own !! b = Some (HChunk r)) by (apply (wi_chunk _ _ _ Hw); by exists ra).
  rewrite Hb in E. injection E as ->. by apply Hf.
Qed.

Lemma request_arena_free_spec own w r ra :
  winv own w -> w_ras w !! r = Some ra ->
  wp (js_request_arena_free r) (fun _ w' => free_post own w r w') w.
Proof.
  intros Hv Hr. pose proof (lk_apart _ (wv_links _ _ Hv) r ra Hr) as Hdr.
  pose proof (wv_core _ _ Hv) as Hw. destruct (wi_ras _ _ _ Hw r ra Hr) as [Hcr _].
  pose proof (rc_addr _ _ Hcr) as Hr0. unfold js_request_arena_free. destruct (Z.eqb_spec r 0); [lia |].
  destruct (lk_out _ (wv_links _ _ Hv) r ra Hr) as (da & Hd & Hin).
  destruct (head_extent own w r ra Hv Hr) as (h & l & Hl).
  wp_step. apply (wp_load_ra r ra); [done |]. wp_step. apply (wp_load_da _ da); [done |]. wp_steps.
  match goal with |- context [<[ra_da ra := ?x]> _] => set (da1 := x) end.
  set (w1 := w_set_das w (<[ra_da ra := da1]> (w_das w))).
  assert (Hw1 : wcore own (w_ras w1) w1).
  { apply (wcore_das own (w_ras w) w _ da); try done; subst da1; simpl; by case_if. }
  eapply wp_mono; [by apply (req_release_extents_spec own w1 r ra h l) |].
  intros u w2' (own2 & w2 & -> & Hw2 & Hg2). set (ra2 := ra_set_brk (ra_with ra [h]) 0) in *.
  set (w2' := w_set_ras w2 _) in *.
  assert (Hr2 : w_ras w2' !! r = Some ra2) by apply lookup_insert_eq.
  wp_step. apply (wp_load_ra r ra2); [done |]. simpl. wp_step. wp_step.
  eapply wp_mono; [by apply (req_release_chunk_spec own2 (w_ras w2') w2' r ra2 ra2 [] h []) |].
  intros u2 w3 (own3 & Hw3 & Hg3). wp_steps. apply wp_env_call. intros ok e He. simpl in He.
  destruct (law_node _ _ _ He) as [Eo El]. wp_steps. simpl.
  assert (Hnor : forall p, 0 <= p -> owner_of (w_chunks w3) p <> r).
  { intros p Hp E. destruct (proj1 (wi_owner _ _ _ Hw3 p r Hp ltac:(lia)) E) as (b & Hb & _).
    apply (wi_chunk _ _ _ Hw3) in Hb as (rax & Hx & Hbx). rewrite lookup_insert_eq in Hx. injection Hx as <-.
    simpl in Hbx. by apply elem_of_nil in Hbx. }
  destruct (unregister_request_spec ok (w_chunks w3) r) as (st & Hun & Hwf & Hcnt & Hown); [apply Hw3 | lia |].
  assert (Hsame : forall p, 0 <= p -> owner_of st p = owner_of (w_chunks w3) p).
  { intros p Hp. rewrite Hown by done. destruct (Z.eqb_spec (owner_of (w_chunks w3) p) r) as [E |]; [| done].
    by apply Hnor in E. }
  eapply wp_lift; [exact Hun |]. wp_steps. unfold free_ra. wp_steps. simpl.
  pose proof Hg2 as [A1 A2 A3 A4 A5 A6 A7 A8]. pose proof Hg3 as [B1 B2 B3 B4 B5 B6 B7 B8]. simpl in *.
  assert (Eras : delete r (<[r := ra_set_extents ra2 [] (extents ra2) (held ra2)]> (w_ras w3)) = delete r (w_ras w)).
  { rewrite delete_insert_eq, B7. apply delete_insert_eq. }
  match goal with |- free_post _ _ _ ?x => set (w4 := x) end.
  assert (Hdr3 : w_das w3 !! r = None).
  { apply eq_None_not_Some. intros [x Hx].
    destruct (das_sim_lookup w3 w1 r x) as (y & Hy & _); [symmetry; etrans; [exact A1 | exact B1] | done |].
    simpl in Hy. apply lookup_insert_Some in Hy as [[E _] | [_ Hy]]; congruence. }
  destruct (law_struct_free e r) as [F1 F2].
  assert (Hw4 : wcore own3 (delete r (w_ras w)) w4).
  { rewrite <- (delete_insert_eq (w_ras w) r (ra_with ra2 [])), <- (insert_insert_eq (w_ras w) r (ra_with ra2 []) ra2).
    set (w3' := w_set_env (w_set_chunks w3 st) e).
    assert (Hw3' : wcore own3 (<[r := ra_with ra2 []]> (<[r := ra2]> (w_ras w))) w3').
    { apply (wcore_chunks own3 _ w3 st); try done. }
    apply (wcore_del_ra own3 _ w3' r (ra_with ra2 [])); try done; [apply lookup_insert_eq]. }
  assert (Hsim : das_sim w1 w4) by (etrans; [exact A1 | exact B1]).
  exists own3. split; [| split; [split | split; [exact Eras | split; [by simpl; rewrite B6 | split; [| split]]]]].
  - apply (winv_del own w (ra_da ra) da r ra own3 w4 da1); try done.
    + simpl. by rewrite B6.
    + simpl. by rewrite B2.
  - intros b d0 Hb. split; [| simpl; rewrite B6; simpl; by rewrite A6].
    assert (Hnb : b ∉ h :: l) by (rewrite <- Hl; by apply (foreign_not_chunk own w r ra b (HBase d0))).
    apply B8; [apply A8; set_solver | set_solver].
  - intros d0 da0 H0. assert (Hx : exists day, w_das w1 !! d0 = Some day /\ da_base day = da_base da0 /\ da_mode day = da_mode da0).
    { simpl. destruct (decide (d0 = ra_da ra)) as [-> | Hdd].
      - exists da1. rewrite lookup_insert_eq. simplify_eq. subst da1. simpl. by case_if.
      - exists da0. by rewrite lookup_insert_ne. }
    destruct Hx as (day & Y1 & Y2 & Y3). destruct (sim_bases w1 w4 d0 day Hsim Y1) as (daz & Z1 & Z2 & Z3).
    exists daz. split; [done |]. split; congruence.
  - intros b hb Hb Hf.
    assert (Hnb : b ∉ h :: l) by (rewrite <- Hl; by apply (foreign_not_chunk own w r ra b hb)).
    apply B8; [apply A8; set_solver | set_solver].
  - simpl. intros p Hp. rewrite Hsame by done. by apply Hnor.
  - intros d0 da0 H0. destruct (decide (d0 = ra_da ra)) as [-> | Hdd].
    + simplify_eq. destruct (sim_selection w1 w4 Hsim (ra_da ra) da1 ltac:(simpl; apply lookup_insert_eq)) as (da' & X1 & X2 & X3).
      exists da'. split; [done |]. rewrite X2, X3. subst da1. simpl. by destruct (da_cur da =? r).
    + destruct (sim_selection w1 w4 Hsim d0 da0) as (da' & X1 & X2 & X3); [simpl; by rewrite lookup_insert_ne |].
      exists da'. split; [done |]. destruct (Z.eqb_spec (da_cur da0) r) as [E |]; [| done]. exfalso.
      destruct (lk_cur _ (wv_links _ _ Hv) d0 da0 H0) as [Hz | [Hin0 _]]; [lia |].
      destruct (lk_in _ (wv_links _ _ Hv) d0 da0 _ H0 Hin0) as (rax & Y1 & Y2). rewrite E in Y1. by simplify_eq.
Qed.
End lifecycle.
