(* ===== verification/ArenaSystem.v ===== *)
(** * The arenas as a system

    Creation and freeze, then the theorems about every sequence of calls an
    engine can make: the frozen base is never written, budgets hold, requests
    are isolated, a reset gives a fresh arena, refusals are latched. *)

From stdpp Require Import base list numbers gmap.
From Stdlib Require Import ZArith Lia.
From S2P Require Import Prelude Memory ChunkTable BaseRanges Thermometer BumpArena ArenaWorld.
From S2P Require Import RequestArena ArenaInvariant DualArena ArenaOps ArenaHooks ArenaLifecycle.

#[local] Open Scope m_scope.

Section system.
Context `{EV : Env} `{EL : !EnvLaws} `{MS : Mspace} `{ML : !MspaceLaws}.

(** A thread that has no arena yet. *)
Definition w_init (m : mem) (g : guard) (e : env_state) : world :=
  {| w_mem := m; w_chunks := chunk_set_init; w_ranges := base_ranges_init; w_guard := g;
     w_das := ∅; w_ras := ∅; morecore_ra := 0; w_env := e |}.

Lemma winv_init m g e : winv ∅ (w_init m g e).
Proof.
  assert (Hno : forall p, owner_of chunk_set_init p = 0).
  { intros p. unfold owner_of, owners. simpl. by rewrite lookup_empty. }
  assert (Hl : wcore ∅ ∅ (w_init m g e)).
  { split; simpl.
    - intros b h Hb. by rewrite lookup_empty in Hb.
    - intros b c hb hc Hb. by rewrite lookup_empty in Hb.
    - intros b r. rewrite lookup_empty. split; [done |]. intros (ra & Hra & _). by rewrite lookup_empty in Hra.
    - intros b d. rewrite lookup_empty. split; [done |]. intros (da & Hda & _). by rewrite lookup_empty in Hda.
    - intros b d. rewrite lookup_empty. split; [done |]. intros (da & Hda & _). by rewrite lookup_empty in Hda.
    - intros d da Hd. by rewrite lookup_empty in Hd.
    - done.
    - intros p r _ Hr. rewrite Hno. split; [congruence |]. intros (b & Hb & _). by rewrite lookup_empty in Hb.
    - unfold chunk_total, chunk_list. rewrite map_to_list_empty. done.
    - intros r ra Hr. by rewrite lookup_empty in Hr.
    - intros r [[x Hx] | [x Hx]]; by rewrite lookup_empty in Hx. }
  split; [done | | | | done]; try split; simpl; intros *; by rewrite ?lookup_empty.
Qed.

(** ** Freeze *)

(** The state between two arenas of the loop. *)
Record applied (own : owners_map) (l : list Z) (w w' : world) : Prop := {
  ap_core : wcore own (w_ras w') w';
  ap_das : w_das w' = w_das w;
  ap_ranges : w_ranges w' = w_ranges w;
  ap_in : forall r ra, r ∈ l -> w_ras w !! r = Some ra -> exists ra', w_ras w' !! r = Some ra' /\
    mode_ok JS_ARENA_MODE_REQUEST ra' /\ ra_da ra' = ra_da ra /\ hd_error (chunks ra') = hd_error (chunks ra) /\
    ra_mode ra' = mode_next ra /\ mode_next ra' = mode_next ra;
  ap_out : forall r, ~ (r ∈ l) -> w_ras w' !! r = w_ras w !! r;
  ap_mem : forall b d, own !! b = Some (HBase d) -> mem_agree (w_mem w) (w_mem w') (fst b) (fst b + snd b)
}.

Lemma mode_apply_all_spec l own w :
  NoDup l -> wcore own (w_ras w) w ->
  (forall r, r ∈ l -> exists ra h, w_ras w !! r = Some ra /\ chunks ra = [h]) ->
  wp (mode_apply_all l) (fun _ w' => applied own l w w') w.
Proof.
  revert w. induction l as [| r l IH]; intros w Hnd Hw Hl; simpl.
  - wp_steps. split; try done. intros r ra Hr. by apply elem_of_nil in Hr.
  - apply NoDup_cons in Hnd as [Hr Hnd]. destruct (Hl r ltac:(by left)) as (ra & h & Hra & Hc).
    wp_step. eapply wp_mono; [by apply (request_mode_apply_spec own w r ra h) |].
    intros u w1 (ra1 & He & Hm & Hfa & _ & Ed). eapply wp_mono.
    { apply (IH w1 Hnd (ev_core _ _ _ _ _ _ _ He)). intros r' Hr'.
      destruct (Hl r' ltac:(by right)) as (ra' & h' & Hra' & Hc'). exists ra', h'. split; [| done].
      rewrite (ev_others _ _ _ _ _ _ _ He); [done |]. intros ->. done. }
    intros u2 w2 [A1 A2 A3 A4 A5 A6]. split; try done.
    + by rewrite A2.
    + by rewrite A3, (ev_ranges _ _ _ _ _ _ _ He).
    + intros r' ra' Hr' Hra'. apply elem_of_cons in Hr' as [-> | Hr'].
      * simplify_eq. exists ra1. rewrite A5 by done. split; [apply He |]. split; [done |].
        split; [apply He |]. split; [apply He |]. split; apply Hfa.
      * apply A4; [done |]. rewrite (ev_others _ _ _ _ _ _ _ He); [done |]. intros ->. done.
    + intros r' Hr'. rewrite A5 by set_solver. apply (ev_others _ _ _ _ _ _ _ He). set_solver.
    + intros b d Hb. eapply mem_agree_trans; [| by apply (A6 b d)].
      apply (ev_frame _ _ _ _ _ _ _ He b (HBase d)); done.
Qed.

(** Freezing flips the mode of [d], applies the mode of each of its request
    arenas and registers its range when there is room. *)
Definition freeze_post (own : owners_map) (w : world) (d : Z) (da : JSDualArena) (w' : world) : Prop :=
  winv own w' /\
  w_das w' !! d = Some (da_set_mode da JS_ARENA_MODE_REQUEST) /\
  (forall b d0, own !! b = Some (HBase d0) -> mem_agree (w_mem w) (w_mem w') (fst b) (fst b + snd b)) /\
  (forall d0, d0 <> d -> w_das w' !! d0 = w_das w !! d0) /\
  (forall r ra, r ∈ requests da -> w_ras w !! r = Some ra -> exists ra', w_ras w' !! r = Some ra' /\
     ra_da ra' = ra_da ra /\ ra_mode ra' = mode_next ra /\ mode_next ra' = mode_next ra) /\
  w_ranges w' = snd (js_arena_register_base (w_ranges w) (buf (da_base da)) (buf (da_base da) + capacity (da_base da))).

Lemma freeze_spec own w d da :
  winv own w -> w_das w !! d = Some da -> da_mode da = JS_ARENA_MODE_BASE ->
  wp (js_dual_arena_freeze d) (fun _ w' => freeze_post own w d da w') w.
Proof.
  intros Hv Hd Hmode. pose proof Hv as [V1 V2 [L1 L2 L3 L4 L5] V4 V5]. unfold js_dual_arena_freeze.
  wp_step. apply (wp_load_da d da); [done |]. wp_steps.
  set (da' := da_set_mode da JS_ARENA_MODE_REQUEST). set (w1 := w_set_das w (<[d := da']> (w_das w))).
  assert (Hw1 : wcore own (w_ras w1) w1) by (by apply (wcore_das own (w_ras w) w d da)).
  eapply wp_mono.
  { apply (mode_apply_all_spec (requests da) own w1); [by eapply L1 | done |].
    intros r Hr. destruct (L2 d da r Hd Hr) as (ra & Hra & Eda). exists ra.
    pose proof (V2 r ra da Hra ltac:(by rewrite Eda)) as Hm. rewrite Hmode in Hm.
    destruct Hm as (h & Hc & _). by exists h. }
  intros u w2 [A1 A2 A3 A4 A5 A6]. wp_steps. simpl in A2.
  assert (Hlook : forall d0 da0, w_das w2 !! d0 = Some da0 -> exists da1, w_das w !! d0 = Some da1 /\
    requests da0 = requests da1 /\ da_base da0 = da_base da1 /\ da_cur da0 = da_cur da1 /\
    state_cell da0 = state_cell da1 /\ (d0 <> d /\ da0 = da1 \/ d0 = d /\ da_mode da0 = JS_ARENA_MODE_REQUEST)).
  { rewrite A2. intros d0 da0 H0. apply lookup_insert_Some in H0 as [[<- <-] | [Hne H0]].
    - exists da. split_and!; auto.
    - exists da0. split_and!; auto. }
  assert (Hras : forall r ra, w_ras w2 !! r = Some ra -> exists ra0, w_ras w !! r = Some ra0 /\
    ra_da ra = ra_da ra0 /\ hd_error (chunks ra) = hd_error (chunks ra0) /\
    (r ∈ requests da /\ mode_ok JS_ARENA_MODE_REQUEST ra \/ ~ (r ∈ requests da) /\ ra = ra0)).
  { intros r ra Hra. destruct (decide (r ∈ requests da)) as [Hin | Hnin].
    - destruct (L2 d da r Hd Hin) as (ra0 & H0 & _). destruct (A4 r ra0 Hin H0) as (ra' & X1 & X2 & X3 & X4 & _).
      simplify_eq. exists ra0. split_and!; auto.
    - rewrite A5 in Hra by done. exists ra. split_and!; auto. }
  split; [split | split; [simpl; by rewrite A2, lookup_insert_eq | split; [done | split; [| split; [| simpl; by rewrite A3]]]]].
  - apply (wcore_frame own _ w2); try done. intros b h Hb. by eapply A1.
  - simpl. intros r ra da0 Hra H0. destruct (Hlook _ _ H0) as (da1 & X1 & _ & _ & _ & _ & Hcase).
    destruct (Hras r ra Hra) as (ra0 & Y1 & Y2 & _ & Hc2). rewrite Y2 in H0, X1.
    destruct Hcase as [[Hne ->] | [Ed Em]].
    + destruct Hc2 as [[Hin _] | [_ ->]]; [| by eapply V2].
      destruct (L2 d da r Hd Hin) as (rax & Z1 & Z2). congruence.
    + rewrite Em. destruct Hc2 as [[_ Hm] | [Hn ->]]; [done |]. exfalso. apply Hn.
      destruct (L3 r ra0 Y1) as (dax & Z1 & Z2). rewrite Ed in Z1. by simplify_eq.
  - split; simpl.
    + intros d0 da0 H0. destruct (Hlook _ _ H0) as (da1 & X1 & -> & _). by eapply L1.
    + intros d0 da0 r H0 Hin. destruct (Hlook _ _ H0) as (da1 & X1 & E & _). rewrite E in Hin.
      destruct (L2 d0 da1 r X1 Hin) as (ra0 & Y1 & Y2). destruct (decide (r ∈ requests da)) as [Hi | Hn].
      * destruct (A4 r ra0 Hi Y1) as (ra' & Z1 & _ & Z3 & _). exists ra'. split; [done | congruence].
      * exists ra0. by rewrite A5.
    + intros r ra Hra. destruct (Hras r ra Hra) as (ra0 & Y1 & -> & _). destruct (L3 r ra0 Y1) as (da1 & X1 & Hin).
      rewrite A2. destruct (decide (ra_da ra0 = d)) as [E | E].
      * exists da'. rewrite E, lookup_insert_eq. split; [done |]. rewrite E in X1. by simplify_eq.
      * exists da1. by rewrite lookup_insert_ne.
    + intros d0 da0 H0. destruct (Hlook _ _ H0) as (da1 & X1 & -> & _ & -> & -> & _).
      destruct (L4 d0 da1 X1) as [Hz | [Hin (ra0 & Y1 & Y2)]]; [by left |]. right. split; [done |].
      destruct (decide (da_cur da1 ∈ requests da)) as [Hi | Hn].
      * destruct (A4 _ ra0 Hi Y1) as (ra' & Z1 & _ & _ & Z4 & _). exists ra'. split; [done |]. unfold slot_of in *. by rewrite Z4.
      * exists ra0. by rewrite A5.
    + intros r ra Hra. destruct (Hras r ra Hra) as (ra0 & Y1 & _). apply eq_None_not_Some. intros [x Hx].
      destruct (Hlook _ _ Hx) as (da1 & X1 & _). rewrite (L5 r ra0 Y1) in X1. done.
  - simpl. intros d0 da0 H0. destruct (Hlook _ _ H0) as (da1 & X1 & _ & -> & _). destruct (V4 d0 da1 X1) as [bs Hbs].
    exists bs. apply (arena_inv_frame _ (w_mem w)); [done |].
    apply (A6 (buf (da_base da1), capacity (da_base da1)) d0). apply (wi_base _ _ _ V1). exists da1.
    split; [done |]. unfold base_of. destruct (ai_buf _ _ _ Hbs) as [Hb0 _].
    by destruct (Z.eqb_spec (buf (da_base da1)) 0); [lia |].
  - simpl. rewrite A3. pose proof (register_base_spec (w_ranges w) (buf (da_base da))
      (buf (da_base da) + capacity (da_base da)) V5) as Hr.
    destruct (js_arena_register_base _ _ _) as [rc st]. by destruct Hr as [? _].
  - simpl. intros d0 Hne. by rewrite A2, lookup_insert_ne.
  - intros r ra Hin Hr. destruct (A4 r ra Hin Hr) as (ra' & X1 & _ & X3 & _ & X5 & X6). by exists ra'.
Qed.

(** ** Creating a dual arena *)

(** A new dual arena whose base block was just mapped. *)
Lemma winv_new_da own w d e b size a m' :
  winv own w -> w_das w !! d = None -> w_ras w !! d = None ->
  fresh_extent (outs (w_env w)) b size -> (4096 | size) -> 0 < size ->
  outs e = (b, size) :: outs (w_env w) -> live_structs e = {[ d ]} ∪ live_structs (w_env w) ->
  buf a = b -> capacity a = size -> arena_inv a m' [] ->
  (forall lo hi, hi <= b \/ b + size <= lo -> mem_agree (w_mem w) m' lo hi) ->
  let da := {| da_base := a; da_mode := JS_ARENA_MODE_BASE; da_cur := 0; requests := []; state_cell := 0;
               cache := [] |} in
  let w' := w_set_das (w_set_mem (w_set_env w e) m') (<[d := da]> (w_das w)) in
  winv (<[(b, size) := HBase d]> own) w' /\ bases_kept own w (<[(b, size) := HBase d]> own) w'.
Proof.
  intros Hv Hdn Hrn Hf Hmul Hs Eo El Eb Ec Hinv Hmem da w'. pose proof Hv as [V1 V2 [L1 L2 L3 L4 L5] V4 V5].
  assert (Hd : detached own (w_set_env w e) (b, size)) by (by eapply fresh_detached).
  destruct Hd as (D1 & D2 & D3 & D4). simpl in D2.
  assert (Hkeep : forall c h, own !! c = Some h -> <[(b, size) := HBase d]> own !! c = Some h).
  { intros c h Hc. rewrite lookup_insert_ne; [done |]. congruence. }
  assert (Hcases : forall c h, <[(b, size) := HBase d]> own !! c = Some h ->
    (c = (b, size) /\ h = HBase d) \/ own !! c = Some h).
  { intros c h Hc. apply lookup_insert_Some in Hc as [[<- <-] | [_ Hc]]; auto. }
  assert (Hagree : forall c h, own !! c = Some h -> mem_agree (w_mem w) m' (fst c) (fst c + snd c)).
  { intros c h Hc. apply Hmem. specialize (D4 c h Hc). unfold extents_apart in D4. simpl in D4. lia. }
  assert (Hnd : forall r ra, w_ras w !! r = Some ra -> ra_da ra <> d).
  { intros r ra Hr E. destruct (wi_ras _ _ _ V1 r ra Hr) as [_ [x Hx]]. congruence. }
  assert (Hb0 : (buf a =? 0) = false) by (apply Z.eqb_neq; destruct D3 as [? _]; simpl in *; lia).
  split; [split |].
  - split; simpl.
    + intros c h Hc. rewrite Eo. destruct (Hcases c h Hc) as [[-> ->] | Hc']; [split; [by left | done] |].
      destruct (wi_out _ _ _ V1 c h Hc'). split; [by right | done].
    + intros x y hx hy Hx Hy Hxy. destruct (Hcases x hx Hx) as [[-> ->] | Hx'], (Hcases y hy Hy) as [[-> ->] | Hy'].
      * done.
      * by eapply D4.
      * apply apart_sym. by eapply D4.
      * by eapply V1.
    + intros x r. rewrite <- (wi_chunk _ _ _ V1). split; [| apply Hkeep].
      intros Hx. destruct (Hcases _ _ Hx) as [[_ ?] | ?]; done.
    + intros x d0. split.
      * intros Hx. destruct (Hcases _ _ Hx) as [[_ ?] | Hx']; [done |].
        apply (wi_cache _ _ _ V1) in Hx' as (da0 & H0 & Hx'). exists da0. rewrite lookup_insert_ne; [done |]. congruence.
      * intros (da0 & H0 & Hx). apply lookup_insert_Some in H0 as [[<- <-] | [Hne H0]].
        -- simpl in Hx. by apply elem_of_nil in Hx.
        -- apply Hkeep, (wi_cache _ _ _ V1). by exists da0.
    + intros x d0. split.
      * intros Hx. destruct (Hcases _ _ Hx) as [[-> E] | Hx'].
        -- injection E as ->. exists da. rewrite lookup_insert_eq. split; [done |]. unfold base_of. simpl.
           by rewrite Hb0, Eb, Ec.
        -- apply (wi_base _ _ _ V1) in Hx' as (da0 & H0 & Hx'). exists da0. rewrite lookup_insert_ne; [done |]. congruence.
      * intros (da0 & H0 & Hx). apply lookup_insert_Some in H0 as [[<- <-] | [Hne H0]].
        -- unfold base_of in Hx. simpl in Hx. rewrite Hb0, Eb, Ec in Hx. injection Hx as <-. apply lookup_insert_eq.
        -- apply Hkeep, (wi_base _ _ _ V1). by exists da0.
    + intros d0 da0 H0. apply lookup_insert_Some in H0 as [[<- <-] | [Hne H0]]; [constructor | by eapply V1].
    + apply V1.
    + intros p r Hp Hr. rewrite (wi_owner _ _ _ V1) by done. split; intros (c & Hc & Hin).
      * exists c. auto.
      * destruct (Hcases _ _ Hc) as [[_ ?] | Hc']; [done |]. by exists c.
    + pose proof (wi_count _ _ _ V1). rewrite chunk_total_insert by done. simpl. lia.
    + intros r ra Hr. destruct (wi_ras _ _ _ V1 r ra Hr) as [C Hx]. split; [done |].
      rewrite lookup_insert_ne; [done |]. intros E. by eapply Hnd.
    + intros r Hr. rewrite El. destruct (decide (r = d)) as [-> | Hne]; [set_solver |].
      apply elem_of_union_r, (wi_live _ _ _ V1). destruct Hr as [Hr | Hr]; [by left |]. right. by rewrite lookup_insert_ne in Hr.
  - simpl. intros r ra da0 Hr H0. apply lookup_insert_Some in H0 as [[E _] | [_ H0]].
    + exfalso. by eapply Hnd.
    + by eapply V2.
  - split; simpl.
    + intros d0 da0 H0. apply lookup_insert_Some in H0 as [[<- <-] | [Hne H0]]; [constructor | by eapply L1].
    + intros d0 da0 r H0 Hin. apply lookup_insert_Some in H0 as [[<- <-] | [Hne H0]]; [by apply elem_of_nil in Hin | by eapply L2].
    + intros r ra Hr. destruct (L3 r ra Hr) as (da0 & H0 & Hin). exists da0. rewrite lookup_insert_ne; [done |]. congruence.
    + intros d0 da0 H0. apply lookup_insert_Some in H0 as [[<- <-] | [Hne H0]]; [by left | by eapply L4].
    + intros r ra Hr. rewrite lookup_insert_ne; [by eapply L5 | congruence].
  - simpl. intros d0 da0 H0. apply lookup_insert_Some in H0 as [[<- <-] | [Hne H0]]; [by exists [] |].
    destruct (V4 d0 da0 H0) as [bs Hbs]. exists bs. apply (arena_inv_frame _ (w_mem w)); [done |].
    apply (Hagree (buf (da_base da0), capacity (da_base da0)) (HBase d0)). apply (wi_base _ _ _ V1). exists da0.
    split; [done |]. unfold base_of. destruct (ai_buf _ _ _ Hbs) as [Hz _]. by destruct (Z.eqb_spec (buf (da_base da0)) 0); [lia |].
  - done.
  - split.
    + intros c d0 Hc. split; [by apply Hkeep | by apply (Hagree c (HBase d0))].
    + simpl. intros d0 da0 H0. exists da0. rewrite lookup_insert_ne; [done |]. congruence.
Qed.

Lemma arena_destroy_runs w d da (Q : Z -> world -> Prop) :
  w_das w !! d = Some da -> (forall w', Q 0 w') -> wp (arena_destroy d ;; free_da d ;; mret 0) Q w.
Proof.
  intros Hd HQ. unfold arena_destroy, free_da. wp_step. wp_step. apply (wp_load_da d da); [done |]. wp_step.
  destruct (buf (da_base da) =? 0); wp_steps; apply HQ.
Qed.

Definition new_dual_post (own : owners_map) (w : world) (d : Z) (w' : world) : Prop :=
  d <> 0 -> exists own' da, winv own' w' /\ bases_kept own w own' w' /\ w_das w !! d = None /\
    w_das w' !! d = Some da /\ da_mode da = JS_ARENA_MODE_BASE /\ da_cur da <> 0.

Lemma dual_arena_new2_spec own w base_size c p :
  winv own w -> 0 <= base_size < 2 ^ 60 -> cap_legal c -> prov_legal p ->
  wp (js_dual_arena_new2 base_size c p) (new_dual_post own w) w.
Proof.
  intros Hv Hbs Hcl Hpl. pose proof (wv_core _ _ Hv) as Hw. unfold js_dual_arena_new2.
  wp_step. apply wp_env_call. intros d e He. destruct (law_struct _ _ _ He) as [Eo Hs].
  destruct (Z.eqb_spec d 0) as [-> | Hd0]; [wp_steps; intros ?; done |].
  destruct Hs as [[? _] | (Hd0' & Hfresh & El)]; [done |].
  assert (Hdn : w_das w !! d = None).
  { apply eq_None_not_Some. intros Hx. apply Hfresh, (wi_live _ _ _ Hw). auto. }
  assert (Hrn : w_ras w !! d = None).
  { apply eq_None_not_Some. intros Hx. apply Hfresh, (wi_live _ _ _ Hw). auto. }
  wp_steps. set (da0 := Build_JSDualArena _ _ _ _ _ _). set (w0 := w_set_das _ _).
  assert (Hd1 : w_das w0 !! d = Some da0) by apply lookup_insert_eq.
  unfold base_init. wp_step. apply (wp_load_da d da0); [done |].
  set (c1 := if base_size =? 0 then ARENA_DEFAULT_SIZE else base_size).
  assert (Hc1 : 0 < c1 < 2 ^ 60).
  { subst c1. destruct (Z.eqb_spec base_size 0); [vm_compute; by split | lia]. }
  destruct (pages_round_ok c1 ltac:(lia)) as [[R1 R2] [k Hk]].
  change (ARENA_PREFIX_LEN + ARENA_HEADER_SIZE + ARENA_ALIGN) with 48.
  destruct (Z.ltb_spec (pages_round env_pagesz c1) 48); [lia |].
  wp_step. apply wp_env_call. intros b e1 He1. destruct (law_map _ _ _ _ He1) as [El1 Hmap]. simpl in He1, El1, Hmap.
  wp_steps. destruct (Z.eq_dec b 0) as [-> | Hb0].
  { unfold arena_init. fold c1. change (ARENA_PREFIX_LEN + ARENA_HEADER_SIZE + ARENA_ALIGN) with 48.
    destruct (Z.ltb_spec (pages_round env_pagesz c1) 48); [lia |]. unfold pages_map. simpl.
    unfold free_da. wp_steps. simpl. wp_steps. intros ?. done. }
  destruct Hmap as [[? _] | [Hf Eo1]]; [done |]. pose proof Hf as (F1 & F2 & F3 & F4).
  simpl. pose proof (arena_init_spec env_pagesz b (da_base da0) (w_mem w) base_size law_pagesz ltac:(lia)
    ltac:(lia) ltac:(destruct F2 as [z Hz]; exists (z * 256); lia)) as Hinit. simpl in Hinit.
  destruct (arena_init env_pagesz b arena_zero (w_mem w) base_size) as [[rc a] m'].
  destruct Hinit as (-> & Hinv & Eb & Ecap & Hcur & Hmem). fold c1 in Ecap. wp_steps. simpl.
  destruct (winv_new_da own w d e1 b (pages_round env_pagesz c1) a m') as [Hv2 Hbk2]; try done.
  { by rewrite <- Eo. } { by exists k. } { lia. } { by rewrite Eo1, Eo. } { by rewrite El1, El. }
  { by rewrite <- Ecap. }
  set (da2 := da_set_base da0 a) in *.
  match goal with |- wp _ _ ?x => set (w2 := x) end.
  assert (Ew2 : w2 = w_set_das (w_set_mem (w_set_env w e1) m') (<[d := da2]> (w_das w))).
  { subst w2. unfold w_set_das. simpl. by rewrite insert_insert_eq. }
  rewrite Ew2. clear w2 Ew2. set (own2 := <[(b, pages_round env_pagesz c1) := HBase d]> own) in *.
  match goal with |- wp _ _ ?x => set (w2 := x) in * end.
  assert (Hd2 : w_das w2 !! d = Some da2) by apply lookup_insert_eq.
  wp_step. eapply wp_mono; [by apply (request_arena_new_spec own2 w2 d da2 c p) |].
  intros r w3 (own3 & Hv3 & Hbk3 & Hnew & _).
  destruct (proj2 Hbk3 d da2 Hd2) as (da3 & Hd3 & Eb3 & Em3).
  destruct (Z.eqb_spec r 0) as [-> | Hr0].
  { apply (arena_destroy_runs w3 d da3); [done |]. intros w4 ?. done. }
  destruct (Hnew Hr0) as (_ & da3' & Hd3' & Hin). simplify_eq.
  wp_step. eapply wp_mono; [apply (select_request_spec own3 w3 d da3 r); try done; by right |].
  intros u w4 (Hv4 & Hbk4 & cell & Ed4 & _). wp_steps. intros _. exists own3, (da_set_cur da3 r cell).
  split; [done |]. split; [eapply bases_kept_trans; [exact Hbk2 |]; by eapply bases_kept_trans |].
  split; [done |]. rewrite Ed4. simpl. rewrite lookup_insert_eq. split; [done |]. simpl. rewrite Em3. done.
Qed.

(** ** Building the snapshot *)

(** A base-mode allocation stays inside the base block. *)
Lemma base_alloc_spec own w d da size :
  winv own w -> w_das w !! d = Some da -> 0 <= size < 2 ^ 60 ->
  wp (base_alloc d size) (fun p w' => exists da', winv own w' /\
    w_das w' = <[d := da']> (w_das w) /\ da_mode da' = da_mode da /\ buf (da_base da') = buf (da_base da) /\
    capacity (da_base da') = capacity (da_base da) /\ w_ras w' = w_ras w /\
    (forall b h, own !! b = Some h -> h <> HBase d -> mem_agree (w_mem w) (w_mem w') (fst b) (fst b + snd b)) /\
    (p <> 0 -> buf (da_base da) + 32 <= p /\ p + size <= buf (da_base da) + capacity (da_base da))) w.
Proof.
  intros Hv Hd Hs. pose proof Hv as [V1 V2 V3 V4 V5]. destruct (V4 d da Hd) as [bs Hbs].
  unfold base_alloc. wp_step. apply (wp_load_da d da); [done |]. wp_steps.
  set (a := da_base da) in *.
  assert (Hcase : exists p a' m' bs', arena_alloc a (w_mem w) size = (p, a', m') /\ arena_inv a' m' bs' /\
    buf a' = buf a /\ capacity a' = capacity a /\
    (forall lo hi, hi <= buf a \/ buf a + capacity a <= lo -> mem_agree (w_mem w) m' lo hi) /\
    (p <> 0 -> buf a + 32 <= p /\ p + size <= buf a + capacity a)).
  { destruct (Z.eq_dec size 0) as [-> | Hnz].
    { exists 0, a, (w_mem w), bs. unfold arena_alloc. simpl. split_and!; try done. }
    pose proof (round16 size ltac:(lia)) as [R1 _].
    destruct (decide (arena_cursor a (w_mem w) + ARENA_HEADER_SIZE + round_up ARENA_ALIGN size <= capacity a)) as [Hf | Hf].
    - destruct (arena_alloc_granted a (w_mem w) bs Hbs size ltac:(lia) Hf) as (a' & m' & E & Hi & E1 & E2 & F1 & F2).
      destruct (ai_cursor _ _ _ Hbs) as [Hcur _]. unfold ARENA_HEADER_SIZE, ARENA_PREFIX_LEN in *.
      eexists _, a', m', _. split; [exact E |]. split; [exact Hi |]. split; [done |]. split; [done |]. split; [| lia].
      intros lo hi [Hr | Hr]; [by apply F2 | apply F1; lia].
    - exists 0, a, (w_mem w), bs. rewrite (arena_alloc_refused a (w_mem w) bs Hbs) by (unfold fits; lia || lia).
      split_and!; try done. }
  destruct Hcase as (p & a' & m' & bs' & -> & Hi & E1 & E2 & Hfr & Hp). wp_steps.
  assert (Hbase : own !! (buf a, capacity a) = Some (HBase d)).
  { apply (wi_base _ _ _ V1). exists da. split; [done |]. unfold base_of. fold a.
    destruct (ai_buf _ _ _ Hbs) as [Hz _]. by destruct (Z.eqb_spec (buf a) 0); [lia |]. }
  assert (Hag : forall b h, own !! b = Some h -> h <> HBase d -> mem_agree (w_mem w) m' (fst b) (fst b + snd b)).
  { intros b h Hb Hne. apply Hfr. assert (Hx : b <> (buf a, capacity a)) by congruence.
    pose proof (wi_apart _ _ _ V1 _ _ _ _ Hb Hbase Hx) as Hap. unfold extents_apart in Hap. simpl in Hap. lia. }
  exists (da_set_base da a'). split; [| split_and!; try done].
  set (da' := da_set_base da a').
  assert (Hlook : forall d0 da0, <[d := da']> (w_das w) !! d0 = Some da0 -> exists da1, w_das w !! d0 = Some da1 /\
    requests da0 = requests da1 /\ da_mode da0 = da_mode da1 /\ da_cur da0 = da_cur da1 /\ state_cell da0 = state_cell da1 /\
    cache da0 = cache da1 /\ base_of da0 = base_of da1 /\ (d0 = d /\ da0 = da' \/ d0 <> d /\ da0 = da1)).
  { intros d0 da0 H0. apply lookup_insert_Some in H0 as [[<- <-] | [Hne H0]].
    - exists da. split_and!; auto. unfold base_of. simpl. fold a. by rewrite E1, E2.
    - exists da0. split_and!; auto. }
  assert (Hlook2 : forall d0 da1, w_das w !! d0 = Some da1 -> exists da0, <[d := da']> (w_das w) !! d0 = Some da0).
  { intros d0 da1 H1. destruct (decide (d0 = d)) as [-> | Hne]; [rewrite lookup_insert_eq; eauto | rewrite lookup_insert_ne by done; eauto]. }
  destruct V3 as [L1 L2 L3 L4 L5]. destruct V1 as [C1 C2 C3 C4 C5 C6 C7 C8 C9 C10 C11].
  split; simpl.
  - split; simpl; try done.
    + intros b d0. rewrite C4. split; intros (da0 & H0 & Hb).
      * destruct (Hlook2 _ _ H0) as [dax Hx]. exists dax. split; [done |].
        destruct (Hlook _ _ Hx) as (da1 & X1 & _ & _ & _ & _ & -> & _). by simplify_eq.
      * destruct (Hlook _ _ H0) as (da1 & X1 & _ & _ & _ & _ & E & _). exists da1. by rewrite <- E.
    + intros b d0. rewrite C5. split; intros (da0 & H0 & Hb).
      * destruct (Hlook2 _ _ H0) as [dax Hx]. exists dax. split; [done |].
        destruct (Hlook _ _ Hx) as (da1 & X1 & _ & _ & _ & _ & _ & -> & _). by simplify_eq.
      * destruct (Hlook _ _ H0) as (da1 & X1 & _ & _ & _ & _ & _ & E & _). exists da1. by rewrite <- E.
    + intros d0 da0 H0. destruct (Hlook _ _ H0) as (da1 & X1 & _ & _ & _ & _ & -> & _). by eapply C6.
    + intros r ra Hr. destruct (C10 r ra Hr) as [X [y Hy]]. split; [done |]. destruct (Hlook2 _ _ Hy) as [z Hz]. eauto.
    + intros r [Hr | [x Hx]]; apply C11; [by left |]. right. destruct (Hlook _ _ Hx) as (da1 & X1 & _). eauto.
  - intros r ra da0 Hr H0. destruct (Hlook _ _ H0) as (da1 & X1 & _ & -> & _). by eapply V2.
  - split; simpl.
    + intros d0 da0 H0. destruct (Hlook _ _ H0) as (da1 & X1 & -> & _). by eapply L1.
    + intros d0 da0 r H0. destruct (Hlook _ _ H0) as (da1 & X1 & -> & _). by eapply L2.
    + intros r ra Hr. destruct (L3 r ra Hr) as (da1 & X1 & Hin). destruct (Hlook2 _ _ X1) as [z Hz]. exists z.
      split; [done |]. destruct (Hlook _ _ Hz) as (da2 & X2 & -> & _). by simplify_eq.
    + intros d0 da0 H0. destruct (Hlook _ _ H0) as (da1 & X1 & -> & _ & -> & -> & _). by eapply L4.
    + intros r ra Hr. apply eq_None_not_Some. intros [x Hx]. destruct (Hlook _ _ Hx) as (da1 & X1 & _).
      rewrite (L5 r ra Hr) in X1. done.
  - intros d0 da0 H0. destruct (Hlook _ _ H0) as (da1 & X1 & _ & _ & _ & _ & _ & _ & [[-> ->] | [Hne ->]]).
    + by exists bs'.
    + destruct (V4 d0 da1 X1) as [bs1 Hbs1]. exists bs1. apply (arena_inv_frame _ (w_mem w)); [done |].
      apply (Hag (buf (da_base da1), capacity (da_base da1)) (HBase d0)); [| congruence].
      apply C5. exists da1. split; [done |]. unfold base_of.
      destruct (ai_buf _ _ _ Hbs1) as [Hz _]. by destruct (Z.eqb_spec (buf (da_base da1)) 0); [lia |].
  - done.
Qed.
End system.
