(* ===== verification/ArenaTheorems.v ===== *)
(** * What the dual arena guarantees

    [reachable] is the set of thread states legal calls lead to, from a thread
    without arenas.  The theorems hold for every environment and every mspace
    satisfying the interfaces of [ArenaWorld]; [ArenaWitness] instantiates both. *)

From stdpp Require Import base list numbers gmap.
From Stdlib Require Import ZArith Lia.
From S2P Require Import Prelude Memory ChunkTable BaseRanges Thermometer BumpArena ArenaWorld.
From S2P Require Import RequestArena ArenaInvariant DualArena ArenaOps ArenaHooks ArenaLifecycle.
From S2P Require Import ArenaSystem.

#[local] Open Scope m_scope.

Section theorems.
Context `{EV : Env} `{EL : !EnvLaws} `{MS : Mspace} `{ML : !MspaceLaws}.

(** ** Calls *)

Inductive call :=
  | CNewDual (base_size request_cap : Z) (p : option JSArenaChunkProvider)
  | CFreeze (d : Z)
  | CMalloc (d size : Z)
  | CCalloc (d count size : Z)
  | CRealloc (d ptr size : Z)
  | CFree (d ptr : Z)
  | CReset (d : Z)
  | CSelect (d r : Z)
  | CSetMode (d : Z) (md : JSArenaReqMode)
  | CNewRequest (d request_cap : Z) (p : option JSArenaChunkProvider)
  | CFreeRequest (r : Z)
  | CStore (x b : Z).

(** Calls without a result return 0; [CStore] is the engine writing a byte. *)
Definition do_call (c : call) : M Z :=
  match c with
  | CNewDual b c p => js_dual_arena_new2 b c p
  | CFreeze d => js_dual_arena_freeze d ;; mret 0
  | CMalloc d size => jda_malloc d size
  | CCalloc d count size => jda_calloc d count size
  | CRealloc d ptr size => jda_realloc d ptr size
  | CFree d ptr => jda_free d ptr ;; mret 0
  | CReset d => js_dual_arena_reset_request d ;; mret 0
  | CSelect d r => js_dual_arena_select_request d r ;; mret 0
  | CSetMode d md => js_dual_arena_set_request_mode d md ;; mret 0
  | CNewRequest d c p => js_request_arena_new d c p
  | CFreeRequest r => js_request_arena_free r ;; mret 0
  | CStore x b => modify (fun w => w_set_mem w (<[x := b]> (w_mem w))) ;; mret 0
  end.

Definition frozen (w : world) (d : Z) : Prop :=
  exists da, w_das w !! d = Some da /\ da_mode da = JS_ARENA_MODE_REQUEST.

(** The byte at [x] belongs to a live request arena. *)
Definition in_request (w : world) (x : Z) : Prop :=
  exists r ra c, w_ras w !! r = Some ra /\ c ∈ chunks ra /\ in_block x c.

(** Pointers given back are addresses; their owner, if any, is usable. *)
Definition ptr_legal (w : world) (ptr : Z) : Prop :=
  0 <= ptr /\ forall r ra c, w_ras w !! r = Some ra -> c ∈ chunks ra -> in_block ptr c -> frozen w (ra_da ra).

(** What callers must respect: live handles, sizes below [2^60], frozen arenas
    for the request-mode hooks, and stores into request memory only. *)
Definition legal (w : world) (c : call) : Prop :=
  match c with
  | CNewDual b c p => 0 <= b < 2 ^ 60 /\ cap_legal c /\ prov_legal p
  | CFreeze d => exists da, w_das w !! d = Some da /\ da_mode da = JS_ARENA_MODE_BASE
  | CMalloc d size => is_Some (w_das w !! d) /\ 0 <= size < 2 ^ 60
  | CCalloc d count size => frozen w d /\ 0 <= count /\ 0 <= size /\ count * size < 2 ^ 60
  | CRealloc d ptr size => frozen w d /\ ptr_legal w ptr /\ 0 <= size < 2 ^ 60
  | CFree d ptr => frozen w d /\ ptr_legal w ptr
  | CReset d => is_Some (w_das w !! d)
  | CSelect d r => exists da, w_das w !! d = Some da /\ (r = 0 \/ r ∈ requests da)
  | CSetMode d md => is_Some (w_das w !! d)
  | CNewRequest d c p => is_Some (w_das w !! d) /\ cap_legal c /\ prov_legal p
  | CFreeRequest r => is_Some (w_ras w !! r)
  | CStore x b => in_request w x
  end.

(** A failed [CNewDual] leaves nothing to call. *)
Definition succeeded (c : call) (a : Z) : Prop := match c with CNewDual _ _ _ => a <> 0 | _ => True end.

Inductive reachable : world -> Prop :=
  | reach_init m g e : reachable (w_init m g e)
  | reach_call w c a w' :
      reachable w -> legal w c -> do_call c w = Done (a, w') -> succeeded c a -> reachable w'.

(** ** Every legal call returns and keeps the invariant *)

(** Frozen bases keep their struct and their bytes. *)
Definition frozen_kept (w w' : world) : Prop :=
  forall d da, w_das w !! d = Some da -> da_mode da = JS_ARENA_MODE_REQUEST ->
    exists da', w_das w' !! d = Some da' /\ da_mode da' = JS_ARENA_MODE_REQUEST /\ da_base da' = da_base da /\
      mem_agree (w_mem w) (w_mem w') (buf (da_base da)) (buf (da_base da) + capacity (da_base da)).

Definition step_post (c : call) (w : world) (a : Z) (w' : world) : Prop :=
  succeeded c a -> (exists own', winv own' w') /\ frozen_kept w w'.

Lemma base_held own w d da :
  winv own w -> w_das w !! d = Some da ->
  own !! (buf (da_base da), capacity (da_base da)) = Some (HBase d).
Proof.
  intros [V1 V2 V3 V4 V5] Hd. destruct (V4 d da Hd) as [bs Hbs]. apply (wi_base _ _ _ V1). exists da.
  split; [done |]. unfold base_of. destruct (ai_buf _ _ _ Hbs) as [Hz _].
  by destruct (Z.eqb_spec (buf (da_base da)) 0); [lia |].
Qed.

Lemma kept_bases own w own' w' : winv own w -> bases_kept own w own' w' -> frozen_kept w w'.
Proof.
  intros Hv [K1 K2] d da Hd Hm. destruct (K2 d da Hd) as (da' & H' & E1 & E2). exists da'.
  split; [done |]. split; [congruence |]. split; [done |].
  destruct (K1 _ d (base_held own w d da Hv Hd)) as [_ Hag]. exact Hag.
Qed.

Lemma post_intro c own w own' w' a : winv own w -> winv own' w' -> bases_kept own w own' w' -> step_post c w a w'.
Proof. intros Hv Hv' Hk _. split; [by exists own' | by eapply kept_bases]. Qed.

Lemma post_refl c own w a : winv own w -> step_post c w a w.
Proof. intros Hv. apply (post_intro c own w own); [done | done | apply bases_kept_refl]. Qed.

(** The selected arena of a dual arena. *)
Lemma selected own w d da :
  winv own w -> w_das w !! d = Some da -> da_cur da <> 0 -> exists ra, w_ras w !! da_cur da = Some ra.
Proof.
  intros Hv Hd Hc. destruct (lk_cur _ (wv_links _ _ Hv) d da Hd) as [Hz | [_ (ra & Hra & _)]]; [done | eauto].
Qed.

Lemma hook_step c own w d da ra size :
  winv own w -> w_das w !! d = Some da -> da_mode da = JS_ARENA_MODE_REQUEST -> da_cur da <> 0 ->
  w_ras w !! da_cur da = Some ra ->
  forall p w', hook_post (da_cur da) ra own w size p w' -> step_post c w p w'.
Proof.
  intros Hv Hd Hm Hc Hr p w' Hh.
  destruct (hook_inv own w d (da_cur da) da ra Hv Hd Hm eq_refl Hc Hr size p w' Hh) as [own' Hv'].
  pose proof Hh as (own2 & ra' & He & _). intros _. split; [by exists own' |].
  eapply kept_bases; [exact Hv |]. by eapply evo_bases.
Qed.

Lemma malloc_step own w d size :
  winv own w -> legal w (CMalloc d size) -> wp (jda_malloc d size) (step_post (CMalloc d size) w) w.
Proof.
  intros Hv [[da Hd] Hs]. destruct (da_mode da) eqn:Hm.
  - unfold jda_malloc. wp_step. apply (wp_load_da d da); [done |]. rewrite Hm.
    eapply wp_mono; [by apply (base_alloc_spec own w d da size) |].
    intros p w' (da' & Hv' & Ed & Em & _ & _ & _ & Hag & _) _. split; [by exists own |].
    intros d0 da0 H0 Hm0. assert (Hne : d0 <> d) by congruence. exists da0. rewrite Ed, lookup_insert_ne by done.
    split; [done |]. split; [done |]. split; [done |].
    apply (Hag _ _ (base_held own w d0 da0 Hv H0)). congruence.
  - destruct (Z.eq_dec (da_cur da) 0) as [Hc | Hc].
    + unfold jda_malloc. wp_step. apply (wp_load_da d da); [done |]. rewrite Hm, Hc. simpl. wp_steps.
      by apply (post_refl _ own).
    + destruct (selected own w d da Hv Hd Hc) as [ra Hra].
      eapply wp_mono; [by apply (jda_malloc_spec own w d (da_cur da) da ra) |].
      by apply (hook_step _ own w d da ra size).
Qed.

Lemma calloc_step own w d count size :
  winv own w -> legal w (CCalloc d count size) ->
  wp (jda_calloc d count size) (step_post (CCalloc d count size) w) w.
Proof.
  intros Hv [(da & Hd & Hm) (Hc & Hs & Hb)].
  destruct (Z.eq_dec count 0) as [-> | Hc0].
  { unfold jda_calloc. simpl. wp_steps. by apply (post_refl _ own). }
  destruct (Z.eq_dec size 0) as [-> | Hs0].
  { unfold jda_calloc. rewrite orb_true_r. wp_steps. by apply (post_refl _ own). }
  destruct (Z.eq_dec (da_cur da) 0) as [Hz | Hz].
  - unfold jda_calloc. repeat (case_if; [wp_steps; by apply (post_refl _ own) |]).
    wp_step. apply (wp_load_da d da); [done |]. rewrite Hm, Hz. simpl. wp_steps. by apply (post_refl _ own).
  - destruct (selected own w d da Hv Hd Hz) as [ra Hra].
    eapply wp_mono; [apply (jda_calloc_spec own w d (da_cur da) da ra); try done; lia |].
    intros p w' [Hh _]. by apply (hook_step _ own w d da ra (count * size)).
Qed.

Lemma realloc_step own w d ptr size :
  winv own w -> legal w (CRealloc d ptr size) ->
  wp (jda_realloc d ptr size) (step_post (CRealloc d ptr size) w) w.
Proof.
  intros Hv [(da & Hd & Hm) [Hp Hs]].
  destruct (Z.eq_dec ptr 0) as [-> | Hp0].
  { unfold jda_realloc. wp_step. apply (wp_load_da d da); [done |]. rewrite Hm. simpl.
    eapply wp_mono; [apply (malloc_step own w d size Hv); by split; [exists da |] |]. done. }
  assert (Hzero : forall w0, w0 = w -> step_post (CRealloc d ptr size) w 0 w0).
  { intros w0 ->. by apply (post_refl _ own). }
  destruct (Z.eq_dec size 0) as [-> | Hs0].
  { unfold jda_realloc. wp_step. apply (wp_load_da d da); [done |]. rewrite Hm.
    destruct (Z.eqb_spec ptr 0); [done |]. simpl. wp_steps. by apply Hzero. }
  destruct (Z.eq_dec (da_cur da) 0) as [Hz | Hz].
  { unfold jda_realloc. wp_step. apply (wp_load_da d da); [done |]. rewrite Hm, Hz.
    destruct (Z.eqb_spec ptr 0); [done |]. destruct (Z.eqb_spec size 0); [done |]. simpl. wp_steps. by apply Hzero. }
  destruct (selected own w d da Hv Hd Hz) as [ra Hra]. destruct Hp as [Hp _].
  eapply wp_mono; [apply (jda_realloc_spec own w d (da_cur da) da ra); try done; lia |].
  by apply (hook_step _ own w d da ra size).
Qed.

(** The owner of a legal pointer runs frozen. *)
Lemma legal_owner own w ptr o rao dao :
  winv own w -> ptr_legal w ptr -> owner_of (w_chunks w) ptr = o -> w_ras w !! o = Some rao ->
  w_das w !! ra_da rao = Some dao -> da_mode dao = JS_ARENA_MODE_REQUEST.
Proof.
  intros Hv [Hp Hl] Ho Hr Hd. pose proof (wv_core _ _ Hv) as Hw.
  destruct (wi_ras _ _ _ Hw o rao Hr) as [Hc _]. pose proof (rc_addr _ _ Hc) as Ho0.
  destruct (proj1 (wi_owner _ _ _ Hw ptr o Hp ltac:(lia)) Ho) as (b & Hb & Hin).
  apply (wi_chunk _ _ _ Hw) in Hb as (ra & Hra & Hbc). simplify_eq.
  destruct (Hl _ rao b Hr Hbc Hin) as (dax & Hx & Hm). congruence.
Qed.

Lemma free_step own w d ptr :
  winv own w -> legal w (CFree d ptr) -> wp (jda_free d ptr ;; mret 0) (step_post (CFree d ptr) w) w.
Proof.
  intros Hv [(da & Hd & Hm) Hp]. wp_step. eapply wp_mono.
  { apply (jda_free_spec own w d da ptr); try done; [apply Hp |].
    intros o rao dao. by apply (legal_owner own w ptr o rao dao). }
  intros u w' [[-> _] | (rao & rao' & Hr & Ho & _ & He & Hv' & _)]; wp_steps.
  - by apply (post_refl _ own).
  - apply (post_intro _ own w own); try done. by eapply evo_bases.
Qed.

Lemma reset_step own w d :
  winv own w -> legal w (CReset d) -> wp (js_dual_arena_reset_request d ;; mret 0) (step_post (CReset d) w) w.
Proof.
  intros Hv [da Hd]. unfold js_dual_arena_reset_request. wp_step. wp_step. apply (wp_load_da d da); [done |].
  destruct (Z.eqb_spec (da_cur da) 0) as [Hz | Hz]; wp_steps.
  { by apply (post_refl _ own). }
  destruct (selected own w d da Hv Hd Hz) as [ra Hra].
  destruct (lk_out _ (wv_links _ _ Hv) _ ra Hra) as (da' & Hd' & _).
  destruct (reset_spec own w (da_cur da) ra da' Hv Hra Hd') as (h & _ & Hwp).
  eapply wp_mono; [exact Hwp |]. intros u w' (own' & ra' & He & Hv' & _). wp_steps.
  apply (post_intro _ own w own'); try done. by eapply evo_bases.
Qed.

Lemma store_step own w x b :
  winv own w -> legal w (CStore x b) ->
  wp (modify (fun w => w_set_mem w (<[x := b]> (w_mem w))) ;; mret 0) (step_post (CStore x b) w) w.
Proof.
  intros Hv (r & ra & c & Hr & Hc & Hin). wp_steps.
  assert (He : evo r ra ra own w own (w_set_mem w (<[x := b]> (w_mem w)))).
  { apply evo_mem; [apply Hv | done |]. intros y Hy. rewrite load8_insert.
    destruct (Z.eqb_spec x y) as [<- | _]; [| done]. exfalso.
    exact (proj1 (Forall_forall _ _) Hy c Hc Hin). }
  apply (post_intro _ own w own); [done | | by eapply evo_bases].
  apply (evo_winv r ra ra own w); try done. intros da Hd. by eapply (wv_modes _ _ Hv).
Qed.

Lemma freeze_step own w d :
  winv own w -> legal w (CFreeze d) -> wp (js_dual_arena_freeze d ;; mret 0) (step_post (CFreeze d) w) w.
Proof.
  intros Hv (da & Hd & Hm). wp_step. eapply wp_mono; [by apply (freeze_spec own w d da) |].
  intros u w' (Hv' & Hd' & Hag & Hoth & _). wp_steps. intros _. split; [by exists own |].
  intros d0 da0 H0 Hm0. assert (Hne : d0 <> d) by congruence.
  rewrite <- (Hoth d0 Hne) in H0. exists da0. split; [done |]. split; [done |]. split; [done |].
  rewrite (Hoth d0 Hne) in H0. exact (Hag _ d0 (base_held own w d0 da0 Hv H0)).
Qed.

(** Every legal call returns, preserves the invariant and the frozen bases. *)
Lemma call_step own w c : winv own w -> legal w c -> wp (do_call c) (step_post c w) w.
Proof.
  intros Hv Hl. destruct c as [b c p | d | d size | d count size | d ptr size | d ptr | d | d r | d md | d c p | r | x b];
    simpl do_call.
  - destruct Hl as (H1 & H2 & H3). eapply wp_mono; [by apply (dual_arena_new2_spec own w b c p) |].
    intros d w' Hp Hd. destruct (Hp Hd) as (own' & da & Hv' & Hk & _). split; [by exists own' | by eapply kept_bases].
  - by apply (freeze_step own).
  - by apply (malloc_step own).
  - by apply (calloc_step own).
  - by apply (realloc_step own).
  - by apply (free_step own).
  - by apply (reset_step own).
  - destruct Hl as (da & Hd & Hr). wp_step. eapply wp_mono; [by apply (select_request_spec own w d da r) |].
    intros u w' (Hv' & Hk & _). wp_steps. by apply (post_intro _ own w own).
  - destruct Hl as [da Hd]. wp_step. eapply wp_mono; [by apply (set_request_mode_spec own w d da md) |].
    intros u w' (Hv' & Hk & _). wp_steps. by apply (post_intro _ own w own).
  - destruct Hl as ([da Hd] & H1 & H2). eapply wp_mono; [by apply (request_arena_new_spec own w d da c p) |].
    intros r w' (own' & Hv' & Hk & _). by apply (post_intro _ own w own').
  - destruct Hl as [ra Hr]. wp_step. eapply wp_mono; [by apply (request_arena_free_spec own w r ra) |].
    intros u w' (own' & Hv' & Hk & _). wp_steps. by apply (post_intro _ own w own').
  - by apply (store_step own).
Qed.

Lemma reachable_inv w : reachable w -> exists own, winv own w.
Proof.
  induction 1 as [m g e | w c a w' _ [own Hv] Hl Hc Hs].
  - exists ∅. apply winv_init.
  - pose proof (call_step own w c Hv Hl) as Hwp. unfold wp in Hwp. rewrite Hc in Hwp. by apply Hwp.
Qed.

(** ** Runs *)

Fixpoint run_calls (l : list call) : M (list Z) :=
  match l with
  | [] => mret []
  | c :: l =>
      let! a := do_call c in
      let! rest := run_calls l in
      mret (a :: rest)
  end.

(** Each call is legal in the state the previous ones lead to. *)
Fixpoint calls_ok (w : world) (l : list call) : Prop :=
  match l with
  | [] => True
  | c :: l => legal w c /\ forall a w', do_call c w = Done (a, w') -> succeeded c a /\ calls_ok w' l
  end.

(** The run of legal calls returns and every frozen base is as it was. *)
Lemma run_calls_kept l w :
  reachable w -> calls_ok w l ->
  exists rs w', run_calls l w = Done (rs, w') /\ reachable w' /\ frozen_kept w w'.
Proof.
  revert w. induction l as [| c l IH]; intros w Hr Hl.
  - exists [], w. split; [done |]. split; [done |]. intros d da Hd Hm. by exists da.
  - destruct Hl as [Hleg Hnext]. destruct (reachable_inv w Hr) as [own Hv].
    pose proof (call_step own w c Hv Hleg) as Hwp. unfold wp in Hwp. simpl. unfold mbind.
    destruct (do_call c w) as [[a w1] | |] eqn:Hc; [| done | done].
    destruct (Hnext a w1 eq_refl) as [Hs Hl1]. destruct (Hwp Hs) as [_ Hk1].
    destruct (IH w1) as (rs & w' & Hrun & Hr' & Hk'); [by eapply reach_call | done |].
    exists (a :: rs), w'. simpl. rewrite Hrun. split; [done |]. split; [done |].
    intros d da Hd Hm. destruct (Hk1 d da Hd Hm) as (da1 & H1 & M1 & E1 & A1).
    destruct (Hk' d da1 H1 M1) as (da2 & H2 & M2 & E2 & A2). exists da2.
    split; [done |]. split; [done |]. split; [congruence |]. rewrite E1 in A2. by eapply mem_agree_trans.
Qed.

(** ** Properties *)


(** C12: extents, budget and chunk set agree.  In every reachable state, for
    every request arena: [held] is the sum of its extents and within its
    budget, [extents] is their number, they are chunk aligned and pairwise
    disjoint, and [js_arena_ptr_request_owner] answers with this arena exactly
    on their bytes. *)
Theorem request_extents_exact w r ra :
  reachable w -> w_ras w !! r = Some ra ->
  held ra = extents_total (chunks ra) /\ held ra <= cap ra /\ extents ra = lenZ (chunks ra) /\
  (forall c, c ∈ chunks ra -> (4096 | fst c) /\ (4096 | snd c) /\ 0 < snd c) /\
  (forall c c', c ∈ chunks ra -> c' ∈ chunks ra -> c <> c' -> extents_apart c c') /\
  (forall p, 0 <= p -> exists o, js_arena_ptr_request_owner (w_chunks w) p = Done o /\
     (o = r <-> exists c, c ∈ chunks ra /\ in_block p c)).
Proof.
  intros Hreach Hr. destruct (reachable_inv w Hreach) as [own Hv]. pose proof (wv_core _ _ Hv) as Hw.
  destruct (wi_ras _ _ _ Hw r ra Hr) as [[C1 C2 C3 C4 C5 C6 C7] _].
  assert (Hown : forall c, c ∈ chunks ra <-> own !! c = Some (HChunk r)).
  { intros c. rewrite (wi_chunk _ _ _ Hw). split; [by exists ra |]. intros (ra' & H' & Hc). by simplify_eq. }
  split; [done |]. split; [lia |]. split; [done |]. split; [| split].
  - intros c Hc. apply Hown in Hc. destruct (wi_out _ _ _ Hw c _ Hc) as [_ (_ & K2 & K3 & K4 & _)]. done.
  - intros c c' Hc Hc' Hne. apply Hown in Hc, Hc'. by eapply (wi_apart _ _ _ Hw).
  - intros p Hp. exists (owner_of (w_chunks w) p). split; [apply request_owner_spec; [apply Hw | done] |].
    rewrite (wi_owner _ _ _ Hw) by lia. split; intros (c & Hc & Hin); exists c; by rewrite Hown in *.
Qed.

(** Result of an allocating hook of [d], seen from outside. *)
Definition hook_isolated (w : world) (r size p : Z) (w' : world) : Prop :=
  (forall r' ra', r' <> r -> w_ras w !! r' = Some ra' -> w_ras w' !! r' = Some ra' /\
     forall c, c ∈ chunks ra' -> mem_agree (w_mem w) (w_mem w') (fst c) (fst c + snd c)) /\
  (p <> 0 -> exists ra', w_ras w' !! r = Some ra' /\ inside (territory (chunks ra')) p size).

Lemma hook_isolation own w r ra size p w' :
  winv own w -> hook_post r ra own w size p w' -> hook_isolated w r size p w'.
Proof.
  intros Hv (own' & ra' & He & _ & _ & _ & _ & Hp). pose proof (wv_core _ _ Hv) as Hw. split.
  - intros r' ra2 Hne H2. split; [by rewrite (ev_others _ _ _ _ _ _ _ He) |]. intros c Hc.
    apply (ev_frame _ _ _ _ _ _ _ He c (HChunk r')); [| done]. apply (wi_chunk _ _ _ Hw). by exists ra2.
  - intros Hnz. exists ra'. split; [apply He | by apply Hp].
Qed.


(** [jda_calloc] hands out zeroed memory in both request modes, although
    extents are reused dirty between requests. *)
Theorem calloc_zeroes w d da count size :
  reachable w -> w_das w !! d = Some da -> da_mode da = JS_ARENA_MODE_REQUEST -> da_cur da <> 0 ->
  0 < count -> 0 < size -> count * size < 2 ^ 60 ->
  exists p w', jda_calloc d count size w = Done (p, w') /\
    (p <> 0 -> forall i, 0 <= i < count * size -> load8 (w_mem w') (p + i) = 0).
Proof.
  intros Hreach Hd Hm Hc H1 H2 H3. destruct (reachable_inv w Hreach) as [own Hv].
  destruct (selected own w d da Hv Hd Hc) as [ra Hra].
  pose proof (jda_calloc_spec own w d (da_cur da) da ra Hv Hd Hm eq_refl Hc Hra count size H1 H2 H3) as Hwp.
  unfold wp in Hwp. destruct (jda_calloc d count size w) as [[p w'] | |]; [| done | done].
  exists p, w'. split; [done |]. apply Hwp.
Qed.

(** The first refusal of a request is latched with the size it asked for;
    later refusals and successes leave the record alone until reset. *)
Theorem oom_latches_first_refusal w d da ra size :
  reachable w -> w_das w !! d = Some da -> da_mode da = JS_ARENA_MODE_REQUEST -> da_cur da <> 0 ->
  w_ras w !! da_cur da = Some ra -> 0 <= size < 2 ^ 60 ->
  exists p w' ra', jda_malloc d size w = Done (p, w') /\ w_ras w' !! da_cur da = Some ra' /\
    (p <> 0 -> oom ra' = oom ra) /\
    (p = 0 -> hit (oom ra) = true -> oom ra' = oom ra) /\
    (p = 0 -> hit (oom ra) = false -> hit (oom ra') = true /\ requested (oom ra') = size).
Proof.
  intros Hreach Hd Hm Hc Hra Hs. destruct (reachable_inv w Hreach) as [own Hv].
  pose proof (jda_malloc_spec own w d (da_cur da) da ra Hv Hd Hm eq_refl Hc Hra size Hs) as Hwp.
  unfold wp in Hwp. destruct (jda_malloc d size w) as [[p w'] | |]; [| done | done].
  destruct Hwp as (own' & ra' & He & _ & _ & _ & Ho & _). exists p, w', ra'. split; [done |].
  split; [apply He |]. unfold oom_after in Ho. destruct (Z.eqb_spec p 0) as [-> | Hnz].
  - split; [done |]. split; intros _ Hh; rewrite Hh in Ho; exact Ho.
  - split; [done |]. split; done.
Qed.

(** C14: a reset gives a fresh arena at the same place.  It returns; the arena
    holds its head extent only, with no refusal recorded and the pending mode
    in force, nothing of the other arenas or bases changes, the state cell
    still points into the head, and no address outside the head is attributed
    to the arena any more. *)
Theorem reset_is_fresh w d da ra h :
  reachable w -> w_das w !! d = Some da -> da_mode da = JS_ARENA_MODE_REQUEST -> da_cur da <> 0 ->
  w_ras w !! da_cur da = Some ra -> hd_error (chunks ra) = Some h ->
  exists w' ra' da', js_dual_arena_reset_request d w = Done (tt, w') /\
    w_ras w' !! da_cur da = Some ra' /\ w_das w' !! d = Some da' /\
    chunks ra' = [h] /\ held ra' = snd h /\ oom ra' = oom_none /\
    ra_mode ra' = mode_next ra /\ state_cell da' = fst h + 16 /\
    (ra_mode ra' = JS_ARENA_REQ_MODE_GC -> used ra' = 0) /\
    (ra_mode ra' = JS_ARENA_REQ_MODE_BUMP -> bump ra' = bump_fresh 528) /\
    (forall r' , r' <> da_cur da -> w_ras w' !! r' = w_ras w !! r') /\
    (forall p, 0 <= p -> js_arena_ptr_request_owner (w_chunks w') p = Done (da_cur da) -> in_block p h).
Proof.
  intros Hreach Hd Hm Hc Hra Hh. destruct (reachable_inv w Hreach) as [own Hv].
  assert (Ed : ra_da ra = d) by (by apply (cur_da own w d (da_cur da) da ra)).
  destruct (reset_spec own w (da_cur da) ra da Hv Hra ltac:(by rewrite Ed)) as (h' & Hh' & Hwp).
  rewrite Hh in Hh'. injection Hh' as <-.
  unfold js_dual_arena_reset_request, mbind, load_da. rewrite Hd. simpl.
  destruct (Z.eqb_spec (da_cur da) 0); [done |].
  unfold wp in Hwp. destruct (js_request_arena_reset (da_cur da) w) as [[[] w'] | |]; [| done | done].
  destruct Hwp as (own' & ra' & He & Hv' & (R1 & R2 & R3 & R4 & R5)). rewrite Hm in R5.
  destruct (das_sim_lookup w w' d da (ev_das _ _ _ _ _ _ _ He) Hd) as (da' & Hd' & Es).
  unfold strip, da_set_cache in Es.
  exists w', ra', da'. destruct R5 as [F1 F2 F3 F4 F5].
  split; [done |]. split; [apply He |]. split; [done |]. split; [done |]. split; [done |]. split; [done |].
  split; [done |]. split; [| split; [done | split; [by intros Hb; apply F4 | split; [apply He |]]]].
  - destruct (lk_cur _ (wv_links _ _ Hv') d da' Hd') as [Hz | [_ (ra2 & H2 & Hsl)]]; [congruence |].
    replace (da_cur da') with (da_cur da) in H2 by congruence.
    rewrite (ev_ra _ _ _ _ _ _ _ He) in H2. injection H2 as <-. unfold slot_of in Hsl. rewrite R1 in Hsl.
    simpl in Hsl. congruence.
  - intros p Hp Ho. pose proof (wv_core _ _ Hv') as Hw'. rewrite request_owner_spec in Ho by (apply Hw' || done).
    injection Ho as Ho. destruct (proj1 (wi_owner _ _ _ Hw' p (da_cur da) Hp Hc) Ho) as (b & Hb & Hin).
    apply (wi_chunk _ _ _ Hw') in Hb as (ra2 & H2 & Hb). rewrite (ev_ra _ _ _ _ _ _ _ He) in H2. injection H2 as <-.
    rewrite R1 in Hb. apply list_elem_of_singleton in Hb as ->. done.
Qed.

(** [jda_free] goes by owner.  A pointer no request arena owns (base
    memory, NULL) or one owned by an arena in bump mode is left alone, the
    whole state unchanged; one owned by an arena in GC mode changes that
    arena's record only, whichever arena is selected. *)
Theorem free_classifies_by_owner w d ptr :
  reachable w -> legal w (CFree d ptr) ->
  exists w', jda_free d ptr w = Done (tt, w') /\
    (w' = w \/
     exists r ra c, w_ras w !! r = Some ra /\ c ∈ chunks ra /\ in_block ptr c /\
       ra_mode ra = JS_ARENA_REQ_MODE_GC /\
       forall r', r' <> r -> w_ras w' !! r' = w_ras w !! r') /\
    ((forall r ra c, w_ras w !! r = Some ra -> c ∈ chunks ra -> in_block ptr c ->
        ra_mode ra = JS_ARENA_REQ_MODE_BUMP) -> w' = w).
Proof.
  intros Hreach Hl. destruct (reachable_inv w Hreach) as [own Hv]. pose proof (wv_core _ _ Hv) as Hw.
  pose proof Hl as [(da & Hd & Hm) Hp].
  assert (Hwp := jda_free_spec own w d da ptr Hv Hd Hm (proj1 Hp)
    (fun o rao dao => legal_owner own w ptr o rao dao Hv Hp)).
  unfold wp in Hwp. destruct (jda_free d ptr w) as [[[] w'] | |]; [| done | done].
  exists w'. split; [done |]. destruct Hwp as [[-> _] | (rao & rao' & Hr & Ho & Hg & He & _)]; [by split; [left |] |].
  destruct (proj1 (wi_owner _ _ _ Hw ptr _ (proj1 Hp) Ho) eq_refl) as (b & Hb & Hin).
  apply (wi_chunk _ _ _ Hw) in Hb as (ra2 & H2 & Hb). rewrite Hr in H2. injection H2 as <-.
  split.
  - right. exists (owner_of (w_chunks w) ptr), rao, b. do 4 (split; [done |]). apply He.
  - intros Hall. rewrite (Hall _ _ _ Hr Hb Hin) in Hg. done.
Qed.

(** Freezing publishes the base range only while the thread's table has
    room: with fewer than 16 live ranges every base address answers
    [js_arena_ptr_is_base] afterwards; with 16, [js_dual_arena_freeze] ignores
    the refusal and the answer for an address of the new base is the one it
    was before, although the arena is frozen. *)
Theorem freeze_publishes_if_room w d da p :
  reachable w -> w_das w !! d = Some da -> da_mode da = JS_ARENA_MODE_BASE ->
  buf (da_base da) <= p < buf (da_base da) + capacity (da_base da) ->
  exists w', js_dual_arena_freeze d w = Done (tt, w') /\ frozen w' d /\
    (js_arena_range_count (w_ranges w) < JS_ARENA_RANGES_MAX -> js_arena_ptr_is_base (w_ranges w') p = true) /\
    (js_arena_range_count (w_ranges w) = JS_ARENA_RANGES_MAX ->
       js_arena_ptr_is_base (w_ranges w') p = js_arena_ptr_is_base (w_ranges w) p).
Proof.
  intros Hreach Hd Hm Hp. destruct (reachable_inv w Hreach) as [own Hv].
  pose proof (freeze_spec own w d da Hv Hd Hm) as Hwp. unfold wp in Hwp.
  destruct (js_dual_arena_freeze d w) as [[[] w'] | |]; [| done | done].
  destruct Hwp as (Hv' & Hd' & _ & _ & _ & Hrng). exists w'. split; [done |].
  split; [by eexists |]. rewrite Hrng.
  pose proof (register_base_spec (w_ranges w) (buf (da_base da)) (buf (da_base da) + capacity (da_base da))
    (wv_ranges _ _ Hv)) as Hreg. unfold js_arena_register_base in *.
  split; intros Hc; destruct (Z.leb_spec JS_ARENA_RANGES_MAX (js_arena_range_count (w_ranges w))); try lia; [| done].
  destruct Hreg as [Hwf [[_ El] | (? & _)]]; [| done]. simpl in *. rewrite ptr_is_base_spec, El by done.
  rewrite existsb_app. simpl. unfold in_range. simpl. rewrite orb_false_r. apply orb_true_iff. right. bool_lia.
Qed.
End theorems.
