(* ===== verification/ArenaWitness.v ===== *)
(** * A concrete environment and mspace

    Instances of the interfaces of [ArenaWorld]: an operating system with eight
    blocks of at most 1 MiB to give, six structs, and an mspace that bumps
    through its first segment and asks [MORECORE] for every block that does
    not fit.  They show the laws are satisfiable; the witnesses of
    [ArenaTheorems] run in the thread state [w1] they lead to. *)

From stdpp Require Import base list numbers gmap.
From Stdlib Require Import ZArith Lia.
From S2P Require Import Prelude Memory ChunkTable BaseRanges Thermometer BumpArena ArenaWorld.
From S2P Require Import RequestArena ArenaInvariant DualArena ArenaOps ArenaHooks ArenaLifecycle.
From S2P Require Import ArenaSystem ArenaTheorems.

(** ** The operating system *)

Record toy_os := { sizes : list Z; structs : list Z }.

Definition toy_fits (s : Z) (l : list Z) : bool := (0 <? s) && (s <=? 2 ^ 20) && (length l <? 8)%nat.
Definition toy_addr (l : list Z) : Z := 2 ^ 21 * (Z.of_nat (length l) + 1).

Fixpoint toy_outs (l : list Z) : list extent :=
  match l with
  | [] => []
  | s :: l => if toy_fits s l then (toy_addr l, s) :: toy_outs l else toy_outs l
  end.

Definition toy_map (e : toy_os) (size : Z) : Z * toy_os :=
  if toy_fits size (sizes e) then (toy_addr (sizes e), {| sizes := size :: sizes e; structs := structs e |})
  else (0, e).

Definition toy_struct (e : toy_os) : Z * toy_os :=
  match list_find (fun p => ~ (p ∈ structs e)) [1; 2; 3; 4; 5; 6] with
  | Some (_, p) => (p, {| sizes := sizes e; structs := p :: structs e |})
  | None => (0, e)
  end.

#[export] Instance toy_env : Env := {|
  env_state := toy_os;
  env_pagesz := 4096;
  node_alloc e := (true, e);
  struct_alloc := toy_struct;
  struct_free e p := {| sizes := sizes e; structs := filter (fun x => x <> p) (structs e) |};
  os_map := toy_map;
  os_unmap e _ _ := e;
  host_acquire e _ size := toy_map e size;
  host_release e _ _ _ := e;
  env_os _ := {| page_size_answer := 4096; calloc_ok := true; malloc_ok := true; sigaction_ok := true;
                 mprotect_ok := true |}
|}.

Lemma toy_outs_below l : Forall (fun b => fst b + 2 ^ 21 <= toy_addr l /\ 0 < snd b <= 2 ^ 20) (toy_outs l).
Proof.
  induction l as [| s l IH]; simpl; [constructor |].
  assert (Hmono : Forall (fun b => fst b + 2 ^ 21 <= toy_addr (s :: l) /\ 0 < snd b <= 2 ^ 20) (toy_outs l)).
  { eapply Forall_impl; [exact IH |]. intros b. unfold toy_addr. simpl length. lia. }
  unfold toy_fits. case_if; [constructor; [| done] | done]. unfold toy_addr. simpl. lia.
Qed.

Lemma toy_outs_few l : (length (toy_outs l) <= 8)%nat.
Proof.
  enough (H : (length (toy_outs l) <= length l)%nat /\ (length (toy_outs l) <= 8)%nat) by lia.
  induction l as [| s l IH]; simpl; [lia |]. unfold toy_fits.
  destruct (length l <? 8)%nat eqn:E; rewrite ?andb_false_r; [apply Nat.ltb_lt in E | lia].
  case_if; simpl; lia.
Qed.

Lemma toy_map_law e size b e' : toy_map e size = (b, e') ->
  structs e' = structs e /\
  ((b = 0 /\ toy_outs (sizes e') = toy_outs (sizes e)) \/
   (fresh_extent (toy_outs (sizes e)) b size /\ toy_outs (sizes e') = (b, size) :: toy_outs (sizes e))).
Proof.
  unfold toy_map. destruct (toy_fits size (sizes e)) eqn:E; intros [= <- <-]; [| by split; [| left]].
  split; [done |]. right. simpl. rewrite E. split; [| done].
  unfold toy_fits in E. rewrite !andb_true_iff, Nat.ltb_lt in E. b2p.
  split; [unfold toy_addr; lia |]. split; [exists (2 ^ 9 * (Z.of_nat (length (sizes e)) + 1)); unfold toy_addr; lia |].
  split; [unfold toy_addr; lia |].
  eapply Forall_impl; [apply toy_outs_below |]. intros c. unfold extents_apart. simpl. lia.
Qed.

Lemma toy_limit l e : NoDup l -> Forall (fun b => b ∈ toy_outs e) l -> extents_total l <= 2 ^ 42.
Proof.
  intros Hnd Hin. assert (Hlen : (length l <= 8)%nat).
  { etrans; [| apply (toy_outs_few e)]. apply submseteq_length, NoDup_submseteq; [done |].
    intros x Hx. exact (proj1 (Forall_forall _ _) Hin x Hx). }
  assert (Hsz : Forall (fun b => snd b <= 2 ^ 20) l).
  { eapply Forall_impl; [exact Hin |]. intros b Hb.
    pose proof (proj1 (Forall_forall _ _) (toy_outs_below e) b Hb) as Hx. simpl in Hx. lia. }
  enough (extents_total l <= Z.of_nat (length l) * 2 ^ 20) by lia. clear Hlen Hnd Hin.
  induction Hsz as [| b l Hb _ IH]; simpl; unfold extents_total in *; lia.
Qed.

#[export] Instance toy_env_laws : @EnvLaws toy_env.
Proof.
  refine (Build_EnvLaws toy_env (fun e : toy_os => toy_outs (sizes e))
    (fun e : toy_os => list_to_set (structs e)) _ _ _ _ _ _ _ _ _).
  - right. simpl. lia.
  - by intros e b e' [= <- <-].
  - intros e p e' Hs. simpl in Hs. unfold toy_struct in Hs.
    destruct (list_find _ _) as [[i q] |] eqn:E; injection Hs as <- <-; [| by split; [| left]].
    apply list_find_Some in E as (Hl & Hn & _). split; [done |]. right. split; [| split].
    + apply list_elem_of_lookup_2 in Hl. set_unfold in Hl. lia.
    + by rewrite elem_of_list_to_set.
    + done.
  - intros e p. simpl. split; [done |]. apply set_eq. intros x.
    rewrite elem_of_difference, !elem_of_list_to_set, list_elem_of_filter, elem_of_singleton. tauto.
  - intros e size b e' H. simpl in *. destruct (toy_map_law e size b e' H) as [-> H2]. by split.
  - intros e b size. done.
  - intros e o size b e' H. simpl in *. destruct (toy_map_law e size b e' H) as [-> H2]. by split.
  - intros e o b size. done.
  - intros e l. apply toy_limit.
Defined.

(** ** The mspace *)

Record toy_ms := { segs : list extent; top : Z }.

(** Allocate [size] bytes and run [fill] on them. *)
Definition toy_alloc (ms : toy_ms) (m : mem) (size : Z) (fill : mem -> Z -> mem) : mcall (Z * toy_ms * mem) :=
  if (size <=? 0) || (2 ^ 60 <=? size) then MRet (0, ms, m)
  else
    let here := match segs ms with
                | s :: _ => (0 <? fst s) && (fst s <=? top ms) && (top ms + size <=? fst s + snd s)
                | [] => false
                end in
    if here then MRet (top ms, {| segs := segs ms; top := top ms + size |}, fill m (top ms))
    else MMore size m (fun a m =>
      if a =? REQ_MFAIL then MRet (0, ms, m)
      else MMore 0 m (fun e m =>
        MRet (a, {| segs := segs ms ++ [(a, e - a)]; top := top ms |}, fill m a))).

#[export] Instance toy_mspace : Mspace := {|
  mspace := toy_ms;
  create_mspace_with_base m b size := (Some {| segs := [(b, size)]; top := b |}, m);
  mspace_malloc ms m size := toy_alloc ms m size (fun m _ => m);
  mspace_calloc ms m count size := toy_alloc ms m (count * size) (fun m p => memset m p 0 (count * size));
  mspace_realloc ms m _ size := toy_alloc ms m size (fun m _ => m);
  mspace_free ms m _ := (ms, m);
  mspace_usable_size _ _ := 0
|}.

Lemma toy_alloc_ok ms m size fill brk (R : mem -> Z -> Prop) :
  (0 < size -> forall m p x, ~ p <= x < p + size -> load8 m x = load8 (fill m p) x) ->
  (0 < size -> forall m p, R (fill m p) p) ->
  mcall_ok brk (segs ms) m (toy_alloc ms m size fill)
    (fun l '(p, ms') m' => segs ms' = l /\ (p <> 0 -> 0 <= p /\ inside l p size /\ R m' p)).
Proof.
  intros Hout HR. unfold toy_alloc. destruct ((size <=? 0) || (2 ^ 60 <=? size)) eqn:Es; [by split |].
  rewrite orb_false_iff in Es. b2p.
  assert (Hin : forall l s m p, s ∈ l -> fst s <= p -> p + size <= fst s + snd s -> agree_outside l m (fill m p)).
  { intros l s m0 p Hs H1 H2 x Hx. apply Hout; [lia |]. pose proof (proj1 (Forall_forall _ _) Hx s Hs) as Hns.
    unfold in_block in Hns. lia. }
  destruct (match segs ms with | s :: _ => _ | [] => false end) eqn:Eh.
  - destruct (segs ms) as [| s l] eqn:El; [done |]. rewrite !andb_true_iff in Eh. b2p.
    split; [apply (Hin _ s); [left | lia | lia] |]. split; [done |]. intros _.
    split; [lia |]. split; [| apply HR; lia]. exists s. split; [left | lia].
  - split; [done |]. split; [lia |]. split; [lia |]. split; [lia |]. intros _ m2 _.
    split; [by split; [| split; [done |]] |]. intros b sz Hsz Hb _ Hlt _.
    unfold REQ_MFAIL. destruct (Z.eqb_spec b (2 ^ 64 - 1)) as [? | _]; [lia |].
    split; [done |]. split; [lia |]. split; [| lia]. intros _.
    destruct (Z.eqb_spec (b + sz) 0) as [? | _]; [lia |].
    replace (b + sz - b) with sz by lia. simpl.
    assert (Hel : (b, sz) ∈ segs ms ++ [(b, sz)]) by (apply elem_of_app; right; left).
    split; [apply (Hin _ (b, sz)); simpl; [done | lia | lia] |]. split; [done |]. intros _. split; [lia |].
    split; [| apply HR; lia]. exists (b, sz). simpl. split; [done | lia].
Qed.

#[export] Instance toy_mspace_laws : @MspaceLaws toy_mspace.
Proof.
  assert (Hmal : forall ms m size brk, mcall_ok brk (segs ms) m (toy_alloc ms m size (fun m _ => m))
    (fun l '(p, ms') m' => segs ms' = l /\ (p <> 0 -> 0 <= p /\ inside l p size /\ True))).
  { intros. by apply (toy_alloc_ok ms m size _ brk (fun _ _ => True)). }
  refine (Build_MspaceLaws toy_mspace segs _ _ _ _ _ _); simpl.
  - intros m b size _ _ _. eexists _, m. by split.
  - intros ms m size brk. specialize (Hmal ms m size brk). eapply mcall_ok_mono; [| exact Hmal].
    intros l [p ms'] m' [E Hp]. split; [done |]. intros Hnz. by destruct (Hp Hnz) as (? & ? & _).
  - intros ms m count size brk.
    apply (toy_alloc_ok ms m (count * size) _ brk
      (fun m' p => forall i, 0 <= i < count * size -> load8 m' (p + i) = 0)).
    + intros Hs m0 p x Hx. rewrite load8_memset by lia. bool_lia.
    + intros Hs m0 p i Hi. rewrite load8_memset by lia. bool_lia.
  - intros ms m ptr size brk. specialize (Hmal ms m size brk). eapply mcall_ok_mono; [| exact Hmal].
    intros l [p ms'] m' [E Hp]. split; [done |]. intros Hnz. by destruct (Hp Hnz) as (? & ? & _).
  - done.
  - intros m p. lia.
Defined.

(** ** A reachable state *)

(** The state a call leaves, and what it returned. *)
Definition next (c : call) (w : world) : world := match do_call c w with Done (_, w') => w' | _ => w end.
Definition answer {A} (r : run (A * world)) : option A := match r with Done (a, _) => Some a | _ => None end.

Lemma reach_next w c a :
  reachable w -> legal w c -> answer (do_call c w) = Some a -> succeeded c a -> reachable (next c w).
Proof.
  intros Hr Hl Ha Hs. unfold answer in Ha. unfold next.
  destruct (do_call c w) as [[a' w'] | |] eqn:E; simplify_eq. by eapply reach_call.
Qed.

Definition w0 : world := w_init ∅ (guard_init SIG_DFL) {| sizes := []; structs := [] |}.
Definition wb : world := next (CNewDual 4096 4096 None) w0.
Definition w1 : world := next (CFreeze 1) wb.

Definition da1 : JSDualArena := {|
  da_base := {| buf := 2097152; capacity := 4096; BumpArena.floor := 16; last_alloc_ptr := 0; last_alloc_aligned := 0 |};
  da_mode := JS_ARENA_MODE_REQUEST; da_cur := 2; requests := [2]; state_cell := 4194320; cache := [] |}.

Definition ra1 : JSRequestArena := {|
  ra_da := 1; prov := DefaultProvider 1; chunks := [(4194304, 4096)]; extents := 1; cap := 4096; held := 4096;
  ra_floor := 528; bump := bump_fresh 528; brk := 0;
  msp := Some ({| segs := [(4194832, 3568)]; top := 4194832 |} : @mspace toy_mspace);
  used := 0; oom := oom_none; ra_mode := JS_ARENA_REQ_MODE_GC; mode_next := JS_ARENA_REQ_MODE_GC |}.

Lemma wb_reachable : reachable wb.
Proof.
  apply (reach_next w0 _ 1); [apply reach_init | | reflexivity | done].
  simpl. unfold cap_legal. split; [lia |]. split; [lia | done].
Qed.

Lemma wb_da : w_das wb !! 1 = Some (da_set_mode da1 JS_ARENA_MODE_BASE).
Proof. reflexivity. Qed.

Lemma w1_reachable : reachable w1.
Proof.
  apply (reach_next wb _ 0); [apply wb_reachable | | reflexivity | done].
  eexists. split; [apply wb_da | done].
Qed.

Lemma w1_da : w_das w1 !! 1 = Some da1.
Proof. reflexivity. Qed.

Lemma w1_ra : w_ras w1 !! 2 = Some ra1.
Proof. reflexivity. Qed.

Lemma calls_ok_cons w c l a :
  legal w c -> answer (do_call c w) = Some a -> succeeded c a -> calls_ok (next c w) l -> calls_ok w (c :: l).
Proof.
  intros Hl Ha Hs Hn. split; [done |]. intros a' w' E. unfold answer in Ha. unfold next in Hn.
  rewrite E in Ha, Hn. simplify_eq. by split.
Qed.

(** ** Witnesses *)


Lemma request_extents_exact_witness :
  held ra1 = extents_total (chunks ra1) /\ held ra1 <= cap ra1 /\ extents ra1 = lenZ (chunks ra1) /\
  (forall c, c ∈ chunks ra1 -> (4096 | fst c) /\ (4096 | snd c) /\ 0 < snd c) /\
  (forall c c', c ∈ chunks ra1 -> c' ∈ chunks ra1 -> c <> c' -> extents_apart c c') /\
  (forall p, 0 <= p -> exists o, js_arena_ptr_request_owner (w_chunks w1) p = Done o /\
     (o = 2 <-> exists c, c ∈ chunks ra1 /\ in_block p c)).
Proof. apply (request_extents_exact w1 2 ra1); [apply w1_reachable | apply w1_ra]. Defined.


Lemma calloc_zeroes_witness :
  exists p w', jda_calloc 1 5 20 w1 = Done (p, w') /\
    (p <> 0 -> forall i, 0 <= i < 5 * 20 -> load8 (w_mem w') (p + i) = 0).
Proof. apply (calloc_zeroes w1 1 da1 5 20); [apply w1_reachable | apply w1_da | done | done | lia | lia | lia]. Defined.

Lemma oom_latches_first_refusal_witness :
  exists p w' ra', jda_malloc 1 10000 w1 = Done (p, w') /\ w_ras w' !! 2 = Some ra' /\
    (p <> 0 -> oom ra' = oom ra1) /\
    (p = 0 -> hit (oom ra1) = true -> oom ra' = oom ra1) /\
    (p = 0 -> hit (oom ra1) = false -> hit (oom ra') = true /\ requested (oom ra') = 10000).
Proof.
  apply (oom_latches_first_refusal w1 1 da1 ra1 10000);
    [apply w1_reachable | apply w1_da | done | done | apply w1_ra | lia].
Defined.

Lemma reset_is_fresh_witness :
  exists w' ra' da', js_dual_arena_reset_request 1 w1 = Done (tt, w') /\
    w_ras w' !! 2 = Some ra' /\ w_das w' !! 1 = Some da' /\
    chunks ra' = [(4194304, 4096)] /\ held ra' = 4096 /\ oom ra' = oom_none /\
    ra_mode ra' = JS_ARENA_REQ_MODE_GC /\ state_cell da' = 4194320 /\
    (ra_mode ra' = JS_ARENA_REQ_MODE_GC -> used ra' = 0) /\
    (ra_mode ra' = JS_ARENA_REQ_MODE_BUMP -> bump ra' = bump_fresh 528) /\
    (forall r', r' <> 2 -> w_ras w' !! r' = w_ras w1 !! r') /\
    (forall p, 0 <= p -> js_arena_ptr_request_owner (w_chunks w') p = Done 2 -> in_block p (4194304, 4096)).
Proof.
  apply (reset_is_fresh w1 1 da1 ra1 (4194304, 4096));
    [apply w1_reachable | apply w1_da | done | done | apply w1_ra | done].
Defined.

Lemma free_classifies_by_owner_witness :
  exists w', jda_free 1 4194832 w1 = Done (tt, w') /\
    (w' = w1 \/
     exists r ra c, w_ras w1 !! r = Some ra /\ c ∈ chunks ra /\ in_block 4194832 c /\
       ra_mode ra = JS_ARENA_REQ_MODE_GC /\
       forall r', r' <> r -> w_ras w' !! r' = w_ras w1 !! r') /\
    ((forall r ra c, w_ras w1 !! r = Some ra -> c ∈ chunks ra -> in_block 4194832 c ->
        ra_mode ra = JS_ARENA_REQ_MODE_BUMP) -> w' = w1).
Proof.
  apply (free_classifies_by_owner w1 1 4194832); [apply w1_reachable |].
  assert (Hf : frozen w1 1) by (exists da1; split; [apply w1_da | done]).
  split; [done |]. split; [lia |]. intros r ra c Hr Hc Hin.
  destruct (decide (r = 2)) as [-> | Hne]; [rewrite w1_ra in Hr; by injection Hr as <- |].
  assert (Hn : delete 2 (w_ras w1) !! r = None) by (replace (delete 2 (w_ras w1)) with (∅ : gmap Z JSRequestArena);
    [apply lookup_empty | reflexivity]).
  by rewrite lookup_delete_ne, Hr in Hn.
Defined.

Lemma freeze_publishes_if_room_witness :
  exists w', js_dual_arena_freeze 1 wb = Done (tt, w') /\ frozen w' 1 /\
    (js_arena_range_count (w_ranges wb) < JS_ARENA_RANGES_MAX -> js_arena_ptr_is_base (w_ranges w') 2097160 = true) /\
    (js_arena_range_count (w_ranges wb) = JS_ARENA_RANGES_MAX ->
       js_arena_ptr_is_base (w_ranges w') 2097160 = js_arena_ptr_is_base (w_ranges wb) 2097160).
Proof.
  apply (freeze_publishes_if_room wb 1 (da_set_mode da1 JS_ARENA_MODE_BASE) 2097160);
    [apply wb_reachable | apply wb_da | done | simpl; lia].
Defined.
