(* ===== verification/StateRun.v ===== *)
(** * Stateful code that may not return

    The state-and-failure monad [ST] the engine-side components (shadow
    tables, requests, tracer) are written in, and its weakest
    precondition [swp]: the call returns, and returns into the
    postcondition. *)

From stdpp Require Import base tactics.
From S2P Require Import Prelude.

Definition ST (S A : Type) : Type := S -> run (A * S).

Section monad.
Context {S : Type}.

Definition sret {A} (a : A) : ST S A := fun s => Done (a, s).
Definition sbind {A B} (m : ST S A) (f : A -> ST S B) : ST S B :=
  fun s => let* (a, s) := m s in f a s.
Definition sabort {A} : ST S A := fun _ => Aborts.
Definition sget {A} (f : S -> A) : ST S A := fun s => Done (f s, s).
Definition smod (f : S -> S) : ST S unit := fun s => Done (tt, f s).
Definition slift {A} (r : run A) : ST S A := fun s => let* a := r in Done (a, s).
(** Dereference: abort when the lookup fails. *)
Definition sderef {A} (f : S -> option A) : ST S A :=
  fun s => match f s with Some a => Done (a, s) | None => Aborts end.
(** A call that computes a result and a new state. *)
Definition scall {A} (f : S -> A * S) : ST S A := fun s => Done (f s).

Definition swp {A} (m : ST S A) (Q : A -> S -> Prop) (s : S) : Prop :=
  match m s with Done (a, s') => Q a s' | _ => False end.

Lemma swp_ret {A} (a : A) Q s : Q a s -> swp (sret a) Q s.
Proof. done. Qed.

Lemma swp_bind {A B} (m : ST S A) (f : A -> ST S B) Q s :
  swp m (fun a s' => swp (f a) Q s') s -> swp (sbind m f) Q s.
Proof. unfold swp, sbind. destruct (m s) as [[a s'] | |]; simpl; done. Qed.

Lemma swp_mono {A} (m : ST S A) (P Q : A -> S -> Prop) s :
  swp m P s -> (forall a s', P a s' -> Q a s') -> swp m Q s.
Proof. unfold swp. destruct (m s) as [[a s'] | |]; eauto. Qed.

Lemma swp_get {A} (f : S -> A) Q s : Q (f s) s -> swp (sget f) Q s.
Proof. done. Qed.

Lemma swp_mod f Q s : Q tt (f s) -> swp (smod f) Q s.
Proof. done. Qed.

Lemma swp_lift {A} (r : run A) a Q s : r = Done a -> Q a s -> swp (slift r) Q s.
Proof. unfold swp, slift. intros ->. done. Qed.

Lemma swp_deref {A} (f : S -> option A) a Q s : f s = Some a -> Q a s -> swp (sderef f) Q s.
Proof. unfold swp, sderef. by intros ->. Qed.

Lemma swp_call {A} (f : S -> A * S) Q s :
  (forall a s', f s = (a, s') -> Q a s') -> swp (scall f) Q s.
Proof. unfold swp, scall. destruct (f s) eqn:E. auto. Qed.

Lemma swp_done {A} (m : ST S A) Q s :
  swp m Q s -> exists a s', m s = Done (a, s') /\ Q a s'.
Proof. unfold swp. destruct (m s) as [[a s'] | |]; [eauto | done | done]. Qed.
End monad.

Declare Scope st_scope.
Delimit Scope st_scope with st.
Notation "'let^' x := m 'in' k" := (sbind m (fun x => k))
  (at level 10, x pattern at level 0, k at level 200) : st_scope.
Notation "m ;^ k" := (sbind m (fun _ => k)) (at level 100, right associativity) : st_scope.

(** Run the monad up to the next call that needs a lemma. *)
Ltac swp_step :=
  match goal with
  | |- swp (sbind _ _) _ _ => apply swp_bind
  | |- swp (sret _) _ _ => apply swp_ret
  | |- swp (sget _) _ _ => apply swp_get
  | |- swp (smod _) _ _ => apply swp_mod
  end; cbv beta.
Ltac swp_steps := repeat swp_step.
