(* ===== verification/Pool.v ===== *)
(** * The small-block pool (quickjs.c)

    [js_malloc_rt] and its family: every engine allocation carries an 8-byte
    header; up to 504 bytes it is carved out of size-classed 4 KiB pages (a
    [JSArena] each) taken from the backing [JSMallocFunctions], larger ones go
    straight to them.  Pages and free blocks are kept in byte memory: the page
    header, the intrusive lists through it and the block headers have their C
    layout, and pages are found from blocks by address arithmetic.

    The backing functions are the class [Backing].  The runtime's accounting
    ([JSMallocState]) and its [is_arena] flag are fields of the state.  The
    build is the default one ([JS_ARENA_LARGE_BLOCKS_ONLY] is 0,
    [MALLOC_OVERHEAD] is 8). *)

From stdpp Require Import base list numbers gmap.
From Stdlib Require Import ZArith Lia.
From S2P Require Import Prelude Memory StateRun ListHead.

#[local] Open Scope st_scope.
#[local] Open Scope Z_scope.

(** The [JSMallocFunctions] of a runtime with their opaque state; NULL is 0. *)
Class Backing := {
  bst : Type;
  bk_malloc : bst -> mem -> Z -> Z * bst * mem;
  bk_calloc : bst -> mem -> Z -> Z -> Z * bst * mem;
  bk_free : bst -> mem -> Z -> bst * mem;
  bk_realloc : bst -> mem -> Z -> Z -> Z * bst * mem;
  bk_usable_size : bst -> mem -> Z -> Z
}.

Definition JS_ARENA_ALIGN : Z := 8.
Definition JS_ARENA_SIZE : Z := 4096.
Definition JS_ARENA_BLOCK_SIZE_COUNT : Z := 31.
Definition JS_ARENA_MAX_SMALL_SIZE : Z := 512.
Definition JS_ARENA_FREE_NIL : Z := 65535.
Definition JS_ARENA_LARGE_BLOCKS_ONLY : bool := false.
Definition MALLOC_OVERHEAD : Z := 8.

(** ** Layout *)

(** [JSMallocBlockHeader]: [u] (two bytes), [block_size_idx], the byte of
    [gc_obj_type] and [mark], [ref_count]; [user_data] follows. *)
Definition SIZEOF_HEADER : Z := 8.
Definition off_block_idx : Z := 0.
Definition off_size_idx : Z := 2.
Definition off_gc : Z := 3.
Definition off_ref_count : Z := 4.

(** [JSArena]: [free_link], [link], [block_size_idx], [n_used_blocks],
    [n_blocks], [first_free_block]; [blocks] follows. *)
Definition SIZEOF_JSArena : Z := 40.
Definition off_link : Z := 16.
Definition off_ar_idx : Z := 32.
Definition off_n_used : Z := 34.
Definition off_n_blocks : Z := 36.
Definition off_first_free : Z := 38.

(** [JSArenaState]: two arrays of list heads and the zero-size block. *)
Definition SIZEOF_JSArenaState : Z := 1000.
Definition arena_list (s i : Z) : Z := s + SIZEOF_LIST_HEAD * i.
Definition free_arena_list (s i : Z) : Z := s + SIZEOF_LIST_HEAD * JS_ARENA_BLOCK_SIZE_COUNT + SIZEOF_LIST_HEAD * i.
Definition arena_zero_block (s : Z) : Z := s + 2 * SIZEOF_LIST_HEAD * JS_ARENA_BLOCK_SIZE_COUNT.

Definition arena_block_sizes : list Z :=
  [16; 24; 32; 40; 48; 56; 64; 72; 80; 88; 96; 104; 112; 120; 128;
   144; 160; 176; 192; 208; 224; 240; 256;
   288; 320; 352; 384; 416; 448; 480; 512].

Definition arena_get_size_index (size : Z) : Z :=
  if size <=? 16 then 0
  else if size <=? 128 then (size + 7) / 8 - 2
  else if size <=? 256 then (size + 15) / 16 + 6
  else if size <=? 512 then (size + 31) / 32 + 14
  else JS_ARENA_BLOCK_SIZE_COUNT.

Definition block_size_of (idx : Z) : Z := nthZ 0 arena_block_sizes idx.

Definition arena_get_block (ar idx block_size : Z) : Z := ar + SIZEOF_JSArena + u64 (idx * block_size).

(** The size of an allocation with its header, rounded. *)
Definition pool_total_size (size : Z) : Z := u64 (round_up JS_ARENA_ALIGN size + SIZEOF_HEADER).

(** ** State *)

Record JSMallocState := {
  malloc_count : Z;
  malloc_size : Z;
  malloc_limit : Z
}.

Section pool.
Context `{BK : Backing}.

(** The allocator's part of a runtime: the memory, the backing allocator, the
    address of [rt->arena_state], [rt->is_arena] and [rt->malloc_state]. *)
Record pool := {
  p_mem : mem;
  p_bk : bst;
  p_arena_state : Z;
  p_is_arena : bool;
  p_ms : JSMallocState
}.

Definition set_mem (s : pool) (m : mem) : pool :=
  {| p_mem := m; p_bk := p_bk s; p_arena_state := p_arena_state s; p_is_arena := p_is_arena s; p_ms := p_ms s |}.
Definition set_ms (s : pool) (x : JSMallocState) : pool :=
  {| p_mem := p_mem s; p_bk := p_bk s; p_arena_state := p_arena_state s; p_is_arena := p_is_arena s; p_ms := x |}.
Definition set_is_arena (s : pool) (b : bool) : pool :=
  {| p_mem := p_mem s; p_bk := p_bk s; p_arena_state := p_arena_state s; p_is_arena := b; p_ms := p_ms s |}.
Definition set_back (s : pool) (b : bst) (m : mem) : pool :=
  {| p_mem := m; p_bk := b; p_arena_state := p_arena_state s; p_is_arena := p_is_arena s; p_ms := p_ms s |}.

Definition P (A : Type) : Type := ST pool A.

Definition pld (n : nat) (a : Z) : P Z := sget (fun s => loadw n (p_mem s) a).
Definition pmod (f : mem -> mem) : P unit := smod (fun s => set_mem s (f (p_mem s))).
Definition pst (n : nat) (a v : Z) : P unit := pmod (fun m => storew n m a v).

Definition mf_malloc (n : Z) : P Z := scall (fun s =>
  let '(p, b, m) := bk_malloc (p_bk s) (p_mem s) n in (p, set_back s b m)).
Definition mf_calloc (count n : Z) : P Z := scall (fun s =>
  let '(p, b, m) := bk_calloc (p_bk s) (p_mem s) count n in (p, set_back s b m)).
Definition mf_realloc (p n : Z) : P Z := scall (fun s =>
  let '(np, b, m) := bk_realloc (p_bk s) (p_mem s) p n in (np, set_back s b m)).
Definition mf_free (p : Z) : P unit := scall (fun s =>
  let '(b, m) := bk_free (p_bk s) (p_mem s) p in (tt, set_back s b m)).
Definition mf_usable (p : Z) : P Z := sget (fun s => bk_usable_size (p_bk s) (p_mem s) p).

Definition js_arena_use_pool (s : pool) : bool := negb JS_ARENA_LARGE_BLOCKS_ONLY && negb (p_is_arena s).

(** ** The pool *)

(** The loop of [js_arena_init] over the classes from [i] on, [k] of them. *)
Fixpoint init_heads (k : nat) (s i : Z) (m : mem) : mem :=
  match k with
  | O => m
  | S k => init_heads k s (i + 1) (init_list_head (init_list_head m (arena_list s i)) (free_arena_list s i))
  end.

Definition init_all_heads (s : Z) (m : mem) : mem := init_heads (Z.to_nat JS_ARENA_BLOCK_SIZE_COUNT) s 0 m.

Definition js_arena_init : P unit :=
  let^ s := sget p_arena_state in
  pst 2 (arena_zero_block s + off_block_idx) JS_ARENA_FREE_NIL ;^
  pmod (init_all_heads s).

(** The blocks from [i] on, [k] of them, each linked to the next. *)
Fixpoint link_blocks (k : nat) (ar block_size idx i : Z) (m : mem) : mem :=
  match k with
  | O => m
  | S k =>
      let b := arena_get_block ar i block_size in
      let m := storew 2 m (b + off_block_idx) (i + 1) in
      link_blocks k ar block_size idx (i + 1) (storew 1 m (b + off_size_idx) idx)
  end.

Definition pool_n_blocks (block_size : Z) : Z := (JS_ARENA_SIZE - SIZEOF_JSArena) / block_size.

Definition arena_new (block_size_idx : Z) : P Z :=
  let block_size := block_size_of block_size_idx in
  let n_blocks := pool_n_blocks block_size in
  let^ ar := mf_malloc (SIZEOF_JSArena + n_blocks * block_size) in
  if ar =? 0 then sret 0
  else
    pst 1 (ar + off_ar_idx) block_size_idx ;^
    pst 2 (ar + off_n_blocks) n_blocks ;^
    pst 2 (ar + off_n_used) 0 ;^
    pst 2 (ar + off_first_free) 0 ;^
    pmod (link_blocks (Z.to_nat (n_blocks - 1)) ar block_size block_size_idx 0) ;^
    let b := arena_get_block ar (n_blocks - 1) block_size in
    pst 2 (b + off_block_idx) JS_ARENA_FREE_NIL ;^
    pst 1 (b + off_size_idx) block_size_idx ;^
    let^ s := sget p_arena_state in
    pmod (fun m => list_add m (ar + off_link) (arena_list s block_size_idx)) ;^
    pmod (fun m => list_add m ar (free_arena_list s block_size_idx)) ;^
    sret ar.

(** Stamp the header of a block that is not pooled. *)
Definition stamp_large (b : Z) : P Z :=
  pst 2 (b + off_block_idx) JS_ARENA_FREE_NIL ;^
  pst 1 (b + off_size_idx) 255 ;^
  sret (b + SIZEOF_HEADER).

Definition arena_malloc_large (size : Z) : P Z :=
  let^ b := mf_malloc (u64 (SIZEOF_HEADER + size)) in
  if b =? 0 then sret 0 else stamp_large b.

Definition arena_calloc_large (size : Z) : P Z :=
  let^ b := mf_calloc 1 (u64 (SIZEOF_HEADER + size)) in
  if b =? 0 then sret 0 else stamp_large b.

(** The page to allocate from: the first that is not full, or a new one. *)
Definition arena_for (block_size_idx : Z) : P Z :=
  let^ s := sget p_arena_state in
  let head := free_arena_list s block_size_idx in
  let^ el := pld 8 (head + 8) in
  if el =? head then arena_new block_size_idx else sret el.

(** Take the first free block of a page. *)
Definition arena_take (ar block_size : Z) : P Z :=
  let^ block_idx := pld 2 (ar + off_first_free) in
  let b := arena_get_block ar block_idx block_size in
  let^ next := pld 2 (b + off_block_idx) in
  pst 2 (ar + off_first_free) next ;^
  pst 2 (b + off_block_idx) block_idx ;^
  let^ used := pld 2 (ar + off_n_used) in
  pst 2 (ar + off_n_used) (used + 1) ;^
  let^ used := pld 2 (ar + off_n_used) in
  let^ n := pld 2 (ar + off_n_blocks) in
  (if used =? n then pmod (fun m => list_del m ar) else sret tt) ;^
  sret (b + SIZEOF_HEADER).

Definition js_arena_malloc (size : Z) : P Z :=
  let^ s := sget id in
  if size =? 0 then sret (arena_zero_block (p_arena_state s) + SIZEOF_HEADER)
  else
    let total_size := pool_total_size size in
    if js_arena_use_pool s && (total_size <=? JS_ARENA_MAX_SMALL_SIZE) then
      let block_size_idx := arena_get_size_index total_size in
      let block_size := block_size_of block_size_idx in
      let^ ar := arena_for block_size_idx in
      if ar =? 0 then sret 0 else arena_take ar block_size
    else arena_malloc_large size.

(** The pooled branch of [js_arena_free]. *)
Definition arena_put (b block_idx : Z) : P unit :=
  let^ s := sget p_arena_state in
  let^ block_size_idx := pld 1 (b + off_size_idx) in
  let block_size := block_size_of block_size_idx in
  let ar := b - u64 (block_size * block_idx) - SIZEOF_JSArena in
  let^ first := pld 2 (ar + off_first_free) in
  pst 2 (b + off_block_idx) first ;^
  pst 2 (ar + off_first_free) block_idx ;^
  let^ used := pld 2 (ar + off_n_used) in
  let^ n := pld 2 (ar + off_n_blocks) in
  (if used =? n then pmod (fun m => list_add m ar (free_arena_list s block_size_idx)) else sret tt) ;^
  let^ used := pld 2 (ar + off_n_used) in
  pst 2 (ar + off_n_used) (u16 (used - 1)) ;^
  let^ used := pld 2 (ar + off_n_used) in
  if used =? 0 then
    pmod (fun m => list_del m (ar + off_link)) ;^
    pmod (fun m => list_del m ar) ;^
    mf_free ar
  else sret tt.

Definition js_arena_free (ptr : Z) : P unit :=
  if ptr =? 0 then sret tt
  else
    let b := ptr - SIZEOF_HEADER in
    let^ block_idx := pld 2 (b + off_block_idx) in
    if block_idx =? JS_ARENA_FREE_NIL then
      let^ s := sget p_arena_state in
      if b =? arena_zero_block s then sret tt else mf_free b
    else arena_put b block_idx.

Definition js_arena_usable_size (ptr : Z) : P Z :=
  if ptr =? 0 then sret 0
  else
    let b := ptr - SIZEOF_HEADER in
    let^ block_idx := pld 2 (b + off_block_idx) in
    if block_idx =? JS_ARENA_FREE_NIL then
      let^ s := sget p_arena_state in
      if b =? arena_zero_block s then sret 0
      else
        let^ size := mf_usable b in
        sret (if size =? 0 then size else u64 (size - SIZEOF_HEADER))
    else
      let^ idx := pld 1 (b + off_size_idx) in
      sret (u64 (block_size_of idx - SIZEOF_HEADER)).

(** The copying tail of [js_arena_realloc]: the header fields of the engine,
    each assigned from its namesake, and the common prefix of the contents. *)
Definition move_block (ptr new_ptr size old_usable : Z) : P unit :=
  let b := ptr - SIZEOF_HEADER in
  let nb := new_ptr - SIZEOF_HEADER in
  pmod (fun m => memcpy m (nb + off_gc) (b + off_gc) 1) ;^
  pmod (fun m => memcpy m (nb + off_ref_count) (b + off_ref_count) 4) ;^
  pmod (fun m => memcpy m new_ptr ptr (if old_usable <? size then old_usable else size)) ;^
  js_arena_free ptr.

Definition js_arena_realloc (ptr size : Z) : P Z :=
  let b := ptr - SIZEOF_HEADER in
  let^ block_idx := pld 2 (b + off_block_idx) in
  if block_idx =? JS_ARENA_FREE_NIL then
    let^ s := sget p_arena_state in
    if b =? arena_zero_block s then js_arena_malloc size
    else
      let^ nb := mf_realloc b (u64 (SIZEOF_HEADER + size)) in
      if nb =? 0 then sret 0 else stamp_large nb
  else
    let^ idx := pld 1 (b + off_size_idx) in
    let block_size := block_size_of idx in
    if pool_total_size size <=? block_size then sret ptr
    else
      let^ new_ptr := js_arena_malloc size in
      if new_ptr =? 0 then sret 0
      else move_block ptr new_ptr size (u64 (block_size - SIZEOF_HEADER)) ;^ sret new_ptr.

Definition js_arena_calloc (count size : Z) : P Z :=
  let n := u64 (count * size) in
  let^ s := sget id in
  if js_arena_use_pool s && (pool_total_size n <=? JS_ARENA_MAX_SMALL_SIZE) then
    let^ ptr := js_arena_malloc n in
    if ptr =? 0 then sret 0 else pmod (fun m => memset m ptr 0 n) ;^ sret ptr
  else arena_calloc_large n.

(** [list_for_each_safe] over the pages of a class: the successor of a page is
    read before the page is released. *)
Fixpoint free_pages (fuel : nat) (head el : Z) : P unit :=
  match fuel with
  | O => slift Spins
  | S fuel =>
      if el =? head then sret tt
      else
        let^ next := pld 8 (el + 8) in
        mf_free (el - off_link) ;^
        free_pages fuel head next
  end.

Fixpoint free_classes (k fuel : nat) (s i : Z) : P unit :=
  match k with
  | O => sret tt
  | S k =>
      let^ el := pld 8 (arena_list s i + 8) in
      free_pages fuel (arena_list s i) el ;^
      pmod (fun m => init_list_head (init_list_head m (arena_list s i)) (free_arena_list s i)) ;^
      free_classes k fuel s (i + 1)
  end.

Definition js_arena_free_all (fuel : nat) : P unit :=
  let^ s := sget p_arena_state in
  free_classes (Z.to_nat JS_ARENA_BLOCK_SIZE_COUNT) fuel s 0.

(** ** The runtime's allocation functions *)

Definition add_ms (dcount dsize : Z) : P unit := smod (fun s =>
  set_ms s {| malloc_count := u64 (malloc_count (p_ms s) + dcount);
              malloc_size := u64 (malloc_size (p_ms s) + dsize);
              malloc_limit := malloc_limit (p_ms s) |}).

(** [s->malloc_size + size > s->malloc_limit - 1]; a limit of 0 is none. *)
Definition over_limit (x : JSMallocState) (size : Z) : bool :=
  u64 (malloc_limit x - 1) <? u64 (malloc_size x + size).

(** The tail of the allocating functions: account for a block obtained. *)
Definition tracked (ptr : Z) : P Z :=
  if ptr =? 0 then sret 0
  else
    let^ n := js_arena_usable_size ptr in
    add_ms 1 (n + MALLOC_OVERHEAD) ;^ sret ptr.

Definition js_calloc_rt (count size : Z) : P Z :=
  if (count =? 0) || (size =? 0) then sabort
  else if (0 <? size) && negb (count =? u64 (count * size) / size) then sret 0
  else
    let^ s := sget id in
    if p_is_arena s then js_arena_calloc count size
    else if over_limit (p_ms s) (u64 (count * size)) then sret 0
    else let^ ptr := js_arena_calloc count size in tracked ptr.

Definition js_malloc_rt (size : Z) : P Z :=
  if size =? 0 then sret 0
  else
    let^ s := sget id in
    if p_is_arena s then js_arena_malloc size
    else if over_limit (p_ms s) size then sret 0
    else let^ ptr := js_arena_malloc size in tracked ptr.

(** [abort()] when more is freed than was tracked. *)
Definition js_free_rt (ptr : Z) : P unit :=
  if ptr =? 0 then sret tt
  else
    let^ s := sget id in
    if p_is_arena s then js_arena_free ptr
    else
      let^ n := js_arena_usable_size ptr in
      let free_size := u64 (n + MALLOC_OVERHEAD) in
      if malloc_size (p_ms s) <? free_size then sabort
      else add_ms (-1) (- free_size) ;^ js_arena_free ptr.

Definition js_realloc_rt (ptr size : Z) : P Z :=
  if ptr =? 0 then (if size =? 0 then sret 0 else js_malloc_rt size)
  else if size =? 0 then js_free_rt ptr ;^ sret 0
  else
    let^ s := sget id in
    if p_is_arena s then js_arena_realloc ptr size
    else
      let^ old_size := js_arena_usable_size ptr in
      if over_limit (p_ms s) (size - old_size) then sret 0
      else
        let^ ptr := js_arena_realloc ptr size in
        if ptr =? 0 then sret 0
        else
          let^ n := js_arena_usable_size ptr in
          add_ms 0 (n - old_size) ;^ sret ptr.

Definition js_malloc_usable_size_rt (ptr : Z) : P Z := js_arena_usable_size ptr.

Definition js_mallocz_rt (size : Z) : P Z := js_calloc_rt 1 size.

(** ** Creation *)

(** The head of [JS_NewRuntime2]: the runtime struct of [sizeof_rt] bytes, with
    [arena_state] at offset [off], is taken from the backing allocator and
    accounted for by hand. *)
Definition new_runtime_pool (b : bst) (m : mem) (sizeof_rt off : Z) : run (option pool) :=
  let '(rt, b, m) := bk_calloc b m 1 sizeof_rt in
  if rt =? 0 then Done None
  else
    let s := {| p_mem := m; p_bk := b; p_arena_state := rt + off; p_is_arena := false;
                p_ms := {| malloc_count := 1; malloc_size := u64 (bk_usable_size b m rt + MALLOC_OVERHEAD);
                           malloc_limit := 0 |} |} in
    let* (_, s) := js_arena_init s in Done (Some s).

Definition JS_SetMemoryLimit (limit : Z) : P unit := smod (fun s =>
  set_ms s {| malloc_count := malloc_count (p_ms s); malloc_size := malloc_size (p_ms s); malloc_limit := limit |}).
End pool.
