(* ===== verification/PoolInvariant.v ===== *)
(** * The small-block pool: contract of the backing allocator and invariant

    [BackingLaws] is what the pool relies on: blocks handed out are disjoint,
    and the backing functions leave the contents of live blocks alone.  The
    invariant [pcore] relates the bytes of the pages to a ghost description:
    each page's free list, and the rings the pages hang on.  The lemmas move it
    along the elementary updates the pool is made of. *)

From stdpp Require Import base list numbers gmap.
From Stdlib Require Import ZArith Lia.
From S2P Require Import Prelude Memory StateRun ListHead Pool.

#[local] Open Scope st_scope.
#[local] Open Scope Z_scope.

(** ** The backing allocator *)

(** Blocks as address and capacity. *)
Definition in_block (B : gmap Z Z) (p x : Z) : Prop := exists c, B !! p = Some c /\ at_ p c x.
Definition in_blocks (B : gmap Z Z) (x : Z) : Prop := exists p, in_block B p x.

Record blocks_ok (B : gmap Z Z) : Prop := {
  bo_block : forall p c, B !! p = Some c -> 0 < p /\ (8 | p) /\ 0 < c /\ p + c < 2 ^ 62;
  bo_disjoint : forall p q x, in_block B p x -> in_block B q x -> p = q
}.

(** The bytes of [B] are as before. *)
Definition keeps (B : gmap Z Z) (m m' : mem) : Prop := forall x, in_blocks B x -> load8 m' x = load8 m x.

Class BackingLaws `{BK : Backing} := {
  bk_inv : bst -> mem -> Prop;
  bk_blocks : bst -> gmap Z Z;
  (** Whether [js_malloc_usable_size] is provided or is the dummy. *)
  bk_reports : bool;
  bk_geometry b m : bk_inv b m -> blocks_ok (bk_blocks b);
  bk_client_writes b m m' : bk_inv b m -> only (in_blocks (bk_blocks b)) m m' -> bk_inv b m';
  bk_usable_law b m p c :
    bk_inv b m -> bk_blocks b !! p = Some c -> bk_usable_size b m p = if bk_reports then c else 0;
  bk_malloc_law b m n p b' m' :
    bk_inv b m -> 0 < n < 2 ^ 62 -> bk_malloc b m n = (p, b', m') ->
    bk_inv b' m' /\ keeps (bk_blocks b) m m' /\
    (p = 0 /\ bk_blocks b' = bk_blocks b \/
     exists c, n <= c /\ bk_blocks b !! p = None /\ bk_blocks b' = <[p := c]> (bk_blocks b));
  bk_calloc_law b m n p b' m' :
    bk_inv b m -> 0 < n < 2 ^ 62 -> bk_calloc b m 1 n = (p, b', m') ->
    bk_inv b' m' /\ keeps (bk_blocks b) m m' /\
    (p = 0 /\ bk_blocks b' = bk_blocks b \/
     (forall x, at_ p n x -> load8 m' x = 0) /\
     exists c, n <= c /\ bk_blocks b !! p = None /\ bk_blocks b' = <[p := c]> (bk_blocks b));
  bk_free_law b m p b' m' :
    bk_inv b m -> is_Some (bk_blocks b !! p) -> bk_free b m p = (b', m') ->
    bk_inv b' m' /\ bk_blocks b' = delete p (bk_blocks b) /\ keeps (bk_blocks b') m m';
  bk_realloc_law b m p c n q b' m' :
    bk_inv b m -> bk_blocks b !! p = Some c -> 0 < n < 2 ^ 62 -> bk_realloc b m p n = (q, b', m') ->
    bk_inv b' m' /\ keeps (delete p (bk_blocks b)) m m' /\
    (q = 0 /\ bk_blocks b' = bk_blocks b /\ keeps (bk_blocks b) m m' \/
     (forall i, 0 <= i < Z.min c n -> load8 m' (q + i) = load8 m (p + i)) /\
     exists c', n <= c' /\ delete p (bk_blocks b) !! q = None /\
       bk_blocks b' = <[q := c']> (delete p (bk_blocks b)))
}.

(** ** Size classes *)

Definition class_ok (i : Z) : Prop := 0 <= i < JS_ARENA_BLOCK_SIZE_COUNT.
Definition nb (i : Z) : Z := pool_n_blocks (block_size_of i).

Definition class_check (i : Z) : bool :=
  let bs := block_size_of i in
  (16 <=? bs) && (bs <=? 512) && (bs mod 8 =? 0) && (2 <=? nb i) && (nb i <=? 253)
  && (SIZEOF_JSArena + nb i * bs <=? JS_ARENA_SIZE).

Lemma class_checks : forallb class_check (seqZ 0 31) = true.
Proof. by vm_compute. Qed.

Lemma class_facts i :
  class_ok i ->
  16 <= block_size_of i <= 512 /\ (8 | block_size_of i) /\ 2 <= nb i <= 253 /\
  SIZEOF_JSArena + nb i * block_size_of i <= JS_ARENA_SIZE.
Proof.
  unfold class_ok, JS_ARENA_BLOCK_SIZE_COUNT. intros Hi. pose proof class_checks as H.
  rewrite forallb_forall in H. specialize (H i). rewrite <- list_elem_of_In, elem_of_seqZ in H.
  specialize (H ltac:(lia)). unfold class_check in H. b2p. split; [lia |]. split; [| lia].
  by apply Z.mod_divide.
Qed.

(** Every small size has a class, and it fits. *)
Definition size_check (k : Z) : bool :=
  let t := k * 8 in
  let i := arena_get_size_index t in
  (0 <=? i) && (i <? 31) && (t <=? block_size_of i) && ((t <=? 16) || (block_size_of (i - 1) <? t))
  && ((t <=? 64) || (8 * block_size_of i <=? 9 * t)).

Lemma size_checks : forallb size_check (seqZ 1 64) = true.
Proof. by vm_compute. Qed.

Lemma size_index_spec t :
  0 < t <= JS_ARENA_MAX_SMALL_SIZE -> (8 | t) ->
  let i := arena_get_size_index t in
  class_ok i /\ t <= block_size_of i /\ (16 < t -> block_size_of (i - 1) < t) /\
  (64 < t -> 8 * block_size_of i <= 9 * t).
Proof.
  unfold JS_ARENA_MAX_SMALL_SIZE. intros Ht [k Hk]. pose proof size_checks as H.
  rewrite forallb_forall in H. specialize (H k). rewrite <- list_elem_of_In, elem_of_seqZ in H.
  specialize (H ltac:(lia)). unfold size_check in H. rewrite <- Hk in H. b2p.
  unfold class_ok, JS_ARENA_BLOCK_SIZE_COUNT. split; [lia |]. split; [lia |]. split; intros; bool_lia.
Qed.

Lemma total_size_spec size :
  0 < size < 2 ^ 62 ->
  size + 8 <= pool_total_size size < size + 16 /\ (8 | pool_total_size size) /\ 16 <= pool_total_size size.
Proof.
  intros Hs. unfold pool_total_size, JS_ARENA_ALIGN, SIZEOF_HEADER.
  destruct (round_up_spec 3 size ltac:(lia) ltac:(lia) ltac:(lia)) as [R1 R2].
  change (2 ^ 3) with 8 in R1, R2. rewrite u64_small by lia. split; [lia |].
  split; [apply Z.divide_add_r; [done | by exists 1] |]. destruct R2 as [z Hz]. lia.
Qed.

(** ** Ghost description *)

(** What varies of a page: its free blocks in order and the count it keeps of
    the others. *)
Record page := { pg_free : list Z; pg_used : Z }.

(** A page with its class. *)
Record slab := { sl_idx : Z; sl_page : page }.

Record ghost := {
  g_rt : Z;                 (* the block holding the runtime *)
  g_slabs : gmap Z slab;
  g_larges : gset Z;        (* blocks with a header of their own *)
  g_all : Z -> list Z;      (* arena_list of each class *)
  g_part : Z -> list Z      (* free_arena_list of each class *)
}.

Definition blk (ar i k : Z) : Z := ar + SIZEOF_JSArena + k * block_size_of i.
Definition slab_len (i : Z) : Z := SIZEOF_JSArena + nb i * block_size_of i.

Lemma get_block_eq ar i k :
  class_ok i -> 0 <= k < nb i -> arena_get_block ar k (block_size_of i) = blk ar i k.
Proof.
  intros Hi Hk. destruct (class_facts i Hi) as (H1 & _ & H2 & _). unfold arena_get_block, blk.
  rewrite u64_small; [done |]. split; [lia |]. assert (k * block_size_of i <= 253 * 512) by nia. lia.
Qed.

Lemma blk_in ar i k :
  class_ok i -> 0 <= k < nb i ->
  ar + SIZEOF_JSArena <= blk ar i k /\ blk ar i k + block_size_of i <= ar + slab_len i.
Proof. intros Hi Hk. destruct (class_facts i Hi) as (H1 & _). unfold blk, slab_len. nia. Qed.

Lemma blk_apart ar i k k' :
  class_ok i -> k < k' -> blk ar i k + block_size_of i <= blk ar i k'.
Proof. intros Hi Hk. destruct (class_facts i Hi) as (H1 & _). unfold blk. nia. Qed.

Fixpoint free_chain (m : mem) (ar i x : Z) (f : list Z) : Prop :=
  match f with
  | [] => x = JS_ARENA_FREE_NIL
  | k :: f => x = k /\ free_chain m ar i (loadw 2 m (blk ar i k)) f
  end.

Record slab_ok (m : mem) (ar i : Z) (f : page) : Prop := {
  so_idx : loadw 1 m (ar + off_ar_idx) = i;
  so_n : loadw 2 m (ar + off_n_blocks) = nb i;
  so_used : loadw 2 m (ar + off_n_used) = pg_used f;
  so_chain : free_chain m ar i (loadw 2 m (ar + off_first_free)) (pg_free f);
  so_nodup : NoDup (pg_free f);
  so_range : forall k, k ∈ pg_free f -> 0 <= k < nb i;
  so_class : forall k, 0 <= k < nb i -> loadw 1 m (blk ar i k + off_size_idx) = i;
  so_live : forall k, 0 <= k < nb i -> k ∉ pg_free f -> loadw 2 m (blk ar i k) = k
}.

(** The allocator's bytes of a page, its list nodes apart. *)
Definition slab_meta (ar i x : Z) : Prop :=
  at_ (ar + off_ar_idx) 8 x \/ exists k, 0 <= k < nb i /\ at_ (blk ar i k) 3 x.

Lemma free_chain_frame R m m' ar i f x :
  only R m m' -> (forall y, slab_meta ar i y -> ~ R y) -> (forall k, k ∈ f -> 0 <= k < nb i) ->
  free_chain m ar i x f -> free_chain m' ar i x f.
Proof.
  intros Ho Hd. revert x. induction f as [| k f IH]; intros x Hr; simpl; [done |]. intros [-> H]. split; [done |].
  rewrite (only_loadw R m m' _ 2 Ho); [apply IH; [set_solver | done] |].
  intros y Hy. apply Hd. right. exists k. split; [apply Hr; set_solver |]. unfold at_ in *. lia.
Qed.

Lemma slab_ok_frame R m m' ar i f :
  only R m m' -> (forall y, slab_meta ar i y -> ~ R y) -> slab_ok m ar i f -> slab_ok m' ar i f.
Proof.
  intros Ho Hd [H1 H2 H3 H4 H5 H6 H7 H8].
  assert (Hh : forall n a, ar + off_ar_idx <= a -> a + Z.of_nat n <= ar + off_ar_idx + 8 -> loadw n m' a = loadw n m a).
  { intros n a L1 L2. apply (only_loadw R m m' _ n Ho). intros y Hy. apply Hd. left. unfold at_ in *. lia. }
  assert (Hb : forall n k j, 0 <= k < nb i -> 0 <= j -> j + Z.of_nat n <= 3 -> loadw n m' (blk ar i k + j) = loadw n m (blk ar i k + j)).
  { intros n k j Hk L1 L2. apply (only_loadw R m m' _ n Ho). intros y Hy. apply Hd. right.
    exists k. split; [done |]. unfold at_ in *. lia. }
  split; unfold off_ar_idx, off_n_blocks, off_n_used, off_first_free, off_size_idx in *; rewrite ?Hh by lia; try done.
  - by eapply free_chain_frame.
  - intros k Hk. rewrite Hb by lia. by apply H7.
  - intros k Hk Hf. specialize (Hb 2%nat k 0 Hk ltac:(lia) ltac:(lia)). rewrite Z.add_0_r in Hb. rewrite Hb. by apply H8.
Qed.

(** ** The invariant *)

Definition slab_at (g : ghost) (ar i : Z) (f : page) : Prop := g_slabs g !! ar = Some {| sl_idx := i; sl_page := f |}.

Section invariant.
Context `{BL : BackingLaws}.

Record pcore (s : pool) (g : ghost) : Prop := {
  pc_bk : bk_inv (p_bk s) (p_mem s);
  pc_rt : exists c, bk_blocks (p_bk s) !! g_rt g = Some c /\ g_rt g <= p_arena_state s /\
    p_arena_state s + SIZEOF_JSArenaState <= g_rt g + c;
  pc_slab : forall ar i f, slab_at g ar i f ->
    class_ok i /\ ar <> g_rt g /\ (exists c, bk_blocks (p_bk s) !! ar = Some c /\ slab_len i <= c) /\
    slab_ok (p_mem s) ar i f;
  pc_large : forall b, b ∈ g_larges g ->
    b <> g_rt g /\ g_slabs g !! b = None /\ (exists c, bk_blocks (p_bk s) !! b = Some c /\ SIZEOF_HEADER < c) /\
    loadw 2 (p_mem s) b = JS_ARENA_FREE_NIL;
  pc_zero : loadw 2 (p_mem s) (arena_zero_block (p_arena_state s)) = JS_ARENA_FREE_NIL;
  pc_all : forall i, class_ok i ->
    dll (p_mem s) (arena_list (p_arena_state s) i) ((fun ar => ar + off_link) <$> g_all g i) /\ NoDup (g_all g i) /\
    forall ar, ar ∈ g_all g i -> exists f, slab_at g ar i f;
  pc_part : forall i, class_ok i ->
    dll (p_mem s) (free_arena_list (p_arena_state s) i) (g_part g i) /\ NoDup (g_part g i) /\
    forall ar, ar ∈ g_part g i -> exists f, slab_at g ar i f
}.

(** What holds between calls: every page is on the first ring and those with
    free blocks on the second, page counts are right, and no page is empty. *)
Definition settled (g : ghost) : Prop := forall ar i f, slab_at g ar i f ->
  ar ∈ g_all g i /\ (ar ∈ g_part g i <-> pg_free f <> []) /\ pg_used f = nb i - lenZ (pg_free f) /\ 0 < pg_used f.

(** The list nodes: the heads in the runtime and the first 32 bytes of a page. *)
Definition links (s : pool) (g : ghost) (x : Z) : Prop :=
  at_ (p_arena_state s) (2 * SIZEOF_LIST_HEAD * JS_ARENA_BLOCK_SIZE_COUNT) x \/
  exists ar, is_Some (g_slabs g !! ar) /\ at_ ar 32 x.

(** Every byte the pool uses for itself. *)
Definition meta (s : pool) (g : ghost) (x : Z) : Prop :=
  links s g x \/ at_ (arena_zero_block (p_arena_state s)) 2 x \/
  (exists ar i f, slab_at g ar i f /\ slab_meta ar i x) \/
  (exists b, b ∈ g_larges g /\ at_ b 3 x).

Lemma dll_agree m m' h l :
  (forall a x, a ∈ h :: l -> at_ a SIZEOF_LIST_HEAD x -> load8 m' x = load8 m x) -> dll m h l -> dll m' h l.
Proof.
  intros H. unfold dll, SIZEOF_LIST_HEAD, at_ in *. apply chain_frame; intros x Hx.
  - unfold lh_next, loadw. f_equal. apply load_bytes_ext. intros y Hy. apply (H x); [done | lia].
  - unfold lh_prev, loadw. f_equal. apply load_bytes_ext. intros y Hy. apply (H x); [set_solver | lia].
Qed.

(** The nodes of the rings are links. *)
Lemma all_ring_links s g i a x :
  pcore s g -> class_ok i -> a ∈ arena_list (p_arena_state s) i :: ((fun ar => ar + off_link) <$> g_all g i) ->
  at_ a SIZEOF_LIST_HEAD x -> links s g x.
Proof.
  intros Hc Hi Ha Hx. destruct (pc_all _ _ Hc i Hi) as (_ & _ & E). apply elem_of_cons in Ha as [-> | Ha].
  - left. unfold at_, arena_list, class_ok, SIZEOF_LIST_HEAD, JS_ARENA_BLOCK_SIZE_COUNT in *. lia.
  - right. apply list_elem_of_fmap in Ha as (ar & -> & Ha). apply E in Ha as [f Hf]. exists ar.
    split; [by eexists |]. unfold at_, off_link, SIZEOF_LIST_HEAD in *. lia.
Qed.

Lemma part_ring_links s g i a x :
  pcore s g -> class_ok i -> a ∈ free_arena_list (p_arena_state s) i :: g_part g i ->
  at_ a SIZEOF_LIST_HEAD x -> links s g x.
Proof.
  intros Hc Hi Ha Hx. destruct (pc_part _ _ Hc i Hi) as (_ & _ & E). apply elem_of_cons in Ha as [-> | Ha].
  - left. unfold at_, free_arena_list, class_ok, SIZEOF_LIST_HEAD, JS_ARENA_BLOCK_SIZE_COUNT in *. lia.
  - right. apply E in Ha as [f Hf]. exists a. split; [by eexists |]. unfold at_, SIZEOF_LIST_HEAD in *. lia.
Qed.

(** Writes of the client, and of the backing functions in their own memory,
    leave the invariant. *)
Lemma pcore_agree s g b' m' :
  pcore s g -> bk_inv b' m' ->
  (forall p, p = g_rt g \/ is_Some (g_slabs g !! p) \/ p ∈ g_larges g -> bk_blocks b' !! p = bk_blocks (p_bk s) !! p) ->
  (forall x, meta s g x -> load8 m' x = load8 (p_mem s) x) ->
  pcore (set_back s b' m') g.
Proof.
  intros Hc Hi Hb Hm. pose proof Hc as [H1 H2 H3 H4 H5 H6 H7].
  assert (Ho : only (fun x => ~ meta s g x) (p_mem s) m').
  { intros x Hx. destruct (decide (load8 m' x = load8 (p_mem s) x)) as [|Hne]; [done |].
    exfalso. apply Hx. intros Hmx. apply Hne. by apply Hm. }
  split; simpl; try done.
  - rewrite Hb by tauto. done.
  - intros ar i f Hs. destruct (H3 ar i f Hs) as (E1 & E2 & (c & E3 & E4) & E5).
    split; [done |]. split; [done |]. split; [exists c; split; [rewrite Hb; [done | right; left; by eexists] | done] |].
    eapply slab_ok_frame; [exact Ho | | exact E5]. intros y Hy Hn. apply Hn. right. right. left. eauto.
  - intros b Hbl. destruct (H4 b Hbl) as (E1 & E2 & (c & E3 & E4) & E5).
    split; [done |]. split; [done |]. split; [exists c; split; [rewrite Hb by tauto; done | done] |].
    rewrite <- E5. eapply only_loadw; [exact Ho |]. intros y Hy Hn. apply Hn. right. right. right.
    exists b. split; [done |]. unfold at_ in *. lia.
  - rewrite <- H5. eapply only_loadw; [exact Ho |]. intros y Hy Hn. apply Hn. right. by left.
  - intros i Hi'. destruct (H6 i Hi') as (E1 & E2 & E3). split; [| done]. revert E1. apply dll_agree.
    intros a x Ha Hx. apply Hm. left. by eapply all_ring_links.
  - intros i Hi'. destruct (H7 i Hi') as (E1 & E2 & E3). split; [| done]. revert E1. apply dll_agree.
    intros a x Ha Hx. apply Hm. left. by eapply part_ring_links.
Qed.

(** *** Who owns which byte *)

Definition g_upd (g : ghost) (ar i : Z) (f : page) : ghost :=
  {| g_rt := g_rt g; g_slabs := <[ar := {| sl_idx := i; sl_page := f |}]> (g_slabs g); g_larges := g_larges g;
     g_all := g_all g; g_part := g_part g |}.
Definition set_class (h : Z -> list Z) (i : Z) (l : list Z) : Z -> list Z := fun j => if j =? i then l else h j.
Definition g_set_part (g : ghost) (i : Z) (l : list Z) : ghost :=
  {| g_rt := g_rt g; g_slabs := g_slabs g; g_larges := g_larges g; g_all := g_all g; g_part := set_class (g_part g) i l |}.

Section owners.
Context (s : pool) (g : ghost).
Hypothesis Hc : pcore s g.
Let B := bk_blocks (p_bk s).

Lemma blocks_fine : blocks_ok B.
Proof. eapply bk_geometry. apply Hc. Qed.

Lemma slab_facts ar i f :
  slab_at g ar i f -> class_ok i /\ 0 < ar < 2 ^ 62 /\ (8 | ar) /\
  (forall x, at_ ar (slab_len i) x -> in_block B ar x) /\ ar + slab_len i < 2 ^ 62 /\ 72 <= slab_len i.
Proof.
  intros Hs. destruct (pc_slab _ _ Hc _ _ _ Hs) as (Hi & _ & (c & HB & Hl) & _).
  destruct (bo_block _ blocks_fine _ _ HB) as (H1 & H2 & H3 & H4).
  destruct (class_facts i Hi) as (C1 & _ & C2 & C3). split; [done |]. unfold slab_len, SIZEOF_JSArena in *.
  split; [nia |]. split; [done |]. split; [| nia]. intros x Hx. exists c. split; [done |]. unfold at_ in *. lia.
Qed.

Lemma rt_in_block x : at_ (p_arena_state s) SIZEOF_JSArenaState x -> in_block B (g_rt g) x.
Proof. intros Hx. destruct (pc_rt _ _ Hc) as (c & HB & H1 & H2). exists c. split; [done |]. unfold at_ in *. lia. Qed.

Lemma rt_range : 0 < p_arena_state s /\ p_arena_state s + SIZEOF_JSArenaState < 2 ^ 62.
Proof.
  destruct (pc_rt _ _ Hc) as (c & HB & H1 & H2). destruct (bo_block _ blocks_fine _ _ HB) as (E1 & E2 & E3 & E4). lia.
Qed.

Lemma slab_meta_in ar i f x : slab_at g ar i f -> slab_meta ar i x -> at_ ar (slab_len i) x /\ ar + 32 <= x.
Proof.
  intros Hs [Hx | (k & Hk & Hx)]; pose proof (slab_facts _ _ _ Hs) as (Hi & H1 & _ & _ & _ & H2).
  - unfold at_, off_ar_idx in *. lia.
  - destruct (blk_in ar i k Hi Hk) as [E1 E2]. destruct (class_facts i Hi) as (C1 & _).
    unfold at_, SIZEOF_JSArena in *. lia.
Qed.

(** A byte of the pool's own, by the block it is in. *)
Lemma meta_owner x :
  meta s g x ->
  (in_block B (g_rt g) x /\ at_ (p_arena_state s) 994 x) \/
  (exists ar i f, slab_at g ar i f /\ in_block B ar x /\ (at_ ar 32 x \/ slab_meta ar i x)) \/
  (exists b, b ∈ g_larges g /\ in_block B b x /\ at_ b 3 x).
Proof.
  intros [[Hx | (ar & [[i f] Hs] & Hx)] | [Hx | [(ar & i & f & Hs & Hx) | (b & Hb & Hx)]]].
  - left. unfold at_, SIZEOF_LIST_HEAD, JS_ARENA_BLOCK_SIZE_COUNT in Hx. split; [apply rt_in_block |]; unfold at_, SIZEOF_JSArenaState; lia.
  - right. left. exists ar, i, f. split; [done |]. pose proof (slab_facts _ _ _ Hs) as (_ & _ & _ & H & _ & H2).
    split; [apply H; unfold at_ in *; lia | by left].
  - left. unfold at_, arena_zero_block, SIZEOF_LIST_HEAD, JS_ARENA_BLOCK_SIZE_COUNT in Hx.
    split; [apply rt_in_block |]; unfold at_, SIZEOF_JSArenaState; lia.
  - right. left. exists ar, i, f. split; [done |]. pose proof (slab_facts _ _ _ Hs) as (_ & _ & _ & H & _).
    split; [apply H; by eapply slab_meta_in | by right].
  - right. right. exists b. split; [done |]. split; [| done].
    destruct (pc_large _ _ Hc b Hb) as (_ & _ & (c & HB & Hl) & _). exists c. split; [done |].
    unfold at_, SIZEOF_HEADER in *. lia.
Qed.

Lemma meta_in_blocks x : meta s g x -> in_blocks B x.
Proof. intros Hx. apply meta_owner in Hx as [[H _] | [(ar & i & f & _ & H & _) | (b & _ & H & _)]]; by eexists. Qed.

Lemma same_block p q x : in_block B p x -> in_block B q x -> p = q.
Proof. apply (bo_disjoint _ blocks_fine). Qed.

(** *** Live blocks *)

(** The user pointer, its capacity, and whether it is pooled. *)
Inductive live : Z -> Z -> bool -> Prop :=
  | live_pooled ar i f k : slab_at g ar i f -> 0 <= k < nb i -> k ∉ pg_free f ->
      live (blk ar i k + SIZEOF_HEADER) (block_size_of i - SIZEOF_HEADER) true
  | live_large b c : b ∈ g_larges g -> B !! b = Some c -> live (b + SIZEOF_HEADER) (c - SIZEOF_HEADER) false.

(** The bytes of a live block, header included, and those of them that are the
    engine's: all but the first three. *)
Definition extent (p c x : Z) : Prop := at_ (p - SIZEOF_HEADER) (SIZEOF_HEADER + c) x.
Definition user (p c x : Z) : Prop := at_ (p - 5) (5 + c) x.

Lemma live_owner p c k :
  live p c k ->
  (exists ar i f j, slab_at g ar i f /\ 0 <= j < nb i /\ (j ∉ pg_free f) /\ k = true /\ p = blk ar i j + SIZEOF_HEADER /\
     c = block_size_of i - SIZEOF_HEADER /\ forall x, extent p c x -> in_block B ar x) \/
  (exists b, b ∈ g_larges g /\ k = false /\ p = b + SIZEOF_HEADER /\ B !! b = Some (c + SIZEOF_HEADER) /\
     forall x, extent p c x -> in_block B b x).
Proof.
  intros [ar i f j Hs Hj Hf | b c' Hb HB].
  - left. exists ar, i, f, j. repeat (split; [done |]). intros x Hx.
    pose proof (slab_facts _ _ _ Hs) as (Hi & _ & _ & H & _). apply H.
    destruct (blk_in ar i j Hi Hj). unfold extent, at_, SIZEOF_HEADER, SIZEOF_JSArena in *. lia.
  - right. exists b. split; [done |]. split; [done |]. split; [done |].
    replace (c' - SIZEOF_HEADER + SIZEOF_HEADER) with c' by lia. split; [done |].
    intros x Hx. exists c'. split; [done |]. unfold extent, at_, SIZEOF_HEADER in *. lia.
Qed.

Lemma live_bounds p c k : live p c k -> 8 < p /\ p + c < 2 ^ 62 /\ 0 < c /\ (8 | p).
Proof.
  intros [ar i f j Hs Hj Hf | b c' Hb HB].
  - pose proof (slab_facts _ _ _ Hs) as (Hi & H1 & H2 & H3 & H4 & H5).
    destruct (blk_in ar i j Hi Hj). destruct (class_facts i Hi) as (C1 & C2 & _).
    unfold SIZEOF_HEADER, SIZEOF_JSArena in *. split; [lia |]. split; [lia |]. split; [lia |]. unfold blk, SIZEOF_JSArena.
    apply Z.divide_add_r; [| by exists 1]. apply Z.divide_add_r; [| by apply Z.divide_mul_r].
    apply Z.divide_add_r; [done | by exists 5].
  - destruct (pc_large _ _ Hc b Hb) as (_ & _ & (c0 & HB' & Hl) & _).
    destruct (bo_block _ blocks_fine _ _ HB) as (E1 & E2 & E3 & E4). assert (c' = c0) by (unfold B in HB; congruence). subst c'.
    unfold SIZEOF_HEADER in *. split; [lia |]. split; [lia |]. split; [lia |]. apply Z.divide_add_r; [done | by exists 1].
Qed.

(** The engine's bytes of a live block are not the pool's. *)
Lemma user_not_meta p c k x : live p c k -> user p c x -> ~ meta s g x.
Proof.
  intros Hl Hu Hm.
  assert (Hx : extent p c x) by (unfold extent, user, at_, SIZEOF_HEADER in *; lia).
  apply meta_owner in Hm. apply live_owner in Hl as [(ar & i & f & j & Hs & Hj & Hf & _ & -> & -> & Ho) | (b & Hb & _ & -> & HB & Ho)];
    specialize (Ho x Hx).
  - destruct (pc_slab _ _ Hc _ _ _ Hs) as (Hi & Hrt & _ & _). destruct (class_facts i Hi) as (C1 & _).
    destruct (blk_in ar i j Hi Hj) as [E1 _].
    destruct Hm as [[H _] | [(ar' & i' & f' & Hs' & H & Hx') | (b & Hb & H & _)]].
    + apply Hrt. by eapply same_block.
    + assert (ar' = ar) by by eapply same_block. subst ar'. unfold slab_at in *. simplify_eq.
      unfold user, SIZEOF_HEADER, SIZEOF_JSArena in *. destruct Hx' as [Hx' | [Hx' | (k' & Hk' & Hx')]];
        unfold at_, off_ar_idx in *; [lia | lia |].
      destruct (Z.lt_trichotomy k' j) as [L | [-> | L]]; [pose proof (blk_apart ar i k' j Hi L) | | pose proof (blk_apart ar i j k' Hi L)]; lia.
    + assert (b = ar) by by eapply same_block. subst b. destruct (pc_large _ _ Hc ar Hb) as (_ & H' & _). unfold slab_at in Hs. congruence.
  - destruct (pc_large _ _ Hc b Hb) as (Hrt & Hns & _ & _).
    destruct Hm as [[H _] | [(ar' & i' & f' & Hs' & H & Hx') | (b' & Hb' & H & Hx')]].
    + apply Hrt. by eapply same_block.
    + assert (ar' = b) by by eapply same_block. subst ar'. unfold slab_at in Hs'. congruence.
    + assert (b' = b) by by eapply same_block. subst b'. unfold user, at_, SIZEOF_HEADER in *. lia.
Qed.

(** Live blocks do not overlap. *)
Lemma live_disjoint p c k p' c' k' x :
  live p c k -> live p' c' k' -> extent p c x -> extent p' c' x -> p = p' /\ c = c' /\ k = k'.
Proof.
  intros H1 H2 X1 X2.
  apply live_owner in H1 as [(ar & i & f & j & Hs & Hj & Hf & -> & -> & -> & Ho) | (b & Hb & -> & -> & HB & Ho)];
  apply live_owner in H2 as [(ar' & i' & f' & j' & Hs' & Hj' & Hf' & -> & -> & -> & Ho') | (b' & Hb' & -> & -> & HB' & Ho')];
  specialize (Ho x X1); specialize (Ho' x X2); pose proof (same_block _ _ _ Ho Ho') as E; subst.
  - unfold slab_at in *. simplify_eq. destruct (pc_slab _ _ Hc _ _ _ Hs) as (Hi & _).
    unfold extent, at_, SIZEOF_HEADER in *.
    destruct (Z.lt_trichotomy j j') as [L | [-> | L]]; [pose proof (blk_apart ar' i j j' Hi L); lia | done | pose proof (blk_apart ar' i j' j Hi L); lia].
  - destruct (pc_large _ _ Hc b' Hb') as (_ & H' & _). unfold slab_at in Hs. congruence.
  - destruct (pc_large _ _ Hc _ Hb) as (_ & H' & _). unfold slab_at in Hs'. congruence.
  - split; [done |]. split; [| done]. rewrite HB in HB'. injection HB'. lia.
Qed.
End owners.

End invariant.
