(* ===== verification/PoolUpdates.v ===== *)
(** * The small-block pool: elementary updates

    How the invariant moves when the pool rewrites the header bytes of a page,
    puts a page on a ring or takes it off, and when the backing allocator hands
    out or takes back a block. *)

From stdpp Require Import base list numbers gmap.
From Stdlib Require Import ZArith Lia.
From S2P Require Import Prelude Memory StateRun ListHead Pool PoolInvariant.

#[local] Open Scope st_scope.
#[local] Open Scope Z_scope.

(** ** List nodes do not overlap *)

Section nodes.
Context (B : gmap Z Z) (as_ rt : Z) (D : Z -> Prop).
Hypothesis HB : blocks_ok B.
Hypothesis Hrt : exists c, B !! rt = Some c /\ rt <= as_ /\ as_ + SIZEOF_JSArenaState <= rt + c.
Hypothesis HD : forall ar, D ar -> ar <> rt /\ exists c, B !! ar = Some c /\ 32 <= c.

(** The nodes of the pool's rings, for pages in [D]. *)
Inductive node : Z -> Prop :=
  | node_all i : class_ok i -> node (arena_list as_ i)
  | node_part i : class_ok i -> node (free_arena_list as_ i)
  | node_link ar : D ar -> node (ar + off_link)
  | node_free ar : D ar -> node ar.

Definition head_node (a : Z) : Prop := exists i, class_ok i /\ (a = arena_list as_ i \/ a = free_arena_list as_ i).

Lemma node_owner a x :
  node a -> at_ a SIZEOF_LIST_HEAD x ->
  exists q, in_block B q x /\ ((q = rt /\ head_node a) \/ (D q /\ (a = q \/ a = q + off_link))).
Proof.
  destruct Hrt as (c & Hc & H1 & H2).
  unfold at_, SIZEOF_LIST_HEAD, SIZEOF_JSArenaState in *. intros [i Hi | i Hi | ar Ha | ar Ha] Hx.
  1,2: exists rt; (split; [| left; split; [done | exists i; tauto]]); exists c; (split; [done |]);
    unfold at_, arena_list, free_arena_list, class_ok, SIZEOF_LIST_HEAD, JS_ARENA_BLOCK_SIZE_COUNT in *; lia.
  all: exists ar; destruct (HD ar Ha) as (_ & c' & Hc' & L); (split; [| by auto]); exists c'; (split; [done |]);
    unfold at_, off_link in *; lia.
Qed.

Lemma head_apart a b : head_node a -> head_node b -> apart a b.
Proof.
  intros (i & Hi & Ha) (j & Hj & Hb).
  unfold apart, class_ok, arena_list, free_arena_list, SIZEOF_LIST_HEAD, JS_ARENA_BLOCK_SIZE_COUNT in *. lia.
Qed.

Lemma node_apart a b : node a -> node b -> apart a b.
Proof.
  intros Ha Hb. destruct (decide (a + 16 <= b \/ b + 16 <= a)) as [|Hn]; [by right |].
  destruct (node_owner a (Z.max a b) Ha) as (q & Hq & Ca); [unfold at_, SIZEOF_LIST_HEAD; lia |].
  destruct (node_owner b (Z.max a b) Hb) as (q' & Hq' & Cb); [unfold at_, SIZEOF_LIST_HEAD; lia |].
  assert (q = q') by by eapply (bo_disjoint _ HB). subst q'.
  destruct Ca as [[-> Ca] | [Dq Ca]], Cb as [[Eq Cb] | [Dq' Cb]].
  - by apply head_apart.
  - by destruct (HD _ Dq') as [? _].
  - subst q. by destruct (HD _ Dq) as [? _].
  - unfold apart, off_link in *. lia.
Qed.

Lemma node_range a : node a -> 0 <= a < 2 ^ 63.
Proof.
  intros Ha. destruct (node_owner a a Ha) as (q & (c & Hq & Hx) & _); [unfold at_, SIZEOF_LIST_HEAD; lia |].
  destruct (bo_block _ HB _ _ Hq) as (? & ? & ? & ?). unfold at_ in *. lia.
Qed.

Lemma nodes_fine N : (forall a, a ∈ N -> node a) -> nodes_ok N.
Proof. intros H. split; [intros a Ha; by apply node_range, H | intros a b Ha Hb; apply node_apart; by apply H]. Qed.

(** A ring is not affected by an operation on other nodes. *)
Lemma ring_frame N m m' h l :
  only (in_nodes N) m m' -> (forall a, a ∈ N -> node a) -> (forall a, a ∈ h :: l -> node a /\ (a ∉ N)) ->
  dll m h l -> dll m' h l.
Proof.
  intros Ho HN Hl. apply dll_agree. intros a x Ha Hx. apply Ho. intros (b & Hb & Hxb).
  destruct (Hl a Ha) as [Hna Hnn]. destruct (node_apart a b Hna (HN b Hb)) as [-> | H]; [done |].
  unfold at_, SIZEOF_LIST_HEAD in *. lia.
Qed.

Lemma head_part_inj i j : free_arena_list as_ i = free_arena_list as_ j -> i = j.
Proof. unfold free_arena_list, SIZEOF_LIST_HEAD. lia. Qed.
Lemma head_all_inj i j : arena_list as_ i = arena_list as_ j -> i = j.
Proof. unfold arena_list, SIZEOF_LIST_HEAD. lia. Qed.
Lemma head_all_part i j : class_ok i -> class_ok j -> arena_list as_ i <> free_arena_list as_ j.
Proof. unfold class_ok, arena_list, free_arena_list, SIZEOF_LIST_HEAD, JS_ARENA_BLOCK_SIZE_COUNT. lia. Qed.

(** A page's nodes are not heads, nor its two nodes those of another page. *)
Lemma page_not_head ar a : D ar -> head_node a -> a <> ar /\ a <> ar + off_link.
Proof.
  intros Ha Hh. destruct Hrt as (c & Hc & H1 & H2). destruct (HD ar Ha) as (Hne & c' & Hc' & L).
  assert (Hcl : forall x, in_block B rt x -> in_block B ar x -> False).
  { intros x X1 X2. apply Hne. symmetry. by eapply (bo_disjoint _ HB). }
  assert (Hin : in_block B rt a).
  { exists c. split; [done |]. destruct Hh as (i & Hi & E).
    unfold at_, class_ok, arena_list, free_arena_list, SIZEOF_JSArenaState, SIZEOF_LIST_HEAD, JS_ARENA_BLOCK_SIZE_COUNT in *. lia. }
  split; intros ->; apply (Hcl _ Hin); exists c'; (split; [done |]); unfold at_, off_link; lia.
Qed.

Lemma page_link_free ar ar' : D ar -> D ar' -> ar + off_link <> ar'.
Proof.
  intros Ha Ha' E. destruct (HD ar Ha) as (_ & c & Hc & L). destruct (HD ar' Ha') as (_ & c' & Hc' & L').
  assert (ar = ar').
  { eapply (bo_disjoint _ HB _ _ ar'); [exists c | exists c']; (split; [done |]); unfold at_, off_link in *; lia. }
  unfold off_link in E. lia.
Qed.
End nodes.

(** ** Rings of a pool *)

Section updates.
Context `{BL : BackingLaws}.

Definition ringed (m : mem) (as_ : Z) (g : ghost) : Prop :=
  (forall i, class_ok i ->
    dll m (arena_list as_ i) ((fun ar => ar + off_link) <$> g_all g i) /\ NoDup (g_all g i) /\
    forall ar, ar ∈ g_all g i -> exists f, slab_at g ar i f) /\
  (forall i, class_ok i ->
    dll m (free_arena_list as_ i) (g_part g i) /\ NoDup (g_part g i) /\
    forall ar, ar ∈ g_part g i -> exists f, slab_at g ar i f).

(** Pages that may carry nodes. *)
Definition pages (s : pool) (g : ghost) (D : Z -> Prop) : Prop :=
  forall ar, D ar -> ar <> g_rt g /\ (ar ∉ g_larges g) /\ exists c, bk_blocks (p_bk s) !! ar = Some c /\ 32 <= c.

Lemma slab_pages s g : pcore s g -> pages s g (fun ar => is_Some (g_slabs g !! ar)).
Proof.
  intros Hc ar [[i f] Hs]. destruct (pc_slab _ _ Hc _ _ _ Hs) as (Hi & Hne & (c & HB & L) & _).
  split; [done |]. split.
  - intros Hb. destruct (pc_large _ _ Hc _ Hb) as (_ & H & _). unfold slab_at in Hs. congruence.
  - exists c. split; [done |]. pose proof (slab_facts _ _ Hc _ _ _ Hs). lia.
Qed.

Lemma pages_plain s g D : pages s g D -> forall ar, D ar -> ar <> g_rt g /\ exists c, bk_blocks (p_bk s) !! ar = Some c /\ 32 <= c.
Proof. intros H ar Ha. destruct (H ar Ha) as (? & _ & ?). done. Qed.

(** Node bytes are none of the other bytes of the pool. *)
Lemma nodes_not_body s g D N x :
  pcore s g -> pages s g D -> (forall a, a ∈ N -> node (p_arena_state s) D a) -> in_nodes N x ->
  in_blocks (bk_blocks (p_bk s)) x /\
  ~ at_ (arena_zero_block (p_arena_state s)) 2 x /\
  (forall b, b ∈ g_larges g -> ~ at_ b 3 x) /\
  (forall ar i, D ar -> class_ok i -> (exists c, bk_blocks (p_bk s) !! ar = Some c /\ slab_len i <= c) -> ~ slab_meta ar i x).
Proof.
  intros Hc HD HN (a & Ha & Hx). apply HN in Ha.
  destruct (node_owner _ _ (g_rt g) D (pc_rt _ _ Hc) (pages_plain _ _ _ HD) a x Ha Hx) as (q & Hq & Hown).
  pose proof (blocks_fine _ _ Hc) as HB. pose proof (rt_range _ _ Hc) as HR.
  split; [by exists q |]. split; [| split].
  - intros Hz. assert (Hr : in_block (bk_blocks (p_bk s)) (g_rt g) x).
    { apply (rt_in_block _ _ Hc). unfold at_, arena_zero_block, SIZEOF_JSArenaState, SIZEOF_LIST_HEAD, JS_ARENA_BLOCK_SIZE_COUNT in *. lia. }
    assert (q = g_rt g) by by eapply (bo_disjoint _ HB). subst q.
    destruct Hown as [[_ (i & Hi & E)] | [Hd _]]; [| by destruct (HD _ Hd)].
    unfold at_, class_ok, arena_list, free_arena_list, arena_zero_block, SIZEOF_LIST_HEAD, JS_ARENA_BLOCK_SIZE_COUNT in *. lia.
  - intros b Hb Hxb. destruct (pc_large _ _ Hc b Hb) as (Hne & _ & (c & Hbc & L) & _).
    assert (q = b). { eapply (bo_disjoint _ HB); [exact Hq |]. exists c. split; [done |]. unfold at_, SIZEOF_HEADER in *. lia. }
    subst q. destruct Hown as [[E _] | [Hd _]]; [done |]. by destruct (HD _ Hd) as (_ & ? & _).
  - intros ar i Hd Hi (c & Har & L) Hm. assert (Hin : at_ ar (slab_len i) x /\ ar + 32 <= x).
    { destruct Hm as [Hm | (k & Hk & Hm)]; destruct (class_facts i Hi) as (C1 & _ & C2 & _).
      - unfold at_, off_ar_idx, slab_len, SIZEOF_JSArena in *. nia.
      - destruct (blk_in ar i k Hi Hk). unfold at_, SIZEOF_JSArena in *. lia. }
    assert (q = ar). { eapply (bo_disjoint _ HB); [exact Hq |]. exists c. split; [done |]. unfold at_ in *. lia. }
    subst q. destruct Hown as [[E _] | [_ E]]; [by destruct (HD _ Hd) |]. unfold at_, off_link, SIZEOF_LIST_HEAD in *. lia.
Qed.

(** Nodes of the pages there are. *)
Lemma links_nodes s g (N : list Z) :
  (forall a, a ∈ N -> node (p_arena_state s) (fun ar => is_Some (g_slabs g !! ar)) a) ->
  forall x, in_nodes N x -> links s g x.
Proof.
  intros HN x (a & Ha & Hx). apply HN in Ha. unfold at_, links, SIZEOF_LIST_HEAD in *. destruct Ha as [i Hi | i Hi | ar Ha | ar Ha].
  1,2: left; unfold at_, arena_list, free_arena_list, class_ok, SIZEOF_LIST_HEAD, JS_ARENA_BLOCK_SIZE_COUNT in *; lia.
  all: right; exists ar; (split; [done |]); unfold at_, off_link in *; lia.
Qed.

(** Relinking: only nodes change, and the new rings are the new ghost's. *)
Lemma core_relink s g g' D N m' :
  pcore s g -> pages s g D -> g_rt g' = g_rt g -> g_larges g' = g_larges g ->
  (forall ar i f, slab_at g' ar i f -> D ar /\ class_ok i /\
     (exists c, bk_blocks (p_bk s) !! ar = Some c /\ slab_len i <= c) /\ slab_ok (p_mem s) ar i f) ->
  (forall a, a ∈ N -> node (p_arena_state s) D a) -> only (in_nodes N) (p_mem s) m' ->
  ringed m' (p_arena_state s) g' -> pcore (set_mem s m') g'.
Proof.
  intros Hc HD E1 E2 Hs HN Ho [R1 R2].
  assert (Hno := fun x => nodes_not_body s g D N x Hc HD HN).
  split; simpl; rewrite ?E1, ?E2; try done.
  - eapply bk_client_writes; [apply Hc |]. eapply only_mono; [exact Ho |]. intros x Hx. by apply Hno.
  - apply Hc.
  - intros ar i f Hsl. destruct (Hs ar i f Hsl) as (H1 & H2 & H3 & H4). destruct (HD ar H1) as (H5 & _).
    split; [done |]. split; [done |]. split; [done |]. eapply slab_ok_frame; [exact Ho | | exact H4].
    intros y Hy Hn. destruct (Hno y Hn) as (_ & _ & _ & H). by eapply H.
  - intros b Hb. destruct (pc_large _ _ Hc b Hb) as (H1 & H2 & H3 & H4). split; [done |]. split.
    { destruct (g_slabs g' !! b) as [[i f] |] eqn:E; [| done]. destruct (Hs b i f E) as (Hd & _). by destruct (HD b Hd) as (_ & ? & _). }
    split; [done |]. rewrite <- H4. eapply only_loadw; [exact Ho |]. intros y Hy Hn.
    destruct (Hno y Hn) as (_ & _ & H & _). apply (H b Hb). unfold at_ in *. lia.
  - rewrite <- (pc_zero _ _ Hc). eapply only_loadw; [exact Ho |]. intros y Hy Hn. by destruct (Hno y Hn) as (_ & H & _).
Qed.

(** What an operation on the ring [h :: l] of nodes leaves of the other rings. *)
Lemma other_rings s g D N m' i :
  pcore s g -> pages s g D -> (forall ar, is_Some (g_slabs g !! ar) -> D ar) ->
  (forall a, a ∈ N -> node (p_arena_state s) D a) -> only (in_nodes N) (p_mem s) m' -> class_ok i ->
  ((forall a, a ∈ arena_list (p_arena_state s) i :: ((fun ar => ar + off_link) <$> g_all g i) -> a ∉ N) ->
    dll m' (arena_list (p_arena_state s) i) ((fun ar => ar + off_link) <$> g_all g i)) /\
  ((forall a, a ∈ free_arena_list (p_arena_state s) i :: g_part g i -> a ∉ N) ->
    dll m' (free_arena_list (p_arena_state s) i) (g_part g i)).
Proof.
  intros Hc HD HS HN Ho Hi. destruct (pc_all _ _ Hc i Hi) as (R1 & _ & M1). destruct (pc_part _ _ Hc i Hi) as (R2 & _ & M2).
  split; intros Hnot; (eapply ring_frame; [apply (blocks_fine _ _ Hc) | apply (pc_rt _ _ Hc) | apply (pages_plain _ _ _ HD) | exact Ho | exact HN | | done]);
    intros a Ha; (split; [| by apply Hnot]); apply elem_of_cons in Ha as [-> | Ha]; try by constructor.
  - apply list_elem_of_fmap in Ha as (ar & -> & Ha). apply M1 in Ha as [f Hf]. apply node_link, HS. by eexists.
  - apply M2 in Ha as [f Hf]. apply node_free, HS. by eexists.
Qed.

Section on_rings.
Context (s : pool) (g : ghost) (D : Z -> Prop).
Hypothesis Hc : pcore s g.
Hypothesis HD : pages s g D.
Hypothesis HS : forall ar, is_Some (g_slabs g !! ar) -> D ar.
Let as_ := p_arena_state s.

Lemma slab_class ar i j f f' : slab_at g ar i f -> slab_at g ar j f' -> i = j.
Proof. unfold slab_at. intros H1 H2. rewrite H1 in H2. by injection H2. Qed.

(** Nodes of the second ring of class [i] are on no other ring. *)
Lemma part_only i (N : list Z) :
  class_ok i ->
  (forall a, a ∈ N -> a = free_arena_list as_ i \/ D a /\ forall j, class_ok j -> j <> i -> a ∉ g_part g j) ->
  forall j, class_ok j ->
  (forall a, a ∈ arena_list as_ j :: ((fun ar => ar + off_link) <$> g_all g j) -> a ∉ N) /\
  (j <> i -> forall a, a ∈ free_arena_list as_ j :: g_part g j -> a ∉ N).
Proof.
  intros Hi HN j Hj. pose proof (pages_plain _ _ _ HD) as HP. pose proof (blocks_fine _ _ Hc) as HB.
  assert (Hhd : forall a b, head_node as_ a -> D b -> a <> b /\ a <> b + off_link).
  { intros a b Ha Hb. eapply (page_not_head _ as_ (g_rt g) D HB (pc_rt _ _ Hc) HP); done. }
  assert (Hhi : head_node as_ (free_arena_list as_ i)) by (exists i; tauto).
  split; [| intros Hne]; intros a Ha Hin; apply HN in Hin as [-> | [Hd Hn]]; apply elem_of_cons in Ha as [Ea | Ha].
  - symmetry in Ea. revert Ea. by apply head_all_part.
  - apply list_elem_of_fmap in Ha as (ar & E & Ha). apply (pc_all _ _ Hc j Hj) in Ha as [f Hf].
    destruct (Hhd _ ar Hhi) as [_ H]; [apply HS; by eexists |]. done.
  - destruct (Hhd a a) as [? _]; [exists j; tauto | done | done].
  - apply list_elem_of_fmap in Ha as (ar & E & Ha). apply (pc_all _ _ Hc j Hj) in Ha as [f Hf].
    eapply (page_link_free _ (g_rt g) D HB HP ar a); [apply HS; by eexists | done | done].
  - apply Hne. symmetry. by eapply head_part_inj.
  - apply (pc_part _ _ Hc j Hj) in Ha as [f Hf]. destruct (Hhd _ (free_arena_list as_ i) Hhi) as [? _]; [apply HS; by eexists | done].
  - destruct (Hhd a a) as [? _]; [exists j; tauto | done | done].
  - by apply (Hn j Hj Hne).
Qed.

(** Nodes of the first ring of class [i] are on no other ring. *)
Lemma all_only i (N : list Z) :
  class_ok i ->
  (forall a, a ∈ N -> a = arena_list as_ i \/ exists ar, a = ar + off_link /\ D ar /\ forall j, class_ok j -> j <> i -> ar ∉ g_all g j) ->
  forall j, class_ok j ->
  (j <> i -> forall a, a ∈ arena_list as_ j :: ((fun ar => ar + off_link) <$> g_all g j) -> a ∉ N) /\
  (forall a, a ∈ free_arena_list as_ j :: g_part g j -> a ∉ N).
Proof.
  intros Hi HN j Hj. pose proof (pages_plain _ _ _ HD) as HP. pose proof (blocks_fine _ _ Hc) as HB.
  assert (Hhd : forall a b, head_node as_ a -> D b -> a <> b /\ a <> b + off_link).
  { intros a b Ha Hb. eapply (page_not_head _ as_ (g_rt g) D HB (pc_rt _ _ Hc) HP); done. }
  assert (Hhi : head_node as_ (arena_list as_ i)) by (exists i; tauto).
  split; [intros Hne |]; intros a Ha Hin; apply HN in Hin as [-> | (ar & -> & Hd & Hn)]; apply elem_of_cons in Ha as [Ea | Ha].
  - apply Hne. symmetry. by eapply head_all_inj.
  - apply list_elem_of_fmap in Ha as (ar & E & Ha). apply (pc_all _ _ Hc j Hj) in Ha as [f Hf].
    destruct (Hhd _ ar Hhi) as [_ H]; [apply HS; by eexists |]. done.
  - destruct (Hhd (arena_list as_ j) ar) as [_ ?]; [exists j; tauto | done | done].
  - apply list_elem_of_fmap in Ha as (ar' & E & Ha). assert (ar' = ar) by lia. subst ar'. by apply (Hn j Hj Hne).
  - revert Ea. by apply head_all_part.
  - apply (pc_part _ _ Hc j Hj) in Ha as [f Hf]. destruct (Hhd _ (arena_list as_ i) Hhi) as [? _]; [apply HS; by eexists | done].
  - destruct (Hhd (free_arena_list as_ j) ar) as [_ ?]; [exists j; tauto | done | done].
  - apply (pc_part _ _ Hc j Hj) in Ha as [f Hf].
    eapply (page_link_free _ (g_rt g) D HB HP ar (ar + off_link)); [done | apply HS; by eexists | done].
Qed.
End on_rings.

Lemma part_not_other s g i a :
  pcore s g -> class_ok i -> (exists f, slab_at g a i f) -> forall j, class_ok j -> j <> i -> a ∉ g_part g j.
Proof.
  intros Hc Hi [f Hf] j Hj Hne Ha. apply (pc_part _ _ Hc j Hj) in Ha as [f' Hf'].
  apply Hne. by eapply slab_class.
Qed.

Lemma set_class_eq h i l : set_class h i l i = l.
Proof. unfold set_class. by rewrite Z.eqb_refl. Qed.
Lemma set_class_ne h i j l : j <> i -> set_class h i l j = h j.
Proof. intros. unfold set_class. by rewrite (proj2 (Z.eqb_neq _ _)). Qed.

Lemma NoDup_drop_middle (el : Z) l1 l2 : NoDup (l1 ++ el :: l2) -> (el ∉ l1 ++ l2) /\ NoDup (l1 ++ l2).
Proof.
  intros Hnd. apply NoDup_app in Hnd as (N1 & N2 & N3). apply NoDup_cons in N3 as [N3 N4]. split.
  - rewrite elem_of_app. intros [H | H]; [by apply (N2 el H), list_elem_of_here | done].
  - apply NoDup_app. split; [done |]. split; [| done]. intros x Hx1 Hx2. apply (N2 x Hx1). by apply list_elem_of_further.
Qed.

(** *** The ring of pages with free blocks *)

Section part_ring.
Context (s : pool) (g : ghost) (i : Z).
Hypothesis Hc : pcore s g.
Hypothesis Hi : class_ok i.
Let as_ := p_arena_state s.
Let D := fun ar => is_Some (g_slabs g !! ar).

Lemma core_part_set (N l' : list Z) m' :
  (forall a, a ∈ N -> a = free_arena_list as_ i \/ exists f, slab_at g a i f) ->
  only (in_nodes N) (p_mem s) m' -> dll m' (free_arena_list as_ i) l' -> NoDup l' ->
  (forall a, a ∈ l' -> exists f, slab_at g a i f) ->
  pcore (set_mem s m') (g_set_part g i l').
Proof.
  intros HN Ho Hd Hnd Hl. pose proof (slab_pages _ _ Hc) as HD.
  assert (HNn : forall a, a ∈ N -> node as_ D a).
  { intros a Ha. destruct (HN a Ha) as [-> | [f Hf]]; [by constructor | apply node_free; by eexists]. }

  assert (HNo : forall a, a ∈ N -> a = free_arena_list as_ i \/ D a /\ forall j, class_ok j -> j <> i -> a ∉ g_part g j).
  { intros a Ha. destruct (HN a Ha) as [-> | Hf]; [by left |]. right. split; [destruct Hf as [f Hf]; by eexists |].
    intros j Hj Hne. by apply (part_not_other s g i a Hc Hi Hf). }
  assert (Hoth := part_only s g D Hc HD (fun _ H => H) i N Hi HNo).
  apply (core_relink s g _ D N); try done.
  - intros ar j f Hs. destruct (pc_slab _ _ Hc _ _ _ Hs) as (E1 & E2 & E3 & E4). split; [by eexists | done].
  - split; intros j Hj; simpl; destruct (Hoth j Hj) as [O1 O2];
      destruct (other_rings s g D N m' j Hc HD (fun _ H => H) HNn Ho Hj) as [F1 F2].
    + destruct (pc_all _ _ Hc j Hj) as (_ & E2 & E3). split; [by apply F1 | done].
    + destruct (decide (j = i)) as [-> | Hne].
      { rewrite set_class_eq. done. }
      rewrite set_class_ne by done. destruct (pc_part _ _ Hc j Hj) as (_ & E2 & E3). split; [by apply F2, O2 | done].
Qed.

Lemma part_nodes (l : list Z) : (forall a, a ∈ l -> exists f, slab_at g a i f) ->
  nodes_ok (free_arena_list as_ i :: l) /\ (free_arena_list as_ i ∉ l).
Proof.
  intros Hl. pose proof (slab_pages _ _ Hc) as HD. split.
  - apply (nodes_fine _ as_ (g_rt g) D (blocks_fine _ _ Hc) (pc_rt _ _ Hc) (pages_plain _ _ _ HD)).
    intros a Ha. apply elem_of_cons in Ha as [-> | Ha]; [by constructor |]. apply Hl in Ha as [f Hf]. apply node_free. by eexists.
  - intros Ha. apply Hl in Ha as [f Hf].
    destruct (page_not_head _ as_ (g_rt g) D (blocks_fine _ _ Hc) (pc_rt _ _ Hc) (pages_plain _ _ _ HD)
      (free_arena_list as_ i) (free_arena_list as_ i)) as [? _]; [by eexists | exists i; tauto | done].
Qed.

Lemma core_part_add ar f :
  slab_at g ar i f -> ar ∉ g_part g i ->
  pcore (set_mem s (list_add (p_mem s) ar (free_arena_list as_ i))) (g_set_part g i (ar :: g_part g i)) /\
  only (links s g) (p_mem s) (list_add (p_mem s) ar (free_arena_list as_ i)).
Proof.
  intros Hs Hn. destruct (pc_part _ _ Hc i Hi) as (R & Hnd & HM).
  assert (Hl : forall a, a ∈ ar :: g_part g i -> exists f, slab_at g a i f).
  { intros a Ha. apply elem_of_cons in Ha as [-> | Ha]; [by eexists | by apply HM]. }
  destruct (part_nodes _ Hl) as [Hok Hh].
  destruct (list_add_spec _ _ _ R ar) as [Hd Ho].
  { eapply nodes_ok_sub; [exact Hok | set_solver]. }
  { apply not_elem_of_cons in Hh as [H1 H2]. apply NoDup_cons; split; [set_solver | by apply NoDup_cons]. }
  split.
  - eapply core_part_set; [| exact Ho | exact Hd | by constructor | done].
    intros a Ha. rewrite !elem_of_cons in Ha. destruct Ha as [-> | [-> | Ha]]; [right; by eexists | by left | right; by apply HM].
  - eapply only_mono; [exact Ho |]. apply links_nodes. intros a Ha. rewrite !elem_of_cons in Ha.
    destruct Ha as [-> | [-> | Ha]]; [apply node_free; by eexists | by constructor |]. apply HM in Ha as [f' Hf']. apply node_free. by eexists.
Qed.

Lemma core_part_del l1 ar l2 :
  g_part g i = l1 ++ ar :: l2 ->
  pcore (set_mem s (list_del (p_mem s) ar)) (g_set_part g i (l1 ++ l2)) /\
  only (links s g) (p_mem s) (list_del (p_mem s) ar).
Proof.
  intros El. destruct (pc_part _ _ Hc i Hi) as (R & Hnd & HM).
  destruct (part_nodes _ HM) as [Hok Hh].
  destruct (list_del_spec _ _ _ R ar l1 l2 El Hok) as [Hd Ho]; [by constructor |].
  rewrite El in Hnd. apply NoDup_drop_middle in Hnd as [_ Hnd'].
  split.
  - eapply core_part_set; [| exact Ho | exact Hd | done | intros a Ha; apply HM; rewrite El; set_solver].
    intros a Ha. apply elem_of_cons in Ha as [-> | Ha]; [by left | right; by apply HM].
  - eapply only_mono; [exact Ho |]. apply links_nodes. intros a Ha. apply elem_of_cons in Ha as [-> | Ha]; [by constructor |].
    apply HM in Ha as [f' Hf']. apply node_free. by eexists.
Qed.
End part_ring.

(** *** The bytes of a page *)

(** The header bytes of a page are in its block only, and not its nodes. *)
Lemma slab_meta_own s g ar i f x :
  pcore s g -> slab_at g ar i f -> slab_meta ar i x ->
  in_block (bk_blocks (p_bk s)) ar x /\
  (forall q, q <> ar -> ~ in_block (bk_blocks (p_bk s)) q x) /\ ~ links s g x.
Proof.
  intros Hc Hs Hx. destruct (slab_meta_in _ _ Hc _ _ _ _ Hs Hx) as [H1 H2].
  pose proof (slab_facts _ _ Hc _ _ _ Hs) as (_ & _ & _ & Hin & _). destruct (pc_slab _ _ Hc _ _ _ Hs) as (_ & Hrt & _ & _).
  assert (Hoth : forall q, q <> ar -> ~ in_block (bk_blocks (p_bk s)) q x).
  { intros q Hne Hq. apply Hne. eapply (same_block _ _ Hc); [exact Hq | by apply Hin]. }
  split; [by apply Hin |]. split; [done |]. intros [Hl | (q & [[j h] Hq] & Hl)].
  - apply (Hoth (g_rt g)); [done |]. apply (rt_in_block _ _ Hc).
    unfold at_, SIZEOF_JSArenaState, SIZEOF_LIST_HEAD, JS_ARENA_BLOCK_SIZE_COUNT in *. lia.
  - destruct (decide (q = ar)) as [-> | Hne]; [unfold at_ in *; lia |]. apply (Hoth q Hne).
    pose proof (slab_facts _ _ Hc q j h Hq) as (_ & _ & _ & H & _ & H3). apply H. unfold at_ in *. lia.
Qed.

Lemma core_body s g ar i f f' m' :
  pcore s g -> slab_at g ar i f -> only (slab_meta ar i) (p_mem s) m' -> slab_ok m' ar i f' ->
  pcore (set_mem s m') (g_upd g ar i f').
Proof.
  intros Hc Hs Ho Hok. pose proof (slab_facts _ _ Hc _ _ _ Hs) as (Hi & _ & _ & Hin & _).
  destruct (pc_slab _ _ Hc _ _ _ Hs) as (_ & Hrt & Hblk & _).
  assert (Hown := fun x => slab_meta_own s g ar i f x Hc Hs).
  assert (Hoth : forall q x, q <> ar -> in_block (bk_blocks (p_bk s)) q x -> ~ slab_meta ar i x).
  { intros q x Hne Hq Hx. destruct (Hown x Hx) as (_ & H & _). by apply (H q Hne). }
  assert (Hlk : forall x, links s g x -> ~ slab_meta ar i x).
  { intros x Hl Hx. by destruct (Hown x Hx) as (_ & _ & H). }
  assert (Hat : forall a j, (exists h, slab_at (g_upd g ar i f') a j h) <-> exists h, slab_at g a j h).
  { intros a j. unfold slab_at, g_upd. simpl. destruct (decide (a = ar)) as [-> | Hne].
    - rewrite lookup_insert_eq. unfold slab_at in Hs. split; intros [h Hh]; simplify_eq; eauto.
    - by rewrite lookup_insert_ne. }
  split; simpl; try apply Hc.
  - eapply bk_client_writes; [apply Hc |]. eapply only_mono; [exact Ho |]. intros x Hx. exists ar. by apply Hown.
  - intros a j h. unfold slab_at, g_upd. simpl. destruct (decide (a = ar)) as [-> | Hne].
    + rewrite lookup_insert_eq. intros [= <- <-]. done.
    + rewrite lookup_insert_ne by done. intros Ha. destruct (pc_slab _ _ Hc _ _ _ Ha) as (E1 & E2 & E3 & E4).
      split; [done |]. split; [done |]. split; [done |]. eapply slab_ok_frame; [exact Ho | | exact E4].
      intros y Hy. apply (Hoth a y Hne). pose proof (slab_facts _ _ Hc a j h Ha) as (_ & _ & _ & H & _).
      apply H. by eapply (slab_meta_in _ _ Hc).
  - intros b Hb. destruct (pc_large _ _ Hc b Hb) as (E1 & E2 & (c & E3 & L) & E4).
    assert (Hne : b <> ar) by (unfold slab_at in Hs; intros ->; congruence).
    split; [done |]. split; [by rewrite lookup_insert_ne |]. split; [eauto |]. rewrite <- E4.
    eapply only_loadw; [exact Ho |]. intros y Hy. apply (Hoth b y Hne). exists c. split; [done |].
    unfold at_, SIZEOF_HEADER in *. lia.
  - rewrite <- (pc_zero _ _ Hc). eapply only_loadw; [exact Ho |]. intros y Hy. apply (Hoth (g_rt g) y); [done |].
    apply (rt_in_block _ _ Hc). unfold at_, arena_zero_block, SIZEOF_JSArenaState, SIZEOF_LIST_HEAD, JS_ARENA_BLOCK_SIZE_COUNT in *. lia.
  - intros j Hj. destruct (pc_all _ _ Hc j Hj) as (E1 & E2 & E3). split; [| split; [done | intros a Ha; by apply Hat, E3]].
    revert E1. apply dll_agree. intros a x Ha Hx. apply Ho, Hlk. by eapply all_ring_links.
  - intros j Hj. destruct (pc_part _ _ Hc j Hj) as (E1 & E2 & E3). split; [| split; [done | intros a Ha; by apply Hat, E3]].
    revert E1. apply dll_agree. intros a x Ha Hx. apply Ho, Hlk. by eapply part_ring_links.
Qed.

(** *** Pages come and go *)

Definition g_page (g : ghost) (ar i : Z) (f : page) : ghost :=
  {| g_rt := g_rt g; g_slabs := <[ar := {| sl_idx := i; sl_page := f |}]> (g_slabs g); g_larges := g_larges g;
     g_all := set_class (g_all g) i (ar :: g_all g i); g_part := g_part g |}.
Definition g_set_all (g : ghost) (i : Z) (l : list Z) : ghost :=
  {| g_rt := g_rt g; g_slabs := g_slabs g; g_larges := g_larges g; g_all := set_class (g_all g) i l; g_part := g_part g |}.
Definition g_forget (g : ghost) (ar : Z) : ghost :=
  {| g_rt := g_rt g; g_slabs := delete ar (g_slabs g); g_larges := g_larges g; g_all := g_all g; g_part := g_part g |}.

Section all_ring.
Context (s : pool) (g : ghost) (i ar : Z).
Hypothesis Hc : pcore s g.
Hypothesis Hi : class_ok i.
Hypothesis Hrt : ar <> g_rt g.
Hypothesis Hlg : ar ∉ g_larges g.
Hypothesis Hblk : exists c, bk_blocks (p_bk s) !! ar = Some c /\ slab_len i <= c.
Hypothesis Hcls : forall j f, slab_at g ar j f -> j = i.
Let as_ := p_arena_state s.
Let D := fun a => a = ar \/ is_Some (g_slabs g !! a).

Lemma all_pages : pages s g D.
Proof.
  intros a [-> | Ha]; [| by apply (slab_pages _ _ Hc)]. split; [done |]. split; [done |].
  destruct Hblk as (c & HB & L). exists c. split; [done |]. destruct (class_facts i Hi) as (C1 & _ & C2 & _).
  unfold slab_len, SIZEOF_JSArena in L. nia.
Qed.

Lemma all_nodes (l : list Z) :
  (forall a, a ∈ l -> a = ar \/ exists f, slab_at g a i f) ->
  let N := arena_list as_ i :: ((fun a => a + off_link) <$> l) in
  (forall a, a ∈ N -> node as_ D a) /\ nodes_ok N /\ (arena_list as_ i ∉ (fun a => a + off_link) <$> l) /\
  (forall j, class_ok j ->
    (j <> i -> forall a, a ∈ arena_list as_ j :: ((fun a => a + off_link) <$> g_all g j) -> a ∉ N) /\
    (forall a, a ∈ free_arena_list as_ j :: g_part g j -> a ∉ N)).
Proof.
  intros Hl N. pose proof all_pages as HD.
  assert (HlD : forall a, a ∈ l -> D a). { intros a Ha. destruct (Hl a Ha) as [-> | [f Hf]]; [by left | right; by eexists]. }
  assert (HN : forall a, a ∈ N -> node as_ D a).
  { intros a Ha. apply elem_of_cons in Ha as [-> | Ha]; [by constructor |].
    apply list_elem_of_fmap in Ha as (q & -> & Hq). apply node_link. auto. }
  split; [done |]. split; [| split].
  - apply (nodes_fine _ as_ (g_rt g) D (blocks_fine _ _ Hc) (pc_rt _ _ Hc) (pages_plain _ _ _ HD)). done.
  - intros Ha. apply list_elem_of_fmap in Ha as (q & E & Hq).
    destruct (page_not_head _ as_ (g_rt g) D (blocks_fine _ _ Hc) (pc_rt _ _ Hc) (pages_plain _ _ _ HD)
      q (arena_list as_ i)) as [_ ?]; [auto | exists i; tauto | done].
  - apply (all_only s g D Hc HD); [intros a Ha; by right | done |]. intros a Ha. apply elem_of_cons in Ha as [-> | Ha]; [by left |].
    right. apply list_elem_of_fmap in Ha as (q & -> & Hq). exists q. split; [done |]. split; [auto |].
    intros j Hj Hne Hin. apply (pc_all _ _ Hc j Hj) in Hin as [f Hf]. apply Hne.
    destruct (Hl q Hq) as [-> | [f' Hf']]; [by eapply Hcls | by eapply slab_class].
Qed.

Lemma core_all_set (l l' : list Z) g' m' :
  (forall a, a ∈ l -> a = ar \/ exists f, slab_at g a i f) ->
  only (in_nodes (arena_list as_ i :: ((fun a => a + off_link) <$> l))) (p_mem s) m' ->
  dll m' (arena_list as_ i) ((fun a => a + off_link) <$> l') -> NoDup l' ->
  g_rt g' = g_rt g -> g_larges g' = g_larges g -> g_part g' = g_part g -> g_all g' = set_class (g_all g) i l' ->
  (forall a, a ∈ l' -> exists f, slab_at g' a i f) ->
  (forall a j f, slab_at g' a j f -> slab_at g a j f \/ a = ar /\ j = i /\ slab_ok (p_mem s) ar i f) ->
  (forall j a f, j <> i -> slab_at g a j f -> slab_at g' a j f) ->
  (forall a, a ∈ g_part g i -> exists f, slab_at g' a i f) ->
  pcore (set_mem s m') g'.
Proof.
  intros Hl Ho Hd Hnd E1 E2 E3 E4 Hl' Hs' Hkeep Hpart. pose proof all_pages as HD.
  destruct (all_nodes l Hl) as (HN & _ & _ & Hoth).
  eapply (core_relink s g g' D _ m' Hc HD E1 E2); [| exact HN | exact Ho |].
  - intros a j f Hs. destruct (Hs' a j f Hs) as [Ha | (-> & -> & Hok)]; [| split; [by left | done]].
    destruct (pc_slab _ _ Hc _ _ _ Ha) as (F1 & F2 & F3 & F4). split; [right; by eexists | done].
  - split; intros j Hj; destruct (Hoth j Hj) as [O1 O2];
      destruct (other_rings s g D _ m' j Hc HD (fun _ H => or_intror H) HN Ho Hj) as [F1 F2].
    + rewrite E4. destruct (decide (j = i)) as [-> | Hne]; [by rewrite set_class_eq |]. rewrite set_class_ne by done.
      destruct (pc_all _ _ Hc j Hj) as (_ & F3 & F4). split; [by apply F1, O1 |]. split; [done |]. intros a Ha.
      apply F4 in Ha as [f Hf]. exists f. by apply Hkeep.
    + rewrite E3. destruct (pc_part _ _ Hc j Hj) as (_ & F3 & F4). split; [by apply F2 |]. split; [done |].
      intros a Ha. destruct (decide (j = i)) as [-> | Hne]; [by apply Hpart |]. apply F4 in Ha as [f Hf]. exists f. by apply Hkeep.
Qed.
End all_ring.

Lemma core_page_add s g ar i f :
  pcore s g -> class_ok i -> ar <> g_rt g -> ar ∉ g_larges g -> g_slabs g !! ar = None ->
  (exists c, bk_blocks (p_bk s) !! ar = Some c /\ slab_len i <= c) -> slab_ok (p_mem s) ar i f ->
  let m' := list_add (p_mem s) (ar + off_link) (arena_list (p_arena_state s) i) in
  pcore (set_mem s m') (g_page g ar i f) /\ only (fun x => links s g x \/ at_ ar 32 x) (p_mem s) m'.
Proof.
  intros Hc Hi Hrt Hlg Hns Hblk Hok m'. destruct (pc_all _ _ Hc i Hi) as (R & Hnd & HM).
  assert (Hcls : forall j h, slab_at g ar j h -> j = i) by (unfold slab_at; intros; congruence).
  assert (Hl : forall a, a ∈ ar :: g_all g i -> a = ar \/ exists f, slab_at g a i f).
  { intros a Ha. apply elem_of_cons in Ha as [-> | Ha]; [by left | right; by apply HM]. }
  assert (Hnew : ar ∉ g_all g i) by (intros Ha; apply HM in Ha as [h Hh]; unfold slab_at in Hh; congruence).
  assert (Hadd : NoDup (ar :: g_all g i)) by by apply NoDup_cons.
  destruct (all_nodes s g i ar Hc Hi Hrt Hlg Hblk Hcls _ Hl) as (HN & Hn & Hh & _).
  destruct (list_add_spec _ _ _ R (ar + off_link)) as [Hd Ho].
  { eapply nodes_ok_sub; [exact Hn | clear; set_solver]. }
  { assert (Hnd' : NoDup ((fun a => a + off_link) <$> ar :: g_all g i)) by (apply NoDup_fmap_2; [intros x y E; lia | done]).
    rewrite fmap_cons in Hnd', Hh. apply NoDup_cons in Hnd' as [Q1 Q2]. apply not_elem_of_cons in Hh as [Q3 Q4].
    apply NoDup_cons; split; [| by apply NoDup_cons]. clear -Q1 Q3. set_solver. }
  split.
  - apply (core_all_set s g i ar Hc Hi Hrt Hlg Hblk Hcls (ar :: g_all g i) (ar :: g_all g i)); try done.
    + eapply only_mono; [exact Ho |]. intros x Hx. eapply in_nodes_sub; [exact Hx | clear; set_solver].
    + intros a Ha. unfold slab_at, g_page. simpl. apply elem_of_cons in Ha as [-> | Ha]; [rewrite lookup_insert_eq; by eexists |].
      rewrite lookup_insert_ne by (intros ->; done). by apply HM.
    + intros a j h. unfold slab_at, g_page. simpl. destruct (decide (a = ar)) as [-> | Hne].
      * rewrite lookup_insert_eq. intros [= <- <-]. by right.
      * rewrite lookup_insert_ne by done. by left.
    + intros j a h Hne Ha. unfold slab_at, g_page in *. simpl. rewrite lookup_insert_ne by (intros ->; congruence). done.
    + intros a Ha. destruct (pc_part _ _ Hc i Hi) as (_ & _ & HP). apply HP in Ha as [h Ha']. exists h. unfold slab_at, g_page in *. simpl.
      rewrite lookup_insert_ne by (intros ->; congruence). done.
  - eapply only_mono; [exact Ho |]. intros x (a & Ha & Hx). apply elem_of_cons in Ha as [-> | Ha].
    + right. unfold at_, off_link, SIZEOF_LIST_HEAD in *. lia.
    + left. by eapply all_ring_links.
Qed.

Lemma core_all_del s g ar i f l1 l2 :
  pcore s g -> slab_at g ar i f -> g_all g i = l1 ++ ar :: l2 ->
  let m' := list_del (p_mem s) (ar + off_link) in
  pcore (set_mem s m') (g_set_all g i (l1 ++ l2)) /\ only (links s g) (p_mem s) m'.
Proof.
  intros Hc Hs El m'. destruct (pc_slab _ _ Hc _ _ _ Hs) as (Hi & Hrt & Hblk & _).
  destruct (slab_pages _ _ Hc ar) as (_ & Hlg & _); [by eexists |].
  destruct (pc_all _ _ Hc i Hi) as (R & Hnd & HM).
  assert (Hcls : forall j h, slab_at g ar j h -> j = i) by (intros j h Hj; by eapply slab_class).
  assert (Hl : forall a, a ∈ g_all g i -> a = ar \/ exists f, slab_at g a i f) by (intros a Ha; right; by apply HM).
  destruct (all_nodes s g i ar Hc Hi Hrt Hlg Hblk Hcls _ Hl) as (HN & Hn & Hh & _).
  destruct (list_del_spec _ _ _ R (ar + off_link) ((fun a => a + off_link) <$> l1) ((fun a => a + off_link) <$> l2)) as [Hd Ho].
  { by rewrite El, fmap_app. }
  { exact Hn. }
  { apply NoDup_cons. split; [done |]. apply NoDup_fmap_2; [intros x y E; lia | done]. }
  rewrite <- fmap_app in Hd. split.
  - apply (core_all_set s g i ar Hc Hi Hrt Hlg Hblk Hcls (g_all g i) (l1 ++ l2)); try done.
    + rewrite El in Hnd. by apply NoDup_drop_middle in Hnd as [_ Hnd].
    + intros a Ha. apply HM. rewrite El. clear -Ha. set_solver.
    + intros a j h Hh'. by left.
    + intros a Ha. destruct (pc_part _ _ Hc i Hi) as (_ & _ & HP). by apply HP.
  - eapply only_mono; [exact Ho |]. intros x (a & Ha & Hx). by eapply all_ring_links.
Qed.

(** A page on no ring is forgotten. *)
Lemma core_forget s g ar :
  pcore s g -> (forall i, class_ok i -> (ar ∉ g_all g i) /\ (ar ∉ g_part g i)) -> pcore s (g_forget g ar).
Proof.
  intros [H1 H2 H3 H4 H5 H6 H7] Hno.
  assert (Hat : forall a j h, slab_at (g_forget g ar) a j h -> slab_at g a j h).
  { intros a j h Ha. unfold slab_at, g_forget in Ha. simpl in Ha. by apply lookup_delete_Some in Ha as [_ ?]. }
  assert (Hat' : forall a j, a <> ar -> (exists h, slab_at g a j h) -> exists h, slab_at (g_forget g ar) a j h).
  { intros a j Hne [h Ha]. exists h. unfold slab_at, g_forget. simpl. by rewrite lookup_delete_ne. }
  split; try done.
  - intros a j h Ha. apply H3. by apply Hat.
  - intros b Hb. destruct (H4 b Hb) as (E1 & E2 & E3). split; [done |]. split; [| done]. simpl.
    destruct (decide (b = ar)) as [-> | Hne]; [apply lookup_delete_eq | by rewrite lookup_delete_ne].
  - intros i Hi. destruct (H6 i Hi) as (E1 & E2 & E3). split; [done |]. split; [done |]. intros a Ha.
    apply Hat'; [intros ->; by destruct (Hno i Hi) | by apply E3].
  - intros i Hi. destruct (H7 i Hi) as (E1 & E2 & E3). split; [done |]. split; [done |]. intros a Ha.
    apply Hat'; [intros ->; by destruct (Hno i Hi) | by apply E3].
Qed.
End updates.

(** * The small-block pool: one page

    The stores of the pool into a page's header and block headers, as steps of
    the page's free list: initialisation, taking the first free block, putting
    a block back, updating the count. *)

Lemma free_chain_ext m m' ar i f x :
  (forall k, k ∈ f -> loadw 2 m' (blk ar i k) = loadw 2 m (blk ar i k)) ->
  free_chain m ar i x f -> free_chain m' ar i x f.
Proof.
  revert x. induction f as [| k f IH]; intros x H; simpl; [done |]. intros [-> Hc]. split; [done |].
  rewrite H by set_solver. apply IH; [set_solver | done].
Qed.

Section page.
Context (m : mem) (ar i : Z).
Hypothesis Hi : class_ok i.

(** The bytes of [n_used_blocks], of [first_free_block], and of the header of
    block [k]. *)
Lemma meta_header n a : 0 <= a - (ar + off_ar_idx) -> a + Z.of_nat n <= ar + SIZEOF_JSArena ->
  forall v m0, only (slab_meta ar i) m0 (storew n m0 a v).
Proof.
  intros L1 L2 v m0. eapply only_mono; [apply only_storew |]. intros x Hx. left.
  unfold at_, off_ar_idx, SIZEOF_JSArena in *. lia.
Qed.

Lemma meta_block n k j : 0 <= k < nb i -> 0 <= j -> j + Z.of_nat n <= 3 ->
  forall v m0, only (slab_meta ar i) m0 (storew n m0 (blk ar i k + j) v).
Proof.
  intros Hk L1 L2 v m0. eapply only_mono; [apply only_storew |]. intros x Hx. right.
  exists k. split; [done |]. unfold at_ in *. lia.
Qed.

Lemma slab_ok_used f u :
  slab_ok m ar i f -> 0 <= u < 2 ^ 16 ->
  let m' := storew 2 m (ar + off_n_used) u in
  slab_ok m' ar i {| pg_free := pg_free f; pg_used := u |} /\ only (slab_meta ar i) m m'.
Proof.
  intros [H1 H2 H3 H4 H5 H6 H7 H8] Hu m'. destruct (class_facts i Hi) as (C1 & _).
  assert (Hb : forall n k j, 0 <= k < nb i -> 0 <= j -> loadw n m' (blk ar i k + j) = loadw n m (blk ar i k + j)).
  { intros n k j Hk L. destruct (blk_in ar i k Hi Hk). apply loadw_storew_out. unfold off_n_used, SIZEOF_JSArena in *. lia. }
  assert (Hb0 : forall k, 0 <= k < nb i -> loadw 2 m' (blk ar i k) = loadw 2 m (blk ar i k)).
  { intros k Hk. specialize (Hb 2%nat k 0 Hk ltac:(lia)). by rewrite Z.add_0_r in Hb. }
  split; [| apply meta_header; unfold off_n_used, off_ar_idx, SIZEOF_JSArena; lia].
  unfold m', off_ar_idx, off_n_blocks, off_n_used, off_first_free, off_size_idx in *.
  split; cbn [pg_free pg_used]; unfold off_ar_idx, off_n_blocks, off_n_used, off_first_free, off_size_idx; try done;
    try (rewrite loadw_storew_out by lia; done).
  - apply loadw_storew. simpl. lia.
  - rewrite loadw_storew_out by lia. eapply free_chain_ext; [| exact H4]. intros k Hk. by apply Hb0, H6.
  - intros k Hk. rewrite Hb by lia. by apply H7.
  - intros k Hk Hf. rewrite Hb0 by done. by apply H8.
Qed.

(** Rewrite [first_free_block] and the link of block [k]. *)
Lemma slab_ok_relink f f' k x y :
  slab_ok m ar i f -> 0 <= k < nb i -> 0 <= x < 2 ^ 16 -> 0 <= y < 2 ^ 16 ->
  let m' := storew 2 (storew 2 m (ar + off_first_free) x) (blk ar i k) y in
  NoDup f' -> (forall j, j ∈ f' -> 0 <= j < nb i) -> free_chain m' ar i x f' ->
  (forall j, 0 <= j < nb i -> j ∉ f' -> j <> k -> j ∉ pg_free f) -> (k ∉ f' -> y = k) ->
  slab_ok m' ar i {| pg_free := f'; pg_used := pg_used f |} /\ only (slab_meta ar i) m m'.
Proof.
  intros [H1 H2 H3 H4 H5 H6 H7 H8] Hk Hx Hy m' Hnd Hr Hch Hold Hyk. destruct (class_facts i Hi) as (C1 & _).
  destruct (blk_in ar i k Hi Hk) as [L1 L2]. unfold SIZEOF_JSArena in *.
  assert (Hh : forall n a, ar + off_ar_idx <= a -> a + Z.of_nat n <= ar + off_first_free -> loadw n m' a = loadw n m a).
  { intros n a A1 A2. unfold m', off_ar_idx, off_first_free in *. by rewrite !loadw_storew_out by lia. }
  assert (Hbk : forall j, 0 <= j < nb i -> j <> k -> blk ar i j + 16 <= blk ar i k \/ blk ar i k + 16 <= blk ar i j).
  { intros j Hj Hne. destruct (Z.lt_total j k) as [L | [E | L]]; [pose proof (blk_apart ar i j k Hi L) | done | pose proof (blk_apart ar i k j Hi L)]; lia. }
  assert (Hfst : loadw 2 m' (ar + off_first_free) = x).
  { unfold m', off_first_free. rewrite loadw_storew_out by lia. apply loadw_storew. simpl. lia. }
  split.
  - split; cbn [pg_free pg_used]; rewrite ?Hfst; try done;
      try (rewrite Hh by (unfold off_ar_idx, off_first_free, off_n_blocks, off_n_used; lia); done).
    + intros j Hj. destruct (blk_in ar i j Hi Hj). rewrite <- (H7 j Hj) at 2. unfold m', off_size_idx, off_first_free, SIZEOF_JSArena in *.
      assert (blk ar i j = blk ar i k \/ blk ar i j + 16 <= blk ar i k \/ blk ar i k + 16 <= blk ar i j).
      { destruct (decide (j = k)) as [-> | Hne]; [by left | right; by apply Hbk]. }
      by rewrite !loadw_storew_out by lia.
    + intros j Hj Hf. destruct (decide (j = k)) as [-> | Hne].
      * unfold m'. rewrite loadw_storew by (simpl; lia). by apply Hyk.
      * rewrite <- (H8 j Hj (Hold j Hj Hf Hne)) at 2. destruct (blk_in ar i j Hi Hj). unfold m', off_first_free, SIZEOF_JSArena in *.
        specialize (Hbk j Hj Hne). by rewrite !loadw_storew_out by lia.
  - unfold m'. apply only_trans with (storew 2 m (ar + off_first_free) x); [apply meta_header; unfold off_first_free, off_ar_idx, SIZEOF_JSArena; lia |].
    pose proof (meta_block 2 k 0 Hk ltac:(lia) ltac:(lia)) as Hm. rewrite Z.add_0_r in Hm. apply Hm.
Qed.

(** The head of a chain is a block number or NIL. *)
Lemma chain_head_range x f : free_chain m ar i x f -> (forall k, k ∈ f -> 0 <= k < nb i) -> 0 <= x < 2 ^ 16.
Proof.
  destruct (class_facts i Hi) as (_ & _ & ? & _).
  destruct f as [| k f]; simpl; [intros -> _; unfold JS_ARENA_FREE_NIL; lia |]. intros [-> _] H'. specialize (H' k ltac:(set_solver)). lia.
Qed.

Lemma block_load_out j k v m0 a :
  0 <= j < nb i -> 0 <= k < nb i -> j <> k -> a = ar + off_first_free ->
  loadw 2 (storew 2 (storew 2 m0 a v) (blk ar i k) k) (blk ar i j) = loadw 2 m0 (blk ar i j).
Proof.
  intros Hj Hk Hne ->. destruct (class_facts i Hi) as (C1 & _). destruct (blk_in ar i j Hi Hj) as [L _].
  unfold SIZEOF_JSArena, off_first_free in *.
  assert (blk ar i j + 16 <= blk ar i k \/ blk ar i k + 16 <= blk ar i j).
  { destruct (Z.lt_total j k) as [E | [E | E]]; [pose proof (blk_apart ar i j k Hi E) | done | pose proof (blk_apart ar i k j Hi E)]; lia. }
  by rewrite !loadw_storew_out by lia.
Qed.

(** Taking the first free block. *)
Lemma slab_ok_pop k f u :
  slab_ok m ar i {| pg_free := k :: f; pg_used := u |} ->
  let m' := storew 2 (storew 2 m (ar + off_first_free) (loadw 2 m (blk ar i k))) (blk ar i k) k in
  slab_ok m' ar i {| pg_free := f; pg_used := u |} /\ only (slab_meta ar i) m m'.
Proof.
  intros Hok m'. pose proof (so_range _ _ _ _ Hok) as Hr. pose proof (so_nodup _ _ _ _ Hok) as Hnd.
  pose proof (so_chain _ _ _ _ Hok) as [_ Hch]. cbn [pg_free] in *.
  assert (Hk : 0 <= k < nb i) by (apply Hr; set_solver). apply NoDup_cons in Hnd as [Hkf Hnd].
  assert (Hrf : forall j, j ∈ f -> 0 <= j < nb i) by (intros j Hj; apply Hr; set_solver).
  destruct (class_facts i Hi) as (_ & _ & C2 & _).
  eapply (slab_ok_relink {| pg_free := k :: f; pg_used := u |} f k); try done.
  - by eapply chain_head_range.
  - lia.
  - eapply free_chain_ext; [| exact Hch]. intros j Hj. apply block_load_out; auto. intros ->. done.
  - intros j Hj Hf Hne. cbn [pg_free]. clear -Hf Hne. set_solver.
Qed.

(** Putting block [k] back; the two stores come in the other order. *)
Lemma slab_ok_push k f u :
  slab_ok m ar i {| pg_free := f; pg_used := u |} -> 0 <= k < nb i -> k ∉ f ->
  let m' := storew 2 (storew 2 m (blk ar i k) (loadw 2 m (ar + off_first_free))) (ar + off_first_free) k in
  slab_ok m' ar i {| pg_free := k :: f; pg_used := u |} /\ only (slab_meta ar i) m m'.
Proof.
  intros Hok Hk Hkf m'. pose proof (so_range _ _ _ _ Hok) as Hr. pose proof (so_nodup _ _ _ _ Hok) as Hnd.
  pose proof (so_chain _ _ _ _ Hok) as Hch. cbn [pg_free] in *. destruct (class_facts i Hi) as (C1 & _ & C2 & _).
  pose proof (chain_head_range _ _ Hch Hr) as Hx. set (x := loadw 2 m (ar + off_first_free)) in *.
  assert (Hswap : forall a, load8 m' a = load8 (storew 2 (storew 2 m (ar + off_first_free) k) (blk ar i k) x) a).
  { intros a. unfold m', storew. rewrite !load8_store_bytes. unfold lenZ. rewrite !length_le_bytes.
    destruct (blk_in ar i k Hi Hk) as [L _]. unfold SIZEOF_JSArena, off_first_free in *. bool_lia. }
  set (m2 := storew 2 (storew 2 m (ar + off_first_free) k) (blk ar i k) x) in *.
  assert (Hw : forall n a, loadw n m' a = loadw n m2 a).
  { intros n a. unfold loadw. f_equal. apply load_bytes_ext. intros y _. apply Hswap. }
  assert (H2 : slab_ok m2 ar i {| pg_free := k :: f; pg_used := u |} /\ only (slab_meta ar i) m m2).
  { eapply (slab_ok_relink {| pg_free := f; pg_used := u |} (k :: f) k); try done; try lia.
    - by apply NoDup_cons.
    - intros j Hj. apply elem_of_cons in Hj as [-> | Hj]; auto.
    - split; [done |]. rewrite loadw_storew by (simpl; lia). eapply free_chain_ext; [| exact Hch].
      intros j Hj. fold m2. rewrite <- Hw. specialize (Hr j Hj). destruct (blk_in ar i j Hi Hr) as [L _].
      assert (Hne : j <> k) by (intros ->; done). unfold m', SIZEOF_JSArena, off_first_free in *.
      assert (blk ar i j + 16 <= blk ar i k \/ blk ar i k + 16 <= blk ar i j).
      { destruct (Z.lt_total j k) as [E | [E | E]]; [pose proof (blk_apart ar i j k Hi E) | done | pose proof (blk_apart ar i k j Hi E)]; lia. }
      by rewrite !loadw_storew_out by lia.
    - intros j Hj Hf Hne. cbn [pg_free]. clear -Hf. set_solver.
    - intros Hn. exfalso. apply Hn. set_solver. }
  destruct H2 as [[G1 G2 G3 G4 G5 G6 G7 G8] Ho]. split.
  - split; rewrite ?Hw; try done.
    + eapply free_chain_ext; [| exact G4]. intros j _. apply Hw.
    + intros j Hj. rewrite Hw. by apply G7.
    + intros j Hj Hf. rewrite Hw. by apply G8.
  - intros a Ha. rewrite Hswap. by apply Ho.
Qed.
End page.

(** ** A new page *)

Lemma link_blocks_spec k ar i j m :
  class_ok i -> 0 <= j -> j + Z.of_nat k <= nb i ->
  let m' := link_blocks k ar (block_size_of i) i j m in
  only (fun x => exists l, j <= l < j + Z.of_nat k /\ at_ (blk ar i l) 3 x) m m' /\
  forall l, j <= l < j + Z.of_nat k -> loadw 2 m' (blk ar i l) = l + 1 /\ loadw 1 m' (blk ar i l + off_size_idx) = i.
Proof.
  intros Hi. destruct (class_facts i Hi) as (C1 & _ & C2 & _).
  revert j m. induction k as [| k IH]; intros j m Hj Hle m'; [split; [done | lia] |].
  unfold m'. cbn [link_blocks]. rewrite get_block_eq by (done || lia).
  change (blk ar i j + off_block_idx) with (blk ar i j + 0). rewrite Z.add_0_r.
  set (m1 := storew 1 (storew 2 m (blk ar i j) (j + 1)) (blk ar i j + off_size_idx) i).
  destruct (IH (j + 1) m1 ltac:(lia) ltac:(lia)) as [Ho Hl].
  assert (H1 : only (at_ (blk ar i j) 3) m m1).
  { unfold m1, off_size_idx. apply only_trans with (storew 2 m (blk ar i j) (j + 1)); (eapply only_mono; [apply only_storew |]); unfold at_; lia. }
  assert (Hfar : forall l x, j + 1 <= l -> at_ (blk ar i l) 3 x -> ~ at_ (blk ar i j) 3 x).
  { intros l x Hl' Hx Hx'. pose proof (blk_apart ar i j l Hi ltac:(lia)). unfold at_ in *. lia. }
  split.
  - eapply only_mono; [eapply only_or; [exact H1 | exact Ho] |]. intros x [Hx | (l & Hl' & Hx)]; [exists j | exists l]; split; done || lia.
  - intros l Hl'. destruct (decide (l = j)) as [-> | Hne]; [| apply Hl; lia].
    assert (Hs : forall n a, blk ar i j <= a -> a + Z.of_nat n <= blk ar i j + 3 ->
                 loadw n (link_blocks k ar (block_size_of i) i (j + 1) m1) a = loadw n m1 a).
    { intros n a L1 L2. eapply only_loadw; [exact Ho |]. intros x Hx (l & Hl2 & Hx2). apply (Hfar l x); [lia | done |]. unfold at_ in *. lia. }
    unfold class_ok, JS_ARENA_BLOCK_SIZE_COUNT in Hi. rewrite !Hs by (unfold off_size_idx; lia). unfold m1, off_size_idx. split.
    + rewrite loadw_storew_out by lia. apply loadw_storew. simpl. lia.
    + apply loadw_storew. simpl. lia.
Qed.

Lemma chain_seq m ar i j :
  0 <= j <= nb i ->
  (forall l, 0 <= l < nb i - 1 -> loadw 2 m (blk ar i l) = l + 1) ->
  loadw 2 m (blk ar i (nb i - 1)) = JS_ARENA_FREE_NIL -> j < nb i ->
  free_chain m ar i j (seqZ j (nb i - j)).
Proof.
  intros Hj Hs Hlast. remember (Z.to_nat (nb i - 1 - j)) as n eqn:En. revert j Hj En.
  induction n as [| n IH]; intros j Hj En Hlt.
  - assert (j = nb i - 1) by lia. subst j. replace (nb i - (nb i - 1)) with 1 by lia.
    rewrite seqZ_cons by lia. simpl. split; [done |]. rewrite Hlast. done.
  - rewrite seqZ_cons by lia. simpl. split; [done |]. rewrite Hs by lia.
    replace (Z.pred (nb i - j)) with (nb i - (j + 1)) by lia. rewrite <- Z.add_1_r. apply IH; lia.
Qed.

(** The stores of [arena_new] up to the list operations. *)
Definition new_page_bytes (ar i : Z) (m : mem) : mem :=
  let m := storew 1 m (ar + off_ar_idx) i in
  let m := storew 2 m (ar + off_n_blocks) (nb i) in
  let m := storew 2 m (ar + off_n_used) 0 in
  let m := storew 2 m (ar + off_first_free) 0 in
  let m := link_blocks (Z.to_nat (nb i - 1)) ar (block_size_of i) i 0 m in
  let b := arena_get_block ar (nb i - 1) (block_size_of i) in
  storew 1 (storew 2 m (b + off_block_idx) JS_ARENA_FREE_NIL) (b + off_size_idx) i.

Lemma new_page_ok ar i m :
  class_ok i ->
  slab_ok (new_page_bytes ar i m) ar i {| pg_free := seqZ 0 (nb i); pg_used := 0 |} /\
  only (slab_meta ar i) m (new_page_bytes ar i m).
Proof.
  intros Hi. destruct (class_facts i Hi) as (C1 & _ & C2 & _). unfold new_page_bytes.
  set (m1 := storew 2 (storew 2 (storew 2 (storew 1 m _ _) _ _) _ _) _ _).
  destruct (link_blocks_spec (Z.to_nat (nb i - 1)) ar i 0 m1 Hi ltac:(lia) ltac:(lia)) as [Ho Hl].
  set (m2 := link_blocks _ _ _ _ _ _) in *. rewrite Z2Nat.id in Ho, Hl by lia.
  rewrite get_block_eq by (done || lia). set (b := blk ar i (nb i - 1)).
  change (b + off_block_idx) with (b + 0). rewrite Z.add_0_r.
  set (m3 := storew 1 (storew 2 m2 b JS_ARENA_FREE_NIL) (b + off_size_idx) i).
  assert (Hb : ar + SIZEOF_JSArena <= b) by (apply blk_in; [done | lia]).
  assert (O3 : only (at_ b 3) m2 m3).
  { unfold m3, off_size_idx. apply only_trans with (storew 2 m2 b JS_ARENA_FREE_NIL); (eapply only_mono; [apply only_storew |]); unfold at_; lia. }
  assert (Hhd : forall n a, a + Z.of_nat n <= ar + SIZEOF_JSArena -> loadw n m3 a = loadw n m1 a).
  { intros n a L. rewrite (only_loadw _ _ _ a n O3) by (unfold at_; lia). eapply only_loadw; [exact Ho |].
    intros x Hx (l & Hl' & Hx'). destruct (blk_in ar i l Hi ltac:(lia)). unfold at_ in *. lia. }
  assert (Hbk : forall n l j, 0 <= l < nb i - 1 -> 0 <= j -> j + Z.of_nat n <= 3 -> loadw n m3 (blk ar i l + j) = loadw n m2 (blk ar i l + j)).
  { intros n l j Hl' L1 L2. eapply only_loadw; [exact O3 |]. intros x Hx Hx'. pose proof (blk_apart ar i l (nb i - 1) Hi ltac:(lia)).
    unfold at_, b in *. lia. }
  assert (Hb2 : forall l, 0 <= l < nb i - 1 -> loadw 2 m3 (blk ar i l) = l + 1).
  { intros l Hl'. pose proof (Hbk 2%nat l 0 Hl' ltac:(lia) ltac:(lia)) as E. rewrite Z.add_0_r in E. rewrite E. apply Hl. lia. }
  assert (Hlast : loadw 2 m3 b = JS_ARENA_FREE_NIL).
  { unfold m3, off_size_idx. rewrite loadw_storew_out by lia. by apply loadw_storew. }
  assert (Hci : 0 <= i < 31) by exact Hi. unfold SIZEOF_JSArena in *. split.
  - split; cbn [pg_free pg_used]; unfold off_ar_idx, off_n_blocks, off_n_used, off_first_free in *; rewrite ?Hhd by lia;
      unfold m1, off_ar_idx, off_n_blocks, off_n_used, off_first_free; try (by apply NoDup_seqZ).
    + rewrite !loadw_storew_out by lia. apply loadw_storew. simpl. lia.
    + rewrite !loadw_storew_out by lia. apply loadw_storew. simpl. lia.
    + rewrite !loadw_storew_out by lia. by apply loadw_storew.
    + rewrite loadw_storew by (simpl; lia). pose proof (chain_seq m3 ar i 0 ltac:(lia) Hb2 Hlast ltac:(lia)) as H. by rewrite Z.sub_0_r in H.
    + intros k Hk. apply elem_of_seqZ in Hk. lia.
    + intros k Hk. destruct (decide (k = nb i - 1)) as [-> | Hne].
      * apply loadw_storew. simpl. lia.
      * unfold off_size_idx. rewrite Hbk by lia. apply Hl. lia.
    + intros k Hk Hf. exfalso. apply Hf. apply elem_of_seqZ. lia.
  - assert (O1 : only (slab_meta ar i) m m1).
    { unfold m1. do 3 (eapply only_trans; [| apply meta_header; unfold off_ar_idx, off_n_blocks, off_n_used, off_first_free, SIZEOF_JSArena; lia]).
      apply meta_header; unfold off_ar_idx, SIZEOF_JSArena; lia. }
    eapply only_trans; [exact O1 |]. eapply only_trans; (eapply only_mono; [first [exact Ho | exact O3] |]).
    + intros x (l & Hl' & Hx). right. exists l. split; [lia | done].
    + intros x Hx. right. exists (nb i - 1). split; [lia | done].
Qed.
