(* ===== verification/PoolSpecs.v ===== *)
(** * The small-block pool: what each function does

    Specifications of the pool's functions over the invariant: which blocks are
    live before and after, and that the engine's bytes of the others stay. *)

From stdpp Require Import base list numbers gmap.
From Stdlib Require Import ZArith Lia.
From S2P Require Import Prelude Memory StateRun ListHead Pool PoolInvariant PoolUpdates.

#[local] Open Scope st_scope.
#[local] Open Scope Z_scope.

Section specs.
Context `{BL : BackingLaws}.

(** ** Outcomes *)

(** The fields the pool does not touch. *)
Definition same_rest (s s' : pool) : Prop :=
  p_arena_state s' = p_arena_state s /\ p_is_arena s' = p_is_arena s /\ p_ms s' = p_ms s.

(** The engine's bytes of the live blocks in [P] are kept. *)
Definition kept (P : Z -> Prop) (s : pool) (g : ghost) (s' : pool) : Prop :=
  forall p c k x, live s g p c k -> P p -> user p c x -> load8 (p_mem s') x = load8 (p_mem s) x.

Definition everything (p : Z) : Prop := True.

(** An intermediate step: the same blocks are live, with the same contents. *)
Record steady (s : pool) (g : ghost) (s' : pool) (g' : ghost) : Prop := {
  sd_core : pcore s' g';
  sd_rest : same_rest s s';
  sd_live : forall p c k, live s' g' p c k <-> live s g p c k;
  sd_kept : kept everything s g s'
}.

(** A new block [p] of capacity [c]. *)
Record grown (s : pool) (g : ghost) (s' : pool) (g' : ghost) (p c : Z) (k : bool) : Prop := {
  gr_core : pcore s' g';
  gr_rest : same_rest s s';
  gr_live : forall q d l, live s' g' q d l <-> live s g q d l \/ (q = p /\ d = c /\ l = k);
  gr_new : forall d l, ~ live s g p d l;
  gr_kept : kept everything s g s'
}.

(** The block [p] is gone. *)
Record shrunk (s : pool) (g : ghost) (s' : pool) (g' : ghost) (p : Z) : Prop := {
  sh_core : pcore s' g';
  sh_rest : same_rest s s';
  sh_live : forall q d l, live s' g' q d l <-> live s g q d l /\ q <> p;
  sh_kept : kept (fun q => q <> p) s g s'
}.

Lemma same_rest_refl s : same_rest s s.
Proof. done. Qed.
Lemma same_rest_trans s1 s2 s3 : same_rest s1 s2 -> same_rest s2 s3 -> same_rest s1 s3.
Proof. unfold same_rest. intros (? & ? & ?) (? & ? & ?). repeat split; congruence. Qed.

Lemma steady_refl s g : pcore s g -> steady s g s g.
Proof. intros H. by split. Qed.

Lemma steady_trans s1 g1 s2 g2 s3 g3 : steady s1 g1 s2 g2 -> steady s2 g2 s3 g3 -> steady s1 g1 s3 g3.
Proof.
  intros [A1 A2 A3 A4] [B1 B2 B3 B4]. split; [done | by eapply same_rest_trans | intros; by rewrite B3 |].
  intros p c k x Hl _ Hu. rewrite (B4 p c k x); [| by apply A3 | done | done]. by eapply A4.
Qed.

Lemma steady_grown s1 g1 s2 g2 s3 g3 p c k :
  steady s1 g1 s2 g2 -> grown s2 g2 s3 g3 p c k -> grown s1 g1 s3 g3 p c k.
Proof.
  intros [A1 A2 A3 A4] [B1 B2 B3 B4 B5]. split; [done | by eapply same_rest_trans | intros; by rewrite B3, A3 | intros d l; rewrite <- A3; apply B4 |].
  intros q d l x Hl _ Hu. rewrite (B5 q d l x); [| by apply A3 | done | done]. by eapply A4.
Qed.

Lemma grown_steady s1 g1 s2 g2 s3 g3 p c k :
  grown s1 g1 s2 g2 p c k -> steady s2 g2 s3 g3 -> grown s1 g1 s3 g3 p c k.
Proof.
  intros [A1 A2 A3 A4 A5] [B1 B2 B3 B4]. split; [done | by eapply same_rest_trans | intros; by rewrite B3, A3 | done |].
  intros q d l x Hl _ Hu. rewrite (B4 q d l x); [| apply A3; by left | done | done]. by eapply A5.
Qed.

Lemma shrunk_steady s1 g1 s2 g2 s3 g3 p :
  shrunk s1 g1 s2 g2 p -> steady s2 g2 s3 g3 -> shrunk s1 g1 s3 g3 p.
Proof.
  intros [A1 A2 A3 A4] [B1 B2 B3 B4]. split; [done | by eapply same_rest_trans | intros; by rewrite B3, A3 |].
  intros q d l x Hl Hq Hu. rewrite (B4 q d l x); [| by apply A3 | done | done]. by eapply A4.
Qed.

Lemma steady_shrunk s1 g1 s2 g2 s3 g3 p :
  steady s1 g1 s2 g2 -> shrunk s2 g2 s3 g3 p -> shrunk s1 g1 s3 g3 p.
Proof.
  intros [A1 A2 A3 A4] [B1 B2 B3 B4]. split; [done | by eapply same_rest_trans | intros; by rewrite B3, A3 |].
  intros q d l x Hl Hq Hu. rewrite (B4 q d l x); [| by apply A3 | done | done]. by eapply A4.
Qed.

(** Writes to the pool's own bytes. *)
Lemma kept_meta s g m' : pcore s g -> only (meta s g) (p_mem s) m' -> kept everything s g (set_mem s m').
Proof. intros Hc Ho p c k x Hl _ Hu. apply Ho. by eapply user_not_meta. Qed.

(** Liveness reads the pages, the large blocks and their capacities. *)
Lemma live_ext s g s' g' :
  (forall ar i f, slab_at g' ar i f <-> slab_at g ar i f) -> (forall b, b ∈ g_larges g' <-> b ∈ g_larges g) ->
  (forall b, b ∈ g_larges g -> bk_blocks (p_bk s') !! b = bk_blocks (p_bk s) !! b) ->
  forall p c k, live s' g' p c k <-> live s g p c k.
Proof.
  intros H1 H2 H3 p c k. split; intros [ar i f j Hs Hj Hf | b d Hb HB].
  - apply live_pooled with f; [by apply H1 | done | done].
  - apply live_large; [by apply H2 | rewrite <- H3; [done | by apply H2]].
  - apply live_pooled with f; [by apply H1 | done | done].
  - apply live_large; [by apply H2 | by rewrite H3].
Qed.

Lemma steady_links s g g' m' :
  pcore (set_mem s m') g' -> pcore s g -> (forall ar i f, slab_at g' ar i f <-> slab_at g ar i f) -> g_larges g' = g_larges g ->
  only (links s g) (p_mem s) m' -> steady s g (set_mem s m') g'.
Proof.
  intros Hc' Hc H1 H2 Ho. split; [done | done | |].
  - apply live_ext; [done | by rewrite H2 | done].
  - apply kept_meta; [done |]. eapply only_mono; [exact Ho |]. intros x Hx. by left.
Qed.

(** ** The backing calls *)

(** The blocks the pool holds. *)
Definition held (g : ghost) (p : Z) : Prop := p = g_rt g \/ is_Some (g_slabs g !! p) \/ p ∈ g_larges g.

Lemma held_block s g p : pcore s g -> held g p -> is_Some (bk_blocks (p_bk s) !! p).
Proof.
  intros Hc [-> | [[[i f] Hs] | Hb]].
  - destruct (pc_rt _ _ Hc) as (c & H & _). by eexists.
  - destruct (pc_slab _ _ Hc _ _ _ Hs) as (_ & _ & (c & H & _) & _). by eexists.
  - destruct (pc_large _ _ Hc _ Hb) as (_ & _ & (c & H & _) & _). by eexists.
Qed.

Lemma in_block_delete B p q x : q <> p -> in_block B q x -> in_blocks (delete p B) x.
Proof. intros Hne (c & Hq & Hx). exists q, c. by rewrite lookup_delete_ne. Qed.

(** A backing call that leaves all blocks but [q] alone, which the pool does
    not hold. *)
Lemma backing_steady s g q b m' :
  pcore s g -> bk_inv b m' -> ~ held g q -> keeps (delete q (bk_blocks (p_bk s))) (p_mem s) m' ->
  (forall p, held g p -> bk_blocks b !! p = bk_blocks (p_bk s) !! p) ->
  steady s g (set_back s b m') g.
Proof.
  intros Hc Hi Hq Hk Hb.
  assert (Hkp : forall p x, held g p -> in_block (bk_blocks (p_bk s)) p x -> load8 m' x = load8 (p_mem s) x).
  { intros p x Hp Hx. apply Hk. eapply in_block_delete; [| exact Hx]. intros ->. done. }
  split; [| done | |].
  - apply pcore_agree; [done | done | done |]. intros x Hx.
    apply (meta_owner _ _ Hc) in Hx as [[H _] | [(ar & i & f & Hs & H & _) | (c & Hl & H & _)]]; (eapply Hkp; [| exact H]).
    + by left.
    + right. left. by eexists.
    + right. by right.
  - apply live_ext; [done | done |]. intros p Hp. apply Hb. right. by right.
  - intros p c k x Hl _ Hu.
    assert (He : extent p c x) by (unfold extent, user, at_, SIZEOF_HEADER in *; lia).
    apply (live_owner _ _ Hc) in Hl as [(ar & i & f & j & Hs & _ & _ & _ & _ & _ & Ho) | (r & Hr & _ & _ & _ & Ho)];
      (eapply Hkp; [| by apply Ho]); [right; left; by eexists | right; by right].
Qed.

(** In this state a request of at most [n] bytes is refused by the backing
    allocator. *)
Definition refuses (b : bst) (m : mem) (n : Z) : Prop := exists k, 0 < k <= n /\
  (fst (fst (bk_malloc b m k)) = 0 \/ fst (fst (bk_calloc b m 1 k)) = 0 \/
   exists p, is_Some (bk_blocks b !! p) /\ fst (fst (bk_realloc b m p k)) = 0).
Definition backing_refuses (s : pool) (n : Z) : Prop := refuses (p_bk s) (p_mem s) n.

(** The most a call for [n] bytes asks of it: a page, or [n] with a header. *)
Definition asked (n : Z) : Z := Z.max JS_ARENA_SIZE (SIZEOF_HEADER + n).

Lemma refuses_mono b m n n' : refuses b m n -> n <= n' -> refuses b m n'.
Proof. intros (k & Hk & H) Hn. exists k. split; [lia | done]. Qed.

(** A block the backing allocator just handed out is nothing of the pool's. *)
Definition fresh_block (s : pool) (g : ghost) (s' : pool) (p n : Z) : Prop :=
  p <> 0 /\ ~ held g p /\ bk_blocks (p_bk s) !! p = None /\ exists c, bk_blocks (p_bk s') !! p = Some c /\ n <= c.

Lemma backing_grant s g n q b m' :
  pcore s g -> bk_inv b m' -> keeps (bk_blocks (p_bk s)) (p_mem s) m' ->
  (q = 0 /\ bk_blocks b = bk_blocks (p_bk s) \/
   exists c, n <= c /\ bk_blocks (p_bk s) !! q = None /\ bk_blocks b = <[q := c]> (bk_blocks (p_bk s))) ->
  steady s g (set_back s b m') g /\ (q = 0 \/ fresh_block s g (set_back s b m') q n).
Proof.
  intros Hc Hi Hk Hb.
  assert (Hnone : bk_blocks (p_bk s) !! q = None).
  { destruct Hb as [[-> _] | (c & _ & H & _)]; [| done]. destruct (bk_blocks (p_bk s) !! 0) as [c |] eqn:E; [| done].
    destruct (bo_block _ (blocks_fine _ _ Hc) _ _ E). lia. }
  assert (Hnh : ~ held g q). { intros Hh. destruct (held_block _ _ _ Hc Hh). congruence. }
  split.
  - apply (backing_steady s g q); [done | done | done | |].
    + rewrite delete_id by done. done.
    + intros p Hp. destruct Hb as [[_ ->] | (c & _ & _ & ->)]; [done |]. apply lookup_insert_ne. intros ->. done.
  - destruct Hb as [[-> _] | (c & L & _ & Hb)]; [by left |]. right.
    assert (Hq : bk_blocks b !! q = Some c) by (rewrite Hb; apply lookup_insert_eq).
    destruct (bo_block _ (bk_geometry _ _ Hi) _ _ Hq) as (H0 & _). split; [lia |]. split; [done |]. split; [done |]. by exists c.
Qed.

Lemma mf_malloc_spec s g n :
  pcore s g -> 0 < n < 2 ^ 62 ->
  swp (mf_malloc n) (fun p s' => steady s g s' g /\ (p = 0 /\ backing_refuses s n \/ fresh_block s g s' p n)) s.
Proof.
  intros Hc Hn. unfold mf_malloc. apply swp_call. intros p s'.
  destruct (bk_malloc (p_bk s) (p_mem s) n) as [[q b] m'] eqn:E. intros [= <- <-].
  destruct (bk_malloc_law _ _ _ _ _ _ (pc_bk _ _ Hc) Hn E) as (Hi & Hk & Hb).
  destruct (backing_grant s g n q b m' Hc Hi Hk Hb) as [H1 [-> | H2]]; (split; [done |]); [left | by right].
  split; [done |]. exists n. rewrite E. split; [lia |]. by left.
Qed.

Lemma mf_calloc_spec s g n :
  pcore s g -> 0 < n < 2 ^ 62 ->
  swp (mf_calloc 1 n) (fun p s' => steady s g s' g /\
    (p = 0 /\ backing_refuses s n \/ fresh_block s g s' p n /\ forall x, at_ p n x -> load8 (p_mem s') x = 0)) s.
Proof.
  intros Hc Hn. unfold mf_calloc. apply swp_call. intros p s'.
  destruct (bk_calloc (p_bk s) (p_mem s) 1 n) as [[q b] m'] eqn:E. intros [= <- <-].
  destruct (bk_calloc_law _ _ _ _ _ _ (pc_bk _ _ Hc) Hn E) as (Hi & Hk & Hb).
  destruct (backing_grant s g n q b m' Hc Hi Hk) as [H1 H2].
  { destruct Hb as [? | [_ ?]]; [by left | by right]. }
  split; [done |]. destruct H2 as [-> | H2].
  { left. split; [done |]. exists n. rewrite E. split; [lia |]. right. by left. }
  right. split; [done |].
  destruct Hb as [[-> _] | [Hz _]]; [by destruct H2 | done].
Qed.

Lemma mf_free_spec s g p :
  pcore s g -> ~ held g p -> is_Some (bk_blocks (p_bk s) !! p) ->
  swp (mf_free p) (fun _ s' => steady s g s' g) s.
Proof.
  intros Hc Hn Hs. unfold mf_free. apply swp_call. intros [] s'.
  destruct (bk_free (p_bk s) (p_mem s) p) as [b m'] eqn:E. intros [= <-].
  destruct (bk_free_law _ _ _ _ _ (pc_bk _ _ Hc) Hs E) as (Hi & Hb & Hk). rewrite Hb in Hk.
  apply (backing_steady s g p); [done | done | done | done |]. intros q Hq. rewrite Hb.
  apply lookup_delete_ne. intros ->. done.
Qed.

(** ** Pages *)

(** The settled page [ar]. *)
Definition settled_at (g : ghost) (ar : Z) : Prop := forall i f, slab_at g ar i f ->
  ar ∈ g_all g i /\ (ar ∈ g_part g i <-> pg_free f <> []) /\ pg_used f = nb i - lenZ (pg_free f) /\ 0 < pg_used f.

Lemma settled_all g : settled g <-> forall ar, settled_at g ar.
Proof. unfold settled, settled_at. split; eauto. Qed.

(** Writes into a block that is not the pool's yet. *)
Lemma fresh_writes s g q m' :
  pcore s g -> ~ held g q -> only (in_block (bk_blocks (p_bk s)) q) (p_mem s) m' -> steady s g (set_mem s m') g.
Proof.
  intros Hc Hq Ho. apply (backing_steady s g q (p_bk s) m'); [done | | done | | done].
  - eapply bk_client_writes; [apply Hc |]. eapply only_mono; [exact Ho |]. intros x Hx. by exists q.
  - intros x (p & c & Hp & Hx). apply Ho. intros Hx'. apply lookup_delete_Some in Hp as [Hne Hp]. apply Hne.
    eapply (same_block _ _ Hc); [exact Hx' |]. by exists c.
Qed.

Lemma slab_len_pos i : class_ok i -> 0 < slab_len i < 2 ^ 62 /\ 32 <= slab_len i.
Proof.
  intros Hi. destruct (class_facts i Hi) as (C1 & _ & C2 & C3). unfold slab_len, SIZEOF_JSArena, JS_ARENA_SIZE in *. nia.
Qed.

(** A page all of whose blocks are free. *)
Definition blank_page (i : Z) : page := {| pg_free := seqZ 0 (nb i); pg_used := 0 |}.

Lemma add_page s g ar i :
  pcore s g -> class_ok i -> ~ held g ar -> (exists c, bk_blocks (p_bk s) !! ar = Some c /\ slab_len i <= c) ->
  slab_ok (p_mem s) ar i (blank_page i) ->
  let m1 := list_add (p_mem s) (ar + off_link) (arena_list (p_arena_state s) i) in
  let m2 := list_add m1 ar (free_arena_list (p_arena_state s) i) in
  let g' := g_set_part (g_page g ar i (blank_page i)) i (ar :: g_part g i) in
  steady s g (set_mem s m2) g'.
Proof.
  intros Hc Hi Hnh Hblk Hok m1 m2 g'.
  assert (Hns : g_slabs g !! ar = None).
  { destruct (g_slabs g !! ar) eqn:E; [| done]. exfalso. apply Hnh. right. left. by eexists. }
  destruct (core_page_add s g ar i (blank_page i)) as [Hc1 Ho1]; try done.
  { intros ->. apply Hnh. by left. }
  { intros H. apply Hnh. right. by right. }
  fold m1 in Hc1, Ho1. set (g1 := g_page g ar i (blank_page i)) in *.
  assert (Hs1 : slab_at g1 ar i (blank_page i)) by apply lookup_insert_eq.
  destruct (core_part_add (set_mem s m1) g1 i Hc1 Hi ar _ Hs1) as [Hc2 Ho2].
  { intros Ha. destruct (pc_part _ _ Hc i Hi) as (_ & _ & HP). destruct (HP ar Ha) as [f Hf]. unfold slab_at in Hf. congruence. }
  assert (S1 : steady s g (set_mem s m1) g1).
  { split; [done | done | |].
    - intros p c k. split; intros [a j f l Ha Hl Hf | b d Hb HB].
      + unfold slab_at, g1, g_page in Ha. simpl in Ha. destruct (decide (a = ar)) as [-> | Hne].
        * rewrite lookup_insert_eq in Ha. injection Ha as <- <-. exfalso. apply Hf, elem_of_seqZ. lia.
        * rewrite lookup_insert_ne in Ha by done. by apply live_pooled with f.
      + by apply live_large.
      + apply live_pooled with f; [| done | done]. unfold slab_at, g1, g_page in *. simpl. rewrite lookup_insert_ne; [done |]. intros ->. congruence.
      + by apply live_large.
    - intros p c k x Hl _ Hu. apply Ho1. intros [Hx | Hx]; [eapply (user_not_meta s g Hc _ _ _ _ Hl Hu); by left |].
      destruct Hblk as (c' & HB & L). pose proof (slab_len_pos i Hi) as [_ L2].
      assert (Hx' : in_block (bk_blocks (p_bk s)) ar x) by (exists c'; split; [done | unfold at_ in *; lia]).
      assert (He : extent p c x) by (unfold extent, user, at_, SIZEOF_HEADER in *; lia).
      apply (live_owner _ _ Hc) in Hl as [(a & j & f & l & Hs & _ & _ & _ & _ & _ & Ho) | (b & Hb & _ & _ & _ & Ho)];
        specialize (Ho x He); pose proof (same_block _ _ Hc _ _ _ Ho Hx'); subst; apply Hnh; [right; left; by eexists | right; by right]. }
  eapply steady_trans; [exact S1 |]. by apply (steady_links (set_mem s m1) g1 g' m2).
Qed.

Lemma arena_new_spec s g i :
  pcore s g -> settled g -> class_ok i ->
  swp (arena_new i) (fun ar s' =>
    (ar = 0 /\ backing_refuses s JS_ARENA_SIZE /\ steady s g s' g) \/
    (ar <> 0 /\ exists g', steady s g s' g' /\ slab_at g' ar i (blank_page i) /\ (ar ∈ g_part g' i /\ ar ∈ g_all g' i) /\
       forall a, a <> ar -> settled_at g' a)) s.
Proof.
  intros Hc Hst Hi. unfold arena_new. pose proof (slab_len_pos i Hi) as [L1 L2]. apply swp_bind.
  eapply swp_mono; [apply (mf_malloc_spec s g); [done | exact L1] |]. intros ar s1 [St1 Hfr].
  destruct (Z.eqb_spec ar 0) as [-> | H0].
  { apply swp_ret. left. destruct Hfr as [[_ Hr] | [? _]]; [| done]. split; [done |]. split; [| done].
    eapply refuses_mono; [exact Hr |]. by destruct (class_facts i Hi) as (_ & _ & _ & ?). }
  destruct Hfr as [[? _] | (_ & Hnh & _ & (c & HB & L))]; [done |]. change (slab_len i <= c) in L.
  unfold pst, pmod. swp_steps. right. split; [done |].
  pose proof (sd_core _ _ _ _ St1) as Hc1. cbn [p_mem p_arena_state set_mem].
  destruct (new_page_ok ar i (p_mem s1) Hi) as [Hok Ho].
  assert (St2 : steady s1 g (set_mem s1 (new_page_bytes ar i (p_mem s1))) g).
  { apply (fresh_writes s1 g ar); [done | done |]. eapply only_mono; [exact Ho |]. intros x Hx. exists c. split; [done |].
    assert (Hin : at_ ar (slab_len i) x).
    { destruct Hx as [Hx | (k & Hk & Hx)]; [destruct (class_facts i Hi) as (C1 & _ & C2 & _); unfold at_, off_ar_idx, slab_len, SIZEOF_JSArena in *; nia |].
      destruct (blk_in ar i k Hi Hk). destruct (class_facts i Hi) as (C1 & _). unfold at_, SIZEOF_JSArena in *. lia. }
    unfold at_ in *. lia. }
  exists (g_set_part (g_page g ar i (blank_page i)) i (ar :: g_part g i)). split; [| split; [| split]].
  - eapply steady_trans; [exact St1 |]. eapply steady_trans; [exact St2 |].
    apply (add_page _ g ar i (sd_core _ _ _ _ St2) Hi Hnh); [by exists c | exact Hok].
  - apply lookup_insert_eq.
  - simpl. rewrite !set_class_eq. split; apply list_elem_of_here.
  - intros a Ha j f Hf. unfold slab_at in Hf. simpl in Hf. rewrite lookup_insert_ne in Hf by done.
    destruct (Hst a j f Hf) as (E0 & E1 & E2). rewrite <- E1. simpl. destruct (decide (j = i)) as [-> | Hne].
    + rewrite !set_class_eq, !elem_of_cons. tauto.
    + by rewrite !set_class_ne.
Qed.

(** Some page with a free block, with the count it has. *)
Definition has_free (g : ghost) (ar i k : Z) (f : list Z) (u : Z) : Prop :=
  slab_at g ar i {| pg_free := k :: f; pg_used := u |} /\ (ar ∈ g_part g i /\ ar ∈ g_all g i) /\ u = nb i - 1 - lenZ f /\ 0 <= u.

Lemma arena_for_spec s g i :
  pcore s g -> settled g -> class_ok i ->
  swp (arena_for i) (fun ar s' =>
    (ar = 0 /\ backing_refuses s JS_ARENA_SIZE /\ steady s g s' g) \/
    (ar <> 0 /\ exists g' k f u, steady s g s' g' /\ has_free g' ar i k f u /\ forall a, a <> ar -> settled_at g' a)) s.
Proof.
  intros Hc Hst Hi. unfold arena_for, pld. swp_steps. set (h := free_arena_list (p_arena_state s) i).
  destruct (pc_part _ _ Hc i Hi) as (R & Hnd & HM). fold h in R. pose proof (list_first_spec _ _ _ R) as E.
  change (loadw 8 (p_mem s) (h + 8)) with (lh_next (p_mem s) h). rewrite E.
  destruct (part_nodes s g i Hc Hi _ HM) as [_ Hh]. fold h in Hh.
  destruct (g_part g i) as [| ar l] eqn:El; simpl.
  - rewrite Z.eqb_refl. eapply swp_mono; [by apply (arena_new_spec s g i) |]. intros ar s' [H | (H0 & g' & H1 & H2 & H3 & H4)]; [by left |].
    right. split; [done |]. destruct (class_facts i Hi) as (_ & _ & C2 & _).
    exists g', 0, (seqZ 1 (nb i - 1)), 0. split; [done |]. split; [| done]. split; [| split; [done |]].
    + unfold blank_page in H2. rewrite seqZ_cons in H2 by lia. exact H2.
    + unfold lenZ. rewrite length_seqZ. lia.
  - destruct (Z.eqb_spec ar h) as [-> | Hne]; [exfalso; apply Hh; apply list_elem_of_here |]. apply swp_ret. right.
    destruct (HM ar ltac:(apply list_elem_of_here)) as [[f u] Hf]. pose proof (slab_facts _ _ Hc _ _ _ Hf) as (_ & Hp & _).
    split; [lia |]. destruct (Hst ar i _ Hf) as (E0 & E1 & E2 & E3). cbn [pg_free pg_used] in *.
    destruct f as [| k f]; [exfalso; apply (proj1 E1); [rewrite El; apply list_elem_of_here | done] |].
    exists g, k, f, u. split; [by apply steady_refl |]. split.
    + split; [done |]. split; [rewrite El; split; [apply list_elem_of_here | done] |]. unfold lenZ in *. simpl in E2. lia.
    + intros a _. by apply settled_all.
Qed.

(** ** Taking and putting back a block *)

Lemma slab_at_upd g ar i f a j h :
  slab_at (g_upd g ar i f) a j h <-> (a = ar /\ j = i /\ h = f) \/ (a <> ar /\ slab_at g a j h).
Proof.
  unfold slab_at, g_upd. simpl. destruct (decide (a = ar)) as [-> | Hne].
  - rewrite lookup_insert_eq. split; [intros [= -> ->]; by left | intros [(_ & -> & ->) | [? _]]; done].
  - rewrite lookup_insert_ne by done. split; [intros H; by right | intros [[? _] | [_ ?]]; done].
Qed.

Lemma live_take s g s' ar i k f u u' :
  bk_blocks (p_bk s') = bk_blocks (p_bk s) ->
  slab_at g ar i {| pg_free := k :: f; pg_used := u |} -> 0 <= k < nb i -> k ∉ f ->
  forall q d l, live s' (g_upd g ar i {| pg_free := f; pg_used := u' |}) q d l <->
    live s g q d l \/ (q = blk ar i k + SIZEOF_HEADER /\ d = block_size_of i - SIZEOF_HEADER /\ l = true).
Proof.
  intros EB Hs Hk Hf q d l. split.
  - intros [a j h x Ha Hx Hn | b c Hb HB]; [| left; apply live_large; [done | by rewrite <- EB]].
    apply slab_at_upd in Ha as [(-> & -> & ->) | [Hne Ha]]; [| left; by apply live_pooled with h].
    cbn [pg_free] in Hn. destruct (decide (x = k)) as [-> | Hxk]; [by right |]. left. apply live_pooled with (1 := Hs); [done |].
    cbn [pg_free]. by apply not_elem_of_cons.
  - intros [[a j h x Ha Hx Hn | b c Hb HB] | (-> & -> & ->)].
    + destruct (decide (a = ar)) as [-> | Hne].
      * unfold slab_at in *. rewrite Hs in Ha. injection Ha as <- <-. cbn [pg_free] in Hn. apply not_elem_of_cons in Hn as [_ Hn].
        apply live_pooled with {| pg_free := f; pg_used := u' |}; [| done | done]. apply slab_at_upd. by left.
      * apply live_pooled with h; [| done | done]. apply slab_at_upd. by right.
    + apply live_large; [done | by rewrite EB].
    + apply live_pooled with {| pg_free := f; pg_used := u' |}; [| done | done]. apply slab_at_upd. by left.
Qed.

Lemma only_slab_meta s g ar i f m' :
  pcore s g -> slab_at g ar i f -> only (slab_meta ar i) (p_mem s) m' -> kept everything s g (set_mem s m').
Proof.
  intros Hc Hs Ho. apply kept_meta; [done |]. eapply only_mono; [exact Ho |]. intros x Hx. right. right. left. eauto.
Qed.

Lemma off0 x : x + off_block_idx = x.
Proof. unfold off_block_idx. lia. Qed.

(** The bytes of a page after its first free block is taken. *)
Lemma take_bytes m ar i k f u :
  class_ok i -> slab_ok m ar i {| pg_free := k :: f; pg_used := u |} -> 0 <= u < nb i ->
  let m1 := storew 2 (storew 2 m (ar + off_first_free) (loadw 2 m (blk ar i k))) (blk ar i k) k in
  let m2 := storew 2 m1 (ar + off_n_used) (loadw 2 m1 (ar + off_n_used) + 1) in
  loadw 2 m (ar + off_first_free) = k /\ loadw 2 m2 (ar + off_n_used) = u + 1 /\ loadw 2 m2 (ar + off_n_blocks) = nb i /\
  slab_ok m2 ar i {| pg_free := f; pg_used := u + 1 |} /\ only (slab_meta ar i) m m2.
Proof.
  intros Hi Hok Hu m1 m2. destruct (class_facts i Hi) as (_ & _ & C2 & _).
  destruct (slab_ok_pop m ar i Hi k f u Hok) as [Hok1 Ho1]. fold m1 in Hok1, Ho1.
  pose proof (so_used _ _ _ _ Hok1) as Eu. cbn [pg_used] in Eu. unfold m2 in *. rewrite Eu.
  destruct (slab_ok_used m1 ar i Hi _ (u + 1) Hok1 ltac:(lia)) as [Hok2 Ho2]. cbn [pg_free] in Hok2.
  split; [by destruct (so_chain _ _ _ _ Hok) |]. split; [by rewrite (so_used _ _ _ _ Hok2) |].
  split; [by rewrite (so_n _ _ _ _ Hok2) |]. split; [done |]. by eapply only_trans.
Qed.

Lemma settled_others g g' ar :
  (forall a, a <> ar -> settled_at g a) -> (forall a j f, a <> ar -> slab_at g' a j f -> slab_at g a j f) ->
  (forall a j, a <> ar -> a ∈ g_part g' j <-> a ∈ g_part g j) ->
  (forall a j, a <> ar -> a ∈ g_all g j -> a ∈ g_all g' j) -> settled_at g' ar -> settled g'.
Proof.
  intros H1 H2 H3 H5 H4. apply settled_all. intros a. destruct (decide (a = ar)) as [-> | Hne]; [done |].
  intros j f Hf. rewrite H3 by done. destruct (H1 a Hne j f) as (E0 & E1); [by apply H2 |]. split; [by apply H5 | done].
Qed.

(** A free block is not live. *)
Lemma free_not_live s g ar i f k d l :
  pcore s g -> slab_at g ar i f -> k ∈ pg_free f -> ~ live s g (blk ar i k + SIZEOF_HEADER) d l.
Proof.
  intros Hc Hs Hkf Hl. destruct (pc_slab _ _ Hc _ _ _ Hs) as (Hi & _ & _ & Hok). pose proof (so_range _ _ _ _ Hok k Hkf) as Hk.
  pose proof (slab_facts _ _ Hc _ _ _ Hs) as (_ & _ & _ & Hin & _). destruct (blk_in ar i k Hi Hk), (class_facts i Hi) as (C1 & _).
  pose proof (live_bounds _ _ Hc _ _ _ Hl) as (_ & _ & Hd & _).
  assert (Hx : extent (blk ar i k + SIZEOF_HEADER) d (blk ar i k)) by (unfold extent, at_, SIZEOF_HEADER; lia).
  specialize (Hin (blk ar i k) ltac:(unfold at_, SIZEOF_JSArena in *; lia)).
  apply (live_owner _ _ Hc) in Hl as [(a & j & h & y & Ha & Hy & Hn & _ & E & _ & Hown) | (b & Hb & _ & _ & _ & Hown)];
    specialize (Hown _ Hx); pose proof (same_block _ _ Hc _ _ _ Hown Hin) as Ea; subst.
  - unfold slab_at in *. rewrite Hs in Ha. injection Ha as <- <-. unfold blk in E. assert (y = k) by nia. by subst y.
  - destruct (pc_large _ _ Hc _ Hb) as (_ & H' & _). unfold slab_at in Hs. congruence.
Qed.

Lemma arena_take_spec s g ar i k f u :
  pcore s g -> class_ok i -> has_free g ar i k f u -> (forall a, a <> ar -> settled_at g a) ->
  swp (arena_take ar (block_size_of i)) (fun p s' => exists g', settled g' /\
    p = blk ar i k + SIZEOF_HEADER /\ grown s g s' g' p (block_size_of i - SIZEOF_HEADER) true) s.
Proof.
  intros Hc Hi (Hs & [Hpt Hal] & Eu & Hu) Hst. destruct (pc_slab _ _ Hc _ _ _ Hs) as (_ & _ & _ & Hok).
  pose proof (so_range _ _ _ _ Hok k ltac:(apply list_elem_of_here)) as Hk. pose proof (so_nodup _ _ _ _ Hok) as Hnd.
  cbn [pg_free] in Hnd. apply NoDup_cons in Hnd as [Hkf _]. pose proof (lenZ_nonneg f) as Hlf.
  destruct (take_bytes (p_mem s) ar i k f u Hi Hok ltac:(lia)) as (E1 & E2 & E3 & Hok' & Ho).
  unfold arena_take, pld, pst, pmod. swp_steps. rewrite E1, get_block_eq, !off0 by done. cbn [p_mem set_mem].
  set (m1 := storew 2 (storew 2 (p_mem s) _ _) _ _) in *. set (m2 := storew 2 m1 _ _) in *. rewrite E2, E3.
  set (g1 := g_upd g ar i {| pg_free := f; pg_used := u + 1 |}).
  assert (Hc1 : pcore (set_mem s m2) g1) by by eapply core_body.
  assert (G1 : grown s g (set_mem s m2) g1 (blk ar i k + SIZEOF_HEADER) (block_size_of i - SIZEOF_HEADER) true).
  { split; [done | done | by apply (live_take s g (set_mem s m2) ar i k f u) | |].
    - intros d l. eapply (free_not_live s g); [done | exact Hs | apply list_elem_of_here].
    - by eapply only_slab_meta. }
  assert (Hs1 : slab_at g1 ar i {| pg_free := f; pg_used := u + 1 |}) by (apply slab_at_upd; by left).
  destruct (Z.eqb_spec (u + 1) (nb i)) as [Efull | Hnf]; swp_steps.
  - assert (f = []) as -> by (destruct f; [done | unfold lenZ in *; simpl in *; lia]).
    apply list_elem_of_split in Hpt as (l1 & l2 & El).
    destruct (core_part_del (set_mem s m2) g1 i Hc1 Hi l1 ar l2 El) as [Hc2 Ho2]. cbn [p_mem set_mem] in *.
    exists (g_set_part g1 i (l1 ++ l2)). split; [| split; [done |]].
    + destruct (pc_part _ _ Hc i Hi) as (_ & Hnd & _). rewrite El in Hnd. apply NoDup_drop_middle in Hnd as [Hn12 _].
      apply (settled_others g _ ar Hst).
      * intros a j h Hne Ha. apply slab_at_upd in Ha as [[? _] | [_ ?]]; done.
      * intros a j Hne. simpl. destruct (decide (j = i)) as [-> | Hj]; [| by rewrite set_class_ne].
        rewrite set_class_eq, El, !elem_of_app, elem_of_cons. tauto.
      * done.
      * intros j h Ha. apply slab_at_upd in Ha as [(_ & -> & ->) | [? _]]; [| done]. simpl. rewrite set_class_eq.
        split; [done |]. split; [split; done |]. unfold lenZ in *. simpl in *. lia.
    + eapply grown_steady; [exact G1 |]. by apply (steady_links (set_mem s m2) g1).
  - exists g1. split; [| split; [done | exact G1]].
    apply (settled_others g _ ar Hst).
    + intros a j h Hne Ha. apply slab_at_upd in Ha as [[? _] | [_ ?]]; done.
    + done.
    + done.
    + intros j h Ha. apply slab_at_upd in Ha as [(_ & -> & ->) | [? _]]; [| done]. simpl.
      split; [done |]. split; [split; [intros _ ->; unfold lenZ in *; simpl in *; lia | done] | lia].
Qed.
End specs.
