(* ===== verification/PoolCalls.v ===== *)
(** * The small-block pool: allocation, release, reallocation

    Specifications of [js_arena_malloc], [js_arena_calloc], [js_arena_free],
    [js_arena_usable_size] and [js_arena_realloc] in terms of the live blocks. *)

From stdpp Require Import base list numbers gmap.
From Stdlib Require Import ZArith Lia.
From S2P Require Import Prelude Memory StateRun ListHead Pool PoolInvariant PoolUpdates PoolSpecs.

#[local] Open Scope st_scope.
#[local] Open Scope Z_scope.

Section calls.
Context `{BL : BackingLaws}.

(** ** Blocks with a header of their own *)

Definition g_large (g : ghost) (b : Z) : ghost :=
  {| g_rt := g_rt g; g_slabs := g_slabs g; g_larges := {[b]} ∪ g_larges g; g_all := g_all g; g_part := g_part g |}.
Definition g_unlarge (g : ghost) (b : Z) : ghost :=
  {| g_rt := g_rt g; g_slabs := g_slabs g; g_larges := g_larges g ∖ {[b]}; g_all := g_all g; g_part := g_part g |}.

Lemma not_held g b : ~ held g b -> b <> g_rt g /\ g_slabs g !! b = None /\ (b ∉ g_larges g).
Proof.
  intros H. unfold held in H. split; [tauto |]. split; [| tauto].
  destruct (g_slabs g !! b) eqn:E; [| done]. exfalso. apply H. right. left. by eexists.
Qed.

Lemma large_grown s g b c :
  pcore s g -> ~ held g b -> bk_blocks (p_bk s) !! b = Some c -> SIZEOF_HEADER < c ->
  loadw 2 (p_mem s) b = JS_ARENA_FREE_NIL ->
  grown s g s (g_large g b) (b + SIZEOF_HEADER) (c - SIZEOF_HEADER) false.
Proof.
  intros Hc Hn HB L Hnil. destruct (not_held _ _ Hn) as (N1 & N2 & N3). split; [| done | | | done].
  - destruct Hc as [H1 H2 H3 H4 H5 H6 H7]. split; try done. intros q Hq. apply elem_of_union in Hq as [Hq | Hq].
    + apply elem_of_singleton in Hq as ->. split; [done |]. split; [done |]. split; [by exists c | done].
    + by apply H4.
  - intros q d l. split.
    + intros [ar i f k Hs Hk Hf | b' c' Hb' HB']; [left; by apply live_pooled with f |].
      apply elem_of_union in Hb' as [Hq | Hq]; [| left; by apply live_large].
      apply elem_of_singleton in Hq as ->. right. rewrite HB in HB'. by injection HB' as <-.
    + intros [[ar i f k Hs Hk Hf | b' c' Hb' HB'] | (-> & -> & ->)].
      * by apply live_pooled with f.
      * apply live_large; [| done]. apply elem_of_union. by right.
      * apply live_large; [| done]. apply elem_of_union. left. by apply elem_of_singleton.
  - intros d l Hl. pose proof (live_bounds _ _ Hc _ _ _ Hl) as (_ & _ & Hd & _).
    assert (Hx : extent (b + SIZEOF_HEADER) d b) by (unfold extent, at_, SIZEOF_HEADER; lia).
    assert (Hb : in_block (bk_blocks (p_bk s)) b b) by (exists c; split; [done | unfold at_, SIZEOF_HEADER in *; lia]).
    apply (live_owner _ _ Hc) in Hl as [(a & j & h & y & Ha & _ & _ & _ & _ & _ & Hown) | (b' & Hb' & _ & _ & _ & Hown)];
      specialize (Hown _ Hx); pose proof (same_block _ _ Hc _ _ _ Hown Hb); subst; [unfold slab_at in Ha; congruence | done].
Qed.

Lemma stamp_large_spec s g b n :
  pcore s g -> settled g -> ~ held g b -> SIZEOF_HEADER < n -> (exists c, bk_blocks (p_bk s) !! b = Some c /\ n <= c) ->
  swp (stamp_large b) (fun p s' => p = b + SIZEOF_HEADER /\ only (at_ b 3) (p_mem s) (p_mem s') /\
    exists g' c, settled g' /\ n - SIZEOF_HEADER <= c /\ bk_blocks (p_bk s') !! b = Some (c + SIZEOF_HEADER) /\
      grown s g s' g' p c false) s.
Proof.
  intros Hc Hst Hn Hl (c & HB & L). unfold stamp_large, pst, pmod. swp_steps. rewrite off0. cbn [p_mem set_mem].
  set (m1 := storew 1 (storew 2 (p_mem s) b JS_ARENA_FREE_NIL) (b + off_size_idx) 255).
  assert (Ho : only (at_ b 3) (p_mem s) m1).
  { unfold m1, off_size_idx. apply only_trans with (storew 2 (p_mem s) b JS_ARENA_FREE_NIL); (eapply only_mono; [apply only_storew |]); unfold at_; lia. }
  split; [done |]. split; [exact Ho |]. exists (g_large g b), (c - SIZEOF_HEADER).
  split; [exact Hst |]. split; [lia |]. split; [by replace (c - SIZEOF_HEADER + SIZEOF_HEADER) with c by lia |].
  assert (St : steady s g (set_mem s m1) g).
  { apply (fresh_writes s g b); [done | done |]. eapply only_mono; [exact Ho |]. intros x Hx. exists c. split; [done |].
    unfold at_, SIZEOF_HEADER in *. lia. }
  eapply steady_grown; [exact St |]. apply large_grown; [apply St | done | done | lia |].
  unfold m1, off_size_idx. cbn [p_mem set_mem]. rewrite loadw_storew_out by lia. by apply loadw_storew.
Qed.

(** The outcome of an allocating call. *)
Definition allocated (s : pool) (g : ghost) (size p : Z) (s' : pool) : Prop :=
  exists g', settled g' /\
    ((p = 0 /\ backing_refuses s (asked size) /\ steady s g s' g') \/ exists c k, size <= c /\ p <> 0 /\ grown s g s' g' p c k).

Lemma arena_malloc_large_spec s g size :
  pcore s g -> settled g -> 0 < size < 2 ^ 61 ->
  swp (arena_malloc_large size) (fun p s' => allocated s g size p s') s.
Proof.
  intros Hc Hst Hs. unfold arena_malloc_large, SIZEOF_HEADER. rewrite u64_small by lia. apply swp_bind.
  eapply swp_mono; [apply (mf_malloc_spec s g); [done | lia] |]. intros b s1 [St Hfr].
  destruct (Z.eqb_spec b 0) as [-> | H0].
  { apply swp_ret. exists g. split; [done |]. left. destruct Hfr as [[_ Hr] | [? _]]; [| done].
    split; [done |]. split; [| done]. eapply refuses_mono; [exact Hr | unfold asked, SIZEOF_HEADER; lia]. }
  destruct Hfr as [[? _] | (_ & Hn & _ & Hb)]; [done |].
  eapply swp_mono; [apply (stamp_large_spec s1 g b (8 + size)); [apply St | done | done | unfold SIZEOF_HEADER; lia | done] |].
  intros p s2 (Ep & _ & g' & c & Hst' & L & HB & G). exists g'. split; [done |]. right. exists c, false.
  unfold SIZEOF_HEADER in *. split; [lia |]. split; [| by eapply steady_grown].
  destruct (bo_block _ (blocks_fine _ _ (gr_core _ _ _ _ _ _ _ G)) _ _ HB). lia.
Qed.

Lemma arena_calloc_large_spec s g size :
  pcore s g -> settled g -> 0 < size < 2 ^ 61 ->
  swp (arena_calloc_large size) (fun p s' => allocated s g size p s' /\
    (p <> 0 -> forall x, at_ p size x -> load8 (p_mem s') x = 0)) s.
Proof.
  intros Hc Hst Hs. unfold arena_calloc_large, SIZEOF_HEADER. rewrite u64_small by lia. apply swp_bind.
  eapply swp_mono; [apply (mf_calloc_spec s g); [done | lia] |]. intros b s1 [St Hfr].
  destruct (Z.eqb_spec b 0) as [-> | H0].
  { apply swp_ret. split; [| done]. exists g. split; [done |]. left. destruct Hfr as [[_ Hr] | [[? _] _]]; [| done].
    split; [done |]. split; [| done]. eapply refuses_mono; [exact Hr | unfold asked, SIZEOF_HEADER; lia]. }
  destruct Hfr as [[? _] | [(_ & Hn & _ & Hb) Hz]]; [done |].
  eapply swp_mono; [apply (stamp_large_spec s1 g b (8 + size)); [apply St | done | done | unfold SIZEOF_HEADER; lia | done] |].
  intros p s2 (Ep & Ho & g' & c & Hst' & L & HB & G). unfold SIZEOF_HEADER in *.
  destruct (bo_block _ (blocks_fine _ _ (gr_core _ _ _ _ _ _ _ G)) _ _ HB) as [Hp _]. split.
  - exists g'. split; [done |]. right. exists c, false. split; [lia |]. split; [lia | by eapply steady_grown].
  - intros _ x Hx. rewrite Ho by (unfold at_ in *; lia). apply Hz. unfold at_ in *. lia.
Qed.

(** ** [js_arena_malloc], [js_arena_calloc] *)

Lemma js_arena_malloc_spec s g size :
  pcore s g -> settled g -> 0 < size < 2 ^ 61 ->
  swp (js_arena_malloc size) (fun p s' => allocated s g size p s') s.
Proof.
  intros Hc Hst Hs. unfold js_arena_malloc. swp_steps. destruct (Z.eqb_spec size 0) as [| _]; [lia |].
  destruct (_ && _) eqn:E; [| by apply arena_malloc_large_spec]. b2p.
  destruct (total_size_spec size ltac:(lia)) as (T1 & T2 & T3).
  destruct (size_index_spec (pool_total_size size) ltac:(lia) T2) as (Hi & L & _).
  set (i := arena_get_size_index (pool_total_size size)) in *. apply swp_bind.
  eapply swp_mono; [by apply (arena_for_spec s g i) |]. intros ar s1 [(-> & Hrf & St) | (Har & g1 & k & f & u & St & Hf & Hset)].
  { apply swp_ret. exists g. split; [done |]. left. split; [done |]. split; [| done]. eapply refuses_mono; [exact Hrf | unfold asked; lia]. }
  destruct (Z.eqb_spec ar 0) as [| _]; [done |].
  eapply swp_mono; [by apply (arena_take_spec s1 g1 ar i k f u); [apply St | | |] |].
  intros p s2 (g2 & Hst2 & Ep & G). exists g2. split; [done |]. right.
  exists (block_size_of i - SIZEOF_HEADER), true. unfold SIZEOF_HEADER in *. split; [lia |]. split; [| by eapply steady_grown].
  assert (Hl : live s2 g2 p (block_size_of i - 8) true) by (apply (gr_live _ _ _ _ _ _ _ G); by right).
  pose proof (live_bounds _ _ (gr_core _ _ _ _ _ _ _ G) _ _ _ Hl). lia.
Qed.

(** The engine writes into a block of its own. *)
Lemma user_writes s g p c k m' :
  pcore s g -> live s g p c k -> only (user p c) (p_mem s) m' ->
  pcore (set_mem s m') g /\ (forall q d l, live (set_mem s m') g q d l <-> live s g q d l) /\
  kept (fun q => q <> p) s g (set_mem s m').
Proof.
  intros Hc Hl Ho. split; [| split].
  - apply (pcore_agree s g (p_bk s) m'); [done | | done |].
    + eapply bk_client_writes; [apply Hc |]. eapply only_mono; [exact Ho |]. intros x Hx.
      assert (He : extent p c x) by (unfold extent, user, at_, SIZEOF_HEADER in *; lia).
      apply (live_owner _ _ Hc) in Hl as [(ar & i & f & j & _ & _ & _ & _ & _ & _ & H) | (q & _ & _ & _ & _ & H)]; eexists; by apply H.
    + intros x Hx. apply Ho. intros Hu. by eapply (user_not_meta s g Hc).
  - intros q d l. by apply live_ext.
  - intros q d l x Hq Hne Hu. apply Ho. intros Hu'. apply Hne.
    eapply (live_disjoint s g Hc q d l p c k x); [done | done | |]; unfold extent, user, at_, SIZEOF_HEADER in *; lia.
Qed.

Lemma js_arena_calloc_spec s g count size :
  pcore s g -> settled g -> 0 < count * size < 2 ^ 61 ->
  swp (js_arena_calloc count size) (fun p s' => allocated s g (count * size) p s' /\
    (p <> 0 -> forall x, at_ p (count * size) x -> load8 (p_mem s') x = 0)) s.
Proof.
  intros Hc Hst Hs. unfold js_arena_calloc. rewrite u64_small by lia. swp_steps.
  destruct (_ && _) eqn:E; [| by apply arena_calloc_large_spec]. swp_steps.
  eapply swp_mono; [by apply (js_arena_malloc_spec s g) |]. intros p s1 (g1 & Hst1 & H).
  destruct (Z.eqb_spec p 0) as [-> | H0].
  { apply swp_ret. split; [| done]. exists g1. split; [done |]. destruct H as [? | (c & k & _ & ? & _)]; [by left | done]. }
  destruct H as [[? _] | (c & k & L & _ & G)]; [done |]. unfold pmod. swp_steps.
  assert (Hl : live s1 g1 p c k) by (apply (gr_live _ _ _ _ _ _ _ G); by right).
  destruct (user_writes s1 g1 p c k (memset (p_mem s1) p 0 (count * size)) (gr_core _ _ _ _ _ _ _ G) Hl) as (U1 & U2 & U3).
  { eapply only_mono; [apply only_memset; lia |]. unfold at_, user. unfold at_. lia. }
  split.
  - exists g1. split; [done |]. right. exists c, k. split; [done |]. split; [done |]. destruct G as [G1 G2 G3 G4 G5].
    split; [done | done | intros; by rewrite U2, G3 | done |].
    intros q d l x Hq _ Hu. rewrite (U3 q d l x); [by eapply G5 | apply G3; by left | intros ->; by eapply G4 | done].
  - intros _ x Hx. cbn [p_mem set_mem]. rewrite load8_memset by lia. unfold at_ in Hx. bool_lia.
Qed.

(** ** [js_arena_free] *)

(** A full page goes back on the ring of pages with free blocks. *)
Lemma rejoin_spec s g ar i f :
  pcore s g -> class_ok i -> slab_at g ar i f -> (ar ∈ g_part g i <-> pg_used f <> nb i) ->
  swp (if pg_used f =? nb i then pmod (fun m => list_add m ar (free_arena_list (p_arena_state s) i)) else sret tt)
    (fun _ s' => exists l, steady s g s' (g_set_part g i l) /\ ar ∈ l /\ (forall a, a <> ar -> a ∈ l <-> a ∈ g_part g i)) s.
Proof.
  intros Hc Hi Hs Hp. destruct (Z.eqb_spec (pg_used f) (nb i)) as [E | Hne]; unfold pmod; swp_steps.
  - destruct (core_part_add s g i Hc Hi ar f Hs) as [Hc' Ho]; [tauto |]. exists (ar :: g_part g i).
    split; [by apply steady_links |]. split; [apply list_elem_of_here |]. intros a Ha. rewrite elem_of_cons. tauto.
  - exists (g_part g i). split; [| split; [tauto | done]].
    assert (E : forall j, set_class (g_part g) i (g_part g i) j = g_part g j).
    { intros j. unfold set_class. destruct (Z.eqb_spec j i) as [-> |]; done. }
    split; [| done | by apply live_ext | done]. destruct Hc as [H1 H2 H3 H4 H5 H6 H7]. split; try done.
    intros j Hj. simpl. rewrite E. by apply H7.
Qed.

(** An empty page is released. *)
Lemma retire_spec s g ar i h :
  pcore s g -> slab_at g ar i h -> (forall k, 0 <= k < nb i -> k ∈ pg_free h) -> ar ∈ g_all g i -> ar ∈ g_part g i ->
  (forall a, a <> ar -> settled_at g a) ->
  swp (pmod (fun m => list_del m (ar + off_link)) ;^ pmod (fun m => list_del m ar) ;^ mf_free ar)
    (fun _ s' => exists g', steady s g s' g' /\ settled g') s.
Proof.
  intros Hc Hs Hfree Hall Hpart Hst. destruct (pc_slab _ _ Hc _ _ _ Hs) as (Hi & Hrt & (c & HB & _) & _).
  apply list_elem_of_split in Hall as (l1 & l2 & El). apply list_elem_of_split in Hpart as (p1 & p2 & Ep).
  destruct (core_all_del s g ar i h l1 l2 Hc Hs El) as [Hc1 Ho1]. set (g1 := g_set_all g i (l1 ++ l2)) in *.
  unfold pmod. swp_steps. set (s1 := set_mem s (list_del (p_mem s) (ar + off_link))) in *.
  destruct (core_part_del s1 g1 i Hc1 Hi p1 ar p2 Ep) as [Hc2 Ho2]. set (g2 := g_set_part g1 i (p1 ++ p2)) in *.
  set (s2 := set_mem s1 (list_del (p_mem s1) ar)) in *.
  assert (S2 : steady s g s2 g2).
  { eapply steady_trans; [by apply (steady_links s g g1) |]. by apply (steady_links s1 g1 g2). }
  destruct (pc_all _ _ Hc i Hi) as (_ & Na & _). rewrite El in Na. apply NoDup_drop_middle in Na as [Na _].
  destruct (pc_part _ _ Hc i Hi) as (_ & Np & _). rewrite Ep in Np. apply NoDup_drop_middle in Np as [Np _].
  assert (Hno : forall j, class_ok j -> (ar ∉ g_all g2 j) /\ (ar ∉ g_part g2 j)).
  { intros j Hj. simpl. destruct (decide (j = i)) as [-> | Hne]; [by rewrite !set_class_eq |]. rewrite !set_class_ne by done. split.
    - intros Ha. apply (pc_all _ _ Hc j Hj) in Ha as [f Hf]. apply Hne. by eapply slab_class.
    - intros Ha. apply (pc_part _ _ Hc j Hj) in Ha as [f Hf]. apply Hne. by eapply slab_class. }
  pose proof (core_forget s2 g2 ar Hc2 Hno) as Hc3.
  assert (S3 : steady s g s2 (g_forget g2 ar)).
  { eapply steady_trans; [exact S2 |]. split; [done | done | | done]. intros p d k. split; intros [a j f l Ha Hl Hf | b d' Hb HB'].
    - apply live_pooled with f; [| done | done]. unfold slab_at, g_forget in Ha. simpl in Ha. by apply lookup_delete_Some in Ha as [_ ?].
    - by apply live_large.
    - apply live_pooled with f; [| done | done]. unfold slab_at, g_forget in *. simpl in *. rewrite lookup_delete_ne; [done |].
      intros <-. rewrite Hs in Ha. injection Ha as <- <-. by apply Hf, Hfree.
    - by apply live_large. }
  eapply swp_mono; [apply (mf_free_spec s2 (g_forget g2 ar) ar Hc3) |].
  - unfold held. simpl. rewrite lookup_delete_eq. intros [? | [[? ?] | Hb]]; [done | done |].
    destruct (pc_large _ _ Hc ar Hb) as (_ & E & _). unfold slab_at in Hs. congruence.
  - exists c. exact HB.
  - intros u s3 S4. exists (g_forget g2 ar). split; [by eapply steady_trans |].
    apply (settled_others g _ ar Hst).
    + intros a j f Hne Ha. unfold slab_at, g_forget in Ha. simpl in Ha. by apply lookup_delete_Some in Ha as [_ ?].
    + intros a j Hne. simpl. destruct (decide (j = i)) as [-> | Hj]; [| by rewrite set_class_ne].
      rewrite set_class_eq, Ep, !elem_of_app, elem_of_cons. tauto.
    + intros a j Hne. simpl. destruct (decide (j = i)) as [-> | Hj]; [| by rewrite set_class_ne].
      rewrite set_class_eq, El, !elem_of_app, elem_of_cons. tauto.
    + intros j f Hf. unfold slab_at, g_forget in Hf. simpl in Hf. by rewrite lookup_delete_eq in Hf.
Qed.

Lemma live_put s g s' ar i f u u' k :
  pcore s g -> bk_blocks (p_bk s') = bk_blocks (p_bk s) ->
  slab_at g ar i {| pg_free := f; pg_used := u |} -> 0 <= k < nb i -> k ∉ f ->
  forall q d l, live s' (g_upd g ar i {| pg_free := k :: f; pg_used := u' |}) q d l <->
    live s g q d l /\ q <> blk ar i k + SIZEOF_HEADER.
Proof.
  intros Hc EB Hs Hk Hf q d l. destruct (pc_slab _ _ Hc _ _ _ Hs) as (Hi & _). destruct (class_facts i Hi) as (C1 & _).
  assert (Hkl : live s g (blk ar i k + SIZEOF_HEADER) (block_size_of i - SIZEOF_HEADER) true) by by apply live_pooled with {| pg_free := f; pg_used := u |}.
  split.
  - intros [a j h x Ha Hx Hn | b c Hb HB].
    + apply slab_at_upd in Ha as [(-> & -> & ->) | [Hne Ha]].
      * cbn [pg_free] in Hn. apply not_elem_of_cons in Hn as [Hxk Hn]. split; [by apply live_pooled with {| pg_free := f; pg_used := u |} |].
        unfold blk. nia.
      * assert (Hl : live s g (blk a j x + SIZEOF_HEADER) (block_size_of j - SIZEOF_HEADER) true) by by apply live_pooled with h.
        split; [done |]. intros E. apply Hne. pose proof (live_bounds _ _ Hc _ _ _ Hl) as (_ & _ & B1 & _). pose proof (live_bounds _ _ Hc _ _ _ Hkl) as (_ & _ & B2 & _).
        pose proof (slab_facts _ _ Hc _ _ _ Hs) as (_ & _ & _ & I1 & _). pose proof (slab_facts _ _ Hc _ _ _ Ha) as (Hj & _ & _ & I2 & _).
        destruct (blk_in ar i k Hi Hk), (blk_in a j x Hj Hx). unfold SIZEOF_HEADER, SIZEOF_JSArena in *. assert (E' : blk a j x = blk ar i k) by lia.
        eapply (same_block _ _ Hc _ _ (blk ar i k)); [apply I2 | apply I1]; unfold at_; lia.
    + assert (Hl : live s g (b + SIZEOF_HEADER) (c - SIZEOF_HEADER) false) by (apply live_large; [done | by rewrite <- EB]).
      split; [done |]. intros E. pose proof (live_bounds _ _ Hc _ _ _ Hl) as (_ & _ & B1 & _). pose proof (live_bounds _ _ Hc _ _ _ Hkl) as (_ & _ & B2 & _).
      destruct (live_disjoint _ _ Hc _ _ _ _ _ _ (b + SIZEOF_HEADER) Hl Hkl) as (_ & _ & ?); [..| done]; unfold extent, at_, SIZEOF_HEADER in *; lia.
  - intros [[a j h x Ha Hx Hn | b c Hb HB] Hne].
    + destruct (decide (a = ar)) as [-> | Hna].
      * unfold slab_at in *. rewrite Hs in Ha. injection Ha as <- <-. cbn [pg_free] in Hn.
        apply live_pooled with {| pg_free := k :: f; pg_used := u' |}; [apply slab_at_upd; by left | done |]. cbn [pg_free].
        apply not_elem_of_cons. split; [| done]. intros ->. done.
      * apply live_pooled with h; [| done | done]. apply slab_at_upd. by right.
    + apply live_large; [done | by rewrite EB].
Qed.

(** The count of a page does not bear on liveness. *)
Lemma live_count s g ar i f u u' s' :
  slab_at g ar i {| pg_free := f; pg_used := u |} -> p_bk s' = p_bk s ->
  forall q d l, live s' (g_upd g ar i {| pg_free := f; pg_used := u' |}) q d l <-> live s g q d l.
Proof.
  intros Hs EB q d l. split; intros [a j h x Ha Hx Hn | b c Hb HB].
  - apply slab_at_upd in Ha as [(-> & -> & ->) | [_ Ha]]; [by apply live_pooled with {| pg_free := f; pg_used := u |} | by apply live_pooled with h].
  - apply live_large; [done | by rewrite <- EB].
  - destruct (decide (a = ar)) as [-> | Hne].
    + unfold slab_at in *. rewrite Hs in Ha. injection Ha as <- <-. apply live_pooled with {| pg_free := f; pg_used := u' |}; [| done | done].
      apply slab_at_upd. by left.
    + apply live_pooled with h; [| done | done]. apply slab_at_upd. by right.
  - apply live_large; [done | by rewrite EB].
Qed.

(** As many distinct block numbers as there are blocks are all of them. *)
Lemma free_list_full (l : list Z) n : NoDup l -> (forall k, k ∈ l -> 0 <= k < n) -> n <= lenZ l -> forall k, 0 <= k < n -> k ∈ l.
Proof.
  intros Hnd Hr Hn k Hk. unfold lenZ in Hn.
  assert (Hsub : l ⊆+ seqZ 0 n).
  { apply NoDup_submseteq; [done |]. intros x Hx. apply elem_of_seqZ. specialize (Hr x Hx). lia. }
  rewrite (submseteq_length_Permutation _ _ Hsub) by (rewrite length_seqZ; lia). apply elem_of_seqZ. lia.
Qed.

Lemma arena_put_spec s g ar i f u k :
  pcore s g -> settled g -> slab_at g ar i {| pg_free := f; pg_used := u |} -> 0 <= k < nb i -> k ∉ f ->
  swp (arena_put (blk ar i k) k) (fun _ s' => exists g', settled g' /\ shrunk s g s' g' (blk ar i k + SIZEOF_HEADER)) s.
Proof.
  intros Hc Hst Hs Hk Hf. destruct (pc_slab _ _ Hc _ _ _ Hs) as (Hi & _ & _ & Hok). destruct (class_facts i Hi) as (C1 & _ & C2 & _).
  destruct (Hst ar i _ Hs) as (Hall & Hpt & Eu & Hu). cbn [pg_free pg_used] in *.
  destruct (slab_ok_push (p_mem s) ar i Hi k f u Hok Hk Hf) as [Hok1 Ho1].
  unfold arena_put, pld, pst. unfold pmod at 1 2. swp_steps. rewrite (so_class _ _ _ _ Hok k Hk), !off0.
  assert (Ear : blk ar i k - u64 (block_size_of i * k) - SIZEOF_JSArena = ar).
  { rewrite u64_small by nia. unfold blk. lia. }
  rewrite Ear. cbn [p_mem set_mem p_arena_state].
  set (m1 := storew 2 (storew 2 (p_mem s) (blk ar i k) _) _ k) in *. set (s1 := set_mem s m1).
  set (g1 := g_upd g ar i {| pg_free := k :: f; pg_used := u |}).
  assert (Hc1 : pcore s1 g1) by by eapply core_body.
  assert (Sh : shrunk s g s1 g1 (blk ar i k + SIZEOF_HEADER)).
  { split; [done | done | by apply (live_put s g s1 ar i f u) |]. intros p c l x Hl _ Hx. by eapply (only_slab_meta s g ar i). }
  assert (Hs1 : slab_at g1 ar i {| pg_free := k :: f; pg_used := u |}) by (apply slab_at_upd; by left).
  rewrite (so_used _ _ _ _ Hok1), (so_n _ _ _ _ Hok1). cbn [pg_used].
  assert (Hrj : ar ∈ g_part g1 i <-> u <> nb i).
  { change (g_part g1 i) with (g_part g i). rewrite Hpt. unfold lenZ in Eu. destruct f; simpl in Eu; split; intros; congruence || lia. }
  eapply swp_mono; [exact (rejoin_spec s1 g1 ar i _ Hc1 Hi Hs1 Hrj) |]. intros _ s2 (l & St2 & Hin & Hoth).
  set (g2 := g_set_part g1 i l) in *. pose proof (sd_core _ _ _ _ St2) as Hc2. clear Ho1.
  assert (Hs2 : slab_at g2 ar i {| pg_free := k :: f; pg_used := u |}) by exact Hs1.
  destruct (pc_slab _ _ Hc2 _ _ _ Hs2) as (_ & _ & _ & Hok2).
  swp_steps. cbn [p_mem set_mem]. rewrite (so_used _ _ _ _ Hok2). cbn [pg_used]. assert (Hfl := lenZ_nonneg f). rewrite u16_small by lia.
  destruct (slab_ok_used (p_mem s2) ar i Hi _ (u - 1) Hok2 ltac:(lia)) as [Hok3 Ho3]. cbn [pg_free] in Hok3.
  unfold pmod at 1. swp_steps. cbn [p_mem set_mem]. rewrite (so_used _ _ _ _ Hok3). cbn [pg_used].
  set (m3 := storew 2 (p_mem s2) (ar + off_n_used) (u - 1)) in *.
  set (g3 := g_upd g2 ar i {| pg_free := k :: f; pg_used := u - 1 |}).
  assert (Hc3 : pcore (set_mem s2 m3) g3) by by eapply core_body.
  assert (St3 : steady s2 g2 (set_mem s2 m3) g3).
  { split; [done | done | | by eapply (only_slab_meta s2 g2 ar i)]. by apply (live_count s2 g2 ar i (k :: f) u). }
  assert (St : steady s1 g1 (set_mem s2 m3) g3) by by eapply steady_trans.
  assert (Hset : forall a, a <> ar -> settled_at g3 a).
  { intros a Hne j h Ha. apply slab_at_upd in Ha as [[? _] | [_ Ha]]; [done |]. apply slab_at_upd in Ha as [[? _] | [_ Ha]]; [done |].
    destruct (Hst a j h Ha) as (E0 & E1 & E2). split; [done |]. split; [| done]. rewrite <- E1. simpl.
    destruct (decide (j = i)) as [-> | Hj]; [rewrite set_class_eq; by apply Hoth | by rewrite set_class_ne]. }
  assert (Hs3 : slab_at g3 ar i {| pg_free := k :: f; pg_used := u - 1 |}) by (apply slab_at_upd; by left).
  assert (Hp3 : ar ∈ g_part g3 i) by (simpl; by rewrite set_class_eq).
  destruct (Z.eqb_spec (u - 1) 0) as [E1 | Hne1].
  - eapply swp_mono; [apply (retire_spec _ g3 ar i _ Hc3 Hs3); [| done | done | done] |].
    + intros x Hx. cbn [pg_free]. apply (free_list_full _ _ (so_nodup _ _ _ _ Hok3) (so_range _ _ _ _ Hok3)); [| done].
      unfold lenZ in *. simpl. lia.
    + intros v s4 (g4 & St4 & Hst4). exists g4. split; [done |]. eapply shrunk_steady; [exact Sh |]. by eapply steady_trans.
  - apply swp_ret. exists g3. split; [| by eapply shrunk_steady]. apply settled_all. intros a. destruct (decide (a = ar)) as [-> | Hne]; [| by apply Hset].
    intros j h Ha. apply slab_at_upd in Ha as [(_ & -> & ->) | [? _]]; [| done]. split; [done |]. cbn [pg_free pg_used].
    split; [split; done |]. unfold lenZ in *. simpl. lia.
Qed.

(** What the header of a live block says. *)
Lemma live_header s g p c k :
  pcore s g -> live s g p c k ->
  (exists ar i f u j, k = true /\ slab_at g ar i {| pg_free := f; pg_used := u |} /\ 0 <= j < nb i /\ (j ∉ f) /\
     p = blk ar i j + SIZEOF_HEADER /\ c = block_size_of i - SIZEOF_HEADER /\ class_ok i /\
     loadw 2 (p_mem s) (p - SIZEOF_HEADER + off_block_idx) = j /\ j <> JS_ARENA_FREE_NIL /\
     loadw 1 (p_mem s) (p - SIZEOF_HEADER + off_size_idx) = i) \/
  (k = false /\ p - SIZEOF_HEADER ∈ g_larges g /\ bk_blocks (p_bk s) !! (p - SIZEOF_HEADER) = Some (c + SIZEOF_HEADER) /\
     loadw 2 (p_mem s) (p - SIZEOF_HEADER + off_block_idx) = JS_ARENA_FREE_NIL /\
     p - SIZEOF_HEADER <> arena_zero_block (p_arena_state s)).
Proof.
  intros Hc Hl. rewrite off0. destruct Hl as [ar i [f u] j Hs Hj Hf | b c' Hb HB].
  - left. destruct (pc_slab _ _ Hc _ _ _ Hs) as (Hi & _ & _ & Hok). destruct (class_facts i Hi) as (_ & _ & C2 & _).
    exists ar, i, f, u, j. replace (blk ar i j + SIZEOF_HEADER - SIZEOF_HEADER) with (blk ar i j) by lia.
    repeat (split; [done |]). split; [by apply (so_live _ _ _ _ Hok) |]. split; [unfold JS_ARENA_FREE_NIL; lia | by apply (so_class _ _ _ _ Hok)].
  - right. replace (b + SIZEOF_HEADER - SIZEOF_HEADER) with b by lia. replace (c' - SIZEOF_HEADER + SIZEOF_HEADER) with c' by lia.
    destruct (pc_large _ _ Hc b Hb) as (Hrt & _ & (c & HB' & L) & Hnil). repeat (split; [done |]). intros E.
    apply Hrt. symmetry. eapply (same_block _ _ Hc _ _ b).
    + apply (rt_in_block _ _ Hc). rewrite E. unfold at_, arena_zero_block, SIZEOF_JSArenaState, SIZEOF_LIST_HEAD, JS_ARENA_BLOCK_SIZE_COUNT. lia.
    + exists c. split; [done |]. unfold at_, SIZEOF_HEADER in *. lia.
Qed.

Lemma live_nonzero s g p c k : pcore s g -> live s g p c k -> (p =? 0) = false.
Proof. intros Hc Hl. apply Z.eqb_neq. pose proof (live_bounds _ _ Hc _ _ _ Hl). lia. Qed.

(** Forgetting a large block. *)
Lemma large_shrunk s g p c :
  pcore s g -> live s g p c false ->
  shrunk s g s (g_unlarge g (p - SIZEOF_HEADER)) p /\ ~ held (g_unlarge g (p - SIZEOF_HEADER)) (p - SIZEOF_HEADER).
Proof.
  intros Hc Hl. destruct (live_header _ _ _ _ _ Hc Hl) as [(? & ? & ? & ? & ? & ? & _) | (_ & Hb & HB & _ & _)]; [done |].
  set (b := p - SIZEOF_HEADER) in *. destruct (pc_large _ _ Hc b Hb) as (Hrt & Hns & _ & _).
  assert (Ep : p = b + SIZEOF_HEADER) by (unfold b; lia). split.
  - split; [| done | | done].
    + destruct Hc as [H1 H2 H3 H4 H5 H6 H7]. split; try done. intros q Hq. apply elem_of_difference in Hq as [Hq _]. by apply H4.
    + intros q d l. split.
      * intros [ar i f j Hs Hj Hf | b' c' Hb' HB'].
        { assert (Hq : live s g (blk ar i j + SIZEOF_HEADER) (block_size_of i - SIZEOF_HEADER) true) by by apply live_pooled with f.
          split; [done |]. intros E. destruct (live_header _ _ _ _ _ Hc Hq) as [(? & ? & ? & ? & jj & _ & _ & _ & _ & _ & _ & _ & E2 & E3 & _) | (? & _)]; [| done].
          destruct (live_header _ _ _ _ _ Hc Hl) as [(? & ? & ? & ? & ? & ? & _) | (_ & _ & _ & E4 & _)]; [done |]. rewrite E in E2. congruence. }
        { apply elem_of_difference in Hb' as [Hb' Hn]. split; [by apply live_large |]. intros E. apply Hn, elem_of_singleton. lia. }
      * intros [[ar i f j Hs Hj Hf | b' c' Hb' HB'] Hne]; [by apply live_pooled with f |]. apply live_large; [| done].
        apply elem_of_difference. split; [done |]. intros E. apply elem_of_singleton in E. subst b'. apply Hne. lia.
  - unfold held. simpl. intros [? | [[? ?] | H]]; [done | congruence |]. apply elem_of_difference in H as [_ H]. apply H. by apply elem_of_singleton.
Qed.

Lemma js_arena_free_spec s g p c k :
  pcore s g -> settled g -> live s g p c k ->
  swp (js_arena_free p) (fun _ s' => exists g', settled g' /\ shrunk s g s' g' p) s.
Proof.
  intros Hc Hst Hl. unfold js_arena_free. rewrite (live_nonzero _ _ _ _ _ Hc Hl). unfold pld. swp_steps.
  destruct (live_header _ _ _ _ _ Hc Hl) as [(ar & i & f & u & j & -> & Hs & Hj & Hf & -> & -> & Hi & -> & Hnil & _) | (-> & Hb & HB & -> & Hz)].
  - rewrite (proj2 (Z.eqb_neq _ _) Hnil). replace (blk ar i j + SIZEOF_HEADER - SIZEOF_HEADER) with (blk ar i j) by lia.
    by apply (arena_put_spec s g ar i f u j).
  - rewrite Z.eqb_refl. swp_steps. rewrite (proj2 (Z.eqb_neq _ _) Hz).
    destruct (large_shrunk _ _ _ _ Hc Hl) as [Sh Hn].
    eapply swp_mono; [apply (mf_free_spec s (g_unlarge g (p - SIZEOF_HEADER))); [apply Sh | done | by eexists] |].
    intros v s' St. exists (g_unlarge g (p - SIZEOF_HEADER)). split; [done |]. by eapply shrunk_steady.
Qed.

(** ** [js_arena_usable_size] *)

Definition reported (c : Z) (k : bool) : Z := if k || bk_reports then c else 0.

Lemma js_arena_usable_size_spec s g p c k :
  pcore s g -> live s g p c k -> swp (js_arena_usable_size p) (fun n s' => s' = s /\ n = reported c k) s.
Proof.
  intros Hc Hl. pose proof (live_bounds _ _ Hc _ _ _ Hl) as (_ & Hp & H0 & _).
  unfold js_arena_usable_size, reported. rewrite (live_nonzero _ _ _ _ _ Hc Hl). unfold pld. swp_steps.
  destruct (live_header _ _ _ _ _ Hc Hl) as [(ar & i & f & u & j & -> & Hs & Hj & Hf & -> & -> & Hi & -> & Hnil & Ei) | (-> & Hb & HB & -> & Hz)].
  - rewrite (proj2 (Z.eqb_neq _ _) Hnil). swp_steps. rewrite Ei. split; [done |]. simpl. destruct (class_facts i Hi) as (C1 & _).
    apply u64_small. unfold SIZEOF_HEADER. lia.
  - rewrite Z.eqb_refl. swp_steps. rewrite (proj2 (Z.eqb_neq _ _) Hz). unfold mf_usable. swp_steps.
    rewrite (bk_usable_law _ _ _ _ (pc_bk _ _ Hc) HB). split; [done |]. simpl. destruct bk_reports; [| done].
    destruct (bo_block _ (blocks_fine _ _ Hc) _ _ HB) as (B1 & _ & B2 & B3). unfold SIZEOF_HEADER in *.
    destruct (Z.eqb_spec (c + 8) 0); [lia |]. rewrite u64_small; lia.
Qed.

(** ** [js_arena_realloc] *)

(** The block [p] has become [np], keeping the engine's header bytes and the
    first [n] bytes of its contents. *)
Record replaced (s : pool) (g : ghost) (s' : pool) (g' : ghost) (p np c' : Z) (k' : bool) (n : Z) : Prop := {
  rp_core : pcore s' g';
  rp_rest : same_rest s s';
  rp_live : forall q d l, live s' g' q d l <-> (live s g q d l /\ q <> p) \/ (q = np /\ d = c' /\ l = k');
  rp_new : np = p \/ forall d l, ~ live s g np d l;
  rp_kept : kept (fun q => q <> p) s g s';
  rp_bytes : forall i, 0 <= i < 5 + n -> load8 (p_mem s') (np - 5 + i) = load8 (p_mem s) (p - 5 + i)
}.

Definition reallocated (s : pool) (g : ghost) (p c size np : Z) (s' : pool) : Prop :=
  exists g', settled g' /\
    ((np = 0 /\ backing_refuses s (asked size) /\ steady s g s' g') \/
     exists c' k', size <= c' /\ np <> 0 /\ replaced s g s' g' p np c' k' (Z.min c size)).

Lemma move_bytes m p np n :
  0 <= n -> np + n <= p - 5 \/ p + n <= np - 5 ->
  let m' := memcpy (memcpy (memcpy m (np - SIZEOF_HEADER + off_gc) (p - SIZEOF_HEADER + off_gc) 1)
              (np - SIZEOF_HEADER + off_ref_count) (p - SIZEOF_HEADER + off_ref_count) 4) np p n in
  only (at_ (np - 5) (5 + n)) m m' /\ forall i, 0 <= i < 5 + n -> load8 m' (np - 5 + i) = load8 m (p - 5 + i).
Proof.
  intros Hn Hd. unfold SIZEOF_HEADER, off_gc, off_ref_count.
  replace (np - 8 + 3) with (np - 5) by lia. replace (p - 8 + 3) with (p - 5) by lia.
  replace (np - 8 + 4) with (np - 4) by lia. replace (p - 8 + 4) with (p - 4) by lia. cbv zeta. split.
  - do 2 (eapply only_trans; [| eapply only_mono; [apply only_memcpy; lia | unfold at_; lia]]).
    eapply only_mono; [apply only_memcpy; lia | unfold at_; lia].
  - intros i Hi. destruct (Z.lt_ge_cases i 5) as [L | L].
    + rewrite load8_memcpy_out by lia. destruct (Z.eq_dec i 0) as [-> | Hi0].
      * rewrite load8_memcpy_out by lia. by apply load8_memcpy_in.
      * replace (np - 5 + i) with (np - 4 + (i - 1)) by lia. replace (p - 5 + i) with (p - 4 + (i - 1)) by lia.
        rewrite load8_memcpy_in by lia. apply load8_memcpy_out; lia.
    + replace (np - 5 + i) with (np + (i - 5)) by lia. replace (p - 5 + i) with (p + (i - 5)) by lia.
      rewrite load8_memcpy_in by lia. rewrite !load8_memcpy_out by lia. done.
Qed.

Lemma move_block_spec s g p c k s1 g1 np c' k' size :
  pcore s g -> live s g p c k -> grown s g s1 g1 np c' k' -> settled g1 -> 0 <= size <= c' ->
  swp (move_block p np size c) (fun _ s' => exists g', settled g' /\ replaced s g s' g' p np c' k' (Z.min c size)) s1.
Proof.
  intros Hc Hl G Hst Hs. pose proof (live_bounds _ _ Hc _ _ _ Hl) as (_ & _ & Hc0 & _).
  assert (Hln : live s1 g1 np c' k') by (apply (gr_live _ _ _ _ _ _ _ G); by right).
  assert (Hlp : live s1 g1 p c k) by (apply (gr_live _ _ _ _ _ _ _ G); by left).
  pose proof (gr_core _ _ _ _ _ _ _ G) as Hc1. assert (Hne : np <> p) by (intros ->; by eapply (gr_new _ _ _ _ _ _ _ G)).
  unfold move_block, pmod. swp_steps. cbn [p_mem set_mem].
  replace (if c <? size then c else size) with (Z.min c size) by (bool_lia).
  set (n := Z.min c size). destruct (move_bytes (p_mem s1) p np n) as [Ho Hb].
  { lia. }
  { destruct (Z.lt_ge_cases (np + c') (p - 7)) as [|A1]; [lia |]. destruct (Z.lt_ge_cases (p + c) (np - 7)) as [|A2]; [lia |].
    exfalso. apply Hne. pose proof (live_bounds _ _ Hc1 _ _ _ Hln) as (_ & _ & Hc0' & _).
    eapply (live_disjoint s1 g1 Hc1 np c' k' p c k (Z.max (np - 8) (p - 8)) Hln Hlp); unfold extent, at_, SIZEOF_HEADER; lia. }
  set (m2 := memcpy _ np p n) in *.
  destruct (user_writes s1 g1 np c' k' m2 Hc1 Hln) as (U1 & U2 & U3).
  { eapply only_mono; [exact Ho |]. unfold user, at_. lia. }
  assert (Hlp2 : live (set_mem s1 m2) g1 p c k) by by apply U2.
  eapply swp_mono; [by apply (js_arena_free_spec (set_mem s1 m2) g1 p c k) |]. intros v s3 (g3 & Hst3 & [D1 D2 D3 D4]).
  exists g3. split; [done |]. destruct G as [G1 G2 G3 G4 G5]. split.
  - done.
  - eapply same_rest_trans; [exact G2 |]. exact D2.
  - intros q d l. rewrite D3, U2, G3. split; [intros [[? | ?] ?]; tauto |]. intros [? | (-> & -> & ->)]; [tauto |]. split; [by right | done].
  - right. exact G4.
  - intros q d l x Hq Hqp Hu. rewrite (D4 q d l x); [| apply U2, G3; by left | done | done].
    rewrite (U3 q d l x); [by eapply G5 | apply G3; by left | intros ->; by eapply G4 | done].
  - intros i Hi. rewrite (D4 np c' k' (np - 5 + i)); [| by apply U2 | done | unfold user, at_; lia].
    cbn [p_mem set_mem]. rewrite Hb by lia. eapply G5; [exact Hl | done | unfold user, at_; lia].
Qed.

(** The large branch: the backing allocator moves the whole block, header
    included. *)
Lemma realloc_large_spec s g p c size :
  pcore s g -> settled g -> live s g p c false -> 0 < size < 2 ^ 61 ->
  swp (let^ nb := mf_realloc (p - SIZEOF_HEADER) (u64 (SIZEOF_HEADER + size)) in
       if nb =? 0 then sret 0 else stamp_large nb) (fun np s' => reallocated s g p c size np s') s.
Proof.
  intros Hc Hst Hl Hs. unfold SIZEOF_HEADER at 2. rewrite u64_small by lia.
  destruct (live_header _ _ _ _ _ Hc Hl) as [(? & ? & ? & ? & ? & ? & _) | (_ & Hb & HB & _ & _)]; [done |].
  pose proof (live_bounds _ _ Hc _ _ _ Hl) as (_ & _ & Hc0 & _).
  destruct (large_shrunk _ _ _ _ Hc Hl) as [Sh Hn]. set (b := p - SIZEOF_HEADER) in *. set (g1 := g_unlarge g b) in *.
  apply swp_bind. unfold mf_realloc. apply swp_call. intros nb s1.
  destruct (bk_realloc (p_bk s) (p_mem s) b (8 + size)) as [[q bk'] m'] eqn:E. intros [= <- <-].
  destruct (bk_realloc_law _ _ _ _ (8 + size) _ _ _ (pc_bk _ _ Hc) HB ltac:(lia) E) as (Hi & Hk & Hres).
  assert (H0 : bk_blocks (p_bk s) !! 0 = None).
  { destruct (bk_blocks (p_bk s) !! 0) eqn:E0; [| done]. destruct (bo_block _ (blocks_fine _ _ Hc) _ _ E0). lia. }
  destruct (Z.eqb_spec q 0) as [-> | Hq].
  - apply swp_ret. exists g. split; [done |]. left. split; [done |]. split.
    { exists (8 + size). split; [unfold asked, SIZEOF_HEADER; lia |]. right. right. exists b. rewrite E. split; [by eexists | done]. }
    destruct Hres as [(_ & EB & Hk') | (_ & c' & _ & _ & EB)].
    + apply (backing_steady s g 0); [done | done | | by rewrite delete_id | by intros; rewrite EB].
      intros Hh. destruct (held_block _ _ _ Hc Hh). congruence.
    + assert (E0 : bk_blocks bk' !! 0 = Some c') by (rewrite EB; apply lookup_insert_eq).
      destruct (bo_block _ (bk_geometry _ _ Hi) _ _ E0). lia.
  - destruct Hres as [(? & _) | (Hcp & c' & L & Hfree & EB)]; [done |].
    assert (Hnh : ~ held g1 q).
    { intros Hh. destruct (held_block _ _ _ (sh_core _ _ _ _ _ Sh) Hh) as [x Hx].
      destruct (decide (q = b)) as [-> | Hne]; [done |]. rewrite lookup_delete_ne in Hfree by done. congruence. }
    assert (St : steady s g1 (set_back s bk' m') g1).
    { apply (backing_steady s g1 b); [apply Sh | done | done | done |]. intros r Hr. rewrite EB, lookup_insert_ne by (intros ->; done).
      apply lookup_delete_ne. intros ->. done. }
    eapply swp_mono; [apply (stamp_large_spec (set_back s bk' m') g1 q (8 + size)); [apply St | done | done | unfold SIZEOF_HEADER; lia |] |].
    { exists c'. split; [| done]. cbn [p_bk set_back]. rewrite EB. apply lookup_insert_eq. }
    intros np s2 (-> & Ho & g2 & d & Hst2 & Ld & _ & G). exists g2. split; [done |]. right. exists d, false.
    assert (G' := steady_grown _ _ _ _ _ _ _ _ _ St G). destruct G' as [G1 G2 G3 G4 G5].
    pose proof (live_bounds _ _ G1 _ _ _ (proj2 (G3 _ _ _) (or_intror (conj eq_refl (conj eq_refl eq_refl))))) as (Hp & _).
    unfold SIZEOF_HEADER in *. split; [lia |]. split; [lia |]. split.
    + done.
    + done.
    + intros r d' l. rewrite G3, (sh_live _ _ _ _ _ Sh). done.
    + destruct (decide (q + 8 = p)) as [-> | Hne]; [by left |]. right. intros d' l Hl'. apply (G4 d' l). by apply (sh_live _ _ _ _ _ Sh).
    + intros r d' l x Hr Hrp Hu. apply (G5 r d' l x); [by apply (sh_live _ _ _ _ _ Sh) | done | done].
    + intros i Hi'. rewrite Ho by (unfold at_; lia). cbn [p_mem set_back]. replace (q + 8 - 5 + i) with (q + (3 + i)) by lia.
      rewrite Hcp by lia. f_equal. unfold b. lia.
Qed.

Lemma js_arena_realloc_spec s g p c k size :
  pcore s g -> settled g -> live s g p c k -> 0 < size < 2 ^ 61 ->
  swp (js_arena_realloc p size) (fun np s' => reallocated s g p c size np s') s.
Proof.
  intros Hc Hst Hl Hs. pose proof (live_bounds _ _ Hc _ _ _ Hl) as (Hp & _ & Hc0 & _).
  unfold js_arena_realloc, pld. swp_steps.
  destruct (live_header _ _ _ _ _ Hc Hl) as [(ar & i & f & u & j & -> & Hs' & Hj & Hf & Ep & Ec & Hi & -> & Hnil & Ei) | (-> & Hb & HB & -> & Hz)].
  2:{ rewrite Z.eqb_refl. swp_steps. rewrite (proj2 (Z.eqb_neq _ _) Hz). by apply realloc_large_spec. }
  rewrite (proj2 (Z.eqb_neq _ _) Hnil). swp_steps. rewrite Ei. destruct (total_size_spec size ltac:(lia)) as (T1 & _).
  destruct (class_facts i Hi) as (C1 & _). unfold SIZEOF_HEADER in Ec.
  destruct (Z.leb_spec (pool_total_size size) (block_size_of i)) as [Hfit | Hno].
  - apply swp_ret. exists g. split; [done |]. right. exists c, true. split; [lia |]. split; [lia |]. split; try done.
    + intros q d l. destruct (decide (q = p)) as [-> | Hne]; [| tauto]. split; [| intros [[_ ?] | (_ & -> & ->)]; done].
      intros Hl'. right. split; [done |].
      destruct (live_disjoint _ _ Hc _ _ _ _ _ _ (p - 8) Hl Hl') as (_ & -> & <-); [..| done];
        pose proof (live_bounds _ _ Hc _ _ _ Hl') as (_ & _ & ? & _); unfold extent, at_, SIZEOF_HEADER; lia.
    + by left.
  - swp_steps. eapply swp_mono; [by apply (js_arena_malloc_spec s g) |]. intros np s1 (g1 & Hst1 & H).
    destruct (Z.eqb_spec np 0) as [-> | Hnp].
    { apply swp_ret. exists g1. split; [done |]. destruct H as [H | (? & ? & _ & ? & _)]; [by left | done]. }
    destruct H as [[? _] | (c' & k' & L & _ & G)]; [done |]. swp_steps. rewrite u64_small by (unfold SIZEOF_HEADER; lia).
    replace (block_size_of i - SIZEOF_HEADER) with c by (unfold SIZEOF_HEADER; lia).
    eapply swp_mono; [apply (move_block_spec s g p c true s1 g1 np c' k'); [done | done | done | done | lia] |].
    intros v s2 (g2 & Hst2 & R). apply swp_ret. exists g2. split; [done |]. right. exists c', k'. done.
Qed.

(** ** [js_arena_init] *)

Lemma init_heads_spec k : forall as_ i m,
  0 < as_ -> as_ + SIZEOF_JSArenaState < 2 ^ 62 -> 0 <= i -> i + Z.of_nat k <= JS_ARENA_BLOCK_SIZE_COUNT ->
  let m' := init_heads k as_ i m in
  only (fun x => exists j, i <= j < i + Z.of_nat k /\
          (at_ (arena_list as_ j) SIZEOF_LIST_HEAD x \/ at_ (free_arena_list as_ j) SIZEOF_LIST_HEAD x)) m m' /\
  forall j, i <= j < i + Z.of_nat k -> dll m' (arena_list as_ j) [] /\ dll m' (free_arena_list as_ j) [].
Proof.
  induction k as [| k IH]; intros as_ i m Ha Hb Hi Hk; cbv zeta; [split; [done | lia] |]. cbn [init_heads].
  set (m1 := init_list_head m (arena_list as_ i)). set (m2 := init_list_head m1 (free_arena_list as_ i)).
  assert (Hr : 0 <= arena_list as_ i < 2 ^ 63 /\ 0 <= free_arena_list as_ i < 2 ^ 63).
  { unfold arena_list, free_arena_list, SIZEOF_LIST_HEAD, SIZEOF_JSArenaState, JS_ARENA_BLOCK_SIZE_COUNT in *. lia. }
  destruct (init_list_head_spec m _ (proj1 Hr)) as [D1 O1]. destruct (init_list_head_spec m1 _ (proj2 Hr)) as [D2 O2]. fold m1 in D1, O1. fold m2 in D2, O2.
  destruct (IH as_ (i + 1) m2 Ha Hb ltac:(lia) ltac:(lia)) as [Ho Hl]. split.
  - eapply only_mono; [eapply only_or; [eapply only_or; [exact O1 | exact O2] | exact Ho] |].
    intros x [[Hx | Hx] | (j & Hj & Hx)]; [exists i; split; [lia | by left] | exists i; split; [lia | by right] | exists j; split; [lia | done]].
  - assert (Hnot : forall j x, i < j -> at_ (arena_list as_ j) SIZEOF_LIST_HEAD x \/ at_ (free_arena_list as_ j) SIZEOF_LIST_HEAD x ->
              j < JS_ARENA_BLOCK_SIZE_COUNT -> ~ at_ (arena_list as_ i) SIZEOF_LIST_HEAD x /\ ~ at_ (free_arena_list as_ i) SIZEOF_LIST_HEAD x).
    { intros j x Hj Hx. unfold at_, arena_list, free_arena_list, SIZEOF_LIST_HEAD, JS_ARENA_BLOCK_SIZE_COUNT in *. lia. }
    intros j Hj. destruct (Z.eq_dec j i) as [-> | Hne]; [| apply Hl; lia]. split.
    + eapply dll_agree; [| eapply dll_agree; [| exact D1]]; intros a x Ha' Hx; apply list_elem_of_singleton in Ha' as ->.
      * apply Ho. intros (j & Hj' & Hx'). destruct (Hnot j x); [lia | done | lia | done].
      * apply O2. unfold at_, arena_list, free_arena_list, SIZEOF_LIST_HEAD, JS_ARENA_BLOCK_SIZE_COUNT in *. lia.
    + eapply dll_agree; [| exact D2]. intros a x Ha' Hx; apply list_elem_of_singleton in Ha' as ->.
      apply Ho. intros (j & Hj' & Hx'). destruct (Hnot j x); [lia | done | lia | done].
Qed.

Definition blank (rt : Z) : ghost :=
  {| g_rt := rt; g_slabs := ∅; g_larges := ∅; g_all := fun _ => []; g_part := fun _ => [] |}.

Lemma js_arena_init_spec s rt c :
  bk_inv (p_bk s) (p_mem s) -> bk_blocks (p_bk s) !! rt = Some c -> rt <= p_arena_state s ->
  p_arena_state s + SIZEOF_JSArenaState <= rt + c ->
  swp js_arena_init (fun _ s' => pcore s' (blank rt) /\ settled (blank rt) /\ same_rest s s' /\ p_bk s' = p_bk s) s.
Proof.
  intros Hi HB L1 L2. destruct (bo_block _ (bk_geometry _ _ Hi) _ _ HB) as (B1 & _ & B2 & B3).
  unfold js_arena_init, pst, pmod. swp_steps. rewrite off0. cbn [p_mem set_mem p_arena_state p_bk].
  set (as_ := p_arena_state s) in *. set (m1 := storew 2 (p_mem s) (arena_zero_block as_) JS_ARENA_FREE_NIL).
  destruct (init_heads_spec (Z.to_nat JS_ARENA_BLOCK_SIZE_COUNT) as_ 0 m1) as [Ho Hd]; [unfold as_ in *; lia | lia | lia | done |].
  fold (init_all_heads as_ m1) in Ho, Hd. set (m2 := init_all_heads as_ m1) in *.
  assert (Hout : forall x, (exists j, 0 <= j < 0 + Z.of_nat (Z.to_nat JS_ARENA_BLOCK_SIZE_COUNT) /\
     (at_ (arena_list as_ j) SIZEOF_LIST_HEAD x \/ at_ (free_arena_list as_ j) SIZEOF_LIST_HEAD x)) -> as_ <= x < arena_zero_block as_).
  { intros x (j & Hj & Hx). unfold at_, arena_zero_block, arena_list, free_arena_list, SIZEOF_LIST_HEAD, JS_ARENA_BLOCK_SIZE_COUNT in *. lia. }
  assert (Hz : loadw 2 m2 (arena_zero_block as_) = JS_ARENA_FREE_NIL).
  { rewrite (only_loadw _ m1 m2 _ 2 Ho); [by apply loadw_storew |]. intros x Hx Hx'. apply Hout in Hx'. unfold at_ in Hx. lia. }
  split; [| split; [| done]].
  - split; simpl; try done.
    + eapply bk_client_writes; [exact Hi |]. eapply only_mono; [eapply only_or; [apply only_storew | exact Ho] |].
      intros x Hx. exists rt, c. split; [done |]. unfold SIZEOF_JSArenaState in *.
      destruct Hx as [Hx | Hx]; [| apply Hout in Hx]; unfold at_, arena_zero_block, SIZEOF_LIST_HEAD, JS_ARENA_BLOCK_SIZE_COUNT in *; lia.
    + by exists c.
    + intros i Hi'. unfold class_ok, JS_ARENA_BLOCK_SIZE_COUNT in *. split; [apply Hd; lia |]. split; [constructor |]. intros ar Ha. by apply not_elem_of_nil in Ha.
    + intros i Hi'. unfold class_ok, JS_ARENA_BLOCK_SIZE_COUNT in *. split; [apply Hd; lia |]. split; [constructor |]. intros ar Ha. by apply not_elem_of_nil in Ha.
  - intros ar i f Hs. unfold slab_at in Hs. simpl in Hs. by rewrite lookup_empty in Hs.
Qed.
End calls.
