(* ===== verification/PoolHeap.v ===== *)
(** * The runtime's allocator as a heap of blocks

    [js_malloc_rt] and its family against their specification: a finite map
    from live pointers to the engine's bytes behind them, with what each is
    charged for in the runtime's accounting. *)

From stdpp Require Import base list numbers gmap.
From Stdlib Require Import ZArith Lia.
From S2P Require Import Prelude Memory StateRun ListHead Pool PoolInvariant PoolUpdates PoolSpecs PoolCalls.

#[local] Open Scope st_scope.
#[local] Open Scope Z_scope.

(** ** Abstract heaps *)

(** The engine's bytes of a block: the five header bytes [gc_obj_type]/[mark]
    and [ref_count], then the contents. *)
Record hblock := { hb_bytes : list Z; hb_charge : Z }.
Abbreviation pheap := (gmap Z hblock).

Definition HDR : Z := 5.
Definition capacity_of (hb : hblock) : Z := lenZ (hb_bytes hb) - HDR.

Definition total (H : pheap) : Z := map_fold (fun _ hb n => hb_charge hb + n) 0 H.

Lemma total_insert (H : pheap) p hb : H !! p = None -> total (<[p := hb]> H) = hb_charge hb + total H.
Proof. intros Hn. unfold total. apply (map_fold_insert_L (fun _ hb n => hb_charge hb + n)); [intros; lia | done]. Qed.

Lemma total_delete (H : pheap) p hb : H !! p = Some hb -> total (delete p H) = total H - hb_charge hb.
Proof.
  intros Hp. rewrite <- (insert_delete_id H p hb Hp) at 2. rewrite total_insert by apply lookup_delete_eq. lia.
Qed.

(** Disjoint intervals inside a range are no longer than it. *)
Lemma disjoint_length (l : list (Z * Z)) hi :
  NoDup (l.*1) -> (forall a n, (a, n) ∈ l -> 0 <= a /\ 0 <= n /\ a + n <= hi) ->
  (forall a n a' n' x, (a, n) ∈ l -> (a', n') ∈ l -> at_ a n x -> at_ a' n' x -> a = a') -> 0 <= hi ->
  foldr (fun an t => snd an + t) 0 l <= hi.
Proof.
  intros Hnd Hin Hdis Hhi.
  assert (Hlen : Z.of_nat (length (l ≫= fun an => seqZ (fst an) (snd an))) = foldr (fun an t => snd an + t) 0 l).
  { clear Hnd Hdis. induction l as [| [a n] l IH]; [done |]. rewrite bind_cons, length_app, length_seqZ, Nat2Z.inj_add, IH; cbn [foldr fst snd].
    - destruct (Hin a n ltac:(apply list_elem_of_here)). lia.
    - intros a' n' H. apply Hin. by apply list_elem_of_further. }
  rewrite <- Hlen. assert (Hle : (length (l ≫= fun an => seqZ (fst an) (snd an)) <= length (seqZ 0 hi))%nat).
  { apply submseteq_length, NoDup_submseteq.
    - clear Hlen Hhi. induction l as [| [a n] l IH]; [constructor |]. rewrite bind_cons. cbn [fst snd]. simpl in Hnd. apply NoDup_cons in Hnd as [Ha Hnd].
      apply NoDup_app. split; [apply NoDup_seqZ |]. split.
      + intros x Hx Hx'. apply elem_of_seqZ in Hx. apply list_elem_of_bind in Hx' as ([a' n'] & Hx' & Hl). apply elem_of_seqZ in Hx'. simpl in Hx'.
        apply Ha. assert (a = a') as ->. { eapply (Hdis a n a' n' x); [apply list_elem_of_here | by apply list_elem_of_further | done | done]. }
        apply list_elem_of_fmap. by exists (a', n').
      + apply IH; [done | |]; intros; [apply Hin | eapply Hdis]; eauto using list_elem_of_further.
    - intros x Hx. apply list_elem_of_bind in Hx as ([a n] & Hx & Hl). apply elem_of_seqZ in Hx. simpl in Hx.
      destruct (Hin a n Hl). apply elem_of_seqZ. lia. }
  rewrite length_seqZ in Hle. lia.
Qed.

Lemma total_fold (H : pheap) :
  total H = foldr (fun an t => snd an + t) 0 ((fun pb : Z * hblock => (fst pb - 8, hb_charge (snd pb))) <$> map_to_list H).
Proof.
  unfold total. rewrite map_fold_foldr. induction (map_to_list H) as [| [p hb] l IH]; [done |]. simpl. by rewrite IH.
Qed.

Section heap.
Context `{BL : BackingLaws}.

Definition block_view (s : pool) (p c : Z) (k : bool) : hblock :=
  {| hb_bytes := load_bytes (p_mem s) (p - 5) (Z.to_nat (5 + c)); hb_charge := reported c k + MALLOC_OVERHEAD |}.

(** The state [s] holds the heap [H]. *)
Record holds (s : pool) (g : ghost) (H : pheap) : Prop := {
  ho_core : pcore s g;
  ho_settled : settled g;
  ho_live : forall p hb, H !! p = Some hb <-> exists c k, live s g p c k /\ hb = block_view s p c k
}.

Lemma live_unique s g p c k c' k' : pcore s g -> live s g p c k -> live s g p c' k' -> c = c' /\ k = k'.
Proof.
  intros Hc H1 H2. pose proof (live_bounds _ _ Hc _ _ _ H1) as (_ & _ & ? & _). pose proof (live_bounds _ _ Hc _ _ _ H2) as (_ & _ & ? & _).
  destruct (live_disjoint _ _ Hc _ _ _ _ _ _ (p - 8) H1 H2) as (_ & ? & ?); [..| done]; unfold extent, at_, SIZEOF_HEADER; lia.
Qed.

Lemma view_kept s g s' p c k :
  live s g p c k -> (forall x, user p c x -> load8 (p_mem s') x = load8 (p_mem s) x) -> block_view s' p c k = block_view s p c k.
Proof.
  intros Hl Hk. unfold block_view. f_equal. apply load_bytes_ext. intros x Hx. apply Hk. unfold user, at_. lia.
Qed.

Lemma holds_live s g H p c k : holds s g H -> live s g p c k -> H !! p = Some (block_view s p c k).
Proof. intros Hh Hl. apply Hh. eauto. Qed.

Lemma holds_none s g H p : holds s g H -> H !! p = None <-> forall c k, ~ live s g p c k.
Proof.
  intros Hh. split.
  - intros Hn c k Hl. rewrite (holds_live _ _ _ _ _ _ Hh Hl) in Hn. done.
  - intros Hn. destruct (H !! p) eqn:E; [| done]. apply Hh in E as (c & k & Hl & _). by apply Hn in Hl.
Qed.

(** Facts of the blocks of a heap. *)
Lemma holds_block s g H p hb :
  holds s g H -> H !! p = Some hb ->
  exists c k, live s g p c k /\ hb = block_view s p c k /\ capacity_of hb = c /\ 8 < p /\ p + c < 2 ^ 62 /\ 0 < c /\ (8 | p) /\
    hb_charge hb = reported c k + 8 /\ 8 <= hb_charge hb <= 8 + c.
Proof.
  intros Hh Hp. apply Hh in Hp as (c & k & Hl & ->). pose proof (live_bounds _ _ (ho_core _ _ _ Hh) _ _ _ Hl) as (B1 & B2 & B3 & B4).
  exists c, k. unfold capacity_of, block_view, HDR, lenZ, MALLOC_OVERHEAD, reported. simpl. rewrite length_load_bytes.
  repeat (split; [done || lia |]). destruct (k || bk_reports); lia.
Qed.

Lemma total_bound s g H : holds s g H -> 0 <= total H <= 2 ^ 62 /\ 8 * Z.of_nat (size H) <= total H.
Proof.
  intros Hh.
  assert (Hb : forall p hb, (p, hb) ∈ map_to_list H -> 8 <= hb_charge hb /\ 8 < p /\ p - 8 + hb_charge hb <= 2 ^ 62).
  { intros p hb Hp. apply elem_of_map_to_list in Hp. destruct (holds_block _ _ _ _ _ Hh Hp) as (c & k & _ & _ & _ & ? & ? & ? & _ & _ & ?). lia. }
  assert (Hlow : 8 * Z.of_nat (size H) <= total H).
  { rewrite total_fold, <- length_map_to_list. clear Hh. induction (map_to_list H) as [| [p hb] l IH]; [done |].
    destruct (Hb p hb ltac:(apply list_elem_of_here)). rewrite fmap_cons, length_cons. cbn [foldr fst snd]. specialize (IH (fun q h Hq => Hb q h (list_elem_of_further _ _ _ Hq))). lia. }
  split; [| done]. split; [lia |]. rewrite total_fold. apply disjoint_length; [| | | lia].
  - rewrite <- list_fmap_compose. assert (Hnd := NoDup_fst_map_to_list H). clear -Hnd. induction (map_to_list H) as [| [p hb] l IH]; [constructor |].
    simpl in *. apply NoDup_cons in Hnd as [Hn Hnd]. apply NoDup_cons. split; [| by apply IH]. intros Hin. apply Hn.
    apply list_elem_of_fmap in Hin as ([q hq] & E & Hq). simpl in E. apply list_elem_of_fmap. exists (q, hq). split; [simpl; lia | done].
  - intros a n Ha. apply list_elem_of_fmap in Ha as ([p hb] & [= -> ->] & Hp). destruct (Hb p hb Hp). simpl. lia.
  - intros a n a' n' x Ha Ha' Hx Hx'. apply list_elem_of_fmap in Ha as ([p hb] & [= -> ->] & Hp). apply list_elem_of_fmap in Ha' as ([q hq] & [= -> ->] & Hq).
    simpl in *. apply elem_of_map_to_list in Hp, Hq.
    destruct (holds_block _ _ _ _ _ Hh Hp) as (c & k & Hl & _ & _ & _ & _ & _ & _ & _ & L1).
    destruct (holds_block _ _ _ _ _ Hh Hq) as (c' & k' & Hl' & _ & _ & _ & _ & _ & _ & _ & L2).
    destruct (live_disjoint _ _ (ho_core _ _ _ Hh) _ _ _ _ _ _ x Hl Hl') as (-> & _); [..| done]; unfold extent, at_, SIZEOF_HEADER in *; lia.
Qed.

(** *** Outcomes on heaps *)

Lemma holds_steady s g H s' g' : holds s g H -> settled g' -> steady s g s' g' -> holds s' g' H.
Proof.
  intros Hh Hst [S1 S2 S3 S4]. split; [done | done |]. intros p hb. rewrite (ho_live _ _ _ Hh). split; intros (c & k & Hl & ->); exists c, k.
  - split; [by apply S3 |]. symmetry. apply (view_kept s g); [done |]. intros x Hx. by eapply S4.
  - apply S3 in Hl. split; [done |]. apply (view_kept s g); [done |]. intros x Hx. by eapply S4.
Qed.

Lemma holds_grown s g H s' g' p c k :
  holds s g H -> settled g' -> grown s g s' g' p c k ->
  H !! p = None /\ holds s' g' (<[p := block_view s' p c k]> H).
Proof.
  intros Hh Hst [G1 G2 G3 G4 G5]. assert (Hn : H !! p = None) by by apply (holds_none s g).
  split; [done |]. split; [done | done |]. intros q hb. destruct (decide (q = p)) as [-> | Hne].
  - rewrite lookup_insert_eq. split; [intros [= <-]; exists c, k; split; [apply G3; by right | done] |].
    intros (c' & k' & Hl & ->). apply G3 in Hl as [Hl | (_ & -> & ->)]; [by apply G4 in Hl | done].
  - rewrite lookup_insert_ne by done. rewrite (ho_live _ _ _ Hh). split; intros (d & l & Hl & ->); exists d, l.
    + split; [apply G3; by left |]. symmetry. apply (view_kept s g); [done |]. intros x Hx. by eapply G5.
    + apply G3 in Hl as [Hl | (? & _)]; [| done]. split; [done |]. apply (view_kept s g); [done |]. intros x Hx. by eapply G5.
Qed.

Lemma holds_shrunk s g H s' g' p : holds s g H -> settled g' -> shrunk s g s' g' p -> holds s' g' (delete p H).
Proof.
  intros Hh Hst [S1 S2 S3 S4]. split; [done | done |]. intros q hb. rewrite lookup_delete_Some, (ho_live _ _ _ Hh). split.
  - intros (Hne & c & k & Hl & ->). exists c, k. split; [apply S3; done |]. symmetry. apply (view_kept s g); [done |]. intros x Hx. by eapply (S4 q c k).
  - intros (c & k & Hl & ->). apply S3 in Hl as [Hl Hne]. split; [done |]. exists c, k. split; [done |].
    apply (view_kept s g); [done |]. intros x Hx. by eapply (S4 q c k).
Qed.

Lemma holds_replaced s g H s' g' p np c' k' n :
  holds s g H -> settled g' -> replaced s g s' g' p np c' k' n ->
  delete p H !! np = None /\ holds s' g' (<[np := block_view s' np c' k']> (delete p H)).
Proof.
  intros Hh Hst [R1 R2 R3 R4 R5 R6].
  assert (Hn : delete p H !! np = None).
  { destruct R4 as [-> | R4]; [apply lookup_delete_eq |]. apply lookup_delete_None. right. by apply (holds_none s g). }
  split; [done |]. split; [done | done |]. intros q hb. destruct (decide (q = np)) as [-> | Hne].
  - rewrite lookup_insert_eq. split; [intros [= <-]; exists c', k'; split; [apply R3; by right | done] |].
    intros (d & l & Hl & ->). apply R3 in Hl as [[Hl Hp] | (_ & -> & ->)]; [| done].
    destruct R4 as [-> | R4]; [done | by apply R4 in Hl].
  - rewrite lookup_insert_ne, lookup_delete_Some, (ho_live _ _ _ Hh) by done. split.
    + intros (Hp & d & l & Hl & ->). exists d, l. split; [apply R3; left; done |]. symmetry. apply (view_kept s g); [done |]. intros x Hx. by eapply (R5 q d l).
    + intros (d & l & Hl & ->). apply R3 in Hl as [[Hl Hp] | (? & _)]; [| done]. split; [done |]. exists d, l. split; [done |].
      apply (view_kept s g); [done |]. intros x Hx. by eapply (R5 q d l).
Qed.
End heap.
