(* ===== verification/PoolTheorems.v ===== *)
(** * The runtime's allocator: the theorems

    Any sequence of allocations, releases, reallocations and stores of the
    engine refines the abstract heap; the runtime's accounting is exact; an
    arena runtime leaves the pool alone. *)

From stdpp Require Import base list numbers gmap.
From Stdlib Require Import ZArith Lia.
From S2P Require Import Prelude Memory StateRun ListHead Pool PoolInvariant PoolUpdates PoolSpecs PoolCalls PoolHeap.

#[local] Open Scope st_scope.
#[local] Open Scope Z_scope.

(** ** Operations of the engine *)

Inductive pop :=
  | PMalloc (size : Z)
  | PCalloc (count size : Z)
  | PRealloc (p size : Z)
  | PFree (p : Z)
  | PUsable (p : Z)
  | PWrite (p off : Z) (bytes : list Z)
  | PMark.

(** The heap and whether the runtime has become an arena runtime. *)
Record aheap := { ah_blocks : pheap; ah_arena : bool }.

Definition ah_set (h : aheap) (p : Z) (hb : hblock) : aheap :=
  {| ah_blocks := <[p := hb]> (ah_blocks h); ah_arena := ah_arena h |}.
Definition ah_del (h : aheap) (p : Z) : aheap :=
  {| ah_blocks := delete p (ah_blocks h); ah_arena := ah_arena h |}.

(** Sizes are at most 2^61; a product that overflows is fine as well. *)
Definition pop_legal (h : aheap) (o : pop) : Prop :=
  let live p := p = 0 \/ is_Some (ah_blocks h !! p) in
  match o with
  | PMalloc n => 0 <= n < 2 ^ 61
  | PCalloc c n => 0 < c < 2 ^ 64 /\ 0 < n < 2 ^ 64 /\ (c * n < 2 ^ 61 \/ 2 ^ 64 <= c * n)
  | PRealloc p n => live p /\ 0 <= n < 2 ^ 61
  | PFree p | PUsable p => live p
  | PWrite p off bytes => exists hb, ah_blocks h !! p = Some hb /\ 0 <= off /\ off + lenZ bytes <= lenZ (hb_bytes hb)
  | PMark => True
  end.

(** A block of at least [n] bytes that was not there; the charge is its
    capacity and the overhead, or the overhead alone. *)
Definition new_block (h : aheap) (p : Z) (hb : hblock) (n : Z) : Prop :=
  ah_blocks h !! p = None /\ 8 < p /\ (8 | p) /\ HDR + n <= lenZ (hb_bytes hb) /\
  (hb_charge hb = MALLOC_OVERHEAD \/ hb_charge hb = capacity_of hb + MALLOC_OVERHEAD).

(** The overflow test of [js_calloc_rt]. *)
Lemma calloc_check c n :
  0 < c < 2 ^ 64 -> 0 < n < 2 ^ 64 -> (c =? u64 (c * n) / n) = (c * n <? 2 ^ 64).
Proof.
  intros Hc Hn. destruct (Z.ltb_spec (c * n) (2 ^ 64)) as [L | L].
  - rewrite u64_small by nia. rewrite Z.div_mul by lia. apply Z.eqb_refl.
  - apply Z.eqb_neq. intros E. pose proof (u64_range (c * n)) as R. pose proof (Z.mul_div_le (u64 (c * n)) n ltac:(lia)). nia.
Qed.

(** ** The heap the engine sees *)

Section ops.
Context `{BL : BackingLaws}.

Definition do_pop (o : pop) : P Z :=
  match o with
  | PMalloc n => js_malloc_rt n
  | PCalloc c n => js_calloc_rt c n
  | PRealloc p n => js_realloc_rt p n
  | PFree p => js_free_rt p ;^ sret 0
  | PUsable p => js_malloc_usable_size_rt p
  | PWrite p off bytes => pmod (fun m => store_bytes m (p - 5 + off) bytes) ;^ sret 0
  | PMark => smod (fun s => set_is_arena s true) ;^ sret 0
  end.

(** [lim] is [malloc_limit], [rtc] what the runtime struct is charged. *)
Context (lim rtc : Z).

(** Steps of the heap, where [R n] says that the backing allocator refuses a
    request of at most [n] bytes. *)
Section steps.
Context (R : Z -> Prop).

(** Why a call for [n] bytes that adds [d] to the charges may answer NULL. *)
Definition refused (h : aheap) (n d : Z) : Prop :=
  R (asked n) \/ (ah_arena h = false /\ lim <> 0 /\ lim <= rtc + total (ah_blocks h) + d).

Inductive hstep : aheap -> pop -> Z -> aheap -> Prop :=
  | hs_malloc_0 h : hstep h (PMalloc 0) 0 h
  | hs_malloc_null h n : 0 < n -> refused h n n -> hstep h (PMalloc n) 0 h
  | hs_malloc h n p hb : 0 < n -> new_block h p hb n -> hstep h (PMalloc n) p (ah_set h p hb)
  | hs_calloc_over h c n : 2 ^ 64 <= c * n -> hstep h (PCalloc c n) 0 h
  | hs_calloc_null h c n : refused h (c * n) (c * n) -> hstep h (PCalloc c n) 0 h
  | hs_calloc h c n p hb : new_block h p hb (c * n) ->
      (forall i, 0 <= i < c * n -> nthZ 1 (hb_bytes hb) (HDR + i) = 0) -> hstep h (PCalloc c n) p (ah_set h p hb)
  | hs_realloc_null h n r h' : hstep h (PMalloc n) r h' -> hstep h (PRealloc 0 n) r h'
  | hs_realloc_0 h p : p <> 0 -> hstep h (PRealloc p 0) 0 (ah_del h p)
  | hs_realloc_refused h p n hb : 0 < n -> ah_blocks h !! p = Some hb ->
      refused h n (n - (hb_charge hb - MALLOC_OVERHEAD)) -> hstep h (PRealloc p n) 0 h
  | hs_realloc h p n hb np hb' : 0 < n -> ah_blocks h !! p = Some hb -> new_block (ah_del h p) np hb' n ->
      (forall i, 0 <= i < HDR + Z.min n (capacity_of hb) -> nthZ 0 (hb_bytes hb') i = nthZ 0 (hb_bytes hb) i) ->
      hstep h (PRealloc p n) np (ah_set (ah_del h p) np hb')
  | hs_free h p : hstep h (PFree p) 0 (ah_del h p)
  | hs_usable_null h : hstep h (PUsable 0) 0 h
  | hs_usable h p hb : ah_blocks h !! p = Some hb -> hstep h (PUsable p) (hb_charge hb - MALLOC_OVERHEAD) h
  | hs_write h p off bytes hb hb' : ah_blocks h !! p = Some hb -> hb_charge hb' = hb_charge hb ->
      lenZ (hb_bytes hb') = lenZ (hb_bytes hb) ->
      (forall i, 0 <= i < lenZ (hb_bytes hb) -> nthZ 0 (hb_bytes hb') i =
         if (off <=? i) && (i <? off + lenZ bytes) then nthZ 0 bytes (i - off) else nthZ 0 (hb_bytes hb) i) ->
      hstep h (PWrite p off bytes) 0 (ah_set h p hb')
  | hs_mark h : hstep h PMark 0 {| ah_blocks := ah_blocks h; ah_arena := true |}.
End steps.
#[local] Hint Constructors hstep : core.

Lemma hstep_mono (R R' : Z -> Prop) h o r h' : (forall n, R n -> R' n) -> hstep R h o r h' -> hstep R' h o r h'.
Proof.
  intros HR. assert (Hr : forall h n d, refused R h n d -> refused R' h n d) by (intros ? ? ? [?|?]; [left; auto | by right]).
  induction 1; eauto.
Qed.

(** ** The invariant *)

(** Charges are positive, so removing a block keeps the total nonnegative. *)
Lemma total_nonneg_delete s g (H : pheap) p : holds s g H -> 0 <= total (delete p H).
Proof.
  intros Hh. rewrite total_fold.
  assert (Hb : forall q hb, (q, hb) ∈ map_to_list (delete p H) -> 8 <= hb_charge hb).
  { intros q hb Hq. apply elem_of_map_to_list in Hq. apply lookup_delete_Some in Hq as [_ Hq].
    destruct (holds_block _ _ _ _ _ Hh Hq) as (c & k & _ & _ & _ & _ & _ & _ & _ & _ & ?). lia. }
  induction (map_to_list (delete p H)) as [| [q hb] l IH]; [done |]. rewrite fmap_cons. cbn [foldr fst snd].
  specialize (Hb q hb ltac:(apply list_elem_of_here)) as H1.
  specialize (IH (fun r h Hr => Hb r h (list_elem_of_further _ _ _ Hr))). lia.
Qed.

Definition counted (s : pool) (H : pheap) : Prop :=
  malloc_size (p_ms s) = rtc + total H /\ malloc_count (p_ms s) = 1 + Z.of_nat (size H).

Definition pinv (s : pool) (h : aheap) : Prop := exists g, holds s g (ah_blocks h) /\
  p_is_arena s = ah_arena h /\ malloc_limit (p_ms s) = lim /\ (ah_arena h = false -> counted s (ah_blocks h)).

Hypothesis Hrtc : 0 <= rtc <= 2 ^ 62.
Hypothesis Hlim : 0 <= lim < 2 ^ 64.

Lemma over_limit_spec x H n s g :
  holds s g H -> malloc_limit x = lim -> malloc_size x = rtc + total H -> 0 <= rtc + total H + n < 2 ^ 64 ->
  over_limit x n = true -> lim <> 0 /\ lim <= rtc + total H + n.
Proof.
  intros Hh E1 E2 Hn. unfold over_limit. rewrite E1, E2, (u64_small (_ + n)) by lia. intros Ho. b2p.
  destruct (Z.eq_dec lim 0) as [E | Hne]; [| rewrite u64_small in Ho by lia; lia].
  rewrite E in Ho. change (u64 (0 - 1)) with (2 ^ 64 - 1) in Ho. lia.
Qed.

(** A block as the heap shows it. *)
Lemma view_new s g p c k n :
  pcore s g -> live s g p c k -> n <= c ->
  8 < p /\ (8 | p) /\ HDR + n <= lenZ (hb_bytes (block_view s p c k)) /\ capacity_of (block_view s p c k) = c /\
  (hb_charge (block_view s p c k) = MALLOC_OVERHEAD \/
   hb_charge (block_view s p c k) = capacity_of (block_view s p c k) + MALLOC_OVERHEAD).
Proof.
  intros Hc Hl Hn. pose proof (live_bounds _ _ Hc _ _ _ Hl) as (B1 & B2 & B3 & B4).
  unfold capacity_of, block_view, HDR, lenZ, reported. simpl. rewrite length_load_bytes.
  split; [done |]. split; [done |]. split; [lia |]. split; [lia |]. destruct (k || bk_reports); [right; lia | by left].
Qed.

Lemma view_nth s p c k i d : 0 <= i < 5 + c -> nthZ d (hb_bytes (block_view s p c k)) i = load8 (p_mem s) (p - 5 + i).
Proof.
  intros Hi. unfold block_view. simpl. rewrite <- (nthZ_load_bytes (p_mem s) (p - 5) (Z.to_nat (5 + c)) i) by lia.
  unfold nthZ. destruct (lookup_lt_is_Some_2 (load_bytes (p_mem s) (p - 5) (Z.to_nat (5 + c))) (Z.to_nat i)) as [x ->]; [| done].
  rewrite length_load_bytes. lia.
Qed.

(** Accounting for a block obtained. *)
Lemma tracked_spec s g H H0 p c k :
  holds s g H -> live s g p c k -> total H = hb_charge (block_view s p c k) + total H0 ->
  Z.of_nat (size H) = 1 + Z.of_nat (size H0) -> counted s H0 ->
  swp (tracked p) (fun r s' => r = p /\ s' = set_ms s {| malloc_count := 1 + Z.of_nat (size H); malloc_size := rtc + total H;
                                                 malloc_limit := malloc_limit (p_ms s) |}) s.
Proof.
  intros Hh Hl Ht Hz [C1 C2]. pose proof (total_bound _ _ _ Hh) as [[T1 T2] T3]. unfold tracked.
  rewrite (live_nonzero _ _ _ _ _ (ho_core _ _ _ Hh) Hl). apply swp_bind.
  eapply swp_mono; [apply (js_arena_usable_size_spec s g p c k (ho_core _ _ _ Hh) Hl) |]. intros n s' [-> ->].
  unfold add_ms. swp_steps. split; [done |]. rewrite C1, C2. cbn [block_view hb_charge] in Ht.
  f_equal. f_equal; (rewrite u64_small; [lia |]); lia.
Qed.

(** The heap is that of the memory, the backing allocator and the pages. *)
Lemma holds_fields s g H s' :
  holds s g H -> p_mem s' = p_mem s -> p_bk s' = p_bk s -> p_arena_state s' = p_arena_state s -> holds s' g H.
Proof.
  intros [[H1 H2 H3 H4 H5 H6 H7] Hst Hl] E1 E2 E3. split; [| done |].
  - split; rewrite ?E1, ?E2, ?E3; done.
  - intros p hb. rewrite Hl. split; intros (c & k & Hk & ->); exists c, k.
    + split; [apply (live_ext s g); [done | done | by rewrite E2 | done] |]. unfold block_view. by rewrite E1.
    + split; [apply (live_ext s' g s g); [done | done | by rewrite E2 | done] |]. unfold block_view. by rewrite E1.
Qed.

Lemma pinv_arena s g h :
  holds s g (ah_blocks h) -> p_is_arena s = true -> ah_arena h = true -> malloc_limit (p_ms s) = lim -> pinv s h.
Proof. intros Hh E1 E2 E3. exists g. split; [done |]. split; [congruence |]. split; [done |]. congruence. Qed.

(** What an allocating call gives, by its answer. *)
Definition answer (R : Z -> Prop) (Z_ : Z -> pool -> Prop) (h : aheap) (n r : Z) (s' : pool) : Prop :=
  (r = 0 /\ R (asked n) /\ pinv s' h) \/
  exists s1 c k, new_block h r (block_view s1 r c k) n /\ Z_ r s1 /\ n <= c /\ pinv s' (ah_set h r (block_view s1 r c k)).

Section alloc.
Context (s : pool) (h : aheap) (g : ghost) (n : Z) (m : P Z) (Z_ : Z -> pool -> Prop).
Hypothesis Hh : holds s g (ah_blocks h).
Hypothesis Har : p_is_arena s = ah_arena h.
Hypothesis Hl : malloc_limit (p_ms s) = lim.
Hypothesis Hm : swp m (fun r s' => allocated s g n r s' /\ (r <> 0 -> Z_ r s')) s.

Lemma alloc_arena : ah_arena h = true -> swp m (answer (backing_refuses s) Z_ h n) s.
Proof.
  intros Ea. eapply swp_mono; [exact Hm |]. intros r s1 [(g1 & Hst1 & [(-> & Hrf & St) | (c & k & L & H0 & G)]) HZ].
  - left. split; [done |]. split; [done |]. destruct (sd_rest _ _ _ _ St) as (_ & E2 & E3).
    apply (pinv_arena s1 g1); [by eapply holds_steady | congruence | done | congruence].
  - right. exists s1, c, k. destruct (holds_grown _ _ _ _ _ _ _ _ Hh Hst1 G) as [Hn Hh1]. destruct (gr_rest _ _ _ _ _ _ _ G) as (_ & E2 & E3).
    assert (Hlv : live s1 g1 r c k) by (apply (gr_live _ _ _ _ _ _ _ G); by right).
    destruct (view_new s1 g1 r c k n (ho_core _ _ _ Hh1) Hlv L) as (V1 & V2 & V3 & _ & V4).
    split; [done |]. split; [auto |]. split; [done |]. apply (pinv_arena s1 g1); [done | congruence | done | congruence].
Qed.

Lemma alloc_tracked : ah_arena h = false -> counted s (ah_blocks h) -> swp (let^ ptr := m in tracked ptr) (answer (backing_refuses s) Z_ h n) s.
Proof.
  intros Ea Hc. apply swp_bind. eapply swp_mono; [exact Hm |]. intros r s1 [(g1 & Hst1 & [(-> & Hrf & St) | (c & k & L & H0 & G)]) HZ].
  - unfold tracked. simpl. apply swp_ret. left. split; [done |]. split; [done |]. destruct (sd_rest _ _ _ _ St) as (_ & E2 & E3).
    exists g1. split; [by eapply holds_steady |]. split; [congruence |]. split; [congruence |]. unfold counted. by rewrite E3.
  - destruct (holds_grown _ _ _ _ _ _ _ _ Hh Hst1 G) as [Hn Hh1]. destruct (gr_rest _ _ _ _ _ _ _ G) as (_ & E2 & E3).
    assert (Hlv : live s1 g1 r c k) by (apply (gr_live _ _ _ _ _ _ _ G); by right).
    destruct (view_new s1 g1 r c k n (ho_core _ _ _ Hh1) Hlv L) as (V1 & V2 & V3 & _ & V4).
    set (H1 := <[r := block_view s1 r c k]> (ah_blocks h)) in *.
    eapply swp_mono; [apply (tracked_spec s1 g1 H1 (ah_blocks h) r c k Hh1 Hlv) |].
    + unfold H1. by rewrite total_insert.
    + unfold H1. rewrite map_size_insert_None by done. lia.
    + unfold counted. by rewrite E3.
    + intros r' s2 [-> ->]. right. exists s1, c, k. split; [done |]. split; [auto |]. split; [done |].
      exists g1. split; [by eapply holds_fields |]. cbn [p_is_arena set_ms p_ms malloc_limit malloc_size malloc_count].
      split; [simpl; congruence |]. split; [congruence |]. intros _. done.
Qed.
End alloc.

Lemma rt_malloc_step s h n :
  pinv s h -> 0 <= n < 2 ^ 61 -> swp (js_malloc_rt n) (fun r s' => exists h', hstep (backing_refuses s) h (PMalloc n) r h' /\ pinv s' h') s.
Proof.
  intros (g & Hh & Har & Hl & Hc) Hn. unfold js_malloc_rt. destruct (Z.eqb_spec n 0) as [-> | Hn0].
  { apply swp_ret. exists h. split; [constructor |]. by exists g. }
  assert (Hm : swp (js_arena_malloc n) (fun r s' => allocated s g n r s' /\ (r <> 0 -> True)) s).
  { eapply swp_mono; [apply (js_arena_malloc_spec s g n); [apply Hh | apply Hh | lia] |]. done. }
  assert (Hans : forall r s', answer (backing_refuses s) (fun _ _ => True) h n r s' -> exists h', hstep (backing_refuses s) h (PMalloc n) r h' /\ pinv s' h').
  { intros r s' [(-> & Hr & Hp) | (s1 & c & k & Hnb & _ & _ & Hp)].
    - exists h. split; [apply hs_malloc_null; [lia | by left] | done].
    - eexists. split; [apply hs_malloc; [lia | exact Hnb] | done]. }
  swp_steps. unfold id. rewrite Har. destruct (ah_arena h) eqn:Ea.
  - eapply swp_mono; [apply (alloc_arena s h g n (js_arena_malloc n) (fun _ _ => True)); try done; congruence |]. done.
  - specialize (Hc eq_refl). destruct (over_limit (p_ms s) n) eqn:Eo.
    + apply swp_ret. exists h. pose proof (total_bound _ _ _ Hh) as [[T1 T2] _]. split; [| exists g; rewrite Ea; done].
      apply hs_malloc_null; [lia |]. right. split; [done |]. eapply over_limit_spec; [done | done | apply Hc | lia | done].
    + eapply swp_mono; [apply (alloc_tracked s h g n (js_arena_malloc n) (fun _ _ => True)); try done; congruence |]. done.
Qed.

Lemma rt_calloc_step s h c n :
  pinv s h -> pop_legal h (PCalloc c n) ->
  swp (js_calloc_rt c n) (fun r s' => exists h', hstep (backing_refuses s) h (PCalloc c n) r h' /\ pinv s' h') s.
Proof.
  intros (g & Hh & Har & Hl & Hc) (Lc & Ln & Hcn). unfold js_calloc_rt.
  rewrite (proj2 (Z.eqb_neq c 0)), (proj2 (Z.eqb_neq n 0)), (proj2 (Z.ltb_lt 0 n)) by lia. simpl. rewrite calloc_check by done.
  destruct (Z.ltb_spec (c * n) (2 ^ 64)) as [L | L]; simpl.
  2:{ apply swp_ret. exists h. split; [by apply hs_calloc_over | by exists g]. }
  assert (Hm : swp (js_arena_calloc c n) (fun r s' => allocated s g (c * n) r s' /\
    (r <> 0 -> forall x, at_ r (c * n) x -> load8 (p_mem s') x = 0)) s).
  { apply js_arena_calloc_spec; [apply Hh | apply Hh | nia]. }
  assert (Hans : forall r s', answer (backing_refuses s) (fun r s1 => forall x, at_ r (c * n) x -> load8 (p_mem s1) x = 0) h (c * n) r s' ->
                   exists h', hstep (backing_refuses s) h (PCalloc c n) r h' /\ pinv s' h').
  { intros r s' [(-> & Hr & Hp) | (s1 & d & k & Hnb & Hz & Ld & Hp)].
    - exists h. split; [apply hs_calloc_null; by left | done].
    - eexists. split; [apply hs_calloc; [exact Hnb |] | done]. unfold HDR. intros i Hi. rewrite view_nth by lia. apply Hz. unfold at_. lia. }
  swp_steps. unfold id. rewrite Har. destruct (ah_arena h) eqn:Ea.
  - eapply swp_mono; [eapply (alloc_arena s h g (c * n)); [exact Hh | congruence | done | exact Hm | done] |]. exact Hans.
  - specialize (Hc eq_refl). destruct (over_limit (p_ms s) (u64 (c * n))) eqn:Eo.
    + rewrite u64_small in Eo by nia. apply swp_ret. exists h. pose proof (total_bound _ _ _ Hh) as [[T1 T2] _]. split; [| exists g; rewrite Ea; done].
      apply hs_calloc_null. right. split; [done |]. eapply over_limit_spec; [done | done | apply Hc | nia | done].
    + eapply swp_mono; [eapply (alloc_tracked s h g (c * n)); [exact Hh | congruence | done | exact Hm | done | done] |]. exact Hans.
Qed.

(** Releasing a live block. *)
Lemma free_live s h p :
  pinv s h -> is_Some (ah_blocks h !! p) -> swp (js_free_rt p) (fun _ s' => pinv s' (ah_del h p)) s.
Proof.
  intros (g & Hh & Har & Hl & Hc) [hb Hp]. destruct (holds_block _ _ _ _ _ Hh Hp) as (c & k & Hlv & Ev & _ & Hp8 & Hpc & _ & _ & Ech & Hch).
  unfold js_free_rt. rewrite (live_nonzero _ _ _ _ _ (ho_core _ _ _ Hh) Hlv). swp_steps. unfold id. rewrite Har. destruct (ah_arena h) eqn:Ea.
  - eapply swp_mono; [apply (js_arena_free_spec s g p c k); [apply Hh | apply Hh | done] |]. intros v s' (g' & Hst & Sh).
    destruct (sh_rest _ _ _ _ _ Sh) as (_ & E2 & E3). apply (pinv_arena s' g'); [by eapply holds_shrunk | congruence | done | congruence].
  - destruct (Hc eq_refl) as [C1 C2]. pose proof (total_bound _ _ _ Hh) as [[T1 T2] T3]. pose proof (total_delete _ _ _ Hp) as Td.
    swp_steps. eapply swp_mono; [apply (js_arena_usable_size_spec s g p c k (ho_core _ _ _ Hh) Hlv) |]. intros n s' [-> ->].
    change (reported c k + MALLOC_OVERHEAD) with (reported c k + 8). rewrite <- Ech, u64_small by lia.
    assert (Hsz : size (ah_blocks h) = S (size (delete p (ah_blocks h)))).
    { rewrite <- (insert_delete_id _ _ _ Hp) at 1. apply map_size_insert_None, lookup_delete_eq. }
    assert (Hdel : 0 <= total (delete p (ah_blocks h))).
    { rewrite Td. assert (Hle : hb_charge hb <= total (ah_blocks h)); [| lia].
      rewrite <- (insert_delete_id _ _ _ Hp), total_insert by apply lookup_delete_eq.
      assert (0 <= total (delete p (ah_blocks h))); [| lia]. by eapply total_nonneg_delete. }
    destruct (Z.ltb_spec (malloc_size (p_ms s)) (hb_charge hb)) as [Hlt | _]; [lia |].
    unfold add_ms. swp_steps. set (s1 := set_ms s _).
    assert (Hh1 : holds s1 g (ah_blocks h)) by by eapply holds_fields.
    assert (Hlv1 : live s1 g p c k) by by (apply (live_ext s g)).
    eapply swp_mono; [apply (js_arena_free_spec s1 g p c k); [apply Hh1 | apply Hh1 | done] |]. intros v s' (g' & Hst & Sh).
    destruct (sh_rest _ _ _ _ _ Sh) as (_ & E2 & E3). exists g'. split; [by eapply holds_shrunk |]. split; [simpl; rewrite E2; simpl; congruence |].
    rewrite E3. split; [done |]. intros _. unfold counted. rewrite E3. simpl. rewrite C1, C2, Td.
    split; rewrite u64_small; lia.
Qed.

Lemma ah_del_none h p : ah_blocks h !! p = None -> ah_del h p = h.
Proof. intros Hn. unfold ah_del. rewrite delete_id by done. by destruct h. Qed.

Lemma no_null s h : pinv s h -> ah_blocks h !! 0 = None.
Proof.
  intros (g & Hh & _). destruct (ah_blocks h !! 0) eqn:E; [| done].
  destruct (holds_block _ _ _ _ _ Hh E) as (c & k & _ & _ & _ & ? & _). lia.
Qed.

(** The heap after [js_arena_realloc] moved a block. *)
Lemma realloc_new s h g p c k s1 g1 np c' k' n :
  holds s g (ah_blocks h) -> live s g p c k -> settled g1 -> n <= c' -> 0 < n ->
  replaced s g s1 g1 p np c' k' (Z.min c n) ->
  let hb' := block_view s1 np c' k' in
  holds s1 g1 (ah_blocks (ah_set (ah_del h p) np hb')) /\ live s1 g1 np c' k' /\
  hstep (backing_refuses s) h (PRealloc p n) np (ah_set (ah_del h p) np hb').
Proof.
  intros Hh Hlv Hst Hn Hn0 R hb'. destruct (holds_replaced _ _ _ _ _ _ _ _ _ _ Hh Hst R) as [Hf Hh1].
  assert (Hlv' : live s1 g1 np c' k') by (apply (rp_live _ _ _ _ _ _ _ _ _ R); by right).
  destruct (view_new s1 g1 np c' k' n (ho_core _ _ _ Hh1) Hlv' Hn) as (V1 & V2 & V3 & V5 & V4).
  pose proof (live_bounds _ _ (ho_core _ _ _ Hh) _ _ _ Hlv) as (B1 & B2 & B3 & B4).
  split; [done |]. split; [done |].
  apply (hs_realloc _ h p n (block_view s p c k)); [done | by apply (holds_live s g) | done |].
  intros i Hi. destruct (view_new s g p c k c (ho_core _ _ _ Hh) Hlv ltac:(lia)) as (_ & _ & _ & E & _). rewrite E in Hi.
  unfold HDR in Hi. unfold hb'. rewrite !view_nth by lia. apply (rp_bytes _ _ _ _ _ _ _ _ _ R). lia.
Qed.

Lemma realloc_live s h p n :
  pinv s h -> is_Some (ah_blocks h !! p) -> 0 < n < 2 ^ 61 ->
  swp (js_realloc_rt p n) (fun r s' => exists h', hstep (backing_refuses s) h (PRealloc p n) r h' /\ pinv s' h') s.
Proof.
  intros (g & Hh & Har & Hl & Hc) [hb Hp] Hn. destruct (holds_block _ _ _ _ _ Hh Hp) as (c & k & Hlv & Ev & Ecap & Hp8 & Hpc & Hc0 & _ & Ech & Hch).
  unfold js_realloc_rt. rewrite (live_nonzero _ _ _ _ _ (ho_core _ _ _ Hh) Hlv), (proj2 (Z.eqb_neq n 0)) by lia.
  pose proof (js_arena_realloc_spec s g p c k n (ho_core _ _ _ Hh) (ho_settled _ _ _ Hh) Hlv Hn) as Hm.
  swp_steps. unfold id. rewrite Har. destruct (ah_arena h) eqn:Ea.
  - eapply swp_mono; [exact Hm |]. intros np s1 (g1 & Hst1 & [(-> & Hrf & St) | (c' & k' & L & H0 & R)]).
    + exists h. destruct (sd_rest _ _ _ _ St) as (_ & E2 & E3). split; [apply (hs_realloc_refused _ h p n hb); [lia | done | by left] |].
      apply (pinv_arena s1 g1); [by eapply holds_steady | congruence | done | congruence].
    + destruct (realloc_new s h g p c k s1 g1 np c' k' n Hh Hlv Hst1 L ltac:(lia) R) as (Hh1 & _ & Hstep).
      destruct (rp_rest _ _ _ _ _ _ _ _ _ R) as (_ & E2 & E3). eexists. split; [exact Hstep |].
      apply (pinv_arena s1 g1); [done | congruence | done | congruence].
  - destruct (Hc eq_refl) as [C1 C2]. pose proof (total_bound _ _ _ Hh) as [[T1 T2] T3]. pose proof (total_delete _ _ _ Hp) as Td.
    pose proof (total_nonneg_delete s g _ p Hh) as Tn.
    swp_steps. eapply swp_mono; [apply (js_arena_usable_size_spec s g p c k (ho_core _ _ _ Hh) Hlv) |]. intros old s' [-> Eold].
    destruct (over_limit (p_ms s) (n - old)) eqn:Eo.
    { apply swp_ret. exists h. split; [| exists g; rewrite Ea; done].
      apply (hs_realloc_refused _ h p n hb); [lia | done |]. right. split; [done |].
      replace (hb_charge hb - MALLOC_OVERHEAD) with old by (unfold MALLOC_OVERHEAD; lia).
      eapply over_limit_spec; [exact Hh | done | done | lia | done]. }
    swp_steps. eapply swp_mono; [exact Hm |]. intros np s1 (g1 & Hst1 & [(-> & Hrf & St) | (c' & k' & L & H0 & R)]).
    + simpl. apply swp_ret. exists h. destruct (sd_rest _ _ _ _ St) as (_ & E2 & E3).
      split; [apply (hs_realloc_refused _ h p n hb); [lia | done | by left] |].
      exists g1. split; [by eapply holds_steady |]. split; [congruence |]. split; [congruence |]. unfold counted. by rewrite E3.
    + destruct (realloc_new s h g p c k s1 g1 np c' k' n Hh Hlv Hst1 L ltac:(lia) R) as (Hh1 & Hlv1 & Hstep).
      destruct (rp_rest _ _ _ _ _ _ _ _ _ R) as (_ & E2 & E3). rewrite (proj2 (Z.eqb_neq np 0) H0).
      swp_steps. eapply swp_mono; [apply (js_arena_usable_size_spec s1 g1 np c' k' (ho_core _ _ _ Hh1) Hlv1) |]. intros nw s' [-> Enew].
      unfold add_ms. swp_steps. eexists. split; [exact Hstep |]. exists g1. split; [by eapply holds_fields |].
      split; [simpl; congruence |]. split; [simpl; congruence |]. intros _. unfold counted. simpl. rewrite E3, C1, C2.
      destruct (holds_replaced _ _ _ _ _ _ _ _ _ _ Hh Hst1 R) as [Hf _].
      pose proof (total_bound _ _ _ Hh1) as [[T4 T5] T6]. simpl in T4, T5, T6. rewrite total_insert in T4, T5, T6 |- * by done.
      cbn [block_view hb_charge] in *. unfold MALLOC_OVERHEAD in *. rewrite Td in *.
      assert (Hsz : size (ah_blocks h) = S (size (delete p (ah_blocks h)))).
      { rewrite <- (insert_delete_id _ _ _ Hp) at 1. apply map_size_insert_None, lookup_delete_eq. }
      rewrite map_size_insert_None by done. rewrite Hsz in *. split; rewrite u64_small; lia.
Qed.

Lemma write_step s h p off bytes :
  pinv s h -> pop_legal h (PWrite p off bytes) ->
  swp (do_pop (PWrite p off bytes)) (fun r s' => exists h', hstep (backing_refuses s) h (PWrite p off bytes) r h' /\ pinv s' h') s.
Proof.
  intros (g & Hh & Har & Hl & Hc) (hb & Hp & Ho & Hlen).
  destruct (holds_block _ _ _ _ _ Hh Hp) as (c & k & Hlv & Ev & Ecap & Hp8 & Hpc & Hc0 & _ & Ech & Hch).
  unfold capacity_of, HDR in Ecap. unfold do_pop, pmod. swp_steps. set (m' := store_bytes (p_mem s) (p - 5 + off) bytes).
  destruct (user_writes s g p c k m' (ho_core _ _ _ Hh) Hlv) as (U1 & U2 & U3).
  { eapply only_mono; [apply only_store_bytes |]. unfold user, at_. lia. }
  set (hb' := block_view (set_mem s m') p c k).
  assert (Ech' : hb_charge hb' = hb_charge hb) by (rewrite Ev; done).
  exists (ah_set h p hb'). split.
  - apply (hs_write _ h p off bytes hb hb'); [done | done | |].
    + rewrite Ev. unfold lenZ. simpl. by rewrite !length_load_bytes.
    + intros i Hi. unfold hb'. rewrite Ev, !view_nth by lia. cbn [p_mem set_mem]. unfold m'. rewrite load8_store_bytes.
      destruct (Z.leb_spec off i), (Z.ltb_spec i (off + lenZ bytes)); simpl; destruct (Z.leb_spec (p - 5 + off) (p - 5 + i)), (Z.ltb_spec (p - 5 + i) (p - 5 + off + lenZ bytes)); simpl; try lia; try done.
      f_equal. lia.
  - assert (Ht : total (<[p := hb']> (ah_blocks h)) = total (ah_blocks h)).
    { rewrite <- (insert_delete_eq (ah_blocks h)), total_insert, (total_delete _ _ _ Hp) by apply lookup_delete_eq. lia. }
    exists g. split; [| split; [done |]; split; [done |]].
    + split; [done | apply Hh |]. intros q hq. simpl. destruct (decide (q = p)) as [-> | Hne].
      * rewrite lookup_insert_eq. split; [intros [= <-]; exists c, k; split; [by apply U2 | done] |].
        intros (d & l & Hd & ->). apply U2 in Hd. destruct (live_unique _ _ _ _ _ _ _ (ho_core _ _ _ Hh) Hlv Hd) as [-> ->]. done.
      * rewrite lookup_insert_ne, (ho_live _ _ _ Hh) by done. split; intros (d & l & Hd & ->); exists d, l.
        { split; [by apply U2 |]. symmetry. apply (view_kept s g); [done |]. intros x Hx. by eapply (U3 q d l). }
        { apply U2 in Hd. split; [done |]. apply (view_kept s g); [done |]. intros x Hx. by eapply (U3 q d l). }
    + intros Ea. unfold counted. simpl. rewrite Ht, map_size_insert_Some by by eexists. by apply Hc.
Qed.

(** Every legal operation is a step of the abstract heap. *)
Lemma pop_step s h o :
  pinv s h -> pop_legal h o -> swp (do_pop o) (fun r s' => exists h', hstep (backing_refuses s) h o r h' /\ pinv s' h') s.
Proof.
  intros Hp Hlg. destruct o as [n | c n | p n | p | p | p off bytes |].
  - by apply rt_malloc_step.
  - by apply rt_calloc_step.
  - destruct Hlg as [Hlv Hn]. simpl. destruct (Z.eq_dec p 0) as [-> | Hp0].
    + unfold js_realloc_rt. simpl. destruct (Z.eqb_spec n 0) as [-> | Hn0].
      * apply swp_ret. exists h. split; [apply hs_realloc_null; constructor | done].
      * eapply swp_mono; [by apply (rt_malloc_step s h n) |]. intros r s' (h' & Hs & Hi). exists h'. split; [by apply hs_realloc_null | done].
    + destruct Hlv as [? | Hlv]; [done |]. destruct (Z.eq_dec n 0) as [-> | Hn0]; [| apply realloc_live; [done | done | lia]].
      unfold js_realloc_rt. rewrite (proj2 (Z.eqb_neq p 0) Hp0). simpl. apply swp_bind.
      eapply swp_mono; [by apply (free_live s h p) |]. intros [] s' Hi. apply swp_ret. eexists. split; [by apply hs_realloc_0 | done].
  - simpl in *. apply swp_bind. destruct (Z.eq_dec p 0) as [-> | Hp0].
    + unfold js_free_rt. simpl. swp_steps. exists h. split; [| done]. pattern h at 2. rewrite <- (ah_del_none h 0) by by apply (no_null s).
      constructor.
    + destruct Hlg as [? | Hlv]; [done |]. eapply swp_mono; [by apply (free_live s h p) |]. intros [] s' Hi. apply swp_ret.
      eexists. split; [constructor | done].
  - simpl in *. unfold js_malloc_usable_size_rt. destruct (Z.eq_dec p 0) as [-> | Hp0].
    + unfold js_arena_usable_size. simpl. apply swp_ret. exists h. split; [constructor | done].
    + destruct Hlg as [? | [hb Hlv]]; [done |]. pose proof Hp as (g & Hh & _).
      destruct (holds_block _ _ _ _ _ Hh Hlv) as (c & k & Hlive & Ev & _ & _ & _ & _ & _ & Ech & _).
      eapply swp_mono; [by apply (js_arena_usable_size_spec s g p c k); [apply Hh |] |]. intros n s' [-> ->]. exists h. split; [| done].
      replace (reported c k) with (hb_charge hb - MALLOC_OVERHEAD) by (unfold MALLOC_OVERHEAD; lia). by constructor.
  - by apply write_step.
  - unfold do_pop. swp_steps. destruct Hp as (g & Hh & _ & Hl & _). eexists. split; [constructor |].
    apply (pinv_arena _ g); [by eapply holds_fields | done | done | done].
Qed.

(** ** Clients

    A client chooses each operation from the answers it has seen. *)

Fixpoint run_client (n : nat) (next : list Z -> pop) (rs : list Z) : P (list Z) :=
  match n with
  | O => sret rs
  | S n => let^ r := do_pop (next rs) in run_client n next (rs ++ [r])
  end.

(** A client knows how to go on whatever the heap answers, refusals included. *)
Fixpoint client_ok (n : nat) (next : list Z -> pop) (rs : list Z) (h : aheap) : Prop :=
  match n with
  | O => True
  | S n => pop_legal h (next rs) /\ forall r h', hstep (fun _ => True) h (next rs) r h' -> client_ok n next (rs ++ [r]) h'
  end.

(** What memory shows of a heap: aligned blocks with their bytes, headers and
    contents disjoint. *)
Definition shows (s : pool) (h : aheap) : Prop :=
  (forall p hb, ah_blocks h !! p = Some hb -> 8 < p /\ (8 | p) /\ 0 < capacity_of hb /\
     load_bytes (p_mem s) (p - HDR) (length (hb_bytes hb)) = hb_bytes hb) /\
  (forall p hb q hq, ah_blocks h !! p = Some hb -> ah_blocks h !! q = Some hq -> p <> q ->
     p + capacity_of hb <= q - SIZEOF_HEADER \/ q + capacity_of hq <= p - SIZEOF_HEADER).

Lemma pinv_shows s h : pinv s h -> shows s h.
Proof.
  intros (g & Hh & _). split.
  - intros p hb Hp. destruct (holds_block _ _ _ _ _ Hh Hp) as (c & k & Hl & Ev & Ec & H1 & H2 & H3 & H4 & _).
    split; [done |]. split; [done |]. split; [lia |]. rewrite Ev. unfold HDR. simpl. by rewrite length_load_bytes.
  - intros p hb q hq Hp Hq Hne.
    destruct (holds_block _ _ _ _ _ Hh Hp) as (c & k & Hl & _ & Ec & _ & _ & H3 & _).
    destruct (holds_block _ _ _ _ _ Hh Hq) as (d & l & Hl' & _ & Ed & _ & _ & H3' & _). rewrite Ec, Ed. unfold SIZEOF_HEADER.
    destruct (Z.le_gt_cases (p + c) (q - 8)) as [|A1]; [by left |]. destruct (Z.le_gt_cases (q + d) (p - 8)) as [|A2]; [by right |].
    exfalso. apply Hne. eapply (live_disjoint s g (ho_core _ _ _ Hh) p c k q d l (Z.max (p - 8) (q - 8)) Hl Hl'); unfold extent, at_, SIZEOF_HEADER; lia.
Qed.
(** The runtime and the heap run in step: each call returns, with the answer
    and the effect of a step of the heap, in which a refusal is one by the
    backing allocator as it was when the call was made. *)
Inductive lockstep (next : list Z -> pop) : nat -> list Z -> pool -> aheap -> list Z -> pool -> aheap -> Prop :=
  | ls_done rs s h : shows s h -> lockstep next 0 rs s h rs s h
  | ls_step n rs s h r s1 h1 rs' s' h' :
      shows s h -> do_pop (next rs) s = Done (r, s1) -> hstep (backing_refuses s) h (next rs) r h1 ->
      lockstep next n (rs ++ [r]) s1 h1 rs' s' h' -> lockstep next (S n) rs s h rs' s' h'.

Lemma client_spec n next : forall rs s h,
  pinv s h -> client_ok n next rs h ->
  exists rs' s' h', run_client n next rs s = Done (rs', s') /\ lockstep next n rs s h rs' s' h' /\ pinv s' h'.
Proof.
  induction n as [| n IH]; intros rs s h Hp Hok; pose proof (pinv_shows s h Hp) as Hsh.
  { exists rs, s, h. split; [done |]. split; [by constructor | done]. }
  destruct Hok as [Hlg Hok]. destruct (swp_done _ _ _ (pop_step s h (next rs) Hp Hlg)) as (r & s1 & E & h1 & Hs & Hp1).
  destruct (IH (rs ++ [r]) s1 h1 Hp1) as (rs' & s' & h' & E' & Hr & Hp').
  { apply Hok. by eapply hstep_mono. }
  exists rs', s', h'. split; [| split; [by econstructor | done]]. cbn [run_client]. unfold sbind. by rewrite E.
Qed.
End ops.

(** ** Arena runtimes leave the pool alone *)

Section spares.
Context `{BL : BackingLaws}.

(** The bytes of the runtime struct and of every page. *)
Definition pool_bytes (s : pool) (g : ghost) (x : Z) : Prop :=
  in_block (bk_blocks (p_bk s)) (g_rt g) x \/ exists ar, is_Some (g_slabs g !! ar) /\ in_block (bk_blocks (p_bk s)) ar x.

Definition spares (s : pool) (g : ghost) (s' : pool) : Prop := forall x, pool_bytes s g x -> load8 (p_mem s') x = load8 (p_mem s) x.

(** A backing call followed by the stamp of the block [q] it gave. *)
Lemma stamp_spares s g s1 q d :
  pcore s g -> ~ (q = g_rt g \/ is_Some (g_slabs g !! q)) ->
  bk_inv (p_bk s1) (p_mem s1) -> bk_blocks (p_bk s1) !! q = Some d -> 3 <= d ->
  (forall r, r = g_rt g \/ is_Some (g_slabs g !! r) -> bk_blocks (p_bk s1) !! r = bk_blocks (p_bk s) !! r) ->
  spares s g s1 -> swp (stamp_large q) (fun _ s' => spares s g s') s1.
Proof.
  intros Hc Hq Hi HB Hd Hsame Hsp. unfold stamp_large, pst, pmod. swp_steps. cbn [p_mem set_mem]. intros x Hx. cbn [p_mem set_mem].
  assert (Hnx : ~ at_ q 3 x).
  { intros Hx'. assert (Hr : exists r, (r = g_rt g \/ is_Some (g_slabs g !! r)) /\ in_block (bk_blocks (p_bk s)) r x).
    { destruct Hx as [Hx | (ar & Ha & Hx)]; eauto. }
    destruct Hr as (r & Hr & e & He & Hxe). apply Hq. assert (q = r) as ->; [| done].
    eapply (bo_disjoint _ (bk_geometry _ _ Hi) _ _ x); [exists d; split; [done |]; unfold at_ in *; lia |]. exists e. by rewrite Hsame. }
  rewrite <- (Hsp x Hx). unfold off_block_idx, off_size_idx. rewrite !(only_load8 _ _ _ x (only_storew _ _ _ _)); [done | unfold at_ in *; lia | unfold at_ in *; lia].
Qed.

(** Allocation of a block of its own. *)
Lemma grant_spares s g b m' q n :
  pcore s g -> bk_inv b m' -> keeps (bk_blocks (p_bk s)) (p_mem s) m' -> 8 <= n ->
  (q = 0 /\ bk_blocks b = bk_blocks (p_bk s) \/
   exists c, n <= c /\ bk_blocks (p_bk s) !! q = None /\ bk_blocks b = <[q := c]> (bk_blocks (p_bk s))) ->
  swp (if q =? 0 then sret 0 else stamp_large q) (fun _ s' => spares s g s') (set_back s b m').
Proof.
  intros Hc Hi Hk Hn Hb. assert (Hsp : spares s g (set_back s b m')).
  { intros x [Hx | (ar & _ & Hx)]; apply Hk; by eexists. }
  destruct (Z.eqb_spec q 0) as [-> | Hq]; [by apply swp_ret |]. destruct Hb as [[? _] | (c & L & Hf & EB)]; [done |].
  assert (Hnh : ~ held g q) by (intros Hh; destruct (held_block _ _ _ Hc Hh); congruence).
  apply (stamp_spares s g (set_back s b m') q c); try done.
  - intros Hq'. apply Hnh. unfold held. tauto.
  - simpl. rewrite EB. apply lookup_insert_eq.
  - lia.
  - intros r Hr. simpl. rewrite EB. apply lookup_insert_ne. intros ->. apply Hnh. unfold held. tauto.
Qed.

Lemma malloc_large_spares s g n :
  pcore s g -> 0 < n < 2 ^ 61 -> swp (arena_malloc_large n) (fun _ s' => spares s g s') s.
Proof.
  intros Hc Hn. unfold arena_malloc_large, SIZEOF_HEADER. rewrite u64_small by lia. apply swp_bind. unfold mf_malloc. apply swp_call. intros q s1.
  destruct (bk_malloc (p_bk s) (p_mem s) (8 + n)) as [[q' b] m'] eqn:E. intros [= -> <-].
  destruct (bk_malloc_law _ _ (8 + n) _ _ _ (pc_bk _ _ Hc) ltac:(lia) E) as (Hi & Hk & Hb). apply (grant_spares s g b m' q (8 + n)); try done. lia.
Qed.

Lemma calloc_large_spares s g n :
  pcore s g -> 0 < n < 2 ^ 61 -> swp (arena_calloc_large n) (fun _ s' => spares s g s') s.
Proof.
  intros Hc Hn. unfold arena_calloc_large, SIZEOF_HEADER. rewrite u64_small by lia. apply swp_bind. unfold mf_calloc. apply swp_call. intros q s1.
  destruct (bk_calloc (p_bk s) (p_mem s) 1 (8 + n)) as [[q' b] m'] eqn:E. intros [= -> <-].
  destruct (bk_calloc_law _ _ (8 + n) _ _ _ (pc_bk _ _ Hc) ltac:(lia) E) as (Hi & Hk & Hb). apply (grant_spares s g b m' q (8 + n)); try done; [lia |].
  destruct Hb as [? | [_ ?]]; [by left | by right].
Qed.

(** Bytes of the pool are outside any large block. *)
Lemma pool_bytes_not_large s g b x :
  pcore s g -> b ∈ g_larges g -> pool_bytes s g x -> in_blocks (delete b (bk_blocks (p_bk s))) x.
Proof.
  intros Hc Hb Hx. destruct (pc_large _ _ Hc b Hb) as (H1 & H2 & _).
  destruct Hx as [Hx | (ar & [sl Ha] & Hx)]; (eapply in_block_delete; [| exact Hx]); [done | intros ->; congruence].
Qed.

Lemma free_large_spares s g p c :
  pcore s g -> live s g p c false -> swp (js_arena_free p) (fun _ s' => spares s g s') s.
Proof.
  intros Hc Hl. destruct (live_header _ _ _ _ _ Hc Hl) as [(? & ? & ? & ? & ? & ? & _) | (_ & Hb & HB & Hnil & Hz)]; [done |].
  unfold js_arena_free. rewrite (live_nonzero _ _ _ _ _ Hc Hl). unfold pld. swp_steps. rewrite Hnil, Z.eqb_refl. swp_steps.
  rewrite (proj2 (Z.eqb_neq _ _) Hz). unfold mf_free. apply swp_call. intros v s1.
  destruct (bk_free (p_bk s) (p_mem s) (p - SIZEOF_HEADER)) as [b m'] eqn:E. intros [= <- <-].
  destruct (bk_free_law _ _ _ _ _ (pc_bk _ _ Hc) (ex_intro _ _ HB) E) as (Hi & EB & Hk). rewrite EB in Hk.
  intros x Hx. apply Hk. by eapply pool_bytes_not_large.
Qed.

Lemma realloc_large_spares s g p c n :
  pcore s g -> live s g p c false -> 0 < n < 2 ^ 61 -> swp (js_arena_realloc p n) (fun _ s' => spares s g s') s.
Proof.
  intros Hc Hl Hn. destruct (live_header _ _ _ _ _ Hc Hl) as [(? & ? & ? & ? & ? & ? & _) | (_ & Hb & HB & Hnil & Hz)]; [done |].
  unfold js_arena_realloc. unfold pld. swp_steps. rewrite Hnil, Z.eqb_refl. swp_steps. rewrite (proj2 (Z.eqb_neq _ _) Hz).
  unfold SIZEOF_HEADER at 2. rewrite u64_small by lia. apply swp_bind. unfold mf_realloc. apply swp_call. intros q s1.
  destruct (bk_realloc (p_bk s) (p_mem s) (p - SIZEOF_HEADER) (8 + n)) as [[q' b] m'] eqn:E. intros [= -> <-].
  destruct (bk_realloc_law _ _ _ _ (8 + n) _ _ _ (pc_bk _ _ Hc) HB ltac:(lia) E) as (Hi & Hk & Hres).
  assert (Hsp : spares s g (set_back s b m')) by (intros x Hx; apply Hk; by eapply pool_bytes_not_large).
  destruct (Z.eqb_spec q 0) as [-> | Hq]; [by apply swp_ret |]. destruct Hres as [[? _] | (_ & d & L & Hf & EB)]; [done |].
  destruct (pc_large _ _ Hc _ Hb) as (H1 & H2 & _).
  assert (Hnh : ~ (q = g_rt g \/ is_Some (g_slabs g !! q))).
  { intros Hh. destruct (held_block s g q Hc) as [e He]; [unfold held; tauto |]. rewrite lookup_delete_ne in Hf; [congruence |].
    intros <-. destruct Hh as [E1 | [sl Hs]]; [done | congruence]. }
  apply (stamp_spares s g (set_back s b m') q d); try done; [simpl; rewrite EB; apply lookup_insert_eq | lia |].
  intros r Hr. simpl. rewrite EB, lookup_insert_ne by (intros ->; done). apply lookup_delete_ne. intros <-. destruct Hr as [E1 | [sl Hs]]; [done | congruence].
Qed.

(** Once a runtime has become an arena runtime, allocating never touches
    the small-block pool, and neither does releasing or reallocating a block
    that was allocated since: the runtime struct and every page the pool built
    before, which after the freeze are snapshot memory, keep every byte. *)
Theorem arena_calls_spare_pages s g :
  pcore s g -> p_is_arena s = true ->
  (forall n, 0 <= n < 2 ^ 61 -> swp (js_malloc_rt n) (fun _ s' => spares s g s') s) /\
  (forall c n, 0 < c < 2 ^ 64 -> 0 < n < 2 ^ 64 -> c * n < 2 ^ 61 -> swp (js_calloc_rt c n) (fun _ s' => spares s g s') s) /\
  (forall p c, live s g p c false ->
     swp (js_free_rt p) (fun _ s' => spares s g s') s /\
     forall n, 0 <= n < 2 ^ 61 -> swp (js_realloc_rt p n) (fun _ s' => spares s g s') s).
Proof.
  intros Hc Ha. split; [| split].
  - intros n Hn. unfold js_malloc_rt. destruct (Z.eqb_spec n 0) as [-> | Hn0]; [by apply swp_ret |]. swp_steps. unfold id. rewrite Ha.
    unfold js_arena_malloc, js_arena_use_pool. swp_steps. unfold id. rewrite Ha, (proj2 (Z.eqb_neq n 0) Hn0). simpl. apply malloc_large_spares; [done | lia].
  - intros c n Lc Ln Hcn. unfold js_calloc_rt. rewrite (proj2 (Z.eqb_neq c 0)), (proj2 (Z.eqb_neq n 0)), (proj2 (Z.ltb_lt 0 n)) by lia. simpl.
    rewrite calloc_check, (proj2 (Z.ltb_lt (c * n) (2 ^ 64))) by lia. simpl. swp_steps. unfold id. rewrite Ha.
    unfold js_arena_calloc, js_arena_use_pool. swp_steps. unfold id. rewrite Ha. simpl. rewrite u64_small by nia. apply calloc_large_spares; [done | nia].
  - intros p c Hl. pose proof (live_nonzero _ _ _ _ _ Hc Hl) as Hp0.
    assert (Hf : swp (js_free_rt p) (fun _ s' => spares s g s') s).
    { unfold js_free_rt. rewrite Hp0. swp_steps. unfold id. rewrite Ha. by eapply free_large_spares. }
    split; [done |]. intros n Hn. unfold js_realloc_rt. rewrite Hp0. destruct (Z.eqb_spec n 0) as [-> | Hn0].
    + apply swp_bind. eapply swp_mono; [exact Hf |]. intros v s' Hs. by apply swp_ret.
    + swp_steps. unfold id. rewrite Ha. eapply realloc_large_spares; [done | done | lia].
Qed.
End spares.

(** The heap of a runtime that was just created. *)
Definition heap0 : aheap := {| ah_blocks := ∅; ah_arena := false |}.

Section boot.
Context `{BL : BackingLaws}.
Context (b : bst) (m : mem) (sizeof_rt off : Z).
Hypothesis Hi : bk_inv b m.
Hypothesis Hsz : 0 <= off /\ off + SIZEOF_JSArenaState <= sizeof_rt < 2 ^ 62.

(** Creation fails with the backing allocator or leaves an empty pool. *)
Lemma boot_spec :
  (new_runtime_pool b m sizeof_rt off = Done None /\ refuses b m sizeof_rt) \/
  exists s0, new_runtime_pool b m sizeof_rt off = Done (Some s0) /\ 0 <= malloc_size (p_ms s0) <= 2 ^ 62 /\
    forall lim, exists s1, JS_SetMemoryLimit lim s0 = Done (tt, s1) /\ pinv lim (malloc_size (p_ms s0)) s1 heap0.
Proof.
  unfold new_runtime_pool. destruct (bk_calloc b m 1 sizeof_rt) as [[rt b'] m'] eqn:E.
  unfold SIZEOF_JSArenaState in Hsz.
  destruct (bk_calloc_law _ _ sizeof_rt _ _ _ Hi ltac:(lia) E) as (Hi' & _ & Hb). destruct (Z.eqb_spec rt 0) as [-> | Hrt].
  - left. split; [done |]. exists sizeof_rt. split; [lia |]. right. left. by rewrite E.
  - right. destruct Hb as [[? _] | (_ & c & L & _ & EB)]; [done |].
    assert (HB : bk_blocks b' !! rt = Some c) by (rewrite EB; apply lookup_insert_eq).
    destruct (bo_block _ (bk_geometry _ _ Hi') _ _ HB) as (B1 & [z Bz] & B2 & B3).
    rewrite (bk_usable_law _ _ _ _ Hi' HB). set (s := Build_pool _ _ _ _ _).
    destruct (swp_done _ _ _ (js_arena_init_spec s rt c Hi' HB ltac:(simpl; lia) ltac:(simpl; unfold SIZEOF_JSArenaState; lia)))
      as ([] & s0 & E0 & Hc & Hst & (R1 & R2 & R3) & Ebk).
    rewrite E0. simpl. exists s0. split; [done |]. rewrite R3. cbn [p_ms s malloc_size]. unfold MALLOC_OVERHEAD.
    split; [destruct bk_reports; rewrite u64_small; lia |]. intros lim. eexists. split; [done |]. exists (blank rt). split; [| split; [| split]].
    + apply (holds_fields s0); [| done | done | done]. split; [done | done |]. intros p hb. simpl. rewrite lookup_empty. split; [done |].
      intros (d & k & [ar i f j Hs | q e Hq] & _); [unfold slab_at in Hs; simpl in Hs; by rewrite lookup_empty in Hs |].
      by apply not_elem_of_empty in Hq.
    + simpl. by rewrite R2.
    + done.
    + intros _. unfold counted. simpl. rewrite R3. simpl. unfold total. rewrite map_fold_empty, map_size_empty. rewrite Z.add_0_r. done.
Qed.

Lemma boot_run lim n next s0 :
  0 <= lim < 2 ^ 64 -> new_runtime_pool b m sizeof_rt off = Done (Some s0) ->
  client_ok lim (malloc_size (p_ms s0)) n next [] heap0 ->
  exists s1 rs s' h', JS_SetMemoryLimit lim s0 = Done (tt, s1) /\ run_client n next [] s1 = Done (rs, s') /\
    lockstep lim (malloc_size (p_ms s0)) next n [] s1 heap0 rs s' h' /\ pinv lim (malloc_size (p_ms s0)) s' h'.
Proof.
  intros Hl E Hok. destruct boot_spec as [[E' _] | (s & E' & Hr & Hp)]; rewrite E in E'; [done |]. injection E' as <-.
  destruct (Hp lim) as (s1 & E1 & Hp1).
  destruct (client_spec lim _ Hr Hl n next [] s1 heap0 Hp1 Hok) as (rs & s' & h' & E2 & Hrun & Hp'). by exists s1, rs, s', h'.
Qed.

(** C4: the allocation functions of a runtime implement a heap.  From a fresh
    runtime over any backing allocator that keeps its blocks apart, under any
    memory limit, whatever sequence of [js_malloc_rt], [js_calloc_rt],
    [js_realloc_rt], [js_free_rt], [js_malloc_usable_size_rt] and stores into
    its own blocks the engine performs, before and after the runtime becomes
    an arena runtime: every call returns (the accounting check of [js_free_rt]
    never aborts); it answers NULL only when the backing allocator, as it is at
    that call, refuses a page or the size asked for, or when the limit would be
    exceeded; a new block is fresh, 8-byte aligned, large enough
    and, for [js_calloc_rt], zero; a reallocated block keeps its GC header
    fields and the common prefix of its contents; all other blocks keep
    theirs; and no two live blocks overlap, headers included. *)
Theorem pool_refines_heap lim :
  0 <= lim < 2 ^ 64 ->
  (new_runtime_pool b m sizeof_rt off = Done None /\ refuses b m sizeof_rt) \/
  exists s0, new_runtime_pool b m sizeof_rt off = Done (Some s0) /\
  forall n next, client_ok lim (malloc_size (p_ms s0)) n next [] heap0 ->
    exists s1 rs s' h', JS_SetMemoryLimit lim s0 = Done (tt, s1) /\ run_client n next [] s1 = Done (rs, s') /\
      lockstep lim (malloc_size (p_ms s0)) next n [] s1 heap0 rs s' h'.
Proof.
  intros Hl. destruct boot_spec as [H | (s0 & E & _)]; [by left |]. right. exists s0. split; [done |]. intros n next Hok.
  destruct (boot_run lim n next s0 Hl E Hok) as (s1 & rs & s' & h' & E1 & E2 & Hr & _).
  by exists s1, rs, s', h'.
Qed.

(** the runtime's accounting is exact: as long as the runtime is not an
    arena runtime, [malloc_count] is the number of live blocks and the runtime
    itself, and [malloc_size] the sum of their charges, computed without
    wrap-around. *)
Theorem malloc_accounting_exact lim n next s0 :
  0 <= lim < 2 ^ 64 -> new_runtime_pool b m sizeof_rt off = Done (Some s0) ->
  client_ok lim (malloc_size (p_ms s0)) n next [] heap0 ->
  exists s1 rs s' h', JS_SetMemoryLimit lim s0 = Done (tt, s1) /\ run_client n next [] s1 = Done (rs, s') /\
    lockstep lim (malloc_size (p_ms s0)) next n [] s1 heap0 rs s' h' /\
    (ah_arena h' = false ->
       malloc_count (p_ms s') = 1 + Z.of_nat (size (ah_blocks h')) /\
       malloc_size (p_ms s') = malloc_size (p_ms s0) + total (ah_blocks h') /\ malloc_size (p_ms s') <= 2 ^ 63).
Proof.
  intros Hl E Hok. destruct (boot_run lim n next s0 Hl E Hok) as (s1 & rs & s' & h' & E1 & E2 & Hr & Hp). exists s1, rs, s', h'.
  split; [done |]. split; [done |]. split; [done |]. intros Ha. pose proof Hp as (g & Hh & _ & _ & Hc). destruct (Hc Ha) as [C1 C2].
  destruct (total_bound _ _ _ Hh) as [[T1 T2] _]. destruct boot_spec as [[E' _] | (s & E' & Hrr & _)]; rewrite E in E'; [done |]. injection E' as <-.
  split; [done |]. split; [done |]. lia.
Qed.

(** C11: the pool is well formed whenever the engine runs.  In every state a
    client can bring a fresh runtime to, the bytes of the pool describe a set
    of pages: the 62 rings are closed doubly linked lists; every page is on the
    ring of its class, and on the ring of pages with room exactly when it has a
    free block; its free list visits distinct blocks and ends; its counter is
    the number of the others, at least one; every live block carries its own
    index and its class; large blocks carry the reserved index. *)
Theorem pool_well_formed lim n next s0 s1 rs s' :
  0 <= lim < 2 ^ 64 -> new_runtime_pool b m sizeof_rt off = Done (Some s0) ->
  client_ok lim (malloc_size (p_ms s0)) n next [] heap0 ->
  JS_SetMemoryLimit lim s0 = Done (tt, s1) -> run_client n next [] s1 = Done (rs, s') ->
  exists g, pcore s' g /\ settled g.
Proof.
  intros Hl E Hok E1 E2. destruct (boot_run lim n next s0 Hl E Hok) as (s1' & rs' & s2 & h' & E1' & E2' & _ & g & Hh & _).
  rewrite E1 in E1'. injection E1' as <-. rewrite E2 in E2'. injection E2' as <- <-.
  exists g. split; [apply (ho_core _ _ _ Hh) | apply (ho_settled _ _ _ Hh)].
Qed.
End boot.

(** ** Sizes *)

(** Every small request gets the best class.  A size of 1 to 504 bytes
    has a class; its blocks hold the request and the header, the next smaller
    class does not (but for the smallest), at most an eighth of a block above
    64 bytes is lost, and a page of the class, header and at least seven
    blocks, fits the 4096 bytes of a page. *)
Theorem size_class_best size :
  0 < size <= JS_ARENA_MAX_SMALL_SIZE - SIZEOF_HEADER ->
  let t := pool_total_size size in
  let i := arena_get_size_index t in
  0 <= i < JS_ARENA_BLOCK_SIZE_COUNT /\ size + SIZEOF_HEADER <= t <= block_size_of i /\
  (16 < t -> block_size_of (i - 1) < t) /\ (64 < t -> 8 * block_size_of i <= 9 * t) /\
  7 <= pool_n_blocks (block_size_of i) /\
  SIZEOF_JSArena + pool_n_blocks (block_size_of i) * block_size_of i <= JS_ARENA_SIZE.
Proof.
  intros Hs t i. unfold JS_ARENA_MAX_SMALL_SIZE, SIZEOF_HEADER in *. destruct (total_size_spec size ltac:(lia)) as (T1 & T2 & T3). fold t in T1, T2, T3.
  assert (T4 : t <= 512) by (destruct T2 as [z Hz]; lia).
  destruct (size_index_spec t ltac:(unfold JS_ARENA_MAX_SMALL_SIZE; lia) T2) as (I1 & I2 & I3 & I4). fold i in I1, I2, I3, I4.
  destruct (class_facts i I1) as (C1 & _ & _ & C2). split; [exact I1 |]. split; [lia |]. split; [done |]. split; [done |]. split; [| done].
  unfold pool_n_blocks, JS_ARENA_SIZE, SIZEOF_JSArena. apply Z.div_le_lower_bound; lia.
Qed.

(** A size within 15 of [SIZE_MAX] is rounded to 0 or -8: with no limit set it
    is served as if one byte had been asked for. *)
Theorem js_malloc_rt_wraps `{BK : Backing} size s :
  2 ^ 64 - 15 <= size < 2 ^ 64 -> p_is_arena s = false -> malloc_limit (p_ms s) = 0 -> js_malloc_rt size s = js_malloc_rt 1 s.
Proof.
  intros Hs Ha Hl.
  assert (Hr : round_up 8 size = 0 \/ round_up 8 size = 2 ^ 64 - 8).
  { unfold round_up. destruct (Z.le_gt_cases (2 ^ 64 - 7) size) as [L | L].
    - left. replace (u64 (size + 8 - 1)) with (size + 7 - 2 ^ 64) by (unfold u64; apply Z.mod_unique with 1; lia).
      change 8 with (2 ^ 3). rewrite land_lnot_mask by lia. change (2 ^ 3) with 8. rewrite Z.mod_small; lia.
    - right. rewrite u64_small by lia. set (x := size + 8 - 1). change (8 - 1) with (2 ^ 3 - 1).
      rewrite land_lnot_mask by lia. change (2 ^ 3) with 8.
      assert (E : x mod 8 = x - (2 ^ 64 - 8)); [| lia]. symmetry. apply Z.mod_unique with (2 ^ 61 - 1); lia. }
  assert (Ht : arena_get_size_index (pool_total_size size) = arena_get_size_index (pool_total_size 1) /\ pool_total_size size <= 512).
  { unfold pool_total_size, JS_ARENA_ALIGN. destruct Hr as [-> | ->]; by vm_compute. }
  assert (Ho : forall n, over_limit (p_ms s) n = false).
  { intros n. unfold over_limit. rewrite Hl. apply Z.ltb_ge. change (u64 (0 - 1)) with (2 ^ 64 - 1). pose proof (u64_range (malloc_size (p_ms s) + n)). lia. }
  unfold js_malloc_rt, js_arena_malloc. rewrite (proj2 (Z.eqb_neq size 0)) by lia. unfold sbind, sget, id. simpl. rewrite Ha, !Ho.
  unfold js_arena_use_pool, JS_ARENA_MAX_SMALL_SIZE. rewrite Ha. destruct Ht as [-> Ht]. rewrite (proj2 (Z.leb_le _ _) Ht). done.
Qed.
