(* ===== verification/PoolTeardown.v ===== *)
(** * The small-block pool: teardown

    [js_arena_free_all] walks the pages of every class while releasing them,
    and leaves an empty pool. *)

From stdpp Require Import base list numbers gmap.
From Stdlib Require Import ZArith Lia.
From S2P Require Import Prelude Memory StateRun ListHead Pool PoolInvariant PoolUpdates PoolSpecs PoolCalls.

#[local] Open Scope st_scope.
#[local] Open Scope Z_scope.

Section teardown.
Context `{BL : BackingLaws}.

Definition link_of (ar : Z) : Z := ar + off_link.
Definition del_all (l : list Z) (B : gmap Z Z) : gmap Z Z := foldr delete B l.

Lemma del_all_lookup l B p : del_all l B !! p = if bool_decide (p ∈ l) then None else B !! p.
Proof.
  induction l as [| a l IH]; simpl; [done |]. destruct (decide (p = a)) as [-> | Hne].
  - rewrite lookup_delete_eq, bool_decide_eq_true_2 by apply list_elem_of_here. done.
  - rewrite lookup_delete_ne, IH by done. destruct (decide (p ∈ l)).
    + rewrite !bool_decide_eq_true_2 by (done || by apply list_elem_of_further). done.
    + rewrite !bool_decide_eq_false_2; [done | | done]. by apply not_elem_of_cons.
Qed.

(** The forward pointers of the pages of a ring. *)
Fixpoint nexts (m : mem) (l : list Z) (h : Z) : Prop :=
  match l with
  | [] => True
  | ar :: l => lh_next m (link_of ar) = hd h (link_of <$> l) /\ nexts m l h
  end.

Lemma chain_nexts m a l h : chain m a (link_of <$> l) h -> nexts m l h /\ lh_next m a = hd h (link_of <$> l).
Proof.
  revert a. induction l as [| ar l IH]; intros a; [by intros [? _] |]. rewrite fmap_cons. intros [[E _] Hc].
  destruct (IH _ Hc) as [H1 H2]. split; [by split | done].
Qed.

Lemma nexts_agree m m' l h :
  (forall ar, ar ∈ l -> lh_next m' (link_of ar) = lh_next m (link_of ar)) -> nexts m l h -> nexts m' l h.
Proof.
  induction l as [| ar l IH]; intros H; [done |]. intros [E Hn]. split; [rewrite H; [done | apply list_elem_of_here] |].
  apply IH; [| done]. intros q Hq. apply H. by apply list_elem_of_further.
Qed.

Lemma next_kept B m m' ar c : keeps B m m' -> B !! ar = Some c -> 32 <= c -> lh_next m' (link_of ar) = lh_next m (link_of ar).
Proof.
  intros Hk HB Hc. unfold lh_next, loadw. f_equal. apply load_bytes_ext. intros x Hx. apply Hk. exists ar, c. split; [done |].
  unfold at_, link_of, off_link in *. lia.
Qed.

(** The pages of one class are released one after the other; the successor of
    a page is read before the page goes. *)
Lemma free_pages_spec l : forall s h fuel,
  bk_inv (p_bk s) (p_mem s) -> NoDup l -> nexts (p_mem s) l h -> (forall ar, ar ∈ l -> link_of ar <> h) ->
  (forall ar, ar ∈ l -> exists c, bk_blocks (p_bk s) !! ar = Some c /\ 32 <= c) -> (length l < fuel)%nat ->
  swp (free_pages fuel h (hd h (link_of <$> l))) (fun _ s' => bk_inv (p_bk s') (p_mem s') /\ same_rest s s' /\
    bk_blocks (p_bk s') = del_all (rev l) (bk_blocks (p_bk s)) /\ keeps (bk_blocks (p_bk s')) (p_mem s) (p_mem s')) s.
Proof.
  induction l as [| ar l IH]; intros s h fuel Hi Hnd Hn Hh Hb Hf; destruct fuel as [| fuel]; simpl in Hf; try lia; cbn [free_pages].
  { simpl. rewrite Z.eqb_refl. by apply swp_ret. }
  rewrite fmap_cons. cbn [hd]. destruct Hn as [En Hn]. rewrite (proj2 (Z.eqb_neq (link_of ar) h)) by (apply Hh, list_elem_of_here).
  unfold pld. swp_steps. change (loadw 8 (p_mem s) (link_of ar + 8)) with (lh_next (p_mem s) (link_of ar)). rewrite En.
  replace (link_of ar - off_link) with ar by (unfold link_of; lia).
  apply NoDup_cons in Hnd as [Hna Hnd]. destruct (Hb ar ltac:(apply list_elem_of_here)) as (c & HB & Lc).
  unfold mf_free at 1. apply swp_call. intros v s1. destruct (bk_free (p_bk s) (p_mem s) ar) as [b m'] eqn:E. intros [= <- <-].
  destruct (bk_free_law _ _ _ _ _ Hi (ex_intro _ _ HB) E) as (Hi' & EB & Hk).
  assert (Hb' : forall q, q ∈ l -> exists d, bk_blocks b !! q = Some d /\ 32 <= d).
  { intros q Hq. destruct (Hb q ltac:(by apply list_elem_of_further)) as (d & Hd & Ld). exists d. split; [| done].
    rewrite EB, lookup_delete_ne; [done |]. intros <-. done. }
  eapply swp_mono; [apply (IH (set_back s b m') h fuel); try done; [| | lia] |].
  - eapply nexts_agree; [| exact Hn]. intros q Hq. destruct (Hb' q Hq) as (d & Hd & Ld). by eapply next_kept.
  - intros q Hq. apply Hh. by apply list_elem_of_further.
  - intros u s' (I1 & I2 & I3 & I4). split; [done |]. split; [done |]. cbn [p_bk set_back p_mem] in *. split.
    + rewrite I3, EB. unfold del_all. simpl. rewrite foldr_app. done.
    + intros x Hx. rewrite I4 by done. apply Hk. destruct Hx as (p & d & Hp & Hx). exists p, d. split; [| done].
      rewrite I3, del_all_lookup in Hp. by destruct (bool_decide _).
Qed.

(** ** All classes *)

Definition no_pages (g : ghost) : ghost :=
  {| g_rt := g_rt g; g_slabs := ∅; g_larges := g_larges g; g_all := fun _ => []; g_part := fun _ => [] |}.

Section all_classes.
Context (s0 : pool) (g : ghost) (fuel : nat).
Hypothesis Hc : pcore s0 g.
Hypothesis Hfuel : forall i, class_ok i -> (length (g_all g i) < fuel)%nat.
Let as_ := p_arena_state s0.
Let B := bk_blocks (p_bk s0).

(** A head of a class below [i]. *)
Definition done_head (i x : Z) : Prop := exists j, 0 <= j < i /\
  (at_ (arena_list as_ j) SIZEOF_LIST_HEAD x \/ at_ (free_arena_list as_ j) SIZEOF_LIST_HEAD x).

(** A page of a class below [i]. *)
Definition done_page (i p : Z) : Prop := exists j, 0 <= j < i /\ p ∈ g_all g j.

(** The classes below [i] are gone. *)
Record torn (i : Z) (s : pool) : Prop := {
  tn_bk : bk_inv (p_bk s) (p_mem s);
  tn_rest : same_rest s0 s;
  tn_gone : forall p, done_page i p -> bk_blocks (p_bk s) !! p = None;
  tn_stay : forall p, ~ done_page i p -> bk_blocks (p_bk s) !! p = B !! p;
  tn_kept : forall x, in_blocks (bk_blocks (p_bk s)) x -> ~ done_head i x -> load8 (p_mem s) x = load8 (p_mem s0) x;
  tn_heads : forall j, 0 <= j < i -> dll (p_mem s) (arena_list as_ j) [] /\ dll (p_mem s) (free_arena_list as_ j) []
}.

Lemma page_slab i p : class_ok i -> p ∈ g_all g i -> exists f, slab_at g p i f.
Proof. intros Hi Hp. by apply (pc_all _ _ Hc i Hi). Qed.

Lemma done_page_slab i p : i <= JS_ARENA_BLOCK_SIZE_COUNT -> done_page i p -> exists j f, slab_at g p j f /\ j < i.
Proof. intros Hi (j & Hj & Hp). destruct (page_slab j p) as [f Hf]; [unfold class_ok; lia | done |]. eauto with lia. Qed.

Lemma rt_stays i s : i <= JS_ARENA_BLOCK_SIZE_COUNT -> torn i s -> bk_blocks (p_bk s) !! g_rt g = B !! g_rt g.
Proof.
  intros Hi Ht. apply (tn_stay _ _ Ht). intros Hd. apply done_page_slab in Hd as (j & f & Hs & _); [| done].
  by apply (pc_slab _ _ Hc) in Hs as (_ & ? & _).
Qed.

Lemma large_stays i s b : i <= JS_ARENA_BLOCK_SIZE_COUNT -> torn i s -> b ∈ g_larges g -> bk_blocks (p_bk s) !! b = B !! b.
Proof.
  intros Hi Ht Hb. apply (tn_stay _ _ Ht). intros Hd. apply done_page_slab in Hd as (j & f & Hs & _); [| done].
  apply (pc_large _ _ Hc) in Hb as (_ & Hn & _). unfold slab_at in Hs. congruence.
Qed.

Lemma page_stays i s p : class_ok i -> torn i s -> p ∈ g_all g i -> bk_blocks (p_bk s) !! p = B !! p.
Proof.
  intros Hi Ht Hp. apply (tn_stay _ _ Ht). intros Hd. unfold class_ok in Hi.
  apply done_page_slab in Hd as (j & f & Hs & Hj); [| lia].
  apply page_slab in Hp as [f' Hs']; [| done]. unfold slab_at in *. simplify_eq. lia.
Qed.

Lemma state_rt i s x : i <= JS_ARENA_BLOCK_SIZE_COUNT -> torn i s -> at_ as_ SIZEOF_JSArenaState x ->
  in_block (bk_blocks (p_bk s)) (g_rt g) x.
Proof. intros Hi Ht Hx. destruct (rt_in_block _ _ Hc x Hx) as (c & H & Hx'). exists c. by rewrite (rt_stays i). Qed.

Lemma done_head_state i x : i <= JS_ARENA_BLOCK_SIZE_COUNT -> done_head i x -> at_ as_ 992 x.
Proof.
  intros Hi (j & Hj & Hx). unfold at_, arena_list, free_arena_list, SIZEOF_LIST_HEAD, JS_ARENA_BLOCK_SIZE_COUNT in *. lia.
Qed.

(** Bytes of a block other than the runtime's are not a list head. *)
Lemma off_heads i s p c x :
  i <= JS_ARENA_BLOCK_SIZE_COUNT -> torn i s -> bk_blocks (p_bk s) !! p = Some c -> p <> g_rt g -> at_ p c x -> ~ done_head i x.
Proof.
  intros Hi Ht Hp Hne Hx Hd. apply done_head_state in Hd; [| done]. apply Hne.
  eapply (bo_disjoint _ (bk_geometry _ _ (tn_bk _ _ Ht))); [by exists c | eapply state_rt; [exact Hi | done |]].
  unfold at_, SIZEOF_JSArenaState in *. lia.
Qed.

(** The ring of the next class is as it was. *)
Lemma ring_kept i s : class_ok i -> torn i s -> dll (p_mem s) (arena_list as_ i) (link_of <$> g_all g i).
Proof.
  intros Hi Ht. destruct (pc_all _ _ Hc i Hi) as (Hd & _ & _). pose proof Hi as Hi'. unfold class_ok in Hi'.
  eapply dll_agree; [| exact Hd]. intros a x Ha Hx. apply elem_of_cons in Ha as [-> | Ha].
  - apply (tn_kept _ _ Ht).
    + exists (g_rt g). eapply (state_rt i); [lia | done |].
      unfold at_, arena_list, SIZEOF_LIST_HEAD, JS_ARENA_BLOCK_SIZE_COUNT, SIZEOF_JSArenaState in *. fold as_ in Hx. lia.
    + intros (j & Hj & Hx'). fold as_ in Hx. unfold at_, arena_list, free_arena_list, SIZEOF_LIST_HEAD, JS_ARENA_BLOCK_SIZE_COUNT in *. lia.
  - apply list_elem_of_fmap in Ha as (ar & -> & Ha). destruct (page_slab i ar Hi Ha) as [f Hs].
    destruct (pc_slab _ _ Hc _ _ _ Hs) as (_ & Hne & (c & HB & Hl) & _). destruct (class_facts i Hi) as (C1 & _ & C2 & _).
    assert (Hx' : at_ ar c x). { unfold link_of, slab_len, SIZEOF_JSArena, at_, off_link, SIZEOF_LIST_HEAD in *. nia. }
    assert (HB' : bk_blocks (p_bk s) !! ar = Some c) by (rewrite (page_stays i s ar Hi Ht Ha); exact HB).
    apply (tn_kept _ _ Ht); [by exists ar, c |]. eapply (off_heads i s ar); [lia | done.. ].
Qed.

(** One class: its pages are released, then its heads are reset. *)
Lemma class_pages_released i s :
  class_ok i -> torn i s ->
  swp (let^ el := pld 8 (arena_list as_ i + 8) in free_pages fuel (arena_list as_ i) el)
    (fun _ s' => bk_inv (p_bk s') (p_mem s') /\ same_rest s s' /\
       bk_blocks (p_bk s') = del_all (rev (g_all g i)) (bk_blocks (p_bk s)) /\
       keeps (bk_blocks (p_bk s')) (p_mem s) (p_mem s')) s.
Proof.
  intros Hi Ht. pose proof (ring_kept i s Hi Ht) as Hd. destruct (chain_nexts _ _ _ _ Hd) as [Hn Eh].
  unfold pld. swp_steps. change (loadw 8 (p_mem s) (arena_list as_ i + 8)) with (lh_next (p_mem s) (arena_list as_ i)).
  rewrite Eh. destruct (pc_all _ _ Hc i Hi) as (_ & Hnd & _). pose proof Hi as Hi'. unfold class_ok in Hi'.
  assert (Hp : forall ar, ar ∈ g_all g i -> exists c, bk_blocks (p_bk s) !! ar = Some c /\ 32 <= c /\ ar <> g_rt g).
  { intros ar Ha. destruct (page_slab i ar Hi Ha) as [f Hs].
    destruct (pc_slab _ _ Hc _ _ _ Hs) as (_ & Hne & (c & HB & Hl) & _). destruct (class_facts i Hi) as (C1 & _ & C2 & _).
    exists c. rewrite (page_stays i s ar Hi Ht Ha). split; [exact HB |]. split; [| done]. unfold slab_len, SIZEOF_JSArena in Hl. nia. }
  apply free_pages_spec; try done.
  - apply (tn_bk _ _ Ht).
  - intros ar Ha E. destruct (Hp ar Ha) as (c & HB & Lc & Hne). apply Hne.
    eapply (bo_disjoint _ (bk_geometry _ _ (tn_bk _ _ Ht)) _ _ (link_of ar)).
    + exists c. split; [done |]. unfold at_, link_of, off_link. lia.
    + rewrite E. eapply (state_rt i); [lia | done |].
      unfold at_, arena_list, SIZEOF_LIST_HEAD, JS_ARENA_BLOCK_SIZE_COUNT, SIZEOF_JSArenaState in *. lia.
  - intros ar Ha. destruct (Hp ar Ha) as (c & ? & ? & _). by exists c.
  - by apply Hfuel.
Qed.

Lemma done_page_succ i p : class_ok i -> done_page (i + 1) p <-> done_page i p \/ p ∈ g_all g i.
Proof.
  intros Hi. unfold class_ok in Hi. split.
  - intros (j & Hj & Hp). destruct (Z.eq_dec j i) as [-> | Hne]; [by right | left; exists j; split; [lia | done]].
  - intros [(j & Hj & Hp) | Hp]; [exists j | exists i]; (split; [lia | done]).
Qed.

Lemma init_pair_spec i m :
  class_ok i -> let m' := init_list_head (init_list_head m (arena_list as_ i)) (free_arena_list as_ i) in
  only (fun x => at_ (arena_list as_ i) SIZEOF_LIST_HEAD x \/ at_ (free_arena_list as_ i) SIZEOF_LIST_HEAD x) m m' /\
  dll m' (arena_list as_ i) [] /\ dll m' (free_arena_list as_ i) [].
Proof.
  intros Hi. unfold class_ok in Hi. destruct (rt_range _ _ Hc) as [R1 R2].
  destruct (init_heads_spec 1 as_ i m R1 R2 ltac:(lia) ltac:(lia)) as [Ho Hd]. cbn [init_heads] in Ho, Hd. cbv zeta. split; [| apply Hd; lia].
  eapply only_mono; [exact Ho |]. intros x (j & Hj & Hx). by replace j with i in Hx by lia.
Qed.

Lemma torn_step i s s1 :
  class_ok i -> torn i s -> bk_inv (p_bk s1) (p_mem s1) -> same_rest s s1 ->
  bk_blocks (p_bk s1) = del_all (rev (g_all g i)) (bk_blocks (p_bk s)) ->
  keeps (bk_blocks (p_bk s1)) (p_mem s) (p_mem s1) ->
  torn (i + 1) (set_mem s1 (init_list_head (init_list_head (p_mem s1) (arena_list as_ i)) (free_arena_list as_ i))).
Proof.
  intros Hi Ht Hb1 Hr1 HB1 Hk1. destruct (init_pair_spec i (p_mem s1) Hi) as (Ho & D1 & D2).
  set (m2 := init_list_head _ _) in *. pose proof Hi as Hi'. unfold class_ok in Hi'.
  assert (Hlook : forall p, bk_blocks (p_bk s1) !! p = if bool_decide (p ∈ g_all g i) then None else bk_blocks (p_bk s) !! p).
  { intros p. rewrite HB1, del_all_lookup. erewrite bool_decide_ext; [done |]. by rewrite !list_elem_of_In, <- in_rev. }
  assert (Hsub : forall x, in_blocks (bk_blocks (p_bk s1)) x -> in_blocks (bk_blocks (p_bk s)) x).
  { intros x (p & c & Hp & Hx). exists p, c. split; [| done]. rewrite Hlook in Hp. by destruct (bool_decide _). }
  assert (Hrt : forall x, at_ as_ SIZEOF_JSArenaState x -> in_blocks (bk_blocks (p_bk s1)) x).
  { intros x Hx. destruct (state_rt i s x ltac:(lia) Ht Hx) as (c & Hp & Hx'). exists (g_rt g), c. split; [| done].
    rewrite Hlook, bool_decide_eq_false_2; [done |]. intros Ha. destruct (page_slab i _ Hi Ha) as [f Hs].
    by apply (pc_slab _ _ Hc) in Hs as (_ & ? & _). }
  assert (Hdis : forall j x, 0 <= j < i -> at_ (arena_list as_ j) SIZEOF_LIST_HEAD x \/ at_ (free_arena_list as_ j) SIZEOF_LIST_HEAD x ->
    at_ as_ SIZEOF_JSArenaState x /\ ~ (at_ (arena_list as_ i) SIZEOF_LIST_HEAD x \/ at_ (free_arena_list as_ i) SIZEOF_LIST_HEAD x)).
  { intros j x Hj Hx. unfold at_, arena_list, free_arena_list, SIZEOF_LIST_HEAD, JS_ARENA_BLOCK_SIZE_COUNT, SIZEOF_JSArenaState in *. lia. }
  split; cbn [p_bk p_mem set_mem].
  - eapply bk_client_writes; [exact Hb1 |]. eapply only_mono; [exact Ho |]. intros x Hx. apply Hrt.
    unfold at_, arena_list, free_arena_list, SIZEOF_LIST_HEAD, JS_ARENA_BLOCK_SIZE_COUNT, SIZEOF_JSArenaState in *. lia.
  - eapply same_rest_trans; [apply Ht |]. exact Hr1.
  - intros p Hp. rewrite Hlook. case_bool_decide as Hin; [done |]. apply (tn_gone _ _ Ht).
    by apply done_page_succ in Hp as [Hp | Hp].
  - intros p Hp. rewrite Hlook, bool_decide_eq_false_2 by (intros ?; apply Hp, done_page_succ; tauto).
    apply (tn_stay _ _ Ht). intros ?. apply Hp, done_page_succ; tauto.
  - intros x Hx Hn. rewrite Ho by (intros Hh; apply Hn; exists i; split; [lia | done]). rewrite Hk1 by done.
    apply (tn_kept _ _ Ht); [by apply Hsub |]. intros (j & Hj & Hx'). apply Hn. exists j. split; [lia | done].
  - intros j Hj. destruct (Z.eq_dec j i) as [-> | Hne]; [done |]. destruct (tn_heads _ _ Ht j ltac:(lia)) as [E1 E2].
    split; [eapply dll_agree; [| exact E1] | eapply dll_agree; [| exact E2]]; intros a x Ha Hx; apply list_elem_of_singleton in Ha as ->;
      (destruct (Hdis j x) as [X1 X2]; [lia | tauto |]); rewrite Ho by done; apply Hk1; by apply Hrt.
Qed.

Lemma free_classes_spec k : forall i s,
  0 <= i -> i + Z.of_nat k = JS_ARENA_BLOCK_SIZE_COUNT -> torn i s ->
  swp (free_classes k fuel as_ i) (fun _ s' => torn JS_ARENA_BLOCK_SIZE_COUNT s') s.
Proof.
  induction k as [| k IH]; intros i s Hi Hk Ht; cbn [free_classes].
  { apply swp_ret. replace JS_ARENA_BLOCK_SIZE_COUNT with i by lia. done. }
  assert (Hci : class_ok i) by (unfold class_ok; lia).
  pose proof (class_pages_released i s Hci Ht) as Hp. unfold pld in *. swp_steps.
  eapply swp_mono; [exact Hp |]. intros u s1 (I1 & I2 & I3 & I4). unfold pmod. swp_steps.
  apply IH; [lia | lia |]. by apply (torn_step i s).
Qed.

Lemma torn_start : torn 0 s0.
Proof.
  split; try done; try (intros; lia); [apply Hc |]. intros p (j & Hj & _). lia.
Qed.

(** The runtime and the large blocks after the last class. *)
Lemma torn_all_kept s b c x :
  torn JS_ARENA_BLOCK_SIZE_COUNT s -> b ∈ g_larges g -> B !! b = Some c -> at_ b c x -> load8 (p_mem s) x = load8 (p_mem s0) x.
Proof.
  intros Ht Hb HB Hx. assert (HB' : bk_blocks (p_bk s) !! b = Some c) by (rewrite (large_stays JS_ARENA_BLOCK_SIZE_COUNT); done).
  apply (tn_kept _ _ Ht); [by exists b, c |]. eapply off_heads; [done | exact Ht | done | | done].
  by apply (pc_large _ _ Hc) in Hb as (? & _).
Qed.

Lemma torn_all_core s : torn JS_ARENA_BLOCK_SIZE_COUNT s -> pcore s (no_pages g).
Proof.
  intros Ht. destruct (tn_rest _ _ Ht) as (R1 & R2 & R3). split; simpl.
  - apply Ht.
  - destruct (pc_rt _ _ Hc) as (c & H). exists c. by rewrite (rt_stays JS_ARENA_BLOCK_SIZE_COUNT), R1.
  - intros ar i f Hs. unfold slab_at in Hs. simpl in Hs. by rewrite lookup_empty in Hs.
  - intros b Hb. destruct (pc_large _ _ Hc b Hb) as (H1 & H2 & (c & H3 & H4) & H5). split; [done |]. split; [done |]. split.
    + exists c. by rewrite (large_stays JS_ARENA_BLOCK_SIZE_COUNT).
    + rewrite <- H5. unfold loadw. f_equal. apply load_bytes_ext. intros x Hx. eapply torn_all_kept; [done | done | exact H3 |].
      unfold at_, SIZEOF_HEADER in *. lia.
  - rewrite <- (pc_zero _ _ Hc), R1. unfold loadw. f_equal. apply load_bytes_ext. intros x Hx. fold as_ in Hx.
    unfold arena_zero_block, SIZEOF_LIST_HEAD, JS_ARENA_BLOCK_SIZE_COUNT in Hx. apply (tn_kept _ _ Ht).
    + exists (g_rt g). eapply state_rt; [done | exact Ht |]. unfold at_, SIZEOF_JSArenaState. lia.
    + intros Hd. apply done_head_state in Hd; [| done]. unfold at_ in Hd. lia.
  - intros i Hi. rewrite R1. split; [by apply (tn_heads _ _ Ht) |]. split; [constructor |]. intros ar Ha. by apply not_elem_of_nil in Ha.
  - intros i Hi. rewrite R1. split; [by apply (tn_heads _ _ Ht) |]. split; [constructor |]. intros ar Ha. by apply not_elem_of_nil in Ha.
Qed.
End all_classes.

(** C30: releasing the pool at the end of a runtime.  On any pool between
    calls, with more fuel than a class has pages, [js_arena_free_all] returns
    although it walks each ring through the pages it is releasing; exactly the
    pages have then gone back to the backing allocator, the large blocks and
    their contents are untouched, and what is left is a well-formed pool with
    no pages, in which all 62 rings are empty. *)
Theorem free_all_releases_pages s g fuel :
  pcore s g -> settled g -> (forall i, class_ok i -> (length (g_all g i) < fuel)%nat) ->
  exists s', js_arena_free_all fuel s = Done (tt, s') /\ pcore s' (no_pages g) /\ same_rest s s' /\
    (forall p, bk_blocks (p_bk s') !! p = if bool_decide (is_Some (g_slabs g !! p)) then None else bk_blocks (p_bk s) !! p) /\
    (forall b c x, b ∈ g_larges g -> bk_blocks (p_bk s) !! b = Some c -> at_ b c x -> load8 (p_mem s') x = load8 (p_mem s) x).
Proof.
  intros Hc Hs Hf.
  destruct (swp_done _ _ _ (free_classes_spec s g fuel Hc Hf (Z.to_nat JS_ARENA_BLOCK_SIZE_COUNT) 0 s ltac:(lia) eq_refl (torn_start s g Hc)))
    as ([] & s' & E & Ht).
  exists s'. split; [exact E |]. split; [by apply (torn_all_core s g Hc) |]. split; [apply Ht |]. split.
  - intros p. case_bool_decide as Hp.
    + destruct Hp as [[i f] Hp]. apply (tn_gone _ _ _ _ Ht). destruct (pc_slab _ _ Hc _ _ _ Hp) as (Hi & _).
      destruct (Hs _ _ _ Hp) as (Ha & _). by exists i.
    + apply (tn_stay _ _ _ _ Ht). intros Hd. apply (done_page_slab s g Hc) in Hd as (j & f & Hj & _); [| done]. apply Hp. by eexists.
  - intros b c x Hb HB Hx. by eapply (torn_all_kept s g Hc).
Qed.
End teardown.
