(* ===== verification/PoolBase.v ===== *)
(** * The small-block pool over a base arena

    While a base snapshot is being built, the [JSMallocFunctions] of the
    runtime bump-allocate in the base arena: [jda_malloc], [jda_calloc],
    [jda_realloc], [jda_free] and [jda_usable_size] in base mode are
    [arena_alloc], [arena_alloc] and [memset], [arena_realloc], nothing, and
    the size in the header.  The base arena satisfies the contract of the
    pool, so that the pool's theorems hold of the composition; the witnesses
    below are at this instance. *)

From stdpp Require Import base list numbers gmap.
From Stdlib Require Import ZArith Lia.
From S2P Require Import Prelude Memory ChunkTable BumpArena StateRun ListHead Pool PoolInvariant PoolUpdates PoolSpecs PoolCalls PoolHeap PoolTheorems PoolTeardown.

#[local] Open Scope Z_scope.

(** The arena with the blocks in use. *)
Definition base_state : Type := JSArena * gmap Z Z.

Definition base_note (B : gmap Z Z) (p n : Z) : gmap Z Z := if p =? 0 then B else <[p := n]> B.

Definition base_malloc (b : base_state) (m : mem) (n : Z) : Z * base_state * mem :=
  let '(p, a, m) := arena_alloc (fst b) m n in (p, (a, base_note (snd b) p n), m).

Definition base_calloc (b : base_state) (m : mem) (count size : Z) : Z * base_state * mem :=
  if (count =? 0) || (size =? 0) then (0, b, m)
  else if SIZE_MAX / size <? count then (0, b, m)
  else
    let '(p, b, m) := base_malloc b m (count * size) in
    (p, b, if p =? 0 then m else memset m p 0 (count * size)).

Definition base_free (b : base_state) (m : mem) (p : Z) : base_state * mem := ((fst b, delete p (snd b)), m).

Definition base_resize (b : base_state) (m : mem) (p n : Z) : Z * base_state * mem :=
  let '(q, a, m) := arena_realloc (fst b) m p n in
  (q, (a, if q =? 0 then snd b else <[q := n]> (delete p (snd b))), m).

#[global] Instance base_backing : Backing := {|
  bst := base_state;
  bk_malloc := base_malloc;
  bk_calloc := base_calloc;
  bk_free := base_free;
  bk_realloc := base_resize;
  bk_usable_size := fun _ m p => arena_user_size m p
|}.

Definition base_inv (b : base_state) (m : mem) : Prop := exists bs,
  arena_inv (fst b) m bs /\ (forall p c, snd b !! p = Some c -> (p, c) ∈ bs) /\ buf (fst b) + capacity (fst b) < 2 ^ 62.

Section laws.
Context (a : JSArena) (B : gmap Z Z) (m : mem) (bs : list block).
Hypothesis Hi : arena_inv a m bs.
Hypothesis HB : forall p c, B !! p = Some c -> (p, c) ∈ bs.
Hypothesis Hcap : buf a + capacity a < 2 ^ 62.

Lemma base_block p c :
  B !! p = Some c -> 0 < c < 2 ^ 62 /\ (16 | p) /\ 0 < buf a /\ buf a + 32 <= p /\ p + c <= buf a + arena_cursor a m /\
  arena_cursor a m <= capacity a /\ arena_user_size m p = c.
Proof.
  intros Hp. apply HB in Hp. pose proof (proj1 (Forall_forall _ _) (ai_blocks _ _ _ Hi) _ Hp) as [H1 H2 H3 H4 H5].
  destruct (ai_cursor _ _ _ Hi) as [H6 _]. destruct (ai_buf _ _ _ Hi) as [H7 _]. simpl in *. pose proof (round16 c ltac:(lia)).
  unfold block_lo, block_hi, ARENA_PREFIX_LEN in *. simpl in *. repeat (split; [done || lia |]). done.
Qed.

Lemma base_apart p q c d : B !! p = Some c -> (q, d) ∈ bs -> p <> q -> p + c <= q - 16 \/ q + d <= p - 16.
Proof.
  intros Hp Hq Hne. apply HB in Hp. pose proof (disjoint_in bs _ _ (ai_disjoint _ _ _ Hi) Hp Hq ltac:(congruence)) as Hd.
  pose proof (proj1 (Forall_forall _ _) (ai_blocks _ _ _ Hi) _ Hp) as [H1 _ _ _ _].
  pose proof (proj1 (Forall_forall _ _) (ai_blocks _ _ _ Hi) _ Hq) as [H2 _ _ _ _]. simpl in *.
  pose proof (round16 c ltac:(lia)). pose proof (round16 d ltac:(lia)). unfold blocks_disjoint, block_lo, block_hi in Hd. simpl in Hd. lia.
Qed.

Lemma base_geometry : blocks_ok B.
Proof.
  split.
  - intros p c Hp. destruct (base_block p c Hp) as (H1 & [z H2] & H3 & H4 & H5 & H6 & _). split; [lia |].
    split; [exists (2 * z); lia |]. lia.
  - intros p q x (c & Hp & Hx) (d & Hq & Hx'). destruct (decide (p = q)) as [| Hne]; [done | exfalso].
    destruct (base_apart p q c d Hp (HB _ _ Hq) Hne); unfold at_ in *; lia.
Qed.

(** Writes into the blocks miss the cursor and the headers. *)
Lemma base_writes m' : only (in_blocks B) m m' -> arena_inv a m' bs.
Proof.
  intros Ho.
  assert (Hcu : arena_cursor a m' = arena_cursor a m).
  { symmetry. apply load64_ext. intros x Hx. symmetry. apply Ho. intros (p & c & Hp & Hxp).
    destruct (base_block p c Hp) as (_ & _ & _ & H & _). unfold at_ in Hxp. lia. }
  destruct Hi as [H1 H2 H3 H4 H5 H6]. split; try done; try (by rewrite Hcu).
  apply Forall_forall. intros b Hb. pose proof (proj1 (Forall_forall _ _) H4 b Hb) as Hok.
  apply (block_ok_frame a a m m' b Hok eq_refl); [| rewrite Hcu; apply Hok].
  intros x Hx. symmetry. apply Ho. intros (p & c & Hp & Hxp). destruct b as [q d]. unfold block_lo in Hx. simpl in Hx.
  unfold at_ in Hxp. pose proof (bo_size _ _ _ Hok) as Hd. simpl in Hd.
  destruct (decide (p = q)) as [-> | Hne]; [lia |]. destruct (base_apart p q c d Hp Hb Hne); lia.
Qed.

End laws.

Section calls.
Context (a : JSArena) (B : gmap Z Z) (m : mem) (bs : list block).
Hypothesis Hi : arena_inv a m bs.
Hypothesis HB : forall p c, B !! p = Some c -> (p, c) ∈ bs.
Hypothesis Hcap : buf a + capacity a < 2 ^ 62.

Lemma base_malloc_ok n p b' m' :
  0 < n < 2 ^ 62 -> base_malloc (a, B) m n = (p, b', m') ->
  base_inv b' m' /\ keeps B m m' /\
  (p = 0 /\ snd b' = B \/ exists c, n <= c /\ B !! p = None /\ snd b' = <[p := c]> B).
Proof.
  intros Hn. unfold base_malloc. simpl.
  destruct (decide (arena_cursor a m + ARENA_HEADER_SIZE + round_up ARENA_ALIGN n <= capacity a)) as [Hf | Hf].
  2:{ rewrite (arena_alloc_refused a m bs Hi n Hn) by (unfold fits; lia). intros [= <- <- <-]. simpl.
      split; [by exists bs |]. split; [done |]. by left. }
  destruct (arena_alloc_granted a m bs Hi n Hn Hf) as (a' & m1 & E & Hi' & Eb & Ec & Hfr & _). cbv zeta in *. rewrite E.
  destruct (ai_cursor _ _ _ Hi) as [Hcur _]. destruct (ai_buf _ _ _ Hi) as [Hb0 _]. unfold ARENA_HEADER_SIZE, ARENA_PREFIX_LEN in *.
  set (q := buf a + arena_cursor a m + 16) in *. intros [= <- <- <-]. unfold base_note. simpl.
  destruct (Z.eqb_spec q 0) as [E0 | _]; [lia |].
  assert (Hq : B !! q = None).
  { destruct (B !! q) as [c |] eqn:Eq; [| done]. destruct (base_block a B m bs Hi HB q c Eq). lia. }
  split; [| split].
  - exists ((q, n) :: bs). simpl. split; [done |]. split; [| congruence]. intros r c Hr.
    apply lookup_insert_Some in Hr as [[<- <-] | [_ Hr]]; [apply list_elem_of_here | by apply list_elem_of_further, HB].
  - intros x (r & c & Hr & Hx). destruct (base_block a B m bs Hi HB r c Hr) as (H1 & H2 & H3 & H4 & H5 & H6). unfold at_ in Hx.
    symmetry. apply (Hfr x (x + 1)); lia.
  - right. exists n. split; [lia |]. done.
Qed.

Lemma base_calloc_ok n p b' m' :
  0 < n < 2 ^ 62 -> base_calloc (a, B) m 1 n = (p, b', m') ->
  base_inv b' m' /\ keeps B m m' /\
  (p = 0 /\ snd b' = B \/
   (forall x, at_ p n x -> load8 m' x = 0) /\ exists c, n <= c /\ B !! p = None /\ snd b' = <[p := c]> B).
Proof.
  intros Hn. unfold base_calloc. rewrite (proj2 (Z.eqb_neq n 0)) by lia. simpl orb.
  assert (Hdiv : 1 <= SIZE_MAX / n) by (apply Z.div_le_lower_bound; unfold SIZE_MAX; lia).
  rewrite (proj2 (Z.ltb_ge (SIZE_MAX / n) 1)), Z.mul_1_l by lia.
  destruct (base_malloc (a, B) m n) as [[q b1] m1] eqn:E. intros [= <- <- <-].
  destruct (base_malloc_ok n q b1 m1 Hn E) as (I1 & I2 & I3). destruct (Z.eqb_spec q 0) as [-> | Hq].
  { split; [done |]. split; [done |]. left. split; [done |]. destruct I3 as [[_ ?] | (c & _ & _ & E3)]; [done |].
    unfold base_malloc in E. simpl in E. destruct (arena_alloc a m n) as [[q' a1] m1'] eqn:Ea. injection E as -> <- <-. done. }
  destruct I3 as [[? _] | (c & L & Hnone & E3)]; [done |]. destruct I1 as (bs1 & J1 & J2 & J3). destruct b1 as [a1 B1]. simpl in *.
  assert (Ho : only (at_ q n) m1 (memset m1 q 0 n)) by (apply only_memset; lia). split; [| split].
  - exists bs1. simpl. split; [| done].
    apply (base_writes a1 B1 m1 bs1 J1 J2). eapply only_mono; [exact Ho |]. intros x Hx. exists q, c. rewrite E3, lookup_insert_eq.
    split; [done |]. unfold at_ in *. lia.
  - intros x Hx. rewrite Ho; [by apply I2 |]. intros Hxq. destruct Hx as (r & d & Hr & Hx). assert (r <> q) by congruence.
    assert (Hr1 : B1 !! r = Some d) by (rewrite E3, lookup_insert_ne; done).
    assert (Hq1 : B1 !! q = Some c) by (rewrite E3; apply lookup_insert_eq).
    destruct (base_apart a1 B1 m1 bs1 J1 J2 r q d c Hr1 (J2 _ _ Hq1)); [done | |]; unfold at_ in *; lia.
  - right. split; [| by exists c]. intros x Hx. rewrite load8_memset by lia. unfold at_ in Hx. bool_lia.
Qed.

Lemma base_realloc_ok p c n q b' m' :
  B !! p = Some c -> 0 < n < 2 ^ 62 -> base_resize (a, B) m p n = (q, b', m') ->
  base_inv b' m' /\ keeps (delete p B) m m' /\
  (q = 0 /\ snd b' = B /\ keeps B m m' \/
   (forall i, 0 <= i < Z.min c n -> load8 m' (q + i) = load8 m (p + i)) /\
   exists c', n <= c' /\ delete p B !! q = None /\ snd b' = <[q := c']> (delete p B)).
Proof.
  intros Hp Hn. unfold base_resize. simpl. destruct (base_block a B m bs Hi HB p c Hp) as (P1 & P2 & P3 & P4 & P5 & P6 & _).
  destruct (realloc_spec a m bs Hi p c n (HB _ _ Hp) Hn) as [[E _] | (np & a' & m1 & bs' & E & Hnp & R)]; rewrite E.
  { intros [= <- <- <-]. simpl. split; [by exists bs |]. split; [done |]. by left. }
  intros [= <- <- <-]. simpl. rewrite (proj2 (Z.eqb_neq np 0) Hnp). destruct R as [R1 R2 R3 R4 [R5 R6] R7 R8]. split; [| split].
  - exists bs'. simpl. split; [done |]. split; [| congruence]. intros r d Hr.
    apply lookup_insert_Some in Hr as [[<- <-] | [_ Hr]]; [done |]. apply lookup_delete_Some in Hr as [Hne Hr].
    apply R4; [by apply HB | done].
  - intros x (r & d & Hr & Hx). apply lookup_delete_Some in Hr as [Hne Hr].
    destruct (base_block a B m bs Hi HB r d Hr) as (H1 & H2 & H3 & H4 & H5 & H6 & _). unfold at_ in Hx. symmetry.
    destruct (base_apart a B m bs Hi HB r p d c Hr (HB _ _ Hp) ltac:(done)); apply (R8 x (x + 1)); lia.
  - right. split.
    + intros i Hr. pose proof (nthZ_load_bytes m1 np (common c n) i) as E1. pose proof (nthZ_load_bytes m p (common c n) i) as E2.
      unfold common in *. rewrite R7, E2 in E1 by lia. symmetry. apply E1. lia.
    + exists n. split; [lia |]. split; [| done]. destruct (decide (np = p)) as [-> | Hne]; [apply lookup_delete_eq |].
      rewrite lookup_delete_ne by done. destruct (B !! np) as [d |] eqn:Ed; [| done].
      destruct (base_block a B m bs Hi HB np d Ed). destruct R3; [done | lia].
Qed.
End calls.

#[global] Instance base_backing_laws : BackingLaws.
Proof.
  refine {| bk_inv := base_inv : bst -> mem -> Prop; bk_blocks := snd : bst -> gmap Z Z; bk_reports := true |}.
  - intros [a B] m (bs & H1 & H2 & H3). by eapply base_geometry.
  - intros [a B] m m' (bs & H1 & H2 & H3) Ho. exists bs. split; [by eapply base_writes | done].
  - intros [a B] m p c (bs & H1 & H2 & H3) Hp. by apply (base_block a B m bs H1 H2).
  - intros [a B] m n p b' m' (bs & H1 & H2 & H3) Hn E. by apply (base_malloc_ok a B m bs H1 H2 H3 n).
  - intros [a B] m n p b' m' (bs & H1 & H2 & H3) Hn E. by apply (base_calloc_ok a B m bs H1 H2 H3 n).
  - intros [a B] m p b' m' (bs & H1 & H2 & H3) Hs [= <- <-]. simpl in *. split; [| done]. exists bs. split; [done |]. split; [| done].
    intros q c Hq. simpl in Hq. apply lookup_delete_Some in Hq as [_ Hq]. by apply H2.
  - intros [a B] m p c n q b' m' (bs & H1 & H2 & H3) Hp Hn E. by apply (base_realloc_ok a B m bs H1 H2 H3 p c n).
Defined.

(** ** A runtime in a 16 KiB base arena *)

Module Demo.

Definition arena0 : Z * JSArena * mem := arena_init 4096 1048576 arena_zero ∅ 16384.
Definition b0 : base_state := (snd (fst arena0), ∅).
Definition m0 : mem := snd arena0.

Lemma b0_inv : base_inv b0 m0.
Proof.
  pose proof (arena_init_spec 4096 1048576 arena_zero ∅ 16384 ltac:(right; lia) ltac:(lia) ltac:(lia) ltac:(by exists 65536)) as H.
  unfold b0, m0. change (arena_init 4096 1048576 arena_zero ∅ 16384) with arena0 in H. destruct arena0 as [[rc a] m].
  destruct H as (_ & H1 & H2 & H3 & _). exists []. simpl. split; [exact H1 |]. split.
  - intros p c Hp. by rewrite lookup_empty in Hp.
  - rewrite H2, H3. by vm_compute.
Qed.

Lemma size_ok : 0 <= 512 /\ 512 + SIZEOF_JSArenaState <= 2048 < 2 ^ 62.
Proof. unfold SIZEOF_JSArenaState. lia. Qed.

Lemma booted : match new_runtime_pool b0 m0 2048 512 with Done (Some _) => true | _ => false end = true.
Proof. vm_compute. reflexivity. Qed.

(** Allocate 24 bytes, move them to a large block, release it. *)
Definition next (rs : list Z) : pop :=
  match rs with
  | [] => PMalloc 24
  | [p] => PRealloc p 600
  | _ :: p :: _ => PFree p
  end.

Lemma next_ok lim rtc : client_ok lim rtc 3 next [] heap0.
Proof.
  cbn [client_ok next app]. split; [simpl; lia |]. intros r h Hs.
  assert (Hr : r = 0 \/ is_Some (ah_blocks h !! r)).
  { inversion Hs; subst; [by left | right; simpl; rewrite lookup_insert_eq; by eexists]. }
  split; [split; [done | lia] |]. intros q h' Hs'. split; [| done].
  inversion Hs' as [| | | | | | ? ? ? ? Hm | | | | | | | |]; subst; try (by left).
  - inversion Hm; subst; [by left | right; simpl; rewrite lookup_insert_eq; by eexists].
  - right. simpl. rewrite lookup_insert_eq. by eexists.
Qed.

(** The run computed: both allocations are granted. *)
Example next_answers :
  match new_runtime_pool b0 m0 2048 512 with
  | Done (Some s) => match run_client 3 next [] s with Done (rs, _) => rs | _ => [] end
  | _ => []
  end = [1050720; 1054776; 0].
Proof. vm_compute. reflexivity. Qed.

(** [pool_refines_heap] for that client. *)
Lemma pool_refines_heap_witness : exists s0 s1 rs s' h',
  new_runtime_pool b0 m0 2048 512 = Done (Some s0) /\ JS_SetMemoryLimit 0 s0 = Done (tt, s1) /\
  run_client 3 next [] s1 = Done (rs, s') /\ lockstep 0 (malloc_size (p_ms s0)) next 3 [] s1 heap0 rs s' h'.
Proof.
  destruct (pool_refines_heap (BL := base_backing_laws) b0 m0 2048 512 b0_inv size_ok 0 ltac:(lia)) as [[E _] | (s0 & E & H)].
  - pose proof booted as Hb. rewrite E in Hb. discriminate Hb.
  - destruct (H 3%nat next (next_ok _ _)) as (s1 & rs & s' & h' & H1 & H2 & H3). exists s0, s1, rs, s', h'. exact (conj E (conj H1 (conj H2 H3))).
Defined.

Lemma booted_state : exists s0, new_runtime_pool b0 m0 2048 512 = Done (Some s0).
Proof. pose proof booted as Hb. destruct (new_runtime_pool (BK := base_backing) b0 m0 2048 512) as [[s0 |] | |]; try discriminate Hb. exists s0. reflexivity. Qed.

(** [malloc_accounting_exact] under a limit of one megabyte. *)
Lemma malloc_accounting_exact_witness : exists s0 s' h',
  new_runtime_pool b0 m0 2048 512 = Done (Some s0) /\
  (ah_arena h' = false -> malloc_size (p_ms s') = malloc_size (p_ms s0) + total (ah_blocks h')).
Proof.
  destruct booted_state as [s0 E].
  destruct (malloc_accounting_exact (BL := base_backing_laws) b0 m0 2048 512 b0_inv size_ok 1048576 3 next s0 ltac:(lia) E (next_ok _ _))
    as (s1 & rs & s' & h' & _ & _ & _ & H).
  exists s0, s', h'. split; [exact E |]. intros Ha. exact (proj1 (proj2 (H Ha))).
Defined.

Lemma pool_well_formed_witness : exists s' g, pcore s' g /\ settled g.
Proof.
  destruct booted_state as [s0 E].
  destruct (boot_run (BL := base_backing_laws) b0 m0 2048 512 b0_inv size_ok 0 3 next s0 ltac:(lia) E (next_ok _ _))
    as (s1 & rs & s' & h' & E1 & E2 & _).
  destruct (pool_well_formed (BL := base_backing_laws) b0 m0 2048 512 b0_inv size_ok 0 3 next s0 s1 rs s' ltac:(lia) E (next_ok _ _) E1 E2)
    as (g & H1 & H2).
  exists s', g. exact (conj H1 H2).
Defined.

(** Allocate, then become an arena runtime. *)
Definition next_mark (rs : list Z) : pop := match rs with [] => PMalloc 24 | _ => PMark end.

Lemma marked_state : exists s g, pcore s g /\ settled g /\ p_is_arena s = true.
Proof.
  destruct booted_state as [s0 E].
  destruct (boot_run (BL := base_backing_laws) b0 m0 2048 512 b0_inv size_ok 0 2 next_mark s0 ltac:(lia) E) as (s1 & rs & s' & h' & _ & _ & Hl & g & Hh & Ha & _).
  { cbn [client_ok next_mark app]. split; [simpl; lia |]. intros r h _. split; [exact I |]. intros; exact I. }
  exists s', g. split; [exact (ho_core _ _ _ Hh) |]. split; [exact (ho_settled _ _ _ Hh) |]. rewrite Ha. clear Ha Hh E.
  inversion Hl as [| ? ? ? ? ? ? ? ? ? ? _ _ _ Hl']; subst. inversion Hl' as [| ? ? ? ? ? ? ? ? ? ? _ _ Hm Hl'']; subst.
  inversion Hl''; subst. inversion Hm; subst. reflexivity.
Qed.

Lemma arena_calls_spare_pages_witness : exists s g,
  p_is_arena s = true /\ swp (js_malloc_rt 24) (fun _ s' => spares s g s') s.
Proof.
  destruct marked_state as (s & g & Hc & _ & Ha). exists s, g. split; [exact Ha |].
  apply (proj1 (arena_calls_spare_pages s g Hc Ha)). lia.
Defined.

(** More than the pages of any class. *)
Definition enough (g : ghost) : nat := S (list_max ((fun i => length (g_all g i)) <$> seqZ 0 31)).

Lemma enough_ok g i : class_ok i -> (length (g_all g i) < enough g)%nat.
Proof.
  intros Hi. unfold class_ok, JS_ARENA_BLOCK_SIZE_COUNT in Hi. unfold enough. apply Nat.lt_succ_r.
  pose proof (proj1 (list_max_le ((fun i => length (g_all g i)) <$> seqZ 0 31) _) (Nat.le_refl _)) as H.
  rewrite Forall_fmap in H. apply (proj1 (Forall_forall _ _) H i). apply elem_of_seqZ. lia.
Qed.

Lemma free_all_releases_pages_witness : exists s g s',
  pcore s g /\ js_arena_free_all (enough g) s = Done (tt, s') /\ pcore s' (no_pages g).
Proof.
  destruct marked_state as (s & g & Hc & Hs & _).
  destruct (free_all_releases_pages s g (enough g) Hc Hs (enough_ok g)) as (s' & H1 & H2 & _). exists s, g, s'.
  exact (conj Hc (conj H1 H2)).
Defined.

(** The class of a request of 100 bytes is the one of 112. *)
Lemma size_class_best_witness : block_size_of (arena_get_size_index (pool_total_size 100)) = 112 /\
  8 * block_size_of (arena_get_size_index (pool_total_size 100)) <= 9 * pool_total_size 100.
Proof.
  split; [reflexivity |]. destruct (size_class_best 100 ltac:(by vm_compute)) as (_ & _ & _ & H & _). apply H. reflexivity.
Defined.
End Demo.
