(* ===== verification/ShadowTable.v ===== *)
(** * Shadow tables (quickjs.c)

    [js_object_shadow_lookup]/[js_shadow_tab_put]/[js_shadow_tab_reserve] and
    their closure-cell twins: a request's open-addressed map from snapshot
    pointers to their request-side copies.  Entries are never removed; the
    table doubles at half load.

    The specification is the finite map [shadows]. *)

From stdpp Require Import base list numbers gmap.
From Stdlib Require Import ZArith Lia.
From S2P Require Import Prelude ProbeTable.

Definition JS_SHADOW_TAB_INITIAL : Z := 16.

(** [shadow_tab], [shadow_tab_size], [shadow_tab_count] of a request state. *)
Record shadow_table := ShadowTab {
  st_tab : option (list slot);
  st_size : Z;
  st_count : Z
}.

(** As [JS_RelocateReqState] leaves it. *)
Definition shadow_table_init : shadow_table := ShadowTab None 0 0.

Definition js_shadow_hash (p mask : Z) : Z :=
  let v := Z.shiftr p 4 in
  let v := u64 (v * 0x9E3779B97F4A7C15) in
  Z.land (u32 (Z.shiftr v 32)) mask.

(** The shadow of [p], 0 for NULL. *)
Definition shadow_lookup (st : shadow_table) (p : Z) : run Z :=
  match st_tab st with
  | None => Done 0
  | Some tab =>
      let mask := u32 (st_size st - 1) in
      let* i := of_option (probe (length tab) (stop_key p) tab mask (js_shadow_hash p mask)) in
      if key_at tab i =? 0 then Done 0 else Done (s_val (slot_at tab i))
  end.

(** [while (tab[i].base) i = (i + 1) & mask;] then store. *)
Definition js_shadow_tab_put (tab : list slot) (mask base shadow : Z) : run (list slot) :=
  let* i := of_option (probe (length tab) (fun k => k =? 0) tab mask (js_shadow_hash base mask)) in
  Done (setZ i (Slot base shadow) tab).

Fixpoint shadow_rehash (old : list slot) (nt : list slot) (mask : Z) : run (list slot) :=
  match old with
  | [] => Done nt
  | e :: old' =>
      if s_key e =? 0 then shadow_rehash old' nt mask
      else
        let* nt := js_shadow_tab_put nt mask (s_key e) (s_val e) in
        shadow_rehash old' nt mask
  end.

(** The early return: a table with room for one more entry. *)
Definition shadow_has_room (st : shadow_table) : bool :=
  (match st_tab st with Some _ => true | None => false end)
  && (u32 (u32 (st_count st + 1) * 2) <=? st_size st).

(** [alloc_ok] says whether [js_mallocz_rt] succeeds; asked for 0 bytes it
    fails its assertion. *)
Definition js_shadow_tab_reserve (alloc_ok : bool) (st : shadow_table) : run (Z * shadow_table) :=
  if shadow_has_room st then Done (0, st)
  else
    let new_size := if st_size st =? 0 then JS_SHADOW_TAB_INITIAL else u32 (st_size st * 2) in
    let* _ := assert_ (negb (new_size =? 0)) in
    if negb alloc_ok then Done (-1, st)
    else
      let nt := replicate (Z.to_nat new_size) empty_slot in
      let* nt := shadow_rehash (match st_tab st with Some tab => tab | None => [] end) nt (u32 (new_size - 1)) in
      Done (0, ShadowTab (Some nt) new_size (st_count st)).

(** The slot store and the count of [js_object_for_write]. *)
Definition shadow_insert (st : shadow_table) (base shadow : Z) : run shadow_table :=
  match st_tab st with
  | None => Aborts
  | Some tab =>
      let* tab := js_shadow_tab_put tab (u32 (st_size st - 1)) base shadow in
      Done (ShadowTab (Some tab) (st_size st) (u32 (st_count st + 1)))
  end.

(** The scan of [js_object_base_identity]: live entries in slot order. *)
Fixpoint base_identity_scan (tab : list slot) (seen live p : Z) : Z :=
  match tab with
  | [] => p
  | e :: tab' =>
      if negb (seen <? live) then p
      else if s_key e =? 0 then base_identity_scan tab' seen live p
      else if s_val e =? p then s_key e
      else base_identity_scan tab' (u32 (seen + 1)) live p
  end.

Definition shadow_base_identity (st : shadow_table) (p : Z) : Z :=
  base_identity_scan (take (Z.to_nat (st_size st)) (match st_tab st with Some tab => tab | None => [] end))
    0 (st_count st) p.

(** ** Specification *)

Definition shadows (st : shadow_table) : gmap Z Z :=
  match st_tab st with Some tab => contents tab | None => ∅ end.

(** A NULL table is empty; a table is at most half full and counts its keys. *)
Definition wf_shadow (st : shadow_table) : Prop :=
  match st_tab st with
  | None => st_size st = 0 /\ st_count st = 0
  | Some tab =>
      wf_table js_shadow_hash (st_size st) tab /\ 16 <= st_size st /\
      Z.of_nat (occupied tab) = st_count st /\ st_count st * 2 <= st_size st
  end.

#[export] Instance shadow_hash_masked : MaskedHash js_shadow_hash.
Proof.
  intros k mask Hm. unfold js_shadow_hash. set (v := u32 _).
  assert (0 <= v < 2 ^ 32) by apply u32_range.
  split; [apply Z.land_nonneg; lia |]. apply Z.ldiff_le; [lia |].
  apply Z.bits_inj'. intros i Hi. rewrite Z.ldiff_spec, Z.land_spec, Z.testbit_0_l.
  by destruct (Z.testbit v i), (Z.testbit mask i).
Qed.

Lemma wf_shadow_init : wf_shadow shadow_table_init.
Proof. done. Qed.

(** ** The operations as map operations *)

Lemma shadow_lookup_spec st p :
  wf_shadow st -> p <> 0 -> shadow_lookup st p = Done (default 0 (shadows st !! p)).
Proof.
  unfold wf_shadow, shadow_lookup, shadows. destruct (st_tab st) as [tab |].
  2:{ intros _ _. by rewrite lookup_empty. }
  intros (Hwf & Hn & Hocc & Hhalf) Hp. pose proof (wf_n_pos _ _ _ Hwf) as Hnp. rewrite u32_small by lia.
  destruct (probe_key_spec js_shadow_hash (st_size st) tab Hwf p Hp ltac:(lia))
    as (r & Hpr & Hr & Hcase & Hnone & Hsome & _).
  rewrite Hpr. simpl. destruct (Z.eqb_spec (key_at tab r) 0) as [Hz | Hnz].
  - by rewrite (Hnone Hz).
  - destruct Hcase as [? | Hk]; [done |]. by rewrite (Hsome Hk).
Qed.

(** Storing an absent key at the first free slot of its path. *)
Lemma shadow_put_spec n tab base shadow :
  wf_table js_shadow_hash n tab -> base <> 0 -> Z.of_nat (occupied tab) < n ->
  contents tab !! base = None ->
  exists tab', js_shadow_tab_put tab (n - 1) base shadow = Done tab' /\
    wf_table js_shadow_hash n tab' /\ contents tab' = <[base := shadow]> (contents tab) /\
    occupied tab' = S (occupied tab).
Proof.
  intros Hwf Hb Hocc Hnone. pose proof (wf_len _ _ _ Hwf) as Hlen.
  destruct (empty_slot_exists tab) as (e & He & Hke); [lia |]. rewrite Hlen in He.
  pose proof (hash_in_range js_shadow_hash n tab Hwf base) as Hh.
  pose proof (dist_range n _ _ Hh He) as Hde.
  destruct (probe_spec js_shadow_hash n tab Hwf (fun k => k =? 0) (js_shadow_hash base (n - 1)) e (length tab))
    as (r & Hp & Hr & Hst & Hmin); try done; [unfold lenZ in Hlen; lia |]. simpl in Hst, Hmin.
  assert (Hok : store_ok js_shadow_hash n tab base r).
  { right. split; [by b2p |]. split; [done |]. intros p Hp' Hd. specialize (Hmin p Hp' Hd). by b2p. }
  exists (setZ r (Slot base shadow) tab). unfold js_shadow_tab_put. rewrite Hp. simpl.
  split; [done |]. split; [by apply store_wf |]. split; [by eapply store_contents |].
  apply occupied_insert_new; [lia | by b2p | done].
Qed.

(** The keys of a table's tail are not those already moved. *)
Lemma shadow_rehash_spec n l nt :
  wf_table js_shadow_hash n nt ->
  Z.of_nat (occupied nt) + Z.of_nat (occupied l) < n ->
  (forall p q s t, l !! p = Some s -> l !! q = Some t -> s_key s = s_key t -> s_key s <> 0 -> p = q) ->
  (forall s, s ∈ l -> s_key s <> 0 -> contents nt !! s_key s = None) ->
  exists nt', shadow_rehash l nt (n - 1) = Done nt' /\ wf_table js_shadow_hash n nt' /\
    contents nt' = contents l ∪ contents nt /\ occupied nt' = (occupied nt + occupied l)%nat.
Proof.
  revert nt. induction l as [| s l IH]; intros nt Hwf Hocc Hd Hnew; simpl.
  { exists nt. rewrite (left_id_L ∅ (∪)). by rewrite Nat.add_0_r. }
  assert (Hd' : forall p q s t, l !! p = Some s -> l !! q = Some t ->
    s_key s = s_key t -> s_key s <> 0 -> p = q).
  { intros p q s1 t1 Hp Hq E N. by specialize (Hd (S p) (S q) s1 t1 Hp Hq E N) as [= ->]. }
  unfold occupied in *. rewrite filter_cons in *. destruct (Z.eqb_spec (s_key s) 0) as [Hz | Hnz].
  - rewrite decide_False in * by (intros ?; done). apply IH; try done. intros x Hx. apply Hnew. by right.
  - rewrite decide_True in * by done. simpl in Hocc.
    destruct (shadow_put_spec n nt (s_key s) (s_val s) Hwf Hnz) as (nt1 & Hput & Hwf1 & Hc1 & Ho1);
      [unfold occupied; lia | apply Hnew; [left | done] |].
    rewrite Hput. simpl. unfold occupied in Ho1.
    destruct (IH nt1 Hwf1) as (nt' & Hr & Hwf' & Hc & Ho); [lia | done | |].
    + intros x Hx Hxk. rewrite Hc1, lookup_insert_ne.
      * apply Hnew; [by right | done].
      * intros E. apply list_elem_of_lookup in Hx as [i Hi].
        by specialize (Hd 0%nat (S i) s x eq_refl Hi E Hnz).
    + exists nt'. split; [done |]. split; [done |]. split; [| rewrite Ho; simpl; lia].
      rewrite Hc, Hc1, <- insert_union_r; [apply insert_union_l |].
      destruct (contents l !! s_key s) as [v |] eqn:E; [| done]. exfalso.
      apply contents_lookup_nat in E as [_ [i Hi]]; [| done].
      by specialize (Hd 0%nat (S i) s _ eq_refl Hi eq_refl Hnz).
Qed.

Lemma replicate_wf n : (exists b, 0 <= b <= 31 /\ n = 2 ^ b) ->
  wf_table js_shadow_hash n (replicate (Z.to_nat n) empty_slot) /\
  contents (replicate (Z.to_nat n) empty_slot) = ∅ /\ occupied (replicate (Z.to_nat n) empty_slot) = 0%nat.
Proof.
  intros Hb. assert (Hn : 0 < n) by (destruct Hb as (b & Hb & ->); apply Z.pow_pos_nonneg; lia).
  split; [split; try done |].
  - unfold lenZ. rewrite length_replicate. lia.
  - intros p q Hp Hq _ Hk. rewrite nthZ_replicate in Hk by lia. done.
  - intros q Hq Hk. rewrite nthZ_replicate in Hk by lia. done.
  - generalize (Z.to_nat n). clear. intros n. unfold occupied. induction n as [| n [IH1 IH2]]; simpl; done.
Qed.

(** Room for one more entry, or an unchanged table. *)
Lemma shadow_reserve_spec ok st :
  wf_shadow st -> st_count st < 2 ^ 30 ->
  (js_shadow_tab_reserve ok st = Done (-1, st) /\ ok = false) \/
  exists st', js_shadow_tab_reserve ok st = Done (0, st') /\ wf_shadow st' /\ shadows st' = shadows st /\
    st_count st' = st_count st /\ (st_count st + 1) * 2 <= st_size st'.
Proof.
  unfold wf_shadow, js_shadow_tab_reserve, shadow_has_room, shadows. intros Hwf Hlim.
  destruct (st_tab st) as [tab |] eqn:Et; simpl.
  - destruct Hwf as (Hwf & Hn & Hocc & Hhalf). pose proof (wf_n_pos _ _ _ Hwf) as Hnp.
    rewrite !u32_small by (rewrite ?u32_small by lia; lia).
    destruct (Z.leb_spec ((st_count st + 1) * 2) (st_size st)) as [Hfit | Hfull].
    { right. exists st. rewrite Et. by split. }
    destruct (Z.eqb_spec (st_size st) 0) as [? | _]; [lia |].
    destruct (wf_size _ _ _ Hwf) as (b & Hb & En).
    assert (Hb31 : b <= 30).
    { apply Z.lt_succ_r. apply (Z.pow_lt_mono_r_iff 2); [lia | lia |]. rewrite <- En. simpl. lia. }
    assert (Hb' : exists b, 0 <= b <= 31 /\ st_size st * 2 = 2 ^ b).
    { exists (b + 1). split; [lia |]. rewrite Z.pow_add_r by lia. lia. }
    assert (Hle : 2 ^ b <= 2 ^ 30) by (apply Z.pow_le_mono_r; lia).
    rewrite !u32_small by (rewrite ?u32_small by lia; lia).
    destruct (Z.eqb_spec (st_size st * 2) 0) as [? | _]; [lia |]. simpl.
    destruct ok; [| by left]. right. simpl.
    destruct (replicate_wf (st_size st * 2) Hb') as (Hw0 & Hc0 & Ho0).
    destruct (shadow_rehash_spec (st_size st * 2) tab _ Hw0) as (nt & Hr & Hwn & Hcn & Hon).
    { rewrite Ho0. lia. }
    { by apply (wf_distinct_nat js_shadow_hash (st_size st)). }
    { intros s _ _. by rewrite Hc0, lookup_empty. }
    rewrite Hr. simpl. exists (ShadowTab (Some nt) (st_size st * 2) (st_count st)). simpl.
    rewrite Hcn, Hc0, (right_id_L ∅ (∪)), Hon, Ho0.
    split; [done |]. split; [| split; [done | lia]]. split; [done |]. lia.
  - destruct Hwf as [Hz Hc]. rewrite Hz. simpl. destruct ok; [| by left]. right.
    destruct (replicate_wf 16) as (Hw0 & Hc0 & Ho0); [exists 4; split; [lia | done] |].
    exists (ShadowTab (Some (replicate 16 empty_slot)) 16 (st_count st)). simpl. rewrite Hc.
    split; [done |]. split; [| split; [done | lia]]. split; [done |]. split; [lia |]. split; [done | lia].
Qed.

Lemma shadow_insert_spec st base shadow :
  wf_shadow st -> st_count st < 2 ^ 30 -> (st_count st + 1) * 2 <= st_size st -> base <> 0 ->
  shadows st !! base = None ->
  exists st', shadow_insert st base shadow = Done st' /\ wf_shadow st' /\
    shadows st' = <[base := shadow]> (shadows st) /\ st_count st' = st_count st + 1.
Proof.
  unfold wf_shadow, shadow_insert, shadows. intros Hwf Hlim Hroom Hb Hnone.
  destruct (st_tab st) as [tab |]; [| lia].
  destruct Hwf as (Hwf & Hn & Hocc & Hhalf). pose proof (wf_n_pos _ _ _ Hwf) as Hnp.
  rewrite !u32_small by lia.
  destruct (shadow_put_spec (st_size st) tab base shadow Hwf Hb ltac:(lia) Hnone)
    as (tab' & Hput & Hwf' & Hc & Ho).
  rewrite Hput. simpl. eexists. split; [done |]. simpl. split; [| done].
  split; [done |]. rewrite Ho. lia.
Qed.

(** The scan finds the base of a shadow, and nothing else. *)
Lemma identity_scan_spec tab seen live p :
  0 <= seen -> seen + Z.of_nat (occupied tab) = live -> live < 2 ^ 32 ->
  (forall i j s t, tab !! i = Some s -> tab !! j = Some t -> s_key s <> 0 -> s_key t <> 0 ->
     s_val s = p -> s_val t = p -> i = j) ->
  base_identity_scan tab seen live p =
  match list_find (fun s => s_key s <> 0 /\ s_val s = p) tab with Some (_, s) => s_key s | None => p end.
Proof.
  revert seen. induction tab as [| s tab IH]; intros seen Hs Hlive Hlim Huniq; [done |].
  assert (Hu' : forall i j s t, tab !! i = Some s -> tab !! j = Some t -> s_key s <> 0 -> s_key t <> 0 ->
     s_val s = p -> s_val t = p -> i = j).
  { intros i j s1 t1 Hi Hj K1 K2 V1 V2. by specialize (Huniq (S i) (S j) s1 t1 Hi Hj K1 K2 V1 V2) as [= ->]. }
  assert (Hskip : forall x : option (nat * slot),
    match prod_map S id <$> x with Some (_, s) => s_key s | None => p end =
    match x with Some (_, s) => s_key s | None => p end) by (intros [[]|]; done).
  unfold occupied in *. rewrite filter_cons in Hlive. simpl base_identity_scan. simpl list_find.
  destruct (Z.ltb_spec seen live) as [Hlt | Hge]; simpl.
  - destruct (Z.eqb_spec (s_key s) 0) as [Hz | Hnz].
    + rewrite (decide_False (P := _ /\ _)) by (intros [? _]; done).
      rewrite decide_False in Hlive by (intros ?; done). rewrite Hskip. by apply IH.
    + rewrite decide_True in Hlive by done. simpl in Hlive.
      destruct (Z.eqb_spec (s_val s) p) as [Hv | Hv].
      * by rewrite decide_True.
      * rewrite (decide_False (P := _ /\ _)) by (intros [_ ?]; done).
        rewrite u32_small by lia. rewrite Hskip. apply IH; try done; lia.
  - case_decide as Hk; [simpl in Hlive; lia |].
    rewrite (decide_False (P := _ /\ _)) by (intros [? _]; done). rewrite Hskip.
    assert (Hempty : filter (fun s => s_key s <> 0) tab = []) by (apply length_zero_iff_nil; lia).
    destruct (list_find _ tab) as [[i t] |] eqn:E; [| done].
    apply list_find_Some in E as (Hi & [Hkt _] & _).
    assert (Hin : t ∈ filter (fun s => s_key s <> 0) tab)
      by (apply list_elem_of_filter; split; [done | by eapply list_elem_of_lookup_2]).
    rewrite Hempty in Hin. by apply not_elem_of_nil in Hin.
Qed.

Lemma shadow_base_identity_spec st p :
  wf_shadow st -> p <> 0 ->
  (forall b c, shadows st !! b = Some p -> shadows st !! c = Some p -> b = c) ->
  (forall b, shadows st !! b = Some p -> shadow_base_identity st p = b) /\
  ((forall b, shadows st !! b <> Some p) -> shadow_base_identity st p = p).
Proof.
  unfold wf_shadow, shadow_base_identity, shadows. intros Hwf Hp Huniq.
  destruct (st_tab st) as [tab |].
  2:{ rewrite take_nil. split; [| done]. intros b Hb. by rewrite lookup_empty in Hb. }
  destruct Hwf as (Hwf & Hn & Hocc & Hhalf). pose proof (wf_n_pos _ _ _ Hwf) as Hnp.
  pose proof (wf_len _ _ _ Hwf) as Hlen. unfold lenZ in Hlen.
  pose proof (wf_distinct_nat js_shadow_hash (st_size st) tab Hwf) as Hdis.
  rewrite take_ge by lia. rewrite identity_scan_spec; [| lia | lia | lia |].
  2:{ intros i j s t Hi Hj Ks Kt Vs Vt. apply (Hdis i j s t); try done. apply Huniq;
      apply contents_lookup_nat; try done; (split; [done |]).
      - exists i. rewrite Hi. by destruct s; simpl in *; subst.
      - exists j. rewrite Hj. by destruct t; simpl in *; subst. }
  split.
  - intros b Hb. pose proof Hb as Hb'. apply contents_lookup_nat in Hb' as [Hk [i Hi]]; [| done].
    destruct (list_find _ tab) as [[j s] |] eqn:E.
    + apply list_find_Some in E as (Hj & [Ks Vs] & _). apply Huniq; [| done].
      apply contents_lookup_nat; [done |]. split; [done |]. exists j. rewrite Hj. by destruct s; simpl in *; subst.
    + apply list_find_None in E. pose proof (proj1 (Forall_forall _ _) E (Slot b p)) as Hx. simpl in Hx.
      exfalso. apply Hx; [by eapply list_elem_of_lookup_2 | done].
  - intros Hno. destruct (list_find _ tab) as [[j s] |] eqn:E; [| done].
    apply list_find_Some in E as (Hj & [Ks Vs] & _). exfalso. apply (Hno (s_key s)).
    apply contents_lookup_nat; [done |]. split; [done |]. exists j. rewrite Hj. by destruct s; simpl in *; subst.
Qed.
