(* ===== verification/Shadow.v ===== *)
(** * Copy-on-write of the snapshot (quickjs.c)

    After the freeze, objects and closure cells of the snapshot are base
    memory and may not be written.  [js_object_for_write] and
    [js_var_ref_for_write] give a request its own copy on the first write;
    [js_object_active] and [js_var_ref_active] redirect reads to it.

    The heap is a finite map from addresses to blocks, each with the header
    [JSMallocBlockHeader] carries (reference count, GC type, mark); pointers
    between blocks are addresses, so a shallow copy aliases. *)

From stdpp Require Import base list numbers gmap.
From Stdlib Require Import ZArith Lia.
From S2P Require Import Prelude StateRun ProbeTable ShadowTable BaseRanges.

#[local] Open Scope st_scope.

(** ** Blocks *)

(** [JSValue]: [JS_UNDEFINED], another immediate, or a counted pointer. *)
Inductive JSValue :=
  | JS_UNDEFINED
  | JImm (v : Z)
  | JPtr (p : Z).

(** [class_id], the classes the copy distinguishes. *)
Inductive JSClass :=
  | JS_CLASS_OBJECT
  | JS_CLASS_ARRAY
  | JS_CLASS_ARGUMENTS
  | JS_CLASS_MAP_ITERATOR
  | JS_CLASS_SET_ITERATOR
  | JS_CLASS_ARRAY_ITERATOR
  | JS_CLASS_STRING_ITERATOR
  | JS_CLASS_ITERATOR_HELPER
  | JS_CLASS_ITERATOR_CONCAT
  | JS_CLASS_DISPOSABLE_STACK
  | JS_CLASS_ASYNC_DISPOSABLE_STACK
  | JS_CLASS_OTHER (n : Z).

#[export] Instance JSClass_eq_dec : EqDecision JSClass.
Proof. solve_decision. Defined.

(** The union [u]: the array part, or the word every other member starts with
    (for the classes with a state struct, the pointer to it). *)
Inductive obj_data :=
  | UArray (size values count : Z)
  | UOpaque (p : Z).

Record JSObject := {
  link : Z * Z;
  flags : Z;
  fast_array : bool;
  class_id : JSClass;
  shape : Z;
  prop : Z;
  first_weak_ref : Z;
  u : obj_data
}.

Record JSIteratorHelperData := {
  h_obj : JSValue;
  h_next : JSValue;
  h_func : JSValue;
  h_inner : JSValue;
  h_buf : Z;
  h_count : Z;
  h_buf_count : Z;
  h_buf_size : Z;
  h_bits : Z
}.

Record JSDisposableStack := {
  disposed : bool;
  resource_count : Z;
  resource_capacity : Z;
  resources : Z
}.

(** [pvalue] is [None] when it points to the cell's own [value], else the
    address of a stack slot. *)
Record JSVarRef := {
  is_detached : bool;
  is_coro : bool;
  pvalue : option Z;
  value : JSValue
}.

Inductive block :=
  | BObject (o : JSObject)
  | BShape (prop_size : Z)
  | BValues (l : list JSValue)
  | BMapIterator (obj : JSValue) (kind cur_record : Z)
  | BArrayIterator (obj : JSValue) (kind idx : Z)
  | BIteratorHelper (d : JSIteratorHelperData)
  | BIteratorConcat (index done running : Z) (iter next : JSValue) (values : list JSValue)
  | BDisposableStack (d : JSDisposableStack)
  | BResources (l : list (JSValue * JSValue * Z))
  | BVarRef (v : JSVarRef).

Inductive gc_type := JS_GC_OBJ_TYPE_JS_OBJECT | JS_GC_OBJ_TYPE_VAR_REF | GC_OTHER.

(** A block with its header. *)
Record cell := Cell { ref_count : Z; gc_obj_type : gc_type; mark : Z; body : block }.

Abbreviation heap := (gmap Z cell).

(** ** The request allocator *)

(** [js_malloc] of the runtime: an address, 0 for NULL. *)
Class ReqAlloc := {
  alloc_state : Type;
  req_malloc : alloc_state -> heap -> Z * alloc_state
}.

Section ops.
Context `{RA : ReqAlloc}.

(** The runtime's state the copy depends on. *)
Record shadow_state := {
  sh_heap : heap;
  sh_ranges : base_ranges;
  is_arena : bool;
  shadow_tab : shadow_table;
  varref_tab : shadow_table;
  sh_alloc : alloc_state
}.

Definition set_heap (s : shadow_state) (h : heap) : shadow_state :=
  {| sh_heap := h; sh_ranges := sh_ranges s; is_arena := is_arena s; shadow_tab := shadow_tab s;
     varref_tab := varref_tab s; sh_alloc := sh_alloc s |}.
Definition set_shadow_tab (s : shadow_state) (t : shadow_table) : shadow_state :=
  {| sh_heap := sh_heap s; sh_ranges := sh_ranges s; is_arena := is_arena s; shadow_tab := t;
     varref_tab := varref_tab s; sh_alloc := sh_alloc s |}.
Definition set_varref_tab (s : shadow_state) (t : shadow_table) : shadow_state :=
  {| sh_heap := sh_heap s; sh_ranges := sh_ranges s; is_arena := is_arena s; shadow_tab := shadow_tab s;
     varref_tab := t; sh_alloc := sh_alloc s |}.
Definition set_alloc (s : shadow_state) (a : alloc_state) : shadow_state :=
  {| sh_heap := sh_heap s; sh_ranges := sh_ranges s; is_arena := is_arena s; shadow_tab := shadow_tab s;
     varref_tab := varref_tab s; sh_alloc := a |}.

Abbreviation SH := (ST shadow_state).

Definition ptr_is_base (p : Z) : SH bool := sget (fun s => js_arena_ptr_is_base (sh_ranges s) p).

Definition load (p : Z) : SH cell := sderef (fun s => sh_heap s !! p).
Definition store (p : Z) (c : cell) : SH unit := smod (fun s => set_heap s (<[p := c]> (sh_heap s))).

Definition set_body (c : cell) (b : block) : cell := Cell (ref_count c) (gc_obj_type c) (mark c) b.

Definition load_object (p : Z) : SH JSObject :=
  let^ c := load p in match body c with BObject o => sret o | _ => sabort end.
Definition store_object (p : Z) (o : JSObject) : SH unit :=
  let^ c := load p in store p (set_body c (BObject o)).

Definition set_prop (o : JSObject) (p : Z) : JSObject :=
  {| link := link o; flags := flags o; fast_array := fast_array o; class_id := class_id o; shape := shape o;
     prop := p; first_weak_ref := first_weak_ref o; u := u o |}.
Definition set_u (o : JSObject) (d : obj_data) : JSObject :=
  {| link := link o; flags := flags o; fast_array := fast_array o; class_id := class_id o; shape := shape o;
     prop := prop o; first_weak_ref := first_weak_ref o; u := d |}.

(** [js_malloc] and the stores that fill the block; 0 for NULL. *)
Definition js_malloc (c : cell) : SH Z :=
  let^ p := scall (fun s => let '(p, a) := req_malloc (sh_alloc s) (sh_heap s) in (p, set_alloc s a)) in
  if p =? 0 then sret 0 else store p c ;^ sret p.

Definition js_free (p : Z) : SH unit := smod (fun s => set_heap s (delete p (sh_heap s))).

Definition arena_rc_inc (p : Z) : SH unit :=
  let^ base := ptr_is_base p in
  if base then sret tt
  else let^ c := load p in store p (Cell (ref_count c + 1) (gc_obj_type c) (mark c) (body c)).

Definition js_dup (v : JSValue) : SH unit :=
  match v with JPtr p => arena_rc_inc p | _ => sret tt end.

Fixpoint js_dup_all (l : list JSValue) : SH unit :=
  match l with [] => sret tt | v :: l => js_dup v ;^ js_dup_all l end.

(** ** Deep copies *)

(** Copy the state block [src] into a fresh block and repoint [shadow->u]. *)
Definition clone_state (shadow src : Z) (dups : block -> list JSValue) : SH Z :=
  if src =? 0 then sret 0
  else
    let^ c := load src in
    let^ dst := js_malloc (Cell 0 GC_OTHER 0 (body c)) in
    if dst =? 0 then sret (-1)
    else
      js_dup_all (dups (body c)) ;^
      let^ o := load_object shadow in
      store_object shadow (set_u o (UOpaque dst)) ;^
      sret 0.

Definition opaque_of (o : JSObject) : SH Z :=
  match u o with UOpaque p => sret p | UArray _ _ _ => sabort end.

(** The counted values a copied iterator state holds. *)
Definition iter_values (b : block) : list JSValue :=
  match b with
  | BMapIterator obj _ _ => [obj]
  | BArrayIterator obj _ _ => [obj]
  | BIteratorHelper d => [h_obj d; h_next d; h_func d; h_inner d]
  | BIteratorConcat _ _ _ iter next values => iter :: next :: values
  | _ => []
  end.

Definition js_arena_clone_iter_state (shadow base : Z) : SH Z :=
  let^ o := load_object base in
  match class_id o with
  | JS_CLASS_MAP_ITERATOR | JS_CLASS_SET_ITERATOR
  | JS_CLASS_ARRAY_ITERATOR | JS_CLASS_STRING_ITERATOR
  | JS_CLASS_ITERATOR_HELPER | JS_CLASS_ITERATOR_CONCAT =>
      let^ src := opaque_of o in clone_state shadow src iter_values
  | _ => sret 0
  end.

(** The copied resource list of stack [d] with copy [dst]: [None] on failure,
    [Some] of the list's address otherwise. *)
Definition clone_resources (d : JSDisposableStack) (dst : Z) : SH (option Z) :=
  if 0 <? resource_count d then
    let^ rc := load (resources d) in
    match body rc with
    | BResources l =>
        let l := take (Z.to_nat (resource_count d)) l in
        let^ rs := js_malloc (Cell 0 GC_OTHER 0 (BResources l)) in
        if rs =? 0 then js_free dst ;^ sret None
        else js_dup_all (concat (map (fun r => [r.1.1; r.1.2]) l)) ;^ sret (Some rs)
    | _ => sabort
    end
  else sret (Some 0).

(** The state block of the copy. *)
Definition disp_block (d : JSDisposableStack) (rs cap : Z) : block :=
  BDisposableStack {| disposed := disposed d; resource_count := resource_count d; resource_capacity := cap;
                      resources := rs |}.

Definition clone_disposable (shadow src : Z) : SH Z :=
  if src =? 0 then sret 0
  else
    let^ c := load src in
    match body c with
    | BDisposableStack d =>
        let^ dst := js_malloc (Cell 0 GC_OTHER 0 (disp_block d 0 0)) in
        if dst =? 0 then sret (-1)
        else
          let^ r := clone_resources d dst in
          match r with
          | None => sret (-1)
          | Some rs =>
              store dst (Cell 0 GC_OTHER 0 (disp_block d rs (if rs =? 0 then 0 else resource_count d))) ;^
              let^ so := load_object shadow in
              store_object shadow (set_u so (UOpaque dst)) ;^
              sret 0
          end
    | _ => sabort
    end.

Definition js_arena_clone_disposable_state (shadow base : Z) : SH Z :=
  let^ o := load_object base in
  match class_id o with
  | JS_CLASS_DISPOSABLE_STACK | JS_CLASS_ASYNC_DISPOSABLE_STACK =>
      let^ src := opaque_of o in clone_disposable shadow src
  | _ => sret 0
  end.

Definition is_value_array (o : JSObject) : bool :=
  fast_array o && match class_id o with JS_CLASS_ARRAY | JS_CLASS_ARGUMENTS => true | _ => false end.

(** The copy of a value array; [None] when the allocation failed. *)
Definition clone_values (ptr n : Z) : SH Z :=
  let^ c := load ptr in
  match body c with
  | BValues l => js_malloc (Cell 0 GC_OTHER 0 (BValues (take (Z.to_nat n) l)))
  | _ => sabort
  end.

(** The property array of the shadow: [Some 0] for NULL, [None] on failure. *)
Definition clone_props (o : JSObject) : SH (option Z) :=
  let^ sc := load (shape o) in
  match body sc with
  | BShape prop_size =>
      if negb (prop o =? 0) && (0 <? prop_size) then
        let^ p := clone_values (prop o) prop_size in
        sret (if p =? 0 then None else Some p)
      else sret (Some 0)
  | _ => sabort
  end.

(** The element array of a fast array's shadow; [false] on failure. *)
Definition clone_elements (shadow : Z) (o : JSObject) : SH bool :=
  if negb (is_value_array o) then sret true
  else
    match u o with
    | UArray _ values n =>
        let^ vals := (if 0 <? n then clone_values values n else sret 0) in
        if (0 <? n) && (vals =? 0) then sret false
        else
          let^ so := load_object shadow in
          store_object shadow (set_u so (UArray n vals n)) ;^
          sret true
    | UOpaque _ => sabort
    end.

Definition js_clone_jsobject_for_write (base : Z) : SH Z :=
  let^ o := load_object base in
  let^ shadow := js_malloc (Cell 1 JS_GC_OBJ_TYPE_JS_OBJECT 0 (BObject o)) in
  if shadow =? 0 then sret 0
  else
    store_object shadow {| link := (shadow, shadow); flags := flags o; fast_array := fast_array o;
      class_id := class_id o; shape := shape o; prop := prop o; first_weak_ref := 0; u := u o |} ;^
    let^ pr := clone_props o in
    match pr with
    | None => sret 0
    | Some p =>
        let^ so := load_object shadow in
        store_object shadow (set_prop so p) ;^
        let^ rc := js_arena_clone_iter_state shadow base in
        if rc <? 0 then sret 0
        else
          let^ rc := js_arena_clone_disposable_state shadow base in
          if rc <? 0 then sret 0
          else
            let^ ok := clone_elements shadow o in
            sret (if ok then shadow else 0)
    end.

(** ** Objects *)

Definition js_object_shadow_lookup (p : Z) : SH Z :=
  let^ t := sget shadow_tab in slift (shadow_lookup t p).

Definition js_object_base_identity (p : Z) : SH Z :=
  let^ arena := sget is_arena in
  let^ base := ptr_is_base p in
  if negb arena || base then sret p
  else let^ t := sget shadow_tab in sret (shadow_base_identity t p).

Definition js_object_active (p : Z) : SH Z :=
  let^ arena := sget is_arena in
  let^ base := ptr_is_base p in
  if negb arena || negb base then sret p
  else
    let^ shadow := js_object_shadow_lookup p in
    sret (if shadow =? 0 then p else shadow).

(** Whether [js_mallocz_rt] of a grown table succeeds; asked only when the
    table is full. *)
Definition tab_alloc (t : shadow_table) : SH bool :=
  if shadow_has_room t then sret true
  else scall (fun s => let '(p, a) := req_malloc (sh_alloc s) (sh_heap s) in (negb (p =? 0), set_alloc s a)).

Definition js_object_for_write (p : Z) : SH Z :=
  let^ arena := sget is_arena in
  let^ base := ptr_is_base p in
  if negb arena || negb base then sret p
  else
    let^ shadow := js_object_shadow_lookup p in
    if negb (shadow =? 0) then sret shadow
    else
      let^ t := sget shadow_tab in
      let^ ok := tab_alloc t in
      let^ (rc, t) := slift (js_shadow_tab_reserve ok t) in
      smod (fun s => set_shadow_tab s t) ;^
      if rc <? 0 then sret 0
      else
        let^ shadow := js_clone_jsobject_for_write p in
        if shadow =? 0 then sret 0
        else
          let^ t := sget shadow_tab in
          let^ t := slift (shadow_insert t p shadow) in
          smod (fun s => set_shadow_tab s t) ;^
          sret shadow.

(** [JS_GetOpaque2]: the state pointer of an object of the class. *)
Definition JS_GetOpaque2 (p : Z) (cls : JSClass) : SH Z :=
  let^ o := load_object p in
  if decide (class_id o = cls) then opaque_of o else sret 0.

Definition JS_GetOpaqueForWrite (p : Z) (cls : JSClass) : SH Z :=
  let^ arena := sget is_arena in
  if negb arena then JS_GetOpaque2 p cls
  else
    let^ base := ptr_is_base p in
    let^ o := load_object p in
    if base && bool_decide (class_id o = cls) then
      let^ sh := js_object_for_write p in
      if sh =? 0 then sret 0
      else let^ so := load_object sh in opaque_of so
    else JS_GetOpaque2 p cls.

(** ** Closure cells *)

Definition js_var_ref_shadow_lookup (vr : Z) : SH Z :=
  let^ t := sget varref_tab in slift (shadow_lookup t vr).

Definition js_varref_tab_reserve (ok : bool) (t : shadow_table) : run (Z * shadow_table) :=
  js_shadow_tab_reserve ok t.

Definition js_varref_tab_put (t : shadow_table) (base shadow : Z) : run shadow_table :=
  shadow_insert t base shadow.

Definition js_var_ref_active (vr : Z) : SH Z :=
  let^ arena := sget is_arena in
  let^ base := ptr_is_base vr in
  if negb arena || negb base then sret vr
  else
    let^ s := js_var_ref_shadow_lookup vr in
    sret (if s =? 0 then vr else s).

Definition js_create_var_ref : SH Z :=
  js_malloc (Cell 1 JS_GC_OBJ_TYPE_VAR_REF 0
    (BVarRef {| is_detached := true; is_coro := false; pvalue := None; value := JS_UNDEFINED |})).

Definition load_var_ref (vr : Z) : SH JSVarRef :=
  let^ c := load vr in match body c with BVarRef v => sret v | _ => sabort end.

(** [*vr->pvalue]. *)
Definition deref_var (vr : Z) : SH JSValue :=
  let^ v := load_var_ref vr in
  match pvalue v with
  | None => sret (value v)
  | Some a =>
      let^ c := load a in
      match body c with BValues (x :: _) => sret x | _ => sabort end
  end.

(** [*vr->pvalue = x]. *)
Definition assign_var (vr : Z) (x : JSValue) : SH unit :=
  let^ c := load vr in
  let^ v := load_var_ref vr in
  match pvalue v with
  | None => store vr (set_body c (BVarRef {| is_detached := is_detached v; is_coro := is_coro v; pvalue := None;
                                            value := x |}))
  | Some a =>
      let^ c := load a in
      match body c with BValues (_ :: l) => store a (set_body c (BValues (x :: l))) | _ => sabort end
  end.

Definition js_var_ref_for_write (vr : Z) : SH Z :=
  let^ arena := sget is_arena in
  let^ base := ptr_is_base vr in
  if negb arena || negb base then sret vr
  else
    let^ s := js_var_ref_shadow_lookup vr in
    if negb (s =? 0) then sret s
    else
      let^ t := sget varref_tab in
      let^ ok := tab_alloc t in
      let^ (rc, t) := slift (js_varref_tab_reserve ok t) in
      smod (fun st => set_varref_tab st t) ;^
      if rc <? 0 then sret 0
      else
        let^ s := js_create_var_ref in
        if s =? 0 then sret 0
        else
          let^ x := deref_var vr in
          js_dup x ;^
          assign_var s x ;^
          let^ t := sget varref_tab in
          let^ t := slift (js_varref_tab_put t vr s) in
          smod (fun st => set_varref_tab st t) ;^
          sret s.
End ops.
