(* ===== verification/ShadowProofs.v ===== *)
(** * The copy-on-write contract

    What [Shadow] promises the engine: the snapshot never changes, a shadow
    shows the contents its object had, writes are seen by every later read of
    the same object or cell, no two shadows share memory, and a request starts
    from the snapshot whatever the requests before it did. *)

From stdpp Require Import base list numbers gmap.
From Stdlib Require Import ZArith Lia.
From S2P Require Import Prelude StateRun ProbeTable ShadowTable BaseRanges Shadow.

#[local] Open Scope st_scope.

(** The request allocator hands out addresses that are neither in use nor
    base memory. *)
Class ReqAllocLaws `{ReqAlloc} (rng : base_ranges) : Prop :=
  req_malloc_fresh : forall a h p a', req_malloc a h = (p, a') ->
    p = 0 \/ (0 < p /\ h !! p = None /\ js_arena_ptr_is_base rng p = false).

(** ** What a reader sees *)

Definition values_at (h : heap) (a : Z) : list JSValue :=
  match h !! a with Some c => match body c with BValues l => l | _ => [] end | None => [] end.

Definition props_of (h : heap) (o : JSObject) : list JSValue :=
  if prop o =? 0 then [] else values_at h (prop o).

Definition elems_ptr (o : JSObject) : Z :=
  if is_value_array o then match u o with UArray _ v n => if 0 <? n then v else 0 | UOpaque _ => 0 end else 0.

Definition elems_of (h : heap) (o : JSObject) : list JSValue :=
  if elems_ptr o =? 0 then [] else values_at h (elems_ptr o).

(** Iterators keep their state behind [u]. *)
Definition is_iter (c : JSClass) : bool :=
  match c with
  | JS_CLASS_MAP_ITERATOR | JS_CLASS_SET_ITERATOR | JS_CLASS_ARRAY_ITERATOR | JS_CLASS_STRING_ITERATOR
  | JS_CLASS_ITERATOR_HELPER | JS_CLASS_ITERATOR_CONCAT => true
  | _ => false
  end.
Definition is_disposable (c : JSClass) : bool :=
  match c with JS_CLASS_DISPOSABLE_STACK | JS_CLASS_ASYNC_DISPOSABLE_STACK => true | _ => false end.

Definition state_ptr (o : JSObject) : Z :=
  if is_iter (class_id o) || is_disposable (class_id o) then
    match u o with UOpaque p => p | UArray _ _ _ => 0 end
  else 0.

(** The resource list behind a disposable stack's state. *)
Definition resources_ptr (b : block) : Z :=
  match b with BDisposableStack d => if 0 <? resource_count d then resources d else 0 | _ => 0 end.

Definition resources_at (h : heap) (b : block) : list (JSValue * JSValue * Z) :=
  if resources_ptr b =? 0 then []
  else match h !! resources_ptr b with
       | Some c => match body c with BResources l => l | _ => [] end
       | None => []
       end.

(** A state block without its addresses. *)
Definition abstract_state (h : heap) (b : block) : block * list (JSValue * JSValue * Z) :=
  (match b with
   | BDisposableStack d => BDisposableStack {| disposed := disposed d; resource_count := resource_count d;
                             resource_capacity := 0; resources := 0 |}
   | b => b
   end, resources_at h b).

Definition state_of (h : heap) (o : JSObject) : option (block * list (JSValue * JSValue * Z)) :=
  if state_ptr o =? 0 then None else (fun c => abstract_state h (body c)) <$> h !! state_ptr o.

Record oview := View {
  v_class : JSClass;
  v_props : list JSValue;
  v_elems : list JSValue;
  v_state : option (block * list (JSValue * JSValue * Z))
}.

Definition object_at (h : heap) (p : Z) : option JSObject :=
  match h !! p with Some c => match body c with BObject o => Some o | _ => None end | None => None end.

Definition view (h : heap) (o : JSObject) : oview :=
  View (class_id o) (props_of h o) (elems_of h o) (state_of h o).

(** The memory an object does not share. *)
Definition nz (a : Z) : list Z := if a =? 0 then [] else [a].

Definition state_owned (h : heap) (o : JSObject) : list Z :=
  if state_ptr o =? 0 then []
  else state_ptr o :: match h !! state_ptr o with Some c => nz (resources_ptr (body c)) | None => [] end.

Definition owned (h : heap) (o : JSObject) : list Z := nz (prop o) ++ nz (elems_ptr o) ++ state_owned h o.

(** ** Snapshots *)

Section snapshot.
Context (rng : base_ranges).

Definition base_value (v : JSValue) : Prop :=
  match v with JPtr p => js_arena_ptr_is_base rng p = true | _ => True end.

(** An array of [n] values in base memory. *)
Definition values_block (h : heap) (a n : Z) : Prop :=
  js_arena_ptr_is_base rng a = true /\ exists c l, h !! a = Some c /\ body c = BValues l /\ lenZ l = n.

Definition object_ok (h : heap) (o : JSObject) : Prop :=
  (js_arena_ptr_is_base rng (shape o) = true /\ exists c n, h !! shape o = Some c /\ body c = BShape n /\
     (prop o = 0 \/ (prop o <> 0 /\ 0 < n /\ values_block h (prop o) n))) /\
  (is_value_array o = true -> exists sz v n, u o = UArray sz v n /\ (n <= 0 \/ (v <> 0 /\ values_block h v n))) /\
  (is_iter (class_id o) = true -> exists p, u o = UOpaque p /\
     (p = 0 \/ js_arena_ptr_is_base rng p = true /\
        exists c, h !! p = Some c /\ resources_ptr (body c) = 0 /\ Forall base_value (iter_values (body c)))) /\
  (is_disposable (class_id o) = true -> exists p, u o = UOpaque p /\
     (p = 0 \/ js_arena_ptr_is_base rng p = true /\ exists c d, h !! p = Some c /\ body c = BDisposableStack d /\
        (resource_count d <= 0 \/ js_arena_ptr_is_base rng (resources d) = true /\ resources d <> 0 /\
           exists c2 l, h !! resources d = Some c2 /\ body c2 = BResources l /\ lenZ l = resource_count d /\
           Forall (fun r => base_value r.1.1 /\ base_value r.1.2) l))).

Definition var_ok (v : JSVarRef) : Prop := pvalue v = None /\ base_value (value v).

(** Every object and cell of base memory is complete there. *)
Definition snapshot_ok (h : heap) : Prop :=
  js_arena_ptr_is_base rng 0 = false /\
  forall p c, js_arena_ptr_is_base rng p = true -> h !! p = Some c ->
    match body c with BObject o => object_ok h o | BVarRef v => var_ok v | _ => True end.
End snapshot.

(** ** Copying an object *)

Section clone.
Context `{RA : ReqAlloc} (rng : base_ranges) `{RL : !ReqAllocLaws rng}.

Abbreviation is_base a := (js_arena_ptr_is_base rng a).
Abbreviation SH := (ST shadow_state).

(** Nothing but request memory was added. *)
Record kept (s0 s : shadow_state) : Prop := {
  k_ranges : sh_ranges s = rng;
  k_arena : is_arena s = is_arena s0;
  k_objs : shadow_tab s = shadow_tab s0;
  k_vars : varref_tab s = varref_tab s0;
  k_heap : sh_heap s0 ⊆ sh_heap s;
  k_base : forall a, is_base a = true -> sh_heap s !! a = sh_heap s0 !! a
}.

Definition fresh (h : heap) (a : Z) : Prop := h !! a = None /\ is_base a = false /\ 0 < a.

Definition plain (b : block) : cell := Cell 0 GC_OTHER 0 b.

(** A copy in progress: the shadow at [q] is [o] so far and owns [F]. *)
Record stage (s0 : shadow_state) (q : Z) (o : JSObject) (F : list (Z * block)) (s : shadow_state) : Prop := {
  sg_kept : kept s0 s;
  sg_fresh : fresh (sh_heap s0) q;
  sg_obj : sh_heap s !! q = Some (Cell 1 JS_GC_OBJ_TYPE_JS_OBJECT 0 (BObject o));
  sg_own : Forall (fun ab => fresh (sh_heap s0) ab.1 /\ sh_heap s !! ab.1 = Some (plain ab.2)) F;
  sg_nodup : NoDup (q :: F.*1)
}.

Lemma kept_refl s : sh_ranges s = rng -> kept s s.
Proof. by split. Qed.

Lemma js_malloc_spec s c :
  sh_ranges s = rng ->
  swp (js_malloc c) (fun p s' => kept s s' /\
    ((p = 0 /\ sh_heap s' = sh_heap s) \/ (fresh (sh_heap s) p /\ sh_heap s' = <[p := c]> (sh_heap s)))) s.
Proof.
  intros Hr. unfold js_malloc. swp_step. apply swp_call. intros p s' E.
  destruct (req_malloc (sh_alloc s) (sh_heap s)) as [p0 a] eqn:Em. injection E as <- <-.
  destruct (Z.eqb_spec p0 0) as [-> | Hnz]; swp_steps.
  { split; [by split | by left]. }
  unfold store. swp_steps.
  destruct (req_malloc_fresh _ _ _ _ Em) as [? | (Hp & Hn & Hb)]; [done |].
  split; [| right; by split]. split; try done; simpl; [by apply insert_subseteq |].
  intros x Hx. rewrite lookup_insert_ne; congruence.
Qed.

Lemma stage_at s0 q o F s a c : stage s0 q o F s -> sh_heap s0 !! a = Some c -> sh_heap s !! a = Some c.
Proof. intros Hs Ha. exact (lookup_weaken _ _ _ _ Ha (k_heap _ _ (sg_kept _ _ _ _ _ Hs))). Qed.

Lemma stage_alloc s0 q o F s b :
  stage s0 q o F s ->
  swp (js_malloc (plain b)) (fun a s' => (a = 0 /\ stage s0 q o F s') \/
    (fresh (sh_heap s0) a /\ stage s0 q o ((a, b) :: F) s')) s.
Proof.
  intros [[K1 K2 K3 K4 K5 K6] Hq Ho HF Hnd]. eapply swp_mono; [by apply js_malloc_spec |].
  intros a s' [[L1 L2 L3 L4 L5 L6] [[-> E] | [Hf E]]].
  - left. split; [done |]. split; try done; rewrite ?E; try done. split; try congruence; by rewrite E.
  - assert (Hf0 : fresh (sh_heap s0) a).
    { destruct Hf as (H1 & H2 & H3). split; [| done]. exact (lookup_weaken_None _ _ _ H1 K5). }
    assert (Hnew : forall x c, sh_heap s !! x = Some c -> x <> a).
    { intros x c Hx ->. destruct Hf as [H1 _]. congruence. }
    right. split; [done |]. split; try done.
    + split; try congruence; [rewrite E; etrans; [exact K5 | by apply insert_subseteq, Hf] |].
      intros x Hx. by rewrite L6, K6.
    + rewrite E, lookup_insert_ne; [done | by apply not_eq_sym; eapply Hnew].
    + constructor; [split; [done |]; by rewrite E; apply lookup_insert_eq |].
      eapply Forall_impl; [exact HF |]. intros [x bx] [H1 H2]. split; [done |].
      rewrite E, lookup_insert_ne; [done | by apply not_eq_sym; eapply Hnew].
    + simpl in *. apply NoDup_cons in Hnd as [Hn1 Hn2]. apply NoDup_cons. split.
      * rewrite not_elem_of_cons. split; [by eapply Hnew | done].
      * apply NoDup_cons. split; [| done]. intros Hin. apply list_elem_of_fmap in Hin as ([x bx] & -> & Hin).
        pose proof (proj1 (Forall_forall _ _) HF _ Hin) as [_ Hx]. by eapply Hnew.
Qed.

Lemma stage_set s0 q o o' F s :
  stage s0 q o F s -> swp (store_object q o') (fun _ s' => stage s0 q o' F s') s.
Proof.
  intros [[K1 K2 K3 K4 K5 K6] Hq Ho HF Hnd]. unfold store_object, load. swp_step.
  apply (swp_deref _ (Cell 1 JS_GC_OBJ_TYPE_JS_OBJECT 0 (BObject o))); [done |]. unfold store. swp_steps.
  unfold set_body. simpl. split; try done; simpl.
  - split; try done; simpl; destruct Hq as (Hq & Hqb & _); [by apply insert_subseteq_r |].
    intros x Hx. rewrite lookup_insert_ne by congruence. by apply K6.
  - by rewrite lookup_insert_eq.
  - apply Forall_forall. intros [x bx] Hin. pose proof (proj1 (Forall_forall _ _) HF _ Hin) as [H1 H2].
    split; [done |]. simpl in *. apply NoDup_cons in Hnd as [Hn1 _]. rewrite lookup_insert_ne; [done |].
    intros ->. apply Hn1. apply list_elem_of_fmap. by exists (x, bx).
Qed.

Lemma stage_obj s0 q o F s Q : stage s0 q o F s -> Q o s -> swp (load_object q) Q s.
Proof.
  intros Hs HQ. unfold load_object, load. swp_step.
  apply (swp_deref _ (Cell 1 JS_GC_OBJ_TYPE_JS_OBJECT 0 (BObject o))); [apply Hs |]. done.
Qed.

Lemma stage_base s0 q o F s p c b Q :
  stage s0 q o F s -> sh_heap s0 !! p = Some c -> body c = BObject b -> Q b s -> swp (load_object p) Q s.
Proof.
  intros Hs Hp Hb HQ. unfold load_object, load. swp_step.
  apply (swp_deref _ c); [by eapply stage_at |]. by rewrite Hb.
Qed.

Lemma dup_all_spec l s Q :
  sh_ranges s = rng -> Forall (base_value rng) l -> Q tt s -> swp (js_dup_all l) Q s.
Proof.
  intros Hr Hl HQ. induction Hl as [| v l Hv _ IH]; simpl; [done |]. swp_step.
  destruct v as [| z | p]; simpl; try (swp_steps; exact IH).
  unfold arena_rc_inc, ptr_is_base. swp_steps. simpl in Hv. rewrite Hr, Hv. swp_steps. exact IH.
Qed.

(** Copying a value array. *)
Lemma stage_values s0 q o F s a n c l :
  stage s0 q o F s -> sh_heap s0 !! a = Some c -> body c = BValues l -> lenZ l = n ->
  swp (clone_values a n) (fun p s' => (p = 0 /\ stage s0 q o F s') \/
    (fresh (sh_heap s0) p /\ stage s0 q o ((p, BValues l) :: F) s')) s.
Proof.
  intros Hs Ha Hb Hn. unfold clone_values, load. swp_step.
  apply (swp_deref _ c); [by eapply stage_at |]. rewrite Hb.
  replace (take (Z.to_nat n) l) with l by (symmetry; apply take_ge; unfold lenZ in Hn; lia).
  by apply stage_alloc.
Qed.
Lemma stage_perm s0 q o F F' s : F ≡ₚ F' -> stage s0 q o F s -> stage s0 q o F' s.
Proof. intros Hp [K Hq Ho HF Hnd]. split; try done; by rewrite <- Hp. Qed.

Lemma stage_put s0 q o d b b' F s :
  stage s0 q o ((d, b) :: F) s -> swp (store d (plain b')) (fun _ s' => stage s0 q o ((d, b') :: F) s') s.
Proof.
  intros [[K1 K2 K3 K4 K5 K6] Hq Ho HF Hnd]. unfold store. swp_steps.
  pose proof HF as HF'. inversion HF' as [| ? ? [Hd1 Hd2] HF2]; subst.
  simpl in *. rewrite !NoDup_cons, !not_elem_of_cons in Hnd. destruct Hnd as ((N1 & N2) & N3 & N4).
  split; simpl; try done.
  - split; try done; simpl; destruct Hd1 as (Hd & Hdb & _); [by apply insert_subseteq_r |].
    intros x Hx. rewrite lookup_insert_ne by congruence. by apply K6.
  - by rewrite lookup_insert_ne.
  - constructor; [split; [done |]; by rewrite lookup_insert_eq |].
    apply Forall_forall. intros [y by_] Hin. pose proof (proj1 (Forall_forall _ _) HF2 _ Hin) as [H1 H2].
    split; [done |]. simpl in *. rewrite lookup_insert_ne; [done |]. intros ->. apply N3.
    apply list_elem_of_fmap. by exists (y, by_).
  - by rewrite !NoDup_cons, !not_elem_of_cons.
Qed.

Lemma stage_free s0 q o d b F s :
  stage s0 q o ((d, b) :: F) s -> swp (js_free d) (fun _ s' => kept s0 s') s.
Proof.
  intros [[K1 K2 K3 K4 K5 K6] Hq Ho HF Hnd]. unfold js_free. swp_steps.
  inversion HF as [| ? ? [(Hd & Hdb & _) _] _]; subst. simpl in Hd, Hdb. split; try done; simpl.
  2:{ intros x Hx. rewrite lookup_delete_ne by congruence. by apply K6. }
  apply map_subseteq_spec. intros a c Ha. rewrite lookup_delete_ne by congruence. by eapply lookup_weaken.
Qed.

(** The copied property array. *)
Lemma stage_props s0 q o F s b :
  object_ok rng (sh_heap s0) b -> stage s0 q o F s ->
  swp (clone_props b) (fun r s' => match r with
    | None => kept s0 s'
    | Some p => (p = 0 /\ prop b = 0 /\ stage s0 q o F s') \/
        (fresh (sh_heap s0) p /\ stage s0 q o ((p, BValues (props_of (sh_heap s0) b)) :: F) s')
    end) s.
Proof.
  intros ((_ & c & n & Hc & Hb & Hp) & _) Hs. unfold clone_props, load. swp_step.
  apply (swp_deref _ c); [by eapply stage_at |]. rewrite Hb.
  destruct Hp as [Hz | (Hnz & Hn & _ & c2 & l & Hc2 & Hb2 & Hl)].
  - rewrite Hz. simpl. swp_steps. left. done.
  - destruct (Z.eqb_spec (prop b) 0) as [? | _]; [done |]. destruct (Z.ltb_spec 0 n); [| lia]. simpl. swp_step.
    eapply swp_mono; [by eapply stage_values |].
    assert (El : props_of (sh_heap s0) b = l).
    { unfold props_of, values_at. rewrite Hc2, Hb2. by destruct (Z.eqb_spec (prop b) 0). }
    rewrite El. intros p s' [[-> Hs'] | [Hf Hs']]; swp_steps; simpl; [apply Hs' |].
    destruct (Z.eqb_spec p 0) as [-> | _]; [destruct Hf; lia |]. by right.
Qed.

(** What copying the state behind [u] leaves: failure, nothing to copy, or the
    shadow repointed to blocks [G] whose first is the copied state [st]. *)
Definition state_post (s0 : shadow_state) (q : Z) (o b : JSObject) (F : list (Z * block)) (mine : bool)
    (rc : Z) (s' : shadow_state) : Prop :=
  kept s0 s' /\ (rc < 0 \/
    (mine = false \/ state_ptr b = 0) /\ stage s0 q o F s' \/
    exists c dst st G, mine = true /\ state_ptr b <> 0 /\ sh_heap s0 !! state_ptr b = Some c /\
      stage s0 q (set_u o (UOpaque dst)) ((dst, st) :: G ++ F) s' /\
      (forall h : heap, (forall a b, (a, b) ∈ G -> h !! a = Some (plain b)) ->
         abstract_state h st = abstract_state (sh_heap s0) (body c)) /\
      nz (resources_ptr st) = G.*1).

(** Nothing to copy. *)
Lemma state_post_none s0 q o b F s (mine : bool) :
  (mine = false \/ state_ptr b = 0) -> stage s0 q o F s -> swp (sret 0) (state_post s0 q o b F mine) s.
Proof. intros Hm Hs. swp_step. split; [apply Hs |]. right; left. by split. Qed.

Lemma stage_iter s0 q o F s p cb b :
  sh_heap s0 !! p = Some cb -> body cb = BObject b ->
  object_ok rng (sh_heap s0) b -> stage s0 q o F s ->
  swp (js_arena_clone_iter_state q p) (state_post s0 q o b F (is_iter (class_id b))) s.
Proof.
  intros Hp Hcb (_ & _ & Hit & _) Hs. unfold js_arena_clone_iter_state. swp_step.
  eapply stage_base; [done | done | done |].
  destruct (is_iter (class_id b)) eqn:Ei; [| by destruct (class_id b); try done; apply state_post_none; auto].
  destruct (Hit eq_refl) as (sp & Hu & Hsrc).
  assert (Esp : state_ptr b = sp) by (unfold state_ptr; rewrite Ei, Hu; done).
  enough (Hgo : swp (let^ src := opaque_of b in clone_state q src iter_values)
    (state_post s0 q o b F true) s) by (destruct (class_id b); done).
  unfold opaque_of. rewrite Hu. swp_steps. unfold clone_state.
  destruct (Z.eqb_spec sp 0) as [-> | Hnz]; [apply state_post_none; auto |]. swp_step.
  destruct Hsrc as [? | (Hbase & c & Hc & Hres & Hvals)]; [done |].
  apply (swp_deref _ c); [by eapply stage_at |]. swp_step.
  eapply swp_mono; [by apply (stage_alloc s0 q o F s (body c)) |].
  intros dst s1 [[-> Hs1] | [Hf Hs1]]; simpl.
  { swp_steps. split; [apply Hs1 |]. by left. }
  destruct (Z.eqb_spec dst 0) as [-> | _]; [destruct Hf; lia |]. swp_step.
  apply dup_all_spec; [apply Hs1 | done |]. swp_step. eapply stage_obj; [done |]. swp_step.
  eapply swp_mono; [by eapply stage_set |]. intros x s2 Hs2. swp_steps. split; [apply Hs2 |].
  right; right. exists c, dst, (body c), []. rewrite Esp, Hres. split; [done |]. split; [done |]. split; [done |].
  split; [done |]. split; [| done]. intros h _. unfold abstract_state, resources_at. by rewrite Hres.
Qed.

Lemma take_resources (l : list (JSValue * JSValue * Z)) n : lenZ l = n -> take (Z.to_nat n) l = l.
Proof. intros Hn. apply take_ge. unfold lenZ in Hn. lia. Qed.

Lemma stage_found s0 q o F s a b : stage s0 q o F s -> (a, b) ∈ F -> sh_heap s !! a = Some (plain b).
Proof. intros Hs Hin. by destruct (proj1 (Forall_forall _ _) (sg_own _ _ _ _ _ Hs) _ Hin). Qed.

Lemma stage_fresh s0 q o F s a b : stage s0 q o F s -> (a, b) ∈ F -> fresh (sh_heap s0) a.
Proof. intros Hs Hin. by destruct (proj1 (Forall_forall _ _) (sg_own _ _ _ _ _ Hs) _ Hin). Qed.

(** The resource list of a copied stack, already attached to it. *)
Lemma stage_resources s0 q o F s dst d :
  (resource_count d <= 0 \/ js_arena_ptr_is_base rng (resources d) = true /\ resources d <> 0 /\
     exists c2 l, sh_heap s0 !! resources d = Some c2 /\ body c2 = BResources l /\ lenZ l = resource_count d /\
     Forall (fun r => base_value rng r.1.1 /\ base_value rng r.1.2) l) ->
  stage s0 q o ((dst, disp_block d 0 0) :: F) s ->
  swp (clone_resources d dst) (fun r s' => match r with
    | None => kept s0 s'
    | Some rs => exists G, nz rs = G.*1 /\ stage s0 q o (G ++ (dst, disp_block d 0 0) :: F) s' /\
        (rs = 0 -> resource_count d <= 0) /\
        (rs <> 0 -> 0 < resource_count d /\ G = [(rs, BResources (resources_at (sh_heap s0) (BDisposableStack d)))])
    end) s.
Proof.
  intros Hd Hs. unfold clone_resources. destruct (Z.ltb_spec 0 (resource_count d)) as [Hpos | Hz].
  2:{ swp_steps. exists []. split; [done |]. split; [done |]. by split. }
  destruct Hd as [? | (_ & Hnz & c2 & l & Hc2 & Hb2 & Hl & Hall)]; [lia |]. unfold load. swp_step.
  apply (swp_deref _ c2); [by eapply stage_at |]. rewrite Hb2, take_resources by done. swp_step.
  assert (El : resources_at (sh_heap s0) (BDisposableStack d) = l).
  { unfold resources_at, resources_ptr. destruct (Z.ltb_spec 0 (resource_count d)); [| lia].
    destruct (Z.eqb_spec (resources d) 0); [done |]. by rewrite Hc2, Hb2. }
  rewrite El. eapply swp_mono; [by eapply (stage_alloc _ _ _ _ _ (BResources l)) |].
  intros rs s1 [[-> Hs1] | [Hf Hs1]]; simpl.
  - swp_step. eapply swp_mono; [by eapply stage_free |]. intros x s2 Hk. swp_steps. done.
  - destruct (Z.eqb_spec rs 0) as [-> | Hrz]; [destruct Hf; lia |]. swp_step.
    apply dup_all_spec; [apply Hs1 | |].
    { clear -Hall. induction Hall as [| r l [H1 H2] _ IH]; simpl; constructor; [done |]. by constructor. }
    swp_steps. exists [(rs, BResources l)]. unfold nz. destruct (Z.eqb_spec rs 0); [done |]. by split.
Qed.

Lemma stage_disposable s0 q o F s p cb b :
  sh_heap s0 !! p = Some cb -> body cb = BObject b ->
  object_ok rng (sh_heap s0) b -> stage s0 q o F s ->
  swp (js_arena_clone_disposable_state q p) (state_post s0 q o b F (is_disposable (class_id b))) s.
Proof.
  intros Hp Hcb (_ & _ & _ & Hdi) Hs. unfold js_arena_clone_disposable_state. swp_step.
  eapply stage_base; [done | done | done |].
  destruct (is_disposable (class_id b)) eqn:Ei; [| by destruct (class_id b); try done; apply state_post_none; auto].
  destruct (Hdi eq_refl) as (sp & Hu & Hsrc).
  assert (Esp : state_ptr b = sp) by (unfold state_ptr; rewrite Ei, orb_true_r, Hu; done).
  enough (Hgo : swp (let^ src := opaque_of b in clone_disposable q src)
    (state_post s0 q o b F true) s) by (destruct (class_id b); done).
  unfold opaque_of. rewrite Hu. swp_steps. unfold clone_disposable.
  destruct (Z.eqb_spec sp 0) as [-> | Hnz]; [apply state_post_none; auto |]. unfold load. swp_step.
  destruct Hsrc as [? | (Hbase & c & d & Hc & Hbd & Hres)]; [done |].
  apply (swp_deref _ c); [by eapply stage_at |]. rewrite Hbd. swp_step.
  eapply swp_mono; [by apply (stage_alloc s0 q o F s (disp_block d 0 0)) |].
  intros dst s1 [[-> Hs1] | [Hf Hs1]]; simpl.
  { swp_steps. split; [apply Hs1 |]. by left. }
  destruct (Z.eqb_spec dst 0) as [-> | _]; [destruct Hf; lia |]. swp_step.
  eapply swp_mono; [by eapply stage_resources |]. intros [rs |] s2; swp_steps.
  2:{ intros Hk. split; [done |]. left. lia. }
  intros (G & HG & Hs2 & Hrz & Hrn). swp_step.
  set (st := disp_block d rs (if rs =? 0 then 0 else resource_count d)).
  apply (stage_perm _ _ _ _ ((dst, disp_block d 0 0) :: G ++ F)) in Hs2; [| symmetry; apply Permutation_middle].
  eapply swp_mono; [apply (stage_put _ _ _ dst _ st _ _ Hs2) |].
  intros x s3 Hs3. swp_step. eapply stage_obj; [exact Hs3 |]. swp_step.
  eapply swp_mono; [eapply stage_set; exact Hs3 |]. intros y s4 Hs4. swp_steps. split; [apply Hs4 |].
  right; right. exists c, dst, st, G. rewrite Esp. split; [done |]. split; [done |]. split; [done |]. split; [done |].
  assert (Hrp : resources_ptr st = rs).
  { unfold st, resources_ptr, disp_block. simpl. destruct (Z.ltb_spec 0 (resource_count d)); [done |].
    destruct (Z.eq_dec rs 0) as [-> | Hne]; [done |]. destruct (Hrn Hne). lia. }
  split; [| by rewrite Hrp]. intros h Hh. rewrite Hbd. unfold abstract_state. f_equal.
  unfold resources_at at 1. rewrite Hrp. destruct (Z.eqb_spec rs 0) as [-> | Hne].
  - unfold resources_at, resources_ptr. specialize (Hrz eq_refl). by destruct (Z.ltb_spec 0 (resource_count d)); [lia |].
  - destruct (Hrn Hne) as [_ ->]. by rewrite (Hh rs _ ltac:(left)).
Qed.

(** The element array of a copied fast array. *)
Lemma stage_elements s0 q o F s b :
  object_ok rng (sh_heap s0) b -> stage s0 q o F s ->
  swp (clone_elements q b) (fun ok s' => kept s0 s' /\ (ok = true ->
    (is_value_array b = false /\ stage s0 q o F s') \/
    (is_value_array b = true /\ exists n vals G, stage s0 q (set_u o (UArray n vals n)) (G ++ F) s' /\
       nz (if 0 <? n then vals else 0) = G.*1 /\
       (if (if 0 <? n then vals else 0) =? 0 then []
        else values_at (sh_heap s') (if 0 <? n then vals else 0)) = elems_of (sh_heap s0) b))) s.
Proof.
  intros (_ & Hva & _) Hs. unfold clone_elements. destruct (is_value_array b) eqn:Ev; simpl.
  2:{ swp_steps. split; [apply Hs |]. by left. }
  destruct (Hva eq_refl) as (sz & v & n & Hu & Hn). rewrite Hu. swp_step.
  unfold elems_of, elems_ptr. rewrite Ev, Hu. destruct (Z.ltb_spec 0 n) as [Hpos | Hz]; simpl.
  2:{ swp_steps. eapply stage_obj; [done |]. swp_step.
      eapply swp_mono; [eapply stage_set; exact Hs |]. intros x s1 Hs1. swp_steps. split; [apply Hs1 |]. intros _.
      right. split; [done |]. exists n, 0, []. destruct (Z.ltb_spec 0 n); [lia |]. by split. }
  destruct Hn as [? | (Hvz & _ & c & l & Hc & Hb & Hl)]; [lia |].
  eapply swp_mono; [by eapply stage_values |]. intros vals s1 [[-> Hs1] | [Hf Hs1]]; simpl.
  { swp_steps. split; [apply Hs1 | done]. }
  destruct (Z.eqb_spec vals 0) as [-> | Hvn]; [destruct Hf; lia |]. swp_step. eapply stage_obj; [exact Hs1 |]. swp_step.
  eapply swp_mono; [eapply stage_set; exact Hs1 |]. intros x s2 Hs2. swp_steps. split; [apply Hs2 |]. intros _.
  right. split; [done |]. exists n, vals, [(vals, BValues l)].
  destruct (Z.ltb_spec 0 n); [| lia]. split; [done |]. split; [unfold nz; by destruct (Z.eqb_spec vals 0) |].
  destruct (Z.eqb_spec vals 0), (Z.eqb_spec v 0); try done.
  unfold values_at. rewrite (stage_found _ _ _ _ _ vals _ Hs2 ltac:(left)), Hc, Hb. done.
Qed.

(** A complete copy: it shows what the original showed and shares nothing. *)
Definition copied (s0 : shadow_state) (b : JSObject) (q : Z) (s : shadow_state) : Prop :=
  exists o, object_at (sh_heap s) q = Some o /\ view (sh_heap s) o = view (sh_heap s0) b /\
    NoDup (q :: owned (sh_heap s) o) /\
    forall a, a ∈ q :: owned (sh_heap s) o -> fresh (sh_heap s0) a /\ is_Some (sh_heap s !! a).

(** The stage whose owned blocks are exactly [owned]. *)
Lemma stage_copied s0 q o F s b :
  stage s0 q o F s -> view (sh_heap s) o = view (sh_heap s0) b -> owned (sh_heap s) o ≡ₚ F.*1 ->
  copied s0 b q s.
Proof.
  intros Hs Hv Ho. exists o. unfold object_at. rewrite (sg_obj _ _ _ _ _ Hs). split; [done |]. split; [done |].
  split; [rewrite Ho; apply Hs |]. intros a Ha. rewrite Ho in Ha. apply elem_of_cons in Ha as [-> | Ha].
  - split; [apply Hs |]. by rewrite (sg_obj _ _ _ _ _ Hs).
  - apply list_elem_of_fmap in Ha as ([x bx] & -> & Hin).
    split; [by eapply stage_fresh | simpl; by rewrite (stage_found _ _ _ _ _ _ _ Hs Hin)].
Qed.

(** The property part of a copy. *)
Definition props_copied (h0 : heap) (b o : JSObject) (Fp : list (Z * block)) : Prop :=
  (prop o = 0 /\ prop b = 0 /\ Fp = []) \/ (prop o <> 0 /\ Fp = [(prop o, BValues (props_of h0 b))]).

Lemma assemble s0 q o s b Fp Fe Fs :
  stage s0 q o (Fe ++ Fs ++ Fp) s -> class_id o = class_id b -> props_copied (sh_heap s0) b o Fp ->
  elems_of (sh_heap s) o = elems_of (sh_heap s0) b -> nz (elems_ptr o) = Fe.*1 ->
  state_of (sh_heap s) o = state_of (sh_heap s0) b -> state_owned (sh_heap s) o = Fs.*1 ->
  copied s0 b q s.
Proof.
  intros Hs Hc Hp He1 He2 Hs1 Hs2. eapply stage_copied; [exact Hs | |].
  - unfold view. rewrite Hc, He1, Hs1. f_equal. unfold props_of at 1, values_at.
    destruct Hp as [(-> & Hb & _) | [Hz ->]].
    + unfold props_of. by rewrite Hb.
    + destruct (Z.eqb_spec (prop o) 0); [done |]. rewrite (stage_found _ _ _ _ _ (prop o) (BValues (props_of (sh_heap s0) b)) Hs); [done |].
      rewrite !elem_of_app. right; right. left.
  - unfold owned. rewrite He2, Hs2, !fmap_app.
    assert (Hn : nz (prop o) = Fp.*1).
    { unfold nz. destruct Hp as [(-> & _ & ->) | [Hz ->]]; [done |]. by destruct (Z.eqb_spec (prop o) 0). }
    rewrite Hn. rewrite (Permutation_app_comm Fp.*1), <- app_assoc. done.
Qed.

(** An object with no state behind [u] to copy. *)
Lemma no_state h b : is_iter (class_id b) = false -> is_disposable (class_id b) = false ->
  state_of h b = None /\ state_owned h b = [].
Proof. intros H1 H2. unfold state_of, state_owned, state_ptr. by rewrite H1, H2. Qed.

Lemma no_state_ptr h b : state_ptr b = 0 -> state_of h b = None /\ state_owned h b = [].
Proof. intros H1. unfold state_of, state_owned. by rewrite H1. Qed.

Lemma no_elems h b : is_value_array b = false -> elems_of h b = [] /\ elems_ptr b = 0.
Proof. intros H1. unfold elems_of, elems_ptr. by rewrite H1. Qed.

(** A copied state block, seen through the shadow. *)
Lemma state_copied s0 q o b c dst st G F s :
  is_iter (class_id b) || is_disposable (class_id b) = true -> class_id o = class_id b ->
  state_ptr b <> 0 -> sh_heap s0 !! state_ptr b = Some c ->
  stage s0 q (set_u o (UOpaque dst)) ((dst, st) :: G ++ F) s ->
  (forall h : heap, (forall a b, (a, b) ∈ G -> h !! a = Some (plain b)) ->
     abstract_state h st = abstract_state (sh_heap s0) (body c)) -> nz (resources_ptr st) = G.*1 ->
  state_of (sh_heap s) (set_u o (UOpaque dst)) = state_of (sh_heap s0) b /\
  state_owned (sh_heap s) (set_u o (UOpaque dst)) = ((dst, st) :: G).*1.
Proof.
  intros Hm Hc Hnz Hsp Hs Ha Hg.
  assert (Hd : sh_heap s !! dst = Some (plain st)) by (eapply stage_found; [exact Hs | left]).
  assert (Hdn : dst <> 0) by (destruct (stage_fresh _ _ _ _ _ dst st Hs ltac:(left)); lia).
  assert (Ep : state_ptr (set_u o (UOpaque dst)) = dst) by (unfold state_ptr; simpl; by rewrite Hc, Hm).
  unfold state_of, state_owned. rewrite Ep. destruct (Z.eqb_spec dst 0); [done |].
  destruct (Z.eqb_spec (state_ptr b) 0); [done |]. rewrite Hd, Hsp. simpl. rewrite Hg, Ha; [done |].
  intros a b' Hin. eapply stage_found; [exact Hs |]. right. apply elem_of_app. by left.
Qed.

(** The shadow before its parts are copied. *)
Definition shell (b : JSObject) (q p : Z) : JSObject :=
  {| link := (q, q); flags := flags b; fast_array := fast_array b; class_id := class_id b; shape := shape b;
     prop := p; first_weak_ref := 0; u := u b |}.

(** The rest of a copy whose state was copied: such objects are no arrays. *)
Lemma clone_finish_state s0 q o b Fp s c dst st G :
  object_ok rng (sh_heap s0) b -> is_value_array b = false ->
  is_iter (class_id b) || is_disposable (class_id b) = true ->
  o = shell b q (prop o) -> props_copied (sh_heap s0) b o Fp ->
  state_ptr b <> 0 -> sh_heap s0 !! state_ptr b = Some c ->
  stage s0 q (set_u o (UOpaque dst)) ((dst, st) :: G ++ Fp) s ->
  (forall h : heap, (forall a b, (a, b) ∈ G -> h !! a = Some (plain b)) ->
     abstract_state h st = abstract_state (sh_heap s0) (body c)) -> nz (resources_ptr st) = G.*1 ->
  swp (clone_elements q b) (fun ok s' => swp (sret (if ok then q else 0))
    (fun r s' => kept s0 s' /\ (r = 0 \/ r = q /\ copied s0 b q s')) s') s.
Proof.
  intros Hok Hnv Hm Ho Hpc Hnz Hc Hs Ha Hg. eapply swp_mono; [by eapply stage_elements |].
  intros [] s3 [K3 H3]; swp_steps; (split; [done |]); [| by left]. right. split; [done |].
  destruct (H3 eq_refl) as [[_ Hs3] | [? _]]; [| congruence].
  assert (Ecl : class_id o = class_id b) by (by rewrite Ho).
  assert (Hnv' : is_value_array (set_u o (UOpaque dst)) = false).
  { unfold is_value_array in *. simpl. by rewrite Ho. }
  destruct (state_copied s0 q o b c dst st G Fp s3) as [E1 E2]; try done.
  apply (assemble s0 q (set_u o (UOpaque dst)) s3 b Fp [] ((dst, st) :: G)); try done.
  - by rewrite (proj1 (no_elems _ _ Hnv')), (proj1 (no_elems _ _ Hnv)).
  - by rewrite (proj2 (no_elems (sh_heap s3) _ Hnv')).
Qed.

(** The rest of a copy with no state behind [u]. *)
Lemma clone_finish_plain s0 q o b Fp s :
  object_ok rng (sh_heap s0) b ->
  (is_iter (class_id b) = false \/ state_ptr b = 0) -> (is_disposable (class_id b) = false \/ state_ptr b = 0) ->
  o = shell b q (prop o) -> props_copied (sh_heap s0) b o Fp -> stage s0 q o Fp s ->
  swp (clone_elements q b) (fun ok s' => swp (sret (if ok then q else 0))
    (fun r s' => kept s0 s' /\ (r = 0 \/ r = q /\ copied s0 b q s')) s') s.
Proof.
  intros Hok Hit Hdi Ho Hpc Hs. eapply swp_mono; [by eapply stage_elements |].
  intros [] s3 [K3 H3]; swp_steps; (split; [done |]); [| by left]. right. split; [done |].
  assert (Hzero : state_ptr b = 0).
  { unfold state_ptr in *. destruct (is_iter (class_id b)), (is_disposable (class_id b)); simpl in *;
      destruct Hit, Hdi; done. }
  assert (Hns : forall o', state_ptr o' = 0 ->
    state_of (sh_heap s3) o' = state_of (sh_heap s0) b /\ state_owned (sh_heap s3) o' = []).
  { intros o' Hz. rewrite (proj1 (no_state_ptr _ _ Hzero)). by apply no_state_ptr. }
  assert (Eva : forall d, is_value_array (set_u o d) = is_value_array b) by (intros d; by rewrite Ho).
  destruct (H3 eq_refl) as [[Hnv Hs3] | (Hv & n & vals & G & Hs3 & Hg & He)].
  - assert (Hnv' : is_value_array o = false) by (rewrite <- Hnv; by rewrite Ho).
    assert (Hz' : state_ptr o = 0) by (by rewrite Ho).
    apply (assemble s0 q o s3 b Fp [] []); try done; try (by apply Hns); [by rewrite Ho | |].
    + by rewrite (proj1 (no_elems _ _ Hnv')), (proj1 (no_elems _ _ Hnv)).
    + by rewrite (proj2 (no_elems (sh_heap s3) _ Hnv')).
  - assert (Hz' : state_ptr (set_u o (UArray n vals n)) = 0).
    { unfold state_ptr. simpl. by destruct (is_iter (class_id o) || is_disposable (class_id o)). }
    apply (assemble s0 q (set_u o (UArray n vals n)) s3 b Fp G []); try done; try (by apply Hns).
    + by rewrite Ho.
    + unfold elems_of at 1, elems_ptr. by rewrite Eva, Hv.
    + unfold elems_ptr. by rewrite Eva, Hv.
Qed.

(** State and elements, after the properties. *)
Lemma clone_tail s0 q o Fp s p cb b :
  sh_heap s0 !! p = Some cb -> body cb = BObject b -> object_ok rng (sh_heap s0) b ->
  o = shell b q (prop o) -> props_copied (sh_heap s0) b o Fp -> stage s0 q o Fp s ->
  swp (let^ rc := js_arena_clone_iter_state q p in
       if rc <? 0 then sret 0
       else
         let^ rc := js_arena_clone_disposable_state q p in
         if rc <? 0 then sret 0
         else
           let^ ok := clone_elements q b in
           sret (if ok then q else 0))
    (fun r s' => kept s0 s' /\ (r = 0 \/ r = q /\ copied s0 b q s')) s.
Proof.
  intros Hp Hcb Hok Ho Hpc Hs. swp_step. eapply swp_mono; [by eapply stage_iter |].
  intros rc s1 [K1 H1]. destruct (Z.ltb_spec rc 0) as [? | Hrc]; [by swp_steps; split; [| left] |]. swp_step.
  assert (Ecl : class_id o = class_id b) by (by rewrite Ho).
  destruct H1 as [? | [[Hit Hs1] | (c & dst & st & G & Hm & Hnz & Hc & Hs1 & Ha & Hg)]]; [lia | |].
  - eapply swp_mono; [by eapply stage_disposable |].
    intros rc2 s2 [K2 H2]. destruct (Z.ltb_spec rc2 0) as [? | Hrc2]; [by swp_steps; split; [| left] |]. swp_step.
    destruct H2 as [? | [[Hdi Hs2] | (c & dst & st & G & Hm & Hnz & Hc & Hs2 & Ha & Hg)]]; [lia | |].
    + by apply (clone_finish_plain s0 q o b Fp s2).
    + assert (Hnv : is_value_array b = false)
        by (unfold is_value_array; destruct (class_id b); try done; by rewrite andb_false_r).
      apply (clone_finish_state s0 q o b Fp s2 c dst st G); try done; by rewrite Hm, orb_true_r.
  - assert (Hnd : is_disposable (class_id b) = false) by (by destruct (class_id b)).
    assert (Hnv : is_value_array b = false)
      by (unfold is_value_array; destruct (class_id b); try done; by rewrite andb_false_r).
    eapply swp_mono; [by eapply stage_disposable |]. rewrite Hnd.
    intros rc2 s2 [K2 H2]. destruct (Z.ltb_spec rc2 0) as [? | Hrc2]; [by swp_steps; split; [| left] |]. swp_step.
    destruct H2 as [? | [[_ Hs2] | (? & ? & ? & ? & ? & _)]]; [lia | | done].
    apply (clone_finish_state s0 q o b Fp s2 c dst st G); try done; by rewrite Hm.
Qed.
Lemma clone_spec s p cb b :
  sh_ranges s = rng -> sh_heap s !! p = Some cb -> body cb = BObject b -> object_ok rng (sh_heap s) b ->
  swp (js_clone_jsobject_for_write p) (fun q s' => kept s s' /\ (q = 0 \/ copied s b q s')) s.
Proof.
  intros Hr Hp Hcb Hok. unfold js_clone_jsobject_for_write. swp_step. unfold load_object at 1, load at 1. swp_step.
  apply (swp_deref _ cb); [done |]. rewrite Hcb. swp_steps. eapply swp_mono; [by apply js_malloc_spec |].
  intros q s1 [K1 [[-> E1] | [Hf E1]]]; [by swp_steps; split; [| left] |].
  destruct (Z.eqb_spec q 0) as [-> | Hqz]; [destruct Hf; lia |].
  assert (Hs1 : stage s q b [] s1).
  { split; try done; [by rewrite E1, lookup_insert_eq |].
    apply NoDup_cons. split; [apply not_elem_of_nil | constructor]. }
  swp_step. eapply swp_mono; [eapply stage_set; exact Hs1 |]. intros x s2 Hs2. swp_step.
  eapply swp_mono; [eapply stage_props; [exact Hok | exact Hs2] |].
  intros [np |] s3 H3; [| by swp_steps; split; [| left]].
  swp_step. assert (Hex : exists Fp, props_copied (sh_heap s) b (shell b q np) Fp /\ stage s q (shell b q (prop b)) Fp s3).
  { destruct H3 as [(-> & Hz & H3) | [Hfp H3]].
    - exists []. split; [by left | done].
    - eexists. split; [right; split; [| reflexivity] | exact H3]. simpl. destruct Hfp. lia. }
  destruct Hex as (Fp & Hpc & Hs3). eapply stage_obj; [exact Hs3 |]. swp_step.
  eapply swp_mono; [eapply stage_set; exact Hs3 |]. intros y s4 Hs4.
  eapply swp_mono; [by apply (clone_tail s q (shell b q np) Fp s4 p cb b) |].
  intros r s5 [K5 [-> | [-> H5]]]; (split; [done |]); [by left | by right].
Qed.
End clone.
