(* ===== verification/ShadowInvariant.v ===== *)
(** * The shadow invariant

    Per-request state of the copy-on-write layer: every shadow and the blocks
    it owns are request memory, disjoint from those of every other shadow, and
    base memory is the snapshot's.  The lemmas show that looking up, creating
    and writing shadows preserve it and describe what readers see. *)

From stdpp Require Import base list numbers gmap.
From Stdlib Require Import ZArith Lia.
From S2P Require Import Prelude StateRun ProbeTable ShadowTable BaseRanges Shadow ShadowProofs.

#[local] Open Scope st_scope.

(** ** Views depend on owned memory only *)

Lemma elem_nz a x : a ∈ nz x <-> a = x /\ x <> 0.
Proof.
  unfold nz. destruct (Z.eqb_spec x 0) as [-> | Hz].
  - split; [by intros ?%not_elem_of_nil | by intros [_ ?]].
  - rewrite list_elem_of_singleton. tauto.
Qed.

Lemma state_owned_frame (h h' : heap) o :
  (forall a, a ∈ state_owned h o -> h' !! a = h !! a) ->
  state_owned h' o = state_owned h o /\ state_of h' o = state_of h o.
Proof.
  unfold state_owned, state_of. intros Hag. destruct (Z.eqb_spec (state_ptr o) 0) as [_ | Hz]; [done |].
  rewrite (Hag (state_ptr o)) by left. split; [done |].
  destruct (h !! state_ptr o) as [c |] eqn:E; [| done]. simpl. unfold abstract_state. do 2 f_equal. unfold resources_at.
  destruct (Z.eqb_spec (resources_ptr (body c)) 0) as [_ | Hr]; [done |].
  rewrite (Hag (resources_ptr (body c))); [done |]. right. by apply elem_nz.
Qed.

Lemma view_frame (h h' : heap) o :
  (forall a, a ∈ owned h o -> h' !! a = h !! a) -> view h' o = view h o /\ owned h' o = owned h o.
Proof.
  intros Hag. unfold owned in *.
  destruct (state_owned_frame h h' o) as [E1 E2]; [intros a Ha; apply Hag; rewrite !elem_of_app; auto |].
  split; [| by rewrite E1]. unfold view. rewrite E2. f_equal.
  - unfold props_of, values_at. destruct (Z.eqb_spec (prop o) 0) as [_ | Hz]; [done |].
    rewrite Hag; [done |]. rewrite !elem_of_app. left. by apply elem_nz.
  - unfold elems_of, values_at. destruct (Z.eqb_spec (elems_ptr o) 0) as [_ | Hz]; [done |].
    rewrite Hag; [done |]. rewrite !elem_of_app. right; left. by apply elem_nz.
Qed.

(** ** The invariant *)

Inductive skey := KObj (p : Z) | KVar (p : Z).

#[export] Instance skey_eq_dec : EqDecision skey.
Proof. solve_decision. Defined.

Section invariant.
Context `{RA : ReqAlloc} (rng : base_ranges) `{RL : !ReqAllocLaws rng} (snap : heap).
Hypothesis Hsnap : snapshot_ok rng snap.

Abbreviation is_base a := (js_arena_ptr_is_base rng a).
Abbreviation SH := (ST shadow_state).

(** The memory behind a shadow. *)
Definition obj_foot (h : heap) (q : Z) : list Z :=
  q :: match object_at h q with Some o => owned h o | None => [] end.

Definition foot (s : shadow_state) (k : skey) : list Z :=
  match k with
  | KObj p => match shadows (shadow_tab s) !! p with Some q => obj_foot (sh_heap s) q | None => [] end
  | KVar p => match shadows (varref_tab s) !! p with Some q => [q] | None => [] end
  end.

Record sinv (s : shadow_state) : Prop := {
  si_ranges : sh_ranges s = rng;
  si_arena : is_arena s = true;
  si_base : forall a, is_base a = true -> sh_heap s !! a = snap !! a;
  si_wf : wf_shadow (shadow_tab s) /\ wf_shadow (varref_tab s);
  si_foot : forall k a, a ∈ foot s k -> is_base a = false /\ is_Some (sh_heap s !! a);
  si_nodup : forall k, NoDup (foot s k);
  si_sep : forall k k' a, a ∈ foot s k -> a ∈ foot s k' -> k = k';
  si_obj : forall p q, shadows (shadow_tab s) !! p = Some q ->
    is_base p = true /\ q <> 0 /\ is_Some (object_at (sh_heap s) q);
  si_var : forall p q, shadows (varref_tab s) !! p = Some q ->
    is_base p = true /\ q <> 0 /\ exists c v, sh_heap s !! q = Some c /\ body c = BVarRef v /\ pvalue v = None
}.

(** What a reader of object [p] or cell [p] sees. *)
Definition objview (s : shadow_state) (p : Z) : option oview :=
  view (sh_heap s) <$> object_at (sh_heap s) (default p (shadows (shadow_tab s) !! p)).

Definition var_at (h : heap) (p : Z) : option JSValue :=
  match h !! p with Some c => match body c with BVarRef v => Some (value v) | _ => None end | None => None end.

Definition varview (s : shadow_state) (p : Z) : option JSValue :=
  var_at (sh_heap s) (default p (shadows (varref_tab s) !! p)).

(** ** Snapshot objects *)

Lemma values_block_agree (h h' : heap) a n :
  (forall x, is_base x = true -> h' !! x = h !! x) -> values_block rng h a n -> values_block rng h' a n.
Proof. intros Hag [Hb (c & l & Hc & H)]. split; [done |]. exists c, l. by rewrite Hag. Qed.

Lemma object_ok_agree (h h' : heap) o :
  (forall x, is_base x = true -> h' !! x = h !! x) -> object_ok rng h o -> object_ok rng h' o.
Proof.
  intros Hag ((Hsb & c & n & Hc & Hb & Hp) & Hv & Hi & Hd). split; [| split; [| split]].
  - split; [done |]. exists c, n. rewrite Hag by done. split; [done |]. split; [done |].
    destruct Hp as [? | (H1 & H2 & H3)]; [by left | right]. split; [done |]. split; [done |].
    by eapply values_block_agree.
  - intros Ev. destruct (Hv Ev) as (sz & v & m & Hu & [? | [H1 H2]]); exists sz, v, m; (split; [done |]); [by left |].
    right. split; [done |]. by eapply values_block_agree.
  - intros Ei. destruct (Hi Ei) as (p & Hu & [? | (H1 & c2 & H2 & H3)]); exists p; (split; [done |]); [by left |].
    right. split; [done |]. exists c2. by rewrite Hag.
  - intros Ed. destruct (Hd Ed) as (p & Hu & [? | (H1 & c2 & d & H2 & H3 & H4)]); exists p; (split; [done |]); [by left |].
    right. split; [done |]. exists c2, d. rewrite Hag by done. split; [done |]. split; [done |].
    destruct H4 as [? | (H5 & H6 & c3 & l & H7 & H8)]; [by left | right].
    split; [done |]. split; [done |]. exists c3, l. by rewrite Hag.
Qed.

(** A snapshot object's parts are base memory. *)
Lemma base_owned h o a : object_ok rng h o -> a ∈ owned h o -> is_base a = true.
Proof.
  intros ((_ & c & n & _ & _ & Hp) & Hv & Hi & Hd). unfold owned. rewrite !elem_of_app. intros [Ha | [Ha | Ha]].
  - apply elem_nz in Ha as [-> Hz]. destruct Hp as [? | (_ & _ & [Hb _])]; [done | exact Hb].
  - apply elem_nz in Ha as [-> Hz]. unfold elems_ptr in *. destruct (is_value_array o) eqn:Ev; [| done].
    destruct (Hv eq_refl) as (sz & v & m & Hu & Hm). rewrite Hu in *. destruct (Z.ltb_spec 0 m); [| done].
    destruct Hm as [? | (_ & Hb & _)]; [lia | exact Hb].
  - unfold state_owned in Ha. destruct (Z.eqb_spec (state_ptr o) 0) as [_ | Hz]; [by apply not_elem_of_nil in Ha |].
    assert (Hsp : exists p, u o = UOpaque p /\ p = state_ptr o /\
      (is_iter (class_id o) = true \/ is_disposable (class_id o) = true)).
    { unfold state_ptr in *. destruct (is_iter (class_id o)) eqn:E1, (is_disposable (class_id o)) eqn:E2; simpl in *;
        destruct (u o); try done; eauto. }
    destruct Hsp as (p & Hu & -> & [E | E]).
    + destruct (Hi E) as (p & Hu' & Hp'). rewrite Hu in Hu'. injection Hu' as <-.
      destruct Hp' as [? | (Hb & c2 & H2 & H3 & _)]; [done |]. rewrite H2, H3 in Ha.
      by apply list_elem_of_singleton in Ha as ->.
    + destruct (Hd E) as (p & Hu' & Hp'). rewrite Hu in Hu'. injection Hu' as <-.
      destruct Hp' as [? | (Hb & c2 & d & H2 & H3 & H4)]; [done |]. rewrite H2, H3 in Ha.
      apply elem_of_cons in Ha as [-> | Ha]; [done |]. apply elem_nz in Ha as [-> Hnz]. unfold resources_ptr in *.
      destruct (Z.ltb_spec 0 (resource_count d)); [| done]. destruct H4 as [? | [H5 _]]; [lia | done].
Qed.

Lemma snap_object s p o : sinv s -> is_base p = true -> object_at snap p = Some o ->
  object_at (sh_heap s) p = Some o /\ object_ok rng (sh_heap s) o /\ view (sh_heap s) o = view snap o.
Proof.
  intros Hv Hb Ho. pose proof (si_base _ Hv) as Hag.
  assert (Hok : object_ok rng snap o).
  { unfold object_at in Ho. destruct (snap !! p) as [c |] eqn:E; [| done]. destruct (body c) eqn:Eb; simplify_eq.
    destruct Hsnap as [_ Hs]. specialize (Hs p c Hb E). by rewrite Eb in Hs. }
  split; [unfold object_at in *; by rewrite Hag |]. split; [by eapply object_ok_agree |].
  apply view_frame. intros a Ha. apply Hag. by eapply base_owned.
Qed.
(** ** Preservation *)

(** Readers see the same objects and cells. *)
Definition same_views (s s' : shadow_state) : Prop :=
  (forall p o, is_base p = true -> object_at snap p = Some o -> objview s' p = objview s p) /\
  (forall p c v, is_base p = true -> snap !! p = Some c -> body c = BVarRef v -> varview s' p = varview s p).

Lemma same_views_refl s : same_views s s.
Proof. done. Qed.

Lemma same_views_trans s1 s2 s3 : same_views s1 s2 -> same_views s2 s3 -> same_views s1 s3.
Proof.
  intros [H1 H2] [H3 H4]. split.
  - intros p o Hb Ho. by rewrite (H3 p o), (H1 p o).
  - intros p c v Hb Hc Hv. by rewrite (H4 p c v), (H2 p c v).
Qed.

(** Same shadow maps and the same heap. *)
Lemma sinv_tabs s s' :
  sinv s -> sh_ranges s' = rng -> is_arena s' = true -> sh_heap s' = sh_heap s ->
  wf_shadow (shadow_tab s') -> wf_shadow (varref_tab s') ->
  shadows (shadow_tab s') = shadows (shadow_tab s) -> shadows (varref_tab s') = shadows (varref_tab s) ->
  sinv s' /\ same_views s s'.
Proof.
  intros [V1 V2 V3 V4 V5 V6 V7 V8 V9] H1 H2 Hh W1 W2 E1 E2.
  assert (Hf : forall k, foot s' k = foot s k) by (intros [p | p]; simpl; by rewrite ?E1, ?E2, ?Hh).
  split.
  - split; try done; rewrite ?Hh, ?E1, ?E2; try done.
    + intros k a. rewrite Hf. by apply V5.
    + intros k. rewrite Hf. apply V6.
    + intros k k' a. rewrite !Hf. apply V7.
  - split; intros; unfold objview, varview; by rewrite Hh, ?E1, ?E2.
Qed.

Lemma object_at_ext (h h' : heap) q : h ⊆ h' -> is_Some (h !! q) -> object_at h' q = object_at h q.
Proof. intros Hx [c Hc]. unfold object_at. by rewrite Hc, (lookup_weaken _ _ _ _ Hc Hx). Qed.

(** New request blocks. *)
Lemma sinv_ext s s' : sinv s -> kept rng s s' -> sinv s' /\ same_views s s' /\ forall k, foot s' k = foot s k.
Proof.
  intros Hv [K1 K2 K3 K4 K5 K6]. pose proof Hv as [V1 V2 V3 V4 V5 V6 V7 V8 V9].
  assert (Hat : forall k a, a ∈ foot s k -> sh_heap s' !! a = sh_heap s !! a).
  { intros k a Ha. destruct (V5 k a Ha) as [_ [c Hc]]. by rewrite Hc, (lookup_weaken _ _ _ _ Hc K5). }
  assert (Hobj : forall p q, shadows (shadow_tab s) !! p = Some q ->
    object_at (sh_heap s') q = object_at (sh_heap s) q /\
    forall o, object_at (sh_heap s) q = Some o ->
      view (sh_heap s') o = view (sh_heap s) o /\ owned (sh_heap s') o = owned (sh_heap s) o).
  { intros p q Hq. assert (Hfq : q ∈ foot s (KObj p)) by (simpl; rewrite Hq; left). split.
    - unfold object_at. by rewrite (Hat _ _ Hfq).
    - intros o Ho. apply view_frame. intros a Ha. apply (Hat (KObj p)). simpl. rewrite Hq. unfold obj_foot.
      rewrite Ho. by right. }
  assert (Hf : forall k, foot s' k = foot s k).
  { intros [p | p]; simpl; rewrite ?K3, ?K4; [| done]. destruct (shadows (shadow_tab s) !! p) as [q |] eqn:E; [| done].
    destruct (Hobj p q E) as [Eo Ho]. unfold obj_foot. rewrite Eo. f_equal.
    destruct (object_at (sh_heap s) q) eqn:Eq; [| done]. by apply Ho. }
  split; [| split; [| done]].
  - split; try done; rewrite ?K3, ?K4, ?K2; try done.
    + intros a Ha. by rewrite K6, V3.
    + intros k a. rewrite Hf. intros Ha. destruct (V5 k a Ha) as [H1 H2]. by rewrite (Hat _ _ Ha).
    + intros k. rewrite Hf. apply V6.
    + intros k k' a. rewrite !Hf. apply V7.
    + intros p q Hq. rewrite (proj1 (Hobj p q Hq)). by apply V8.
    + intros p q Hq. destruct (V9 p q Hq) as (H1 & H2 & c & v & Hc & Hr). split; [done |]. split; [done |].
      exists c, v. split; [by eapply lookup_weaken | done].
  - split.
    + intros p o Hb Ho. unfold objview. rewrite K3. destruct (shadows (shadow_tab s) !! p) as [q |] eqn:E; simpl.
      * destruct (Hobj p q E) as [Eo Hw]. rewrite Eo. destruct (object_at (sh_heap s) q) eqn:Eq; [| done].
        simpl. f_equal. by apply Hw.
      * destruct (snap_object s p o Hv Hb Ho) as (E1 & E2 & E3). rewrite E1.
        rewrite (object_at_ext _ _ p K5), E1 by (unfold object_at in E1; by destruct (sh_heap s !! p)).
        simpl. f_equal. apply view_frame. intros a Ha. apply K6. by eapply base_owned.
    + intros p c v Hb Hc Hbv. unfold varview, var_at. rewrite K4.
      destruct (shadows (varref_tab s) !! p) as [q |] eqn:E; simpl.
      * rewrite (Hat (KVar p) q); [done |]. simpl. rewrite E. left.
      * by rewrite K6.
Qed.
(** A new shadow [k] whose memory [l] is all fresh. *)
Lemma sinv_add s s1 s2 k l :
  sinv s -> kept rng s s1 -> sh_ranges s2 = rng -> is_arena s2 = true -> sh_heap s2 = sh_heap s1 ->
  wf_shadow (shadow_tab s2) -> wf_shadow (varref_tab s2) ->
  (forall k', k' <> k -> foot s2 k' = foot s1 k') -> foot s k = [] -> foot s2 k = l -> NoDup l ->
  (forall a, a ∈ l -> fresh rng (sh_heap s) a /\ is_Some (sh_heap s1 !! a)) ->
  (forall p q, shadows (shadow_tab s2) !! p = Some q -> shadows (shadow_tab s1) !! p <> Some q ->
     is_base p = true /\ q <> 0 /\ is_Some (object_at (sh_heap s1) q)) ->
  (forall p q, shadows (varref_tab s2) !! p = Some q -> shadows (varref_tab s1) !! p <> Some q ->
     is_base p = true /\ q <> 0 /\ exists c v, sh_heap s1 !! q = Some c /\ body c = BVarRef v /\ pvalue v = None) ->
  sinv s2.
Proof.
  intros Hv Hk H1 H2 Hh W1 W2 Hoth Hnone Hl Hnd Hfr Ho Hva.
  destruct (sinv_ext s s1 Hv Hk) as (Hv1 & _ & Hf1). pose proof Hv1 as [V1 V2 V3 V4 V5 V6 V7 V8 V9].
  assert (Hcase : forall k', k' = k \/ foot s2 k' = foot s k').
  { intros k'. destruct (decide (k' = k)) as [-> | Hne]; [by left | right]. by rewrite Hoth, Hf1. }
  assert (Hnew : forall k' a, a ∈ l -> a ∈ foot s k' -> False).
  { intros k' a Ha Hb. destruct (Hfr a Ha) as [[Hn _] _].
    destruct (si_foot _ Hv k' a Hb) as [_ [c Hc]]. congruence. }
  split; try done; rewrite ?Hh; try done.
  - intros k' a Ha. destruct (Hcase k') as [-> | E].
    + rewrite Hl in Ha. destruct (Hfr a Ha) as [(_ & Hb & _) Hs]. done.
    + rewrite E, <- Hf1 in Ha. by apply (V5 k').
  - intros k'. destruct (Hcase k') as [-> | E]; [by rewrite Hl |]. rewrite E, <- Hf1. apply V6.
  - intros k1 k2 a. destruct (Hcase k1) as [-> | E1], (Hcase k2) as [-> | E2]; rewrite ?Hl, ?E1, ?E2; try done.
    + intros Ha Hb. by destruct (Hnew k2 a).
    + intros Ha Hb. by destruct (Hnew k1 a).
    + apply (si_sep _ Hv).
  - intros p q Hq. destruct (decide (shadows (shadow_tab s1) !! p = Some q)) as [E | E]; [by apply V8 |].
    by apply Ho.
  - intros p q Hq. destruct (decide (shadows (varref_tab s1) !! p = Some q)) as [E | E]; [by apply V9 |].
    by apply Hva.
Qed.

(** A fresh copy becomes the shadow of [p]. *)
Lemma sinv_add_obj s s1 t p q b :
  sinv s -> kept rng s s1 -> is_base p = true -> object_at snap p = Some b -> copied rng s b q s1 ->
  shadows (shadow_tab s) !! p = None -> wf_shadow t -> shadows t = <[p := q]> (shadows (shadow_tab s)) ->
  sinv (set_shadow_tab s1 t) /\ same_views s (set_shadow_tab s1 t).
Proof.
  intros Hv Hk Hb Hsb (o & Ho & Hview & Hnd & Hfr) Hnone Hwf Ht.
  destruct (sinv_ext s s1 Hv Hk) as (Hv1 & Hsv & Hf1). pose proof Hk as [K1 K2 K3 K4 K5 K6].
  assert (Hqz : q <> 0) by (destruct (Hfr q ltac:(left)) as [(_ & _ & ?) _]; lia).
  split.
  - apply (sinv_add s s1 _ (KObj p) (q :: owned (sh_heap s1) o)); try done; simpl.
    + rewrite K2. apply Hv.
    + rewrite K4. apply Hv.
    + intros [p' | p'] Hne; simpl; [| done]. rewrite Ht, K3, lookup_insert_ne; [done | congruence].
    + by rewrite Hnone.
    + rewrite Ht, lookup_insert_eq. unfold obj_foot. by rewrite Ho.
    + intros p' q' Hq' Hne. rewrite Ht in Hq'. rewrite K3 in Hne. destruct (decide (p = p')) as [<- | Hd].
      * rewrite lookup_insert_eq in Hq'. injection Hq' as <-. by rewrite Ho.
      * by rewrite lookup_insert_ne in Hq'.
  - apply (same_views_trans _ s1); [done |]. split; [| done].
    intros p' o' Hb' Ho'. unfold objview. simpl. rewrite Ht, K3. destruct (decide (p = p')) as [<- | Hne].
    + rewrite lookup_insert_eq, Hnone. simpl. rewrite Ho.
      destruct (snap_object s1 p b Hv1 Hb Hsb) as (-> & _ & E). destruct (snap_object s p b Hv Hb Hsb) as (_ & _ & E').
      simpl. f_equal. by rewrite E, Hview, E'.
    + by rewrite lookup_insert_ne.
Qed.

(** Counts grow by one at most. *)
Definition count_of (s : shadow_state) : Z := st_count (shadow_tab s) + st_count (varref_tab s).

Lemma wf_count t : wf_shadow t -> 0 <= st_count t.
Proof. unfold wf_shadow. destruct (st_tab t); [intros (_ & _ & ? & _); lia | intros [_ ->]; lia]. Qed.

(** The table calls around a copy. *)
Lemma tab_alloc_spec s t Q :
  (forall ok a, Q ok (set_alloc s a)) -> (forall ok, Q ok s) -> swp (tab_alloc t) Q s.
Proof.
  intros H1 H2. unfold tab_alloc. destruct (shadow_has_room t); [swp_steps; apply H2 |].
  apply swp_call. intros a s' E. destruct (req_malloc _ _). injection E as <- <-. apply H1.
Qed.

Lemma for_write_spec s p b :
  sinv s -> is_base p = true -> object_at snap p = Some b -> count_of s < 2 ^ 30 ->
  swp (js_object_for_write p) (fun q s' => sinv s' /\ same_views s s' /\ count_of s' <= count_of s + 1 /\
    (q = 0 \/ shadows (shadow_tab s') !! p = Some q)) s.
Proof.
  intros Hv Hb Hsb Hcnt. pose proof (si_wf _ Hv) as [W1 W2].
  assert (Hpz : p <> 0) by (intros ->; destruct Hsnap; congruence).
  unfold js_object_for_write, ptr_is_base. swp_steps. rewrite (si_ranges _ Hv), (si_arena _ Hv), Hb. simpl. swp_step.
  unfold js_object_shadow_lookup. swp_steps. eapply swp_lift; [by apply shadow_lookup_spec |].
  destruct (shadows (shadow_tab s) !! p) as [q |] eqn:E; simpl.
  { destruct (si_obj _ Hv p q E) as (_ & Hqz & _). destruct (Z.eqb_spec q 0); [done |]. simpl. swp_steps.
    split; [done |]. split; [done |]. split; [lia | by right]. }
  swp_steps.
  assert (Hgo : forall ok s0, s0 = s \/ (exists a, s0 = set_alloc s a) ->
    swp (let^ (rc, t) := slift (js_shadow_tab_reserve ok (shadow_tab s)) in
      smod (fun s => set_shadow_tab s t) ;^
      if rc <? 0 then sret 0
      else
        let^ shadow := js_clone_jsobject_for_write p in
        if shadow =? 0 then sret 0
        else
          let^ t := sget shadow_tab in
          let^ t := slift (shadow_insert t p shadow) in
          smod (fun s => set_shadow_tab s t) ;^
          sret shadow) (fun q s' => sinv s' /\ same_views s s' /\ count_of s' <= count_of s + 1 /\
    (q = 0 \/ shadows (shadow_tab s') !! p = Some q)) s0).
  2:{ apply tab_alloc_spec; intros; apply Hgo; eauto. }
  intros ok s0 Hs0. pose proof (wf_count _ W2) as Hc2. unfold count_of in *.
  assert (H0 : sh_ranges s0 = rng /\ is_arena s0 = true /\ sh_heap s0 = sh_heap s /\ varref_tab s0 = varref_tab s)
    by (destruct Hs0 as [-> | [a ->]]; (split; [apply Hv | split; [apply Hv | done]])).
  destruct H0 as (R0 & A0 & E0 & F0). swp_step.
  assert (Hset : forall t, wf_shadow t -> shadows t = shadows (shadow_tab s) ->
    sinv (set_shadow_tab s0 t) /\ same_views s (set_shadow_tab s0 t)).
  { intros t Hw Ht. apply sinv_tabs; try done; simpl; by rewrite F0. }
  destruct (shadow_reserve_spec ok (shadow_tab s) W1 ltac:(lia)) as [[Er _] | (t & Er & Wt & Et & Ct & Rt)].
  { eapply swp_lift; [exact Er |]. swp_steps. destruct (Hset (shadow_tab s) W1 eq_refl) as [H1 H2].
    split; [done |]. split; [done |]. simpl. rewrite F0. split; [lia | by left]. }
  eapply swp_lift; [exact Er |]. simpl. swp_step. swp_step. destruct (Hset t Wt Et) as [H1 H2].
  set (s1 := set_shadow_tab s0 t) in *.
  destruct (snap_object s1 p b H1 Hb Hsb) as (Hob & Hok & _). swp_step.
  assert (Hcell : exists cb, sh_heap s1 !! p = Some cb /\ body cb = BObject b).
  { unfold object_at in Hob. destruct (sh_heap s1 !! p) as [cb |]; [| done]. exists cb. destruct (body cb); by simplify_eq. }
  destruct Hcell as (cb & Hcb & Hbb).
  eapply swp_mono; [by apply (clone_spec rng s1 p cb b) |]. intros q s2 [Hk Hq]. pose proof Hk as [K1 K2 K3 K4 K5 K6].
  assert (Hfail : sinv s2 /\ same_views s s2 /\
    st_count (shadow_tab s2) + st_count (varref_tab s2) = st_count (shadow_tab s) + st_count (varref_tab s)).
  { destruct (sinv_ext s1 s2 H1 Hk) as (H3 & H4 & _). split; [done |]. split; [by eapply same_views_trans |].
    rewrite K3, K4. simpl. rewrite F0. lia. }
  destruct (Z.eqb_spec q 0) as [-> | Hqz]; swp_steps.
  { destruct Hfail as (F1 & F2 & F3). split; [done |]. split; [done |]. split; [lia | by left]. }
  destruct Hq as [? | Hq]; [done |].
  destruct (shadow_insert_spec t p q Wt ltac:(lia) ltac:(lia) Hpz) as (t' & Ei & Wt' & Et' & Ct'); [by rewrite Et |].
  eapply swp_lift; [rewrite K3; exact Ei |]. swp_steps.
  destruct (sinv_add_obj s1 s2 t' p q b H1 Hk Hb Hsb Hq) as [H5 H6]; [simpl; by rewrite Et | done | done |].
  split; [done |]. split; [by eapply same_views_trans |]. simpl. rewrite K4, Et'. simpl. rewrite F0.
  split; [lia | right; apply lookup_insert_eq].
Qed.
(** ** Closure cells *)

Lemma snap_var s p c v : sinv s -> is_base p = true -> snap !! p = Some c -> body c = BVarRef v ->
  sh_heap s !! p = Some c /\ var_ok rng v.
Proof.
  intros Hv Hb Hc Hbv. split; [by rewrite (si_base _ Hv) |].
  destruct Hsnap as [_ Hs]. specialize (Hs p c Hb Hc). by rewrite Hbv in Hs.
Qed.

(** A fresh cell becomes the shadow of [p]. *)
Lemma sinv_add_var s s1 t p q c0 v0 c v :
  sinv s -> kept rng s s1 -> is_base p = true -> snap !! p = Some c0 -> body c0 = BVarRef v0 ->
  fresh rng (sh_heap s) q -> sh_heap s1 !! q = Some c -> body c = BVarRef v -> pvalue v = None -> value v = value v0 ->
  shadows (varref_tab s) !! p = None -> wf_shadow t -> shadows t = <[p := q]> (shadows (varref_tab s)) ->
  sinv (set_varref_tab s1 t) /\ same_views s (set_varref_tab s1 t).
Proof.
  intros Hv Hk Hb Hc0 Hb0 Hf Hc Hbv Hpv Hval Hnone Hwf Ht.
  destruct (sinv_ext s s1 Hv Hk) as (Hv1 & Hsv & Hf1). pose proof Hk as [K1 K2 K3 K4 K5 K6].
  assert (Hqz : q <> 0) by (destruct Hf as (_ & _ & ?); lia).
  split.
  - apply (sinv_add s s1 _ (KVar p) [q]); try done; simpl.
    + rewrite K2. apply Hv.
    + rewrite K3. apply Hv.
    + intros [p' | p'] Hne; simpl; [done |]. rewrite Ht, K4, lookup_insert_ne; [done | congruence].
    + by rewrite Hnone.
    + by rewrite Ht, lookup_insert_eq.
    + apply NoDup_singleton.
    + intros a ->%list_elem_of_singleton. by rewrite Hc.
    + intros p' q' Hq' Hne. rewrite Ht in Hq'. rewrite K4 in Hne. destruct (decide (p = p')) as [<- | Hd].
      * rewrite lookup_insert_eq in Hq'. injection Hq' as <-. split; [done |]. split; [done |]. by exists c, v.
      * by rewrite lookup_insert_ne in Hq'.
  - apply (same_views_trans _ s1); [done |]. split; [done |].
    intros p' c' v' Hb' Hc' Hbv'. unfold varview. simpl. rewrite Ht, K4. destruct (decide (p = p')) as [<- | Hne].
    + rewrite lookup_insert_eq, Hnone. simpl. unfold var_at.
      rewrite Hc, Hbv, (si_base _ Hv1), Hc0, Hb0 by done. congruence.
    + by rewrite lookup_insert_ne.
Qed.

(** Creating and seeding the cell. *)
Lemma seed_var s p c0 v0 (K : Z -> SH Z) Q :
  sinv s -> is_base p = true -> snap !! p = Some c0 -> body c0 = BVarRef v0 ->
  (forall s', kept rng s s' -> Q 0 s') ->
  (forall q s' c v, q <> 0 -> kept rng s s' -> fresh rng (sh_heap s) q -> sh_heap s' !! q = Some c -> body c = BVarRef v ->
     pvalue v = None -> value v = value v0 -> swp (K q) Q s') ->
  swp (let^ x := js_create_var_ref in
       if x =? 0 then sret 0
       else let^ y := deref_var p in js_dup y ;^ assign_var x y ;^ K x) Q s.
Proof.
  intros Hv Hb Hc0 Hb0 Hnull Hok. destruct (snap_var s p c0 v0 Hv Hb Hc0 Hb0) as [Hp [Hpv Hbase]].
  swp_step. unfold js_create_var_ref. eapply swp_mono; [apply (js_malloc_spec rng), (si_ranges _ Hv) |].
  intros q s1 [Hk [[-> _] | [Hf E]]]; [swp_steps; by apply Hnull |].
  destruct (Z.eqb_spec q 0) as [-> | Hqz]; [destruct Hf; lia |]. pose proof Hk as [K1 K2 K3 K4 K5 K6].
  assert (Hp1 : sh_heap s1 !! p = Some c0) by (by rewrite K6).
  swp_step. unfold deref_var, load_var_ref, load. swp_steps. apply (swp_deref _ c0); [done |]. rewrite Hb0.
  swp_steps. rewrite Hpv. swp_steps.
  assert (Hdup : forall Q', Q' tt s1 -> swp (js_dup (value v0)) Q' s1).
  { intros Q' HQ. destruct (value v0) as [| z | a]; simpl in *; [done | done |].
    unfold arena_rc_inc, ptr_is_base. swp_steps. rewrite K1, Hbase. done. }
  eassert (Hq1 : sh_heap s1 !! q = Some _) by (rewrite E; apply lookup_insert_eq).
  apply Hdup. swp_step. unfold assign_var, load_var_ref, load. swp_step.
  eapply swp_deref; [exact Hq1 |]. swp_steps.
  eapply swp_deref; [exact Hq1 |]. simpl. swp_steps.
  unfold store, set_body. simpl. swp_steps. eapply (Hok q _ _ _ Hqz); [| done | simpl; apply lookup_insert_eq | done | done | done].
  destruct Hf as (Hf1 & Hf2 & Hf3). split; try done; simpl; [by apply insert_subseteq_r |].
  intros a Ha. rewrite lookup_insert_ne by congruence. by apply K6.
Qed.

Lemma var_for_write_spec s p c0 v0 :
  sinv s -> is_base p = true -> snap !! p = Some c0 -> body c0 = BVarRef v0 -> count_of s < 2 ^ 30 ->
  swp (js_var_ref_for_write p) (fun q s' => sinv s' /\ same_views s s' /\ count_of s' <= count_of s + 1 /\
    (q = 0 \/ shadows (varref_tab s') !! p = Some q)) s.
Proof.
  intros Hv Hb Hc0 Hb0 Hcnt. pose proof (si_wf _ Hv) as [W1 W2].
  assert (Hpz : p <> 0) by (intros ->; destruct Hsnap; congruence).
  unfold js_var_ref_for_write, ptr_is_base. swp_steps. rewrite (si_ranges _ Hv), (si_arena _ Hv), Hb. simpl. swp_step.
  unfold js_var_ref_shadow_lookup. swp_steps. eapply swp_lift; [by apply shadow_lookup_spec |].
  destruct (shadows (varref_tab s) !! p) as [q |] eqn:E; simpl.
  { destruct (si_var _ Hv p q E) as (_ & Hqz & _). destruct (Z.eqb_spec q 0); [done |]. simpl. swp_steps.
    split; [done |]. split; [done |]. split; [lia | by right]. }
  swp_steps.
  pose proof (wf_count _ W1) as Hc1. unfold count_of in *.
  enough (Hgo : forall ok s0, s0 = s \/ (exists a, s0 = set_alloc s a) ->
    swp (let^ (rc, t) := slift (js_varref_tab_reserve ok (varref_tab s)) in
      smod (fun s => set_varref_tab s t) ;^
      if rc <? 0 then sret 0
      else
        let^ x := js_create_var_ref in
        if x =? 0 then sret 0
        else
          let^ y := deref_var p in
          js_dup y ;^
          assign_var x y ;^
          let^ t := sget varref_tab in
          let^ t := slift (js_varref_tab_put t p x) in
          smod (fun st => set_varref_tab st t) ;^
          sret x) (fun q s' => sinv s' /\ same_views s s' /\
      st_count (shadow_tab s') + st_count (varref_tab s') <= st_count (shadow_tab s) + st_count (varref_tab s) + 1 /\
      (q = 0 \/ shadows (varref_tab s') !! p = Some q)) s0)
    by (apply tab_alloc_spec; intros; apply Hgo; eauto).
  intros ok s0 Hs0.
  assert (H0 : sh_ranges s0 = rng /\ is_arena s0 = true /\ sh_heap s0 = sh_heap s /\ shadow_tab s0 = shadow_tab s)
    by (destruct Hs0 as [-> | [a ->]]; (split; [apply Hv | split; [apply Hv | done]])).
  destruct H0 as (R0 & A0 & E0 & F0). swp_step.
  assert (Hset : forall t, wf_shadow t -> shadows t = shadows (varref_tab s) ->
    sinv (set_varref_tab s0 t) /\ same_views s (set_varref_tab s0 t)).
  { intros t Hw Ht. apply sinv_tabs; try done; simpl; by rewrite F0. }
  unfold js_varref_tab_reserve.
  destruct (shadow_reserve_spec ok (varref_tab s) W2 ltac:(lia)) as [[Er _] | (t & Er & Wt & Et & Ct & Rt)].
  { eapply swp_lift; [exact Er |]. swp_steps. destruct (Hset (varref_tab s) W2 eq_refl) as [H1 H2].
    split; [done |]. split; [done |]. simpl. rewrite F0. split; [lia | by left]. }
  eapply swp_lift; [exact Er |]. simpl. swp_step. swp_step. destruct (Hset t Wt Et) as [H1 H2].
  set (s1 := set_varref_tab s0 t) in *. eapply (seed_var s1 p c0 v0); try done.
  - intros s2 Hk. destruct (sinv_ext s1 s2 H1 Hk) as (H3 & H4 & _). pose proof Hk as [K1 K2 K3 K4 K5 K6].
    split; [done |]. split; [by eapply same_views_trans |]. rewrite K3, K4. simpl. rewrite F0. split; [lia | by left].
  - intros q s2 c v Hqz Hk Hf Hq Hbv Hpv Hval. pose proof Hk as [K1 K2 K3 K4 K5 K6]. swp_steps.
    destruct (shadow_insert_spec t p q Wt ltac:(lia) ltac:(lia) Hpz) as (t' & Ei & Wt' & Et' & Ct'); [by rewrite Et |].
    eapply swp_lift; [rewrite K4; exact Ei |]. swp_steps.
    destruct (sinv_add_var s1 s2 t' p q c0 v0 c v H1 Hk Hb Hc0 Hb0 Hf Hq Hbv Hpv Hval) as [H5 H6];
      [simpl; by rewrite Et | done | done |].
    split; [done |]. split; [by eapply same_views_trans |]. simpl. rewrite K3, Et'. simpl. rewrite F0.
    split; [lia | right; apply lookup_insert_eq].
Qed.

(** ** Writing private memory *)

(** A leaf block replaced by one of its kind. *)
Definition leaf_update (b b' : block) : Prop :=
  match b, b' with
  | BValues _, BValues _ | BArrayIterator _ _ _, BArrayIterator _ _ _ => True
  | BVarRef v, BVarRef v' => pvalue v = None /\ pvalue v' = None
  | _, _ => False
  end.

Lemma leaf_object_at (h : heap) a c c' x :
  h !! a = Some c -> leaf_update (body c) (body c') -> object_at (<[a := c']> h) x = object_at h x.
Proof.
  intros Ha Hl. unfold object_at. destruct (decide (a = x)) as [<- | Hne]; [| by rewrite lookup_insert_ne].
  rewrite lookup_insert_eq, Ha. unfold leaf_update in Hl. by destruct (body c), (body c').
Qed.

Lemma leaf_owned (h : heap) a c c' o :
  h !! a = Some c -> leaf_update (body c) (body c') -> owned (<[a := c']> h) o = owned h o.
Proof.
  intros Ha Hl. unfold owned. do 2 f_equal. unfold state_owned. destruct (state_ptr o =? 0); [done |]. f_equal.
  destruct (decide (a = state_ptr o)) as [<- | Hne]; [| by rewrite lookup_insert_ne].
  rewrite lookup_insert_eq, Ha. unfold leaf_update in Hl. by destruct (body c), (body c').
Qed.

Lemma store_private s k a c c' :
  sinv s -> a ∈ foot s k -> sh_heap s !! a = Some c -> leaf_update (body c) (body c') ->
  let s' := set_heap s (<[a := c']> (sh_heap s)) in
  sinv s' /\
  (forall p o, is_base p = true -> object_at snap p = Some o -> k <> KObj p -> objview s' p = objview s p) /\
  (forall p c0 v, is_base p = true -> snap !! p = Some c0 -> body c0 = BVarRef v -> k <> KVar p ->
     varview s' p = varview s p).
Proof.
  intros Hv Ha Hc Hl s'. pose proof Hv as [V1 V2 V3 V4 V5 V6 V7 V8 V9].
  destruct (V5 k a Ha) as [Hab _].
  assert (Hf : forall k', foot s' k' = foot s k').
  { intros [p | p]; simpl; [| done]. destruct (shadows (shadow_tab s) !! p) as [q |]; [| done]. unfold obj_foot.
    rewrite (leaf_object_at _ a c c') by done. destruct (object_at (sh_heap s) q); [| done].
    by rewrite (leaf_owned _ a c c'). }
  split; [| split].
  - split; try done; simpl.
    + intros x Hx. rewrite lookup_insert_ne by congruence. by apply V3.
    + intros k' x. rewrite Hf. intros Hx. destruct (V5 k' x Hx) as [H1 H2]. split; [done |].
      destruct (decide (a = x)) as [<- | Hne]; [by rewrite lookup_insert_eq | by rewrite lookup_insert_ne].
    + intros k'. rewrite Hf. apply V6.
    + intros k1 k2 x. rewrite !Hf. apply V7.
    + intros p q Hq. rewrite (leaf_object_at _ a c c') by done. by apply V8.
    + intros p q Hq. destruct (V9 p q Hq) as (H1 & H2 & cq & v & Hcq & Hbv & Hpv). split; [done |]. split; [done |].
      destruct (decide (a = q)) as [<- | Hne]; [| exists cq, v; by rewrite lookup_insert_ne].
      rewrite lookup_insert_eq. rewrite Hc in Hcq. injection Hcq as <-. rewrite Hbv in Hl. simpl in Hl.
      destruct (body c') as [| | | | | | | | | v'] eqn:Eb; try done. exists c', v'. by destruct Hl.
  - intros p o Hb Ho Hne. unfold objview. simpl. rewrite (leaf_object_at _ a c c') by done.
    destruct (shadows (shadow_tab s) !! p) as [q |] eqn:E; simpl.
    + destruct (object_at (sh_heap s) q) as [oq |] eqn:Eq; [| done]. simpl. f_equal. apply view_frame.
      intros x Hx. rewrite lookup_insert_ne; [done |]. intros ->. apply Hne. apply (V7 k (KObj p) x); [done |].
      simpl. rewrite E. unfold obj_foot. rewrite Eq. by right.
    + destruct (snap_object s p o Hv Hb Ho) as (-> & Hok & _). simpl. f_equal. apply view_frame. intros x Hx.
      rewrite lookup_insert_ne; [done |]. intros ->. pose proof (base_owned _ _ _ Hok Hx). congruence.
  - intros p c0 v Hb Hc0 Hbv Hne. unfold varview, var_at. simpl.
    rewrite lookup_insert_ne; [done |]. intros ->. destruct (shadows (varref_tab s) !! p) as [q |] eqn:E; simpl in *.
    + apply Hne. apply (V7 k (KVar p) q); [done |]. simpl. rewrite E. left.
    + congruence.
Qed.
End invariant.
