(* ===== verification/ShadowTheorems.v ===== *)
(** * Requests over a frozen snapshot

    Engine operations on snapshot objects and closure cells, written with the
    chokepoints of [Shadow], against their specification: a private copy of
    the snapshot per request.  [ToyAlloc] instantiates the allocator. *)

From stdpp Require Import base list numbers gmap.
From Stdlib Require Import ZArith Lia.
From S2P Require Import Prelude StateRun ProbeTable ShadowTable BaseRanges Shadow ShadowProofs ShadowInvariant.

#[local] Open Scope st_scope.

(** ** Operations *)

Inductive sop :=
  | GetProp (p i : Z)
  | SetProp (p i : Z) (v : JSValue)
  | GetElem (p i : Z)
  | SetElem (p i : Z) (v : JSValue)
  | NextIdx (p : Z)
  | GetVar (p : Z)
  | SetVar (p : Z) (v : JSValue).

Section ops.
Context `{RA : ReqAlloc}.
Abbreviation SH := (ST shadow_state).

Definition load_values (a : Z) : SH (list JSValue) :=
  let^ c := load a in match body c with BValues l => sret l | _ => sabort end.

Definition store_value (a i : Z) (v : JSValue) : SH unit :=
  let^ c := load a in
  match body c with BValues l => store a (set_body c (BValues (setZ i v l))) | _ => sabort end.

(** Element storage of a fast array. *)
Definition array_values (o : JSObject) : SH Z :=
  match u o with UArray _ v _ => sret v | UOpaque _ => sabort end.

(** [None] is the NULL of a failed copy; the array iterator's step is the
    cursor advance of [js_array_iterator_next]. *)
Definition do_sop (c : sop) : SH (option JSValue) :=
  match c with
  | GetProp p i =>
      let^ q := js_object_active p in
      let^ o := load_object q in
      let^ l := load_values (prop o) in
      sret (Some (nthZ JS_UNDEFINED l i))
  | SetProp p i v =>
      let^ q := js_object_for_write p in
      if q =? 0 then sret None
      else
        let^ o := load_object q in
        store_value (prop o) i v ;^
        sret (Some JS_UNDEFINED)
  | GetElem p i =>
      let^ q := js_object_active p in
      let^ o := load_object q in
      let^ a := array_values o in
      let^ l := load_values a in
      sret (Some (nthZ JS_UNDEFINED l i))
  | SetElem p i v =>
      let^ q := js_object_for_write p in
      if q =? 0 then sret None
      else
        let^ o := load_object q in
        let^ a := array_values o in
        store_value a i v ;^
        sret (Some JS_UNDEFINED)
  | NextIdx p =>
      let^ it := JS_GetOpaqueForWrite p JS_CLASS_ARRAY_ITERATOR in
      if it =? 0 then sret None
      else
        let^ c := load it in
        match body c with
        | BArrayIterator obj kind idx =>
            store it (set_body c (BArrayIterator obj kind (u32 (idx + 1)))) ;^
            sret (Some (JImm idx))
        | _ => sabort
        end
  | GetVar p =>
      let^ q := js_var_ref_active p in
      let^ x := deref_var q in
      sret (Some x)
  | SetVar p v =>
      let^ q := js_var_ref_for_write p in
      if q =? 0 then sret None
      else assign_var q v ;^ sret (Some JS_UNDEFINED)
  end.

Fixpoint run_sops (l : list sop) : SH (list (option JSValue)) :=
  match l with
  | [] => sret []
  | c :: l =>
      let^ r := do_sop c in
      let^ rs := run_sops l in
      sret (r :: rs)
  end.

(** Between requests the arena reset drops request memory and
    [JS_RelocateReqState] clears both tables. *)
Definition begin_request (s : shadow_state) : shadow_state :=
  {| sh_heap := filter (fun ac => js_arena_ptr_is_base (sh_ranges s) ac.1 = true) (sh_heap s);
     sh_ranges := sh_ranges s; is_arena := is_arena s;
     shadow_tab := shadow_table_init; varref_tab := shadow_table_init; sh_alloc := sh_alloc s |}.

Fixpoint run_requests (l : list (list sop)) : SH (list (list (option JSValue))) :=
  match l with
  | [] => sret []
  | r :: l =>
      smod begin_request ;^
      let^ rs := run_sops r in
      let^ rest := run_requests l in
      sret (rs :: rest)
  end.
End ops.

(** ** Specification: a private copy of the snapshot *)

Record mirror := { m_obj : Z -> option oview; m_var : Z -> option JSValue }.

Definition set_props (V : oview) (l : list JSValue) : oview := View (v_class V) l (v_elems V) (v_state V).
Definition set_elems (V : oview) (l : list JSValue) : oview := View (v_class V) (v_props V) l (v_state V).

(** The advanced cursor. *)
Definition step_state (V : oview) : oview :=
  match v_state V with
  | Some (BArrayIterator obj kind idx, rs) =>
      View (v_class V) (v_props V) (v_elems V) (Some (BArrayIterator obj kind (u32 (idx + 1)), rs))
  | _ => V
  end.

Definition m_update (m : mirror) (p : Z) (f : oview -> oview) : mirror :=
  {| m_obj := fun x => if x =? p then f <$> m_obj m x else m_obj m x; m_var := m_var m |}.

(** The mirror after an operation that succeeded. *)
Definition m_next (m : mirror) (c : sop) : mirror :=
  match c with
  | SetProp p i v => m_update m p (fun V => set_props V (setZ i v (v_props V)))
  | SetElem p i v => m_update m p (fun V => set_elems V (setZ i v (v_elems V)))
  | NextIdx p => m_update m p step_state
  | SetVar p v => {| m_obj := m_obj m; m_var := fun x => if x =? p then Some v else m_var m x |}
  | _ => m
  end.

(** What an operation that succeeded returns. *)
Definition m_result (m : mirror) (c : sop) : option JSValue :=
  match c with
  | GetProp p i => (fun V => nthZ JS_UNDEFINED (v_props V) i) <$> m_obj m p
  | GetElem p i => (fun V => nthZ JS_UNDEFINED (v_elems V) i) <$> m_obj m p
  | NextIdx p =>
      V ← m_obj m p;
      match v_state V with Some (BArrayIterator _ _ idx, _) => Some (JImm idx) | _ => None end
  | GetVar p => m_var m p
  | _ => Some JS_UNDEFINED
  end.

Definition is_read (c : sop) : bool := match c with GetProp _ _ | GetElem _ _ | GetVar _ => true | _ => false end.

(** Reads return the mirror's contents; writes either fail and change nothing
    or do what they do to the mirror. *)
Fixpoint m_run (m : mirror) (l : list sop) (rs : list (option JSValue)) : Prop :=
  match l, rs with
  | [], [] => True
  | c :: l, r :: rs =>
      (r = None /\ is_read c = false /\ m_run m l rs) \/
      (r <> None /\ r = m_result m c /\ m_run (m_next m c) l rs)
  | _, _ => False
  end.

(** The snapshot's own contents. *)
Definition snap_mirror (rng : base_ranges) (snap : heap) : mirror :=
  {| m_obj := fun p => if js_arena_ptr_is_base rng p then view snap <$> object_at snap p else None;
     m_var := fun p => if js_arena_ptr_is_base rng p then var_at snap p else None |}.

Definition sop_legal (m : mirror) (c : sop) : Prop :=
  match c with
  | GetProp p i | SetProp p i _ => exists V, m_obj m p = Some V /\ 0 <= i < lenZ (v_props V)
  | GetElem p i | SetElem p i _ => exists V, m_obj m p = Some V /\ 0 <= i < lenZ (v_elems V)
  | NextIdx p => exists V obj kind idx rs, m_obj m p = Some V /\ v_class V = JS_CLASS_ARRAY_ITERATOR /\
      v_state V = Some (BArrayIterator obj kind idx, rs)
  | GetVar p | SetVar p _ => is_Some (m_var m p)
  end.

(** ** Views of written objects *)

Lemma values_inv h a i : 0 <= i < lenZ (values_at h a) -> exists c, h !! a = Some c /\ body c = BValues (values_at h a).
Proof.
  unfold values_at. destruct (h !! a) as [c |]; [| unfold lenZ; simpl; lia].
  destruct (body c) eqn:E; try (unfold lenZ; simpl; lia). intros _. by exists c.
Qed.

Lemma props_inv h o i : 0 <= i < lenZ (props_of h o) ->
  prop o <> 0 /\ exists c, h !! prop o = Some c /\ body c = BValues (props_of h o).
Proof.
  unfold props_of. destruct (Z.eqb_spec (prop o) 0) as [_ | Hz]; [unfold lenZ; simpl; lia |].
  intros Hi. split; [done |]. by eapply values_inv.
Qed.

Lemma elems_inv h o i : 0 <= i < lenZ (elems_of h o) ->
  elems_ptr o <> 0 /\ (exists sz n, u o = UArray sz (elems_ptr o) n) /\
  exists c, h !! elems_ptr o = Some c /\ body c = BValues (elems_of h o).
Proof.
  unfold elems_of. destruct (Z.eqb_spec (elems_ptr o) 0) as [_ | Hz]; [unfold lenZ; simpl; lia |].
  intros Hi. split; [done |]. split; [| by eapply values_inv].
  unfold elems_ptr in *. destruct (is_value_array o); [| done]. destruct (u o) as [sz v n |]; [| done].
  destruct (Z.ltb_spec 0 n); [| done]. by exists sz, n.
Qed.

Lemma state_frame (h : heap) a c o :
  ~ (a ∈ state_owned h o) -> state_of (<[a := c]> h) o = state_of h o.
Proof. intros Ha. apply state_owned_frame. intros x Hx. rewrite lookup_insert_ne; [done |]. by intros ->. Qed.

Lemma view_set_props h o c l' :
  NoDup (owned h o) -> prop o <> 0 -> h !! prop o = Some c ->
  view (<[prop o := set_body c (BValues l')]> h) o = set_props (view h o) l'.
Proof.
  unfold owned. intros Hnd Hz Hc. apply NoDup_app in Hnd as (_ & Hd & _).
  assert (Hp : prop o ∈ nz (prop o)) by (by apply elem_nz). specialize (Hd _ Hp). rewrite elem_of_app in Hd.
  unfold view, set_props. simpl. f_equal.
  - unfold props_of, values_at. destruct (Z.eqb_spec (prop o) 0); [done |]. by rewrite lookup_insert_eq.
  - unfold elems_of, values_at. destruct (Z.eqb_spec (elems_ptr o) 0) as [| He]; [done |].
    rewrite lookup_insert_ne; [done |]. intros E. apply Hd. left. by apply elem_nz.
  - apply state_frame. auto.
Qed.

Lemma view_set_elems h o c l' :
  NoDup (owned h o) -> elems_ptr o <> 0 -> h !! elems_ptr o = Some c ->
  view (<[elems_ptr o := set_body c (BValues l')]> h) o = set_elems (view h o) l'.
Proof.
  unfold owned. intros Hnd Hz Hc. apply NoDup_app in Hnd as (_ & Hd1 & Hnd). apply NoDup_app in Hnd as (_ & Hd2 & _).
  assert (He : elems_ptr o ∈ nz (elems_ptr o)) by (by apply elem_nz).
  unfold view, set_elems. simpl. f_equal.
  - unfold props_of, values_at. destruct (Z.eqb_spec (prop o) 0) as [| Hp]; [done |].
    rewrite lookup_insert_ne; [done |]. intros E. apply (Hd1 (prop o)); [by apply elem_nz |].
    rewrite elem_of_app. left. by apply elem_nz.
  - unfold elems_of, values_at. destruct (Z.eqb_spec (elems_ptr o) 0); [done |]. by rewrite lookup_insert_eq.
  - apply state_frame. auto.
Qed.

Lemma view_step h o c obj kind idx :
  NoDup (owned h o) -> state_ptr o <> 0 -> h !! state_ptr o = Some c -> body c = BArrayIterator obj kind idx ->
  view (<[state_ptr o := set_body c (BArrayIterator obj kind (u32 (idx + 1)))]> h) o = step_state (view h o).
Proof.
  unfold owned. intros Hnd Hz Hc Hb. rewrite app_assoc in Hnd. apply NoDup_app in Hnd as (_ & Hd & _).
  assert (Hs : state_ptr o ∈ state_owned h o) by (unfold state_owned; destruct (Z.eqb_spec (state_ptr o) 0); [done | left]).
  assert (Hs' : state_of h o = Some (BArrayIterator obj kind idx, [])).
  { unfold state_of. destruct (Z.eqb_spec (state_ptr o) 0); [done |]. rewrite Hc. simpl. unfold abstract_state.
    by rewrite Hb. }
  unfold step_state, view. simpl. rewrite Hs'. f_equal.
  - unfold props_of, values_at. destruct (Z.eqb_spec (prop o) 0) as [| Hp]; [done |].
    rewrite lookup_insert_ne; [done |]. intros E. apply (Hd (prop o)); [| congruence].
    rewrite elem_of_app. left. by apply elem_nz.
  - unfold elems_of, values_at. destruct (Z.eqb_spec (elems_ptr o) 0) as [| Hp]; [done |].
    rewrite lookup_insert_ne; [done |]. intros E. apply (Hd (elems_ptr o)); [| congruence].
    rewrite elem_of_app. right. by apply elem_nz.
  - unfold state_of. destruct (Z.eqb_spec (state_ptr o) 0); [done |]. rewrite lookup_insert_eq. done.
Qed.

Section refinement.
Context `{RA : ReqAlloc} (rng : base_ranges) `{RL : !ReqAllocLaws rng} (snap : heap).
Hypothesis Hsnap : snapshot_ok rng snap.

Abbreviation is_base a := (js_arena_ptr_is_base rng a).

(** The state shows what the mirror holds. *)
Record mirrors (m : mirror) (s : shadow_state) : Prop := {
  mi_inv : sinv rng snap s;
  mi_obj : forall p V, m_obj m p = Some V ->
    is_base p = true /\ (exists b, object_at snap p = Some b /\ v_class V = class_id b) /\ objview s p = Some V;
  mi_var : forall p x, m_var m p = Some x ->
    is_base p = true /\ (exists c v, snap !! p = Some c /\ body c = BVarRef v) /\ varview s p = Some x
}.

Lemma mirrors_same m s s' : mirrors m s -> sinv rng snap s' -> same_views rng snap s s' -> mirrors m s'.
Proof.
  intros [M1 M2 M3] Hv [E1 E2]. split; [done | |].
  - intros p V Hp. destruct (M2 p V Hp) as (H1 & (o & Ho & Hcl) & H3). rewrite (E1 p o) by done. eauto.
  - intros p x Hp. destruct (M3 p x Hp) as (H1 & (c & v & H2 & H4) & H3). rewrite (E2 p c v) by done. eauto.
Qed.

(** The redirected pointer. *)
Lemma active_spec s p Q :
  sinv rng snap s -> is_base p = true -> Q (default p (shadows (shadow_tab s) !! p)) s -> swp (js_object_active p) Q s.
Proof.
  intros Hv Hb HQ. assert (Hpz : p <> 0) by (intros ->; destruct Hsnap; congruence).
  unfold js_object_active, ptr_is_base. swp_steps. rewrite (si_ranges _ _ _ Hv), (si_arena _ _ _ Hv), Hb. simpl. swp_step.
  unfold js_object_shadow_lookup. swp_steps. eapply swp_lift; [apply shadow_lookup_spec; [apply Hv | done] |]. swp_step.
  destruct (shadows (shadow_tab s) !! p) as [q |] eqn:E; simpl in *; [| done].
  destruct (si_obj _ _ _ Hv p q E) as (_ & Hqz & _). by destruct (Z.eqb_spec q 0).
Qed.

Lemma var_active_spec s p Q :
  sinv rng snap s -> is_base p = true -> Q (default p (shadows (varref_tab s) !! p)) s -> swp (js_var_ref_active p) Q s.
Proof.
  intros Hv Hb HQ. assert (Hpz : p <> 0) by (intros ->; destruct Hsnap; congruence).
  unfold js_var_ref_active, ptr_is_base. swp_steps. rewrite (si_ranges _ _ _ Hv), (si_arena _ _ _ Hv), Hb. simpl. swp_step.
  unfold js_var_ref_shadow_lookup. swp_steps. eapply swp_lift; [apply shadow_lookup_spec; [apply Hv | done] |]. swp_step.
  destruct (shadows (varref_tab s) !! p) as [q |] eqn:E; simpl in *; [| done].
  destruct (si_var _ _ _ Hv p q E) as (_ & Hqz & _). by destruct (Z.eqb_spec q 0).
Qed.

Lemma load_object_spec s q o Q : object_at (sh_heap s) q = Some o -> Q o s -> swp (load_object q) Q s.
Proof.
  intros Ho HQ. unfold load_object, load. swp_step. unfold object_at in Ho.
  destruct (sh_heap s !! q) as [c |] eqn:E; [| done]. apply (swp_deref _ c); [done |].
  destruct (body c); simplify_eq. done.
Qed.

Lemma load_values_spec s a c l Q : sh_heap s !! a = Some c -> body c = BValues l -> Q l s -> swp (load_values a) Q s.
Proof. intros Hc Hb HQ. unfold load_values, load. swp_step. apply (swp_deref _ c); [done |]. by rewrite Hb. Qed.

Lemma store_value_spec s a i v c l Q :
  sh_heap s !! a = Some c -> body c = BValues l ->
  Q tt (set_heap s (<[a := set_body c (BValues (setZ i v l))]> (sh_heap s))) -> swp (store_value a i v) Q s.
Proof. intros Hc Hb HQ. unfold store_value, load. swp_step. apply (swp_deref _ c); [done |]. by rewrite Hb. Qed.

(** The object a view was taken of. *)
Lemma objview_inv s p V : objview s p = Some V ->
  exists o, object_at (sh_heap s) (default p (shadows (shadow_tab s) !! p)) = Some o /\ V = view (sh_heap s) o.
Proof. unfold objview. destruct (object_at _ _) as [o |]; [| done]. intros [= <-]. by exists o. Qed.

(** After a write to memory a shadow owns, the mirror of that object only
    changes. *)
Lemma mirrors_obj_write m s p q o a c b' f :
  mirrors m s -> shadows (shadow_tab s) !! p = Some q -> object_at (sh_heap s) q = Some o ->
  a ∈ owned (sh_heap s) o -> sh_heap s !! a = Some c -> leaf_update (body c) b' ->
  view (<[a := set_body c b']> (sh_heap s)) o = f (view (sh_heap s) o) ->
  mirrors (m_update m p f) (set_heap s (<[a := set_body c b']> (sh_heap s))).
Proof.
  intros [M1 M2 M3] Hq Ho Ha Hc Hl Hf.
  destruct (store_private rng snap Hsnap s (KObj p) a c (set_body c b') M1) as (H1 & H2 & H3); try done.
  { simpl. rewrite Hq. unfold obj_foot. rewrite Ho. by right. }
  split; [done | |].
  - intros p' V Hp'. simpl in Hp'. destruct (Z.eqb_spec p' p) as [-> | Hne].
    + destruct (m_obj m p) as [V0 |] eqn:E; [| done]. simpl in Hp'. injection Hp' as <-.
      destruct (M2 p V0 E) as (B1 & (b0 & B2 & Bc) & B3). unfold objview in *. simpl.
      rewrite Hq in *. simpl in *. rewrite (leaf_object_at _ a c) by done. rewrite Ho in *. simpl in *.
      injection B3 as <-. rewrite <- Hf. split; [done |]. split; [by exists b0 | done].
    + destruct (M2 p' V Hp') as (B1 & (o' & B2 & Bc) & B3). split; [done |]. split; [eauto |].
      rewrite (H2 p' o'); [done | done | done | congruence].
  - intros p' x Hp'. destruct (M3 p' x Hp') as (B1 & (c0 & v0 & B2 & B4) & B3). split; [done |]. split; [eauto |].
    rewrite (H3 p' c0 v0); done.
Qed.

Definition sop_post (m : mirror) (c : sop) (s : shadow_state) (r : option JSValue) (s' : shadow_state) : Prop :=
  count_of s' <= count_of s + 1 /\
  ((r = None /\ is_read c = false /\ mirrors m s') \/
   (r <> None /\ r = m_result m c /\ mirrors (m_next m c) s')).

Lemma read_done m c s x : mirrors m s -> Some x = m_result m c -> m_next m c = m -> sop_post m c s (Some x) s.
Proof. intros Hm Hr Hn. split; [lia |]. right. split; [done |]. split; [done |]. by rewrite Hn. Qed.

Lemma get_prop_spec m s p i :
  mirrors m s -> sop_legal m (GetProp p i) -> swp (do_sop (GetProp p i)) (sop_post m (GetProp p i) s) s.
Proof.
  intros Hm (V & HV & Hi). destruct (mi_obj _ _ Hm p V HV) as (Hb & _ & Hview).
  destruct (objview_inv s p V Hview) as (o & Ho & ->). simpl in Hi.
  destruct (props_inv _ _ _ Hi) as (_ & c & Hc & Hbc). simpl do_sop. swp_step.
  apply active_spec; [apply Hm | done |]. swp_step. eapply load_object_spec; [exact Ho |]. swp_step.
  eapply load_values_spec; [exact Hc | exact Hbc |]. swp_steps. apply read_done; [done | | done].
  simpl. by rewrite HV.
Qed.

Lemma get_elem_spec m s p i :
  mirrors m s -> sop_legal m (GetElem p i) -> swp (do_sop (GetElem p i)) (sop_post m (GetElem p i) s) s.
Proof.
  intros Hm (V & HV & Hi). destruct (mi_obj _ _ Hm p V HV) as (Hb & _ & Hview).
  destruct (objview_inv s p V Hview) as (o & Ho & ->). simpl in Hi.
  destruct (elems_inv _ _ _ Hi) as (_ & (sz & n & Hu) & c & Hc & Hbc). simpl do_sop. swp_step.
  apply active_spec; [apply Hm | done |]. swp_step. eapply load_object_spec; [exact Ho |]. swp_step.
  unfold array_values. rewrite Hu. swp_steps.
  eapply load_values_spec; [exact Hc | exact Hbc |]. swp_steps. apply read_done; [done | | done].
  simpl. by rewrite HV.
Qed.

(** The shadow [js_object_for_write] returned. *)
Lemma written_object m s p V Q :
  mirrors m s -> m_obj m p = Some V -> count_of s < 2 ^ 30 ->
  (forall s', count_of s' <= count_of s + 1 -> mirrors m s' -> Q 0 s') ->
  (forall q o s', q <> 0 -> count_of s' <= count_of s + 1 -> mirrors m s' -> shadows (shadow_tab s') !! p = Some q ->
     object_at (sh_heap s') q = Some o -> V = view (sh_heap s') o -> NoDup (owned (sh_heap s') o) -> Q q s') ->
  swp (js_object_for_write p) Q s.
Proof.
  intros Hm HV Hcnt Hnull Hok. destruct (mi_obj _ _ Hm p V HV) as (Hb & (b & Hsb & _) & _).
  eapply swp_mono; [by eapply (for_write_spec rng snap Hsnap s p b); [apply Hm | | |] |].
  intros q s' (Hv & Hsv & Hc & Hq). pose proof (mirrors_same m s s' Hm Hv Hsv) as Hm'.
  destruct Hq as [-> | Hq]; [by apply Hnull |].
  destruct (mi_obj _ _ Hm' p V HV) as (_ & _ & Hview). destruct (objview_inv s' p V Hview) as (o & Ho & HVo).
  rewrite Hq in Ho. simpl in Ho. destruct (si_obj _ _ _ Hv p q Hq) as (_ & Hqz & _).
  apply (Hok q o); try done. pose proof (si_nodup _ _ _ Hv (KObj p)) as Hnd. simpl in Hnd. rewrite Hq in Hnd.
  unfold obj_foot in Hnd. rewrite Ho in Hnd. by apply NoDup_cons in Hnd as [_ ?].
Qed.

Lemma set_prop_spec m s p i v :
  mirrors m s -> sop_legal m (SetProp p i v) -> count_of s < 2 ^ 30 ->
  swp (do_sop (SetProp p i v)) (sop_post m (SetProp p i v) s) s.
Proof.
  intros Hm (V & HV & Hi) Hcnt. simpl do_sop. swp_step. eapply written_object; [exact Hm | exact HV | done | |].
  { intros s' Hc Hm'. swp_steps. split; [done |]. by left. }
  intros q o s' Hqz Hc Hm' Hq Ho -> Hnd. simpl in Hi. destruct (props_inv _ _ _ Hi) as (Hpz & c & Hcc & Hbc).
  destruct (Z.eqb_spec q 0); [done |]. swp_step. eapply load_object_spec; [exact Ho |]. swp_step.
  eapply store_value_spec; [exact Hcc | exact Hbc |]. swp_steps. split; [done |]. right. split; [done |]. split; [done |].
  simpl. eapply mirrors_obj_write; try done.
  - unfold owned. rewrite elem_of_app. left. by apply elem_nz.
  - by rewrite Hbc.
  - by apply view_set_props.
Qed.

Lemma set_elem_spec m s p i v :
  mirrors m s -> sop_legal m (SetElem p i v) -> count_of s < 2 ^ 30 ->
  swp (do_sop (SetElem p i v)) (sop_post m (SetElem p i v) s) s.
Proof.
  intros Hm (V & HV & Hi) Hcnt. simpl do_sop. swp_step. eapply written_object; [exact Hm | exact HV | done | |].
  { intros s' Hc Hm'. swp_steps. split; [done |]. by left. }
  intros q o s' Hqz Hc Hm' Hq Ho -> Hnd. simpl in Hi.
  destruct (elems_inv _ _ _ Hi) as (Hez & (sz & n & Hu) & c & Hcc & Hbc).
  destruct (Z.eqb_spec q 0); [done |]. swp_step. eapply load_object_spec; [exact Ho |]. swp_step.
  unfold array_values. rewrite Hu. swp_steps.
  eapply store_value_spec; [exact Hcc | exact Hbc |]. swp_steps. split; [done |]. right. split; [done |]. split; [done |].
  simpl. eapply mirrors_obj_write; try done.
  - unfold owned. rewrite !elem_of_app. right; left. by apply elem_nz.
  - by rewrite Hbc.
  - by apply view_set_elems.
Qed.

(** The state block of an array iterator. *)
Lemma iter_inv h o obj kind idx rs :
  class_id o = JS_CLASS_ARRAY_ITERATOR -> state_of h o = Some (BArrayIterator obj kind idx, rs) ->
  u o = UOpaque (state_ptr o) /\ state_ptr o <> 0 /\
  exists c, h !! state_ptr o = Some c /\ body c = BArrayIterator obj kind idx.
Proof.
  intros Hcl Hs. unfold state_of in Hs. destruct (Z.eqb_spec (state_ptr o) 0) as [_ | Hz]; [done |].
  destruct (h !! state_ptr o) as [c |] eqn:E; [| done]. simpl in Hs. unfold abstract_state in Hs.
  split; [unfold state_ptr in *; rewrite Hcl in *; simpl in *; by destruct (u o) |]. split; [done |].
  exists c. split; [done |]. destruct (body c); by simplify_eq.
Qed.

Lemma next_idx_spec m s p :
  mirrors m s -> sop_legal m (NextIdx p) -> count_of s < 2 ^ 30 ->
  swp (do_sop (NextIdx p)) (sop_post m (NextIdx p) s) s.
Proof.
  intros Hm (V & obj & kind & idx & rs & HV & Hcl & Hst) Hcnt. pose proof (mi_inv _ _ Hm) as Hv.
  destruct (mi_obj _ _ Hm p V HV) as (Hb & (b & Hsb & Hclb) & Hview). simpl do_sop. swp_step.
  unfold JS_GetOpaqueForWrite. swp_steps. rewrite (si_arena _ _ _ Hv). simpl. unfold ptr_is_base. swp_steps.
  rewrite (si_ranges _ _ _ Hv), Hb. destruct (snap_object rng snap Hsnap s p b Hv Hb Hsb) as (Hob & Hok & _).
  eapply load_object_spec; [exact Hob |].
  rewrite bool_decide_eq_true_2 by congruence. simpl. swp_step. eapply written_object; [exact Hm | exact HV | done | |].
  { intros s' Hc Hm'. swp_steps. split; [done |]. by left. }
  intros q o s' Hqz Hc Hm' Hq Ho -> Hnd. destruct (Z.eqb_spec q 0); [done |]. swp_step.
  eapply load_object_spec; [exact Ho |]. simpl in Hcl, Hst.
  destruct (iter_inv _ _ _ _ _ _ Hcl Hst) as (Hu & Hz & c & Hcc & Hbc). unfold opaque_of. rewrite Hu. swp_steps.
  destruct (Z.eqb_spec (state_ptr o) 0); [done |]. unfold load. swp_step. apply (swp_deref _ c); [done |]. rewrite Hbc.
  unfold store. swp_steps. split; [done |]. right. split; [done |]. split; [simpl; rewrite HV; simpl; by rewrite Hst |].
  simpl. eapply mirrors_obj_write; try done.
  - unfold owned. rewrite !elem_of_app. right; right. unfold state_owned. destruct (Z.eqb_spec (state_ptr o) 0); [done | left].
  - by rewrite Hbc.
  - by apply view_step.
Qed.

(** The cell behind a mirrored variable. *)
Lemma var_cell m s p x :
  mirrors m s -> m_var m p = Some x ->
  exists c v, sh_heap s !! default p (shadows (varref_tab s) !! p) = Some c /\ body c = BVarRef v /\
    pvalue v = None /\ value v = x.
Proof.
  intros Hm Hx. destruct (mi_var _ _ Hm p x Hx) as (Hb & (c0 & v0 & Hc0 & Hb0) & Hview). pose proof (mi_inv _ _ Hm) as Hv.
  unfold varview, var_at in Hview. destruct (shadows (varref_tab s) !! p) as [q |] eqn:E; simpl in *.
  - destruct (si_var _ _ _ Hv p q E) as (_ & _ & c & v & Hc & Hbv & Hpv). rewrite Hc, Hbv in Hview. exists c, v.
    by simplify_eq.
  - destruct (snap_var rng snap Hsnap s p c0 v0 Hv Hb Hc0 Hb0) as [Hc [Hpv _]]. rewrite Hc, Hb0 in Hview. exists c0, v0.
    by simplify_eq.
Qed.

Lemma get_var_spec m s p :
  mirrors m s -> sop_legal m (GetVar p) -> swp (do_sop (GetVar p)) (sop_post m (GetVar p) s) s.
Proof.
  intros Hm [x Hx]. destruct (mi_var _ _ Hm p x Hx) as (Hb & _). destruct (var_cell m s p x Hm Hx) as (c & v & Hc & Hbv & Hpv & Hval).
  simpl do_sop. swp_step. apply var_active_spec; [apply Hm | done |]. swp_step.
  unfold deref_var, load_var_ref, load. swp_steps. apply (swp_deref _ c); [done |]. rewrite Hbv. swp_steps. rewrite Hpv.
  swp_steps. apply read_done; [done | | done]. simpl. congruence.
Qed.

Lemma set_var_spec m s p x' :
  mirrors m s -> sop_legal m (SetVar p x') -> count_of s < 2 ^ 30 ->
  swp (do_sop (SetVar p x')) (sop_post m (SetVar p x') s) s.
Proof.
  intros Hm [x Hx] Hcnt. destruct (mi_var _ _ Hm p x Hx) as (Hb & (c0 & v0 & Hc0 & Hb0) & _). simpl do_sop. swp_step.
  eapply swp_mono; [by eapply (var_for_write_spec rng snap Hsnap s p c0 v0); [apply Hm | | | |] |].
  intros q s' (Hv & Hsv & Hc & Hq). pose proof (mirrors_same m s s' Hm Hv Hsv) as Hm'.
  destruct Hq as [-> | Hq]; [swp_steps; split; [done |]; by left |].
  destruct (si_var _ _ _ Hv p q Hq) as (_ & Hqz & c & v & Hcc & Hbv & Hpv).
  destruct (Z.eqb_spec q 0); [done |]. swp_step. unfold assign_var, load_var_ref, load. swp_step.
  apply (swp_deref _ c); [done |]. swp_steps. apply (swp_deref _ c); [done |]. rewrite Hbv. swp_steps. rewrite Hpv.
  unfold store. swp_steps. split; [done |]. right. split; [done |]. split; [done |].
  set (c' := set_body c _).
  destruct (store_private rng snap Hsnap s' (KVar p) q c c' Hv) as (H1 & H2 & H3).
  { simpl. rewrite Hq. left. }
  { done. }
  { subst c'. rewrite Hbv. done. }
  split; [done | |].
  - intros p' V HV. destruct (mi_obj _ _ Hm' p' V HV) as (B1 & (b & B2 & Bc) & B3). split; [done |]. split; [eauto |].
    by rewrite (H2 p' b).
  - intros p' y Hy. simpl in Hy. destruct (Z.eqb_spec p' p) as [-> | Hne].
    + injection Hy as <-. split; [done |]. split; [eauto |]. unfold varview, var_at. simpl. rewrite Hq. simpl.
      by rewrite lookup_insert_eq.
    + destruct (mi_var _ _ Hm' p' y Hy) as (B1 & (cb & vb & B2 & B4) & B3). split; [done |]. split; [eauto |].
      rewrite (H3 p' cb vb); [done | done | done | done | congruence].
Qed.

Lemma do_sop_spec m s c :
  mirrors m s -> sop_legal m c -> count_of s < 2 ^ 30 -> swp (do_sop c) (sop_post m c s) s.
Proof.
  destruct c; intros; auto using get_prop_spec, set_prop_spec, get_elem_spec, set_elem_spec, next_idx_spec,
    get_var_spec, set_var_spec.
Qed.
End refinement.

(** ** Legality does not depend on what was written *)

Definition same_shape (V V' : oview) : Prop :=
  lenZ (v_props V') = lenZ (v_props V) /\ lenZ (v_elems V') = lenZ (v_elems V) /\ v_class V' = v_class V /\
  forall obj kind idx rs, v_state V = Some (BArrayIterator obj kind idx, rs) ->
    exists idx', v_state V' = Some (BArrayIterator obj kind idx', rs).

Definition covers (m m' : mirror) : Prop :=
  (forall p V, m_obj m p = Some V -> exists V', m_obj m' p = Some V' /\ same_shape V V') /\
  (forall p, is_Some (m_var m p) -> is_Some (m_var m' p)).

Lemma covers_refl m : covers m m.
Proof. split; [| done]. intros p V HV. exists V. split; [done |]. split; [done |]. split; [done |]. eauto. Qed.

Lemma covers_update m m' p f :
  covers m m' -> (forall V V', same_shape V V' -> same_shape V (f V')) -> covers m (m_update m' p f).
Proof.
  intros [H1 H2] Hf. split; [| done]. intros x V HV. destruct (H1 x V HV) as (V' & HV' & Hs). simpl. rewrite HV'.
  destruct (x =? p); simpl; eauto.
Qed.

Lemma covers_next m m' c : covers m m' -> covers m (m_next m' c).
Proof.
  intros Hc. destruct c; simpl; try done.
  - apply covers_update; [done |]. intros V V' (S1 & S2 & S3 & S4). unfold same_shape. simpl. by rewrite lenZ_setZ.
  - apply covers_update; [done |]. intros V V' (S1 & S2 & S3 & S4). unfold same_shape. simpl. by rewrite lenZ_setZ.
  - apply covers_update; [done |]. intros V V' Hs. pose proof Hs as (S1 & S2 & S3 & S4).
    unfold step_state. destruct (v_state V') as [[b l] |] eqn:E; [| exact Hs].
    destruct b; try exact Hs. split; [done |]. split; [done |].
    split; [done |]. simpl. intros o k i l' Hl. destruct (S4 o k i l' Hl) as [i' E']. simplify_eq. eauto.
  - destruct Hc as [H1 H2]. split; [done |]. intros x Hx. simpl. destruct (x =? p); [done | auto].
Qed.

Lemma covers_legal m m' c : covers m m' -> sop_legal m c -> sop_legal m' c.
Proof.
  intros [H1 H2]. destruct c; simpl; auto;
    try (intros (V & HV & Hi); destruct (H1 p V HV) as (V' & HV' & S1 & S2 & S3 & S4); exists V'; split; [done | lia]).
  intros (V & obj & kind & idx & rs & HV & Hc & Hs). destruct (H1 p V HV) as (V' & HV' & S1 & S2 & S3 & S4).
  destruct (S4 _ _ _ _ Hs) as [idx' Hs']. exists V', obj, kind, idx', rs. by rewrite S3.
Qed.

Section theorems.
Context `{RA : ReqAlloc} (rng : base_ranges) `{RL : !ReqAllocLaws rng} (snap : heap).

Lemma run_sops_spec l m0 m s :
  snapshot_ok rng snap -> covers m0 m -> mirrors rng snap m s -> Forall (sop_legal m0) l ->
  count_of s + lenZ l <= 2 ^ 30 ->
  swp (run_sops l) (fun rs s' => m_run m l rs /\ sinv rng snap s') s.
Proof.
  intros Hsnap Hc Hm Hl. revert m s Hc Hm. induction Hl as [| c l Hleg Hl IH]; intros m s Hc Hm Hcnt; simpl.
  { swp_steps. split; [done | apply Hm]. }
  unfold lenZ in *. rewrite length_cons in Hcnt. swp_step.
  eapply swp_mono; [apply (do_sop_spec rng snap Hsnap m s c); [done | by eapply covers_legal | lia] |].
  intros r s1 [Hcount Hr]. swp_step. destruct Hr as [(-> & Hrd & Hm1) | (Hr1 & Hr2 & Hm1)].
  - eapply swp_mono; [apply (IH m s1); [done | done | lia] |]. intros rs s2 [H1 H2]. swp_steps. split; [| done].
    left. done.
  - eapply swp_mono; [apply (IH (m_next m c) s1); [by apply covers_next | done | lia] |].
    intros rs s2 [H1 H2]. swp_steps. split; [| done]. right. done.
Qed.

(** A request begins on the snapshot. *)
Lemma begin_mirrors s :
  snapshot_ok rng snap -> sh_ranges s = rng -> is_arena s = true ->
  (forall a, js_arena_ptr_is_base rng a = true -> sh_heap s !! a = snap !! a) ->
  mirrors rng snap (snap_mirror rng snap) (begin_request s).
Proof.
  intros Hsnap Hr Ha Hb.
  assert (Hbase : forall a, js_arena_ptr_is_base rng a = true -> sh_heap (begin_request s) !! a = snap !! a).
  { intros a Hab. simpl. rewrite Hr. destruct (snap !! a) as [c |] eqn:E.
    - apply map_lookup_filter_Some. split; [by rewrite Hb | done].
    - apply map_lookup_filter_None. left. by rewrite Hb. }
  assert (Hv : sinv rng snap (begin_request s)).
  { split; try done; simpl.
    - intros [p | p] a; simpl; by intros ?%not_elem_of_nil.
    - intros [p | p]; simpl; constructor.
    - intros [p | p] k' a; simpl; by intros ?%not_elem_of_nil. }
  split; [done | |].
  - intros p V. simpl. destruct (js_arena_ptr_is_base rng p) eqn:E; [| done].
    destruct (object_at snap p) as [o |] eqn:Eo; [| done]. simpl. intros [= <-]. split; [done |]. split; [by exists o |].
    destruct (snap_object rng snap Hsnap _ p o Hv E Eo) as (E1 & _ & E3). unfold objview.
    change (default p (shadows (shadow_tab (begin_request s)) !! p)) with p. rewrite E1. cbn [fmap option_fmap option_map].
    f_equal. exact E3.
  - intros p x. simpl. destruct (js_arena_ptr_is_base rng p) eqn:E; [| done]. intros Hx. split; [done |].
    assert (Hc : exists c v, snap !! p = Some c /\ body c = BVarRef v).
    { unfold var_at in Hx. destruct (snap !! p) as [c |]; [| done]. exists c. destruct (body c); try done. eauto. }
    split; [done |]. unfold varview, var_at.
    change (default p (shadows (varref_tab (begin_request s)) !! p)) with p. rewrite (Hbase p E). exact Hx.
Qed.

(** The runtime as [js_runtime_mark_arena] leaves it over a snapshot. *)
Definition frozen_runtime (s : shadow_state) : Prop :=
  sh_ranges s = rng /\ is_arena s = true /\ forall a, js_arena_ptr_is_base rng a = true -> sh_heap s !! a = snap !! a.

Lemma run_requests_spec rqs s :
  snapshot_ok rng snap -> frozen_runtime s ->
  Forall (fun l => Forall (sop_legal (snap_mirror rng snap)) l /\ lenZ l <= 2 ^ 30) rqs ->
  swp (run_requests rqs) (fun rss s' => Forall2 (m_run (snap_mirror rng snap)) rqs rss /\ frozen_runtime s') s.
Proof.
  intros Hsnap Hf Hl. revert s Hf. induction Hl as [| l rqs [Hleg Hlen] Hl IH]; intros s Hf; simpl.
  { swp_steps. by split; [constructor |]. }
  destruct Hf as (F1 & F2 & F3). swp_steps.
  eapply swp_mono; [apply (run_sops_spec l (snap_mirror rng snap) (snap_mirror rng snap));
    [done | apply covers_refl | by apply begin_mirrors | done | done] |].
  intros rs s1 [Hrun Hv]. swp_step. eapply swp_mono; [apply IH; split; [apply Hv | split; apply Hv] |].
  intros rss s2 [H1 H2]. swp_steps. by split; [constructor |].
Qed.


(** Two shadowed objects never have the same shadow. *)
Lemma shadow_injective s p p' q :
  sinv rng snap s -> shadows (shadow_tab s) !! p = Some q -> shadows (shadow_tab s) !! p' = Some q -> p = p'.
Proof.
  intros Hv H1 H2. assert (E : KObj p = KObj p') by (apply (si_sep _ _ _ Hv _ _ q); simpl; rewrite ?H1, ?H2; left).
  by injection E.
Qed.

(** [js_object_base_identity] inverts [js_object_active]: in any state of a
    request, the identity of what a snapshot object resolves to is that
    object, so two objects resolve to the same pointer only when they are the
    same. *)
Theorem identity_of_active s p :
  snapshot_ok rng snap -> sinv rng snap s -> js_arena_ptr_is_base rng p = true ->
  exists q, js_object_active p s = Done (q, s) /\ js_object_base_identity q s = Done (p, s).
Proof.
  intros Hsnap Hv Hb. pose proof (active_spec rng snap Hsnap s p (fun q s' => s' = s /\
    q = default p (shadows (shadow_tab s) !! p)) Hv Hb ltac:(done)) as Ha.
  destruct (swp_done _ _ _ Ha) as (q & s' & Hrun & -> & ->). exists (default p (shadows (shadow_tab s) !! p)).
  split; [done |]. unfold js_object_base_identity, ptr_is_base, sbind, sget. simpl.
  rewrite (si_arena _ _ _ Hv), (si_ranges _ _ _ Hv).
  destruct (shadows (shadow_tab s) !! p) as [q |] eqn:E; simpl; [| by rewrite Hb].
  destruct (si_obj _ _ _ Hv p q E) as (_ & Hqz & _).
  destruct (si_foot _ _ _ Hv (KObj p) q) as [Hqb _]; [simpl; rewrite E; left |]. rewrite Hqb. simpl.
  destruct (shadow_base_identity_spec (shadow_tab s) q) as [H1 _]; [apply Hv | done | |].
  { intros b c Hb1 Hc1. by eapply (shadow_injective s). }
  unfold sret. by rewrite (H1 p E).
Qed.
End theorems.

(** ** A buffer the copy shares *)

Section helper.
Context `{RA : ReqAlloc}.
Abbreviation SH := (ST shadow_state).

(** A buffer after [memmove(buf, &buf[1], ...)]: the last slot is left. *)
Definition slid (v : JSValue) (l : list JSValue) : list JSValue := l ++ [nthZ JS_UNDEFINED (v :: l) (lenZ l)].

(** The window slide of [js_iterator_helper_next] for a [windows] helper whose
    buffer is full: free [buf[0]], move the rest down. *)
Definition slide_window (it : Z) : SH unit :=
  let^ c := load it in
  match body c with
  | BIteratorHelper d =>
      let^ bc := load (h_buf d) in
      match body bc with
      | BValues (v :: l) =>
          store it (set_body c (BIteratorHelper {| h_obj := h_obj d; h_next := h_next d; h_func := h_func d;
            h_inner := h_inner d; h_buf := h_buf d; h_count := h_count d; h_buf_count := h_buf_count d - 1;
            h_buf_size := h_buf_size d; h_bits := h_bits d |})) ;^
          store (h_buf d) (set_body bc (BValues (slid v l)))
      | _ => sabort
      end
  | _ => sabort
  end.

Definition next_window (p : Z) : SH bool :=
  let^ it := JS_GetOpaqueForWrite p JS_CLASS_ITERATOR_HELPER in
  if it =? 0 then sret false else slide_window it ;^ sret true.

Context (rng : base_ranges) `{RL : !ReqAllocLaws rng} (snap : heap).

(** The copy of an iterator helper shares its window buffer with the
    snapshot.  For a snapshot [windows()] helper with a full buffer in base
    memory, the first [next()] of a request resolves to a fresh shadow, and
    sliding the shadow's window writes the snapshot's buffer. *)
Theorem windows_helper_writes_snapshot s p o c d bc x l s' :
  snapshot_ok rng snap -> sinv rng snap s -> count_of s < 2 ^ 30 ->
  js_arena_ptr_is_base rng p = true -> object_at snap p = Some o -> class_id o = JS_CLASS_ITERATOR_HELPER ->
  shadows (shadow_tab s) !! p = None -> state_ptr o <> 0 ->
  snap !! state_ptr o = Some c -> body c = BIteratorHelper d ->
  js_arena_ptr_is_base rng (h_buf d) = true -> snap !! h_buf d = Some bc -> body bc = BValues (x :: l) ->
  next_window p s = Done (true, s') ->
  sh_heap s' !! h_buf d = Some (set_body bc (BValues (slid x l))).
Proof.
  intros Hsnap Hv Hcnt Hb Ho Hcl Hns Hsp Hc Hbc Hbuf Hbcell Hbv Hrun.
  enough (Hwp : swp (next_window p) (fun r s' => r = true ->
    sh_heap s' !! h_buf d = Some (set_body bc (BValues (slid x l)))) s)
    by (unfold swp in Hwp; rewrite Hrun in Hwp; by apply Hwp).
  unfold next_window, JS_GetOpaqueForWrite. swp_steps. rewrite (si_arena _ _ _ Hv). simpl. unfold ptr_is_base. swp_steps.
  rewrite (si_ranges _ _ _ Hv), Hb. destruct (snap_object rng snap Hsnap s p o Hv Hb Ho) as (Hob & Hok & Hvw).
  eapply load_object_spec; [exact Hob |]. rewrite bool_decide_eq_true_2 by done. simpl. swp_step.
  eapply swp_mono; [by apply (for_write_spec rng snap Hsnap s p o) |].
  intros q s1 (Hv1 & [Hsv _] & _ & Hq). destruct Hq as [-> | Hq]; [by swp_steps |].
  destruct (si_obj _ _ _ Hv1 p q Hq) as (_ & Hqz & [oq Hoq]). destruct (Z.eqb_spec q 0); [done |]. swp_step.
  assert (Hview : view (sh_heap s1) oq = view snap o).
  { specialize (Hsv p o Hb Ho). unfold objview in Hsv. rewrite Hq, Hns in Hsv.
    cbn [default from_option id] in Hsv. rewrite Hoq, Hob in Hsv. cbn [fmap option_fmap option_map] in Hsv.
    rewrite <- Hvw. congruence. }
  unfold view in Hview. injection Hview as Ecl _ _ Est.
  assert (Hst : state_of snap o = Some (BIteratorHelper d, [])).
  { unfold state_of. destruct (Z.eqb_spec (state_ptr o) 0); [done |]. rewrite Hc. simpl. unfold abstract_state. by rewrite Hbc. }
  rewrite Hst in Est. unfold state_of in Est. destruct (Z.eqb_spec (state_ptr oq) 0) as [| Hsq]; [done |].
  destruct (sh_heap s1 !! state_ptr oq) as [cq |] eqn:Ecq; [| done]. simpl in Est. unfold abstract_state in Est.
  assert (Hbq : body cq = BIteratorHelper d) by (destruct (body cq); by simplify_eq).
  eapply load_object_spec; [exact Hoq |].
  assert (Hu : u oq = UOpaque (state_ptr oq)).
  { unfold state_ptr in *. rewrite Ecl, Hcl in *. simpl in *. by destruct (u oq). }
  unfold opaque_of. rewrite Hu. swp_steps. destruct (Z.eqb_spec (state_ptr oq) 0); [done |]. swp_step.
  unfold slide_window, load. swp_step. apply (swp_deref _ cq); [done |]. rewrite Hbq. swp_step.
  apply (swp_deref _ bc); [by rewrite (si_base _ _ _ Hv1) |]. rewrite Hbv. unfold store. swp_steps. intros _. simpl.
  by rewrite lookup_insert_eq.
Qed.
End helper.


(** ** A concrete snapshot *)

Module ToyAlloc.

(** Addresses past every block in use. *)
Definition above (h : heap) : Z := map_fold (fun k _ m => Z.max k m) (2 ^ 20) h + 16.

#[export] Instance toy_alloc : ReqAlloc := {| alloc_state := unit; req_malloc a h := (above h, a) |}.

Definition toy_ranges : base_ranges := snd (js_arena_register_base base_ranges_init 4096 8192).

Lemma above_spec h : 2 ^ 20 < above h /\ h !! above h = None.
Proof.
  unfold above.
  assert (H : 2 ^ 20 <= map_fold (fun k _ m => Z.max k m) (2 ^ 20) h /\
    forall k, is_Some (h !! k) -> k <= map_fold (fun k _ m => Z.max k m) (2 ^ 20) h).
  { revert h. refine (map_fold_weak_ind (fun r m => 2 ^ 20 <= r /\ forall k, is_Some (m !! k) -> k <= r) _ _ _ _).
    - split; [lia |]. intros k [x Hx]. by rewrite lookup_empty in Hx.
    - intros k x m r _ [H1 H2]. split; [lia |]. intros k' Hk'. destruct (decide (k = k')) as [<- | Hne]; [lia |].
      rewrite lookup_insert_ne in Hk' by done. specialize (H2 k' Hk'). lia. }
  destruct H as [H1 H2]. split; [lia |]. apply eq_None_not_Some. intros Hs. specialize (H2 _ Hs). lia.
Qed.

#[export] Instance toy_alloc_laws : ReqAllocLaws toy_ranges.
Proof.
  intros a h p a' [= <- <-]. right. destruct (above_spec h) as [H1 H2]. split; [lia |]. split; [done |].
  unfold js_arena_ptr_is_base. simpl. bool_lia.
Qed.

Definition obj (cls : JSClass) (pr : Z) (d : obj_data) : cell :=
  Cell 1 JS_GC_OBJ_TYPE_JS_OBJECT 0 (BObject {| link := (0, 0); flags := 2; fast_array := bool_decide (cls = JS_CLASS_ARRAY);
    class_id := cls; shape := if pr =? 0 then 4112 else 4128; prop := pr; first_weak_ref := 0; u := d |}).

Definition helper : JSIteratorHelperData :=
  {| h_obj := JPtr 4096; h_next := JS_UNDEFINED; h_func := JS_UNDEFINED; h_inner := JS_UNDEFINED; h_buf := 4304;
     h_count := 2; h_buf_count := 2; h_buf_size := 2; h_bits := 0 |}.

(** An array iterator with two properties, a fast array, a [windows] helper and
    a closure cell. *)
Definition toy_snap : heap :=
  <[4096 := obj JS_CLASS_ARRAY_ITERATOR 4144 (UOpaque 4160)]>
  (<[4112 := Cell 1 GC_OTHER 0 (BShape 0)]>
  (<[4128 := Cell 1 GC_OTHER 0 (BShape 2)]>
  (<[4144 := Cell 0 GC_OTHER 0 (BValues [JImm 1; JPtr 4192])]>
  (<[4160 := Cell 0 GC_OTHER 0 (BArrayIterator (JPtr 4192) 0 0)]>
  (<[4192 := obj JS_CLASS_ARRAY 0 (UArray 2 4208 2)]>
  (<[4208 := Cell 0 GC_OTHER 0 (BValues [JImm 10; JImm 20])]>
  (<[4240 := obj JS_CLASS_ITERATOR_HELPER 0 (UOpaque 4272)]>
  (<[4272 := Cell 0 GC_OTHER 0 (BIteratorHelper helper)]>
  (<[4304 := Cell 0 GC_OTHER 0 (BValues [JImm 7; JImm 8])]>
  (<[4320 := Cell 1 JS_GC_OBJ_TYPE_VAR_REF 0
       (BVarRef {| is_detached := true; is_coro := false; pvalue := None; value := JImm 5 |})]> ∅)))))))))).

Lemma toy_snap_ok : snapshot_ok toy_ranges toy_snap.
Proof.
  split; [done |]. intros p c Hb Hc. unfold toy_snap in Hc.
  repeat (apply lookup_insert_Some in Hc as [[<- <-] | [_ Hc]]; [try done |]); [| | | by rewrite lookup_empty in Hc].
  - split; [split; [done |] | split; [done | split; [| done]]].
    + eexists _, 2. split; [reflexivity |]. split; [done |]. right. split; [done |]. split; [lia |].
      split; [done |]. by eexists _, _.
    + intros _. exists 4160. split; [done |]. right. split; [done |]. eexists. split; [reflexivity |].
      split; [done |]. constructor; [done | constructor].
  - split; [split; [done |] | split; [| split; done]].
    + eexists _, 0. split; [reflexivity |]. split; [done | by left].
    + intros _. exists 2, 4208, 2. split; [done |]. right. split; [done |]. split; [done |]. by eexists _, _.
  - split; [split; [done |] | split; [done | split; [| done]]].
    + eexists _, 0. split; [reflexivity |]. split; [done | by left].
    + intros _. exists 4272. split; [done |]. right. split; [done |]. eexists. split; [reflexivity |].
      split; [done |]. constructor; [done |]. constructor; [done |]. constructor; [done |]. constructor; [done | constructor].
Qed.

Definition toy_runtime : shadow_state :=
  {| sh_heap := toy_snap; sh_ranges := toy_ranges; is_arena := true; shadow_tab := shadow_table_init;
     varref_tab := shadow_table_init; sh_alloc := tt |}.

Lemma toy_frozen : frozen_runtime toy_ranges toy_snap toy_runtime.
Proof. done. Qed.

Lemma toy_inv : sinv toy_ranges toy_snap toy_runtime.
Proof.
  split; try done; simpl.
  - intros [p | p] a; simpl; by intros ?%not_elem_of_nil.
  - intros [p | p]; simpl; constructor.
  - intros [p | p] k' a; simpl; by intros ?%not_elem_of_nil.
Qed.

(** Two requests: the second sees nothing the first wrote. *)
Definition toy_requests : list (list sop) :=
  [[SetProp 4096 0 (JImm 42); GetProp 4096 0; NextIdx 4096; NextIdx 4096; SetElem 4192 1 (JImm 9); GetElem 4192 1;
    SetVar 4320 (JImm 6); GetVar 4320];
   [GetProp 4096 0; NextIdx 4096; GetElem 4192 1; GetVar 4320]].

Example toy_results : exists s', run_requests toy_requests toy_runtime =
  Done ([[Some JS_UNDEFINED; Some (JImm 42); Some (JImm 0); Some (JImm 1); Some JS_UNDEFINED; Some (JImm 9);
          Some JS_UNDEFINED; Some (JImm 6)];
         [Some (JImm 1); Some (JImm 0); Some (JImm 20); Some (JImm 5)]], s').
Proof. eexists. vm_compute. reflexivity. Qed.

Lemma toy_requests_legal :
  Forall (fun l => Forall (sop_legal (snap_mirror toy_ranges toy_snap)) l /\ lenZ l <= 2 ^ 30) toy_requests.
Proof.
  assert (H1 : exists V, m_obj (snap_mirror toy_ranges toy_snap) 4096 = Some V /\ lenZ (v_props V) = 2 /\
    v_class V = JS_CLASS_ARRAY_ITERATOR /\ v_state V = Some (BArrayIterator (JPtr 4192) 0 0, [])) by (by eexists).
  assert (H2 : exists V, m_obj (snap_mirror toy_ranges toy_snap) 4192 = Some V /\ lenZ (v_elems V) = 2) by (by eexists).
  assert (H3 : is_Some (m_var (snap_mirror toy_ranges toy_snap) 4320)) by (by eexists).
  destruct H1 as (V & E1 & E2 & E3 & E4), H2 as (W & F1 & F2).
  assert (Hn : sop_legal (snap_mirror toy_ranges toy_snap) (NextIdx 4096)) by (by exists V, (JPtr 4192), 0, 0, []).
  assert (Hp : forall i, 0 <= i < 2 -> exists V, m_obj (snap_mirror toy_ranges toy_snap) 4096 = Some V /\
    0 <= i < lenZ (v_props V)) by (intros i Hi; exists V; split; [done | lia]).
  assert (He : forall i, 0 <= i < 2 -> exists V, m_obj (snap_mirror toy_ranges toy_snap) 4192 = Some V /\
    0 <= i < lenZ (v_elems V)) by (intros i Hi; exists W; split; [done | lia]).
  unfold toy_requests. repeat (apply Forall_cons; split); try apply Forall_nil_2;
    try (split; [| unfold lenZ; simpl; lia]; repeat (apply Forall_cons; split); try apply Forall_nil_2);
    first [exact Hn | exact H3 | (apply Hp; lia) | (apply He; lia)].
Qed.


Lemma identity_of_active_witness :
  exists q, js_object_active 4096 toy_runtime = Done (q, toy_runtime) /\
    js_object_base_identity q toy_runtime = Done (4096, toy_runtime).
Proof.
  apply (identity_of_active toy_ranges toy_snap toy_runtime 4096); [apply toy_snap_ok | apply toy_inv | done].
Defined.

Definition after_window : shadow_state :=
  match next_window 4240 toy_runtime with Done (_, s) => s | _ => toy_runtime end.

Lemma windows_helper_writes_snapshot_witness :
  sh_heap after_window !! 4304 = Some (Cell 0 GC_OTHER 0 (BValues [JImm 8; JImm 8])).
Proof.
  apply (windows_helper_writes_snapshot toy_ranges toy_snap toy_runtime 4240
    {| link := (0, 0); flags := 2; fast_array := false; class_id := JS_CLASS_ITERATOR_HELPER; shape := 4112;
       prop := 0; first_weak_ref := 0; u := UOpaque 4272 |}
    (Cell 0 GC_OTHER 0 (BIteratorHelper helper)) helper
    (Cell 0 GC_OTHER 0 (BValues [JImm 7; JImm 8])) (JImm 7) [JImm 8] after_window);
    [apply toy_snap_ok | apply toy_inv | first [vm_compute; reflexivity | vm_compute; discriminate] ..].
Defined.
End ToyAlloc.
