(* ===== verification/TraceJson.v ===== *)
(** * Stack snapshots as JSON (qjs-arena-trace.c)

    [jb_grow] .. [jb_value] and the body of [emit_state]: the tracer writes a
    JSON document of the live stack into a malloc'd buffer by hand.  Bytes are
    [Z]; the engine's answers (atom strings, value conversions) are arguments.

    The specification is [render_stack], a function from frames to text; the
    buffer code emits it or records an allocation failure, and the text is JSON
    by the grammar [is_json]. *)

From Stdlib Require Import String Ascii.
From stdpp Require Import base list numbers sets.
From Stdlib Require Import ZArith Lia.
From S2P Require Import Prelude StateRun.

#[local] Open Scope st_scope.
#[local] Open Scope Z_scope.

(** ** Text *)

Definition bytes := list Z.

(** The bytes of a literal. *)
Fixpoint lit (s : string) : bytes :=
  match s with
  | EmptyString => []
  | String c s => Z.of_nat (nat_of_ascii c) :: lit s
  end.

(** A C string stops at its NUL. *)
Fixpoint c_str (s : bytes) : bytes :=
  match s with
  | [] => []
  | c :: s => if c =? 0 then [] else c :: c_str s
  end.

(** ** The growing buffer *)

(** [buf[0..len)], [cap], [err]; [reallocs] answers the next [realloc] calls,
    success when it runs out. *)
Record jbuf := { jb_buf : bytes; jb_cap : Z; jb_err : bool; reallocs : list bool }.

Definition jbuf_init (reallocs : list bool) : jbuf := {| jb_buf := []; jb_cap := 0; jb_err := false; reallocs := reallocs |}.

(** [while (ncap < len + need) ncap *= 2;]: 64 doublings wrap to 0. *)
Fixpoint double_cap (fuel : nat) (ncap need : Z) : run Z :=
  match fuel with
  | O => Spins
  | S fuel => if ncap <? need then double_cap fuel (u64 (ncap * 2)) need else Done ncap
  end.

Definition jb_grow (need : Z) : ST jbuf unit :=
  let^ j := sget id in
  if jb_err j || (lenZ (jb_buf j) + need <=? jb_cap j) then sret tt
  else
    let^ ncap := slift (double_cap 65 (if jb_cap j =? 0 then 4096 else jb_cap j) (u64 (lenZ (jb_buf j) + need))) in
    match reallocs j with
    | false :: rest => smod (fun j => {| jb_buf := jb_buf j; jb_cap := jb_cap j; jb_err := true; reallocs := rest |})
    | _ => smod (fun j => {| jb_buf := jb_buf j; jb_cap := ncap; jb_err := jb_err j; reallocs := tail (reallocs j) |})
    end.

Definition jb_raw (s : bytes) : ST jbuf unit :=
  jb_grow (lenZ s) ;^
  let^ j := sget id in
  if jb_err j then sret tt
  else smod (fun j => {| jb_buf := jb_buf j ++ s; jb_cap := jb_cap j; jb_err := jb_err j; reallocs := reallocs j |}).

Definition jb_cstr (s : string) : ST jbuf unit := jb_raw (lit s).

Definition jb_ch (c : Z) : ST jbuf unit :=
  jb_grow 1 ;^
  let^ j := sget id in
  if jb_err j then sret tt
  else smod (fun j => {| jb_buf := jb_buf j ++ [c]; jb_cap := jb_cap j; jb_err := jb_err j; reallocs := reallocs j |}).

(** Lowercase hexadecimal digit, as [%04x] prints it. *)
Definition hex_digit (d : Z) : Z := if d <? 10 then 48 + d else 87 + d.

Definition DQUOTE : Z := 34.
Definition BACKSLASH : Z := 92.

(** What the switch of [jb_json_str] writes for a character. *)
Definition jb_json_char (c : Z) : ST jbuf unit :=
  if c =? DQUOTE then jb_raw [BACKSLASH; DQUOTE]
  else if c =? BACKSLASH then jb_raw [BACKSLASH; BACKSLASH]
  else if c =? 8 then jb_raw (lit "\b")
  else if c =? 12 then jb_raw (lit "\f")
  else if c =? 10 then jb_raw (lit "\n")
  else if c =? 13 then jb_raw (lit "\r")
  else if c =? 9 then jb_raw (lit "\t")
  else if c <? 32 then jb_raw (lit "\u00" ++ [hex_digit (c / 16); hex_digit (c mod 16)])
  else jb_ch c.

Fixpoint jb_json_chars (s : bytes) : ST jbuf unit :=
  match s with
  | [] => sret tt
  | c :: s => jb_json_char c ;^ jb_json_chars s
  end.

Definition jb_json_str (s : bytes) : ST jbuf unit :=
  jb_ch DQUOTE ;^ jb_json_chars s ;^ jb_ch DQUOTE.

(** ** Values *)

(** Decimal, as [%d] and [%lld] print it. *)
Fixpoint digits (fuel : nat) (n : Z) (acc : bytes) : bytes :=
  match fuel with
  | O => acc
  | S fuel => let acc := 48 + n mod 10 :: acc in if n <? 10 then acc else digits fuel (n / 10) acc
  end.

Definition print_d (n : Z) : bytes :=
  if n <? 0 then 45 :: digits 20 (- n) [] else digits 20 n [].

(** The result of [JS_JSONStringify] followed by [JS_ToCStringLen]. *)
Inductive stringified :=
  | StringifyThrew
  | StringifyUndefined
  | StringifyText (s : option bytes).

(** A finite double is [m * 2^e]; conversions carry their outcome, [None] when
    they fail. *)
Inductive tvalue :=
  | TUndefined
  | TUninitialized
  | TNull
  | TBool (b : bool)
  | TSymbol
  | TInt (n : Z)
  | TNonFinite
  | TFloat (m e : Z) (str : option bytes)
  | TString (s : option bytes)
  | TFunction (name : option bytes)
  | TObject (s : stringified).

(** [d == (double)(int64_t)d] and the value, for [d = m * 2^e]. *)
Definition float_int (m e : Z) : option Z :=
  if 0 <=? e then Some (m * 2 ^ e)
  else if m mod 2 ^ (- e) =? 0 then Some (m / 2 ^ (- e)) else None.

Definition jb_value (v : tvalue) : ST jbuf unit :=
  match v with
  | TUndefined => jb_raw (DQUOTE :: lit "[undefined]" ++ [DQUOTE])
  | TUninitialized => jb_raw (DQUOTE :: lit "[uninitialized]" ++ [DQUOTE])
  | TNull => jb_cstr "null"
  | TBool b => jb_cstr (if b then "true" else "false")
  | TSymbol => jb_raw (DQUOTE :: lit "[Symbol]" ++ [DQUOTE])
  | TInt n => jb_raw (print_d n)
  | TNonFinite => jb_cstr "null"
  | TFloat m e str =>
      match float_int m e with
      | Some n =>
          if (- 2 ^ 53 <=? n) && (n <=? 2 ^ 53) then jb_raw (print_d n)
          else match str with Some s => jb_raw s | None => jb_cstr "null" end
      | None => match str with Some s => jb_raw s | None => jb_cstr "null" end
      end
  | TString (Some s) => jb_json_str s
  | TString None => jb_raw (DQUOTE :: lit "[unserializable]" ++ [DQUOTE])
  | TFunction name =>
      jb_json_str (take 95 (lit "[function " ++ match name with Some n => c_str n | None => [] end ++ lit "]"))
  | TObject (StringifyText (Some s)) => jb_raw s
  | TObject _ => jb_raw (DQUOTE :: lit "[unserializable]" ++ [DQUOTE])
  end.

(** ** Frames *)

Record bytecode := { bc_func_name : Z; bc_filename : Z; bc_line : option Z -> Z }.

(** A stack frame: its bytecode ([None] for a C function), its pc, and the
    names and values the accessors enumerate. *)
Record frame := {
  fr_bytecode : option bytecode;
  fr_pc : option Z;
  fr_vars : bytecode -> list (Z * tvalue);
  fr_closure : bytecode -> list (Z * tvalue)
}.

Section state.
(** [JS_AtomToCString]. *)
Context (atom_cstr : Z -> option bytes).

Definition jb_atom_str (atom : Z) (fallback : string) : ST jbuf unit :=
  match atom_cstr atom with
  | Some s => jb_json_str (c_str s)
  | None => jb_json_str (lit fallback)
  end.

(** One "name": value, after a comma unless it is the first. *)
Definition jb_member (first : bool) (na : Z) (v : tvalue) : ST jbuf unit :=
  (if first then sret tt else jb_ch 44) ;^
  jb_atom_str na "" ;^ jb_ch 58 ;^ jb_value v.

(** Arguments and locals; returns whether none was written and the names seen. *)
Fixpoint jb_vars (l : list (Z * tvalue)) (first : bool) (seen : list Z) : ST jbuf (bool * list Z) :=
  match l with
  | [] => sret (first, seen)
  | (na, v) :: l =>
      if na =? 0 then jb_vars l first seen
      else
        jb_member first na v ;^
        jb_vars l false (if lenZ seen <? 64 then seen ++ [na] else seen)
  end.

Fixpoint jb_closure (l : list (Z * tvalue)) (first : bool) (seen : list Z) : ST jbuf unit :=
  match l with
  | [] => sret tt
  | (na, v) :: l =>
      if (na =? 0) || existsb (Z.eqb na) seen then jb_closure l first seen
      else jb_member first na v ;^ jb_closure l false seen
  end.

Definition jb_frame (first : bool) (f : frame) (b : bytecode) (pc : option Z) : ST jbuf unit :=
  let line := bc_line b pc in
  let line := if line <? 0 then 0 else line in
  (if first then sret tt else jb_ch 44) ;^
  jb_raw (123 :: DQUOTE :: lit "func" ++ [DQUOTE; 58]) ;^
  jb_atom_str (bc_func_name b) "<anonymous>" ;^
  jb_raw (44 :: DQUOTE :: lit "file" ++ [DQUOTE; 58]) ;^
  jb_atom_str (bc_filename b) "" ;^
  jb_raw (44 :: DQUOTE :: lit "line" ++ [DQUOTE; 58] ++ print_d line ++ 44 :: DQUOTE :: lit "vars" ++ [DQUOTE; 58; 123]) ;^
  let^ (fv, seen) := jb_vars (fr_vars f b) true [] in
  jb_closure (fr_closure f b) fv seen ;^
  jb_cstr "}}".

(** The walk: the top frame uses [top_b]; the first frame with bytecode uses
    [top_pc] when there is one. *)
Fixpoint jb_stack (sfs : list frame) (is_top first : bool) (top_b : option bytecode) (top_pc : option Z)
    : ST jbuf unit :=
  match sfs with
  | [] => sret tt
  | f :: sfs =>
      match (if is_top then top_b else fr_bytecode f) with
      | None => jb_stack sfs false first top_b top_pc
      | Some b =>
          jb_frame first f b (match top_pc with Some pc => Some pc | None => fr_pc f end) ;^
          jb_stack sfs false false top_b None
      end
  end.

(** The document built by [emit_state]. *)
Definition jb_state (sfs : list frame) (top_b : option bytecode) (top_pc : option Z) : ST jbuf unit :=
  jb_ch 91 ;^ jb_stack sfs true true top_b top_pc ;^ jb_ch 93.
End state.

(** ** Specification *)

Definition render_char (c : Z) : bytes :=
  if c =? DQUOTE then [BACKSLASH; DQUOTE]
  else if c =? BACKSLASH then [BACKSLASH; BACKSLASH]
  else if c =? 8 then lit "\b"
  else if c =? 12 then lit "\f"
  else if c =? 10 then lit "\n"
  else if c =? 13 then lit "\r"
  else if c =? 9 then lit "\t"
  else if c <? 32 then lit "\u00" ++ [hex_digit (c / 16); hex_digit (c mod 16)]
  else [c].

Definition quoted (s : bytes) : bytes := DQUOTE :: s ++ [DQUOTE].
Definition render_str (s : bytes) : bytes := quoted (concat (map render_char s)).

(** A JSON value: the tracer's own text, or text the engine supplied. *)
Definition render_value (v : tvalue) : bytes :=
  match v with
  | TUndefined => quoted (lit "[undefined]")
  | TUninitialized => quoted (lit "[uninitialized]")
  | TNull | TNonFinite => lit "null"
  | TBool b => lit (if b then "true" else "false")
  | TSymbol => quoted (lit "[Symbol]")
  | TInt n => print_d n
  | TFloat m e str =>
      match float_int m e with
      | Some n => if (- 2 ^ 53 <=? n) && (n <=? 2 ^ 53) then print_d n else default (lit "null") str
      | None => default (lit "null") str
      end
  | TString (Some s) => render_str s
  | TFunction name => render_str (take 95 (lit "[function " ++ c_str (default [] name) ++ lit "]"))
  | TObject (StringifyText (Some s)) => s
  | _ => quoted (lit "[unserializable]")
  end.

(** Comma-separated items between brackets. *)
Fixpoint separated (l : list bytes) : bytes :=
  match l with
  | [] => []
  | [x] => x
  | x :: l => x ++ 44 :: separated l
  end.

Definition render_object (l : list (bytes * bytes)) : bytes :=
  123 :: separated (map (fun kv => kv.1 ++ 58 :: kv.2) l) ++ [125].
Definition render_array (l : list bytes) : bytes := 91 :: separated l ++ [93].

Section render.
Context (atom_cstr : Z -> option bytes).

Definition render_atom (atom : Z) (fallback : string) : bytes :=
  render_str (match atom_cstr atom with Some s => c_str s | None => lit fallback end).

(** Names with a value, the anonymous ones left out. *)
Definition named (l : list (Z * tvalue)) : list (Z * tvalue) := List.filter (fun nv => negb (nv.1 =? 0)) l.

(** Closure variables no local hides; the first 64 locals hide. *)
Definition unhidden (seen : list Z) (l : list (Z * tvalue)) : list (Z * tvalue) :=
  List.filter (fun nv => negb (existsb (Z.eqb nv.1) seen)) (named l).

Definition members (l : list (Z * tvalue)) : list (bytes * bytes) :=
  map (fun nv => (render_atom nv.1 "", render_value nv.2)) l.

Definition frame_vars (f : frame) (b : bytecode) : list (Z * tvalue) :=
  named (fr_vars f b) ++ unhidden (take 64 (map fst (named (fr_vars f b)))) (fr_closure f b).

Definition render_frame (f : frame) (b : bytecode) (pc : option Z) : bytes :=
  render_object [(quoted (lit "func"), render_atom (bc_func_name b) "<anonymous>");
                 (quoted (lit "file"), render_atom (bc_filename b) "");
                 (quoted (lit "line"), print_d (Z.max 0 (bc_line b pc)));
                 (quoted (lit "vars"), render_object (members (frame_vars f b)))].

(** The frames that have bytecode, with the bytecode and pc they are shown at. *)
Fixpoint shown (sfs : list frame) (is_top : bool) (top_b : option bytecode) (top_pc : option Z)
    : list (frame * bytecode * option Z) :=
  match sfs with
  | [] => []
  | f :: sfs =>
      match (if is_top then top_b else fr_bytecode f) with
      | None => shown sfs false top_b top_pc
      | Some b => (f, b, match top_pc with Some pc => Some pc | None => fr_pc f end) :: shown sfs false top_b None
      end
  end.

Definition render_stack (sfs : list frame) (top_b : option bytecode) (top_pc : option Z) : bytes :=
  render_array (map (fun fb => render_frame fb.1.1 fb.1.2 fb.2) (shown sfs true top_b top_pc)).
End render.

(** ** The buffer code writes the specified text *)

(** The buffer is in error only when a [realloc] failed. *)
Definition failed (j j' : jbuf) : Prop := jb_err j' = true /\ (jb_err j = true \/ false ∈ reallocs j).

(** [m] returns [a] and appends [s], or a [realloc] failed. *)
Definition emits {A} (m : ST jbuf A) (a : A) (s : bytes) : Prop :=
  forall j, 0 <= jb_cap j -> lenZ (jb_buf j) + lenZ s < 2 ^ 62 ->
    swp m (fun a' j' => a' = a /\ 0 <= jb_cap j' /\ lenZ (jb_buf j') <= lenZ (jb_buf j) + lenZ s /\
      reallocs j' ⊆ reallocs j /\
      (failed j j' \/ (jb_err j = false /\ jb_err j' = false /\ jb_buf j' = jb_buf j ++ s))) j.

Lemma emits_ret {A} (a : A) : emits (sret a) a [].
Proof.
  intros j Hc Hl. swp_step. split; [done |]. split; [done |]. unfold lenZ at 3. simpl.
  split; [lia |]. split; [done |]. unfold failed. destruct (jb_err j); [by left; split; [| left] |]. right.
  by rewrite app_nil_r.
Qed.

Lemma emits_bind {A B} (m : ST jbuf A) (k : A -> ST jbuf B) a b s s' :
  emits m a s -> emits (k a) b s' -> emits (sbind m k) b (s ++ s').
Proof.
  intros Hm Hk j Hc Hl. rewrite lenZ_app in *. pose proof (lenZ_nonneg s). pose proof (lenZ_nonneg s').
  swp_step. eapply swp_mono; [apply Hm; [done | lia] |]. intros a' j1 (-> & Hc1 & Hl1 & Hr1 & H1).
  eapply swp_mono; [apply Hk; [done | lia] |]. intros b' j2 (-> & Hc2 & Hl2 & Hr2 & H2). split; [done |]. split; [done |].
  split; [lia |]. split; [by etrans |]. unfold failed in *. destruct H1 as [[He1 Hf1] | (E1 & E2 & E3)].
  - destruct H2 as [[? _] | (? & _)]; [by left | congruence].
  - destruct H2 as [[? [? | ?]] | (_ & E4 & E5)]; [congruence | left; auto | right]. split; [done |]. split; [done |].
    by rewrite E5, E3, app_assoc.
Qed.

Lemma double_cap_spec fuel ncap need k :
  0 < ncap -> 0 <= k -> ncap * 2 ^ k >= need -> need < 2 ^ 62 -> k < Z.of_nat fuel ->
  exists c, double_cap fuel ncap need = Done c /\ need <= c.
Proof.
  revert ncap k. induction fuel as [| fuel IH]; intros ncap k Hn Hk Hd Hneed Hf; [lia |]. simpl.
  destruct (Z.ltb_spec ncap need) as [Hlt | Hge]; [| exists ncap; split; [done | lia]].
  rewrite u64_small by lia. destruct (Z.eq_dec k 0) as [-> | Hk0]; [rewrite Z.pow_0_r in Hd; lia |].
  apply (IH _ (k - 1)); try lia.
  replace (2 ^ k) with (2 * 2 ^ (k - 1)) in Hd by (rewrite <- Z.pow_succ_r by lia; f_equal; lia). lia.
Qed.

#[local] Arguments double_cap : simpl never.

Lemma grow_spec j need :
  0 <= jb_cap j -> 0 <= need -> lenZ (jb_buf j) + need < 2 ^ 62 ->
  swp (jb_grow need) (fun _ j' => jb_buf j' = jb_buf j /\ 0 <= jb_cap j' /\ reallocs j' ⊆ reallocs j /\
    (failed j j' \/ (jb_err j = false /\ jb_err j' = false))) j.
Proof.
  intros Hc Hn Hl. pose proof (lenZ_nonneg (jb_buf j)). unfold jb_grow. swp_steps. unfold id.
  destruct (jb_err j) eqn:He; simpl.
  { swp_steps. do 3 (split; [done |]). left. split; [done | by left]. }
  destruct (Z.leb_spec (lenZ (jb_buf j) + need) (jb_cap j)) as [Hfit | Hgrow].
  { swp_steps. do 3 (split; [done |]). by right. }
  rewrite u64_small by lia. swp_step.
  destruct (double_cap_spec 65 (if jb_cap j =? 0 then 4096 else jb_cap j) (lenZ (jb_buf j) + need) 62) as (c & Hd & Hcn);
    try (destruct (Z.eqb_spec (jb_cap j) 0); lia).
  eapply swp_lift; [exact Hd |].
  destruct (reallocs j) as [| [] rest] eqn:Hr; swp_steps; simpl; (split; [done |]); (split; [lia |]);
    (split; [rewrite ?Hr; set_solver |]); auto. left. split; [done |]. right. rewrite Hr. left.
Qed.

Lemma emits_raw s : emits (jb_raw s) tt s.
Proof.
  intros j Hc Hl. unfold jb_raw. swp_step. eapply swp_mono; [apply grow_spec; [done | apply lenZ_nonneg | done] |].
  intros u j1 (Hb & Hc1 & Hr1 & H1). swp_steps. unfold id. pose proof (lenZ_nonneg s).
  destruct (jb_err j1) eqn:E; swp_steps; simpl.
  - split; [done |]. split; [done |]. rewrite Hb. split; [lia |]. split; [done |]. left.
    destruct H1 as [? | [_ ?]]; [done | congruence].
  - split; [done |]. split; [done |]. rewrite Hb, lenZ_app. split; [lia |]. split; [done |]. right.
    destruct H1 as [[? _] | [? _]]; [congruence | done].
Qed.

Lemma emits_ch c : emits (jb_ch c) tt [c].
Proof.
  intros j Hc Hl. unfold jb_ch. swp_step. eapply swp_mono; [apply grow_spec; [done | lia | done] |].
  intros u j1 (Hb & Hc1 & Hr1 & H1). swp_steps. unfold id.
  destruct (jb_err j1) eqn:E; swp_steps; simpl.
  - split; [done |]. split; [done |]. rewrite Hb. unfold lenZ. simpl. split; [lia |]. split; [done |]. left.
    destruct H1 as [? | [_ ?]]; [done | congruence].
  - split; [done |]. split; [done |]. rewrite Hb, lenZ_app. split; [lia |]. split; [done |]. right.
    destruct H1 as [[? _] | [? _]]; [congruence | done].
Qed.

Lemma emits_eq {A} (m : ST jbuf A) a s s' : emits m a s -> s = s' -> emits m a s'.
Proof. by intros H <-. Qed.

Lemma emits_if {A} (c : bool) (m m' : ST jbuf A) a s s' :
  emits m a s -> emits m' a s' -> emits (if c then m else m') a (if c then s else s').
Proof. by destruct c. Qed.

Create HintDb emits.
#[local] Hint Resolve emits_ret emits_raw emits_ch : emits.

Lemma emits_json_char c : emits (jb_json_char c) tt (render_char c).
Proof. unfold jb_json_char, render_char. repeat (apply emits_if; [auto with emits |]). auto with emits. Qed.

Lemma emits_json_chars s : emits (jb_json_chars s) tt (concat (map render_char s)).
Proof. induction s as [| c s IH]; simpl; [auto with emits |]. eapply emits_bind; [apply emits_json_char | done]. Qed.

Lemma emits_json_str s : emits (jb_json_str s) tt (render_str s).
Proof.
  apply (emits_bind _ _ tt tt [DQUOTE]); [auto with emits |].
  eapply emits_bind; [apply emits_json_chars | auto with emits].
Qed.
#[local] Hint Resolve emits_json_str : emits.

Lemma emits_value v : emits (jb_value v) tt (render_value v).
Proof.
  destruct v as [| | | [] | | n | | m e str | [s |] | name | [| | [s |]]]; simpl; unfold jb_cstr; auto with emits.
  - assert (Hd : emits (match str with Some s => jb_raw s | None => jb_cstr "null" end) tt (default (lit "null") str))
      by (destruct str; unfold jb_cstr; simpl; auto with emits).
    destruct (float_int m e) as [n |]; [apply emits_if; auto with emits | done].
  - destruct name; simpl; auto with emits.
Qed.

(** Items after a comma each, the first one without if [first]. *)
Definition commas (first : bool) (l : list bytes) : bytes :=
  if first then separated l else concat (map (cons 44) l).

Lemma separated_cons x l : separated (x :: l) = x ++ concat (map (cons 44) l).
Proof. revert x. induction l as [| y l IH]; intros x; [simpl; by rewrite app_nil_r |]. simpl in *. by rewrite IH. Qed.

Lemma commas_cons first x l : commas first (x :: l) = (if first then [] else [44]) ++ x ++ commas false l.
Proof. destruct first; simpl; [apply separated_cons | done]. Qed.

Lemma commas_app first l l' : commas first (l ++ l') = commas first l ++ commas (first && bool_decide (l = [])) l'.
Proof.
  destruct l as [| x l]; [by destruct first |].
  replace (bool_decide (x :: l = [])) with false by (symmetry; by apply bool_decide_eq_false_2).
  rewrite andb_false_r. simpl app at 1. rewrite !commas_cons. unfold commas. by rewrite map_app, concat_app, !app_assoc.
Qed.

Lemma take_snoc {A} (l : list A) x k : take k (take k l ++ [x]) = take k (l ++ [x]).
Proof.
  destruct (Nat.le_gt_cases k (length l)) as [H | H].
  - rewrite !take_app_le by (rewrite ?length_take; lia). rewrite take_take. f_equal. lia.
  - by rewrite (take_ge l) by lia.
Qed.

Section emitting.
Context (atom_cstr : Z -> option bytes).

Lemma emits_atom atom fb : emits (jb_atom_str atom_cstr atom fb) tt (render_atom atom_cstr atom fb).
Proof. unfold jb_atom_str, render_atom. destruct (atom_cstr atom); auto with emits. Qed.

Definition member_text (nv : Z * tvalue) : bytes := render_atom atom_cstr nv.1 "" ++ 58 :: render_value nv.2.

Lemma emits_member first na v :
  emits (jb_member atom_cstr first na v) tt ((if first then [] else [44]) ++ member_text (na, v)).
Proof.
  unfold jb_member. eapply (emits_bind _ _ tt); [apply emits_if; auto with emits |].
  eapply emits_bind; [apply emits_atom |].
  apply (emits_bind _ _ tt tt [58]); [auto with emits | apply emits_value].
Qed.

Lemma emits_vars l first seen :
  emits (jb_vars atom_cstr l first seen)
    (first && bool_decide (named l = []), if lenZ seen <=? 64 then take 64 (seen ++ map fst (named l)) else seen)
    (commas first (map member_text (named l))).
Proof.
  revert first seen. induction l as [| [na v] l IH]; intros first seen; simpl.
  { apply (emits_eq _ _ []); [| by destruct first]. rewrite app_nil_r, andb_true_r.
    destruct (Z.leb_spec (lenZ seen) 64) as [H | H]; [| apply emits_ret].
    rewrite take_ge by (unfold lenZ in H; lia). apply emits_ret. }
  destruct (Z.eqb_spec na 0) as [-> | Hna]; simpl; [apply IH |].
  rewrite andb_false_r. fold (named l). rewrite commas_cons, app_assoc.
  eapply (emits_bind _ _ tt); [apply emits_member |]. specialize (IH false).
  destruct (Z.ltb_spec (lenZ seen) 64) as [Hlt | Hge].
  - specialize (IH (seen ++ [na])). destruct (Z.leb_spec (lenZ seen) 64); [| lia].
    rewrite lenZ_app in IH. destruct (Z.leb_spec (lenZ seen + lenZ [na]) 64) as [_ | Hx]; [| unfold lenZ in *; simpl in *; lia].
    rewrite <- app_assoc in IH. exact IH.
  - specialize (IH seen). destruct (Z.leb_spec (lenZ seen) 64) as [Hle | Hgt]; [| exact IH].
    assert (E : forall x : list Z, take 64 (seen ++ x) = seen).
    { intros x. rewrite take_app_le by (unfold lenZ in *; lia). apply take_ge. unfold lenZ in *; lia. }
    rewrite E in *. exact IH.
Qed.

Lemma emits_closure l first seen :
  emits (jb_closure atom_cstr l first seen) tt (commas first (map member_text (unhidden seen l))).
Proof.
  revert first. induction l as [| [na v] l IH]; intros first; simpl.
  { eapply emits_eq; [apply emits_ret | by destruct first]. }
  unfold unhidden, named in *. simpl.
  destruct (Z.eqb_spec na 0) as [-> | Hna]; simpl; [apply IH |].
  destruct (existsb (Z.eqb na) seen) eqn:Hs; simpl; [apply IH |]. rewrite commas_cons, app_assoc.
  eapply (emits_bind _ _ tt); [apply emits_member | apply IH].
Qed.

Lemma object_text (l : list (Z * tvalue)) :
  render_object (members atom_cstr l) = 123 :: commas true (map member_text l) ++ [125].
Proof. unfold render_object, members. by rewrite map_map. Qed.

Lemma emits_frame first f b pc :
  emits (jb_frame atom_cstr first f b pc) tt ((if first then [] else [44]) ++ render_frame atom_cstr f b pc).
Proof.
  unfold jb_frame. set (line := if bc_line b pc <? 0 then 0 else bc_line b pc).
  assert (Hline : line = Z.max 0 (bc_line b pc)) by (unfold line; destruct (Z.ltb_spec (bc_line b pc) 0); lia).
  eapply (emits_bind _ _ tt); [apply emits_if; auto with emits |].
  eapply emits_eq.
  - eapply emits_bind; [apply emits_raw |]. eapply emits_bind; [apply emits_atom |].
    eapply emits_bind; [apply emits_raw |]. eapply emits_bind; [apply emits_atom |].
    eapply emits_bind; [apply emits_raw |]. eapply emits_bind; [apply emits_vars |]. simpl.
    eapply emits_bind; [apply emits_closure | apply emits_raw].
  - unfold render_frame. rewrite object_text, Hline. unfold frame_vars. rewrite map_app, commas_app.
    assert (En : bool_decide (map member_text (named (fr_vars f b)) = []) = bool_decide (named (fr_vars f b) = [])).
    { apply bool_decide_ext. split; [apply map_eq_nil | by intros ->]. }
    rewrite En. unfold render_object, quoted. simpl. rewrite <- !app_assoc. simpl. rewrite <- !app_assoc. simpl.
    rewrite <- !app_assoc. repeat f_equal. simpl. by rewrite <- !app_assoc.
Qed.

Lemma emits_stack sfs is_top first top_b top_pc :
  emits (jb_stack atom_cstr sfs is_top first top_b top_pc) tt
    (commas first (map (fun fb => render_frame atom_cstr fb.1.1 fb.1.2 fb.2) (shown sfs is_top top_b top_pc))).
Proof.
  revert is_top first top_pc. induction sfs as [| f sfs IH]; intros is_top first top_pc; simpl.
  { eapply emits_eq; [apply emits_ret | by destruct first]. }
  destruct (if is_top then top_b else fr_bytecode f) as [b |]; [| apply IH].
  simpl. rewrite commas_cons, app_assoc. eapply (emits_bind _ _ tt); [apply emits_frame | apply IH].
Qed.

Lemma emits_state sfs top_b top_pc :
  emits (jb_state atom_cstr sfs top_b top_pc) tt (render_stack atom_cstr sfs top_b top_pc).
Proof.
  unfold jb_state. apply (emits_bind _ _ tt tt [91]); [auto with emits |].
  eapply emits_bind; [apply emits_stack | auto with emits].
Qed.
End emitting.

(** ** JSON *)

(** The characters of a string: raw bytes from space up other than the quote
    and the backslash, and escapes. *)
Definition is_hex (d : Z) : bool := ((48 <=? d) && (d <=? 57)) || ((97 <=? d) && (d <=? 102)) || ((65 <=? d) && (d <=? 70)).

Inductive json_chars : bytes -> Prop :=
  | jc_nil : json_chars []
  | jc_raw c s : 32 <= c -> c <> DQUOTE -> c <> BACKSLASH -> json_chars s -> json_chars (c :: s)
  | jc_escape c s : c ∈ DQUOTE :: BACKSLASH :: lit "/bfnrt" -> json_chars s -> json_chars (BACKSLASH :: c :: s)
  | jc_unicode a b c d s : forallb is_hex [a; b; c; d] = true -> json_chars s ->
      json_chars (BACKSLASH :: 117 :: a :: b :: c :: d :: s).

Definition is_digit (d : Z) : bool := (48 <=? d) && (d <=? 57).

(** An integer literal: no leading zero. *)
Definition json_int (s : bytes) : Prop :=
  exists sign ds, s = sign ++ ds /\ (sign = [] \/ sign = [45]) /\ ds <> [] /\ forallb is_digit ds = true /\
    (hd 0 ds = 48 -> ds = [48]).

Definition json_digits (s : bytes) : Prop := s <> [] /\ forallb is_digit s = true.

(** A number literal: an integer, a fraction and an exponent. *)
Definition json_num (s : bytes) : Prop :=
  exists i f e, s = i ++ f ++ e /\ json_int i /\
    (f = [] \/ exists ds, f = 46 :: ds /\ json_digits ds) /\
    (e = [] \/ exists c sign ds, e = c :: sign ++ ds /\ c ∈ lit "eE" /\ sign ∈ [[]; [43]; [45]] /\ json_digits ds).

Inductive is_json : bytes -> Prop :=
  | json_literal s : s ∈ [lit "null"; lit "true"; lit "false"] -> is_json s
  | json_number s : json_num s -> is_json s
  | json_string s : json_chars s -> is_json (quoted s)
  | json_array l : Forall is_json l -> is_json (render_array l)
  | json_object l : Forall (fun kv => exists s, kv.1 = quoted s /\ json_chars s) l -> Forall (fun kv => is_json kv.2) l ->
      is_json (render_object l).

(** Reading a string body back; [None] for text that is not one. *)
Definition hex_value (d : Z) : Z := if d <=? 57 then d - 48 else d - 87.

Definition simple_escape (c : Z) : option Z :=
  if (c =? DQUOTE) || (c =? BACKSLASH) || (c =? 47) then Some c
  else if c =? 98 then Some 8 else if c =? 102 then Some 12 else if c =? 110 then Some 10
  else if c =? 114 then Some 13 else if c =? 116 then Some 9 else None.

Fixpoint unescape (s : bytes) : option bytes :=
  match s with
  | [] => Some []
  | c :: s =>
      if c =? BACKSLASH then
        match s with
        | [] => None
        | e :: s =>
            if e =? 117 then
              match s with
              | a :: b :: c :: d :: s =>
                  if forallb is_hex [a; b; c; d] then
                    l ← unescape s;
                    Some (hex_value a * 4096 + hex_value b * 256 + hex_value c * 16 + hex_value d :: l)
                  else None
              | _ => None
              end
            else c ← simple_escape e; l ← unescape s; Some (c :: l)
        end
      else if (c <? 32) || (c =? DQUOTE) then None
      else l ← unescape s; Some (c :: l)
  end.

(** ** The text is JSON *)

Definition is_byte (c : Z) : Prop := 0 <= c < 256.

Lemma json_int_num s : json_int s -> json_num s.
Proof. intros H. exists s, [], []. simpl. rewrite app_nil_r. split; [done |]. split; [done |]. by split; left. Qed.

Lemma hex_digit_ok d : 0 <= d < 16 -> is_hex (hex_digit d) = true /\ hex_value (hex_digit d) = d.
Proof.
  intros H. unfold is_hex, hex_digit, hex_value.
  destruct (Z.ltb_spec d 10); repeat case_match; try lia; split; lia.
Qed.

Lemma hex_digits_ok c : 0 <= c < 256 ->
  is_hex (hex_digit (c / 16)) = true /\ is_hex (hex_digit (c mod 16)) = true /\
  hex_value (hex_digit (c / 16)) * 16 + hex_value (hex_digit (c mod 16)) = c.
Proof.
  intros H. pose proof (Z.mod_pos_bound c 16 ltac:(lia)) as Hm. pose proof (Z.div_mod c 16 ltac:(lia)) as Hd.
  destruct (hex_digit_ok (c / 16)) as [H1 V1]; [lia |]. destruct (hex_digit_ok (c mod 16)) as [H2 V2]; [done |].
  split; [done |]. split; [done |]. rewrite V1, V2. lia.
Qed.

(** What [render_char] writes, by cases: a raw byte, a short escape or a
    [\u00xx] escape. *)
Lemma render_char_cases c :
  is_byte c ->
  (render_char c = [c] /\ 32 <= c /\ c <> DQUOTE /\ c <> BACKSLASH) \/
  (exists e, render_char c = [BACKSLASH; e] /\ e ∈ DQUOTE :: BACKSLASH :: lit "/bfnrt" /\ e <> 117 /\ simple_escape e = Some c) \/
  (0 <= c < 32 /\ render_char c = [BACKSLASH; 117; 48; 48; hex_digit (c / 16); hex_digit (c mod 16)]).
Proof.
  intros [Hc _]. unfold render_char.
  repeat match goal with
  | |- context [if ?x =? ?k then _ else _] =>
      destruct (Z.eqb_spec x k) as [-> | ?];
      [right; left; eexists; split; [reflexivity |]; split; [set_solver |]; split; [done | reflexivity] |]
  end.
  destruct (Z.ltb_spec c 32); [right; right | left]; auto.
Qed.

Lemma chars_text_ok s : Forall is_byte s -> json_chars (concat (map render_char s)).
Proof.
  induction 1 as [| c s Hc _ IH]; [constructor |]. simpl.
  destruct (render_char_cases c Hc) as [(-> & ? & ? & ?) | [(e & -> & ? & _ & _) | (Hr & ->)]].
  - by constructor.
  - by constructor.
  - simpl. constructor; [| done]. destruct (hex_digits_ok c Hc) as (H1 & H2 & _).
    simpl. by rewrite H1, H2.
Qed.

Lemma unescape_render c s :
  is_byte c -> unescape (render_char c ++ s) = l ← unescape s; Some (c :: l).
Proof.
  intros Hc. destruct (render_char_cases c Hc) as [(-> & H & ? & ?) | [(e & -> & _ & He & Hs) | (Hr & ->)]]; simpl app.
  - simpl. destruct (Z.eqb_spec c BACKSLASH), (Z.ltb_spec c 32), (Z.eqb_spec c DQUOTE); try lia; done.
  - simpl. destruct (Z.eqb_spec e 117); [done |]. by rewrite Hs.
  - destruct (hex_digits_ok c Hc) as (H1 & H2 & V).
    cbn [unescape]. rewrite !Z.eqb_refl. unfold forallb. rewrite H1, H2.
    simpl. destruct (unescape s); simpl; [| done]. do 2 f_equal. change (hex_value 48) with 0. lia.
Qed.

Lemma unescape_chars s : Forall is_byte s -> unescape (concat (map render_char s)) = Some s.
Proof. induction 1 as [| c s Hc _ IH]; [done |]. cbn [map concat]. by rewrite unescape_render, IH. Qed.

Lemma digits_ok fuel n acc :
  0 <= n < 10 ^ Z.of_nat fuel -> (0 < fuel)%nat -> forallb is_digit acc = true ->
  exists d ds, digits fuel n acc = d :: ds ++ acc /\ forallb is_digit (d :: ds) = true /\ (d = 48 -> n = 0).
Proof.
  revert n acc. induction fuel as [| fuel IH]; intros n acc Hn Hf Ha; [lia |]. cbn [digits].
  pose proof (Z.mod_pos_bound n 10 ltac:(lia)) as Hm. pose proof (Z.div_mod n 10 ltac:(lia)) as Hd.
  assert (Hdig : is_digit (48 + n mod 10) = true) by (unfold is_digit; lia).
  destruct (Z.ltb_spec n 10) as [Hlt | Hge].
  { exists (48 + n mod 10), []. split; [done |]. split; [simpl; by rewrite Hdig |]. intros. lia. }
  rewrite Nat2Z.inj_succ, Z.pow_succ_r in Hn by lia.
  destruct (IH (n / 10) (48 + n mod 10 :: acc)) as (d & ds & E & Hds & Hz); [lia | | by simpl; rewrite Hdig |].
  { destruct fuel; [simpl in Hn; lia | lia]. }
  exists d, (ds ++ [48 + n mod 10]). rewrite E, <- app_assoc. split; [done |].
  simpl in *. rewrite forallb_app. simpl. rewrite Hdig. apply andb_prop in Hds as [-> ->]. split; [done |].
  intros ->. specialize (Hz eq_refl). lia.
Qed.

Lemma digits_int n :
  0 <= n < 10 ^ 20 ->
  digits 20 n [] <> [] /\ forallb is_digit (digits 20 n []) = true /\ (hd 0 (digits 20 n []) = 48 -> digits 20 n [] = [48]).
Proof.
  intros Hn. destruct (digits_ok 20 n []) as (d & ds & E & Hds & Hz); [done | lia | done |].
  rewrite app_nil_r in E. rewrite E. split; [done |]. split; [done |]. simpl. intros Hd. specialize (Hz Hd). subst n.
  by change (digits 20 0 []) with [48] in E.
Qed.

Lemma print_d_int n : Z.abs n < 10 ^ 20 -> json_int (print_d n).
Proof.
  intros Hn. unfold print_d. destruct (Z.ltb_spec n 0).
  - exists [45], (digits 20 (- n) []). destruct (digits_int (- n)) as (? & ? & ?); [lia |]. auto 10.
  - exists [], (digits 20 n []). destruct (digits_int n) as (? & ? & ?); [lia |]. auto 10.
Qed.

(** What the engine's conversions return: byte strings, and JSON text from its
    number formatter and from [JS_JSONStringify]. *)
Definition value_ok (v : tvalue) : Prop :=
  match v with
  | TInt n => - 2 ^ 31 <= n < 2 ^ 31
  | TFloat _ _ (Some s) | TObject (StringifyText (Some s)) => is_json s
  | TString (Some s) | TFunction (Some s) => Forall is_byte s
  | _ => True
  end.

Definition frame_ok (f : frame) (b : bytecode) (pc : option Z) : Prop :=
  bc_line b pc < 2 ^ 31 /\ Forall (fun nv => value_ok nv.2) (fr_vars f b ++ fr_closure f b).

Definition atoms_ok (atom_cstr : Z -> option bytes) : Prop := forall a s, atom_cstr a = Some s -> Forall is_byte s.

Lemma lit_bytes s : Forall is_byte (lit s).
Proof. induction s as [| c s IH]; constructor; [| done]. pose proof (nat_ascii_bounded c). unfold is_byte. lia. Qed.

Lemma c_str_bytes s : Forall is_byte s -> Forall is_byte (c_str s).
Proof. induction 1 as [| c s Hc Hs IH]; simpl; [constructor |]. case_match; by constructor. Qed.

Create HintDb json.
#[local] Hint Resolve lit_bytes c_str_bytes Forall_take chars_text_ok : json.

Lemma str_json s : Forall is_byte s -> is_json (render_str s).
Proof. intros. apply json_string. auto with json. Qed.

Lemma int_json n : Z.abs n < 10 ^ 20 -> is_json (print_d n).
Proof. intros. by apply json_number, json_int_num, print_d_int. Qed.

Lemma lit_chars s : concat (map render_char (lit s)) = lit s -> json_chars (lit s).
Proof. intros E. rewrite <- E. auto with json. Qed.

Lemma placeholder_json s : concat (map render_char (lit s)) = lit s -> is_json (quoted (lit s)).
Proof. intros E. by apply json_string, lit_chars. Qed.

Lemma literal_json s : s ∈ [lit "null"; lit "true"; lit "false"] -> is_json s.
Proof. apply json_literal. Qed.

Lemma value_json v : value_ok v -> is_json (render_value v).
Proof.
  destruct v as [| | | [] | | n | | m e [s |] | [s |] | [s |] | [| | [s |]]]; cbn [render_value value_ok default from_option]; intros H;
    try (by apply placeholder_json); try (by apply literal_json; set_solver); try done.
  - apply int_json. lia.
  - repeat case_match; try done. apply int_json. lia.
  - repeat case_match; try (apply literal_json; set_solver). apply int_json. lia.
  - by apply str_json.
  - apply str_json, Forall_take, Forall_app. split; [apply lit_bytes |]. apply Forall_app; auto with json.
  - apply str_json, Forall_take, Forall_app. split; apply lit_bytes.
Qed.

Section json_text.
Context (atom_cstr : Z -> option bytes) (Hatoms : atoms_ok atom_cstr).

Lemma atom_chars a fb : Forall is_byte (match atom_cstr a with Some s => c_str s | None => lit fb end).
Proof. destruct (atom_cstr a) eqn:E; [apply Hatoms in E |]; auto with json. Qed.

Lemma members_json l :
  Forall (fun nv => value_ok nv.2) l -> is_json (render_object (members atom_cstr l)).
Proof.
  intros H. apply json_object; unfold members; apply List.Forall_map; [| by eapply Forall_impl; [exact H | intros nv; apply value_json]].
  apply Forall_true. intros nv. simpl. eexists. split; [reflexivity |]. apply chars_text_ok, atom_chars.
Qed.

Lemma filter_ok (p : Z * tvalue -> bool) l :
  Forall (fun nv => value_ok nv.2) l -> Forall (fun nv => value_ok nv.2) (List.filter p l).
Proof. rewrite !List.Forall_forall. intros H x [Hx _]%filter_In. auto. Qed.

Lemma frame_json f b pc : frame_ok f b pc -> is_json (render_frame atom_cstr f b pc).
Proof.
  intros [Hl [Hv Hc]%Forall_app]. assert (Hm : is_json (render_object (members atom_cstr (frame_vars f b)))).
  { apply members_json, Forall_app. split; repeat apply filter_ok; done. }
  apply json_object.
  - do 4 (apply Forall_cons_2; [eexists; (split; [reflexivity |]); by apply lit_chars |]). constructor.
  - do 2 (apply Forall_cons_2; [apply str_json, atom_chars |]). apply Forall_cons_2; [apply int_json; simpl; lia |].
    by apply Forall_cons_2.
Qed.

Lemma stack_json sfs top_b top_pc :
  Forall (fun fb => frame_ok fb.1.1 fb.1.2 fb.2) (shown sfs true top_b top_pc) ->
  is_json (render_stack atom_cstr sfs top_b top_pc).
Proof. intros H. apply json_array, List.Forall_map. eapply Forall_impl; [exact H |]. intros fb. apply frame_json. Qed.
End json_text.

(** ** Properties *)

(** C28: Snapshot documents.  For every stack, whatever [realloc] answers, the
    document builder of [emit_state] returns; it is in error exactly when an
    allocation it needed failed, which takes a failing [realloc]; otherwise the
    buffer holds the specified text of the stack (topmost frame first, locals
    hiding closure variables, in order), which is a JSON array by the grammar. *)
Theorem snapshot_is_json atom_cstr answers sfs top_b top_pc
    (Hatoms : atoms_ok atom_cstr)
    (Hframes : Forall (fun fb => frame_ok fb.1.1 fb.1.2 fb.2) (shown sfs true top_b top_pc))
    (Hlen : lenZ (render_stack atom_cstr sfs top_b top_pc) < 2 ^ 62) :
  exists j, jb_state atom_cstr sfs top_b top_pc (jbuf_init answers) = Done (tt, j) /\
    (if jb_err j then false ∈ answers
     else jb_buf j = render_stack atom_cstr sfs top_b top_pc /\ is_json (jb_buf j)).
Proof.
  destruct (swp_done _ _ _ (emits_state atom_cstr sfs top_b top_pc (jbuf_init answers) ltac:(done) Hlen))
    as ([] & j & E & _ & _ & _ & _ & H).
  exists j. split; [done |]. destruct H as [[-> [? | ?]] | (_ & -> & Hb)]; [done | done |].
  rewrite Hb. split; [done |]. by apply stack_json.
Qed.

(** String escaping round trip.  The text [jb_json_str] appends for any
    byte string is a quoted string body of the grammar from which unescaping
    gives back exactly that byte string. *)
Theorem json_string_roundtrip j s
    (Hs : Forall is_byte s) (Hc : 0 <= jb_cap j) (He : jb_err j = false) (Hr : false ∉ reallocs j)
    (Hlen : lenZ (jb_buf j) + lenZ (render_str s) < 2 ^ 62) :
  exists j' t, jb_json_str s j = Done (tt, j') /\ jb_buf j' = jb_buf j ++ quoted t /\ json_chars t /\ unescape t = Some s.
Proof.
  destruct (swp_done _ _ _ (emits_json_str s j Hc Hlen)) as ([] & j' & E & _ & _ & _ & _ & H).
  exists j', (concat (map render_char s)). split; [done |]. destruct H as [[_ [? | ?]] | (_ & _ & ->)]; [congruence | done |].
  split; [done |]. split; [by apply chars_text_ok | by apply unescape_chars].
Qed.

Module ToyStack.
Definition atoms (a : Z) : option bytes := if a =? 7 then Some (lit "f") else if a =? 8 then Some (10 :: lit "x") else None.
Definition bc : bytecode := {| bc_func_name := 7; bc_filename := 9; bc_line := fun pc => match pc with Some p => p | None => -1 end |}.
Definition fr : frame := {| fr_bytecode := Some bc; fr_pc := None;
  fr_vars := fun _ => [(8, TInt (-12)); (0, TNull)]; fr_closure := fun _ => [(8, TSymbol); (7, TFunction (Some (lit "g")))] |}.
Definition stack : list frame := [fr; {| fr_bytecode := None; fr_pc := None; fr_vars := fun _ => []; fr_closure := fun _ => [] |}; fr].

Lemma stack_ok : Forall (fun fb => frame_ok fb.1.1 fb.1.2 fb.2) (shown stack true (Some bc) (Some 3)).
Proof. repeat constructor; cbn [value_ok snd]; try lia; apply lit_bytes. Qed.

Lemma atoms_bytes : atoms_ok atoms.
Proof. intros a s. unfold atoms. repeat case_match; intros [= <-]; repeat constructor; lia. Qed.

Lemma snapshot_is_json_witness :
  atoms_ok atoms /\
  exists j, jb_state atoms stack (Some bc) (Some 3) (jbuf_init [true]) = Done (tt, j) /\
    (if jb_err j then false ∈ [true]
     else jb_buf j = render_stack atoms stack (Some bc) (Some 3) /\ is_json (jb_buf j)).
Proof.
  split; [apply atoms_bytes |].
  apply (snapshot_is_json atoms [true] stack (Some bc) (Some 3)); [apply atoms_bytes | apply stack_ok | vm_compute; reflexivity].
Defined.

Lemma json_string_roundtrip_witness :
  exists j' t, jb_json_str [34; 10; 1; 92; 65] (jbuf_init []) = Done (tt, j') /\
    jb_buf j' = jb_buf (jbuf_init []) ++ quoted t /\ json_chars t /\ unescape t = Some [34; 10; 1; 92; 65].
Proof.
  apply (json_string_roundtrip (jbuf_init []) [34; 10; 1; 92; 65]);
    [repeat constructor; lia | done | done | set_solver | vm_compute; reflexivity].
Defined.
End ToyStack.
