(* ===== verification/Trace.v ===== *)
(** * The trace emitter (qjs-arena-trace.c)

    Interpreter hooks turn execution into binary events delivered to a host
    callback, whose answer can stop the run or ask for a stack snapshot.

    The world holds every reactor instance's [ArenaTraceState], the slot of each
    runtime, [s_in_hook], the contexts with a pending exception and, as ghost
    state, what the host received.  The host callback is an argument: any
    computation on the world, so that it may take snapshots and run hooks of
    other instances. *)

From stdpp Require Import base gmap list numbers sets.
From Stdlib Require Import ZArith Lia.
From S2P Require Import Prelude StateRun Memory TraceJson.

#[local] Open Scope st_scope.
#[local] Open Scope Z_scope.

(** ** State *)

Definition ARENA_TRACE_OFF : Z := 0.
Definition ARENA_TRACE_SCAN : Z := 1.
Definition ARENA_TRACE_DRILL : Z := 2.
Definition ARENA_TRACE_NAME_CAP : Z := 1024.
Definition ARENA_TRACE_SCRATCH_CAP : Z := 4096.

(** [name_table] is its first [name_count] entries; [None] is NULL. *)
Record ArenaTraceState := {
  mode : Z;
  bail_armed : bool;
  active_ctx : option Z;
  active_b : option bytecode;
  active_pc : option Z;
  last_line_emitted : Z;
  last_file_atom : Z;
  name_table : list Z;
  scratch : bytes
}.

Definition name_count (st : ArenaTraceState) : Z := lenZ (name_table st).

Definition set_names (l : list Z) (st : ArenaTraceState) : ArenaTraceState :=
  {| mode := mode st; bail_armed := bail_armed st; active_ctx := active_ctx st; active_b := active_b st;
     active_pc := active_pc st; last_line_emitted := last_line_emitted st; last_file_atom := last_file_atom st;
     name_table := l; scratch := scratch st |}.

Definition set_active (ctx : option Z) (b : option bytecode) (pc : option Z) (st : ArenaTraceState) : ArenaTraceState :=
  {| mode := mode st; bail_armed := bail_armed st; active_ctx := ctx; active_b := b;
     active_pc := pc; last_line_emitted := last_line_emitted st; last_file_atom := last_file_atom st;
     name_table := name_table st; scratch := scratch st |}.

Definition set_last (line file : Z) (st : ArenaTraceState) : ArenaTraceState :=
  {| mode := mode st; bail_armed := bail_armed st; active_ctx := active_ctx st; active_b := active_b st;
     active_pc := active_pc st; last_line_emitted := line; last_file_atom := file;
     name_table := name_table st; scratch := scratch st |}.

Definition set_bail (b : bool) (st : ArenaTraceState) : ArenaTraceState :=
  {| mode := mode st; bail_armed := b; active_ctx := active_ctx st; active_b := active_b st;
     active_pc := active_pc st; last_line_emitted := last_line_emitted st; last_file_atom := last_file_atom st;
     name_table := name_table st; scratch := scratch st |}.

(** [memcpy(st->scratch + off, bs, n)]. *)
Definition put_scratch (off : Z) (bs : bytes) (st : ArenaTraceState) : ArenaTraceState :=
  {| mode := mode st; bail_armed := bail_armed st; active_ctx := active_ctx st; active_b := active_b st;
     active_pc := active_pc st; last_line_emitted := last_line_emitted st; last_file_atom := last_file_atom st;
     name_table := name_table st;
     scratch := take (Z.to_nat off) (scratch st) ++ bs ++ drop (Z.to_nat (off + lenZ bs)) (scratch st) |}.

(** What the host has received: an event of the state dispatching, its clamped
    answer, a snapshot document. *)
Inductive delivery :=
  | DEvent (who : option Z) (kind : Z) (payload : bytes)
  | DAnswer (who : option Z) (code : Z)
  | DState (ctx : Z) (doc : bytes).

Record tworld := {
  traces : gmap Z ArenaTraceState;
  arena_trace_state : gmap Z Z;
  s_in_hook : option Z;
  pending : gset Z;
  sent : list delivery;
  heap_answers : list bool
}.

Definition with_traces (f : gmap Z ArenaTraceState -> gmap Z ArenaTraceState) (w : tworld) : tworld :=
  {| traces := f (traces w); arena_trace_state := arena_trace_state w; s_in_hook := s_in_hook w;
     pending := pending w; sent := sent w; heap_answers := heap_answers w |}.
Definition with_in_hook (o : option Z) (w : tworld) : tworld :=
  {| traces := traces w; arena_trace_state := arena_trace_state w; s_in_hook := o;
     pending := pending w; sent := sent w; heap_answers := heap_answers w |}.
Definition with_pending (f : gset Z -> gset Z) (w : tworld) : tworld :=
  {| traces := traces w; arena_trace_state := arena_trace_state w; s_in_hook := s_in_hook w;
     pending := f (pending w); sent := sent w; heap_answers := heap_answers w |}.
Definition with_sent (d : list delivery) (w : tworld) : tworld :=
  {| traces := traces w; arena_trace_state := arena_trace_state w; s_in_hook := s_in_hook w;
     pending := pending w; sent := sent w ++ d; heap_answers := heap_answers w |}.
Definition with_answers (l : list bool) (w : tworld) : tworld :=
  {| traces := traces w; arena_trace_state := arena_trace_state w; s_in_hook := s_in_hook w;
     pending := pending w; sent := sent w; heap_answers := l |}.

Definition st_get (st : Z) : ST tworld ArenaTraceState := sderef (fun w => traces w !! st).
Definition st_mod (st : Z) (f : ArenaTraceState -> ArenaTraceState) : ST tworld unit := smod (with_traces (alter f st)).
Definition tell (d : delivery) : ST tworld unit := smod (with_sent [d]).

(** ** Binding a state to a runtime *)

Definition js_arena_trace_set_state (rt st : Z) : ST tworld unit :=
  smod (fun w => {| traces := traces w; arena_trace_state := <[rt := st]> (arena_trace_state w);
                    s_in_hook := s_in_hook w; pending := pending w; sent := sent w; heap_answers := heap_answers w |}).

Definition js_arena_trace_get_state (rt : Z) : ST tworld (option Z) := sget (fun w => arena_trace_state w !! rt).

(** ** Lifecycle *)

Definition zero_trace_state : ArenaTraceState :=
  {| mode := 0; bail_armed := false; active_ctx := None; active_b := None; active_pc := None;
     last_line_emitted := 0; last_file_atom := 0; name_table := []; scratch := replicate (Z.to_nat ARENA_TRACE_SCRATCH_CAP) 0 |}.

Definition arena_trace_state_init (st : Z) : ST tworld unit :=
  smod (with_traces (fun m => <[st := {| mode := ARENA_TRACE_OFF; bail_armed := false; active_ctx := None; active_b := None;
     active_pc := None; last_line_emitted := -1; last_file_atom := 0; name_table := [];
     scratch := scratch zero_trace_state |}]> m)).

Definition arena_trace_reset (st : Z) : ST tworld unit :=
  st_mod st (fun s => {| mode := mode s; bail_armed := false; active_ctx := None; active_b := None; active_pc := None;
     last_line_emitted := -1; last_file_atom := 0; name_table := []; scratch := scratch s |}).

Definition arena_trace_stop_armed (st : option Z) : ST tworld bool :=
  match st with Some st => let^ s := st_get st in sret (bail_armed s) | None => sret false end.

(** ** The host *)

Section trace.
(** [s_event_cb]; [JS_GetRuntime]; the engine: [JS_AtomToCString] and the
    frames of the context's current stack. *)
Context (on_event : option (Z -> bytes -> ST tworld Z)).
Context (runtime_of : Z -> Z) (atom_cstr : Z -> option bytes) (top_frame : Z -> list frame).

Definition clamp_code (r : Z) : Z := if (r =? 1) || (r =? 2) then r else 0.

Definition _arena_host_trace (kind : Z) (payload : bytes) : ST tworld Z :=
  match on_event with
  | None => sret 0
  | Some cb =>
      let^ who := sget s_in_hook in
      tell (DEvent who kind payload) ;^
      let^ r := cb kind payload in
      tell (DAnswer who (clamp_code r)) ;^
      sret (clamp_code r)
  end.

Definition _arena_host_state (ctx : Z) (payload : bytes) : ST tworld unit := tell (DState ctx payload).

(** ** Names *)

Definition name_seen (s : ArenaTraceState) (atom : Z) : bool := existsb (Z.eqb atom) (name_table s).

Definition name_remember (st atom : Z) : ST tworld unit :=
  let^ s := st_get st in
  if ARENA_TRACE_NAME_CAP <=? name_count s then sret tt
  else st_mod st (fun s => set_names (name_table s ++ [atom]) s).

(** The two clamps of a length written after [hdr] header bytes. *)
Definition clamp_len (hdr n : Z) : Z :=
  let n := if 65535 <? n then 65535 else n in
  if ARENA_TRACE_SCRATCH_CAP <? n + hdr then ARENA_TRACE_SCRATCH_CAP - hdr else n.

(** Deliver the first [n] bytes of the scratch buffer. *)
Definition send_scratch (st kind n : Z) : ST tworld Z :=
  let^ s := st_get st in _arena_host_trace kind (take (Z.to_nat n) (scratch s)).

Definition emit_name (st ctx atom : Z) : ST tworld Z :=
  name_remember st atom ;^
  match atom_cstr atom with
  | None => smod (with_pending ({[ctx]} ∪.)) ;^ sret 0
  | Some s =>
      let slen := clamp_len 6 (lenZ (c_str s)) in
      st_mod st (put_scratch 0 (le_bytes 4 atom)) ;^
      st_mod st (put_scratch 4 (le_bytes 2 slen)) ;^
      st_mod st (put_scratch 6 (take (Z.to_nat slen) (c_str s))) ;^
      send_scratch st 0 (6 + slen)
  end.

Definition ensure_name (st ctx atom : Z) : ST tworld Z :=
  let^ s := st_get st in
  if name_seen s atom then sret 0 else emit_name st ctx atom.

(** ** Snapshots and stopping *)

Definition emit_state (st ctx : Z) (top_b : option bytecode) (top_pc : option Z) : ST tworld unit :=
  let^ s := st_get st in
  if bail_armed s then sret tt
  else
    let^ w := sget id in
    let^ (_, j) := slift (jb_state atom_cstr (top_frame ctx) top_b top_pc (jbuf_init (heap_answers w))) in
    smod (with_answers (reallocs j)) ;^
    (if jb_err j then sret tt else _arena_host_state ctx (jb_buf j)) ;^
    smod (with_pending (.∖ {[ctx]})).

Definition raise_stop (st ctx : Z) : ST tworld unit :=
  let^ s := st_get st in
  if bail_armed s then sret tt
  else
    smod (with_pending ({[ctx]} ∪.)) ;^
    st_mod st (set_bail true).

Definition handle_stop_code (st ctx code : Z) (b : option bytecode) (pc : option Z) : ST tworld unit :=
  (if code =? 2 then emit_state st ctx b pc else sret tt) ;^
  (if code =? 0 then sret tt else raise_stop st ctx).

Definition arena_trace_snapshot_here : ST tworld Z :=
  let^ who := sget s_in_hook in
  match who with
  | None => sret (-1)
  | Some st =>
      let^ s := st_get st in
      match active_ctx s with
      | Some ctx =>
          if bail_armed s then sret (-1)
          else emit_state st ctx (active_b s) (active_pc s) ;^ sret 0
      | None => sret (-1)
      end
  end.

Definition merge_stop (a b : Z) : Z :=
  if (a =? 2) || (b =? 2) then 2 else if negb (a =? 0) || negb (b =? 0) then 1 else 0.

(** ** Hooks *)

Definition hook_state (ctx : Z) : ST tworld (option Z) := js_arena_trace_get_state (runtime_of ctx).

(** The guard of every hook: a state is bound to [ctx]'s runtime, its mode is
    not excluded and it is not stopped. *)
Definition hook_enabled (ctx : Z) (excluded : Z -> bool) (k : Z -> ST tworld unit) : ST tworld unit :=
  let^ o := hook_state ctx in
  match o with
  | None => sret tt
  | Some st =>
      let^ s := st_get st in
      if excluded (mode s) || bail_armed s then sret tt else k st
  end.

(** [prev = s_in_hook; st->active_* = ..; s_in_hook = st]; returns [prev]. *)
Definition hook_enter (st ctx : Z) (b : option bytecode) (pc : option Z) : ST tworld (option Z) :=
  let^ prev := sget s_in_hook in
  st_mod st (set_active (Some ctx) b pc) ;^
  smod (with_in_hook (Some st)) ;^
  sret prev.

Definition hook_leave (st : Z) (prev : option Z) : ST tworld unit :=
  smod (with_in_hook prev) ;^
  st_mod st (set_active None None None).

Definition arena_trace_func_enter (ctx : Z) (b : bytecode) : ST tworld unit :=
  hook_enabled ctx (Z.eqb ARENA_TRACE_OFF) (fun st =>
    let name_atom := bc_func_name b in
    let file_atom := bc_filename b in
    let line := bc_line b None in
    let line := if line <? 0 then 0 else line in
    let^ prev := hook_enter st ctx (Some b) None in
    let^ c1 := ensure_name st ctx name_atom in
    let stop := merge_stop 0 c1 in
    let^ c2 := ensure_name st ctx file_atom in
    let stop := merge_stop stop c2 in
    st_mod st (put_scratch 0 (le_bytes 4 name_atom)) ;^
    st_mod st (put_scratch 4 (le_bytes 4 file_atom)) ;^
    st_mod st (put_scratch 8 (le_bytes 4 (u32 line))) ;^
    let^ c3 := send_scratch st 1 12 in
    let stop := merge_stop stop c3 in
    hook_leave st prev ;^
    st_mod st (set_last (-1) 0) ;^
    handle_stop_code st ctx stop (Some b) None).

(** Leaves [active_b] and [active_pc] as the entry set them, NULL. *)
Definition arena_trace_func_exit (ctx : Z) : ST tworld unit :=
  hook_enabled ctx (Z.eqb ARENA_TRACE_OFF) (fun st =>
    let^ prev := hook_enter st ctx None None in
    let^ stop := send_scratch st 2 0 in
    smod (with_in_hook prev) ;^
    st_mod st (fun s => set_active None (active_b s) (active_pc s) s) ;^
    st_mod st (set_last (-1) 0) ;^
    handle_stop_code st ctx stop None None).

Definition arena_trace_check_line (ctx : Z) (b : bytecode) (pc : option Z) : ST tworld unit :=
  hook_enabled ctx (fun m => m <? ARENA_TRACE_DRILL) (fun st =>
    let line := bc_line b pc in
    if line <? 0 then sret tt
    else
      let file_atom := bc_filename b in
      let^ s := st_get st in
      if (u32 line =? u32 (last_line_emitted s)) && (file_atom =? last_file_atom s) then sret tt
      else
        st_mod st (set_last line file_atom) ;^
        let^ prev := hook_enter st ctx (Some b) pc in
        let^ stop := ensure_name st ctx file_atom in
        st_mod st (put_scratch 0 (le_bytes 4 file_atom)) ;^
        st_mod st (put_scratch 4 (le_bytes 4 (u32 line))) ;^
        let^ c := send_scratch st 3 8 in
        let stop := merge_stop stop c in
        hook_leave st prev ;^
        handle_stop_code st ctx stop (Some b) pc).

(** [to_cstring] is [JS_ToCString(ctx, thrown)], which may run script. *)
Definition arena_trace_op_throw (ctx : Z) (b : bytecode) (pc : option Z) (to_cstring : ST tworld (option bytes))
    : ST tworld unit :=
  hook_enabled ctx (Z.eqb ARENA_TRACE_OFF) (fun st =>
    let line := bc_line b pc in
    let line := if line <? 0 then 0 else line in
    let file_atom := bc_filename b in
    let^ prev := hook_enter st ctx (Some b) pc in
    let^ stop := ensure_name st ctx file_atom in
    let^ msg := to_cstring in
    let mlen := clamp_len 10 (match msg with Some m => lenZ (c_str m) | None => 0 end) in
    st_mod st (put_scratch 0 (le_bytes 4 file_atom)) ;^
    st_mod st (put_scratch 4 (le_bytes 4 (u32 line))) ;^
    st_mod st (put_scratch 8 (le_bytes 2 mlen)) ;^
    (match msg with Some m => st_mod st (put_scratch 10 (take (Z.to_nat mlen) (c_str m))) | None => sret tt end) ;^
    let^ c := send_scratch st 4 (10 + mlen) in
    let stop := merge_stop stop c in
    hook_leave st prev ;^
    handle_stop_code st ctx stop (Some b) pc).

End trace.
