(* ===== verification/TraceProofs.v ===== *)
(** * What the trace emitter delivers

    Typed events with their wire format, the pure specification of each hook
    ([spec_hook]), and the proof that the hooks of Trace.v tell exactly those
    events, for every host callback that leaves the dispatching instances
    alone. *)

From stdpp Require Import base gmap list numbers sets.
From Stdlib Require Import ZArith Lia.
From S2P Require Import Prelude StateRun Memory TraceJson Trace.

#[local] Open Scope st_scope.
#[local] Open Scope Z_scope.
#[local] Arguments le_bytes : simpl never.

(** ** Wire format *)

Inductive event :=
  | EName (atom : Z) (s : bytes)
  | EEnter (name file line : Z)
  | EExit
  | ELine (file line : Z)
  | EThrow (file line : Z) (msg : bytes).

Definition encode (e : event) : Z * bytes :=
  match e with
  | EName a s => (0, le_bytes 4 a ++ le_bytes 2 (lenZ s) ++ s)
  | EEnter n f l => (1, le_bytes 4 n ++ le_bytes 4 f ++ le_bytes 4 l)
  | EExit => (2, [])
  | ELine f l => (3, le_bytes 4 f ++ le_bytes 4 l)
  | EThrow f l m => (4, le_bytes 4 f ++ le_bytes 4 l ++ le_bytes 2 (lenZ m) ++ m)
  end.

(** The little-endian field of [n] bytes at [off]. *)
Definition field (off n : nat) (p : bytes) : Z := le_value (take n (drop off p)).

(** The host's reader, from the format's description. *)
Definition decode (kind : Z) (p : bytes) : option event :=
  if kind =? 0 then
    if (6 <=? lenZ p) && (lenZ p =? 6 + field 4 2 p) then Some (EName (field 0 4 p) (drop 6 p)) else None
  else if kind =? 1 then
    if lenZ p =? 12 then Some (EEnter (field 0 4 p) (field 4 4 p) (field 8 4 p)) else None
  else if kind =? 2 then
    if lenZ p =? 0 then Some EExit else None
  else if kind =? 3 then
    if lenZ p =? 8 then Some (ELine (field 0 4 p) (field 4 4 p)) else None
  else if kind =? 4 then
    if (10 <=? lenZ p) && (lenZ p =? 10 + field 8 2 p) then Some (EThrow (field 0 4 p) (field 4 4 p) (drop 10 p)) else None
  else None.

Definition word32 (x : Z) : Prop := 0 <= x < 2 ^ 32.

Definition event_ok (e : event) : Prop :=
  match e with
  | EName a s => word32 a /\ lenZ s < 2 ^ 16
  | EEnter n f l => word32 n /\ word32 f /\ word32 l
  | EExit => True
  | ELine f l => word32 f /\ word32 l
  | EThrow f l m => word32 f /\ word32 l /\ lenZ m < 2 ^ 16
  end.

(** ** What a hook should tell *)

Inductive hookcall :=
  | HEnter (b : bytecode)
  | HExit
  | HLine (b : bytecode) (pc : option Z)
  | HThrow (b : bytecode) (pc : option Z) (msg : option bytes).

(** What of the state the specification reads: the names announced and the
    last line. *)
Record view := { v_names : list Z; v_line : Z; v_file : Z }.

Definition view_of (s : ArenaTraceState) : view :=
  {| v_names := name_table s; v_line := last_line_emitted s; v_file := last_file_atom s |}.

Section spec.
Context (atom_cstr : Z -> option bytes).

(** A string cut to what fits after [hdr] bytes. *)
Definition clip (hdr : Z) (s : bytes) : bytes := take (Z.to_nat (clamp_len hdr (lenZ (c_str s)))) (c_str s).

Definition announce (names : list Z) (a : Z) : list event * list Z :=
  if existsb (Z.eqb a) names then ([], names)
  else (match atom_cstr a with Some s => [EName a (clip 6 s)] | None => [] end,
        if ARENA_TRACE_NAME_CAP <=? lenZ names then names else names ++ [a]).

Definition line_of (b : bytecode) (pc : option Z) : Z := u32 (Z.max 0 (bc_line b pc)).

Definition spec_hook (m : Z) (v : view) (h : hookcall) : list event * view :=
  if m =? ARENA_TRACE_OFF then ([], v)
  else
    match h with
    | HEnter b =>
        let '(e1, t) := announce (v_names v) (bc_func_name b) in
        let '(e2, t) := announce t (bc_filename b) in
        (e1 ++ e2 ++ [EEnter (bc_func_name b) (bc_filename b) (line_of b None)], {| v_names := t; v_line := -1; v_file := 0 |})
    | HExit => ([EExit], {| v_names := v_names v; v_line := -1; v_file := 0 |})
    | HLine b pc =>
        if (m <? ARENA_TRACE_DRILL) || (bc_line b pc <? 0)
           || ((u32 (bc_line b pc) =? u32 (v_line v)) && (bc_filename b =? v_file v))
        then ([], v)
        else
          let '(e, t) := announce (v_names v) (bc_filename b) in
          (e ++ [ELine (bc_filename b) (line_of b pc)], {| v_names := t; v_line := bc_line b pc; v_file := bc_filename b |})
    | HThrow b pc msg =>
        let '(e, t) := announce (v_names v) (bc_filename b) in
        (e ++ [EThrow (bc_filename b) (line_of b pc) (clip 10 (default [] msg))],
         {| v_names := t; v_line := v_line v; v_file := v_file v |})
    end.

Fixpoint spec_run (m : Z) (v : view) (hs : list hookcall) : list event * view :=
  match hs with
  | [] => ([], v)
  | h :: hs => let '(e, v) := spec_hook m v h in let '(es, v) := spec_run m v hs in (e ++ es, v)
  end.
End spec.

(** ** The hooks as calls *)

Definition run_hook on_event runtime_of atom_cstr top_frame (ctx : Z) (h : hookcall) : ST tworld unit :=
  match h with
  | HEnter b => arena_trace_func_enter on_event runtime_of atom_cstr top_frame ctx b
  | HExit => arena_trace_func_exit on_event runtime_of atom_cstr top_frame ctx
  | HLine b pc => arena_trace_check_line on_event runtime_of atom_cstr top_frame ctx b pc
  | HThrow b pc msg => arena_trace_op_throw on_event runtime_of atom_cstr top_frame ctx b pc
      ((match msg with None => smod (with_pending ({[ctx]} ∪.)) | Some _ => sret tt end) ;^ sret msg)
  end.

Fixpoint run_hooks on_event runtime_of atom_cstr top_frame (ctx : Z) (hs : list hookcall) : ST tworld unit :=
  match hs with
  | [] => sret tt
  | h :: hs =>
      run_hook on_event runtime_of atom_cstr top_frame ctx h ;^ run_hooks on_event runtime_of atom_cstr top_frame ctx hs
  end.

(** ** What instance [st] saw of a log *)

Definition event_of (st : Z) (d : delivery) : option (Z * bytes) :=
  match d with DEvent (Some who) k p => if who =? st then Some (k, p) else None | _ => None end.
Definition answer_of (st : Z) (d : delivery) : option Z :=
  match d with DAnswer (Some who) c => if who =? st then Some c else None | _ => None end.
Definition events_of (st : Z) (l : list delivery) : list (Z * bytes) := omap (event_of st) l.
Definition answers_of (st : Z) (l : list delivery) : list Z := omap (answer_of st) l.

Definition not_of (st : Z) (d : delivery) : Prop := event_of st d = None /\ answer_of st d = None.

Lemma events_of_app st l l' : events_of st (l ++ l') = events_of st l ++ events_of st l'.
Proof. apply omap_app. Qed.
Lemma answers_of_app st l l' : answers_of st (l ++ l') = answers_of st l ++ answers_of st l'.
Proof. apply omap_app. Qed.
Lemma not_of_nil st l : Forall (not_of st) l -> events_of st l = [] /\ answers_of st l = [].
Proof.
  unfold events_of, answers_of. induction 1 as [| d l [He Ha] _ [IH1 IH2]]; simpl; [done |].
  by rewrite He, Ha.
Qed.

(** States the world refers to exist. *)
Definition world_ok (w : tworld) : Prop :=
  (forall st, s_in_hook w = Some st -> is_Some (traces w !! st)) /\
  (forall rt st, arena_trace_state w !! rt = Some st -> is_Some (traces w !! st)).

(** A computation that leaves the instances in [P] alone. *)
Definition untouched (P : Z -> Prop) (w w' : tworld) : Prop :=
  (forall i, P i -> traces w' !! i = traces w !! i) /\
  dom (traces w') = dom (traces w) /\
  arena_trace_state w' = arena_trace_state w /\
  exists l, sent w' = sent w ++ l /\ forall i, P i -> Forall (not_of i) l.

Definition quiet {A} (P : Z -> Prop) (m : ST tworld A) : Prop :=
  forall w, world_ok w -> swp m (fun _ w' => untouched P w w' /\ s_in_hook w' = s_in_hook w) w.

(** The contract of a host callback: it returns, and leaves the instances in [P]
    (the ones dispatching) alone. *)
Class QuietHost (P : Z -> Prop) (cb : Z -> bytes -> ST tworld Z) : Prop :=
  quiet_host kind payload : quiet P (cb kind payload).

Lemma untouched_refl P w : untouched P w w.
Proof. repeat split; try done. exists []. split; [by rewrite app_nil_r | constructor]. Qed.

Lemma untouched_trans P w1 w2 w3 : untouched P w1 w2 -> untouched P w2 w3 -> untouched P w1 w3.
Proof.
  intros (T1 & D1 & B1 & l1 & S1 & F1) (T2 & D2 & B2 & l2 & S2 & F2). split; [| split; [| split]].
  - intros i Hi. rewrite T2; auto.
  - congruence.
  - congruence.
  - exists (l1 ++ l2). split; [by rewrite S2, S1, app_assoc |]. intros i Hi. apply Forall_app. auto.
Qed.

Lemma untouched_weaken (P Q : Z -> Prop) w w' : (forall i, Q i -> P i) -> untouched P w w' -> untouched Q w w'.
Proof. intros HPQ (T & D & B & l & S & F). repeat split; auto. exists l. auto. Qed.

Lemma untouched_ok P w w' : world_ok w -> untouched P w w' -> s_in_hook w' = s_in_hook w -> world_ok w'.
Proof.
  intros [H1 H2] (_ & D & B & _) Hi.
  assert (Hd : forall st, is_Some (traces w !! st) -> is_Some (traces w' !! st)).
  { intros st. rewrite <- !elem_of_dom. by rewrite D. }
  split; [intros st E; apply Hd, H1; congruence | intros rt st E; eapply Hd, H2; by rewrite <- B].
Qed.

Section steps.
Context (P : Z -> Prop) (st : Z).

(** The instance's own progress, the other protected instances untouched. *)
Record step (w w' : tworld) (s' : ArenaTraceState) (evs : list event) (codes : list Z) : Prop := {
  step_state : traces w' !! st = Some s';
  step_others : untouched (fun i => P i /\ i <> st) w w';
  step_sent : exists l, sent w' = sent w ++ l /\ events_of st l = map encode evs /\ answers_of st l = codes
}.

Lemma step_refl w s : traces w !! st = Some s -> step w w s [] [].
Proof. intros H. split; [done | apply untouched_refl | exists []; by rewrite app_nil_r]. Qed.

Lemma step_trans w1 w2 w3 s2 s3 e1 e2 c1 c2 :
  step w1 w2 s2 e1 c1 -> step w2 w3 s3 e2 c2 -> step w1 w3 s3 (e1 ++ e2) (c1 ++ c2).
Proof.
  intros [T1 O1 (l1 & S1 & E1 & A1)] [T2 O2 (l2 & S2 & E2 & A2)]. split; [done | by eapply untouched_trans |].
  exists (l1 ++ l2). rewrite S2, S1, app_assoc, events_of_app, answers_of_app, map_app. split; [done |].
  by rewrite E1, E2, A1, A2.
Qed.

Lemma step_mod w s f : traces w !! st = Some s -> step w (with_traces (alter f st) w) (f s) [] [].
Proof.
  intros H. split; simpl; [by rewrite lookup_alter_eq, H | | by exists []; rewrite app_nil_r].
  split; [intros i [_ Hi]; simpl; by rewrite lookup_alter_ne | simpl].
  split; [apply dom_alter_L |]. split; [done |]. exists []. split; [by rewrite app_nil_r | constructor].
Qed.

Lemma step_same w w' s :
  traces w !! st = Some s -> traces w' = traces w -> arena_trace_state w' = arena_trace_state w ->
  (sent w' = sent w \/ exists ctx doc, sent w' = sent w ++ [DState ctx doc]) -> step w w' s [] [].
Proof.
  intros H HT HB HS. assert (Hl : exists l, sent w' = sent w ++ l /\ forall i, Forall (not_of i) l).
  { destruct HS as [-> | (ctx & doc & ->)]; [exists []; rewrite app_nil_r | exists [DState ctx doc]]; by repeat constructor. }
  destruct Hl as (l & E & F). split; [by rewrite HT | |].
  - repeat split; [by rewrite HT | by rewrite HT | done | exists l; auto].
  - exists l. split; [done |]. by apply not_of_nil.
Qed.

(** A delivery of the instance itself. *)
Lemma step_deliver w s d e c :
  traces w !! st = Some s -> (forall i, i <> st -> not_of i d) ->
  events_of st [d] = map encode e -> answers_of st [d] = c -> step w (with_sent [d] w) s e c.
Proof.
  intros H Hd He Hc. split; [done | | by exists [d]].
  repeat split; try done. exists [d]. split; [done |]. intros i [_ Hi]. by constructor; [apply Hd |].
Qed.

Lemma step_quiet w w' s : P st -> traces w !! st = Some s -> untouched P w w' -> step w w' s [] [].
Proof.
  intros HP H U. split; [by rewrite (proj1 U) | eapply untouched_weaken; [| exact U]; by intros ? [] |].
  destruct U as (_ & _ & _ & l & E & F). exists l. split; [done |]. apply not_of_nil. auto.
Qed.

Lemma step_ok w w' s' e c : world_ok w -> step w w' s' e c -> s_in_hook w' = s_in_hook w -> world_ok w'.
Proof. intros Hok [_ O _]. eapply untouched_ok; eauto. Qed.
End steps.

(** ** The hooks tell the specified events *)

(** The strongest of the host's answers. *)
Definition top (codes : list Z) : Z := foldr Z.max 0 codes.

Lemma top_app c c' : Forall (Z.le 0) c' -> top (c ++ c') = Z.max (top c) (top c').
Proof.
  intros H. induction c as [| x c IH]; simpl; [| rewrite IH; lia].
  assert (0 <= top c') by (destruct c'; simpl; [lia | inversion H; lia]). lia.
Qed.

Definition code_ok (c : Z) : Prop := 0 <= c <= 2.

Lemma clamp_code_ok r : code_ok (clamp_code r).
Proof. unfold clamp_code, code_ok. destruct (Z.eqb_spec r 1), (Z.eqb_spec r 2); simpl; lia. Qed.

Lemma merge_stop_max a b : code_ok a -> code_ok b -> merge_stop a b = Z.max a b.
Proof. unfold code_ok, merge_stop. intros Ha Hb. bool_lia. Qed.

Lemma codes_nonneg codes : Forall code_ok codes -> Forall (Z.le 0) codes.
Proof. intros H. eapply Forall_impl; [exact H |]. unfold code_ok. simpl. lia. Qed.

Lemma top_ok codes : Forall code_ok codes -> code_ok (top codes).
Proof. induction 1 as [| c l Hc _ IH]; unfold code_ok in *; simpl; lia. Qed.

(** The state after names were announced and the scratch buffer written. *)
Record keeps (s : ArenaTraceState) (names : list Z) (s' : ArenaTraceState) : Prop := {
  keeps_mode : mode s' = mode s;
  keeps_bail : bail_armed s' = bail_armed s;
  keeps_line : last_line_emitted s' = last_line_emitted s;
  keeps_file : last_file_atom s' = last_file_atom s;
  keeps_names : name_table s' = names;
  keeps_scratch : length (scratch s') = length (scratch s)
}.

Lemma keeps_refl s : keeps s (name_table s) s.
Proof. by split. Qed.

Lemma keeps_trans s t s' t' s'' : keeps s t s' -> keeps s' t' s'' -> keeps s t' s''.
Proof. intros [] []. split; congruence. Qed.

Lemma keeps_put s names off bs :
  name_table s = names -> 0 <= off -> off + lenZ bs <= lenZ (scratch s) -> keeps s names (put_scratch off bs s).
Proof.
  intros <- Ho Hl. split; try done. simpl. unfold lenZ in *. rewrite !length_app, length_take, length_drop. lia.
Qed.

Lemma keeps_active s c b pc : keeps s (name_table s) (set_active c b pc s).
Proof. by split. Qed.

(** The first bytes of the scratch buffer after a write. *)
Lemma take_put s off bs n :
  0 <= off -> off + lenZ bs <= lenZ (scratch s) -> n = off + lenZ bs ->
  take (Z.to_nat n) (scratch (put_scratch off bs s)) = take (Z.to_nat off) (scratch s) ++ bs.
Proof.
  intros Ho Hl ->. simpl. unfold lenZ in *. rewrite app_assoc, take_app_le by (rewrite length_app, length_take; lia).
  apply take_ge. rewrite length_app, length_take. lia.
Qed.

Lemma put_full s off bs :
  lenZ (scratch s) = 4096 -> 0 <= off -> off + lenZ bs <= 4096 -> lenZ (scratch (put_scratch off bs s)) = 4096.
Proof.
  intros H Ho Hl. rewrite <- H. unfold lenZ. f_equal. apply keeps_scratch with (names := name_table s), keeps_put; [done | lia | lia].
Qed.

Lemma lenZ_le n v : lenZ (le_bytes n v) = Z.of_nat n.
Proof. unfold lenZ. by rewrite length_le_bytes. Qed.

Lemma clamp_len_range hdr n : 0 <= hdr <= 4096 -> 0 <= n -> 0 <= clamp_len hdr n <= n /\ clamp_len hdr n + hdr <= 4096.
Proof. intros. unfold clamp_len, ARENA_TRACE_SCRATCH_CAP. bool_lia. Qed.

Lemma lenZ_clip hdr s : 0 <= hdr <= 4096 -> lenZ (clip hdr s) = clamp_len hdr (lenZ (c_str s)).
Proof.
  intros Hh. pose proof (clamp_len_range hdr (lenZ (c_str s)) Hh (lenZ_nonneg _)) as H.
  unfold clip, lenZ in *. rewrite length_take. lia.
Qed.

(** [emit_state] touches no state; it delivers the document of the stack unless
    stopped or out of memory. *)
Lemma emit_state_exact atom_cstr top_frame st w s ctx b pc :
  lenZ (render_stack atom_cstr (top_frame ctx) b pc) < 2 ^ 62 -> traces w !! st = Some s ->
  swp (emit_state atom_cstr top_frame st ctx b pc) (fun _ w' =>
    traces w' = traces w /\ arena_trace_state w' = arena_trace_state w /\ s_in_hook w' = s_in_hook w /\
    if bail_armed s then sent w' = sent w
    else sent w' = sent w ++ [DState ctx (render_stack atom_cstr (top_frame ctx) b pc)] \/
      (sent w' = sent w /\ false ∈ heap_answers w)) w.
Proof.
  intros Hsmall Hs. unfold emit_state. swp_step. eapply swp_deref; [exact Hs |].
  destruct (bail_armed s); [by swp_step |]. swp_steps. unfold id.
  pose proof (emits_state atom_cstr (top_frame ctx) b pc (jbuf_init (heap_answers w)) ltac:(done) Hsmall) as He.
  destruct (swp_done _ _ _ He) as ([] & j & E & _ & _ & _ & _ & H). eapply swp_lift; [exact E |]. cbv beta iota. swp_steps.
  destruct H as [[-> [? | Hf]] | (_ & -> & Hb)]; [done | | rewrite Hb]; unfold _arena_host_state, tell; swp_steps; auto 10.
Qed.

Section hooks.
Context (P : Z -> Prop) (cb : Z -> bytes -> ST tworld Z) {Hcb : QuietHost P cb} (st : Z) (HP : P st).
Context (runtime_of : Z -> Z) (atom_cstr : Z -> option bytes) (top_frame : Z -> list frame).
Context (Hsmall : forall ctx b pc, lenZ (render_stack atom_cstr (top_frame ctx) b pc) < 2 ^ 62).

(** Inside a hook of [st]: [m] delivers [evs], ends in a state of [R] and
    returns the strongest of [c0] and the answers. *)
Definition hooked (c0 : Z) (m : ST tworld Z) (s : ArenaTraceState) (R : ArenaTraceState -> Prop) (evs : list event) : Prop :=
  forall w, world_ok w -> s_in_hook w = Some st -> traces w !! st = Some s ->
    swp m (fun c w' => exists s' codes, R s' /\ step P st w w' s' evs codes /\ s_in_hook w' = Some st /\
      c = Z.max c0 (top codes) /\ Forall code_ok codes /\ length codes = length evs) w.

Lemma hooked_ret s : hooked 0 (sret 0) s (keeps s (name_table s)) [].
Proof.
  intros w Hok Hi Hs. swp_step. exists s, []. split; [apply keeps_refl |]. split; [by apply step_refl |]. by repeat split.
Qed.

Lemma hooked_mod c0 f m s R evs : hooked c0 m (f s) R evs -> hooked c0 (st_mod st f ;^ m) s R evs.
Proof.
  intros H w Hok Hi Hs. unfold st_mod. swp_steps. pose proof (step_mod P st w s f Hs) as Hst.
  eapply swp_mono; [apply H; [by eapply step_ok | done | apply Hst] |].
  intros c w' (s' & codes & HR & Hs' & Hrest). exists s', codes. split; [done |].
  split; [exact (step_trans _ _ _ _ _ _ _ _ _ _ _ Hst Hs') | done].
Qed.

Lemma hooked_seq c0 m k s (R R' : ArenaTraceState -> Prop) e1 e2 :
  hooked 0 m s R e1 -> code_ok c0 -> (forall s' c, R s' -> code_ok c -> hooked (Z.max c0 c) (k c) s' R' e2) ->
  hooked c0 (sbind m k) s R' (e1 ++ e2).
Proof.
  intros Hm Hc0 Hk w Hok Hi Hs. swp_step. eapply swp_mono; [by apply Hm |].
  intros c w1 (s1 & codes1 & HR1 & Hst1 & Hi1 & -> & Hc1 & Hl1).
  pose proof (top_ok codes1 Hc1) as Ht. rewrite Z.max_r by (unfold code_ok in Ht; lia).
  eapply swp_mono; [apply (Hk s1 (top codes1)); [done | done | eapply step_ok; eauto; congruence | done | apply Hst1] |].
  intros c w2 (s2 & codes2 & HR2 & Hst2 & Hi2 & -> & Hc2 & Hl2). exists s2, (codes1 ++ codes2).
  split; [done |]. split; [by eapply step_trans |]. split; [done |].
  rewrite top_app by (by apply codes_nonneg). split; [lia |]. split; [by apply Forall_app |]. rewrite !length_app. lia.
Qed.

Lemma hooked_get c0 k s R evs : hooked c0 (k s) s R evs -> hooked c0 (sbind (st_get st) k) s R evs.
Proof. intros H w Hok Hi Hs. swp_step. eapply swp_deref; [exact Hs |]. by apply H. Qed.

Lemma hooked_weaken c0 m s (R R' : ArenaTraceState -> Prop) evs :
  hooked c0 m s R evs -> (forall s', R s' -> R' s') -> hooked c0 m s R' evs.
Proof.
  intros H HR w Hok Hi Hs. eapply swp_mono; [by apply H |]. intros c w' (s' & codes & ? & ?). exists s', codes. auto.
Qed.

Lemma hooked_host_trace kind payload e s :
  encode e = (kind, payload) ->
  hooked 0 (_arena_host_trace (Some cb) kind payload) s (eq s) [e].
Proof.
  intros He w Hok Hi Hs. unfold _arena_host_trace, tell. swp_steps. rewrite Hi.
  assert (H1 : step P st w (with_sent [DEvent (Some st) kind payload] w) s [e] []).
  { apply step_deliver; [done | | | done].
    - intros i Hne. unfold not_of. simpl. by destruct (Z.eqb_spec st i).
    - unfold events_of. simpl. by rewrite Z.eqb_refl, He. }
  eapply swp_mono; [apply Hcb; by eapply step_ok |]. intros r w1 [U1 Hi1]. swp_steps. simpl in Hi1.
  assert (H2 : step P st (with_sent [DEvent (Some st) kind payload] w) w1 s [] []) by (apply step_quiet; done).
  set (c := clamp_code r).
  assert (H3 : step P st w1 (with_sent [DAnswer (Some st) c] w1) s [] [c]).
  { apply step_deliver; [apply H2 | | done |].
    - intros i Hne. unfold not_of. simpl. by destruct (Z.eqb_spec st i).
    - unfold answers_of. simpl. by rewrite Z.eqb_refl. }
  exists s, [c]. split; [done |]. split; [exact (step_trans _ _ _ _ _ _ _ _ _ _ _ (step_trans _ _ _ _ _ _ _ _ _ _ _ H1 H2) H3) |].
  split; [simpl; congruence |]. pose proof (clamp_code_ok r) as Hc. fold c in Hc. split; [unfold code_ok in Hc; simpl; lia |].
  by repeat constructor; apply Hc.
Qed.

Lemma hooked_remember c0 a m s R evs :
  hooked c0 m (set_names (if ARENA_TRACE_NAME_CAP <=? lenZ (name_table s) then name_table s else name_table s ++ [a]) s) R evs ->
  hooked c0 (name_remember st a ;^ m) s R evs.
Proof.
  intros H. unfold name_remember, name_count. intros w Hok Hi Hs. swp_steps. eapply swp_deref; [exact Hs |].
  destruct (ARENA_TRACE_NAME_CAP <=? lenZ (name_table s)).
  - swp_step. apply H; [done | done |]. by destruct s.
  - exact (hooked_mod c0 (fun s => set_names (name_table s ++ [a]) s) m s R evs H w Hok Hi Hs).
Qed.

Lemma hooked_send s kind n e :
  encode e = (kind, take (Z.to_nat n) (scratch s)) -> hooked 0 (send_scratch (Some cb) st kind n) s (eq s) [e].
Proof. intros He. apply hooked_get. by apply hooked_host_trace. Qed.

Lemma hooked_ensure_name ctx a s :
  lenZ (scratch s) = 4096 ->
  hooked 0 (ensure_name (Some cb) atom_cstr st ctx a) s (keeps s (announce atom_cstr (name_table s) a).2)
    (announce atom_cstr (name_table s) a).1.
Proof.
  intros Hlen. apply hooked_get. unfold name_seen, announce.
  destruct (existsb (Z.eqb a) (name_table s)); [apply hooked_ret |]. apply hooked_remember. simpl.
  set (names := if _ <=? _ then _ else _). destruct (atom_cstr a) as [str |].
  2:{ intros w Hok Hi Hs. swp_steps. eexists _, []. split; [| split; [by apply step_same; auto |]]; [by split | by repeat split]. }
  pose proof (clamp_len_range 6 (lenZ (c_str str)) ltac:(lia) (lenZ_nonneg _)) as Hc.
  pose proof (lenZ_clip 6 str ltac:(lia)) as Hl. unfold clip in *. cbv zeta. set (slen := clamp_len 6 _) in *.
  apply hooked_mod, hooked_mod, hooked_mod.
  set (s1 := put_scratch 0 _ _). set (s2 := put_scratch 4 _ _). set (s3 := put_scratch 6 _ _).
  assert (L1 : lenZ (scratch s1) = 4096) by (apply put_full; rewrite ?lenZ_le; [exact Hlen | lia | lia]).
  assert (L2 : lenZ (scratch s2) = 4096) by (apply put_full; rewrite ?lenZ_le; [done | lia | lia]).
  eapply hooked_weaken; [apply hooked_send |].
  - unfold s3. rewrite take_put by lia. unfold s2. rewrite (take_put s1 4) by (rewrite ?lenZ_le; lia).
    unfold s1. rewrite (take_put _ 0) by (rewrite ?lenZ_le; simpl; lia).
    cbn [encode]. by rewrite Hl, <- !app_assoc.
  - intros s' <-. eapply keeps_trans; [| apply keeps_put; [done | lia | lia]].
    eapply keeps_trans; [| apply keeps_put; rewrite ?lenZ_le; [done | lia | lia]].
    eapply keeps_trans; [| apply keeps_put; rewrite ?lenZ_le; [done | lia | simpl; lia]]. by split.
Qed.

(** In a hook that began in [w0], with [s_in_hook] at [h]. *)
Definition during (h : option Z) (w0 w : tworld) (s : ArenaTraceState) (evs : list event) (codes : list Z) : Prop :=
  world_ok w /\ s_in_hook w = h /\ step P st w0 w s evs codes /\ Forall code_ok codes /\ length codes = length evs.

Lemma during_call w0 w s evs codes m {B} (k : Z -> ST tworld B) R e Q :
  during (Some st) w0 w s evs codes -> hooked 0 m s R e ->
  (forall w' s' codes', R s' -> Forall code_ok codes' -> during (Some st) w0 w' s' (evs ++ e) (codes ++ codes') ->
     swp (k (top codes')) Q w') ->
  swp (sbind m k) Q w.
Proof.
  intros (Hok & Hi & Hst & Hc & Hl) Hm Hk. swp_step. eapply swp_mono; [apply Hm; [done | done | apply Hst] |].
  intros c w' (s' & codes' & HR & Hst' & Hi' & -> & Hc' & Hl').
  rewrite Z.max_r by (pose proof (top_ok codes' Hc') as Ht; unfold code_ok in Ht; lia).
  apply (Hk w' s' codes'); [done | done |]. split; [eapply step_ok; eauto; congruence |]. split; [done |].
  split; [by eapply step_trans |]. split; [by apply Forall_app |]. rewrite !length_app. lia.
Qed.

Lemma during_mod h w0 w s evs codes f :
  during h w0 w s evs codes -> during h w0 (with_traces (alter f st) w) (f s) evs codes.
Proof.
  intros (Hok & Hi & Hst & Hc). pose proof (step_mod P st w s f (step_state _ _ _ _ _ _ _ Hst)) as Hm.
  split; [by eapply step_ok |]. split; [done |].
  split; [| done]. pose proof (step_trans _ _ _ _ _ _ _ _ _ _ _ Hst Hm) as Ht. by rewrite !app_nil_r in Ht.
Qed.

Lemma swp_during_mod h w0 w s evs codes f Q :
  during h w0 w s evs codes ->
  (during h w0 (with_traces (alter f st) w) (f s) evs codes -> Q tt (with_traces (alter f st) w)) -> swp (st_mod st f) Q w.
Proof. intros H HQ. apply swp_mod, HQ. by apply during_mod. Qed.

Lemma during_restore h w0 w s evs codes :
  world_ok w0 -> during h w0 w s evs codes ->
  during (s_in_hook w0) w0 (with_in_hook (s_in_hook w0) w) s evs codes.
Proof.
  intros H0 (Hok & Hi & Hst & Hc).
  assert (H1 : step P st w (with_in_hook (s_in_hook w0) w) s [] []) by (apply step_same; auto; apply Hst).
  pose proof (step_trans _ _ _ _ _ _ _ _ _ _ _ Hst H1) as Ht. rewrite !app_nil_r in Ht.
  split; [by eapply (step_ok P st w0); [done | exact Ht | done] |]. done.
Qed.

Lemma during_pending h w0 w s evs codes f :
  during h w0 w s evs codes -> during h w0 (with_pending f w) s evs codes.
Proof.
  intros (Hok & Hi & Hst & Hc).
  assert (H1 : step P st w (with_pending f w) s [] []) by (apply step_same; auto; apply Hst).
  pose proof (step_trans _ _ _ _ _ _ _ _ _ _ _ Hst H1) as Ht. rewrite !app_nil_r in Ht.
  split; [by eapply step_ok |]. done.
Qed.

Lemma during_start w s : world_ok w -> traces w !! st = Some s -> during (s_in_hook w) w w s [] [].
Proof. intros Hok Hs. split; [done |]. split; [done |]. split; [by apply step_refl | done]. Qed.

Lemma during_enter w0 w s ctx b pc {B} (k : option Z -> ST tworld B) Q :
  during (s_in_hook w0) w0 w s [] [] ->
  (forall w', during (Some st) w0 w' (set_active (Some ctx) b pc s) [] [] -> swp (k (s_in_hook w0)) Q w') ->
  swp (sbind (hook_enter st ctx b pc) k) Q w.
Proof.
  intros (Hok & Hi & Hst & _) Hk. unfold hook_enter, st_mod. swp_steps. rewrite Hi. apply Hk.
  pose proof (step_mod P st w s (set_active (Some ctx) b pc) (step_state _ _ _ _ _ _ _ Hst)) as H1.
  set (w1 := with_traces _ w) in *.
  assert (H2 : step P st w1 (with_in_hook (Some st) w1) (set_active (Some ctx) b pc s) [] []) by (apply step_same; auto; apply H1).
  assert (Hok1 : world_ok w1) by (by eapply step_ok).
  split; [split; [intros ? [= <-]; rewrite (step_state _ _ _ _ _ _ _ H2); by eexists | apply Hok1] |].
  split; [done |]. split; [| done].
  exact (step_trans _ _ _ _ _ _ _ _ _ _ _ (step_trans _ _ _ _ _ _ _ _ _ _ _ Hst H1) H2).
Qed.

Lemma emit_state_spec w s ctx b pc :
  traces w !! st = Some s ->
  swp (emit_state atom_cstr top_frame st ctx b pc) (fun _ w' => step P st w w' s [] [] /\ s_in_hook w' = s_in_hook w) w.
Proof.
  intros Hs. eapply swp_mono; [by apply emit_state_exact |]. intros u w' (HT & HB & HI & HS). split; [| done].
  apply step_same; auto. destruct (bail_armed s); [auto |]. destruct HS as [HS | [HS _]]; [right | left]; eauto.
Qed.

Lemma handle_stop_spec w s ctx code b pc :
  traces w !! st = Some s -> bail_armed s = false ->
  swp (handle_stop_code atom_cstr top_frame st ctx code b pc)
    (fun _ w' => step P st w w' (if code =? 0 then s else set_bail true s) [] [] /\ s_in_hook w' = s_in_hook w) w.
Proof.
  intros Hs Hb. unfold handle_stop_code. swp_step.
  eapply (swp_mono _ (fun _ w1 => step P st w w1 s [] [] /\ s_in_hook w1 = s_in_hook w)).
  { destruct (code =? 2); [by apply emit_state_spec | swp_step; split; [by apply step_refl | done]]. }
  intros _ w1 [H1 Hi1]. destruct (code =? 0); [by swp_step |]. unfold raise_stop. swp_step.
  eapply swp_deref; [apply H1 |]. rewrite Hb. unfold st_mod. swp_steps. split; [| done].
  assert (H2 : step P st w1 (with_pending ({[ctx]} ∪.) w1) s [] []) by (apply step_same; auto; apply H1).
  pose proof (step_mod P st _ s (set_bail true) (step_state _ _ _ _ _ _ _ H2)) as H3.
  exact (step_trans _ _ _ _ _ _ _ _ _ _ _ (step_trans _ _ _ _ _ _ _ _ _ _ _ H1 H2) H3).
Qed.

(** After a hook: the events delivered, the answers, and the state. *)
Definition hook_done (w0 w : tworld) (s : ArenaTraceState) (evs : list event) (v : view) : Prop :=
  exists s' codes, step P st w0 w s' evs codes /\ s_in_hook w = s_in_hook w0 /\ Forall code_ok codes /\
    length codes = length evs /\ mode s' = mode s /\ bail_armed s' = negb (top codes =? 0) /\ view_of s' = v /\
    lenZ (scratch s') = 4096 /\ active_ctx s' = None.

Lemma finish_hook w0 w s0 s evs codes ctx b pc :
  during (s_in_hook w0) w0 w s evs codes -> bail_armed s = false -> mode s = mode s0 -> lenZ (scratch s) = 4096 ->
  active_ctx s = None ->
  swp (handle_stop_code atom_cstr top_frame st ctx (top codes) b pc) (fun _ w' => hook_done w0 w' s0 evs (view_of s)) w.
Proof.
  intros (Hok & Hi & Hst & Hc & Hl) Hb Hm Hlen Ha.
  eapply swp_mono; [apply handle_stop_spec; [apply Hst | done] |]. intros _ w' [H3 Hi3].
  eexists _, codes. split.
  { pose proof (step_trans _ _ _ _ _ _ _ _ _ _ _ Hst H3) as H. rewrite !app_nil_r in H. exact H. }
  split; [congruence |]. split; [done |]. split; [done |]. destruct (top codes =? 0); by repeat split.
Qed.

Lemma merge_tops c1 c2 : Forall code_ok c1 -> Forall code_ok c2 -> merge_stop (top c1) (top c2) = top (c1 ++ c2).
Proof.
  intros H1 H2. rewrite merge_stop_max by (by apply top_ok). by rewrite top_app by (by apply codes_nonneg).
Qed.

(** A hook that does nothing. *)
Lemma idle_hook w s : traces w !! st = Some s -> bail_armed s = false -> lenZ (scratch s) = 4096 -> active_ctx s = None ->
  hook_done w w s [] (view_of s).
Proof. intros. exists s, []. split; [by apply step_refl |]. by repeat split. Qed.

(** The next [st_mod] of a hook, moving [during]. *)
Ltac mod_step H := repeat swp_step; eapply swp_during_mod; [exact H |]; clear H; intros H; cbv beta.

(** A state between hooks. *)
Record at_rest (s : ArenaTraceState) : Prop := {
  rest_bail : bail_armed s = false;
  rest_scratch : lenZ (scratch s) = 4096;
  rest_active : active_ctx s = None
}.

Lemma line_u32 b pc : u32 (if bc_line b pc <? 0 then 0 else bc_line b pc) = line_of b pc.
Proof. unfold line_of. f_equal. destruct (Z.ltb_spec (bc_line b pc) 0); lia. Qed.

Context (ctx : Z).

Lemma func_exit_spec w s :
  world_ok w -> arena_trace_state w !! runtime_of ctx = Some st -> traces w !! st = Some s -> at_rest s ->
  swp (arena_trace_func_exit (Some cb) runtime_of atom_cstr top_frame ctx)
    (fun _ w' => let '(evs, v) := spec_hook atom_cstr (mode s) (view_of s) HExit in hook_done w w' s evs v) w.
Proof.
  intros Hok Hbd Hs [Hb Hsc Ha]. unfold arena_trace_func_exit, hook_enabled, hook_state, js_arena_trace_get_state. swp_steps.
  rewrite Hbd. swp_step. eapply swp_deref; [exact Hs |]. rewrite Hb. unfold spec_hook. rewrite (Z.eqb_sym ARENA_TRACE_OFF).
  destruct (mode s =? ARENA_TRACE_OFF); simpl; [swp_step; by apply idle_hook |].
  eapply during_enter; [by apply during_start |]. intros w1 H1. eapply during_call; [exact H1 | by apply (hooked_send _ _ _ EExit) |].
  intros w2 s2 codes <- Hc H2. swp_steps. eapply during_restore in H2; [| done]. do 2 mod_step H2.
  by eapply (finish_hook _ _ _ _ _ _ _ _ _ H2).
Qed.

(** The scratch buffer keeps its size, and a chain of writes fills its head. *)
Ltac solve_put := repeat (apply put_full; rewrite ?lenZ_le; [| lia | lia]); done.
Ltac solve_taken := by rewrite !take_put, <- !app_assoc by (rewrite ?lenZ_le; first [lia | rewrite put_full; rewrite ?lenZ_le; try lia; solve_put]).

Lemma keeps_len s names s' : keeps s names s' -> lenZ (scratch s) = 4096 -> lenZ (scratch s') = 4096.
Proof. intros [] H. unfold lenZ in *. congruence. Qed.

Lemma keeps_put_after s names s' off bs :
  keeps s names s' -> lenZ (scratch s) = 4096 -> 0 <= off -> off + lenZ bs <= 4096 -> keeps s names (put_scratch off bs s').
Proof.
  intros K Hl Ho Hb. eapply keeps_trans; [exact K |]. pose proof (keeps_len _ _ _ K Hl).
  apply keeps_put; [apply K | lia | lia].
Qed.

Lemma func_enter_spec w s b :
  world_ok w -> arena_trace_state w !! runtime_of ctx = Some st -> traces w !! st = Some s -> at_rest s ->
  swp (arena_trace_func_enter (Some cb) runtime_of atom_cstr top_frame ctx b)
    (fun _ w' => let '(evs, v) := spec_hook atom_cstr (mode s) (view_of s) (HEnter b) in hook_done w w' s evs v) w.
Proof.
  intros Hok Hbd Hs [Hb Hsc Ha]. unfold arena_trace_func_enter, hook_enabled, hook_state, js_arena_trace_get_state. swp_steps.
  rewrite Hbd. swp_step. eapply swp_deref; [exact Hs |]. rewrite Hb. unfold spec_hook. rewrite (Z.eqb_sym ARENA_TRACE_OFF).
  destruct (mode s =? ARENA_TRACE_OFF); simpl; [swp_step; by apply idle_hook |].
  eapply during_enter; [by apply during_start |]. intros w1 H1.
  eapply during_call; [exact H1 | by apply hooked_ensure_name |]. clear H1. intros w2 s2 c1 K1 Hc1 H2. simpl in K1, H2.
  pose proof (keeps_len _ _ _ K1 Hsc) as L2.
  eapply during_call; [exact H2 | by apply hooked_ensure_name |]. clear H2. intros w3 s3 c2 K2 Hc2 H3.
  rewrite (keeps_names _ _ _ K1) in K2, H3. pose proof (keeps_len _ _ _ K2 L2) as L3.
  destruct (announce atom_cstr (name_table s) (bc_func_name b)) as [e1 t1]. simpl in *.
  destruct (announce atom_cstr t1 (bc_filename b)) as [e2 t2]. simpl in *.
  rewrite line_u32. do 3 mod_step H3. set (s4 := put_scratch 8 _ _) in *.
  assert (L4 : lenZ (scratch s4) = 4096) by (unfold s4; solve_put).
  eapply during_call; [exact H3 | apply (hooked_send _ _ _ (EEnter (bc_func_name b) (bc_filename b) (line_of b None))) |].
  { unfold s4. solve_taken. }
  clear H3. intros w4 ? c3 <- Hc3 H4. swp_steps. eapply during_restore in H4; [| done]. do 2 mod_step H4.
  change (merge_stop 0 (top c1)) with (merge_stop (top []) (top c1)).
  rewrite !merge_tops by (repeat (apply Forall_app; split); done).
  rewrite <- app_assoc in H4. destruct K1, K2. simpl in *.
  eapply swp_mono; [eapply (finish_hook _ _ s _ _ _ _ _ _ H4); simpl; try done; congruence |].
  intros u w'. unfold view_of. simpl. congruence.
Qed.

Lemma check_line_spec w s b pc :
  world_ok w -> arena_trace_state w !! runtime_of ctx = Some st -> traces w !! st = Some s -> at_rest s ->
  swp (arena_trace_check_line (Some cb) runtime_of atom_cstr top_frame ctx b pc)
    (fun _ w' => let '(evs, v) := spec_hook atom_cstr (mode s) (view_of s) (HLine b pc) in hook_done w w' s evs v) w.
Proof.
  intros Hok Hbd Hs [Hb Hsc Ha]. unfold arena_trace_check_line, hook_enabled, hook_state, js_arena_trace_get_state. swp_steps.
  rewrite Hbd. swp_step. eapply swp_deref; [exact Hs |]. rewrite Hb. unfold spec_hook.
  assert (Hidle : hook_done w w s [] (view_of s)) by (by apply idle_hook).
  destruct (Z.ltb_spec (mode s) ARENA_TRACE_DRILL) as [Hm | Hm]; cbn [orb].
  { swp_step. by destruct (mode s =? ARENA_TRACE_OFF). }
  destruct (Z.eqb_spec (mode s) ARENA_TRACE_OFF) as [E | _]; [unfold ARENA_TRACE_OFF, ARENA_TRACE_DRILL in *; lia |].
  destruct (Z.ltb_spec (bc_line b pc) 0) as [Hl | Hl]; cbn [orb]; [by swp_step |].
  swp_step. eapply swp_deref; [exact Hs |]. cbn [view_of v_line v_file v_names].
  destruct ((u32 (bc_line b pc) =? u32 (last_line_emitted s)) && (bc_filename b =? last_file_atom s)); [by swp_step |].
  swp_step. pose proof (during_start w s Hok Hs) as H0. mod_step H0.
  eapply during_enter; [exact H0 |]. clear H0. intros w1 H1.
  eapply during_call; [exact H1 | by apply hooked_ensure_name |]. clear H1. intros w2 s2 c1 K1 Hc1 H2. simpl in K1, H2.
  pose proof (keeps_len _ _ _ K1 Hsc) as L2. destruct (announce atom_cstr (name_table s) (bc_filename b)) as [e1 t1]. simpl in *.
  replace (u32 (bc_line b pc)) with (line_of b pc) by (unfold line_of; f_equal; lia).
  do 2 mod_step H2. set (s4 := put_scratch 4 _ _) in *. assert (L4 : lenZ (scratch s4) = 4096) by (unfold s4; solve_put).
  eapply during_call; [exact H2 | apply (hooked_send _ _ _ (ELine (bc_filename b) (line_of b pc))) |].
  { unfold s4. solve_taken. }
  clear H2. intros w4 ? c3 <- Hc3 H4. swp_steps. eapply during_restore in H4; [| done]. mod_step H4.
  rewrite !merge_tops by done. destruct K1. simpl in *.
  eapply swp_mono; [eapply (finish_hook _ _ s _ _ _ _ _ _ H4); simpl; try done; congruence |].
  intros u w'. unfold view_of. simpl. congruence.
Qed.

Lemma op_throw_spec w s b pc msg :
  world_ok w -> arena_trace_state w !! runtime_of ctx = Some st -> traces w !! st = Some s -> at_rest s ->
  swp (run_hook (Some cb) runtime_of atom_cstr top_frame ctx (HThrow b pc msg))
    (fun _ w' => let '(evs, v) := spec_hook atom_cstr (mode s) (view_of s) (HThrow b pc msg) in hook_done w w' s evs v) w.
Proof.
  intros Hok Hbd Hs [Hb Hsc Ha]. cbn [run_hook]. unfold arena_trace_op_throw, hook_enabled, hook_state, js_arena_trace_get_state.
  swp_steps. rewrite Hbd. swp_step. eapply swp_deref; [exact Hs |]. rewrite Hb. unfold spec_hook. rewrite (Z.eqb_sym ARENA_TRACE_OFF).
  destruct (mode s =? ARENA_TRACE_OFF); cbn [orb]; [swp_step; by apply idle_hook |].
  eapply during_enter; [by apply during_start |]. intros w1 H1.
  eapply during_call; [exact H1 | by apply hooked_ensure_name |]. clear H1. intros w2 s2 c1 K1 Hc1 H2. simpl in K1, H2.
  pose proof (keeps_len _ _ _ K1 Hsc) as L2. cbn [view_of v_names].
  destruct (announce atom_cstr (name_table s) (bc_filename b)) as [e1 t1]. simpl in K1, H2.
  set (mlen := clamp_len 10 (match msg with Some m => lenZ (c_str m) | None => 0 end)).
  assert (Hml : mlen = lenZ (clip 10 (default [] msg)) /\ 0 <= mlen /\ mlen + 10 <= 4096).
  { rewrite lenZ_clip by lia. subst mlen.
    pose proof (clamp_len_range 10 (lenZ (c_str (default [] msg))) ltac:(lia) (lenZ_nonneg _)) as Hr.
    destruct msg; cbn [from_option] in *; unfold id in *; [lia |]. change (lenZ (c_str [])) with 0 in *. lia. }
  destruct Hml as (Hml & Hm0 & Hm1). rewrite line_u32.
  assert (Hto : swp ((match msg with None => smod (with_pending ({[ctx]} ∪.)) | Some _ => sret tt end) ;^ sret msg)
                  (fun m w' => m = msg /\ during (Some st) w w' s2 e1 c1) w2).
  { destruct msg; swp_steps; split; auto. by apply during_pending. }
  swp_step. eapply swp_mono; [exact Hto |]. clear H2 Hto. intros m w3 [-> H3]. fold mlen. do 3 mod_step H3.
  set (s4 := put_scratch 8 _ _) in *. assert (L4 : lenZ (scratch s4) = 4096) by (unfold s4; solve_put). swp_step.
  eapply (swp_mono _ (fun _ w' => exists s5, during (Some st) w w' s5 e1 c1 /\ keeps s2 t1 s5 /\
    take (Z.to_nat (10 + mlen)) (scratch s5) =
      le_bytes 4 (bc_filename b) ++ le_bytes 4 (line_of b pc) ++ le_bytes 2 mlen ++ clip 10 (default [] msg))).
  { assert (K2 : keeps s2 t1 s2) by (rewrite <- (keeps_names _ _ _ K1); apply keeps_refl).
    assert (K4 : keeps s2 t1 s4) by (unfold s4; repeat (apply keeps_put_after; rewrite ?lenZ_le; [| done | lia | lia]); done).
    destruct msg as [m |].
    - mod_step H3. eexists. split; [exact H3 |]. split.
      + apply keeps_put_after; [done | done | lia |]. change (10 + lenZ (clip 10 m) <= 4096). cbn [from_option] in Hml. unfold id in Hml. lia.
      + change (take (Z.to_nat mlen) (c_str m)) with (clip 10 m). unfold s4. cbn [from_option] in *. unfold id in *. solve_taken.
    - swp_step. exists s4. split; [done |]. split; [done |]. change (clip 10 (default [] None)) with (@nil Z).
      rewrite app_nil_r. change (10 + mlen) with 10. unfold s4. solve_taken. }
  intros u w4 (s5 & H5 & K5 & Htake).
  eapply during_call; [exact H5 | apply (hooked_send _ _ _ (EThrow (bc_filename b) (line_of b pc) (clip 10 (default [] msg)))) |].
  { rewrite Htake. cbn [encode]. by rewrite <- Hml. }
  clear H3 H5. intros w5 ? c3 <- Hc3 H6. swp_steps. eapply during_restore in H6; [| done]. mod_step H6.
  rewrite !merge_tops by done. pose proof (keeps_len _ _ _ K5 L2) as L5. destruct K1, K5. simpl in *.
  eapply swp_mono; [eapply (finish_hook _ _ s _ _ _ _ _ _ H6); simpl; try done; congruence |].
  intros u' w'. unfold view_of. simpl. congruence.
Qed.

Lemma run_hook_spec w s h :
  world_ok w -> arena_trace_state w !! runtime_of ctx = Some st -> traces w !! st = Some s -> at_rest s ->
  swp (run_hook (Some cb) runtime_of atom_cstr top_frame ctx h)
    (fun _ w' => let '(evs, v) := spec_hook atom_cstr (mode s) (view_of s) h in hook_done w w' s evs v) w.
Proof.
  intros. destruct h; [by apply func_enter_spec | by apply func_exit_spec | by apply check_line_spec | by apply op_throw_spec].
Qed.
End hooks.
