(* ===== verification/TraceTheorems.v ===== *)
(** * Theorems about the trace emitter

    Sequences of hook calls under any quiet host: what is delivered, when it
    stops, that the stream describes itself, and nesting of instances. *)

From Stdlib Require Import String.
From stdpp Require Import base gmap list numbers sets.
From Stdlib Require Import ZArith Lia.
From S2P Require Import Prelude StateRun Memory TraceJson Trace TraceProofs.

#[local] Open Scope st_scope.
#[local] Open Scope Z_scope.
#[local] Arguments le_bytes : simpl never.
#[local] Arguments spec_hook : simpl never.

(** ** The format round trip *)

Lemma field_at off n v a b :
  length a = off -> 0 <= v < 256 ^ Z.of_nat n -> field off n (a ++ le_bytes n v ++ b) = v.
Proof.
  intros Ha Hv. unfold field. rewrite <- Ha, drop_app_length.
  rewrite take_app_le by (rewrite length_le_bytes; lia). rewrite take_ge by (rewrite length_le_bytes; lia).
  rewrite le_value_bytes by lia. apply Z.mod_small. done.
Qed.

Lemma field_head n v b : 0 <= v < 256 ^ Z.of_nat n -> field 0 n (le_bytes n v ++ b) = v.
Proof. intros. by apply (field_at 0 n v [] b). Qed.

(** Which branch of [decode] a kind takes. *)
Ltac kind_branch :=
  repeat match goal with
  | |- context [Z.eqb ?k ?k] => rewrite (Z.eqb_refl k)
  | |- context [if Z.eqb 0 ?k then _ else _] => change (Z.eqb 0 k) with false
  | |- context [if Z.eqb (Zpos ?k) 0 then _ else _] => change (Z.eqb (Zpos k) 0) with false
  | |- context [if Z.eqb (Zpos ?k) (Zpos ?k') then _ else _] =>
      first [change (Z.eqb (Zpos k) (Zpos k')) with false | change (Z.eqb (Zpos k) (Zpos k')) with true]
  end; cbv iota.

Lemma decode_encode e : event_ok e -> decode (encode e).1 (encode e).2 = Some e.
Proof.
  assert (H4 : forall x, word32 x -> 0 <= x < 256 ^ Z.of_nat 4) by (unfold word32; simpl; intros; lia).
  pose proof (fun n v => length_le_bytes n v) as Hlen.
  destruct e as [a s | n f l | | f l | f l m]; cbn [encode event_ok fst snd]; unfold decode; kind_branch; intros H.
  - destruct H as [Ha Hs]. rewrite !lenZ_app, !lenZ_le. pose proof (lenZ_nonneg s).
    rewrite (field_at 4 2 (lenZ s) (le_bytes 4 a) s) by (rewrite ?Hlen; simpl; lia).
    rewrite (field_head 4 a) by auto.
    rewrite app_assoc, drop_app_ge by (rewrite length_app, !Hlen; simpl; lia). rewrite length_app, !Hlen. simpl.
    replace (_ && _) with true; [done |]. symmetry. apply andb_true_intro. split; [apply Z.leb_le | apply Z.eqb_eq]; lia.
  - destruct H as (Hn & Hf & Hl). change (lenZ _ =? 12) with true. cbv iota.
    rewrite (field_head 4 n) by auto.
    rewrite (field_at 4 4 f (le_bytes 4 n) (le_bytes 4 l)) by auto.
    rewrite <- (app_nil_r (le_bytes 4 l)), app_assoc, (field_at 8 4 l (le_bytes 4 n ++ le_bytes 4 f) []); auto.
  - done.
  - destruct H as (Hf & Hl). change (lenZ _ =? 8) with true. cbv iota.
    rewrite (field_head 4 f) by auto.
    rewrite <- (app_nil_r (le_bytes 4 l)), (field_at 4 4 l (le_bytes 4 f) []); auto.
  - destruct H as (Hf & Hl & Hm). rewrite !lenZ_app, !lenZ_le. pose proof (lenZ_nonneg m).
    rewrite (field_head 4 f) by auto.
    rewrite (field_at 4 4 l (le_bytes 4 f) (le_bytes 2 (lenZ m) ++ m)) by auto.
    rewrite app_assoc. rewrite (field_at 8 2 (lenZ m) (le_bytes 4 f ++ le_bytes 4 l) m) by (rewrite ?length_app, ?Hlen; simpl; lia).
    rewrite app_assoc, drop_app_ge by (rewrite !length_app, !Hlen; simpl; lia). rewrite !length_app, !Hlen. simpl.
    replace (_ && _) with true; [done |]. symmetry. apply andb_true_intro. split; [apply Z.leb_le | apply Z.eqb_eq]; lia.
Qed.

(** ** Sequences of hooks *)

Section runs.
Context (P : Z -> Prop) (cb : Z -> bytes -> ST tworld Z) {Hcb : QuietHost P cb} (st : Z) (HP : P st).
Context (runtime_of : Z -> Z) (atom_cstr : Z -> option bytes) (top_frame : Z -> list frame) (ctx : Z).
Context (Hsmall : forall ctx b pc, lenZ (render_stack atom_cstr (top_frame ctx) b pc) < 2 ^ 62).

Lemma stopped_hook w s h :
  arena_trace_state w !! runtime_of ctx = Some st -> traces w !! st = Some s -> bail_armed s = true ->
  swp (run_hook (Some cb) runtime_of atom_cstr top_frame ctx h) (fun _ w' => w' = w) w.
Proof.
  intros Hbd Hs Hb.
  destruct h; cbn [run_hook];
    unfold arena_trace_func_enter, arena_trace_func_exit, arena_trace_check_line, arena_trace_op_throw,
      hook_enabled, hook_state, js_arena_trace_get_state; swp_steps; rewrite Hbd; swp_step;
    (eapply swp_deref; [exact Hs |]); rewrite Hb, orb_true_r; by swp_step.
Qed.

Lemma stopped_hooks hs w s :
  arena_trace_state w !! runtime_of ctx = Some st -> traces w !! st = Some s -> bail_armed s = true ->
  swp (run_hooks (Some cb) runtime_of atom_cstr top_frame ctx hs) (fun _ w' => w' = w) w.
Proof.
  intros Hbd Hs Hb. induction hs as [| h hs IH]; cbn [run_hooks]; [by swp_step |]. swp_step.
  eapply swp_mono; [by eapply stopped_hook |]. by intros u w' ->.
Qed.

Definition run_events (s : ArenaTraceState) (hs : list hookcall) : list event :=
  (spec_run atom_cstr (mode s) (view_of s) hs).1.

(** The outcome of a run: the first [k] hooks traced in full, the stop at the
    [k]-th. *)
Definition run_done (w w' : tworld) (s : ArenaTraceState) (hs : list hookcall) (k : nat) (s' : ArenaTraceState) (codes : list Z) : Prop :=
  (k <= length hs)%nat /\ step P st w w' s' (run_events s (take k hs)) codes /\
  s_in_hook w' = s_in_hook w /\ mode s' = mode s /\ view_of s' = (spec_run atom_cstr (mode s) (view_of s) (take k hs)).2 /\
  Forall code_ok codes /\ length codes = length (run_events s (take k hs)) /\
  bail_armed s' = negb (top codes =? 0) /\
  ((k < length hs)%nat -> bail_armed s' = true) /\
  top (take (length (run_events s (take (pred k) hs))) codes) = 0.

Lemma run_events_cons s s' h hs e v :
  spec_hook atom_cstr (mode s) (view_of s) h = (e, v) -> mode s' = mode s -> view_of s' = v ->
  spec_run atom_cstr (mode s) (view_of s) (h :: hs) = (e ++ run_events s' hs, (spec_run atom_cstr (mode s') (view_of s') hs).2).
Proof.
  intros E Hm Hv. unfold run_events. cbn [spec_run]. rewrite E, Hm, Hv. by destruct (spec_run atom_cstr (mode s) v hs).
Qed.

Lemma run_hooks_spec hs : forall w s,
  world_ok w -> arena_trace_state w !! runtime_of ctx = Some st -> traces w !! st = Some s -> at_rest s ->
  swp (run_hooks (Some cb) runtime_of atom_cstr top_frame ctx hs) (fun _ w' => exists k s' codes, run_done w w' s hs k s' codes) w.
Proof.
  induction hs as [| h hs IH]; intros w s Hok Hbd Hs Hrest; cbn [run_hooks].
  { swp_step. exists 0%nat, s, []. split; [done |]. split; [by apply step_refl |]. destruct Hrest. repeat split; try done. simpl. lia. }
  swp_step. eapply swp_mono; [by apply (run_hook_spec P cb st HP)|]. intros u w1 H1.
  destruct (spec_hook atom_cstr (mode s) (view_of s) h) as [e v] eqn:Eh.
  destruct H1 as (s1 & c1 & Hst1 & Hi1 & Hc1 & Hl1 & Hm1 & Hb1 & Hv1 & Hsc1 & Ha1).
  pose proof (run_events_cons s s1 h [] e v Eh Hm1 Hv1) as R0.
  assert (Hbd1 : arena_trace_state w1 !! runtime_of ctx = Some st) by (rewrite (proj1 (proj2 (proj2 (step_others _ _ _ _ _ _ _ Hst1)))); done).
  pose proof (step_state _ _ _ _ _ _ _ Hst1) as Hs1.
  destruct (Z.eqb_spec (top c1) 0) as [Ht | Ht]; simpl in Hb1.
  2:{ eapply swp_mono; [by eapply stopped_hooks |]. intros u' w2 ->. exists 1%nat, s1, c1.
      split; [simpl; lia |]. unfold run_events. change (take 1 (h :: hs)) with [h]. rewrite R0. simpl. rewrite app_nil_r.
      destruct (Z.eqb_spec (top c1) 0); [done |].
      split; [exact Hst1 |]. by repeat split. }
  eapply swp_mono; [apply (IH w1 s1); [by eapply step_ok | done | done | by split] |].
  intros u' w2 (k & s2 & c2 & Hk & Hst2 & Hi2 & Hm2 & Hv2 & Hc2 & Hl2 & Hb2 & Hlt & Hz).
  exists (S k), s2, (c1 ++ c2). pose proof (run_events_cons s s1 h (take k hs) e v Eh Hm1 Hv1) as R1.
  unfold run_done. unfold run_events at 1 2. cbn [take]. rewrite R1. cbn [fst snd].
  split; [simpl; lia |]. split; [by eapply step_trans |]. split; [congruence |]. split; [congruence |]. split; [done |].
  split; [by apply Forall_app |]. split; [rewrite !length_app; lia |].
  rewrite top_app, Ht by (by apply codes_nonneg). rewrite Hb2.
  rewrite Z.max_r by (pose proof (top_ok c2 Hc2) as Hx; unfold code_ok in Hx; lia). split; [done |].
  split; [simpl; intros; rewrite <- Hb2; apply Hlt; lia |]. cbn [pred].
  destruct k as [| k]; [done |]. cbn [pred] in Hz. unfold run_events at 1. cbn [take].
  rewrite (run_events_cons s s1 h (take k hs) e v Eh Hm1 Hv1). cbn [fst]. rewrite length_app, <- Hl1.
  rewrite take_app_add, top_app, Ht, Hz; [done |]. apply codes_nonneg. by apply Forall_take.
Qed.
End runs.

(** ** Properties of the specified events *)

Definition hook_ok (h : hookcall) : Prop :=
  match h with
  | HEnter b => word32 (bc_func_name b) /\ word32 (bc_filename b)
  | HExit => True
  | HLine b _ | HThrow b _ _ => word32 (bc_filename b)
  end.

Section events.
Context (atom_cstr : Z -> option bytes).

Lemma clip_short hdr s : 0 <= hdr <= 4096 -> lenZ (clip hdr s) < 2 ^ 16.
Proof. intros H. rewrite lenZ_clip by done. pose proof (clamp_len_range hdr _ H (lenZ_nonneg (c_str s))). lia. Qed.

Lemma announce_ok names a : word32 a -> Forall event_ok (announce atom_cstr names a).1.
Proof.
  intros Ha. unfold announce. destruct (existsb _ _); [constructor |]. destruct (atom_cstr a) as [s |]; [| constructor].
  apply Forall_singleton. split; [done |]. apply clip_short. lia.
Qed.

Lemma line_word b pc : word32 (line_of b pc).
Proof. apply u32_range. Qed.
Hint Resolve line_word announce_ok : core.

Lemma spec_hook_ok m v h : hook_ok h -> Forall event_ok (spec_hook atom_cstr m v h).1.
Proof.
  intros Hh. unfold spec_hook. destruct (m =? ARENA_TRACE_OFF); [constructor |].
  destruct h as [b | | b pc | b pc msg]; simpl in Hh.
  - destruct Hh as [H1 H2]. pose proof (announce_ok (v_names v) _ H1) as A1. destruct (announce _ (v_names v) _) as [e1 t1].
    pose proof (announce_ok t1 _ H2) as A2. destruct (announce _ t1 _) as [e2 t2]. simpl in *.
    apply Forall_app; split; [done |]. apply Forall_app; split; [done |]. apply Forall_singleton. simpl. auto.
  - by repeat constructor.
  - destruct (_ || _); [constructor |]. pose proof (announce_ok (v_names v) _ Hh) as A. destruct (announce _ _ _). simpl in *.
    apply Forall_app; split; [done |]. apply Forall_singleton. simpl. auto.
  - pose proof (announce_ok (v_names v) _ Hh) as A. destruct (announce _ _ _). simpl in *.
    apply Forall_app; split; [done |]. apply Forall_singleton. simpl. pose proof (clip_short 10 (default [] msg)). split; [done |]. split; [auto |]. apply H. lia.
Qed.

Lemma spec_run_ok m hs v : Forall hook_ok hs -> Forall event_ok (spec_run atom_cstr m v hs).1.
Proof.
  intros H. revert v. induction H as [| h hs Hh _ IH]; intros v; simpl; [constructor |].
  pose proof (spec_hook_ok m v h Hh) as He. destruct (spec_hook _ _ _ _) as [e v']. specialize (IH v').
  destruct (spec_run _ _ _ _). simpl in *. by apply Forall_app.
Qed.

(** The host can resolve an atom: it was announced, or has no string. *)
Definition known (tab : list Z) (a : Z) : Prop := a ∈ tab \/ atom_cstr a = None.

(** Every event refers to atoms announced before it, with their own names. *)
Fixpoint described (tab : list Z) (evs : list event) : Prop :=
  match evs with
  | [] => True
  | EName a s :: evs => (exists str, atom_cstr a = Some str /\ s = clip 6 str) /\ described (a :: tab) evs
  | EEnter n f _ :: evs => known tab n /\ known tab f /\ described tab evs
  | EExit :: evs => described tab evs
  | ELine f _ :: evs | EThrow f _ _ :: evs => known tab f /\ described tab evs
  end.

Definition announced (evs : list event) : list Z := omap (fun e => match e with EName a _ => Some a | _ => None end) evs.

Lemma described_app evs evs' : forall tab,
  described tab evs -> described (rev (announced evs) ++ tab) evs' -> described tab (evs ++ evs').
Proof.
  unfold announced. induction evs as [| e evs IH]; intros tab; simpl; [done |].
  destruct e; simpl; intros H; rewrite <- ?app_assoc; intros H'; naive_solver.
Qed.

Lemma known_weaken tab tab' a : known tab a -> known (tab' ++ tab) a.
Proof. intros [H | H]; [left; set_solver | by right]. Qed.

(** Announcing makes the atom known, and keeps the invariant on the table. *)
Lemma announce_known names tab a :
  Forall (known tab) names ->
  let '(e, names') := announce atom_cstr names a in
  described tab e /\ known (rev (announced e) ++ tab) a /\ Forall (known (rev (announced e) ++ tab)) names'.
Proof.
  intros Hn. unfold announce. destruct (existsb (Z.eqb a) names) eqn:E.
  { apply existsb_exists in E as (x & Hx & ->%Z.eqb_eq). simpl. split; [done |]. split; [| done].
    rewrite List.Forall_forall in Hn. auto. }
  assert (Ha : let e := match atom_cstr a with Some s => [EName a (clip 6 s)] | None => [] end in
     described tab e /\ known (rev (announced e) ++ tab) a).
  { unfold known. destruct (atom_cstr a) as [s |] eqn:Es; simpl; [| auto]. split; [eauto |]. left. set_solver. }
  destruct Ha as [H1 H2]. split; [done |]. split; [done |].
  assert (H3 : Forall (known (rev (announced (match atom_cstr a with Some s => [EName a (clip 6 s)] | None => [] end)) ++ tab)) names)
    by (eapply Forall_impl; [exact Hn |]; intros; by apply known_weaken).
  destruct (_ <=? _); [done |]. apply Forall_app. split; [done | by apply Forall_singleton].
Qed.

Lemma announced_app e e' : announced (e ++ e') = announced e ++ announced e'.
Proof. apply omap_app. Qed.

Lemma spec_hook_described m v h tab :
  Forall (known tab) (v_names v) ->
  let '(e, v') := spec_hook atom_cstr m v h in
  described tab e /\ Forall (known (rev (announced e) ++ tab)) (v_names v').
Proof.
  intros Hv. unfold spec_hook. destruct (m =? ARENA_TRACE_OFF); [done |]. destruct h as [b | | b pc | b pc msg].
  - pose proof (announce_known (v_names v) tab (bc_func_name b) Hv) as A1. destruct (announce _ (v_names v) _) as [e1 t1].
    destruct A1 as (D1 & K1 & F1). pose proof (announce_known t1 _ (bc_filename b) F1) as A2.
    destruct (announce _ t1 _) as [e2 t2]. destruct A2 as (D2 & K2 & F2). simpl.
    rewrite !announced_app, !rev_app_distr, <- !app_assoc. simpl. split; [| done].
    apply described_app; [done |]. apply described_app; [done |]. simpl. split; [by apply known_weaken | done].
  - done.
  - destruct (_ || _); [done |]. pose proof (announce_known (v_names v) tab (bc_filename b) Hv) as A1.
    destruct (announce _ _ _) as [e t]. destruct A1 as (D1 & K1 & F1). simpl.
    rewrite !announced_app, !rev_app_distr, <- !app_assoc. split; [by apply described_app | done].
  - pose proof (announce_known (v_names v) tab (bc_filename b) Hv) as A1.
    destruct (announce _ _ _) as [e t]. destruct A1 as (D1 & K1 & F1). simpl.
    rewrite !announced_app, !rev_app_distr, <- !app_assoc. split; [by apply described_app | done].
Qed.

Lemma spec_run_described m hs : forall v tab, Forall (known tab) (v_names v) -> described tab (spec_run atom_cstr m v hs).1.
Proof.
  induction hs as [| h hs IH]; intros v tab Hv; simpl; [done |]. pose proof (spec_hook_described m v h tab Hv) as Hh.
  destruct (spec_hook _ _ _ _) as [e v']. destruct Hh as [D F]. specialize (IH v' _ F). destruct (spec_run _ _ _ _).
  by apply described_app.
Qed.

(** LINE events between two calls or returns change file or line. *)
Fixpoint lines_change (last : option (Z * Z)) (evs : list event) : Prop :=
  match evs with
  | [] => True
  | ELine f l :: evs => last <> Some (f, l) /\ lines_change (Some (f, l)) evs
  | (EEnter _ _ _ | EExit) :: evs => lines_change None evs
  | _ :: evs => lines_change last evs
  end.

Definition line_after (last : option (Z * Z)) (evs : list event) : option (Z * Z) :=
  foldl (fun last e => match e with ELine f l => Some (f, l) | EEnter _ _ _ | EExit => None | _ => last end) last evs.

Lemma lines_change_app evs evs' : forall last,
  lines_change last evs -> lines_change (line_after last evs) evs' -> lines_change last (evs ++ evs').
Proof. induction evs as [| e evs IH]; intros last; simpl; [done |]. destruct e; simpl; naive_solver. Qed.

Definition line_shown (last : option (Z * Z)) (v : view) : Prop := forall f l, last = Some (f, l) -> f = v_file v /\ l = u32 (v_line v).

Lemma announce_lines names a last e t :
  announce atom_cstr names a = (e, t) -> lines_change last e /\ line_after last e = last.
Proof. unfold announce. destruct (existsb _ _); intros [= <- <-]; [done |]. by destruct (atom_cstr a). Qed.

Lemma spec_hook_lines m v h last :
  line_shown last v ->
  let '(e, v') := spec_hook atom_cstr m v h in lines_change last e /\ line_shown (line_after last e) v'.
Proof.
  intros Hl. unfold spec_hook. destruct (m =? ARENA_TRACE_OFF); [done |]. destruct h as [b | | b pc | b pc msg].
  - destruct (announce _ (v_names v) _) as [e1 t1] eqn:E1. destruct (announce _ t1 _) as [e2 t2] eqn:E2.
    apply (announce_lines _ _ last) in E1 as [C1 L1]. apply (announce_lines _ _ last) in E2 as [C2 L2].
    unfold line_after in *. rewrite !foldl_app, L1, L2. split; [| done].
    apply lines_change_app; [done |]. unfold line_after. rewrite L1. apply lines_change_app; [done | done].
  - done.
  - destruct (_ || _ || _) eqn:Ec; [done |]. destruct (announce _ _ _) as [e t] eqn:E.
    apply (announce_lines _ _ last) in E as [C L]. unfold line_after in *. rewrite foldl_app, L.
    apply orb_false_iff in Ec as [[_ Hpos%Z.ltb_ge]%orb_false_iff Ec].
    assert (E' : line_of b pc = u32 (bc_line b pc)) by (unfold line_of; f_equal; lia).
    split; [| intros f l [= <- <-]; simpl; auto]. apply lines_change_app; [done |]. unfold line_after. rewrite L. simpl.
    split; [| done]. intros ->. destruct (Hl _ _ eq_refl) as [Hf Hv]. rewrite E' in Hv. rewrite Hf, Hv, !Z.eqb_refl in Ec. done.
  - destruct (announce _ _ _) as [e t] eqn:E. apply (announce_lines _ _ last) in E as [C L]. unfold line_after in *.
    rewrite foldl_app, L. split; [| exact Hl]. apply lines_change_app; [done |]. unfold line_after. by rewrite L.
Qed.

Lemma spec_run_lines m hs : forall v last, line_shown last v -> lines_change last (spec_run atom_cstr m v hs).1.
Proof.
  induction hs as [| h hs IH]; intros v last Hv; simpl; [done |]. pose proof (spec_hook_lines m v h last Hv) as Hh.
  destruct (spec_hook _ _ _ _) as [e v']. destruct Hh as [D F]. specialize (IH v' _ F). destruct (spec_run _ _ _ _).
  by apply lines_change_app.
Qed.
End events.

(** ** Hosts *)

(** A host that takes a snapshot at every event and answers by kind and
    payload. *)
Definition snapshot_host atom_cstr top_frame (answer : Z -> bytes -> Z) (kind : Z) (payload : bytes) : ST tworld Z :=
  arena_trace_snapshot_here atom_cstr top_frame ;^ sret (answer kind payload).

Section hosts.
Context (atom_cstr : Z -> option bytes) (top_frame : Z -> list frame).
Context (Hsmall : forall ctx b pc, lenZ (render_stack atom_cstr (top_frame ctx) b pc) < 2 ^ 62).

Lemma snapshot_quiet P : quiet P (arena_trace_snapshot_here atom_cstr top_frame).
Proof.
  intros w Hok. unfold arena_trace_snapshot_here. swp_steps.
  assert (Hsame : forall c : Z, swp (sret c) (fun _ w' => untouched P w w' /\ s_in_hook w' = s_in_hook w) w)
    by (intros; swp_step; split; [apply untouched_refl | done]).
  destruct (s_in_hook w) as [st |] eqn:Hi; [| done]. swp_step.
  destruct (proj1 Hok st Hi) as [s Hs]. eapply swp_deref; [exact Hs |].
  destruct (active_ctx s) as [ctx |]; [| done]. destruct (bail_armed s) eqn:Hb; [done |]. swp_step.
  eapply swp_mono; [by apply emit_state_exact |]. rewrite Hb.
  intros u w' (HT & HB & HI & HS). swp_step. split; [| congruence].
  split; [by rewrite HT |]. split; [by rewrite HT |]. split; [done |].
  destruct HS as [-> | [-> _]]; [eexists; split; [done |]; by repeat constructor | exists []; split; [by rewrite app_nil_r | constructor]].
Qed.

#[export] Instance snapshot_host_quiet P answer : QuietHost P (snapshot_host atom_cstr top_frame answer).
Proof.
  intros kind payload w Hok. unfold snapshot_host. swp_step. eapply swp_mono; [by apply (snapshot_quiet P) |]. intros c w' H. swp_step. exact H.
Qed.
End hosts.

(** ** Properties *)

Section properties.
Context (P : Z -> Prop) (cb : Z -> bytes -> ST tworld Z) {Hcb : QuietHost P cb} (st : Z).
Context (runtime_of : Z -> Z) (atom_cstr : Z -> option bytes) (top_frame : Z -> list frame) (ctx : Z).

(** What the host of instance [st] decodes from the deliveries after [w]. *)
Definition decoded (w w' : tworld) : list (option event) :=
  map (fun kp => decode kp.1 kp.2) (events_of st (drop (length (sent w)) (sent w'))).

Lemma decoded_step w w' s' evs codes : step P st w w' s' evs codes -> Forall event_ok evs -> decoded w w' = map Some evs.
Proof.
  intros [_ _ (l & E & He & _)] Hok. unfold decoded. rewrite E, drop_app_length, He, map_map.
  apply map_ext_in. intros e He'. apply decode_encode. rewrite List.Forall_forall in Hok. auto.
Qed.


(** Self-describing streams.  After [arena_trace_reset], whatever happened
    before (a stop included), the events of any sequence of hook calls decode to
    a stream in which every atom a later event refers to has been announced
    before it with its (clipped) string, unless it has none, and in which no two
    LINE events in a row, without a call or return between them, carry the same
    file and line. *)
Theorem trace_self_describing w s hs
    (HP : P st)
    (Hsmall : forall ctx b pc, lenZ (render_stack atom_cstr (top_frame ctx) b pc) < 2 ^ 62)
    (Hok : world_ok w) (Hbound : arena_trace_state w !! runtime_of ctx = Some st)
    (Hs : traces w !! st = Some s) (Hscratch : lenZ (scratch s) = 4096) (Hhooks : Forall hook_ok hs) :
  exists w' evs,
    (arena_trace_reset st ;^ run_hooks (Some cb) runtime_of atom_cstr top_frame ctx hs) w = Done (tt, w') /\
    decoded w w' = map Some evs /\ described atom_cstr [] evs /\ lines_change None evs.
Proof.
  pose proof (step_mod P st w s (fun s => {| mode := mode s; bail_armed := false; active_ctx := None; active_b := None;
     active_pc := None; last_line_emitted := -1; last_file_atom := 0; name_table := []; scratch := scratch s |}) Hs) as Hr.
  destruct (swp_done _ _ _ (run_hooks_spec P cb st HP runtime_of atom_cstr top_frame ctx Hsmall hs _ _
    (step_ok _ _ _ _ _ _ _ Hok Hr eq_refl) Hbound (step_state _ _ _ _ _ _ _ Hr) ltac:(by split)))
    as ([] & w' & E & k & s' & codes & _ & Hst & _).
  eexists w', _. split; [exact E |]. split.
  - eapply decoded_step; [exact (step_trans _ _ _ _ _ _ _ _ _ _ _ Hr Hst) |]. by apply spec_run_ok, Forall_take.
  - split; [apply spec_run_described; constructor | by apply spec_run_lines].
Qed.
End properties.

(** Nested runs.  While instance [i] dispatches an event (its context, code
    and pc active), a run of hooks of another instance from inside the host
    callback leaves [s_in_hook] and [i] as they were and delivers nothing on
    behalf of [i]; a snapshot requested afterwards answers 0 and ships the
    document of [i]'s event, unless a [realloc] failed. *)
Theorem nested_run_keeps_dispatch (P : Z -> Prop) cb (Hcb : QuietHost P cb) i j
    runtime_of atom_cstr top_frame ctx hs w si sj c b pc
    (HPi : P i) (HPj : P j) (Hne : i <> j)
    (Hsmall : forall ctx b pc, lenZ (render_stack atom_cstr (top_frame ctx) b pc) < 2 ^ 62)
    (Hok : world_ok w) (Hdisp : s_in_hook w = Some i) (Hsi : traces w !! i = Some si)
    (Hact : active_ctx si = Some c /\ active_b si = b /\ active_pc si = pc) (Hbail : bail_armed si = false)
    (Hbound : arena_trace_state w !! runtime_of ctx = Some j) (Hsj : traces w !! j = Some sj) (Hrest : at_rest sj) :
  exists w1 w2,
    run_hooks (Some cb) runtime_of atom_cstr top_frame ctx hs w = Done (tt, w1) /\
    s_in_hook w1 = Some i /\ traces w1 !! i = Some si /\
    events_of i (drop (length (sent w)) (sent w1)) = [] /\
    arena_trace_snapshot_here atom_cstr top_frame w1 = Done (0, w2) /\
    (sent w2 = sent w1 ++ [DState c (render_stack atom_cstr (top_frame c) b pc)] \/
     (sent w2 = sent w1 /\ false ∈ heap_answers w1)).
Proof.
  destruct (swp_done _ _ _ (run_hooks_spec P cb j HPj runtime_of atom_cstr top_frame ctx Hsmall hs w sj Hok Hbound Hsj Hrest))
    as ([] & w1 & E & k & sj' & codes & _ & [_ (Ho & _ & _ & l & El & Hl) _] & Hi & _).
  assert (Hi1 : s_in_hook w1 = Some i) by congruence. assert (Hs1 : traces w1 !! i = Some si) by (rewrite Ho; auto).
  destruct Hact as (Hc & <- & <-).
  destruct (swp_done _ _ _ (emit_state_exact atom_cstr top_frame i w1 si c (active_b si) (active_pc si) (Hsmall _ _ _) Hs1))
    as ([] & w2 & E2 & _ & _ & _ & HS). rewrite Hbail in HS.
  exists w1, w2. split; [done |]. split; [done |]. split; [done |].
  split; [rewrite El, drop_app_length; apply (not_of_nil i); auto |]. split; [| done].
  unfold arena_trace_snapshot_here, sbind, sget, st_get, sderef. simpl. rewrite Hi1. simpl. rewrite Hs1. simpl. rewrite Hc, Hbail. by rewrite E2.
Qed.

(** ** Concrete runs *)

Module ToyTrace.
Import ToyStack.

Definition rt (ctx : Z) : Z := ctx + 100.
Definition frames (ctx : Z) : list frame := if ctx =? 1 then [fr] else [].
Definition stop_at (kind : Z) (k : Z) (_ : bytes) : Z := if k =? kind then 1 else 0.

Definition idle (m : Z) : ArenaTraceState :=
  {| mode := m; bail_armed := false; active_ctx := None; active_b := None; active_pc := None; last_line_emitted := -1;
     last_file_atom := 0; name_table := []; scratch := scratch zero_trace_state |}.

(** Two instances: 10 in DRILL mode for context 1, 20 in SCAN mode for 2. *)
Definition w0 : tworld :=
  {| traces := {[10 := idle 2; 20 := idle 1]}; arena_trace_state := {[101 := 10; 102 := 20]}; s_in_hook := None;
     pending := ∅; sent := []; heap_answers := [] |}.

(** Instance 10 dispatching a LINE event. *)
Definition w1 : tworld :=
  {| traces := {[10 := set_active (Some 1) (Some bc) (Some 3) (idle 2); 20 := idle 1]};
     arena_trace_state := {[101 := 10; 102 := 20]}; s_in_hook := Some 10; pending := ∅; sent := []; heap_answers := [] |}.

Lemma w0_ok : world_ok w0.
Proof.
  split; [done |]. simpl. intros r x.
  destruct (decide (r = 101)) as [-> | H1]; [intros [= <-]; by eexists |].
  destruct (decide (r = 102)) as [-> | H2]; [intros [= <-]; by eexists |].
  by rewrite lookup_insert_ne, lookup_singleton_ne by done.
Qed.

Lemma w1_ok : world_ok w1.
Proof.
  split; [intros x [= <-]; by eexists |]. simpl. intros r x.
  destruct (decide (r = 101)) as [-> | H1]; [intros [= <-]; by eexists |].
  destruct (decide (r = 102)) as [-> | H2]; [intros [= <-]; by eexists |].
  by rewrite lookup_insert_ne, lookup_singleton_ne by done.
Qed.

Lemma print_d_len n : (length (print_d n) <= 21)%nat.
Proof.
  assert (H : forall fuel n acc, (length (digits fuel n acc) <= fuel + length acc)%nat).
  { induction fuel as [| fuel IH]; intros k acc; simpl; [lia |]. case_match; simpl; [lia |]. etrans; [apply IH |]. simpl. lia. }
  unfold print_d. pose proof (H 20%nat (- n) []) as H1. pose proof (H 20%nat n []) as H2. cbn [length] in H1, H2.
  case_match; cbn [length]; lia.
Qed.

Lemma atom_len a : (length (render_atom atoms a "") <= 20)%nat /\ (length (render_atom atoms a "<anonymous>") <= 20)%nat.
Proof. unfold render_atom, atoms. destruct (a =? 7); [vm_compute; lia |]. destruct (a =? 8); vm_compute; lia. Qed.

Lemma frames_small ctx b pc : lenZ (render_stack atoms (frames ctx) b pc) < 2 ^ 62.
Proof.
  unfold frames, render_stack. destruct (ctx =? 1); [| done]. destruct b as [b |]; [| done]. cbn [shown map].
  assert (Hv : (length (render_object (members atoms (frame_vars fr b))) <= 200)%nat) by (vm_compute; lia).
  unfold render_array, render_frame. cbn [map separated fst snd].
  set (vars := render_object (members atoms (frame_vars fr b))) in *. clearbody vars.
  set (line := print_d _). assert (Hp : (length line <= 21)%nat) by apply print_d_len. clearbody line.
  destruct (atom_len (bc_func_name b)) as [_ Hn]. destruct (atom_len (bc_filename b)) as [Hf _].
  unfold render_object, quoted, lenZ. cbn [map separated fst snd lit]. repeat (cbn [length app]; rewrite ?length_app). lia.
Qed.

Definition hooks : list hookcall := [HEnter bc; HLine bc (Some 3); HLine bc (Some 3); HLine bc (Some 4); HThrow bc (Some 4) (Some [65]); HExit].

Lemma hooks_words : Forall hook_ok hooks.
Proof. repeat constructor; simpl; lia. Qed.


Lemma trace_self_describing_witness :
  exists w' evs,
    (arena_trace_reset 10 ;^ run_hooks (Some (snapshot_host atoms frames (stop_at 9))) rt atoms frames 1 hooks) w0 = Done (tt, w') /\
    decoded 10 w0 w' = map Some evs /\ described atoms [] evs /\ lines_change None evs.
Proof.
  apply (trace_self_describing (fun i => i = 10) (snapshot_host atoms frames (stop_at 9))
    (Hcb := snapshot_host_quiet atoms frames frames_small _ _) 10 rt atoms frames 1 w0 (idle 2) hooks);
    [reflexivity | apply frames_small | apply w0_ok | reflexivity | reflexivity | reflexivity | apply hooks_words].
Defined.

Lemma nested_run_keeps_dispatch_witness :
  exists w2 w3,
    run_hooks (Some (snapshot_host atoms frames (stop_at 9))) rt atoms frames 2 [HEnter bc; HExit] w1 = Done (tt, w2) /\
    s_in_hook w2 = Some 10 /\ traces w2 !! 10 = Some (set_active (Some 1) (Some bc) (Some 3) (idle 2)) /\
    events_of 10 (drop (length (sent w1)) (sent w2)) = [] /\
    arena_trace_snapshot_here atoms frames w2 = Done (0, w3) /\
    (sent w3 = sent w2 ++ [DState 1 (render_stack atoms (frames 1) (Some bc) (Some 3))] \/
     (sent w3 = sent w2 /\ false ∈ heap_answers w2)).
Proof.
  apply (nested_run_keeps_dispatch (fun i => i = 10 \/ i = 20) _
    (snapshot_host_quiet atoms frames frames_small _ _) 10 20 rt atoms frames 2 [HEnter bc; HExit] w1
    (set_active (Some 1) (Some bc) (Some 3) (idle 2)) (idle 1) 1 (Some bc) (Some 3));
    [by left | by right | done | apply frames_small | apply w1_ok | reflexivity | reflexivity | done | reflexivity
    | reflexivity | reflexivity | by split].
Defined.

(** ** Conversions that run script

    [JS_ToCString] of a thrown object runs its [toString] inside the THROW hook;
    entering it dispatches hooks of the same instance. *)

Definition scripted_to_string cb : ST tworld (option bytes) :=
  run_hook (Some cb) rt atoms frames 1 (HEnter bc) ;^ run_hook (Some cb) rt atoms frames 1 HExit ;^ sret (Some [65]).

Definition throw_scripted cb : run (unit * tworld) :=
  arena_trace_op_throw (Some cb) rt atoms frames 1 bc (Some 4) (scripted_to_string cb) w0.

Definition log_of (r : run (unit * tworld)) : list delivery := match r with Done (_, w) => sent w | _ => [] end.

(** A stop is not the last event.  When the host stops the run at the call
    event of a thrown object's [toString], the THROW event is still delivered
    after the stop was armed and answered. *)
Theorem throw_delivered_after_stop :
  map (fun kp => decode kp.1 kp.2) (events_of 10 (log_of (throw_scripted (fun k _ => sret (stop_at 1 k []))))) =
    [Some (EName 7 (lit "f")); Some (EEnter 7 9 0); Some (EThrow 9 4 [65])] /\
  answers_of 10 (log_of (throw_scripted (fun k _ => sret (stop_at 1 k [])))) = [0; 1; 0].
Proof. vm_compute. by split. Qed.

(** Snapshots inside a THROW event.  With the same kind of thrown object a
    host that requests a snapshot during each event gets one for the NAME, the
    call and the return, and none for the THROW event: the nested hooks cleared
    the active context that the THROW hook had set. *)
Theorem throw_snapshot_refused :
  map (fun d => match d with DEvent _ k _ => k | DAnswer _ _ => -1 | DState _ _ => -2 end)
    (log_of (throw_scripted (snapshot_host atoms frames (stop_at 9)))) = [0; -2; -1; 1; -2; -1; 2; -2; -1; 4; -1].
Proof. vm_compute. done. Qed.
End ToyTrace.
