(* ===== verification/Pc2Line.v ===== *)
(** * Source locations of bytecode (quickjs.c)

    While a function is assembled, [add_pc2line_info] records where source
    positions change; [compute_pc2line_info] packs the slots into a byte table of
    LEB128 and one-byte deltas; [find_line_num] walks the table when a stack
    trace or the tracer needs the line of a program counter.  The byte buffer
    ([DynBuf]) is a list; running out of memory is not modelled here. *)

From stdpp Require Import base list numbers sets sorting.
From Stdlib Require Import ZArith Lia.
From S2P Require Import Prelude.

#[local] Open Scope Z_scope.

(** ** LEB128 *)

(** Five rounds empty a 32-bit value. *)
Fixpoint leb128_loop (fuel : nat) (v : Z) : run (list Z) :=
  match fuel with
  | O => Spins
  | S fuel =>
      let a := Z.land v 127 in
      let v := Z.shiftr v 7 in
      if v =? 0 then Done [a]
      else let* rest := leb128_loop fuel v in Done (Z.lor a 128 :: rest)
  end.

Definition dbuf_put_leb128 (v : Z) : run (list Z) := leb128_loop 5 v.

Definition dbuf_put_sleb128 (v1 : Z) : run (list Z) :=
  let v := u32 v1 in dbuf_put_leb128 (Z.lxor (u32 (2 * v)) (u32 (- Z.shiftr v 31))).

(** The value and the bytes after it; [None] for -1. *)
Fixpoint get_leb128_loop (n : nat) (i v : Z) (buf : list Z) : option (Z * list Z) :=
  match n with
  | O => None
  | S n =>
      match buf with
      | [] => None
      | a :: buf =>
          let v := Z.lor v (u32 (Z.shiftl (Z.land a 127) (i * 7))) in
          if Z.land a 128 =? 0 then Some (v, buf) else get_leb128_loop n (i + 1) v buf
      end
  end.

Definition get_leb128 (buf : list Z) : option (Z * list Z) := get_leb128_loop 5 0 0 buf.

Definition get_sleb128 (buf : list Z) : option (Z * list Z) :=
  match get_leb128 buf with
  | None => None
  | Some (val, buf) => Some (i32 (Z.lxor (Z.shiftr val 1) (u32 (- Z.land val 1))), buf)
  end.

(** ** Recording *)

Definition PC2LINE_BASE : Z := -1.
Definition PC2LINE_RANGE : Z := 5.
Definition PC2LINE_OP_FIRST : Z := 1.
Definition PC2LINE_DIFF_PC_MAX : Z := (255 - PC2LINE_OP_FIRST) / PC2LINE_RANGE.

Record SourceLocSlot := { sl_pc : Z; sl_line : Z; sl_col : Z }.

(** The fields of [JSFunctionDef] the table uses; [source_loc_slots] is its
    first [source_loc_count] entries, [None] when it is NULL. *)
Record JSFunctionDef := {
  source_loc_slots : option (list SourceLocSlot);
  source_loc_size : Z;
  line_number_last : Z;
  line_number_last_pc : Z;
  col_number_last : Z;
  fd_line_num : Z;
  fd_col_num : Z
}.

(** What [resolve_labels] sets before the first slot; [js_mallocz] succeeded. *)
Definition start_source_locs (size line col : Z) : JSFunctionDef :=
  {| source_loc_slots := if size =? 0 then None else Some []; source_loc_size := size;
     line_number_last := line; line_number_last_pc := 0; col_number_last := col; fd_line_num := line; fd_col_num := col |}.

Definition add_pc2line_info (s : JSFunctionDef) (pc line_num col_num : Z) : JSFunctionDef :=
  match source_loc_slots s with
  | None => s
  | Some slots =>
      if source_loc_size s <=? lenZ slots then s
      else if pc <? u32 (line_number_last_pc s) then s
      else if (line_num =? line_number_last s) && (col_num =? col_number_last s) then s
      else
        {| source_loc_slots := Some (slots ++ [{| sl_pc := pc; sl_line := line_num; sl_col := col_num |}]);
           source_loc_size := source_loc_size s; line_number_last := line_num; line_number_last_pc := i32 pc;
           col_number_last := col_num; fd_line_num := fd_line_num s; fd_col_num := fd_col_num s |}
  end.

(** ** Packing *)

(** One entry of the table. *)
Definition put_entry (diff_pc diff_line diff_col : Z) : run (list Z) :=
  let* col := dbuf_put_sleb128 diff_col in
  if (PC2LINE_BASE <=? diff_line) && (diff_line <? PC2LINE_BASE + PC2LINE_RANGE) && (diff_pc <=? PC2LINE_DIFF_PC_MAX)
  then Done (u8 ((diff_line - PC2LINE_BASE) + diff_pc * PC2LINE_RANGE + PC2LINE_OP_FIRST) :: col)
  else
    let* pc := dbuf_put_leb128 diff_pc in
    let* line := dbuf_put_sleb128 diff_line in
    Done (0 :: pc ++ line ++ col).

Fixpoint pack_slots (slots : list SourceLocSlot) (last_pc last_line last_col : Z) : run (list Z) :=
  match slots with
  | [] => Done []
  | {| sl_pc := pc; sl_line := line_num; sl_col := col_num |} :: slots =>
      if line_num <? 0 then pack_slots slots last_pc last_line last_col
      else
        let diff_pc := i32 (pc - last_pc) in
        if diff_pc <? 0 then pack_slots slots last_pc last_line last_col
        else
          let diff_line := i32 (line_num - last_line) in
          let diff_col := i32 (col_num - last_col) in
          if (diff_line =? 0) && (diff_col =? 0) then pack_slots slots last_pc last_line last_col
          else
            let* e := put_entry diff_pc diff_line diff_col in
            let* rest := pack_slots slots pc line_num col_num in
            Done (e ++ rest)
  end.

(** The contents of [pc2line]; [None] when the function has no slots. *)
Definition compute_pc2line_info (s : JSFunctionDef) : run (option (list Z)) :=
  match source_loc_slots s with
  | None => Done None
  | Some slots => let* b := pack_slots slots 0 (fd_line_num s) (fd_col_num s) in Done (Some b)
  end.

(** ** Lookup *)

(** The fields of [JSFunctionBytecode] the lookup uses. *)
Record JSFunctionBytecode := {
  pc2line_buf : option (list Z);
  line_num : Z;
  col_num : Z;
  byte_code_buf : Z;
  byte_code_len : Z
}.

(** One entry: the advance of pc and line, the column delta, the bytes left. *)
Definition get_entry (p : list Z) : option (Z * Z * Z * list Z) :=
  match p with
  | [] => None
  | op :: p =>
      if op =? 0 then
        match get_leb128 p with
        | None => None
        | Some (val, p) =>
            match get_sleb128 p with
            | None => None
            | Some (dline, p) => match get_sleb128 p with None => None | Some (dcol, p) => Some (val, dline, dcol, p) end
            end
        end
      else
        let op := op - PC2LINE_OP_FIRST in
        match get_sleb128 p with
        | None => None
        | Some (dcol, p) => Some (op / PC2LINE_RANGE, op mod PC2LINE_RANGE + PC2LINE_BASE, dcol, p)
        end
  end.

(** The loop: line and column, [None] for the jump to [fail]. *)
Fixpoint find_loop (fuel : nat) (p : list Z) (pc line col pc_value : Z) : run (option (Z * Z)) :=
  match fuel with
  | O => Spins
  | S fuel =>
      match p with
      | [] => Done (Some (line, col))
      | _ :: _ =>
          match get_entry p with
          | None => Done None
          | Some (dpc, dline, dcol, p) =>
              let pc := i32 (pc + dpc) in
              if pc_value <? u32 pc then Done (Some (line, col))
              else find_loop fuel p pc (i32 (line + dline)) (i32 (col + dcol)) pc_value
          end
      end
  end.

(** The line and the column written through [col]. *)
Definition find_line_num (b : JSFunctionBytecode) (pc_value : Z) : run (Z * Z) :=
  match pc2line_buf b with
  | None => Done (line_num b, 1)
  | Some p =>
      let* r := find_loop (S (length p)) p 0 (line_num b) (col_num b) pc_value in
      match r with
      | Some (line, col) => Done (line, col)
      | None => Done (line_num b, 1)
      end
  end.

(** [None] is a NULL pc. *)
Definition js_arena_trace_bc_resolve_line (b : JSFunctionBytecode) (pc : option Z) : run Z :=
  match pc with
  | None => Done (line_num b)
  | Some pc =>
      if pc <? byte_code_buf b then Done (-1)
      else
        let off := u32 (pc - byte_code_buf b) in
        if u32 (byte_code_len b) <? off then Done (-1)
        else let* r := find_line_num b off in Done (fst r)
  end.

(** ** Round trips of the number encodings *)

Lemma split7 v : 0 <= v -> Z.lor (Z.land v 127) (Z.shiftl (Z.shiftr v 7) 7) = v.
Proof.
  intros Hv. change 127 with (Z.ones 7). apply Z.bits_inj'. intros i Hi.
  rewrite Z.lor_spec, Z.land_spec, Z.shiftl_spec by lia. destruct (Z.ltb_spec i 7).
  - rewrite Z.ones_spec_low, (Z.testbit_neg_r _ (i - 7)), andb_true_r, orb_false_r by lia. done.
  - rewrite Z.ones_spec_high, Z.shiftr_spec, andb_false_r by lia. simpl. f_equal. lia.
Qed.

Lemma land127_range v : 0 <= Z.land v 127 < 128.
Proof. change 127 with (Z.ones 7). rewrite Z.land_ones by lia. apply Z.mod_pos_bound. lia. Qed.

(** The low bits and the continuation bit of a byte. *)
Lemma leb_byte a : 0 <= a < 128 ->
  Z.land a 127 = a /\ Z.land a 128 = 0 /\ Z.land (Z.lor a 128) 127 = a /\ Z.land (Z.lor a 128) 128 = 128.
Proof.
  intros Ha. assert (H1 : Z.land a 127 = a) by (change 127 with (Z.ones 7); rewrite Z.land_ones by lia; apply Z.mod_small; lia).
  assert (H2 : Z.land a 128 = 0).
  { rewrite <- H1, <- Z.land_assoc. change (Z.land 127 128) with 0. apply Z.land_0_r. }
  split; [done |]. split; [done |]. rewrite !Z.land_lor_distr_l, H1, H2. change (Z.land 128 127) with 0.
  rewrite Z.lor_0_r. done.
Qed.

Lemma leb128_roundtrip fuel : forall v i acc,
  0 <= v -> 0 <= i -> v * 2 ^ (i * 7) < 2 ^ 32 -> v < 2 ^ (7 * Z.of_nat fuel) -> (0 < fuel)%nat ->
  exists l, leb128_loop fuel v = Done l /\
    forall n rest, (fuel <= n)%nat -> get_leb128_loop n i acc (l ++ rest) = Some (Z.lor acc (Z.shiftl v (i * 7)), rest).
Proof.
  induction fuel as [| fuel IH]; intros v i acc Hv Hi Hfit Hlt Hf; [lia |]. cbn [leb128_loop].
  pose proof (land127_range v) as Ha. destruct (leb_byte _ Ha) as (B1 & B2 & B3 & B4).
  pose proof (split7 v Hv) as Hs. assert (Hp : 0 < 2 ^ (i * 7)) by (apply Z.pow_pos_nonneg; lia).
  assert (Hle : Z.land v 127 <= v) by (change 127 with (Z.ones 7); rewrite Z.land_ones by lia; apply Z.mod_le; lia).
  assert (Hlow : u32 (Z.shiftl (Z.land v 127) (i * 7)) = Z.shiftl (Z.land v 127) (i * 7)).
  { apply u32_small. rewrite Z.shiftl_mul_pow2 by lia. nia. }
  destruct (Z.eqb_spec (Z.shiftr v 7) 0) as [E | E].
  { eexists. split; [done |]. intros [| n] rest Hn; [lia |]. simpl. rewrite B2. simpl. rewrite B1, Hlow.
    do 2 f_equal. rewrite E, Z.shiftl_0_l, Z.lor_0_r in Hs. by rewrite Hs. }
  assert (Hdiv : Z.shiftr v 7 = v / 128) by (rewrite Z.shiftr_div_pow2 by lia; done).
  pose proof (Z.div_mod v 128 ltac:(lia)) as Hdm. pose proof (Z.mod_pos_bound v 128 ltac:(lia)) as Hmb.
  destruct (IH (Z.shiftr v 7) (i + 1) (Z.lor acc (Z.shiftl (Z.land v 127) (i * 7)))) as (l & El & Hl).
  - rewrite Hdiv. lia.
  - lia.
  - rewrite Hdiv. replace ((i + 1) * 7) with (i * 7 + 7) by lia. rewrite Z.pow_add_r by lia. change (2 ^ 7) with 128. nia.
  - rewrite Hdiv. apply Z.div_lt_upper_bound; [lia |]. replace (128 * _) with (2 ^ (7 * Z.of_nat (S fuel))); [done |].
    change 128 with (2 ^ 7). rewrite <- Z.pow_add_r by lia. f_equal. lia.
  - destruct fuel; [| lia]. change (2 ^ (7 * Z.of_nat 1)) with 128 in Hlt. rewrite Hdiv in E. lia.
  - rewrite El. simpl. eexists. split; [done |]. intros [| n] rest Hn; [lia |]. simpl. rewrite B4. simpl. rewrite B3, Hlow, Hl by lia.
    do 2 f_equal. rewrite <- Z.lor_assoc. f_equal. rewrite <- Hs at 3. rewrite Z.shiftl_lor, Z.shiftl_shiftl by lia.
    do 2 f_equal. lia.
Qed.

Lemma put_leb128_spec v : 0 <= v < 2 ^ 32 ->
  exists l, dbuf_put_leb128 v = Done l /\ forall rest, get_leb128 (l ++ rest) = Some (v, rest).
Proof.
  intros Hv. destruct (leb128_roundtrip 5 v 0 0) as (l & E & Hl); try lia.
  exists l. split; [done |]. intros rest. unfold get_leb128. rewrite Hl by lia. by rewrite Z.shiftl_0_r, Z.lor_0_l.
Qed.

Lemma lxor_ones32 x : 0 <= x < 2 ^ 32 -> Z.lxor x (2 ^ 32 - 1) = 2 ^ 32 - 1 - x.
Proof.
  intros Hx. change (2 ^ 32 - 1) with (Z.ones 32).
  assert (Hb : forall i, 32 <= i -> Z.testbit x i = false).
  { intros i Hi. destruct (Z.eq_dec x 0) as [-> | ?]; [apply Z.testbit_0_l |]. apply Z.bits_above_log2; [lia |].
    apply Z.lt_le_trans with 32; [apply Z.log2_lt_pow2; lia | lia]. }
  assert (Hz : Z.ldiff x (Z.ones 32) = 0).
  { apply Z.bits_inj'. intros i Hi. rewrite Z.ldiff_spec, Z.bits_0. destruct (Z.ltb_spec i 32).
    - rewrite Z.ones_spec_low by lia. apply andb_false_r.
    - by rewrite Hb. }
  rewrite Z.sub_nocarry_ldiff by done. apply Z.bits_inj'. intros i Hi. rewrite Z.lxor_spec, Z.ldiff_spec.
  destruct (Z.ltb_spec i 32); [rewrite Z.ones_spec_low by lia; by destruct (Z.testbit x i) |].
  by rewrite Z.ones_spec_high, Hb by lia.
Qed.

Definition int32 (x : Z) : Prop := - 2 ^ 31 <= x < 2 ^ 31.

Lemma i32_small x : int32 x -> i32 x = x.
Proof. unfold int32, i32. intros H. rewrite Z.mod_small by lia. lia. Qed.

(** Zigzag: sign in the low bit. *)
Lemma zigzag v : int32 v ->
  let z := Z.lxor (u32 (2 * u32 v)) (u32 (- Z.shiftr (u32 v) 31)) in
  0 <= z < 2 ^ 32 /\ i32 (Z.lxor (Z.shiftr z 1) (u32 (- Z.land z 1))) = v.
Proof.
  intros Hv. unfold int32 in Hv. rewrite Z.shiftr_div_pow2 by lia.
  assert (Hl1 : forall x, Z.land x 1 = x mod 2) by (intros x; change 1 with (Z.ones 1); by rewrite Z.land_ones by lia).
  destruct (Z.ltb_spec v 0) as [Hn | Hp].
  - replace (u32 v) with (v + 2 ^ 32) by (unfold u32; apply Z.mod_unique with (-1); lia).
    replace ((v + 2 ^ 32) / 2 ^ 31) with 1 by (apply Z.div_unique with (v + 2 ^ 31); lia).
    replace (u32 (2 * (v + 2 ^ 32))) with (2 * v + 2 ^ 32) by (unfold u32; apply Z.mod_unique with 1; lia).
    change (u32 (- (1))) with (2 ^ 32 - 1). rewrite lxor_ones32 by lia. cbv zeta. split; [lia |].
    set (z := 2 ^ 32 - 1 - (2 * v + 2 ^ 32)). rewrite Hl1, Z.shiftr_div_pow2 by lia. change (2 ^ 1) with 2.
    replace (z mod 2) with 1 by (apply Z.mod_unique with (- v - 1); lia).
    replace (z / 2) with (- v - 1) by (apply Z.div_unique with 1; lia).
    change (u32 (- (1))) with (2 ^ 32 - 1). rewrite lxor_ones32 by lia.
    unfold i32. replace (2 ^ 32 - 1 - (- v - 1) + 2 ^ 31) with (v + 2 ^ 31 + 1 * 2 ^ 32) by lia.
    rewrite Z.mod_add by lia. rewrite Z.mod_small by lia. lia.
  - rewrite (u32_small v) by lia. rewrite (Z.div_small v) by lia. change (u32 (- 0)) with 0. rewrite Z.lxor_0_r.
    rewrite u32_small by lia. cbv zeta. split; [lia |]. rewrite Hl1, Z.shiftr_div_pow2 by lia. change (2 ^ 1) with 2.
    replace (2 * v mod 2) with 0 by (apply Z.mod_unique with v; lia).
    replace (2 * v / 2) with v by (apply Z.div_unique with 0; lia).
    change (u32 (- 0)) with 0. rewrite Z.lxor_0_r. by apply i32_small.
Qed.

Lemma put_sleb128_spec v : int32 v ->
  exists l, dbuf_put_sleb128 v = Done l /\ forall rest, get_sleb128 (l ++ rest) = Some (v, rest).
Proof.
  intros Hv. destruct (zigzag v Hv) as [Hz Hd]. destruct (put_leb128_spec _ Hz) as (l & E & Hl).
  exists l. split; [exact E |]. intros rest. unfold get_sleb128. by rewrite Hl, Hd.
Qed.

Lemma put_entry_spec dpc dline dcol :
  0 <= dpc < 2 ^ 31 -> int32 dline -> int32 dcol ->
  exists e, put_entry dpc dline dcol = Done e /\ e <> [] /\ forall rest, get_entry (e ++ rest) = Some (dpc, dline, dcol, rest).
Proof.
  intros Hp Hl Hc. unfold put_entry. destruct (put_sleb128_spec dcol Hc) as (c & Ec & Hgc). rewrite Ec. simpl run_bind.
  destruct (_ && _ && _) eqn:Hshort.
  - apply andb_prop in Hshort as [[H1%Z.leb_le H2%Z.ltb_lt]%andb_prop H3%Z.leb_le].
    unfold PC2LINE_DIFF_PC_MAX, PC2LINE_BASE, PC2LINE_RANGE, PC2LINE_OP_FIRST in *. change ((255 - 1) / 5) with 50 in H3.
    rewrite u8_small by lia. eexists. split; [done |]. split; [done |]. intros rest. simpl get_entry.
    destruct (Z.eqb_spec (dline - -1 + dpc * 5 + 1) 0); [lia |]. rewrite Hgc. unfold PC2LINE_BASE, PC2LINE_RANGE, PC2LINE_OP_FIRST.
    replace ((dline - -1 + dpc * 5 + 1 - 1) / 5) with dpc by (apply Z.div_unique with (dline + 1); lia).
    replace ((dline - -1 + dpc * 5 + 1 - 1) mod 5) with (dline + 1) by (apply Z.mod_unique with dpc; lia).
    do 4 f_equal. lia.
  - destruct (put_leb128_spec dpc ltac:(lia)) as (p & Ep & Hgp). destruct (put_sleb128_spec dline Hl) as (l & El & Hgl).
    rewrite Ep, El. simpl. eexists. split; [done |]. split; [done |]. intros rest. simpl. rewrite <- !app_assoc.
    by rewrite Hgp, Hgl, Hgc.
Qed.

(** ** The packed table answers like the slots *)

Definition natural (x : Z) : Prop := 0 <= x < 2 ^ 31.

Definition slot_ok (s : SourceLocSlot) : Prop := natural (sl_pc s) /\ natural (sl_line s) /\ natural (sl_col s).

Definition pc_le (s s' : SourceLocSlot) : Prop := sl_pc s <= sl_pc s'.

(** The location of the last slot at or before [pc]. *)
Definition last_loc (start : Z * Z) (slots : list SourceLocSlot) (pc : Z) : Z * Z :=
  foldl (fun acc s => if sl_pc s <=? pc then (sl_line s, sl_col s) else acc) start slots.

Lemma last_loc_above start slots pc : Forall (fun s => pc < sl_pc s) slots -> last_loc start slots pc = start.
Proof.
  unfold last_loc. intros H. revert start. induction H as [| s slots Hs _ IH]; intros start; simpl; [done |].
  destruct (Z.leb_spec (sl_pc s) pc); [lia |]. apply IH.
Qed.

Lemma pack_slots_spec slots : forall last_pc line col,
  Forall slot_ok slots -> StronglySorted pc_le slots -> Forall (fun s => last_pc <= sl_pc s) slots ->
  natural last_pc -> natural line -> natural col ->
  exists buf, pack_slots slots last_pc line col = Done buf /\
    forall fuel pc, (length buf < fuel)%nat -> 0 <= pc < 2 ^ 32 ->
      find_loop fuel buf last_pc line col pc = Done (Some (last_loc (line, col) slots pc)).
Proof.
  induction slots as [| [pc' line' col'] slots IH]; intros last_pc line col Hok Hsort Hlo Hlp Hline Hcol; simpl.
  { eexists. split; [done |]. intros [| fuel] pc Hf Hpc; [simpl in Hf; lia | done]. }
  apply Forall_cons in Hok as [(Hp' & Hl' & Hc') Hok]. apply Forall_cons in Hlo as [Hle Hlo].
  apply StronglySorted_inv in Hsort as [Hsort Hmin]. unfold natural in *. simpl in *.
  destruct (Z.ltb_spec line' 0); [lia |].
  rewrite !i32_small by (unfold int32; lia). destruct (Z.ltb_spec (pc' - last_pc) 0); [lia |].
  destruct (Z.eqb_spec (line' - line) 0) as [Eline | Nline], (Z.eqb_spec (col' - col) 0) as [Ecol | Ncol]; cbn [andb].
  { destruct (IH last_pc line col Hok Hsort Hlo Hlp Hline Hcol) as (buf & E & Hbuf). exists buf. split; [done |].
    intros fuel pc Hf Hpc. rewrite Hbuf by done. replace line' with line by lia. replace col' with col by lia.
    by destruct (pc' <=? pc). }
  all: destruct (put_entry_spec (pc' - last_pc) (line' - line) (col' - col)) as (e & Ee & Hne & He); [lia | unfold int32; lia.. |].
  all: destruct (IH pc' line' col' Hok Hsort Hmin Hp' Hl' Hc') as (buf & E & Hbuf).
  all: rewrite Ee, E; simpl; eexists; split; [done |]; intros [| fuel] pc Hf Hpc; [lia |].
  all: destruct e as [| b e]; [done |]; cbn [find_loop app]; change (b :: e ++ buf) with ((b :: e) ++ buf); rewrite He.
  all: rewrite !i32_small by (unfold int32; lia); rewrite u32_small by lia.
  all: replace (last_pc + (pc' - last_pc)) with pc' by lia; replace (line + (line' - line)) with line' by lia;
    replace (col + (col' - col)) with col' by lia.
  all: destruct (Z.ltb_spec pc pc'), (Z.leb_spec pc' pc); try lia;
    [| apply Hbuf; [rewrite length_app in Hf; simpl in Hf; lia | done]].
  all: do 2 f_equal; fold (last_loc (line, col) slots pc); symmetry; apply last_loc_above.
  all: eapply Forall_impl; [exact Hmin |]; unfold pc_le; simpl; intros; lia.
Qed.

(** ** Recording keeps the last location of every program counter *)

Definition record_locs (s : JSFunctionDef) (calls : list SourceLocSlot) : JSFunctionDef :=
  foldl (fun s c => add_pc2line_info s (sl_pc c) (sl_line c) (sl_col c)) s calls.

(** The state after recording [calls]. *)
Record recorded (start : Z * Z) (calls : list SourceLocSlot) (size : Z) (s : JSFunctionDef) (slots : list SourceLocSlot) : Prop := {
  rec_slots : source_loc_slots s = Some slots;
  rec_size : source_loc_size s = size;
  rec_count : lenZ slots <= lenZ calls;
  rec_start : (fd_line_num s, fd_col_num s) = start;
  rec_ok : Forall slot_ok slots;
  rec_sorted : StronglySorted pc_le slots;
  rec_last_pc : line_number_last_pc s = 0 \/ exists c, c ∈ calls /\ line_number_last_pc s = sl_pc c;
  rec_below : Forall (fun c => sl_pc c <= line_number_last_pc s) slots;
  rec_last : forall pc, Forall (fun c => sl_pc c <= pc) calls -> last_loc start calls pc = (line_number_last s, col_number_last s);
  rec_same : forall pc, last_loc start slots pc = last_loc start calls pc
}.

Lemma last_loc_snoc start l c pc :
  last_loc start (l ++ [c]) pc = if sl_pc c <=? pc then (sl_line c, sl_col c) else last_loc start l pc.
Proof. unfold last_loc. by rewrite foldl_app. Qed.

Lemma sorted_snoc l c : StronglySorted pc_le l -> Forall (fun x => sl_pc x <= sl_pc c) l -> StronglySorted pc_le (l ++ [c]).
Proof.
  induction 1 as [| x l Hl IH Hx]; intros H; simpl; [repeat constructor |]. apply Forall_cons in H as [Hc H].
  constructor; [auto |]. apply Forall_app. split; [done | by apply Forall_singleton].
Qed.

Lemma add_recorded start calls size s slots c :
  recorded start calls size s slots -> Forall slot_ok calls -> slot_ok c -> Forall (fun x => sl_pc x <= sl_pc c) calls ->
  lenZ calls < size ->
  exists slots', recorded start (calls ++ [c]) size (add_pc2line_info s (sl_pc c) (sl_line c) (sl_col c)) slots'.
Proof.
  intros [R1 R2 R3 R4 R5 R6 R7 R8 R9 R10] Hcalls Hc Hle Hsz. unfold add_pc2line_info. rewrite R1, R2.
  destruct (Z.leb_spec size (lenZ slots)); [lia |]. pose proof Hc as (Hp & Hl & Hcol). unfold natural in *.
  assert (Hlast : 0 <= line_number_last_pc s <= sl_pc c).
  { destruct R7 as [-> | (x & Hx & ->)]; [lia |]. rewrite Forall_forall in Hcalls, Hle. destruct (Hcalls x Hx) as [Hn _].
    unfold natural in Hn. specialize (Hle x Hx). simpl in Hle. lia. }
  rewrite u32_small by lia. destruct (Z.ltb_spec (sl_pc c) (line_number_last_pc s)); [lia |].
  assert (Hall : forall pc, Forall (fun x => sl_pc x <= pc) (calls ++ [c]) -> sl_pc c <= pc).
  { intros pc Hx. rewrite Forall_forall in Hx. apply (Hx c). set_solver. }
  assert (Hlen : lenZ (calls ++ [c]) = lenZ calls + 1) by (unfold lenZ; rewrite length_app; simpl; lia).
  destruct ((sl_line c =? line_number_last s) && (sl_col c =? col_number_last s)) eqn:Hdup.
  - apply andb_prop in Hdup as [E1%Z.eqb_eq E2%Z.eqb_eq].
    exists slots. split; try done; [lia | | |].
    + destruct R7 as [? | (x & Hx & ?)]; [by left | right; exists x; set_solver].
    + intros pc Hpc. rewrite last_loc_snoc. specialize (Hall pc Hpc). destruct (Z.leb_spec (sl_pc c) pc); [by rewrite E1, E2 | lia].
    + intros pc. rewrite last_loc_snoc, R10. destruct (Z.leb_spec (sl_pc c) pc) as [Hpc | ?]; [| done].
      rewrite R9, E1, E2; [done |]. eapply Forall_impl; [exact Hle |]. simpl. intros. lia.
  - exists (slots ++ [c]). rewrite i32_small by (unfold int32; lia). split; simpl; try done.
    + by destruct c.
    + unfold lenZ in *. rewrite !length_app. simpl. lia.
    + apply Forall_app. split; [done | by apply Forall_singleton].
    + apply sorted_snoc; [done |]. eapply Forall_impl; [exact R8 |]. simpl. intros. lia.
    + right. exists c. set_solver.
    + apply Forall_app. split; [| by apply Forall_singleton]. eapply Forall_impl; [exact R8 |]. simpl. intros. lia.
    + intros pc Hpc. rewrite last_loc_snoc. specialize (Hall pc Hpc). destruct (Z.leb_spec (sl_pc c) pc); [done | lia].
    + intros pc. by rewrite !last_loc_snoc, R10.
Qed.

Lemma record_recorded start size : forall calls done_ s slots,
  recorded start done_ size s slots -> Forall slot_ok (done_ ++ calls) -> StronglySorted pc_le (done_ ++ calls) ->
  lenZ (done_ ++ calls) <= size ->
  exists slots', recorded start (done_ ++ calls) size (record_locs s calls) slots'.
Proof.
  induction calls as [| c calls IH]; intros done_ s slots R Hok Hsort Hsz; simpl; [rewrite app_nil_r; eauto |].
  assert (Hs : done_ ++ c :: calls = (done_ ++ [c]) ++ calls) by (by rewrite <- app_assoc). 
  pose proof Hok as [Hd [Hc _]%Forall_cons]%Forall_app.
  destruct (add_recorded start done_ size s slots c) as (slots' & R'); [done | done | done | | |].
  - clear -Hsort. induction done_ as [| x l IHl]; [constructor |]. simpl in Hsort. apply StronglySorted_inv in Hsort as [H1 H2].
    constructor; [| auto]. rewrite Forall_forall in H2. apply (H2 c). set_solver.
  - unfold lenZ in *. rewrite length_app in Hsz. simpl in Hsz. lia.
  - rewrite Hs in *. eapply IH; eauto.
Qed.

Lemma get_leb128_shorter n : forall i v buf r, get_leb128_loop n i v buf = Some r -> (length r.2 < length buf)%nat.
Proof.
  induction n as [| n IH]; intros i v buf r; simpl; [done |]. destruct buf as [| a buf]; [done |].
  destruct (_ =? 0); [intros [= <-]; simpl; lia |]. intros H%IH. simpl. lia.
Qed.

Lemma get_sleb128_shorter buf v rest : get_sleb128 buf = Some (v, rest) -> (length rest < length buf)%nat.
Proof.
  unfold get_sleb128. destruct (get_leb128 buf) as [[val r] |] eqn:E; [| done]. intros [= _ <-].
  by apply get_leb128_shorter in E.
Qed.

Lemma get_entry_shorter p dpc dline dcol rest : get_entry p = Some (dpc, dline, dcol, rest) -> (length rest < length p)%nat.
Proof.
  destruct p as [| op p]; [done |]. simpl. destruct (op =? 0).
  - destruct (get_leb128 p) as [[v1 p1] |] eqn:E1; [| done]. apply get_leb128_shorter in E1.
    destruct (get_sleb128 p1) as [[v2 p2] |] eqn:E2; [| done]. apply get_sleb128_shorter in E2.
    destruct (get_sleb128 p2) as [[v3 p3] |] eqn:E3; [| done]. apply get_sleb128_shorter in E3.
    intros [= _ _ _ <-]. simpl in *. lia.
  - destruct (get_sleb128 p) as [[v3 p3] |] eqn:E3; [| done]. apply get_sleb128_shorter in E3. intros [= _ _ _ <-]. lia.
Qed.

Lemma find_loop_total fuel : forall p pc line col v, (length p < fuel)%nat -> exists r, find_loop fuel p pc line col v = Done r.
Proof.
  induction fuel as [| fuel IH]; intros p pc line col v Hf; [lia |]. cbn [find_loop]. destruct p as [| b p]; [eauto |].
  destruct (get_entry (b :: p)) as [[[[dpc dline] dcol] rest] |] eqn:E; [| eauto]. apply get_entry_shorter in E.
  cbv zeta. destruct (_ <? _); [eauto |]. apply IH. lia.
Qed.

(** ** Properties *)

(** Number encodings.  Any 32-bit value written by [dbuf_put_leb128], and
    any [int] written by [dbuf_put_sleb128], is read back by the matching reader,
    which consumes exactly the bytes written. *)
Theorem leb128_roundtrips u v rest (Hu : 0 <= u < 2 ^ 32) (Hv : int32 v) :
  (exists l, dbuf_put_leb128 u = Done l /\ get_leb128 (l ++ rest) = Some (u, rest)) /\
  (exists l, dbuf_put_sleb128 v = Done l /\ get_sleb128 (l ++ rest) = Some (v, rest)).
Proof.
  destruct (put_leb128_spec u Hu) as (l & E & Hl), (put_sleb128_spec v Hv) as (l' & E' & Hl').
  split; [exists l | exists l']; auto.
Qed.

Lemma leb128_roundtrips_witness :
  (exists l, dbuf_put_leb128 300 = Done l /\ get_leb128 (l ++ [7]) = Some (300, [7])) /\
  (exists l, dbuf_put_sleb128 (-5) = Done l /\ get_sleb128 (l ++ [7]) = Some (-5, [7])).
Proof. apply (leb128_roundtrips 300 (-5) [7]); unfold int32; lia. Defined.

(** C16: Source locations.  Whatever positions the assembler records, in the
    order of the bytecode and with a slot for each, the packed table makes
    [find_line_num] answer every program counter with the line and column of the
    last position recorded at or before it, or with those of the function when
    there is none. *)
Theorem source_locations_found size line col calls
    (Hline : natural line) (Hcol : natural col) (Hok : Forall slot_ok calls) (Hsorted : StronglySorted pc_le calls)
    (Hsize : lenZ calls <= size) (Hslots : 0 < size) :
  exists buf, compute_pc2line_info (record_locs (start_source_locs size line col) calls) = Done (Some buf) /\
    forall start len pc, 0 <= pc < 2 ^ 32 ->
      find_line_num {| pc2line_buf := Some buf; line_num := line; col_num := col; byte_code_buf := start; byte_code_len := len |} pc
        = Done (last_loc (line, col) calls pc).
Proof.
  destruct (record_recorded (line, col) size calls [] (start_source_locs size line col) []) as (slots & [R1 _ _ R4 R5 R6 _ _ _ R10]); try done.
  { split; simpl; [by destruct (Z.eqb_spec size 0); [lia |] | done | done | done | done | apply SSorted_nil | by left | done | done | done]. }
  unfold compute_pc2line_info. rewrite R1. injection R4 as -> ->.
  destruct (pack_slots_spec slots 0 line col) as (buf & E & Hb); try done.
  { eapply Forall_impl; [exact R5 |]. intros s [Hs _]. unfold natural in Hs. simpl. lia. }
  rewrite E. simpl. eexists. split; [done |]. intros start len pc Hpc. unfold find_line_num. simpl pc2line_buf. cbv iota.
  cbn [line_num col_num]. rewrite Hb by (auto; lia). simpl in *. rewrite <- R10. by destruct (last_loc (line, col) slots pc).
Qed.

Definition toy_calls : list SourceLocSlot :=
  [{| sl_pc := 0; sl_line := 10; sl_col := 4 |}; {| sl_pc := 3; sl_line := 10; sl_col := 4 |};
   {| sl_pc := 3; sl_line := 11; sl_col := 2 |}; {| sl_pc := 400; sl_line := 2; sl_col := 900 |}].

Lemma source_locations_found_witness :
  exists buf, compute_pc2line_info (record_locs (start_source_locs 4 9 1) toy_calls) = Done (Some buf) /\
    forall start len pc, 0 <= pc < 2 ^ 32 ->
      find_line_num {| pc2line_buf := Some buf; line_num := 9; col_num := 1; byte_code_buf := start; byte_code_len := len |} pc
        = Done (last_loc (9, 1) toy_calls pc).
Proof.
  apply (source_locations_found 4 9 1 toy_calls); [unfold natural; lia | unfold natural; lia | | | vm_compute; discriminate | lia].
  - repeat constructor; simpl; lia.
  - repeat constructor; unfold pc_le; simpl; lia.
Defined.

(** Lookup is total.  On any table, well formed or not, and any program
    counter the tracer's line lookup returns; outside the bytecode it answers
    -1, and a NULL pc gives the line of the function. *)
Theorem resolve_line_total b pc :
  exists line, js_arena_trace_bc_resolve_line b pc = Done line /\
    match pc with
    | None => line = line_num b
    | Some p => p < byte_code_buf b \/ u32 (byte_code_len b) < u32 (p - byte_code_buf b) -> line = -1
    end.
Proof.
  destruct pc as [p |]; simpl; [| eauto]. destruct (Z.ltb_spec p (byte_code_buf b)) as [H | H]; [eauto |].
  destruct (Z.ltb_spec (u32 (byte_code_len b)) (u32 (p - byte_code_buf b))) as [H' | H']; [eauto |].
  unfold find_line_num. destruct (pc2line_buf b) as [buf |]; simpl; [| eexists; split; [done |]; lia].
  destruct (find_loop_total (S (length buf)) buf 0 (line_num b) (col_num b) (u32 (p - byte_code_buf b))) as (r & E); [lia |].
  cbn [find_loop] in *. rewrite E. destruct r as [[l c] |]; simpl; eexists; (split; [done |]); lia.
Qed.
