(* ===== verification/FrameWalk.v ===== *)
(** * Reading live stack frames (quickjs.c, the js_arena_trace_frame accessors)

    The accessors the tracer walks the stack with: bytecode and pc of a frame,
    names and values of its arguments, locals and closure variables.  Array
    reads abort when they leave the array. *)

From stdpp Require Import base list numbers.
From Stdlib Require Import ZArith Lia.
From S2P Require Import Prelude Pc2Line TraceJson.

#[local] Open Scope Z_scope.

(** An entry of a [JSVarRef] array: NULL, or the value [pvalue] points to if
    any. *)
Definition var_ref := option (option tvalue).

Record JSVarDef := { var_name : Z; is_captured : bool; var_ref_idx : Z }.

Record fn_bytecode := {
  b_code : JSFunctionBytecode;
  b_func_name : Z;
  b_filename : Z;
  arg_count : Z;
  var_count : Z;
  vardefs : option (list JSVarDef);
  closure_var_count : Z;
  closure_var : option (list Z)
}.

(** [cur_func]: a bytecode function object with its closure cells, or something
    else. *)
Inductive func_value :=
  | FBytecode (b : fn_bytecode) (refs : option (list var_ref))
  | FOther.

Record JSStackFrame := {
  cur_func : func_value;
  cur_pc : option Z;
  sf_arg_count : Z;
  arg_buf : list tvalue;
  var_buf : list tvalue;
  sf_var_ref_count : Z;
  sf_var_refs : list var_ref
}.

(** [a[i]]. *)
Definition read {A} (a : list A) (i : Z) : run A :=
  if i <? 0 then Aborts else match a !! Z.to_nat i with Some x => Done x | None => Aborts end.

Definition js_arena_trace_frame_bytecode (sf : JSStackFrame) : option fn_bytecode :=
  match cur_func sf with FBytecode b _ => Some b | FOther => None end.

Definition js_arena_trace_frame_pc (sf : JSStackFrame) : option Z := cur_pc sf.

Definition js_arena_trace_frame_var_count (b : fn_bytecode) : Z := arg_count b + var_count b.

Definition js_arena_trace_frame_var_name (b : fn_bytecode) (idx : Z) : run Z :=
  match vardefs b with
  | None => Done 0
  | Some vds =>
      if (idx <? 0) || (arg_count b + var_count b <=? idx) then Done 0
      else let* vd := read vds idx in Done (var_name vd)
  end.

Definition js_arena_trace_frame_var_value (sf : JSStackFrame) (b : fn_bytecode) (idx : Z) : run tvalue :=
  let ac := arg_count b in
  let slot :=
    if idx <? ac then
      if sf_arg_count sf <=? idx then Done TUndefined else read (arg_buf sf) idx
    else
      let lidx := idx - ac in
      if var_count b <=? lidx then Done TUndefined else read (var_buf sf) lidx in
  if idx <? 0 then Done TUndefined
  else
    match vardefs b with
    | Some vds =>
        if idx <? ac + var_count b then
          let* vd := read vds idx in
          if is_captured vd then
            let ri := var_ref_idx vd in
            if (0 <=? ri) && (ri <? sf_var_ref_count sf) then
              let* r := read (sf_var_refs sf) ri in
              match r with
              | Some (Some v) => Done v
              | _ => Done TUndefined
              end
            else Done TUndefined
          else slot
        else slot
    | None => slot
    end.

Definition js_arena_trace_frame_closure_count (b : fn_bytecode) : Z := closure_var_count b.

Definition js_arena_trace_frame_closure_name (b : fn_bytecode) (idx : Z) : run Z :=
  match closure_var b with
  | None => Done 0
  | Some names => if (idx <? 0) || (closure_var_count b <=? idx) then Done 0 else read names idx
  end.

Definition js_arena_trace_frame_closure_value (sf : JSStackFrame) (b : fn_bytecode) (idx : Z) : run tvalue :=
  if (idx <? 0) || (closure_var_count b <=? idx) then Done TUndefined
  else
    match cur_func sf with
    | FOther => Done TUndefined
    | FBytecode _ None => Done TUndefined
    | FBytecode _ (Some refs) =>
        let* r := read refs idx in
        match r with
        | Some (Some v) => Done v
        | _ => Done TUndefined
        end
    end.

(** The loops over the accessors: all names with their values, in order. *)
Fixpoint enumerate (name : Z -> run Z) (value : Z -> run tvalue) (n : nat) (i : Z) : run (list (Z * tvalue)) :=
  match n with
  | O => Done []
  | S n =>
      let* na := name i in
      let* v := value i in
      let* rest := enumerate name value n (i + 1) in
      Done ((na, v) :: rest)
  end.

Definition frame_vars_of (sf : JSStackFrame) (b : fn_bytecode) : run (list (Z * tvalue)) :=
  enumerate (js_arena_trace_frame_var_name b) (js_arena_trace_frame_var_value sf b)
    (Z.to_nat (js_arena_trace_frame_var_count b)) 0.

Definition frame_closure_of (sf : JSStackFrame) (b : fn_bytecode) : run (list (Z * tvalue)) :=
  enumerate (js_arena_trace_frame_closure_name b) (js_arena_trace_frame_closure_value sf b)
    (Z.to_nat (js_arena_trace_frame_closure_count b)) 0.

(** ** What the accessors show *)

(** The arrays have the lengths the counts announce: the layout the interpreter
    sets up ([arg_buf] holds the arguments passed, [var_buf] the locals), with
    the closure cells of the function that runs [b]. *)
Record frame_layout (sf : JSStackFrame) (b : fn_bytecode) : Prop := {
  lay_counts : 0 <= arg_count b /\ 0 <= var_count b /\ 0 <= closure_var_count b /\ 0 <= sf_arg_count sf;
  lay_vardefs : forall vds, vardefs b = Some vds -> lenZ vds = arg_count b + var_count b;
  lay_closure : forall names, closure_var b = Some names -> lenZ names = closure_var_count b;
  lay_args : lenZ (arg_buf sf) = sf_arg_count sf;
  lay_vars : lenZ (var_buf sf) = var_count b;
  lay_refs : lenZ (sf_var_refs sf) = sf_var_ref_count sf;
  lay_cells : forall b' refs, cur_func sf = FBytecode b' (Some refs) -> closure_var_count b <= lenZ refs
}.

(** The value behind a reference, [undefined] when there is none. *)
Definition cell_value (r : option var_ref) : tvalue := match r with Some (Some (Some v)) => v | _ => TUndefined end.

(** The [i]-th variable: a captured one lives in its cell, an argument in
    [arg_buf] if it was passed, a local in [var_buf]. *)
Definition shown_var (sf : JSStackFrame) (b : fn_bytecode) (i : nat) : Z * tvalue :=
  let vd := vardefs b ≫= (.!! i) in
  (from_option var_name 0 vd,
   if from_option is_captured false vd then
     let ri := from_option var_ref_idx 0 vd in
     if ri <? 0 then TUndefined else cell_value (sf_var_refs sf !! Z.to_nat ri)
   else if Z.of_nat i <? arg_count b then default TUndefined (arg_buf sf !! i)
   else default TUndefined (var_buf sf !! (i - Z.to_nat (arg_count b))%nat)).

Definition shown_closure (sf : JSStackFrame) (b : fn_bytecode) (i : nat) : Z * tvalue :=
  (default 0 (closure_var b ≫= (.!! i)),
   match cur_func sf with FBytecode _ (Some refs) => cell_value (refs !! i) | _ => TUndefined end).

Lemma read_in {A} (a : list A) (i : nat) x : a !! i = Some x -> read a (Z.of_nat i) = Done x.
Proof. intros H. unfold read. destruct (Z.ltb_spec (Z.of_nat i) 0); [lia |]. by rewrite Nat2Z.id, H. Qed.

Lemma lookup_in {A} (a : list A) (i : nat) : Z.of_nat i < lenZ a -> is_Some (a !! i).
Proof. intros H. apply lookup_lt_is_Some. unfold lenZ in H. lia. Qed.

Lemma var_name_spec sf b i :
  frame_layout sf b -> Z.of_nat i < arg_count b + var_count b ->
  js_arena_trace_frame_var_name b (Z.of_nat i) = Done (shown_var sf b i).1.
Proof.
  intros L Hi. unfold js_arena_trace_frame_var_name, shown_var. destruct (vardefs b) as [vds |] eqn:E; [| done]. simpl.
  destruct (Z.ltb_spec (Z.of_nat i) 0), (Z.leb_spec (arg_count b + var_count b) (Z.of_nat i)); try lia. simpl.
  destruct (lookup_in vds i) as [vd Hvd]; [rewrite (lay_vardefs _ _ L _ E); lia |]. by rewrite (read_in _ _ _ Hvd), Hvd.
Qed.

Lemma plain_slot_spec sf b i :
  frame_layout sf b -> Z.of_nat i < arg_count b + var_count b ->
  (if Z.of_nat i <? arg_count b then
     if sf_arg_count sf <=? Z.of_nat i then Done TUndefined else read (arg_buf sf) (Z.of_nat i)
   else
     if var_count b <=? Z.of_nat i - arg_count b then Done TUndefined else read (var_buf sf) (Z.of_nat i - arg_count b))
  = Done (if Z.of_nat i <? arg_count b then default TUndefined (arg_buf sf !! i)
          else default TUndefined (var_buf sf !! (i - Z.to_nat (arg_count b))%nat)).
Proof.
  intros L Hi. destruct (lay_counts _ _ L) as (Ha & Hv & _ & Hp). pose proof (lay_args _ _ L) as La. pose proof (lay_vars _ _ L) as Lv.
  destruct (Z.ltb_spec (Z.of_nat i) (arg_count b)) as [Hlt | Hge].
  - destruct (Z.leb_spec (sf_arg_count sf) (Z.of_nat i)).
    + rewrite lookup_ge_None_2 by (unfold lenZ in La; lia). done.
    + destruct (lookup_in (arg_buf sf) i) as [v Hx]; [lia |]. by rewrite (read_in _ _ _ Hx), Hx.
  - destruct (Z.leb_spec (var_count b) (Z.of_nat i - arg_count b)); [lia |].
    replace (Z.of_nat i - arg_count b) with (Z.of_nat (i - Z.to_nat (arg_count b))) by lia.
    destruct (lookup_in (var_buf sf) (i - Z.to_nat (arg_count b))) as [v Hx]; [lia |]. by rewrite (read_in _ _ _ Hx), Hx.
Qed.

Lemma var_value_spec sf b i :
  frame_layout sf b -> Z.of_nat i < arg_count b + var_count b ->
  js_arena_trace_frame_var_value sf b (Z.of_nat i) = Done (shown_var sf b i).2.
Proof.
  intros L Hi. unfold js_arena_trace_frame_var_value, shown_var. rewrite plain_slot_spec by done.
  destruct (Z.ltb_spec (Z.of_nat i) 0); [lia |]. destruct (vardefs b) as [vds |] eqn:E; [| done]. cbn [mbind option_bind snd].
  destruct (Z.ltb_spec (Z.of_nat i) (arg_count b + var_count b)); [| lia].
  destruct (lookup_in vds i) as [vd Hvd]; [rewrite (lay_vardefs _ _ L _ E); lia |]. rewrite (read_in _ _ _ Hvd), Hvd. simpl.
  destruct (is_captured vd); [| done]. pose proof (lay_refs _ _ L) as Lr.
  destruct (Z.leb_spec 0 (var_ref_idx vd)), (Z.ltb_spec (var_ref_idx vd) 0); try lia; simpl; [| done].
  destruct (Z.ltb_spec (var_ref_idx vd) (sf_var_ref_count sf)).
  - destruct (lookup_in (sf_var_refs sf) (Z.to_nat (var_ref_idx vd))) as [r Hr]; [lia |].
    rewrite <- (Z2Nat.id (var_ref_idx vd)) at 1 by done. rewrite (read_in _ _ _ Hr), Hr. by destruct r as [[v |] |].
  - by rewrite lookup_ge_None_2 by (unfold lenZ in Lr; lia).
Qed.

Lemma closure_spec sf b i :
  frame_layout sf b -> Z.of_nat i < closure_var_count b ->
  js_arena_trace_frame_closure_name b (Z.of_nat i) = Done (shown_closure sf b i).1 /\
  js_arena_trace_frame_closure_value sf b (Z.of_nat i) = Done (shown_closure sf b i).2.
Proof.
  intros L Hi. unfold js_arena_trace_frame_closure_name, js_arena_trace_frame_closure_value, shown_closure.
  destruct (Z.ltb_spec (Z.of_nat i) 0), (Z.leb_spec (closure_var_count b) (Z.of_nat i)); try lia. simpl. split.
  - destruct (closure_var b) as [names |] eqn:E; [| done].
    destruct (lookup_in names i) as [na Hn]; [rewrite (lay_closure _ _ L _ E); lia |]. rewrite (read_in _ _ _ Hn). simpl. by rewrite Hn.
  - destruct (cur_func sf) as [b' [refs |] |] eqn:E; try done. pose proof (lay_cells _ _ L _ _ E).
    destruct (lookup_in refs i) as [r Hr]; [lia |]. rewrite (read_in _ _ _ Hr), Hr. by destruct r as [[v |] |].
Qed.

Lemma enumerate_spec name value (f : nat -> Z * tvalue) n : forall i,
  (forall k, (i <= k < i + n)%nat -> name (Z.of_nat k) = Done (f k).1 /\ value (Z.of_nat k) = Done (f k).2) ->
  enumerate name value n (Z.of_nat i) = Done (map f (seq i n)).
Proof.
  induction n as [| n IH]; intros i H; simpl; [done |]. destruct (H i) as [-> ->]; [lia |]. simpl.
  replace (Z.of_nat i + 1) with (Z.of_nat (S i)) by lia. rewrite IH; [simpl; by destruct (f i) |]. intros k Hk. apply H. lia.
Qed.


Module ToyFrame.
Definition code : JSFunctionBytecode := {| pc2line_buf := None; line_num := 1; col_num := 1; byte_code_buf := 4096; byte_code_len := 10 |}.
Definition b : fn_bytecode :=
  {| b_code := code; b_func_name := 7; b_filename := 8; arg_count := 2; var_count := 1;
     vardefs := Some [{| var_name := 20; is_captured := false; var_ref_idx := 0 |}; {| var_name := 21; is_captured := false; var_ref_idx := 0 |};
                      {| var_name := 22; is_captured := true; var_ref_idx := 0 |}];
     closure_var_count := 1; closure_var := Some [23] |}.
Definition sf : JSStackFrame :=
  {| cur_func := FBytecode b (Some [Some (Some TNull)]); cur_pc := Some 4098; sf_arg_count := 1; arg_buf := [TInt 5];
     var_buf := [TUninitialized]; sf_var_ref_count := 1; sf_var_refs := [Some (Some (TInt 9))] |}.

End ToyFrame.
