(* ===== verification/Requests.v ===== *)
(** * Requests of a runtime (quickjs.c, qjs-arena.c)

    The per-request half of [JSRuntime]: [JSRequestState] in the head slot of
    each request arena, the cell [RT_REQ(rt)] reads it through, and the calls
    that create, enter, leave, reset and free requests.  The state structs are
    typed and kept by address in [states]; the slot lies outside the territory
    of the request allocators, so allocator traffic does not reach it.  The
    embedded template [rt->req_state] is part of the runtime, which is base
    memory.

    Also the clock, random and interrupt-counter fields that have a copy in the
    request state and one in the context, and the dispatch between the two. *)

From stdpp Require Import base list numbers gmap.
From Stdlib Require Import ZArith Lia.
From S2P Require Import Prelude Memory ChunkTable BaseRanges Thermometer BumpArena ArenaWorld.
From S2P Require Import RequestArena DualArena StateRun.

#[local] Open Scope st_scope.

(** ** Data *)

(** Values the request state holds; [JSOther] is any other value by its bits. *)
Inductive req_value :=
  | JS_UNDEFINED
  | JS_UNINITIALIZED
  | JSOther (bits : Z).

Inductive JSGCPhaseEnum :=
  | JS_GC_PHASE_NONE
  | JS_GC_PHASE_DECREF
  | JS_GC_PHASE_REMOVE_CYCLES.

(** Pointers are addresses, 0 for NULL; a list head is the list of the nodes
    linked to it; a double is its bits. *)
Record JSRequestState := {
  current_exception : req_value;
  in_out_of_memory : bool;
  in_build_stack_trace : bool;
  current_stack_frame : Z;
  parent_promise : Z;
  date_now_pinned_req : Z;
  time_origin_req : Z;
  gc_zero_ref_count_list : list Z;
  gc_phase : JSGCPhaseEnum;
  gc_obj_list : list Z;
  tmp_obj_list : list Z;
  gc_mode : bool;
  gc_threshold : Z;
  shape_overlay : Z;
  shape_overlay_size : Z;
  shape_overlay_count : Z;
  atom_overlay : Z;
  atom_overlay_base : Z;
  atom_overlay_size : Z;
  atom_overlay_count : Z;
  atom_overlay_free_index : Z;
  atom_hash_overlay : Z;
  atom_hash_overlay_size : Z;
  shadow_tab : Z;
  shadow_tab_size : Z;
  shadow_tab_count : Z;
  varref_tab : Z;
  varref_tab_size : Z;
  varref_tab_count : Z;
  std_array_prototype_dirty : bool;
  job_list : list Z;
  error_back_trace_req : req_value;
  error_prepare_stack_req : req_value;
  error_stack_trace_limit_req : req_value;
  error_prepare_stack_set : bool;
  error_stack_trace_limit_set : bool;
  random_state_req : Z;
  interrupt_counter_req : Z
}.

(** [sizeof(JSRequestState)] with 16-byte values and 8-byte pointers. *)
Definition sizeof_JSRequestState : Z := 312.

Definition JS_INTERRUPT_COUNTER_INIT : Z := 10000.
Definition UINT32_MAX : Z := 2 ^ 32 - 1.

(** Stores to the fields the host and the interpreter loop write one by one. *)
Definition st_set_pins (st : JSRequestState) (date origin random : Z) : JSRequestState :=
  {| current_exception := current_exception st; in_out_of_memory := in_out_of_memory st;
     in_build_stack_trace := in_build_stack_trace st; current_stack_frame := current_stack_frame st;
     parent_promise := parent_promise st; date_now_pinned_req := date; time_origin_req := origin;
     gc_zero_ref_count_list := gc_zero_ref_count_list st; gc_phase := gc_phase st;
     gc_obj_list := gc_obj_list st; tmp_obj_list := tmp_obj_list st; gc_mode := gc_mode st;
     gc_threshold := gc_threshold st; shape_overlay := shape_overlay st;
     shape_overlay_size := shape_overlay_size st; shape_overlay_count := shape_overlay_count st;
     atom_overlay := atom_overlay st; atom_overlay_base := atom_overlay_base st;
     atom_overlay_size := atom_overlay_size st; atom_overlay_count := atom_overlay_count st;
     atom_overlay_free_index := atom_overlay_free_index st; atom_hash_overlay := atom_hash_overlay st;
     atom_hash_overlay_size := atom_hash_overlay_size st; shadow_tab := shadow_tab st;
     shadow_tab_size := shadow_tab_size st; shadow_tab_count := shadow_tab_count st;
     varref_tab := varref_tab st; varref_tab_size := varref_tab_size st;
     varref_tab_count := varref_tab_count st; std_array_prototype_dirty := std_array_prototype_dirty st;
     job_list := job_list st; error_back_trace_req := error_back_trace_req st;
     error_prepare_stack_req := error_prepare_stack_req st;
     error_stack_trace_limit_req := error_stack_trace_limit_req st;
     error_prepare_stack_set := error_prepare_stack_set st;
     error_stack_trace_limit_set := error_stack_trace_limit_set st; random_state_req := random;
     interrupt_counter_req := interrupt_counter_req st |}.

Definition st_set_date_now (st : JSRequestState) (v : Z) : JSRequestState :=
  st_set_pins st v (time_origin_req st) (random_state_req st).
Definition st_set_time_origin (st : JSRequestState) (v : Z) : JSRequestState :=
  st_set_pins st (date_now_pinned_req st) v (random_state_req st).
Definition st_set_random (st : JSRequestState) (v : Z) : JSRequestState :=
  st_set_pins st (date_now_pinned_req st) (time_origin_req st) v.

Definition st_set_run (st : JSRequestState) (exc : req_value) (frame counter : Z) : JSRequestState :=
  {| current_exception := exc; in_out_of_memory := in_out_of_memory st;
     in_build_stack_trace := in_build_stack_trace st; current_stack_frame := frame;
     parent_promise := parent_promise st; date_now_pinned_req := date_now_pinned_req st;
     time_origin_req := time_origin_req st;
     gc_zero_ref_count_list := gc_zero_ref_count_list st; gc_phase := gc_phase st;
     gc_obj_list := gc_obj_list st; tmp_obj_list := tmp_obj_list st; gc_mode := gc_mode st;
     gc_threshold := gc_threshold st; shape_overlay := shape_overlay st;
     shape_overlay_size := shape_overlay_size st; shape_overlay_count := shape_overlay_count st;
     atom_overlay := atom_overlay st; atom_overlay_base := atom_overlay_base st;
     atom_overlay_size := atom_overlay_size st; atom_overlay_count := atom_overlay_count st;
     atom_overlay_free_index := atom_overlay_free_index st; atom_hash_overlay := atom_hash_overlay st;
     atom_hash_overlay_size := atom_hash_overlay_size st; shadow_tab := shadow_tab st;
     shadow_tab_size := shadow_tab_size st; shadow_tab_count := shadow_tab_count st;
     varref_tab := varref_tab st; varref_tab_size := varref_tab_size st;
     varref_tab_count := varref_tab_count st; std_array_prototype_dirty := std_array_prototype_dirty st;
     job_list := job_list st; error_back_trace_req := error_back_trace_req st;
     error_prepare_stack_req := error_prepare_stack_req st;
     error_stack_trace_limit_req := error_stack_trace_limit_req st;
     error_prepare_stack_set := error_prepare_stack_set st;
     error_stack_trace_limit_set := error_stack_trace_limit_set st; random_state_req := random_state_req st;
     interrupt_counter_req := counter |}.

Definition st_set_frame (st : JSRequestState) (f : Z) : JSRequestState :=
  st_set_run st (current_exception st) f (interrupt_counter_req st).
Definition st_set_exception (st : JSRequestState) (v : req_value) : JSRequestState :=
  st_set_run st v (current_stack_frame st) (interrupt_counter_req st).
Definition st_set_counter (st : JSRequestState) (n : Z) : JSRequestState :=
  st_set_run st (current_exception st) (current_stack_frame st) n.

(** Where [rt->req_cell] points: at [rt->req_vanilla], or at the heap cell of
    the dual arena. *)
Inductive req_cell_ref := CellVanilla | CellDual.

(** The runtime's own fields the request machinery reads and writes;
    [req_state_addr] is [&rt->req_state]. *)
Record JSRuntime := {
  is_arena : bool;
  malloc_opaque : Z;
  req_state_addr : Z;
  req_state : JSRequestState;
  req_vanilla : Z;
  req_cell : req_cell_ref;
  atom_size : Z;
  malloc_gc_threshold : Z;
  interrupt_handler : Z
}.

(** The twins of the request-state fields in [JSContext]. *)
Record JSContext := {
  ctx_random_state : Z;
  ctx_date_now_pinned : Z;
  ctx_time_origin : Z;
  ctx_interrupt_counter : Z
}.

Definition rt_set_state (rt : JSRuntime) (st : JSRequestState) : JSRuntime :=
  {| is_arena := is_arena rt; malloc_opaque := malloc_opaque rt; req_state_addr := req_state_addr rt;
     req_state := st; req_vanilla := req_vanilla rt; req_cell := req_cell rt; atom_size := atom_size rt;
     malloc_gc_threshold := malloc_gc_threshold rt; interrupt_handler := interrupt_handler rt |}.
Definition rt_set_vanilla (rt : JSRuntime) (p : Z) : JSRuntime :=
  {| is_arena := is_arena rt; malloc_opaque := malloc_opaque rt; req_state_addr := req_state_addr rt;
     req_state := req_state rt; req_vanilla := p; req_cell := req_cell rt; atom_size := atom_size rt;
     malloc_gc_threshold := malloc_gc_threshold rt; interrupt_handler := interrupt_handler rt |}.
Definition rt_set_arena (rt : JSRuntime) : JSRuntime :=
  {| is_arena := true; malloc_opaque := malloc_opaque rt; req_state_addr := req_state_addr rt;
     req_state := req_state rt; req_vanilla := req_vanilla rt; req_cell := CellDual; atom_size := atom_size rt;
     malloc_gc_threshold := malloc_gc_threshold rt; interrupt_handler := interrupt_handler rt |}.
Definition rt_set_handler (rt : JSRuntime) (h : Z) : JSRuntime :=
  {| is_arena := is_arena rt; malloc_opaque := malloc_opaque rt; req_state_addr := req_state_addr rt;
     req_state := req_state rt; req_vanilla := req_vanilla rt; req_cell := req_cell rt; atom_size := atom_size rt;
     malloc_gc_threshold := malloc_gc_threshold rt; interrupt_handler := h |}.

Section ops.
Context `{EV : Env} `{MS : Mspace}.

(** One runtime with its context, in the thread's arena world. *)
Record rworld := {
  rw_arena : world;
  rw_rt : JSRuntime;
  rw_ctx : JSContext;
  states : gmap Z JSRequestState
}.

Definition rw_set_arena (s : rworld) (w : world) : rworld :=
  {| rw_arena := w; rw_rt := rw_rt s; rw_ctx := rw_ctx s; states := states s |}.
Definition rw_set_rt (s : rworld) (rt : JSRuntime) : rworld :=
  {| rw_arena := rw_arena s; rw_rt := rt; rw_ctx := rw_ctx s; states := states s |}.
Definition rw_set_ctx (s : rworld) (c : JSContext) : rworld :=
  {| rw_arena := rw_arena s; rw_rt := rw_rt s; rw_ctx := c; states := states s |}.
Definition rw_set_states (s : rworld) (m : gmap Z JSRequestState) : rworld :=
  {| rw_arena := rw_arena s; rw_rt := rw_rt s; rw_ctx := rw_ctx s; states := m |}.

Abbreviation RQ := (ST rworld).

(** A call into qjs-arena.c. *)
Definition on_arena {A} (m : M A) : RQ A :=
  fun s => let* (a, w) := m (rw_arena s) in Done (a, rw_set_arena s w).

Definition rt_get {A} (f : JSRuntime -> A) : RQ A := sget (fun s => f (rw_rt s)).

Definition JS_GetDualArena : RQ Z := rt_get malloc_opaque.

(** ** The state pointer *)

(** Reading and storing [RT_REQ(rt)], that is [*rt->req_cell]. *)
Definition RT_REQ : RQ Z :=
  let^ c := rt_get req_cell in
  match c with
  | CellVanilla => rt_get req_vanilla
  | CellDual => let^ d := JS_GetDualArena in on_arena (js_dual_arena_state_cell d)
  end.

Definition set_state_cell (d p : Z) : M unit :=
  mbind (load_da d) (fun da => store_da d (da_set_cur da (da_cur da) p)).

Definition set_RT_REQ (p : Z) : RQ unit :=
  let^ c := rt_get req_cell in
  match c with
  | CellVanilla => smod (fun s => rw_set_rt s (rt_set_vanilla (rw_rt s) p))
  | CellDual => let^ d := JS_GetDualArena in on_arena (set_state_cell d p)
  end.

(** Dereferencing a [JSRequestState *]: the template or a slot. *)
Definition load_state (p : Z) : RQ JSRequestState :=
  let^ t := rt_get req_state_addr in
  if p =? t then rt_get req_state else sderef (fun s => states s !! p).

Definition store_state (p : Z) (st : JSRequestState) : RQ unit :=
  let^ t := rt_get req_state_addr in
  if p =? t then smod (fun s => rw_set_rt s (rt_set_state (rw_rt s) st))
  else if p =? 0 then sabort
  else smod (fun s => rw_set_states s (<[p := st]> (states s))).

Definition current_state : RQ JSRequestState := let^ p := RT_REQ in load_state p.
Definition set_current_state (st : JSRequestState) : RQ unit := let^ p := RT_REQ in store_state p st.

(** ** Creation, freeze, relocation *)

Definition js_runtime_mark_arena : RQ unit :=
  let^ d := JS_GetDualArena in
  let^ t := rt_get req_state_addr in
  on_arena (set_state_cell d t) ;^
  smod (fun s => rw_set_rt s (rt_set_arena (rw_rt s))).

(** The struct [JS_RelocateReqState] leaves in the slot: the template with
    the request's own fields set. *)
Definition relocated (rt : JSRuntime) (gc : bool) : JSRequestState :=
  let t := req_state rt in
  {| current_exception := current_exception t; in_out_of_memory := in_out_of_memory t;
     in_build_stack_trace := in_build_stack_trace t; current_stack_frame := current_stack_frame t;
     parent_promise := parent_promise t; date_now_pinned_req := -1; time_origin_req := 0;
     gc_zero_ref_count_list := []; gc_phase := JS_GC_PHASE_NONE; gc_obj_list := []; tmp_obj_list := [];
     gc_mode := gc; gc_threshold := malloc_gc_threshold rt; shape_overlay := shape_overlay t;
     shape_overlay_size := shape_overlay_size t; shape_overlay_count := shape_overlay_count t;
     atom_overlay := atom_overlay t; atom_overlay_base := u32 (atom_size rt);
     atom_overlay_size := atom_overlay_size t; atom_overlay_count := atom_overlay_count t;
     atom_overlay_free_index := 0; atom_hash_overlay := atom_hash_overlay t;
     atom_hash_overlay_size := atom_hash_overlay_size t; shadow_tab := 0; shadow_tab_size := 0;
     shadow_tab_count := 0; varref_tab := 0; varref_tab_size := 0; varref_tab_count := 0;
     std_array_prototype_dirty := std_array_prototype_dirty t; job_list := [];
     error_back_trace_req := JS_UNDEFINED; error_prepare_stack_req := JS_UNDEFINED;
     error_stack_trace_limit_req := JS_UNDEFINED; error_prepare_stack_set := false;
     error_stack_trace_limit_set := false; random_state_req := 0;
     interrupt_counter_req := JS_INTERRUPT_COUNTER_INIT |}.

Definition JS_RelocateReqState : RQ Z :=
  if JS_ARENA_REQUEST_SLOT_SIZE <? sizeof_JSRequestState then sabort
  else
    let^ d := JS_GetDualArena in
    let^ new_req := on_arena (js_dual_arena_request_slot d) in
    if new_req =? 0 then sret (-1)
    else
      let^ rt := sget rw_rt in
      let^ md := on_arena (js_dual_arena_request_mode d) in
      store_state new_req (relocated rt (bool_decide (md = JS_ARENA_REQ_MODE_GC))) ;^
      set_RT_REQ new_req ;^
      sret 0.

(** The request-state part of [JS_NewRuntime2]: [rt] is zeroed base memory at
    [p] and the state's list heads are initialised; the atom, class and shape
    tables it goes on to build are the engine's, [atoms] is the table size. *)
Definition runtime_init (d p atoms : Z) : JSRuntime :=
  {| is_arena := false; malloc_opaque := d; req_state_addr := p;
     req_state := {|
       current_exception := JS_UNINITIALIZED; in_out_of_memory := false; in_build_stack_trace := false;
       current_stack_frame := 0; parent_promise := 0; date_now_pinned_req := 0; time_origin_req := 0;
       gc_zero_ref_count_list := []; gc_phase := JS_GC_PHASE_NONE; gc_obj_list := []; tmp_obj_list := [];
       gc_mode := false; gc_threshold := 0; shape_overlay := 0; shape_overlay_size := 0;
       shape_overlay_count := 0; atom_overlay := 0; atom_overlay_base := UINT32_MAX;
       atom_overlay_size := 0; atom_overlay_count := 0; atom_overlay_free_index := 0;
       atom_hash_overlay := 0; atom_hash_overlay_size := 0; shadow_tab := 0; shadow_tab_size := 0;
       shadow_tab_count := 0; varref_tab := 0; varref_tab_size := 0; varref_tab_count := 0;
       std_array_prototype_dirty := false; job_list := []; error_back_trace_req := JSOther 0;
       error_prepare_stack_req := JSOther 0; error_stack_trace_limit_req := JSOther 0;
       error_prepare_stack_set := false; error_stack_trace_limit_set := false; random_state_req := 0;
       interrupt_counter_req := 0 |};
     req_vanilla := p; req_cell := CellVanilla; atom_size := atoms; malloc_gc_threshold := 256 * 1024;
     interrupt_handler := 0 |}.

(** [JS_FreezeRuntime].  The scan for snapshot state that cannot be isolated
    and the three passes over the base heap are the engine's: [hazards] is the
    scan's count, [passes] the effect of the passes in base mode. *)
Definition JS_FreezeRuntime (hazards : Z) (passes : RQ unit) : RQ unit :=
  if 0 <? hazards then sabort
  else
    passes ;^
    let^ d := JS_GetDualArena in
    on_arena (js_dual_arena_freeze d) ;^
    js_runtime_mark_arena ;^
    JS_RelocateReqState ;^
    sret tt.

Definition JS_ResetRequestArena : RQ unit :=
  let^ d := JS_GetDualArena in
  let^ r := on_arena (js_dual_arena_current_request d) in
  if r =? 0 then sret tt
  else
    on_arena (js_dual_arena_reset_request d) ;^
    JS_RelocateReqState ;^
    sret tt.

(** ** Requests as objects *)

Definition js_select_request (r : Z) : RQ unit :=
  let^ d := JS_GetDualArena in
  on_arena (js_dual_arena_select_request d r) ;^
  if r =? 0 then let^ t := rt_get req_state_addr in set_RT_REQ t else sret tt.

Definition js_at_job_boundary : RQ bool :=
  let^ st := current_state in sret (current_stack_frame st =? 0).

Definition JS_NewRequest (request_cap : Z) (prov : option JSArenaChunkProvider) (mode : JSArenaReqMode) : RQ Z :=
  let^ a := rt_get is_arena in
  if negb a then sret 0
  else
    let^ d := JS_GetDualArena in
    let^ prev := on_arena (js_dual_arena_current_request d) in
    let^ ra := on_arena (js_request_arena_new d request_cap prov) in
    if ra =? 0 then sret 0
    else
      on_arena (js_dual_arena_select_request d ra) ;^
      on_arena (js_dual_arena_set_request_mode d mode) ;^
      on_arena (js_dual_arena_reset_request d) ;^
      let^ rc := JS_RelocateReqState in
      if rc <? 0 then
        js_select_request prev ;^
        on_arena (js_request_arena_free ra) ;^
        sret 0
      else
        js_select_request prev ;^
        sret ra.

Definition JS_EnterRequest (req : Z) : RQ Z :=
  let^ a := rt_get is_arena in
  if negb a || (req =? 0) then sret (-1)
  else
    let^ b := js_at_job_boundary in
    if negb b then sret (-1)
    else
      let^ d := JS_GetDualArena in
      let^ rd := on_arena (js_request_arena_dual req) in
      if negb (rd =? d) then sret (-1)
      else js_select_request req ;^ sret 0.

Definition JS_LeaveRequest : RQ Z :=
  let^ a := rt_get is_arena in
  if negb a then sret (-1)
  else
    let^ b := js_at_job_boundary in
    if negb b then sret (-1)
    else js_select_request 0 ;^ sret 0.

Definition JS_CurrentRequest : RQ Z :=
  let^ a := rt_get is_arena in
  if a then let^ d := JS_GetDualArena in on_arena (js_dual_arena_current_request d)
  else sret 0.

Definition JS_FreeRequest (req : Z) : RQ Z :=
  let^ a := rt_get is_arena in
  if negb a || (req =? 0) then sret (-1)
  else
    let^ c := JS_CurrentRequest in
    let^ rc := (if c =? req then JS_LeaveRequest else sret 0) in
    if rc <? 0 then sret (-1)
    else on_arena (js_request_arena_free req) ;^ sret 0.

(** ** Clock, random numbers, interrupt polls *)

(** Each accessor returns a pointer into the request state or the context; the
    reads and stores through it. *)
Definition js_random_state_active : RQ Z :=
  let^ a := rt_get is_arena in
  if a then let^ st := current_state in sret (random_state_req st)
  else sget (fun s => ctx_random_state (rw_ctx s)).

Definition set_random_state_active (v : Z) : RQ unit :=
  let^ a := rt_get is_arena in
  if a then let^ st := current_state in set_current_state (st_set_random st v)
  else smod (fun s => let c := rw_ctx s in rw_set_ctx s
    {| ctx_random_state := v; ctx_date_now_pinned := ctx_date_now_pinned c;
       ctx_time_origin := ctx_time_origin c; ctx_interrupt_counter := ctx_interrupt_counter c |}).

Definition js_date_now_pinned_active : RQ Z :=
  let^ a := rt_get is_arena in
  if a then let^ st := current_state in sret (date_now_pinned_req st)
  else sget (fun s => ctx_date_now_pinned (rw_ctx s)).

Definition JS_SetDateNow (ms : Z) : RQ unit :=
  let^ a := rt_get is_arena in
  if a then let^ st := current_state in set_current_state (st_set_date_now st ms)
  else smod (fun s => let c := rw_ctx s in rw_set_ctx s
    {| ctx_random_state := ctx_random_state c; ctx_date_now_pinned := ms;
       ctx_time_origin := ctx_time_origin c; ctx_interrupt_counter := ctx_interrupt_counter c |}).

Definition js_time_origin_active : RQ Z :=
  let^ a := rt_get is_arena in
  if a then let^ st := current_state in sret (time_origin_req st)
  else sget (fun s => ctx_time_origin (rw_ctx s)).

Definition JS_SetTimeOrigin (v : Z) : RQ unit :=
  let^ a := rt_get is_arena in
  if a then let^ st := current_state in set_current_state (st_set_time_origin st v)
  else smod (fun s => let c := rw_ctx s in rw_set_ctx s
    {| ctx_random_state := ctx_random_state c; ctx_date_now_pinned := ctx_date_now_pinned c;
       ctx_time_origin := v; ctx_interrupt_counter := ctx_interrupt_counter c |}).

(** [date_now], with the system clock as an argument. *)
Definition date_now (gettimeofday_us : Z) : RQ Z :=
  let^ p := js_date_now_pinned_active in
  if 0 <=? p then js_date_now_pinned_active else sret (Z.quot gettimeofday_us 1000).

(** The next state and the output. *)
Definition xorshift64star (x : Z) : Z * Z :=
  let x := Z.lxor x (Z.shiftr x 12) in
  let x := Z.lxor x (u64 (Z.shiftl x 25)) in
  let x := Z.lxor x (Z.shiftr x 27) in
  (x, u64 (x * 0x2545F4914F6CDD1D)).

Definition JS_SetRandomSeed (seed : Z) : RQ unit :=
  set_random_state_active (if negb (seed =? 0) then seed else 1).

Definition next_random : RQ Z :=
  let^ x := js_random_state_active in
  let '(x, v) := xorshift64star x in
  set_random_state_active x ;^
  sret v.

Fixpoint fill_words (n : nat) : RQ (list Z) :=
  match n with
  | O => sret []
  | S n =>
      let^ v := next_random in
      let^ rest := fill_words n in
      sret (le_bytes 8 v ++ rest)
  end.

Definition JS_FillRandomBytes (out_len : Z) : RQ (list Z) :=
  let full := out_len / 8 in
  let^ head := fill_words (Z.to_nat full) in
  let tail := out_len - full * 8 in
  if tail =? 0 then sret head
  else
    let^ v := next_random in
    sret (head ++ take (Z.to_nat tail) (le_bytes 8 v)).

(** The bits of the double [Math.random] subtracts 1 from. *)
Definition js_math_random_bits : RQ Z :=
  let^ v := next_random in
  sret (Z.lor (Z.shiftl 0x3ff 52) (Z.shiftr v 12)).

(** [js_poll_interrupts].  [handler] is the installed interrupt handler,
    answering whether to stop; [throw] raises the uncatchable error. *)
Definition poll_counter : RQ Z :=
  let^ a := rt_get is_arena in
  if a then let^ st := current_state in sret (interrupt_counter_req st)
  else sget (fun s => ctx_interrupt_counter (rw_ctx s)).

Definition set_poll_counter (n : Z) : RQ unit :=
  let^ a := rt_get is_arena in
  if a then let^ st := current_state in set_current_state (st_set_counter st n)
  else smod (fun s => let c := rw_ctx s in rw_set_ctx s
    {| ctx_random_state := ctx_random_state c; ctx_date_now_pinned := ctx_date_now_pinned c;
       ctx_time_origin := ctx_time_origin c; ctx_interrupt_counter := n |}).

Definition __js_poll_interrupts (handler : RQ bool) (throw : RQ unit) : RQ Z :=
  set_poll_counter JS_INTERRUPT_COUNTER_INIT ;^
  let^ h := rt_get interrupt_handler in
  if h =? 0 then sret 0
  else
    let^ stop := handler in
    if stop then throw ;^ sret (-1) else sret 0.

Definition js_poll_interrupts (handler : RQ bool) (throw : RQ unit) : RQ Z :=
  let^ n := poll_counter in
  set_poll_counter (n - 1) ;^
  if n - 1 <=? 0 then __js_poll_interrupts handler throw else sret 0.
End ops.
