(* ===== verification/RequestsProofs.v ===== *)
(** * Requests refine a map from requests to states

    [aworld] is what a host sees of a runtime's requests: their states, the
    allocator regime each takes up at its next reset, and which one is entered.
    [rinv] relates it to the arenas, the slots and the state cell, and the
    lemmas show each call moves along [rspec]. *)

From stdpp Require Import base list numbers gmap.
From Stdlib Require Import ZArith Lia.
From S2P Require Import Prelude Memory ChunkTable BaseRanges Thermometer BumpArena ArenaWorld.
From S2P Require Import RequestArena ArenaInvariant DualArena ArenaOps ArenaHooks ArenaLifecycle.
From S2P Require Import ArenaSystem ArenaTheorems StateRun Requests.

#[local] Open Scope st_scope.

Section proofs.
Context `{EV : Env} `{EL : !EnvLaws} `{MS : Mspace} `{ML : !MspaceLaws}.

Lemma swp_arena {A} (m : M A) Q s :
  wp m (fun a w => Q a (rw_set_arena s w)) (rw_arena s) -> swp (on_arena m) Q s.
Proof. unfold wp, swp, on_arena. destruct (m (rw_arena s)) as [[a w] | |]; done. Qed.

Lemma swp_rt_get {A} (f : JSRuntime -> A) Q s : Q (f (rw_rt s)) s -> swp (rt_get f) Q s.
Proof. done. Qed.

(** ** The abstract view *)

Record areq := { ar_state : JSRequestState; ar_next : JSArenaReqMode }.
Record aworld := { a_reqs : gmap Z areq; a_cur : Z }.

(** The state of request [r] of dual arena [d]. *)
Definition view (d : Z) (w : world) (sts : gmap Z JSRequestState) (r : Z) : option areq :=
  match w_ras w !! r with
  | Some ra =>
      if ra_da ra =? d then
        match slot_of ra with
        | Some p =>
            match sts !! p with
            | Some st => Some {| ar_state := st; ar_next := mode_next ra |}
            | None => None
            end
        | None => None
        end
      else None
  | None => None
  end.

Definition dual (s : rworld) : Z := malloc_opaque (rw_rt s).
Definition template (s : rworld) : Z := req_state_addr (rw_rt s).

Record rinv (own : owners_map) (a : aworld) (s : rworld) : Prop := {
  ri_arena : winv own (rw_arena s);
  ri_flag : is_arena (rw_rt s) = true;
  ri_cell : req_cell (rw_rt s) = CellDual;
  ri_dual : exists da, w_das (rw_arena s) !! dual s = Some da /\ da_mode da = JS_ARENA_MODE_REQUEST /\
    da_cur da = a_cur a /\ (a_cur a = 0 -> state_cell da = template s);
  ri_reqs : forall r, a_reqs a !! r = view (dual s) (rw_arena s) (states s) r;
  ri_live : forall r ra, w_ras (rw_arena s) !! r = Some ra -> ra_da ra = dual s ->
    is_Some (view (dual s) (rw_arena s) (states s) r);
  ri_template : exists b, own !! b = Some (HBase (dual s)) /\ in_block (template s) b
}.

(** ** Slots *)

Lemma slot_in own w r ra p :
  winv own w -> w_ras w !! r = Some ra -> slot_of ra = Some p ->
  0 < p /\ exists h, own !! h = Some (HChunk r) /\ in_block p h.
Proof.
  intros Hv Hr Hs. destruct (head_extent own w r ra Hv Hr) as (h & l & El).
  unfold slot_of in Hs. rewrite El in Hs. injection Hs as <-.
  assert (Hh : own !! h = Some (HChunk r)).
  { apply (wi_chunk _ _ _ (wv_core _ _ Hv)). exists ra. split; [done |]. rewrite El. by left. }
  destruct (wi_out _ _ _ (wv_core _ _ Hv) h _ Hh) as [_ Hok]. pose proof (extent_min h Hok).
  destruct Hok as (? & _). split; [lia |]. exists h. split; [done |]. unfold in_block. lia.
Qed.

(** A byte has one holder. *)
Lemma one_holder own w b c hb hc x :
  winv own w -> own !! b = Some hb -> own !! c = Some hc -> in_block x b -> in_block x c -> hb = hc.
Proof.
  intros Hv Hb Hc Ib Ic. destruct (decide (b = c)) as [-> | Hne]; [congruence |].
  pose proof (wi_apart _ _ _ (wv_core _ _ Hv) _ _ _ _ Hb Hc Hne). unfold extents_apart, in_block in *. lia.
Qed.

Lemma slot_inj own w r ra r' ra' p :
  winv own w -> w_ras w !! r = Some ra -> w_ras w !! r' = Some ra' ->
  slot_of ra = Some p -> slot_of ra' = Some p -> r = r'.
Proof.
  intros Hv Hr Hr' Hs Hs'. destruct (slot_in own w r ra p Hv Hr Hs) as (_ & h & Hh & Ih).
  destruct (slot_in own w r' ra' p Hv Hr' Hs') as (_ & h' & Hh' & Ih').
  pose proof (one_holder own w h h' _ _ p Hv Hh Hh' Ih Ih'). congruence.
Qed.

Lemma slot_not_template own a s r ra p :
  rinv own a s -> w_ras (rw_arena s) !! r = Some ra -> slot_of ra = Some p -> p <> template s.
Proof.
  intros Hi Hr Hs ->. destruct (ri_template _ _ _ Hi) as (b & Hb & Ib).
  destruct (slot_in own _ r ra _ (ri_arena _ _ _ Hi) Hr Hs) as (_ & h & Hh & Ih).
  pose proof (one_holder own _ h b _ _ _ (ri_arena _ _ _ Hi) Hh Hb Ih Ib). congruence.
Qed.

(** ** Views and world changes *)

Lemma view_some d w sts r q :
  view d w sts r = Some q ->
  exists ra p, w_ras w !! r = Some ra /\ ra_da ra = d /\ slot_of ra = Some p /\
    sts !! p = Some (ar_state q) /\ mode_next ra = ar_next q.
Proof.
  unfold view. destruct (w_ras w !! r) as [ra |]; [| done]. destruct (Z.eqb_spec (ra_da ra) d); [| done].
  destruct (slot_of ra) as [p |] eqn:Es; [| done]. destruct (sts !! p) as [st |] eqn:Est; [| done].
  intros [= <-]. by exists ra, p.
Qed.

Lemma view_intro d w sts r ra p st :
  w_ras w !! r = Some ra -> ra_da ra = d -> slot_of ra = Some p -> sts !! p = Some st ->
  view d w sts r = Some {| ar_state := st; ar_next := mode_next ra |}.
Proof. unfold view. intros -> -> Hs Hp. by rewrite Z.eqb_refl, Hs, Hp. Qed.

Lemma view_same d w w' sts r : w_ras w' !! r = w_ras w !! r -> view d w' sts r = view d w sts r.
Proof. unfold view. by intros ->. Qed.

(** A store to the slot of [r] shows in [r]'s view only. *)
Lemma view_store own d w sts r ra p st r' :
  winv own w -> w_ras w !! r = Some ra -> ra_da ra = d -> slot_of ra = Some p ->
  view d w (<[p := st]> sts) r' =
    if decide (r' = r) then Some {| ar_state := st; ar_next := mode_next ra |} else view d w sts r'.
Proof.
  intros Hv Hr Hd Hs. destruct (decide (r' = r)) as [-> | Hne].
  - eapply view_intro; try done. apply lookup_insert_eq.
  - unfold view. destruct (w_ras w !! r') as [ra' |] eqn:Hr'; [| done]. destruct (ra_da ra' =? d); [| done].
    destruct (slot_of ra') as [p' |] eqn:Hs'; [| done]. rewrite lookup_insert_ne; [done |].
    intros <-. by apply Hne, (slot_inj own w r' ra' r ra p).
Qed.

(** Allocator work on a request arena keeps every view. *)
Lemma view_evo d r ra ra' own w own' w' sts r' :
  evo r ra ra' own w own' w' -> w_ras w !! r = Some ra -> mode_next ra' = mode_next ra ->
  view d w' sts r' = view d w sts r'.
Proof.
  intros He Hr Hm. destruct (decide (r' = r)) as [-> | Hne].
  - unfold view. rewrite (ev_ra _ _ _ _ _ _ _ He), Hr, (ev_da _ _ _ _ _ _ _ He), Hm. unfold slot_of.
    by rewrite (ev_head _ _ _ _ _ _ _ He).
  - apply view_same. by apply He.
Qed.

(** ** The entered request *)

(** The state [RT_REQ(rt)] reads. *)
Definition cur_state (rt : JSRuntime) (a : aworld) : JSRequestState :=
  match a_reqs a !! a_cur a with Some q => ar_state q | None => req_state rt end.

Definition boundary (rt : JSRuntime) (a : aworld) : bool := current_stack_frame (cur_state rt a) =? 0.

Lemma view_null own a s : rinv own a s -> a_reqs a !! 0 = None.
Proof.
  intros Hi. rewrite (ri_reqs _ _ _ Hi). unfold view. destruct (w_ras (rw_arena s) !! 0) as [ra |] eqn:E; [| done].
  destruct (wi_ras _ _ _ (wv_core _ _ (ri_arena _ _ _ Hi)) 0 ra E) as [[C1 _ _ _ _ _ _] _]. lia.
Qed.

(** The entered request's arena, slot and state. *)
Lemma entered own a s :
  rinv own a s -> a_cur a <> 0 ->
  exists da ra q, w_das (rw_arena s) !! dual s = Some da /\ da_mode da = JS_ARENA_MODE_REQUEST /\
    da_cur da = a_cur a /\ w_ras (rw_arena s) !! a_cur a = Some ra /\ ra_da ra = dual s /\
    slot_of ra = Some (state_cell da) /\ a_reqs a !! a_cur a = Some q /\
    states s !! state_cell da = Some (ar_state q) /\ mode_next ra = ar_next q.
Proof.
  intros Hi Hc. destruct (ri_dual _ _ _ Hi) as (da & Hd & Hm & Ec & _). pose proof (ri_arena _ _ _ Hi) as Hv.
  destruct (lk_cur _ (wv_links _ _ Hv) _ da Hd) as [Hz | [Hin (ra & Hra & Hs)]]; [congruence |].
  destruct (lk_in _ (wv_links _ _ Hv) _ da _ Hd Hin) as (ra' & Hra' & Eda). simplify_eq. rewrite Ec in Hra.
  destruct (ri_live _ _ _ Hi _ ra Hra Eda) as [q Hq]. exists da, ra, q.
  pose proof Hq as Hq'. rewrite <- (ri_reqs _ _ _ Hi) in Hq'.
  destruct (view_some _ _ _ _ _ Hq) as (ra0 & p & X1 & X2 & X3 & X4 & X5). simplify_eq.
  split_and!; try done; congruence.
Qed.

Lemma rt_req_spec own a s Q :
  rinv own a s ->
  (forall da, w_das (rw_arena s) !! dual s = Some da -> da_cur da = a_cur a ->
     (a_cur a = 0 -> state_cell da = template s) -> Q (state_cell da) s) ->
  swp RT_REQ Q s.
Proof.
  intros Hi HQ. destruct (ri_dual _ _ _ Hi) as (da & Hd & _ & Ec & Et). unfold RT_REQ, JS_GetDualArena.
  swp_step. apply swp_rt_get. rewrite (ri_cell _ _ _ Hi). swp_step. apply swp_rt_get. fold (dual s).
  apply swp_arena. unfold js_dual_arena_state_cell. wp_step. apply (wp_load_da _ da); [done |]. wp_steps.
  destruct s. by apply HQ.
Qed.

Lemma current_state_spec own a s :
  rinv own a s -> swp current_state (fun st s' => st = cur_state (rw_rt s) a /\ s' = s) s.
Proof.
  intros Hi. unfold current_state, load_state. swp_step. eapply rt_req_spec; [done |]. intros da Hd Ec Et.
  swp_step. apply swp_rt_get. fold (template s). unfold cur_state. destruct (decide (a_cur a = 0)) as [Hz | Hz].
  - rewrite (Et Hz), Z.eqb_refl, Hz, (view_null own a s Hi). by apply swp_rt_get.
  - destruct (entered own a s Hi Hz) as (da' & ra & q & X1 & X2 & X3 & X4 & X5 & X6 & X7 & X8 & X9). simplify_eq.
    pose proof (slot_not_template own a s _ ra _ Hi X4 X6). destruct (Z.eqb_spec (state_cell da) (template s)); [done |].
    eapply swp_deref; [exact X8 |]. by rewrite X7.
Qed.

Lemma boundary_spec own a s :
  rinv own a s -> swp js_at_job_boundary (fun b s' => b = boundary (rw_rt s) a /\ s' = s) s.
Proof.
  intros Hi. unfold js_at_job_boundary. swp_step. eapply swp_mono; [by apply (current_state_spec own a) |].
  intros st s' [-> ->]. by swp_steps.
Qed.

(** ** The calls *)

Definition a_set_cur (a : aworld) (r : Z) : aworld := {| a_reqs := a_reqs a; a_cur := r |}.
Definition a_put (a : aworld) (r : Z) (q : areq) : aworld :=
  {| a_reqs := <[r := q]> (a_reqs a); a_cur := a_cur a |}.
Definition fresh_req (rt : JSRuntime) (md : JSArenaReqMode) : areq :=
  {| ar_state := relocated rt (bool_decide (md = JS_ARENA_REQ_MODE_GC)); ar_next := md |}.
Definition a_reset (rt : JSRuntime) (a : aworld) : aworld :=
  match a_reqs a !! a_cur a with Some q => a_put a (a_cur a) (fresh_req rt (ar_next q)) | None => a end.
Definition a_write (a : aworld) (f : JSRequestState -> JSRequestState) : aworld :=
  match a_reqs a !! a_cur a with
  | Some q => a_put a (a_cur a) {| ar_state := f (ar_state q); ar_next := ar_next q |}
  | None => a
  end.

(** What every call keeps: the runtime, the context and the base arenas. *)
Definition rt_kept (own : owners_map) (s : rworld) (own' : owners_map) (s' : rworld) : Prop :=
  rw_rt s' = rw_rt s /\ rw_ctx s' = rw_ctx s /\ bases_kept own (rw_arena s) own' (rw_arena s').

Definition to (own : owners_map) (s : rworld) (a' : aworld) (s' : rworld) : Prop :=
  exists own', rinv own' a' s' /\ rt_kept own s own' s'.

Lemma to_refl own a s : rinv own a s -> to own s a s.
Proof. intros Hi. exists own. split; [done |]. split; [done |]. split; [done | apply bases_kept_refl]. Qed.

(** A store through [RT_REQ(rt)] while a request is entered. *)
Lemma set_current_spec own a s st :
  rinv own a s -> a_cur a <> 0 ->
  swp (set_current_state st) (fun _ s' => to own s (a_write a (fun _ => st)) s') s.
Proof.
  intros Hi Hc. destruct (entered own a s Hi Hc) as (da & ra & q & X1 & X2 & X3 & X4 & X5 & X6 & X7 & X8 & X9).
  unfold set_current_state. swp_step. eapply rt_req_spec; [done |]. intros da' Hd' _ _. simplify_eq.
  unfold store_state. swp_step. apply swp_rt_get. fold (template s).
  pose proof (slot_not_template own a s _ ra _ Hi X4 X6). destruct (Z.eqb_spec (state_cell da) (template s)); [done |].
  destruct (slot_in own _ _ ra _ (ri_arena _ _ _ Hi) X4 X6) as [Hp _]. destruct (Z.eqb_spec (state_cell da) 0); [lia |].
  apply swp_mod. exists own. split; [| split; [done |]; split; [done | apply bases_kept_refl]].
  assert (Hview : forall r, view (dual s) (rw_arena s) (<[state_cell da := st]> (states s)) r =
    a_reqs (a_write a (fun _ => st)) !! r).
  { intros r. rewrite (view_store own _ _ _ (a_cur a) ra _ _ r (ri_arena _ _ _ Hi) X4 X5 X6).
    unfold a_write. rewrite X7. simpl. destruct (decide (r = a_cur a)) as [-> | Hne].
    - by rewrite lookup_insert_eq, X9.
    - by rewrite lookup_insert_ne, (ri_reqs _ _ _ Hi). }
  split; simpl.
  - apply Hi.
  - apply Hi.
  - apply Hi.
  - exists da. split_and!; try done; [| intros Hz]; unfold a_write in *; rewrite X7 in *; simpl in *; congruence.
  - intros r. by rewrite Hview.
  - intros r ra' Hr' Hd'. change (dual (rw_set_states s _)) with (dual s) in *. rewrite Hview.
    destruct (ri_live _ _ _ Hi r ra' Hr' Hd') as [q' Hq']. rewrite <- (ri_reqs _ _ _ Hi) in Hq'.
    unfold a_write. rewrite X7. simpl. destruct (decide (r = a_cur a)) as [-> | Hne].
    + by rewrite lookup_insert_eq.
    + by rewrite lookup_insert_ne, Hq'.
  - apply Hi.
Qed.

(** [rinv] with the selected request's state still to be written. *)
Record unset (own : owners_map) (a : aworld) (s : rworld) (r : Z) (ra : JSRequestArena) : Prop := {
  un_arena : winv own (rw_arena s);
  un_flag : is_arena (rw_rt s) = true;
  un_cell : req_cell (rw_rt s) = CellDual;
  un_dual : exists da, w_das (rw_arena s) !! dual s = Some da /\ da_mode da = JS_ARENA_MODE_REQUEST /\ da_cur da = r;
  un_ra : r <> 0 /\ w_ras (rw_arena s) !! r = Some ra /\ ra_da ra = dual s;
  un_reqs : forall r', r' <> r -> a_reqs a !! r' = view (dual s) (rw_arena s) (states s) r';
  un_live : forall r' ra', r' <> r -> w_ras (rw_arena s) !! r' = Some ra' -> ra_da ra' = dual s ->
    is_Some (view (dual s) (rw_arena s) (states s) r');
  un_template : exists b, own !! b = Some (HBase (dual s)) /\ in_block (template s) b
}.

(** The state of [r] after relocation. *)
Definition init_req (rt : JSRuntime) (ra : JSRequestArena) : areq :=
  {| ar_state := relocated rt (bool_decide (ra_mode ra = JS_ARENA_REQ_MODE_GC)); ar_next := mode_next ra |}.

(** What [JS_RelocateReqState] does with a request selected. *)
Lemma relocate_runs s da ra h l :
  req_cell (rw_rt s) = CellDual -> w_das (rw_arena s) !! dual s = Some da -> da_cur da <> 0 ->
  w_ras (rw_arena s) !! da_cur da = Some ra -> chunks ra = h :: l ->
  fst h + 16 <> template s -> fst h + 16 <> 0 ->
  swp JS_RelocateReqState (fun rc s' => rc = 0 /\ s' =
    rw_set_states (rw_set_arena s
      (w_set_das (rw_arena s) (<[dual s := da_set_cur da (da_cur da) (fst h + 16)]> (w_das (rw_arena s)))))
      (<[fst h + 16 := ar_state (init_req (rw_rt s) ra)]> (states s))) s.
Proof.
  intros Hcell Hd Hc Hr El Ht Hp. apply Z.eqb_neq in Hc. unfold JS_RelocateReqState.
  change (JS_ARENA_REQUEST_SLOT_SIZE <? sizeof_JSRequestState) with false. cbv iota.
  unfold JS_GetDualArena. swp_step. apply swp_rt_get. fold (dual s). swp_step. apply swp_arena.
  unfold js_dual_arena_request_slot, on_current, js_request_arena_slot.
  wp_step. apply (wp_load_da _ da); [done |]. rewrite Hc.
  wp_step. apply (wp_load_ra _ ra); [done |]. rewrite El. wp_steps. change ARENA_PREFIX_LEN with 16.
  destruct (Z.eqb_spec (fst h + 16) 0); [done |]. swp_step. swp_step. swp_step. apply swp_arena.
  unfold js_dual_arena_request_mode. wp_step. apply (wp_load_da _ da); [done |]. rewrite Hc.
  wp_step. apply (wp_load_ra _ ra); [done |]. wp_steps.
  swp_step. unfold store_state. swp_step. apply swp_rt_get. simpl.
  destruct (Z.eqb_spec (fst h + 16) (req_state_addr (rw_rt s))); [done |].
  destruct (Z.eqb_spec (fst h + 16) 0); [done |]. apply swp_mod. swp_step.
  unfold set_RT_REQ. swp_step. apply swp_rt_get. simpl. rewrite Hcell. unfold JS_GetDualArena. swp_step. apply swp_rt_get.
  apply swp_arena. simpl. fold (dual s). unfold set_state_cell. wp_step. apply (wp_load_da _ da); [done |]. wp_steps.
  by apply swp_ret.
Qed.

Lemma relocate_spec own a s r ra :
  unset own a s r ra ->
  swp JS_RelocateReqState (fun rc s' => rc = 0 /\
    rinv own {| a_reqs := <[r := init_req (rw_rt s) ra]> (a_reqs a); a_cur := r |} s' /\
    rt_kept own s own s' /\ w_ras (rw_arena s') = w_ras (rw_arena s)) s.
Proof.
  intros [Hv Hf Hcell (da & Hd & Hm & Ec) (Hr0 & Hr & Hrd) Hreqs Hlive (b & Hb & Ib)].
  destruct (lk_cur _ (wv_links _ _ Hv) _ da Hd) as [Hz | [Hin _]]; [congruence |].
  destruct (head_extent own _ _ ra Hv Hr) as (h & l & El).
  assert (Hs : slot_of ra = Some (fst h + 16)) by (unfold slot_of; by rewrite El).
  destruct (slot_in own _ _ ra _ Hv Hr Hs) as (Hp & h' & Hh' & Ih').
  eapply swp_mono.
  { apply (relocate_runs s da ra h l); try done; rewrite ?Ec; try done; [| lia].
    intros E. rewrite E in Ih'. pose proof (one_holder own _ h' b _ _ _ Hv Hh' Hb Ih' Ib). congruence. }
  intros rc s' [-> ->]. rewrite Ec in *. split; [done |].
  destruct (winv_set_cur own (rw_arena s) (dual s) da r (fst h + 16) Hv Hd) as [F1 F2]; [right; split; [done |]; by exists ra |].
  set (st := ar_state _).
  assert (Hview : forall r', view (dual s) (w_set_das (rw_arena s) (<[dual s := da_set_cur da r (fst h + 16)]> (w_das (rw_arena s))))
    (<[fst h + 16 := st]> (states s)) r' = <[r := init_req (rw_rt s) ra]> (a_reqs a) !! r').
  { intros r'. rewrite (view_same _ (rw_arena s)) by done.
    rewrite (view_store own _ _ _ r ra _ _ r' Hv Hr Hrd Hs). destruct (decide (r' = r)) as [-> | Hne].
    - by rewrite lookup_insert_eq.
    - rewrite lookup_insert_ne by done. by rewrite Hreqs. }
  split; [| split; [by split; [| split] | done]].
  split; simpl; try done.
  - eexists. split; [apply lookup_insert_eq |]. by split_and!.
  - intros r' ra0 Hr' Hd'. change (dual (rw_set_states _ _)) with (dual s) in *. rewrite Hview.
    destruct (decide (r' = r)) as [-> | Hne]; [by rewrite lookup_insert_eq |]. rewrite lookup_insert_ne by done.
    destruct (Hlive r' ra0 Hne Hr' Hd') as [q' Hq']. by rewrite Hreqs, Hq'.
  - by exists b.
Qed.

(** [rinv] reads the arena world only through the selection and the views. *)
Lemma rinv_move own a s own' a' s' da :
  rinv own a s -> winv own' (rw_arena s') -> rt_kept own s own' s' ->
  w_das (rw_arena s') !! dual s = Some da -> da_cur da = a_cur a' ->
  (a_cur a' = 0 -> state_cell da = template s) ->
  (forall r, view (dual s) (rw_arena s') (states s') r = a_reqs a' !! r) ->
  (forall r ra, w_ras (rw_arena s') !! r = Some ra -> ra_da ra = dual s -> is_Some (a_reqs a' !! r)) ->
  rinv own' a' s'.
Proof.
  intros Hi Hv (Ert & Ectx & Hk) Hd Ec Et Hview Hlive.
  assert (Ed : dual s' = dual s) by (unfold dual; by rewrite Ert).
  split; rewrite ?Ed, ?Ert; try apply Hi; try done.
  - exists da. split; [done |]. split; [| split; [done |]; unfold template; by rewrite Ert].
    destruct (ri_dual _ _ _ Hi) as (da0 & Hd0 & Hm0 & _). destruct (proj2 Hk _ _ Hd0) as (da1 & Hd1 & _ & Hm1). congruence.
  - intros r ra Hr Hrd. rewrite Hview. by eapply Hlive.
  - destruct (ri_template _ _ _ Hi) as (b & Hb & Ib). exists b. split; [by apply (proj1 Hk) |].
    unfold template. by rewrite Ert.
Qed.

Lemma live_request own a s r q :
  rinv own a s -> a_reqs a !! r = Some q -> exists da ra, w_das (rw_arena s) !! dual s = Some da /\
    r ∈ requests da /\ w_ras (rw_arena s) !! r = Some ra /\ ra_da ra = dual s.
Proof.
  intros Hi Hq. rewrite (ri_reqs _ _ _ Hi) in Hq. destruct (view_some _ _ _ _ _ Hq) as (ra & p & X1 & X2 & _).
  destruct (lk_out _ (wv_links _ _ (ri_arena _ _ _ Hi)) r ra X1) as (da & Y1 & Y2). exists da, ra.
  rewrite X2 in Y1. by split_and!.
Qed.

Lemma live_reqs own a s r ra :
  rinv own a s -> w_ras (rw_arena s) !! r = Some ra -> ra_da ra = dual s -> is_Some (a_reqs a !! r).
Proof. intros Hi Hr Hd. rewrite (ri_reqs _ _ _ Hi). by eapply Hi. Qed.

Lemma select_spec own a s r :
  rinv own a s -> r = 0 \/ is_Some (a_reqs a !! r) ->
  swp (js_select_request r) (fun _ s' => rinv own (a_set_cur a r) s' /\ rt_kept own s own s' /\
    w_ras (rw_arena s') = w_ras (rw_arena s)) s.
Proof.
  intros Hi Hr. destruct (ri_dual _ _ _ Hi) as (da & Hd & _). pose proof (ri_arena _ _ _ Hi) as Hv.
  assert (Hin : r = 0 \/ r ∈ requests da).
  { destruct Hr as [-> | [q Hq]]; [by left |]. destruct (live_request own a s r q Hi Hq) as (da' & ra & X1 & X2 & _).
    right. congruence. }
  assert (Hlive : forall r' ra', w_ras (rw_arena s) !! r' = Some ra' -> ra_da ra' = dual s -> is_Some (a_reqs a !! r')).
  { intros r' ra'. by apply (live_reqs own). }
  unfold js_select_request, JS_GetDualArena. swp_step. apply swp_rt_get. fold (dual s). swp_step. apply swp_arena.
  eapply wp_mono; [by apply (select_request_spec own (rw_arena s) (dual s) da r) |].
  intros u w' (Hv' & Hk & cell & -> & Hz & Hs). destruct (Z.eqb_spec r 0) as [-> | Hr0].
  - swp_step. apply swp_rt_get. unfold set_RT_REQ. swp_step. apply swp_rt_get. simpl. rewrite (ri_cell _ _ _ Hi).
    unfold JS_GetDualArena. swp_step. apply swp_rt_get. apply swp_arena. simpl. fold (dual s).
    unfold set_state_cell. wp_step. eapply wp_load_da; [apply lookup_insert_eq |]. wp_steps. simpl.
    destruct (winv_set_cur own _ (dual s) _ 0 (template s) Hv' (lookup_insert_eq _ _ _) ltac:(by left)) as [G1 G2].
    simpl in G1, G2. set (s' := rw_set_arena _ _).
    assert (Hkept : rt_kept own s own s') by (split; [done | split; [done |]; by eapply bases_kept_trans]).
    split; [| done]. eapply (rinv_move own a s own _ s'); try done.
    + simpl. apply lookup_insert_eq.
    + done.
    + done.
    + intros r. simpl. rewrite (ri_reqs _ _ _ Hi). by apply view_same.
  - swp_steps. set (s' := rw_set_arena _ _).
    assert (Hkept : rt_kept own s own s') by (by split; [| split]).
    split; [| done]. eapply (rinv_move own a s own _ s'); try done.
    + simpl. apply lookup_insert_eq.
    + done.
    + intros r'. simpl. rewrite (ri_reqs _ _ _ Hi). by apply view_same.
Qed.

Lemma current_request_spec own a s :
  rinv own a s -> swp (let^ d := JS_GetDualArena in on_arena (js_dual_arena_current_request d))
    (fun r s' => r = a_cur a /\ s' = s) s.
Proof.
  intros Hi. destruct (ri_dual _ _ _ Hi) as (da & Hd & _ & Ec & _). unfold JS_GetDualArena. swp_step. apply swp_rt_get.
  apply swp_arena. unfold js_dual_arena_current_request. fold (dual s). wp_step. apply (wp_load_da _ da); [done |].
  wp_steps. split; [done | by destruct s].
Qed.

Lemma reset_request_spec own a s :
  rinv own a s -> swp JS_ResetRequestArena (fun _ s' => to own s (a_reset (rw_rt s) a) s') s.
Proof.
  intros Hi. destruct (ri_dual _ _ _ Hi) as (da & Hd & Hm & Ec & _). unfold JS_ResetRequestArena, JS_GetDualArena.
  swp_step. apply swp_rt_get. fold (dual s). swp_step. apply swp_arena. unfold js_dual_arena_current_request.
  wp_step. apply (wp_load_da _ da); [done |]. wp_steps. rewrite Ec. destruct (Z.eqb_spec (a_cur a) 0) as [Hz | Hz].
  { swp_step. unfold a_reset. rewrite Hz, (view_null own a s Hi). destruct s. by apply to_refl. }
  destruct (entered own a s Hi Hz) as (da' & ra & q & X1 & X2 & X3 & X4 & X5 & X6 & X7 & X8 & X9). simplify_eq.
  swp_step. apply swp_arena. unfold js_dual_arena_reset_request. wp_step. apply (wp_load_da _ da); [done |].
  rewrite Ec. destruct (Z.eqb_spec (a_cur a) 0); [done |].
  destruct (reset_spec own (rw_arena s) (a_cur a) ra da (ri_arena _ _ _ Hi) X4 ltac:(by rewrite X5)) as (h & Hh & Hwp).
  eapply wp_mono; [exact Hwp |]. intros u w' (own' & ra' & He & Hv' & Hdone).
  destruct Hdone as (_ & _ & _ & _ & Hfa). rewrite X2 in Hfa. destruct Hfa as [F1 F2 F3 _ _].
  destruct (sim_selection _ _ (ev_das _ _ _ _ _ _ _ He) _ _ Hd) as (da' & Hd' & Ec' & _).
  pose proof (evo_bases _ _ _ _ _ _ _ He) as Hk.
  destruct (proj2 Hk _ _ Hd) as (da'' & Hd'' & _ & Hm'). simpl in *. simplify_eq.
  set (s1 := rw_set_arena _ w').
  assert (Hview : forall r, view (dual s) w' (states s) r = view (dual s) (rw_arena s) (states s) r).
  { intros r. by apply (view_evo _ (a_cur a) ra ra' own _ own' w'). }
  assert (Hun : unset own' a s1 (a_cur a) ra').
  { split; simpl; try done; try apply Hi.
    - exists da'. split_and!; try done; congruence.
    - split; [done |]. split; [apply He |]. change (dual s1) with (dual s). by rewrite (ev_da _ _ _ _ _ _ _ He).
    - intros r _. change (dual s1) with (dual s). rewrite Hview. apply Hi.
    - intros r rax Hne Hr Hrd. change (dual s1) with (dual s) in *. rewrite Hview.
      rewrite (ev_others _ _ _ _ _ _ _ He) in Hr by done. by eapply Hi.
    - destruct (ri_template _ _ _ Hi) as (b & Hb & Ib). exists b. split; [by apply (proj1 Hk) | done]. }
  swp_step. eapply swp_mono; [by apply (relocate_spec own' a s1 (a_cur a) ra') |].
  intros rc s2 (-> & Hi2 & (K1 & K2 & K3) & _). swp_step. exists own'. split.
  - unfold a_reset. rewrite X7. unfold a_put, fresh_req. unfold init_req in Hi2. rewrite F2, F3, X9 in Hi2. exact Hi2.
  - split; [done |]. split; [done |]. by eapply bases_kept_trans.
Qed.

Lemma null_ras own w : winv own w -> w_ras w !! 0 = None.
Proof.
  intros Hv. destruct (w_ras w !! 0) as [ra |] eqn:E; [| done].
  destruct (wi_ras _ _ _ (wv_core _ _ Hv) 0 ra E) as [[C1 _ _ _ _ _ _] _]. lia.
Qed.

(** Selecting a new arena, setting its mode and resetting it. *)
Lemma prepare_spec own a s own1 w1 r mode :
  rinv own a s -> r <> 0 -> w_ras (rw_arena s) !! r = None -> winv own1 w1 -> bases_kept own (rw_arena s) own1 w1 ->
  (exists da1, w_das w1 !! dual s = Some da1 /\ r ∈ requests da1) ->
  (forall r', r' <> r -> w_ras w1 !! r' = w_ras (rw_arena s) !! r') ->
  wp (mbind (js_dual_arena_select_request (dual s) r) (fun _ =>
      mbind (js_dual_arena_set_request_mode (dual s) mode) (fun _ => js_dual_arena_reset_request (dual s))))
    (fun _ w' => exists own' ra, unset own' a (rw_set_arena s w') r ra /\
      bases_kept own (rw_arena s) own' w' /\ ra_mode ra = mode /\ mode_next ra = mode) w1.
Proof.
  intros Hi Hr0 Hrn Hv1 Hk1 (da1 & Hd1 & Hin) Hoth.
  destruct (ri_dual _ _ _ Hi) as (da & Hd & Hm & _). destruct (proj2 Hk1 _ _ Hd) as (day & Hdy & _ & Hm1). rewrite Hd1 in Hdy. injection Hdy as <-.
  destruct (lk_in _ (wv_links _ _ Hv1) _ da1 r Hd1 Hin) as (ra1 & Hra1 & Eda).
  wp_step. eapply wp_mono; [apply (select_request_spec own1 w1 (dual s) da1 r); [done.. | by right] |].
  intros u w2 (Hv2 & Hk2 & cell & -> & _ & Hs). set (da2 := da_set_cur da1 r cell) in *.
  set (w2 := w_set_das w1 _) in *. assert (Hd2 : w_das w2 !! dual s = Some da2) by apply lookup_insert_eq.
  wp_step. eapply wp_mono; [by apply (set_request_mode_spec own1 w2 (dual s) da2 mode) |].
  intros u2 w3 (Hv3 & Hk3 & Ed3 & _ & Ho3 & Hr3). simpl in Ho3, Hr3. specialize (Hr3 ra1 Hra1 Hr0).
  set (ra3 := ra_set_mode ra1 _ mode) in *. unfold js_dual_arena_reset_request. wp_step.
  apply (wp_load_da _ da2); [by rewrite Ed3 |]. simpl. destruct (Z.eqb_spec r 0); [done |].
  destruct (reset_spec own1 w3 r ra3 da2 Hv3 Hr3) as (h & Hh & Hwp); [simpl; by rewrite Eda, Ed3 |].
  eapply wp_mono; [exact Hwp |]. intros u3 w4 (own4 & ra4 & He & Hv4 & (_ & _ & _ & _ & Hfa)).
  simpl in Hfa. rewrite Hm1, Hm in Hfa. destruct Hfa as [F1 F2 F3 _ _]. exists own4, ra4.
  assert (Hk4 : bases_kept own (rw_arena s) own4 w4).
  { eapply bases_kept_trans; [exact Hk1 |]. eapply bases_kept_trans; [exact Hk2 |]. eapply bases_kept_trans; [exact Hk3 |].
    by eapply evo_bases. }
  assert (Hsame : forall r', r' <> r -> w_ras w4 !! r' = w_ras (rw_arena s) !! r').
  { intros r' Hne. rewrite (ev_others _ _ _ _ _ _ _ He), Ho3 by done. simpl. by apply Hoth. }
  split; [| split; [done |]; split; [by rewrite F2 | by rewrite F3]]. split; simpl; try done; try apply Hi.
  - destruct (sim_selection _ _ (ev_das _ _ _ _ _ _ _ He) (dual s) da2) as (da4 & Hd4 & Ec4 & _); [by rewrite Ed3 |].
    exists da4. split; [done |]. split; [| done].
    destruct (proj2 Hk4 _ _ Hd) as (dax & Hdx & _ & Hmx). change (dual (rw_set_arena s w4)) with (dual s) in *. congruence.
  - split; [done |]. split; [apply He |]. rewrite (ev_da _ _ _ _ _ _ _ He). done.
  - intros r' Hne. rewrite (ri_reqs _ _ _ Hi). symmetry. apply view_same. by apply Hsame.
  - intros r' ra' Hne Hr' Hrd. rewrite Hsame in Hr' by done.
    rewrite (view_same _ (rw_arena s)) by (by apply Hsame). by eapply Hi.
  - destruct (ri_template _ _ _ Hi) as (b & Hb & Ib). exists b. split; [by apply (proj1 Hk4) | done].
Qed.

(** [JS_NewRequest]: refused without effect, or a fresh request beside the
    others, with the same one entered. *)
Lemma new_request_spec own a s c p mode :
  rinv own a s -> cap_legal c -> prov_legal p ->
  swp (JS_NewRequest c p mode) (fun r s' =>
    (r = 0 /\ to own s a s') \/
    (r <> 0 /\ a_reqs a !! r = None /\ to own s (a_put a r (fresh_req (rw_rt s) mode)) s')) s.
Proof.
  intros Hi Hc Hp. destruct (ri_dual _ _ _ Hi) as (da & Hd & Hm & Ec & Et). unfold JS_NewRequest, JS_GetDualArena.
  swp_step. apply swp_rt_get. rewrite (ri_flag _ _ _ Hi). simpl negb. cbv iota.
  swp_step. apply swp_rt_get. fold (dual s). swp_step. apply swp_arena. unfold js_dual_arena_current_request.
  wp_step. apply (wp_load_da _ da); [done |]. wp_steps. rewrite Ec.
  replace (rw_set_arena s (rw_arena s)) with s by (by destruct s).
  swp_step. apply swp_arena. eapply wp_mono; [by apply (request_arena_new_spec own (rw_arena s) (dual s) da c p); try apply Hi |].
  intros r w1 (own1 & Hv1 & Hk1 & Hnew & Hoth & Hsel).
  destruct (Z.eqb_spec r 0) as [-> | Hr0].
  { swp_step. left. split; [done |]. set (s1 := rw_set_arena s w1).
    assert (Hras : forall r, w_ras w1 !! r = w_ras (rw_arena s) !! r).
    { intros r. destruct (decide (r = 0)) as [-> | Hne]; [| by apply Hoth].
      by rewrite (null_ras own1 w1), (null_ras own (rw_arena s)) by (done || apply Hi). }
    assert (Hkept : rt_kept own s own1 s1) by (by split; [| split]).
    exists own1. split; [| done]. destruct (Hsel _ _ Hd) as (da1 & Hd1 & Ec1 & Et1).
    apply (rinv_move own a s own1 a s1 da1); try done; simpl.
    - congruence.
    - intros Hz. rewrite Et1. auto.
    - intros r. rewrite (ri_reqs _ _ _ Hi). apply view_same, Hras.
    - intros r ra Hr Hrd. rewrite Hras in Hr. by apply (live_reqs own a s r ra). }
  destruct (Hnew Hr0) as (Hrn & Hin). swp_step. apply swp_arena. simpl rw_arena.
  pose proof (prepare_spec own a s own1 w1 r mode Hi Hr0 Hrn Hv1 Hk1 Hin Hoth) as Hprep.
  unfold wp, mbind in Hprep. unfold wp at 1.
  destruct (js_dual_arena_select_request (dual s) r w1) as [[u1 w2] | |]; [| done | done]. simpl in Hprep.
  swp_step. apply swp_arena. unfold wp. simpl rw_arena.
  destruct (js_dual_arena_set_request_mode (dual s) mode w2) as [[u2 w3] | |]; [| done | done]. simpl in Hprep.
  swp_step. apply swp_arena. unfold wp. simpl rw_arena.
  destruct (js_dual_arena_reset_request (dual s) w3) as [[u3 w4] | |]; [| done | done]. simpl in Hprep.
  destruct Hprep as (own4 & ra & Hun & Hk4 & Hmd & Hnx). swp_step.
  change (rw_set_arena _ w4) with (rw_set_arena s w4).
  eapply swp_mono; [by apply (relocate_spec own4 a _ r ra) |]. intros rc s5 (-> & Hi5 & (K1 & K2 & K3) & _).
  simpl. swp_step. eapply swp_mono.
  { apply (select_spec own4 _ s5 (a_cur a) Hi5). destruct (decide (a_cur a = 0)) as [Hz | Hz]; [by left | right].
    destruct (entered own a s Hi Hz) as (? & ? & q & _ & _ & _ & _ & _ & _ & X7 & _). simpl.
    destruct (decide (r = a_cur a)) as [-> | Hne]; [by rewrite lookup_insert_eq |]. by rewrite lookup_insert_ne, X7. }
  intros u4 s6 (Hi6 & (L1 & L2 & L3) & _). swp_step. right. split; [done |].
  split; [rewrite (ri_reqs _ _ _ Hi); unfold view; by rewrite Hrn |]. exists own4. split.
  - unfold a_put, fresh_req. unfold init_req, a_set_cur in Hi6. simpl in Hi6. rewrite Hmd, Hnx in Hi6. exact Hi6.
  - simpl in *. split; [by rewrite L1 |]. split; [by rewrite L2 |]. eapply bases_kept_trans; [exact Hk4 |]. by eapply bases_kept_trans.
Qed.

(** Entering: allowed between jobs, for a live request of this runtime. *)
Definition a_enter (rt : JSRuntime) (a : aworld) (r : Z) : Z * aworld :=
  if negb (r =? 0) && boundary rt a && bool_decide (is_Some (a_reqs a !! r)) then (0, a_set_cur a r) else (-1, a).
Definition a_leave (rt : JSRuntime) (a : aworld) : Z * aworld :=
  if boundary rt a then (0, a_set_cur a 0) else (-1, a).
Definition a_drop (a : aworld) (r : Z) : aworld :=
  {| a_reqs := delete r (a_reqs a); a_cur := if a_cur a =? r then 0 else a_cur a |}.
Definition a_free (rt : JSRuntime) (a : aworld) (r : Z) : Z * aworld :=
  if (r =? 0) || ((a_cur a =? r) && negb (boundary rt a)) then (-1, a) else (0, a_drop a r).

Lemma to_select own a s r s' :
  rinv own (a_set_cur a r) s' -> rt_kept own s own s' -> to own s (a_set_cur a r) s'.
Proof. intros Hi Hk. by exists own. Qed.

Lemma enter_spec own a s r :
  rinv own a s -> r = 0 \/ is_Some (w_ras (rw_arena s) !! r) ->
  swp (JS_EnterRequest r) (fun rc s' => rc = fst (a_enter (rw_rt s) a r) /\ to own s (snd (a_enter (rw_rt s) a r)) s') s.
Proof.
  intros Hi Hr. unfold JS_EnterRequest, a_enter. swp_step. apply swp_rt_get. rewrite (ri_flag _ _ _ Hi).
  simpl negb. rewrite orb_false_l. destruct (Z.eqb_spec r 0) as [-> | Hr0]; simpl andb; cbv iota.
  { swp_step. split; [done | by apply to_refl]. }
  destruct Hr as [Hr | [ra Hr]]; [done |]. swp_step. eapply swp_mono; [by apply (boundary_spec own a) |].
  intros b s' [-> ->]. destruct (boundary (rw_rt s) a); simpl; [| swp_step; split; [done | by apply to_refl]].
  unfold JS_GetDualArena. swp_step. apply swp_rt_get. fold (dual s). swp_step. apply swp_arena.
  unfold js_request_arena_dual. wp_step. apply (wp_load_ra _ ra); [done |]. wp_steps.
  replace (rw_set_arena s (rw_arena s)) with s by (by destruct s).
  destruct (Z.eqb_spec (ra_da ra) (dual s)) as [Ed | Ed]; simpl.
  - pose proof (live_reqs own a s r ra Hi Hr Ed) as Hs. rewrite bool_decide_eq_true_2 by done. simpl.
    swp_step. eapply swp_mono; [apply (select_spec own a s r Hi); by right |].
    intros u s' (Hi' & Hk & _). swp_step. split; [done | by apply to_select].
  - swp_step. rewrite bool_decide_eq_false_2; [split; [done | by apply to_refl] |].
    intros [q Hq]. destruct (live_request own a s r q Hi Hq) as (? & ra' & _ & _ & X1 & X2). congruence.
Qed.

Lemma leave_spec own a s :
  rinv own a s ->
  swp JS_LeaveRequest (fun rc s' => rc = fst (a_leave (rw_rt s) a) /\
    rinv own (snd (a_leave (rw_rt s) a)) s' /\ rt_kept own s own s' /\ w_ras (rw_arena s') = w_ras (rw_arena s)) s.
Proof.
  intros Hi. unfold JS_LeaveRequest, a_leave. swp_step. apply swp_rt_get. rewrite (ri_flag _ _ _ Hi). simpl negb. cbv iota.
  swp_step. eapply swp_mono; [by apply (boundary_spec own a) |].
  intros b s' [-> ->]. destruct (boundary (rw_rt s) a); simpl; swp_step.
  - eapply swp_mono; [apply (select_spec own a s 0 Hi); by left |]. intros u s' (Hi' & Hk & Er). by swp_step.
  - split; [done |]. split; [done |]. split; [| done]. split; [done |]. split; [done | apply bases_kept_refl].
Qed.

(** Freeing a request that is not entered. *)
Lemma drop_spec own a s r :
  rinv own a s -> is_Some (a_reqs a !! r) -> a_cur a <> r ->
  wp (js_request_arena_free r) (fun _ w' => to own s (a_drop a r) (rw_set_arena s w')) (rw_arena s).
Proof.
  intros Hi [q Hq] Hc. destruct (live_request own a s r q Hi Hq) as (da & ra & Hd & _ & Hr & Hrd).
  eapply wp_mono; [by apply (request_arena_free_spec own _ r ra); [apply Hi |] |].
  intros u w' (own' & Hv' & Hk & Er & _ & _ & _ & Hsel). destruct (Hsel _ _ Hd) as (da' & Hd' & Hsame).
  destruct (ri_dual _ _ _ Hi) as (da0 & Hd0 & _ & Ec & Et). simplify_eq.
  unfold a_drop. destruct (Z.eqb_spec (a_cur a) r) as [? | _]; [done |]. rewrite Ec in Hsame.
  destruct (Z.eqb_spec (a_cur a) r) as [? | _]; [done |]. destruct Hsame as [Ec' Et'].
  exists own'. set (s' := rw_set_arena s w'). assert (Hkept : rt_kept own s own' s') by (by split; [| split]).
  split; [| done]. apply (rinv_move own a s own' _ s' da'); try done; simpl.
  - intros Hz. rewrite Et'. auto.
  - intros r'. destruct (decide (r' = r)) as [-> | Hne].
    + rewrite lookup_delete_eq. unfold view. by rewrite Er, lookup_delete_eq.
    + rewrite lookup_delete_ne by done. rewrite (ri_reqs _ _ _ Hi). apply view_same. by rewrite Er, lookup_delete_ne.
  - intros r' ra' Hr' Hrd'. rewrite Er in Hr'. apply lookup_delete_Some in Hr' as [Hne Hr'].
    rewrite lookup_delete_ne by done. by apply (live_reqs own a s r' ra').
Qed.

Lemma to_trans own a s s1 a' s' :
  rinv own a s1 -> rt_kept own s own s1 -> to own s1 a' s' -> to own s a' s'.
Proof.
  intros _ (K1 & K2 & K3) (own' & Hi' & L1 & L2 & L3). exists own'. split; [done |].
  split; [congruence |]. split; [congruence |]. by eapply bases_kept_trans.
Qed.

Lemma free_request_spec own a s r :
  rinv own a s -> r = 0 \/ is_Some (a_reqs a !! r) ->
  swp (JS_FreeRequest r) (fun rc s' => rc = fst (a_free (rw_rt s) a r) /\ to own s (snd (a_free (rw_rt s) a r)) s') s.
Proof.
  intros Hi Hr. unfold JS_FreeRequest, a_free. swp_step. apply swp_rt_get. rewrite (ri_flag _ _ _ Hi). simpl negb.
  rewrite orb_false_l. destruct (Z.eqb_spec r 0) as [-> | Hr0]; simpl orb; cbv iota.
  { swp_step. split; [done | by apply to_refl]. }
  destruct Hr as [Hr | Hr]; [done |]. unfold JS_CurrentRequest. do 2 swp_step. apply swp_rt_get.
  rewrite (ri_flag _ _ _ Hi). eapply swp_mono; [by apply (current_request_spec own a) |]. intros c s' [-> ->].
  destruct (Z.eqb_spec (a_cur a) r) as [Ec | Ec]; simpl.
  - swp_step. eapply swp_mono; [by apply (leave_spec own a) |]. unfold a_leave.
    intros rc s' (-> & Hi' & Hk & _). destruct (boundary (rw_rt s) a); simpl in *.
    + swp_step. apply swp_arena. eapply wp_mono; [apply (drop_spec own _ s' r Hi'); [done |]; simpl; congruence |].
      intros u w' Hto. swp_step. split; [done |]. eapply to_trans; [exact Hi' | exact Hk |].
      unfold a_drop, a_set_cur in *. cbn [a_cur a_reqs] in Hto. rewrite Ec, Z.eqb_refl.
      destruct (0 =? r); exact Hto.
    + swp_step. split; [done |]. by exists own.
  - do 2 swp_step. change (0 <? 0) with false. cbv iota. swp_step. apply swp_arena. eapply wp_mono; [by apply (drop_spec own a s r Hi) |].
    intros u w' Hto. by swp_step.
Qed.

(** *** Allocator traffic *)

Definition a_set_next (a : aworld) (md : JSArenaReqMode) : aworld :=
  match a_reqs a !! a_cur a with
  | Some q => a_put a (a_cur a) {| ar_state := ar_state q; ar_next := md |}
  | None => a
  end.

Lemma set_mode_spec own a s md :
  rinv own a s ->
  wp (js_dual_arena_set_request_mode (dual s) md) (fun _ w' => to own s (a_set_next a md) (rw_set_arena s w')) (rw_arena s).
Proof.
  intros Hi. destruct (ri_dual _ _ _ Hi) as (da & Hd & _ & Ec & Et).
  eapply wp_mono; [by apply (set_request_mode_spec own _ (dual s) da md); [apply Hi |] |].
  intros u w' (Hv' & Hk & Ed & _ & Hoth & Hcur). rewrite Ec in *. exists own. set (s' := rw_set_arena s w').
  assert (Hkept : rt_kept own s own s') by (by split; [| split]). split; [| done]. unfold a_set_next.
  destruct (decide (a_cur a = 0)) as [Hz | Hz].
  - rewrite Hz, (view_null own a s Hi). rewrite Hz in *.
    assert (Hras : forall r, w_ras w' !! r = w_ras (rw_arena s) !! r).
    { intros r. destruct (decide (r = 0)) as [-> | Hne]; [| by apply Hoth].
      by rewrite (null_ras own w'), (null_ras own (rw_arena s)) by (done || apply Hi). }
    apply (rinv_move own a s own a s' da); try done; simpl; rewrite ?Ed, ?Hz; try done.
    + intros r. rewrite (ri_reqs _ _ _ Hi). by apply view_same.
    + intros r ra Hr Hrd. rewrite Hras in Hr. by apply (live_reqs own a s r ra).
  - destruct (entered own a s Hi Hz) as (da' & ra & q & X1 & X2 & X3 & X4 & X5 & X6 & X7 & X8 & X9). simplify_eq.
    specialize (Hcur ra X4 Hz). rewrite X7.
    apply (rinv_move own a s own _ s' da); try done; simpl; rewrite ?Ed; try done.
    + intros r. destruct (decide (r = a_cur a)) as [-> | Hne].
      * rewrite lookup_insert_eq. by apply (view_intro _ _ _ _ (ra_set_mode ra (ra_mode ra) md) (state_cell da)).
      * rewrite lookup_insert_ne by done. rewrite (ri_reqs _ _ _ Hi). apply view_same. by apply Hoth.
    + intros r ra' Hr Hrd. destruct (decide (r = a_cur a)) as [-> | Hne]; [by rewrite lookup_insert_eq |].
      rewrite lookup_insert_ne by done. rewrite Hoth in Hr by done. by apply (live_reqs own a s r ra').
Qed.

(** Work on one request arena that keeps its pending mode. *)
Lemma evo_to own a s r ra ra' own' w' :
  rinv own a s -> w_ras (rw_arena s) !! r = Some ra -> evo r ra ra' own (rw_arena s) own' w' -> winv own' w' ->
  mode_next ra' = mode_next ra -> to own s a (rw_set_arena s w').
Proof.
  intros Hi Hr He Hv' Hn. destruct (ri_dual _ _ _ Hi) as (da & Hd & _ & Ec & Et). exists own'.
  set (s' := rw_set_arena s w').
  assert (Hkept : rt_kept own s own' s') by (split; [done | split; [done | by eapply evo_bases]]). split; [| done].
  destruct (sim_selection _ _ (ev_das _ _ _ _ _ _ _ He) _ _ Hd) as (da' & Hd' & Ec' & Et').
  assert (Hview : forall r0, view (dual s) w' (states s) r0 = a_reqs a !! r0).
  { intros r0. rewrite (ri_reqs _ _ _ Hi). by apply (view_evo _ r ra ra' own _ own' w'). }
  apply (rinv_move own a s own' a s' da'); try done; simpl.
  - congruence.
  - intros Hz. rewrite Et'. auto.
  - intros r0 ra0 Hr0 Hrd. destruct (decide (r0 = r)) as [-> | Hne].
    + rewrite (ev_ra _ _ _ _ _ _ _ He) in Hr0. simplify_eq. rewrite (ev_da _ _ _ _ _ _ _ He) in Hrd.
      by apply (live_reqs own a s r ra).
    + rewrite (ev_others _ _ _ _ _ _ _ He) in Hr0 by done. by apply (live_reqs own a s r0 ra0).
Qed.

Lemma hook_to own a s ra size p w' :
  rinv own a s -> a_cur a <> 0 -> w_ras (rw_arena s) !! a_cur a = Some ra -> ra_da ra = dual s ->
  hook_post (a_cur a) ra own (rw_arena s) size p w' -> to own s a (rw_set_arena s w').
Proof.
  intros Hi Hz Hr Hrd (own' & ra' & He & _ & Hn & Hm & _). eapply evo_to; try done.
  apply (evo_winv (a_cur a) ra ra' own (rw_arena s)); try done; [apply Hi |].
  destruct (ri_dual _ _ _ Hi) as (da & Hd & Hmd & _). intros da' Hd'. rewrite Hrd in Hd'. simplify_eq. by rewrite Hmd.
Qed.
End proofs.
