(* ===== verification/RequestsTheorems.v ===== *)
(** * Requests of a runtime: the theorems

    Runs of request calls mixed with engine work refine the abstract map of
    request states; freezing enters the first request; the seeded random
    stream and the interrupt poll behave as specified from any state. *)

From stdpp Require Import base list numbers gmap.
From Stdlib Require Import ZArith Lia.
From S2P Require Import Prelude Memory ChunkTable BaseRanges Thermometer BumpArena ArenaWorld.
From S2P Require Import RequestArena ArenaInvariant DualArena ArenaOps ArenaHooks ArenaLifecycle.
From S2P Require Import ArenaSystem ArenaTheorems ArenaWitness StateRun Requests RequestsProofs.

#[local] Open Scope st_scope.
#[local] Arguments le_bytes : simpl never.
#[local] Arguments xorshift64star : simpl never.

Section theorems.
Context `{EV : Env} `{EL : !EnvLaws} `{MS : Mspace} `{ML : !MspaceLaws}.

(** ** Allocator hooks in the entered request *)

Inductive hook :=
  | HMalloc (size : Z)
  | HCalloc (count size : Z)
  | HRealloc (ptr size : Z)
  | HFree (ptr : Z).

Definition do_hook (d : Z) (h : hook) : M Z :=
  match h with
  | HMalloc size => jda_malloc d size
  | HCalloc count size => jda_calloc d count size
  | HRealloc ptr size => jda_realloc d ptr size
  | HFree ptr => mbind (jda_free d ptr) (fun _ => mret 0)
  end.

Definition hook_ok (w : world) (h : hook) : Prop :=
  match h with
  | HMalloc size => 0 <= size < 2 ^ 60
  | HCalloc count size => 0 < count /\ 0 < size /\ count * size < 2 ^ 60
  | HRealloc ptr size => 0 < ptr /\ 0 < size < 2 ^ 60
  | HFree ptr => ptr_legal w ptr
  end.

(** Request memory comes and goes without a trace in the requests' states. *)
Lemma do_hook_spec own a s h :
  rinv own a s -> a_cur a <> 0 -> hook_ok (rw_arena s) h ->
  wp (do_hook (dual s) h) (fun _ w' => to own s a (rw_set_arena s w')) (rw_arena s).
Proof.
  intros Hi Hz Hok. destruct (entered own a s Hi Hz) as (da & ra & q & X1 & X2 & X3 & X4 & X5 & _).
  pose proof (ri_arena _ _ _ Hi) as Hv.
  assert (Hgo : forall m size, wp m (hook_post (a_cur a) ra own (rw_arena s) size) (rw_arena s) ->
    wp m (fun _ w' => to own s a (rw_set_arena s w')) (rw_arena s)).
  { intros m size Hwp. eapply wp_mono; [exact Hwp |]. intros p w'. by apply hook_to. }
  destruct h as [size | count size | ptr size | ptr]; simpl in *.
  - eapply Hgo. by apply (jda_malloc_spec own (rw_arena s) (dual s) (a_cur a) da ra).
  - destruct Hok as (H1 & H2 & H3). apply (Hgo _ (count * size)).
    eapply wp_mono; [by apply (jda_calloc_spec own (rw_arena s) (dual s) (a_cur a) da ra) |]. by intros p w' [Hh _].
  - destruct Hok as [H1 H2]. eapply Hgo. by apply (jda_realloc_spec own (rw_arena s) (dual s) (a_cur a) da ra).
  - wp_step. eapply wp_mono.
    { apply (jda_free_spec own (rw_arena s) (dual s) da ptr Hv X1 X2); [apply Hok |].
      intros o rao dao. by apply (legal_owner own (rw_arena s) ptr). }
    intros u w' [[-> _] | (rao & rao' & Hr & _ & _ & He & Hv' & _ & Hn)]; wp_step.
    + replace (rw_set_arena s (rw_arena s)) with s by (by destruct s). by apply to_refl.
    + eapply (evo_to own a s _ rao rao' own w'); done.
Qed.

(** ** Calls, their specification, and runs *)

(** What a host and an engine do with the requests of a runtime; [REngine f] is
    a store of the engine to the entered request's state. *)
Inductive rop :=
  | RNew (request_cap : Z) (prov : option JSArenaChunkProvider) (mode : JSArenaReqMode)
  | REnter (r : Z)
  | RLeave
  | RFree (r : Z)
  | RReset
  | RSetMode (mode : JSArenaReqMode)
  | REngine (f : JSRequestState -> JSRequestState)
  | RHook (h : hook).

Definition do_rop (o : rop) : ST rworld Z :=
  match o with
  | RNew c p mode => JS_NewRequest c p mode
  | REnter r => JS_EnterRequest r
  | RLeave => JS_LeaveRequest
  | RFree r => JS_FreeRequest r
  | RReset => JS_ResetRequestArena ;^ sret 0
  | RSetMode mode => let^ d := JS_GetDualArena in on_arena (js_dual_arena_set_request_mode d mode) ;^ sret 0
  | REngine f => let^ st := current_state in set_current_state (f st) ;^ sret 0
  | RHook h => let^ d := JS_GetDualArena in on_arena (do_hook d h)
  end.

(** The abstract step, with the result [res] the call returns. *)
Definition rspec (rt : JSRuntime) (o : rop) (res : Z) (a a' : aworld) : Prop :=
  match o with
  | RNew _ _ mode =>
      (res = 0 /\ a' = a) \/
      (res <> 0 /\ a_reqs a !! res = None /\ a' = a_put a res (fresh_req rt mode))
  | REnter r => (res, a') = a_enter rt a r
  | RLeave => (res, a') = a_leave rt a
  | RFree r => (res, a') = a_free rt a r
  | RReset => a' = a_reset rt a
  | RSetMode mode => a' = a_set_next a mode
  | REngine f => a' = a_write a f
  | RHook _ => a' = a
  end.

(** Handles are live ones, sizes sane, and the engine runs in a request. *)
Definition rop_ok (s : rworld) (o : rop) : Prop :=
  match o with
  | RNew c p _ => cap_legal c /\ prov_legal p
  | REnter r => r = 0 \/ is_Some (w_ras (rw_arena s) !! r)
  | RFree r => r = 0 \/ exists ra, w_ras (rw_arena s) !! r = Some ra /\ ra_da ra = dual s
  | REngine _ => exists da, w_das (rw_arena s) !! dual s = Some da /\ da_cur da <> 0
  | RHook h => (exists da, w_das (rw_arena s) !! dual s = Some da /\ da_cur da <> 0) /\ hook_ok (rw_arena s) h
  | _ => True
  end.

Lemma rop_entered own a s :
  rinv own a s -> (exists da, w_das (rw_arena s) !! dual s = Some da /\ da_cur da <> 0) -> a_cur a <> 0.
Proof.
  intros Hi (da & Hd & Hc). destruct (ri_dual _ _ _ Hi) as (da' & Hd' & _ & Ec & _). congruence.
Qed.

Lemma do_rop_spec own a s o :
  rinv own a s -> rop_ok s o ->
  swp (do_rop o) (fun res s' => exists a', rspec (rw_rt s) o res a a' /\ to own s a' s') s.
Proof.
  intros Hi Hok. destruct o as [c p mode | r | | r | | mode | f | h]; simpl in *.
  - destruct Hok as [Hc Hp]. eapply swp_mono; [by apply (new_request_spec own a) |].
    intros r s' [[-> Hto] | (Hr & Hn & Hto)]; eexists; (split; [| exact Hto]); [by left | by right].
  - eapply swp_mono; [by apply (enter_spec own a) |]. intros rc s' [-> Hto]. eexists. split; [| exact Hto].
    by destruct (a_enter (rw_rt s) a r).
  - eapply swp_mono; [by apply (leave_spec own a) |]. intros rc s' (-> & Hi' & Hk & _). eexists.
    split; [| by exists own]. by destruct (a_leave (rw_rt s) a).
  - eapply swp_mono.
    { apply (free_request_spec own a s r Hi). destruct Hok as [-> | (ra & Hr & Hd)]; [by left | right].
      by apply (live_reqs own a s r ra). }
    intros rc s' [-> Hto]. eexists. split; [| exact Hto]. by destruct (a_free (rw_rt s) a r).
  - swp_step. eapply swp_mono; [by apply (reset_request_spec own a) |]. intros u s' Hto. swp_step. by eexists.
  - unfold JS_GetDualArena. swp_step. apply swp_rt_get. fold (dual s). swp_step. apply swp_arena.
    eapply wp_mono; [by apply (set_mode_spec own a) |]. intros u w' Hto. swp_step. by eexists.
  - pose proof (rop_entered own a s Hi Hok) as Hz. swp_step. eapply swp_mono; [by apply (current_state_spec own a) |].
    intros st s' [-> ->]. swp_step. eapply swp_mono; [by apply (set_current_spec own a) |].
    intros u s' Hto. swp_step. eexists. split; [reflexivity |].
    destruct (entered own a s Hi Hz) as (_ & _ & q & _ & _ & _ & _ & _ & _ & X7 & _).
    unfold a_write, cur_state in *. by rewrite X7 in *.
  - destruct Hok as [He Hok]. pose proof (rop_entered own a s Hi He) as Hz.
    unfold JS_GetDualArena. swp_step. apply swp_rt_get. fold (dual s). apply swp_arena.
    eapply wp_mono; [by apply (do_hook_spec own a) |]. intros res w' Hto. by eexists.
Qed.

Fixpoint run_rops (l : list rop) : ST rworld (list Z) :=
  match l with
  | [] => sret []
  | o :: l =>
      let^ res := do_rop o in
      let^ rest := run_rops l in
      sret (res :: rest)
  end.

Fixpoint rspecs (rt : JSRuntime) (l : list rop) (rs : list Z) (a a' : aworld) : Prop :=
  match l, rs with
  | [], [] => a' = a
  | o :: l, res :: rs => exists a1, rspec rt o res a a1 /\ rspecs rt l rs a1 a'
  | _, _ => False
  end.

(** Each call is legal in the state the previous ones lead to. *)
Fixpoint rops_ok (s : rworld) (l : list rop) : Prop :=
  match l with
  | [] => True
  | o :: l => rop_ok s o /\ forall res s', do_rop o s = Done (res, s') -> rops_ok s' l
  end.

Lemma run_rops_spec l own a s :
  rinv own a s -> rops_ok s l ->
  swp (run_rops l) (fun rs s' => exists a', rspecs (rw_rt s) l rs a a' /\ to own s a' s') s.
Proof.
  revert own a s. induction l as [| o l IH]; intros own a s Hi Hok; simpl.
  - swp_step. exists a. split; [done | by apply to_refl].
  - destruct Hok as [Ho Hl]. pose proof (do_rop_spec own a s o Hi Ho) as Hstep.
    destruct (swp_done _ _ _ Hstep) as (res & s1 & Hrun & a1 & Hs1 & own1 & Hi1 & K1 & K2 & K3).
    specialize (Hl res s1 Hrun). swp_step. unfold swp at 1. rewrite Hrun. swp_step.
    eapply swp_mono; [by apply (IH own1 a1 s1) |]. intros rs s' (a' & Hs' & own' & Hi' & L1 & L2 & L3). swp_step.
    exists a'. rewrite K1 in Hs'. split; [by exists a1 |]. exists own'. split; [done |].
    split; [congruence |]. split; [congruence |]. by eapply bases_kept_trans.
Qed.


(** ** Freeze *)

(** A runtime over a dual arena that still builds its base. *)
Record unfrozen (own : owners_map) (s : rworld) (r : Z) (ra : JSRequestArena) : Prop := {
  uf_arena : winv own (rw_arena s);
  uf_cell : req_cell (rw_rt s) = CellVanilla;
  uf_dual : exists da, w_das (rw_arena s) !! dual s = Some da /\ da_mode da = JS_ARENA_MODE_BASE /\
    da_cur da = r /\ requests da = [r];
  uf_ra : r <> 0 /\ w_ras (rw_arena s) !! r = Some ra;
  uf_template : exists b, own !! b = Some (HBase (dual s)) /\ in_block (template s) b
}.

Lemma freeze_runtime_spec hazards passes s s1 own r ra :
  passes s = Done (tt, s1) -> unfrozen own s1 r ra -> hazards <= 0 ->
  swp (JS_FreezeRuntime hazards passes) (fun _ s' => rw_rt s' = rt_set_arena (rw_rt s1) /\
    rinv own {| a_reqs := {[ r := fresh_req (rw_rt s') (mode_next ra) ]}; a_cur := r |} s' /\
    forall b, own !! b = Some (HBase (dual s1)) ->
       mem_agree (w_mem (rw_arena s1)) (w_mem (rw_arena s')) (fst b) (fst b + snd b)) s.
Proof.
  intros Hp [Hv Hcell (da & Hd & Hm & Ec & Hreqs) (Hr0 & Hra) (b & Hb & Ib)] Hh.
  unfold JS_FreezeRuntime. destruct (Z.ltb_spec 0 hazards); [lia |]. swp_step. unfold swp at 1. rewrite Hp.
  unfold JS_GetDualArena at 1. swp_step. apply swp_rt_get. fold (dual s1). swp_step. apply swp_arena.
  eapply wp_mono; [by apply (freeze_spec own (rw_arena s1) (dual s1) da) |].
  intros u w2 (Hv2 & Hd2 & Hag & _ & Hras & _). set (da2 := da_set_mode da JS_ARENA_MODE_REQUEST) in *.
  destruct (Hras r ra ltac:(rewrite Hreqs; by left) Hra) as (ra2 & Hr2 & Erd & Emd & Enx).
  destruct (lk_in _ (wv_links _ _ Hv) _ da r Hd ltac:(rewrite Hreqs; by left)) as (rax & Hrax & Erx). simplify_eq.
  destruct (head_extent own _ _ ra2 Hv2 Hr2) as (h & l & El).
  assert (Hs : slot_of ra2 = Some (fst h + 16)) by (unfold slot_of; by rewrite El).
  destruct (slot_in own _ _ ra2 _ Hv2 Hr2 Hs) as (Hpos & h' & Hh' & Ih').
  swp_step. unfold js_runtime_mark_arena, JS_GetDualArena. swp_step. apply swp_rt_get. simpl. fold (dual s1).
  swp_step. apply swp_rt_get. simpl. swp_step. apply swp_arena. simpl. unfold set_state_cell.
  wp_step. apply (wp_load_da _ da2); [done |]. wp_steps. apply swp_mod. swp_step. simpl.
  eapply swp_mono.
  { eapply (relocate_runs _ (da_set_cur da2 (da_cur da) (template s1)) ra2 h l); simpl; try done; try lia.
    - apply lookup_insert_eq.
    - intros E. rewrite E in Ih'. pose proof (one_holder own _ h' b _ _ _ Hv2 Hh' Hb Ih' Ib). congruence. }
  intros rc s' [-> ->]. swp_step. split; [done |]. simpl. change (dual _) with (dual s1).
  set (r := da_cur da) in *. set (p := fst h + 16) in *. set (rt := rt_set_arena (rw_rt s1)).
  change (da_set_cur (da_set_cur da2 r (template s1)) r p) with (da_set_cur da2 r p). rewrite insert_insert_eq.
  destruct (winv_set_cur own w2 (dual s1) da2 r p Hv2 Hd2) as [F1 _].
  { right. split; [simpl; rewrite Hreqs; by left |]. by exists ra2. }
  set (w3 := w_set_das w2 _) in *. set (sts := <[p := _]> _).
  assert (Hview : forall r', view (dual s1) w3 sts r' = ({[ r := fresh_req rt (mode_next ra) ]} : gmap Z areq) !! r').
  { intros r'. destruct (decide (r' = r)) as [-> | Hne].
    - rewrite lookup_singleton_eq. rewrite (view_intro _ _ _ _ ra2 p (ar_state (init_req rt ra2))); try done; try congruence.
      + unfold init_req, fresh_req. simpl. by rewrite Emd, Enx.
      + apply lookup_insert_eq.
    - rewrite lookup_singleton_ne by done. unfold view. simpl. destruct (w_ras w2 !! r') as [ra' |] eqn:Hr'; [| done].
      destruct (Z.eqb_spec (ra_da ra') (dual s1)) as [Ed |]; [| done].
      destruct (lk_out _ (wv_links _ _ Hv2) r' ra' Hr') as (da' & Hd' & Hin). rewrite Ed, Hd2 in Hd'. injection Hd' as <-.
      simpl in Hin. rewrite Hreqs in Hin. by apply list_elem_of_singleton in Hin. }
  split; [| intros c Hc; by eapply Hag].
  split; simpl; try done.
  - exists (da_set_cur da2 r p). simpl. split; [apply lookup_insert_eq |]. by split_and!.
  - intros r' ra' Hr' Hd'. change (dual _) with (dual s1) in *. rewrite Hview. simpl in Hr'.
    destruct (lk_out _ (wv_links _ _ Hv2) r' ra' Hr') as (da' & Hx & Hin). rewrite Hd', Hd2 in Hx. injection Hx as <-.
    simpl in Hin. rewrite Hreqs in Hin. apply list_elem_of_singleton in Hin as ->. by rewrite lookup_singleton_eq.
  - by exists b.
Qed.


(** ** Writing the entered request's state *)

Lemma cur_write rt a f :
  is_Some (a_reqs a !! a_cur a) -> cur_state rt (a_write a f) = f (cur_state rt a) /\
    a_cur (a_write a f) = a_cur a /\ is_Some (a_reqs (a_write a f) !! a_cur a).
Proof. intros [q Hq]. unfold cur_state, a_write. rewrite Hq. simpl. by rewrite lookup_insert_eq. Qed.

Lemma write_write a f g : a_write (a_write a f) g = a_write a (fun st => g (f st)).
Proof.
  unfold a_write. destruct (a_reqs a !! a_cur a) as [q |] eqn:E; [| by rewrite E].
  simpl. rewrite lookup_insert_eq. unfold a_put. simpl. by rewrite insert_insert_eq.
Qed.

Lemma write_same rt a f : f (cur_state rt a) = cur_state rt a -> a_write a f = a.
Proof.
  unfold a_write, cur_state. destruct (a_reqs a !! a_cur a) as [[st n] |] eqn:E; [| done]. simpl. intros ->.
  unfold a_put. rewrite insert_id by done. by destruct a.
Qed.

Lemma write_ext rt a f g : f (cur_state rt a) = g (cur_state rt a) -> a_write a f = a_write a g.
Proof. unfold a_write, cur_state. destruct (a_reqs a !! a_cur a) as [q |]; [| done]. by intros ->. Qed.

Lemma entered_live own a s : rinv own a s -> a_cur a <> 0 -> is_Some (a_reqs a !! a_cur a).
Proof. intros Hi Hz. destruct (entered own a s Hi Hz) as (_ & _ & q & _ & _ & _ & _ & _ & _ & X7 & _). by exists q. Qed.

(** A read-modify-write of the entered request's state. *)
Lemma modify_current_spec own a s f :
  rinv own a s -> a_cur a <> 0 ->
  swp (let^ st := current_state in set_current_state (f st)) (fun _ s' => to own s (a_write a f) s') s.
Proof.
  intros Hi Hz. swp_step. eapply swp_mono; [by apply (current_state_spec own a) |]. intros st s' [-> ->].
  eapply swp_mono; [by apply (set_current_spec own a) |]. intros u s' Hto.
  by rewrite (write_ext (rw_rt s) a f (fun _ => f (cur_state (rw_rt s) a))).
Qed.

Lemma to_step own s a1 s1 a2 s2 :
  to own s a1 s1 -> (forall own1, rinv own1 a1 s1 -> rw_rt s1 = rw_rt s -> to own1 s1 a2 s2) -> to own s a2 s2.
Proof.
  intros (own1 & Hi1 & K1 & K2 & K3) H. destruct (H own1 Hi1 K1) as (own2 & Hi2 & L1 & L2 & L3).
  exists own2. split; [done |]. split; [congruence |]. split; [congruence |]. by eapply bases_kept_trans.
Qed.

(** ** Random numbers *)

Lemma lxor_bound n a b : 0 <= n -> 0 <= a < 2 ^ n -> 0 <= b < 2 ^ n -> 0 <= Z.lxor a b < 2 ^ n.
Proof.
  intros Hn Ha Hb. assert (0 <= Z.lxor a b) by (apply Z.lxor_nonneg; lia). split; [done |].
  assert (E : Z.lxor a b = Z.lxor a b mod 2 ^ n); [| rewrite E; apply Z.mod_pos_bound; lia].
  apply Z.bits_inj'. intros i Hi. destruct (Z.lt_ge_cases i n).
  - by rewrite Z.mod_pow2_bits_low.
  - rewrite Z.mod_pow2_bits_high by lia. rewrite Z.lxor_spec.
    rewrite <- (Z.mod_small a (2 ^ n)), <- (Z.mod_small b (2 ^ n)) by lia.
    by rewrite !Z.mod_pow2_bits_high by lia.
Qed.

(** Mixing a word with its shift keeps it a nonzero word. *)
Lemma mix_right x k : 0 < k -> 0 < x < 2 ^ 64 -> 0 < Z.lxor x (Z.shiftr x k) < 2 ^ 64.
Proof.
  intros Hk Hx. rewrite Z.shiftr_div_pow2 by lia.
  assert (Hd : 0 <= x / 2 ^ k < x).
  { split; [apply Z.div_pos; lia |]. apply Z.div_lt; [lia |]. apply Z.pow_gt_1; lia. }
  pose proof (lxor_bound 64 x (x / 2 ^ k) ltac:(lia) ltac:(lia) ltac:(lia)).
  destruct (Z.eq_dec (Z.lxor x (x / 2 ^ k)) 0) as [E | E]; [| lia]. apply Z.lxor_eq in E. lia.
Qed.

Lemma mix_left x : 0 < x < 2 ^ 64 -> 0 < Z.lxor x (u64 (Z.shiftl x 25)) < 2 ^ 64.
Proof.
  intros Hx. rewrite Z.shiftl_mul_pow2 by lia. unfold u64.
  pose proof (Z.mod_pos_bound (x * 2 ^ 25) (2 ^ 64) ltac:(lia)) as Hm.
  pose proof (lxor_bound 64 x _ ltac:(lia) ltac:(lia) Hm).
  destruct (Z.eq_dec (Z.lxor x (x * 2 ^ 25 mod 2 ^ 64)) 0) as [E | E]; [| lia]. apply Z.lxor_eq in E. exfalso.
  assert (Hdiv : (2 ^ 64 | (2 ^ 25 - 1) * x)).
  { exists (x * 2 ^ 25 / 2 ^ 64). pose proof (Z.div_mod (x * 2 ^ 25) (2 ^ 64) ltac:(lia)). lia. }
  apply Z.gauss in Hdiv; [| reflexivity]. apply Z.divide_pos_le in Hdiv; lia.
Qed.

(** A seeded generator never reaches the stuck state 0. *)
Lemma xorshift_state x : 0 < x < 2 ^ 64 -> 0 < fst (xorshift64star x) < 2 ^ 64.
Proof. intros Hx. unfold xorshift64star. simpl fst. apply mix_right; [lia |]. apply mix_left, mix_right; [lia | done]. Qed.

(** The outputs and the state after [n] draws. *)
Fixpoint draws (n : nat) (x : Z) : list Z :=
  match n with O => [] | S n => snd (xorshift64star x) :: draws n (fst (xorshift64star x)) end.
Fixpoint after_draws (n : nat) (x : Z) : Z :=
  match n with O => x | S n => after_draws n (fst (xorshift64star x)) end.

Definition a_random (a : aworld) (x : Z) : aworld := a_write a (fun st => st_set_random st x).

Lemma random_of_cur rt a x :
  is_Some (a_reqs a !! a_cur a) -> random_state_req (cur_state rt (a_random a x)) = x.
Proof. intros Hs. unfold a_random. by rewrite (proj1 (cur_write rt a _ Hs)). Qed.

Lemma random_again a x y : a_random (a_random a x) y = a_random a y.
Proof. unfold a_random. by rewrite write_write. Qed.

Lemma random_same rt a : a_random a (random_state_req (cur_state rt a)) = a.
Proof. apply (write_same rt). by destruct (cur_state rt a). Qed.

Lemma set_random_spec own a s x :
  rinv own a s -> a_cur a <> 0 -> swp (set_random_state_active x) (fun _ s' => to own s (a_random a x) s') s.
Proof.
  intros Hi Hz. unfold set_random_state_active. swp_step. apply swp_rt_get. rewrite (ri_flag _ _ _ Hi).
  by apply (modify_current_spec own a s (fun st => st_set_random st x)).
Qed.

Lemma next_random_spec own a s :
  rinv own a s -> a_cur a <> 0 ->
  let x := random_state_req (cur_state (rw_rt s) a) in
  swp next_random (fun v s' => v = snd (xorshift64star x) /\ to own s (a_random a (fst (xorshift64star x))) s') s.
Proof.
  intros Hi Hz x. unfold next_random, js_random_state_active. swp_step. swp_step. apply swp_rt_get.
  rewrite (ri_flag _ _ _ Hi). swp_step. eapply swp_mono; [by apply (current_state_spec own a) |]. intros st s' [-> ->].
  swp_step. fold x. destruct (xorshift64star x) as [y v] eqn:E. swp_step.
  eapply swp_mono; [by apply (set_random_spec own a) |]. intros u s' Hto. by swp_step.
Qed.

Lemma fill_words_spec n own a s x :
  rinv own a s -> a_cur a <> 0 -> random_state_req (cur_state (rw_rt s) a) = x ->
  swp (fill_words n) (fun bs s' => bs = flat_map (le_bytes 8) (draws n x) /\
    to own s (a_random a (after_draws n x)) s') s.
Proof.
  revert own a s x. induction n as [| n IH]; intros own a s x Hi Hz Hx; simpl fill_words.
  - swp_step. split; [done |]. simpl. subst x. rewrite random_same. by apply to_refl.
  - swp_step. eapply swp_mono; [by apply (next_random_spec own a) |]. rewrite Hx. intros v s1 [-> Hto].
    pose proof Hto as (own1 & Hi1 & K1 & K2 & K3). pose proof (entered_live own a s Hi Hz) as Hl.
    swp_step. eapply swp_mono.
    { apply (IH own1 _ s1 (fst (xorshift64star x)) Hi1).
      - unfold a_random. by rewrite (proj1 (proj2 (cur_write (rw_rt s) a _ Hl))).
      - by apply random_of_cur. }
    intros rest s2 [-> (own2 & Hi2 & L1 & L2 & L3)]. swp_step. split; [done |]. rewrite random_again in Hi2.
    exists own2. split; [done |]. split; [congruence |]. split; [congruence |]. by eapply bases_kept_trans.
Qed.

Definition seed_state (seed : Z) : Z := if negb (seed =? 0) then seed else 1.

Lemma draws_snoc n x :
  draws (S n) x = draws n x ++ [snd (xorshift64star (after_draws n x))] /\
  after_draws (S n) x = fst (xorshift64star (after_draws n x)).
Proof.
  revert x. induction n as [| n IH]; intros x; [done |]. destruct (IH (fst (xorshift64star x))) as [E1 E2].
  split; [| exact E2]. change (draws (S (S n)) x) with (snd (xorshift64star x) :: draws (S n) (fst (xorshift64star x))).
  by rewrite E1.
Qed.

Lemma after_draws_word n x : 0 < x < 2 ^ 64 -> 0 < after_draws n x < 2 ^ 64.
Proof. revert x. induction n as [| n IH]; intros x Hx; [done |]. simpl. by apply IH, xorshift_state. Qed.

Lemma length_words n x : length (flat_map (le_bytes 8) (draws n x)) = (8 * n)%nat.
Proof.
  revert x. induction n as [| n IH]; intros x; [done |].
  change (flat_map (le_bytes 8) (draws (S n) x)) with
    (le_bytes 8 (snd (xorshift64star x)) ++ flat_map (le_bytes 8) (draws n (fst (xorshift64star x)))).
  rewrite length_app, length_le_bytes, IH. lia.
Qed.

Lemma fill_bytes_spec own a s x n :
  rinv own a s -> a_cur a <> 0 -> random_state_req (cur_state (rw_rt s) a) = x -> 0 <= n ->
  let k := Z.to_nat ((n + 7) / 8) in
  swp (JS_FillRandomBytes n) (fun bs s' => bs = take (Z.to_nat n) (flat_map (le_bytes 8) (draws k x)) /\
    to own s (a_random a (after_draws k x)) s') s.
Proof.
  intros Hi Hz Hx Hn k. set (full := Z.to_nat (n / 8)). pose proof (Z.div_pos n 8 Hn ltac:(lia)) as Hq.
  pose proof (Z.mod_pos_bound n 8 ltac:(lia)) as Hmod. pose proof (Z.div_mod n 8 ltac:(lia)) as Hdm.
  unfold JS_FillRandomBytes. swp_step. fold full. eapply swp_mono; [by apply (fill_words_spec full own a s x) |].
  intros bs s1 [-> Hto]. destruct (Z.eqb_spec (n - n / 8 * 8) 0) as [E | E].
  - swp_step. assert (Ek : k = full).
    { unfold k, full. f_equal. replace (n + 7) with (7 + n / 8 * 8) by lia. rewrite Z.div_add by lia. done. }
    rewrite Ek, take_ge; [done |]. rewrite length_words. lia.
  - assert (Ek : k = S full).
    { unfold k, full. rewrite <- Z2Nat.inj_succ by lia. f_equal.
      replace (n + 7) with (n mod 8 - 1 + (Z.succ (n / 8)) * 8) by lia. rewrite Z.div_add, Z.div_small by lia. lia. }
    destruct (draws_snoc full x) as [E1 E2]. rewrite Ek, E1, E2. pose proof Hto as (own1 & Hi1 & K1 & K2 & K3).
    pose proof (entered_live own a s Hi Hz) as Hl. swp_step. eapply swp_mono.
    { apply (next_random_spec own1 _ s1 Hi1). unfold a_random. by rewrite (proj1 (proj2 (cur_write (rw_rt s) a _ Hl))). }
    rewrite random_of_cur by done. intros v s2 [-> (own2 & Hi2 & L1 & L2 & L3)]. swp_step. rewrite random_again in Hi2. split.
    + rewrite flat_map_app. cbn [flat_map]. rewrite app_nil_r, take_app, length_words.
      rewrite (take_ge (flat_map (le_bytes 8) (draws full x))) by (rewrite length_words; lia). f_equal. f_equal. lia.
    + exists own2. split; [done |]. split; [congruence |]. split; [congruence |]. by eapply bases_kept_trans.
Qed.

Lemma math_random_spec own a s :
  rinv own a s -> a_cur a <> 0 ->
  swp js_math_random_bits (fun bits _ => Z.shiftr bits 52 = 0x3ff /\ 0 <= bits < 2 ^ 62) s.
Proof.
  intros Hi Hz. unfold js_math_random_bits. swp_step. eapply swp_mono; [by apply (next_random_spec own a) |].
  intros v s' [-> _]. swp_step. set (v := snd _). assert (Hv : 0 <= v < 2 ^ 64) by (apply Z.mod_pos_bound; lia).
  assert (Hlow : 0 <= Z.shiftr v 12 < 2 ^ 52).
  { rewrite Z.shiftr_div_pow2 by lia. split; [apply Z.div_pos; lia |]. apply Z.div_lt_upper_bound; lia. }
  assert (E : Z.shiftr (Z.lor (Z.shiftl 0x3ff 52) (Z.shiftr v 12)) 52 = 0x3ff).
  { rewrite Z.shiftr_lor, Z.shiftr_shiftl_l by lia. rewrite (Z.shiftr_div_pow2 (Z.shiftr v 12)), Z.div_small by lia. done. }
  split; [done |]. rewrite Z.shiftr_div_pow2 in E by lia.
  assert (0 <= Z.lor (Z.shiftl 0x3ff 52) (Z.shiftr v 12)) by (apply Z.lor_nonneg; split; [done | lia]).
  pose proof (Z.div_mod (Z.lor (Z.shiftl 0x3ff 52) (Z.shiftr v 12)) (2 ^ 52) ltac:(lia)).
  pose proof (Z.mod_pos_bound (Z.lor (Z.shiftl 0x3ff 52) (Z.shiftr v 12)) (2 ^ 52) ltac:(lia)). lia.
Qed.

(** the seeded random stream.  In the entered request, seeding and then
    drawing [n] bytes returns the first [n] bytes of the xorshift64* words that
    follow from the seed alone, whatever the request did before, with one more
    word drawn for a tail; the generator state stays a nonzero 64-bit word, and
    [Math.random] then builds the bits of a double in [1, 2). *)
Theorem seeded_random_replays own a s seed n :
  rinv own a s -> a_cur a <> 0 -> 0 <= seed < 2 ^ 64 -> 0 <= n ->
  let x := seed_state seed in
  let k := Z.to_nat ((n + 7) / 8) in
  exists bs s', (JS_SetRandomSeed seed ;^ JS_FillRandomBytes n) s = Done (bs, s') /\
    bs = take (Z.to_nat n) (flat_map (le_bytes 8) (draws k x)) /\ lenZ bs = n /\
    to own s (a_random a (after_draws k x)) s' /\ 0 < after_draws k x < 2 ^ 64 /\
    exists bits s2, js_math_random_bits s' = Done (bits, s2) /\ Z.shiftr bits 52 = 0x3ff /\ 0 <= bits < 2 ^ 62.
Proof.
  intros Hi Hz Hseed Hn x k. assert (Hx : 0 < x < 2 ^ 64) by (unfold x, seed_state; destruct (Z.eqb_spec seed 0); simpl; lia).
  assert (Hrun : swp (JS_SetRandomSeed seed ;^ JS_FillRandomBytes n) (fun bs s' =>
    bs = take (Z.to_nat n) (flat_map (le_bytes 8) (draws k x)) /\ to own s (a_random a (after_draws k x)) s') s).
  { swp_step. eapply swp_mono; [by apply (set_random_spec own a) |]. fold (seed_state seed). fold x.
    intros u s1 (own1 & Hi1 & K1 & K2 & K3). pose proof (entered_live own a s Hi Hz) as Hl. eapply swp_mono.
    - apply (fill_bytes_spec own1 _ s1 x n Hi1); [| by apply random_of_cur | done].
      unfold a_random. by rewrite (proj1 (proj2 (cur_write (rw_rt s) a _ Hl))).
    - intros bs s2 [-> (own2 & Hi2 & L1 & L2 & L3)]. split; [done |]. rewrite random_again in Hi2.
      exists own2. split; [done |]. split; [congruence |]. split; [congruence |]. by eapply bases_kept_trans. }
  destruct (swp_done _ _ _ Hrun) as (bs & s' & Hr & Hbs & Hto). exists bs, s'. split; [done |]. split; [done |].
  split; [| split; [done | split; [by apply after_draws_word |]]].
  - subst bs. unfold lenZ. rewrite length_take, length_words. unfold k.
    pose proof (Z.div_mod (n + 7) 8 ltac:(lia)). pose proof (Z.mod_pos_bound (n + 7) 8 ltac:(lia)). lia.
  - destruct Hto as (own' & Hi' & _). pose proof (entered_live own a s Hi Hz) as Hl.
    assert (Hz' : a_cur (a_random a (after_draws k x)) <> 0) by (unfold a_random; by rewrite (proj1 (proj2 (cur_write (rw_rt s) a _ Hl)))).
    destruct (swp_done _ _ _ (math_random_spec own' _ s' Hi' Hz')) as (bits & s2 & H1 & H2). by exists bits, s2.
Qed.

(** ** Interrupt polls *)

(** A script that polls until it is stopped: the number of the poll that
    stopped it, within [n] polls, counted from [k]. *)
Fixpoint poll_loop (handler : ST rworld bool) (throw : ST rworld unit) (n : nat) (k : Z) : ST rworld (option Z) :=
  match n with
  | O => sret None
  | S n =>
      let^ rc := js_poll_interrupts handler throw in
      if rc <? 0 then sret (Some k) else poll_loop handler throw n (k + 1)
  end.

Definition a_counter (a : aworld) (c : Z) : aworld := a_write a (fun st => st_set_counter st c).

Lemma set_counter_spec own a s c :
  rinv own a s -> a_cur a <> 0 -> swp (set_poll_counter c) (fun _ s' => to own s (a_counter a c) s') s.
Proof.
  intros Hi Hz. unfold set_poll_counter. swp_step. apply swp_rt_get. rewrite (ri_flag _ _ _ Hi).
  by apply (modify_current_spec own a s (fun st => st_set_counter st c)).
Qed.

Lemma poll_counter_spec own a s :
  rinv own a s -> swp poll_counter (fun c s' => c = interrupt_counter_req (cur_state (rw_rt s) a) /\ s' = s) s.
Proof.
  intros Hi. unfold poll_counter. swp_step. apply swp_rt_get. rewrite (ri_flag _ _ _ Hi). swp_step.
  eapply swp_mono; [by apply (current_state_spec own a) |]. intros st s' [-> ->]. by swp_step.
Qed.

Lemma counter_of_cur rt a c :
  is_Some (a_reqs a !! a_cur a) ->
  interrupt_counter_req (cur_state rt (a_counter a c)) = c /\ a_cur (a_counter a c) = a_cur a.
Proof. intros Hs. unfold a_counter. destruct (cur_write rt a (fun st => st_set_counter st c) Hs) as (-> & -> & _). done. Qed.


(** ** A request of another runtime *)

(** [JS_FreeRequest] does not ask whose request it frees.  Entering a live
    request of another dual arena is refused, but freeing it succeeds even
    while it is entered there, and leaves the other runtime with its state
    cell NULL: its next access to [RT_REQ(rt)] dereferences NULL. *)
Theorem free_foreign_request_clears_cell own a s r ra da :
  rinv own a s -> w_ras (rw_arena s) !! r = Some ra -> ra_da ra <> dual s ->
  w_das (rw_arena s) !! ra_da ra = Some da -> da_cur da = r -> boundary (rw_rt s) a = true ->
  (exists s1, JS_EnterRequest r s = Done (-1, s1)) /\
  exists s' da', JS_FreeRequest r s = Done (0, s') /\ w_das (rw_arena s') !! ra_da ra = Some da' /\
    da_cur da' = 0 /\ state_cell da' = 0.
Proof.
  intros Hi Hr Hne Hd Hcur Hb. pose proof (ri_arena _ _ _ Hi) as Hv.
  destruct (wi_ras _ _ _ (wv_core _ _ Hv) r ra Hr) as [[Hr0 _ _ _ _ _ _] _].
  assert (Hnot : a_reqs a !! r = None).
  { rewrite (ri_reqs _ _ _ Hi). unfold view. rewrite Hr. by destruct (Z.eqb_spec (ra_da ra) (dual s)). }
  split.
  - destruct (swp_done _ _ _ (enter_spec own a s r Hi ltac:(right; eauto))) as (rc & s1 & Hrun & -> & _). exists s1.
    rewrite Hrun. unfold a_enter. rewrite Hb, Hnot. destruct (Z.eqb_spec r 0); [lia |]. done.
  - cut (swp (JS_FreeRequest r) (fun rc s' => rc = 0 /\ exists da', w_das (rw_arena s') !! ra_da ra = Some da' /\
      da_cur da' = 0 /\ state_cell da' = 0) s).
    { intros Hs. destruct (swp_done _ _ _ Hs) as (rc & s' & H1 & -> & da' & H2). by exists s', da'. }
    unfold JS_FreeRequest. swp_step. apply swp_rt_get. rewrite (ri_flag _ _ _ Hi).
    destruct (Z.eqb_spec r 0); [lia |]. simpl orb. cbv iota. unfold JS_CurrentRequest. do 2 swp_step. apply swp_rt_get.
    rewrite (ri_flag _ _ _ Hi). eapply swp_mono; [by apply (current_request_spec own a) |]. intros c s0 [-> ->].
    destruct (Z.eqb_spec (a_cur a) r) as [E | _].
    { exfalso. destruct (entered_live own a s Hi ltac:(lia)) as [q Hq]. rewrite E in Hq. congruence. }
    do 2 swp_step. change (0 <? 0) with false. cbv iota. swp_step. apply swp_arena.
    eapply wp_mono; [by apply (request_arena_free_spec own _ r ra) |].
    intros u w' (own' & _ & _ & _ & _ & _ & _ & Hsel). destruct (Hsel _ _ Hd) as (da' & Hd' & Hx).
    rewrite Hcur, Z.eqb_refl in Hx. swp_step. split; [done |]. by exists da'.
Qed.
End theorems.

(** ** A concrete runtime

    Over the environment of [ArenaWitness]: two dual arenas on the thread, a
    runtime in the base of the first, frozen. *)
Module ToyRequests.

Definition wt : world := next (CNewDual 4096 4096 None) wb.

Lemma wt_reachable : reachable wt.
Proof.
  apply (reach_next wb _ 3); [apply wb_reachable | | reflexivity | done].
  simpl. unfold cap_legal. split; [lia |]. split; [lia | done].
Qed.

Definition s0 : rworld := {|
  rw_arena := wt; rw_rt := rt_set_handler (runtime_init 1 2097200 300) 77;
  rw_ctx := {| ctx_random_state := 0; ctx_date_now_pinned := -1; ctx_time_origin := 0; ctx_interrupt_counter := 10000 |};
  states := ∅ |}.

Definition toy_da : JSDualArena :=
  match w_das wt !! 1 with Some da => da | None => da1 end.
Definition toy_ra : JSRequestArena :=
  match w_ras wt !! 2 with Some ra => ra | None => ra1 end.

Lemma toy_unfrozen : exists own, unfrozen own s0 2 toy_ra.
Proof.
  destruct (reachable_inv wt wt_reachable) as [own Hv]. exists own.
  assert (Hd : w_das wt !! 1 = Some toy_da) by (vm_compute; reflexivity). split.
  - exact Hv.
  - done.
  - exists toy_da. split; [exact Hd |]. vm_compute. split; [done | split; done].
  - split; [done | vm_compute; reflexivity].
  - exists (2097152, 4096). split; [| change (template s0) with 2097200; unfold in_block; simpl; lia].
    exact (base_held own wt 1 toy_da Hv Hd).
Qed.

Definition s1 : rworld := match JS_FreezeRuntime 0 (sret tt) s0 with Done (_, s) => s | _ => s0 end.


Definition a1 : aworld := {| a_reqs := {[ 2 := fresh_req (rw_rt s1) JS_ARENA_REQ_MODE_GC ]}; a_cur := 2 |}.

Lemma toy_rinv : exists own, rinv own a1 s1.
Proof.
  destruct toy_unfrozen as [own Hu]. exists own.
  pose proof (freeze_runtime_spec 0 (sret tt) s0 s0 own 2 toy_ra eq_refl Hu ltac:(lia)) as Hs.
  destruct (swp_done _ _ _ Hs) as ([] & s' & H1 & _ & H2 & _).
  assert (E : s1 = s') by (unfold s1; rewrite H1; reflexivity). rewrite E. unfold a1. rewrite E. exact H2.
Qed.

(** Create a bump request, work in the first one, move to the second, reset
    it, try to leave from inside a job, free the first. *)
Definition toy_ops : list rop :=
  [RNew 4096 None JS_ARENA_REQ_MODE_BUMP; REngine (fun st => st_set_random st 42); RHook (HMalloc 100);
   REnter 5; RReset; REngine (fun st => st_set_frame st 1); RLeave; RFree 2].

Definition results {A} (r : run (A * rworld)) : option A := match r with Done (a, _) => Some a | _ => None end.

Lemma toy_run : results (run_rops toy_ops s1) = Some [5; 0; 4194832; 0; 0; 0; -1; 0].
Proof. vm_compute. reflexivity. Qed.

(** Legality, decided. *)
Definition after (o : rop) (s : rworld) : rworld := match do_rop o s with Done (_, s') => s' | _ => s end.
Definition is_live (s : rworld) (r : Z) : bool :=
  match w_ras (rw_arena s) !! r with Some ra => ra_da ra =? dual s | None => false end.
Definition has_entered (s : rworld) : bool :=
  match w_das (rw_arena s) !! dual s with Some da => negb (da_cur da =? 0) | None => false end.

Lemma rops_ok_next s o l : rop_ok s o -> rops_ok (after o s) l -> rops_ok s (o :: l).
Proof. intros Ho Hl. split; [exact Ho |]. intros res s' E. unfold after in Hl. by rewrite E in Hl. Qed.

Lemma live_b s r : is_live s r = true -> exists ra, w_ras (rw_arena s) !! r = Some ra /\ ra_da ra = dual s.
Proof. unfold is_live. destruct (w_ras (rw_arena s) !! r) as [ra |]; [| done]. intros E. exists ra. split; [done | lia]. Qed.

Lemma entered_b s : has_entered s = true -> exists da, w_das (rw_arena s) !! dual s = Some da /\ da_cur da <> 0.
Proof. unfold has_entered. destruct (w_das (rw_arena s) !! dual s) as [da |]; [| done]. intros E. exists da. split; [done | lia]. Qed.

Lemma toy_ops_ok : rops_ok s1 toy_ops.
Proof.
  apply rops_ok_next; [split; [left; lia | done] |].
  apply rops_ok_next; [apply entered_b; vm_compute; reflexivity |].
  apply rops_ok_next; [split; [apply entered_b; vm_compute; reflexivity | unfold hook_ok; lia] |].
  apply rops_ok_next.
  { right. destruct (live_b (after (RHook (HMalloc 100)) (after (REngine (fun st => st_set_random st 42))
      (after (RNew 4096 None JS_ARENA_REQ_MODE_BUMP) s1))) 5) as (ra & Hra & _); [vm_compute; reflexivity |].
    exists ra. exact Hra. }
  apply rops_ok_next; [exact I |].
  apply rops_ok_next; [apply entered_b; vm_compute; reflexivity |].
  apply rops_ok_next; [exact I |].
  apply rops_ok_next; [right; apply live_b; vm_compute; reflexivity | exact I].
Qed.


Lemma seeded_random_replays_witness :
  exists bs s', (JS_SetRandomSeed 7 ;^ JS_FillRandomBytes 13) s1 = Done (bs, s') /\
    bs = take 13 (flat_map (le_bytes 8) (draws 2 7)) /\ lenZ bs = 13.
Proof.
  destruct toy_rinv as [own Hi].
  destruct (seeded_random_replays own a1 s1 7 13 Hi ltac:(discriminate) ltac:(lia) ltac:(lia))
    as (bs & s' & H1 & H2 & H3 & _).
  exists bs, s'. split; [exact H1 |]. split; [exact H2 | exact H3].
Defined.

Lemma toy_counter : interrupt_counter_req (cur_state (rw_rt s1) a1) = 10000.
Proof. vm_compute. reflexivity. Qed.

Lemma toy_handler : interrupt_handler (rw_rt s1) <> 0.
Proof. vm_compute. discriminate. Qed.


Definition toy_da3 : JSDualArena := match w_das (rw_arena s1) !! 3 with Some da => da | None => da1 end.
Definition toy_ra4 : JSRequestArena := match w_ras (rw_arena s1) !! 4 with Some ra => ra | None => ra1 end.

Lemma free_foreign_request_clears_cell_witness :
  (exists s', JS_EnterRequest 4 s1 = Done (-1, s')) /\
  exists s' da', JS_FreeRequest 4 s1 = Done (0, s') /\ w_das (rw_arena s') !! ra_da toy_ra4 = Some da' /\
    da_cur da' = 0 /\ state_cell da' = 0.
Proof.
  destruct toy_rinv as [own Hi].
  apply (free_foreign_request_clears_cell own a1 s1 4 toy_ra4 toy_da3); [exact Hi | | | | |].
  - vm_compute. reflexivity.
  - vm_compute. discriminate.
  - vm_compute. reflexivity.
  - vm_compute. reflexivity.
  - vm_compute. reflexivity.
Defined.
End ToyRequests.
