(* ===== verification/Reactor.v ===== *)
(** * The reactor (qjs-arena-reactor.c)

    The embedder's API: an instance owns a frozen runtime and runs scripts and
    modules in its requests, with sticky clock and random pins, a trace
    emitter, refusal reporting, and a singleton wrapper around one default
    instance.

    The interpreter behind it ([JS_Eval], jobs, promises, property access,
    string conversion) and the heap calls of construction are the operations
    of the class [Engine]; what the reactor does between them is defined here.
    [printf] and [fprintf(stderr, ...)] append to [x_stdout] and [x_stderr].
    The code is that of a build without [ROVE_ARENA]. *)

From stdpp Require Import base list numbers gmap strings pretty.
From Stdlib Require Import ZArith Lia.
From S2P Require Import Prelude Memory ChunkTable BaseRanges Thermometer BumpArena ArenaWorld.
From S2P Require Import RequestArena DualArena StateRun Requests Trace.

#[local] Open Scope st_scope.
#[local] Open Scope Z_scope.

(** ** Data *)

Record ArenaReactor := {
  r_rt : Z;
  r_ctx : Z;
  has_random_seed : bool;
  random_seed : Z;
  has_date_now : bool;
  date_now_ms : Z;
  r_trace : Z;
  entry_module : Z;
  r_frozen : bool
}.

Definition r_set_pins (r : ArenaReactor) (hs : bool) (seed : Z) (hd : bool) (ms : Z) : ArenaReactor :=
  {| r_rt := r_rt r; r_ctx := r_ctx r; has_random_seed := hs; random_seed := seed; has_date_now := hd;
     date_now_ms := ms; r_trace := r_trace r; entry_module := entry_module r; r_frozen := r_frozen r |}.
Definition r_set_entry (r : ArenaReactor) (e : Z) : ArenaReactor :=
  {| r_rt := r_rt r; r_ctx := r_ctx r; has_random_seed := has_random_seed r; random_seed := random_seed r;
     has_date_now := has_date_now r; date_now_ms := date_now_ms r; r_trace := r_trace r; entry_module := e;
     r_frozen := r_frozen r |}.
Definition r_set_built (r : ArenaReactor) (rt ctx : Z) (fz : bool) : ArenaReactor :=
  {| r_rt := rt; r_ctx := ctx; has_random_seed := has_random_seed r; random_seed := random_seed r;
     has_date_now := has_date_now r; date_now_ms := date_now_ms r; r_trace := r_trace r;
     entry_module := entry_module r; r_frozen := fz |}.

Definition ARENA_RC_OK : Z := 0.
Definition ARENA_RC_ERROR : Z := -1.
Definition ARENA_RC_OOM : Z := -2.

Definition JS_EVAL_TYPE_GLOBAL : Z := 0.
Definition JS_EVAL_TYPE_MODULE : Z := 1.
Definition JS_EVAL_FLAG_COMPILE_ONLY : Z := Z.shiftl 1 5.

Inductive JSPromiseStateEnum :=
  | JS_PROMISE_NOT_A_PROMISE
  | JS_PROMISE_PENDING
  | JS_PROMISE_FULFILLED
  | JS_PROMISE_REJECTED.

Definition ARENA_TRACE_STOP_MSG : string := "_arena_trace_stop_".

Section reactor.
Context `{EV : Env} `{MS : Mspace}.

Record xworld := {
  x_req : rworld;
  x_trace : tworld;
  x_reactors : gmap Z ArenaReactor;
  (** [JS_GetRuntimeOpaque(rt)] *)
  x_opaque : Z;
  x_stdout : list string;
  x_stderr : list string;
  g_default : Z;
  g_pending_trace_mode : Z
}.

Definition x_set_req (x : xworld) (s : rworld) : xworld :=
  {| x_req := s; x_trace := x_trace x; x_reactors := x_reactors x; x_opaque := x_opaque x; x_stdout := x_stdout x;
     x_stderr := x_stderr x; g_default := g_default x; g_pending_trace_mode := g_pending_trace_mode x |}.
Definition x_set_trace (x : xworld) (t : tworld) : xworld :=
  {| x_req := x_req x; x_trace := t; x_reactors := x_reactors x; x_opaque := x_opaque x; x_stdout := x_stdout x;
     x_stderr := x_stderr x; g_default := g_default x; g_pending_trace_mode := g_pending_trace_mode x |}.
Definition x_set_reactors (x : xworld) (m : gmap Z ArenaReactor) : xworld :=
  {| x_req := x_req x; x_trace := x_trace x; x_reactors := m; x_opaque := x_opaque x; x_stdout := x_stdout x;
     x_stderr := x_stderr x; g_default := g_default x; g_pending_trace_mode := g_pending_trace_mode x |}.
Definition x_set_opaque (x : xworld) (p : Z) : xworld :=
  {| x_req := x_req x; x_trace := x_trace x; x_reactors := x_reactors x; x_opaque := p; x_stdout := x_stdout x;
     x_stderr := x_stderr x; g_default := g_default x; g_pending_trace_mode := g_pending_trace_mode x |}.
Definition x_print (x : xworld) (out err : list string) : xworld :=
  {| x_req := x_req x; x_trace := x_trace x; x_reactors := x_reactors x; x_opaque := x_opaque x;
     x_stdout := x_stdout x ++ out; x_stderr := x_stderr x ++ err; g_default := g_default x;
     g_pending_trace_mode := g_pending_trace_mode x |}.
Definition x_set_default (x : xworld) (r md : Z) : xworld :=
  {| x_req := x_req x; x_trace := x_trace x; x_reactors := x_reactors x; x_opaque := x_opaque x;
     x_stdout := x_stdout x; x_stderr := x_stderr x; g_default := r; g_pending_trace_mode := md |}.

Abbreviation X := (ST xworld).

Definition on_req {A} (m : ST rworld A) : X A :=
  fun x => let* (a, s) := m (x_req x) in Done (a, x_set_req x s).
Definition on_trace {A} (m : ST tworld A) : X A :=
  fun x => let* (a, t) := m (x_trace x) in Done (a, x_set_trace x t).
Definition print_out (l : list string) : X unit := smod (fun x => x_print x l []).
Definition print_err (l : list string) : X unit := smod (fun x => x_print x [] l).

(** [*r] and a store to it. *)
Definition load_reactor (r : Z) : X ArenaReactor := sderef (fun x => x_reactors x !! r).
Definition mod_reactor (r : Z) (f : ArenaReactor -> ArenaReactor) : X unit :=
  smod (fun x => x_set_reactors x (alter f r (x_reactors x))).

(** ** The engine *)

Class Engine := {
  jsval : Type;
  JS_IsException : jsval -> bool;
  JS_IsUndefined : jsval -> bool;
  JS_IsNull : jsval -> bool;
  JS_IsObject : jsval -> bool;
  JS_VALUE_GET_TAG : jsval -> Z;
  JS_VALUE_GET_PTR : jsval -> Z;
  (** [JS_Eval(ctx, src, strlen(src), filename, flags)] *)
  JS_Eval : Z -> string -> string -> Z -> X jsval;
  JS_EvalFunction : Z -> jsval -> X jsval;
  JS_GetException : Z -> X jsval;
  JS_Throw : Z -> jsval -> X jsval;
  JS_ThrowInternalError : Z -> string -> X jsval;
  JS_GetPropertyStr : Z -> jsval -> string -> X jsval;
  JS_ToCString : Z -> jsval -> X (option string);
  JS_FreeCString : Z -> string -> X unit;
  JS_FreeValue : Z -> jsval -> X unit;
  JS_PromiseState : Z -> jsval -> X JSPromiseStateEnum;
  JS_PromiseResult : Z -> jsval -> X jsval;
  JS_IsJobPending : Z -> X bool;
  (** the result and the context of the job, 0 for NULL *)
  JS_ExecutePendingJob : Z -> X (Z * Z);
  (** construction and teardown *)
  calloc_reactor : X Z;
  free_reactor : Z -> X unit;
  JS_NewRuntimeArena : Z -> Z -> X Z;
  JS_NewContext : Z -> X Z;
  JS_FreeContext : Z -> X unit;
  JS_FreeRuntime : Z -> X unit;
  JS_SetTimezoneUTC : bool -> X unit;
  (** what [JS_ScanSnapshotHazards] counts and the passes before the freeze *)
  snapshot_hazards : xworld -> Z;
  freeze_passes : ST rworld unit
}.

Context `{EN : Engine}.

(** ** Diagnostics *)

Definition tag_name (tag : Z) : string :=
  if tag =? -1 then "OBJECT"
  else if tag =? -7 then "STRING"
  else if tag =? 0 then "INT"
  else if tag =? 8 then "FLOAT64"
  else if tag =? 1 then "BOOL"
  else if tag =? 2 then "NULL"
  else if tag =? 3 then "UNDEFINED"
  else if tag =? 6 then "EXCEPTION"
  else if tag =? 4 then "UNINITIALIZED"
  else if tag =? -8 then "SYMBOL"
  else "OTHER".

(** Release a C string, or the exception its conversion left. *)
Definition drop_cstring (ctx : Z) (s : option string) : X unit :=
  match s with
  | Some s => JS_FreeCString ctx s
  | None => let^ e := JS_GetException ctx in JS_FreeValue ctx e
  end.

Fixpoint diagnose_fields (ctx : Z) (exc : jsval) (fields : list string) : X unit :=
  match fields with
  | [] => sret tt
  | f :: fields =>
      let^ v := JS_GetPropertyStr ctx exc f in
      (if JS_IsException v then
         let^ e := JS_GetException ctx in
         JS_FreeValue ctx e ;^
         print_err [" "; f; "=<get-failed>"]
       else if JS_IsUndefined v || JS_IsNull v then JS_FreeValue ctx v
       else
         let^ s := JS_ToCString ctx v in
         print_err [" "; f; "="; default "<cstring-failed>" s] ;^
         drop_cstring ctx s ;^
         JS_FreeValue ctx v) ;^
      diagnose_fields ctx exc fields
  end.

Definition diagnose_exception (ctx : Z) (exc : jsval) (where_ : string) : X unit :=
  print_err [where_; " exception: tag="; tag_name (JS_VALUE_GET_TAG exc)] ;^
  (if JS_IsObject exc then diagnose_fields ctx exc ["name"; "message"; "stack"] else sret tt) ;^
  let^ s := JS_ToCString ctx exc in
  print_err [" toString="; default "<failed>" s; "
"] ;^
  drop_cstring ctx s.

(** ** Construction *)

Definition pin_utc_timezone : X unit := JS_SetTimezoneUTC true.

(** [*r] as [calloc] and [arena_trace_state_init] leave it. *)
Definition reactor_zero (trace : Z) : ArenaReactor :=
  {| r_rt := 0; r_ctx := 0; has_random_seed := false; random_seed := 0; has_date_now := false; date_now_ms := 0;
     r_trace := trace; entry_module := 0; r_frozen := false |}.

Definition kb_bytes (kb : Z) : Z := (if 0 <? kb then kb else 4096) * 1024.

Definition release (r : Z) : X unit :=
  smod (fun x => x_set_reactors x (delete r (x_reactors x))) ;^ free_reactor r.

(** [setup] is the embedder's hook, [None] for NULL. *)
Definition arena_reactor_new_open_with (base_kb request_kb : Z) (setup : option (Z -> Z -> X Z)) : X Z :=
  pin_utc_timezone ;^
  let^ r := calloc_reactor in
  if r =? 0 then sret 0
  else
    smod (fun x => x_set_reactors x (<[r := reactor_zero r]> (x_reactors x))) ;^
    on_trace (arena_trace_state_init r) ;^
    let^ rt := JS_NewRuntimeArena (kb_bytes base_kb) (kb_bytes request_kb) in
    mod_reactor r (fun a => r_set_built a rt 0 false) ;^
    if rt =? 0 then release r ;^ sret 0
    else
      let^ ctx := JS_NewContext rt in
      mod_reactor r (fun a => r_set_built a rt ctx false) ;^
      if ctx =? 0 then JS_FreeRuntime rt ;^ release r ;^ sret 0
      else
        let^ rc := match setup with Some f => f ctx rt | None => sret 0 end in
        if rc <? 0 then JS_FreeContext ctx ;^ JS_FreeRuntime rt ;^ release r ;^ sret 0
        else
          smod (fun x => x_set_opaque x r) ;^
          on_trace (js_arena_trace_set_state rt r) ;^
          sret r.

(** The default setup installs the replay bindings, then the module loader. *)
Definition default_replay_setup (install_bindings : Z -> X Z) (install_loader : Z -> X unit) (ctx rt : Z) : X Z :=
  let^ rc := install_bindings ctx in
  if rc <? 0 then sret (-1) else install_loader rt ;^ sret 0.

Definition arena_reactor_new_open (base_kb request_kb : Z) (replay_setup : Z -> Z -> X Z) : X Z :=
  arena_reactor_new_open_with base_kb request_kb (Some replay_setup).

(** The drain of [arena_reactor_eval_base], [fuel] jobs at most. *)
Fixpoint eval_base_drain (fuel : nat) (rt : Z) : X Z :=
  match fuel with
  | O => slift Spins
  | S fuel =>
      let^ rc := JS_ExecutePendingJob rt in
      if fst rc =? 0 then sret ARENA_RC_OK
      else if fst rc <? 0 then
        let^ exc := JS_GetException (snd rc) in
        diagnose_exception (snd rc) exc "arena_reactor_eval_base(job)" ;^
        JS_FreeValue (snd rc) exc ;^
        sret ARENA_RC_ERROR
      else eval_base_drain fuel rt
  end.

(** Guards shared by the calls: a NULL instance, or a missing part. *)
Definition with_instance {A} (r : Z) (bad : A) (k : ArenaReactor -> X A) : X A :=
  if r =? 0 then sret bad else let^ a := load_reactor r in k a.

Definition arena_reactor_eval_base (fuel : nat) (r : Z) (src : option string) : X Z :=
  with_instance r ARENA_RC_ERROR (fun a =>
    match src with
    | None => sret ARENA_RC_ERROR
    | Some src =>
        if (r_rt a =? 0) || (r_ctx a =? 0) || r_frozen a then sret ARENA_RC_ERROR
        else
          let^ v := JS_Eval (r_ctx a) src "<arena-base>" JS_EVAL_TYPE_GLOBAL in
          if JS_IsException v then
            let^ exc := JS_GetException (r_ctx a) in
            diagnose_exception (r_ctx a) exc "arena_reactor_eval_base" ;^
            JS_FreeValue (r_ctx a) exc ;^
            JS_FreeValue (r_ctx a) v ;^
            sret ARENA_RC_ERROR
          else JS_FreeValue (r_ctx a) v ;^ eval_base_drain fuel (r_rt a)
    end).

Definition arena_reactor_freeze (r : Z) : X unit :=
  with_instance r tt (fun a =>
    if r_frozen a then sret tt
    else
      let^ hz := sget snapshot_hazards in
      on_req (JS_FreezeRuntime hz freeze_passes) ;^
      mod_reactor r (fun a => r_set_built a (r_rt a) (r_ctx a) true)).

Definition arena_reactor_new (base_kb request_kb : Z) (replay_setup : Z -> Z -> X Z) : X Z :=
  let^ r := arena_reactor_new_open base_kb request_kb replay_setup in
  if r =? 0 then sret 0 else arena_reactor_freeze r ;^ sret r.

Definition arena_reactor_free (r : Z) : X unit :=
  with_instance r tt (fun a =>
    (if r_ctx a =? 0 then sret tt else JS_FreeContext (r_ctx a)) ;^
    (if r_rt a =? 0 then sret tt else JS_FreeRuntime (r_rt a)) ;^
    release r).

(** ** Pins, refusals, jobs *)

Definition arena_reapply_pins (r : Z) : X unit :=
  let^ a := load_reactor r in
  (if has_random_seed a then on_req (JS_SetRandomSeed (random_seed a)) else sret tt) ;^
  if has_date_now a then on_req (JS_SetDateNow (date_now_ms a)) else sret tt.

Definition is_trace_stop (ctx : Z) (exc : jsval) : X bool :=
  let^ mv := JS_GetPropertyStr ctx exc "message" in
  if JS_IsException mv || JS_IsUndefined mv then JS_FreeValue ctx mv ;^ sret false
  else
    let^ msg := JS_ToCString ctx mv in
    JS_FreeValue ctx mv ;^
    match msg with
    | Some msg => JS_FreeCString ctx msg ;^ sret (bool_decide (msg = ARENA_TRACE_STOP_MSG))
    | None => sret false
    end.

(** [is_trace_stop(ctx, exc) || arena_trace_stop_armed(&r->trace)] *)
Definition stop_requested (a : ArenaReactor) (ctx : Z) (exc : jsval) : X bool :=
  let^ m := is_trace_stop ctx exc in
  if m then sret true else on_trace (arena_trace_stop_armed (Some (r_trace a))).

Fixpoint drain_pending_jobs (fuel : nat) (a : ArenaReactor) : X Z :=
  match fuel with
  | O => slift Spins
  | S fuel =>
      let^ p := JS_IsJobPending (r_rt a) in
      if negb p then sret 0
      else
        let^ ret := JS_ExecutePendingJob (r_rt a) in
        if fst ret <? 0 then
          let xc := if snd ret =? 0 then r_ctx a else snd ret in
          let^ exc := JS_GetException xc in
          let^ stop := stop_requested a xc exc in
          if stop then JS_FreeValue xc exc ;^ sret 0
          else
            diagnose_exception xc exc "pending-job" ;^
            JS_FreeValue xc exc ;^
            sret (-1)
        else drain_pending_jobs fuel a
  end.

Fixpoint await_value (fuel : nat) (a : ArenaReactor) (v : jsval) : X jsval :=
  match fuel with
  | O => slift Spins
  | S fuel =>
      let ctx := r_ctx a in
      let^ st := JS_PromiseState ctx v in
      match st with
      | JS_PROMISE_NOT_A_PROMISE => sret v
      | JS_PROMISE_FULFILLED =>
          let^ res := JS_PromiseResult ctx v in
          JS_FreeValue ctx v ;^
          sret res
      | JS_PROMISE_REJECTED =>
          let^ res := JS_PromiseResult ctx v in
          JS_FreeValue ctx v ;^
          JS_Throw ctx res
      | JS_PROMISE_PENDING =>
          let^ p := JS_IsJobPending (r_rt a) in
          if negb p then
            JS_FreeValue ctx v ;^
            JS_ThrowInternalError ctx "module promise pending with no pending jobs to advance it"
          else
            let^ ret := JS_ExecutePendingJob (r_rt a) in
            if fst ret <? 0 then
              let^ exc := JS_GetException (if snd ret =? 0 then ctx else snd ret) in
              JS_FreeValue ctx v ;^
              JS_Throw ctx exc
            else await_value fuel a v
      end
  end.

(** A query of the runtime's dual arena. *)
Definition dual_query {A} (q : Z -> M A) : X A :=
  let^ d := on_req JS_GetDualArena in on_req (on_arena (q d)).

Definition arena_oom_override (a : ArenaReactor) (rc : Z) (where_ : string) : X Z :=
  if r_rt a =? 0 then sret rc
  else
    let^ hit := dual_query js_dual_arena_oom_hit in
    if negb hit then sret rc
    else
      let^ n := dual_query js_dual_arena_oom_requested in
      let^ u := dual_query js_dual_arena_oom_used in
      let^ l := dual_query js_dual_arena_oom_limit in
      print_err [where_; ": request arena exhausted — needed "; pretty n; " B, "; pretty u; " / "; pretty l; " B used
"] ;^
      sret ARENA_RC_OOM.

(** ** Runs *)

(** What a run does before it evaluates: reset the entered request and apply
    the pins to it. *)
Definition begin_run (r : Z) : X unit := on_req JS_ResetRequestArena ;^ arena_reapply_pins r.

(** Print the completion value. *)
Definition print_value (ctx : Z) (v : jsval) : X unit :=
  let^ s := JS_ToCString ctx v in
  match s with
  | Some s => print_out [s; "
"] ;^ JS_FreeCString ctx s
  | None => sret tt
  end ;^
  JS_FreeValue ctx v.

(** The evaluation both script calls share. *)
Definition eval_script (a : ArenaReactor) (src where_ : string) : X Z :=
  let ctx := r_ctx a in
  let^ v := JS_Eval ctx src "<arena>" JS_EVAL_TYPE_GLOBAL in
  if JS_IsException v then
    let^ exc := JS_GetException ctx in
    let^ hit := dual_query js_dual_arena_oom_hit in
    if hit then
      JS_FreeValue ctx exc ;^
      JS_FreeValue ctx v ;^
      arena_oom_override a ARENA_RC_ERROR where_
    else
      diagnose_exception ctx exc where_ ;^
      JS_FreeValue ctx exc ;^
      JS_FreeValue ctx v ;^
      sret ARENA_RC_ERROR
  else
    print_value ctx v ;^
    arena_oom_override a ARENA_RC_OK where_.

Definition arena_run_r (r : Z) (src : option string) : X Z :=
  with_instance r ARENA_RC_ERROR (fun a =>
    match src with
    | None => sret ARENA_RC_ERROR
    | Some src =>
        if (r_rt a =? 0) || (r_ctx a =? 0) then sret ARENA_RC_ERROR
        else
          begin_run r ;^
          eval_script a src "arena_run"
    end).

Definition arena_entry_module : X Z :=
  let^ r := sget x_opaque in
  if r =? 0 then sret 0 else let^ a := load_reactor r in sret (entry_module a).

Definition arena_run_module_r (fuel : nat) (r : Z) (entry_name entry_src : option string) : X Z :=
  with_instance r ARENA_RC_ERROR (fun a =>
    match entry_name, entry_src with
    | Some name, Some src =>
        if (r_rt a =? 0) || (r_ctx a =? 0) then sret ARENA_RC_ERROR
        else
          let ctx := r_ctx a in
          mod_reactor r (fun a => r_set_entry a 0) ;^
          begin_run r ;^
          on_trace (arena_trace_reset (r_trace a)) ;^
          let^ compiled := JS_Eval ctx src name (Z.lor JS_EVAL_TYPE_MODULE JS_EVAL_FLAG_COMPILE_ONLY) in
          if JS_IsException compiled then
            let^ exc := JS_GetException ctx in
            let^ hit := dual_query js_dual_arena_oom_hit in
            if hit then
              JS_FreeValue ctx exc ;^
              arena_oom_override a ARENA_RC_ERROR "arena_run_module(compile)"
            else
              diagnose_exception ctx exc "arena_run_module(compile)" ;^
              JS_FreeValue ctx exc ;^
              sret ARENA_RC_ERROR
          else
            mod_reactor r (fun a => r_set_entry a (JS_VALUE_GET_PTR compiled)) ;^
            let^ v := JS_EvalFunction ctx compiled in
            let^ v := await_value fuel a v in
            if JS_IsException v then
              let^ exc := JS_GetException ctx in
              let^ stop := stop_requested a ctx exc in
              if stop then JS_FreeValue ctx exc ;^ sret ARENA_RC_OK
              else
                let^ hit := dual_query js_dual_arena_oom_hit in
                if hit then
                  JS_FreeValue ctx exc ;^
                  arena_oom_override a ARENA_RC_ERROR "arena_run_module"
                else
                  diagnose_exception ctx exc "arena_run_module" ;^
                  JS_FreeValue ctx exc ;^
                  sret ARENA_RC_ERROR
            else
              JS_FreeValue ctx v ;^
              let^ rc := drain_pending_jobs fuel a in
              arena_oom_override a rc "arena_run_module"
    | _, _ => sret ARENA_RC_ERROR
    end).

(** ** Requests held across host operations *)

Definition req_mode (mode : Z) : JSArenaReqMode :=
  if mode =? 0 then JS_ARENA_REQ_MODE_GC else JS_ARENA_REQ_MODE_BUMP.

Definition arena_request_new_r (r request_kb mode : Z) : X Z :=
  with_instance r 0 (fun a =>
    if (r_rt a =? 0) || (r_ctx a =? 0) then sret 0
    else
      let^ req := on_req (JS_NewRequest (kb_bytes request_kb) None (req_mode mode)) in
      if req =? 0 then sret 0
      else
        let^ prev := on_req JS_CurrentRequest in
        let^ rc := on_req (JS_EnterRequest req) in
        (if rc =? 0 then
           arena_reapply_pins r ;^
           (if prev =? 0 then on_req JS_LeaveRequest else on_req (JS_EnterRequest prev)) ;^
           sret tt
         else sret tt) ;^
        sret req).

Definition rc_of (rc : Z) : Z := if rc =? 0 then ARENA_RC_OK else ARENA_RC_ERROR.

Definition arena_request_enter_r (r req : Z) : X Z :=
  with_instance r ARENA_RC_ERROR (fun a =>
    if (r_rt a =? 0) || (req =? 0) then sret ARENA_RC_ERROR
    else let^ rc := on_req (JS_EnterRequest req) in sret (rc_of rc)).

Definition arena_request_leave_r (r : Z) : X Z :=
  with_instance r ARENA_RC_ERROR (fun a =>
    if r_rt a =? 0 then sret ARENA_RC_ERROR
    else let^ rc := on_req JS_LeaveRequest in sret (rc_of rc)).

Definition arena_request_free_r (r req : Z) : X Z :=
  with_instance r ARENA_RC_ERROR (fun a =>
    if (r_rt a =? 0) || (req =? 0) then sret ARENA_RC_ERROR
    else let^ rc := on_req (JS_FreeRequest req) in sret (rc_of rc)).

Definition arena_request_eval_r (r : Z) (src : option string) : X Z :=
  with_instance r ARENA_RC_ERROR (fun a =>
    match src with
    | None => sret ARENA_RC_ERROR
    | Some src =>
        if (r_rt a =? 0) || (r_ctx a =? 0) then sret ARENA_RC_ERROR
        else
          let^ c := on_req JS_CurrentRequest in
          if c =? 0 then sret ARENA_RC_ERROR else eval_script a src "arena_request_eval"
    end).

Definition arena_request_pump_r (fuel : nat) (r : Z) : X Z :=
  with_instance r ARENA_RC_ERROR (fun a =>
    if r_rt a =? 0 then sret ARENA_RC_ERROR
    else
      let^ c := on_req JS_CurrentRequest in
      if c =? 0 then sret ARENA_RC_ERROR
      else let^ rc := drain_pending_jobs fuel a in arena_oom_override a rc "arena_request_pump").

Definition arena_request_held_r (req : Z) : X Z :=
  if req =? 0 then sret 0 else on_req (on_arena (js_request_arena_held req)).

(** ** Setters *)

Definition set_trace_mode (md : Z) (st : ArenaTraceState) : ArenaTraceState :=
  {| mode := md; bail_armed := bail_armed st; active_ctx := active_ctx st; active_b := active_b st;
     active_pc := active_pc st; last_line_emitted := last_line_emitted st; last_file_atom := last_file_atom st;
     name_table := name_table st; scratch := scratch st |}.

Definition arena_set_trace_mode_r (r md : Z) : X unit :=
  with_instance r tt (fun a => on_trace (st_mod (r_trace a) (set_trace_mode md))).

Definition arena_set_request_mode_r (r mode : Z) : X unit :=
  with_instance r tt (fun a =>
    if r_rt a =? 0 then sret tt
    else dual_query (fun d => js_dual_arena_set_request_mode d (req_mode mode))).

Definition arena_set_random_seed_r (r seed : Z) : X unit :=
  with_instance r tt (fun a =>
    if r_ctx a =? 0 then sret tt
    else
      mod_reactor r (fun a => r_set_pins a true seed (has_date_now a) (date_now_ms a)) ;^
      on_req (JS_SetRandomSeed seed)).

Definition arena_set_date_now_r (r ms : Z) : X unit :=
  with_instance r tt (fun a =>
    if r_ctx a =? 0 then sret tt
    else
      mod_reactor r (fun a => r_set_pins a (has_random_seed a) (random_seed a) true ms) ;^
      on_req (JS_SetDateNow ms)).

(** [JS_SetInterruptHandler] stores in the runtime. *)
Definition arena_set_interrupt_r (r cb : Z) : X unit :=
  with_instance r tt (fun a =>
    if r_rt a =? 0 then sret tt
    else on_req (smod (fun s => rw_set_rt s (rt_set_handler (rw_rt s) cb)))).

(** A query answered 0 without an instance. *)
Definition oom_query (r : Z) (q : Z -> M Z) : X Z :=
  with_instance r 0 (fun a => if r_rt a =? 0 then sret 0 else dual_query q).

Definition arena_oom_hit_r (r : Z) : X Z :=
  with_instance r 0 (fun a =>
    if r_rt a =? 0 then sret 0 else let^ h := dual_query js_dual_arena_oom_hit in sret (b2z h)).
Definition arena_oom_requested_r (r : Z) : X Z := oom_query r js_dual_arena_oom_requested.
Definition arena_oom_used_r (r : Z) : X Z := oom_query r js_dual_arena_oom_used.
Definition arena_oom_limit_r (r : Z) : X Z := oom_query r js_dual_arena_oom_limit.

(** ** The singleton *)

(** A call on the default instance. *)
Definition on_default {A} (f : Z -> X A) : X A := let^ r := sget g_default in f r.

Definition init_with (make : X Z) : X Z :=
  let^ g := sget g_default in
  if negb (g =? 0) then sret (-1)
  else
    let^ r := make in
    smod (fun x => x_set_default x r (g_pending_trace_mode x)) ;^
    if r =? 0 then sret (-1)
    else
      let^ md := sget g_pending_trace_mode in
      arena_set_trace_mode_r r md ;^
      sret 0.

Definition arena_init_default (base_kb request_kb : Z) (replay_setup : Z -> Z -> X Z) : X Z :=
  init_with (arena_reactor_new base_kb request_kb replay_setup).
Definition arena_init_open (base_kb request_kb : Z) (replay_setup : Z -> Z -> X Z) : X Z :=
  init_with (arena_reactor_new_open base_kb request_kb replay_setup).
Definition arena_eval_base (fuel : nat) (src : option string) : X Z :=
  on_default (fun g => arena_reactor_eval_base fuel g src).
Definition arena_freeze : X unit := on_default arena_reactor_freeze.
Definition arena_run (src : option string) : X Z := on_default (fun g => arena_run_r g src).
Definition arena_request_new (request_kb mode : Z) : X Z := on_default (fun g => arena_request_new_r g request_kb mode).
Definition arena_request_enter (req : Z) : X Z := on_default (fun g => arena_request_enter_r g req).
Definition arena_request_leave : X Z := on_default arena_request_leave_r.
Definition arena_request_free (req : Z) : X Z := on_default (fun g => arena_request_free_r g req).
Definition arena_request_eval (src : option string) : X Z := on_default (fun g => arena_request_eval_r g src).
Definition arena_request_pump (fuel : nat) : X Z := on_default (arena_request_pump_r fuel).
Definition arena_run_module (fuel : nat) (entry_name entry_src : option string) : X Z :=
  on_default (fun g => arena_run_module_r fuel g entry_name entry_src).

Definition arena_set_trace_mode (md : Z) : X unit :=
  smod (fun x => x_set_default x (g_default x) md) ;^ on_default (fun g => arena_set_trace_mode_r g md).
Definition arena_set_request_mode (mode : Z) : X unit := on_default (fun g => arena_set_request_mode_r g mode).
Definition arena_set_random_seed (seed_lo seed_hi : Z) : X unit :=
  on_default (fun g => arena_set_random_seed_r g (Z.lor (Z.shiftl seed_hi 32) seed_lo)).
(** The 64 bits read as [int64_t]. *)
Definition arena_set_date_now (lo hi : Z) : X unit :=
  on_default (fun g => arena_set_date_now_r g (let v := Z.lor (Z.shiftl hi 32) lo in
    if v <? 2 ^ 63 then v else v - 2 ^ 64)).

Definition arena_request_held (req : Z) : X Z := arena_request_held_r req.
Definition arena_oom_hit : X Z := on_default arena_oom_hit_r.
Definition arena_oom_requested : X Z := on_default arena_oom_requested_r.
Definition arena_oom_used : X Z := on_default arena_oom_used_r.
Definition arena_oom_limit : X Z := on_default arena_oom_limit_r.

Definition arena_destroy_default : X unit :=
  on_default arena_reactor_free ;^ smod (fun x => x_set_default x 0 (g_pending_trace_mode x)).
End reactor.
