(* ===== verification/ReactorTheorems.v ===== *)
(** * The reactor: the theorems

    What holds of the reactor whatever the interpreter does: runs start from a
    state fixed by the template and the pins, a new request gets the pins, and
    what a run does when no request is entered. *)

From stdpp Require Import base list numbers gmap strings.
From Stdlib Require Import ZArith Lia.
From S2P Require Import Prelude Memory ChunkTable BaseRanges Thermometer BumpArena ArenaWorld.
From S2P Require Import RequestArena ArenaInvariant DualArena ArenaOps ArenaHooks ArenaLifecycle.
From S2P Require Import ArenaSystem ArenaTheorems ArenaWitness StateRun Requests RequestsProofs RequestsTheorems.
From S2P Require Import Trace Reactor.

#[local] Open Scope st_scope.
#[local] Open Scope Z_scope.

Section theorems.
Context `{EV : Env} `{EL : !EnvLaws} `{MS : Mspace} `{ML : !MspaceLaws}.

Lemma swp_req {A} (m : ST rworld A) Q x :
  swp m (fun a s => Q a (x_set_req x s)) (x_req x) -> swp (on_req m) Q x.
Proof. unfold swp, on_req. destruct (m (x_req x)) as [[a s] | |]; done. Qed.

Lemma swp_trace {A} (m : ST tworld A) Q x :
  swp m (fun a t => Q a (x_set_trace x t)) (x_trace x) -> swp (on_trace m) Q x.
Proof. unfold swp, on_trace. destruct (m (x_trace x)) as [[a t] | |]; done. Qed.

Lemma swp_load r rec Q x : x_reactors x !! r = Some rec -> Q rec x -> swp (load_reactor r) Q x.
Proof. intros Hr HQ. by apply (swp_deref _ rec). Qed.

(** ** Where runs start *)

(** The pins an instance puts on a state. *)
Definition pinned (rec : ArenaReactor) (st : JSRequestState) : JSRequestState :=
  let st := if has_random_seed rec then st_set_random st (seed_state (random_seed rec)) else st in
  if has_date_now rec then st_set_date_now st (date_now_ms rec) else st.

(** Pinning the entered request. *)
Lemma set_date_spec own a s ms :
  rinv own a s -> a_cur a <> 0 ->
  swp (JS_SetDateNow ms) (fun _ s' => to own s (a_write a (fun st => st_set_date_now st ms)) s') s.
Proof.
  intros Hi Hz. unfold JS_SetDateNow. swp_step. apply swp_rt_get. rewrite (ri_flag _ _ _ Hi).
  by apply (modify_current_spec own a s (fun st => st_set_date_now st ms)).
Qed.

Lemma set_seed_spec own a s seed :
  rinv own a s -> a_cur a <> 0 ->
  swp (JS_SetRandomSeed seed) (fun _ s' => to own s (a_write a (fun st => st_set_random st (seed_state seed))) s') s.
Proof. intros Hi Hz. by apply (set_random_spec own a s (seed_state seed)). Qed.

Lemma write_cur a f : a_cur (a_write a f) = a_cur a.
Proof. unfold a_write. by destruct (a_reqs a !! a_cur a). Qed.

Lemma to_seq own s a1 s1 own1 a2 s2 :
  rinv own1 a1 s1 -> rt_kept own s own1 s1 -> to own1 s1 a2 s2 -> to own s a2 s2.
Proof.
  intros Hi (K1 & K2 & K3) (own2 & Hi2 & L1 & L2 & L3). exists own2. split; [done |].
  split; [congruence |]. split; [congruence |]. by eapply bases_kept_trans.
Qed.

(** Only the request part of the world moves. *)
Definition req_only (x x' : xworld) : Prop := x' = x_set_req x (x_req x').

Lemma req_only_intro x s : req_only x (x_set_req x s).
Proof. done. Qed.

Lemma req_only_trans x y z : req_only x y -> req_only y z -> req_only x z.
Proof. unfold req_only. intros -> ->. done. Qed.

Lemma req_only_refl x : req_only x x.
Proof. unfold req_only. by destruct x. Qed.

Lemma reapply_spec own a x r rec :
  x_reactors x !! r = Some rec -> rinv own a (x_req x) -> a_cur a <> 0 ->
  swp (arena_reapply_pins r) (fun _ x' => req_only x x' /\ to own (x_req x) (a_write a (pinned rec)) (x_req x')) x.
Proof.
  intros Hr Hi Hz. unfold arena_reapply_pins. swp_step. apply (swp_load _ rec); [done |]. unfold pinned. swp_step.
  assert (Hdate : forall own1 a1 x1, req_only x x1 -> rinv own1 a1 (x_req x1) -> a_cur a1 <> 0 ->
    rt_kept own (x_req x) own1 (x_req x1) ->
    swp (if has_date_now rec then on_req (JS_SetDateNow (date_now_ms rec)) else sret tt) (fun _ x' => req_only x x' /\
      to own (x_req x) (a_write a1 (fun st => if has_date_now rec then st_set_date_now st (date_now_ms rec) else st)) (x_req x')) x1).
  { intros own1 a1 x1 Ho Hi1 Hz1 Hk. destruct (has_date_now rec).
    - apply swp_req. eapply swp_mono; [by apply (set_date_spec own1 a1) |]. intros u s' Hto. simpl.
      split; [by eapply req_only_trans |]. by eapply to_seq.
    - swp_step. split; [done |]. rewrite (write_same (rw_rt (x_req x1))) by done. by exists own1. }
  destruct (has_random_seed rec).
  - apply swp_req. eapply swp_mono; [by apply (set_seed_spec own a) |]. intros u s1 (own1 & Hi1 & Hk1).
    eapply swp_mono; [apply (Hdate own1 _ _ (req_only_intro x s1) Hi1); [by rewrite write_cur | done] |].
    intros u2 x2 [Ho Hto]. split; [done |]. by rewrite write_write in Hto.
  - swp_step. apply (Hdate own a x); try done; [apply req_only_refl |].
    split; [done |]. split; [done | apply bases_kept_refl].
Qed.

(** The state a run of instance [rec] starts from, under regime [md]. *)
Definition start_state (rec : ArenaReactor) (rt : JSRuntime) (md : JSArenaReqMode) : JSRequestState :=
  pinned rec (relocated rt (bool_decide (md = JS_ARENA_REQ_MODE_GC))).

Lemma begin_run_spec own a x r rec q :
  x_reactors x !! r = Some rec -> rinv own a (x_req x) -> a_reqs a !! a_cur a = Some q ->
  swp (begin_run r) (fun _ x' => req_only x x' /\
    to own (x_req x) (a_put a (a_cur a) {| ar_state := start_state rec (rw_rt (x_req x)) (ar_next q); ar_next := ar_next q |})
      (x_req x')) x.
Proof.
  intros Hr Hi Hq. assert (Hz : a_cur a <> 0) by (intros E; rewrite E, (view_null _ _ _ Hi) in Hq; done).
  unfold begin_run. swp_step. apply swp_req. eapply swp_mono; [by apply (reset_request_spec own a) |].
  intros u s1 (own1 & Hi1 & Hk1). unfold a_reset in Hi1. rewrite Hq in Hi1.
  eapply swp_mono; [apply (reapply_spec own1 _ (x_set_req x s1) r rec Hr Hi1); done |].
  intros u2 x2 [Ho Hto]. split; [exact (req_only_trans _ _ _ (req_only_intro x s1) Ho) |]. simpl in Hto.
  unfold a_write, a_put in Hto. simpl in Hto. rewrite lookup_insert_eq in Hto. simpl in Hto. rewrite insert_insert_eq in Hto.
  by eapply to_seq.
Qed.


(** ** New requests *)

Lemma frame_pinned rec st : current_stack_frame (pinned rec st) = current_stack_frame st.
Proof. unfold pinned. by destruct (has_random_seed rec), (has_date_now rec). Qed.

Lemma kb_legal kb : kb < 2 ^ 31 -> cap_legal (kb_bytes kb).
Proof. intros Hk. left. unfold kb_bytes. destruct (Z.ltb_spec 0 kb); lia. Qed.

Lemma a_put_cur a r q : a_reqs a !! r = None -> r <> 0 -> forall rt, (a_cur a <> 0 -> is_Some (a_reqs a !! a_cur a)) ->
  cur_state rt (a_put a r q) = cur_state rt a.
Proof.
  intros Hn Hr0 rt Hl. unfold cur_state, a_put. simpl. rewrite lookup_insert_ne; [done |].
  intros E. destruct (Hl ltac:(congruence)) as [q' Hq']. congruence.
Qed.

(** The pins go onto the new request while it is entered; the caller's request
    is entered again. *)
Lemma pin_new_spec own a x r rec req q :
  x_reactors x !! r = Some rec -> rinv own a (x_req x) -> req <> 0 -> a_cur a <> req ->
  a_reqs a !! req = Some q -> current_stack_frame (ar_state q) = 0 ->
  swp (let^ rc := on_req (JS_EnterRequest req) in
       (if rc =? 0 then
          arena_reapply_pins r ;^
          (if a_cur a =? 0 then on_req JS_LeaveRequest else on_req (JS_EnterRequest (a_cur a))) ;^
          sret tt
        else sret tt))
    (fun _ x' => req_only x x' /\ to own (x_req x)
       (if boundary (rw_rt (x_req x)) a then a_put a req {| ar_state := pinned rec (ar_state q); ar_next := ar_next q |} else a)
       (x_req x')) x.
Proof.
  intros Hr Hi Hr0 Hne Hq Hfr. destruct (live_request own a _ req q Hi Hq) as (da & ra & _ & _ & Hra & _).
  swp_step. apply swp_req. eapply swp_mono; [apply (enter_spec own a _ req Hi); right; by exists ra |].
  unfold a_enter. rewrite Hq. rewrite (bool_decide_eq_true_2 (is_Some (Some q))) by done.
  destruct (Z.eqb_spec req 0); [done |]. simpl negb. simpl andb. rewrite andb_true_r.
  intros rc s1 [-> (own1 & Hi1 & Hk1)]. destruct (boundary (rw_rt (x_req x)) a); simpl fst in *; simpl snd in *.
  2:{ change (-1 =? 0) with false. cbv iota. swp_step. split; [done |]. by exists own1. }
  change (0 =? 0) with true. cbv iota. swp_step.
  eapply swp_mono; [apply (reapply_spec own1 _ (x_set_req x s1) r rec Hr Hi1); done |].
  intros u x2 [Ho (own2 & Hi2 & Hk2)]. unfold a_write in Hi2. simpl in Hi2. rewrite Hq in Hi2.
  pose proof (req_only_trans _ _ _ (req_only_intro x s1) Ho) as Ho'. simpl in Hk2.
  assert (Hk : rt_kept own (x_req x) own2 (x_req x2)).
  { destruct Hk1 as (K1 & K2 & K3), Hk2 as (L1 & L2 & L3). split; [congruence |]. split; [congruence |]. by eapply bases_kept_trans. }
  set (q' := {| ar_state := pinned rec (ar_state q); ar_next := ar_next q |}) in *.
  set (a2 := a_put (a_set_cur a req) req q') in *.
  assert (Hb2 : boundary (rw_rt (x_req x2)) a2 = true).
  { unfold boundary, cur_state, a2, a_put. simpl. rewrite lookup_insert_eq. simpl. rewrite frame_pinned, Hfr. done. }
  assert (Ea : a_set_cur a2 (a_cur a) = a_put a req q') by done. swp_step. destruct (Z.eqb_spec (a_cur a) 0) as [Hz | Hz].
  - apply swp_req. eapply swp_mono; [by apply (leave_spec own2 a2) |]. unfold a_leave. rewrite Hb2. simpl fst. simpl snd.
    intros rc s3 (_ & Hi3 & Hk3 & _). swp_step. split; [eapply req_only_trans; [exact Ho' | done] |].
    eapply to_seq; [exact Hi2 | exact Hk |]. exists own2. rewrite <- Hz, Ea in Hi3. by split.
  - destruct (entered_live own a _ Hi Hz) as [qc Hqc].
    assert (Hlive : is_Some (a_reqs a2 !! a_cur a)) by (unfold a2, a_put; simpl; rewrite lookup_insert_ne by done; by exists qc).
    destruct Hlive as [qd Hqd]. destruct (live_request own2 a2 _ (a_cur a) qd Hi2 Hqd) as (da2 & ra2 & _ & _ & Hra2 & _).
    apply swp_req. eapply swp_mono; [apply (enter_spec own2 a2 _ (a_cur a) Hi2); right; by exists ra2 |].
    unfold a_enter. rewrite Hb2, Hqd. rewrite (bool_decide_eq_true_2 (is_Some (Some qd))) by done.
    destruct (Z.eqb_spec (a_cur a) 0); [done |]. simpl negb. simpl andb. simpl fst. simpl snd.
    intros rc s3 [_ Hto]. swp_step. split; [eapply req_only_trans; [exact Ho' | done] |]. rewrite Ea in Hto.
    eapply to_seq; [exact Hi2 | exact Hk | exact Hto].
Qed.

(** A request created through the reactor.  It is refused with nothing
    changed, or it stands beside the others with the caller's request still
    entered; called between jobs its state is the same [start_state] runs start
    from, but called from inside a job it silently lacks the instance's pins. *)
Theorem new_request_pins own a x r rec request_kb mode :
  x_reactors x !! r = Some rec -> r <> 0 -> r_rt rec <> 0 -> r_ctx rec <> 0 -> rinv own a (x_req x) ->
  request_kb < 2 ^ 31 -> current_stack_frame (req_state (rw_rt (x_req x))) = 0 ->
  let rt := rw_rt (x_req x) in
  let md := req_mode mode in
  exists req x' own' a', arena_request_new_r r request_kb mode x = Done (req, x') /\ rinv own' a' (x_req x') /\
    x' = x_set_req x (x_req x') /\
    ((req = 0 /\ a' = a) \/
     (req <> 0 /\ a_reqs a !! req = None /\
      a' = a_put a req {| ar_state := if boundary rt a then start_state rec rt md
                                      else relocated rt (bool_decide (md = JS_ARENA_REQ_MODE_GC)); ar_next := md |})).
Proof.
  intros Hr Hr0 Hrt Hctx Hi Hkb Hfr rt md.
  cut (swp (arena_request_new_r r request_kb mode) (fun req x' => req_only x x' /\
    ((req = 0 /\ to own (x_req x) a (x_req x')) \/
     (req <> 0 /\ a_reqs a !! req = None /\ to own (x_req x) (a_put a req {| ar_state := if boundary rt a then start_state rec rt md
        else relocated rt (bool_decide (md = JS_ARENA_REQ_MODE_GC)); ar_next := md |}) (x_req x')))) x).
  { intros Hs. destruct (swp_done _ _ _ Hs) as (req & x' & Hrun & Ho & [[-> (own' & Hi' & _)] | (H1 & H2 & own' & Hi' & _)]);
      eexists _, x', own', _; (split; [exact Hrun |]); (split; [exact Hi' |]); (split; [exact Ho |]); [by left | by right]. }
  unfold arena_request_new_r, with_instance. destruct (Z.eqb_spec r 0); [done |]. swp_step. apply (swp_load _ rec); [done |].
  destruct (Z.eqb_spec (r_rt rec) 0); [done |]. destruct (Z.eqb_spec (r_ctx rec) 0); [done |]. simpl orb. cbv iota.
  swp_step. apply swp_req. eapply swp_mono; [by apply (new_request_spec own a); [| apply kb_legal |] |].
  intros req s1 [[-> Hto] | (Hq0 & Hqn & own1 & Hi1 & Hk1)].
  { change (0 =? 0) with true. cbv iota. swp_step. split; [done |]. by left. }
  destruct (Z.eqb_spec req 0); [done |]. fold md in Hi1. set (a1 := a_put a req _) in *. set (x1 := x_set_req x s1).
  swp_step. unfold JS_CurrentRequest. apply swp_req. swp_step. apply swp_rt_get.
  change (x_req x1) with s1. rewrite (ri_flag _ _ _ Hi1).
  eapply swp_mono; [by apply (current_request_spec own1 a1 s1) |]. intros c s2 [-> ->]. change (x_set_req x1 s1) with x1.
  change (a_cur a1) with (a_cur a).
  assert (Hrt1 : rw_rt s1 = rt) by apply Hk1.
  assert (Hbd : boundary (rw_rt s1) a1 = boundary rt a).
  { unfold boundary. rewrite Hrt1. unfold a1. rewrite a_put_cur; try done. intros Hx; by apply (entered_live own a (x_req x)). }
  assert (Hne : a_cur a1 <> req).
  { intros E. simpl in E. destruct (entered_live own a _ Hi ltac:(lia)) as [q Hq]. rewrite E in Hq. congruence. }
  assert (Hnew : a_reqs a1 !! req = Some (fresh_req rt md)) by (unfold a1, a_put; simpl; apply lookup_insert_eq).
  pose proof (pin_new_spec own1 a1 x1 r rec req _ Hr Hi1 Hq0 Hne Hnew Hfr) as Hpin.
  change (a_cur a1) with (a_cur a) in Hpin. change (x_req x1) with s1 in Hpin. rewrite Hbd in Hpin.
  swp_step. destruct (swp_done _ _ _ Hpin) as ([] & x3 & Hrun & Ho3 & Hto3). unfold sbind at 1 in Hrun.
  unfold swp at 1. destruct (on_req (JS_EnterRequest req) x1) as [[rc x2] | |] eqn:Een; try discriminate. simpl in Hrun.
  swp_step. unfold swp at 1. rewrite Hrun. swp_step. split; [exact (req_only_trans _ _ _ (req_only_intro x s1) Ho3) |].
  right. split; [done |]. split; [done |]. eapply to_seq; [exact Hi1 | exact Hk1 |].
  destruct (boundary rt a); [| exact Hto3]. unfold a1, a_put in Hto3 |- *. simpl in Hto3. by rewrite insert_insert_eq in Hto3.
Qed.

(** ** Nothing entered *)

(** With nothing entered, a store through [RT_REQ(rt)] goes to the template. *)
Lemma template_write own a s f :
  rinv own a s -> a_cur a = 0 ->
  swp (let^ st := current_state in set_current_state (f st)) (fun _ s' =>
    s' = rw_set_rt s (rt_set_state (rw_rt s) (f (req_state (rw_rt s)))) /\ rinv own a s') s.
Proof.
  intros Hi Hz. swp_step. eapply swp_mono; [by apply (current_state_spec own a) |]. intros st s' [-> ->].
  unfold set_current_state. swp_step. eapply rt_req_spec; [done |]. intros da Hd Ec Et. rewrite (Et Hz).
  unfold store_state. swp_step. apply swp_rt_get. fold (template s). rewrite Z.eqb_refl. apply swp_mod.
  unfold cur_state. rewrite Hz, (view_null own a s Hi). split; [done |]. destruct Hi as [H1 H2 H3 H4 H5 H6 H7]. by split.
Qed.

Lemma reset_idle own a s : rinv own a s -> a_cur a = 0 -> swp JS_ResetRequestArena (fun _ s' => s' = s) s.
Proof.
  intros Hi Hz. destruct (ri_dual _ _ _ Hi) as (da & Hd & _ & Ec & _). unfold JS_ResetRequestArena, JS_GetDualArena.
  swp_step. apply swp_rt_get. fold (dual s). swp_step. apply swp_arena. unfold js_dual_arena_current_request.
  wp_step. apply (wp_load_da _ da); [done |]. wp_steps. rewrite Ec, Hz. simpl. swp_step. by destruct s.
Qed.

Lemma pin_template own a s rec :
  rinv own a s -> a_cur a = 0 ->
  swp ((if has_random_seed rec then JS_SetRandomSeed (random_seed rec) else sret tt) ;^
       (if has_date_now rec then JS_SetDateNow (date_now_ms rec) else sret tt))
    (fun _ s' => s' = rw_set_rt s (rt_set_state (rw_rt s) (pinned rec (req_state (rw_rt s)))) /\ rinv own a s') s.
Proof.
  intros Hi Hz. unfold pinned. swp_step.
  assert (Hdate : forall s1 st, s1 = rw_set_rt s (rt_set_state (rw_rt s) st) -> rinv own a s1 ->
    swp (if has_date_now rec then JS_SetDateNow (date_now_ms rec) else sret tt) (fun _ s' =>
      s' = rw_set_rt s (rt_set_state (rw_rt s) (if has_date_now rec then st_set_date_now st (date_now_ms rec) else st)) /\
      rinv own a s') s1).
  { intros s1 st -> Hi1. destruct (has_date_now rec); [| by swp_step]. unfold JS_SetDateNow. swp_step. apply swp_rt_get.
    rewrite (ri_flag _ _ _ Hi1). eapply swp_mono; [by apply (template_write own a _ (fun st => st_set_date_now st (date_now_ms rec))) |].
    intros u s' [-> Hi']. by split. }
  destruct (has_random_seed rec).
  - unfold JS_SetRandomSeed at 1, set_random_state_active. swp_step. apply swp_rt_get. rewrite (ri_flag _ _ _ Hi).
    fold (seed_state (random_seed rec)). eapply swp_mono; [by apply (template_write own a s (fun st => st_set_random st (seed_state (random_seed rec)))) |].
    intros u s' [-> Hi']. by apply Hdate.
  - swp_step. apply (Hdate s (req_state (rw_rt s))); [| done]. destruct s as [w rt c m]. by destruct rt.
Qed.

(** A run with no request entered, as after [arena_request_leave_r],
    resets nothing; its pins are stored into the template, which is part of the
    base-resident runtime struct, and every allocation of the evaluation that
    follows returns NULL without being recorded as a refusal, so the run can
    only report a JavaScript error. *)
Theorem run_unentered_writes_template own a x r rec :
  x_reactors x !! r = Some rec -> rinv own a (x_req x) -> a_cur a = 0 ->
  exists x', begin_run r x = Done (tt, x') /\
    x_req x' = rw_set_rt (x_req x) (rt_set_state (rw_rt (x_req x)) (pinned rec (req_state (rw_rt (x_req x))))) /\
    (forall size, jda_malloc (dual (x_req x)) size (rw_arena (x_req x')) = Done (0, rw_arena (x_req x'))) /\
    js_dual_arena_oom_hit (dual (x_req x)) (rw_arena (x_req x')) = Done (false, rw_arena (x_req x')).
Proof.
  intros Hr Hi Hz.
  assert (Hs : swp (begin_run r) (fun _ x' => x_req x' =
    rw_set_rt (x_req x) (rt_set_state (rw_rt (x_req x)) (pinned rec (req_state (rw_rt (x_req x)))))) x).
  { unfold begin_run. swp_step. apply swp_req. eapply swp_mono; [by apply (reset_idle own a) |]. intros u s' ->.
    replace (x_set_req x (x_req x)) with x by (by destruct x). unfold arena_reapply_pins. swp_step.
    apply (swp_load _ rec); [done |]. pose proof (pin_template own a (x_req x) rec Hi Hz) as Hp.
    unfold swp, sbind in Hp |- *. destruct (has_random_seed rec).
    - unfold on_req at 1. destruct (JS_SetRandomSeed (random_seed rec) (x_req x)) as [[u1 s1] | |]; [| done | done]. simpl in *.
      destruct (has_date_now rec).
      + unfold on_req. simpl. destruct (JS_SetDateNow (date_now_ms rec) s1) as [[u2 s2] | |]; [| done | done]. simpl. apply Hp.
      + simpl in *. apply Hp.
    - simpl in *. destruct (has_date_now rec).
      + unfold on_req. destruct (JS_SetDateNow (date_now_ms rec) (x_req x)) as [[u2 s2] | |]; [| done | done]. simpl. apply Hp.
      + simpl in *. apply Hp. }
  destruct (swp_done _ _ _ Hs) as ([] & x' & Hrun & E). exists x'. split; [done |]. split; [done |]. rewrite E. simpl.
  destruct (ri_dual _ _ _ Hi) as (da & Hd & Hm & Ec & _). rewrite Hz in Ec. split.
  - intros size. unfold jda_malloc, mbind, load_da. by rewrite Hd; simpl; rewrite Hm, Ec.
  - unfold js_dual_arena_oom_hit, on_current, mbind, load_da. by rewrite Hd; simpl; rewrite Ec.
Qed.
End theorems.
