(* ===== verification/ReactorRuns.v ===== *)
(** * The reactor: result codes and termination of runs

    [EngineLaws]: in an entered request the interpreter's calls return and
    leave the request entered.  [FiniteJobs]: the job queue runs dry.  Against
    these interfaces, script runs return a code that tells a refused
    allocation, and module runs return. *)

From stdpp Require Import base list numbers gmap strings.
From Stdlib Require Import ZArith Lia.
From S2P Require Import Prelude Memory ChunkTable BaseRanges Thermometer BumpArena ArenaWorld.
From S2P Require Import RequestArena ArenaInvariant DualArena ArenaOps ArenaHooks ArenaLifecycle.
From S2P Require Import ArenaSystem ArenaTheorems ArenaWitness StateRun Requests RequestsProofs RequestsTheorems.
From S2P Require Import Trace Reactor ReactorTheorems.

#[local] Open Scope st_scope.
#[local] Open Scope Z_scope.

(** ** Computations with enough fuel *)

Section eventually.
Context {S : Type}.

(** With enough fuel [m] returns, always the same, and returns into [Q]. *)
Definition ev {A} (m : nat -> ST S A) (Q : A -> S -> Prop) (s : S) : Prop :=
  exists n0 a s', (forall n, (n0 <= n)%nat -> m n s = Done (a, s')) /\ Q a s'.

Lemma ev_swp {A} (m : ST S A) Q s : swp m Q s -> ev (fun _ => m) Q s.
Proof. intros Hs. destruct (swp_done _ _ _ Hs) as (a & s' & H1 & H2). by exists 0%nat, a, s'. Qed.

Lemma ev_bind {A B} (m : nat -> ST S A) (f : nat -> A -> ST S B) P Q s :
  ev m P s -> (forall a s', P a s' -> ev (fun n => f n a) Q s') -> ev (fun n => sbind (m n) (f n)) Q s.
Proof.
  intros (n1 & a & s1 & H1 & HP) Hf. destruct (Hf a s1 HP) as (n2 & b & s2 & H2 & HQ).
  exists (Nat.max n1 n2), b, s2. split; [| done]. intros n Hn. unfold sbind. rewrite H1 by lia. simpl. apply H2. lia.
Qed.

Lemma ev_mono {A} (m : nat -> ST S A) (P Q : A -> S -> Prop) s :
  ev m P s -> (forall a s', P a s' -> Q a s') -> ev m Q s.
Proof. intros (n & a & s' & H1 & H2) H. exists n, a, s'. auto. Qed.
End eventually.

Section laws.
Context `{EV : Env} `{EL : !EnvLaws} `{MS : Mspace} `{ML : !MspaceLaws}.

(** Request [cur] is entered and trace state [st] lives. *)
Definition running (cur st : Z) (x : xworld) : Prop :=
  (exists own a, rinv own a (x_req x) /\ a_cur a = cur) /\ is_Some (traces (x_trace x) !! st).

Definition stable {A} (m : ST xworld A) : Prop :=
  forall cur st x, cur <> 0 -> running cur st x -> swp m (fun _ x' => running cur st x') x.

Class EngineLaws `{EN : !Engine} := {
  law_eval ctx src name flags : stable (JS_Eval ctx src name flags);
  law_eval_function ctx v : stable (JS_EvalFunction ctx v);
  law_get_exception ctx : stable (JS_GetException ctx);
  law_throw ctx v : stable (JS_Throw ctx v);
  law_throw_internal ctx msg : stable (JS_ThrowInternalError ctx msg);
  law_get_property ctx v f : stable (JS_GetPropertyStr ctx v f);
  law_to_cstring ctx v : stable (JS_ToCString ctx v);
  law_free_cstring ctx s : stable (JS_FreeCString ctx s);
  law_free_value ctx v : stable (JS_FreeValue ctx v);
  law_promise_state ctx v : stable (JS_PromiseState ctx v);
  law_promise_result ctx v : stable (JS_PromiseResult ctx v);
  law_job_pending rt : stable (JS_IsJobPending rt);
  law_execute rt : stable (JS_ExecutePendingJob rt)
}.

(** A measure of the jobs still to run: asking for a promise's state or for
    pending jobs adds none, a pending job is in it, running one lowers it. *)
Class FiniteJobs `{EN : !Engine} := {
  jobs_left : xworld -> nat;
  law_state_jobs ctx v x : swp (JS_PromiseState ctx v) (fun _ x' => (jobs_left x' <= jobs_left x)%nat) x;
  law_pending_jobs rt x :
    swp (JS_IsJobPending rt) (fun p x' => (jobs_left x' <= jobs_left x)%nat /\ (p = true -> (0 < jobs_left x')%nat)) x;
  law_execute_jobs rt x : (0 < jobs_left x)%nat ->
    swp (JS_ExecutePendingJob rt) (fun _ x' => (jobs_left x' < jobs_left x)%nat) x
}.

(** ** Composing stable code *)

Lemma stable_ret {A} (a : A) : stable (sret a).
Proof. intros cur st x _ Hx. by apply swp_ret. Qed.

Lemma stable_bind {A B} (m : ST xworld A) (f : A -> ST xworld B) :
  stable m -> (forall a, stable (f a)) -> stable (sbind m f).
Proof.
  intros Hm Hf cur st x Hc Hx. swp_step. eapply swp_mono; [by apply (Hm cur st) |]. intros a x' Hx'. by apply (Hf a cur st).
Qed.

Lemma stable_print_err l : stable (print_err l).
Proof. intros cur st x _ Hx. apply swp_mod. exact Hx. Qed.

Lemma stable_print_out l : stable (print_out l).
Proof. intros cur st x _ Hx. apply swp_mod. exact Hx. Qed.
End laws.

Create HintDb stable.
#[export] Hint Resolve stable_ret stable_bind stable_print_err stable_print_out : stable.
#[export] Hint Resolve law_eval law_eval_function law_get_exception law_throw law_throw_internal law_get_property
  law_to_cstring law_free_cstring law_free_value law_promise_state law_promise_result law_job_pending law_execute : stable.

(** Prove [stable] of code built from stable calls. *)
Ltac stable_tac :=
  repeat match goal with
  | |- stable (sbind _ _) => apply stable_bind; [| intros ?]
  | |- stable (if ?b then _ else _) => destruct b
  | |- stable (match ?o with Some _ => _ | None => _ end) => destruct o
  | |- _ => solve [eauto with stable]
  end.

Section runs.
Context `{EV : Env} `{EL : !EnvLaws} `{MS : Mspace} `{ML : !MspaceLaws}.
Context `{EN : !Engine} `{EG : !EngineLaws}.

Lemma stable_drop_cstring ctx s : stable (drop_cstring ctx s).
Proof. unfold drop_cstring. stable_tac. Qed.
#[local] Hint Resolve stable_drop_cstring : stable.

Lemma stable_fields ctx exc l : stable (diagnose_fields ctx exc l).
Proof. induction l as [| f l IH]; simpl; stable_tac. Qed.
#[local] Hint Resolve stable_fields : stable.

Lemma stable_diagnose ctx exc w : stable (diagnose_exception ctx exc w).
Proof. unfold diagnose_exception. stable_tac. Qed.
#[local] Hint Resolve stable_diagnose : stable.

Lemma stable_trace_stop ctx exc : stable (is_trace_stop ctx exc).
Proof. unfold is_trace_stop. stable_tac. Qed.

Lemma stable_print_value ctx v : stable (print_value ctx v).
Proof. unfold print_value. stable_tac. Qed.
#[local] Hint Resolve stable_trace_stop stable_print_value : stable.

Lemma stop_requested_runs rec ctx exc cur x :
  cur <> 0 -> running cur (r_trace rec) x ->
  swp (stop_requested rec ctx exc) (fun _ x' => running cur (r_trace rec) x') x.
Proof.
  intros Hc Hx. unfold stop_requested. swp_step. eapply swp_mono; [by apply (stable_trace_stop ctx exc cur (r_trace rec)) |].
  intros b x1 Hx1. destruct b; [by swp_step |]. apply swp_trace. unfold arena_trace_stop_armed, st_get. swp_step.
  destruct (proj2 Hx1) as [t Ht]. apply (swp_deref _ t); [done |]. swp_step. by destruct x1.
Qed.

(** ** Refusals *)

(** The refusal record of the entered request. *)
Definition oom_flag (x : xworld) : bool :=
  match w_das (rw_arena (x_req x)) !! dual (x_req x) with
  | Some da => match w_ras (rw_arena (x_req x)) !! da_cur da with Some ra => hit (oom ra) | None => false end
  | None => false
  end.

(** A query of the entered arena changes nothing. *)
Lemma dual_query_spec {A} (dflt : A) (f : Z -> M A) (g : JSRequestArena -> A) cur st x :
  (forall r ra w, w_ras w !! r = Some ra -> f r w = Done (g ra, w)) -> cur <> 0 -> running cur st x ->
  swp (dual_query (fun d => on_current d dflt f)) (fun v x' => x' = x /\
    exists ra da, w_das (rw_arena (x_req x)) !! dual (x_req x) = Some da /\
      w_ras (rw_arena (x_req x)) !! da_cur da = Some ra /\ v = g ra) x.
Proof.
  intros Hf Hc [(own & a & Hi & Ec) _]. destruct (entered own a _ Hi ltac:(congruence)) as (da & ra & q & X1 & _ & X3 & X4 & _).
  unfold dual_query, JS_GetDualArena. swp_step. apply swp_req, swp_rt_get. fold (dual (x_req x)).
  replace (x_set_req x (x_req x)) with x by (by destruct x). apply swp_req, swp_arena. unfold on_current.
  wp_step. apply (wp_load_da _ da); [done |]. destruct (Z.eqb_spec (da_cur da) 0); [congruence |]. unfold wp.
  rewrite <- X3 in X4. rewrite (Hf _ ra _ X4). split; [by destruct x as [[] ? ? ? ? ? ? ?] |]. by exists ra, da.
Qed.

Lemma oom_hit_spec cur st x :
  cur <> 0 -> running cur st x -> swp (dual_query js_dual_arena_oom_hit) (fun b x' => b = oom_flag x /\ x' = x) x.
Proof.
  intros Hc Hx. eapply swp_mono.
  { apply (dual_query_spec false js_request_arena_oom_hit (fun ra => hit (oom ra)) cur st x); [| done | done].
    intros r ra w Hr. unfold js_request_arena_oom_hit, mbind, load_ra. by rewrite Hr. }
  intros b x' (-> & ra & da & H1 & H2 & ->). split; [| done]. unfold oom_flag. by rewrite H1, H2.
Qed.

Lemma oom_numbers cur st x :
  cur <> 0 -> running cur st x ->
  swp (dual_query js_dual_arena_oom_requested) (fun _ x' => x' = x) x /\
  swp (dual_query js_dual_arena_oom_used) (fun _ x' => x' = x) x /\
  swp (dual_query js_dual_arena_oom_limit) (fun _ x' => x' = x) x.
Proof.
  intros Hc Hx. split; [| split].
  - eapply swp_mono; [apply (dual_query_spec 0 js_request_arena_oom_requested (fun ra => requested (oom ra)) cur st x);
      [| done | done]; intros r ra w Hr; unfold js_request_arena_oom_requested, mbind, load_ra; by rewrite Hr |]. by intros v x' [-> _].
  - eapply swp_mono; [apply (dual_query_spec 0 js_request_arena_oom_used (fun ra => oom_used (oom ra)) cur st x);
      [| done | done]; intros r ra w Hr; unfold js_request_arena_oom_used, mbind, load_ra; by rewrite Hr |]. by intros v x' [-> _].
  - eapply swp_mono; [apply (dual_query_spec 0 js_request_arena_oom_limit (fun ra => limit (oom ra)) cur st x);
      [| done | done]; intros r ra w Hr; unfold js_request_arena_oom_limit, mbind, load_ra; by rewrite Hr |]. by intros v x' [-> _].
Qed.

(** The conservative policy: a run that was refused memory reports that. *)
Lemma override_spec rec rc w cur st x :
  r_rt rec <> 0 -> cur <> 0 -> running cur st x ->
  swp (arena_oom_override rec rc w) (fun rc' x' => running cur st x' /\ oom_flag x' = oom_flag x /\
    rc' = if oom_flag x then ARENA_RC_OOM else rc) x.
Proof.
  intros Hrt Hc Hx. unfold arena_oom_override. destruct (Z.eqb_spec (r_rt rec) 0); [done |]. swp_step.
  eapply swp_mono; [by apply (oom_hit_spec cur st) |]. intros b x' [-> ->]. destruct (oom_flag x) eqn:E; simpl.
  - destruct (oom_numbers cur st x Hc Hx) as (N1 & N2 & N3).
    swp_step. eapply swp_mono; [exact N1 |]. intros n1 x' ->. swp_step. eapply swp_mono; [exact N2 |]. intros n2 x' ->.
    swp_step. eapply swp_mono; [exact N3 |]. intros n3 x' ->. swp_step. apply swp_mod. swp_step. done.
  - swp_step. done.
Qed.

(** What a result code of a run says. *)
Definition code_ok (rc : Z) (x' : xworld) : Prop :=
  (rc = ARENA_RC_OK /\ oom_flag x' = false) \/ rc = ARENA_RC_ERROR \/ (rc = ARENA_RC_OOM /\ oom_flag x' = true).

Lemma eval_script_spec rec src w cur st x :
  r_rt rec <> 0 -> cur <> 0 -> running cur st x ->
  swp (eval_script rec src w) (fun rc x' => running cur st x' /\ code_ok rc x') x.
Proof.
  intros Hrt Hc Hx. unfold eval_script. swp_step. eapply swp_mono; [by apply (law_eval _ _ _ _ cur st) |]. intros v x1 H1.
  destruct (JS_IsException v).
  - swp_step. eapply swp_mono; [by apply (law_get_exception _ cur st) |]. intros exc x2 H2.
    swp_step. eapply swp_mono; [by apply (oom_hit_spec cur st) |]. intros b x' [-> ->]. destruct (oom_flag x2) eqn:E2.
    + swp_step. eapply swp_mono; [by apply (law_free_value _ _ cur st) |]. intros ? x3 H3.
      swp_step. eapply swp_mono; [by apply (law_free_value _ _ cur st) |]. intros ? x4 H4.
      eapply swp_mono; [by apply (override_spec rec _ w cur st) |]. intros rc x5 (H5 & E5 & ->). split; [done |].
      rewrite <- E5. destruct (oom_flag x5) eqn:E; [by right; right | by right; left].
    + swp_step. eapply swp_mono; [by apply (stable_diagnose _ _ _ cur st) |]. intros ? x3 H3.
      swp_step. eapply swp_mono; [by apply (law_free_value _ _ cur st) |]. intros ? x4 H4.
      swp_step. eapply swp_mono; [by apply (law_free_value _ _ cur st) |]. intros ? x5 H5. swp_step.
      split; [done | by right; left].
  - swp_step. eapply swp_mono; [by apply (stable_print_value _ _ cur st) |]. intros ? x2 H2.
    eapply swp_mono; [by apply (override_spec rec _ w cur st) |]. intros rc x3 (H3 & E3 & ->). split; [done |].
    rewrite <- E3. destruct (oom_flag x3) eqn:E; [by right; right | by left].
Qed.

Lemma begin_running own a x r rec q st :
  x_reactors x !! r = Some rec -> rinv own a (x_req x) -> a_reqs a !! a_cur a = Some q ->
  is_Some (traces (x_trace x) !! st) -> swp (begin_run r) (fun _ x' => running (a_cur a) st x') x.
Proof.
  intros Hr Hi Hq Ht. eapply swp_mono; [by apply (begin_run_spec own a x r rec q) |].
  intros u x' [Ho (own' & Hi' & _)]. split; [by eexists own', _ |]. unfold req_only in Ho. rewrite Ho. done.
Qed.


(** ** Jobs *)

Context `{FJ : !FiniteJobs}.

Lemma swp_and {S A} (m : ST S A) P Q (s : S) : swp m P s -> swp m Q s -> swp m (fun a s' => P a s' /\ Q a s') s.
Proof. unfold swp. by destruct (m s) as [[a s'] | |]. Qed.

(** One round of either loop leaves fewer jobs. *)
Lemma job_round rt cur st x :
  cur <> 0 -> running cur st x ->
  swp (JS_IsJobPending rt) (fun p x1 => running cur st x1 /\ (jobs_left x1 <= jobs_left x)%nat /\
    (p = true -> swp (JS_ExecutePendingJob rt) (fun _ x2 => running cur st x2 /\ (jobs_left x2 < jobs_left x)%nat) x1)) x.
Proof.
  intros Hc Hx. eapply swp_mono; [apply swp_and; [by apply (law_job_pending rt cur st) | apply law_pending_jobs] |].
  intros p x1 (H1 & Hle & Hp). split; [done |]. split; [done |]. intros ->. specialize (Hp eq_refl).
  eapply swp_mono; [apply swp_and; [by apply (law_execute rt cur st) | by apply law_execute_jobs] |].
  intros ret x2 [H2 Hlt]. split; [done | lia].
Qed.

Lemma drain_returns rec n cur x :
  cur <> 0 -> running cur (r_trace rec) x -> (jobs_left x <= n)%nat ->
  ev (fun fuel => drain_pending_jobs fuel rec) (fun rc x' => running cur (r_trace rec) x' /\ (rc = 0 \/ rc = -1)) x.
Proof.
  revert x. induction n as [n IH] using lt_wf_ind. intros x Hc Hx Hn.
  destruct (swp_done _ _ _ (job_round (r_rt rec) cur (r_trace rec) x Hc Hx)) as (p & x1 & Hp & H1 & Hle & Hex).
  destruct p; [destruct (swp_done _ _ _ (Hex eq_refl)) as (ret & x2 & He & H2 & Hlt) |].
  - destruct (Z.ltb_spec (fst ret) 0) as [Hneg | Hpos].
    + set (xc := if snd ret =? 0 then r_ctx rec else snd ret).
      assert (Hs : swp (let^ exc := JS_GetException xc in let^ stop := stop_requested rec xc exc in
        if stop then JS_FreeValue xc exc ;^ sret 0
        else diagnose_exception xc exc "pending-job" ;^ JS_FreeValue xc exc ;^ sret (-1))
        (fun rc x' => running cur (r_trace rec) x' /\ (rc = 0 \/ rc = -1)) x2).
      { swp_step. eapply swp_mono; [by apply (law_get_exception _ cur (r_trace rec)) |]. intros exc x3 H3.
        swp_step. eapply swp_mono; [by apply (stop_requested_runs rec) |]. intros stop x4 H4. destruct stop; swp_step.
        - eapply swp_mono; [by apply (law_free_value _ _ cur (r_trace rec)) |]. intros ? x5 H5. swp_step. auto.
        - eapply swp_mono; [by apply (stable_diagnose _ _ _ cur (r_trace rec)) |]. intros ? x5 H5. swp_step.
          eapply swp_mono; [by apply (law_free_value _ _ cur (r_trace rec)) |]. intros ? x6 H6. swp_step. auto. }
      destruct (swp_done _ _ _ Hs) as (rc & x' & Hrun & HQ). exists 1%nat, rc, x'. split; [| done].
      intros [| f] Hf; [lia |]. simpl drain_pending_jobs. unfold sbind at 1. rewrite Hp. simpl. unfold sbind at 1. rewrite He. simpl.
      destruct (Z.ltb_spec (fst ret) 0); [| lia]. exact Hrun.
    + destruct (IH (jobs_left x2) ltac:(lia) x2 Hc H2 ltac:(lia)) as (n0 & rc & x' & Hrun & HQ).
      exists (S n0), rc, x'. split; [| done]. intros [| f] Hf; [lia |]. simpl drain_pending_jobs.
      unfold sbind at 1. rewrite Hp. simpl. unfold sbind at 1. rewrite He. simpl.
      destruct (Z.ltb_spec (fst ret) 0); [lia |]. apply Hrun. lia.
  - exists 1%nat, 0, x1. split; [| auto]. intros [| f] Hf; [lia |]. simpl drain_pending_jobs.
    unfold sbind at 1. by rewrite Hp.
Qed.

Lemma await_returns rec v n cur x :
  cur <> 0 -> running cur (r_trace rec) x -> (jobs_left x <= n)%nat ->
  ev (fun fuel => await_value fuel rec v) (fun _ x' => running cur (r_trace rec) x') x.
Proof.
  revert x. induction n as [n IH] using lt_wf_ind. intros x Hc Hx Hn.
  assert (Hps : swp (JS_PromiseState (r_ctx rec) v) (fun _ x' => running cur (r_trace rec) x' /\ (jobs_left x' <= jobs_left x)%nat) x)
    by (apply swp_and; [by apply (law_promise_state _ _ cur (r_trace rec)) | apply law_state_jobs]).
  destruct (swp_done _ _ _ Hps) as (pst & x0 & Hs0 & H0 & Hle0).
  assert (Hone : forall m : ST xworld jsval, stable m ->
    (forall f, await_value (S f) rec v x = m x0) -> ev (fun fuel => await_value fuel rec v) (fun _ x' => running cur (r_trace rec) x') x).
  { intros m Hm Heq. destruct (swp_done _ _ _ (Hm cur (r_trace rec) x0 Hc H0)) as (res & x' & Hrun & HQ).
    exists 1%nat, res, x'. split; [| done]. intros [| f] Hf; [lia |]. by rewrite Heq. }
  destruct pst.
  - apply (Hone (sret v)); [apply stable_ret |]. intros f. simpl await_value. unfold sbind at 1. by rewrite Hs0.
  - destruct (swp_done _ _ _ (job_round (r_rt rec) cur (r_trace rec) x0 Hc H0)) as (p & x1 & Hp & H1 & Hle & Hex).
    destruct p; [destruct (swp_done _ _ _ (Hex eq_refl)) as (ret & x2 & He & H2 & Hlt) |].
    + destruct (Z.ltb_spec (fst ret) 0) as [Hneg | Hpos].
      * set (xc := if snd ret =? 0 then r_ctx rec else snd ret).
        assert (Hm : stable (let^ exc := JS_GetException xc in JS_FreeValue (r_ctx rec) v ;^ JS_Throw (r_ctx rec) exc)) by stable_tac.
        destruct (swp_done _ _ _ (Hm cur (r_trace rec) x2 Hc H2)) as (res & x' & Hrun & HQ).
        exists 1%nat, res, x'. split; [| done]. intros [| f] Hf; [lia |]. simpl await_value. unfold sbind at 1. rewrite Hs0. simpl.
        unfold sbind at 1. rewrite Hp. simpl. unfold sbind at 1. rewrite He. simpl. destruct (Z.ltb_spec (fst ret) 0); [| lia]. exact Hrun.
      * destruct (IH (jobs_left x2) ltac:(lia) x2 Hc H2 ltac:(lia)) as (n0 & rc & x' & Hrun & HQ).
        exists (S n0), rc, x'. split; [| done]. intros [| f] Hf; [lia |]. simpl await_value. unfold sbind at 1. rewrite Hs0. simpl.
        unfold sbind at 1. rewrite Hp. simpl. unfold sbind at 1. rewrite He. simpl. destruct (Z.ltb_spec (fst ret) 0); [lia |]. apply Hrun. lia.
    + assert (Hm : stable (JS_FreeValue (r_ctx rec) v ;^
        JS_ThrowInternalError (r_ctx rec) "module promise pending with no pending jobs to advance it")) by stable_tac.
      destruct (swp_done _ _ _ (Hm cur (r_trace rec) x1 Hc H1)) as (res & x' & Hrun & HQ).
      exists 1%nat, res, x'. split; [| done]. intros [| f] Hf; [lia |]. simpl await_value. unfold sbind at 1. rewrite Hs0. simpl.
      unfold sbind at 1. rewrite Hp. simpl. exact Hrun.
  - apply (Hone (let^ res := JS_PromiseResult (r_ctx rec) v in JS_FreeValue (r_ctx rec) v ;^ sret res)); [stable_tac |].
    intros f. simpl await_value. unfold sbind at 1. by rewrite Hs0.
  - apply (Hone (let^ res := JS_PromiseResult (r_ctx rec) v in JS_FreeValue (r_ctx rec) v ;^ JS_Throw (r_ctx rec) res)); [stable_tac |].
    intros f. simpl await_value. unfold sbind at 1. by rewrite Hs0.
Qed.

Lemma stable_mod_reactor r f : stable (mod_reactor r f).
Proof. intros cur st x _ Hx. by apply swp_mod. Qed.

Lemma stable_trace_reset t : stable (on_trace (arena_trace_reset t)).
Proof.
  intros cur st x _ [H1 H2]. apply swp_trace. unfold arena_trace_reset, st_mod. apply swp_mod. split; [exact H1 |]. simpl.
  destruct (decide (t = st)) as [-> | Hne]; [rewrite lookup_alter_eq; by apply fmap_is_Some |]. by rewrite lookup_alter_ne.
Qed.

(** The host asked to stop: the exception carries the sentinel message or the
    instance's trace state is armed. *)
Definition host_stopped (rec : ArenaReactor) : Prop :=
  exists ctx exc x1 x2, stop_requested rec ctx exc x1 = Done (true, x2).

Definition module_code (rec : ArenaReactor) (rc : Z) (x' : xworld) : Prop :=
  code_ok rc x' \/ (rc = ARENA_RC_OK /\ host_stopped rec).

(** After the evaluation: classify a throw. *)
Lemma module_threw rec ctx cur x :
  r_rt rec <> 0 -> cur <> 0 -> running cur (r_trace rec) x ->
  swp (let^ exc := JS_GetException ctx in
       let^ stop := stop_requested rec ctx exc in
       if stop then JS_FreeValue ctx exc ;^ sret ARENA_RC_OK
       else
         let^ hit := dual_query js_dual_arena_oom_hit in
         if hit then JS_FreeValue ctx exc ;^ arena_oom_override rec ARENA_RC_ERROR "arena_run_module"
         else diagnose_exception ctx exc "arena_run_module" ;^ JS_FreeValue ctx exc ;^ sret ARENA_RC_ERROR)
    (fun rc x' => running cur (r_trace rec) x' /\ module_code rec rc x') x.
Proof.
  intros Hrt Hc Hx. swp_step. eapply swp_mono; [by apply (law_get_exception _ cur (r_trace rec)) |]. intros exc x1 H1.
  swp_step. destruct (swp_done _ _ _ (stop_requested_runs rec ctx exc cur x1 Hc H1)) as (stop & x2 & Hst & H2).
  unfold swp at 1. rewrite Hst. destruct stop.
  - swp_step. eapply swp_mono; [by apply (law_free_value _ _ cur (r_trace rec)) |]. intros ? x3 H3. swp_step.
    split; [done |]. right. split; [done |]. by exists ctx, exc, x1, x2.
  - swp_step. eapply swp_mono; [by apply (oom_hit_spec cur (r_trace rec)) |]. intros b x' [-> ->]. destruct (oom_flag x2) eqn:E2.
    + swp_step. eapply swp_mono; [by apply (law_free_value _ _ cur (r_trace rec)) |]. intros ? x3 H3.
      eapply swp_mono; [by apply (override_spec rec _ _ cur (r_trace rec)) |]. intros rc x4 (H4 & E4 & ->). split; [done |]. left.
      rewrite <- E4. destruct (oom_flag x4) eqn:E; [by right; right | by right; left].
    + swp_step. eapply swp_mono; [by apply (stable_diagnose _ _ _ cur (r_trace rec)) |]. intros ? x3 H3.
      swp_step. eapply swp_mono; [by apply (law_free_value _ _ cur (r_trace rec)) |]. intros ? x4 H4. swp_step.
      split; [done |]. left. by right; left.
Qed.

(** A compile error. *)
Lemma compile_threw rec ctx cur x :
  r_rt rec <> 0 -> cur <> 0 -> running cur (r_trace rec) x ->
  swp (let^ exc := JS_GetException ctx in
       let^ hit := dual_query js_dual_arena_oom_hit in
       if hit then JS_FreeValue ctx exc ;^ arena_oom_override rec ARENA_RC_ERROR "arena_run_module(compile)"
       else diagnose_exception ctx exc "arena_run_module(compile)" ;^ JS_FreeValue ctx exc ;^ sret ARENA_RC_ERROR)
    (fun rc x' => running cur (r_trace rec) x' /\ module_code rec rc x') x.
Proof.
  intros Hrt Hc Hx. swp_step. eapply swp_mono; [by apply (law_get_exception _ cur (r_trace rec)) |]. intros exc x1 H1.
  swp_step. eapply swp_mono; [by apply (oom_hit_spec cur (r_trace rec)) |]. intros b x' [-> ->]. destruct (oom_flag x1) eqn:E1.
  - swp_step. eapply swp_mono; [by apply (law_free_value _ _ cur (r_trace rec)) |]. intros ? x3 H3.
    eapply swp_mono; [by apply (override_spec rec _ _ cur (r_trace rec)) |]. intros rc x4 (H4 & E4 & ->). split; [done |]. left.
    rewrite <- E4. destruct (oom_flag x4) eqn:E; [by right; right | by right; left].
  - swp_step. eapply swp_mono; [by apply (stable_diagnose _ _ _ cur (r_trace rec)) |]. intros ? x3 H3.
    swp_step. eapply swp_mono; [by apply (law_free_value _ _ cur (r_trace rec)) |]. intros ? x4 H4. swp_step.
    split; [done |]. left. by right; left.
Qed.

(** Evaluate the compiled module, await its promise, drain the queue. *)
Lemma module_body rec ctx compiled cur x :
  r_rt rec <> 0 -> cur <> 0 -> running cur (r_trace rec) x ->
  ev (fun fuel =>
    let^ v := JS_EvalFunction ctx compiled in
    let^ v := await_value fuel rec v in
    if JS_IsException v then
      let^ exc := JS_GetException ctx in
      let^ stop := stop_requested rec ctx exc in
      if stop then JS_FreeValue ctx exc ;^ sret ARENA_RC_OK
      else
        let^ hit := dual_query js_dual_arena_oom_hit in
        if hit then JS_FreeValue ctx exc ;^ arena_oom_override rec ARENA_RC_ERROR "arena_run_module"
        else diagnose_exception ctx exc "arena_run_module" ;^ JS_FreeValue ctx exc ;^ sret ARENA_RC_ERROR
    else
      JS_FreeValue ctx v ;^
      let^ rc := drain_pending_jobs fuel rec in
      arena_oom_override rec rc "arena_run_module")
    (fun rc x' => running cur (r_trace rec) x' /\ module_code rec rc x') x.
Proof.
  intros Hrt Hc Hx. eapply ev_bind; [apply ev_swp; by apply (law_eval_function _ _ cur (r_trace rec)) |]. intros v x1 H1. cbv beta.
  eapply ev_bind; [by apply (await_returns rec v _ cur x1 Hc H1 (le_n _)) |]. intros v2 x2 H2. cbv beta.
  destruct (JS_IsException v2); [apply ev_swp; by apply module_threw |].
  eapply ev_bind; [apply ev_swp; by apply (law_free_value _ _ cur (r_trace rec)) |]. intros ? x3 H3. cbv beta.
  eapply ev_bind; [by apply (drain_returns rec _ cur x3 Hc H3 (le_n _)) |]. intros rc x4 [H4 Hrc]. cbv beta.
  apply ev_swp. eapply swp_mono; [by apply (override_spec rec rc _ cur (r_trace rec)) |]. intros rc' x5 (H5 & E5 & ->).
  split; [done |]. left. rewrite <- E5. destruct (oom_flag x5) eqn:E; [by right; right |].
  destruct Hrc as [-> | ->]; [by left | by right; left].
Qed.

End runs.

(** ** A concrete engine

    Scripts: ["alloc"] allocates 100 bytes, ["stop"] is stopped by the host
    through the trace state at address 9, anything else completes.  A compiled
    module is a promise already fulfilled, or stops.  No jobs. *)
Module ToyReactor.
Import ToyRequests.

Definition undefined : Z := 0.
Definition exception : Z := 1.
Definition promise : Z := 3.
Definition stopping : Z := 7.

Definition stop_script : ST xworld Z := on_trace (st_mod 9 (set_bail true)) ;^ sret exception.

Definition toy_eval (src : string) (flags : Z) : ST xworld Z :=
  if flags =? Z.lor JS_EVAL_TYPE_MODULE JS_EVAL_FLAG_COMPILE_ONLY then
    sret (if bool_decide (src = "stop") then stopping else undefined)
  else if bool_decide (src = "stop") then stop_script
  else if bool_decide (src = "alloc") then
    dual_query (fun d => do_hook d (HMalloc 100)) ;^ sret undefined
  else sret undefined.

#[export] Instance toy_engine : Engine := {|
  jsval := Z;
  JS_IsException v := v =? exception;
  JS_IsUndefined v := v =? undefined;
  JS_IsNull v := false;
  JS_IsObject v := false;
  JS_VALUE_GET_TAG v := 3;
  JS_VALUE_GET_PTR v := v;
  JS_Eval _ src _ flags := toy_eval src flags;
  JS_EvalFunction _ v := if v =? stopping then stop_script else sret promise;
  JS_GetException _ := sret 5;
  JS_Throw _ _ := sret exception;
  JS_ThrowInternalError _ _ := sret exception;
  JS_GetPropertyStr _ _ _ := sret undefined;
  JS_ToCString _ _ := sret (Some "value"%string);
  JS_FreeCString _ _ := sret tt;
  JS_FreeValue _ _ := sret tt;
  JS_PromiseState _ v := sret (if v =? promise then JS_PROMISE_FULFILLED else JS_PROMISE_NOT_A_PROMISE);
  JS_PromiseResult _ _ := sret undefined;
  JS_IsJobPending _ := sret false;
  JS_ExecutePendingJob _ := sret (0, 0);
  calloc_reactor := sret 9;
  free_reactor _ := sret tt;
  JS_NewRuntimeArena _ _ := sret 1;
  JS_NewContext _ := sret 1;
  JS_FreeContext _ := sret tt;
  JS_FreeRuntime _ := sret tt;
  JS_SetTimezoneUTC _ := sret tt;
  snapshot_hazards _ := 0;
  freeze_passes := sret tt
|}.

Lemma stable_stop_script : stable stop_script.
Proof.
  apply stable_bind; [| intros ?; apply stable_ret]. intros cur st x _ [H1 H2]. apply swp_trace. unfold st_mod. apply swp_mod.
  split; [exact H1 |]. simpl. destruct (decide (st = 9)) as [-> | Hne];
    [rewrite lookup_alter_eq; by apply fmap_is_Some |]. by rewrite lookup_alter_ne.
Qed.

Lemma stable_alloc : stable (dual_query (fun d => do_hook d (HMalloc 100))).
Proof.
  intros cur st x Hc [(own & a & Hi & <-) Ht]. unfold dual_query, JS_GetDualArena. swp_step. apply swp_req, swp_rt_get.
  fold (dual (x_req x)). replace (x_set_req x (x_req x)) with x by (by destruct x). apply swp_req, swp_arena.
  eapply wp_mono; [apply (do_hook_spec own a (x_req x) (HMalloc 100) Hi Hc); simpl; lia |].
  intros p w' (own' & Hi' & _). split; [by exists own', a | done].
Qed.

#[export] Instance toy_engine_laws : EngineLaws.
Proof.
  split; simpl; intros; try apply stable_ret.
  - unfold toy_eval. destruct (flags =? _); [apply stable_ret |].
    destruct (bool_decide (src = "stop")); [apply stable_stop_script |].
    destruct (bool_decide (src = "alloc")); [| apply stable_ret].
    apply stable_bind; [apply stable_alloc | intros ?; apply stable_ret].
  - destruct (v =? stopping); [apply stable_stop_script | apply stable_ret].
Qed.

#[export] Instance toy_finite_jobs : FiniteJobs.
Proof.
  refine {| jobs_left := fun _ => 0%nat |}.
  - intros ctx v x. apply swp_ret. lia.
  - intros rt x. apply swp_ret. split; [lia | discriminate].
  - intros rt x H. lia.
Defined.

Definition rec9 : ArenaReactor :=
  {| r_rt := 1; r_ctx := 1; has_random_seed := true; random_seed := 7; has_date_now := true;
     date_now_ms := 1000; r_trace := 9; entry_module := 0; r_frozen := true |}.

Definition x9 : xworld := {|
  x_req := s1;
  x_trace := {| traces := {[ 9 := zero_trace_state ]}; arena_trace_state := {[ 1 := 9 ]}; s_in_hook := None;
                pending := ∅; sent := []; heap_answers := [] |};
  x_reactors := {[ 9 := rec9 ]}; x_opaque := 9; x_stdout := []; x_stderr := []; g_default := 0;
  g_pending_trace_mode := 0 |}.

Definition q1 : areq := fresh_req (rw_rt s1) JS_ARENA_REQ_MODE_GC.

Lemma toy_q : a_reqs a1 !! a_cur a1 = Some q1.
Proof. reflexivity. Qed.

Lemma toy_rec : x_reactors x9 !! 9 = Some rec9.
Proof. reflexivity. Qed.

Lemma toy_traced : is_Some (traces (x_trace x9) !! r_trace rec9).
Proof. exists zero_trace_state. reflexivity. Qed.




Lemma toy_frame : current_stack_frame (req_state (rw_rt (x_req x9))) = 0.
Proof. vm_compute. reflexivity. Qed.

Lemma new_request_pins_witness :
  exists req x' own' a', arena_request_new_r 9 4 1 x9 = Done (req, x') /\ rinv own' a' (x_req x').
Proof.
  destruct toy_rinv as [own Hi].
  destruct (new_request_pins own a1 x9 9 rec9 4 1 toy_rec ltac:(discriminate) ltac:(discriminate) ltac:(discriminate)
    Hi ltac:(lia) toy_frame) as (req & x' & own' & a' & H1 & H2 & _).
  exists req, x', own', a'. split; [exact H1 | exact H2].
Defined.

(** The host leaves the request. *)
Definition s_left : rworld := match JS_LeaveRequest s1 with Done (_, s) => s | _ => s1 end.
Definition x_left : xworld := x_set_req x9 s_left.

Lemma toy_left : exists own, rinv own (a_set_cur a1 0) s_left.
Proof.
  destruct toy_rinv as [own Hi]. exists own. pose proof (leave_spec own a1 s1 Hi) as Hs.
  destruct (swp_done _ _ _ Hs) as (rc & s' & H1 & _ & H2 & _). unfold s_left. rewrite H1.
  assert (Hb : boundary (rw_rt s1) a1 = true) by (vm_compute; reflexivity). unfold a_leave in H2. rewrite Hb in H2. exact H2.
Qed.

Lemma toy_rec_left : x_reactors x_left !! 9 = Some rec9.
Proof. vm_compute. reflexivity. Qed.

Lemma run_unentered_writes_template_witness :
  exists x', begin_run 9 x_left = Done (tt, x') /\
    x_req x' = rw_set_rt (x_req x_left) (rt_set_state (rw_rt (x_req x_left)) (pinned rec9 (req_state (rw_rt (x_req x_left))))) /\
    (forall size, jda_malloc (dual (x_req x_left)) size (rw_arena (x_req x')) = Done (0, rw_arena (x_req x'))) /\
    js_dual_arena_oom_hit (dual (x_req x_left)) (rw_arena (x_req x')) = Done (false, rw_arena (x_req x')).
Proof.
  destruct toy_left as [own Hi].
  exact (run_unentered_writes_template own (a_set_cur a1 0) x_left 9 rec9 toy_rec_left Hi eq_refl).
Defined.

(** The code of a call and whether the trace state is armed after it. *)
Definition outcome (r : run (Z * xworld)) : option (Z * bool) :=
  match r with
  | Done (rc, x) => Some (rc, match traces (x_trace x) !! 9 with Some t => bail_armed t | None => false end)
  | _ => None
  end.

(** A stop the host asks for during a script run is reported as an error,
    and the trace state stays armed, silencing the hooks of every later script
    run, while the same stop during a module run is reported as a clean end
    and the next module run disarms it. *)
Theorem script_stop_is_error :
  outcome (arena_run_r 9 (Some "stop"%string) x9) = Some (ARENA_RC_ERROR, true) /\
  outcome ((arena_run_r 9 (Some "stop"%string) ;^ arena_run_r 9 (Some "alloc"%string)) x9) = Some (ARENA_RC_OK, true) /\
  outcome (arena_run_module_r 3 9 (Some "m"%string) (Some "stop"%string) x9) = Some (ARENA_RC_OK, true) /\
  outcome ((arena_run_module_r 3 9 (Some "m"%string) (Some "stop"%string) ;^
            arena_run_module_r 3 9 (Some "m"%string) (Some "alloc"%string)) x9) = Some (ARENA_RC_OK, false).
Proof. vm_compute. split_and!; reflexivity. Qed.
End ToyReactor.
