(* ===== verification/RqSort.v ===== *)
(** * Sorting (cutils.h: [rqsort], [heapsortx], [med3])

    The engine sorts property keys, export names, arrays and the intervals of
    character classes with [rqsort]: a quicksort that splits in three parts
    around the median of three, with an explicit stack of 50 segments, insertion
    sort for short segments and heap sort past a depth of 50.

    The array is a list of elements and a pointer is an element index; [swap]
    exchanges two elements and [swap_block] two blocks of elements.  An access
    outside the array and a push on a full stack are [Aborts]. *)

From stdpp Require Import base list numbers.
From Stdlib Require Import ZArith Lia.
From S2P Require Import Prelude.

#[local] Open Scope Z_scope.

Section rqsort.
Context {A : Type} (cmp : A -> A -> Z).

Definition elem (a : list A) (i : Z) : run A :=
  if 0 <=? i then match a !! Z.to_nat i with Some x => Done x | None => Aborts end else Aborts.
Definition compare (a : list A) (i j : Z) : run Z := let* x := elem a i in let* y := elem a j in Done (cmp x y).
Definition swap (a : list A) (i j : Z) : run (list A) :=
  let* x := elem a i in let* y := elem a j in Done (setZ j x (setZ i y a)).

(** ** Heap sort *)

(** The larger of the two children. *)
Definition larger_child (a : list A) (base c n : Z) : run Z :=
  if c <? n - 1 then (let* d := compare a (base + c) (base + c + 1) in Done (if d <=? 0 then c + 1 else c)) else Done c.

(** [for (r = ...; (c = r * 2 + size) < n; r = c)] *)
Fixpoint sift (fuel : nat) (a : list A) (base r n : Z) : run (list A) :=
  match fuel with
  | O => Spins
  | S fuel =>
      if r * 2 + 1 <? n then
        let* c := larger_child a base (r * 2 + 1) n in
        let* d := compare a (base + r) (base + c) in
        if 0 <? d then Done a
        else
          let* a := swap a (base + r) (base + c) in
          sift fuel a base c n
      else Done a
  end.

Fixpoint heap_build (i : nat) (a : list A) (base n : Z) : run (list A) :=
  match i with
  | O => Done a
  | S i =>
      let* a := sift (S (Z.to_nat n)) a base (Z.of_nat i) n in
      heap_build i a base n
  end.

Fixpoint heap_drain (i : nat) (a : list A) (base : Z) : run (list A) :=
  match i with
  | O => Done a
  | S i' =>
      let* a := swap a base (base + Z.of_nat i) in
      let* a := sift (S i) a base 0 (Z.of_nat i) in
      heap_drain i' a base
  end.

Definition heapsortx (a : list A) (base nmemb : Z) : run (list A) :=
  if 1 <? nmemb then
    let* a := heap_build (Z.to_nat (nmemb / 2)) a base nmemb in
    heap_drain (Z.to_nat (nmemb - 1)) a base
  else Done a.

(** ** Partition *)

Definition med3 (a : list A) (x y z : Z) : run Z :=
  let* d := compare a x y in
  if d <? 0 then
    let* d := compare a y z in
    if d <? 0 then Done y else (let* d := compare a x z in Done (if d <? 0 then z else x))
  else
    let* d := compare a y z in
    if 0 <? d then Done y else (let* d := compare a x z in Done (if d <? 0 then x else z)).

(** [while (pi < pj && (c = cmp(ptr, pi)) >= 0)]; indices count from [ptr]. *)
Fixpoint scan_left (fuel : nat) (a : list A) (ptr i j lt : Z) : run (list A * Z * Z) :=
  match fuel with
  | O => Spins
  | S fuel =>
      if i <? j then
        let* c := compare a ptr (ptr + i) in
        if 0 <=? c then
          if c =? 0 then
            let* a := swap a (ptr + lt) (ptr + i) in
            scan_left fuel a ptr (i + 1) j (lt + 1)
          else scan_left fuel a ptr (i + 1) j lt
        else Done (a, i, lt)
      else Done (a, i, lt)
  end.

(** [while (pi < (pj -= size) && (c = cmp(ptr, pj)) <= 0)] *)
Fixpoint scan_right (fuel : nat) (a : list A) (ptr i j gt : Z) : run (list A * Z * Z) :=
  match fuel with
  | O => Spins
  | S fuel =>
      let j := j - 1 in
      if i <? j then
        let* c := compare a ptr (ptr + j) in
        if c <=? 0 then
          if c =? 0 then
            let gt := gt - 1 in
            let* a := swap a (ptr + gt) (ptr + j) in
            scan_right fuel a ptr i j gt
          else scan_right fuel a ptr i j gt
        else Done (a, j, gt)
      else Done (a, j, gt)
  end.

Fixpoint partition (fuel : nat) (a : list A) (ptr i j lt gt : Z) : run (list A * Z * Z * Z) :=
  match fuel with
  | O => Spins
  | S fuel =>
      let* (a, i, lt) := scan_left (S fuel) a ptr i j lt in
      let* (a, j, gt) := scan_right (S fuel) a ptr i j gt in
      if j <=? i then Done (a, i, lt, gt)
      else
        let* a := swap a (ptr + i) (ptr + j) in
        partition fuel a ptr (i + 1) j lt gt
  end.

Fixpoint swap_block (n : nat) (a : list A) (p q : Z) : run (list A) :=
  match n with
  | O => Done a
  | S n =>
      let* a := swap a p q in
      swap_block n a (p + 1) (q + 1)
  end.

(** Split a segment: the parts below and above the pivot are [0, lt) and
    [gt, nmemb). *)
Definition split_segment (a : list A) (ptr nmemb : Z) : run (list A * Z * Z) :=
  let m4 := Z.shiftr nmemb 2 in
  let* m := med3 a (ptr + m4) (ptr + 2 * m4) (ptr + 3 * m4) in
  let* a := swap a ptr m in
  let* (a, i, lt, gt) := partition (S (Z.to_nat nmemb)) a ptr 1 nmemb 1 nmemb in
  let span := Z.min lt (i - lt) in
  let* a := swap_block (Z.to_nat span) a ptr (ptr + i - span) in
  let span := Z.min (nmemb - gt) (gt - i) in
  let* a := swap_block (Z.to_nat span) a (ptr + i) (ptr + nmemb - span) in
  Done (a, i - lt, nmemb - (gt - i)).

(** ** The sort *)

Record segment := { sg_base : Z; sg_count : Z; sg_depth : Z }.

Definition STACK_SIZE : Z := 50.
Definition push (sp : list segment) (s : segment) : run (list segment) :=
  if lenZ sp <? STACK_SIZE then Done (s :: sp) else Aborts.

(** [while (nmemb > 6)]: what is left of the segment. *)
Fixpoint sort_segment (fuel : nat) (a : list A) (ptr nmemb depth : Z) (sp : list segment)
    : run (list A * Z * Z * list segment) :=
  match fuel with
  | O => Spins
  | S fuel =>
      if 6 <? nmemb then
        let depth := depth + 1 in
        if 50 <? depth then
          let* a := heapsortx a ptr nmemb in
          Done (a, ptr, 0, sp)
        else
          let* (a, lt, gt) := split_segment a ptr nmemb in
          if nmemb - gt <? lt then
            let* sp := push sp {| sg_base := ptr; sg_count := lt; sg_depth := depth |} in
            sort_segment fuel a (ptr + gt) (nmemb - gt) depth sp
          else
            let* sp := push sp {| sg_base := ptr + gt; sg_count := nmemb - gt; sg_depth := depth |} in
            sort_segment fuel a ptr lt depth sp
      else Done (a, ptr, nmemb, sp)
  end.

(** [for (pj = pi; pj > ptr && cmp(pj - size, pj) > 0; pj -= size)] *)
Fixpoint insert (fuel : nat) (a : list A) (ptr j : Z) : run (list A) :=
  match fuel with
  | O => Spins
  | S fuel =>
      if ptr <? j then
        let* d := compare a (j - 1) j in
        if 0 <? d then
          let* a := swap a j (j - 1) in
          insert fuel a ptr (j - 1)
        else Done a
      else Done a
  end.

Fixpoint insertion (fuel : nat) (a : list A) (ptr i top : Z) : run (list A) :=
  match fuel with
  | O => Spins
  | S fuel =>
      if i <? top then
        let* a := insert (S (length a)) a ptr i in
        insertion fuel a ptr (i + 1) top
      else Done a
  end.

Fixpoint rqsort_loop (fuel : nat) (a : list A) (sp : list segment) : run (list A) :=
  match fuel with
  | O => Spins
  | S fuel =>
      match sp with
      | [] => Done a
      | s :: sp =>
          let* (a, ptr, nmemb, sp) := sort_segment (S (length a)) a (sg_base s) (sg_count s) (sg_depth s) sp in
          let* a := insertion (S (length a)) a ptr (ptr + 1) (ptr + nmemb) in
          rqsort_loop fuel a sp
      end
  end.

Definition rqsort (a : list A) : run (list A) :=
  if lenZ a <? 2 then Done a
  else rqsort_loop (2 + 2 * length a) a [{| sg_base := 0; sg_count := lenZ a; sg_depth := 0 |}].
End rqsort.
