(* ===== verification/RqSortProofs.v ===== *)
(** * Sorting: rearrangements, heap sort and insertion sort

    Every step only moves elements inside a range of positions ([moved]); what
    the order of the result needs of the comparison is the class [CmpLaws],
    which the bounds, the termination and the permutation do not use. *)

From stdpp Require Import base list numbers.
From Stdlib Require Import ZArith Lia.
From S2P Require Import Prelude RqSort.

#[local] Open Scope Z_scope.

(** The computation returns, and returns into [Q]. *)
Definition returns {X} (r : run X) (Q : X -> Prop) : Prop := match r with Done x => Q x | _ => False end.

Lemma returns_bind {X Y} (r : run X) (f : X -> run Y) Q : returns r (fun x => returns (f x) Q) -> returns (run_bind r f) Q.
Proof. by destruct r. Qed.

Lemma returns_mono {X} (r : run X) (P Q : X -> Prop) : returns r P -> (forall x, P x -> Q x) -> returns r Q.
Proof. destruct r; simpl; auto. Qed.

Lemma returns_done {X} (r : run X) Q : returns r Q -> exists x, r = Done x /\ Q x.
Proof. destruct r; simpl; [eauto | done | done]. Qed.

Lemma returns_done_eq {X} (r : run X) x : returns r (fun y => y = x) -> r = Done x.
Proof. destruct r; simpl; [by intros -> | done | done]. Qed.

(** [cmp] is the sign of a total preorder. *)
Class CmpLaws {A} (cmp : A -> A -> Z) : Prop := {
  cmp_flip x y : cmp x y < 0 <-> 0 < cmp y x;
  cmp_trans x y z : cmp x y <= 0 -> cmp y z <= 0 -> cmp x z <= 0
}.

(** The transposition of two positions. *)
Definition tr (i j k : Z) : Z := if k =? i then j else if k =? j then i else k.

Ltac tr_cases := unfold tr; repeat match goal with |- context [?x =? ?y] => destruct (Z.eqb_spec x y) end.

Section proofs.
Context {A : Type} (cmp : A -> A -> Z).

Definition at_ (a : list A) (i : Z) : option A := if 0 <=? i then a !! Z.to_nat i else None.

Lemma at_some a i : 0 <= i < lenZ a -> exists x, at_ a i = Some x.
Proof. intros H. unfold at_, lenZ in *. rewrite (proj2 (Z.leb_le 0 i)) by lia. apply lookup_lt_is_Some_2. lia. Qed.

Lemma at_range a i x : at_ a i = Some x -> 0 <= i < lenZ a.
Proof. unfold at_, lenZ. destruct (Z.leb_spec 0 i) as [L | L]; [| done]. intros H. apply lookup_lt_Some in H. lia. Qed.

Lemma elem_at a i x : at_ a i = Some x -> elem a i = Done x.
Proof. unfold at_, elem. destruct (0 <=? i); [| done]. by intros ->. Qed.

(** ** Rearrangements *)

Record moved (lo hi : Z) (a a' : list A) : Prop := {
  mv_len : lenZ a' = lenZ a;
  mv_perm : Permutation a' a;
  mv_out k : ~ lo <= k < hi -> at_ a' k = at_ a k;
  mv_in k x : lo <= k < hi -> at_ a' k = Some x -> exists k', lo <= k' < hi /\ at_ a k' = Some x
}.

Lemma moved_refl lo hi a : moved lo hi a a.
Proof. split; eauto. Qed.

Lemma moved_trans lo hi a b c : moved lo hi a b -> moved lo hi b c -> moved lo hi a c.
Proof.
  intros [H1 H2 H3 H4] [K1 K2 K3 K4]. split.
  - congruence.
  - by rewrite K2.
  - intros k Hk. rewrite K3, H3; done.
  - intros k x Hk Hx. destruct (K4 k x Hk Hx) as (k1 & Hk1 & Hx1). by apply (H4 k1).
Qed.

Lemma moved_mono lo hi lo' hi' a b : lo' <= lo -> hi <= hi' -> moved lo hi a b -> moved lo' hi' a b.
Proof.
  intros L1 L2 [H1 H2 H3 H4]. split; [done | done | intros k Hk; apply H3; lia |]. intros k x Hk Hx.
  destruct (decide (lo <= k < hi)) as [Hi | Hi].
  - destruct (H4 k x Hi Hx) as (k' & Hk' & E). exists k'. split; [lia | done].
  - exists k. rewrite <- (H3 k Hi). done.
Qed.

Record swapped (i j : Z) (a a' : list A) : Prop := {
  sw_at k : at_ a' k = at_ a (tr i j k);
  sw_len : lenZ a' = lenZ a;
  sw_perm : Permutation a' a
}.

Lemma swap_perm (l l' : list A) (i j : nat) :
  length l' = length l -> (forall k, l' !! k = l !! (if (k =? i)%nat then j else if (k =? j)%nat then i else k)) -> Permutation l' l.
Proof.
  intros Hl H. apply Permutation_inj. split; [done |]. exists (fun k => if (k =? i)%nat then j else if (k =? j)%nat then i else k).
  split; [| done]. intros x y. destruct (Nat.eqb_spec x i), (Nat.eqb_spec y i), (Nat.eqb_spec x j), (Nat.eqb_spec y j); lia.
Qed.

Lemma returns_swap a i j Q :
  0 <= i < lenZ a -> 0 <= j < lenZ a -> (forall a', swapped i j a a' -> Q a') -> returns (swap a i j) Q.
Proof.
  intros Hi Hj HQ. destruct (at_some a i Hi) as [x Hx]. destruct (at_some a j Hj) as [y Hy]. unfold swap.
  rewrite (elem_at a i x Hx), (elem_at a j y Hy). simpl. apply HQ. set (a' := setZ j x (setZ i y a)).
  assert (Hlen : length a' = length a) by (unfold a', setZ; by rewrite !length_insert).
  assert (Hat : forall k : nat, a' !! k = a !! (if (k =? Z.to_nat i)%nat then Z.to_nat j else if (k =? Z.to_nat j)%nat then Z.to_nat i else k)).
  { intros k. unfold at_, a', setZ, lenZ in *. rewrite (proj2 (Z.leb_le 0 i)) in Hx by lia. rewrite (proj2 (Z.leb_le 0 j)) in Hy by lia.
    destruct (Nat.eqb_spec k (Z.to_nat i)) as [-> | Ni].
    - destruct (Nat.eqb_spec (Z.to_nat j) (Z.to_nat i)) as [E | E].
      + rewrite E, list_lookup_insert_eq by (rewrite length_insert; lia). congruence.
      + rewrite list_lookup_insert_ne, list_lookup_insert_eq by lia. done.
    - destruct (Nat.eqb_spec k (Z.to_nat j)) as [-> | Nj]; [by rewrite list_lookup_insert_eq by (rewrite length_insert; lia) |].
      by rewrite !list_lookup_insert_ne by lia. }
  split; [| unfold lenZ; lia | by eapply swap_perm].
  intros k. unfold at_, tr. destruct (Z.leb_spec 0 k) as [L | L].
  - rewrite Hat. destruct (Z.eqb_spec k i) as [-> | Ni]; [rewrite Nat.eqb_refl, (proj2 (Z.leb_le 0 j)) by lia; done |].
    destruct (Nat.eqb_spec (Z.to_nat k) (Z.to_nat i)); [lia |].
    destruct (Z.eqb_spec k j) as [-> | Nj]; [rewrite Nat.eqb_refl, (proj2 (Z.leb_le 0 i)) by lia; done |].
    destruct (Nat.eqb_spec (Z.to_nat k) (Z.to_nat j)); [lia |]. by rewrite (proj2 (Z.leb_le 0 k)) by lia.
  - destruct (Z.eqb_spec k i); [lia |]. destruct (Z.eqb_spec k j); [lia |]. by destruct (Z.leb_spec 0 k); [lia |].
Qed.

Lemma swapped_moved lo hi i j a a' : lo <= i < hi -> lo <= j < hi -> swapped i j a a' -> moved lo hi a a'.
Proof.
  intros Hi Hj [H1 H2 H3]. split; [done | done | |].
  - intros k Hk. rewrite H1. unfold tr. destruct (Z.eqb_spec k i); [lia |]. destruct (Z.eqb_spec k j); [lia |]. done.
  - intros k x Hk. rewrite H1. exists (tr i j k). split; [| done]. unfold tr. destruct (k =? i), (k =? j); lia.
Qed.

Lemma returns_compare a i j Q :
  0 <= i < lenZ a -> 0 <= j < lenZ a -> (forall x y, at_ a i = Some x -> at_ a j = Some y -> Q (cmp x y)) -> returns (compare cmp a i j) Q.
Proof.
  intros Hi Hj HQ. destruct (at_some a i Hi) as [x Hx]. destruct (at_some a j Hj) as [y Hy]. unfold compare.
  rewrite (elem_at a i x Hx), (elem_at a j y Hy). simpl. by apply HQ.
Qed.

(** ** Order *)

Definition le (x y : A) : Prop := cmp x y <= 0.

Lemma le_total `{!CmpLaws cmp} x y : ~ le x y -> le y x.
Proof. unfold le. intros H. pose proof (cmp_flip y x). lia. Qed.

Lemma le_refl `{!CmpLaws cmp} x : le x x.
Proof. unfold le. pose proof (cmp_flip x x). lia. Qed.

Lemma le_trans `{!CmpLaws cmp} x y z : le x y -> le y z -> le x z.
Proof. apply cmp_trans. Qed.

Definition sorted_on (a : list A) (lo hi : Z) : Prop :=
  forall i j x y, lo <= i < j -> j < hi -> at_ a i = Some x -> at_ a j = Some y -> le x y.

(** ** Insertion sort *)

(** All of [ptr, i] is in order but for what precedes [j]. *)
Definition sorted_but (a : list A) (ptr i j : Z) : Prop :=
  forall p q x y, ptr <= p < q -> q <= i -> q <> j -> at_ a p = Some x -> at_ a q = Some y -> le x y.

Lemma insert_step a a' ptr i j x y :
  CmpLaws cmp -> ptr < j <= i -> at_ a (j - 1) = Some x -> at_ a j = Some y -> 0 < cmp x y ->
  swapped j (j - 1) a a' -> sorted_but a ptr i j -> sorted_but a' ptr i (j - 1).
Proof.
  intros HL Hj Hx Hy Hc [Hsw _ _] Hs p q u v Hp Hq Hn. rewrite !Hsw. tr_cases; subst; try lia; intros Hu Hv.
  - apply (Hs (j - 1) q u v); try done; lia.
  - simplify_eq. apply le_total. unfold le. lia.
  - apply (Hs j q u v); try done; lia.
  - apply (Hs p (j - 1) u v); try done; lia.
  - apply (Hs p q u v); try done; lia.
Qed.

Lemma insert_spec fuel : forall a ptr i j,
  0 <= ptr <= j -> j <= i < lenZ a -> j - ptr < Z.of_nat fuel -> (CmpLaws cmp -> sorted_but a ptr i j) ->
  returns (insert cmp fuel a ptr j) (fun a' => moved ptr (i + 1) a a' /\ (CmpLaws cmp -> sorted_on a' ptr (i + 1))).
Proof.
  induction fuel as [| fuel IH]; intros a ptr i j H1 H2 Hf Hs; [lia |]. cbn [insert]. destruct (Z.ltb_spec ptr j) as [L | L].
  - apply returns_bind, returns_compare; [lia | lia |]. intros x y Hx Hy. destruct (Z.ltb_spec 0 (cmp x y)) as [Lc | Lc].
    + apply returns_bind, returns_swap; [lia | lia |]. intros a1 Hsw. pose proof (sw_len _ _ _ _ Hsw) as Hl1.
      eapply returns_mono; [apply (IH a1 ptr i (j - 1)); [lia | lia | lia |]; intros HL; apply (insert_step a a1 ptr i j x y); auto; lia |].
      intros a2 [M2 S2]. split; [| done]. eapply moved_trans; [| exact M2]. eapply swapped_moved; [| | exact Hsw]; lia.
    + split; [apply moved_refl |]. intros HL p q u v Hp Hq Hu Hv. destruct (Z.eq_dec q j) as [-> | Hn]; [| apply (Hs HL p q u v); try done; lia].
      rewrite Hy in Hv. simplify_eq. destruct (Z.eq_dec p (j - 1)) as [-> | Hp']; [by simplify_eq |].
      apply (le_trans u x v); [apply (Hs HL p (j - 1) u x); try done; lia | done].
  - split; [apply moved_refl |]. intros HL p q u v Hp Hq Hu Hv. apply (Hs HL p q u v); try done; lia.
Qed.

Lemma insertion_spec fuel : forall a ptr i top,
  0 <= ptr <= i -> top <= lenZ a -> Z.max 0 (top - i) < Z.of_nat fuel -> (CmpLaws cmp -> sorted_on a ptr i) ->
  returns (insertion cmp fuel a ptr i top) (fun a' => moved ptr top a a' /\ (CmpLaws cmp -> sorted_on a' ptr top)).
Proof.
  induction fuel as [| fuel IH]; intros a ptr i top H1 H2 Hf Hs; [lia |].
  cbn [insertion]. destruct (Z.ltb_spec i top) as [L | L].
  - apply returns_bind. eapply returns_mono; [apply (insert_spec _ a ptr i i); [lia | lia | unfold lenZ in *; lia |] |].
    { intros HL p q x y Hp Hq Hn. apply (Hs HL); lia. }
    intros a1 [M1 S1]. pose proof (mv_len _ _ _ _ M1) as Hl1.
    eapply returns_mono; [apply (IH a1 ptr (i + 1) top); [lia | lia | lia | done] |]. intros a2 [M2 S2]. split; [| done].
    eapply moved_trans; [| exact M2]. eapply moved_mono; [| | exact M1]; lia.
  - split; [apply moved_refl |]. intros HL p q x y Hp Hq. apply (Hs HL); lia.
Qed.

(** ** Heap sort *)

(** Children do not exceed their parents, for the parents in [lo, n) but [r];
    [base] is where the heap starts. *)
Definition heap_but (a : list A) (base lo n r : Z) : Prop :=
  forall k c x y, lo <= k -> k <> r -> 2 * k + 1 <= c <= 2 * k + 2 -> c < n ->
    at_ a (base + k) = Some x -> at_ a (base + c) = Some y -> le y x.

(** The children of [r] do not exceed the parent of [r]. *)
Definition under_parent (a : list A) (base lo n r : Z) : Prop :=
  forall q c x y, lo <= q -> 2 * q + 1 <= r <= 2 * q + 2 -> 2 * r + 1 <= c <= 2 * r + 2 -> c < n ->
    at_ a (base + q) = Some x -> at_ a (base + c) = Some y -> le y x.

Definition heap (a : list A) (base lo n : Z) : Prop := heap_but a base lo n (-1).

(** The child that is followed bounds its sibling. *)
Lemma larger_child_spec a base r n :
  0 <= base -> 0 <= r -> 2 * r + 1 < n -> base + n <= lenZ a ->
  returns (larger_child cmp a base (r * 2 + 1) n) (fun c => 2 * r + 1 <= c <= 2 * r + 2 /\ c < n /\
    (CmpLaws cmp -> forall c' x y, 2 * r + 1 <= c' <= 2 * r + 2 -> c' < n -> at_ a (base + c') = Some x -> at_ a (base + c) = Some y -> le x y)).
Proof.
  intros Hb Hr Hn Hl. unfold larger_child. destruct (Z.ltb_spec (r * 2 + 1) (n - 1)) as [L | L].
  - apply returns_bind, returns_compare; [lia | lia |]. intros x y Hx Hy. destruct (Z.leb_spec (cmp x y) 0) as [Lc | Lc]; simpl.
    + split; [lia |]. split; [lia |]. intros HL c' u v Hc' Hn' Hu Hv. replace (base + (r * 2 + 1 + 1)) with (base + (r * 2 + 1) + 1) in Hv by lia.
      rewrite Hy in Hv. simplify_eq. destruct (Z.eq_dec c' (r * 2 + 1)) as [-> | Hne]; [by simplify_eq |].
      replace (base + c') with (base + (r * 2 + 1) + 1) in Hu by lia. simplify_eq. by apply le_refl.
    + split; [lia |]. split; [lia |]. intros HL c' u v Hc' Hn' Hu Hv. rewrite Hx in Hv. simplify_eq.
      destruct (Z.eq_dec c' (r * 2 + 1)) as [-> | Hne]; [simplify_eq; by apply le_refl |].
      replace (base + c') with (base + (r * 2 + 1) + 1) in Hu by lia. simplify_eq. apply le_total. unfold le. lia.
  - simpl. split; [lia |]. split; [lia |]. intros HL c' u v Hc' Hn' Hu Hv. replace c' with (r * 2 + 1) in Hu by lia. simplify_eq. by apply le_refl.
Qed.

Lemma sift_step a a' base lo n r c x y :
  CmpLaws cmp -> 0 <= lo <= r -> 2 * r + 1 <= c <= 2 * r + 2 -> c < n ->
  at_ a (base + r) = Some x -> at_ a (base + c) = Some y -> cmp x y <= 0 ->
  (forall c' u v, 2 * r + 1 <= c' <= 2 * r + 2 -> c' < n -> at_ a (base + c') = Some u -> at_ a (base + c) = Some v -> le u v) ->
  swapped (base + r) (base + c) a a' -> heap_but a base lo n r -> under_parent a base lo n r ->
  heap_but a' base lo n c /\ under_parent a' base lo n c.
Proof.
  intros HL Hr Hc Hn Hx Hy Hle Hmax [Hsw _ _] Hh Hu. split.
  - intros k d u v Hk Hkc Hd Hdn. rewrite !Hsw. tr_cases; try lia; intros Eu Ev.
    + assert (k = r) as -> by lia. simplify_eq. done.
    + assert (k = r) as -> by lia. apply (Hmax d); [lia | done | done | done].
    + assert (d = r) as -> by lia. apply (Hu k c u v); try done; lia.
    + apply (Hh k d u v); try done; lia.
  - intros q d u v Hq Hqc Hd Hdn. assert (q = r) as -> by lia. rewrite !Hsw. tr_cases; try lia; intros Eu Ev.
    apply (Hh c d u v); try done; lia.
Qed.

Lemma sift_spec fuel : forall a base lo r n,
  0 <= base -> 0 <= lo <= r -> base + n <= lenZ a -> Z.max 0 (n - r) < Z.of_nat fuel ->
  (CmpLaws cmp -> heap_but a base lo n r /\ under_parent a base lo n r) ->
  returns (sift cmp fuel a base r n) (fun a' => moved base (base + n) a a' /\ (CmpLaws cmp -> heap a' base lo n)).
Proof.
  induction fuel as [| fuel IH]; intros a base lo r n Hb Hr Hl Hf Hh; [lia |]. cbn [sift].
  destruct (Z.ltb_spec (r * 2 + 1) n) as [L | L].
  2:{ split; [apply moved_refl |]. intros HL k c x y Hk _ Hc Hn. apply (proj1 (Hh HL)); lia. }
  apply returns_bind. eapply returns_mono; [apply larger_child_spec; lia |]. intros c (Hc & Hcn & Hmax).
  apply returns_bind, returns_compare; [lia | lia |]. intros x y Hx Hy. destruct (Z.ltb_spec 0 (cmp x y)) as [Lc | Lc].
  - split; [apply moved_refl |]. intros HL k d u v Hk _ Hd Hdn Eu Ev. destruct (Z.eq_dec k r) as [-> | Hne].
    + apply (le_trans v y u); [by apply (Hmax HL d) |]. simplify_eq. apply le_total. unfold le. lia.
    + apply (proj1 (Hh HL) k d u v); try done; lia.
  - apply returns_bind, returns_swap; [lia | lia |]. intros a1 Hsw. pose proof (sw_len _ _ _ _ Hsw) as Hl1.
    eapply returns_mono; [apply (IH a1 base lo c n); [lia | lia | lia | lia |] |].
    { intros HL. destruct (Hh HL) as [H1 H2]. apply (sift_step a a1 base lo n r c x y); try done; by apply Hmax. }
    intros a2 [M2 S2]. split; [| done]. eapply moved_trans; [| exact M2]. eapply swapped_moved; [| | exact Hsw]; lia.
Qed.

Lemma heap_build_spec i : forall a base n,
  0 <= base -> base + n <= lenZ a -> Z.of_nat i <= n -> (CmpLaws cmp -> heap a base (Z.of_nat i) n) ->
  returns (heap_build cmp i a base n) (fun a' => moved base (base + n) a a' /\ (CmpLaws cmp -> heap a' base 0 n)).
Proof.
  induction i as [| i IH]; intros a base n Hb Hl Hi Hh; cbn [heap_build]; [split; [apply moved_refl | done] |].
  apply returns_bind. eapply returns_mono; [apply (sift_spec _ a base (Z.of_nat i)); [lia | lia | lia | lia |] |].
  { intros HL. split; [intros k c x y Hk Hne; apply (Hh HL); lia |]. intros q c x y Hq Hqi. lia. }
  intros a1 [M1 H1]. pose proof (mv_len _ _ _ _ M1) as Hl1.
  eapply returns_mono; [apply (IH a1 base n); [lia | lia | lia | done] |]. intros a2 [M2 H2]. split; [by eapply moved_trans | done].
Qed.

(** The root of a heap is its largest element. *)
Lemma heap_root a base n m :
  CmpLaws cmp -> heap a base 0 n -> 0 <= base -> base + n <= lenZ a -> at_ a base = Some m ->
  forall k, 0 <= k < n -> forall x, at_ a (base + k) = Some x -> le x m.
Proof.
  intros HL Hh Hb Hl Hm k. induction k as [k IH] using (well_founded_induction (Z.lt_wf 0)). intros Hk x Hx.
  destruct (Z.eq_dec k 0) as [-> | Hne].
  - rewrite Z.add_0_r in Hx. simplify_eq. by apply le_refl.
  - set (q := (k - 1) / 2).
    assert (Hq : 2 * q + 1 <= k <= 2 * q + 2) by (unfold q; pose proof (Z_div_mod_eq_full (k - 1) 2); pose proof (Z.mod_pos_bound (k - 1) 2); lia).
    destruct (at_some a (base + q) ltac:(lia)) as [y Hy]. apply (le_trans x y m); [apply (Hh q k y x); try done; lia |].
    apply (IH q); [lia | lia | done].
Qed.

(** The heap is [0, i], what follows it is sorted and not below it. *)
Definition draining (a : list A) (base i n : Z) : Prop :=
  heap a base 0 (i + 1) /\ sorted_on a (base + i + 1) (base + n) /\
  forall p q x y, 0 <= p <= i -> i < q < n -> at_ a (base + p) = Some x -> at_ a (base + q) = Some y -> le x y.

Lemma drain_swap a a1 base i n :
  0 <= base -> 0 < i < n -> base + n <= lenZ a -> swapped base (base + i) a a1 -> CmpLaws cmp -> draining a base i n ->
  heap_but a1 base 0 i 0 /\ sorted_on a1 (base + i) (base + n) /\
  forall p q x y, 0 <= p < i -> i <= q < n -> at_ a1 (base + p) = Some x -> at_ a1 (base + q) = Some y -> le x y.
Proof.
  intros Hb Hi Hl [Hsw _ _] HL (Hh & Hs & Hc). destruct (at_some a base ltac:(lia)) as [m Hm].
  pose proof (heap_root a base (i + 1) m HL Hh Hb ltac:(lia) Hm) as Hroot. split; [| split].
  - intros k c x y Hk Hk0 Hkc Hci. rewrite !Hsw. tr_cases; try lia. intros Hx Hy. apply (Hh k c x y); try done; lia.
  - intros p q x y Hp Hq. rewrite !Hsw. tr_cases; try lia; intros Hx Hy.
    + apply (Hc 0 (q - base) x y); try lia; [by rewrite Z.add_0_r | by replace (base + (q - base)) with q by lia].
    + apply (Hs p q x y); try done; lia.
  - intros p q x y Hp Hq. rewrite !Hsw. tr_cases; try lia; intros Hx Hy; simplify_eq.
    + by apply (Hroot i); [lia |].
    + apply (Hc i q x y); try done; lia.
    + apply (Hroot p); [lia | done].
    + apply (Hc p q x y); try done; lia.
Qed.

Lemma drain_sifted a1 a2 base i n :
  0 <= base -> 0 < i < n -> moved base (base + i) a1 a2 -> heap a2 base 0 i -> sorted_on a1 (base + i) (base + n) ->
  (forall p q x y, 0 <= p < i -> i <= q < n -> at_ a1 (base + p) = Some x -> at_ a1 (base + q) = Some y -> le x y) ->
  draining a2 base (i - 1) n.
Proof.
  intros Hb Hi [_ _ Mo Mi] Hh Hs Hc. split; [by replace (i - 1 + 1) with i by lia |]. split.
  - intros p q x y Hp Hq. rewrite !Mo by lia. apply Hs; lia.
  - intros p q x y Hp Hq Hx Hy. rewrite Mo in Hy by lia. destruct (Mi (base + p) x ltac:(lia) Hx) as (k & Hk & E).
    apply (Hc (k - base) q x y); try lia; [by replace (base + (k - base)) with k by lia | done].
Qed.

Lemma heap_drain_spec i : forall a base n,
  0 <= base -> Z.of_nat i < n -> base + n <= lenZ a -> (CmpLaws cmp -> draining a base (Z.of_nat i) n) ->
  returns (heap_drain cmp i a base) (fun a' => moved base (base + n) a a' /\ (CmpLaws cmp -> sorted_on a' base (base + n))).
Proof.
  induction i as [| i IH]; intros a base n Hb Hi Hl Hd; cbn [heap_drain].
  - split; [apply moved_refl |]. intros HL. destruct (Hd HL) as (_ & Hs & Hc). intros p q x y Hp Hq Hx Hy.
    destruct (Z.eq_dec p base) as [-> | Hne]; [| apply (Hs p q x y); try done; lia].
    apply (Hc 0 (q - base) x y); try lia; [by rewrite Z.add_0_r | by replace (base + (q - base)) with q by lia].
  - apply returns_bind, returns_swap; [lia | lia |]. intros a1 Hsw. pose proof (sw_len _ _ _ _ Hsw) as Hl1.
    assert (Hstep : CmpLaws cmp -> _) by (intros HL; exact (drain_swap a a1 base (Z.of_nat (S i)) n Hb ltac:(lia) Hl Hsw HL (Hd HL))).
    apply returns_bind. eapply returns_mono; [apply (sift_spec _ a1 base 0 0 (Z.of_nat (S i))); [lia | lia | lia | lia |] |].
    { intros HL. destruct (Hstep HL) as (H1 & _). split; [done |]. intros q c x y Hq. lia. }
    intros a2 [M2 H2]. pose proof (mv_len _ _ _ _ M2) as Hl2.
    eapply returns_mono; [apply (IH a2 base n); [lia | lia | lia |] |].
    { intros HL. destruct (Hstep HL) as (_ & S1 & C1). replace (Z.of_nat i) with (Z.of_nat (S i) - 1) by lia.
      apply (drain_sifted a1); auto; lia. }
    intros a3 [M3 S3]. split; [| done]. eapply moved_trans; [eapply swapped_moved; [| | exact Hsw]; lia |].
    eapply moved_trans; [eapply moved_mono; [| | exact M2]; lia | exact M3].
Qed.

Lemma heapsortx_spec a base n :
  0 <= base -> 0 <= n -> base + n <= lenZ a ->
  returns (heapsortx cmp a base n) (fun a' => moved base (base + n) a a' /\ (CmpLaws cmp -> sorted_on a' base (base + n))).
Proof.
  intros Hb Hn Hl. unfold heapsortx. destruct (Z.ltb_spec 1 n) as [L | L].
  - pose proof (Z_div_mod_eq_full n 2) as Hdm. pose proof (Z.mod_pos_bound n 2).
    apply returns_bind. eapply returns_mono; [apply (heap_build_spec _ a base n); [lia | lia | lia |] |].
    { intros HL k c x y Hk _ Hc Hcn. lia. }
    intros a1 [M1 H1]. pose proof (mv_len _ _ _ _ M1) as Hl1.
    eapply returns_mono; [apply (heap_drain_spec _ a1 base n); [lia | lia | lia |] |].
    { intros HL. rewrite Z2Nat.id by lia. split; [replace (n - 1 + 1) with n by lia; by apply H1 |]. split; [intros p q x y Hp Hq; lia |].
      intros p q x y Hp Hq. lia. }
    intros a2 [M2 S2]. split; [by eapply moved_trans | done].
  - split; [apply moved_refl |]. intros HL p q x y Hp Hq. lia.
Qed.
End proofs.

(** * Sorting: the partition

    [split_segment] leaves the elements below the pivot, those equal to it and
    those above it in this order, and strictly fewer elements in the two outer
    parts.  Nothing here needs the comparison to be an order. *)

Section split.
Context {A : Type} (cmp : A -> A -> Z) (ptr n : Z) (pv : A).
Hypothesis Hptr : 0 <= ptr.

Definition seg (a : list A) (lo hi : Z) (P : A -> Prop) : Prop :=
  forall k x, lo <= k < hi -> at_ a (ptr + k) = Some x -> P x.

Definition same (x : A) : Prop := cmp pv x = 0.
Definition below (x : A) : Prop := 0 < cmp pv x.
Definition above (x : A) : Prop := cmp pv x < 0.

(** The parts of the segment while it is scanned. *)
Record parted (a : list A) (i j lt gt : Z) : Prop := {
  pt_len : ptr + n <= lenZ a;
  pt_idx : 1 <= lt <= i /\ i <= j /\ j <= gt <= n;
  pt_pivot : at_ a ptr = Some pv;
  pt_same_lo : seg a 1 lt same;
  pt_below : seg a lt i below;
  pt_above : seg a j gt above;
  pt_same_hi : seg a gt n same
}.

Lemma seg_extend a lo hi x (P : A -> Prop) : at_ a (ptr + hi) = Some x -> P x -> seg a lo hi P -> seg a lo (hi + 1) P.
Proof. intros Hx HP Hs k y Hk Hy. destruct (Z.eq_dec k hi) as [-> | Hne]; [by simplify_eq | apply (Hs k); [lia | done]]. Qed.

Lemma scan_left_spec fuel : forall a i j lt gt,
  parted a i j lt gt -> j - i < Z.of_nat fuel ->
  returns (scan_left cmp fuel a ptr i j lt) (fun '(a', i', lt') => moved ptr (ptr + n) a a' /\ parted a' i' j lt' gt /\ i <= i' /\
    (i' < j -> seg a' i' (i' + 1) above)).
Proof.
  induction fuel as [| fuel IH]; intros a i j lt gt Hp Hf; [pose proof (pt_idx _ _ _ _ _ Hp); lia |]. cbn [scan_left].
  pose proof Hp as [Hl Hi Hpv S1 S2 S3 S4]. destruct (Z.ltb_spec i j) as [L | L].
  2:{ split; [apply moved_refl |]. split; [done |]. split; [lia |]. lia. }
  apply returns_bind, returns_compare; [lia | lia |]. intros x y Hx Hy. rewrite Hpv in Hx. injection Hx as <-.
  destruct (Z.leb_spec 0 (cmp pv y)) as [Lc | Lc].
  2:{ split; [apply moved_refl |]. split; [done |]. split; [lia |]. intros _ k z Hk Hz. replace k with i in Hz by lia. simplify_eq. done. }
  destruct (Z.eqb_spec (cmp pv y) 0) as [E | E].
  - apply returns_bind, returns_swap; [lia | lia |]. intros a1 Hsw. pose proof Hsw as [Hat Hl1 _].
    eapply returns_mono; [apply (IH a1 (i + 1) j (lt + 1) gt); [| lia] |].
    + split; [lia | lia | rewrite Hat; tr_cases; try lia; done | | | |]; intros k z Hk; rewrite Hat; tr_cases; try lia; intros Hz;
        first [simplify_eq; done | (apply (S1 k); [lia | done]) | (apply (S2 lt); [lia | by simplify_eq]) | (apply (S2 k); [lia | done])
          | (apply (S3 k); [lia | done]) | (apply (S4 k); [lia | done])].
    + intros [[a2 i2] lt2] (M2 & P2 & L2 & A2). split; [| split; [done | split; [lia | done]]].
      eapply moved_trans; [| exact M2]. eapply swapped_moved; [| | exact Hsw]; lia.
  - eapply returns_mono; [apply (IH a (i + 1) j lt gt); [| lia] |].
    + split; try done; try lia. eapply seg_extend; [exact Hy | unfold below; lia | done].
    + intros [[a2 i2] lt2] (M2 & P2 & L2 & A2). split; [done | split; [done | split; [lia | done]]].
Qed.

(** Where the scan from the right stops. *)
Definition right_stop (a : list A) (i j lt gt : Z) : Prop :=
  if j <=? i then parted a i i lt gt
  else parted a i (j + 1) lt gt /\ seg a i (i + 1) above /\ seg a j (j + 1) below.

Lemma scan_right_spec fuel : forall a i j lt gt,
  parted a i j lt gt -> (i < j -> seg a i (i + 1) above) -> j - i < Z.of_nat fuel ->
  returns (scan_right cmp fuel a ptr i j gt) (fun '(a', j', gt') => moved ptr (ptr + n) a a' /\ right_stop a' i j' lt gt' /\ j' < j).
Proof.
  induction fuel as [| fuel IH]; intros a i j lt gt Hp Ha Hf; [pose proof (pt_idx _ _ _ _ _ Hp); lia |]. cbn [scan_right]. cbv zeta.
  pose proof Hp as [Hl Hi Hpv S1 S2 S3 S4]. destruct (Z.ltb_spec i (j - 1)) as [L | L].
  2:{ split; [apply moved_refl |]. split; [| lia]. unfold right_stop. rewrite (proj2 (Z.leb_le (j - 1) i)) by lia. split; try done; [lia |].
      intros k z Hk Hz. destruct (Z.le_gt_cases j k) as [Lk | Lk]; [apply (S3 k); [lia | done] |]. apply (Ha ltac:(lia) k); [lia | done]. }
  apply returns_bind, returns_compare; [lia | lia |]. intros x y Hx Hy. rewrite Hpv in Hx. injection Hx as <-. specialize (Ha ltac:(lia)).
  destruct (Z.leb_spec (cmp pv y) 0) as [Lc | Lc].
  2:{ split; [apply moved_refl |]. split; [| lia]. unfold right_stop. destruct (Z.leb_spec (j - 1) i); [lia |]. replace (j - 1 + 1) with j by lia.
      split; [done |]. split; [done |]. intros k z Hk Hz. replace k with (j - 1) in Hz by lia. by simplify_eq. }
  destruct (Z.eqb_spec (cmp pv y) 0) as [E | E].
  - apply returns_bind, returns_swap; [lia | lia |]. intros a1 Hsw. pose proof Hsw as [Hat Hl1 _].
    eapply returns_mono; [apply (IH a1 i (j - 1) lt (gt - 1)); [| | lia] |].
    + split; [lia | lia | rewrite Hat; tr_cases; try lia; done | | | |]; intros k z Hk; rewrite Hat; tr_cases; try lia; intros Hz;
        first [simplify_eq; done | (apply (S1 k); [lia | done]) | (apply (S2 k); [lia | done])
          | (apply (S3 (gt - 1)); [lia | by simplify_eq]) | (apply (S3 k); [lia | done]) | (apply (S4 k); [lia | done])].
    + intros _ k z Hk. rewrite Hat. tr_cases; try lia. apply (Ha k). lia.
    + intros [[a2 j2] gt2] (M2 & P2 & L2). split; [| split; [done | lia]].
      eapply moved_trans; [| exact M2]. eapply swapped_moved; [| | exact Hsw]; lia.
  - eapply returns_mono; [apply (IH a i (j - 1) lt gt); [| done | lia] |].
    + split; try done; try lia. intros k z Hk Hz. destruct (Z.eq_dec k (j - 1)) as [-> | Hne]; [simplify_eq; unfold above; lia | apply (S3 k); [lia | done]].
    + intros [[a2 j2] gt2] (M2 & P2 & L2). split; [done | split; [done | lia]].
Qed.

Lemma partition_spec fuel : forall a i j lt gt,
  parted a i j lt gt -> j - i < Z.of_nat fuel ->
  returns (partition cmp fuel a ptr i j lt gt) (fun '(a', i', lt', gt') => moved ptr (ptr + n) a a' /\ parted a' i' i' lt' gt').
Proof.
  induction fuel as [| fuel IH]; intros a i j lt gt Hp Hf; [pose proof (pt_idx _ _ _ _ _ Hp); lia |]. cbn [partition].
  apply returns_bind. eapply returns_mono; [apply (scan_left_spec _ _ _ _ _ _ Hp); lia |]. intros [[a1 i1] lt1] (M1 & P1 & L1 & A1).
  apply returns_bind. eapply returns_mono; [apply (scan_right_spec _ _ _ _ _ _ P1 A1); lia |]. intros [[a2 j2] gt2] (M2 & R2 & L2).
  pose proof (moved_trans _ _ _ _ _ M1 M2) as M12. unfold right_stop in R2. destruct (Z.leb_spec j2 i1) as [L | L]; [done |].
  destruct R2 as ([Hl Hi Hpv S1 S2 S3 S4] & Ha & Hb).
  apply returns_bind, returns_swap; [lia | lia |]. intros a3 Hsw. pose proof Hsw as [Hat Hl1 _].
  eapply returns_mono; [apply (IH a3 (i1 + 1) j2 lt1 gt2); [| lia] |].
  - split; [lia | lia | rewrite Hat; tr_cases; try lia; done | | | |]; intros k z Hk; rewrite Hat; tr_cases; try lia; intros Hz;
      first [(apply (S1 k); [lia | done]) | (apply (S2 k); [lia | done]) | (apply (Hb j2); [lia | done]) | (apply (Ha i1); [lia | done])
        | (apply (S3 k); [lia | done]) | (apply (S4 k); [lia | done])].
  - intros [[[a4 i4] lt4] gt4] (M4 & P4). split; [| done]. eapply moved_trans; [exact M12 |]. eapply moved_trans; [| exact M4].
    eapply swapped_moved; [| | exact Hsw]; lia.
Qed.

(** ** Blocks *)

(** Where the element at [k] comes from when two blocks change places. *)
Definition block (p q m k : Z) : Z :=
  if (p <=? k) && (k <? p + m) then k + (q - p) else if (q <=? k) && (k <? q + m) then k - (q - p) else k.

Lemma swap_block_spec m : forall (a : list A) p q,
  0 <= p -> p + Z.of_nat m <= q -> q + Z.of_nat m <= lenZ a ->
  returns (swap_block m a p q) (fun a' => (forall k, at_ a' k = at_ a (block p q (Z.of_nat m) k)) /\ moved p (q + Z.of_nat m) a a').
Proof.
  induction m as [| m IH]; intros a p q Hp Hpq Hl; cbn [swap_block].
  { split; [| apply moved_refl]. intros k. unfold block. by destruct (Z.leb_spec p k), (Z.ltb_spec k (p + Z.of_nat 0)), (Z.leb_spec q k), (Z.ltb_spec k (q + Z.of_nat 0)); simpl; try lia. }
  apply returns_bind, returns_swap; [lia | lia |]. intros a1 Hsw. pose proof Hsw as [Hat Hl1 _].
  eapply returns_mono; [apply (IH a1 (p + 1) (q + 1)); lia |]. intros a2 [Hat2 M2]. split.
  - intros k. rewrite Hat2, Hat. f_equal. unfold block, tr.
    destruct (Z.leb_spec p k), (Z.ltb_spec k (p + Z.of_nat (S m))), (Z.leb_spec q k), (Z.ltb_spec k (q + Z.of_nat (S m)));
    destruct (Z.leb_spec (p + 1) k), (Z.ltb_spec k (p + 1 + Z.of_nat m)), (Z.leb_spec (q + 1) k), (Z.ltb_spec k (q + 1 + Z.of_nat m)); simpl;
      repeat match goal with |- context [?x =? ?y] => destruct (Z.eqb_spec x y) end; lia.
  - eapply moved_trans; [eapply swapped_moved; [| | exact Hsw]; lia |]. eapply moved_mono; [| | exact M2]; lia.
Qed.

Definition same0 (x : A) : Prop := x = pv \/ same x.

(** Exchanging the ends of two adjacent parts exchanges the parts. *)
Lemma exchange_parts a a' lo mid hi (P Q : A -> Prop) :
  lo <= mid <= hi -> seg a lo mid P -> seg a mid hi Q ->
  (forall k, at_ a' k = at_ a (block (ptr + lo) (ptr + hi - Z.min (mid - lo) (hi - mid)) (Z.min (mid - lo) (hi - mid)) k)) ->
  seg a' lo (lo + (hi - mid)) Q /\ seg a' (lo + (hi - mid)) hi P.
Proof.
  intros Hm HP HQ Hat. split; intros k x Hk; rewrite Hat; unfold block;
    destruct (Z.leb_spec (ptr + lo) (ptr + k)), (Z.ltb_spec (ptr + k) (ptr + lo + Z.min (mid - lo) (hi - mid)));
    destruct (Z.leb_spec (ptr + hi - Z.min (mid - lo) (hi - mid)) (ptr + k)), (Z.ltb_spec (ptr + k) (ptr + hi - Z.min (mid - lo) (hi - mid) + Z.min (mid - lo) (hi - mid)));
    simpl; try lia; intros Hx.
  all: match type of Hx with at_ _ ?p = _ => first [apply (HQ (p - ptr) x); [lia | by replace (ptr + (p - ptr)) with p by lia]
    | apply (HP (p - ptr) x); [lia | by replace (ptr + (p - ptr)) with p by lia]] end.
Qed.
End split.

(** What a split leaves: the pivot, and the three parts. *)
Record split_done {A} (cmp : A -> A -> Z) (ptr n : Z) (pv : A) (a : list A) (lt gt : Z) : Prop := {
  sd_idx : 0 <= lt <= gt /\ gt <= n /\ lt + (n - gt) < n;
  sd_below : seg ptr a 0 lt (below cmp pv);
  sd_same : seg ptr a lt gt (same0 cmp pv);
  sd_above : seg ptr a gt n (above cmp pv)
}.

Section whole.
Context {A : Type} (cmp : A -> A -> Z).

Lemma med3_spec (a : list A) x y z lo hi :
  0 <= lo -> hi <= lenZ a -> lo <= x < hi -> lo <= y < hi -> lo <= z < hi -> returns (med3 cmp a x y z) (fun m => lo <= m < hi).
Proof.
  intros Hlo Hhi Hx Hy Hz. unfold med3. apply returns_bind, returns_compare; [lia | lia |]. intros u v _ _.
  destruct (cmp u v <? 0); apply returns_bind, returns_compare; try lia; intros u' v' _ _.
  - destruct (cmp u' v' <? 0); [done |]. apply returns_bind, returns_compare; try lia. intros u2 v2 _ _. simpl. by destruct (cmp u2 v2 <? 0).
  - destruct (0 <? cmp u' v'); [done |]. apply returns_bind, returns_compare; try lia. intros u2 v2 _ _. simpl. by destruct (cmp u2 v2 <? 0).
Qed.

Lemma split_segment_spec (a : list A) ptr n :
  0 <= ptr -> 6 < n -> ptr + n <= lenZ a ->
  returns (split_segment cmp a ptr n) (fun '(a', lt, gt) => moved ptr (ptr + n) a a' /\ exists pv, split_done cmp ptr n pv a' lt gt).
Proof.
  intros Hp Hn Hl. unfold split_segment. rewrite Z.shiftr_div_pow2 by lia. change (2 ^ 2) with 4. set (m4 := n / 4).
  assert (Hm4 : 1 <= m4 /\ 4 * m4 <= n) by (unfold m4; pose proof (Z_div_mod_eq_full n 4); pose proof (Z.mod_pos_bound n 4); lia).
  apply returns_bind. eapply returns_mono; [apply (med3_spec a _ _ _ ptr (ptr + n)); lia |]. intros m Hm. cbv beta in Hm.
  apply returns_bind, returns_swap; [lia | lia |]. intros a1 Hsw. pose proof (sw_len _ _ _ _ Hsw) as Hl1.
  assert (M1 : moved ptr (ptr + n) a a1) by (eapply swapped_moved; [| | exact Hsw]; lia).
  destruct (at_some a1 ptr ltac:(lia)) as [pv Hpv]. apply returns_bind.
  eapply returns_mono; [apply (partition_spec cmp ptr n pv Hp _ a1 1 n 1 n); [split; try done; try lia; intros k x Hk; lia | lia] |].
  intros [[[a2 i] lt] gt] (M2 & [Hl2 Hi Hpv2 S1 S2 S3 S4]). cbv zeta.
  assert (S0 : seg ptr a2 0 lt (same0 cmp pv)).
  { intros k x Hk Hx. destruct (Z.eq_dec k 0) as [-> | Hne]; [rewrite Z.add_0_r in Hx; left; congruence |]. right. apply (S1 k); [lia | done]. }
  apply returns_bind. eapply returns_mono; [apply (swap_block_spec _ a2 ptr); lia |]. rewrite Z2Nat.id by lia. intros a3 [Hat3 M3].
  pose proof (mv_len _ _ _ _ M3) as Hl3.
  destruct (exchange_parts ptr a2 a3 0 lt i _ _ ltac:(lia) S0 S2) as [B1 B2].
  { intros k. rewrite Hat3. f_equal. rewrite Z.add_0_r, Z.sub_0_r. done. }
  assert (Hout : forall lo hi P, i <= lo -> seg ptr a2 lo hi P -> seg ptr a3 lo hi P).
  { intros lo hi P Hlo Hs k x Hk. rewrite (mv_out _ _ _ _ M3) by lia. apply Hs. lia. }
  apply returns_bind. eapply returns_mono; [apply (swap_block_spec _ a3 (ptr + i)); lia |]. rewrite Z2Nat.id by lia. intros a4 [Hat4 M4].
  destruct (exchange_parts ptr a3 a4 i gt n _ _ ltac:(lia) (Hout i gt _ ltac:(lia) S3) (Hout gt n _ ltac:(lia) S4)) as [B3 B4].
  { intros k. rewrite Hat4. f_equal. by rewrite (Z.min_comm (n - gt)). }
  assert (Hin : forall lo hi P, hi <= i -> seg ptr a3 lo hi P -> seg ptr a4 lo hi P).
  { intros lo hi P Hhi Hs k x Hk. rewrite (mv_out _ _ _ _ M4) by lia. apply Hs. lia. }
  simpl. split; [| exists pv; split].
  - eapply moved_trans; [exact M1 |]. eapply moved_trans; [exact M2 |]. eapply moved_trans; [eapply moved_mono; [| | exact M3]; lia |].
    eapply moved_mono; [| | exact M4]; lia.
  - lia.
  - apply Hin; [lia |]. by replace (i - lt) with (0 + (i - lt)) by lia.
  - intros k x Hk Hx. destruct (Z.lt_ge_cases k i) as [Lk | Lk].
    + apply (Hin (i - lt) i (same0 cmp pv) ltac:(lia)) in Hx; [done | | lia]. by replace (i - lt) with (0 + (i - lt)) by lia.
    + right. apply (B3 k); [lia | done].
  - by replace (n - (gt - i)) with (i + (n - gt)) by lia.
Qed.
End whole.
