(* ===== verification/RqSortTheorems.v ===== *)
(** * Sorting: the whole sort

    The segments still to be sorted are the one at hand and those on the stack;
    two positions that are not in one of them are already in order.  The depth
    counter bounds the stack. *)

From stdpp Require Import base list numbers sorting sets.
From Stdlib Require Import ZArith Lia List.
From S2P Require Import Prelude RqSort RqSortProofs.

#[local] Open Scope Z_scope.

Section state.
Context {A : Type} (cmp : A -> A -> Z).

Definition covers (s : segment) (i j : Z) : Prop := sg_base s <= i /\ j < sg_base s + sg_count s.
Definition apart (s t : segment) : Prop :=
  sg_base s + sg_count s <= sg_base t \/ sg_base t + sg_count t <= sg_base s.

Definition ordered_but (a : list A) (S : list segment) : Prop :=
  forall i j x y, i < j -> at_ a i = Some x -> at_ a j = Some y -> le cmp x y \/ exists s, s ∈ S /\ covers s i j.

(** [a] is on the way from [a0] to its sorted form; [S] is what remains. *)
Record sorting (a0 a : list A) (S : list segment) : Prop := {
  so_perm : Permutation a a0;
  so_in : forall s, s ∈ S -> 0 <= sg_base s /\ 0 <= sg_count s /\ sg_base s + sg_count s <= lenZ a;
  so_apart : ForallOrdPairs apart S;
  so_ordered : CmpLaws cmp -> ordered_but a S
}.

Lemma apart_covers s t i j k : apart s t -> covers s k k -> covers t i j -> i <= k <= j -> False.
Proof. unfold apart, covers. lia. Qed.

Lemma sorting_head a0 a s S : sorting a0 a (s :: S) -> 0 <= sg_base s /\ 0 <= sg_count s /\ sg_base s + sg_count s <= lenZ a.
Proof. intros H. apply (so_in _ _ _ H), list_elem_of_here. Qed.

Lemma sorting_apart a0 a s S t : sorting a0 a (s :: S) -> t ∈ S -> apart s t.
Proof. intros H Ht. pose proof (so_apart _ _ _ H) as Ha. inversion Ha as [| ? ? Hs _]; subst. by apply (proj1 (Forall_forall _ _) Hs), list_elem_of_In. Qed.

(** Moving elements inside a pending segment keeps the state. *)
Lemma sorting_moved a0 a a' s S :
  sorting a0 a (s :: S) -> moved (sg_base s) (sg_base s + sg_count s) a a' -> sorting a0 a' (s :: S).
Proof.
  intros H [M1 M2 M3 M4]. pose proof H as [P I Ap O]. split; [by rewrite M2 | by rewrite M1 | done |].
  intros HL i j x y Hij Hx Hy. set (b := sg_base s) in *. set (e := b + sg_count s) in *.
  assert (Hout : forall k, ~ b <= k < e -> at_ a' k = at_ a k) by done.
  assert (Happly : forall i' j', at_ a i' = Some x -> at_ a j' = Some y -> i' < j' -> ~ (b <= i' /\ j' < e) ->
    (b <= i' < e \/ i' = i) -> (b <= j' < e \/ j' = j) -> (i' = i \/ j' = j) -> le cmp x y \/ exists t, t ∈ s :: S /\ covers t i j).
  { intros i' j' Hx' Hy' Hlt Hno Hi Hj Hone. destruct (O HL i' j' x y Hlt Hx' Hy') as [Hle | (t & Ht & Hc)]; [by left |].
    apply elem_of_cons in Ht as [-> | Ht]; [destruct Hno; done |]. pose proof (sorting_apart _ _ _ _ t H Ht) as Hat.
    destruct Hone as [-> | ->].
    - destruct Hj as [Hj | ->]; [exfalso; apply (apart_covers s t i j' j' Hat); [split; [apply Hj | fold b e; lia] | done | lia] |]. right. exists t. split; [by right | done].
    - destruct Hi as [Hi | ->]; [exfalso; apply (apart_covers s t i' j i' Hat); [split; [apply Hi | fold b e; lia] | done | lia] |]. right. exists t. split; [by right | done]. }
  destruct (decide (b <= i < e)) as [Hi | Hi], (decide (b <= j < e)) as [Hj | Hj].
  - right. exists s. split; [by left |]. unfold covers. fold b e. lia.
  - destruct (M4 i x Hi Hx) as (i' & Hi' & Ei). rewrite Hout in Hy by done. apply (Happly i' j); try done; try lia; auto.
  - destruct (M4 j y Hj Hy) as (j' & Hj' & Ej). rewrite Hout in Hx by done. apply (Happly i j'); try done; try lia; auto.
  - rewrite Hout in Hx, Hy by done. apply (Happly i j); auto. lia.
Qed.

(** A sorted segment is no longer pending. *)
Lemma sorting_leaf a0 a s S :
  sorting a0 a (s :: S) -> (CmpLaws cmp -> sorted_on cmp a (sg_base s) (sg_base s + sg_count s)) -> sorting a0 a S.
Proof.
  intros [P I Ap O] Hs. split; [done | intros t Ht; apply I; by right | by inversion Ap |].
  intros HL i j x y Hij Hx Hy. destruct (O HL i j x y Hij Hx Hy) as [Hle | (t & Ht & Hc)]; [by left |].
  apply elem_of_cons in Ht as [-> | Ht]; [| right; by exists t]. left. unfold covers in Hc. apply (Hs HL i j); [lia | lia | done | done].
Qed.

Lemma sorting_empty a0 a S p d : 0 <= p <= lenZ a -> (forall s, s ∈ S -> apart {| sg_base := p; sg_count := 0; sg_depth := d |} s) ->
  sorting a0 a S -> sorting a0 a ({| sg_base := p; sg_count := 0; sg_depth := d |} :: S).
Proof.
  intros Hp Hap [P I Ap O]. split; [done | | |].
  - intros s Hs. apply elem_of_cons in Hs as [-> | Hs]; [simpl; lia | by apply I].
  - constructor; [| done]. apply Forall_forall. intros s Hs. apply Hap. by apply list_elem_of_In.
  - intros HL i j x y Hij Hx Hy. destruct (O HL i j x y Hij Hx Hy) as [Hle | (t & Ht & Hc)]; [by left | right; exists t; split; [by right | done]].
Qed.

Lemma sorting_flip a0 a s t S : sorting a0 a (s :: t :: S) -> sorting a0 a (t :: s :: S).
Proof.
  intros [P I Ap O]. inversion Ap as [| ? ? H1 Ap1]; subst. inversion Ap1 as [| ? ? H2 Ap2]; subst. inversion H1 as [| ? ? H3 H4]; subst.
  split; [done | intros r Hr; apply I; set_solver | |].
  - constructor; [constructor; [unfold apart in *; lia | done] | constructor; done].
  - intros HL i j x y Hij Hx Hy. destruct (O HL i j x y Hij Hx Hy) as [Hle | (r & Hr & Hc)]; [by left | right; exists r; split; [set_solver | done]].
Qed.

(** Elements of different parts are in order. *)
Lemma parts_ordered `{!CmpLaws cmp} a ptr n pv lt gt i j x y :
  split_done cmp ptr n pv a lt gt -> ptr <= i < j -> j < ptr + n -> at_ a i = Some x -> at_ a j = Some y ->
  le cmp x y \/ j < ptr + lt \/ ptr + gt <= i.
Proof.
  intros [Hi HB HS HA] Hij Hj Hx Hy. replace i with (ptr + (i - ptr)) in Hx by lia. replace j with (ptr + (j - ptr)) in Hy by lia.
  destruct (Z.lt_ge_cases j (ptr + lt)) as [L1 | L1]; [by right; left |]. destruct (Z.le_gt_cases (ptr + gt) i) as [L2 | L2]; [by right; right |]. left.
  assert (Hxp : le cmp x pv).
  { destruct (Z.lt_ge_cases (i - ptr) lt) as [L | L].
    - pose proof (HB (i - ptr) x ltac:(lia) Hx) as H. unfold below in H. apply le_total; [done |]. unfold le. lia.
    - destruct (HS (i - ptr) x ltac:(lia) Hx) as [-> | H]; [by apply le_refl |]. unfold same, le in *. pose proof (cmp_flip pv x). lia. }
  assert (Hpy : le cmp pv y).
  { destruct (Z.lt_ge_cases (j - ptr) gt) as [L | L].
    - destruct (HS (j - ptr) y ltac:(lia) Hy) as [-> | H]; [by apply le_refl |]. unfold same, le in *. lia.
    - pose proof (HA (j - ptr) y ltac:(lia) Hy) as H. unfold above, le in *. lia. }
  by eapply le_trans.
Qed.

Lemma sorting_split a0 a s S pv lt gt d1 d2 :
  sorting a0 a (s :: S) -> split_done cmp (sg_base s) (sg_count s) pv a lt gt ->
  sorting a0 a ({| sg_base := sg_base s; sg_count := lt; sg_depth := d1 |} ::
                {| sg_base := sg_base s + gt; sg_count := sg_count s - gt; sg_depth := d2 |} :: S).
Proof.
  intros H Hd. pose proof H as [P I Ap O]. pose proof (sorting_head _ _ _ _ H) as Hs. pose proof (sd_idx _ _ _ _ _ _ _ Hd) as Hi.
  inversion Ap as [| ? ? Hap Ap']; subst. split; [done | | |].
  - intros t Ht. apply elem_of_cons in Ht as [-> | Ht]; [simpl; lia |]. apply elem_of_cons in Ht as [-> | Ht]; [simpl; lia |]. apply I. by right.
  - constructor; [constructor; [unfold apart; simpl; lia |] | constructor; [| done]]; eapply Forall_impl; try exact Hap; unfold apart; simpl; lia.
  - intros HL i j x y Hij Hx Hy. destruct (O HL i j x y Hij Hx Hy) as [Hle | (t & Ht & Hc)]; [by left |].
    apply elem_of_cons in Ht as [-> | Ht]; [| right; exists t; split; [by right; right | done]]. unfold covers in Hc.
    destruct (parts_ordered a _ _ pv lt gt i j x y Hd ltac:(lia) ltac:(lia) Hx Hy) as [Hle | [Hlt | Hge]]; [by left | right | right].
    + eexists. split; [apply list_elem_of_here |]. unfold covers. simpl. lia.
    + eexists. split; [right; apply list_elem_of_here |]. unfold covers. simpl. lia.
Qed.

Lemma sorting_depth a0 a b n d d' S :
  sorting a0 a ({| sg_base := b; sg_count := n; sg_depth := d |} :: S) -> sorting a0 a ({| sg_base := b; sg_count := n; sg_depth := d' |} :: S).
Proof.
  intros [P I Ap O]. inversion Ap as [| ? ? Hap Ap']; subst. split; [done | | |].
  - intros s Hs. apply elem_of_cons in Hs as [-> | Hs]; [apply (I _ (list_elem_of_here _ _)) | apply I; by right].
  - constructor; [| done]. eapply Forall_impl; [| exact Hap]. done.
  - intros HL i j x y Hij Hx Hy. destruct (O HL i j x y Hij Hx Hy) as [Hle | (t & Ht & Hc)]; [by left | right].
    apply elem_of_cons in Ht as [-> | Ht]; [eexists; split; [apply list_elem_of_here | done] | exists t; split; [by right | done]].
Qed.

(** ** The loops *)

(** The entries below an entry are at most as many as its depth. *)
Fixpoint deep (sp : list segment) : Prop := match sp with [] => True | s :: sp => lenZ sp <= sg_depth s /\ deep sp end.

Definition weight (sp : list segment) : Z := foldr (fun s w => 2 * sg_count s + 1 + w) 0 sp.

Lemma push_spec sp s Q : lenZ sp < 50 -> Q (s :: sp) -> returns (push sp s) Q.
Proof. intros H HQ. unfold push, STACK_SIZE. by rewrite (proj2 (Z.ltb_lt _ _) H). Qed.

(** One descent: the segment is split until it is short or too deep. *)
Lemma sort_segment_spec a0 fuel : forall a ptr n depth sp,
  sorting a0 a ({| sg_base := ptr; sg_count := n; sg_depth := 0 |} :: sp) -> deep sp -> lenZ sp <= depth -> n < Z.of_nat fuel ->
  returns (sort_segment cmp fuel a ptr n depth sp) (fun '(a', ptr', n', sp') =>
    sorting a0 a' ({| sg_base := ptr'; sg_count := n'; sg_depth := 0 |} :: sp') /\ deep sp' /\
    weight sp' + 2 * n' <= weight sp + 2 * n /\ lenZ a' = lenZ a).
Proof.
  induction fuel as [| fuel IH]; intros a ptr n depth sp Hs Hd Hh Hf; pose proof (sorting_head _ _ _ _ Hs) as Hr; simpl in Hr; [lia |].
  cbn [sort_segment]. destruct (Z.ltb_spec 6 n) as [L | L]; [| done]. cbv zeta. destruct (Z.ltb_spec 50 (depth + 1)) as [Ld | Ld].
  - apply returns_bind. eapply returns_mono; [apply (heapsortx_spec cmp a ptr n); lia |]. intros a1 [M1 S1]. simpl.
    pose proof (mv_len _ _ _ _ M1) as Hl1. pose proof (sorting_moved _ _ _ _ _ Hs M1) as Hs1. split; [| split; [done | split; [lia | done]]].
    apply sorting_empty; [lia | | by apply (sorting_leaf a0 a1 _ sp Hs1)].
    intros s Hin. pose proof (sorting_apart _ _ _ _ s Hs Hin) as Hap. unfold apart in *. simpl in *. pose proof (so_in _ _ _ Hs1 s ltac:(by right)). lia.
  - apply returns_bind. eapply returns_mono; [apply (split_segment_spec cmp a ptr n); lia |]. intros [[a1 lt] gt] (M1 & pv & Hsd).
    pose proof (mv_len _ _ _ _ M1) as Hl1. pose proof (sorting_moved _ _ _ _ _ Hs M1) as Hs1. pose proof (sd_idx _ _ _ _ _ _ _ Hsd) as Hi.
    assert (Hlen : forall s : segment, lenZ (s :: sp) <= depth + 1) by (intros s; unfold lenZ in *; simpl; lia).
    destruct (Z.ltb_spec (n - gt) lt) as [Lc | Lc]; apply returns_bind, push_spec; try lia.
    + pose proof (sorting_flip _ _ _ _ _ (sorting_split a0 a1 _ sp pv lt gt (depth + 1) 0 Hs1 Hsd)) as Hs2.
      eapply returns_mono; [apply (IH a1 (ptr + gt) (n - gt) (depth + 1) _ Hs2); [split; [simpl; lia | done] | done | lia] |].
      intros [[[a2 p2] n2] sp2] (Q1 & Q2 & Q3 & Q4). split; [done |]. split; [done |]. simpl in Q3. split; [lia | congruence].
    + pose proof (sorting_split a0 a1 _ sp pv lt gt 0 (depth + 1) Hs1 Hsd) as Hs2.
      eapply returns_mono; [apply (IH a1 ptr lt (depth + 1) _ Hs2); [split; [simpl; lia | done] | done | lia] |].
      intros [[[a2 p2] n2] sp2] (Q1 & Q2 & Q3 & Q4). split; [done |]. split; [done |]. simpl in Q3. split; [lia | congruence].
Qed.

Lemma weight_nonneg a0 a sp : sorting a0 a sp -> 0 <= weight sp.
Proof.
  intros H. pose proof (so_in _ _ _ H) as Hin. clear H. induction sp as [| s sp IH]; simpl; [done |].
  pose proof (Hin s ltac:(by left)). specialize (IH ltac:(intros t Ht; apply Hin; by right)). lia.
Qed.

Lemma rqsort_loop_spec a0 fuel : forall a sp,
  sorting a0 a sp -> deep sp -> weight sp < Z.of_nat fuel -> returns (rqsort_loop cmp fuel a sp) (fun a' => sorting a0 a' []).
Proof.
  induction fuel as [| fuel IH]; intros a sp Hs Hd Hf; [pose proof (weight_nonneg _ _ _ Hs); lia |]. cbn [rqsort_loop].
  destruct sp as [| [b n d] sp]; [done |]. simpl in Hd, Hf. destruct Hd as [Hd1 Hd2]. cbn [sg_base sg_count sg_depth].
  pose proof (sorting_head _ _ _ _ Hs) as Hr. simpl in Hr.
  apply returns_bind. eapply returns_mono; [apply (sort_segment_spec a0 _ a b n d sp); [by eapply sorting_depth | done | lia | unfold lenZ in *; lia] |].
  intros [[[a1 p1] n1] sp1] (Q1 & Q2 & Q3 & Q4). pose proof (sorting_head _ _ _ _ Q1) as Hr1. simpl in Hr1.
  apply returns_bind. eapply returns_mono; [apply (insertion_spec cmp _ a1 p1 (p1 + 1) (p1 + n1)); [lia | lia | unfold lenZ in *; lia |] |].
  { intros HL i j x y Hi Hj. lia. }
  intros a2 [M2 S2]. pose proof (sorting_leaf _ _ _ _ (sorting_moved _ _ _ _ _ Q1 M2) S2) as Hs2.
  apply IH; [done | done | lia].
Qed.

(** The sort returns, for every comparison function, with a permutation of
    the array; for an order the result is sorted. *)
Lemma rqsort_spec a :
  returns (rqsort cmp a) (fun a' => Permutation a' a /\ (CmpLaws cmp -> sorted_on cmp a' 0 (lenZ a'))).
Proof.
  unfold rqsort. destruct (Z.ltb_spec (lenZ a) 2) as [L | L].
  { simpl. split; [done |]. intros HL i j x y Hi Hj. lia. }
  eapply returns_mono; [apply (rqsort_loop_spec a) |].
  - split; [done | | repeat constructor |].
    + intros s Hin. apply list_elem_of_singleton in Hin as ->. simpl. lia.
    + intros HL i j x y Hij Hx Hy. apply at_range in Hx, Hy. right. eexists. split; [apply list_elem_of_here |]. unfold covers. simpl. lia.
  - split; [unfold lenZ; simpl; lia | done].
  - unfold weight, lenZ. simpl. lia.
  - intros a' [P _ _ O]. split; [done |]. intros HL i j x y Hi Hj Hx Hy.
    destruct (O HL i j x y ltac:(lia) Hx Hy) as [Hle | (s & Hin & _)]; [done | by apply not_elem_of_nil in Hin].
Qed.
End state.

Lemma sorted_on_strongly {A} (cmp : A -> A -> Z) a : sorted_on cmp a 0 (lenZ a) -> StronglySorted (le cmp) a.
Proof.
  induction a as [| x a IH]; intros Hs; constructor.
  - apply IH. intros i j u v Hi Hj Hu Hv. apply (Hs (i + 1) (j + 1)); [lia | unfold lenZ in *; simpl; lia | |].
    + unfold at_ in *. rewrite (proj2 (Z.leb_le 0 i)) in Hu by lia. rewrite (proj2 (Z.leb_le 0 (i + 1))) by lia.
      by replace (Z.to_nat (i + 1)) with (S (Z.to_nat i)) by lia.
    + unfold at_ in *. rewrite (proj2 (Z.leb_le 0 j)) in Hv by lia. rewrite (proj2 (Z.leb_le 0 (j + 1))) by lia.
      by replace (Z.to_nat (j + 1)) with (S (Z.to_nat j)) by lia.
  - apply Forall_forall. intros y Hy. apply list_elem_of_In, list_elem_of_lookup in Hy as [k Hk].
    pose proof (lookup_lt_Some _ _ _ Hk). apply (Hs 0 (Z.of_nat k + 1)); [lia | unfold lenZ; simpl; lia | done |].
    unfold at_. rewrite (proj2 (Z.leb_le 0 _)) by lia. by replace (Z.to_nat (Z.of_nat k + 1)) with (S k) by lia.
Qed.

Lemma rqsort_sorted {A} (cmp : A -> A -> Z) `{!CmpLaws cmp} a :
  exists a', rqsort cmp a = Done a' /\ Permutation a' a /\ StronglySorted (le cmp) a'.
Proof.
  destruct (returns_done _ _ (rqsort_spec cmp a)) as (a' & E & P & S). exists a'. split; [done |]. split; [done |].
  by apply sorted_on_strongly, S.
Qed.

(** C6: [rqsort] sorts: for a comparison that is the sign of a total preorder it
    returns, within the array and its stack of 50 segments, a permutation of
    the array in which every element is at most the ones after it. *)
Theorem rqsort_sorts {A} (cmp : A -> A -> Z) `{!CmpLaws cmp} a :
  exists a', rqsort cmp a = Done a' /\ Permutation a' a /\ StronglySorted (le cmp) a'.
Proof. by apply rqsort_sorted. Qed.

(** C31: whatever the comparison function answers, be it inconsistent, [rqsort]
    terminates, stays inside the array, never pushes on a full stack, and leaves
    a permutation of the array. *)
Theorem rqsort_any_cmp_safe {A} (cmp : A -> A -> Z) a : exists a', rqsort cmp a = Done a' /\ Permutation a' a.
Proof. destruct (returns_done _ _ (rqsort_spec cmp a)) as (a' & E & P & _). by exists a'. Qed.

Definition sub_cmp (x y : Z) : Z := x - y.

Lemma sub_cmp_laws : CmpLaws sub_cmp.
Proof. split; unfold sub_cmp; lia. Qed.

Lemma rqsort_sorts_witness :
  CmpLaws sub_cmp /\ exists a', rqsort sub_cmp [5; 3; 9; 3; 1; 8; 2; 7] = Done a' /\ Permutation a' [5; 3; 9; 3; 1; 8; 2; 7] /\ StronglySorted (le sub_cmp) a'.
Proof. split; [apply sub_cmp_laws |]. exact (rqsort_sorts sub_cmp (CmpLaws0 := sub_cmp_laws) [5; 3; 9; 3; 1; 8; 2; 7]). Defined.
