(* ===== verification/RqExchange.v ===== *)
(** * Sorting: exchanging elements byte for byte (cutils.h: [exchange_*])

    [rqsort] moves elements with the widest word that divides both the address
    of the array and the size of an element.  Memory is a list of bytes, a word
    is the list of its bytes; the exchange chosen by [exchange_func] is shown to
    exchange whole elements, which is what [swap] and [swap_block] do. *)

From stdpp Require Import base list numbers.
From Stdlib Require Import ZArith Lia.
From S2P Require Import Prelude RqSort RqSortProofs.

#[local] Open Scope nat_scope.

(** A word of [g] bytes at an address, and storing one. *)
Definition word (g : nat) (m : list Z) (p : nat) : list Z := take g (drop p m).
Definition put (m : list Z) (p : nat) (w : list Z) : list Z := take p m ++ w ++ drop (p + length w) m.

(** [t = *ap; *ap = *bp; *bp = t] *)
Definition exchange_word (g : nat) (m : list Z) (ap bp : nat) : list Z :=
  let t := word g m ap in
  put (put m ap (word g m bp)) bp t.

(** Two 64-bit words at a time. *)
Definition exchange_pair (m : list Z) (ap bp : nat) : list Z :=
  let t := word 8 m ap in
  let u := word 8 m (ap + 8) in
  let m := put m ap (word 8 m bp) in
  let m := put m (ap + 8) (word 8 m (bp + 8)) in
  put (put m bp t) (bp + 8) u.

Fixpoint exchange_loop (step : list Z -> nat -> nat -> list Z) (g count : nat) (m : list Z) (ap bp : nat) : list Z :=
  match count with
  | O => m
  | S count => exchange_loop step g count (step m ap bp) (ap + g) (bp + g)
  end.

Definition exchange_bytes (m : list Z) (a b size : nat) : list Z := exchange_loop (exchange_word 1) 1 size m a b.
Definition exchange_one_byte (m : list Z) (a b size : nat) : list Z := exchange_word 1 m a b.
Definition exchange_int16s (m : list Z) (a b size : nat) : list Z := exchange_loop (exchange_word 2) 2 (size / 2) m a b.
Definition exchange_one_int16 (m : list Z) (a b size : nat) : list Z := exchange_word 2 m a b.
Definition exchange_int32s (m : list Z) (a b size : nat) : list Z := exchange_loop (exchange_word 4) 4 (size / 4) m a b.
Definition exchange_one_int32 (m : list Z) (a b size : nat) : list Z := exchange_word 4 m a b.
Definition exchange_int64s (m : list Z) (a b size : nat) : list Z := exchange_loop (exchange_word 8) 8 (size / 8) m a b.
Definition exchange_one_int64 (m : list Z) (a b size : nat) : list Z := exchange_word 8 m a b.
Definition exchange_int128s (m : list Z) (a b size : nat) : list Z := exchange_loop exchange_pair 16 (size / 16) m a b.
Definition exchange_one_int128 (m : list Z) (a b size : nat) : list Z := exchange_pair m a b.

Definition exchange_func (base size : nat) : list Z -> nat -> nat -> nat -> list Z :=
  match Nat.land (Nat.lor base size) 15 with
  | 0 => if size =? 16 then exchange_one_int128 else exchange_int128s
  | 8 => if size =? 8 then exchange_one_int64 else exchange_int64s
  | 4 | 12 => if size =? 4 then exchange_one_int32 else exchange_int32s
  | 2 | 6 | 10 | 14 => if size =? 2 then exchange_one_int16 else exchange_int16s
  | _ => if size =? 1 then exchange_one_byte else exchange_bytes
  end.

(** ** Proofs *)

(** Where byte [k] comes from when the blocks of [L] bytes at [p] and [q] change
    places. *)
Definition blk (p q L k : nat) : nat :=
  if (p <=? k) && (k <? p + L) then k - p + q else if (q <=? k) && (k <? q + L) then k - q + p else k.

Definition separate (p q L : nat) : Prop := p = q \/ p + L <= q \/ q + L <= p.

Record exchanged (p q L : nat) (m m' : list Z) : Prop := {
  ex_at k : m' !! k = m !! blk p q L k;
  ex_len : length m' = length m
}.

Lemma lookup_put m p w k : p + length w <= length m -> put m p w !! k = if (p <=? k) && (k <? p + length w) then w !! (k - p) else m !! k.
Proof.
  intros H. unfold put. destruct (Nat.leb_spec p k) as [L1 | L1]; simpl.
  - rewrite lookup_app_r by (rewrite length_take; lia). rewrite length_take, Nat.min_l by lia. destruct (Nat.ltb_spec k (p + length w)) as [L2 | L2].
    + by rewrite lookup_app_l by lia.
    + rewrite lookup_app_r by lia. rewrite lookup_drop. f_equal. lia.
  - rewrite lookup_app_l by (rewrite length_take; lia). by rewrite lookup_take_lt by lia.
Qed.

Lemma length_put m p w : p + length w <= length m -> length (put m p w) = length m.
Proof. intros H. unfold put. rewrite !length_app, length_take, length_drop. lia. Qed.

Lemma length_word g m p : p + g <= length m -> length (word g m p) = g.
Proof. intros H. unfold word. rewrite length_take, length_drop. lia. Qed.

Lemma lookup_word g m p k : k < g -> word g m p !! k = m !! (p + k).
Proof. intros H. unfold word. rewrite lookup_take_lt by lia. by rewrite lookup_drop. Qed.

(** Case analysis on the comparisons of the goal, impossible cases dropped. *)
Ltac cmp_cases := repeat match goal with
  | |- context [?x <=? ?y] => destruct (Nat.leb_spec x y); try (exfalso; lia)
  | |- context [?x <? ?y] => destruct (Nat.ltb_spec x y); try (exfalso; lia) end; simpl; try lia.

Lemma blk_first p q L k : p <= k < p + L -> blk p q L k = k - p + q.
Proof. intros H. unfold blk. cmp_cases. Qed.

Lemma blk_second p q L k : separate p q L -> q <= k < q + L -> blk p q L k = k - q + p.
Proof. intros Hs H. unfold blk, separate in *. cmp_cases. Qed.

Lemma blk_other p q L k : ~ p <= k < p + L -> ~ q <= k < q + L -> blk p q L k = k.
Proof. intros H H'. unfold blk. cmp_cases. Qed.

(** Two adjacent pairs of blocks, one after the other. *)
Lemma blk_blk p q g L k : separate p q (g + L) -> blk p q g (blk (p + g) (q + g) L k) = blk p q (g + L) k.
Proof.
  intros Hs. assert (H1 : separate p q g) by (unfold separate in *; lia). assert (H2 : separate (p + g) (q + g) L) by (unfold separate in *; lia).
  destruct (decide (p <= k < p + (g + L))) as [Hk | Hk]; [rewrite (blk_first p q (g + L)) by lia |].
  - destruct (decide (k < p + g)) as [Hg | Hg].
    + rewrite (blk_other (p + g)) by (unfold separate in *; lia). rewrite blk_first by lia. done.
    + rewrite (blk_first (p + g)) by lia. destruct (decide (p = q)) as [-> | Hne]; [rewrite blk_other by lia; lia |].
      rewrite blk_other by (unfold separate in *; lia). lia.
  - destruct (decide (q <= k < q + (g + L))) as [Hq | Hq]; [rewrite (blk_second p q (g + L)) by done |].
    + destruct (decide (k < q + g)) as [Hg | Hg].
      * rewrite (blk_other (p + g)) by (unfold separate in *; lia). rewrite blk_second by (done || lia). done.
      * rewrite (blk_second (p + g)) by (done || lia). rewrite blk_other by (unfold separate in *; lia). lia.
    + rewrite (blk_other p q (g + L)), (blk_other (p + g)) by lia. by rewrite blk_other by lia.
Qed.

Lemma exchange_word_spec g m p q :
  p + g <= length m -> q + g <= length m -> separate p q g -> exchanged p q g m (exchange_word g m p q).
Proof.
  intros Hp Hq Hs. unfold exchange_word. cbv zeta. pose proof (length_word g m p Hp) as L1. pose proof (length_word g m q Hq) as L2.
  pose proof (length_put m p (word g m q) ltac:(lia)) as L3. split; [| rewrite length_put; lia].
  intros k. rewrite !lookup_put by (rewrite ?L3; lia). rewrite L1, L2. unfold blk, separate in *.
  cmp_cases; rewrite ?lookup_word by lia; f_equal; lia.
Qed.

Lemma exchange_pair_spec m p q :
  p + 16 <= length m -> q + 16 <= length m -> separate p q 16 -> exchanged p q 16 m (exchange_pair m p q).
Proof.
  intros Hp Hq Hs. unfold exchange_pair. cbv zeta.
  set (m1 := put m p (word 8 m q)). set (m2 := put m1 (p + 8) (word 8 m1 (q + 8))).
  assert (N1 : length m1 = length m) by (apply length_put; rewrite length_word; lia).
  assert (N2 : length m2 = length m) by (unfold m2; rewrite length_put; rewrite ?length_word; lia).
  assert (N3 : length (put m2 q (word 8 m p)) = length m) by (rewrite length_put; rewrite ?length_word; lia).
  split; [| rewrite length_put; rewrite ?length_word; lia].
  assert (A1 : forall k, m1 !! k = if (p <=? k) && (k <? p + 8) then m !! (k - p + q) else m !! k).
  { intros k. unfold m1. rewrite lookup_put by (rewrite length_word; lia). rewrite length_word by lia. cmp_cases; try done. rewrite lookup_word by lia. f_equal. lia. }
  assert (A2 : forall k, m2 !! k = if (p <=? k) && (k <? p + 16) then m !! (k - p + q) else m !! k).
  { intros k. unfold m2. rewrite lookup_put by (rewrite length_word; lia). rewrite length_word by lia.
    destruct ((p + 8 <=? k) && (k <? p + 8 + 8)) eqn:E.
    - apply andb_prop in E as [E1 E2]. apply Nat.leb_le in E1. apply Nat.ltb_lt in E2. rewrite lookup_word, A1 by lia. unfold separate in Hs.
      cmp_cases; f_equal; lia.
    - apply andb_false_iff in E. rewrite Nat.leb_gt, Nat.ltb_ge in E. rewrite A1. cmp_cases; done. }
  intros k. rewrite lookup_put by (rewrite length_word; lia). rewrite length_word by lia. unfold blk, separate in *.
  rewrite lookup_put by (rewrite length_word; lia). rewrite length_word, A2 by lia.
  cmp_cases; rewrite ?lookup_word by lia; f_equal; lia.
Qed.

Lemma exchange_loop_spec step g :
  (forall m p q, p + g <= length m -> q + g <= length m -> separate p q g -> exchanged p q g m (step m p q)) ->
  forall count m p q, p + count * g <= length m -> q + count * g <= length m -> separate p q (count * g) ->
    exchanged p q (count * g) m (exchange_loop step g count m p q).
Proof.
  intros Hstep. induction count as [| count IH]; intros m p q Hp Hq Hs; cbn [exchange_loop].
  { split; [| done]. intros k. f_equal. unfold blk. cmp_cases. }
  cbn [Nat.mul] in *. set (X := count * g) in *. assert (Hs1 : separate p q g) by (unfold separate in *; lia).
  destruct (Hstep m p q ltac:(lia) ltac:(lia) Hs1) as [A1 L1].
  destruct (IH (step m p q) (p + g) (q + g)) as [A2 L2]; [lia | lia | unfold separate in *; lia |].
  split; [| lia]. intros k. rewrite A2, A1, blk_blk by done. done.
Qed.

(** ** The choice of the word *)

Lemma low_bits b s k : Nat.lor b s mod 2 ^ k = 0 -> s mod 2 ^ k = 0.
Proof. rewrite <- !Nat.land_ones, Nat.land_lor_distr_l. intros H. by apply Nat.lor_eq_0_iff in H as [_ H]. Qed.

Lemma mod_weaken x k k' : k' <= k -> x mod 2 ^ k = 0 -> x mod 2 ^ k' = 0.
Proof.
  intros Hk H. apply Nat.Lcm0.mod_divide. apply Nat.Lcm0.mod_divide in H. etransitivity; [| exact H].
  exists (2 ^ (k - k')). rewrite <- Nat.pow_add_r. f_equal. lia.
Qed.

(** The low bits of address and size that vanish for the chosen word. *)
Lemma func_cases base s (P : (list Z -> nat -> nat -> nat -> list Z) -> Prop) :
  (s mod 16 = 0 -> P (if s =? 16 then exchange_one_int128 else exchange_int128s)) ->
  (s mod 8 = 0 -> P (if s =? 8 then exchange_one_int64 else exchange_int64s)) ->
  (s mod 4 = 0 -> P (if s =? 4 then exchange_one_int32 else exchange_int32s)) ->
  (s mod 2 = 0 -> P (if s =? 2 then exchange_one_int16 else exchange_int16s)) ->
  P (if s =? 1 then exchange_one_byte else exchange_bytes) ->
  P (exchange_func base s).
Proof.
  intros H16 H8 H4 H2 H1. unfold exchange_func. change 15 with (Nat.ones 4). rewrite Nat.land_ones. change (2 ^ 4) with 16.
  set (x := Nat.lor base s). assert (Hx : x mod 16 < 16) by (apply Nat.mod_upper_bound; lia). pose proof (Nat.div_mod_eq x 16) as Hd.
  assert (Hlow : forall k, x mod 2 ^ k = 0 -> s mod 2 ^ k = 0) by (intros k; apply low_bits).
  assert (Hat : forall g c, 16 = g * c -> x mod 16 mod g = 0 -> x mod g = 0).
  { intros g c Hg Hm. rewrite Hd, Hg, <- Nat.mul_assoc, Nat.mul_comm, Nat.add_comm. rewrite Nat.Div0.mod_add. by rewrite <- Hg. }
  destruct (x mod 16) as [| [| [| [| [| [| [| [| [| [| [| [| [| [| [| [| r]]]]]]]]]]]]]]]] eqn:E; try lia; try exact H1;
    first [apply H16, (Hlow 4); exact E | apply H8, (Hlow 3), (Hat 8 2); done | apply H4, (Hlow 2), (Hat 4 4); done | apply H2, (Hlow 1), (Hat 2 8); done].
Qed.

Lemma words_spec step g m p q L :
  (forall m p q, p + g <= length m -> q + g <= length m -> separate p q g -> exchanged p q g m (step m p q)) ->
  0 < g -> L mod g = 0 -> p + L <= length m -> q + L <= length m -> separate p q L ->
  exchanged p q L m (exchange_loop step g (L / g) m p q).
Proof.
  intros Hstep Hg Hd Hp Hq Hs. assert (E : L / g * g = L) by (pose proof (Nat.div_mod_eq L g); lia).
  rewrite <- E at 1. apply exchange_loop_spec; rewrite ?E; done.
Qed.

(** The exchange chosen for [s] exchanges blocks of [L] bytes when every power
    of two up to 16 that divides [s] divides [L]. *)
Lemma exchange_func_spec base s m p q L :
  (forall k, k <= 4 -> s mod 2 ^ k = 0 -> L mod 2 ^ k = 0) -> (s = 16 \/ s = 8 \/ s = 4 \/ s = 2 \/ s = 1 -> L = s) ->
  p + L <= length m -> q + L <= length m -> separate p q L -> exchanged p q L m (exchange_func base s m p q L).
Proof.
  intros Hdiv Hone Hp Hq Hs. apply func_cases; [intros H | intros H | intros H | intros H |].
  - destruct (Nat.eqb_spec s 16) as [-> | _]; [rewrite Hone in * by lia; by apply exchange_pair_spec |].
    apply (words_spec _ 16); [apply exchange_pair_spec | lia | apply (Hdiv 4); [lia | done] | done | done | done].
  - destruct (Nat.eqb_spec s 8) as [-> | _]; [rewrite Hone in * by lia; by apply exchange_word_spec |].
    apply (words_spec _ 8); [apply exchange_word_spec | lia | apply (Hdiv 3); [lia | done] | done | done | done].
  - destruct (Nat.eqb_spec s 4) as [-> | _]; [rewrite Hone in * by lia; by apply exchange_word_spec |].
    apply (words_spec _ 4); [apply exchange_word_spec | lia | apply (Hdiv 2); [lia | done] | done | done | done].
  - destruct (Nat.eqb_spec s 2) as [-> | _]; [rewrite Hone in * by lia; by apply exchange_word_spec |].
    apply (words_spec _ 2); [apply exchange_word_spec | lia | apply (Hdiv 1); [lia | done] | done | done | done].
  - destruct (Nat.eqb_spec s 1) as [-> | _]; [rewrite Hone in * by lia; by apply exchange_word_spec |].
    pose proof (words_spec _ 1 m p q L (exchange_word_spec 1) ltac:(lia) (Nat.mod_1_r L) Hp Hq Hs) as H. by rewrite Nat.div_1_r in H.
Qed.

(** ** Elements *)

Section elements.
Context (base size nmemb : nat).
Hypothesis Hsize : 0 < size.

(** The array as a list of elements, each the list of its bytes. *)
Definition elements (m : list Z) : list (list Z) := map (fun k => word size m (base + k * size)) (seq 0 nmemb).

Lemma length_elements m : length (elements m) = nmemb.
Proof. unfold elements. by rewrite length_map, length_seq. Qed.

Lemma elements_at m k : (k < nmemb)%nat -> elements m !! k = Some (word size m (base + k * size)).
Proof. intros Hk. unfold elements. rewrite list_lookup_fmap, lookup_seq_lt by done. done. Qed.

(** Exchanging blocks of bytes exchanges blocks of elements. *)
Lemma blk_elements i j n k r :
  separate i j n -> r < size ->
  blk (base + i * size) (base + j * size) (n * size) (base + k * size + r) = base + blk i j n k * size + r.
Proof.
  intros Hs Hr. assert (Hlt : forall x y, x < y -> x * size + r < y * size) by (intros x y Hxy; nia).
  assert (Hle : forall x y, x <= y -> x * size <= y * size) by (intros x y Hxy; nia).
  assert (Hsep : separate (base + i * size) (base + j * size) (n * size)).
  { destruct Hs as [-> | [H | H]]; [by left | right; left | right; right]; apply Hle in H; lia. }
  destruct (decide (i <= k < i + n)) as [Hi | Hi]; [| destruct (decide (j <= k < j + n)) as [Hj | Hj]].
  - rewrite !blk_first; [| lia |]; [pose proof (Hle i k ltac:(lia)); rewrite Nat.mul_add_distr_r, Nat.mul_sub_distr_r; lia |].
    pose proof (Hle i k ltac:(lia)). pose proof (Hlt k (i + n) ltac:(lia)). lia.
  - rewrite !blk_second; [| done | lia | done |]; [pose proof (Hle j k ltac:(lia)); rewrite Nat.mul_add_distr_r, Nat.mul_sub_distr_r; lia |].
    pose proof (Hle j k ltac:(lia)). pose proof (Hlt k (j + n) ltac:(lia)). lia.
  - rewrite (blk_other i j) by lia. apply blk_other.
    + destruct (decide (k < i)) as [L | L]; [pose proof (Hlt k i L); lia | pose proof (Hle (i + n) k ltac:(lia)); lia].
    + destruct (decide (k < j)) as [L | L]; [pose proof (Hlt k j L); lia | pose proof (Hle (j + n) k ltac:(lia)); lia].
Qed.

Lemma exchanged_elements m m' i j n k :
  exchanged (base + i * size) (base + j * size) (n * size) m m' -> separate i j n ->
  word size m' (base + k * size) = word size m (base + blk i j n k * size).
Proof.
  intros [Hat _] Hs. apply list_eq. intros r. destruct (decide (r < size)) as [Hr | Hr].
  - rewrite !lookup_word, Hat, blk_elements by done. done.
  - unfold word. rewrite !lookup_take_ge by lia. done.
Qed.

Lemma at_elements m k : (k < nmemb)%nat -> at_ (elements m) (Z.of_nat k) = Some (word size m (base + k * size)).
Proof. intros Hk. unfold at_. rewrite (proj2 (Z.leb_le 0 _)), Nat2Z.id by lia. by apply elements_at. Qed.

(** An array of elements rearranged like the bytes is the array of the bytes. *)
Lemma rearranged m m' a i j n :
  lenZ a = lenZ (elements m) -> exchanged (base + i * size) (base + j * size) (n * size) m m' -> separate i j n ->
  i + n <= nmemb -> j + n <= nmemb ->
  (forall k, (k < nmemb)%nat -> at_ a (Z.of_nat k) = at_ (elements m) (Z.of_nat (blk i j n k))) -> a = elements m'.
Proof.
  intros Hl He Hs Hi Hj Ha. unfold lenZ in Hl. rewrite length_elements in Hl. apply list_eq. intros k. destruct (decide (k < nmemb)) as [Hk | Hk].
  - specialize (Ha k Hk). unfold at_ at 1 in Ha. rewrite (proj2 (Z.leb_le 0 _)), Nat2Z.id in Ha by lia. rewrite Ha, at_elements, elements_at by (try done; unfold blk; cmp_cases).
    by rewrite (exchanged_elements m m' i j n k He Hs).
  - rewrite !lookup_ge_None_2; [done | rewrite length_elements; lia | lia].
Qed.

Lemma array_separate i j n : separate i j n -> separate (base + i * size) (base + j * size) (n * size).
Proof. intros [-> | [H | H]]; [by left | right; left | right; right]; apply (Nat.mul_le_mono_r _ _ size) in H; lia. Qed.

Lemma block_in_array (m : list Z) i n : base + nmemb * size <= length m -> i + n <= nmemb -> base + i * size + n * size <= length m.
Proof. intros H Hi. apply (Nat.mul_le_mono_r _ _ size) in Hi. lia. Qed.

Lemma exchange_is_swap m i j :
  base + nmemb * size <= length m -> i < nmemb -> j < nmemb ->
  swap (elements m) (Z.of_nat i) (Z.of_nat j) = Done (elements (exchange_func base size m (base + i * size) (base + j * size) size)).
Proof.
  intros Hm Hi Hj. assert (Hs : separate i j 1) by (unfold separate; lia).
  assert (He : exchanged (base + i * size) (base + j * size) (1 * size) m (exchange_func base size m (base + i * size) (base + j * size) size)).
  { pose proof (array_separate i j 1 Hs) as Ha. pose proof (block_in_array m i 1 Hm ltac:(lia)). pose proof (block_in_array m j 1 Hm ltac:(lia)).
    rewrite Nat.mul_1_l in *. apply exchange_func_spec; try done. }
  pose proof (length_elements m) as Hl. apply returns_done_eq, returns_swap; [unfold lenZ; lia | unfold lenZ; lia |].
  intros a [Hat Hla _]. apply (rearranged m _ a i j 1); try done; try lia. intros k Hk. rewrite Hat. f_equal. unfold tr, blk. cmp_cases;
    repeat match goal with |- context [(?x =? ?y)%Z] => destruct (Z.eqb_spec x y) end; lia.
Qed.

Lemma exchange_is_swap_block m i j n :
  base + nmemb * size <= length m -> i + n <= j -> j + n <= nmemb ->
  swap_block n (elements m) (Z.of_nat i) (Z.of_nat j) =
  Done (elements (exchange_func base (Nat.lor size 128) m (base + i * size) (base + j * size) (n * size))).
Proof.
  intros Hm Hi Hj. assert (Hs : separate i j n) by (unfold separate; lia).
  assert (Hbig : 128 <= Nat.lor size 128).
  { etransitivity; [| apply (Nat.land_le_l _ 128)]. apply Nat.eq_le_incl, Nat.bits_inj. intros k.
    rewrite Nat.land_spec, Nat.lor_spec. by destruct (Nat.testbit size k), (Nat.testbit 128 k). }
  assert (He : exchanged (base + i * size) (base + j * size) (n * size) m (exchange_func base (Nat.lor size 128) m (base + i * size) (base + j * size) (n * size))).
  { pose proof (array_separate i j n Hs) as Ha. pose proof (block_in_array m i n Hm ltac:(lia)). pose proof (block_in_array m j n Hm ltac:(lia)).
    apply exchange_func_spec; try done; [| lia]. intros k Hk Hd. rewrite Nat.lor_comm in Hd. apply low_bits in Hd.
    apply Nat.Lcm0.mod_divide. apply Nat.Lcm0.mod_divide in Hd. by apply Nat.divide_mul_r. }
  pose proof (length_elements m) as Hl. apply returns_done_eq. eapply returns_mono; [apply (swap_block_spec n (elements m)); unfold lenZ; lia |].
  intros a [Hat M]. apply (rearranged m _ a i j n); try done; try lia; [by apply (mv_len _ _ _ _ M) |]. intros k Hk. rewrite Hat. f_equal. unfold block, blk.
  cmp_cases; repeat match goal with |- context [(?x <=? ?y)%Z] => destruct (Z.leb_spec x y); try (exfalso; lia) | |- context [(?x <? ?y)%Z] => destruct (Z.ltb_spec x y); try (exfalso; lia) end; simpl; lia.
Qed.
End elements.

Lemma exchange_outside base s m p q L k :
  exchanged p q L m (exchange_func base s m p q L) -> ~ p <= k < p + L -> ~ q <= k < q + L -> exchange_func base s m p q L !! k = m !! k.
Proof. intros [Hat _] H1 H2. rewrite Hat, blk_other by done. done. Qed.

(** the byte-wise exchanges that [exchange_func] selects for an array of
    [nmemb] elements of [size] bytes do what [swap] and [swap_block] do to the
    array of elements, for every alignment of the array and every size. *)
Theorem exchange_refines_swap base size nmemb m i j :
  0 < size -> base + nmemb * size <= length m -> i < nmemb -> j < nmemb ->
  swap (elements base size nmemb m) (Z.of_nat i) (Z.of_nat j) =
    Done (elements base size nmemb (exchange_func base size m (base + i * size) (base + j * size) size)) /\
  forall n, i + n <= j -> j + n <= nmemb ->
    swap_block n (elements base size nmemb m) (Z.of_nat i) (Z.of_nat j) =
      Done (elements base size nmemb (exchange_func base (Nat.lor size 128) m (base + i * size) (base + j * size) (n * size))).
Proof. intros Hs Hm Hi Hj. split; [by apply exchange_is_swap |]. intros n Hn Hn'. by apply exchange_is_swap_block. Qed.

(** Eight bytes from address 4: three elements of two bytes among them. *)
Lemma exchange_refines_swap_witness :
  swap (elements 4 2 3 [0; 1; 2; 3; 4; 5; 6; 7; 8; 9; 10; 11]%Z) 0 2 =
    Done (elements 4 2 3 (exchange_func 4 2 [0; 1; 2; 3; 4; 5; 6; 7; 8; 9; 10; 11]%Z 4 8 2)).
Proof. apply (exchange_refines_swap 4 2 3 [0; 1; 2; 3; 4; 5; 6; 7; 8; 9; 10; 11]%Z 0 2); simpl; lia. Defined.
