(* ===== verification/CharRange.v ===== *)
(** * Character ranges (libunicode.c, libunicode.h)

    A [CharRange] is a growing array of points; a set of code points is given
    by the half-open intervals between consecutive points.  The regular
    expression compiler builds its character classes with these functions.

    The buffer is a list of [cr_size] points of which the first [cr_len] count;
    the loops update it in place by index, as the code does.  The allocator
    behind [realloc_func] is the class [Realloc]; it may refuse.  [int] sizes
    stay far below their limit in the theorems. *)

From stdpp Require Import base list numbers sorting.
From Stdlib Require Import ZArith Lia.
From S2P Require Import Prelude StateRun RqSort.

#[local] Open Scope st_scope.
#[local] Open Scope Z_scope.

(** [realloc_func] with the state behind [mem_opaque]: the old buffer, the
    number of points asked for, and the new buffer or NULL. *)
Class Realloc := {
  ropaque : Type;
  realloc_func : ropaque -> list Z -> Z -> option (list Z) * ropaque
}.

Definition UINT32_MAX : Z := 2 ^ 32 - 1.

Record CharRange := { cr_len : Z; cr_size : Z; cr_points : list Z }.

Inductive CharRangeOpEnum := CR_OP_UNION | CR_OP_INTER | CR_OP_XOR | CR_OP_SUB.

(** ** In-place loops *)

(** The inner loop of [cr_compress]: the last interval of a run of adjacent
    ones that starts at [j]. *)
Fixpoint compress_run (fuel : nat) (pt : list Z) (len j : Z) : run Z :=
  match fuel with
  | O => Spins
  | S fuel =>
      if (j + 3 <? len) && (nthZ 0 pt (j + 1) =? nthZ 0 pt (j + 2)) then compress_run fuel pt len (j + 2) else Done j
  end.

Fixpoint compress_loop (fuel : nat) (pt : list Z) (len i k : Z) : run (list Z * Z) :=
  match fuel with
  | O => Spins
  | S fuel =>
      if i + 1 <? len then
        if nthZ 0 pt i =? nthZ 0 pt (i + 1) then compress_loop fuel pt len (i + 2) k
        else
          let* j := compress_run (S fuel) pt len i in
          let pt := setZ k (nthZ 0 pt i) pt in
          let pt := setZ (k + 1) (nthZ 0 pt (j + 1)) pt in
          compress_loop fuel pt len (j + 2) (k + 2)
      else Done (pt, k)
  end.

Definition cr_compress (cr : CharRange) : run CharRange :=
  let* (pt, k) := compress_loop (S (Z.to_nat (cr_len cr))) (cr_points cr) (cr_len cr) 0 0 in
  Done {| cr_len := k; cr_size := cr_size cr; cr_points := pt |}.

(** ** Overlapping intervals *)

Fixpoint pairs (l : list Z) : list (Z * Z) :=
  match l with
  | s :: e :: l => (s, e) :: pairs l
  | _ => []
  end.
Fixpoint flat (l : list (Z * Z)) : list Z :=
  match l with
  | [] => []
  | (s, e) :: l => s :: e :: flat l
  end.

(** The inner loop of [cr_sort_and_remove_overlap]: extend [fin] over the
    intervals that meet it. *)
Fixpoint overlap_run (fuel : nat) (pt : list Z) (len fin i : Z) : run (Z * Z) :=
  match fuel with
  | O => Spins
  | S fuel =>
      if i <? len then
        let start1 := nthZ 0 pt i in
        let end1 := nthZ 0 pt (i + 1) in
        if fin <? start1 then Done (fin, i)
        else if end1 <=? fin then overlap_run fuel pt len fin (i + 2)
        else overlap_run fuel pt len end1 (i + 2)
      else Done (fin, i)
  end.

Fixpoint overlap_loop (fuel : nat) (pt : list Z) (len i j : Z) : run (list Z * Z) :=
  match fuel with
  | O => Spins
  | S fuel =>
      if i <? len then
        let start := nthZ 0 pt i in
        let* (fin, i) := overlap_run (S fuel) pt len (nthZ 0 pt (i + 1)) (i + 2) in
        overlap_loop fuel (setZ (j + 1) fin (setZ j start pt)) len i (j + 2)
      else Done (pt, j)
  end.

Definition point_cmp (p1 p2 : Z * Z) : Z := b2z (fst p2 <? fst p1) - b2z (fst p1 <? fst p2).

(** The elements that are sorted are pairs of points, compared by the first. *)
Definition cr_sort_and_remove_overlap (cr : CharRange) : run CharRange :=
  let n := Z.to_nat (cr_len cr) in
  let* sorted := rqsort point_cmp (pairs (take n (cr_points cr))) in
  let pt := flat sorted ++ drop n (cr_points cr) in
  let* (pt, j) := overlap_loop (S n) pt (cr_len cr) 0 0 in
  Done {| cr_len := j; cr_size := cr_size cr; cr_points := pt |}.

Section ranges.
Context `{RE : Realloc}.

Definition C (A : Type) : Type := ST ropaque A.

Definition cr_empty : CharRange := {| cr_len := 0; cr_size := 0; cr_points := [] |}.
Definition cr_init : CharRange := cr_empty.

Definition cr_free (cr : CharRange) : C unit := scall (fun o => (tt, snd (realloc_func o (cr_points cr) 0))).

(** 0 or -1, and the range. *)
Definition cr_realloc (cr : CharRange) (size : Z) : C (Z * CharRange) :=
  if cr_size cr <? size then
    let new_size := Z.max size (Z.quot (i32 (cr_size cr * 3)) 2) in
    let^ new_buf := scall (fun o => realloc_func o (cr_points cr) new_size) in
    sret match new_buf with
         | None => (-1, cr)
         | Some b => (0, {| cr_len := cr_len cr; cr_size := new_size; cr_points := b |})
         end
  else sret (0, cr).

(** [cr->points[cr->len++] = v] *)
Definition cr_push (cr : CharRange) (v : Z) : CharRange :=
  {| cr_len := cr_len cr + 1; cr_size := cr_size cr; cr_points := setZ (cr_len cr) v (cr_points cr) |}.

Definition cr_add_point (cr : CharRange) (v : Z) : C (Z * CharRange) :=
  if cr_size cr <=? cr_len cr then
    let^ (rc, cr) := cr_realloc cr (cr_len cr + 1) in
    sret (if rc =? 0 then (0, cr_push cr v) else (-1, cr))
  else sret (0, cr_push cr v).

Definition cr_add_interval (cr : CharRange) (c1 c2 : Z) : C (Z * CharRange) :=
  if cr_size cr <? cr_len cr + 2 then
    let^ (rc, cr) := cr_realloc cr (cr_len cr + 2) in
    sret (if rc =? 0 then (0, cr_push (cr_push cr c1) c2) else (-1, cr))
  else sret (0, cr_push (cr_push cr c1) c2).

(** [memcpy] of the counted points of [cr1]. *)
Definition cr_copy (cr cr1 : CharRange) : C (Z * CharRange) :=
  let^ (rc, cr) := cr_realloc cr (cr_len cr1) in
  sret (if rc =? 0 then
          (0, {| cr_len := cr_len cr1; cr_size := cr_size cr;
                 cr_points := take (Z.to_nat (cr_len cr1)) (cr_points cr1) ++ drop (Z.to_nat (cr_len cr1)) (cr_points cr) |})
        else (-1, cr)).

(** The next point of [a] or [b] in increasing order with the new indices. *)
Definition next_point (a b : list Z) (a_len b_len a_idx b_idx : Z) : option (Z * Z * Z) :=
  let a_add := Some (nthZ 0 a a_idx, a_idx + 1, b_idx) in
  let b_add := Some (nthZ 0 b b_idx, a_idx, b_idx + 1) in
  if (a_idx <? a_len) && (b_idx <? b_len) then
    if nthZ 0 a a_idx <? nthZ 0 b b_idx then a_add
    else if nthZ 0 a a_idx =? nthZ 0 b b_idx then Some (nthZ 0 a a_idx, a_idx + 1, b_idx + 1)
    else b_add
  else if a_idx <? a_len then a_add
  else if b_idx <? b_len then b_add
  else None.

Definition op_is_in (op : CharRangeOpEnum) (a_idx b_idx : Z) : Z :=
  match op with
  | CR_OP_UNION => Z.lor (Z.land a_idx 1) (Z.land b_idx 1)
  | CR_OP_INTER => Z.land (Z.land a_idx 1) (Z.land b_idx 1)
  | CR_OP_XOR => Z.lxor (Z.land a_idx 1) (Z.land b_idx 1)
  | CR_OP_SUB => Z.land (Z.land a_idx 1) (Z.lxor (Z.land b_idx 1) 1)
  end.

Fixpoint cr_op_loop (fuel : nat) (cr : CharRange) (a b : list Z) (a_len b_len : Z) (op : CharRangeOpEnum)
    (a_idx b_idx : Z) : C (Z * CharRange) :=
  match fuel with
  | O => slift Spins
  | S fuel =>
      match next_point a b a_len b_len a_idx b_idx with
      | None => let^ cr := slift (cr_compress cr) in sret (0, cr)
      | Some (v, a_idx, b_idx) =>
          if negb (op_is_in op a_idx b_idx =? Z.land (cr_len cr) 1) then
            let^ (rc, cr) := cr_add_point cr v in
            if rc =? 0 then cr_op_loop fuel cr a b a_len b_len op a_idx b_idx else sret (-1, cr)
          else cr_op_loop fuel cr a b a_len b_len op a_idx b_idx
      end
  end.

Definition cr_op (cr : CharRange) (a_pt : list Z) (a_len : Z) (b_pt : list Z) (b_len : Z) (op : CharRangeOpEnum)
    : C (Z * CharRange) :=
  cr_op_loop (S (Z.to_nat a_len + Z.to_nat b_len)) cr a_pt b_pt a_len b_len op 0 0.

Definition cr_op1 (cr : CharRange) (b_pt : list Z) (b_len : Z) (op : CharRangeOpEnum) : C (Z * CharRange) :=
  let a := cr in
  let^ r := cr_op cr_empty (cr_points a) (cr_len a) b_pt b_len op in
  cr_free a ;^
  sret r.

Definition cr_union_interval (cr : CharRange) (c1 c2 : Z) : C (Z * CharRange) :=
  cr_op1 cr [c1; u32 (c2 + 1)] 2 CR_OP_UNION.

(** [memmove(points + 1, points, len)] *)
Definition shift_up (pt : list Z) (len : Z) : list Z :=
  take 1 pt ++ take (Z.to_nat len) pt ++ drop (Z.to_nat (len + 1)) pt.

Definition cr_invert (cr : CharRange) : C (Z * CharRange) :=
  let len := cr_len cr in
  let^ (rc, cr) := cr_realloc cr (len + 2) in
  if rc =? 0 then
    let pt := shift_up (cr_points cr) len in
    let pt := setZ (len + 1) UINT32_MAX (setZ 0 0 pt) in
    let^ cr := slift (cr_compress {| cr_len := len + 2; cr_size := cr_size cr; cr_points := pt |}) in
    sret (0, cr)
  else sret (-1, cr).
End ranges.
