(* ===== verification/CharRangeSets.v ===== *)
(** * Character ranges as sets

    [inside] reads a list of points as a set.  Strictly increasing lists of
    even length are canonical: two of them with the same members are equal.
    [squash] and [combine] are what the loops of [cr_compress] and [cr_op]
    compute, as functions on lists, with their effect on the set. *)

From stdpp Require Import base list numbers sorting sets.
From Stdlib Require Import ZArith Lia.
From S2P Require Import Prelude StateRun CharRange.

#[local] Open Scope Z_scope.

(** A point is inside when an odd number of points do not exceed it. *)
Fixpoint inside (l : list Z) (x : Z) : bool :=
  match l with
  | [] => false
  | p :: l => xorb (p <=? x) (inside l x)
  end.

Definition ascending (l : list Z) : Prop := StronglySorted Z.le l.
Definition increasing (l : list Z) : Prop := StronglySorted Z.lt l.
Definition even (l : list Z) : Prop := exists n, length l = (2 * n)%nat.

(** What the compiler of regular expressions may rely on. *)
Definition canonical (l : list Z) : Prop := increasing l /\ even l.

Lemma pair_ind (P : list Z -> Prop) :
  P [] -> (forall x y l, even l -> P l -> P (x :: y :: l)) -> forall l, even l -> P l.
Proof.
  intros H0 H2. assert (forall n l, length l = (2 * n)%nat -> P l); [| intros l [n Hn]; eauto].
  induction n as [| n IH]; intros l Hl.
  - by destruct l.
  - destruct l as [| x [| y l]]; simpl in Hl; try lia. apply H2; [exists n; lia | apply IH; lia].
Qed.

Lemma even_app l l' : even l -> even l' -> even (l ++ l').
Proof. intros [n H] [m H']. exists (n + m)%nat. rewrite length_app. lia. Qed.

Lemma even_cons2 x y l : even (x :: y :: l) <-> even l.
Proof. split; intros [n Hn]; simpl in Hn; [exists (n - 1)%nat | exists (S n)]; simpl; lia. Qed.

Lemma inside_app l l' x : inside (l ++ l') x = xorb (inside l x) (inside l' x).
Proof. induction l as [| p l IH]; simpl; [by destruct (inside l' x) |]. rewrite IH. by rewrite xorb_assoc. Qed.

Lemma inside_below l x : (forall p, p ∈ l -> x < p) -> inside l x = false.
Proof.
  induction l as [| p l IH]; simpl; intros H; [done |]. rewrite IH by set_solver.
  specialize (H p ltac:(set_solver)). destruct (Z.leb_spec p x); [lia | done].
Qed.

Lemma increasing_ascending l : increasing l -> ascending l.
Proof. induction 1 as [| p l _ IH Hp]; constructor; [done |]. eapply Forall_impl; [exact Hp | simpl; lia]. Qed.

Lemma ascending_cons p l : ascending (p :: l) <-> ascending l /\ forall q, q ∈ l -> p <= q.
Proof.
  split.
  - intros H. inversion H as [| ? ? Hl Hp]; subst. split; [done |]. by apply Forall_forall.
  - intros [Hl Hp]. constructor; [done |]. by apply Forall_forall.
Qed.

Lemma increasing_cons p l : increasing (p :: l) <-> increasing l /\ forall q, q ∈ l -> p < q.
Proof.
  split.
  - intros H. inversion H as [| ? ? Hl Hp]; subst. split; [done |]. by apply Forall_forall.
  - intros [Hl Hp]. constructor; [done |]. by apply Forall_forall.
Qed.

(** A set has one canonical list of points. *)
Lemma increasing_unique l : forall l', increasing l -> increasing l' -> (forall x, inside l x = inside l' x) -> l = l'.
Proof.
  assert (Hhead : forall p l, increasing (p :: l) -> inside (p :: l) p = true).
  { intros p k H. apply increasing_cons in H as [_ H]. simpl. rewrite Z.leb_refl, inside_below by done. done. }
  induction l as [| p l IH]; intros [| q l'] Hl Hl' He.
  - done.
  - specialize (He q). rewrite Hhead in He by done. done.
  - specialize (He p). rewrite Hhead in He by done. done.
  - assert (Epq : p = q).
    { destruct (Z.lt_trichotomy p q) as [L | [E | L]]; [exfalso | done | exfalso].
      - specialize (He p). rewrite Hhead, inside_below in He; [done | | done].
        apply increasing_cons in Hl' as [_ H]. intros r Hr. apply elem_of_cons in Hr as [-> | Hr]; [done |]. specialize (H r Hr). lia.
      - specialize (He q). rewrite Hhead, inside_below in He; [done | | done].
        apply increasing_cons in Hl as [_ H]. intros r Hr. apply elem_of_cons in Hr as [-> | Hr]; [done |]. specialize (H r Hr). lia. }
    subst q. f_equal. apply IH; [by apply increasing_cons in Hl as [? _] | by apply increasing_cons in Hl' as [? _] |].
    intros x. specialize (He x). simpl in He. by destruct (p <=? x), (inside l x), (inside l' x).
Qed.

(** ** Merging adjacent intervals *)

(** [cur] is the interval being extended. *)
Fixpoint squash (cur : option (Z * Z)) (l : list Z) : list Z :=
  match l with
  | x :: y :: l =>
      match cur with
      | None => if x =? y then squash None l else squash (Some (x, y)) l
      | Some (s, e) =>
          if e =? x then squash (Some (s, y)) l
          else s :: e :: (if x =? y then squash None l else squash (Some (x, y)) l)
      end
  | _ => match cur with None => [] | Some (s, e) => [s; e] end
  end.

Definition cur_points (cur : option (Z * Z)) : list Z := match cur with None => [] | Some (s, e) => [s; e] end.

Lemma squash_inside l x : even l -> forall cur, inside (squash cur l) x = inside (cur_points cur ++ l) x.
Proof.
  revert l. apply (pair_ind (fun l => forall cur, inside (squash cur l) x = inside (cur_points cur ++ l) x)); [by intros [[s e] |] |].
  intros p q l _ IH cur. simpl squash. destruct cur as [[s e] |]; simpl.
  - destruct (Z.eqb_spec e p) as [-> | _].
    + rewrite IH. simpl. by destruct (s <=? x), (p <=? x), (q <=? x), (inside l x).
    + simpl. destruct (Z.eqb_spec p q) as [-> | _]; rewrite IH; simpl; [| done].
      by destruct (s <=? x), (e <=? x), (q <=? x), (inside l x).
  - destruct (Z.eqb_spec p q) as [-> | _]; rewrite IH; simpl; [| done]. by destruct (q <=? x), (inside l x).
Qed.

Lemma squash_even l : even l -> forall cur, even (squash cur l).
Proof.
  revert l. apply (pair_ind (fun l => forall cur, even (squash cur l))); [by intros [[s e] |]; [exists 1%nat | exists 0%nat] |].
  intros p q l _ IH cur. simpl. repeat case_match; try apply even_cons2; done.
Qed.

Lemma squash_elem l : even l -> forall cur z, z ∈ squash cur l -> z ∈ cur_points cur ++ l.
Proof.
  revert l. apply (pair_ind (fun l => forall cur z, z ∈ squash cur l -> z ∈ cur_points cur ++ l)).
  { intros [[s e] |] z; set_solver. }
  intros p q l _ IH cur z. simpl. destruct cur as [[s e] |]; simpl; repeat case_match;
    rewrite ?elem_of_cons; intros Hz; repeat (destruct Hz as [-> | Hz]; [set_solver |]); apply IH in Hz; set_solver.
Qed.

Definition cur_ok (cur : option (Z * Z)) (l : list Z) : Prop :=
  match cur with None => True | Some (s, e) => s < e /\ forall q, q ∈ l -> e <= q end.

Lemma squash_increasing l : even l -> ascending l -> forall cur, cur_ok cur l -> increasing (squash cur l).
Proof.
  revert l. apply (pair_ind (fun l => ascending l -> forall cur, cur_ok cur l -> increasing (squash cur l))).
  { intros _ [[s e] |]; simpl; [| intros; constructor]. intros [H _]. repeat constructor. done. }
  intros p q l He IH Ha cur Hc. apply ascending_cons in Ha as [Ha Hp]. apply ascending_cons in Ha as [Ha Hq].
  assert (Hpq : p <= q) by (apply Hp; set_solver).
  assert (Hnew : forall c, c = (if p =? q then None else Some (p, q)) -> increasing (squash c l) /\ forall z, z ∈ squash c l -> p <= z).
  { intros c ->. split.
    - destruct (Z.eqb_spec p q) as [-> | Hne]; apply IH; try done. split; [lia | done].
    - intros z Hz. apply squash_elem in Hz; [| done]. destruct (Z.eqb_spec p q) as [-> | Hne]; simpl in Hz; [by apply Hq |].
      rewrite !elem_of_cons in Hz. destruct Hz as [-> | [-> | Hz]]; [lia | lia |]. specialize (Hq z Hz). lia. }
  simpl. destruct cur as [[s e] |]; simpl in Hc.
  - destruct Hc as [Hse Hle]. pose proof (Hle p ltac:(set_solver)) as Hep. destruct (Z.eqb_spec e p) as [-> | Hne].
    + apply IH; [done |]. split; [lia | done].
    + assert (E : (if p =? q then squash None l else squash (Some (p, q)) l) = squash (if p =? q then None else Some (p, q)) l) by by destruct (p =? q).
      rewrite E. destruct (Hnew _ eq_refl) as [H1 H2]. apply increasing_cons. split; [apply increasing_cons; split; [done |] |].
      * intros z Hz. specialize (H2 z Hz). lia.
      * intros z Hz. apply elem_of_cons in Hz as [-> | Hz]; [done |]. specialize (H2 z Hz). lia.
  - destruct (Z.eqb_spec p q) as [-> | Hne]; apply IH; try done. split; [lia | done].
Qed.

(** ** Set operations *)

Definition op_sem (op : CharRangeOpEnum) (x y : bool) : bool :=
  match op with
  | CR_OP_UNION => x || y
  | CR_OP_INTER => x && y
  | CR_OP_XOR => xorb x y
  | CR_OP_SUB => x && negb y
  end.

(** [v] is a point of the result when the status changes from [s] to [s']. *)
Definition emit (s s' : bool) (v : Z) (l : list Z) : list Z := if Bool.eqb s s' then l else v :: l.

(** The points of the result; [pa], [pb] say whether the points consumed so far
    leave an interval of [a], [b] open. *)
Fixpoint combine (op : CharRangeOpEnum) (a : list Z) : bool -> bool -> list Z -> list Z :=
  fix from_b (pa pb : bool) (b : list Z) : list Z :=
    let s := op_sem op pa pb in
    match a, b with
    | [], [] => []
    | x :: a, [] => emit s (op_sem op (negb pa) pb) x (combine op a (negb pa) pb [])
    | [], y :: b => emit s (op_sem op pa (negb pb)) y (from_b pa (negb pb) b)
    | x :: a', y :: b' =>
        if x <? y then emit s (op_sem op (negb pa) pb) x (combine op a' (negb pa) pb b)
        else if x =? y then emit s (op_sem op (negb pa) (negb pb)) x (combine op a' (negb pa) (negb pb) b')
        else emit s (op_sem op pa (negb pb)) y (from_b pa (negb pb) b')
    end.

(** One step of it: which point comes next, and what remains. *)
Inductive next_of : list Z -> list Z -> bool -> bool -> Z -> list Z -> list Z -> bool -> bool -> Prop :=
  | no_a x a b pa pb : (forall y, hd_error b = Some y -> x < y) -> next_of (x :: a) b pa pb x a b (negb pa) pb
  | no_b y a b pa pb : (forall x, hd_error a = Some x -> y < x) -> next_of a (y :: b) pa pb y a b pa (negb pb)
  | no_ab x a b pa pb : next_of (x :: a) (x :: b) pa pb x a b (negb pa) (negb pb).

Lemma combine_step op a b pa pb :
  (a = [] /\ b = [] /\ combine op a pa pb b = []) \/
  exists v a' b' pa' pb', next_of a b pa pb v a' b' pa' pb' /\ (length a' + length b' < length a + length b)%nat /\
    combine op a pa pb b = emit (op_sem op pa pb) (op_sem op pa' pb') v (combine op a' pa' pb' b').
Proof.
  destruct a as [| x a], b as [| y b].
  - by left.
  - right. exists y, [], b, pa, (negb pb). split; [by constructor |]. split; [simpl; lia | done].
  - right. exists x, a, [], (negb pa), pb. split; [by constructor |]. split; [simpl; lia | done].
  - right. simpl. destruct (Z.ltb_spec x y); [| destruct (Z.eqb_spec x y) as [-> |]].
    + exists x, a, (y :: b), (negb pa), pb. split; [constructor; simpl; congruence |]. split; [simpl; lia | done].
    + exists y, a, b, (negb pa), (negb pb). split; [constructor |]. split; [simpl; lia | done].
    + exists y, (x :: a), b, pa, (negb pb). split; [constructor; simpl; intros z [= <-]; lia |]. split; [simpl; lia | done].
Qed.

(** Induction along the merge. *)
Lemma combine_ind op (Q : list Z -> list Z -> bool -> bool -> list Z -> Prop) :
  (forall pa pb, Q [] [] pa pb []) ->
  (forall a b pa pb v a' b' pa' pb' l, next_of a b pa pb v a' b' pa' pb' -> l = combine op a' pa' pb' b' -> Q a' b' pa' pb' l ->
     Q a b pa pb (emit (op_sem op pa pb) (op_sem op pa' pb') v l)) ->
  forall a b pa pb, Q a b pa pb (combine op a pa pb b).
Proof.
  intros H0 H1. assert (forall n a b pa pb, (length a + length b <= n)%nat -> Q a b pa pb (combine op a pa pb b)); [| eauto].
  induction n as [| n IH]; intros a b pa pb Hn; destruct (combine_step op a b pa pb) as [(-> & -> & ->) | (v & a' & b' & pa' & pb' & Hs & Hl & ->)]; auto; [lia |].
  eapply H1; [exact Hs | done |]. apply IH. lia.
Qed.

Lemma next_facts a b pa pb v a' b' pa' pb' :
  next_of a b pa pb v a' b' pa' pb' -> ascending a -> ascending b ->
  ascending a' /\ ascending b' /\ (forall z, z ∈ a \/ z ∈ b -> v <= z) /\ (forall z, z ∈ a' \/ z ∈ b' -> v <= z) /\
  (v ∈ a \/ v ∈ b) /\ (forall z, z ∈ a' -> z ∈ a) /\ (forall z, z ∈ b' -> z ∈ b) /\
  (forall x, v <= x -> xorb pa' (inside a' x) = xorb pa (inside a x) /\ xorb pb' (inside b' x) = xorb pb (inside b x)).
Proof.
  intros Hn Ha Hb.
  assert (Hhd : forall (l : list Z) z, ascending l -> (forall y, hd_error l = Some y -> z < y) -> forall q, q ∈ l -> z <= q).
  { intros l z Hl Hh q Hq. destruct l as [| p l]; [by apply not_elem_of_nil in Hq |]. specialize (Hh p eq_refl).
    apply ascending_cons in Hl as [_ Hl]. apply elem_of_cons in Hq as [-> | Hq]; [lia |]. specialize (Hl q Hq). lia. }
  assert (Hx : forall p l (x : Z) (q : bool), p <= x -> xorb (negb q) (inside l x) = xorb q (inside (p :: l) x)).
  { intros p l x q L. simpl. rewrite (proj2 (Z.leb_le _ _) L). by destruct q, (inside l x). }
  destruct Hn as [v a b pa pb Hh | v a b pa pb Hh | v a b pa pb].
  - apply ascending_cons in Ha as [Ha Hv]. split; [done |]. split; [done |]. pose proof (Hhd b v Hb Hh) as Hbv.
    split; [intros z; rewrite elem_of_cons; intros [[-> | ?] | ?]; [lia | auto | auto] |]. split; [intros z [? | ?]; auto |].
    split; [set_solver |]. split; [set_solver |]. split; [done |]. intros x Hle. split; [by apply Hx | done].
  - apply ascending_cons in Hb as [Hb Hv]. split; [done |]. split; [done |]. pose proof (Hhd a v Ha Hh) as Hav.
    split; [intros z; rewrite elem_of_cons; intros [? | [-> | ?]]; [auto | lia | auto] |]. split; [intros z [? | ?]; auto |].
    split; [set_solver |]. split; [done |]. split; [set_solver |]. intros x Hle. split; [done | by apply Hx].
  - apply ascending_cons in Ha as [Ha Hv]. apply ascending_cons in Hb as [Hb Hw]. split; [done |]. split; [done |].
    split; [intros z; rewrite !elem_of_cons; intros [[-> | ?] | [-> | ?]]; auto; lia |]. split; [intros z [? | ?]; auto |].
    split; [set_solver |]. split; [set_solver |]. split; [set_solver |]. intros x Hle. split; by apply Hx.
Qed.

Lemma emit_elem s s' v l z : z ∈ emit s s' v l -> z = v \/ z ∈ l.
Proof. unfold emit. destruct (Bool.eqb s s'); set_solver. Qed.

Lemma combine_elem op a b pa pb :
  ascending a -> ascending b -> forall z, z ∈ combine op a pa pb b -> z ∈ a \/ z ∈ b.
Proof.
  revert a b pa pb. apply (combine_ind op (fun a b _ _ l => ascending a -> ascending b -> forall z, z ∈ l -> z ∈ a \/ z ∈ b)).
  { intros _ _ _ _ z Hz. by apply not_elem_of_nil in Hz. }
  intros a b pa pb v a' b' pa' pb' l Hn -> IH Ha Hb z Hz. destruct (next_facts _ _ _ _ _ _ _ _ _ Hn Ha Hb) as (A1 & A2 & _ & _ & A3 & A4 & A5 & _).
  apply emit_elem in Hz as [-> | Hz]; [done |]. destruct (IH A1 A2 z Hz); auto.
Qed.

Lemma combine_ascending op a b pa pb : ascending a -> ascending b -> ascending (combine op a pa pb b).
Proof.
  revert a b pa pb. apply (combine_ind op (fun a b _ _ l => ascending a -> ascending b -> ascending l)); [constructor |].
  intros a b pa pb v a' b' pa' pb' l Hn -> IH Ha Hb. destruct (next_facts _ _ _ _ _ _ _ _ _ Hn Ha Hb) as (A1 & A2 & _ & A3 & _).
  specialize (IH A1 A2). unfold emit. destruct (Bool.eqb _ _); [done |]. apply ascending_cons. split; [done |].
  intros q Hq. apply A3. by eapply combine_elem.
Qed.

Lemma combine_inside op a b pa pb x :
  ascending a -> ascending b ->
  xorb (op_sem op pa pb) (inside (combine op a pa pb b) x) = op_sem op (xorb pa (inside a x)) (xorb pb (inside b x)).
Proof.
  revert a b pa pb. apply (combine_ind op (fun a b pa pb l => ascending a -> ascending b ->
    xorb (op_sem op pa pb) (inside l x) = op_sem op (xorb pa (inside a x)) (xorb pb (inside b x)))).
  { intros pa pb _ _. simpl. by rewrite !xorb_false_r. }
  intros a b pa pb v a' b' pa' pb' l Hn -> IH Ha Hb.
  destruct (next_facts _ _ _ _ _ _ _ _ _ Hn Ha Hb) as (A1 & A2 & A3 & A4 & _ & _ & _ & A5). specialize (IH A1 A2).
  destruct (Z.le_gt_cases v x) as [L | L].
  - destruct (A5 x L) as [<- <-]. rewrite <- IH. unfold emit. set (R := inside (combine op a' pa' pb' b') x). destruct (Bool.eqb _ _) eqn:E.
    + apply Bool.eqb_prop in E. by rewrite E.
    + simpl. rewrite (proj2 (Z.leb_le _ _) L). fold R. by destruct (op_sem op pa pb), (op_sem op pa' pb'), R.
  - rewrite !inside_below, !xorb_false_r; [done | | |].
    + intros p Hp. specialize (A3 p (or_intror Hp)). lia.
    + intros p Hp. specialize (A3 p (or_introl Hp)). lia.
    + intros p Hp. apply emit_elem in Hp as [-> | Hp]; [done |]. apply combine_elem in Hp; [| done | done]. specialize (A4 p Hp). lia.
Qed.

Lemma inside_above l x : (forall p, p ∈ l -> p <= x) -> inside l x = Nat.odd (length l).
Proof.
  induction l as [| p l IH]; intros H; [done |]. simpl length. rewrite Nat.odd_succ, <- Nat.negb_odd. simpl.
  rewrite IH by set_solver. rewrite (proj2 (Z.leb_le _ _)) by (apply H; set_solver). done.
Qed.

Lemma even_odd l : even l <-> Nat.odd (length l) = false.
Proof.
  split.
  - intros [n ->]. rewrite Nat.odd_mul. done.
  - intros H. rewrite <- Nat.negb_even in H. apply negb_false_iff, Nat.even_spec in H as [n Hn]. by exists n.
Qed.

Lemma combine_even op a b : ascending a -> ascending b -> even a -> even b -> even (combine op a false false b).
Proof.
  intros Ha Hb Ea Eb. apply even_odd. set (x := foldr Z.max 0 (a ++ b)).
  assert (Hx : forall z, z ∈ a ++ b -> z <= x).
  { unfold x. generalize (a ++ b). clear. intros l. induction l as [| p l IH]; intros z Hz; [by apply not_elem_of_nil in Hz |].
    simpl. apply elem_of_cons in Hz as [-> | Hz]; [lia |]. specialize (IH z Hz). lia. }
  rewrite <- (inside_above _ x).
  - pose proof (combine_inside op a b false false x Ha Hb) as H. rewrite (inside_above a), (inside_above b) in H by (intros; apply Hx; set_solver).
    apply even_odd in Ea, Eb. rewrite Ea, Eb in H. by destruct op.
  - intros z Hz. apply Hx. apply combine_elem in Hz; [| done | done]. set_solver.
Qed.

(** The merge takes the step its heads determine. *)
Lemma combine_next op a b pa pb v a' b' pa' pb' :
  next_of a b pa pb v a' b' pa' pb' ->
  combine op a pa pb b = emit (op_sem op pa pb) (op_sem op pa' pb') v (combine op a' pa' pb' b').
Proof.
  intros [x l b0 p q Hh | y a0 l p q Hh | x l l0 p q].
  - destruct b0 as [| y b0]; [done |]. specialize (Hh y eq_refl). simpl. by rewrite (proj2 (Z.ltb_lt _ _) Hh).
  - destruct a0 as [| x a0]; [done |]. specialize (Hh x eq_refl). simpl.
    rewrite (proj2 (Z.ltb_ge x y)), (proj2 (Z.eqb_neq x y)) by lia. done.
  - simpl. by rewrite Z.ltb_irrefl, Z.eqb_refl.
Qed.

(** ** Overlapping intervals *)

Definition in_pairs (l : list (Z * Z)) (x : Z) : Prop := exists s e, (s, e) ∈ l /\ s <= x < e.

Definition by_start (p q : Z * Z) : Prop := fst p <= fst q.

(** The intervals from [s, e) on, those that meet fused. *)
Fixpoint fuse (s e : Z) (l : list (Z * Z)) : list Z :=
  match l with
  | [] => [s; e]
  | (s1, e1) :: l => if e <? s1 then s :: e :: fuse s1 e1 l else fuse s (Z.max e e1) l
  end.

Definition fuse_all (l : list (Z * Z)) : list Z := match l with [] => [] | (s, e) :: l => fuse s e l end.

Lemma fuse_head l : forall s e, hd_error (fuse s e l) = Some s.
Proof. induction l as [| [s1 e1] l IH]; intros s e; simpl; [done |]. destruct (e <? s1); [done | apply IH]. Qed.

Lemma fuse_spec l : forall s e,
  s < e -> (forall p, p ∈ l -> fst p < snd p) -> StronglySorted by_start ((s, e) :: l) ->
  canonical (fuse s e l) /\ (forall z, z ∈ fuse s e l -> s <= z) /\ forall x, inside (fuse s e l) x = true <-> in_pairs ((s, e) :: l) x.
Proof.
  induction l as [| [s1 e1] l IH]; intros s e Hse Hne Hs.
  - simpl. split; [split; [repeat constructor; done | by exists 1%nat] |]. split; [intros z; rewrite !elem_of_cons; intros [-> | [-> | Hz]]; [lia | lia | by apply not_elem_of_nil in Hz] |].
    intros x. rewrite xorb_false_r. split.
    + intros H. exists s, e. split; [apply list_elem_of_here |]. destruct (Z.leb_spec s x), (Z.leb_spec e x); simpl in H; try done; lia.
    + intros (s' & e' & Hin & Hx). apply list_elem_of_singleton in Hin as [= -> ->]. destruct (Z.leb_spec s x), (Z.leb_spec e x); done || lia.
  - inversion Hs as [| ? ? Hs' Hall]; subst. pose proof (proj1 (Forall_forall _ _) Hall (s1, e1) ltac:(apply list_elem_of_here)) as Hss. unfold by_start in Hss. simpl in Hss.
    pose proof (Hne (s1, e1) ltac:(apply list_elem_of_here)) as Hse1. simpl in Hse1.
    assert (Hne' : forall p, p ∈ l -> fst p < snd p) by (intros p Hp; apply Hne; by apply list_elem_of_further). simpl.
    destruct (Z.ltb_spec e s1) as [L | L].
    + destruct (IH s1 e1 Hse1 Hne' Hs') as ([C1 C2] & C3 & C4). split; [| split].
      * split; [| by apply even_cons2]. apply increasing_cons. split; [apply increasing_cons; split; [done |]; intros q Hq; specialize (C3 q Hq); lia |].
        intros q Hq. apply elem_of_cons in Hq as [-> | Hq]; [done |]. specialize (C3 q Hq). lia.
      * intros z. rewrite !elem_of_cons. intros [-> | [-> | Hz]]; [lia | lia |]. specialize (C3 z Hz). lia.
      * intros x. simpl. split.
        { intros H. destruct (inside (fuse s1 e1 l) x) eqn:Hi.
          - apply C4 in Hi as (s' & e' & Hin & Hx). exists s', e'. split; [by apply list_elem_of_further | done].
          - exists s, e. split; [apply list_elem_of_here |]. destruct (Z.leb_spec s x), (Z.leb_spec e x); simpl in H; try done; lia. }
        { intros (s' & e' & Hin & Hx). apply elem_of_cons in Hin as [[= -> ->] | Hin].
          - rewrite (inside_below (fuse s1 e1 l)) by (intros p Hp; specialize (C3 p Hp); lia). destruct (Z.leb_spec s x), (Z.leb_spec e x); done || lia.
          - assert (Hi : inside (fuse s1 e1 l) x = true) by (apply C4; by exists s', e'). rewrite Hi.
            assert (s1 <= x).
            { inversion Hs' as [| ? ? _ Hall']; subst. apply elem_of_cons in Hin as [[= -> ->] | Hin]; [lia |].
              pose proof (proj1 (Forall_forall _ _) Hall' _ Hin) as H. unfold by_start in H. simpl in H. lia. }
            destruct (Z.leb_spec s x), (Z.leb_spec e x); done || lia. }
    + destruct (IH s (Z.max e e1) ltac:(lia) Hne') as (C1 & C2 & C3).
      { inversion Hs' as [| ? ? Hs'' Hall']; subst. constructor; [done |]. apply Forall_cons in Hall as [_ Hall]. exact Hall. }
      split; [done |]. split; [done |]. intros x. rewrite C3. split; intros (s' & e' & Hin & Hx).
      * apply elem_of_cons in Hin as [[= -> ->] | Hin]; [| exists s', e'; split; [by do 2 apply list_elem_of_further | done]].
        destruct (Z.le_gt_cases e x); [exists s1, e1 | exists s, e]; (split; [set_solver | lia]).
      * rewrite !elem_of_cons in Hin. destruct Hin as [[= -> ->] | [[= -> ->] | Hin]].
        { exists s, (Z.max e e1). split; [apply list_elem_of_here | lia]. }
        { exists s, (Z.max e e1). split; [apply list_elem_of_here | lia]. }
        { exists s', e'. split; [by apply list_elem_of_further | done]. }
Qed.
