(* ===== verification/CharRangeProofs.v ===== *)
(** * Character ranges: the loops compute the set operations

    The contract of [realloc_func], the invariant of a range, and the
    specifications of the functions that build and combine ranges. *)

From stdpp Require Import base list numbers sorting sets.
From Stdlib Require Import ZArith Lia.
From S2P Require Import Prelude StateRun RqSort RqSortProofs RqSortTheorems CharRange CharRangeSets.

#[local] Open Scope st_scope.
#[local] Open Scope Z_scope.

(** A buffer granted keeps the old points; [r_refused] tells whether a request
    was ever refused.  A size of 0 frees. *)
Class ReallocLaws `{RE : Realloc} := {
  r_refused : ropaque -> bool;
  r_grant o b n b' o' : 0 < n -> lenZ b <= n -> realloc_func o b n = (Some b', o') ->
    lenZ b' = n /\ take (length b) b' = b /\ r_refused o' = r_refused o;
  r_refuse o b n o' : 0 < n -> realloc_func o b n = (None, o') -> r_refused o' = true;
  r_free o b : r_refused (snd (realloc_func o b 0)) = r_refused o
}.

(** The points that count. *)
Definition live (cr : CharRange) : list Z := take (Z.to_nat (cr_len cr)) (cr_points cr).

Record cr_ok (cr : CharRange) : Prop := {
  co_len : 0 <= cr_len cr <= cr_size cr;
  co_buf : lenZ (cr_points cr) = cr_size cr;
  co_max : cr_size cr <= 2 ^ 29
}.

(** ** Points by index *)

Definition suffix (pt : list Z) (len j : Z) : list Z := drop (Z.to_nat j) (take (Z.to_nat len) pt).

Lemma suffix_cons2 pt len j u e l :
  0 <= j -> 0 <= len -> suffix pt len j = u :: e :: l ->
  nthZ 0 pt j = u /\ nthZ 0 pt (j + 1) = e /\ suffix pt len (j + 2) = l /\ j + 2 <= len /\ j + 2 <= lenZ pt.
Proof.
  intros Hj Hlen E. unfold suffix in *.
  assert (Hl : (length (drop (Z.to_nat j) (take (Z.to_nat len) pt)) >= 2)%nat) by (rewrite E; simpl; lia).
  rewrite length_drop, length_take in Hl.
  assert (Hat : forall i, (i < 2)%nat -> pt !! (Z.to_nat j + i)%nat = (u :: e :: l) !! i).
  { intros i Hi. rewrite <- E, lookup_drop, lookup_take_lt; [done |]. lia. }
  split; [| split; [| split]].
  - unfold nthZ. rewrite <- (Nat.add_0_r (Z.to_nat j)), Hat by lia. done.
  - unfold nthZ. replace (Z.to_nat (j + 1)) with (Z.to_nat j + 1)%nat by lia. rewrite Hat by lia. done.
  - replace (Z.to_nat (j + 2)) with (Z.to_nat j + 2)%nat by lia. rewrite <- drop_drop, E. done.
  - unfold lenZ. lia.
Qed.

Lemma suffix_length pt len j : 0 <= j <= len -> len <= lenZ pt -> Z.of_nat (length (suffix pt len j)) = len - j.
Proof. intros Hj Hl. unfold suffix, lenZ in *. rewrite length_drop, length_take. lia. Qed.

Lemma length_setZ {A} (l : list A) i x : length (setZ i x l) = length l.
Proof. apply length_insert. Qed.

Lemma take_setZ (l : list Z) k v : 0 <= k < lenZ l -> take (Z.to_nat (k + 1)) (setZ k v l) = take (Z.to_nat k) l ++ [v].
Proof.
  intros Hk. unfold setZ, lenZ in *. replace (Z.to_nat (k + 1)) with (S (Z.to_nat k)) by lia.
  rewrite (take_S_r _ _ v) by (apply list_lookup_insert_eq; lia). by rewrite take_insert_ge by lia.
Qed.

Lemma suffix_setZ pt len k v j : 0 <= k < j -> suffix (setZ k v pt) len j = suffix pt len j.
Proof.
  intros Hk. unfold suffix, setZ. apply list_eq. intros i. rewrite !lookup_drop.
  destruct (decide (Z.to_nat j + i < Z.to_nat len)%nat) as [L | L].
  - rewrite !lookup_take_lt by lia. apply list_lookup_insert_ne. lia.
  - rewrite !lookup_take_ge by lia. done.
Qed.

Lemma suffix_cons pt len j : 0 <= j < len -> len <= lenZ pt -> suffix pt len j = nthZ 0 pt j :: suffix pt len (j + 1).
Proof.
  intros Hj Hl. unfold suffix, lenZ, nthZ in *. replace (Z.to_nat (j + 1)) with (S (Z.to_nat j)) by lia.
  destruct (lookup_lt_is_Some_2 pt (Z.to_nat j) ltac:(lia)) as [x Hx]. rewrite Hx. simpl.
  apply drop_S. rewrite lookup_take_lt by lia. done.
Qed.

Lemma suffix_end pt len j : len <= j -> suffix pt len j = [].
Proof. intros Hj. unfold suffix. apply drop_ge. rewrite length_take. lia. Qed.

(** ** [cr_compress] *)

Lemma compress_run_spec fuel : forall pt len j u e l s,
  0 <= j -> len <= lenZ pt -> suffix pt len j = u :: e :: l -> even l -> (length l < 2 * fuel)%nat ->
  exists j' u' e' l', compress_run fuel pt len j = Done j' /\ j <= j' /\ suffix pt len j' = u' :: e' :: l' /\ even l' /\
    (length l' <= length l)%nat /\ squash (Some (s, e)) l = s :: e' :: squash None l'.
Proof.
  induction fuel as [| fuel IH]; intros pt len j u e l s Hj Hlen E He Hf; [lia |]. cbn [compress_run].
  assert (Hl0 : 0 <= len).
  { destruct (Z.le_gt_cases 0 len) as [|L]; [done |]. unfold suffix in E. replace (Z.to_nat len) with 0%nat in E by lia. rewrite take_0, drop_nil in E. done. }
  destruct (suffix_cons2 pt len j u e l Hj Hl0 E) as (E0 & E1 & E2 & L1 & L2).
  pose proof (suffix_length pt len (j + 2) ltac:(lia) ltac:(lia)) as Hn. rewrite E2 in Hn.
  destruct l as [| x [| y l]].
  - destruct (Z.ltb_spec (j + 3) len); [simpl in Hn; lia |]. simpl. exists j, u, e, []. split; [done |]. split; [lia |].
    split; [done |]. split; [done |]. done.
  - destruct He as [n Hn']. simpl in Hn'. lia.
  - destruct (suffix_cons2 pt len (j + 2) x y l ltac:(lia) Hl0 E2) as (F0 & F1 & F2 & M1 & M2).
    simpl in Hn. destruct (Z.ltb_spec (j + 3) len); [simpl andb | lia]. rewrite E1, F0. simpl squash.
    destruct (Z.eqb_spec e x) as [-> | Hne].
    + apply even_cons2 in He. simpl in Hf.
      destruct (IH pt len (j + 2) x y l s ltac:(lia) Hlen E2 He ltac:(lia)) as (j' & u' & e' & l' & H1 & H2 & H3 & H4 & H5 & H6).
      exists j', u', e', l'. split; [done |]. split; [lia |]. split; [done |]. split; [done |]. split; [simpl; lia | done].
    + exists j, u, e, (x :: y :: l). split; [done |]. split; [lia |]. split; [done |]. split; [done |]. split; [lia |]. simpl. done.
Qed.

Lemma compress_loop_spec fuel : forall pt len i k rem,
  0 <= k <= i -> i <= len -> len <= lenZ pt -> suffix pt len i = rem -> even rem -> (length rem < 2 * fuel)%nat ->
  exists pt' k', compress_loop fuel pt len i k = Done (pt', k') /\ length pt' = length pt /\ 0 <= k' <= len /\
    take (Z.to_nat k') pt' = take (Z.to_nat k) pt ++ squash None rem.
Proof.
  induction fuel as [| fuel IH]; intros pt len i k rem Hk Hi Hlen E He Hf; [lia |]. cbn [compress_loop].
  pose proof (suffix_length pt len i ltac:(lia) Hlen) as Hn. rewrite E in Hn.
  destruct rem as [| u [| e l]].
  - simpl in Hn. destruct (Z.ltb_spec (i + 1) len); [lia |]. exists pt, k. split; [done |]. split; [done |]. split; [lia |]. by rewrite app_nil_r.
  - destruct He as [n Hn']. simpl in Hn'. lia.
  - destruct (suffix_cons2 pt len i u e l ltac:(lia) ltac:(lia) E) as (E0 & E1 & E2 & L1 & L2).
    destruct (Z.ltb_spec (i + 1) len); [| lia]. rewrite E0, E1. simpl squash. simpl in Hf. apply even_cons2 in He.
    destruct (Z.eqb_spec u e) as [-> | Hne].
    { destruct (IH pt len (i + 2) k l ltac:(lia) ltac:(lia) Hlen E2 He ltac:(lia)) as (pt' & k' & H1 & H2 & H3 & H4). by exists pt', k'. }
    destruct (compress_run_spec (S fuel) pt len i u e l u ltac:(lia) Hlen E He ltac:(lia)) as (j & u' & e' & l' & -> & Hj & Ej & He' & Hl' & ->).
    simpl run_bind. cbv beta iota.
    destruct (suffix_cons2 pt len j u' e' l' ltac:(lia) ltac:(lia) Ej) as (F0 & F1 & F2 & M1 & M2).
    set (pt1 := setZ k u pt).
    assert (G1 : nthZ 0 pt1 (j + 1) = e').
    { unfold pt1. rewrite nthZ_setZ_ne by lia. done. }
    rewrite G1. set (pt2 := setZ (k + 1) e' pt1).
    assert (G2 : suffix pt2 len (j + 2) = l') by (unfold pt2, pt1; rewrite !suffix_setZ by lia; done).
    assert (G3 : lenZ pt2 = lenZ pt) by (unfold pt2, pt1, lenZ; rewrite !length_setZ; done).
    destruct (IH pt2 len (j + 2) (k + 2) l' ltac:(lia) ltac:(lia) ltac:(lia) G2 He' ltac:(lia)) as (pt' & k' & H1 & H2 & H3 & H4).
    exists pt', k'. split; [done |]. split; [unfold lenZ in G3; lia |]. split; [lia |]. rewrite H4. replace (k + 2) with (k + 1 + 1) by lia.
    unfold pt2. rewrite take_setZ by (unfold pt1; rewrite lenZ_setZ; lia). unfold pt1. rewrite take_setZ by lia. by rewrite <- !app_assoc.
Qed.

(** A range of ascending points is compressed in place to its canonical form. *)
Lemma cr_compress_spec cr :
  0 <= cr_len cr <= lenZ (cr_points cr) -> even (live cr) ->
  exists cr', cr_compress cr = Done cr' /\ live cr' = squash None (live cr) /\ cr_size cr' = cr_size cr /\
    length (cr_points cr') = length (cr_points cr) /\ 0 <= cr_len cr' <= cr_len cr.
Proof.
  intros Hl He. unfold cr_compress.
  destruct (compress_loop_spec (S (Z.to_nat (cr_len cr))) (cr_points cr) (cr_len cr) 0 0 (live cr)) as (pt & k & -> & H1 & H2 & H3); try lia; try done.
  { unfold live. rewrite length_take. lia. }
  simpl. eexists. split; [done |]. unfold live in *. simpl in *. done.
Qed.

(** ** Growing *)

Section specs.
Context `{RL : ReallocLaws}.

(** What a call returns: 0 and [Q], or -1 after a refusal. *)
Definition outcome (o : ropaque) (rc : Z) (o' : ropaque) (Q : Prop) : Prop :=
  (rc = 0 /\ r_refused o' = r_refused o /\ Q) \/ (rc = -1 /\ r_refused o' = true).

Lemma length_live cr : cr_ok cr -> lenZ (live cr) = cr_len cr.
Proof. intros [H1 H2 _]. unfold live, lenZ in *. rewrite length_take. lia. Qed.

(** The most points a range may have. *)
Definition MAX_POINTS : Z := 2 ^ 28.

Lemma cr_realloc_spec cr n o :
  cr_ok cr -> 0 <= n <= MAX_POINTS + 2 ->
  swp (cr_realloc cr n) (fun '(rc, cr') o' => cr_ok cr' /\ cr_len cr' = cr_len cr /\ live cr' = live cr /\
    outcome o rc o' (n <= cr_size cr')) o.
Proof.
  intros Hok Hn. pose proof Hok as [H1 H2 H3]. unfold MAX_POINTS in *. unfold cr_realloc.
  destruct (Z.ltb_spec (cr_size cr) n) as [L | L]; [| swp_steps; split; [done |]; split; [done |]; split; [done |]; by left].
  replace (i32 (cr_size cr * 3)) with (cr_size cr * 3) by (unfold i32; rewrite Z.mod_small; lia).
  set (ns := Z.max n (Z.quot (cr_size cr * 3) 2)).
  assert (Hq : 0 <= Z.quot (cr_size cr * 3) 2 <= 2 ^ 29).
  { rewrite Z.quot_div_nonneg by lia. split; [apply Z.div_pos; lia |]. apply Z.div_le_upper_bound; lia. }
  apply swp_bind. apply swp_call. intros nb o' E. apply swp_ret. destruct nb as [b |].
  - destruct (r_grant o (cr_points cr) ns b o' ltac:(lia) ltac:(lia) E) as (G1 & G2 & G3). simpl. split; [split; simpl; lia |].
    split; [done |]. split; [| left; split; [done |]; split; [done |]; simpl; lia].
    unfold live. simpl. assert (Em : (Z.to_nat (cr_len cr) `min` length (cr_points cr))%nat = Z.to_nat (cr_len cr)) by (unfold lenZ in *; lia). rewrite <- G2, take_take, Em. done.
  - split; [done |]. split; [done |]. split; [done |]. right. split; [done |]. apply (r_refuse o (cr_points cr) ns o' ltac:(lia) E).
Qed.

Lemma cr_push_spec cr v :
  cr_ok cr -> cr_len cr < cr_size cr ->
  cr_ok (cr_push cr v) /\ live (cr_push cr v) = live cr ++ [v] /\ cr_len (cr_push cr v) = cr_len cr + 1 /\
  cr_size (cr_push cr v) = cr_size cr.
Proof.
  intros [H1 H2 H3] L. split; [split; simpl; rewrite ?lenZ_setZ; lia |]. split; [| done].
  unfold live, cr_push. simpl. apply take_setZ. lia.
Qed.

Lemma cr_add_point_spec cr v o :
  cr_ok cr -> cr_len cr <= MAX_POINTS ->
  swp (cr_add_point cr v) (fun '(rc, cr') o' => cr_ok cr' /\
    outcome o rc o' (live cr' = live cr ++ [v] /\ cr_len cr' = cr_len cr + 1)) o.
Proof.
  intros Hok Hn. pose proof (co_len _ Hok) as Hl. unfold cr_add_point. destruct (Z.leb_spec (cr_size cr) (cr_len cr)) as [L | L].
  - apply swp_bind. eapply swp_mono; [apply (cr_realloc_spec cr (cr_len cr + 1) o Hok); lia |]. intros [rc cr'] o' (H1 & H2 & H3 & H4).
    apply swp_ret. destruct H4 as [(-> & H4 & H5) | (-> & H4)]; simpl.
    + destruct (cr_push_spec cr' v H1 ltac:(lia)) as (P1 & P2 & P3 & _). split; [done |]. left. split; [done |]. split; [done |].
      by rewrite P2, H2, H3.
    + split; [done |]. by right.
  - apply swp_ret. destruct (cr_push_spec cr v Hok L) as (P1 & P2 & P3 & _). split; [done |]. by left.
Qed.

Lemma cr_add_interval_spec cr c1 c2 o :
  cr_ok cr -> cr_len cr <= MAX_POINTS ->
  swp (cr_add_interval cr c1 c2) (fun '(rc, cr') o' => cr_ok cr' /\ cr_len cr' <= cr_len cr + 2 /\ (rc = -1 -> live cr' = live cr) /\
    outcome o rc o' (live cr' = live cr ++ [c1; c2] /\ cr_len cr' = cr_len cr + 2)) o.
Proof.
  intros Hok Hn. pose proof (co_len _ Hok) as Hl. unfold cr_add_interval.
  assert (Hpush : forall cr', cr_ok cr' -> cr_len cr' = cr_len cr -> live cr' = live cr -> cr_len cr + 2 <= cr_size cr' ->
    cr_ok (cr_push (cr_push cr' c1) c2) /\ live (cr_push (cr_push cr' c1) c2) = live cr ++ [c1; c2] /\
    cr_len (cr_push (cr_push cr' c1) c2) = cr_len cr + 2).
  { intros cr' H1 H2 H3 H4. destruct (cr_push_spec cr' c1 H1 ltac:(lia)) as (P1 & P2 & P3 & P4).
    destruct (cr_push_spec _ c2 P1 ltac:(lia)) as (Q1 & Q2 & Q3 & _). split; [done |]. rewrite Q2, P2, Q3, P3, H2, H3, <- app_assoc. split; [done | lia]. }
  destruct (Z.ltb_spec (cr_size cr) (cr_len cr + 2)) as [L | L].
  - apply swp_bind. eapply swp_mono; [apply (cr_realloc_spec cr (cr_len cr + 2) o Hok); lia |]. intros [rc cr'] o' (H1 & H2 & H3 & H4).
    apply swp_ret. destruct H4 as [(-> & H4 & H5) | (-> & H4)]; simpl.
    + destruct (Hpush cr' H1 H2 H3 H5) as (P1 & P2 & P3). simpl in P3. split; [done |]. split; [lia |]. split; [done |]. by left.
    + split; [done |]. split; [lia |]. split; [done |]. by right.
  - apply swp_ret. destruct (Hpush cr Hok eq_refl eq_refl L) as (P1 & P2 & P3). simpl in P3. split; [done |]. split; [simpl; lia |]. split; [done |]. by left.
Qed.

Lemma cr_copy_spec cr cr1 o :
  cr_ok cr -> cr_ok cr1 -> cr_len cr1 <= MAX_POINTS ->
  swp (cr_copy cr cr1) (fun '(rc, cr') o' => cr_ok cr' /\ outcome o rc o' (live cr' = live cr1)) o.
Proof.
  intros Hok Hok1 Hn. pose proof (co_len _ Hok1) as Hl1. pose proof (co_buf _ Hok1) as Hb1. unfold cr_copy. apply swp_bind.
  eapply swp_mono; [apply (cr_realloc_spec cr (cr_len cr1) o Hok); lia |]. intros [rc cr'] o' (H1 & H2 & H3 & H4). apply swp_ret.
  destruct H4 as [(-> & H4 & H5) | (-> & H4)]; simpl; [| by split; [done | right]]. pose proof H1 as [P1 P2 P3]. unfold lenZ in *. split.
  - split; simpl; [lia | | done]. unfold lenZ. rewrite length_app, length_take, length_drop. lia.
  - left. split; [done |]. split; [done |]. unfold live. simpl. rewrite take_app_le, take_take, Nat.min_id by (rewrite length_take; lia). done.
Qed.

Lemma cr_free_spec cr o : swp (cr_free cr) (fun _ o' => r_refused o' = r_refused o) o.
Proof. unfold cr_free. apply swp_call. intros u o' [= <- <-]. apply r_free. Qed.

(** ** [cr_op] *)

Lemma land_one x : Z.land x 1 = b2z (Z.odd x).
Proof. change 1 with (Z.ones 1) at 1. rewrite Z.land_ones by lia. change (2 ^ 1) with 2. rewrite Zmod_odd. by destruct (Z.odd x). Qed.

Lemma op_is_in_spec op x y : op_is_in op x y = b2z (op_sem op (Z.odd x) (Z.odd y)).
Proof. unfold op_is_in. rewrite !land_one. by destruct op, (Z.odd x), (Z.odd y). Qed.

Lemma b2z_eqb x y : (b2z x =? b2z y) = Bool.eqb x y.
Proof. by destruct x, y. Qed.

Section op.
Context (a b : list Z) (a_len b_len : Z) (op : CharRangeOpEnum).
Hypothesis Ha : 0 <= a_len <= lenZ a.
Hypothesis Hb : 0 <= b_len <= lenZ b.
Let sa (i : Z) : list Z := suffix a a_len i.
Let sb (i : Z) : list Z := suffix b b_len i.

Lemma odd_succ x : Z.odd (x + 1) = negb (Z.odd x).
Proof. rewrite Z.odd_add. simpl. by destruct (Z.odd x). Qed.

Lemma next_point_spec i j :
  0 <= i <= a_len -> 0 <= j <= b_len ->
  (next_point a b a_len b_len i j = None /\ sa i = [] /\ sb j = []) \/
  exists v i' j', next_point a b a_len b_len i j = Some (v, i', j') /\
    next_of (sa i) (sb j) (Z.odd i) (Z.odd j) v (sa i') (sb j') (Z.odd i') (Z.odd j') /\
    0 <= i' <= a_len /\ 0 <= j' <= b_len /\ i + j < i' + j'.
Proof.
  intros Hi Hj. unfold next_point.
  assert (Ea : i < a_len -> sa i = nthZ 0 a i :: sa (i + 1)) by (intros; apply suffix_cons; lia).
  assert (Eb : j < b_len -> sb j = nthZ 0 b j :: sb (j + 1)) by (intros; apply suffix_cons; lia).
  assert (Na : a_len <= i -> sa i = []) by apply suffix_end.
  assert (Nb : b_len <= j -> sb j = []) by apply suffix_end.
  destruct (Z.ltb_spec i a_len) as [La | La], (Z.ltb_spec j b_len) as [Lb | Lb]; simpl.
  - right. rewrite Ea, Eb by done. destruct (Z.ltb_spec (nthZ 0 a i) (nthZ 0 b j)); [| destruct (Z.eqb_spec (nthZ 0 a i) (nthZ 0 b j)) as [E |]].
    + exists (nthZ 0 a i), (i + 1), j. split; [done |]. split; [| lia]. rewrite odd_succ, Eb by done. constructor. intros y [= <-]. done.
    + exists (nthZ 0 a i), (i + 1), (j + 1). split; [done |]. split; [| lia]. rewrite !odd_succ, <- E. constructor.
    + exists (nthZ 0 b j), i, (j + 1). split; [done |]. split; [| lia]. rewrite odd_succ, Ea by done. constructor. intros y [= <-]. lia.
  - right. rewrite Ea, Nb by done. exists (nthZ 0 a i), (i + 1), j. split; [done |]. split; [| lia]. rewrite odd_succ, Nb by done. by constructor.
  - right. rewrite Na, Eb by done. exists (nthZ 0 b j), i, (j + 1). split; [done |]. split; [| lia]. rewrite odd_succ, Na by done. by constructor.
  - left. by rewrite Na, Nb.
Qed.

Lemma cr_op_loop_spec fuel : forall cr i j o,
  0 <= i <= a_len -> 0 <= j <= b_len -> cr_ok cr -> cr_len cr + (a_len - i) + (b_len - j) <= MAX_POINTS ->
  Z.odd (cr_len cr) = op_sem op (Z.odd i) (Z.odd j) -> even (live cr ++ combine op (sa i) (Z.odd i) (Z.odd j) (sb j)) ->
  (a_len - i) + (b_len - j) < Z.of_nat fuel ->
  swp (cr_op_loop fuel cr a b a_len b_len op i j) (fun '(rc, cr') o' => cr_ok cr' /\
    outcome o rc o' (live cr' = squash None (live cr ++ combine op (sa i) (Z.odd i) (Z.odd j) (sb j)))) o.
Proof.
  induction fuel as [| fuel IH]; intros cr i j o Hi Hj Hok Hmax Hpar Hev Hf; [lia |]. cbn [cr_op_loop].
  destruct (next_point_spec i j Hi Hj) as [(-> & Ea & Eb) | (v & i' & j' & -> & Hn & Hi' & Hj' & Hlt)].
  - rewrite Ea, Eb in *. simpl combine in *. rewrite app_nil_r in *. pose proof Hok as [O1 O2 O3].
    destruct (cr_compress_spec cr ltac:(lia) Hev) as (cr' & E & H1 & H2 & H3 & H4).
    apply swp_bind. eapply swp_lift; [exact E |]. apply swp_ret. split; [| by left].
    split; [lia | unfold lenZ in *; lia | lia].
  - pose proof (combine_next op _ _ _ _ _ _ _ _ _ Hn) as Ec. rewrite op_is_in_spec, land_one, b2z_eqb, Hpar.
    rewrite Ec in *. unfold emit in *. destruct (Bool.eqb (op_sem op (Z.odd i') (Z.odd j')) (op_sem op (Z.odd i) (Z.odd j))) eqn:Eq.
    + apply Bool.eqb_prop in Eq. rewrite Eq in *. rewrite Bool.eqb_reflx in *. simpl negb. cbv iota. apply IH; try done; lia || congruence.
    + replace (Bool.eqb (op_sem op (Z.odd i) (Z.odd j)) (op_sem op (Z.odd i') (Z.odd j'))) with false in *
        by (by destruct (op_sem op (Z.odd i) (Z.odd j)), (op_sem op (Z.odd i') (Z.odd j'))).
      simpl negb. cbv iota. apply swp_bind. eapply swp_mono; [apply (cr_add_point_spec cr v o Hok); lia |].
      intros [rc cr1] o1 (Hok1 & [(-> & Hr & El & En) | (-> & Hr)]); [| simpl; apply swp_ret; split; [done |]; by right].
      simpl. eapply swp_mono; [apply (IH cr1 i' j' o1); try done; try lia |].
      * rewrite En, odd_succ, Hpar. by destruct (op_sem op (Z.odd i) (Z.odd j)), (op_sem op (Z.odd i') (Z.odd j')).
      * rewrite El, <- app_assoc. done.
      * intros [rc cr2] o2 (H1 & H2). split; [done |]. rewrite El, <- app_assoc in H2.
        destruct H2 as [(-> & R2 & E2) | (-> & R2)]; [left | by right]. split; [done |]. split; [congruence | done].
Qed.

(** The range built from nothing is the canonical form of the set. *)
Lemma cr_op_spec cr o :
  cr_ok cr -> cr_len cr = 0 -> a_len + b_len <= MAX_POINTS ->
  ascending (take (Z.to_nat a_len) a) -> ascending (take (Z.to_nat b_len) b) ->
  even (take (Z.to_nat a_len) a) -> even (take (Z.to_nat b_len) b) ->
  swp (cr_op cr a a_len b b_len op) (fun '(rc, cr') o' => cr_ok cr' /\
    outcome o rc o' (canonical (live cr') /\
      (forall x, inside (live cr') x = op_sem op (inside (take (Z.to_nat a_len) a) x) (inside (take (Z.to_nat b_len) b) x)) /\
      (forall z, z ∈ live cr' -> z ∈ take (Z.to_nat a_len) a \/ z ∈ take (Z.to_nat b_len) b))) o.
Proof.
  intros Hok H0 Hmax A1 A2 E1 E2. set (la := take (Z.to_nat a_len) a) in *. set (lb := take (Z.to_nat b_len) b) in *.
  assert (El : live cr = []) by (unfold live; rewrite H0; done).
  assert (Ha0 : sa 0 = la) by done. assert (Hb0 : sb 0 = lb) by done.
  pose proof (combine_even op la lb A1 A2 E1 E2) as Hev.
  unfold cr_op. eapply swp_mono; [apply (cr_op_loop_spec _ cr 0 0 o); try done; try lia |].
  - rewrite H0. simpl. by destruct op.
  - rewrite El, Ha0, Hb0. done.
  - intros [rc cr'] o' [Hok' Hout]. split; [done |]. rewrite El, Ha0, Hb0 in Hout. simpl app in Hout. simpl Z.odd in Hout.
    destruct Hout as [(-> & R & E) | (-> & R)]; [left | by right]. split; [done |]. split; [done |]. rewrite E. split; [| split].
    + split; [apply squash_increasing; [done | by apply combine_ascending | done] | by apply squash_even].
    + intros x. rewrite squash_inside by done. simpl app. pose proof (combine_inside op la lb false false x A1 A2) as H.
      rewrite !xorb_false_l in H. rewrite <- H. by destruct op; simpl; rewrite ?xorb_false_l.
    + intros z Hz. apply squash_elem in Hz; [| done]. simpl in Hz. by apply combine_elem in Hz.
Qed.
End op.

(** [cr_op1] replaces a range by its combination with [b]. *)
Lemma cr_op1_spec cr b b_len op o :
  cr_ok cr -> canonical (live cr) -> 0 <= b_len <= lenZ b -> cr_len cr + b_len <= MAX_POINTS ->
  ascending (take (Z.to_nat b_len) b) -> even (take (Z.to_nat b_len) b) ->
  swp (cr_op1 cr b b_len op) (fun '(rc, cr') o' => cr_ok cr' /\
    outcome o rc o' (canonical (live cr') /\
      forall x, inside (live cr') x = op_sem op (inside (live cr) x) (inside (take (Z.to_nat b_len) b) x))) o.
Proof.
  intros Hok [Hi He] Hb Hmax Ab Eb. pose proof Hok as [O1 O2 O3]. unfold cr_op1. apply swp_bind.
  eapply swp_mono; [apply (cr_op_spec (cr_points cr) b (cr_len cr) b_len op ltac:(lia) Hb cr_empty o); try done; try lia |].
  - by apply increasing_ascending.
  - intros [rc cr'] o1 [Hok' Hout]. apply swp_bind. eapply swp_mono; [apply cr_free_spec |]. intros u o2 Hr. apply swp_ret.
    split; [done |]. destruct Hout as [(-> & R & C & E & _) | (-> & R)]; [left | right]; rewrite Hr; [| done].
    split; [done |]. split; [done |]. by split.
Qed.

(** ** [cr_invert] *)

Lemma shift_up_spec pt len :
  0 <= len -> len + 2 <= lenZ pt ->
  let pt' := setZ (len + 1) UINT32_MAX (setZ 0 0 (shift_up pt len)) in
  lenZ pt' = lenZ pt /\ take (Z.to_nat (len + 2)) pt' = 0 :: take (Z.to_nat len) pt ++ [UINT32_MAX].
Proof.
  intros Hl Hn pt'. destruct pt as [| p pt]; [unfold lenZ in Hn; simpl in Hn; lia |].
  assert (Hs : lenZ (shift_up (p :: pt) len) = lenZ (p :: pt)).
  { unfold shift_up, lenZ in *. rewrite !length_app, !length_take, length_drop. simpl length in *. lia. }
  assert (E1 : lenZ pt' = lenZ (p :: pt)) by (unfold pt'; rewrite !lenZ_setZ; done).
  split; [done |]. unfold pt'. replace (len + 2) with (len + 1 + 1) by lia.
  rewrite take_setZ by (rewrite lenZ_setZ, Hs; lia).
  assert (E0 : setZ 0 0 (shift_up (p :: pt) len) = 0 :: take (Z.to_nat len) (p :: pt) ++ drop (Z.to_nat (len + 1)) (p :: pt)) by done.
  rewrite E0. replace (Z.to_nat (len + 1)) with (S (Z.to_nat len)) by lia. rewrite firstn_cons, take_app_le by (rewrite length_take; unfold lenZ in *; lia).
  rewrite take_take, Nat.min_id. done.
Qed.

Lemma inverted_ascending l : ascending l -> (forall z, z ∈ l -> 0 <= z <= UINT32_MAX) -> ascending (0 :: l ++ [UINT32_MAX]).
Proof.
  intros Ha Hr. apply ascending_cons. split.
  - induction l as [| p l IH]; simpl; [repeat constructor |]. apply ascending_cons in Ha as [Ha Hp]. apply ascending_cons. split; [apply IH; set_solver |].
    intros q Hq. apply elem_of_app in Hq as [Hq | Hq]; [auto |]. apply list_elem_of_singleton in Hq as ->. apply Hr. set_solver.
  - intros q Hq. apply elem_of_app in Hq as [Hq | Hq]; [by apply Hr |]. apply list_elem_of_singleton in Hq as ->. by vm_compute.
Qed.

Lemma cr_invert_spec cr o :
  cr_ok cr -> cr_len cr <= MAX_POINTS -> ascending (live cr) -> even (live cr) -> (forall z, z ∈ live cr -> 0 <= z <= UINT32_MAX) ->
  swp (cr_invert cr) (fun '(rc, cr') o' => cr_ok cr' /\
    outcome o rc o' (canonical (live cr') /\ cr_len cr' <= cr_len cr + 2 /\ (forall z, z ∈ live cr' -> 0 <= z <= UINT32_MAX) /\
      forall x, inside (live cr') x = (0 <=? x) && (x <? UINT32_MAX) && negb (inside (live cr) x))) o.
Proof.
  intros Hok Hmax Ha He Hr. pose proof (co_len _ Hok) as Hl. unfold cr_invert. apply swp_bind.
  eapply swp_mono; [apply (cr_realloc_spec cr (cr_len cr + 2) o Hok); lia |]. intros [rc cr1] o1 (Hok1 & Hn1 & Hlv & Hout).
  destruct Hout as [(-> & R & Hsz) | (-> & R)]; [| simpl; apply swp_ret; split; [done | by right]]. simpl.
  pose proof Hok1 as [O1 O2 O3]. destruct (shift_up_spec (cr_points cr1) (cr_len cr) ltac:(lia) ltac:(lia)) as [S1 S2].
  set (pt := setZ (cr_len cr + 1) UINT32_MAX _) in *. set (cr2 := Build_CharRange _ _ _).
  assert (El : live cr2 = 0 :: live cr ++ [UINT32_MAX]).
  { unfold live at 1. simpl. rewrite S2. f_equal. f_equal. rewrite <- Hlv. unfold live. by rewrite Hn1. }
  assert (Ev : even (live cr2)).
  { rewrite El. destruct He as [n Hn]. exists (S n). simpl. rewrite length_app. simpl. lia. }
  destruct (cr_compress_spec cr2) as (cr' & E & H1 & H2 & H3 & H4); [simpl; lia | done |].
  apply swp_bind. eapply swp_lift; [exact E |]. apply swp_ret. simpl in H2, H3, H4. split; [split; unfold lenZ in *; simpl in *; lia |].
  left. split; [done |]. split; [done |]. rewrite H1. split; [| split; [simpl in *; lia | split]].
  - split; [apply squash_increasing; [done | | done] | by apply squash_even]. rewrite El. by apply inverted_ascending.
  - intros z Hz. apply squash_elem in Hz; [| done]. rewrite El in Hz. simpl in Hz. apply elem_of_cons in Hz as [-> | Hz]; [by vm_compute |].
    apply elem_of_app in Hz as [Hz | Hz]; [by apply Hr |]. apply list_elem_of_singleton in Hz as ->. by vm_compute.
  - intros x. rewrite squash_inside by done. rewrite El. simpl. rewrite inside_app. simpl.
    destruct (Z.leb_spec 0 x) as [L0 | L0], (Z.ltb_spec x UINT32_MAX) as [L1 | L1]; simpl.
    + destruct (Z.leb_spec UINT32_MAX x); [lia |]. by destruct (inside (live cr) x).
    + destruct (Z.leb_spec UINT32_MAX x); [| lia]. rewrite inside_above by (intros p Hp; specialize (Hr p Hp); lia).
      apply even_odd in He. by rewrite He.
    + destruct (Z.leb_spec UINT32_MAX x); [lia |]. rewrite inside_below by (intros p Hp; specialize (Hr p Hp); lia). done.
    + unfold UINT32_MAX in L1. lia.
Qed.
End specs.

(** ** [cr_sort_and_remove_overlap] *)

#[export] Instance point_cmp_laws : CmpLaws point_cmp.
Proof.
  split; unfold point_cmp.
  - intros x y. destruct (Z.ltb_spec (fst y) (fst x)), (Z.ltb_spec (fst x) (fst y)); simpl; lia.
  - intros x y z. destruct (Z.ltb_spec (fst y) (fst x)), (Z.ltb_spec (fst x) (fst y)), (Z.ltb_spec (fst z) (fst y)), (Z.ltb_spec (fst y) (fst z)),
      (Z.ltb_spec (fst z) (fst x)), (Z.ltb_spec (fst x) (fst z)); simpl; lia.
Qed.

Lemma sorts_by_start l : exists l', rqsort point_cmp l = Done l' /\ Permutation l' l /\ StronglySorted by_start l'.
Proof.
  destruct (rqsort_sorted point_cmp l) as (l' & E & P & S). exists l'. split; [done |]. split; [done |].
  clear E P. induction S as [| p l' _ IH Hp]; constructor; [done |]. apply Forall_forall. intros q Hq.
  pose proof (proj1 (Forall_forall _ _) Hp q Hq) as H. unfold le, point_cmp, by_start in *. destruct (Z.ltb_spec (fst q) (fst p)), (Z.ltb_spec (fst p) (fst q)); simpl in H; lia.
Qed.

Lemma pairs_flat l : pairs (flat l) = l.
Proof. induction l as [| [s e] l IH]; simpl; [done | by rewrite IH]. Qed.

Lemma length_flat l : length (flat l) = (2 * length l)%nat.
Proof. induction l as [| [s e] l IH]; simpl; [done |]. rewrite IH. lia. Qed.

Lemma overlap_run_spec fuel : forall pt len i l s fin,
  0 <= i <= len -> len <= lenZ pt -> suffix pt len i = flat l -> (length l < fuel)%nat ->
  exists fin' i' l', overlap_run fuel pt len fin i = Done (fin', i') /\ i <= i' <= len /\ suffix pt len i' = flat l' /\
    (length l' <= length l)%nat /\ fuse s fin l = s :: fin' :: fuse_all l'.
Proof.
  induction fuel as [| fuel IH]; intros pt len i l s fin Hi Hlen E Hf; [lia |]. cbn [overlap_run].
  pose proof (suffix_length pt len i Hi Hlen) as Hn. rewrite E, length_flat in Hn. destruct l as [| [s1 e1] l].
  - simpl in Hn. destruct (Z.ltb_spec i len); [lia |]. exists fin, i, []. split; [done |]. split; [lia |]. done.
  - simpl in E. destruct (suffix_cons2 pt len i s1 e1 (flat l) ltac:(lia) ltac:(lia) E) as (E0 & E1 & E2 & L1 & L2).
    destruct (Z.ltb_spec i len); [| lia]. rewrite E0, E1. simpl fuse. simpl in Hf.
    destruct (Z.ltb_spec fin s1).
    + exists fin, i, ((s1, e1) :: l). split; [done |]. split; [lia |]. split; [done |]. split; [lia | done].
    + destruct (Z.leb_spec e1 fin).
      * destruct (IH pt len (i + 2) l s fin ltac:(lia) Hlen E2 ltac:(lia)) as (fin' & i' & l' & K1 & K2 & K3 & K4 & H5).
        exists fin', i', l'. split; [done |]. split; [lia |]. split; [done |]. split; [simpl; lia |]. by replace (Z.max fin e1) with fin by lia.
      * destruct (IH pt len (i + 2) l s e1 ltac:(lia) Hlen E2 ltac:(lia)) as (fin' & i' & l' & K1 & K2 & K3 & K4 & K5).
        exists fin', i', l'. split; [done |]. split; [lia |]. split; [done |]. split; [simpl; lia |]. by replace (Z.max fin e1) with e1 by lia.
Qed.

Lemma overlap_loop_spec fuel : forall pt len i j l,
  0 <= j <= i -> i <= len -> len <= lenZ pt -> suffix pt len i = flat l -> (length l < fuel)%nat ->
  exists pt' j', overlap_loop fuel pt len i j = Done (pt', j') /\ length pt' = length pt /\ 0 <= j' <= len /\
    take (Z.to_nat j') pt' = take (Z.to_nat j) pt ++ fuse_all l.
Proof.
  induction fuel as [| fuel IH]; intros pt len i j l Hj Hi Hlen E Hf; [lia |]. cbn [overlap_loop].
  pose proof (suffix_length pt len i ltac:(lia) Hlen) as Hn. rewrite E, length_flat in Hn. destruct l as [| [s e] l].
  - simpl in Hn. destruct (Z.ltb_spec i len); [lia |]. exists pt, j. split; [done |]. split; [done |]. split; [lia |]. simpl. by rewrite app_nil_r.
  - simpl in E. destruct (suffix_cons2 pt len i s e (flat l) ltac:(lia) ltac:(lia) E) as (E0 & E1 & E2 & L1 & L2).
    destruct (Z.ltb_spec i len); [| lia]. rewrite E0, E1. simpl in Hf.
    destruct (overlap_run_spec (S fuel) pt len (i + 2) l s e ltac:(lia) Hlen E2 ltac:(lia)) as (fin & i' & l' & -> & Hi' & Ei & Hl' & Ef).
    simpl run_bind. cbv beta iota. set (pt1 := setZ j s pt). set (pt2 := setZ (j + 1) fin pt1).
    assert (G2 : suffix pt2 len i' = flat l') by (unfold pt2, pt1; rewrite !suffix_setZ by lia; done).
    assert (G3 : lenZ pt2 = lenZ pt) by (unfold pt2, pt1, lenZ; rewrite !length_setZ; done).
    destruct (IH pt2 len i' (j + 2) l' ltac:(lia) ltac:(lia) ltac:(lia) G2 ltac:(lia)) as (pt' & j' & H1 & H2 & H3 & H4).
    exists pt', j'. split; [done |]. split; [unfold lenZ in G3; lia |]. split; [lia |]. rewrite H4. replace (j + 2) with (j + 1 + 1) by lia.
    unfold pt2. rewrite take_setZ by (unfold pt1; rewrite lenZ_setZ; lia). unfold pt1. rewrite take_setZ by lia. simpl fuse_all. rewrite Ef. by rewrite <- !app_assoc.
Qed.

Lemma sort_and_remove_overlap_spec cr l :
  cr_ok cr -> live cr = flat l -> (forall p, p ∈ l -> fst p < snd p) ->
  exists cr', cr_sort_and_remove_overlap cr = Done cr' /\ cr_ok cr' /\ cr_len cr' <= cr_len cr /\ canonical (live cr') /\
    forall x, inside (live cr') x = true <-> in_pairs l x.
Proof.
  intros [O1 O2 O3] El Hne. unfold cr_sort_and_remove_overlap. fold (live cr). rewrite El, pairs_flat.
  destruct (sorts_by_start l) as (l' & -> & Hp & Hs). cbn [run_bind]. set (pt := flat l' ++ _).
  assert (Hlen : length (flat l') = Z.to_nat (cr_len cr)).
  { rewrite length_flat, (Permutation_length Hp), <- length_flat, <- El. unfold live. rewrite length_take. unfold lenZ in *. lia. }
  assert (Hpt : length pt = length (cr_points cr)).
  { unfold pt. rewrite length_app, Hlen, length_drop. unfold lenZ in *. lia. }
  assert (Hsuf : suffix pt (cr_len cr) 0 = flat l').
  { unfold suffix, pt. simpl. rewrite <- Hlen. apply take_app_length. }
  destruct (overlap_loop_spec (S (Z.to_nat (cr_len cr))) pt (cr_len cr) 0 0 l') as (pt' & j & -> & H1 & H2 & H3); try lia; try done.
  { unfold lenZ in *. lia. }
  { rewrite length_flat in Hlen. lia. }
  simpl. eexists. split; [done |]. split; [split; unfold lenZ in *; simpl; lia |]. split; [simpl; lia |].
  assert (Elv : live {| cr_len := j; cr_size := cr_size cr; cr_points := pt' |} = fuse_all l') by done. rewrite Elv.
  assert (Hin : forall p, p ∈ l' <-> p ∈ l) by (intros p; by rewrite Hp).
  destruct l' as [| [s e] r] eqn:Er.
  - simpl. split; [split; [constructor | by exists 0%nat] |]. intros x. split; [done |]. intros (s & e & Hx & _). apply Hin in Hx. by apply not_elem_of_nil in Hx.
  - destruct (fuse_spec r s e) as (C1 & _ & C3); [apply (Hne (s, e)), Hin, list_elem_of_here | intros p Hpr; apply Hne, Hin; by apply list_elem_of_further | done |].
    split; [done |]. intros x. simpl. rewrite C3. split; intros (s' & e' & Hx & Hr); exists s', e'; (split; [by apply Hin | done]).
Qed.
