(* ===== verification/CaseTables.v ===== *)
(** * Case conversion tables (libunicode-table.h)

    [case_conv_table1] packs the runs of characters that change with case: 17
    bits of first character, 7 of length, 4 of type, 4 of data; the other 8 bits
    of data are in [case_conv_table2], and [case_conv_ext] holds the characters
    the data refers to. *)

From Stdlib Require Import ZArith List.
Import ListNotations.

#[local] Open Scope Z_scope.

Definition case_conv_table1 : list Z :=
  [2136624; 3185152; 5931379; 6297392; 7079728; 7307699; 7345920; 8128256; 8356096; 8400960; 9961923; 9994640;
   10028608; 10260544; 10781108; 10825280; 12321072; 12355136; 12550512; 12583168; 12615984; 12649536; 12779824; 12812864;
   12878384; 12943936; 13041968; 13074736; 13107504; 13140544; 13205808; 13238576; 13271296; 13304112; 13336880; 13369920;
   13435136; 13467905; 13500720; 13533488; 13566208; 13599024; 13633088; 13828400; 13861440; 13926704; 14025280; 14090544;
   14123584; 14189104; 14255168; 14385456; 14418496; 14549568; 14647552; 14811984; 14910288; 15008592; 15110208; 15630592;
   15667776; 16253364; 16286544; 16384576; 16449840; 16482608; 16525376; 17826096; 17896000; 18678065; 18711104; 18776368;
   18809137; 18842113; 18907712; 18972976; 19005744; 19038512; 19073600; 19398913; 19431681; 19464449; 19497216; 19529984;
   19595776; 19693824; 19759360; 19792129; 19923200; 19955969; 20021504; 20054273; 20087041; 20119809; 20185344; 20218112;
   20250881; 20283649; 20316417; 20414720; 20480257; 20513024; 20611328; 20873473; 20971776; 21037313; 21070080; 21201153;
   21233920; 21266688; 21299712; 21364992; 21561600; 21922049; 21954817; 27427187; 28836928; 29033024; 29197056; 29327664;
   29557040; 29623088; 29753648; 29819440; 29884880; 29921584; 30509360; 30802176; 30835456; 30933459; 30970112; 31523187;
   31557888; 31850752; 31883776; 31949104; 31981939; 32014707; 32145779; 32178547; 32211200; 32249920; 33030515; 33063283;
   33095936; 33128704; 33161632; 33194355; 33260096; 33325360; 33358400; 33456944; 33558576; 34086960; 35135488; 36179968;
   36708928; 38090304; 39846192; 39882304; 40337664; 40394816; 43558448; 45131264; 46367157; 139470385; 140738865; 140935473;
   141044480; 142508800; 164646929; 167249424; 167511584; 239075700; 239108468; 239141236; 239174004; 239206772; 239239540; 239272308;
   239305088; 239337856; 239370816; 239610672; 241074992; 247234817; 247365889; 247922945; 251690560; 255793216; 256573877; 256606646;
   256639414; 256672182; 256704951; 256737664; 256835888; 256925760; 260048896; 260311088; 260572672; 260834864; 261097472; 261359664;
   261621760; 261883952; 262145536; 262407728; 262668720; 262701312; 262734291; 262766848; 262799827; 262832384; 262865363; 262897920;
   262963504; 263029040; 263094576; 263160112; 263194624; 263456816; 263717376; 263783424; 263913985; 263979521; 264045057; 264110593;
   264243383; 264505447; 264767672; 265029736; 265291960; 265554024; 265814528; 265879993; 265912753; 265945529; 266011057; 266043863;
   266076720; 266142256; 266207585; 266273139; 266404281; 266437042; 266469818; 266535346; 266568152; 266601520; 266731874; 266863105;
   266928592; 266961360; 267059632; 267092432; 267125296; 267190832; 267387393; 267452883; 267485651; 267518394; 267550977; 267583920;
   267616723; 267649585; 267715120; 267780401; 267977146; 268009906; 268042683; 268108210; 268141017; 268173872; 268239408; 268304738;
   278069664; 278200736; 278233504; 278462769; 279380225; 279973937; 280498177; 281117248; 307960369; 308812289; 369111089; 370683905;
   372245056; 372310320; 372343088; 372375856; 372408576; 372441344; 372475456; 372670768; 372703536; 372736304; 372769072; 372834880;
   372933184; 373228080; 373318720; 376800320; 377029184; 377497088; 378765568; 378962176; 1394617920; 1396710464; 1402015296; 1402551872;
   1404863552; 1404993840; 1405028928; 1405452864; 1405518128; 1405617216; 1405747457; 1405817920; 1406468400; 1406501168; 1406533936; 1406566704;
   1406599472; 1406665008; 1406697776; 1406730544; 1406763313; 1406799936; 1407320369; 1407353136; 1407385904; 1407419456; 1407549744; 1407586368;
   1408106800; 1408926272; 1437171969; 1438142496; 2105541042; 2105573810; 2105606578; 2105639386; 2105672154; 2105704883; 2105737651; 2106163643;
   2106196411; 2106229179; 2106261948; 2106294715; 2140183089; 2141231617; 2181048369; 2182359041; 2186814513; 2188125185; 2193099569; 2193493809;
   2194016049; 2194276913; 2194377473; 2194771713; 2195293953; 2195554817; 2252354353; 2254451457; 2259162673; 2260211201; 2354061361; 2355109889;
   3072335921; 3073384449; 3075479857; 3076364545; 4102038065; 4103152129].

Definition case_conv_table2 : list Z :=
  [1; 0; 156; 6; 7; 77; 3; 4; 16; 0; 143; 11;
   0; 0; 17; 0; 8; 0; 83; 75; 82; 0; 83; 0;
   84; 0; 59; 85; 86; 0; 88; 90; 64; 95; 94; 0;
   71; 80; 99; 101; 67; 102; 0; 104; 0; 106; 0; 108;
   0; 110; 0; 112; 0; 0; 65; 0; 0; 0; 0; 26;
   0; 147; 0; 0; 32; 54; 0; 40; 0; 36; 0; 36;
   37; 45; 0; 19; 109; 111; 0; 41; 39; 42; 20; 22;
   24; 27; 28; 65; 30; 66; 31; 78; 60; 64; 34; 33;
   68; 33; 67; 38; 40; 39; 41; 35; 43; 75; 45; 70;
   47; 76; 49; 77; 51; 71; 69; 153; 0; 0; 151; 145;
   127; 128; 133; 134; 18; 130; 132; 120; 121; 18; 125; 163;
   126; 122; 123; 140; 146; 152; 166; 160; 135; 0; 154; 161;
   149; 119; 51; 149; 0; 144; 0; 118; 155; 154; 153; 152;
   0; 0; 160; 0; 158; 0; 163; 162; 21; 49; 50; 51;
   183; 184; 83; 172; 171; 18; 20; 30; 33; 34; 34; 42;
   52; 53; 0; 168; 169; 57; 34; 76; 0; 0; 151; 1;
   90; 218; 29; 54; 5; 0; 199; 198; 201; 200; 203; 202;
   205; 204; 207; 206; 196; 216; 69; 217; 66; 218; 70; 219;
   209; 211; 213; 215; 221; 220; 241; 249; 1; 17; 10; 18;
   128; 159; 0; 33; 128; 163; 240; 0; 192; 64; 198; 96;
   234; 222; 230; 153; 192; 0; 0; 6; 96; 223; 41; 0;
   21; 18; 6; 22; 251; 224; 9; 21; 18; 132; 11; 198;
   22; 2; 226; 6; 192; 64; 0; 70; 96; 225; 227; 109;
   55; 56; 57; 24; 23; 26; 25; 0; 29; 28; 31; 30;
   0; 97; 186; 103; 69; 72; 0; 80; 100; 79; 81; 0;
   0; 73; 0; 0; 0; 165; 166; 167; 0; 0; 0; 0;
   0; 185; 0; 0; 92; 0; 74; 0; 93; 87; 89; 98;
   96; 114; 107; 113; 82; 0; 62; 105; 187; 0; 91; 0;
   37; 0; 72; 170; 138; 139; 140; 171; 172; 88; 88; 175;
   148; 176; 111; 178; 97; 96; 99; 98; 101; 100; 106; 107;
   108; 109; 102; 103; 104; 105; 111; 110; 113; 112; 115; 114;
   117; 116; 119; 118; 121; 120].

Definition case_conv_ext : list Z :=
  [921; 776; 769; 933; 787; 768; 834; 913; 919; 937; 70; 73;
   76; 83; 105; 775; 700; 78; 74; 780; 1333; 1362; 72; 817;
   84; 87; 778; 89; 65; 702; 7944; 8064; 7976; 8080; 8040; 8096;
   8122; 902; 8115; 8138; 905; 8131; 929; 8186; 911; 8179; 1348; 1350;
   1339; 1358; 1341; 952; 1122; 42570; 7776; 969; 107; 229].
