(* ===== verification/CaseConv.v ===== *)
(** * Case conversion and canonicalisation (libunicode.c)

    [lre_case_conv] converts a character to upper case, lower case or its case
    folding; [lre_canonicalize] is what a case-insensitive regular expression
    compares; [cr_regexp_canonicalize] applies it to a whole character set.

    The characters that change are grouped in runs; a run is found by binary
    search.  [uint32_t] arithmetic that can wrap is written out. *)

From stdpp Require Import base list numbers.
From Stdlib Require Import ZArith Lia.
From S2P Require Import Prelude StateRun CharRange CaseTables.

#[local] Open Scope st_scope.
#[local] Open Scope Z_scope.

Definition RUN_TYPE_U : Z := 0.
Definition RUN_TYPE_L : Z := 1.
Definition RUN_TYPE_UF : Z := 2.
Definition RUN_TYPE_LF : Z := 3.
Definition RUN_TYPE_UL : Z := 4.
Definition RUN_TYPE_LSU : Z := 5.
Definition RUN_TYPE_U2L_399_EXT2 : Z := 6.
Definition RUN_TYPE_UF_D20 : Z := 7.
Definition RUN_TYPE_UF_D1_EXT : Z := 8.
Definition RUN_TYPE_U_EXT : Z := 9.
Definition RUN_TYPE_LF_EXT : Z := 10.
Definition RUN_TYPE_UF_EXT2 : Z := 11.
Definition RUN_TYPE_LF_EXT2 : Z := 12.
Definition RUN_TYPE_UF_EXT3 : Z := 13.

Definition N_RUNS : Z := lenZ case_conv_table1.

(** The fields of a run. *)
Definition run_code (v : Z) : Z := Z.shiftr v (32 - 17).
Definition run_len (v : Z) : Z := Z.land (Z.shiftr v (32 - 17 - 7)) 127.
Definition run_type (v : Z) : Z := Z.land (Z.shiftr v (32 - 17 - 7 - 4)) 15.

(** A table read; outside the table it is an error. *)
Definition tab_get (tab : list Z) (i : Z) : run Z :=
  if (0 <=? i) && (i <? lenZ tab) then Done (nthZ 0 tab i) else Aborts.
Definition ext (i : Z) : run Z := tab_get case_conv_ext i.

(** The characters [res] receives, one to three.  [conv1] is
    [lre_case_conv1(c, 1)]. *)
Definition lre_case_conv_entry (conv1 : Z -> run Z) (c conv_type idx v : Z) : run (list Z) :=
  let is_lower := b2z (negb (conv_type =? 0)) in
  let type := run_type v in
  let* low := tab_get case_conv_table2 idx in
  let data := Z.lor (Z.shiftl (Z.land v 15) 8) low in
  let code := run_code v in
  let a := u32 (c - code) in
  if type <=? RUN_TYPE_LF then
    if (conv_type =? Z.land type 1) || ((RUN_TYPE_UF <=? type) && (conv_type =? 2)) then
      let* w := tab_get case_conv_table1 data in
      Done [u32 (c - code + Z.shiftr w (32 - 17))]
    else Done [c]
  else if type =? RUN_TYPE_UL then
    if negb (Z.land a 1 =? 1 - is_lower) then Done [c] else Done [u32 (Z.lxor a 1 + code)]
  else if type =? RUN_TYPE_LSU then
    if a =? 1 then Done [u32 (c + (2 * is_lower - 1))]
    else if a =? (1 - is_lower) * 2 then Done [u32 (c + (2 * is_lower - 1) * 2)]
    else Done [c]
  else if type =? RUN_TYPE_U2L_399_EXT2 then
    if is_lower =? 0 then
      let* e := ext (Z.shiftr data 6) in
      Done [u32 (c - code + e); 921]
    else
      let* e := ext (Z.land data 63) in
      Done [u32 (c - code + e)]
  else if type =? RUN_TYPE_UF_D20 then
    if conv_type =? 1 then Done [c] else Done [data + b2z (conv_type =? 2) * 32]
  else if type =? RUN_TYPE_UF_D1_EXT then
    if conv_type =? 1 then Done [c] else (let* e := ext data in Done [e + b2z (conv_type =? 2)])
  else if (type =? RUN_TYPE_U_EXT) || (type =? RUN_TYPE_LF_EXT) then
    if negb (is_lower =? type - RUN_TYPE_U_EXT) then Done [c] else (let* e := ext data in Done [e])
  else if type =? RUN_TYPE_LF_EXT2 then
    if is_lower =? 0 then Done [c]
    else
      let* e0 := ext (Z.shiftr data 6) in
      let* e1 := ext (Z.land data 63) in
      Done [u32 (c - code + e0); e1]
  else if type =? RUN_TYPE_UF_EXT2 then
    if conv_type =? 1 then Done [c]
    else
      let* e0 := ext (Z.shiftr data 6) in
      let* e1 := ext (Z.land data 63) in
      let r0 := u32 (c - code + e0) in
      if conv_type =? 2 then
        let* r0 := conv1 r0 in
        let* r1 := conv1 e1 in
        Done [r0; r1]
      else Done [r0; e1]
  else
    if conv_type =? 1 then Done [c]
    else
      let* e0 := ext (Z.shiftr data 8) in
      let* e1 := ext (Z.land (Z.shiftr data 4) 15) in
      let* e2 := ext (Z.land data 15) in
      if conv_type =? 2 then
        let* r0 := conv1 e0 in
        let* r1 := conv1 e1 in
        let* r2 := conv1 e2 in
        Done [r0; r1; r2]
      else Done [e0; e1; e2].

(** The binary search of [lre_case_conv] and [lre_canonicalize]: the run that
    holds [c], as index and word. *)
Fixpoint case_search (fuel : nat) (c idx_min idx_max : Z) : run (option (Z * Z)) :=
  match fuel with
  | O => Spins
  | S fuel =>
      if idx_min <=? idx_max then
        let idx := (idx_max + idx_min) / 2 in
        let v := nthZ 0 case_conv_table1 idx in
        if c <? run_code v then case_search fuel c idx_min (idx - 1)
        else if run_code v + run_len v <=? c then case_search fuel c (idx + 1) idx_max
        else Done (Some (idx, v))
      else Done None
  end.

Definition find_run (c : Z) : run (option (Z * Z)) := case_search (S (length case_conv_table1)) c 0 (N_RUNS - 1).

(** ['A'] is 65, ['Z'] 90, ['a'] 97, ['z'] 122. *)
Definition ascii_lower (c : Z) : Z := if (65 <=? c) && (c <=? 90) then c - 65 + 97 else c.
Definition ascii_upper (c : Z) : Z := if (97 <=? c) && (c <=? 122) then c - 97 + 65 else c.

(** Conversion calls itself for the parts of an expansion, to lower case. *)
Fixpoint lre_case_conv_n (depth : nat) (c conv_type : Z) : run (list Z) :=
  match depth with
  | O => Spins
  | S depth =>
      if c <? 128 then Done [if negb (conv_type =? 0) then ascii_lower c else ascii_upper c]
      else
        let* r := find_run c in
        match r with
        | None => Done [c]
        | Some (idx, v) =>
            lre_case_conv_entry (fun c => let* l := lre_case_conv_n depth c 1 in Done (hd 0 l)) c conv_type idx v
        end
  end.

Definition lre_case_conv (c conv_type : Z) : run (list Z) := lre_case_conv_n 2 c conv_type.
Definition lre_case_conv1 (c conv_type : Z) : run Z := let* l := lre_case_conv c conv_type in Done (hd 0 l).

Definition lre_case_folding_entry (c idx v : Z) (is_unicode : bool) : run Z :=
  let conv1 := fun c => lre_case_conv1 c 1 in
  if is_unicode then
    let* res := lre_case_conv_entry conv1 c 2 idx v in
    match res with
    | [r] => Done r
    | _ => Done (if c =? 64262 then 64261 else if c =? 8147 then 912 else if c =? 8163 then 944 else c)
    end
  else if c <? 128 then Done (ascii_upper c)
  else
    let* res := lre_case_conv_entry conv1 c 0 idx v in
    match res with
    | [r] => Done (if 128 <=? r then r else c)
    | _ => Done c
    end.

Definition lre_canonicalize (c : Z) (is_unicode : bool) : run Z :=
  if c <? 128 then Done (if is_unicode then ascii_lower c else ascii_upper c)
  else
    let* r := find_run c in
    match r with
    | None => Done c
    | Some (idx, v) => lre_case_folding_entry c idx v is_unicode
    end.

(** ** Character sets *)

Definition CASE_U : Z := 1.
Definition CASE_L : Z := 2.
Definition CASE_F : Z := 4.

Definition MR (types : list Z) : Z := foldr (fun t m => Z.lor (Z.shiftl 1 t) m) 0 types.

Definition tab_run_mask : list Z :=
  [MR [RUN_TYPE_U; RUN_TYPE_UF; RUN_TYPE_UL; RUN_TYPE_LSU; RUN_TYPE_U2L_399_EXT2; RUN_TYPE_UF_D20;
       RUN_TYPE_UF_D1_EXT; RUN_TYPE_U_EXT; RUN_TYPE_UF_EXT2; RUN_TYPE_UF_EXT3];
   MR [RUN_TYPE_L; RUN_TYPE_LF; RUN_TYPE_UL; RUN_TYPE_LSU; RUN_TYPE_U2L_399_EXT2; RUN_TYPE_LF_EXT; RUN_TYPE_LF_EXT2];
   MR [RUN_TYPE_UF; RUN_TYPE_LF; RUN_TYPE_UL; RUN_TYPE_LSU; RUN_TYPE_U2L_399_EXT2; RUN_TYPE_LF_EXT; RUN_TYPE_LF_EXT2;
       RUN_TYPE_UF_D20; RUN_TYPE_UF_D1_EXT; RUN_TYPE_LF_EXT; RUN_TYPE_UF_EXT2; RUN_TYPE_UF_EXT3]].

(** The types of run that [case_mask] selects. *)
Definition case_run_mask (case_mask : Z) : Z :=
  foldl (fun mask i => if Z.land (Z.shiftr case_mask i) 1 =? 0 then mask else Z.lor mask (nthZ 0 tab_run_mask i))
    0 [0; 1; 2].

Section sets.
Context `{RE : Realloc}.

(** Add intervals one after the other until one is refused. *)
Fixpoint add_intervals (l : list (Z * Z)) (cr : CharRange) : C (Z * CharRange) :=
  match l with
  | [] => sret (0, cr)
  | (s, e) :: l =>
      let^ (rc, cr) := cr_add_interval cr s e in
      if rc =? 0 then add_intervals l cr else sret (-1, cr)
  end.

(** [for(i = 0; i < len; i += 2)]: every other character of a run. *)
Fixpoint every_other (n : nat) (code i len : Z) : list (Z * Z) :=
  match n with
  | O => []
  | S n => if i <? len then (code + i, code + i + 1) :: every_other n code (i + 2) len else []
  end.

(** The intervals a run contributes. *)
Definition run_intervals (case_mask v : Z) : list (Z * Z) :=
  let code := run_code v in
  let len := run_len v in
  let u := negb (Z.land case_mask CASE_U =? 0) in
  let lf := negb (Z.land case_mask (Z.lor CASE_L CASE_F) =? 0) in
  if (run_type v =? RUN_TYPE_UL) && negb (u && lf) then
    every_other (Z.to_nat len) (code + b2z u) 0 len
  else if (run_type v =? RUN_TYPE_LSU) && negb (u && lf) then
    (if u then [] else [(code, code + 1)]) ++ [(code + 1, code + 2)] ++ (if u then [(code + 2, code + 3)] else [])
  else [(code, code + len)].

Fixpoint unicode_case1_loop (tab : list Z) (mask case_mask : Z) (cr : CharRange) : C (Z * CharRange) :=
  match tab with
  | [] => sret (0, cr)
  | v :: tab =>
      if Z.land (Z.shiftr mask (run_type v)) 1 =? 0 then unicode_case1_loop tab mask case_mask cr
      else
        let^ (rc, cr) := add_intervals (run_intervals case_mask v) cr in
        if rc =? 0 then unicode_case1_loop tab mask case_mask cr else sret (-1, cr)
  end.

Definition unicode_case1 (cr : CharRange) (case_mask : Z) : C (Z * CharRange) :=
  if case_mask =? 0 then sret (0, cr)
  else unicode_case1_loop case_conv_table1 (case_run_mask case_mask) case_mask cr.

(** The next run that holds [c]; the code asserts that there is one. *)
Fixpoint advance (fuel : nat) (c idx v : Z) : run (Z * Z) :=
  match fuel with
  | O => Spins
  | S fuel =>
      if (run_code v <=? c) && (c <? run_code v + run_len v) then Done (idx, v)
      else
        let idx := idx + 1 in
        let* _ := assert_ (idx <? N_RUNS) in
        advance fuel c idx (nthZ 0 case_conv_table1 idx)
  end.

(** The variables of the loops of [cr_regexp_canonicalize]; [d_start] is
    [UINT32_MAX] while there is no current interval. *)
Record canon_state := { cs_idx : Z; cs_v : Z; cs_start : Z; cs_end : Z; cs_result : CharRange }.

(** Merge [d] with the current interval or start a new one; the result of
    [cr_add_interval] is not looked at. *)
Definition merge_point (st : canon_state) (idx v d : Z) : C canon_state :=
  if cs_start st =? UINT32_MAX then
    sret {| cs_idx := idx; cs_v := v; cs_start := d; cs_end := u32 (d + 1); cs_result := cs_result st |}
  else if cs_end st =? d then
    sret {| cs_idx := idx; cs_v := v; cs_start := cs_start st; cs_end := u32 (cs_end st + 1); cs_result := cs_result st |}
  else
    let^ (_, cr) := cr_add_interval (cs_result st) (cs_start st) (cs_end st) in
    sret {| cs_idx := idx; cs_v := v; cs_start := d; cs_end := u32 (d + 1); cs_result := cr |}.

(** [for(c = start; c < end; c++)], [n] iterations. *)
Fixpoint canon_chars (n : nat) (c : Z) (is_unicode : bool) (st : canon_state) : C canon_state :=
  match n with
  | O => sret st
  | S n =>
      let^ (idx, v) := slift (advance (S (length case_conv_table1)) c (cs_idx st) (cs_v st)) in
      let^ d := slift (lre_case_folding_entry c idx v is_unicode) in
      let^ st := merge_point st idx v d in
      canon_chars n (c + 1) is_unicode st
  end.

Fixpoint canon_intervals (l : list (Z * Z)) (is_unicode : bool) (st : canon_state) : C canon_state :=
  match l with
  | [] => sret st
  | (s, e) :: l =>
      let^ st := canon_chars (Z.to_nat (e - s)) s is_unicode st in
      canon_intervals l is_unicode st
  end.

Definition live_points (cr : CharRange) : list Z := take (Z.to_nat (cr_len cr)) (cr_points cr).

(** Convert the characters of [cr_inter] and unite them with [cr_sub]. *)
Definition canon_rest (cr cr_inter cr_mask cr_sub : CharRange) (is_unicode : bool)
    : C (Z * CharRange * list CharRange) :=
  let st := {| cs_idx := 0; cs_v := nthZ 0 case_conv_table1 0; cs_start := UINT32_MAX; cs_end := UINT32_MAX;
               cs_result := cr_init |} in
  let^ st := canon_intervals (pairs (live_points cr_inter)) is_unicode st in
  let^ (rc, cr_result) :=
    (if cs_start st =? UINT32_MAX then sret (0, cs_result st)
     else cr_add_interval (cs_result st) (cs_start st) (cs_end st)) in
  if negb (rc =? 0) then sret (-1, cr, [cr_inter; cr_mask; cr_result; cr_sub])
  else
    let^ cr_result := slift (cr_sort_and_remove_overlap cr_result) in
    let cr := {| cr_len := 0; cr_size := cr_size cr; cr_points := cr_points cr |} in
    let^ (rc, cr) := cr_op cr (cr_points cr_result) (cr_len cr_result) (cr_points cr_sub) (cr_len cr_sub) CR_OP_UNION in
    sret (if rc =? 0 then 0 else -1, cr, [cr_inter; cr_mask; cr_result; cr_sub]).

(** The part between the [cr_init] and the [cr_free] calls; [fail] is [goto
    fail].  The four work ranges are returned for freeing. *)
Definition canon_body (cr : CharRange) (is_unicode : bool)
    : C (Z * CharRange * list CharRange) :=
  let fail cr l := sret (-1, cr, l) in
  let^ (rc, cr_mask) := unicode_case1 cr_init (if is_unicode then CASE_F else CASE_U) in
  if negb (rc =? 0) then fail cr [cr_init; cr_mask; cr_init; cr_init]
  else
    let^ (rc, cr_inter) := cr_op cr_init (cr_points cr_mask) (cr_len cr_mask) (cr_points cr) (cr_len cr) CR_OP_INTER in
    if negb (rc =? 0) then fail cr [cr_inter; cr_mask; cr_init; cr_init]
    else
      let^ (rc, cr_mask) := cr_invert cr_mask in
      if negb (rc =? 0) then fail cr [cr_inter; cr_mask; cr_init; cr_init]
      else
        let^ (rc, cr_sub) := cr_op cr_init (cr_points cr_mask) (cr_len cr_mask) (cr_points cr) (cr_len cr) CR_OP_INTER in
        if negb (rc =? 0) then fail cr [cr_inter; cr_mask; cr_init; cr_sub]
        else canon_rest cr cr_inter cr_mask cr_sub is_unicode.

Fixpoint free_ranges (l : list CharRange) : C unit :=
  match l with
  | [] => sret tt
  | cr :: l => cr_free cr ;^ free_ranges l
  end.

Definition cr_regexp_canonicalize (cr : CharRange) (is_unicode : bool)
    : C (Z * CharRange) :=
  let^ (rc, cr, work) := canon_body cr is_unicode in
  free_ranges work ;^
  sret (rc, cr).
End sets.
