(* ===== verification/CaseProofs.v ===== *)
(** * Case conversion: runs, search, and the tables

    The binary search finds the run of a character; what the runs do to their
    characters is checked on the tables by evaluation, run by run. *)

From stdpp Require Import base list numbers sorting sets.
From Stdlib Require Import ZArith Lia.
From S2P Require Import Prelude StateRun CharRange CharRangeSets CharRangeProofs CaseTables CaseConv.

#[local] Open Scope Z_scope.

(** ** Runs *)

Definition in_run (v c : Z) : Prop := run_code v <= c < run_code v + run_len v.
Definition run_at (idx : Z) : Z := nthZ 0 case_conv_table1 idx.
#[global] Arguments run_at : simpl never.
#[global] Arguments N_RUNS : simpl never.
Definition run_before (v w : Z) : Prop := run_code v + run_len v <= run_code w.

Lemma run_len_nonneg v : 0 <= run_len v.
Proof. unfold run_len. apply Z.land_nonneg. lia. Qed.

#[local] Instance run_before_trans : Transitive run_before.
Proof. intros v w x. unfold run_before. pose proof (run_len_nonneg w). lia. Qed.

Fixpoint ordered_check (l : list Z) : bool :=
  match l with
  | [] => true
  | v :: l => match l with w :: _ => run_code v + run_len v <=? run_code w | [] => true end && ordered_check l
  end.

Lemma ordered_check_sound l : ordered_check l = true -> StronglySorted run_before l.
Proof.
  intros H. apply Sorted_StronglySorted; [apply run_before_trans |]. induction l as [| v l IH]; [constructor |].
  cbn [ordered_check] in H. apply andb_true_iff in H as [H1 H2]. constructor; [by apply IH |].
  destruct l as [| w l]; constructor. by apply Z.leb_le.
Qed.

Lemma runs_ordered : StronglySorted run_before case_conv_table1.
Proof. apply ordered_check_sound. vm_compute. reflexivity. Qed.

Lemma sorted_lookup {A} (R : A -> A -> Prop) l i j x y :
  StronglySorted R l -> l !! i = Some x -> l !! j = Some y -> (i < j)%nat -> R x y.
Proof.
  intros Hs. revert i j. induction Hs as [| z l _ IH Hz]; intros [| i] [| j] Hi Hj Hlt; simpl in *; try done; try lia.
  - simplify_eq. apply (proj1 (Forall_forall _ _) Hz). by eapply list_elem_of_lookup_2.
  - eapply IH; [exact Hi | exact Hj | lia].
Qed.

Lemma run_lookup idx : 0 <= idx < N_RUNS -> case_conv_table1 !! Z.to_nat idx = Some (run_at idx).
Proof.
  intros H. unfold run_at, nthZ, N_RUNS, lenZ in *. destruct (lookup_lt_is_Some_2 case_conv_table1 (Z.to_nat idx)) as [x Hx]; [lia |]. by rewrite Hx.
Qed.

Lemma runs_before i j : 0 <= i < j -> j < N_RUNS -> run_before (run_at i) (run_at j).
Proof. intros H1 H2. eapply (sorted_lookup _ _ (Z.to_nat i) (Z.to_nat j) _ _ runs_ordered); [apply run_lookup; lia | apply run_lookup; lia | lia]. Qed.

(** A character is in one run at most. *)
Lemma run_unique i j c : 0 <= i < N_RUNS -> 0 <= j < N_RUNS -> in_run (run_at i) c -> in_run (run_at j) c -> i = j.
Proof.
  intros Hi Hj H1 H2. unfold in_run in *. destruct (Z.lt_trichotomy i j) as [L | [E | L]]; [| done |].
  - pose proof (runs_before i j ltac:(lia) ltac:(lia)) as H. unfold run_before in H. lia.
  - pose proof (runs_before j i ltac:(lia) ltac:(lia)) as H. unfold run_before in H. lia.
Qed.

Lemma case_search_spec fuel : forall c lo hi,
  0 <= lo <= hi + 1 -> hi < N_RUNS -> (forall i, 0 <= i < N_RUNS -> in_run (run_at i) c -> lo <= i <= hi) -> hi - lo + 1 < Z.of_nat fuel ->
  (exists i, case_search fuel c lo hi = Done (Some (i, run_at i)) /\ 0 <= i < N_RUNS /\ in_run (run_at i) c) \/
  (case_search fuel c lo hi = Done None /\ forall i, 0 <= i < N_RUNS -> ~ in_run (run_at i) c).
Proof.
  induction fuel as [| fuel IH]; intros c lo hi Hlo Hhi Hin Hf; [lia |].
  cbn [case_search]. destruct (Z.leb_spec lo hi) as [L | L].
  2:{ right. split; [done |]. intros i Hi Hr. specialize (Hin i Hi Hr). lia. }
  set (mid := (hi + lo) / 2). fold (run_at mid).
  assert (Hm : lo <= mid <= hi) by (unfold mid; split; [apply Z.div_le_lower_bound | apply Z.div_le_upper_bound]; lia).
  destruct (Z.ltb_spec c (run_code (run_at mid))) as [Lc | Lc].
  - apply IH; [lia | lia | | lia]. intros i Hi Hr. specialize (Hin i Hi Hr) as Hb. split; [lia |].
    destruct (Z.lt_trichotomy i mid) as [L1 | [-> | L1]]; [lia | unfold in_run in Hr; lia |].
    pose proof (runs_before mid i ltac:(lia) ltac:(lia)) as H. unfold run_before, in_run in *. pose proof (run_len_nonneg (run_at mid)). lia.
  - destruct (Z.leb_spec (run_code (run_at mid) + run_len (run_at mid)) c) as [Lc' | Lc'].
    + apply IH; [lia | lia | | lia]. intros i Hi Hr. specialize (Hin i Hi Hr) as Hb. split; [| lia].
      destruct (Z.lt_trichotomy i mid) as [L1 | [-> | L1]]; [| unfold in_run in Hr; lia | lia].
      pose proof (runs_before i mid ltac:(lia) ltac:(lia)) as H. unfold run_before, in_run in *. pose proof (run_len_nonneg (run_at mid)). lia.
    + left. exists mid. split; [done |]. split; [lia |]. unfold in_run. lia.
Qed.

Lemma find_run_spec c :
  (exists i, find_run c = Done (Some (i, run_at i)) /\ 0 <= i < N_RUNS /\ in_run (run_at i) c) \/
  (find_run c = Done None /\ forall i, 0 <= i < N_RUNS -> ~ in_run (run_at i) c).
Proof. apply case_search_spec; [unfold N_RUNS, lenZ; lia | lia | intros; lia | unfold N_RUNS, lenZ; lia]. Qed.

Lemma find_run_at i c : 0 <= i < N_RUNS -> in_run (run_at i) c -> find_run c = Done (Some (i, run_at i)).
Proof.
  intros Hi Hr. destruct (find_run_spec c) as [(j & E & Hj & Hr') | [_ Hno]]; [| by destruct (Hno i Hi)].
  by rewrite (run_unique i j c Hi Hj Hr Hr').
Qed.

(** ** What the runs do, by evaluation *)

Definition mask_of (u : bool) : Z := if u then CASE_F else CASE_U.

(** The intervals [unicode_case1] takes from a run. *)
Definition selected_intervals (u : bool) (v : Z) : list (Z * Z) :=
  if Z.land (Z.shiftr (case_run_mask (mask_of u)) (run_type v)) 1 =? 0 then [] else run_intervals (mask_of u) v.

Definition selected (u : bool) (v c : Z) : bool := existsb (fun p => (fst p <=? c) && (c <? snd p)) (selected_intervals u v).

Definition MAX_CHAR : Z := 1114112.

Definition fold_check (u : bool) (idx v c : Z) : bool :=
  match lre_case_folding_entry c idx v u with
  | Done d => (0 <=? d) && (d <? MAX_CHAR) && (selected u v c || (d =? c)) &&
      ((d =? c) || match lre_canonicalize d u with Done d' => d' =? d | _ => false end)
  | _ => false
  end.

(** What [lre_case_conv] calls for the parts of an expansion. *)
Definition part_conv (c : Z) : run Z := let* l := lre_case_conv_n 1 c 1 in Done (hd 0 l).

Definition is_char (d : Z) : bool := (0 <=? d) && (d <? MAX_CHAR).

Definition conv_ok (idx v c t : Z) : bool :=
  match lre_case_conv_entry part_conv c t idx v with
  | Done l => (1 <=? lenZ l) && (lenZ l <=? 3) && forallb is_char l
  | _ => false
  end.

Definition conv_check (idx v c : Z) : bool := forallb (conv_ok idx v c) [0; 1; 2].

(** The characters of a run. *)
Fixpoint upto (n : nat) (c : Z) : list Z := match n with O => [] | S n => c :: upto n (c + 1) end.

Definition char_check (idx v c : Z) : bool := fold_check true idx v c && fold_check false idx v c && conv_check idx v c.

Definition interval_check (v : Z) (p : Z * Z) : bool :=
  (run_code v <=? fst p) && (fst p <? snd p) && (snd p <=? run_code v + run_len v).

Definition run_check (idx v : Z) : bool :=
  forallb (char_check idx v) (upto (Z.to_nat (run_len v)) (run_code v))
  && forallb (interval_check v) (selected_intervals true v) && forallb (interval_check v) (selected_intervals false v).

Fixpoint runs_check (idx : Z) (l : list Z) : bool :=
  match l with
  | [] => true
  | v :: l => run_check idx v && runs_check (idx + 1) l
  end.

Lemma runs_checked : runs_check 0 case_conv_table1 = true.
Proof. vm_compute. reflexivity. Qed.

(** Below 128 the fast path agrees with the table. *)
Definition ascii_check (u : bool) (c : Z) : bool :=
  let fast := if u then ascii_lower c else ascii_upper c in
  (0 <=? fast) && (fast <? MAX_CHAR) &&
  match find_run c with
  | Done (Some (idx, v)) => match lre_case_folding_entry c idx v u with Done d => d =? fast | _ => false end
  | Done None => fast =? c
  | _ => false
  end.

Lemma ascii_checked : forallb (fun c => ascii_check true c && ascii_check false c) (upto 128 0) = true.
Proof. vm_compute. reflexivity. Qed.

Lemma elem_upto n : forall c x, x ∈ upto n c <-> c <= x < c + Z.of_nat n.
Proof.
  induction n as [| n IH]; intros c x; simpl; [split; [intros H; by apply not_elem_of_nil in H | lia] |].
  rewrite elem_of_cons, IH. lia.
Qed.

Lemma forallb_elem {A} (f : A -> bool) l x : forallb f l = true -> x ∈ l -> f x = true.
Proof. intros H Hx. rewrite forallb_forall in H. apply H. by apply list_elem_of_In. Qed.

Lemma runs_check_at l : forall idx i v, runs_check idx l = true -> l !! i = Some v -> run_check (idx + Z.of_nat i) v = true.
Proof.
  induction l as [| w l IH]; intros idx [| i] v H Hl; simpl in *; try done; apply andb_true_iff in H as [H1 H2].
  - injection Hl as ->. by rewrite Z.add_0_r.
  - replace (idx + Z.of_nat (S i)) with (idx + 1 + Z.of_nat i) by lia. by apply IH.
Qed.

Lemma run_checked i : 0 <= i < N_RUNS -> run_check i (run_at i) = true.
Proof.
  intros Hi. pose proof (runs_check_at _ 0 (Z.to_nat i) (run_at i) runs_checked (run_lookup i Hi)) as H.
  by rewrite Z.add_0_l, Z2Nat.id in H by lia.
Qed.

Section facts.
Context (i c : Z).
Hypothesis Hi : 0 <= i < N_RUNS.
Hypothesis Hc : in_run (run_at i) c.

Lemma run_char_checked : char_check i (run_at i) c = true.
Proof.
  pose proof (run_checked i Hi) as H. unfold run_check in H. rewrite !andb_true_iff in H. destruct H as [[H _] _].
  apply (forallb_elem _ _ c H). apply elem_upto. rewrite Z2Nat.id by apply run_len_nonneg. exact Hc.
Qed.

(** Folding a character of a run gives a character that is its own canonical
    form, the same one unless the run is selected. *)
Lemma folding_spec u :
  exists d, lre_case_folding_entry c i (run_at i) u = Done d /\ 0 <= d < MAX_CHAR /\ (selected u (run_at i) c = false -> d = c) /\
    (d = c \/ lre_canonicalize d u = Done d).
Proof.
  assert (H : fold_check u i (run_at i) c = true).
  { pose proof run_char_checked as H. unfold char_check in H. rewrite !andb_true_iff in H. by destruct u, H as [[H1 H2] _]. }
  unfold fold_check in H. destruct (lre_case_folding_entry c i (run_at i) u) as [d | |]; try done. exists d. split; [done |].
  rewrite !andb_true_iff, !orb_true_iff in H. destruct H as [[[H1 H2] H3] H4]. split; [lia |]. split.
  - intros Hs. destruct H3 as [H3 | H3]; [congruence | lia].
  - destruct H4 as [H4 | H4]; [left; lia | right]. destruct (lre_canonicalize d u); try done. f_equal. lia.
Qed.

Lemma conv_spec t :
  0 <= t <= 2 -> exists l, lre_case_conv_entry part_conv c t i (run_at i) = Done l /\ 1 <= lenZ l <= 3 /\ forall d, d ∈ l -> 0 <= d < MAX_CHAR.
Proof.
  intros Ht. pose proof run_char_checked as H. unfold char_check in H. rewrite !andb_true_iff in H. destruct H as [_ H].
  assert (Hin : t ∈ [0; 1; 2]) by (rewrite !elem_of_cons; lia).
  apply (forallb_elem _ _ t H) in Hin. unfold conv_ok in Hin. destruct (lre_case_conv_entry part_conv c t i (run_at i)) as [l | |]; try done.
  exists l. split; [done |]. rewrite !andb_true_iff in Hin. destruct Hin as [[H1 H2] H3]. split; [lia |]. intros d Hd.
  apply (forallb_elem _ _ d H3) in Hd. unfold is_char in Hd. rewrite andb_true_iff in Hd. lia.
Qed.
End facts.

Lemma intervals_in_run u i s e :
  0 <= i < N_RUNS -> (s, e) ∈ selected_intervals u (run_at i) -> run_code (run_at i) <= s < e /\ e <= run_code (run_at i) + run_len (run_at i).
Proof.
  intros Hi Hin. pose proof (run_checked i Hi) as H. unfold run_check in H. rewrite !andb_true_iff in H. destruct H as [[_ H1] H2].
  assert (H : interval_check (run_at i) (s, e) = true) by (destruct u; [apply (forallb_elem _ _ _ H1 Hin) | apply (forallb_elem _ _ _ H2 Hin)]).
  unfold interval_check in H. cbn [fst snd] in H. rewrite !andb_true_iff in H. lia.
Qed.
