(* ===== verification/CaseSets.v ===== *)
(** * Case conversion of character sets

    The mask of the characters a run changes, the walk over the intersection
    of a set with it, and [cr_regexp_canonicalize] as a whole. *)

From stdpp Require Import base list numbers sorting sets.
From Stdlib Require Import ZArith Lia.
From S2P Require Import Prelude StateRun CharRange CharRangeSets CharRangeProofs CaseTables CaseConv CaseProofs.

#[local] Open Scope st_scope.
#[local] Open Scope Z_scope.

(** ** Canonical characters *)

Lemma canonicalize_run i c u :
  0 <= i < N_RUNS -> 0 <= c -> in_run (run_at i) c -> lre_canonicalize c u = lre_case_folding_entry c i (run_at i) u.
Proof.
  intros Hi H0 Hc. unfold lre_canonicalize. destruct (Z.ltb_spec c 128) as [L | L]; [| by rewrite (find_run_at i c Hi Hc)].
  pose proof (forallb_elem _ _ c ascii_checked ltac:(apply elem_upto; lia)) as H. cbv beta in H.
  assert (Ha : ascii_check u c = true) by (apply andb_true_iff in H as [H1 H2]; by destruct u).
  unfold ascii_check in Ha. rewrite (find_run_at i c Hi Hc) in Ha. rewrite !andb_true_iff in Ha. destruct Ha as [_ Ha].
  destruct (lre_case_folding_entry c i (run_at i) u); try done. f_equal. lia.
Qed.

Lemma canonicalize_no_run c u :
  0 <= c -> (forall i, 0 <= i < N_RUNS -> ~ in_run (run_at i) c) -> lre_canonicalize c u = Done c.
Proof.
  intros H0 Hno. unfold lre_canonicalize. destruct (find_run_spec c) as [(i & _ & Hi & Hr) | [E _]]; [by destruct (Hno i Hi) |].
  destruct (Z.ltb_spec c 128) as [L | L]; [| by rewrite E].
  pose proof (forallb_elem _ _ c ascii_checked ltac:(apply elem_upto; lia)) as H. cbv beta in H.
  assert (Ha : ascii_check u c = true) by (apply andb_true_iff in H as [H1 H2]; by destruct u).
  unfold ascii_check in Ha. rewrite E in Ha. rewrite !andb_true_iff in Ha. destruct Ha as [_ Ha]. f_equal. lia.
Qed.

(** ** The mask *)

(** All the intervals [unicode_case1] adds. *)
Definition mask_pairs (u : bool) : list (Z * Z) := concat (map (selected_intervals u) case_conv_table1).
#[global] Arguments mask_pairs : simpl never.

Fixpoint ascending_check (l : list Z) : bool :=
  match l with
  | [] => true
  | x :: l => match l with y :: _ => x <=? y | [] => true end && ascending_check l
  end.

Lemma ascending_check_sound l : ascending_check l = true -> ascending l.
Proof.
  intros H. apply Sorted_StronglySorted; [intros x y z; lia |]. induction l as [| x l IH]; [constructor |].
  cbn [ascending_check] in H. apply andb_true_iff in H as [H1 H2]. constructor; [by apply IH |].
  destruct l as [| y l]; constructor. by apply Z.leb_le.
Qed.

Definition mask_check (l : list (Z * Z)) : bool :=
  ascending_check (flat l) && forallb (fun p => (0 <=? fst p) && (snd p <=? MAX_CHAR)) l && (lenZ l <=? 2 ^ 20).

Lemma mask_checked u : mask_check (mask_pairs u) = true.
Proof. destruct u; vm_compute; reflexivity. Qed.

Lemma mask_ascending u : ascending (flat (mask_pairs u)).
Proof. pose proof (mask_checked u) as H. unfold mask_check in H. rewrite !andb_true_iff in H. destruct H as [[H _] _]. by apply ascending_check_sound. Qed.

Lemma mask_short u : lenZ (mask_pairs u) <= 2 ^ 20.
Proof. pose proof (mask_checked u) as H. unfold mask_check in H. rewrite !andb_true_iff in H. lia. Qed.

Lemma mask_chars u s e : (s, e) ∈ mask_pairs u -> 0 <= s /\ e <= MAX_CHAR.
Proof.
  intros Hin. pose proof (mask_checked u) as H. unfold mask_check in H. rewrite !andb_true_iff in H. destruct H as [[_ H] _].
  apply (forallb_elem _ _ _ H) in Hin. cbn [fst snd] in Hin. rewrite andb_true_iff in Hin. lia.
Qed.

Lemma even_flat l : even (flat l).
Proof. exists (length l). apply length_flat. Qed.

Lemma flat_app l k : flat (l ++ k) = flat l ++ flat k.
Proof. induction l as [| [s e] l IH]; simpl; [done | by rewrite IH]. Qed.

Lemma elem_flat l z : z ∈ flat l <-> exists s e, (s, e) ∈ l /\ (z = s \/ z = e).
Proof.
  induction l as [| [s e] l IH]; simpl.
  - split; [intros H; by apply not_elem_of_nil in H |]. intros (s & e & H & _). by apply not_elem_of_nil in H.
  - rewrite !elem_of_cons, IH. setoid_rewrite elem_of_cons. split.
    + intros [-> | [-> | (s' & e' & H & Hz)]]; [exists s, e; tauto | exists s, e; tauto | exists s', e'; tauto].
    + intros (s' & e' & [H | H] & Hz); [simplify_eq; tauto | right; right; by exists s', e'].
Qed.

Lemma in_pairs_app l k x : in_pairs (l ++ k) x <-> in_pairs l x \/ in_pairs k x.
Proof.
  unfold in_pairs. setoid_rewrite elem_of_app. split.
  - intros (s & e & [H | H] & Hr); [left | right]; by exists s, e.
  - intros [(s & e & H & Hr) | (s & e & H & Hr)]; exists s, e; tauto.
Qed.

Lemma in_pairs_one s e x : in_pairs [(s, e)] x <-> s <= x < e.
Proof.
  split; [intros (s' & e' & H & Hr); apply list_elem_of_singleton in H; by simplify_eq |].
  intros H. exists s, e. split; [by apply list_elem_of_singleton | done].
Qed.

(** For ascending points the two readings of a list of intervals agree. *)
Lemma inside_flat l x : ascending (flat l) -> inside (flat l) x = true <-> in_pairs l x.
Proof.
  induction l as [| [s e] l IH]; intros Ha; simpl.
  - split; [done |]. intros (s & e & H & _). by apply not_elem_of_nil in H.
  - cbn [flat] in Ha. apply ascending_cons in Ha as [Ha Hs]. apply ascending_cons in Ha as [Ha He]. specialize (IH Ha).
    assert (Hse : s <= e) by (apply Hs, list_elem_of_here).
    change ((s, e) :: l) with ([(s, e)] ++ l). rewrite in_pairs_app, <- IH.
    rewrite in_pairs_one. destruct (Z.leb_spec e x) as [L | L].
    + rewrite (proj2 (Z.leb_le s x)) by lia. destruct (inside (flat l) x); simpl; intuition lia.
    + rewrite (inside_below (flat l)) by (intros p Hp; specialize (He p Hp); lia). destruct (Z.leb_spec s x); simpl; intuition lia.
Qed.

Lemma run_selected u i c : 0 <= i < N_RUNS -> selected u (run_at i) c = true -> in_pairs (mask_pairs u) c.
Proof.
  intros Hi H. apply existsb_exists in H as ([s e] & Hin & Hr). cbn [fst snd] in Hr. apply andb_true_iff in Hr as [H1 H2].
  exists s, e. split; [| lia]. unfold mask_pairs. apply list_elem_of_In, in_concat. exists (selected_intervals u (run_at i)).
  split; [| done]. apply in_map, list_elem_of_In. eapply list_elem_of_lookup_2, run_lookup, Hi.
Qed.

(** A character of the mask is in a run. *)
Lemma mask_in_run u c : in_pairs (mask_pairs u) c -> exists i, 0 <= i < N_RUNS /\ in_run (run_at i) c.
Proof.
  intros (s & e & Hin & Hr). unfold mask_pairs in Hin. apply list_elem_of_In, in_concat in Hin as (l & Hl & Hin).
  apply in_map_iff in Hl as (v & <- & Hv). apply list_elem_of_In, list_elem_of_lookup in Hv as [n Hn].
  assert (Hi : 0 <= Z.of_nat n < N_RUNS) by (apply lookup_lt_Some in Hn; unfold N_RUNS, lenZ; lia).
  assert (Ev : run_at (Z.of_nat n) = v).
  { pose proof (run_lookup _ Hi) as E. rewrite Nat2Z.id, Hn in E. by injection E. }
  exists (Z.of_nat n). split; [done |]. rewrite Ev. apply list_elem_of_In in Hin. rewrite <- Ev in Hin.
  pose proof (intervals_in_run u _ s e Hi Hin) as H. rewrite Ev in H. unfold in_run. lia.
Qed.

Lemma canonicalize_spec c u :
  0 <= c -> exists d, lre_canonicalize c u = Done d /\ (d = c \/ 0 <= d < MAX_CHAR) /\ (~ in_pairs (mask_pairs u) c -> d = c) /\
    lre_canonicalize d u = Done d.
Proof.
  intros H0. destruct (find_run_spec c) as [(i & _ & Hi & Hr) | [_ Hno]].
  - destruct (folding_spec i c Hi Hr u) as (d & E & H1 & H2 & H3). rewrite (canonicalize_run i c u Hi H0 Hr). exists d.
    split; [done |]. split; [by right |]. split.
    + intros Hm. apply H2. destruct (selected u (run_at i) c) eqn:Es; [| done]. destruct Hm. by eapply run_selected.
    + destruct H3 as [-> | H3]; [| done]. by rewrite (canonicalize_run i c u Hi H0 Hr).
  - rewrite (canonicalize_no_run c u H0 Hno). exists c. split; [done |]. split; [by left |]. split; [done |]. by apply canonicalize_no_run.
Qed.

(** ** [unicode_case1] *)

Section sets.
Context `{RL : ReallocLaws}.

Lemma outcome_trans o o1 rc o2 (Q Q' : Prop) :
  r_refused o1 = r_refused o -> (Q -> Q') -> outcome o1 rc o2 Q -> outcome o rc o2 Q'.
Proof. intros E HQ [(-> & H & H') | (-> & H)]; [left; rewrite H, E; auto | by right]. Qed.

Lemma add_intervals_spec l : forall cr o,
  cr_ok cr -> cr_len cr + 2 * lenZ l <= MAX_POINTS ->
  swp (add_intervals l cr) (fun '(rc, cr') o' => cr_ok cr' /\
    outcome o rc o' (live cr' = live cr ++ flat l /\ cr_len cr' = cr_len cr + 2 * lenZ l)) o.
Proof.
  induction l as [| [s e] l IH]; intros cr o Hok Hn; cbn [add_intervals].
  { apply swp_ret. split; [done |]. left. simpl. rewrite app_nil_r. unfold lenZ. simpl. repeat split; lia. }
  assert (El : lenZ ((s, e) :: l) = lenZ l + 1) by (unfold lenZ; simpl; lia). rewrite El in *. unfold lenZ in Hn.
  apply swp_bind. eapply swp_mono; [apply (cr_add_interval_spec cr s e o Hok); lia |].
  intros [rc cr1] o1 (Hok1 & _ & _ & [(-> & R & E1 & E2) | (-> & R)]); simpl; [| apply swp_ret; split; [done | by right]].
  eapply swp_mono; [apply (IH cr1 o1 Hok1); unfold lenZ; lia |]. intros [rc cr2] o2 [Hok2 Hout]. split; [done |].
  revert Hout. apply outcome_trans; [done |]. rewrite E1, E2, <- app_assoc. intros [-> ->]. split; [done | lia].
Qed.

Lemma unicode_case1_loop_spec u tab : forall cr o,
  cr_ok cr -> cr_len cr + 2 * lenZ (concat (map (selected_intervals u) tab)) <= MAX_POINTS ->
  swp (unicode_case1_loop tab (case_run_mask (mask_of u)) (mask_of u) cr) (fun '(rc, cr') o' => cr_ok cr' /\
    outcome o rc o' (live cr' = live cr ++ flat (concat (map (selected_intervals u) tab)))) o.
Proof.
  induction tab as [| v tab IH]; intros cr o Hok Hn; cbn [unicode_case1_loop].
  { apply swp_ret. split; [done |]. left. by rewrite app_nil_r. }
  cbn [map concat] in *. unfold lenZ in Hn. rewrite length_app in Hn. rewrite flat_app. unfold selected_intervals at 1 in Hn. unfold selected_intervals at 1.
  destruct (Z.land _ 1 =? 0); [apply IH; [done | unfold lenZ; simpl in Hn; lia] |].
  apply swp_bind. eapply swp_mono; [apply (add_intervals_spec _ cr o Hok); unfold lenZ; lia |].
  intros [rc cr1] o1 (Hok1 & [(-> & R & E1 & E2) | (-> & R)]); simpl; [| apply swp_ret; split; [done | by right]].
  eapply swp_mono; [apply (IH cr1 o1 Hok1); unfold lenZ in *; lia |]. intros [rc cr2] o2 [Hok2 Hout]. split; [done |].
  revert Hout. apply outcome_trans; [done |]. by rewrite E1, <- app_assoc.
Qed.

Lemma cr_init_ok : cr_ok cr_init.
Proof. split; unfold lenZ; simpl; lia. Qed.

(** The mask is built by adding its intervals in order. *)
Lemma unicode_case1_spec u o :
  swp (unicode_case1 cr_init (mask_of u)) (fun '(rc, cr') o' => cr_ok cr' /\ outcome o rc o' (live cr' = flat (mask_pairs u))) o.
Proof.
  unfold unicode_case1. replace (mask_of u =? 0) with false by (by destruct u).
  pose proof (mask_short u) as Hs. unfold mask_pairs in Hs.
  eapply swp_mono; [apply (unicode_case1_loop_spec u case_conv_table1 cr_init o cr_init_ok); unfold MAX_POINTS; simpl cr_len; lia |].
  intros [rc cr'] o' [Hok Hout]. by split.
Qed.

(** ** The walk *)

Lemma advance_spec fuel : forall c i j,
  0 <= i <= j -> j < N_RUNS -> in_run (run_at j) c -> j - i < Z.of_nat fuel -> advance fuel c i (run_at i) = Done (j, run_at j).
Proof.
  induction fuel as [| fuel IH]; intros c i j Hij Hj Hc Hf; [lia |]. cbn [advance].
  destruct ((run_code (run_at i) <=? c) && (c <? run_code (run_at i) + run_len (run_at i))) eqn:E.
  - rewrite andb_true_iff in E. rewrite (run_unique i j c ltac:(lia) ltac:(lia)); [done | unfold in_run; lia | done].
  - destruct (Z.eq_dec i j) as [-> | Hne].
    + unfold in_run in Hc. rewrite andb_false_iff in E. lia.
    + cbv zeta. rewrite (proj2 (Z.ltb_lt (i + 1) N_RUNS)) by lia. simpl. apply IH; [lia | lia | done | lia].
Qed.

(** The interval being built. *)
Definition current (st : canon_state) : list (Z * Z) :=
  if cs_start st =? UINT32_MAX then [] else [(cs_start st, cs_end st)].

Definition char_pairs (l : list (Z * Z)) : Prop := forall p, p ∈ l -> 0 <= fst p < snd p /\ snd p <= MAX_CHAR.

(** After the characters [P], all below [c]: the run index is not past [c], and
    the intervals hold the images unless an allocation was refused. *)
Record canon_inv (u : bool) (P : Z -> Prop) (c : Z) (st : canon_state) (o : ropaque) : Prop := {
  ci_idx : 0 <= cs_idx st < N_RUNS;
  ci_v : cs_v st = run_at (cs_idx st);
  ci_run : cs_idx st = 0 \/ run_code (run_at (cs_idx st)) <= c;
  ci_ok : cr_ok (cs_result st);
  ci_len : 0 <= c /\ cr_len (cs_result st) + 2 * lenZ (current st) <= 2 * c;
  ci_current : char_pairs (current st);
  ci_image : exists R, live (cs_result st) = flat R /\ char_pairs R /\
    (r_refused o = false -> forall y, in_pairs (R ++ current st) y <-> exists c, P c /\ lre_canonicalize c u = Done y)
}.

Lemma canon_inv_impl u (P P' : Z -> Prop) c c' st o :
  c <= c' -> (forall x, P x <-> P' x) -> canon_inv u P c st o -> canon_inv u P' c' st o.
Proof.
  intros Hc HP [H1 H2 H3 H4 H5 H6 (R & H7 & H8 & H9)]. split; try done; try lia. exists R. split; [done |]. split; [done |].
  intros Hr y. rewrite (H9 Hr). by setoid_rewrite HP.
Qed.

Lemma image_step u P c d (S S' : list (Z * Z)) :
  lre_canonicalize c u = Done d ->
  (forall y, in_pairs S y <-> exists c, P c /\ lre_canonicalize c u = Done y) ->
  (forall y, in_pairs S' y <-> in_pairs S y \/ y = d) ->
  forall y, in_pairs S' y <-> exists x, (P x \/ x = c) /\ lre_canonicalize x u = Done y.
Proof.
  intros Hd HS HS' y. rewrite HS', HS. split.
  - intros [(x & Hx & E) | ->]; [exists x | exists c]; auto.
  - intros (x & [Hx | ->] & E); [left; by exists x | right; congruence].
Qed.

Lemma char_pairs_snoc R s e : char_pairs R -> char_pairs [(s, e)] -> char_pairs (R ++ [(s, e)]).
Proof. intros H H' p Hp. apply elem_of_app in Hp as [Hp | Hp]; auto. Qed.

Lemma char_pairs_one d : 0 <= d < MAX_CHAR -> char_pairs [(d, d + 1)].
Proof. intros H p Hp. apply list_elem_of_singleton in Hp as ->. simpl. lia. Qed.

(** One more character. *)
Lemma merge_point_spec u P c st o j d :
  canon_inv u P c st o -> 0 <= j < N_RUNS -> run_code (run_at j) <= c -> c < MAX_CHAR ->
  lre_canonicalize c u = Done d -> 0 <= d < MAX_CHAR ->
  swp (merge_point st j (run_at j) d) (fun st' o' => canon_inv u (fun x => P x \/ x = c) (c + 1) st' o') o.
Proof.
  intros [H1 H2 H3 H4 H5 H6 (R & H7 & H8 & H9)] Hj Hr Hc Hd Hdm. unfold merge_point. unfold current in H5, H6, H9.
  assert (Eu : u32 (d + 1) = d + 1) by (unfold u32, MAX_CHAR in *; rewrite Z.mod_small; lia).
  assert (Hm : (d =? UINT32_MAX) = false) by (apply Z.eqb_neq; unfold UINT32_MAX, MAX_CHAR in *; lia).
  destruct (cs_start st =? UINT32_MAX) eqn:Es.
  - apply swp_ret. rewrite Eu. unfold lenZ in H5. simpl in H5.
    split; cbn; try done; unfold current; cbn; rewrite ?Hm; [lia | unfold lenZ; simpl; lia | by apply char_pairs_one |].
    exists R. split; [done |]. split; [done |]. intros Hf. apply (image_step u P c d (R ++ [])); [done | by apply H9 |].
    intros y. rewrite app_nil_r, in_pairs_app, in_pairs_one. intuition lia.
  - pose proof (H6 _ (list_elem_of_here _ _)) as [Hse Hem]. cbn in Hse, Hem. unfold lenZ in H5. simpl in H5.
    destruct (Z.eqb_spec (cs_end st) d) as [Ee | Ne].
    + apply swp_ret. rewrite Ee, Eu. split; cbn; try done; unfold current; cbn; rewrite ?Es; [lia | unfold lenZ; simpl; lia | |].
      { intros p Hp. apply list_elem_of_singleton in Hp as ->. simpl. lia. }
      exists R. split; [done |]. split; [done |]. intros Hf. apply (image_step u P c d (R ++ [(cs_start st, cs_end st)])); [done | by apply H9 |].
      intros y. rewrite !in_pairs_app, !in_pairs_one. rewrite Ee in *. intuition lia.
    + apply swp_bind. eapply swp_mono; [apply (cr_add_interval_spec (cs_result st) (cs_start st) (cs_end st) o H4); unfold MAX_POINTS, MAX_CHAR in *; lia |].
      intros [rc cr'] o' (K1 & K2 & K3 & K4). apply swp_ret. rewrite Eu.
      split; cbn; try done; unfold current; cbn; rewrite ?Hm; [lia | unfold lenZ; simpl; lia | by apply char_pairs_one |].
      destruct K4 as [(-> & K4 & K5 & K6) | (-> & K4)].
      * exists (R ++ [(cs_start st, cs_end st)]). split; [by rewrite K5, H7, flat_app |]. split; [by apply char_pairs_snoc |].
        intros Hf. rewrite K4 in Hf. apply (image_step u P c d (R ++ [(cs_start st, cs_end st)])); [done | by apply H9 |].
        intros y. rewrite !in_pairs_app, !in_pairs_one. intuition lia.
      * exists R. split; [by rewrite K3 |]. split; [done |]. intros Hf. congruence.
Qed.

Lemma canon_chars_spec u n : forall P c st o,
  canon_inv u P c st o -> (forall x, c <= x < c + Z.of_nat n -> in_pairs (mask_pairs u) x) ->
  swp (canon_chars n c u st) (fun st' o' => canon_inv u (fun x => P x \/ c <= x < c + Z.of_nat n) (c + Z.of_nat n) st' o') o.
Proof.
  induction n as [| n IH]; intros P c st o Hinv Hm; cbn [canon_chars].
  { apply swp_ret. eapply canon_inv_impl; [| | exact Hinv]; [lia |]. intros x. split; [by left | intros [H | H]; [done | lia]]. }
  pose proof Hinv as [H1 H2 H3 H4 H5 H6 H7].
  assert (Hc : in_pairs (mask_pairs u) c) by (apply Hm; lia). destruct (mask_in_run u c Hc) as (j & Hj & Hr).
  assert (Hcm : c < MAX_CHAR) by (destruct Hc as (s & e & Hin & Hse); apply mask_chars in Hin; lia).
  assert (Hij : cs_idx st <= j).
  { destruct (Z.le_gt_cases (cs_idx st) j) as [| L]; [done |]. destruct H3 as [-> | H3]; [lia |].
    pose proof (runs_before j (cs_idx st) ltac:(lia) ltac:(lia)) as Hb. unfold run_before, in_run in *. lia. }
  apply swp_bind. eapply swp_lift; [rewrite H2; apply (advance_spec _ c (cs_idx st) j); [lia | lia | done | unfold N_RUNS, lenZ in Hj; lia] |].
  destruct (folding_spec j c Hj Hr u) as (d & E & Hd & _). pose proof (canonicalize_run j c u Hj ltac:(lia) Hr) as Ec. rewrite E in Ec.
  apply swp_bind. eapply swp_lift; [exact E |]. apply swp_bind. unfold in_run in Hr.
  eapply swp_mono; [apply (merge_point_spec u P c st o j d Hinv Hj ltac:(lia) Hcm Ec Hd) |]. intros st1 o1 Hinv1.
  eapply swp_mono; [apply (IH _ _ st1 o1 Hinv1); intros x Hx; apply Hm; lia |]. intros st2 o2 Hinv2.
  eapply canon_inv_impl; [| | exact Hinv2]; [lia |]. intros x. split; [intros [[H | ->] | H]; [by left | right; lia | right; lia] |].
  intros [H | H]; [by left; left |]. destruct (Z.eq_dec x c) as [-> | Hne]; [by left; right | right; lia].
Qed.

Lemma canon_intervals_spec u l : forall P c st o,
  canon_inv u P c st o -> c <= MAX_CHAR -> ascending (flat l) -> (forall p, p ∈ l -> c <= fst p /\ snd p <= MAX_CHAR) ->
  (forall x, in_pairs l x -> in_pairs (mask_pairs u) x) ->
  swp (canon_intervals l u st) (fun st' o' => exists c', c' <= MAX_CHAR /\ canon_inv u (fun x => P x \/ in_pairs l x) c' st' o') o.
Proof.
  induction l as [| [s e] l IH]; intros P c st o Hinv Hcm Ha Hl Hm; cbn [canon_intervals].
  { apply swp_ret. exists c. split; [done |]. eapply canon_inv_impl; [| | exact Hinv]; [lia |]. intros x. split; [by left |].
    intros [H | (s & e & H & _)]; [done | by apply not_elem_of_nil in H]. }
  cbn [flat] in Ha. apply ascending_cons in Ha as [Ha Hs]. apply ascending_cons in Ha as [Ha He].
  assert (Hse : s <= e) by (apply Hs, list_elem_of_here). pose proof (Hl _ (list_elem_of_here _ _)) as [Hcs Hem]. cbn in Hcs, Hem.
  assert (Hm' : forall x, s <= x < e \/ in_pairs l x -> in_pairs (mask_pairs u) x).
  { intros x Hx. apply Hm. change ((s, e) :: l) with ([(s, e)] ++ l). apply in_pairs_app. by rewrite in_pairs_one. }
  assert (Hinv' : canon_inv u P s st o) by (eapply canon_inv_impl; [exact Hcs | | exact Hinv]; done).
  assert (Een : s + Z.of_nat (Z.to_nat (e - s)) = e) by lia.
  apply swp_bind. eapply swp_mono; [apply (canon_chars_spec u _ P s st o Hinv'); rewrite Een; intros x Hx; apply Hm'; by left |].
  intros st1 o1. rewrite Een. intros Hinv1.
  eapply swp_mono; [apply (IH _ _ st1 o1 Hinv1 Hem Ha); [| intros x Hx; apply Hm'; by right] |].
  - intros [s' e'] Hp. split; [apply He, elem_flat; exists s', e'; simpl; tauto |]. apply (Hl (s', e')). by apply list_elem_of_further.
  - intros st2 o2 (c' & Hc' & Hinv2). exists c'. split; [done |]. eapply canon_inv_impl; [| | exact Hinv2]; [lia |].
    intros x. change ((s, e) :: l) with ([(s, e)] ++ l). rewrite in_pairs_app, in_pairs_one. tauto.
Qed.

(** ** [cr_regexp_canonicalize] *)

Lemma increasing_length l k : increasing l -> (forall z, z ∈ l -> z ∈ k) -> (length l <= length k)%nat.
Proof.
  intros Hi Hs. apply submseteq_length, NoDup_submseteq; [| done]. induction l as [| x l IH]; [constructor |].
  apply increasing_cons in Hi as [Hi Hx]. constructor; [intros H; specialize (Hx x H); lia |]. apply IH; [done | set_solver].
Qed.

Lemma flat_pairs l : even l -> flat (pairs l) = l.
Proof. revert l. apply (pair_ind (fun l => flat (pairs l) = l)); [done |]. intros x y l _ IH. simpl. by rewrite IH. Qed.

Lemma inside_pairs l x : ascending l -> even l -> inside l x = true <-> in_pairs (pairs l) x.
Proof. intros Ha He. rewrite <- inside_flat, flat_pairs by (rewrite ?flat_pairs; done). done. Qed.

(** What the function promises: 0, or -1 after a refusal; a canonical range;
    without a refusal the image of the set. *)
Definition canonicalized (u : bool) (set : Z -> Prop) (rc : Z) (cr' : CharRange) (o' : ropaque) : Prop :=
  cr_ok cr' /\ (rc = 0 /\ canonical (live cr') \/ rc = -1 /\ r_refused o' = true) /\
  (r_refused o' = false -> forall y, inside (live cr') y = true <-> exists c, set c /\ lre_canonicalize c u = Done y).

Lemma canonicalized_failed u set cr o : cr_ok cr -> r_refused o = true -> canonicalized u set (-1) cr o.
Proof. intros H1 H2. split; [done |]. split; [by right |]. congruence. Qed.

Lemma canon_start u o :
  canon_inv u (fun _ => False) 0 {| cs_idx := 0; cs_v := nthZ 0 case_conv_table1 0; cs_start := UINT32_MAX; cs_end := UINT32_MAX; cs_result := cr_init |} o.
Proof.
  split; cbn [cs_idx cs_v cs_start cs_end cs_result]; unfold current; cbn [cs_start cs_end]; rewrite ?Z.eqb_refl.
  - split; [done | by vm_compute].
  - done.
  - by left.
  - apply cr_init_ok.
  - split; [done | by vm_compute].
  - intros p Hp. by apply not_elem_of_nil in Hp.
  - exists []. split; [done |]. split; [intros p Hp; by apply not_elem_of_nil in Hp |]. intros _ y. split.
    + intros (s & e & H & _). by apply not_elem_of_nil in H.
    + by intros (c & [] & _).
Qed.

(** The last interval. *)
Lemma canon_flush_spec u P c st o :
  canon_inv u P c st o -> c <= MAX_CHAR ->
  swp (if cs_start st =? UINT32_MAX then sret (0, cs_result st) else cr_add_interval (cs_result st) (cs_start st) (cs_end st))
    (fun '(rc, cr') o' => cr_ok cr' /\ outcome o rc o' (cr_len cr' <= 2 * c /\ exists R, live cr' = flat R /\ char_pairs R /\
      (r_refused o = false -> forall y, in_pairs R y <-> exists c, P c /\ lre_canonicalize c u = Done y))) o.
Proof.
  intros [H1 H2 H3 H4 H5 H6 (R & H7 & H8 & H9)] Hc. unfold current in *. destruct (cs_start st =? UINT32_MAX).
  - apply swp_ret. split; [done |]. left. split; [done |]. split; [done |]. unfold lenZ in H5. simpl in H5. split; [lia |].
    exists R. rewrite app_nil_r in H9. done.
  - unfold lenZ in H5. simpl in H5.
    eapply swp_mono; [apply (cr_add_interval_spec (cs_result st) (cs_start st) (cs_end st) o H4); unfold MAX_POINTS, MAX_CHAR in *; lia |].
    intros [rc cr'] o' (K1 & K2 & K3 & K4). split; [done |]. revert K4. apply outcome_trans; [done |]. intros [K4 K5]. split; [lia |].
    exists (R ++ [(cs_start st, cs_end st)]). split; [by rewrite K4, H7, flat_app |]. split; [by apply char_pairs_snoc | done].
Qed.

(** The interval of an increasing list with characters of the mask only. *)
Lemma canonical_bounds u l :
  canonical l -> (forall x, inside l x = true -> in_pairs (mask_pairs u) x) -> forall p, p ∈ pairs l -> 0 <= fst p /\ snd p <= MAX_CHAR.
Proof.
  intros [Hi He] Hm [s e] Hp. pose proof (increasing_ascending _ Hi) as Ha.
  assert (Hse : s < e).
  { clear Hm Ha. revert l He Hi Hp. apply (pair_ind (fun l => increasing l -> (s, e) ∈ pairs l -> s < e)); [intros _ H; by apply not_elem_of_nil in H |].
    intros x y l _ IH Hi Hp. cbn [pairs] in Hp. apply increasing_cons in Hi as [Hi Hx]. apply increasing_cons in Hi as [Hi _].
    apply elem_of_cons in Hp as [[= -> ->] | Hp]; [apply Hx, list_elem_of_here | by apply IH]. }
  assert (Hin : forall x, s <= x < e -> in_pairs (mask_pairs u) x) by (intros x Hx; apply Hm, inside_pairs; [done | done |]; by exists s, e).
  destruct (Hin s ltac:(lia)) as (s1 & e1 & M1 & R1). destruct (Hin (e - 1) ltac:(lia)) as (s2 & e2 & M2 & R2).
  apply mask_chars in M1, M2. simpl. lia.
Qed.

Lemma canon_rest_spec u set cr cr_inter cr_mask cr_sub o :
  cr_ok cr -> cr_ok cr_inter -> cr_ok cr_sub -> cr_len cr_sub <= 2 ^ 27 ->
  canonical (live cr_inter) -> canonical (live cr_sub) ->
  (forall x, inside (live cr_inter) x = true <-> in_pairs (mask_pairs u) x /\ set x) ->
  (forall x, inside (live cr_sub) x = true <-> ~ in_pairs (mask_pairs u) x /\ set x) ->
  (forall x, set x -> 0 <= x) ->
  swp (canon_rest cr cr_inter cr_mask cr_sub u) (fun '(rc, cr', _) o' => canonicalized u set rc cr' o') o.
Proof.
  intros Hok Hoki Hoks Hls Ci Cs Hi Hs H0. unfold canon_rest. cbv zeta. apply swp_bind.
  assert (Hb : forall p, p ∈ pairs (live cr_inter) -> 0 <= fst p /\ snd p <= MAX_CHAR) by (apply (canonical_bounds u); [done |]; intros x Hx; by apply Hi).
  pose proof Ci as [Ii Ei]. pose proof (increasing_ascending _ Ii) as Ai.
  eapply swp_mono; [apply (canon_intervals_spec u (pairs (live cr_inter)) _ _ _ o (canon_start u o)) |].
  { by vm_compute. } { by rewrite flat_pairs. } { done. } { intros x Hx. apply inside_pairs in Hx; [| done | done]. by apply Hi. }
  intros st o1 (c & Hc & Hinv). apply swp_bind. eapply swp_mono; [apply (canon_flush_spec _ _ _ _ _ Hinv Hc) |].
  intros [rc cr1] o2 (Hok1 & [(-> & R & Hl1 & Q & E1 & HQ & Him) | (-> & R)]).
  2:{ simpl. apply swp_ret. by apply canonicalized_failed. }
  simpl. destruct (sort_and_remove_overlap_spec cr1 Q Hok1 E1) as (cr2 & E2 & Hok2 & Hl2 & C2 & I2); [intros p Hp; by apply HQ |].
  apply swp_bind. eapply swp_lift; [exact E2 |]. apply swp_bind.
  pose proof Hok as [O1 O2 O3]. pose proof Hok2 as [P1 P2 P3]. pose proof Hoks as [S1 S2 S3].
  eapply swp_mono; [apply (cr_op_spec (cr_points cr2) (cr_points cr_sub) (cr_len cr2) (cr_len cr_sub) CR_OP_UNION ltac:(lia) ltac:(lia) _ o2) |].
  { split; simpl; lia. } { done. } { unfold MAX_POINTS, MAX_CHAR in *. lia. }
  { apply increasing_ascending, C2. } { apply increasing_ascending, Cs. } { apply C2. } { apply Cs. }
  intros [rc cr'] o3 [Hok' [(-> & R3 & C3 & I3 & _) | (-> & R3)]]; apply swp_ret; simpl; [| by apply canonicalized_failed].
  split; [done |]. split; [by left |]. intros Hf y. rewrite R3, R in Hf. rewrite I3. simpl op_sem. fold (live cr2) (live cr_sub).
  rewrite orb_true_iff, I2, Him, Hs by done. split.
  - intros [(x & [[] | Hx] & E) | [Hm Hy]].
    + exists x. split; [| done]. apply inside_pairs in Hx; [| done | done]. by apply Hi.
    + exists y. split; [done |]. destruct (canonicalize_spec y u (H0 y Hy)) as (d & E & _ & Hd & _). by rewrite E, Hd.
  - intros (x & Hx & E). destruct (inside (live cr_inter) x) eqn:Ex.
    + left. exists x. split; [right; by apply inside_pairs | done].
    + right. assert (Hnm : ~ in_pairs (mask_pairs u) x) by (intros Hm; by rewrite (proj2 (Hi x) (conj Hm Hx)) in Ex).
      destruct (canonicalize_spec x u (H0 x Hx)) as (d & E' & _ & Hd & _). rewrite E' in E. specialize (Hd Hnm). by simplify_eq.
Qed.

(** A set the regular expression compiler hands over. *)
Record class_range (cr : CharRange) : Prop := {
  cl_ok : cr_ok cr;
  cl_len : cr_len cr <= 2 ^ 26;
  cl_canonical : canonical (live cr);
  cl_chars : forall z, z ∈ live cr -> 0 <= z <= UINT32_MAX
}.

Lemma inside_bounds l x lo hi :
  even l -> (forall z, z ∈ l -> lo <= z <= hi) -> inside l x = true -> lo <= x < hi.
Proof.
  intros He Hz Hx. split.
  - destruct (Z.le_gt_cases lo x) as [| L]; [done |]. rewrite inside_below in Hx by (intros p Hp; specialize (Hz p Hp); lia). done.
  - destruct (Z.lt_ge_cases x hi) as [| L]; [done |]. rewrite inside_above in Hx by (intros p Hp; specialize (Hz p Hp); lia).
    apply even_odd in He. congruence.
Qed.

Lemma length_combined (a b c : list Z) :
  increasing c -> (forall z, z ∈ c -> z ∈ a \/ z ∈ b) -> lenZ c <= lenZ a + lenZ b.
Proof. intros Hi Hs. pose proof (increasing_length c (a ++ b) Hi) as H. rewrite length_app in H. unfold lenZ. specialize (H ltac:(set_solver)). lia. Qed.

Lemma mask_points u z : z ∈ flat (mask_pairs u) -> 0 <= z <= UINT32_MAX.
Proof.
  intros Hz. pose proof Hz as Hz'. apply elem_flat in Hz as (s & e & Hin & Hz). pose proof (mask_chars u s e Hin) as Hse.
  assert (Hle : s <= e).
  { unfold mask_pairs in Hin. apply list_elem_of_In, in_concat in Hin as (l & Hl & Hin). apply in_map_iff in Hl as (v & <- & Hv).
    apply list_elem_of_In, list_elem_of_lookup in Hv as [n Hn].
    assert (Hi : 0 <= Z.of_nat n < N_RUNS) by (apply lookup_lt_Some in Hn; unfold N_RUNS, lenZ; lia).
    pose proof (run_lookup _ Hi) as E. rewrite Nat2Z.id, Hn in E. injection E as Ev. rewrite Ev in Hin. apply list_elem_of_In in Hin.
    apply (intervals_in_run u _ s e Hi) in Hin. lia. }
  unfold MAX_CHAR, UINT32_MAX in *. lia.
Qed.

Section canonicalize.
Context (u : bool) (cr : CharRange).
Hypothesis Hcl : class_range cr.
Let set (x : Z) : Prop := inside (live cr) x = true.

Lemma class_set_bounds x : set x -> 0 <= x < UINT32_MAX.
Proof. apply inside_bounds; [apply Hcl | apply Hcl]. Qed.

Lemma canon_body_spec o : swp (canon_body cr u) (fun '(rc, cr', _) o' => canonicalized u set rc cr' o') o.
Proof.
  pose proof (cl_ok _ Hcl) as Hok. pose proof Hok as [O1 O2 O3]. pose proof (cl_len _ Hcl) as Hlen. pose proof (cl_canonical _ Hcl) as [Ic Ec].
  pose proof (increasing_ascending _ Ic) as Ac. unfold canon_body. cbv zeta. change (if u then CASE_F else CASE_U) with (mask_of u).
  apply swp_bind. eapply swp_mono; [apply (unicode_case1_spec u o) |].
  intros [rc m] o1 (Hokm & [(-> & R1 & Em) | (-> & R1)]); simpl; [| apply swp_ret; by apply canonicalized_failed].
  pose proof Hokm as [M1 M2 M3]. pose proof (length_live _ Hokm) as Hlm. rewrite Em in Hlm. unfold lenZ in Hlm. rewrite length_flat in Hlm.
  pose proof (mask_short u) as Hms. unfold lenZ in Hms.
  assert (Am : ascending (live m)) by (rewrite Em; apply mask_ascending). assert (Evm : even (live m)) by (rewrite Em; apply even_flat).
  assert (Hin : forall x, inside (live m) x = true <-> in_pairs (mask_pairs u) x) by (intros x; rewrite Em; apply inside_flat, mask_ascending).
  apply swp_bind. eapply swp_mono; [apply (cr_op_spec (cr_points m) (cr_points cr) (cr_len m) (cr_len cr) CR_OP_INTER ltac:(lia) ltac:(lia) cr_init o1 cr_init_ok); try done; unfold MAX_POINTS; lia |].
  intros [rc inter] o2 (Hoki & [(-> & R2 & Ci & Ii & _) | (-> & R2)]); simpl; [| apply swp_ret; by apply canonicalized_failed].
  apply swp_bind. eapply swp_mono; [apply (cr_invert_spec m o2 Hokm); try done; [unfold MAX_POINTS; lia | rewrite Em; apply mask_points] |].
  intros [rc inv] o3 (Hokv & [(-> & R3 & Cv & Lv & Bv & Iv) | (-> & R3)]); simpl; [| apply swp_ret; by apply canonicalized_failed].
  pose proof Hokv as [V1 V2 V3]. apply swp_bind.
  eapply swp_mono; [apply (cr_op_spec (cr_points inv) (cr_points cr) (cr_len inv) (cr_len cr) CR_OP_INTER ltac:(lia) ltac:(lia) cr_init o3 cr_init_ok); try done; [unfold MAX_POINTS; lia | apply increasing_ascending, Cv | apply Cv] |].
  intros [rc sub] o4 (Hoks & [(-> & R4 & Cs & Is & Es) | (-> & R4)]); simpl; [| apply swp_ret; by apply canonicalized_failed].
  apply canon_rest_spec; try done.
  - pose proof (length_combined _ _ _ (proj1 Cs) Es) as Hl. rewrite (length_live _ Hoks) in Hl.
    change (take _ (cr_points inv)) with (live inv) in Hl. change (take _ (cr_points cr)) with (live cr) in Hl.
    rewrite (length_live _ Hokv), (length_live _ Hok) in Hl. lia.
  - intros x. rewrite Ii. simpl. rewrite andb_true_iff. by rewrite <- Hin.
  - intros x. rewrite Is. simpl. change (take _ (cr_points inv)) with (live inv). rewrite Iv, !andb_true_iff, negb_true_iff, <- Hin.
    change (take _ (cr_points cr)) with (live cr). split.
    + intros [[_ H1] H2]. split; [congruence | done].
    + intros [H1 H2]. pose proof (class_set_bounds x H2). split; [| done]. split; [lia |]. by destruct (inside (live m) x).
  - intros x Hx. apply class_set_bounds in Hx. lia.
Qed.

Lemma free_ranges_spec l : forall o, swp (free_ranges l) (fun _ o' => r_refused o' = r_refused o) o.
Proof.
  induction l as [| k l IH]; intros o; cbn [free_ranges]; [by apply swp_ret |]. apply swp_bind.
  eapply swp_mono; [apply cr_free_spec |]. intros [] o1 E. eapply swp_mono; [apply IH |]. intros [] o2 E'. congruence.
Qed.

Lemma regexp_canonicalize_spec o :
  swp (cr_regexp_canonicalize cr u) (fun '(rc, cr') o' => canonicalized u set rc cr' o') o.
Proof.
  unfold cr_regexp_canonicalize. apply swp_bind. eapply swp_mono; [apply canon_body_spec |]. intros [[rc cr'] work] o1 H.
  apply swp_bind. eapply swp_mono; [apply free_ranges_spec |]. intros [] o2 E. apply swp_ret. unfold canonicalized in *. by rewrite E.
Qed.
End canonicalize.
End sets.
