(* ===== verification/CharTheorems.v ===== *)
(** * Character ranges and case conversion: theorems

    The range functions compute the set operations in canonical form; case
    conversion is total and its results are characters; canonicalisation of a
    set is the image of the set under canonicalisation of characters. *)

From stdpp Require Import base list numbers sorting sets.
From Stdlib Require Import ZArith Lia.
From S2P Require Import Prelude StateRun RqSort RqSortProofs RqSortTheorems CharRange CharRangeSets CharRangeProofs.
From S2P Require Import CaseTables CaseConv CaseProofs CaseSets.

#[local] Open Scope st_scope.
#[local] Open Scope Z_scope.

(** Converting a character to upper case, lower case or its case folding
    returns for every character, reads the tables inside their bounds, and
    gives one to three characters. *)
Theorem case_conv_in_bounds c t :
  0 <= c < MAX_CHAR -> 0 <= t <= 2 ->
  exists l, lre_case_conv c t = Done l /\ 1 <= lenZ l <= 3 /\ forall d, d ∈ l -> 0 <= d < MAX_CHAR.
Proof.
  intros Hc Ht. unfold lre_case_conv. cbn [lre_case_conv_n].
  assert (Hone : forall d, 0 <= d < MAX_CHAR -> exists l, Done [d] = Done l /\ 1 <= lenZ l <= 3 /\ forall d, d ∈ l -> 0 <= d < MAX_CHAR).
  { intros d Hd. exists [d]. split; [done |]. split; [unfold lenZ; simpl; lia |]. intros d' H. by apply list_elem_of_singleton in H as ->. }
  destruct (Z.ltb_spec c 128) as [L | L].
  - apply Hone. unfold ascii_lower, ascii_upper, MAX_CHAR in *. repeat case_match; lia.
  - destruct (find_run_spec c) as [(i & -> & Hi & Hr) | [-> _]]; [| by apply Hone]. cbn [run_bind]. by apply conv_spec.
Qed.

(** canonicalisation of characters, with and without the [u] flag, is a
    projection: it returns for every code point, and what it returns is its own
    canonical form. *)
Theorem canonicalize_idempotent c u :
  0 <= c -> exists d, lre_canonicalize c u = Done d /\ lre_canonicalize d u = Done d /\ (c < MAX_CHAR -> 0 <= d < MAX_CHAR).
Proof.
  intros Hc. destruct (canonicalize_spec c u Hc) as (d & E & H1 & _ & H2). exists d. split; [done |]. split; [done |]. lia.
Qed.

Section theorems.
Context `{RL : ReallocLaws}.

(** C32: the binary operations and the complement of character ranges return 0
    and the canonical range of the set operation, the only one there is, or -1
    after the allocator has refused. *)
Theorem range_ops_are_set_ops cr b op o :
  class_range cr -> class_range b ->
  swp (cr_op1 cr (cr_points b) (cr_len b) op) (fun '(rc, cr') o' => cr_ok cr' /\ outcome o rc o'
    (canonical (live cr') /\ forall l, canonical l -> (forall x, inside l x = op_sem op (inside (live cr) x) (inside (live b) x)) -> live cr' = l)) o /\
  swp (cr_invert cr) (fun '(rc, cr') o' => cr_ok cr' /\ outcome o rc o'
    (canonical (live cr') /\ forall l, canonical l -> (forall x, inside l x = (0 <=? x) && (x <? UINT32_MAX) && negb (inside (live cr) x)) -> live cr' = l)) o.
Proof.
  intros [Ok Ol [Oi Oe] Oc] [Bk Bl [Bi Be] Bc]. pose proof (co_len _ Bk) as Hb. pose proof (co_buf _ Bk) as Hbuf. split.
  - eapply swp_mono; [apply (cr_op1_spec cr (cr_points b) (cr_len b) op o Ok (conj Oi Oe)); try done; [lia | unfold MAX_POINTS; lia | by apply increasing_ascending] |].
    intros [rc cr'] o' [H1 H2]. split; [done |]. revert H2. apply outcome_trans; [done |]. intros [Hc Hx]. split; [done |].
    intros l [Hl _] Hi. apply increasing_unique; [apply Hc | done |]. intros x. by rewrite Hx, Hi.
  - eapply swp_mono; [apply (cr_invert_spec cr o Ok); try done; [unfold MAX_POINTS; lia | by apply increasing_ascending] |].
    intros [rc cr'] o' [H1 H2]. split; [done |]. revert H2. apply outcome_trans; [done |]. intros (Hc & _ & _ & Hx). split; [done |].
    intros l [Hl _] Hi. apply increasing_unique; [apply Hc | done |]. intros x. by rewrite Hx, Hi.
Qed.

(** C8: canonicalising a character class for a case-insensitive regular
    expression returns 0, or -1 after a refused allocation; unless an allocation
    was refused the new class is canonical and holds exactly the canonical forms
    of the characters of the old one. *)
Theorem regexp_canonicalize_image u cr o :
  class_range cr ->
  swp (cr_regexp_canonicalize cr u) (fun '(rc, cr') o' =>
    (rc = 0 \/ rc = -1 /\ r_refused o' = true) /\
    (r_refused o' = false -> canonical (live cr') /\
      forall y, inside (live cr') y = true <-> exists c, inside (live cr) c = true /\ lre_canonicalize c u = Done y)) o.
Proof.
  intros Hcl. eapply swp_mono; [apply (regexp_canonicalize_spec u cr Hcl o) |]. intros [rc cr'] o' (H1 & H2 & H3).
  split; [destruct H2 as [[-> _] | H2]; [by left | by right] |]. intros Hf. split; [| by apply H3].
  destruct H2 as [[_ H2] | [_ H2]]; [done | congruence].
Qed.
End theorems.

(** ** A concrete allocator *)

Module Demo.

(** The state: how many requests are granted before the refusals start, how many
    are refused, and whether one was. *)
#[local] Instance budget : Realloc := {
  ropaque := Z * Z * bool;
  realloc_func := fun '(grants, refusals, r) b n =>
    if n =? 0 then (None, (grants, refusals, r))
    else if (grants =? 0) && (0 <? refusals) then (None, (grants, refusals - 1, true))
    else (Some (take (Z.to_nat n) (b ++ replicate (Z.to_nat n) 0)), (if grants =? 0 then 0 else grants - 1, refusals, r))
}.

#[local] Instance budget_laws : ReallocLaws.
Proof.
  refine {| r_refused := fun o : ropaque => let '(_, _, r) := o in r |}.
  - intros [[g f] r] b n b' [[g' f'] r'] Hn Hb. simpl. rewrite (proj2 (Z.eqb_neq n 0)) by lia. destruct ((g =? 0) && (0 <? f)); [done |].
    intros [= <- _ _ <-]. unfold lenZ in *. rewrite length_take, length_app, length_replicate. split; [lia |]. split; [| done].
    rewrite take_take, Nat.min_l by lia. by rewrite take_app_length.
  - intros [[g f] r] b n [[g' f'] r'] Hn. simpl. rewrite (proj2 (Z.eqb_neq n 0)) by lia. by destruct ((g =? 0) && (0 <? f)); [intros [= _ _ <-] |].
  - by intros [[g f] r] b.
Defined.

Definition range (l : list Z) : CharRange := {| cr_len := lenZ l; cr_size := lenZ l; cr_points := l |}.

(** [[A-Zß]] *)
Definition upper : CharRange := range [65; 91; 223; 224].

Lemma upper_class : class_range upper.
Proof.
  split.
  - split; vm_compute; intuition discriminate.
  - by vm_compute.
  - split; [| by exists 2%nat]. unfold increasing. simpl. repeat constructor; lia.
  - intros z Hz. unfold upper, live, range in Hz. simpl in Hz. rewrite !elem_of_cons in Hz. unfold UINT32_MAX.
    destruct Hz as [-> | [-> | [-> | [-> | Hz]]]]; [lia | lia | lia | lia | by apply not_elem_of_nil in Hz].
Qed.

(** [[a-z]] *)
Definition lower : CharRange := range [97; 123].

Lemma lower_class : class_range lower.
Proof.
  split.
  - split; vm_compute; intuition discriminate.
  - by vm_compute.
  - split; [| by exists 1%nat]. unfold increasing. simpl. repeat constructor; lia.
  - intros z Hz. unfold lower, live, range in Hz. simpl in Hz. rewrite !elem_of_cons in Hz. unfold UINT32_MAX.
    destruct Hz as [-> | [-> | Hz]]; [lia | lia | by apply not_elem_of_nil in Hz].
Qed.

Definition plenty : ropaque := (1000, 0, false).

Lemma case_conv_in_bounds_witness :
  exists l, lre_case_conv 223 0 = Done l /\ 1 <= lenZ l <= 3 /\ forall d, d ∈ l -> 0 <= d < MAX_CHAR.
Proof. apply (case_conv_in_bounds 223 0); unfold MAX_CHAR; lia. Defined.

Lemma canonicalize_idempotent_witness :
  exists d, lre_canonicalize 7838 true = Done d /\ lre_canonicalize d true = Done d /\ (7838 < MAX_CHAR -> 0 <= d < MAX_CHAR).
Proof. apply (canonicalize_idempotent 7838 true). lia. Defined.

Lemma range_ops_are_set_ops_witness :
  class_range upper /\ class_range lower /\
  swp (cr_op1 upper (cr_points lower) (cr_len lower) CR_OP_UNION) (fun '(rc, cr') o' => cr_ok cr' /\ outcome plenty rc o'
    (canonical (live cr') /\ forall l, canonical l -> (forall x, inside l x = op_sem CR_OP_UNION (inside (live upper) x) (inside (live lower) x)) -> live cr' = l)) plenty.
Proof.
  split; [exact upper_class |]. split; [exact lower_class |].
  exact (proj1 (range_ops_are_set_ops (RL := budget_laws) upper lower CR_OP_UNION plenty upper_class lower_class)).
Defined.

Lemma regexp_canonicalize_image_witness :
  class_range upper /\
  swp (cr_regexp_canonicalize upper true) (fun '(rc, cr') o' =>
    (rc = 0 \/ rc = -1 /\ r_refused o' = true) /\
    (r_refused o' = false -> canonical (live cr') /\
      forall y, inside (live cr') y = true <-> exists c, inside (live upper) c = true /\ lre_canonicalize c true = Done y)) plenty.
Proof. split; [exact upper_class |]. exact (regexp_canonicalize_image (RL := budget_laws) true upper plenty upper_class). Defined.

(** The class [[AC]] with a single refusal while its canonical form is built:
    the call returns 0 and the class has lost the canonical form of ['A'], since
    the result of [cr_add_interval] is ignored. *)
Theorem canonicalize_loses_refused_interval :
  exists cr' o', cr_regexp_canonicalize (range [65; 66; 67; 68]) true (21, 1, false) = Done ((0, cr'), o') /\
    live cr' = [99; 100] /\ lre_canonicalize 65 true = Done 97 /\ inside (live cr') 97 = false.
Proof. do 2 eexists. split; [vm_compute; reflexivity |]. vm_compute. repeat split; reflexivity. Qed.
End Demo.
