(* ===== verification/PropTables.v ===== *)
(** * Property and script tables (libunicode-table.h)

    Run lengths of the characters that have a property, with an index for random
    access; the scripts of the characters and their script extensions. *)

From Stdlib Require Import ZArith List.
Import ListNotations.

#[local] Open Scope Z_scope.

Definition unicode_prop_Cased1_table : list Z :=
  [64; 169; 128; 142; 128; 252; 128; 211; 128; 155; 129; 141; 2; 128; 225; 128; 145; 133; 154; 1; 0; 1; 17; 3;
   4; 8; 1; 8; 48; 8; 1; 21; 32; 1; 49; 153; 49; 157; 132; 64; 148; 128; 214; 130; 166; 128; 65; 98;
   128; 166; 128; 75; 114; 128; 76; 2; 248; 2; 128; 143; 128; 176; 64; 219; 8; 128; 65; 208; 128; 140; 128; 143;
   140; 228; 3; 1; 137; 0; 20; 40; 16; 17; 2; 1; 24; 11; 36; 75; 38; 1; 1; 134; 229; 128; 96; 121;
   182; 129; 64; 145; 129; 189; 136; 148; 5; 128; 152; 128; 192; 26; 130; 67; 52; 162; 6; 128; 141; 96; 92; 21;
   1; 16; 169; 128; 136; 96; 204; 68; 212; 128; 198; 1; 8; 9; 11; 128; 139; 0; 6; 128; 192; 3; 15; 6;
   128; 155; 3; 4; 0; 22; 128; 65; 83; 129; 152; 128; 152; 128; 158; 128; 152; 128; 158; 128; 152; 128; 158; 128;
   152; 128; 158; 128; 152; 7; 71; 51; 137; 128; 147; 45; 65; 4; 189; 80; 193; 153; 133; 153; 133; 153].

Definition unicode_prop_Cased1_index : list Z :=
  [185; 2; 128; 160; 30; 64; 158; 166; 64; 85; 212; 33; 21; 215; 33; 138; 241; 1].

Definition unicode_prop_Case_Ignorable_table : list Z :=
  [166; 5; 128; 138; 128; 162; 0; 128; 198; 3; 0; 3; 1; 129; 65; 246; 64; 191; 25; 24; 136; 8; 128; 64;
   250; 134; 64; 206; 4; 128; 176; 172; 0; 1; 1; 0; 171; 128; 138; 133; 137; 138; 0; 162; 128; 137; 148; 143;
   128; 228; 56; 137; 3; 160; 0; 128; 157; 154; 218; 138; 185; 138; 24; 8; 151; 151; 170; 130; 171; 6; 12; 136;
   168; 185; 182; 0; 3; 59; 2; 134; 137; 129; 140; 128; 142; 128; 185; 3; 31; 128; 147; 129; 153; 1; 129; 184;
   3; 11; 9; 18; 128; 157; 10; 128; 138; 129; 184; 3; 32; 11; 128; 147; 129; 149; 40; 128; 185; 1; 0; 31;
   6; 129; 138; 129; 157; 128; 188; 128; 139; 128; 177; 2; 128; 182; 0; 20; 16; 30; 129; 138; 129; 156; 128; 185;
   1; 5; 4; 129; 147; 129; 155; 129; 184; 11; 31; 128; 147; 129; 156; 128; 199; 6; 16; 128; 217; 1; 134; 138;
   136; 225; 1; 136; 136; 0; 134; 200; 129; 154; 0; 0; 128; 182; 141; 4; 1; 132; 138; 128; 163; 136; 128; 229;
   24; 40; 9; 129; 152; 11; 130; 143; 131; 140; 1; 13; 128; 142; 128; 221; 128; 66; 95; 130; 67; 177; 130; 156;
   129; 157; 129; 157; 129; 191; 8; 55; 1; 138; 16; 32; 172; 132; 178; 128; 192; 129; 161; 128; 245; 19; 129; 136;
   5; 130; 64; 218; 9; 128; 185; 0; 48; 0; 1; 61; 137; 8; 166; 7; 173; 129; 139; 147; 131; 175; 0; 32;
   4; 128; 167; 136; 139; 129; 159; 25; 8; 130; 183; 0; 10; 0; 130; 185; 57; 129; 191; 133; 209; 16; 140; 6;
   24; 40; 17; 177; 190; 140; 128; 161; 228; 65; 188; 0; 130; 138; 130; 140; 130; 140; 130; 140; 129; 139; 39; 129;
   137; 1; 1; 132; 176; 32; 137; 0; 140; 128; 143; 140; 178; 160; 75; 138; 129; 240; 130; 252; 128; 142; 128; 223;
   159; 174; 128; 65; 212; 128; 163; 26; 36; 128; 220; 133; 220; 130; 96; 111; 21; 128; 68; 225; 133; 65; 13; 128;
   225; 24; 137; 0; 155; 131; 207; 129; 141; 161; 205; 128; 150; 130; 229; 26; 15; 2; 3; 128; 152; 12; 128; 64;
   150; 129; 153; 145; 140; 128; 165; 135; 152; 138; 173; 130; 175; 1; 25; 129; 144; 128; 148; 129; 193; 41; 9; 129;
   139; 7; 128; 162; 128; 138; 128; 178; 0; 17; 12; 8; 128; 154; 128; 141; 12; 8; 128; 227; 132; 136; 130; 248;
   1; 3; 128; 96; 79; 47; 128; 64; 146; 144; 66; 60; 143; 16; 139; 143; 161; 1; 128; 64; 168; 6; 5; 128;
   138; 128; 162; 0; 128; 174; 128; 172; 129; 194; 128; 148; 130; 66; 0; 128; 64; 225; 128; 64; 148; 132; 68; 4;
   40; 169; 128; 136; 66; 69; 16; 12; 131; 167; 19; 128; 64; 164; 129; 66; 60; 131; 165; 128; 153; 32; 128; 65;
   58; 129; 151; 128; 179; 133; 197; 138; 176; 131; 250; 128; 181; 142; 168; 1; 129; 137; 130; 176; 25; 9; 3; 128;
   137; 128; 177; 130; 163; 32; 135; 189; 128; 139; 129; 179; 136; 137; 25; 128; 222; 17; 0; 13; 1; 128; 64; 156;
   2; 135; 148; 129; 184; 10; 128; 164; 50; 132; 197; 133; 140; 0; 0; 128; 141; 129; 212; 57; 16; 128; 150; 128;
   211; 40; 3; 8; 129; 64; 237; 29; 8; 129; 154; 129; 212; 57; 0; 129; 233; 0; 1; 40; 128; 228; 0; 1;
   24; 132; 65; 2; 136; 1; 64; 255; 8; 3; 128; 64; 143; 25; 11; 128; 159; 137; 167; 41; 31; 128; 136; 41;
   130; 173; 140; 1; 64; 197; 0; 16; 128; 64; 200; 48; 40; 128; 209; 149; 14; 1; 1; 249; 42; 0; 8; 48;
   128; 199; 10; 0; 128; 192; 128; 65; 24; 129; 138; 129; 179; 36; 0; 128; 150; 128; 84; 212; 144; 133; 142; 96;
   44; 199; 139; 18; 73; 191; 132; 186; 134; 136; 131; 65; 251; 130; 167; 129; 65; 225; 128; 190; 144; 191; 8; 129;
   140; 129; 96; 63; 251; 24; 48; 129; 76; 157; 8; 131; 82; 91; 173; 129; 150; 66; 31; 130; 136; 143; 14; 157;
   131; 64; 147; 130; 71; 186; 182; 131; 177; 56; 141; 128; 149; 32; 142; 69; 79; 48; 144; 14; 1; 4; 132; 189;
   160; 128; 64; 159; 141; 65; 111; 128; 188; 131; 65; 250; 132; 64; 253; 129; 64; 242; 1; 6; 12; 128; 136; 128;
   65; 207; 134; 236; 135; 74; 174; 132; 108; 12; 0; 128; 157; 223; 255; 64; 239].

Definition unicode_prop_Case_Ignorable_index : list Z :=
  [190; 5; 0; 254; 7; 0; 82; 10; 160; 193; 11; 0; 130; 13; 0; 63; 16; 128; 212; 23; 64; 222; 26; 32;
   233; 28; 0; 114; 32; 0; 22; 160; 64; 198; 168; 64; 194; 170; 160; 48; 254; 0; 177; 7; 65; 81; 15; 1;
   208; 17; 1; 95; 20; 1; 68; 25; 97; 168; 28; 1; 42; 97; 97; 255; 175; 1; 25; 224; 97; 0; 231; 1;
   240; 1; 14].

Definition unicode_prop_ID_Start_table : list Z :=
  [192; 153; 133; 153; 174; 128; 137; 3; 4; 150; 128; 158; 128; 65; 201; 131; 139; 141; 38; 0; 128; 64; 128; 32;
   9; 24; 5; 0; 16; 0; 147; 128; 210; 128; 64; 138; 135; 64; 165; 128; 165; 8; 133; 168; 198; 154; 27; 172;
   170; 162; 8; 226; 0; 142; 14; 129; 137; 17; 128; 143; 0; 157; 156; 216; 138; 128; 151; 160; 136; 11; 4; 149;
   24; 136; 2; 128; 150; 152; 134; 138; 132; 151; 6; 143; 169; 185; 181; 16; 145; 6; 137; 142; 143; 31; 9; 129;
   149; 6; 0; 19; 16; 143; 128; 140; 8; 130; 141; 129; 137; 7; 43; 9; 149; 6; 1; 1; 1; 158; 24; 128;
   146; 130; 143; 136; 2; 128; 149; 6; 1; 4; 16; 145; 128; 142; 129; 150; 128; 138; 57; 9; 149; 6; 1; 4;
   16; 157; 8; 130; 142; 128; 144; 0; 42; 16; 26; 8; 0; 10; 10; 18; 139; 149; 128; 179; 56; 16; 150; 128;
   143; 16; 153; 16; 9; 129; 157; 3; 56; 16; 150; 128; 137; 4; 16; 157; 16; 129; 142; 129; 144; 136; 2; 128;
   168; 8; 143; 4; 23; 130; 151; 44; 145; 130; 151; 128; 136; 0; 14; 185; 175; 1; 139; 134; 185; 8; 0; 32;
   151; 0; 128; 137; 1; 136; 1; 32; 128; 148; 131; 159; 128; 190; 56; 163; 154; 132; 242; 170; 147; 128; 143; 43;
   26; 2; 14; 19; 140; 139; 128; 144; 165; 0; 32; 129; 170; 128; 65; 76; 3; 14; 0; 3; 129; 168; 3; 129;
   160; 3; 14; 0; 3; 129; 142; 128; 184; 3; 129; 194; 164; 143; 143; 213; 13; 130; 66; 107; 129; 144; 128; 153;
   132; 202; 130; 138; 134; 145; 140; 146; 141; 145; 141; 140; 2; 142; 179; 162; 3; 128; 194; 216; 134; 168; 0; 132;
   197; 137; 158; 176; 157; 12; 138; 171; 131; 153; 181; 150; 136; 180; 209; 128; 220; 174; 144; 135; 181; 157; 140; 129;
   137; 171; 153; 163; 168; 130; 137; 163; 129; 138; 132; 170; 10; 168; 24; 40; 10; 4; 64; 191; 191; 65; 21; 13;
   129; 165; 13; 15; 0; 0; 0; 128; 158; 129; 180; 6; 0; 18; 6; 19; 13; 131; 140; 34; 6; 243; 128; 140;
   128; 143; 140; 228; 3; 1; 137; 0; 13; 40; 0; 0; 128; 143; 11; 36; 24; 144; 168; 74; 118; 64; 228; 43;
   17; 139; 165; 0; 32; 129; 183; 48; 143; 150; 136; 48; 48; 48; 48; 48; 48; 48; 134; 66; 37; 130; 152; 136;
   52; 12; 131; 213; 28; 128; 217; 3; 132; 170; 128; 221; 144; 159; 175; 143; 65; 255; 89; 191; 191; 96; 86; 140;
   194; 173; 129; 65; 12; 130; 143; 137; 129; 147; 174; 143; 158; 129; 207; 166; 136; 129; 230; 129; 209; 147; 144; 2;
   3; 128; 150; 156; 179; 141; 177; 189; 42; 0; 129; 138; 155; 137; 150; 152; 156; 134; 174; 155; 128; 143; 32; 137;
   137; 32; 168; 150; 16; 135; 147; 150; 16; 130; 177; 0; 17; 12; 8; 0; 151; 17; 138; 50; 139; 41; 41; 133;
   136; 48; 48; 170; 128; 141; 133; 242; 156; 96; 43; 163; 139; 150; 131; 176; 96; 33; 3; 65; 109; 129; 233; 165;
   134; 139; 36; 0; 137; 128; 140; 4; 0; 1; 1; 128; 235; 160; 65; 106; 145; 191; 129; 181; 167; 139; 243; 32;
   64; 134; 163; 153; 133; 153; 138; 216; 21; 13; 13; 10; 162; 139; 128; 153; 128; 146; 1; 128; 142; 129; 141; 161;
   250; 196; 180; 65; 10; 156; 130; 176; 174; 159; 140; 157; 132; 165; 137; 157; 129; 163; 31; 4; 169; 64; 157; 145;
   163; 131; 163; 131; 167; 135; 179; 139; 138; 128; 142; 6; 1; 128; 138; 128; 142; 6; 1; 130; 179; 139; 65; 54;
   136; 149; 137; 135; 151; 40; 169; 128; 136; 196; 41; 0; 171; 1; 16; 129; 150; 137; 150; 136; 158; 192; 146; 1;
   137; 149; 137; 153; 133; 153; 165; 183; 41; 191; 128; 142; 24; 16; 156; 169; 156; 130; 156; 162; 56; 155; 154; 181;
   137; 149; 137; 146; 140; 145; 237; 200; 182; 178; 140; 178; 140; 163; 165; 155; 136; 150; 64; 249; 169; 41; 143; 133;
   183; 156; 137; 7; 149; 169; 145; 173; 148; 154; 150; 139; 180; 184; 9; 128; 140; 172; 159; 152; 153; 163; 156; 1;
   7; 162; 16; 139; 175; 141; 131; 148; 0; 128; 162; 145; 128; 152; 146; 129; 190; 48; 0; 24; 142; 128; 137; 134;
   174; 165; 57; 9; 149; 6; 1; 4; 16; 145; 128; 139; 132; 157; 137; 0; 8; 128; 165; 0; 152; 0; 128; 171;
   180; 145; 131; 147; 130; 157; 175; 147; 8; 128; 64; 183; 174; 168; 131; 163; 175; 147; 128; 186; 170; 140; 128; 198;
   154; 164; 134; 64; 184; 171; 243; 191; 158; 57; 1; 56; 8; 151; 142; 0; 128; 221; 57; 166; 143; 0; 128; 155;
   128; 137; 167; 48; 148; 128; 138; 173; 146; 128; 145; 200; 64; 198; 160; 158; 136; 128; 164; 144; 128; 176; 157; 239;
   48; 8; 165; 148; 128; 152; 40; 8; 159; 141; 128; 150; 171; 65; 3; 146; 142; 0; 140; 128; 161; 251; 128; 206;
   67; 153; 229; 238; 144; 64; 195; 74; 75; 224; 142; 68; 47; 144; 133; 152; 79; 154; 132; 66; 70; 90; 184; 157;
   70; 225; 66; 56; 134; 158; 144; 206; 144; 157; 145; 175; 143; 131; 158; 148; 132; 146; 65; 175; 172; 64; 210; 191;
   159; 152; 129; 152; 171; 202; 32; 193; 140; 191; 8; 128; 141; 132; 136; 92; 213; 168; 159; 224; 242; 96; 33; 252;
   24; 48; 8; 65; 34; 142; 128; 156; 17; 128; 141; 31; 65; 139; 73; 3; 234; 132; 140; 130; 136; 134; 137; 87;
   101; 212; 128; 198; 1; 8; 9; 11; 128; 139; 0; 6; 128; 192; 3; 15; 6; 128; 155; 3; 4; 0; 22; 128;
   65; 83; 129; 152; 128; 152; 128; 158; 128; 152; 128; 158; 128; 152; 128; 158; 128; 152; 128; 158; 128; 152; 7; 71;
   51; 158; 45; 65; 4; 189; 64; 145; 172; 137; 134; 143; 128; 65; 64; 157; 145; 171; 65; 227; 155; 64; 227; 157;
   8; 64; 206; 158; 2; 1; 6; 12; 136; 129; 64; 223; 48; 24; 8; 142; 128; 64; 196; 186; 195; 48; 68; 179;
   24; 154; 1; 0; 8; 128; 137; 3; 0; 0; 40; 24; 0; 0; 2; 1; 0; 8; 0; 0; 0; 0; 1; 0;
   11; 6; 3; 3; 0; 128; 137; 128; 144; 34; 4; 128; 144; 81; 67; 96; 166; 223; 159; 81; 29; 129; 86; 141;
   129; 93; 48; 142; 66; 109; 73; 161; 66; 29; 69; 225; 83; 74; 132; 96; 33; 41].

Definition unicode_prop_ID_Start_index : list Z :=
  [246; 3; 32; 166; 7; 0; 169; 9; 32; 177; 10; 0; 186; 11; 32; 59; 13; 32; 199; 14; 32; 73; 18; 0;
   155; 22; 0; 172; 25; 0; 192; 29; 128; 128; 32; 32; 112; 45; 0; 0; 50; 0; 6; 168; 0; 119; 170; 0;
   252; 215; 0; 253; 254; 64; 209; 2; 1; 178; 5; 33; 246; 8; 1; 73; 12; 1; 118; 16; 1; 223; 18; 33;
   200; 20; 65; 66; 25; 33; 49; 29; 97; 241; 47; 65; 120; 107; 1; 35; 177; 161; 173; 212; 1; 111; 215; 1;
   238; 229; 1; 56; 238; 1; 224; 166; 66; 122; 52; 3].

Definition unicode_prop_ID_Continue1_table : list Z :=
  [175; 137; 164; 128; 214; 128; 66; 71; 239; 150; 128; 64; 250; 132; 65; 8; 172; 0; 1; 1; 0; 199; 138; 175;
   158; 40; 228; 49; 41; 8; 25; 137; 150; 128; 157; 154; 218; 138; 142; 137; 160; 136; 136; 128; 151; 24; 136; 2;
   4; 170; 130; 186; 136; 169; 151; 128; 160; 181; 16; 145; 6; 137; 9; 137; 144; 130; 183; 0; 49; 9; 130; 136;
   128; 137; 9; 137; 141; 1; 130; 183; 0; 35; 9; 18; 128; 147; 139; 16; 138; 130; 183; 0; 56; 16; 130; 147;
   9; 137; 137; 40; 130; 183; 0; 49; 9; 22; 130; 137; 9; 137; 145; 128; 186; 34; 16; 131; 136; 128; 141; 137;
   143; 132; 182; 0; 48; 16; 30; 129; 138; 9; 137; 144; 130; 183; 0; 48; 16; 30; 129; 138; 9; 137; 16; 139;
   131; 182; 8; 48; 16; 131; 136; 128; 137; 9; 137; 144; 130; 197; 3; 40; 0; 61; 137; 9; 188; 1; 134; 139;
   56; 137; 214; 1; 136; 138; 48; 137; 189; 13; 137; 138; 0; 0; 3; 129; 176; 147; 1; 132; 138; 128; 163; 136;
   128; 227; 147; 128; 137; 139; 27; 16; 17; 50; 131; 140; 139; 128; 142; 66; 190; 130; 136; 136; 67; 159; 131; 155;
   130; 156; 129; 157; 129; 191; 159; 136; 1; 137; 160; 16; 138; 64; 142; 128; 245; 139; 131; 139; 137; 137; 255; 138;
   187; 132; 184; 137; 128; 156; 129; 138; 133; 137; 149; 141; 128; 158; 129; 139; 147; 132; 174; 144; 138; 137; 144; 136;
   139; 130; 157; 140; 129; 137; 171; 141; 175; 147; 135; 137; 133; 137; 245; 16; 148; 24; 40; 10; 64; 197; 191; 66;
   11; 129; 176; 129; 146; 128; 250; 140; 24; 130; 139; 75; 253; 130; 64; 140; 128; 223; 159; 66; 41; 133; 232; 129;
   223; 128; 96; 117; 35; 137; 196; 3; 137; 159; 129; 207; 129; 65; 15; 2; 3; 128; 150; 35; 128; 210; 129; 177;
   145; 137; 137; 133; 145; 140; 138; 155; 135; 152; 140; 171; 131; 174; 141; 142; 137; 138; 128; 137; 137; 174; 141; 139;
   7; 9; 137; 160; 130; 177; 0; 17; 12; 8; 128; 168; 36; 129; 64; 235; 56; 9; 137; 96; 79; 35; 128; 66;
   224; 143; 143; 143; 17; 151; 130; 64; 191; 137; 164; 128; 164; 128; 66; 150; 128; 64; 225; 128; 64; 148; 132; 65;
   36; 137; 69; 86; 16; 12; 131; 167; 19; 128; 64; 164; 129; 66; 60; 31; 137; 133; 137; 158; 132; 65; 60; 129;
   204; 133; 197; 138; 176; 131; 249; 130; 180; 142; 158; 138; 9; 137; 131; 172; 138; 48; 172; 137; 42; 163; 141; 128;
   137; 33; 171; 128; 139; 130; 175; 141; 59; 128; 139; 209; 139; 40; 8; 64; 156; 139; 132; 137; 43; 182; 8; 49;
   9; 130; 136; 128; 137; 9; 50; 132; 194; 136; 0; 8; 3; 4; 0; 141; 129; 209; 145; 136; 137; 24; 208; 147;
   139; 137; 64; 212; 49; 136; 154; 129; 209; 144; 142; 137; 208; 140; 135; 137; 133; 147; 184; 142; 131; 137; 64; 241;
   142; 64; 164; 137; 197; 40; 9; 24; 0; 129; 139; 137; 246; 49; 50; 128; 155; 137; 167; 48; 31; 128; 136; 138;
   173; 143; 64; 197; 135; 64; 135; 137; 180; 56; 135; 143; 137; 183; 149; 128; 141; 249; 42; 0; 8; 48; 7; 137;
   175; 32; 8; 39; 137; 181; 137; 65; 8; 131; 136; 8; 128; 175; 50; 132; 140; 138; 84; 228; 5; 142; 96; 44;
   199; 155; 73; 37; 137; 213; 137; 165; 132; 186; 134; 152; 137; 66; 21; 137; 65; 212; 0; 182; 51; 208; 128; 138;
   129; 96; 76; 170; 129; 80; 80; 137; 66; 5; 173; 129; 150; 66; 29; 34; 47; 57; 134; 157; 131; 64; 147; 130;
   69; 136; 177; 65; 255; 182; 131; 177; 56; 141; 128; 149; 32; 142; 69; 79; 48; 144; 14; 1; 4; 227; 128; 64;
   159; 134; 136; 137; 65; 99; 128; 188; 141; 65; 241; 141; 64; 243; 8; 137; 64; 231; 1; 6; 12; 128; 65; 217;
   134; 236; 52; 137; 82; 149; 137; 108; 5; 5; 64; 239].

Definition unicode_prop_ID_Continue1_index : list Z :=
  [250; 6; 0; 112; 9; 0; 240; 10; 64; 87; 12; 0; 240; 13; 96; 199; 15; 32; 234; 23; 64; 236; 26; 0;
   14; 32; 64; 126; 166; 32; 218; 169; 32; 16; 254; 64; 64; 10; 65; 187; 16; 33; 78; 19; 65; 222; 21; 1;
   229; 25; 1; 90; 29; 1; 245; 106; 33; 140; 209; 97; 55; 225; 65; 240; 1; 14].

Definition unicode_prop_White_Space_table : list Z :=
  [136; 132; 145; 128; 227; 128; 153; 128; 85; 222; 128; 73; 126; 138; 156; 12; 128; 174; 128; 79; 159; 128].

Definition unicode_prop_White_Space_index : list Z :=
  [1; 48; 0].

Definition unicode_script_table : list Z :=
  [192; 26; 153; 76; 133; 26; 153; 76; 174; 26; 128; 76; 142; 26; 128; 76; 132; 26; 150; 76; 128; 26; 158; 76;
   128; 26; 225; 96; 76; 166; 26; 132; 76; 132; 26; 129; 14; 147; 26; 224; 15; 59; 131; 46; 128; 26; 130; 46;
   1; 131; 46; 128; 26; 128; 46; 3; 128; 46; 128; 26; 128; 46; 128; 26; 130; 46; 0; 128; 46; 0; 147; 46;
   0; 190; 46; 141; 27; 143; 46; 224; 36; 30; 129; 59; 224; 72; 30; 0; 165; 5; 1; 177; 5; 1; 130; 5;
   0; 182; 56; 7; 154; 56; 3; 133; 56; 10; 132; 4; 128; 26; 133; 4; 128; 26; 141; 4; 128; 26; 130; 4;
   128; 26; 159; 4; 128; 26; 137; 4; 138; 59; 153; 4; 128; 59; 224; 11; 4; 128; 26; 161; 4; 141; 147; 0;
   187; 147; 1; 130; 147; 175; 4; 177; 158; 13; 186; 107; 1; 130; 107; 173; 133; 1; 142; 133; 0; 155; 87; 1;
   128; 87; 0; 138; 147; 4; 161; 4; 4; 202; 4; 128; 26; 156; 4; 208; 33; 131; 59; 142; 33; 129; 26; 153;
   33; 131; 11; 0; 135; 11; 1; 129; 11; 1; 149; 11; 0; 134; 11; 0; 128; 11; 2; 131; 11; 1; 136; 11;
   1; 129; 11; 1; 131; 11; 7; 128; 11; 3; 129; 11; 0; 132; 11; 1; 152; 11; 1; 130; 49; 0; 133; 49;
   3; 129; 49; 1; 149; 49; 0; 134; 49; 0; 129; 49; 0; 129; 49; 0; 129; 49; 1; 128; 49; 0; 132; 49;
   3; 129; 49; 1; 130; 49; 2; 128; 49; 6; 131; 49; 0; 128; 49; 6; 144; 49; 9; 130; 47; 0; 136; 47;
   0; 130; 47; 0; 149; 47; 0; 134; 47; 0; 129; 47; 0; 132; 47; 1; 137; 47; 0; 130; 47; 0; 130; 47;
   1; 128; 47; 14; 131; 47; 1; 139; 47; 6; 134; 47; 0; 130; 122; 0; 135; 122; 1; 129; 122; 1; 149; 122;
   0; 134; 122; 0; 129; 122; 0; 132; 122; 1; 136; 122; 1; 129; 122; 1; 130; 122; 6; 130; 122; 3; 129; 122;
   0; 132; 122; 1; 145; 122; 9; 129; 155; 0; 133; 155; 2; 130; 155; 0; 131; 155; 2; 129; 155; 0; 128; 155;
   0; 129; 155; 2; 129; 155; 2; 130; 155; 2; 139; 155; 3; 132; 155; 2; 130; 155; 0; 131; 155; 1; 128; 155;
   5; 128; 155; 13; 148; 155; 4; 140; 157; 0; 130; 157; 0; 150; 157; 0; 143; 157; 1; 136; 157; 0; 130; 157;
   0; 131; 157; 6; 129; 157; 0; 130; 157; 0; 129; 157; 1; 131; 157; 1; 137; 157; 6; 136; 157; 140; 64; 0;
   130; 64; 0; 150; 64; 0; 137; 64; 0; 132; 64; 1; 136; 64; 0; 130; 64; 0; 131; 64; 6; 129; 64; 4;
   130; 64; 0; 131; 64; 1; 137; 64; 0; 130; 64; 11; 140; 86; 0; 130; 86; 0; 178; 86; 0; 130; 86; 0;
   133; 86; 3; 143; 86; 1; 153; 86; 0; 130; 140; 0; 145; 140; 2; 151; 140; 0; 136; 140; 0; 128; 140; 1;
   134; 140; 2; 128; 140; 3; 133; 140; 0; 128; 140; 0; 135; 140; 5; 137; 140; 1; 130; 140; 11; 185; 159; 3;
   128; 26; 155; 159; 36; 129; 75; 0; 128; 75; 0; 132; 75; 0; 151; 75; 0; 128; 75; 0; 150; 75; 1; 132;
   75; 0; 128; 75; 0; 134; 75; 0; 137; 75; 1; 131; 75; 31; 199; 160; 0; 163; 160; 3; 166; 160; 0; 163;
   160; 0; 142; 160; 0; 134; 160; 131; 26; 129; 160; 36; 224; 63; 101; 165; 41; 0; 128; 41; 4; 128; 41; 1;
   170; 41; 128; 26; 131; 41; 224; 159; 52; 200; 40; 0; 131; 40; 1; 134; 40; 0; 128; 40; 0; 131; 40; 1;
   168; 40; 0; 131; 40; 1; 160; 40; 0; 131; 40; 1; 134; 40; 0; 128; 40; 0; 131; 40; 1; 142; 40; 0;
   184; 40; 0; 131; 40; 1; 194; 40; 1; 159; 40; 2; 153; 40; 5; 213; 24; 1; 133; 24; 1; 226; 31; 19;
   156; 110; 2; 202; 132; 130; 26; 138; 132; 6; 149; 148; 8; 128; 148; 148; 54; 129; 26; 8; 147; 18; 11; 140;
   149; 0; 130; 149; 0; 129; 149; 11; 221; 70; 1; 137; 70; 5; 137; 70; 5; 129; 98; 129; 26; 128; 98; 128;
   26; 147; 98; 5; 216; 98; 6; 170; 98; 4; 197; 19; 9; 158; 78; 0; 139; 78; 3; 139; 78; 3; 128; 78;
   2; 139; 78; 157; 150; 1; 132; 150; 10; 171; 105; 3; 153; 105; 5; 138; 105; 2; 129; 105; 159; 70; 155; 17;
   1; 129; 17; 190; 151; 0; 156; 151; 1; 138; 151; 5; 137; 151; 5; 141; 151; 1; 173; 59; 1; 139; 59; 19;
   204; 7; 0; 177; 7; 191; 144; 179; 10; 7; 131; 10; 183; 77; 2; 142; 77; 2; 130; 77; 175; 111; 138; 30;
   4; 170; 41; 1; 130; 41; 135; 144; 7; 130; 59; 128; 26; 140; 59; 128; 26; 134; 59; 131; 26; 128; 59; 133;
   26; 128; 59; 130; 26; 129; 59; 128; 26; 4; 165; 76; 132; 46; 128; 30; 176; 76; 132; 46; 131; 76; 132; 46;
   140; 76; 128; 30; 197; 76; 128; 46; 191; 59; 224; 159; 76; 149; 46; 1; 133; 46; 1; 165; 46; 1; 133; 46;
   1; 135; 46; 0; 128; 46; 0; 128; 46; 0; 128; 46; 0; 158; 46; 1; 180; 46; 0; 142; 46; 0; 141; 46;
   1; 133; 46; 0; 146; 46; 1; 130; 46; 0; 136; 46; 0; 139; 26; 129; 59; 214; 26; 0; 138; 26; 128; 76;
   1; 138; 26; 128; 76; 142; 26; 0; 140; 76; 2; 161; 26; 13; 160; 59; 14; 165; 26; 128; 46; 130; 26; 129;
   76; 133; 26; 128; 76; 154; 26; 128; 76; 144; 26; 168; 76; 130; 26; 3; 226; 57; 26; 21; 138; 26; 20; 227;
   63; 26; 224; 159; 16; 226; 19; 26; 1; 224; 41; 26; 223; 42; 159; 76; 224; 19; 27; 4; 134; 27; 165; 41;
   0; 128; 41; 4; 128; 41; 1; 183; 161; 6; 129; 161; 13; 128; 161; 150; 40; 8; 134; 40; 0; 134; 40; 0;
   134; 40; 0; 134; 40; 0; 134; 40; 0; 134; 40; 0; 134; 40; 0; 134; 40; 0; 159; 30; 221; 26; 33; 153;
   51; 0; 216; 51; 11; 224; 117; 51; 25; 148; 26; 128; 51; 128; 26; 128; 51; 152; 26; 136; 51; 131; 59; 129;
   52; 135; 26; 131; 51; 131; 26; 0; 213; 57; 1; 129; 59; 129; 26; 130; 57; 128; 26; 217; 65; 129; 26; 130;
   65; 4; 170; 14; 0; 221; 52; 0; 143; 26; 159; 14; 165; 26; 8; 128; 26; 143; 65; 158; 52; 0; 191; 26;
   158; 52; 208; 26; 174; 65; 128; 26; 215; 65; 224; 71; 26; 240; 9; 95; 51; 191; 26; 240; 65; 159; 51; 228;
   44; 174; 2; 182; 174; 8; 175; 81; 224; 203; 169; 19; 223; 30; 215; 8; 7; 161; 26; 224; 5; 76; 130; 26;
   209; 76; 19; 142; 76; 172; 146; 2; 137; 26; 5; 183; 128; 7; 197; 134; 7; 139; 134; 5; 159; 33; 173; 68;
   128; 26; 128; 68; 163; 131; 10; 128; 131; 156; 52; 2; 205; 62; 0; 128; 26; 137; 62; 3; 129; 62; 158; 101;
   0; 182; 23; 8; 141; 23; 1; 137; 23; 1; 131; 23; 159; 101; 194; 152; 23; 132; 152; 150; 92; 9; 133; 40;
   1; 133; 40; 1; 133; 40; 8; 134; 40; 0; 134; 40; 0; 170; 76; 128; 26; 136; 76; 128; 46; 131; 76; 129;
   26; 3; 207; 24; 173; 92; 1; 137; 92; 5; 240; 27; 67; 52; 11; 150; 52; 3; 176; 52; 112; 16; 163; 225;
   13; 51; 1; 224; 9; 51; 37; 134; 76; 11; 132; 5; 4; 153; 56; 0; 132; 56; 0; 128; 56; 0; 129; 56;
   0; 129; 56; 0; 137; 56; 225; 141; 4; 129; 26; 224; 47; 4; 31; 143; 4; 143; 59; 137; 26; 5; 141; 59;
   129; 30; 162; 26; 0; 146; 26; 0; 131; 26; 3; 132; 4; 0; 224; 38; 4; 1; 128; 26; 0; 159; 26; 153;
   76; 133; 26; 153; 76; 138; 26; 137; 65; 128; 26; 172; 65; 129; 26; 158; 52; 2; 133; 52; 1; 133; 52; 1;
   133; 52; 1; 130; 52; 2; 134; 26; 0; 134; 26; 9; 132; 26; 1; 139; 80; 0; 153; 80; 0; 146; 80; 0;
   129; 80; 0; 142; 80; 1; 141; 80; 33; 224; 26; 80; 4; 130; 26; 3; 172; 26; 2; 136; 26; 206; 46; 0;
   140; 26; 2; 128; 46; 46; 172; 26; 128; 59; 96; 33; 156; 82; 2; 176; 20; 14; 128; 59; 154; 26; 3; 163;
   114; 8; 130; 114; 154; 43; 4; 170; 116; 4; 157; 168; 0; 128; 168; 163; 117; 3; 141; 117; 41; 207; 32; 175;
   136; 157; 124; 1; 137; 124; 5; 163; 123; 3; 163; 123; 3; 167; 38; 7; 179; 21; 10; 128; 21; 138; 170; 0;
   142; 170; 0; 134; 170; 0; 129; 170; 0; 138; 170; 0; 142; 170; 0; 134; 170; 0; 129; 170; 2; 179; 164; 11;
   224; 214; 79; 8; 149; 79; 9; 135; 79; 23; 133; 76; 0; 169; 76; 0; 136; 76; 68; 133; 29; 1; 128; 29;
   0; 171; 29; 0; 129; 29; 2; 128; 29; 1; 128; 29; 149; 58; 0; 136; 58; 159; 126; 158; 102; 7; 136; 102;
   47; 146; 55; 0; 129; 55; 4; 132; 55; 155; 129; 2; 128; 129; 153; 83; 4; 128; 83; 153; 138; 37; 159; 95;
   151; 94; 3; 147; 94; 1; 173; 94; 131; 69; 0; 129; 69; 4; 135; 69; 0; 130; 69; 0; 156; 69; 1; 130;
   69; 3; 137; 69; 6; 136; 69; 6; 159; 119; 159; 115; 31; 166; 88; 3; 139; 88; 8; 181; 6; 2; 134; 6;
   149; 61; 1; 135; 61; 146; 60; 4; 135; 60; 145; 130; 6; 131; 130; 11; 134; 130; 79; 200; 120; 54; 178; 113;
   12; 178; 113; 6; 133; 113; 167; 53; 7; 137; 53; 5; 165; 44; 2; 156; 44; 7; 129; 44; 96; 111; 158; 4;
   0; 169; 173; 0; 130; 173; 1; 129; 173; 15; 133; 4; 7; 136; 4; 32; 133; 4; 167; 118; 7; 169; 141; 21;
   153; 121; 37; 155; 25; 19; 150; 39; 8; 205; 15; 3; 163; 15; 8; 128; 15; 194; 63; 9; 128; 63; 1; 152;
   142; 6; 137; 142; 5; 180; 22; 0; 145; 22; 7; 166; 85; 8; 223; 135; 0; 147; 140; 10; 145; 71; 0; 174;
   71; 61; 134; 100; 0; 128; 100; 0; 131; 100; 0; 142; 100; 0; 138; 100; 5; 186; 73; 4; 137; 73; 5; 131;
   45; 0; 135; 45; 1; 129; 45; 1; 149; 45; 0; 134; 45; 0; 129; 45; 0; 132; 45; 0; 128; 59; 136; 45;
   1; 129; 45; 1; 130; 45; 1; 128; 45; 5; 128; 45; 4; 134; 45; 1; 134; 45; 2; 132; 45; 10; 137; 167;
   0; 128; 167; 1; 128; 167; 0; 165; 167; 0; 137; 167; 0; 128; 167; 1; 128; 167; 0; 131; 167; 0; 137; 167;
   0; 129; 167; 7; 129; 167; 28; 219; 106; 0; 132; 106; 29; 199; 162; 7; 137; 162; 96; 69; 181; 137; 1; 165;
   137; 33; 196; 97; 10; 137; 97; 5; 140; 98; 18; 185; 154; 5; 137; 154; 5; 147; 101; 27; 154; 2; 1; 142;
   2; 3; 150; 2; 96; 88; 187; 35; 96; 3; 210; 172; 11; 128; 172; 134; 34; 1; 128; 34; 1; 135; 34; 0;
   129; 34; 0; 157; 34; 0; 129; 34; 1; 139; 34; 8; 137; 34; 69; 135; 104; 1; 173; 104; 1; 138; 104; 26;
   199; 175; 7; 210; 143; 12; 143; 19; 184; 127; 6; 137; 33; 85; 135; 135; 87; 161; 145; 13; 137; 145; 5; 136;
   13; 0; 172; 13; 0; 141; 13; 9; 156; 13; 2; 159; 89; 1; 149; 89; 0; 141; 89; 72; 134; 90; 0; 129;
   90; 0; 171; 90; 2; 128; 90; 0; 129; 90; 0; 136; 90; 7; 137; 90; 5; 133; 48; 0; 129; 48; 0; 164;
   48; 0; 129; 48; 0; 133; 48; 6; 137; 48; 5; 171; 165; 3; 137; 165; 96; 149; 152; 84; 6; 144; 67; 0;
   168; 67; 2; 156; 67; 84; 128; 81; 14; 177; 155; 12; 128; 155; 227; 57; 28; 96; 5; 224; 14; 28; 0; 132;
   28; 10; 224; 99; 28; 105; 235; 224; 2; 31; 12; 227; 245; 37; 9; 239; 58; 37; 4; 225; 230; 3; 112; 10;
   88; 185; 50; 102; 101; 225; 216; 8; 6; 158; 99; 0; 137; 99; 3; 129; 99; 206; 163; 0; 137; 163; 5; 157;
   9; 1; 133; 9; 9; 197; 125; 9; 137; 125; 0; 134; 125; 0; 148; 125; 4; 146; 125; 97; 79; 185; 74; 96;
   101; 218; 91; 4; 152; 12; 1; 152; 12; 43; 202; 96; 3; 184; 96; 6; 144; 96; 63; 128; 156; 128; 108; 129;
   51; 128; 72; 10; 134; 51; 8; 240; 10; 159; 156; 225; 117; 72; 40; 128; 72; 158; 156; 96; 0; 224; 18; 156;
   112; 17; 156; 131; 65; 0; 134; 65; 0; 129; 65; 0; 128; 65; 224; 190; 57; 130; 65; 14; 128; 57; 28; 130;
   57; 1; 128; 65; 13; 131; 65; 7; 225; 43; 108; 104; 163; 224; 10; 36; 4; 140; 36; 2; 136; 36; 6; 137;
   36; 1; 131; 36; 131; 26; 110; 251; 224; 156; 26; 2; 225; 83; 26; 5; 150; 26; 14; 144; 26; 14; 173; 59;
   1; 150; 59; 8; 224; 19; 26; 59; 224; 149; 26; 9; 166; 26; 1; 189; 26; 130; 59; 144; 26; 135; 59; 129;
   26; 134; 59; 157; 26; 131; 59; 188; 26; 20; 197; 46; 96; 25; 147; 26; 11; 147; 26; 11; 214; 26; 8; 152;
   26; 96; 38; 212; 26; 0; 198; 26; 0; 129; 26; 1; 128; 26; 1; 129; 26; 1; 131; 26; 0; 139; 26; 0;
   128; 26; 0; 134; 26; 0; 192; 26; 0; 131; 26; 1; 135; 26; 0; 134; 26; 0; 155; 26; 0; 131; 26; 0;
   132; 26; 0; 128; 26; 2; 134; 26; 0; 224; 243; 26; 1; 224; 195; 26; 1; 177; 26; 226; 43; 139; 14; 132;
   139; 0; 142; 139; 99; 239; 158; 76; 5; 133; 76; 96; 116; 134; 42; 0; 144; 42; 1; 134; 42; 0; 129; 42;
   0; 132; 42; 4; 189; 30; 32; 128; 30; 96; 15; 172; 109; 2; 141; 109; 1; 137; 109; 3; 129; 109; 96; 223;
   158; 166; 16; 185; 171; 4; 128; 171; 97; 111; 169; 103; 96; 117; 170; 112; 3; 128; 112; 96; 95; 158; 153; 0;
   149; 153; 7; 129; 153; 96; 127; 134; 40; 0; 131; 40; 0; 129; 40; 0; 142; 40; 0; 224; 100; 93; 1; 143;
   93; 40; 203; 1; 3; 137; 1; 3; 129; 1; 98; 176; 195; 26; 75; 188; 26; 96; 97; 131; 4; 0; 154; 4;
   0; 129; 4; 0; 128; 4; 1; 128; 4; 0; 137; 4; 0; 131; 4; 0; 128; 4; 0; 128; 4; 5; 128; 4;
   3; 128; 4; 0; 128; 4; 0; 128; 4; 0; 130; 4; 0; 129; 4; 0; 128; 4; 1; 128; 4; 0; 128; 4;
   0; 128; 4; 0; 128; 4; 0; 128; 4; 0; 129; 4; 0; 128; 4; 1; 131; 4; 0; 134; 4; 0; 131; 4;
   0; 131; 4; 0; 128; 4; 0; 137; 4; 0; 144; 4; 4; 130; 4; 0; 132; 4; 0; 144; 4; 51; 129; 4;
   96; 173; 171; 26; 3; 224; 3; 26; 11; 142; 26; 1; 142; 26; 0; 142; 26; 0; 164; 26; 9; 224; 77; 26;
   55; 153; 26; 128; 57; 129; 26; 12; 171; 26; 3; 136; 26; 6; 129; 26; 13; 133; 26; 96; 57; 227; 120; 26;
   2; 144; 26; 2; 140; 26; 2; 224; 121; 26; 5; 139; 26; 3; 128; 26; 14; 139; 26; 3; 183; 26; 7; 137;
   26; 5; 167; 26; 7; 157; 26; 1; 139; 26; 3; 129; 26; 13; 136; 26; 38; 224; 247; 26; 7; 141; 26; 1;
   140; 26; 2; 138; 26; 2; 184; 26; 0; 128; 26; 3; 143; 26; 1; 139; 26; 3; 137; 26; 6; 224; 50; 26;
   0; 224; 6; 26; 99; 164; 240; 150; 127; 51; 31; 240; 0; 189; 51; 1; 240; 6; 45; 51; 1; 240; 12; 208;
   51; 14; 226; 13; 51; 105; 65; 225; 189; 51; 101; 129; 240; 2; 234; 51; 4; 240; 16; 201; 51; 122; 187; 38;
   128; 26; 29; 223; 26; 96; 31; 224; 143; 59].

Definition unicode_script_ext_table : list Z :=
  [128; 54; 0; 0; 16; 6; 20; 27; 36; 38; 41; 42; 48; 43; 46; 51; 76; 83; 85; 116; 136; 129; 131; 0;
   0; 7; 11; 30; 33; 76; 81; 159; 166; 9; 0; 0; 2; 14; 76; 0; 0; 2; 2; 14; 76; 0; 0; 0;
   2; 76; 81; 8; 0; 0; 2; 76; 159; 0; 0; 0; 2; 14; 76; 37; 0; 0; 8; 24; 27; 30; 46; 76;
   116; 145; 150; 0; 8; 24; 30; 46; 76; 123; 145; 150; 164; 0; 4; 24; 30; 76; 161; 0; 5; 42; 76; 145;
   147; 159; 0; 11; 21; 24; 27; 30; 43; 46; 76; 123; 147; 161; 164; 0; 6; 27; 38; 42; 43; 65; 76; 0;
   5; 30; 46; 76; 116; 161; 0; 9; 27; 36; 56; 76; 116; 147; 150; 161; 164; 0; 11; 5; 30; 36; 43; 46;
   56; 76; 116; 147; 150; 161; 0; 2; 76; 161; 0; 3; 36; 76; 147; 0; 4; 24; 30; 76; 123; 0; 3; 24;
   76; 150; 0; 2; 76; 145; 0; 2; 40; 76; 0; 0; 0; 2; 76; 145; 0; 3; 30; 76; 164; 0; 0; 0;
   4; 46; 76; 116; 164; 14; 0; 0; 6; 24; 36; 65; 76; 147; 161; 0; 4; 24; 36; 76; 147; 0; 2; 76;
   147; 6; 0; 0; 3; 76; 145; 147; 0; 2; 76; 147; 0; 0; 0; 3; 24; 76; 147; 0; 7; 21; 24; 43;
   76; 145; 147; 159; 15; 0; 0; 1; 46; 1; 0; 0; 1; 46; 17; 0; 0; 2; 76; 123; 4; 0; 0; 3;
   21; 76; 164; 3; 0; 12; 1; 76; 3; 0; 1; 2; 27; 46; 128; 140; 0; 0; 2; 30; 116; 0; 2; 30;
   42; 1; 2; 30; 76; 0; 2; 30; 42; 128; 128; 0; 0; 3; 5; 41; 42; 128; 1; 0; 0; 7; 4; 44;
   107; 53; 147; 158; 173; 13; 0; 0; 7; 4; 44; 107; 53; 147; 158; 173; 0; 3; 4; 147; 158; 1; 0; 0;
   8; 1; 4; 44; 107; 53; 147; 158; 173; 31; 0; 0; 9; 1; 4; 87; 88; 121; 130; 53; 141; 147; 9; 0;
   10; 2; 4; 147; 9; 0; 9; 3; 4; 158; 173; 5; 0; 0; 2; 4; 147; 98; 0; 0; 2; 4; 53; 129;
   251; 0; 0; 15; 11; 33; 45; 47; 49; 64; 76; 86; 104; 106; 122; 135; 155; 157; 162; 0; 13; 11; 33; 45;
   47; 49; 64; 76; 86; 106; 122; 155; 157; 162; 16; 0; 0; 21; 11; 33; 35; 48; 90; 45; 47; 49; 64; 85;
   86; 104; 112; 122; 73; 140; 146; 154; 155; 157; 162; 0; 23; 11; 33; 35; 48; 90; 45; 47; 50; 49; 64; 78;
   85; 86; 104; 112; 122; 73; 140; 146; 154; 155; 157; 162; 9; 4; 33; 35; 63; 85; 117; 0; 9; 3; 11; 22;
   146; 117; 0; 9; 2; 49; 100; 117; 0; 9; 2; 47; 71; 128; 117; 0; 13; 2; 45; 155; 128; 113; 0; 9;
   3; 64; 104; 167; 130; 207; 0; 9; 3; 22; 101; 150; 128; 48; 0; 0; 3; 41; 42; 76; 133; 110; 0; 2;
   1; 132; 70; 0; 1; 4; 18; 54; 149; 148; 128; 74; 0; 1; 2; 98; 128; 0; 0; 0; 2; 98; 128; 132;
   73; 0; 0; 4; 11; 33; 45; 64; 0; 1; 33; 0; 4; 11; 33; 45; 64; 0; 3; 33; 45; 64; 0; 1;
   33; 0; 5; 11; 33; 106; 157; 162; 0; 3; 11; 33; 157; 0; 3; 33; 106; 135; 0; 4; 11; 33; 106; 157;
   0; 2; 33; 135; 0; 6; 33; 64; 86; 122; 155; 157; 0; 1; 33; 1; 2; 33; 135; 1; 1; 33; 0; 2;
   33; 135; 0; 2; 11; 33; 0; 3; 33; 106; 162; 5; 1; 33; 0; 3; 33; 104; 106; 0; 3; 11; 33; 135;
   0; 2; 33; 106; 0; 1; 33; 0; 4; 11; 33; 106; 135; 3; 1; 33; 0; 11; 11; 33; 45; 64; 86; 104;
   122; 140; 157; 162; 167; 0; 2; 33; 45; 0; 4; 33; 45; 64; 167; 1; 2; 11; 33; 0; 1; 11; 1; 2;
   33; 45; 0; 1; 104; 128; 68; 0; 1; 1; 46; 53; 0; 0; 3; 30; 76; 147; 0; 0; 0; 1; 147; 129;
   179; 0; 0; 3; 76; 98; 128; 30; 0; 0; 2; 1; 4; 9; 0; 0; 6; 20; 41; 42; 113; 82; 120; 1;
   0; 0; 4; 20; 46; 113; 95; 128; 17; 0; 0; 3; 33; 45; 76; 140; 165; 0; 0; 2; 27; 76; 23; 0;
   0; 2; 6; 120; 0; 7; 6; 20; 41; 113; 63; 83; 133; 9; 0; 0; 1; 36; 3; 0; 0; 3; 1; 4;
   113; 0; 0; 0; 2; 30; 42; 129; 43; 0; 15; 2; 51; 156; 0; 0; 0; 7; 14; 52; 51; 57; 65; 98;
   174; 0; 8; 14; 52; 51; 57; 65; 98; 128; 174; 0; 5; 14; 52; 51; 57; 65; 1; 0; 0; 1; 51; 0;
   0; 1; 8; 14; 52; 51; 57; 65; 98; 160; 174; 1; 9; 14; 52; 51; 57; 65; 81; 98; 160; 174; 5; 6;
   14; 52; 51; 57; 65; 174; 0; 0; 0; 5; 14; 52; 51; 57; 65; 7; 6; 14; 52; 51; 57; 65; 174; 3;
   5; 14; 52; 51; 57; 65; 9; 0; 3; 2; 14; 51; 1; 0; 0; 5; 14; 52; 51; 57; 65; 4; 2; 57;
   65; 0; 0; 0; 5; 14; 52; 51; 57; 65; 3; 0; 1; 3; 51; 57; 65; 1; 1; 51; 88; 0; 3; 2;
   57; 65; 2; 0; 0; 2; 57; 65; 89; 0; 0; 6; 14; 52; 51; 57; 65; 174; 0; 2; 57; 65; 128; 18;
   0; 15; 1; 51; 31; 0; 37; 1; 51; 8; 0; 0; 2; 51; 156; 47; 0; 39; 1; 51; 55; 0; 48; 1;
   51; 14; 0; 11; 1; 51; 50; 0; 0; 1; 51; 87; 0; 24; 1; 51; 9; 0; 4; 1; 51; 95; 0; 30;
   1; 51; 192; 49; 239; 0; 0; 2; 30; 42; 128; 15; 0; 7; 2; 51; 76; 128; 167; 0; 2; 16; 33; 35;
   47; 49; 71; 64; 63; 85; 86; 97; 104; 135; 73; 154; 162; 167; 2; 15; 33; 35; 47; 49; 71; 64; 63; 85;
   97; 104; 135; 73; 154; 162; 167; 1; 11; 33; 35; 47; 49; 71; 63; 85; 97; 73; 154; 162; 0; 12; 33; 35;
   47; 49; 71; 63; 85; 97; 135; 73; 154; 162; 0; 11; 33; 35; 47; 49; 71; 63; 85; 97; 73; 154; 162; 128;
   54; 0; 0; 3; 11; 33; 167; 0; 0; 0; 2; 33; 155; 57; 0; 0; 3; 68; 76; 101; 128; 31; 0; 0;
   2; 17; 62; 192; 18; 237; 0; 1; 2; 4; 107; 128; 49; 0; 0; 2; 4; 158; 9; 0; 0; 2; 4; 158;
   70; 0; 1; 5; 14; 52; 51; 57; 65; 128; 153; 0; 4; 6; 14; 52; 51; 57; 65; 174; 9; 0; 0; 2;
   57; 65; 44; 0; 1; 2; 57; 65; 128; 223; 0; 1; 3; 31; 29; 80; 0; 2; 29; 80; 3; 0; 44; 3;
   29; 79; 80; 2; 0; 8; 2; 29; 80; 129; 31; 0; 27; 2; 4; 27; 135; 117; 0; 0; 2; 88; 121; 135;
   141; 0; 0; 2; 45; 155; 0; 0; 0; 2; 45; 155; 54; 0; 1; 2; 45; 155; 140; 18; 0; 1; 2; 45;
   155; 0; 0; 0; 2; 45; 155; 192; 92; 75; 0; 3; 1; 36; 150; 59; 0; 17; 1; 51; 158; 93; 0; 1;
   1; 51; 206; 205; 45; 0].
