(* ===== verification/UniProps.v ===== *)
(** * Character properties and scripts (libunicode.c, libunicode.h)

    The predicates the lexer and the string functions ask of one character, read
    through an index into a table of run lengths, and the functions that build
    the character range of a property or of a script from the same kind of
    tables.  A read outside a table is [Aborts]. *)

From stdpp Require Import base list numbers.
From Stdlib Require Import ZArith Lia.
From S2P Require Import Prelude StateRun CharRange CaseConv PropTables.

#[local] Open Scope st_scope.
#[local] Open Scope Z_scope.

(** ** Predicates *)

Definition get_le24 (tab : list Z) (i : Z) : run Z :=
  let* a := tab_get tab i in
  let* b := tab_get tab (i + 1) in
  let* c := tab_get tab (i + 2) in
  Done (Z.lor (Z.lor a (Z.shiftl b 8)) (Z.shiftl c 16)).

Definition UNICODE_INDEX_BLOCK_LEN : Z := 32.

Definition index_code (v : Z) : Z := Z.land v (Z.shiftl 1 21 - 1).

(** [while ((idx_max - idx_min) > 1)] *)
Fixpoint index_search (fuel : nat) (index : list Z) (c idx_min idx_max : Z) : run Z :=
  match fuel with
  | O => Spins
  | S fuel =>
      if 1 <? idx_max - idx_min then
        let idx := (idx_max + idx_min) / 2 in
        let* v := get_le24 index (idx * 3) in
        if c <? index_code v then index_search fuel index c idx_min idx else index_search fuel index c idx idx_max
      else Done idx_min
  end.

(** The code and the position where the scan for [c] starts; [None] is -1. *)
Definition get_index_pos (c : Z) (index : list Z) (index_table_len : Z) : run (option (Z * Z)) :=
  let* v := get_le24 index 0 in
  if c <? index_code v then Done (Some (0, 0))
  else
    let idx_max := index_table_len - 1 in
    let* code := get_le24 index (idx_max * 3) in
    if code <=? c then Done None
    else
      let* idx := index_search (S (Z.to_nat index_table_len)) index c 0 idx_max in
      let* v := get_le24 index (idx * 3) in
      Done (Some (index_code v, (idx + 1) * UNICODE_INDEX_BLOCK_LEN + Z.shiftr v 21)).

(** The length of a run whose first byte [b] is 64 or more, less one, and the
    position after it. *)
Definition long_run (table : list Z) (p b : Z) : run (Z * Z) :=
  if 128 <=? b then Done (b - 128, p)
  else if b <? 96 then
    let* x := tab_get table p in
    Done (Z.lor (Z.shiftl (b - 64) 8) x, p + 1)
  else
    let* x := tab_get table p in
    let* y := tab_get table (p + 1) in
    Done (Z.lor (Z.lor (Z.shiftl (b - 96) 16) (Z.shiftl x 8)) y, p + 2).

Fixpoint table_scan (fuel : nat) (table : list Z) (p code : Z) (bit : bool) (c : Z) : run bool :=
  match fuel with
  | O => Spins
  | S fuel =>
      let* b := tab_get table p in
      let p := p + 1 in
      if b <? 64 then
        let code := code + (Z.shiftr b 3 + 1) in
        if c <? code then Done bit
        else
          let bit := negb bit in
          let code := code + (Z.land b 7 + 1) in
          if c <? code then Done bit else table_scan fuel table p code (negb bit) c
      else
        let* (n, p) := long_run table p b in
        let code := code + (n + 1) in
        if c <? code then Done bit else table_scan fuel table p code (negb bit) c
  end.

Definition lre_is_in_table (c : Z) (table index : list Z) (index_table_len : Z) : run bool :=
  let* pos := get_index_pos c index index_table_len in
  match pos with
  | None => Done false
  | Some (code, pos) => table_scan (S (length table)) table pos code false c
  end.

Definition in_table (c : Z) (table index : list Z) : run bool := lre_is_in_table c table index (lenZ index / 3).

Definition lre_is_cased (c : Z) : run bool :=
  let* r := find_run c in
  match r with
  | Some _ => Done true
  | None => in_table c unicode_prop_Cased1_table unicode_prop_Cased1_index
  end.
Definition lre_is_case_ignorable (c : Z) : run bool :=
  in_table c unicode_prop_Case_Ignorable_table unicode_prop_Case_Ignorable_index.
Definition lre_is_id_start (c : Z) : run bool :=
  in_table c unicode_prop_ID_Start_table unicode_prop_ID_Start_index.
Definition lre_is_id_continue (c : Z) : run bool :=
  let* s := lre_is_id_start c in
  if s then Done true else in_table c unicode_prop_ID_Continue1_table unicode_prop_ID_Continue1_index.
Definition lre_is_white_space (c : Z) : run bool :=
  in_table c unicode_prop_White_Space_table unicode_prop_White_Space_index.

(** ** Spaces *)

Definition UNICODE_C_SPACE : Z := 1.
Definition UNICODE_C_DIGIT : Z := 2.
Definition UNICODE_C_UPPER : Z := 4.
Definition UNICODE_C_LOWER : Z := 8.
Definition UNICODE_C_UNDER : Z := 16.
Definition UNICODE_C_DOLLAR : Z := 32.
Definition UNICODE_C_XDIGIT : Z := 64.

Definition lre_ctype_bits : list Z :=
  let S := UNICODE_C_SPACE in
  let d := UNICODE_C_DOLLAR in
  let u := UNICODE_C_UNDER in
  let XD := Z.lor UNICODE_C_XDIGIT UNICODE_C_DIGIT in
  let XU := Z.lor UNICODE_C_XDIGIT UNICODE_C_UPPER in
  let XL := Z.lor UNICODE_C_XDIGIT UNICODE_C_LOWER in
  let U := UNICODE_C_UPPER in
  let L := UNICODE_C_LOWER in
  [0; 0; 0; 0; 0; 0; 0; 0; 0; S; S; S; S; S; 0; 0] ++ replicate 16 0 ++
  [S; 0; 0; 0; d; 0; 0; 0; 0; 0; 0; 0; 0; 0; 0; 0] ++ replicate 10 XD ++ replicate 6 0 ++
  [0] ++ replicate 6 XU ++ replicate 20 U ++ [0; 0; 0; 0; u] ++
  [0] ++ replicate 6 XL ++ replicate 20 L ++ [0; 0; 0; 0; 0] ++
  replicate 32 0 ++ [S] ++ replicate 31 0 ++ replicate 64 0.

Definition lre_is_space_byte (c : Z) : run bool :=
  let* b := tab_get lre_ctype_bits c in Done (negb (Z.land b UNICODE_C_SPACE =? 0)).

(** The first word is the number of intervals. *)
Definition char_range_space : list Z :=
  [10; 9; 14; 32; 33; 160; 161; 5760; 5761; 8192; 8203; 8232; 8234; 8239; 8240; 8287; 8288; 12288; 12289; 65279; 65280].

Fixpoint space_loop (ranges : list (Z * Z)) (c : Z) : bool :=
  match ranges with
  | [] => false
  | (low, high) :: ranges => if c <? low then false else if c <? high then true else space_loop ranges c
  end.

(** [for(i = 5; i < n; i += 2)] *)
Definition lre_is_space_non_ascii (c : Z) : bool := space_loop (pairs (drop 5 char_range_space)) c.

Definition lre_is_space (c : Z) : run bool :=
  if c <? 256 then lre_is_space_byte c else Done (lre_is_space_non_ascii c).

(** ** Ranges *)

Section ranges.
Context `{RE : Realloc}.

Definition add_if (bit : bool) (cr : CharRange) (c0 c : Z) : C (Z * CharRange) :=
  if bit then cr_add_interval cr c0 c else sret (0, cr).

(** [table] is [unicode_prop_table[prop_idx]]. *)
Fixpoint unicode_prop1_loop (fuel : nat) (table : list Z) (p c : Z) (bit : bool) (cr : CharRange) : C (Z * CharRange) :=
  match fuel with
  | O => slift Spins
  | S fuel =>
      if p <? lenZ table then
        let^ b := slift (tab_get table p) in
        let p := p + 1 in
        if b <? 64 then
          let c1 := c + (Z.shiftr b 3 + 1) in
          let^ (rc, cr) := add_if bit cr c c1 in
          if negb (rc =? 0) then sret (-1, cr)
          else
            let bit := negb bit in
            let c2 := c1 + (Z.land b 7 + 1) in
            let^ (rc, cr) := add_if bit cr c1 c2 in
            if negb (rc =? 0) then sret (-1, cr) else unicode_prop1_loop fuel table p c2 (negb bit) cr
        else
          let^ (n, p) := slift (long_run table p b) in
          let c1 := c + (n + 1) in
          let^ (rc, cr) := add_if bit cr c c1 in
          if negb (rc =? 0) then sret (-1, cr) else unicode_prop1_loop fuel table p c1 (negb bit) cr
      else sret (0, cr)
  end.

Definition unicode_prop1 (cr : CharRange) (table : list Z) : C (Z * CharRange) :=
  unicode_prop1_loop (S (length table)) table 0 0 false cr.

(** ** Scripts *)

Definition UNICODE_SCRIPT_Unknown : Z := 0.
Definition UNICODE_SCRIPT_Common : Z := 26.
Definition UNICODE_SCRIPT_Inherited : Z := 59.

(** A run of the script table: its length less one, its script when it has one,
    and the position after it. *)
Definition script_run (table : list Z) (p : Z) : run (Z * option Z * Z) :=
  let* b := tab_get table p in
  let type := Z.shiftr b 7 in
  let n := Z.land b 127 in
  let p := p + 1 in
  let* (n, p) :=
    (if n <? 96 then Done (n, p)
     else if n <? 112 then
       let* x := tab_get table p in
       Done (Z.lor (Z.shiftl (n - 96) 8) x + 96, p + 1)
     else
       let* x := tab_get table p in
       let* y := tab_get table (p + 1) in
       Done (Z.lor (Z.lor (Z.shiftl (n - 112) 16) (Z.shiftl x 8)) y + (96 + Z.shiftl 1 12), p + 2)) in
  if type =? 0 then Done (n, None, p)
  else
    let* v := tab_get table p in
    Done (n, Some v, p + 1).

Definition script_selects (script_idx : Z) (v : option Z) : bool :=
  match v with None => false | Some v => (v =? script_idx) || (script_idx =? UNICODE_SCRIPT_Unknown) end.

Fixpoint script_loop (fuel : nat) (table : list Z) (script_idx p c : Z) (cr : CharRange) : C (Z * CharRange) :=
  match fuel with
  | O => slift Spins
  | S fuel =>
      if p <? lenZ table then
        let^ (n, v, p) := slift (script_run table p) in
        let c1 := c + (n + 1) in
        let^ (rc, cr) := add_if (script_selects script_idx v) cr c c1 in
        if negb (rc =? 0) then sret (-1, cr) else script_loop fuel table script_idx p c1 cr
      else sret (0, cr)
  end.

(** The scripts of [v_len] bytes at [p]. *)
Fixpoint script_list (v_len : nat) (table : list Z) (p : Z) : run (list Z) :=
  match v_len with
  | O => Done []
  | S v_len =>
      let* v := tab_get table p in
      let* l := script_list v_len table (p + 1) in
      Done (v :: l)
  end.

(** A run of the table of script extensions. *)
Definition script_ext_run (table : list Z) (p : Z) : run (Z * list Z * Z) :=
  let* b := tab_get table p in
  let p := p + 1 in
  let* (n, p) :=
    (if b <? 128 then Done (b, p)
     else if b <? 128 + 64 then
       let* x := tab_get table p in
       Done (Z.lor (Z.shiftl (b - 128) 8) x + 128, p + 1)
     else
       let* x := tab_get table p in
       let* y := tab_get table (p + 1) in
       Done (Z.lor (Z.lor (Z.shiftl (b - 128 - 64) 16) (Z.shiftl x 8)) y + (128 + Z.shiftl 1 14), p + 2)) in
  let* v_len := tab_get table p in
  let* l := script_list (Z.to_nat v_len) table (p + 1) in
  Done (n, l, p + 1 + v_len).

(** A run is taken for a common script when it lists a script, for the others
    when it lists that script. *)
Definition ext_selects (is_common : bool) (script_idx : Z) (l : list Z) : bool :=
  if is_common then negb (lenZ l =? 0) else existsb (fun v => v =? script_idx) l.

Fixpoint script_ext_loop (fuel : nat) (table : list Z) (is_common : bool) (script_idx p c : Z) (cr : CharRange)
    : C (Z * CharRange) :=
  match fuel with
  | O => slift Spins
  | S fuel =>
      if p <? lenZ table then
        let^ (n, l, p) := slift (script_ext_run table p) in
        let c1 := c + (n + 1) in
        let^ (rc, cr) := add_if (ext_selects is_common script_idx l) cr c c1 in
        if negb (rc =? 0) then sret (-1, cr) else script_ext_loop fuel table is_common script_idx p c1 cr
      else sret (0, cr)
  end.

Definition is_common_script (script_idx : Z) : bool :=
  (script_idx =? UNICODE_SCRIPT_Common) || (script_idx =? UNICODE_SCRIPT_Inherited).

(** The first table into [cr1]; -1 is [goto fail]. *)
Definition script_base (script_idx : Z) (cr1 : CharRange) : C (Z * CharRange) :=
  let^ (rc, cr1) := script_loop (S (length unicode_script_table)) unicode_script_table script_idx 0 0 cr1 in
  if negb (rc =? 0) then sret (-1, cr1)
  else if script_idx =? UNICODE_SCRIPT_Unknown then cr_invert cr1 else sret (0, cr1).

(** With extensions: the result in [cr], and the two work ranges. *)
Definition script_with_ext (script_idx : Z) (cr : CharRange) : C (Z * CharRange * list CharRange) :=
  let is_common := is_common_script script_idx in
  let^ (rc, cr1) := script_base script_idx cr_init in
  if negb (rc =? 0) then sret (-1, cr, [cr1; cr_init])
  else
    let^ (rc, cr2) := script_ext_loop (S (length unicode_script_ext_table)) unicode_script_ext_table is_common script_idx 0 0 cr_init in
    if negb (rc =? 0) then sret (-1, cr, [cr1; cr2])
    else
      let^ (rc, cr2) := (if is_common then cr_invert cr2 else sret (0, cr2)) in
      if negb (rc =? 0) then sret (-1, cr, [cr1; cr2])
      else
        let^ (rc, cr) := cr_op cr (cr_points cr1) (cr_len cr1) (cr_points cr2) (cr_len cr2)
                           (if is_common then CR_OP_INTER else CR_OP_UNION) in
        sret (if rc =? 0 then 0 else -1, cr, [cr1; cr2]).

(** The function up to its return or its [fail] label. *)
Definition script_body (script_idx : Z) (is_ext : bool) (cr : CharRange) : C (Z * CharRange * list CharRange) :=
  if is_ext then script_with_ext script_idx cr
  else
    let^ (rc, cr) := script_base script_idx cr in
    sret (rc, cr, []).

(** [script_idx] is what the name was found to be, [None] when it was not found.
    The code at [fail] frees the work ranges and jumps to [fail]. *)
Definition unicode_script (cr : CharRange) (script_idx : option Z) (is_ext : bool) : C (Z * CharRange) :=
  match script_idx with
  | None => sret (-2, cr)
  | Some script_idx =>
      let^ (rc, cr, work) := script_body script_idx is_ext cr in
      free_ranges work ;^
      (if rc =? 0 then sret (0, cr) else slift Spins)
  end.
End ranges.
