(* ===== verification/UniPropsProofs.v ===== *)
(** * Character properties: the two readers of a table agree

    A table is a list of run lengths, decoded once by [decode].  The range
    builder adds every other run; the predicate starts at an index entry, which
    is checked to be a point of the decoded list. *)

From stdpp Require Import base list numbers sorting sets.
From Stdlib Require Import ZArith Lia.
From S2P Require Import Prelude StateRun CharRange CharRangeSets CharRangeProofs CaseTables CaseConv CaseProofs CaseSets.
From S2P Require Import PropTables UniProps.

#[local] Open Scope st_scope.
#[local] Open Scope Z_scope.

(** ** Run lengths *)

(** The run lengths from position [p] to the end of the table. *)
Fixpoint decode (fuel : nat) (table : list Z) (p : Z) : option (list Z) :=
  match fuel with
  | O => None
  | S fuel =>
      if p <? lenZ table then
        match tab_get table p with
        | Done b =>
            if b <? 64 then
              match decode fuel table (p + 1) with Some l => Some (Z.shiftr b 3 + 1 :: Z.land b 7 + 1 :: l) | None => None end
            else
              match long_run table (p + 1) b with
              | Done (n, p) => match decode fuel table p with Some l => Some (n + 1 :: l) | None => None end
              | _ => None
              end
        | _ => None
        end
      else Some []
  end.

Definition total (l : list Z) : Z := foldr Z.add 0 l.

(** Whether [c] is in a run of ones, when the first run starts at [code] and has
    value [bit]. *)
Fixpoint bit_at (code : Z) (bit : bool) (l : list Z) (c : Z) : bool :=
  match l with
  | [] => false
  | n :: l => if c <? code + n then bit else bit_at (code + n) (negb bit) l c
  end.

(** The runs of ones. *)
Fixpoint ones (code : Z) (bit : bool) (l : list Z) : list (Z * Z) :=
  match l with
  | [] => []
  | n :: l => (if bit then [(code, code + n)] else []) ++ ones (code + n) (negb bit) l
  end.

Definition lengths_ok (l : list Z) : Prop := forall n, n ∈ l -> 0 <= n.

Lemma ones_from l : forall code bit s e, lengths_ok l -> (s, e) ∈ ones code bit l -> code <= s <= e.
Proof.
  induction l as [| n l IH]; intros code bit s e Hl Hin; cbn [ones] in Hin; [by apply not_elem_of_nil in Hin |].
  assert (Hn : 0 <= n) by (apply Hl, list_elem_of_here). apply elem_of_app in Hin as [Hin | Hin].
  - destruct bit; [| by apply not_elem_of_nil in Hin]. apply list_elem_of_singleton in Hin. simplify_eq. lia.
  - apply IH in Hin; [lia |]. intros k Hk. apply Hl. by right.
Qed.

Lemma ones_ascending l : forall code bit, lengths_ok l -> ascending (flat (ones code bit l)).
Proof.
  induction l as [| n l IH]; intros code bit Hl; cbn [ones]; [constructor |].
  assert (Hn : 0 <= n) by (apply Hl, list_elem_of_here). assert (Hl' : lengths_ok l) by (intros k Hk; apply Hl; by right).
  specialize (IH (code + n) (negb bit) Hl'). destruct bit; [| done]. simpl app. cbn [flat].
  assert (Hge : forall q, q ∈ flat (ones (code + n) (negb true) l) -> code + n <= q).
  { intros q Hq. apply elem_flat in Hq as (s & e & Hin & Hq). apply (ones_from l _ _ _ _ Hl') in Hin. lia. }
  apply ascending_cons. split; [apply ascending_cons; split; done |]. intros q Hq. apply elem_of_cons in Hq as [-> | Hq]; [lia |]. specialize (Hge q Hq). lia.
Qed.

Lemma bit_at_ones l c : forall code bit, lengths_ok l -> code <= c -> bit_at code bit l c = true <-> in_pairs (ones code bit l) c.
Proof.
  induction l as [| n l IH]; intros code bit Hl Hc; cbn [bit_at ones].
  { split; [done |]. intros (s & e & Hin & _). by apply not_elem_of_nil in Hin. }
  assert (Hl' : lengths_ok l) by (intros k Hk; apply Hl; by right). rewrite in_pairs_app. destruct (Z.ltb_spec c (code + n)) as [L | L].
  - assert (Hno : ~ in_pairs (ones (code + n) (negb bit) l) c).
    { intros (s & e & Hin & Hr). apply (ones_from l _ _ _ _ Hl') in Hin. lia. }
    destruct bit; [rewrite in_pairs_one; split; [intros _; left; lia | done] |]. split; [done |]. intros [(s & e & Hin & _) | H]; [by apply not_elem_of_nil in Hin | done].
  - rewrite (IH (code + n) (negb bit) Hl' L). split; [by right |]. intros [H | H]; [| done]. destruct bit.
    + apply in_pairs_one in H. lia.
    + destruct H as (s & e & Hin & _). by apply not_elem_of_nil in Hin.
Qed.

(** ** The scan *)

Lemma table_scan_spec fuel : forall table p code bit c l,
  decode fuel table p = Some l -> code <= c < code + total l -> table_scan fuel table p code bit c = Done (bit_at code bit l c).
Proof.
  induction fuel as [| fuel IH]; intros table p code bit c l Hd Hc; cbn [decode] in Hd; [done |]. cbn [table_scan].
  destruct (p <? lenZ table); [| injection Hd as <-; unfold total in Hc; simpl in Hc; lia].
  destruct (tab_get table p) as [b | |]; try done. cbn [run_bind]. cbv zeta. destruct (b <? 64).
  - destruct (decode fuel table (p + 1)) as [l' |] eqn:E; [| done]. injection Hd as <-. cbn [bit_at]. unfold total in Hc. cbn [foldr] in Hc.
    destruct (Z.ltb_spec c (code + (Z.shiftr b 3 + 1))); [done |]. destruct (Z.ltb_spec c (code + (Z.shiftr b 3 + 1) + (Z.land b 7 + 1))); [done |].
    rewrite negb_involutive. apply IH; [done |]. unfold total. lia.
  - destruct (long_run table (p + 1) b) as [[n p'] | |]; try done. cbn [run_bind]. cbv beta iota.
    destruct (decode fuel table p') as [l' |] eqn:E; [| done]. injection Hd as <-. cbn [bit_at]. unfold total in Hc. cbn [foldr] in Hc.
    destruct (Z.ltb_spec c (code + (n + 1))); [done |]. apply IH; [done |]. unfold total. lia.
Qed.

(** ** The index *)

(** The positions and codes where a run of zeros starts. *)
Fixpoint points (fuel : nat) (table : list Z) (p code : Z) (bit : bool) : list (Z * Z) :=
  match fuel with
  | O => []
  | S fuel =>
      (if bit then [] else [(p, code)]) ++
      if p <? lenZ table then
        match tab_get table p with
        | Done b =>
            if b <? 64 then points fuel table (p + 1) (code + (Z.shiftr b 3 + 1) + (Z.land b 7 + 1)) bit
            else match long_run table (p + 1) b with Done (n, p) => points fuel table p (code + (n + 1)) (negb bit) | _ => [] end
        | _ => []
        end
      else []
  end.

Lemma total_nonneg l : lengths_ok l -> 0 <= total l.
Proof.
  induction l as [| n l IH]; intros Hl; [done |]. unfold total in *. cbn [foldr]. pose proof (Hl n (list_elem_of_here _ _)).
  specialize (IH ltac:(intros k Hk; apply Hl; by right)). lia.
Qed.

(** From a point on, the rest of the table tells the same. *)
Lemma points_spec fuel : forall table p code bit l p' code',
  decode fuel table p = Some l -> lengths_ok l -> (p', code') ∈ points fuel table p code bit ->
  exists fuel' l', (fuel' <= fuel)%nat /\ decode fuel' table p' = Some l' /\ code' + total l' = code + total l /\ code <= code' /\ lengths_ok l' /\
    forall c, code' <= c -> bit_at code bit l c = bit_at code' false l' c.
Proof.
  induction fuel as [| fuel IH]; intros table p code bit l p' code' Hd Hl Hin; [done |].
  cbn [points] in Hin. apply elem_of_app in Hin as [Hin | Hin].
  { destruct bit; [by apply not_elem_of_nil in Hin |]. apply list_elem_of_singleton in Hin as [= -> ->]. exists (S fuel), l. split; [done |]. split; [done |]. split; [lia |]. split; [lia |]. done. }
  cbn [decode] in Hd. destruct (p <? lenZ table); [| by apply not_elem_of_nil in Hin].
  destruct (tab_get table p) as [b | |]; try (by apply not_elem_of_nil in Hin). destruct (b <? 64).
  - destruct (decode fuel table (p + 1)) as [l1 |] eqn:E; [| done]. injection Hd as <-.
    assert (Hl1 : lengths_ok l1) by (intros k Hk; apply Hl; set_solver). pose proof (Hl (Z.shiftr b 3 + 1) ltac:(set_solver)). pose proof (Hl (Z.land b 7 + 1) ltac:(set_solver)).
    destruct (IH _ _ _ _ _ _ _ E Hl1 Hin) as (f' & l' & F & D & T & L & Lo & B). exists f', l'. split; [lia |]. split; [done |]. unfold total in *. cbn [foldr].
    split; [lia |]. split; [lia |]. split; [done |]. intros c Hc. cbn [bit_at]. destruct (Z.ltb_spec c (code + (Z.shiftr b 3 + 1))); [lia |].
    destruct (Z.ltb_spec c (code + (Z.shiftr b 3 + 1) + (Z.land b 7 + 1))); [lia |]. rewrite negb_involutive. by apply B.
  - destruct (long_run table (p + 1) b) as [[n p1] | |]; try (by apply not_elem_of_nil in Hin).
    destruct (decode fuel table p1) as [l1 |] eqn:E; [| done]. injection Hd as <-.
    assert (Hl1 : lengths_ok l1) by (intros k Hk; apply Hl; set_solver). pose proof (Hl (n + 1) ltac:(set_solver)).
    destruct (IH _ _ _ _ _ _ _ E Hl1 Hin) as (f' & l' & F & D & T & L & Lo & B). exists f', l'. split; [lia |]. split; [done |]. unfold total in *. cbn [foldr].
    split; [lia |]. split; [lia |]. split; [done |]. intros c Hc. cbn [bit_at]. destruct (Z.ltb_spec c (code + (n + 1))); [lia |]. by apply B.
Qed.

Lemma table_scan_more fuel : forall fuel' table p code bit c r,
  (fuel <= fuel')%nat -> table_scan fuel table p code bit c = Done r -> table_scan fuel' table p code bit c = Done r.
Proof.
  induction fuel as [| fuel IH]; intros [| fuel'] table p code bit c r Hf; try done; [lia |]. cbn [table_scan].
  destruct (tab_get table p) as [b | |]; try done. cbn [run_bind]. cbv zeta. destruct (b <? 64).
  - destruct (c <? _); [done |]. destruct (c <? _); [done |]. apply IH. lia.
  - destruct (long_run table (p + 1) b) as [[n p'] | |]; try done. cbn [run_bind]. cbv beta iota. destruct (c <? _); [done |]. apply IH. lia.
Qed.

(** Entry [i] of the index: its code and the position it refers to. *)
Definition entry_code (index : list Z) (i : Z) : Z := match get_le24 index (i * 3) with Done v => index_code v | _ => 0 end.
Definition entry_pos (index : list Z) (i : Z) : Z :=
  match get_le24 index (i * 3) with Done v => (i + 1) * UNICODE_INDEX_BLOCK_LEN + Z.shiftr v 21 | _ => 0 end.

Definition entry_ok (index : list Z) (pts : list (Z * Z)) (i : Z) : bool :=
  let pos := entry_pos index i in
  let code := entry_code index i in
  existsb (fun p => (fst p =? pos) && (snd p =? code)) pts.

(** Every entry but the last is a point; the last is the end of the table. *)
Definition index_ok (table index l : list Z) : bool :=
  let n := lenZ index / 3 in
  let e := entry_code index (n - 1) in
  let pts := points (S (length table)) table 0 0 false in
  (1 <=? n) && (lenZ index =? 3 * n) &&
  forallb (entry_ok index pts) (upto (Z.to_nat (n - 1)) 0) &&
  match get_le24 index ((n - 1) * 3) with Done v => v =? e | _ => false end &&
  (0 <=? e) && (e <=? total l) && forallb (fun p => snd p <=? e) (ones 0 false l) &&
  forallb (fun x => 0 <=? x) l.

Definition table_ok (table index : list Z) : bool :=
  match decode (S (length table)) table 0 with Some l => index_ok table index l | None => false end.

(** The tables with an index, with the predicates that use them. *)
Definition indexed_tables : list (list Z * list Z) :=
  [(unicode_prop_Cased1_table, unicode_prop_Cased1_index);
   (unicode_prop_Case_Ignorable_table, unicode_prop_Case_Ignorable_index);
   (unicode_prop_ID_Start_table, unicode_prop_ID_Start_index);
   (unicode_prop_ID_Continue1_table, unicode_prop_ID_Continue1_index);
   (unicode_prop_White_Space_table, unicode_prop_White_Space_index)].
#[global] Arguments indexed_tables : simpl never.

Lemma tables_checked : forallb (fun p => table_ok (fst p) (snd p)) indexed_tables = true.
Proof. vm_compute. reflexivity. Qed.

Lemma table_checked table index :
  (table, index) ∈ indexed_tables -> exists l, decode (S (length table)) table 0 = Some l /\ index_ok table index l = true.
Proof.
  intros Hin. pose proof (forallb_elem _ _ _ tables_checked Hin) as H. unfold table_ok in H. cbn [fst snd] in H.
  destruct (decode (S (length table)) table 0) as [l |]; [by exists l | done].
Qed.

Section index.
Context (table index l : list Z).
Hypothesis Hd : decode (S (length table)) table 0 = Some l.
Hypothesis Hok : index_ok table index l = true.
Let n : Z := lenZ index / 3.

Lemma index_facts :
  1 <= n /\ lenZ index = 3 * n /\ (forall i, 0 <= i < n - 1 -> (entry_pos index i, entry_code index i) ∈ points (S (length table)) table 0 0 false) /\
  get_le24 index ((n - 1) * 3) = Done (entry_code index (n - 1)) /\ 0 <= entry_code index (n - 1) <= total l /\
  (forall s e, (s, e) ∈ ones 0 false l -> e <= entry_code index (n - 1)) /\ lengths_ok l.
Proof.
  unfold index_ok in Hok. fold n in Hok. cbv zeta in Hok. rewrite !andb_true_iff in Hok. destruct Hok as [[[[[[[H1 H2] H3] H4] H5] H6] H7] H8].
  split; [lia |]. split; [lia |]. split.
  { intros i Hi. apply (forallb_elem _ _ i) in H3; [| apply elem_upto; lia]. unfold entry_ok in H3. cbv zeta in H3.
    apply existsb_exists in H3 as ([p code] & Hin & Hp). cbn [fst snd] in Hp. apply andb_true_iff in Hp as [E1 E2].
    apply Z.eqb_eq in E1, E2. subst. by apply list_elem_of_In. }
  split; [destruct (get_le24 index ((n - 1) * 3)); try done; f_equal; lia |]. split; [lia |]. split.
  - intros s e Hin. apply (forallb_elem _ _ _ H7) in Hin. cbn [snd] in Hin. lia.
  - intros k Hk. apply (forallb_elem _ _ _ H8) in Hk. lia.
Qed.

Lemma le24_done i : 0 <= i < n -> exists v, get_le24 index (i * 3) = Done v /\ entry_code index i = index_code v /\
  entry_pos index i = (i + 1) * UNICODE_INDEX_BLOCK_LEN + Z.shiftr v 21.
Proof.
  intros Hi. destruct index_facts as (_ & Hl & _). unfold entry_code, entry_pos, get_le24, tab_get.
  assert (Hb : forall k, 0 <= k < 3 -> (0 <=? i * 3 + k) && (i * 3 + k <? lenZ index) = true).
  { intros k Hk. rewrite andb_true_iff. lia. }
  pose proof (Hb 0 ltac:(lia)) as H0. rewrite Z.add_0_r in H0. rewrite H0, (Hb 1), (Hb 2) by lia. cbn [run_bind]. eauto.
Qed.

(** An entry on the left of [c] that is a point, whichever it is. *)
Lemma entry_scan i c :
  0 <= i < n - 1 -> entry_code index i <= c < total l ->
  table_scan (S (length table)) table (entry_pos index i) (entry_code index i) false c = Done (bit_at 0 false l c).
Proof.
  intros Hi Hc. destruct index_facts as (_ & _ & Hp & _ & _ & _ & Hl).
  destruct (points_spec _ _ _ _ _ _ _ _ Hd Hl (Hp i Hi)) as (f & l' & F & D & T & L & _ & B).
  rewrite (B c) by lia. apply (table_scan_more f); [done |]. apply table_scan_spec; [done | lia].
Qed.

Lemma index_search_spec fuel : forall c lo hi,
  0 <= lo < hi -> hi <= n - 1 -> entry_code index lo <= c -> hi - lo < Z.of_nat fuel ->
  exists i, index_search fuel index c lo hi = Done i /\ lo <= i < hi /\ entry_code index i <= c.
Proof.
  induction fuel as [| fuel IH]; intros c lo hi Hlo Hhi Hc Hf; [lia |]. cbn [index_search].
  destruct (Z.ltb_spec 1 (hi - lo)) as [L | L]; [| by exists lo; split; [done | lia]].
  set (mid := (hi + lo) / 2).
  assert (Hm : lo < mid < hi).
  { unfold mid. pose proof (Z_div_mod_eq_full (hi + lo) 2). pose proof (Z.mod_pos_bound (hi + lo) 2). lia. }
  destruct (le24_done mid ltac:(lia)) as (v & -> & E & _). cbn [run_bind]. rewrite <- E. destruct (Z.ltb_spec c (entry_code index mid)) as [Lc | Lc].
  - destruct (IH c lo mid ltac:(lia) ltac:(lia) Hc ltac:(lia)) as (i & H1 & H2 & H3). exists i. split; [done | lia].
  - destruct (IH c mid hi ltac:(lia) ltac:(lia) Lc ltac:(lia)) as (i & H1 & H2 & H3). exists i. split; [done | lia].
Qed.

(** The predicate tells the value of the run that holds [c]. *)
Lemma in_table_spec c : 0 <= c -> in_table c table index = Done (bit_at 0 false l c).
Proof.
  intros H0. destruct index_facts as (Hn & Hlen & Hp & Hlast & He & Hones & Hl). unfold in_table, lre_is_in_table, get_index_pos. fold n.
  destruct (le24_done 0 ltac:(lia)) as (v0 & E0 & C0 & _). rewrite Z.mul_0_l in E0. rewrite E0. cbn [run_bind]. rewrite <- C0.
  assert (Hend : entry_code index (n - 1) <= c -> bit_at 0 false l c = false).
  { intros Hc. destruct (bit_at 0 false l c) eqn:E; [| done]. apply bit_at_ones in E; [| done | lia]. destruct E as (s & e & Hin & Hr). apply Hones in Hin. lia. }
  destruct (Z.ltb_spec c (entry_code index 0)) as [L0 | L0].
  { cbn [run_bind]. destruct (Z.le_gt_cases (total l) c) as [Lt | Lt]; [| apply table_scan_spec; [done | lia]].
    exfalso. destruct (Z.eq_dec n 1) as [E1 | E1]; [replace (n - 1) with 0 in He by lia; lia |].
    destruct (points_spec _ _ _ _ _ _ _ _ Hd Hl (Hp 0 ltac:(lia))) as (f & l' & _ & D & T & _ & Lo & _).
    pose proof (total_nonneg l' Lo). lia. }
  rewrite Hlast. cbn [run_bind]. destruct (Z.leb_spec (entry_code index (n - 1)) c) as [L1 | L1]; [cbn [run_bind]; f_equal; symmetry; by apply Hend |].
  assert (Hn2 : 1 < n) by (destruct (Z.eq_dec n 1) as [E1 | E1]; [replace (n - 1) with 0 in L1 by lia; lia | lia]).
  destruct (index_search_spec (S (Z.to_nat n)) c 0 (n - 1)) as (i & -> & Hi & Hc); [lia | lia | done | lia |]. cbn [run_bind].
  destruct (le24_done i ltac:(lia)) as (v & -> & E & P). cbn [run_bind]. rewrite <- E, <- P. apply entry_scan; lia.
Qed.
End index.

(** ** The range builder *)

Section builder.
Context `{RL : ReallocLaws}.

Lemma add_if_spec bit cr c0 c1 o :
  cr_ok cr -> cr_len cr <= MAX_POINTS ->
  swp (add_if bit cr c0 c1) (fun '(rc, cr') o' => cr_ok cr' /\
    outcome o rc o' (live cr' = live cr ++ flat (if bit then [(c0, c1)] else []) /\ cr_len cr' <= cr_len cr + 2)) o.
Proof.
  intros Hok Hn. unfold add_if. destruct bit.
  - eapply swp_mono; [apply (cr_add_interval_spec cr c0 c1 o Hok Hn) |]. intros [rc cr'] o' (H1 & H2 & _ & H3). split; [done |].
    revert H3. apply outcome_trans; [done |]. intros [-> ->]. split; [done | lia].
  - apply swp_ret. split; [done |]. left. split; [done |]. split; [done |]. rewrite app_nil_r. split; [done | lia].
Qed.

Lemma unicode_prop1_loop_spec fuel : forall table p c bit cr l o,
  decode fuel table p = Some l -> cr_ok cr -> cr_len cr + 4 * Z.of_nat fuel <= MAX_POINTS ->
  swp (unicode_prop1_loop fuel table p c bit cr) (fun '(rc, cr') o' => cr_ok cr' /\
    outcome o rc o' (live cr' = live cr ++ flat (ones c bit l))) o.
Proof.
  induction fuel as [| fuel IH]; intros table p c bit cr l o Hd Hok Hn; cbn [decode] in Hd; [done |]. cbn [unicode_prop1_loop].
  destruct (p <? lenZ table); [| injection Hd as <-; apply swp_ret; split; [done |]; left; simpl; by rewrite app_nil_r].
  destruct (tab_get table p) as [b | |]; try done. apply swp_bind. eapply swp_lift; [done |]. destruct (b <? 64).
  - destruct (decode fuel table (p + 1)) as [l' |] eqn:E; [| done]. injection Hd as <-.
    apply swp_bind. eapply swp_mono; [apply (add_if_spec bit cr _ _ o Hok); lia |].
    intros [rc cr1] o1 (Hok1 & [(-> & R1 & E1 & L1) | (-> & R1)]); simpl; [| apply swp_ret; split; [done | by right]].
    apply swp_bind. eapply swp_mono; [apply (add_if_spec (negb bit) cr1 _ _ o1 Hok1); lia |].
    intros [rc cr2] o2 (Hok2 & [(-> & R2 & E2 & L2) | (-> & R2)]); simpl; [| apply swp_ret; split; [done | by right]].
    eapply swp_mono; [apply (IH _ _ _ _ cr2 l' o2 E Hok2); lia |]. intros [rc cr3] o3 [Hok3 Hout]. split; [done |].
    revert Hout. apply outcome_trans; [congruence |]. intros ->. rewrite E2, E1, <- !app_assoc, <- !flat_app. done.
  - destruct (long_run table (p + 1) b) as [[n p1] | |]; try done. apply swp_bind. eapply swp_lift; [done |].
    destruct (decode fuel table p1) as [l' |] eqn:E; [| done]. injection Hd as <-.
    apply swp_bind. eapply swp_mono; [apply (add_if_spec bit cr _ _ o Hok); lia |].
    intros [rc cr1] o1 (Hok1 & [(-> & R1 & E1 & L1) | (-> & R1)]); simpl; [| apply swp_ret; split; [done | by right]].
    eapply swp_mono; [apply (IH _ _ _ _ cr1 l' o1 E Hok1); lia |]. intros [rc cr3] o3 [Hok3 Hout]. split; [done |].
    revert Hout. apply outcome_trans; [done |]. intros ->. rewrite E1, <- !app_assoc, <- !flat_app. done.
Qed.

(** The range of a property holds the characters whose run has value 1. *)
Lemma unicode_prop1_spec table l o :
  decode (S (length table)) table 0 = Some l -> lengths_ok l -> lenZ table <= 2 ^ 20 ->
  swp (unicode_prop1 cr_init table) (fun '(rc, cr') o' => cr_ok cr' /\
    outcome o rc o' (forall c, 0 <= c -> inside (live cr') c = bit_at 0 false l c)) o.
Proof.
  intros Hd Hl Hn. unfold unicode_prop1, lenZ in *.
  eapply swp_mono; [apply (unicode_prop1_loop_spec _ table 0 0 false cr_init l o Hd cr_init_ok); unfold MAX_POINTS; simpl cr_len; lia |].
  intros [rc cr'] o' [Hok Hout]. split; [done |]. revert Hout. apply outcome_trans; [done |]. simpl. intros -> c Hc.
  apply eq_true_iff_eq. rewrite inside_flat by (by apply ones_ascending). symmetry. by apply bit_at_ones.
Qed.
End builder.
