(* ===== verification/UniScripts.v ===== *)
(** * Scripts: the range of a script is the set of its characters

    The tables are decoded into runs that carry a script, or a list of script
    extensions; [script_of] and [script_exts] are what they say of a character. *)

From stdpp Require Import base list numbers sorting sets.
From Stdlib Require Import ZArith Lia.
From S2P Require Import Prelude StateRun CharRange CharRangeSets CharRangeProofs CaseTables CaseConv CaseProofs CaseSets.
From S2P Require Import PropTables UniProps UniPropsProofs.

#[local] Open Scope st_scope.
#[local] Open Scope Z_scope.

(** ** Runs with a value *)

Section runs.
Context {V : Type} (d : V) (sel : V -> bool).
Hypothesis Hd : sel d = false.

Fixpoint value_at (code : Z) (l : list (Z * V)) (c : Z) : V :=
  match l with
  | [] => d
  | (n, v) :: l => if c <? code + n then v else value_at (code + n) l c
  end.

(** The runs whose value is selected. *)
Fixpoint picked (code : Z) (l : list (Z * V)) : list (Z * Z) :=
  match l with
  | [] => []
  | (n, v) :: l => (if sel v then [(code, code + n)] else []) ++ picked (code + n) l
  end.

Definition runs_ok (l : list (Z * V)) : Prop := forall r, r ∈ l -> 0 <= fst r.
Definition runs_total (l : list (Z * V)) : Z := foldr (fun r t => fst r + t) 0 l.

Lemma runs_ok_tail r l : runs_ok (r :: l) -> 0 <= fst r /\ runs_ok l.
Proof. intros H. split; [apply H, list_elem_of_here |]. intros k Hk. apply H. by right. Qed.

Lemma picked_bounds l : forall code s e, runs_ok l -> (s, e) ∈ picked code l -> code <= s <= e /\ e <= code + runs_total l.
Proof.
  induction l as [| [n v] l IH]; intros code s e Hl Hin; cbn [picked] in Hin; [by apply not_elem_of_nil in Hin |].
  apply runs_ok_tail in Hl as [Hn Hl]. cbn [fst] in Hn. unfold runs_total. cbn [foldr fst]. fold (runs_total l).
  assert (Ht : 0 <= runs_total l).
  { clear -Hl. induction l as [| r l IH]; [done |]. apply runs_ok_tail in Hl as [Hr Hl]. unfold runs_total in *. cbn [foldr]. specialize (IH Hl). lia. }
  apply elem_of_app in Hin as [Hin | Hin].
  - destruct (sel v); [| by apply not_elem_of_nil in Hin]. apply list_elem_of_singleton in Hin. simplify_eq. lia.
  - apply IH in Hin; [lia | done].
Qed.

Lemma picked_ascending l : forall code, runs_ok l -> ascending (flat (picked code l)).
Proof.
  induction l as [| [n v] l IH]; intros code Hl; cbn [picked]; [constructor |]. apply runs_ok_tail in Hl as [Hn Hl]. cbn [fst] in Hn.
  specialize (IH (code + n) Hl). destruct (sel v); [| done]. simpl app. cbn [flat].
  assert (Hge : forall q, q ∈ flat (picked (code + n) l) -> code + n <= q).
  { intros q Hq. apply elem_flat in Hq as (s & e & Hin & Hq). apply (picked_bounds l _ _ _ Hl) in Hin. lia. }
  apply ascending_cons. split; [apply ascending_cons; split; done |]. intros q Hq. apply elem_of_cons in Hq as [-> | Hq]; [lia |]. specialize (Hge q Hq). lia.
Qed.

Lemma picked_value l c : forall code, runs_ok l -> code <= c -> in_pairs (picked code l) c <-> sel (value_at code l c) = true.
Proof.
  induction l as [| [n v] l IH]; intros code Hl Hc; cbn [picked value_at].
  { rewrite Hd. split; [| done]. intros (s & e & Hin & _). by apply not_elem_of_nil in Hin. }
  apply runs_ok_tail in Hl as [Hn Hl]. cbn [fst] in Hn. rewrite in_pairs_app. destruct (Z.ltb_spec c (code + n)) as [L | L].
  - assert (Hno : ~ in_pairs (picked (code + n) l) c).
    { intros (s & e & Hin & Hr). apply (picked_bounds l _ _ _ Hl) in Hin. lia. }
    destruct (sel v); [rewrite in_pairs_one; split; [done | left; lia] |]. split; [| done]. intros [(s & e & Hin & _) | H]; [by apply not_elem_of_nil in Hin | done].
  - rewrite <- (IH (code + n) Hl L). split; [| by right]. intros [H | H]; [| done]. destruct (sel v).
    + apply in_pairs_one in H. lia.
    + destruct H as (s & e & Hin & _). by apply not_elem_of_nil in Hin.
Qed.

(** Decoding with a reader of one run. *)
Context (read : list Z -> Z -> run (Z * V * Z)).

Fixpoint decode_runs (fuel : nat) (table : list Z) (p : Z) : option (list (Z * V)) :=
  match fuel with
  | O => None
  | S fuel =>
      if p <? lenZ table then
        match read table p with
        | Done (n, v, p) => match decode_runs fuel table p with Some l => Some ((n + 1, v) :: l) | None => None end
        | _ => None
        end
      else Some []
  end.
End runs.

Definition script_runs : list (Z * option Z) := default [] (decode_runs script_run (S (length unicode_script_table)) unicode_script_table 0).
Definition ext_runs : list (Z * list Z) := default [] (decode_runs script_ext_run (S (length unicode_script_ext_table)) unicode_script_ext_table 0).
#[global] Arguments script_runs : simpl never.
#[global] Arguments ext_runs : simpl never.

(** The script of a character, and its script extensions. *)
Definition script_of (c : Z) : option Z := value_at None 0 script_runs c.
Definition script_exts (c : Z) : list Z := value_at [] 0 ext_runs c.

Definition runs_check {V} (r : option (list (Z * V))) : bool :=
  match r with
  | Some l => forallb (fun r => 0 <=? fst r) l && (runs_total l <=? MAX_CHAR)
  | None => false
  end.

Lemma script_runs_checked : runs_check (decode_runs script_run (S (length unicode_script_table)) unicode_script_table 0) = true.
Proof. vm_compute. reflexivity. Qed.

Lemma ext_runs_checked : runs_check (decode_runs script_ext_run (S (length unicode_script_ext_table)) unicode_script_ext_table 0) = true.
Proof. vm_compute. reflexivity. Qed.

Lemma runs_checked_spec {V} (r : option (list (Z * V))) :
  runs_check r = true -> r = Some (default [] r) /\ runs_ok (default [] r) /\ runs_total (default [] r) <= MAX_CHAR.
Proof.
  unfold runs_check. destruct r as [l |]; [| done]. intros H. apply andb_true_iff in H as [H1 H2]. split; [done |]. split; [| simpl; lia].
  intros k Hk. apply (forallb_elem _ _ k H1) in Hk. lia.
Qed.

Lemma script_runs_spec :
  decode_runs script_run (S (length unicode_script_table)) unicode_script_table 0 = Some script_runs /\
  runs_ok script_runs /\ runs_total script_runs <= MAX_CHAR.
Proof. exact (runs_checked_spec _ script_runs_checked). Qed.

Lemma ext_runs_spec :
  decode_runs script_ext_run (S (length unicode_script_ext_table)) unicode_script_ext_table 0 = Some ext_runs /\
  runs_ok ext_runs /\ runs_total ext_runs <= MAX_CHAR.
Proof. exact (runs_checked_spec _ ext_runs_checked). Qed.

Lemma script_tables_short : lenZ unicode_script_table <= 2 ^ 15 /\ lenZ unicode_script_ext_table <= 2 ^ 15.
Proof. by vm_compute. Qed.

#[global] Opaque script_runs ext_runs unicode_script_table unicode_script_ext_table.

(** ** The loops *)

Section loops.
Context `{RL : ReallocLaws}.

Lemma script_loop_spec idx fuel : forall table p c cr l o,
  decode_runs script_run fuel table p = Some l -> cr_ok cr -> cr_len cr + 2 * Z.of_nat fuel <= MAX_POINTS ->
  swp (script_loop fuel table idx p c cr) (fun '(rc, cr') o' => cr_ok cr' /\
    outcome o rc o' (live cr' = live cr ++ flat (picked (script_selects idx) c l) /\ cr_len cr' <= cr_len cr + 2 * Z.of_nat fuel)) o.
Proof.
  induction fuel as [| fuel IH]; intros table p c cr l o Hd Hok Hn; cbn [decode_runs] in Hd; [done |]. cbn [script_loop].
  destruct (p <? lenZ table); [| injection Hd as <-; apply swp_ret; split; [done |]; left; simpl; rewrite app_nil_r; repeat split; lia].
  destruct (script_run table p) as [[[n v] p1] | |]; try done. apply swp_bind. eapply swp_lift; [done |].
  destruct (decode_runs script_run fuel table p1) as [l' |] eqn:E; [| done]. injection Hd as <-.
  apply swp_bind. eapply swp_mono; [apply (add_if_spec (script_selects idx v) cr _ _ o Hok); lia |].
  intros [rc cr1] o1 (Hok1 & [(-> & R1 & E1 & L1) | (-> & R1)]); simpl; [| apply swp_ret; split; [done | by right]].
  eapply swp_mono; [apply (IH _ _ _ cr1 l' o1 E Hok1); lia |]. intros [rc cr3] o3 [Hok3 Hout]. split; [done |].
  revert Hout. apply outcome_trans; [done |]. intros [-> L3]. rewrite E1, <- !app_assoc, <- !flat_app. split; [done | lia].
Qed.

Lemma script_ext_loop_spec is_common idx fuel : forall table p c cr l o,
  decode_runs script_ext_run fuel table p = Some l -> cr_ok cr -> cr_len cr + 2 * Z.of_nat fuel <= MAX_POINTS ->
  swp (script_ext_loop fuel table is_common idx p c cr) (fun '(rc, cr') o' => cr_ok cr' /\
    outcome o rc o' (live cr' = live cr ++ flat (picked (ext_selects is_common idx) c l) /\ cr_len cr' <= cr_len cr + 2 * Z.of_nat fuel)) o.
Proof.
  induction fuel as [| fuel IH]; intros table p c cr l o Hd Hok Hn; cbn [decode_runs] in Hd; [done |]. cbn [script_ext_loop].
  destruct (p <? lenZ table); [| injection Hd as <-; apply swp_ret; split; [done |]; left; simpl; rewrite app_nil_r; repeat split; lia].
  destruct (script_ext_run table p) as [[[n v] p1] | |]; try done. apply swp_bind. eapply swp_lift; [done |].
  destruct (decode_runs script_ext_run fuel table p1) as [l' |] eqn:E; [| done]. injection Hd as <-.
  apply swp_bind. eapply swp_mono; [apply (add_if_spec (ext_selects is_common idx v) cr _ _ o Hok); lia |].
  intros [rc cr1] o1 (Hok1 & [(-> & R1 & E1 & L1) | (-> & R1)]); simpl; [| apply swp_ret; split; [done | by right]].
  eapply swp_mono; [apply (IH _ _ _ cr1 l' o1 E Hok1); lia |]. intros [rc cr3] o3 [Hok3 Hout]. split; [done |].
  revert Hout. apply outcome_trans; [done |]. intros [-> L3]. rewrite E1, <- !app_assoc, <- !flat_app. split; [done | lia].
Qed.

(** ** The sets *)

(** [c] belongs to the script; [Unknown] is what has none. *)
Definition in_script (idx c : Z) : bool :=
  if idx =? UNICODE_SCRIPT_Unknown then (c <? UINT32_MAX) && negb (script_selects idx (script_of c)) else script_selects idx (script_of c).

(** With extensions: a common script loses the characters that list scripts,
    the others gain the characters that list them. *)
Definition in_script_ext (idx c : Z) : bool :=
  if is_common_script idx then in_script idx c && negb (ext_selects true idx (script_exts c))
  else in_script idx c || ext_selects false idx (script_exts c).

Record range_of (S : Z -> bool) (cr : CharRange) : Prop := {
  ro_ok : cr_ok cr;
  ro_len : cr_len cr <= 2 ^ 20;
  ro_ascending : ascending (live cr);
  ro_even : even (live cr);
  ro_points : forall z, z ∈ live cr -> 0 <= z <= UINT32_MAX;
  ro_set : forall x, 0 <= x -> inside (live cr) x = S x
}.

Lemma picked_range {V} (d : V) sel l cr :
  sel d = false -> runs_ok l -> runs_total l <= MAX_CHAR -> cr_ok cr -> cr_len cr <= 2 ^ 20 -> live cr = flat (picked sel 0 l) ->
  range_of (fun c => sel (value_at d 0 l c)) cr.
Proof.
  intros Hd Hl Ht Hok Hlen E. split; [done | done | rewrite E; by apply picked_ascending | rewrite E; apply even_flat | |].
  - intros z Hz. rewrite E in Hz. apply elem_flat in Hz as (s & e & Hin & Hz). apply (picked_bounds sel l _ _ _ Hl) in Hin.
    unfold MAX_CHAR, UINT32_MAX in *. lia.
  - intros x Hx. apply eq_true_iff_eq. rewrite E, inside_flat by (by apply picked_ascending). by apply picked_value.
Qed.

Lemma inverted_range S cr o :
  range_of S cr ->
  swp (cr_invert cr) (fun '(rc, cr') o' => cr_ok cr' /\ outcome o rc o' (cr_len cr' <= cr_len cr + 2 /\
    (cr_len cr + 2 <= 2 ^ 20 -> range_of (fun x => (x <? UINT32_MAX) && negb (S x)) cr'))) o.
Proof.
  intros [Hok Hlen Ha He Hp Hs]. eapply swp_mono; [apply (cr_invert_spec cr o Hok); try done; unfold MAX_POINTS; lia |].
  intros [rc cr'] o' [H1 H2]. split; [done |]. revert H2. apply outcome_trans; [done |]. intros (Hc & Hl & Hb & Hx). split; [done |]. intros Hn.
  split; [done | lia | apply increasing_ascending, Hc | apply Hc | done |].
  intros x Hx0. rewrite Hx, (Hs x Hx0), (proj2 (Z.leb_le 0 x) Hx0). done.
Qed.

Lemma script_base_spec idx cr o :
  cr_ok cr -> cr_len cr = 0 ->
  swp (script_base idx cr) (fun '(rc, cr') o' => cr_ok cr' /\ outcome o rc o' (cr_len cr' <= 2 ^ 18 /\ range_of (in_script idx) cr')) o.
Proof.
  intros Hok H0. unfold script_base. destruct script_tables_short as [Hs _]. unfold lenZ in Hs.
  destruct script_runs_spec as (E & Hl & Ht).
  apply swp_bind. eapply swp_mono; [apply (script_loop_spec idx _ _ _ _ cr _ o E Hok); unfold MAX_POINTS; lia |]. clear E.
  intros [rc cr1] o1 (Hok1 & [(-> & R1 & E1 & L1) | (-> & R1)]); cbn [Z.eqb negb]; [| apply swp_ret; split; [exact Hok1 | right; split; [reflexivity | exact R1]]].
  assert (El : live cr = []) by (unfold live; rewrite H0; reflexivity). rewrite El, app_nil_l in E1.
  pose proof (picked_range None (script_selects idx) script_runs cr1 eq_refl Hl Ht Hok1 ltac:(lia) E1) as Hr. clear E1.
  unfold in_script. destruct (idx =? UNICODE_SCRIPT_Unknown).
  - eapply swp_mono; [apply (inverted_range _ _ o1 Hr) |]. intros [rc cr2] o2 [H1 H2]. split; [done |]. revert H2. apply outcome_trans; [done |].
    intros [Hl2 Hr2]. split; [lia |]. apply Hr2. lia.
  - apply swp_ret. split; [done |]. left. split; [done |]. split; [done |]. split; [lia | done].
Qed.

Lemma script_with_ext_spec idx cr o :
  cr_ok cr -> cr_len cr = 0 ->
  swp (script_with_ext idx cr) (fun '(rc, cr', _) o' => cr_ok cr' /\
    outcome o rc o' (canonical (live cr') /\ forall x, 0 <= x -> inside (live cr') x = in_script_ext idx x)) o.
Proof.
  intros Hok H0. unfold script_with_ext. cbv zeta. destruct script_tables_short as [_ Hs]. unfold lenZ in Hs.
  apply swp_bind. eapply swp_mono; [apply (script_base_spec idx cr_init o cr_init_ok); done |].
  intros [rc cr1] o1 (Hok1 & [(-> & R1 & L1 & Hr1) | (-> & R1)]); cbn [Z.eqb negb]; [| apply swp_ret; split; [done | by right]].
  destruct ext_runs_spec as (E & Hl & Ht). apply swp_bind. eapply swp_mono; [apply (script_ext_loop_spec (is_common_script idx) idx _ _ _ _ cr_init _ o1 E cr_init_ok); unfold MAX_POINTS; simpl cr_len; lia |]. clear E.
  intros [rc cr2] o2 (Hok2 & [(-> & R2 & E2 & L2) | (-> & R2)]); cbn [Z.eqb negb]; [| apply swp_ret; split; [exact Hok | right; split; [reflexivity | exact R2]]].
  change (live cr_init) with (@nil Z) in E2. rewrite app_nil_l in E2. simpl cr_len in L2.
  assert (Hsel : ext_selects (is_common_script idx) idx [] = false) by (destruct (is_common_script idx); reflexivity).
  pose proof (picked_range [] (ext_selects (is_common_script idx) idx) ext_runs cr2 Hsel Hl Ht Hok2 ltac:(lia) E2) as Hr2. assert (Hl2 : cr_len cr2 <= 2 ^ 18) by lia. clear E2 L2 Hl Ht Hs.
  apply swp_bind. unfold in_script_ext.
  assert (Hflip : swp (if is_common_script idx then cr_invert cr2 else sret (0, cr2)) (fun '(rc, cr') o' => cr_ok cr' /\ outcome o2 rc o'
    (range_of (fun c => if is_common_script idx then (c <? UINT32_MAX) && negb (ext_selects true idx (script_exts c)) else ext_selects false idx (script_exts c)) cr')) o2).
  { destruct (is_common_script idx).
    - eapply swp_mono; [apply (inverted_range _ _ o2 Hr2) |]. intros [rc cr3] o3 [H1 H2]. split; [done |]. revert H2. apply outcome_trans; [done |].
      intros [_ H]. apply H. lia.
    - apply swp_ret. split; [done |]. by left. }
  eapply swp_mono; [exact Hflip |]. clear Hflip.
  intros [rc cr3] o3 (Hok3 & [(-> & R3 & Hr3) | (-> & R3)]); cbn [Z.eqb negb]; [| apply swp_ret; split; [done | by right]].
  destruct Hr1 as [_ Hn1 A1 V1 P1 S1], Hr3 as [_ Hn3 A3 V3 P3 S3]. pose proof Hok1 as [O1 O2 _]. pose proof Hok3 as [O3 O4 _].
  apply swp_bind. eapply swp_mono; [apply (cr_op_spec (cr_points cr1) (cr_points cr3) (cr_len cr1) (cr_len cr3) _ ltac:(lia) ltac:(lia) cr o3 Hok H0); try done; unfold MAX_POINTS; lia |].
  intros [rc cr4] o4 (Hok4 & [(-> & R4 & C4 & I4 & _) | (-> & R4)]); apply swp_ret; (split; [done |]); [left | by right].
  split; [done |]. split; [congruence |]. split; [done |]. intros x Hx. rewrite I4. change (take _ (cr_points cr1)) with (live cr1). change (take _ (cr_points cr3)) with (live cr3).
  rewrite (S1 x Hx), (S3 x Hx). destruct (is_common_script idx) eqn:Ec; [| done]. simpl op_sem.
  destruct (Z.ltb_spec x UINT32_MAX) as [L | L]; [done |]. simpl. rewrite andb_false_r.
  assert (Hout : inside (live cr1) x = false) by (rewrite inside_above by (intros p Hp; specialize (P1 p Hp); lia); by apply even_odd).
  rewrite <- (S1 x Hx), Hout. done.
Qed.
End loops.
