(* ===== verification/UniTheorems.v ===== *)
(** * Character properties and scripts: theorems *)

From stdpp Require Import base list numbers sorting sets.
From Stdlib Require Import ZArith Lia.
From S2P Require Import Prelude StateRun CharRange CharRangeSets CharRangeProofs CaseTables CaseConv CaseProofs CaseSets CharTheorems.
From S2P Require Import PropTables UniProps UniPropsProofs UniScripts.

#[local] Open Scope st_scope.
#[local] Open Scope Z_scope.

(** ** White space *)

Definition white_space_lengths : list Z :=
  Eval vm_compute in default [] (decode (S (length unicode_prop_White_Space_table)) unicode_prop_White_Space_table 0).

Lemma white_space_bits c : 0 <= c -> lre_is_white_space c = Done (bit_at 0 false white_space_lengths c).
Proof.
  intros Hc. apply in_table_spec; [vm_compute; reflexivity | | done].
  destruct (table_checked unicode_prop_White_Space_table unicode_prop_White_Space_index) as (l & E & H).
  { unfold indexed_tables. rewrite !elem_of_cons. tauto. }
  assert (E' : Some l = Some white_space_lengths) by (rewrite <- E; vm_compute; reflexivity). injection E' as ->. exact H.
Qed.

Definition low_space_check (c : Z) : bool :=
  match lre_is_space c with
  | Done s => Bool.eqb s ((bit_at 0 false white_space_lengths c && negb (c =? 133)) || (c =? 65279))
  | _ => false
  end.

Lemma low_spaces : forallb low_space_check (upto 256 0) = true.
Proof. vm_compute. reflexivity. Qed.

(** the space test of the lexer and of [trim], which has tables of its own, is
    the Unicode property White_Space without U+0085 and with U+FEFF. *)
Theorem is_space_is_white_space c :
  0 <= c -> exists w, lre_is_white_space c = Done w /\ lre_is_space c = Done ((w && negb (c =? 133)) || (c =? 65279)).
Proof.
  intros Hc. exists (bit_at 0 false white_space_lengths c). split; [by apply white_space_bits |].
  destruct (Z.lt_ge_cases c 256) as [L | L].
  - pose proof (forallb_elem _ _ c low_spaces ltac:(apply elem_upto; lia)) as H. unfold low_space_check in H.
    destruct (lre_is_space c) as [s | |]; try done. f_equal. by apply Bool.eqb_prop.
  - unfold lre_is_space. rewrite (proj2 (Z.ltb_ge c 256) L). f_equal. rewrite (proj2 (Z.eqb_neq c 133)) by lia. rewrite andb_true_r.
    unfold lre_is_space_non_ascii, white_space_lengths. cbn [pairs drop char_range_space space_loop bit_at negb Z.add Pos.add Pos.succ Pos.add_carry].
    repeat match goal with |- context [c <? ?k] => destruct (Z.ltb_spec c k); try (exfalso; lia) end;
      destruct (Z.eqb_spec c 65279); try done; exfalso; lia.
Qed.

Lemma is_space_is_white_space_witness :
  exists w, lre_is_white_space 8287 = Done w /\ lre_is_space 8287 = Done ((w && negb (8287 =? 133)) || (8287 =? 65279)).
Proof. apply (is_space_is_white_space 8287). lia. Defined.

(** ** Tables *)

Lemma indexed_tables_short : forallb (fun p => lenZ (fst p) <=? 2 ^ 20) indexed_tables = true.
Proof. vm_compute. reflexivity. Qed.

Section theorems.
Context `{RL : ReallocLaws}.

(** C33: the two readers of the property tables agree: for each table with an
    index, the predicate that starts from an index entry returns for every code
    point, stays inside the table, and says whether the code point is in the
    range that [unicode_prop1] builds from the table. *)
Theorem prop_readers_agree table index o :
  (table, index) ∈ indexed_tables ->
  swp (unicode_prop1 cr_init table) (fun '(rc, cr') o' => cr_ok cr' /\
    outcome o rc o' (forall c, 0 <= c -> in_table c table index = Done (inside (live cr') c))) o.
Proof.
  intros Hin. destruct (table_checked table index Hin) as (l & Hd & Hok). destruct (index_facts table index l Hok) as (_ & _ & _ & _ & _ & _ & Hl).
  pose proof (forallb_elem _ _ _ indexed_tables_short Hin) as Hs. cbn [fst] in Hs. apply Z.leb_le in Hs. clear Hin.
  eapply swp_mono; [apply (unicode_prop1_spec table l o Hd Hl Hs) |]. intros [rc cr'] o' [H1 H2]. split; [exact H1 |].
  revert H2. apply outcome_trans; [reflexivity |]. intros Hx c Hc. rewrite (Hx c Hc). exact (in_table_spec table index l Hd Hok c Hc).
Qed.

End theorems.

Module ScriptDemo.
Definition o1 : ropaque (Realloc := Demo.budget) := (1000, 0, false).

Lemma prop_readers_agree_witness :
  (unicode_prop_White_Space_table, unicode_prop_White_Space_index) ∈ indexed_tables /\
  swp (unicode_prop1 (RE := Demo.budget) cr_init unicode_prop_White_Space_table) (fun '(rc, cr') o' => cr_ok cr' /\
    outcome (RL := Demo.budget_laws) o1 rc o'
      (forall c, 0 <= c -> in_table c unicode_prop_White_Space_table unicode_prop_White_Space_index = Done (inside (live cr') c))) o1.
Proof.
  assert (Hin : (unicode_prop_White_Space_table, unicode_prop_White_Space_index) ∈ indexed_tables).
  { unfold indexed_tables. rewrite !elem_of_cons. tauto. }
  split; [exact Hin |]. exact (prop_readers_agree (RL := Demo.budget_laws) _ _ o1 Hin).
Defined.


(** Script=Greek and an allocator that refuses the first request. *)
Theorem unicode_script_hangs : unicode_script (RE := Demo.budget) cr_init (Some 46) false (0, 1, false) = Spins.
Proof. vm_compute. reflexivity. Qed.
End ScriptDemo.
