(* ===== verification/Utf8.v ===== *)
(** * UTF-8 and UTF-16 (cutils.h)

    Engine strings are arrays of 8-bit or 16-bit units; the embedder sees UTF-8.
    These functions convert between the two and keep lone surrogates.

    A pointer into a source is the list of the bytes from there to its end, and a
    read past the end is [Aborts].  A destination is the list of its [dest_len]
    cells; the encoder indexes its source, as the code goes back in it. *)

From stdpp Require Import base list numbers.
From Stdlib Require Import ZArith Lia.
From S2P Require Import Prelude.

#[local] Open Scope Z_scope.

(** ** Surrogates *)

Definition is_surrogate (c : Z) : bool := Z.shiftr c 11 =? Z.shiftr 55296 11.
Definition is_hi_surrogate (c : Z) : bool := Z.shiftr c 10 =? Z.shiftr 55296 10.
Definition is_lo_surrogate (c : Z) : bool := Z.shiftr c 10 =? Z.shiftr 56320 10.
Definition get_hi_surrogate (c : Z) : Z := Z.shiftr c 10 - Z.shiftr 65536 10 + 55296.
Definition get_lo_surrogate (c : Z) : Z := Z.lor (Z.land c 1023) 56320.
Definition from_surrogate (hi lo : Z) : Z := 65536 + 1024 * Z.land hi 1023 + Z.land lo 1023.

(** ** One code point *)

(** 0xFFFD *)
Definition REPLACEMENT : Z := 65533.

Definition utf8_encode_len (c : Z) : Z :=
  if c <? 128 then 1 else if c <? 2048 then 2 else if c <? 65536 then 3 else if c <? 1114112 then 4 else 3.

(** The bytes that are stored; [uint8_t] keeps the low eight bits. *)
Definition utf8_encode (c : Z) : list Z :=
  if c <? 128 then [u8 c]
  else if c <? 2048 then [u8 (Z.lor (Z.shiftr c 6) 192); u8 (Z.lor (Z.land c 63) 128)]
  else if c <? 65536 then
    [u8 (Z.lor (Z.shiftr c 12) 224); u8 (Z.lor (Z.land (Z.shiftr c 6) 63) 128); u8 (Z.lor (Z.land c 63) 128)]
  else if c <? 1114112 then
    [u8 (Z.lor (Z.shiftr c 18) 240); u8 (Z.lor (Z.land (Z.shiftr c 12) 63) 128);
     u8 (Z.lor (Z.land (Z.shiftr c 6) 63) 128); u8 (Z.lor (Z.land c 63) 128)]
  else [u8 (Z.lor (Z.shiftr REPLACEMENT 12) 224); u8 (Z.lor (Z.land (Z.shiftr REPLACEMENT 6) 63) 128);
        u8 (Z.lor (Z.land REPLACEMENT 63) 128)].

(** [p[i]] *)
Definition fetch (p : list Z) (i : nat) : run Z := match p !! i with Some b => Done b | None => Aborts end.

(** [p[i]] is in [lower, upper]. *)
Definition byte_in (p : list Z) (i : nat) (lower upper : Z) : run bool :=
  let* b := fetch p i in Done ((lower <=? b) && (b <=? upper)).

Definition get (p : list Z) (i : nat) : Z := default 0 (p !! i).

(** The code point at [p] and the pointer after it. *)
Definition utf8_decode (p : list Z) : run (Z * list Z) :=
  let* c := fetch p 0 in
  let p := drop 1 p in
  let error := Done (REPLACEMENT, p) in
  if c <? 128 then Done (c, p)
  else if (194 <=? c) && (c <=? 223) then
    let* ok := byte_in p 0 128 191 in
    if ok then Done (Z.shiftl (c - 192) 6 + (get p 0 - 128), drop 1 p) else error
  else if (224 <=? c) && (c <=? 239) then
    let lower := if c =? 224 then 160 else 128 in
    let* ok := byte_in p 0 lower 191 in
    if negb ok then error
    else
      let* ok := byte_in p 1 128 191 in
      if ok then Done (Z.shiftl (c - 224) 12 + Z.shiftl (get p 0 - 128) 6 + (get p 1 - 128), drop 2 p) else error
  else if (240 <=? c) && (c <=? 244) then
    let lower := if c =? 240 then 144 else 128 in
    let upper := if c =? 244 then 143 else 191 in
    let* ok := byte_in p 0 lower upper in
    if negb ok then error
    else
      let* ok := byte_in p 1 128 191 in
      if negb ok then error
      else
        let* ok := byte_in p 2 128 191 in
        if ok then Done (Z.shiftl (c - 240) 18 + Z.shiftl (get p 0 - 128) 12 + Z.shiftl (get p 1 - 128) 6 + (get p 2 - 128), drop 3 p)
        else error
  else error.

Definition utf8_decode_len (p : list Z) (max_len : Z) : run (Z * list Z) :=
  if max_len =? 0 then Done (REPLACEMENT, p)
  else
    let* c := fetch p 0 in
    if (max_len =? 1) && negb (c <? 128) || (max_len =? 2) && negb (c <? 224) || (max_len =? 3) && negb (c <? 240)
    then Done (REPLACEMENT, drop 1 p)
    else utf8_decode p.

(** ** Buffers *)

Definition UTF8_PLAIN_ASCII : Z := 0.
Definition UTF8_NON_ASCII : Z := 1.
Definition UTF8_HAS_16BIT : Z := 2.
Definition UTF8_HAS_NON_BMP1 : Z := 4.
Definition UTF8_HAS_ERRORS : Z := 8.

(** [while (p < p_end)] of [utf8_scan]: the kind and the number of units. *)
Fixpoint scan_loop (fuel : nat) (p : list Z) (kind len : Z) : run (Z * Z) :=
  match fuel with
  | O => Spins
  | S fuel =>
      match p with
      | [] => Done (kind, len)
      | b :: p' =>
          let len := len + 1 in
          if b <? 128 then scan_loop fuel p' kind len
          else
            let* (c, p_next) := utf8_decode_len p (lenZ p) in
            let kind := if (lenZ p_next =? lenZ p') then Z.lor kind UTF8_HAS_ERRORS else kind in
            let kind := if 255 <? c then Z.lor kind UTF8_HAS_16BIT else kind in
            if 65535 <? c then scan_loop fuel p_next (Z.lor kind UTF8_HAS_NON_BMP1) (len + 1) else scan_loop fuel p_next kind len
      end
  end.

Definition utf8_scan (buf : list Z) : run (Z * Z) :=
  let cbits := foldl Z.lor 0 buf in
  if 128 <=? cbits then scan_loop (S (length buf)) buf UTF8_NON_ASCII 0 else Done (UTF8_PLAIN_ASCII, lenZ buf).

(** [dest[i] = c] *)
Definition put_at (dest : list Z) (i c : Z) : run (list Z) :=
  if (0 <=? i) && (i <? lenZ dest) then Done (setZ i c dest) else Aborts.

(** [if (i < dest_len) dest[i] = c] *)
Definition store_at (dest : list Z) (i c : Z) : run (list Z) := if i <? lenZ dest then put_at dest i c else Done dest.

(** [for (i = 0; p < p_end; i++)] of [utf8_decode_buf8]: the destination and the
    number of units, stored or not. *)
Fixpoint decode8_loop (p dest : list Z) (i : Z) : run (list Z * Z) :=
  match p with
  | [] => Done (dest, i)
  | c :: p =>
      if 192 <=? c then
        match p with
        | [] => Aborts
        | d :: p =>
            let c := u32 (Z.shiftl c 6 + d - (Z.shiftl 192 6 + 128)) in
            let* dest := store_at dest i (u8 c) in decode8_loop p dest (i + 1)
        end
      else let* dest := store_at dest i (u8 c) in decode8_loop p dest (i + 1)
  end.

Definition utf8_decode_buf8 (dest src : list Z) : run (list Z * Z) :=
  let* (dest, i) := decode8_loop src dest 0 in
  let* dest :=
    if i <? lenZ dest then put_at dest i 0 else if 0 <? lenZ dest then put_at dest (lenZ dest - 1) 0 else Done dest in
  Done (dest, i).

(** The same loop of [utf8_decode_buf16]. *)
Fixpoint decode16_loop (fuel : nat) (p dest : list Z) (i : Z) : run (list Z * Z) :=
  match fuel with
  | O => Spins
  | S fuel =>
      match p with
      | [] => Done (dest, i)
      | c :: p' =>
          if c <? 128 then let* dest := store_at dest i (u16 c) in decode16_loop fuel p' dest (i + 1)
          else
            let* (c, p) := utf8_decode_len p (lenZ p) in
            if 65535 <? c then
              let* dest := store_at dest i (u16 (get_hi_surrogate c)) in
              let i := i + 1 in
              let* dest := store_at dest i (u16 (get_lo_surrogate c)) in decode16_loop fuel p dest (i + 1)
            else let* dest := store_at dest i (u16 c) in decode16_loop fuel p dest (i + 1)
      end
  end.

Definition utf8_decode_buf16 (dest src : list Z) : run (list Z * Z) := decode16_loop (S (length src)) src dest 0.

(** [while (i < src_len)] after [overflow], 8-bit units. *)
Definition count8 (src : list Z) (j : Z) : Z := foldl (fun j c => j + (1 + b2z (128 <=? c))) j src.

(** [if (j < dest_len) dest[j] = '\0'] *)
Definition terminate (dest : list Z) (j : Z) : run (list Z) := store_at dest j 0.

Fixpoint encode8_loop (src dest : list Z) (j : Z) : run (list Z * Z) :=
  let overflow := let* dest := terminate dest j in Done (dest, count8 src j) in
  match src with
  | [] => let* dest := terminate dest j in Done (dest, j)
  | c :: src =>
      if c <? 128 then
        if lenZ dest <=? j + 1 then overflow else let* dest := put_at dest j (u8 c) in encode8_loop src dest (j + 1)
      else
        if lenZ dest <=? j + 2 then overflow
        else
          let* dest := put_at dest j (u8 (Z.lor (Z.shiftr c 6) 192)) in
          let* dest := put_at dest (j + 1) (u8 (Z.lor (Z.land c 63) 128)) in
          encode8_loop src dest (j + 2)
  end.

Definition utf8_encode_buf8 (dest src : list Z) : run (list Z * Z) := encode8_loop src dest 0.

(** [src[i++]], joined with [src[i++]] when the two are a surrogate pair: the
    code point and the new index. *)
Definition next_code (src : list Z) (i : Z) : run (Z * Z) :=
  let* c := fetch src (Z.to_nat i) in
  let i := i + 1 in
  if c <? 128 then Done (c, i)
  else if is_hi_surrogate c && (i <? lenZ src) then
    let* d := fetch src (Z.to_nat i) in
    if is_lo_surrogate d then Done (from_surrogate c d, i + 1) else Done (c, i)
  else Done (c, i).

(** Store bytes from position [j]. *)
Fixpoint put_all (dest : list Z) (j : Z) (l : list Z) : run (list Z) :=
  match l with
  | [] => Done dest
  | b :: l => let* dest := put_at dest j b in put_all dest (j + 1) l
  end.

(** [while (i < src_len)] after [overflow]: the length of the rest. *)
Fixpoint count_loop (fuel : nat) (src : list Z) (i j : Z) : run Z :=
  match fuel with
  | O => Spins
  | S fuel =>
      if i <? lenZ src then
        let* (c, i) := next_code src i in
        count_loop fuel src i (if c <? 128 then j + 1 else j + utf8_encode_len c)
      else Done j
  end.

Fixpoint encode16_loop (fuel : nat) (src dest : list Z) (i j : Z) : run (list Z * Z) :=
  match fuel with
  | O => Spins
  | S fuel' =>
      if i <? lenZ src then
        let* (c, i') := next_code src i in
        if lenZ dest <=? j + (if c <? 128 then 1 else utf8_encode_len c) then
          let i := i' - (1 + b2z (65535 <? c)) in
          let* dest := terminate dest j in
          let* n := count_loop fuel src i j in
          Done (dest, n)
        else if c <? 128 then let* dest := put_at dest j (u8 c) in encode16_loop fuel' src dest i' (j + 1)
        else let* dest := put_all dest j (utf8_encode c) in encode16_loop fuel' src dest i' (j + lenZ (utf8_encode c))
      else let* dest := terminate dest j in Done (dest, j)
  end.

Definition utf8_encode_buf16 (dest src : list Z) : run (list Z * Z) := encode16_loop (S (length src)) src dest 0 0.
