(* ===== verification/Utf8Proofs.v ===== *)
(** * UTF-8: encoding and decoding are inverse

    The bytes of a code point in arithmetic form, decoding of what was encoded,
    and what decoding makes of arbitrary bytes. *)

From stdpp Require Import base list numbers.
From Stdlib Require Import ZArith Lia.
From S2P Require Import Prelude Utf8.

#[local] Open Scope Z_scope.

Lemma lor_plus x y k : 0 <= k -> 0 <= x < 2 ^ k -> Z.lor x (y * 2 ^ k) = x + y * 2 ^ k.
Proof.
  intros Hk Hx. assert (H : Z.land x (y * 2 ^ k) = 0).
  { apply Z.bits_inj'. intros i Hi. rewrite Z.land_spec, Z.bits_0, <- Z.shiftl_mul_pow2 by lia.
    destruct (Z.lt_ge_cases i k) as [L | L]; [rewrite Z.shiftl_spec_low by lia; by rewrite andb_false_r |].
    rewrite <- (Z.mod_small x (2 ^ k)) by lia. rewrite Z.mod_pow2_bits_high by lia. done. }
  rewrite <- Z.lxor_lor by done. symmetry. by apply Z.add_nocarry_lxor.
Qed.

Lemma low6 c : Z.land c 63 = c mod 64.
Proof. change 63 with (Z.ones 6). by rewrite Z.land_ones by lia. Qed.

Lemma tail_byte x : 0 <= x < 64 -> u8 (Z.lor x 128) = 128 + x.
Proof. intros H. change 128 with (2 * 2 ^ 6) at 1. rewrite lor_plus by lia. unfold u8. rewrite Z.mod_small; lia. Qed.

Lemma lead2 x : 0 <= x < 32 -> u8 (Z.lor x 192) = 192 + x.
Proof. intros H. change 192 with (6 * 2 ^ 5) at 1. rewrite lor_plus by lia. unfold u8. rewrite Z.mod_small; lia. Qed.

Lemma lead3 x : 0 <= x < 16 -> u8 (Z.lor x 224) = 224 + x.
Proof. intros H. change 224 with (14 * 2 ^ 4) at 1. rewrite lor_plus by lia. unfold u8. rewrite Z.mod_small; lia. Qed.

Lemma lead4 x : 0 <= x < 8 -> u8 (Z.lor x 240) = 240 + x.
Proof. intros H. change 240 with (30 * 2 ^ 3) at 1. rewrite lor_plus by lia. unfold u8. rewrite Z.mod_small; lia. Qed.

Definition MAX_CODE : Z := 1114112.

(** The four shapes of an encoding, by the digits of the code point in base 64. *)
Inductive shape : Z -> list Z -> Prop :=
  | shape1 c : 0 <= c < 128 -> shape c [c]
  | shape2 a b : 2 <= a < 32 -> 0 <= b < 64 -> shape (64 * a + b) [192 + a; 128 + b]
  | shape3 a b c : 0 <= a < 16 -> 0 <= b < 64 -> 0 <= c < 64 -> 32 <= 64 * a + b ->
      shape (64 * (64 * a + b) + c) [224 + a; 128 + b; 128 + c]
  | shape4 a b c d : 0 <= a < 5 -> 0 <= b < 64 -> 0 <= c < 64 -> 0 <= d < 64 -> 16 <= 64 * a + b < 272 ->
      shape (64 * (64 * (64 * a + b) + c) + d) [240 + a; 128 + b; 128 + c; 128 + d].

Lemma digits c k : 0 <= k -> Z.shiftr c (6 + k) = Z.shiftr c k / 64.
Proof. intros Hk. rewrite Z.add_comm, <- Z.shiftr_shiftr by lia. by rewrite (Z.shiftr_div_pow2 _ 6) by lia. Qed.

Lemma encode_shape c : 0 <= c < MAX_CODE -> shape c (utf8_encode c).
Proof.
  intros Hc. unfold MAX_CODE in Hc. unfold utf8_encode.
  set (q := c / 64). set (r := c mod 64). assert (Eq : c = 64 * q + r /\ 0 <= r < 64) by (unfold q, r; pose proof (Z_div_mod_eq_full c 64); pose proof (Z.mod_pos_bound c 64); lia).
  set (q1 := q / 64). set (r1 := q mod 64). assert (Eq1 : q = 64 * q1 + r1 /\ 0 <= r1 < 64) by (unfold q1, r1; pose proof (Z_div_mod_eq_full q 64); pose proof (Z.mod_pos_bound q 64); lia).
  set (q2 := q1 / 64). set (r2 := q1 mod 64). assert (Eq2 : q1 = 64 * q2 + r2 /\ 0 <= r2 < 64) by (unfold q2, r2; pose proof (Z_div_mod_eq_full q1 64); pose proof (Z.mod_pos_bound q1 64); lia).
  assert (S6 : Z.shiftr c 6 = q) by (rewrite Z.shiftr_div_pow2 by lia; done).
  assert (S12 : Z.shiftr c 12 = q1) by (change 12 with (6 + 6); rewrite digits, S6 by lia; done).
  assert (S18 : Z.shiftr c 18 = q2) by (change 18 with (6 + 12); rewrite digits, S12 by lia; done).
  rewrite S6, S12, S18, !low6. fold r r1 r2. clearbody q r q1 r1 q2 r2.
  destruct (Z.ltb_spec c 128); [replace (u8 c) with c by (unfold u8; rewrite Z.mod_small; lia); constructor; lia |].
  destruct (Z.ltb_spec c 2048); [rewrite lead2, tail_byte by lia; replace c with (64 * q + r) by lia; constructor; lia |].
  destruct (Z.ltb_spec c 65536); [rewrite lead3, !tail_byte by lia; replace c with (64 * (64 * q1 + r1) + r) by lia; constructor; lia |].
  destruct (Z.ltb_spec c 1114112); [| lia]. rewrite lead4, !tail_byte by lia. replace c with (64 * (64 * (64 * q2 + r2) + r1) + r) by lia. constructor; lia.
Qed.

(** A code point and its bytes determine each other. *)
Lemma shape_encode c l : shape c l -> 0 <= c < MAX_CODE /\ l = utf8_encode c.
Proof.
  intros Hs. assert (Hc : 0 <= c < MAX_CODE) by (unfold MAX_CODE; destruct Hs; lia). split; [done |].
  pose proof (encode_shape c Hc) as Ht. revert Hs Ht. generalize (utf8_encode c). intros l' Hs Ht.
  destruct Hs; inversion Ht; subst; try lia; repeat f_equal; lia.
Qed.

Lemma shape_length c l : shape c l -> utf8_encode_len c = lenZ l.
Proof.
  intros []; unfold utf8_encode_len, lenZ; simpl;
    repeat match goal with |- context [?x <? ?y] => destruct (Z.ltb_spec x y); try lia end; done.
Qed.

(** Decide the comparisons of the goal. *)
Ltac decide_cmp := repeat match goal with
  | |- context [?x =? ?y] => destruct (Z.eqb_spec x y); try (exfalso; lia)
  | |- context [?x <? ?y] => destruct (Z.ltb_spec x y); try (exfalso; lia)
  | |- context [?x <=? ?y] => destruct (Z.leb_spec x y); try (exfalso; lia) end.

(** ** Decoding what was encoded *)

Lemma decode_shape c l rest : shape c l -> utf8_decode (l ++ rest) = Done (c, rest).
Proof.
  intros Hs. destruct Hs as [c Hc | a b Ha Hb | a b c Ha Hb Hc Hab | a b c d Ha Hb Hc Hd Hab];
    unfold utf8_decode, byte_in, fetch, get; simpl; rewrite ?Z.shiftl_mul_pow2 by lia; decide_cmp; simpl; rewrite ?drop_0;
    do 2 f_equal; lia.
Qed.

Lemma decode_len_shape c l rest : shape c l -> utf8_decode_len (l ++ rest) (lenZ (l ++ rest)) = Done (c, rest).
Proof.
  intros Hs. pose proof (decode_shape c l rest Hs) as Hd. unfold utf8_decode_len. rewrite Hd.
  assert (Hl : lenZ (l ++ rest) = lenZ l + lenZ rest) by (unfold lenZ; rewrite length_app; lia). rewrite Hl. clear Hd Hl.
  pose proof (lenZ_nonneg rest) as Hr. destruct Hs; unfold fetch, lenZ in *; simpl; simpl in Hr; decide_cmp; done.
Qed.

(** ** Decoding arbitrary bytes *)

Definition bytes_ok (p : list Z) : Prop := Forall (fun b => 0 <= b < 256) p.

(** What is decoded at [p]: an encoded code point, or a replacement for one
    byte. *)
Inductive decoded (p : list Z) : Z -> list Z -> Prop :=
  | dec_ok c l rest : shape c l -> p = l ++ rest -> decoded p c rest
  | dec_error b rest : p = b :: rest -> 128 <= b -> decoded p REPLACEMENT rest.

(** Enough bytes after the first for what it announces. *)
Definition enough (p : list Z) : Prop :=
  forall b, p !! 0%nat = Some b ->
    (194 <= b -> (2 <= length p)%nat) /\ (224 <= b -> (3 <= length p)%nat) /\ (240 <= b -> (4 <= length p)%nat).

Lemma utf8_decode_spec p :
  p <> [] -> bytes_ok p -> enough p -> exists c rest, utf8_decode p = Done (c, rest) /\ decoded p c rest.
Proof.
  intros Hne Hb He. destruct p as [| b p]; [done |]. inversion Hb as [| ? ? Hb0 Hbp]; subst. destruct (He b eq_refl) as (E2 & E3 & E4). simpl in E2, E3, E4.
  unfold utf8_decode, byte_in, fetch, get. simpl. rewrite ?drop_0.
  destruct (Z.ltb_spec b 128) as [L | L]; [exists b, p; split; [done |]; apply (dec_ok _ b [b]); [apply shape1; lia | done] |].
  assert (Herr : exists c rest, Done (REPLACEMENT, p) = Done (c, rest) /\ decoded (b :: p) c rest) by (exists REPLACEMENT, p; split; [done |]; by apply (dec_error _ b)).
  destruct (Z.leb_spec 194 b) as [L1 | L1], (Z.leb_spec b 223) as [L2 | L2]; simpl; try (destruct (Z.leb_spec 224 b); [lia |]; simpl; destruct (Z.leb_spec 240 b); [lia |]; done); try lia.
  - destruct p as [| b1 p]; [simpl in E2; lia |]. simpl. rewrite drop_0. destruct (Z.leb_spec 128 b1) as [M1 | M1], (Z.leb_spec b1 191) as [M2 | M2]; simpl; try done.
    rewrite Z.shiftl_mul_pow2 by lia. do 2 eexists. split; [done |]. apply (dec_ok _ _ [192 + (b - 192); 128 + (b1 - 128)]); [replace (_ * 2 ^ 6) with (64 * (b - 192)) by lia; constructor; lia |].
    simpl. repeat f_equal; lia.
  - destruct (Z.leb_spec 224 b) as [L3 | L3]; [| lia]. simpl. destruct (Z.leb_spec b 239) as [L4 | L4]; simpl.
    + destruct p as [| b1 [| b2 p]]; try (simpl in E3; lia). simpl. rewrite ?drop_0.
      set (lower := if b =? 224 then 160 else 128). assert (Hlow : 128 <= lower /\ (b = 224 -> lower = 160)) by (unfold lower; destruct (Z.eqb_spec b 224); lia).
      destruct (Z.leb_spec lower b1) as [M1 | M1], (Z.leb_spec b1 191) as [M2 | M2]; simpl; try done.
      destruct (Z.leb_spec 128 b2) as [N1 | N1], (Z.leb_spec b2 191) as [N2 | N2]; simpl; try done.
      rewrite !Z.shiftl_mul_pow2 by lia. do 2 eexists. split; [done |].
      apply (dec_ok _ _ [224 + (b - 224); 128 + (b1 - 128); 128 + (b2 - 128)]); [replace (_ + _ + _) with (64 * (64 * (b - 224) + (b1 - 128)) + (b2 - 128)) by lia; constructor; lia |].
      simpl. repeat f_equal; lia.
    + destruct (Z.leb_spec 240 b) as [L5 | L5]; [| lia]. simpl. destruct (Z.leb_spec b 244) as [L6 | L6]; simpl; [| done].
      destruct p as [| b1 [| b2 [| b3 p]]]; try (simpl in E4; lia). simpl. rewrite ?drop_0.
      set (lower := if b =? 240 then 144 else 128). assert (Hlow : 128 <= lower /\ (b = 240 -> lower = 144)) by (unfold lower; destruct (Z.eqb_spec b 240); lia).
      set (upper := if b =? 244 then 143 else 191). assert (Hup : upper <= 191 /\ (b = 244 -> upper = 143)) by (unfold upper; destruct (Z.eqb_spec b 244); lia).
      destruct (Z.leb_spec lower b1) as [M1 | M1], (Z.leb_spec b1 upper) as [M2 | M2]; simpl; try done.
      destruct (Z.leb_spec 128 b2) as [N1 | N1], (Z.leb_spec b2 191) as [N2 | N2]; simpl; try done.
      destruct (Z.leb_spec 128 b3) as [O1 | O1], (Z.leb_spec b3 191) as [O2 | O2]; simpl; try done.
      rewrite !Z.shiftl_mul_pow2 by lia. do 2 eexists. split; [done |].
      apply (dec_ok _ _ [240 + (b - 240); 128 + (b1 - 128); 128 + (b2 - 128); 128 + (b3 - 128)]);
        [replace (_ + _ + _ + _) with (64 * (64 * (64 * (b - 240) + (b1 - 128)) + (b2 - 128)) + (b3 - 128)) by lia; constructor; lia |].
      simpl. repeat f_equal; lia.
Qed.

Lemma utf8_decode_len_spec p :
  p <> [] -> bytes_ok p -> exists c rest, utf8_decode_len p (lenZ p) = Done (c, rest) /\ decoded p c rest.
Proof.
  intros Hne Hb. destruct p as [| b q]; [done |]. unfold utf8_decode_len, fetch. pose proof (lenZ_nonneg q) as Hq.
  assert (Hn : lenZ (b :: q) = lenZ q + 1) by (unfold lenZ; simpl; lia). rewrite Hn. cbn [lookup list_lookup run_bind].
  destruct (Z.eqb_spec (lenZ q + 1) 0); [lia |].
  destruct ((lenZ q + 1 =? 1) && _ || _ || _) eqn:E.
  - exists REPLACEMENT, q. split; [done |]. apply (dec_error _ b); [done |].
    rewrite !orb_true_iff, !andb_true_iff, !negb_true_iff, !Z.ltb_ge in E. lia.
  - apply utf8_decode_spec; [done | done |]. rewrite !orb_false_iff, !andb_false_iff, !negb_false_iff, !Z.ltb_lt, !Z.eqb_neq in E.
    intros b' Hb'. injection Hb' as <-. unfold lenZ in E. cbn [length]. lia.
Qed.

Lemma decoded_facts p c rest : decoded p c rest -> 0 <= c < MAX_CODE /\ (length rest < length p)%nat.
Proof.
  intros [c' l r Hs -> | b r -> _].
  - split; [by apply (shape_encode c' l) |]. rewrite length_app. destruct Hs; simpl; lia.
  - split; [unfold MAX_CODE, REPLACEMENT; lia | simpl; lia].
Qed.

(** * UTF-8: whole buffers

    The reference codec on lists (code points of UTF-16 units, units of code
    points, the reading of a byte sequence) and what the buffer functions compute
    in its terms. *)

(** ** The reference codec *)

(** The code points of 16-bit units: a surrogate pair is one, a lone surrogate
    stands for itself. *)
Fixpoint codes (l : list Z) : list Z :=
  match l with
  | [] => []
  | c :: l' =>
      match l' with
      | d :: l'' => if is_hi_surrogate c && is_lo_surrogate d then from_surrogate c d :: codes l'' else c :: codes l'
      | [] => [c]
      end
  end.

(** The units of a code point. *)
Definition to_units (c : Z) : list Z := if 65535 <? c then [get_hi_surrogate c; get_lo_surrogate c] else [c].
Definition units (cs : list Z) : list Z := cs ≫= to_units.

Definition encoding (cs : list Z) : list Z := cs ≫= utf8_encode.

(** The bytes of the code points that fit in [room] with a terminator. *)
Fixpoint fitting (room : Z) (cs : list Z) : list Z :=
  match cs with
  | [] => []
  | c :: cs =>
      let l := utf8_encode c in
      if lenZ l <? room then l ++ fitting (room - lenZ l) cs else []
  end.

(** [l] over the start of [dest], cut where [dest] ends. *)
Definition overwrite (dest l : list Z) : list Z := take (length dest) l ++ drop (length l) dest.

(** How one character is read off bytes: a code point, or [None] for a byte at
    which no encoded code point starts. *)
Inductive one_char : list Z -> option Z -> list Z -> Prop :=
  | one_code c rest : 0 <= c < MAX_CODE -> one_char (utf8_encode c ++ rest) (Some c) rest
  | one_bad b rest : (forall c r, 0 <= c < MAX_CODE -> b :: rest <> utf8_encode c ++ r) -> one_char (b :: rest) None rest.

Inductive text : list Z -> list (option Z) -> Prop :=
  | text_nil : text [] []
  | text_cons p o rest os : one_char p o rest -> text rest os -> text p (o :: os).

(** A byte that is not part of a code point reads as 0xFFFD. *)
Definition code_of (o : option Z) : Z := default REPLACEMENT o.
Definition text_units (os : list (option Z)) : list Z := units (code_of <$> os).

Definition units16 (l : list Z) : Prop := Forall (fun c => 0 <= c < 65536) l.

(** ** Surrogates *)

Lemma shiftr_eq c k q : 0 <= k -> (Z.shiftr c k =? q) = (q * 2 ^ k <=? c) && (c <? (q + 1) * 2 ^ k).
Proof.
  intros Hk. rewrite Z.shiftr_div_pow2 by done. assert (0 < 2 ^ k) by lia.
  pose proof (Z_div_mod_eq_full c (2 ^ k)). pose proof (Z.mod_pos_bound c (2 ^ k)).
  destruct (Z.eqb_spec (c / 2 ^ k) q), (Z.leb_spec (q * 2 ^ k) c), (Z.ltb_spec c ((q + 1) * 2 ^ k)); simpl; nia.
Qed.

Lemma is_hi_range c : is_hi_surrogate c = (55296 <=? c) && (c <? 56320).
Proof. unfold is_hi_surrogate. change (Z.shiftr 55296 10) with 54. by rewrite shiftr_eq by lia. Qed.

Lemma is_lo_range c : is_lo_surrogate c = (56320 <=? c) && (c <? 57344).
Proof. unfold is_lo_surrogate. change (Z.shiftr 56320 10) with 55. by rewrite shiftr_eq by lia. Qed.

Lemma low10 c : Z.land c 1023 = c mod 1024.
Proof. change 1023 with (Z.ones 10). by rewrite Z.land_ones by lia. Qed.

Lemma from_surrogate_eq hi lo :
  is_hi_surrogate hi = true -> is_lo_surrogate lo = true ->
  from_surrogate hi lo = 65536 + 1024 * (hi - 55296) + (lo - 56320).
Proof.
  rewrite is_hi_range, is_lo_range, !andb_true_iff, !Z.leb_le, !Z.ltb_lt. intros Hh Hl. unfold from_surrogate. rewrite !low10.
  replace (hi mod 1024) with (hi - 55296) by (apply (Z.mod_unique _ _ 54); lia).
  replace (lo mod 1024) with (lo - 56320) by (apply (Z.mod_unique _ _ 55); lia). lia.
Qed.

Lemma surrogates_eq c :
  65536 <= c < MAX_CODE ->
  get_hi_surrogate c = 55296 + (c - 65536) / 1024 /\ get_lo_surrogate c = 56320 + (c - 65536) mod 1024.
Proof.
  intros Hc. unfold get_hi_surrogate, get_lo_surrogate. change (Z.shiftr 65536 10) with 64. rewrite low10. split.
  - rewrite Z.shiftr_div_pow2 by lia. change (2 ^ 10) with 1024. replace c with (c - 65536 + 64 * 1024) at 1 by lia. rewrite Z.div_add by lia. lia.
  - change 56320 with (55 * 2 ^ 10) at 1. rewrite lor_plus by (pose proof (Z.mod_pos_bound c 1024); lia).
    replace c with (c - 65536 + 64 * 1024) at 1 by lia. rewrite Z.mod_add by lia. lia.
Qed.

(** A pair is recovered from its code point. *)
Lemma to_units_from hi lo :
  is_hi_surrogate hi = true -> is_lo_surrogate lo = true -> to_units (from_surrogate hi lo) = [hi; lo].
Proof.
  intros Hh Hl. pose proof (from_surrogate_eq hi lo Hh Hl) as E. set (c := from_surrogate hi lo) in *.
  rewrite is_hi_range, andb_true_iff, Z.leb_le, Z.ltb_lt in Hh. rewrite is_lo_range, andb_true_iff, Z.leb_le, Z.ltb_lt in Hl.
  destruct (surrogates_eq c) as [E1 E2]; [unfold MAX_CODE; lia |]. unfold to_units. destruct (Z.ltb_spec 65535 c); [| lia].
  assert (Q : (c - 65536) / 1024 = hi - 55296) by (symmetry; apply (Z.div_unique _ _ _ (lo - 56320)); lia).
  assert (R : (c - 65536) mod 1024 = lo - 56320) by (symmetry; apply (Z.mod_unique _ _ (hi - 55296)); lia).
  rewrite E1, E2, Q, R. repeat f_equal; lia.
Qed.

Lemma to_units16 c : 0 <= c < MAX_CODE -> units16 (to_units c).
Proof.
  intros Hc. unfold to_units. destruct (Z.ltb_spec 65535 c) as [L | L]; [| repeat constructor; lia].
  destruct (surrogates_eq c) as [-> ->]; [lia |]. unfold MAX_CODE in Hc.
  pose proof (Z.mod_pos_bound (c - 65536) 1024). pose proof (Z_div_mod_eq_full (c - 65536) 1024). repeat constructor; lia.
Qed.

(** ** Units to code points *)

(** The first code point, the units it takes, and the rest. *)
Lemma codes_view c l :
  units16 (c :: l) ->
  exists k rest,
    codes (c :: l) = k :: codes rest /\ c :: l = to_units k ++ rest /\ 0 <= k < MAX_CODE /\ units16 rest /\
    lenZ (to_units k) = 1 + b2z (65535 <? k).
Proof.
  intros H. inversion H as [| ? ? Hc Hl]; subst. unfold MAX_CODE.
  assert (Hone : exists k rest, c :: codes l = k :: codes rest /\ c :: l = to_units k ++ rest /\ 0 <= k < 1114112 /\ units16 rest /\
    lenZ (to_units k) = 1 + b2z (65535 <? k)).
  { exists c, l. unfold to_units. destruct (Z.ltb_spec 65535 c); [lia |]. repeat split; try done; lia. }
  destruct l as [| d l]; [exact Hone |]. simpl codes.
  destruct (is_hi_surrogate c) eqn:Eh; [| exact Hone]. destruct (is_lo_surrogate d) eqn:El; [| exact Hone]. simpl andb.
  inversion Hl as [| ? ? Hd Hl']; subst. exists (from_surrogate c d), l. rewrite (to_units_from c d Eh El).
  pose proof (from_surrogate_eq c d Eh El) as E. rewrite is_hi_range, andb_true_iff, Z.leb_le, Z.ltb_lt in Eh. rewrite is_lo_range, andb_true_iff, Z.leb_le, Z.ltb_lt in El.
  destruct (Z.ltb_spec 65535 (from_surrogate c d)); [| lia]. repeat split; try done; lia.
Qed.

Lemma to_units_nonempty k : to_units k <> [].
Proof. unfold to_units. by destruct (65535 <? k). Qed.

(** Induction along the code points of a list of units. *)
Lemma codes_ind (P : list Z -> Prop) :
  P [] ->
  (forall c l k rest, c :: l = to_units k ++ rest -> codes (c :: l) = k :: codes rest -> 0 <= k < MAX_CODE -> units16 rest ->
     lenZ (to_units k) = 1 + b2z (65535 <? k) -> P rest -> P (c :: l)) ->
  forall l, units16 l -> P l.
Proof.
  intros H0 HS l. assert (G : forall n l, (length l < n)%nat -> units16 l -> P l); [| by apply (G (S (length l))); lia].
  clear l. induction n as [| n IH]; intros l Hn Hl; [lia |]. destruct l as [| c l]; [done |].
  destruct (codes_view c l Hl) as (k & rest & E1 & E2 & E3 & E4 & E5). apply (HS c l k rest); try done. apply IH; [| done].
  assert (El : length (c :: l) = length (to_units k ++ rest)) by (by rewrite E2). rewrite length_app in El. pose proof (to_units_nonempty k).
  destruct (to_units k); [done |]. simpl in *. lia.
Qed.

Lemma units_codes l : units16 l -> units (codes l) = l.
Proof.
  revert l. apply codes_ind; [done |]. intros c l k rest E1 E2 _ _ _ IH. rewrite E2. unfold units in *. by rewrite bind_cons, IH, E1.
Qed.

Lemma codes_range l : units16 l -> Forall (fun k => 0 <= k < MAX_CODE) (codes l).
Proof. revert l. apply codes_ind; [constructor |]. intros c l k rest _ -> Hk _ _ IH. by constructor. Qed.

(** [next_code] at the start of [c :: l], read inside [pre ++ c :: l]. *)
Lemma next_code_spec pre c l k rest :
  units16 (c :: l) -> c :: l = to_units k ++ rest -> codes (c :: l) = k :: codes rest ->
  next_code (pre ++ c :: l) (lenZ pre) = Done (k, lenZ pre + lenZ (to_units k)).
Proof.
  intros Hu E1 E2. unfold next_code, fetch.
  assert (L0 : (pre ++ c :: l) !! Z.to_nat (lenZ pre) = Some c) by (unfold lenZ; rewrite Nat2Z.id; apply list_lookup_middle; done).
  rewrite L0. cbn [run_bind].
  assert (Hone : codes (c :: l) = c :: codes l -> Done (c, lenZ pre + 1) = Done (k, lenZ pre + lenZ (to_units k))).
  { intros E. rewrite E in E2. injection E2 as <- _. unfold to_units. inversion Hu; subst. destruct (Z.ltb_spec 65535 c); [lia |]. done. }
  destruct (Z.ltb_spec c 128) as [L | L].
  { apply Hone. destruct l as [| d l]; [done |]. simpl. rewrite is_hi_range. destruct (Z.leb_spec 55296 c); [lia | done]. }
  destruct l as [| d l].
  { replace (lenZ pre + 1 <? lenZ (pre ++ [c])) with false by (symmetry; apply Z.ltb_ge; rewrite lenZ_app; unfold lenZ; simpl; lia).
    rewrite andb_false_r. by apply Hone. }
  replace (lenZ pre + 1 <? lenZ (pre ++ c :: d :: l)) with true by (symmetry; apply Z.ltb_lt; rewrite lenZ_app, !lenZ_cons; pose proof (lenZ_nonneg l); lia).
  rewrite andb_true_r. assert (L1 : (pre ++ c :: d :: l) !! Z.to_nat (lenZ pre + 1) = Some d).
  { replace (Z.to_nat (lenZ pre + 1)) with (length pre + 1)%nat by (unfold lenZ; lia). by rewrite lookup_app_r, Nat.add_comm, Nat.add_sub by lia. }
  rewrite L1. simpl in E2, Hone. destruct (is_hi_surrogate c) eqn:Eh; [| by apply Hone]. cbn [run_bind].
  destruct (is_lo_surrogate d) eqn:El; [| by apply Hone]. simpl in E2. injection E2 as <- _. rewrite (to_units_from c d Eh El).
  rewrite !lenZ_cons. do 2 f_equal. unfold lenZ. simpl. lia.
Qed.

(** ** Writing into a destination *)

Lemma put_here pre x room c : put_at (pre ++ x :: room) (lenZ pre) c = Done (pre ++ c :: room).
Proof.
  unfold put_at. rewrite lenZ_app, lenZ_cons. pose proof (lenZ_nonneg pre). pose proof (lenZ_nonneg room).
  destruct (Z.leb_spec 0 (lenZ pre)), (Z.ltb_spec (lenZ pre) (lenZ pre + (1 + lenZ room))); simpl; try lia.
  f_equal. unfold setZ, lenZ. rewrite Nat2Z.id. replace (length pre) with (length pre + 0)%nat by lia. by rewrite insert_app_r.
Qed.

Lemma lenZ_snoc {A} (l : list A) x : lenZ l + 1 = lenZ (l ++ [x]).
Proof. by rewrite lenZ_app. Qed.

Lemma put_all_here pre room l :
  (length l <= length room)%nat -> put_all (pre ++ room) (lenZ pre) l = Done ((pre ++ l) ++ drop (length l) room).
Proof.
  revert pre room. induction l as [| b l IH]; intros pre room Hl; [by rewrite app_nil_r |]. destruct room as [| x room]; simpl in Hl; [lia |].
  cbn [put_all]. rewrite put_here. cbn [run_bind]. rewrite (lenZ_snoc pre b), cons_middle, app_assoc, IH by lia.
  simpl. by rewrite <- !app_assoc.
Qed.

Lemma overwrite_app room l l' :
  (length l <= length room)%nat -> overwrite room (l ++ l') = l ++ overwrite (drop (length l) room) l'.
Proof.
  intros Hl. unfold overwrite. rewrite length_drop, drop_drop, length_app, take_app, take_ge by done. by rewrite <- app_assoc.
Qed.

Lemma overwrite_nil l : overwrite [] l = [].
Proof. unfold overwrite. by rewrite drop_nil. Qed.

Lemma terminate_here pre room : terminate (pre ++ room) (lenZ pre) = Done (pre ++ overwrite room [0]).
Proof.
  unfold terminate, store_at. rewrite lenZ_app. destruct room as [| x room].
  - rewrite overwrite_nil. destruct (Z.ltb_spec (lenZ pre) (lenZ pre + lenZ (@nil Z))) as [L | L]; [unfold lenZ in L; simpl in L; lia | done].
  - rewrite lenZ_cons. pose proof (lenZ_nonneg room). destruct (Z.ltb_spec (lenZ pre) (lenZ pre + (1 + lenZ room))); [| lia]. rewrite put_here. unfold overwrite. simpl. by rewrite take_nil, drop_0.
Qed.

(** ** Encoding *)

Lemma encode_len k : 0 <= k < MAX_CODE -> (if k <? 128 then 1 else utf8_encode_len k) = lenZ (utf8_encode k) /\ utf8_encode_len k = lenZ (utf8_encode k).
Proof.
  intros Hk. pose proof (shape_length k _ (encode_shape k Hk)) as E. split; [| done]. rewrite <- E. unfold utf8_encode_len. by destruct (k <? 128).
Qed.

Lemma encode_nonempty k : utf8_encode k <> [].
Proof. unfold utf8_encode. by repeat case_match. Qed.

(** What [src] has from [lenZ pre] on, when a code point is taken. *)
Lemma next_src pre c l k rest : c :: l = to_units k ++ rest -> pre ++ c :: l = (pre ++ to_units k) ++ rest.
Proof. intros ->. by rewrite app_assoc. Qed.

Lemma units16_cons c l k rest : c :: l = to_units k ++ rest -> 0 <= k < MAX_CODE -> units16 rest -> units16 (c :: l).
Proof. intros -> Hk Hr. apply Forall_app. split; [by apply to_units16 | done]. Qed.

Lemma shorter c l k rest : c :: l = to_units k ++ rest -> (length rest <= length l)%nat.
Proof.
  intros E. pose proof (to_units_nonempty k). assert (El : length (c :: l) = length (to_units k ++ rest)) by (by rewrite E).
  destruct (to_units k); [done |]. simpl in El. rewrite length_app in El. lia.
Qed.

Lemma before_end pre (c : Z) l : (lenZ pre <? lenZ (pre ++ c :: l)) = true.
Proof. apply Z.ltb_lt. rewrite lenZ_app, lenZ_cons. pose proof (lenZ_nonneg l). lia. Qed.

Lemma at_end (pre : list Z) : (lenZ pre <? lenZ (pre ++ [])) = false.
Proof. apply Z.ltb_ge. rewrite app_nil_r. lia. Qed.

Lemma count_loop_spec l :
  units16 l -> forall pre fuel j, (length l < fuel)%nat -> count_loop fuel (pre ++ l) (lenZ pre) j = Done (j + lenZ (encoding (codes l))).
Proof.
  revert l. apply (codes_ind (fun l => forall pre fuel j, (length l < fuel)%nat -> count_loop fuel (pre ++ l) (lenZ pre) j = Done (j + lenZ (encoding (codes l))))).
  - intros pre fuel j Hf. destruct fuel as [| fuel]; [simpl in Hf; lia |]. cbn [count_loop]. rewrite at_end. simpl. by rewrite Z.add_0_r.
  - intros c l k rest E1 E2 Hk Hr _ IH pre fuel j Hf. destruct fuel as [| fuel]; [simpl in Hf; lia |]. cbn [count_loop]. rewrite before_end.
    rewrite (next_code_spec pre c l k rest) by (done || by apply (units16_cons c l k rest)). cbn [run_bind].
    rewrite (next_src pre c l k rest E1), <- lenZ_app. pose proof (shorter c l k rest E1). simpl in Hf. rewrite IH by lia.
    rewrite E2. unfold encoding. rewrite bind_cons, lenZ_app. destruct (encode_len k Hk) as [A B]. destruct (k <? 128); f_equal; lia.
Qed.

Lemma encode16_loop_spec l :
  units16 l -> forall pre fuel pd room, (length l < fuel)%nat ->
  encode16_loop fuel (pre ++ l) (pd ++ room) (lenZ pre) (lenZ pd)
  = Done (pd ++ overwrite room (fitting (lenZ room) (codes l) ++ [0]), lenZ pd + lenZ (encoding (codes l))).
Proof.
  revert l. apply (codes_ind (fun l => forall pre fuel pd room, (length l < fuel)%nat ->
    encode16_loop fuel (pre ++ l) (pd ++ room) (lenZ pre) (lenZ pd)
    = Done (pd ++ overwrite room (fitting (lenZ room) (codes l) ++ [0]), lenZ pd + lenZ (encoding (codes l))))).
  - intros pre fuel pd room Hf. destruct fuel as [| fuel]; [simpl in Hf; lia |]. cbn [encode16_loop]. rewrite at_end, terminate_here. simpl.
    by rewrite Z.add_0_r.
  - intros c l k rest E1 E2 Hk Hr El IH pre fuel pd room Hf. destruct fuel as [| fuel]; [simpl in Hf; lia |]. cbn [encode16_loop]. rewrite before_end.
    assert (Hu : units16 (c :: l)) by (by apply (units16_cons c l k rest)).
    rewrite (next_code_spec pre c l k rest) by done. cbn [run_bind]. destruct (encode_len k Hk) as [A B]. rewrite A, lenZ_app.
    destruct (Z.leb_spec (lenZ pd + lenZ room) (lenZ pd + lenZ (utf8_encode k))) as [L | L].
    + replace (lenZ pre + lenZ (to_units k) - (1 + b2z (65535 <? k))) with (lenZ pre) by lia.
      rewrite terminate_here. cbn [run_bind]. rewrite count_loop_spec by done. cbn [run_bind]. do 3 f_equal. rewrite E2. simpl.
      destruct (Z.ltb_spec (lenZ (utf8_encode k)) (lenZ room)); [lia | done].
    + pose proof (shorter c l k rest E1). simpl in Hf.
      assert (G : (let* dest := put_all (pd ++ room) (lenZ pd) (utf8_encode k) in
        encode16_loop fuel (pre ++ c :: l) dest (lenZ pre + lenZ (to_units k)) (lenZ pd + lenZ (utf8_encode k))) =
        Done (pd ++ overwrite room (fitting (lenZ room) (codes (c :: l)) ++ [0]), lenZ pd + lenZ (encoding (codes (c :: l))))).
      { rewrite put_all_here by (unfold lenZ in L; lia). cbn [run_bind]. rewrite (next_src pre c l k rest E1), <- !lenZ_app, IH by lia.
        rewrite E2. unfold encoding. rewrite bind_cons, !lenZ_app. simpl fitting. destruct (Z.ltb_spec (lenZ (utf8_encode k)) (lenZ room)); [| lia].
        rewrite <- app_assoc, <- (app_assoc (utf8_encode k)), (overwrite_app room (utf8_encode k)) by (unfold lenZ in L; lia). do 2 f_equal; [| lia].
        replace (lenZ (drop (length (utf8_encode k)) room)) with (lenZ room - lenZ (utf8_encode k)); [done |].
        unfold lenZ in *. rewrite length_drop. lia. }
      destruct (Z.ltb_spec k 128) as [L1 | L1]; [| exact G]. rewrite <- G.
      assert (E8 : utf8_encode k = [u8 k]) by (unfold utf8_encode; by destruct (Z.ltb_spec k 128); [| lia]). rewrite E8. cbn [put_all].
      by destruct (put_at (pd ++ room) (lenZ pd) (u8 k)).
Qed.

(** The result of the encoder: what fits, a terminator, and the full length. *)
Lemma encode16_result dest src :
  units16 src ->
  utf8_encode_buf16 dest src = Done (overwrite dest (fitting (lenZ dest) (codes src) ++ [0]), lenZ (encoding (codes src))).
Proof. intros Hs. unfold utf8_encode_buf16. exact (encode16_loop_spec src Hs [] (S (length src)) [] dest ltac:(lia)). Qed.

(** ** 8-bit units *)

Definition units8 (l : list Z) : Prop := Forall (fun c => 0 <= c < 256) l.

Lemma units8_16 l : units8 l -> units16 l.
Proof. apply Forall_impl. intros c. simpl. lia. Qed.

Lemma codes_narrow l : units8 l -> codes l = l.
Proof.
  induction l as [| c l IH]; [done |]. intros H. inversion H as [| ? ? Hc Hl]; subst. destruct l as [| d l]; [done |].
  change (codes (c :: d :: l)) with (if is_hi_surrogate c && is_lo_surrogate d then from_surrogate c d :: codes l else c :: codes (d :: l)).
  rewrite is_hi_range. destruct (Z.leb_spec 55296 c); [lia |]. simpl andb. by rewrite IH.
Qed.

Lemma encode_narrow c :
  0 <= c < 256 -> utf8_encode c = if c <? 128 then [u8 c] else [u8 (Z.lor (Z.shiftr c 6) 192); u8 (Z.lor (Z.land c 63) 128)].
Proof. intros Hc. unfold utf8_encode. by destruct (Z.ltb_spec c 2048); [| lia]. Qed.

Lemma count8_spec l j : units8 l -> count8 l j = j + lenZ (encoding l).
Proof.
  intros H. revert j. induction H as [| c l Hc _ IH]; intros j; [unfold lenZ; simpl; lia |]. unfold count8 in *. simpl foldl. rewrite IH.
  unfold encoding. rewrite bind_cons, lenZ_app, encode_narrow by done. destruct (Z.leb_spec 128 c), (Z.ltb_spec c 128); unfold lenZ; simpl; lia.
Qed.

(** One character of the 8-bit encoder, as a block of bytes. *)
Lemma encode8_step c src dest j :
  0 <= c < 256 ->
  encode8_loop (c :: src) dest j =
    if lenZ dest <=? j + lenZ (utf8_encode c) then let* dest := terminate dest j in Done (dest, count8 (c :: src) j)
    else let* dest := put_all dest j (utf8_encode c) in encode8_loop src dest (j + lenZ (utf8_encode c)).
Proof.
  intros Hc. cbn [encode8_loop]. rewrite (encode_narrow c Hc). destruct (c <? 128).
  - change (lenZ [u8 c]) with 1. destruct (lenZ dest <=? j + 1); [done |]. cbn [put_all]. by destruct (put_at dest j (u8 c)).
  - change (lenZ [_; _]) with 2. destruct (lenZ dest <=? j + 2); [done |]. cbn [put_all]. destruct (put_at dest j _); [| done | done]. cbn [run_bind].
    by destruct (put_at _ (j + 1) _).
Qed.

Lemma encode8_loop_spec l :
  units8 l -> forall pd room,
  encode8_loop l (pd ++ room) (lenZ pd) = Done (pd ++ overwrite room (fitting (lenZ room) l ++ [0]), lenZ pd + lenZ (encoding l)).
Proof.
  intros H. induction H as [| c l Hc Hl IH]; intros pd room.
  { cbn [encode8_loop]. rewrite terminate_here. simpl. by rewrite Z.add_0_r. }
  rewrite encode8_step, lenZ_app by done. simpl fitting.
  destruct (Z.leb_spec (lenZ pd + lenZ room) (lenZ pd + lenZ (utf8_encode c))), (Z.ltb_spec (lenZ (utf8_encode c)) (lenZ room)) as [L | L]; try lia.
  - rewrite terminate_here, count8_spec by (by constructor). done.
  - rewrite put_all_here by (unfold lenZ in L; lia). cbn [run_bind]. rewrite <- lenZ_app, IH. unfold encoding.
    rewrite bind_cons, !lenZ_app, <- app_assoc, <- (app_assoc (utf8_encode c)), (overwrite_app room (utf8_encode c)) by (unfold lenZ in L; lia).
    replace (lenZ (drop (length (utf8_encode c)) room)) with (lenZ room - lenZ (utf8_encode c)) by (unfold lenZ in *; rewrite length_drop; lia).
    do 2 f_equal. lia.
Qed.

(** The two encoders agree on 8-bit units. *)
Lemma encode8_is_encode16 dest src : units8 src -> utf8_encode_buf8 dest src = utf8_encode_buf16 dest src.
Proof.
  intros H. rewrite encode16_result, codes_narrow by (done || by apply units8_16). unfold utf8_encode_buf8.
  exact (encode8_loop_spec src H [] dest).
Qed.

(** * UTF-8: reading bytes

    The decoders and the scanner compute the units of the one reading [text] of
    their source. *)

Lemma decode_len_code c rest :
  0 <= c < MAX_CODE -> utf8_decode_len (utf8_encode c ++ rest) (lenZ (utf8_encode c ++ rest)) = Done (c, rest).
Proof. intros Hc. apply decode_len_shape. by apply encode_shape. Qed.

Lemma encode_ascii c : 0 <= c < 128 -> utf8_encode c = [c].
Proof. intros Hc. unfold utf8_encode. destruct (Z.ltb_spec c 128); [| lia]. unfold u8. by rewrite Z.mod_small by lia. Qed.

(** The first byte of an encoding tells its length. *)
Lemma encode_head c :
  0 <= c < MAX_CODE ->
  exists b l, utf8_encode c = b :: l /\ 0 <= b < 256 /\ bytes_ok l /\ (b < 128 -> c = b /\ l = []) /\ (128 <= b -> l <> [] /\ 128 <= c).
Proof.
  intros Hc. pose proof (encode_shape c Hc) as Hs. destruct Hs; do 2 eexists; (split; [done |]); repeat split; try lia; try done;
    repeat constructor; lia.
Qed.

(** [utf8_decode_len] reads one character. *)
Lemma decode_len_reads p :
  p <> [] -> bytes_ok p -> exists o rest, utf8_decode_len p (lenZ p) = Done (code_of o, rest) /\ one_char p o rest.
Proof.
  intros Hne Hb. destruct (utf8_decode_len_spec p Hne Hb) as (c & rest & E & Hd). destruct Hd as [c l r Hs -> | b r -> Hb128].
  - destruct (shape_encode c l Hs) as [Hc ->]. exists (Some c), r. split; [done |]. by constructor.
  - exists None, r. split; [done |]. constructor. intros c r' Hc Ep. rewrite Ep, decode_len_code in E by done. injection E as _ ->.
    destruct (encode_head c Hc) as (b' & l & El & _ & _ & _ & H128). rewrite El in Ep. injection Ep as -> Ep.
    destruct (H128 Hb128) as [Hl _]. assert (length r = length (l ++ r)) by (by rewrite <- Ep). rewrite length_app in *. destruct l; [done |]. simpl in *. lia.
Qed.

Lemma one_char_functional p o rest o' rest' : one_char p o rest -> one_char p o' rest' -> o = o' /\ rest = rest'.
Proof.
  intros H1 H2. destruct H1 as [c rest Hc | b rest Hno].
  - inversion H2 as [c' r' Hc' E | b' r' Hno' E]; subst.
    + pose proof (decode_len_code c rest Hc) as D. rewrite <- E, decode_len_code in D by done. by injection D as -> ->.
    + exfalso. by apply (Hno' c rest Hc).
  - inversion H2 as [c' r' Hc' E | b' r' Hno' E]; subst; [| done]. exfalso. symmetry in E. by apply (Hno c' rest' Hc').
Qed.

(** Bytes have one reading. *)
Lemma text_functional p os os' : text p os -> text p os' -> os = os'.
Proof.
  intros H. revert os'. induction H as [| p o rest os Hp Ht IH]; intros os' H'.
  - inversion H' as [| ? o rest os Hp Ht]; subst; [done |]. inversion Hp as [c r Hc E |]. by destruct (encode_nonempty c); apply app_eq_nil in E as [-> _].
  - inversion H' as [| ? o' rest' os'' Hp' Ht']; subst.
    + inversion Hp as [c r Hc E |]. by destruct (encode_nonempty c); apply app_eq_nil in E as [-> _].
    + destruct (one_char_functional _ _ _ _ _ Hp Hp') as [<- <-]. f_equal. by apply IH.
Qed.

(** Facts of one character: what is left, the range, and when a byte is ASCII. *)
Lemma one_char_facts p o rest :
  one_char p o rest -> bytes_ok p ->
  exists b q, p = b :: q /\ 0 <= b < 256 /\ bytes_ok rest /\ (length rest <= length q)%nat /\ 0 <= code_of o < MAX_CODE /\
    (b < 128 -> o = Some b /\ rest = q) /\ (128 <= b -> 128 <= code_of o /\ (rest = q <-> o = None)).
Proof.
  intros Hp Hb. unfold bytes_ok in *. destruct Hp as [c rest Hc | b rest Hno].
  - destruct (encode_head c Hc) as (b & l & E & Hb0 & _ & Ha & H128). rewrite E in *. exists b, (l ++ rest).
    apply (Forall_app _ (b :: l)) in Hb as [_ Hr]. rewrite length_app.
    split; [done |]. split; [done |]. split; [done |]. split; [lia |]. split; [exact Hc |]. split.
    + intros L. by destruct (Ha L) as [-> ->].
    + intros L. destruct (H128 L) as [Hl Hc128]. split; [done |]. split; [| done]. intros E'. exfalso.
      assert (length rest = length (l ++ rest)) by (by rewrite <- E'). rewrite length_app in *. destruct l; [done |]. simpl in *. lia.
  - exists b, rest. inversion Hb; subst.
    split; [done |]. split; [done |]. split; [done |]. split; [lia |]. split; [unfold code_of, REPLACEMENT, MAX_CODE; simpl; lia |].
    split; [| intros _; split; [unfold code_of, REPLACEMENT; simpl; lia | done]]. intros L. exfalso. apply (Hno b rest); [unfold MAX_CODE; lia |]. by rewrite encode_ascii by lia.
Qed.

Lemma text_total p : bytes_ok p -> exists os, text p os.
Proof.
  assert (G : forall n p, (length p < n)%nat -> bytes_ok p -> exists os, text p os); [| by apply (G (S (length p))); lia].
  clear p. induction n as [| n IH]; intros p Hn Hb; [lia |]. destruct p as [| b p]; [exists []; constructor |].
  destruct (decode_len_reads (b :: p)) as (o & rest & _ & Hp); [done | done |].
  destruct (one_char_facts _ _ _ Hp Hb) as (b' & q & E & _ & Hr & Hl & _). injection E as <- <-. simpl in Hn.
  destruct (IH rest) as [os Hos]; [lia | done |]. exists (o :: os). by apply (text_cons _ _ rest).
Qed.

(** The bytes of code points read as these code points. *)
Lemma text_encoding cs : Forall (fun c => 0 <= c < MAX_CODE) cs -> text (encoding cs) (Some <$> cs).
Proof. induction 1 as [| c cs Hc _ IH]; [constructor |]. unfold encoding. rewrite bind_cons. eapply text_cons; [by constructor |]. exact IH. Qed.

Lemma bytes_encoding cs : Forall (fun c => 0 <= c < MAX_CODE) cs -> bytes_ok (encoding cs).
Proof.
  induction 1 as [| c cs Hc _ IH]; [constructor |]. unfold encoding. rewrite bind_cons. apply Forall_app. split; [| done].
  destruct (encode_head c Hc) as (b & l & -> & Hb & Hl & _). by constructor.
Qed.

(** ** Stores that stop at the end of the destination *)

(** [us] from position [i] on, cut where [dest] ends. *)
Definition over (dest : list Z) (i : nat) (us : list Z) : list Z := take i dest ++ overwrite (drop i dest) us.

Lemma over_nil dest i : over dest i [] = dest.
Proof. unfold over, overwrite. rewrite take_nil. simpl. rewrite drop_0. apply take_drop. Qed.

Lemma over_0 dest us : over dest 0 us = overwrite dest us.
Proof. unfold over. by rewrite drop_0. Qed.

Lemma over_end dest i us : (length dest <= i)%nat -> over dest i us = dest.
Proof. intros H. unfold over. by rewrite take_ge, drop_ge, overwrite_nil, app_nil_r by done. Qed.

Lemma over_here pre x room u us : over (pre ++ x :: room) (length pre) (u :: us) = pre ++ u :: overwrite room us.
Proof. unfold over. rewrite take_app_length, drop_app_length. unfold overwrite. done. Qed.

Lemma split_at {A} (l : list A) i : (i < length l)%nat -> exists pre x room, l = pre ++ x :: room /\ length pre = i.
Proof.
  intros L. destruct (lookup_lt_is_Some_2 l i L) as [x Hx]. exists (take i l), x, (drop (S i) l).
  split; [by rewrite take_drop_middle | rewrite length_take; lia].
Qed.

Lemma store_over dest (i : nat) u : store_at dest (Z.of_nat i) u = Done (over dest i [u]).
Proof.
  unfold store_at. destruct (Z.ltb_spec (Z.of_nat i) (lenZ dest)) as [L | L]; [| by rewrite over_end by (unfold lenZ in L; lia)].
  destruct (split_at dest i) as (pre & x & room & -> & <-); [unfold lenZ in L; lia |]. rewrite over_here. fold (lenZ pre). rewrite put_here.
  unfold overwrite. rewrite take_nil. simpl. by rewrite drop_0.
Qed.

Lemma over_cons dest i u us : over (over dest i [u]) (S i) us = over dest i (u :: us).
Proof.
  destruct (decide (i < length dest)%nat) as [L | L]; [| by rewrite !(over_end dest) by lia].
  destruct (split_at dest i L) as (pre & x & room & -> & <-). rewrite !over_here.
  unfold overwrite at 1. rewrite take_nil. simpl app. simpl length. rewrite drop_0. unfold over. rewrite cons_middle, app_assoc.
  replace (S (length pre)) with (length (pre ++ [u])) by (rewrite length_app; simpl; lia).
  rewrite take_app_length, drop_app_length, <- app_assoc. done.
Qed.

Lemma store_then {A} dest i u (k : list Z -> run A) :
  0 <= i -> run_bind (store_at dest i u) k = k (over dest (Z.to_nat i) [u]).
Proof. intros Hi. rewrite <- (Z2Nat.id i) at 1 by done. by rewrite store_over. Qed.

(** ** The decoders *)

Lemma text_units_cons o os : text_units (o :: os) = to_units (code_of o) ++ text_units os.
Proof. unfold text_units, units. by rewrite fmap_cons, bind_cons. Qed.

Lemma u16_units c : 0 <= c < MAX_CODE -> Forall (fun x => u16 x = x) (to_units c).
Proof. intros Hc. pose proof (to_units16 c Hc) as H. eapply Forall_impl; [| exact H]. intros x Hx. unfold u16. apply Z.mod_small. simpl in Hx. lia. Qed.

Lemma decode16_loop_spec p os :
  text p os -> bytes_ok p -> forall fuel dest i, (length p < fuel)%nat ->
  decode16_loop fuel p dest (Z.of_nat i) = Done (over dest i (text_units os), Z.of_nat i + lenZ (text_units os)).
Proof.
  intros H. induction H as [| p o rest os Hp Ht IH]; intros Hb fuel dest i Hf.
  { destruct fuel; [lia |]. simpl. rewrite over_nil. unfold lenZ. simpl. do 2 f_equal. lia. }
  destruct (one_char_facts _ _ _ Hp Hb) as (b & q & -> & Hb0 & Hr & Hl & Hc & Ha & H128). destruct fuel as [| fuel]; [lia |]. simpl in Hf.
  specialize (IH Hr fuel). cbn [decode16_loop]. rewrite text_units_cons, lenZ_app. pose proof (u16_units _ Hc) as Hu.
  destruct (Z.ltb_spec b 128) as [L | L].
  - destruct (Ha L) as [-> ->]. unfold to_units in *. simpl code_of in *. destruct (Z.ltb_spec 65535 b); [lia |]. inversion Hu; subst.
    rewrite (store_then dest) by lia. rewrite Nat2Z.id. replace (Z.of_nat i + 1) with (Z.of_nat (S i)) by lia.
    rewrite IH by lia. simpl app. rewrite over_cons. change (lenZ [b]) with 1. do 2 f_equal; [congruence | lia].
  - destruct (decode_len_reads (b :: q)) as (o' & rest' & E & Hp'); [done | done |]. rewrite E. cbn [run_bind].
    destruct (one_char_functional _ _ _ _ _ Hp Hp') as [<- <-]. unfold to_units in *. destruct (65535 <? code_of o).
    + inversion Hu as [| ? ? U1 Hu1]; subst. inversion Hu1 as [| ? ? U2 _]; subst. rewrite U1, U2.
      rewrite (store_then dest) by lia. rewrite store_then by lia. rewrite Nat2Z.id.
      replace (Z.to_nat (Z.of_nat i + 1)) with (S i) by lia. replace (Z.of_nat i + 1 + 1) with (Z.of_nat (S (S i))) by lia.
      rewrite IH by lia. simpl app. rewrite !over_cons. change (lenZ [_; _]) with 2. do 2 f_equal. lia.
    + inversion Hu as [| ? ? U1 _]; subst. rewrite U1, (store_then dest) by lia. rewrite Nat2Z.id.
      replace (Z.of_nat i + 1) with (Z.of_nat (S i)) by lia. rewrite IH by lia. simpl app. rewrite over_cons. change (lenZ [_]) with 1. do 2 f_equal. lia.
Qed.

Lemma decode16_result dest p os :
  text p os -> bytes_ok p -> utf8_decode_buf16 dest p = Done (overwrite dest (text_units os), lenZ (text_units os)).
Proof.
  intros Ht Hb. unfold utf8_decode_buf16. change 0 with (Z.of_nat 0). rewrite (decode16_loop_spec p os Ht Hb) by lia. by rewrite over_0.
Qed.

(** ** The scanner *)

Definition is_bad (o : option Z) : bool := match o with Some _ => false | None => true end.

(** The bits [utf8_scan] sets besides [UTF8_NON_ASCII]. *)
Definition flags (os : list (option Z)) : Z :=
  Z.lor (if existsb is_bad os then UTF8_HAS_ERRORS else 0)
    (Z.lor (if existsb (fun o => 255 <? code_of o) os then UTF8_HAS_16BIT else 0)
       (if existsb (fun o => 65535 <? code_of o) os then UTF8_HAS_NON_BMP1 else 0)).

Lemma lenZ_to_units c : lenZ (to_units c) = 1 + b2z (65535 <? c).
Proof. unfold to_units. by destruct (65535 <? c). Qed.

Lemma flags_cons o os k :
  Z.lor (Z.lor (Z.lor (Z.lor k (if is_bad o then UTF8_HAS_ERRORS else 0)) (if 255 <? code_of o then UTF8_HAS_16BIT else 0))
    (if 65535 <? code_of o then UTF8_HAS_NON_BMP1 else 0)) (flags os) = Z.lor k (flags (o :: os)).
Proof.
  rewrite <- !Z.lor_assoc. f_equal. unfold flags. cbn [existsb].
  destruct (is_bad o), (255 <? code_of o), (65535 <? code_of o), (existsb is_bad os), (existsb (fun o => 255 <? code_of o) os), (existsb (fun o => 65535 <? code_of o) os); reflexivity.
Qed.

Lemma scan_loop_spec p os :
  text p os -> bytes_ok p -> forall fuel kind len, (length p < fuel)%nat ->
  scan_loop fuel p kind len = Done (Z.lor kind (flags os), len + lenZ (text_units os)).
Proof.
  intros H. induction H as [| p o rest os Hp Ht IH]; intros Hb fuel kind len Hf.
  { destruct fuel; [lia |]. simpl. unfold lenZ. simpl. rewrite Z.lor_0_r. do 2 f_equal. lia. }
  destruct (one_char_facts _ _ _ Hp Hb) as (b & q & -> & Hb0 & Hr & Hl & Hc & Ha & H128). destruct fuel as [| fuel]; [lia |]. simpl in Hf.
  specialize (IH Hr fuel). cbn [scan_loop]. rewrite text_units_cons, lenZ_app, lenZ_to_units.
  destruct (Z.ltb_spec b 128) as [L | L].
  - destruct (Ha L) as [-> ->]. rewrite IH by lia. rewrite <- flags_cons. change (code_of (Some b)) with b. cbn [is_bad].
    destruct (Z.ltb_spec 255 b), (Z.ltb_spec 65535 b); try lia. rewrite !Z.lor_0_r. cbn [b2z]. do 2 f_equal. lia.
  - destruct (decode_len_reads (b :: q)) as (o' & rest' & E & Hp'); [done | done |]. rewrite E. cbn [run_bind].
    destruct (one_char_functional _ _ _ _ _ Hp Hp') as [<- <-]. destruct (H128 L) as [_ Hiff].
    assert (Eb : (lenZ rest =? lenZ q) = is_bad o).
    { destruct o as [c |]; simpl; [| destruct Hiff as [_ Hn]; rewrite Hn by done; apply Z.eqb_refl]. apply Z.eqb_neq. intros En.
      destruct Hiff as [Hn _]. inversion Hp as [c' r Hc' Ep |]; subst. destruct (encode_head c Hc') as (b' & l & El & _ & _ & _ & H128').
      rewrite El in Ep. injection Ep as -> <-. rewrite lenZ_app in En. destruct (H128' L) as [Hne _]. destruct l; [done |]. unfold lenZ in En. simpl in En. lia. }
    rewrite Eb, <- flags_cons. clear Hp Hp' E. replace (if is_bad o then Z.lor kind UTF8_HAS_ERRORS else kind) with (Z.lor kind (if is_bad o then UTF8_HAS_ERRORS else 0))
      by (destruct (is_bad o); [done | apply Z.lor_0_r]).
    generalize (Z.lor kind (if is_bad o then UTF8_HAS_ERRORS else 0)). intros k1.
    replace (if 255 <? code_of o then Z.lor k1 UTF8_HAS_16BIT else k1) with (Z.lor k1 (if 255 <? code_of o then UTF8_HAS_16BIT else 0))
      by (destruct (255 <? code_of o); [done | apply Z.lor_0_r]).
    destruct (65535 <? code_of o); rewrite IH by lia; rewrite ?Z.lor_0_r; cbn [b2z]; do 2 f_equal; lia.
Qed.

Lemma high_bits k x : 0 <= k -> 0 <= x -> (2 ^ k <=? x) = negb (Z.shiftr x k =? 0).
Proof.
  intros Hk Hx. rewrite shiftr_eq by lia. rewrite Z.mul_0_l, Z.mul_1_l. destruct (Z.leb_spec (2 ^ k) x), (Z.leb_spec 0 x), (Z.ltb_spec x (2 ^ k)); simpl; lia.
Qed.

(** Whether any unit needs more than [k] bits, from the union of all bits. *)
Lemma lor_spec k l x :
  0 <= k -> Forall (fun b => 0 <= b) l -> 0 <= x -> (2 ^ k <=? foldl Z.lor x l) = (2 ^ k <=? x) || existsb (fun b => 2 ^ k <=? b) l.
Proof.
  intros Hk H. revert x. induction H as [| b l Hb _ IH]; intros x Hx; [by rewrite orb_false_r |]. simpl. rewrite IH by (apply Z.lor_nonneg; lia).
  rewrite orb_assoc. f_equal. rewrite !high_bits by (try (apply Z.lor_nonneg); lia). rewrite Z.shiftr_lor, <- negb_andb. f_equal.
  destruct (Z.eqb_spec (Z.lor (Z.shiftr x k) (Z.shiftr b k)) 0) as [E | E].
  - apply Z.lor_eq_0_iff in E as [-> ->]. done.
  - symmetry. apply andb_false_iff. destruct (Z.eqb_spec (Z.shiftr x k) 0) as [E1 |]; [right | by left].
    apply Z.eqb_neq. intros E2. by rewrite E1, E2 in E.
Qed.

Lemma cbits_spec l : bytes_ok l -> (128 <=? foldl Z.lor 0 l) = existsb (fun b => 128 <=? b) l.
Proof. intros H. apply (lor_spec 7); [lia | | lia]. eapply Forall_impl; [| exact H]. intros b. simpl. lia. Qed.

Lemma text_ascii l : bytes_ok l -> existsb (fun b => 128 <=? b) l = false -> text l (Some <$> l).
Proof.
  induction 1 as [| b l Hb _ IH]; intros He; [constructor |]. simpl in He. apply orb_false_iff in He as [Hb128 He]. apply Z.leb_gt in Hb128.
  simpl. apply (text_cons _ _ l); [| by apply IH]. pose proof (one_code b l) as H. rewrite encode_ascii in H by lia.
  apply H. unfold MAX_CODE. lia.
Qed.

Lemma text_units_some cs : text_units (Some <$> cs) = units cs.
Proof. unfold text_units. rewrite <- list_fmap_compose. f_equal. induction cs as [| c cs IH]; [done |]. simpl. f_equal. exact IH. Qed.

Lemma units_narrow cs : units8 cs -> units cs = cs.
Proof. induction 1 as [| c cs Hc _ IH]; [done |]. unfold units in *. rewrite bind_cons, IH. unfold to_units. by destruct (Z.ltb_spec 65535 c); [lia |]. Qed.

Lemma scan_result p os :
  text p os -> bytes_ok p ->
  utf8_scan p = Done (if existsb (fun b => 128 <=? b) p then Z.lor UTF8_NON_ASCII (flags os) else UTF8_PLAIN_ASCII, lenZ (text_units os)).
Proof.
  intros Ht Hb. unfold utf8_scan. rewrite cbits_spec by done. destruct (existsb _ p) eqn:E.
  - by rewrite (scan_loop_spec p os Ht Hb) by lia.
  - rewrite (text_functional p os _ Ht (text_ascii p Hb E)), text_units_some, units_narrow by done. done.
Qed.

(** ** Text of 8-bit code points *)

Definition narrow (os : list (option Z)) : Prop := Forall (fun o => exists c, o = Some c /\ c < 256) os.

(** [UTF8_NON_ASCII] alone means well formed and 8-bit. *)
Lemma flags_narrow os : Z.lor UTF8_NON_ASCII (flags os) = UTF8_NON_ASCII <-> narrow os.
Proof.
  assert (E : Z.lor UTF8_NON_ASCII (flags os) = UTF8_NON_ASCII <-> existsb is_bad os = false /\ existsb (fun o => 255 <? code_of o) os = false /\ existsb (fun o => 65535 <? code_of o) os = false).
  { unfold flags. destruct (existsb is_bad os), (existsb (fun o => 255 <? code_of o) os), (existsb (fun o => 65535 <? code_of o) os);
    (split; [intros E; by vm_compute in E | intros (A & B & C); done || reflexivity]). }
  rewrite E. unfold narrow. clear E. induction os as [| o os IH]; [split; [constructor | done] |]. rewrite Forall_cons_iff, <- IH. cbn [existsb]. rewrite !orb_false_iff.
  destruct o as [c |]; cbn [is_bad]; [| split; [intros [[? _] _]; done | intros [(? & ? & _) _]; done]]. change (code_of (Some c)) with c. rewrite !Z.ltb_ge.
  split; [intros ([_ A] & [B C] & [D F]); split; [exists c; split; [done | lia] | done] |]. intros [(c' & [= <-] & Hc) (A & B & C)]. split_and!; try done; lia.
Qed.

Lemma narrow_units os p : text p os -> bytes_ok p -> narrow os -> exists cs, os = Some <$> cs /\ units8 cs /\ text_units os = cs.
Proof.
  intros Ht Hb Hn. assert (G : exists cs, os = Some <$> cs /\ units8 cs).
  { induction Ht as [| p o rest os Hp Ht IH]; [exists []; split; [done | constructor] |].
    destruct (one_char_facts _ _ _ Hp Hb) as (_ & _ & _ & _ & Hr & _ & Hc & _). inversion Hn as [| ? ? (c & -> & Hc256) Hn']; subst.
    destruct (IH Hr Hn') as (cs & -> & Hcs). exists (c :: cs). split; [done |]. constructor; [| done]. change (code_of (Some c)) with c in Hc. lia. }
  destruct G as (cs & -> & Hcs). exists cs. split; [done |]. split; [done |]. by rewrite text_units_some, units_narrow.
Qed.

(** The two bytes of a code point between 0x80 and 0xFF. *)
Lemma encode_two c : 128 <= c < 256 -> exists a b, utf8_encode c = [192 + a; 128 + b] /\ 2 <= a < 32 /\ 0 <= b < 64 /\ c = 64 * a + b.
Proof.
  intros Hc. pose proof (encode_shape c) as Hs. unfold MAX_CODE in Hs. specialize (Hs ltac:(lia)). destruct Hs; try lia. by exists a, b.
Qed.

Lemma decode8_loop_spec cs :
  units8 cs -> forall dest i, decode8_loop (encoding cs) dest (Z.of_nat i) = Done (over dest i cs, Z.of_nat i + lenZ cs).
Proof.
  induction 1 as [| c cs Hc _ IH]; intros dest i; [rewrite over_nil; unfold lenZ; simpl; do 2 f_equal; lia |].
  unfold encoding in *. rewrite bind_cons, lenZ_cons. destruct (Z.lt_ge_cases c 128) as [L | L].
  - rewrite encode_ascii by lia. cbn [app decode8_loop]. destruct (Z.leb_spec 192 c); [lia |]. rewrite store_then by lia. rewrite Nat2Z.id.
    replace (Z.of_nat i + 1) with (Z.of_nat (S i)) by lia. rewrite IH, over_cons. unfold u8. rewrite Z.mod_small by lia. do 2 f_equal. lia.
  - destruct (encode_two c) as (a & b & -> & Ha & Hb & ->); [lia |]. cbn [app decode8_loop]. destruct (Z.leb_spec 192 (192 + a)); [| lia]. rewrite store_then by lia.
    rewrite Nat2Z.id. replace (Z.of_nat i + 1) with (Z.of_nat (S i)) by lia. rewrite IH, over_cons. rewrite Z.shiftl_mul_pow2 by lia. change (Z.shiftl 192 6) with 12288.
    rewrite u32_small by lia. unfold u8. rewrite Z.mod_small by lia. replace ((192 + a) * 2 ^ 6 + (128 + b) - (12288 + 128)) with (64 * a + b) by lia. do 2 f_equal. lia.
Qed.

Lemma encoding_text cs p : text p (Some <$> cs) -> p = encoding cs.
Proof.
  revert p. induction cs as [| c cs IH]; intros p Ht; inversion Ht as [| ? ? rest ? Hp Ht']; subst; [done |].
  unfold encoding. rewrite bind_cons. inversion Hp; subst. f_equal. by apply IH.
Qed.

Lemma overwrite_length dest us : length (overwrite dest us) = length dest.
Proof. unfold overwrite. rewrite length_app, length_take, length_drop. lia. Qed.

(** The 8-bit decoder: the units, cut to leave room for the terminator. *)
Lemma decode8_result dest cs :
  units8 cs -> utf8_decode_buf8 dest (encoding cs) = Done (overwrite dest (take (length dest - 1) cs ++ [0]), lenZ cs).
Proof.
  intros Hcs. unfold utf8_decode_buf8. change 0 with (Z.of_nat 0) at 1. rewrite decode8_loop_spec by done. cbn [run_bind]. rewrite over_0.
  change (Z.of_nat 0 + lenZ cs) with (lenZ cs). assert (El : lenZ (overwrite dest cs) = lenZ dest) by (unfold lenZ; by rewrite overwrite_length). rewrite El.
  destruct (Z.ltb_spec (lenZ cs) (lenZ dest)) as [L | L]; unfold lenZ in L.
  - rewrite take_ge by lia. assert (E : overwrite dest cs = cs ++ drop (length cs) dest) by (unfold overwrite; by rewrite take_ge by lia). rewrite E.
    destruct (drop (length cs) dest) as [| x room] eqn:Ed; [apply (f_equal length) in Ed; rewrite length_drop in Ed; simpl in Ed; lia |].
    rewrite put_here. cbn [run_bind]. rewrite overwrite_app, Ed by lia. unfold overwrite. simpl. rewrite take_nil, drop_0. done.
  - destruct dest as [| x dest]; [by rewrite !overwrite_nil |]. destruct (Z.ltb_spec 0 (lenZ (x :: dest))) as [L1 | L1]; [| rewrite lenZ_cons in L1; pose proof (lenZ_nonneg dest); lia].
    simpl length in *. rewrite Nat.sub_succ, Nat.sub_0_r. set (n := length dest) in *.
    destruct (split_at cs n ltac:(lia)) as (pre & y & room & -> & Hn).
    assert (E : overwrite (x :: dest) (pre ++ y :: room) = pre ++ y :: []).
    { unfold overwrite. simpl length. fold n. rewrite <- Hn. rewrite drop_ge by (rewrite length_app; simpl; lia). rewrite app_nil_r, cons_middle, app_assoc.
      rewrite <- (Nat.add_0_r (S (length pre))). replace (S (length pre) + 0)%nat with (length (pre ++ [y])) by (rewrite length_app; simpl; lia). by rewrite take_app_length, cons_middle. }
    rewrite E. replace (lenZ (x :: dest) - 1) with (lenZ pre) by (rewrite lenZ_cons; unfold lenZ; lia). rewrite put_here. cbn [run_bind]. do 2 f_equal.
    rewrite <- Hn, take_app_length. unfold overwrite. simpl length. fold n. rewrite drop_ge by (rewrite length_app; simpl; lia). rewrite take_ge by (rewrite length_app; simpl; lia).
    by rewrite app_nil_r.
Qed.

Lemma text_units16 p os : text p os -> bytes_ok p -> units16 (text_units os).
Proof.
  induction 1 as [| p o rest os Hp Ht IH]; intros Hb; [constructor |]. rewrite text_units_cons.
  destruct (one_char_facts _ _ _ Hp Hb) as (_ & _ & _ & _ & Hr & _ & Hc & _). apply Forall_app. split; [by apply to_units16 | by apply IH].
Qed.

(** An ASCII text sets no other bit. *)
Lemma ascii_flags p : existsb (fun b => 128 <=? b) p = false -> flags (Some <$> p) = 0.
Proof.
  intros H. induction p as [| b p IH]; [done |]. simpl in H. apply orb_false_iff in H as [Hb H]. apply Z.leb_gt in Hb.
  rewrite fmap_cons, <- (Z.lor_0_l (flags _)), <- flags_cons, IH by done. change (code_of (Some b)) with b. cbn [is_bad].
  destruct (Z.ltb_spec 255 b), (Z.ltb_spec 65535 b); try lia. done.
Qed.
