(* ===== verification/Utf8Theorems.v ===== *)
(** * UTF-8 and UTF-16: what the buffer functions promise *)

From stdpp Require Import base list numbers.
From Stdlib Require Import ZArith Lia.
From S2P Require Import Prelude Utf8 Utf8Proofs.

#[local] Open Scope Z_scope.

Lemma fitting_prefix cs room :
  exists k, (k <= length cs)%nat /\ fitting room cs = encoding (take k cs) /\ (k = 0%nat \/ lenZ (fitting room cs) < room) /\
    ((k < length cs)%nat -> room <= lenZ (encoding (take (S k) cs))).
Proof.
  revert room. induction cs as [| c cs IH]; intros room; [exists 0%nat; simpl; split_and!; try done; [by left | lia] |]. simpl fitting.
  destruct (Z.ltb_spec (lenZ (utf8_encode c)) room) as [L | L].
  - destruct (IH (room - lenZ (utf8_encode c))) as (k & Hk & E & Hl & Hm). exists (S k). cbn [length take]. unfold encoding in *. rewrite !bind_cons, E.
    split; [lia |]. split; [done |]. split.
    + right. rewrite lenZ_app. destruct Hl as [-> | Hl]; [unfold lenZ; simpl; unfold lenZ in L; lia |]. rewrite E in Hl. lia.
    + intros Hlt. rewrite lenZ_app. specialize (Hm ltac:(lia)). lia.
  - exists 0%nat. split; [lia |]. split; [done |]. split; [by left |]. intros _. simpl take. rewrite take_0. unfold encoding. rewrite bind_cons, lenZ_app. unfold lenZ at 2. simpl. lia.
Qed.

Lemma fitting_all cs room : lenZ (encoding cs) < room -> fitting room cs = encoding cs.
Proof.
  revert room. induction cs as [| c cs IH]; intros room H; [done |]. unfold encoding in *. rewrite bind_cons, lenZ_app in *. simpl fitting.
  pose proof (lenZ_nonneg (cs ≫= utf8_encode)). destruct (Z.ltb_spec (lenZ (utf8_encode c)) room); [| lia]. f_equal. apply IH. lia.
Qed.

(** C22: UTF-16 survives UTF-8: units encoded into a destination that is long
    enough are decoded to the same units, lone surrogates included. *)
Theorem utf16_survives_utf8 dest dest' src :
  units16 src -> lenZ (encoding (codes src)) < lenZ dest ->
  exists d n, utf8_encode_buf16 dest src = Done (d, n) /\ nthZ 1 d n = 0 /\
    utf8_decode_buf16 dest' (take (Z.to_nat n) d) = Done (overwrite dest' src, lenZ src).
Proof.
  intros Hs Hl. rewrite (encode16_result dest src Hs), (fitting_all _ _ Hl). set (e := encoding (codes src)) in *. do 2 eexists. split; [done |].
  assert (Ed : overwrite dest (e ++ [0]) = e ++ 0 :: drop (S (length e)) dest).
  { unfold lenZ in Hl. rewrite overwrite_app by lia. destruct (drop (length e) dest) as [| x room] eqn:Ed; [apply (f_equal length) in Ed; rewrite length_drop in Ed; simpl in Ed; lia |].
    unfold overwrite. simpl. rewrite take_nil, drop_0. simpl. rewrite <- Nat.add_1_r, <- drop_drop, Ed. done. }
  rewrite Ed. unfold lenZ. rewrite Nat2Z.id, take_app_length. split; [unfold nthZ; rewrite Nat2Z.id, list_lookup_middle by done; done |].
  pose proof (codes_range src Hs) as Hr. unfold e. rewrite (decode16_result dest' _ _ (text_encoding _ Hr) (bytes_encoding _ Hr)).
  by rewrite text_units_some, units_codes.
Qed.

Lemma utf16_survives_utf8_witness :
  exists d n, utf8_encode_buf16 (replicate 12 7) [97; 233; 55357; 56832; 56320] = Done (d, n) /\ nthZ 1 d n = 0 /\
    utf8_decode_buf16 (replicate 6 9) (take (Z.to_nat n) d) = Done (overwrite (replicate 6 9) [97; 233; 55357; 56832; 56320], 5).
Proof. apply (utf16_survives_utf8 (replicate 12 7) (replicate 6 9) [97; 233; 55357; 56832; 56320]); [repeat constructor; lia | reflexivity]. Defined.

(** C35: A destination that is too short: both encoders return the full length,
    and store the longest prefix of whole characters that leaves room for the
    terminator, the terminator, and nothing else. *)
Theorem utf8_encode_truncates dest src :
  units16 src ->
  exists k, let w := encoding (take k (codes src)) in
    utf8_encode_buf16 dest src = Done (overwrite dest (w ++ [0]), lenZ (encoding (codes src))) /\
    (dest <> [] -> lenZ w < lenZ dest) /\ (k <= length (codes src))%nat /\
    ((k < length (codes src))%nat -> lenZ dest <= lenZ (encoding (take (S k) (codes src)))) /\
    (units8 src -> utf8_encode_buf8 dest src = utf8_encode_buf16 dest src).
Proof.
  intros Hs. destruct (fitting_prefix (codes src) (lenZ dest)) as (k & Hk & E & Hl & Hm). exists k. simpl. rewrite <- E.
  split; [by apply encode16_result |]. split; [| split; [done |]; split; [done | apply encode8_is_encode16]].
  intros Hd. destruct Hl as [-> | Hl]; [| done]. rewrite E, take_0. destruct dest; [done |]. rewrite lenZ_cons. pose proof (lenZ_nonneg dest). unfold lenZ at 1. simpl. lia.
Qed.

Lemma utf8_encode_truncates_witness :
  exists k, let w := encoding (take k (codes [97; 233; 8364])) in
    utf8_encode_buf16 [1; 2; 3; 4; 5] [97; 233; 8364] = Done (overwrite [1; 2; 3; 4; 5] (w ++ [0]), 6) /\
    ([1; 2; 3; 4; 5] <> [] -> lenZ w < 5) /\ (k <= length (codes [97; 233; 8364]%Z))%nat /\
    ((k < length (codes [97; 233; 8364]%Z))%nat -> lenZ [1; 2; 3; 4; 5] <= lenZ (encoding (take (S k) (codes [97; 233; 8364])))) /\
    (units8 [97; 233; 8364] -> utf8_encode_buf8 [1; 2; 3; 4; 5] [97; 233; 8364] = utf8_encode_buf16 [1; 2; 3; 4; 5] [97; 233; 8364]).
Proof. apply (utf8_encode_truncates [1; 2; 3; 4; 5] [97; 233; 8364]). repeat constructor; lia. Defined.

(** C36: Any bytes have one reading as text, in which a byte that starts no code
    point is 0xFFFD; [utf8_scan] returns the number of its UTF-16 units and the
    kind that tells how to store them, and the decoders store exactly these units,
    cut at the end of the destination. *)
Theorem utf8_scan_predicts_decode p :
  bytes_ok p ->
  exists os kind, text p os /\ (forall os', text p os' -> os' = os) /\ units16 (text_units os) /\
    utf8_scan p = Done (kind, lenZ (text_units os)) /\
    (forall dest, utf8_decode_buf16 dest p = Done (overwrite dest (text_units os), lenZ (text_units os))) /\
    (kind = UTF8_PLAIN_ASCII -> text_units os = p) /\
    (kind = UTF8_NON_ASCII -> units8 (text_units os) /\ forall dest,
       utf8_decode_buf8 dest p = Done (overwrite dest (take (length dest - 1) (text_units os) ++ [0]), lenZ (text_units os))) /\
    (Z.testbit kind 1 = existsb (fun o => 255 <? code_of o) os) /\
    (Z.testbit kind 3 = existsb is_bad os).
Proof.
  intros Hb. destruct (text_total p Hb) as [os Ht]. exists os. pose proof (scan_result p os Ht Hb) as Hscan.
  destruct (existsb (fun b => 128 <=? b) p) eqn:E; (eexists; split; [exact Ht |]; split; [intros os' Ht'; exact (text_functional p os' os Ht' Ht) |];
    split; [exact (text_units16 p os Ht Hb) |]; split; [exact Hscan |]; split; [intros dest; exact (decode16_result dest p os Ht Hb) |]).
  - split; [unfold flags; intros Hk; repeat case_match; discriminate Hk |]. split.
    + intros Hk. apply flags_narrow in Hk. destruct (narrow_units os p Ht Hb Hk) as (cs & -> & Hcs & ->). split; [done |]. intros dest.
      rewrite (encoding_text cs p Ht). by apply decode8_result.
    + unfold flags. destruct (existsb is_bad os), (existsb (fun o => 255 <? code_of o) os), (existsb (fun o => 65535 <? code_of o) os); done.
  - rewrite (text_functional p os _ Ht (text_ascii p Hb E)), text_units_some, units_narrow by done. split; [done |]. split; [done |].
    pose proof (ascii_flags p E) as Hf. unfold flags in Hf.
    destruct (existsb is_bad (Some <$> p)), (existsb (fun o => 255 <? code_of o) (Some <$> p)), (existsb (fun o => 65535 <? code_of o) (Some <$> p)); done.
Qed.

Lemma utf8_scan_predicts_decode_witness :
  exists os, text [97; 195; 169; 128; 240; 159; 152; 128] os /\
    utf8_scan [97; 195; 169; 128; 240; 159; 152; 128] = Done (15, lenZ (text_units os)) /\
    utf8_decode_buf16 [1; 2; 3; 4; 5; 6] [97; 195; 169; 128; 240; 159; 152; 128] = Done (overwrite [1; 2; 3; 4; 5; 6] (text_units os), lenZ (text_units os)) /\
    utf8_decode_buf16 [1; 2; 3; 4; 5; 6] [97; 195; 169; 128; 240; 159; 152; 128] = Done ([97; 233; 65533; 55357; 56832; 6], 5).
Proof.
  destruct (utf8_scan_predicts_decode [97; 195; 169; 128; 240; 159; 152; 128]) as (os & kind & Ht & _ & _ & Hs & Hd & _); [repeat constructor; lia |].
  exists os. split; [exact Ht |]. split; [| split; [exact (Hd [1; 2; 3; 4; 5; 6]) | reflexivity]].
  rewrite Hs. pose proof Hs as Hk. vm_compute in Hk. injection Hk as <- _. reflexivity.
Defined.
