(* ===== verification/JsString.v ===== *)
(** * Strings (quickjs.c)

    A [JSString] is a counted block: a header and its units behind it, or a slice
    of another string, or a pointer to a block of bytecode.  The heap of strings is
    a finite map from addresses, so slices and copies alias the way the code's
    pointers do; uninitialised memory is what the allocator left there.

    The atom table is part of the state because the empty string is an atom and
    because a string that is an atom is freed through the table. *)

From stdpp Require Import base list numbers gmap.
From Stdlib Require Import ZArith Lia.
From S2P Require Import Prelude StateRun BaseRanges Utf8.

#[local] Open Scope Z_scope.
#[local] Open Scope st_scope.

(** ** Data *)

(** What follows the header, by [kind]: the units of a [JS_STRING_KIND_NORMAL]
    string (with the terminator of an 8-bit one), the [JSStringSlice] of a
    [JS_STRING_KIND_SLICE], the block a [JS_STRING_KIND_INDIRECT] points to. *)
Inductive payload :=
  | Cells (l : list Z)
  | SliceOf (parent start : Z)
  | IndirectTo (l : list Z).

Record JSString := mkString {
  ref_count : Z;
  slen : Z;
  is_wide_char : bool;
  hash : Z;
  atom_type : Z;
  hash_next : Z;
  first_weak_ref : Z;
  tail : payload
}.

Definition set_ref_count (s : JSString) (n : Z) : JSString :=
  mkString n (slen s) (is_wide_char s) (hash s) (atom_type s) (hash_next s) (first_weak_ref s) (tail s).
Definition set_tail (s : JSString) (t : payload) : JSString :=
  mkString (ref_count s) (slen s) (is_wide_char s) (hash s) (atom_type s) (hash_next s) (first_weak_ref s) t.
Definition set_slen (s : JSString) (n : Z) : JSString :=
  mkString (ref_count s) n (is_wide_char s) (hash s) (atom_type s) (hash_next s) (first_weak_ref s) (tail s).
Definition set_is_wide_char (s : JSString) (w : bool) : JSString :=
  mkString (ref_count s) (slen s) w (hash s) (atom_type s) (hash_next s) (first_weak_ref s) (tail s).
Definition set_hash (s : JSString) (h : Z) : JSString :=
  mkString (ref_count s) (slen s) (is_wide_char s) h (atom_type s) (hash_next s) (first_weak_ref s) (tail s).
Definition set_atom_type (s : JSString) (t : Z) : JSString :=
  mkString (ref_count s) (slen s) (is_wide_char s) (hash s) t (hash_next s) (first_weak_ref s) (tail s).
Definition set_hash_next (s : JSString) (i : Z) : JSString :=
  mkString (ref_count s) (slen s) (is_wide_char s) (hash s) (atom_type s) i (first_weak_ref s) (tail s).
Definition set_first_weak_ref (s : JSString) (p : Z) : JSString :=
  mkString (ref_count s) (slen s) (is_wide_char s) (hash s) (atom_type s) (hash_next s) p (tail s).

Definition SIZEOF_JSString : Z := 24.
Definition SIZEOF_JSStringSlice : Z := 16.
Definition JS_STRING_LEN_MAX : Z := 2 ^ 30 - 1.
Definition JS_STRING_SLICE_LEN_MAX : Z := 1024.
Definition INT_MAX : Z := 2 ^ 31 - 1.

Definition JS_ATOM_NULL : Z := 0.
Definition JS_ATOM_empty_string : Z := 48.
Definition JS_ATOM_END : Z := 242.
Definition JS_ATOM_TYPE_STRING : Z := 1.
Definition JS_ATOM_TYPE_GLOBAL_SYMBOL : Z := 2.
Definition JS_ATOM_TYPE_SYMBOL : Z := 3.
Definition JS_ATOM_TYPE_PRIVATE : Z := 4.

(** The slots of an atom array are words: the address of the atom, or the next
    free slot with the low bit set. *)
Definition atom_get_free (p : Z) : Z := u32 (Z.shiftr p 1).
Definition atom_is_free (p : Z) : bool := negb (Z.land p 1 =? 0).
Definition atom_set_free (v : Z) : Z := Z.lor (Z.shiftl v 1) 1.

(** The atom fields of [JSRuntime], base memory after the freeze. *)
Record atom_table := {
  atom_hash : list Z;
  atom_hash_size : Z;
  atom_array : list Z;
  atom_size : Z;
  atom_count : Z;
  atom_count_resize : Z;
  atom_free_index : Z
}.

(** The atom fields of [JSRequestState]; [None] for a NULL array. *)
Record atom_request := {
  atom_overlay : option (list Z);
  atom_overlay_base : Z;
  atom_overlay_size : Z;
  atom_overlay_count : Z;
  atom_overlay_free_index : Z;
  atom_hash_overlay : option (list Z);
  atom_hash_overlay_size : Z
}.

(** ** The allocator *)

(** [js_malloc_rt] for strings and for the arrays of the atom table: an address,
    0 for NULL; whether an array is granted; and what uninitialised units hold. *)
Class StrAlloc := {
  salloc : Type;
  str_malloc : salloc -> gmap Z JSString -> Z -> Z * salloc;
  arr_malloc : salloc -> Z -> bool * salloc;
  junk : salloc -> nat -> Z
}.

Section ops.
Context `{SA : StrAlloc}.

Record world := {
  strs : gmap Z JSString;
  ranges : base_ranges;
  is_arena : bool;
  tab : atom_table;
  req : atom_request;
  heap_state : salloc
}.

Definition set_strs (w : world) (h : gmap Z JSString) : world :=
  {| strs := h; ranges := ranges w; is_arena := is_arena w; tab := tab w; req := req w; heap_state := heap_state w |}.
Definition set_tab (w : world) (t : atom_table) : world :=
  {| strs := strs w; ranges := ranges w; is_arena := is_arena w; tab := t; req := req w; heap_state := heap_state w |}.
Definition set_req (w : world) (r : atom_request) : world :=
  {| strs := strs w; ranges := ranges w; is_arena := is_arena w; tab := tab w; req := r; heap_state := heap_state w |}.
Definition set_heap_state (w : world) (a : salloc) : world :=
  {| strs := strs w; ranges := ranges w; is_arena := is_arena w; tab := tab w; req := req w; heap_state := a |}.

Abbreviation SS := (ST world).

Definition str_load (p : Z) : SS JSString := sderef (fun w => strs w !! p).
Definition str_store (p : Z) (s : JSString) : SS unit := smod (fun w => set_strs w (<[p := s]> (strs w))).
Definition str_delete (p : Z) : SS unit := smod (fun w => set_strs w (delete p (strs w))).
Definition base_ptr (p : Z) : SS bool := sget (fun w => js_arena_ptr_is_base (ranges w) p).

(** ** Reference counts *)

(** [arena_rc_inc], [arena_rc_dec]: strings of the base are immortal. *)
Definition str_rc_inc (p : Z) : SS unit :=
  let^ base := base_ptr p in
  if base then sret tt else let^ s := str_load p in str_store p (set_ref_count s (ref_count s + 1)).

Definition str_rc_dec (p : Z) : SS Z :=
  let^ base := base_ptr p in
  if base then sret 1
  else let^ s := str_load p in str_store p (set_ref_count s (ref_count s - 1)) ;^ sret (ref_count s - 1).

(** ** The atom with an index *)

Definition nth_word (l : list Z) (i : Z) : SS Z :=
  if 0 <=? i then sderef (fun _ => l !! Z.to_nat i) else sabort.

(** [a[i] = x] in an array that has a cell [i]. *)
Definition set_word (l : list Z) (i x : Z) : SS (list Z) :=
  if (0 <=? i) && (i <? lenZ l) then sret (setZ i x l) else sabort.

Definition js_atom_struct (i : Z) : SS Z :=
  let^ t := sget tab in
  let^ r := sget req in
  if i <? atom_overlay_base r then nth_word (atom_array t) i
  else match atom_overlay r with Some l => nth_word l (i - atom_overlay_base r) | None => sabort end.

Definition js_atom_in_range (w : world) (i : Z) : bool :=
  let r := req w in
  (i <? atom_size (tab w)) ||
  match atom_overlay r with
  | Some _ => (atom_overlay_base r <=? i) && (i - atom_overlay_base r <? atom_overlay_size r)
  | None => false
  end.

Definition set_atom_hash (t : atom_table) (l : list Z) : atom_table :=
  {| atom_hash := l; atom_hash_size := atom_hash_size t; atom_array := atom_array t; atom_size := atom_size t;
     atom_count := atom_count t; atom_count_resize := atom_count_resize t; atom_free_index := atom_free_index t |}.

(** [for(;;)] of [JS_FreeAtomStruct]: find the atom before [p] in its chain and
    unlink [p]; the index of [p]. *)
Fixpoint unlink_loop (fuel : nat) (p p1 i : Z) : SS Z :=
  match fuel with
  | O => fun _ => Spins
  | S fuel =>
      if i =? 0 then sabort
      else
        let p0 := p1 in
        let^ s0 := str_load p0 in
        let i := hash_next s0 in
        let^ p1 := js_atom_struct i in
        if p1 =? p then
          let^ s1 := str_load p1 in
          str_store p0 (set_hash_next s0 (hash_next s1)) ;^ sret i
        else unlink_loop fuel p p1 i
  end.

(** Weak references to the atom are not part of the state. *)
Definition JS_FreeAtomStruct (p : Z) : SS unit :=
  let^ arena := sget is_arena in
  if arena then sret tt
  else
    let^ s := str_load p in
    let^ t := sget tab in
    let^ i :=
      if negb (atom_type s =? JS_ATOM_TYPE_SYMBOL) then
        let h0 := Z.land (hash s) (atom_hash_size t - 1) in
        let^ i := nth_word (atom_hash t) h0 in
        let^ p1 := js_atom_struct i in
        if p1 =? p then
          let^ l := set_word (atom_hash t) h0 (hash_next s) in
          smod (fun w => set_tab w (set_atom_hash t l)) ;^ sret i
        else unlink_loop (S (length (atom_array t))) p p1 i
      else sret (hash_next s) in
    let^ t := sget tab in
    let^ l := set_word (atom_array t) i (atom_set_free (atom_free_index t)) in
    smod (fun w => set_tab w {| atom_hash := atom_hash t; atom_hash_size := atom_hash_size t; atom_array := l;
      atom_size := atom_size t; atom_count := atom_count t - 1; atom_count_resize := atom_count_resize t; atom_free_index := i |}) ;^
    str_delete p ;^
    slift (assert_ (0 <=? atom_count t - 1)).

(** ** Freeing strings *)

(** [js_free_string] and [js_free_string0], which calls it for the parent of a
    slice; parents are not slices, so a depth of two is enough. *)
Fixpoint free_string (depth : nat) (p : Z) : SS unit :=
  match depth with
  | O => fun _ => Spins
  | S depth =>
      let^ n := str_rc_dec p in
      if n <=? 0 then
        let^ s := str_load p in
        if negb (atom_type s =? 0) then JS_FreeAtomStruct p
        else
          match tail s with
          | SliceOf parent _ => free_string depth parent
          | _ => sret tt
          end ;^
          str_delete p
      else sret tt
  end.

Definition js_free_string (p : Z) : SS unit := free_string 2 p.

(** ** Units *)

(** The units from [strv(p)] on. *)
Definition strv (p : Z) : SS (list Z) :=
  let^ s := str_load p in
  match tail s with
  | Cells l => sret l
  | SliceOf parent start =>
      let^ q := str_load parent in
      match tail q with Cells l => sret (drop (Z.to_nat (Z.shiftr start (b2z (is_wide_char s)))) l) | _ => sabort end
  | IndirectTo l => sret l
  end.

(** [n] units from [i] on, [memcpy] and loops over a source. *)
Definition read_units (l : list Z) (i n : Z) : SS (list Z) :=
  if (0 <=? i) && (0 <=? n) && (i + n <=? lenZ l) then sret (take (Z.to_nat n) (drop (Z.to_nat i) l)) else sabort.

(** The [len] units of a string. *)
Definition str_units (p : Z) : SS (list Z) :=
  let^ s := str_load p in
  let^ l := strv p in
  read_units l 0 (slen s).

(** ** Allocation *)

(** [sizeof(JSString) + (max_len << is_wide_char) + 1 - is_wide_char] *)
Definition string_size (max_len : Z) (wide : bool) : Z :=
  u64 (SIZEOF_JSString + Z.shiftl max_len (b2z wide) + 1 - b2z wide).

Definition fresh_cells (a : salloc) (max_len : Z) (wide : bool) : list Z :=
  junk a <$> seq 0 (Z.to_nat (max_len + 1 - b2z wide)).

Definition js_malloc_string (max_len : Z) (wide : bool) : SS Z :=
  scall (fun w => let '(p, a) := str_malloc (heap_state w) (strs w) (string_size max_len wide) in (p, set_heap_state w a)).

(** [js_alloc_string_rt]; 0 for NULL. *)
Definition js_alloc_string_rt (max_len : Z) (wide : bool) : SS Z :=
  let^ p := js_malloc_string max_len wide in
  if p =? 0 then sret 0
  else
    let^ a := sget heap_state in
    str_store p (mkString 1 max_len wide 0 0 0 (junk a 0) (Cells (fresh_cells a max_len wide))) ;^ sret p.

(** What a function that makes a string returns: the string, or the exception
    that is pending. *)
Inductive str_result := RString (p : Z) | ROutOfMemory | RRangeError.

(** Store units into a string's cells from [i] on. *)
Definition write_units (p : Z) (i : Z) (us : list Z) : SS unit :=
  let^ s := str_load p in
  match tail s with
  | Cells l => let^ l := slift (put_all l i us) in str_store p (set_tail s (Cells l))
  | _ => sabort
  end.

Definition js_empty_string : SS str_result :=
  let^ p := js_atom_struct JS_ATOM_empty_string in
  str_rc_inc p ;^ sret (RString p).

Definition js_new_string8_len (us : list Z) : SS str_result :=
  let^ p := js_alloc_string_rt (lenZ us) false in
  if p =? 0 then sret ROutOfMemory
  else write_units p 0 us ;^ write_units p (lenZ us) [0] ;^ sret (RString p).

Definition js_new_string16_len (us : list Z) : SS str_result :=
  let^ p := js_alloc_string_rt (lenZ us) true in
  if p =? 0 then sret ROutOfMemory
  else write_units p 0 us ;^ sret (RString p).

Definition js_new_string_char (c : Z) : SS str_result :=
  if c <? 256 then js_new_string8_len [u8 c] else js_new_string16_len [c].

(** ** Substrings *)

Definition js_sub_string (p start end_ : Z) : SS str_result :=
  let^ s := str_load p in
  let len := end_ - start in
  if (start =? 0) && (end_ =? slen s) then str_rc_inc p ;^ sret (RString p)
  else if len <=? 0 then js_empty_string
  else if Z.shiftr JS_STRING_SLICE_LEN_MAX (b2z (is_wide_char s)) <? len then
    let^ (p, start) :=
      match tail s with
      | SliceOf parent st => let^ q := str_load parent in sret (parent, start + Z.shiftr st (b2z (is_wide_char q)))
      | _ => sret (p, start)
      end in
    let^ q := js_alloc_string_rt (SIZEOF_JSStringSlice / 2) true in
    if q =? 0 then sret ROutOfMemory
    else
      let^ s := str_load p in
      let^ r := str_load q in
      str_store q (set_tail (set_slen (set_is_wide_char r (is_wide_char s)) len) (SliceOf p (Z.shiftl start (b2z (is_wide_char s))))) ;^
      str_rc_inc p ;^ sret (RString q)
  else
    let^ l := strv p in
    let^ us := read_units l start len in
    if is_wide_char s then
      if 255 <? foldl Z.lor 0 us then js_new_string16_len us
      else
        let^ q := js_alloc_string_rt len false in
        if q =? 0 then sret ROutOfMemory
        else write_units q 0 (u8 <$> us) ;^ write_units q len [0] ;^ sret (RString q)
    else js_new_string8_len us.

(** ** Strings of the embedder *)

(** Run a buffer function on a string's cells. *)
Definition fill (p : Z) (f : list Z -> run (list Z * Z)) : SS unit :=
  let^ s := str_load p in
  match tail s with
  | Cells l => let^ (l, _) := slift (f l) in str_store p (set_tail s (Cells l))
  | _ => sabort
  end.

Definition JS_NewStringLen (buf : list Z) : SS str_result :=
  if lenZ buf <=? 0 then js_empty_string
  else
    let^ (kind, len) := slift (utf8_scan buf) in
    if JS_STRING_LEN_MAX <? len then sret RRangeError
    else if kind =? UTF8_PLAIN_ASCII then
      let^ p := js_alloc_string_rt len false in
      if p =? 0 then sret ROutOfMemory else write_units p 0 (take (Z.to_nat len) buf) ;^ write_units p len [0] ;^ sret (RString p)
    else if kind =? UTF8_NON_ASCII then
      let^ p := js_alloc_string_rt len false in
      if p =? 0 then sret ROutOfMemory else fill p (fun l => utf8_decode_buf8 (take (Z.to_nat (len + 1)) l) buf) ;^ sret (RString p)
    else
      let^ p := js_alloc_string_rt len true in
      if p =? 0 then sret ROutOfMemory else fill p (fun l => utf8_decode_buf16 (take (Z.to_nat len) l) buf) ;^ sret (RString p).

Definition JS_NewStringUTF16 (buf : list Z) : SS str_result :=
  if lenZ buf =? 0 then js_empty_string
  else if JS_STRING_LEN_MAX <? lenZ buf then sret RRangeError
  else
    let^ p := js_alloc_string_rt (lenZ buf) true in
    if p =? 0 then sret ROutOfMemory else write_units p 0 buf ;^ sret (RString p).

(** A pointer handed to the embedder: NULL, or [off] bytes behind the header of
    the string at [p], or a block of its own. *)
Inductive cptr := CNull | CPtr (p off : Z) | CBlock.

(** The pointer [strv(p)] is. *)
Definition strv_ptr (p : Z) (s : JSString) : cptr :=
  match tail s with
  | Cells _ => CPtr p 0
  | SliceOf parent start => CPtr parent start
  | IndirectTo _ => CBlock
  end.

(** [for (pos = 0; pos < len; pos++)] of [JS_ToCStringLen2] over 8-bit units. *)
Fixpoint narrow_loop (us : list Z) (q : list Z) (j : Z) : run (list Z * Z) :=
  match us with
  | [] => Done (q, j)
  | c :: us =>
      if c <? 128 then let* q := put_at q j (u8 c) in narrow_loop us q (j + 1)
      else
        let* q := put_at q j (u8 (Z.lor (Z.shiftr c 6) 192)) in
        let* q := put_at q (j + 1) (u8 (Z.lor (Z.land c 63) 128)) in
        narrow_loop us q (j + 2)
  end.

(** [while (pos < len)] of [JS_ToCStringLen2] over 16-bit units. *)
Fixpoint wide_loop (fuel : nat) (cesu8 : bool) (us q : list Z) (pos j : Z) : run (list Z * Z) :=
  match fuel with
  | O => Spins
  | S fuel =>
      if pos <? lenZ us then
        let* c := fetch us (Z.to_nat pos) in
        let pos := pos + 1 in
        if c <? 128 then let* q := put_at q j (u8 c) in wide_loop fuel cesu8 us q pos (j + 1)
        else
          let* (c, pos) :=
            if is_hi_surrogate c && (pos <? lenZ us) && negb cesu8 then
              let* c1 := fetch us (Z.to_nat pos) in
              if is_lo_surrogate c1 then Done (from_surrogate c c1, pos + 1) else Done (c, pos)
            else Done (c, pos) in
          let* q := put_all q j (utf8_encode c) in
          wide_loop fuel cesu8 us q pos (j + lenZ (utf8_encode c))
      else Done (q, j)
  end.

(** [*q = '\0'], and the length. *)
Definition finish_cstring (r : run (list Z * Z)) : run (list Z * Z) :=
  let* (q, j) := r in let* q := put_at q j 0 in Done (q, j).

(** [JS_ToCStringLen2] of a string value: the pointer and [*plen].  The first
    step is [js_force_tostring], which duplicates it. *)
Definition JS_ToCStringLen2 (p : Z) (cesu8 : bool) : SS (cptr * Z) :=
  str_rc_inc p ;^
  let^ s := str_load p in
  let^ us := str_units p in
  let len := slen s in
  let count := foldl (fun n c => n + Z.shiftr c 7) 0 us in
  if negb (is_wide_char s) && (count =? 0) && match tail s with Cells _ => true | _ => false end then sret (strv_ptr p s, len)
  else
    let max_len := if is_wide_char s then len * 3 else len + count in
    if INT_MAX <? max_len then sabort
    else
      let^ q := js_alloc_string_rt max_len false in
      if q =? 0 then sret (CNull, 0)
      else
        let^ r := str_load q in
        match tail r with
        | Cells l =>
            let^ (l, n) := slift (finish_cstring (if is_wide_char s then wide_loop (S (length us)) cesu8 us l 0 0 else narrow_loop us l 0)) in
            str_store q (set_slen (set_tail r (Cells l)) n) ;^
            js_free_string p ;^ sret (CPtr q 0, n)
        | _ => sabort
        end.

(** [JS_ToCStringLenUTF16] of a string value. *)
Definition JS_ToCStringLenUTF16 (p : Z) : SS (cptr * Z) :=
  str_rc_inc p ;^
  let^ s := str_load p in
  if negb (is_wide_char s) then
    let^ q := js_alloc_string_rt (slen s) true in
    if q =? 0 then js_free_string p ;^ sret (CNull, 0)
    else
      let^ us := str_units p in
      write_units q 0 us ;^
      js_free_string p ;^ sret (CPtr q 0, slen s)
  else sret (strv_ptr p s, slen s).

(** [js_free_cstring]: one header before the pointer is a string only if it is
    right behind a header. *)
Definition js_free_cstring (c : cptr) : SS unit :=
  match c with
  | CNull => sret tt
  | CPtr p off => if off =? 0 then js_free_string p else sabort
  | CBlock => sabort
  end.

(** ** Comparison *)

(** [memcmp] of two unit arrays, as the 16-bit loops compute it. *)
Fixpoint memcmp16 (l1 l2 : list Z) : Z :=
  match l1, l2 with
  | c :: l1, d :: l2 => if c - d =? 0 then memcmp16 l1 l2 else c - d
  | _, _ => 0
  end.

Definition js_string_memcmp (p1 p2 len : Z) : SS Z :=
  let^ s1 := str_load p1 in
  let^ s2 := str_load p2 in
  let^ l1 := strv p1 in
  let^ l2 := strv p2 in
  let^ us1 := read_units l1 0 len in
  let^ us2 := read_units l2 0 len in
  if negb (is_wide_char s1) then
    if negb (is_wide_char s2) then sret (memcmp16 us1 us2) else sret (- memcmp16 us2 us1)
  else sret (memcmp16 us1 us2).

Definition js_string_eq (p1 p2 : Z) : SS bool :=
  let^ s1 := str_load p1 in
  let^ s2 := str_load p2 in
  if negb (slen s1 =? slen s2) then sret false
  else let^ r := js_string_memcmp p1 p2 (slen s1) in sret (r =? 0).

Definition js_string_compare (p1 p2 : Z) : SS Z :=
  let^ s1 := str_load p1 in
  let^ s2 := str_load p2 in
  let^ res := js_string_memcmp p1 p2 (Z.min (slen s1) (slen s2)) in
  if res =? 0 then sret (b2z (slen s2 <? slen s1) - b2z (slen s1 <? slen s2)) else sret res.

End ops.
