(* ===== verification/Atoms.v ===== *)
(** * Atoms (quickjs.c)

    Property names are interned: a string becomes an atom, an index into the atom
    array, and equal strings get the same atom.  Before the freeze the runtime's
    own table grows; afterwards it is base memory, and a request interns into an
    overlay of its own with indices from [atom_overlay_base] on. *)

From stdpp Require Import base list numbers gmap.
From Stdlib Require Import ZArith Lia.
From S2P Require Import Prelude StateRun BaseRanges Utf8 JsString.

#[local] Open Scope Z_scope.
#[local] Open Scope st_scope.

Definition JS_ATOM_TAG_INT : Z := 2 ^ 31.
Definition JS_ATOM_MAX_INT : Z := JS_ATOM_TAG_INT - 1.
Definition JS_ATOM_MAX : Z := 2 ^ 30 - 1.
Definition JS_ATOM_HASH_MASK : Z := 2 ^ 28 - 1.
Definition JS_ATOM_HASH_SYMBOL : Z := 0.
Definition JS_ATOM_HASH_PRIVATE : Z := 1.
Definition ATOM_OVERLAY_INITIAL : Z := 64.
Definition ATOM_HASH_OVERLAY_INITIAL : Z := 64.

(** [(int32_t)v < JS_ATOM_END] *)
Definition AtomIsConst (v : Z) : bool := i32 v <? JS_ATOM_END.
Definition AtomIsTaggedInt (v : Z) : bool := negb (Z.land v JS_ATOM_TAG_INT =? 0).
Definition AtomFromUInt32 (v : Z) : Z := Z.lor v JS_ATOM_TAG_INT.
Definition AtomToUInt32 (v : Z) : Z := Z.land v (JS_ATOM_TAG_INT - 1).

(** ** Hashing *)

Definition hash32 (a : Z) : Z := u32 (a * 1640531527).

(** [hash_string8] and [hash_string16], which differ in the width they read. *)
Definition hash_units (us : list Z) (h : Z) : Z :=
  Z.lxor (foldl (fun h c => u32 (h * 263 + c)) h us) (hash32 (u32 (lenZ us))).

Section ops.
Context `{SA : StrAlloc}.
Abbreviation SS := (ST world).

Definition hash_string (p : Z) (h : Z) : SS Z := let^ us := str_units p in sret (hash_units us h).

(** [js_malloc_rt], [js_mallocz_rt] or [js_realloc_rt] of an array. *)
Definition js_array (size : Z) : SS bool :=
  scall (fun w => let '(ok, a) := arr_malloc (heap_state w) size in (ok, set_heap_state w a)).

(** ** The base table *)

(** [while (h != 0)] of [JS_ResizeAtomHash]: move a chain to the new buckets. *)
Fixpoint rehash_chain (fuel : nat) (h mask : Z) (new_hash : list Z) : SS (list Z) :=
  match fuel with
  | O => fun _ => Spins
  | S fuel =>
      if h =? 0 then sret new_hash
      else
        let^ p := js_atom_struct h in
        let^ s := str_load p in
        let hash_next1 := hash_next s in
        let j := Z.land (hash s) mask in
        let^ head := nth_word new_hash j in
        str_store p (set_hash_next s head) ;^
        let^ new_hash := set_word new_hash j h in
        rehash_chain fuel hash_next1 mask new_hash
  end.

Fixpoint rehash_all (fuel : nat) (heads : list Z) (mask : Z) (new_hash : list Z) : SS (list Z) :=
  match heads with
  | [] => sret new_hash
  | h :: heads => let^ new_hash := rehash_chain fuel h mask new_hash in rehash_all fuel heads mask new_hash
  end.

(** Whether it succeeded. *)
Definition JS_ResizeAtomHash (new_hash_size : Z) : SS bool :=
  slift (assert_ (Z.land new_hash_size (new_hash_size - 1) =? 0)) ;^
  let^ ok := js_array (4 * new_hash_size) in
  if negb ok then sret false
  else
    let^ t := sget tab in
    let^ new_hash := rehash_all (S (length (atom_array t))) (take (Z.to_nat (atom_hash_size t)) (atom_hash t)) (new_hash_size - 1)
      (replicate (Z.to_nat new_hash_size) 0) in
    smod (fun w => set_tab w {| atom_hash := new_hash; atom_hash_size := new_hash_size; atom_array := atom_array t;
      atom_size := atom_size t; atom_count := atom_count t; atom_count_resize := new_hash_size * 2; atom_free_index := atom_free_index t |}) ;^
    sret true.

(** The words of the free slots [start .. new_size). *)
Definition free_slots (start new_size : Z) : list Z :=
  (fun k => let i := start + Z.of_nat k in atom_set_free (if i =? new_size - 1 then 0 else i + 1))
    <$> seq 0 (Z.to_nat (new_size - start)).

(** [if (!rt->is_arena && rt->atom_free_index == 0)] of [__JS_NewAtom]; whether
    there was no failure. *)
Definition grow_atom_array : SS bool :=
  let^ arena := sget is_arena in
  let^ t := sget tab in
  if negb arena && (atom_free_index t =? 0) then
    let new_size := Z.max 711 (Z.quot (i32 (atom_size t * 3)) 2) in
    if JS_ATOM_MAX <? new_size then sret false
    else
      let^ ok := js_array (8 * new_size) in
      if negb ok then sret false
      else
        let^ (null_atom, failed) :=
          if atom_size t =? 0 then
            let^ p := js_malloc_string 0 true in
            if p =? 0 then sret ([], true)
            else str_store p (mkString 1 0 false 0 JS_ATOM_TYPE_SYMBOL 0 0 (Cells [])) ;^ sret ([p], false)
          else sret ([], false) in
        if failed : bool then sret false
        else
          let start := atom_size t + lenZ null_atom in
          smod (fun w => set_tab w {| atom_hash := atom_hash t; atom_hash_size := atom_hash_size t;
            atom_array := take (Z.to_nat (atom_size t)) (atom_array t) ++ null_atom ++ free_slots start new_size;
            atom_size := new_size; atom_count := atom_count t + lenZ null_atom; atom_count_resize := atom_count_resize t;
            atom_free_index := start |}) ;^ sret true
  else sret true.

(** ** The overlay *)

Definition set_overlay (r : atom_request) (l : list Z) (size count free : Z) : atom_request :=
  {| atom_overlay := Some l; atom_overlay_base := atom_overlay_base r; atom_overlay_size := size; atom_overlay_count := count;
     atom_overlay_free_index := free; atom_hash_overlay := atom_hash_overlay r; atom_hash_overlay_size := atom_hash_overlay_size r |}.
Definition set_hash_overlay (r : atom_request) (l : list Z) (size : Z) : atom_request :=
  {| atom_overlay := atom_overlay r; atom_overlay_base := atom_overlay_base r; atom_overlay_size := atom_overlay_size r;
     atom_overlay_count := atom_overlay_count r; atom_overlay_free_index := atom_overlay_free_index r;
     atom_hash_overlay := Some l; atom_hash_overlay_size := size |}.

Definition js_atom_overlay_ensure_slot : SS bool :=
  let^ r := sget req in
  if negb (atom_overlay_free_index r =? 0) then sret true
  else
    let old_size := atom_overlay_size r in
    let new_size := if old_size =? 0 then ATOM_OVERLAY_INITIAL else u32 (old_size * 2) in
    let^ ok := js_array (8 * new_size) in
    if negb ok then sret false
    else
      let start := if old_size =? 0 then 1 else old_size in
      let kept := if old_size =? 0 then [0] else take (Z.to_nat old_size) (default [] (atom_overlay r)) in
      smod (fun w => set_req w (set_overlay r (kept ++ free_slots start new_size) new_size (atom_overlay_count r) start)) ;^
      sret true.

Definition js_atom_hash_overlay_ensure : SS bool :=
  let^ r := sget req in
  match atom_hash_overlay r with
  | Some _ => sret true
  | None =>
      let^ ok := js_array (4 * ATOM_HASH_OVERLAY_INITIAL) in
      if negb ok then sret false
      else smod (fun w => set_req w (set_hash_overlay r (replicate (Z.to_nat ATOM_HASH_OVERLAY_INITIAL) 0) ATOM_HASH_OVERLAY_INITIAL)) ;^ sret true
  end.

(** ** Looking up *)

(** More than the atoms of a chain. *)
Definition chain_fuel (w : world) : nat := S (length (atom_array (tab w)) + length (default [] (atom_overlay (req w)))).

(** [while (p1 != p)] of [js_get_atom_index]. *)
Fixpoint index_loop (fuel : nat) (p i : Z) : SS Z :=
  match fuel with
  | O => fun _ => Spins
  | S fuel =>
      let^ p1 := js_atom_struct i in
      if p1 =? p then sret i
      else if i =? 0 then sabort
      else let^ s1 := str_load p1 in index_loop fuel p (hash_next s1)
  end.

Definition js_get_atom_index (p : Z) : SS Z :=
  let^ s := str_load p in
  if negb (atom_type s =? JS_ATOM_TYPE_SYMBOL) then
    let^ t := sget tab in
    let^ r := sget req in
    let^ base := base_ptr p in
    let^ i :=
      match atom_hash_overlay r with
      | Some l => if negb base then nth_word l (Z.land (hash s) (atom_hash_overlay_size r - 1))
                  else nth_word (atom_hash t) (Z.land (hash s) (atom_hash_size t - 1))
      | None => nth_word (atom_hash t) (Z.land (hash s) (atom_hash_size t - 1))
      end in
    let^ fuel := sget chain_fuel in
    index_loop fuel p i
  else sret (hash_next s).

(** [while (i != 0)] over a hash chain: the atom the test accepts, 0 if there is
    none; its count is raised. *)
Fixpoint find_in_chain (fuel : nat) (accept : Z -> JSString -> SS bool) (i : Z) : SS Z :=
  match fuel with
  | O => fun _ => Spins
  | S fuel =>
      if i =? 0 then sret 0
      else
        let^ p := js_atom_struct i in
        let^ s := str_load p in
        let^ found := accept p s in
        if found then (if negb (AtomIsConst i) then str_rc_inc p else sret tt) ;^ sret i
        else find_in_chain fuel accept (hash_next s)
  end.

(** The overlay's chain, then the base chain. *)
Definition find_atom (accept : Z -> JSString -> SS bool) (h : Z) : SS Z :=
  let^ fuel := sget chain_fuel in
  let^ r := sget req in
  let^ i :=
    match atom_hash_overlay r with
    | Some l => let^ i := nth_word l (Z.land h (atom_hash_overlay_size r - 1)) in find_in_chain fuel accept i
    | None => sret 0
    end in
  if negb (i =? 0) then sret i
  else
    let^ t := sget tab in
    let^ i := nth_word (atom_hash t) (Z.land h (atom_hash_size t - 1)) in
    find_in_chain fuel accept i.

Definition same_string (str h ty len : Z) (p : Z) (s : JSString) : SS bool :=
  if (hash s =? h) && (atom_type s =? ty) && (slen s =? len)
  then let^ r := js_string_memcmp p str len in sret (r =? 0)
  else sret false.

(** ** Interning *)

(** The atom's string: [str] itself if it is not an atom, else a copy; 0 on
    failure. *)
Definition atom_string (str ty : Z) : SS Z :=
  if negb (str =? 0) then
    let^ s := str_load str in
    if atom_type s =? 0 then str_store str (set_atom_type s ty) ;^ sret str
    else
      let^ p := js_malloc_string (slen s) (is_wide_char s) in
      if p =? 0 then sret 0
      else
        let^ l := strv str in
        let^ us := read_units l 0 (slen s + 1 - b2z (is_wide_char s)) in
        str_store p (mkString 1 (slen s) (is_wide_char s) 0 0 0 0 (Cells us)) ;^
        js_free_string str ;^ sret p
  else
    let^ p := js_malloc_string 0 true in
    if p =? 0 then sret 0
    else str_store p (mkString 1 0 true 0 0 0 0 (Cells [])) ;^ sret p.

(** A slot for the atom [p]: its index, 0 when there is none. *)
Definition atom_slot (p : Z) : SS Z :=
  let^ arena := sget is_arena in
  if arena then
    let^ ok := js_atom_overlay_ensure_slot in
    if negb ok then sret 0
    else
      let^ r := sget req in
      let l := default [] (atom_overlay r) in
      let rel := atom_overlay_free_index r in
      let^ next := nth_word l rel in
      let^ l := set_word l rel p in
      smod (fun w => set_req w (set_overlay r l (atom_overlay_size r) (atom_overlay_count r + 1) (atom_get_free next))) ;^
      sret (u32 (atom_overlay_base r + rel))
  else
    let^ t := sget tab in
    let i := atom_free_index t in
    let^ next := nth_word (atom_array t) i in
    let^ l := set_word (atom_array t) i p in
    smod (fun w => set_tab w {| atom_hash := atom_hash t; atom_hash_size := atom_hash_size t; atom_array := l;
      atom_size := atom_size t; atom_count := atom_count t; atom_count_resize := atom_count_resize t; atom_free_index := atom_get_free next |}) ;^
    sret i.

Definition set_atom_count (t : atom_table) (n : Z) : atom_table :=
  {| atom_hash := atom_hash t; atom_hash_size := atom_hash_size t; atom_array := atom_array t; atom_size := atom_size t;
     atom_count := n; atom_count_resize := atom_count_resize t; atom_free_index := atom_free_index t |}.

(** Link the atom into its hash chain; whether it succeeded. *)
Definition link_atom (p i h : Z) : SS bool :=
  let^ arena := sget is_arena in
  if arena then
    let^ ok := js_atom_hash_overlay_ensure in
    if negb ok then sret false
    else
      let^ r := sget req in
      let l := default [] (atom_hash_overlay r) in
      let b := Z.land h (atom_hash_overlay_size r - 1) in
      let^ head := nth_word l b in
      let^ s := str_load p in
      str_store p (set_hash_next s head) ;^
      let^ l := set_word l b i in
      smod (fun w => set_req w (set_hash_overlay r l (atom_hash_overlay_size r))) ;^ sret true
  else
    let^ t := sget tab in
    let b := Z.land h (atom_hash_size t - 1) in
    let^ head := nth_word (atom_hash t) b in
    let^ s := str_load p in
    str_store p (set_hash_next s head) ;^
    let^ l := set_word (atom_hash t) b i in
    smod (fun w => set_tab w (set_atom_hash t l)) ;^
    (if atom_count_resize t <=? atom_count t then let^ _ := JS_ResizeAtomHash (atom_hash_size t * 2) in sret tt else sret tt) ;^
    sret true.

(** The labels [done] and [fail]. *)
Definition done_atom (str i : Z) : SS Z := (if negb (str =? 0) then js_free_string str else sret tt) ;^ sret i.

(** [__JS_NewAtom] from the slot for [p] on. *)
Definition place_atom (str p ty h : Z) : SS Z :=
  let^ i := atom_slot p in
  let^ arena := sget is_arena in
  if arena && (i =? 0) then done_atom str JS_ATOM_NULL
  else
    let^ s := str_load p in
    str_store p (set_first_weak_ref (set_atom_type (set_hash_next (set_hash s h) i) ty) 0) ;^
    (if negb arena then smod (fun w => set_tab w (set_atom_count (tab w) (atom_count (tab w) + 1))) else sret tt) ;^
    let^ ok := if negb (ty =? JS_ATOM_TYPE_SYMBOL) then link_atom p i h else sret true in
    if ok then sret i else done_atom str JS_ATOM_NULL.

(** [__JS_NewAtom] from the growth of the array on. *)
Definition new_atom (str ty h : Z) : SS Z :=
  let^ ok := grow_atom_array in
  if negb ok then done_atom str JS_ATOM_NULL
  else
    let^ p := atom_string str ty in
    if p =? 0 then (if negb (str =? 0) then done_atom str JS_ATOM_NULL else sret JS_ATOM_NULL)
    else place_atom str p ty h.

(** [__JS_NewAtom]: the atom, [JS_ATOM_NULL] on failure; [str] is freed. *)
Definition NewAtom (str ty : Z) : SS Z :=
  if ty <? JS_ATOM_TYPE_SYMBOL then
    let^ s := str_load str in
    if atom_type s =? ty then
      let^ i := js_get_atom_index str in
      (if AtomIsConst i then let^ _ := str_rc_dec str in sret tt else sret tt) ;^ sret i
    else
      let^ h := hash_string str ty in
      let h := Z.land h JS_ATOM_HASH_MASK in
      let^ i := find_atom (same_string str h ty (slen s)) h in
      if negb (i =? 0) then done_atom str i else new_atom str ty h
  else if ty =? JS_ATOM_TYPE_SYMBOL then new_atom str ty JS_ATOM_HASH_SYMBOL
  else new_atom str JS_ATOM_TYPE_SYMBOL JS_ATOM_HASH_PRIVATE.

Definition NewAtomInit (us : list Z) (ty : Z) : SS Z :=
  let^ r := js_new_string8_len us in
  match r with RString p => NewAtom p ty | _ => sret JS_ATOM_NULL end.

(** [__JS_FindAtom] of 8-bit units. *)
Definition FindAtom (us : list Z) : SS Z :=
  let h := Z.land (hash_units us JS_ATOM_TYPE_STRING) JS_ATOM_HASH_MASK in
  find_atom (fun p s =>
    if (hash s =? h) && (atom_type s =? JS_ATOM_TYPE_STRING) && (slen s =? lenZ us) && negb (is_wide_char s)
    then let^ l := strv p in let^ vs := read_units l 0 (lenZ us) in sret (memcmp16 vs us =? 0)
    else sret false) h.

(** ** Counts *)

Definition JS_DupAtom (v : Z) : SS Z :=
  (if negb (AtomIsConst v) then let^ p := js_atom_struct v in str_rc_inc p else sret tt) ;^ sret v.

Definition FreeAtom (i : Z) : SS unit :=
  let^ p := js_atom_struct i in
  let^ n := str_rc_dec p in
  if 0 <? n then sret tt else JS_FreeAtomStruct p.

Definition JS_FreeAtom (v : Z) : SS unit := if negb (AtomIsConst v) then FreeAtom v else sret tt.

(** ** Symbols *)

Definition JS_NewSymbolInternal (p ty : Z) : SS str_result :=
  let^ atom := NewAtom p ty in
  if atom =? JS_ATOM_NULL then sret ROutOfMemory
  else let^ p := js_atom_struct atom in sret (RString p).

Definition JS_NewSymbolFromAtom (descr ty : Z) : SS str_result :=
  slift (assert_ (negb (AtomIsTaggedInt descr))) ;^
  let^ t := sget tab in
  slift (assert_ (descr <? atom_size t)) ;^
  let^ p := js_atom_struct descr in
  str_rc_inc p ;^
  JS_NewSymbolInternal p ty.

(** ** Start of a request *)

(** The atom fields of [js_init_request_state]: the overlay of a request starts
    empty, with the base array's size as its threshold. *)
Definition init_request_atoms (template : atom_request) (t : atom_table) : atom_request :=
  {| atom_overlay := atom_overlay template; atom_overlay_base := atom_size t; atom_overlay_size := atom_overlay_size template;
     atom_overlay_count := atom_overlay_count template; atom_overlay_free_index := 0;
     atom_hash_overlay := atom_hash_overlay template; atom_hash_overlay_size := atom_hash_overlay_size template |}.

End ops.
