(* ===== verification/JsStringProofs.v ===== *)
(** * Strings: the heap invariant

    What a string shows ([contents]), when the heap of strings is well formed,
    and that reference counts keep every string someone holds, and the parent of
    every slice, alive. *)

From stdpp Require Import base list numbers gmap fin_maps.
From Stdlib Require Import ZArith Lia.
From S2P Require Import Prelude StateRun BaseRanges Utf8 Utf8Proofs JsString.

#[local] Open Scope Z_scope.
#[local] Open Scope st_scope.

(** ** Contents *)

Definition cells_of (h : gmap Z JSString) (s : JSString) : option (list Z) :=
  match tail s with
  | Cells l => Some l
  | SliceOf parent start =>
      match h !! parent with
      | Some q => match tail q with Cells l => Some (drop (Z.to_nat (Z.shiftr start (b2z (is_wide_char s)))) l) | _ => None end
      | None => None
      end
  | IndirectTo l => Some l
  end.

(** The units of a string. *)
Definition contents (h : gmap Z JSString) (p : Z) : option (list Z) :=
  match h !! p with
  | Some s =>
      match cells_of h s with
      | Some l => if (0 <=? slen s) && (slen s <=? lenZ l) then Some (take (Z.to_nat (slen s)) l) else None
      | None => None
      end
  | None => None
  end.

(** Units of the width the string declares. *)
Definition unit_ok (wide : bool) (c : Z) : Prop := 0 <= c < (if wide then 65536 else 256).

Definition str_ok (h : gmap Z JSString) (s : JSString) : Prop :=
  0 <= slen s < 2 ^ 31 /\
  match tail s with
  | Cells l =>
      slen s <= lenZ l /\ Forall (unit_ok (is_wide_char s)) (take (Z.to_nat (slen s)) l) /\
      (is_wide_char s = false -> atom_type s <> JS_ATOM_TYPE_SYMBOL -> l !! Z.to_nat (slen s) = Some 0)
  | SliceOf parent start =>
      exists q l k, h !! parent = Some q /\ tail q = Cells l /\ is_wide_char q = is_wide_char s /\
        start = Z.shiftl k (b2z (is_wide_char s)) /\ 0 <= k /\ k + slen s <= slen q
  | IndirectTo l => is_wide_char s = false /\ slen s <= lenZ l /\ Forall (unit_ok false) (take (Z.to_nat (slen s)) l)
  end.

Definition is_slice_of (p : Z) (s : JSString) : bool := match tail s with SliceOf q _ => q =? p | _ => false end.

(** How many slices have [p] as their parent. *)
Definition slices (h : gmap Z JSString) (p : Z) : Z := Z.of_nat (size (filter (fun kv => is_slice_of p kv.2 = true) h)).

Section proofs.
Context `{SA : StrAlloc}.

Definition is_base (w : world) (p : Z) : bool := js_arena_ptr_is_base (ranges w) p.

(** The allocator returns aligned memory that is neither in use nor base
    memory. *)
Class StrAllocLaws (rng : base_ranges) : Prop :=
  str_malloc_fresh : forall a h n p a', str_malloc a h n = (p, a') ->
    p = 0 \/ (0 < p /\ h !! p = None /\ js_arena_ptr_is_base rng p = false /\ Z.even p = true).

(** The heap during a request, with the number of references [refs p] held from
    outside on each string: every string is well formed; the count of a request
    string is its references and its slices; strings that are not atoms have one;
    base slices have base parents. *)
Record strings_ok (w : world) (refs : Z -> Z) : Prop := {
  so_arena : is_arena w = true;
  so_str : forall p s, strs w !! p = Some s -> p <> 0 /\ str_ok (strs w) s;
  so_refs : forall p, 0 <= refs p /\ (1 <= refs p -> is_Some (strs w !! p));
  so_count : forall p s, strs w !! p = Some s -> is_base w p = false -> ref_count s = refs p + slices (strs w) p;
  so_alive : forall p s, strs w !! p = Some s -> is_base w p = false -> atom_type s = 0 -> 1 <= ref_count s;
  so_base : forall p s q st, strs w !! p = Some s -> tail s = SliceOf q st -> is_base w p = true -> is_base w q = true
}.

(** One reference more, one less. *)
Definition take_ref (refs : Z -> Z) (p : Z) : Z -> Z := fun q => if q =? p then refs q + 1 else refs q.
Definition drop_ref (refs : Z -> Z) (p : Z) : Z -> Z := fun q => if q =? p then refs q - 1 else refs q.

(** ** Counting slices *)

Lemma slices_nonneg h p : 0 <= slices h p.
Proof. unfold slices. lia. Qed.

Lemma slices_insert_new h q s p :
  h !! q = None -> slices (<[q := s]> h) p = slices h p + b2z (is_slice_of p s).
Proof.
  intros Hq. unfold slices. rewrite map_filter_insert. simpl. case_decide as E.
  - rewrite map_size_insert_None by (apply map_lookup_filter_None; by left). rewrite E. simpl. lia.
  - rewrite map_filter_delete, delete_id by (apply map_lookup_filter_None; by left). apply not_true_is_false in E. rewrite E. simpl. lia.
Qed.

Lemma slices_delete h q s p :
  h !! q = Some s -> slices (delete q h) p = slices h p - b2z (is_slice_of p s).
Proof.
  intros Hq. rewrite <- (insert_delete_id h q s Hq) at 2. rewrite slices_insert_new by apply lookup_delete_eq. lia.
Qed.

Lemma slices_insert h q s s' p :
  h !! q = Some s -> slices (<[q := s']> h) p = slices h p - b2z (is_slice_of p s) + b2z (is_slice_of p s').
Proof.
  intros Hq. rewrite <- insert_delete_eq, slices_insert_new by apply lookup_delete_eq. rewrite (slices_delete h q s) by done. lia.
Qed.

Lemma slices_pos h p q s st : h !! q = Some s -> tail s = SliceOf p st -> 1 <= slices h p.
Proof.
  intros Hq Ht. pose proof (slices_nonneg (delete q h) p) as H. rewrite (slices_delete h q s p Hq) in H.
  unfold is_slice_of in H. rewrite Ht, Z.eqb_refl in H. simpl in H. lia.
Qed.

(** ** Stores that keep the text *)

Definition same_text (s s' : JSString) : Prop := slen s' = slen s /\ is_wide_char s' = is_wide_char s /\ tail s' = tail s.

(** [h'] has the text of the string [h] has at [p]. *)
Definition keeps (h h' : gmap Z JSString) (p : Z) : Prop :=
  forall s, h !! p = Some s -> exists s', h' !! p = Some s' /\ same_text s s'.

Lemma keep_refl h p : keeps h h p.
Proof. intros s Hs. by exists s. Qed.

Lemma keep_trans h1 h2 h3 p : keeps h1 h2 p -> keeps h2 h3 p -> keeps h1 h3 p.
Proof.
  intros H1 H2 s Hs. destruct (H1 s Hs) as (s' & Hs' & A & B & C). destruct (H2 s' Hs') as (s'' & Hs'' & A' & B' & C').
  exists s''. split; [done |]. split_and!; congruence.
Qed.

Lemma keeps_insert h p s s' q : h !! p = Some s -> same_text s s' -> keeps h (<[p := s']> h) q.
Proof.
  intros Hp Hs t Ht. destruct (decide (q = p)) as [-> | Hne].
  - rewrite Hp in Ht. injection Ht as <-. exists s'. by rewrite lookup_insert_eq.
  - exists t. by rewrite lookup_insert_ne.
Qed.

Lemma keeps_insert_new h p s q : h !! p = None -> keeps h (<[p := s]> h) q.
Proof. intros Hp t Ht. exists t. rewrite lookup_insert_ne by congruence. done. Qed.

Lemma keeps_delete h p q : q <> p -> keeps h (delete p h) q.
Proof. intros Hne s Hs. exists s. by rewrite lookup_delete_ne. Qed.

Lemma cells_keeps h h' s s' l :
  cells_of h s = Some l -> same_text s s' -> (forall q st, tail s = SliceOf q st -> keeps h h' q) -> cells_of h' s' = Some l.
Proof.
  intros Hc (E1 & E2 & E3) Hk. unfold cells_of in *. rewrite E3, E2. destruct (tail s) as [l0 | q st | l0]; try done.
  destruct (h !! q) as [t |] eqn:Eq; [| done]. destruct (Hk q st eq_refl t Eq) as (t' & -> & _ & _ & ->). done.
Qed.

Lemma contents_keeps h h' p us :
  contents h p = Some us -> keeps h h' p -> (forall s q st, h !! p = Some s -> tail s = SliceOf q st -> keeps h h' q) ->
  contents h' p = Some us.
Proof.
  intros Hc Hk Hq. unfold contents in *. destruct (h !! p) as [s |] eqn:Es; [| done]. destruct (Hk s Es) as (s' & -> & Ht).
  destruct (cells_of h s) as [l |] eqn:El; [| done]. rewrite (cells_keeps h h' s s' l El Ht) by (by intros q st; apply Hq).
  destruct Ht as (-> & _). done.
Qed.

Lemma str_ok_keeps h h' s s' :
  str_ok h s -> same_text s s' -> (atom_type s' <> JS_ATOM_TYPE_SYMBOL -> atom_type s <> JS_ATOM_TYPE_SYMBOL) ->
  (forall q st, tail s = SliceOf q st -> keeps h h' q) -> str_ok h' s'.
Proof.
  intros [Hl Ht] (E1 & E2 & E3) Ha Hk. unfold str_ok. rewrite E1, E2, E3. split; [done |]. destruct (tail s) as [l | q st | l]; [| | done].
  - destruct Ht as (A & B & C). split_and!; try done. intros Hw Hs. by apply C; [| apply Ha].
  - destruct Ht as (t & l & k & Hq & Htt & Hw & Hst). destruct (Hk q st eq_refl t Hq) as (t' & Hq' & A & B & C).
    exists t', l, k. rewrite Hq', C, B, A. done.
Qed.

Lemma unshift k b : Z.shiftr (Z.shiftl k (b2z b)) (b2z b) = k.
Proof. rewrite Z.shiftr_shiftl_l, Z.sub_diag, Z.shiftl_0_r by (by destruct b). done. Qed.

Definition heap_ok (h : gmap Z JSString) : Prop := forall p s, h !! p = Some s -> str_ok h s.

Lemma take_drop_within {A} (l : list A) (k n m : nat) : (k + n <= m)%nat -> take n (drop k l) = take n (drop k (take m l)).
Proof. intros H. by rewrite !take_drop_commute, take_take, Nat.min_l by lia. Qed.

(** A well formed string has contents: as many units as it says, of the width it
    says; those of a slice are a part of its parent's. *)
Lemma heap_ok_contents h p s :
  heap_ok h -> h !! p = Some s ->
  exists l us, cells_of h s = Some l /\ contents h p = Some us /\ slen s <= lenZ l /\ us = take (Z.to_nat (slen s)) l /\
    lenZ us = slen s /\ Forall (unit_ok (is_wide_char s)) us.
Proof.
  intros Hh Hp. destruct (Hh p s Hp) as [Hl Ht].
  assert (G : exists l, cells_of h s = Some l /\ slen s <= lenZ l /\ Forall (unit_ok (is_wide_char s)) (take (Z.to_nat (slen s)) l)).
  { unfold cells_of. destruct (tail s) as [l | q st | l].
    - exists l. by destruct Ht as (? & ? & _).
    - destruct Ht as (t & l & k & Hq & Htt & Hw & -> & Hk & Hle). rewrite Hq, Htt, unshift. eexists. split; [done |].
      destruct (Hh q t Hq) as [Hlt Htq]. rewrite Htt in Htq. destruct Htq as (Hln & Hu & _). split; [unfold lenZ in *; rewrite length_drop; lia |].
      rewrite (take_drop_within l _ _ (Z.to_nat (slen t))) by lia. rewrite <- Hw. by apply Forall_take, Forall_drop.
    - destruct Ht as (-> & ? & ?). by exists l. }
  destruct G as (l & Hc & Hln & Hu). exists l, (take (Z.to_nat (slen s)) l). split; [done |]. split.
  { unfold contents. rewrite Hp, Hc. destruct (Z.leb_spec 0 (slen s)), (Z.leb_spec (slen s) (lenZ l)); try lia. done. }
  split_and!; try done. unfold lenZ in *. rewrite length_take. lia.
Qed.

Lemma strv_run w p s l : strs w !! p = Some s -> cells_of (strs w) s = Some l -> strv p w = Done (l, w).
Proof.
  intros Hp Hc. unfold strv, sbind, str_load, sderef. rewrite Hp. cbn [run_bind]. unfold cells_of in Hc.
  destruct (tail s) as [l0 | q st | l0]; [by injection Hc as -> | | by injection Hc as ->].
  destruct (strs w !! q) as [t |]; [| done]. cbn [run_bind]. destruct (tail t); try done. by injection Hc as <-.
Qed.

Lemma read_units_run (w : world) l i n : 0 <= i -> 0 <= n -> i + n <= lenZ l -> read_units l i n w = Done (take (Z.to_nat n) (drop (Z.to_nat i) l), w).
Proof. intros. unfold read_units. destruct (Z.leb_spec 0 i), (Z.leb_spec 0 n), (Z.leb_spec (i + n) (lenZ l)); try lia. done. Qed.

Lemma str_units_run w p us : contents (strs w) p = Some us -> str_units p w = Done (us, w).
Proof.
  unfold contents, str_units, sbind, str_load, sderef. intros H. destruct (strs w !! p) as [s |] eqn:Es; [| done]. cbn [run_bind].
  destruct (cells_of (strs w) s) as [l |] eqn:El; [| done]. rewrite (strv_run w p s l Es El). cbn [run_bind].
  destruct (Z.leb_spec 0 (slen s)), (Z.leb_spec (slen s) (lenZ l)); try done. simpl in H. injection H as <-. by rewrite read_units_run by lia.
Qed.

(** ** Counting references *)

Lemma strs_set w h : strs (set_strs w h) = h.
Proof. done. Qed.

Lemma strings_heap_ok w refs : strings_ok w refs -> heap_ok (strs w).
Proof. intros H p s Hp. by apply (so_str _ _ H p). Qed.

Lemma same_text_rc s n : same_text s (set_ref_count s n).
Proof. done. Qed.

Lemma slices_rc h p s n q : h !! p = Some s -> slices (<[p := set_ref_count s n]> h) q = slices h q.
Proof. intros Hp. rewrite (slices_insert h p s) by done. unfold is_slice_of. simpl. lia. Qed.

(** Change the count and the references of one string together. *)
Lemma ok_recount w refs p s d :
  strings_ok w refs -> strs w !! p = Some s -> is_base w p = false -> 0 <= refs p + d -> (atom_type s = 0 -> 1 <= ref_count s + d) ->
  strings_ok (set_strs w (<[p := set_ref_count s (ref_count s + d)]> (strs w))) (fun q => if q =? p then refs q + d else refs q).
Proof.
  intros H Hp Hb Hr Ha. split; unfold is_base in *; simpl; try exact (so_arena _ _ H).
  - intros q t Hq. assert (G : exists t0, strs w !! q = Some t0 /\ same_text t0 t /\ atom_type t = atom_type t0).
    { destruct (decide (q = p)) as [-> | Hne]; [rewrite lookup_insert_eq in Hq; injection Hq as <-; by exists s |]. rewrite lookup_insert_ne in Hq by done. by exists t. }
    destruct G as (t0 & Ht0 & Hst & Hat). destruct (so_str _ _ H q t0 Ht0) as [Hq0 Hok]. split; [done |].
    apply (str_ok_keeps (strs w) _ t0 t); [done | done | by rewrite Hat |]. intros r st _. by apply (keeps_insert _ _ s).
  - intros q. destruct (so_refs _ _ H q) as [A B]. destruct (Z.eqb_spec q p) as [-> | Hne]; [split; [lia |]; intros _; rewrite lookup_insert_eq; by eexists |].
    rewrite lookup_insert_ne by done. done.
  - intros q t Hq Hqb. rewrite slices_rc by done. destruct (Z.eqb_spec q p) as [-> | Hne].
    + rewrite lookup_insert_eq in Hq. injection Hq as <-. simpl. rewrite (so_count _ _ H p s Hp Hb). lia.
    + rewrite lookup_insert_ne in Hq by done. by apply (so_count _ _ H).
  - intros q t Hq Hqb Hat. destruct (decide (q = p)) as [-> | Hne].
    + rewrite lookup_insert_eq in Hq. injection Hq as <-. simpl in *. by apply Ha.
    + rewrite lookup_insert_ne in Hq by done. by apply (so_alive _ _ H q).
  - intros q t r st Hq Ht. destruct (decide (q = p)) as [-> | Hne].
    + rewrite lookup_insert_eq in Hq. injection Hq as <-. by apply (so_base _ _ H p s r st).
    + rewrite lookup_insert_ne in Hq by done. by apply (so_base _ _ H q t r st).
Qed.

(** References that agree are as good. *)
Lemma strings_ok_ext w refs refs' : (forall q, refs q = refs' q) -> strings_ok w refs -> strings_ok w refs'.
Proof.
  intros E H. split; [exact (so_arena _ _ H) | exact (so_str _ _ H) | | | exact (so_alive _ _ H) | exact (so_base _ _ H)].
  - intros p. rewrite <- E. apply (so_refs _ _ H).
  - intros p s. rewrite <- E. apply (so_count _ _ H).
Qed.

(** References on base strings are not counted. *)
Lemma ok_base_ref w refs p d :
  strings_ok w refs -> is_base w p = true -> is_Some (strs w !! p) -> 0 <= refs p + d -> strings_ok w (fun q => if q =? p then refs q + d else refs q).
Proof.
  intros H Hb Hs Hr. split; [exact (so_arena _ _ H) | exact (so_str _ _ H) | | | exact (so_alive _ _ H) | exact (so_base _ _ H)].
  - intros q. destruct (Z.eqb_spec q p) as [-> | Hne]; [done | apply (so_refs _ _ H)].
  - intros q s Hq Hqb. destruct (Z.eqb_spec q p) as [-> | Hne]; [congruence | by apply (so_count _ _ H)].
Qed.

(** [arena_rc_inc] as a function of the heap. *)
Definition rc_incremented (w : world) (p : Z) (s : JSString) : world :=
  if is_base w p then w else set_strs w (<[p := set_ref_count s (ref_count s + 1)]> (strs w)).

Lemma rc_inc_run w p s : strs w !! p = Some s -> str_rc_inc p w = Done (tt, rc_incremented w p s).
Proof.
  intros Hp. unfold str_rc_inc, sbind, base_ptr, sget, rc_incremented, is_base. cbn [run_bind].
  destruct (js_arena_ptr_is_base (ranges w) p); [done |]. unfold str_load, sderef. by rewrite Hp.
Qed.

Lemma rc_inc_ok w refs p s : strings_ok w refs -> strs w !! p = Some s -> strings_ok (rc_incremented w p s) (take_ref refs p).
Proof.
  intros H Hp. unfold rc_incremented, take_ref. destruct (so_refs _ _ H p) as [Hr _]. destruct (is_base w p) eqn:Eb.
  - apply ok_base_ref; [done | done | by eexists | lia].
  - apply ok_recount; [done | done | done | lia |]. intros Ha. pose proof (so_alive _ _ H p s Hp Eb Ha). lia.
Qed.

Lemma rc_inc_keeps w p s q : strs w !! p = Some s -> keeps (strs w) (strs (rc_incremented w p s)) q.
Proof. intros Hp. unfold rc_incremented. destruct (is_base w p); [apply keep_refl |]. by apply (keeps_insert _ _ s). Qed.

(** ** Freeing *)

Definition not_slice (s : JSString) : Prop := forall q st, tail s <> SliceOf q st.

(** [js_free_string] of a string that is not a slice, as a function of the heap. *)
Definition freed (w : world) (p : Z) (s : JSString) (h : gmap Z JSString) : gmap Z JSString :=
  if is_base w p then h
  else if (ref_count s - 1 <=? 0) && (atom_type s =? 0) then delete p h
  else <[p := set_ref_count s (ref_count s - 1)]> h.

Lemma set_strs_strs w : set_strs w (strs w) = w.
Proof. by destruct w. Qed.

Lemma rc_dec_run w p s :
  strs w !! p = Some s ->
  str_rc_dec p w = if is_base w p then Done (1, w)
                   else Done (ref_count s - 1, set_strs w (<[p := set_ref_count s (ref_count s - 1)]> (strs w))).
Proof.
  intros Hp. unfold str_rc_dec, sbind, base_ptr, sget, is_base. cbn [run_bind].
  destruct (js_arena_ptr_is_base (ranges w) p); [done |]. unfold str_load, sderef. by rewrite Hp.
Qed.

Lemma free_plain_run d w p s :
  is_arena w = true -> strs w !! p = Some s -> not_slice s -> free_string (S d) p w = Done (tt, set_strs w (freed w p s (strs w))).
Proof.
  intros Ha Hp Hn. cbn [free_string]. unfold sbind at 1. rewrite (rc_dec_run w p s Hp). unfold freed. destruct (is_base w p) eqn:Eb; cbn [run_bind].
  { simpl. by rewrite set_strs_strs. }
  destruct (Z.leb_spec (ref_count s - 1) 0) as [L | L]; [| done]. unfold sbind, str_load, sderef. simpl strs. rewrite lookup_insert_eq. cbn [run_bind].
  change (atom_type (set_ref_count s (ref_count s - 1))) with (atom_type s). change (tail (set_ref_count s (ref_count s - 1))) with (tail s).
  destruct (Z.eqb_spec (atom_type s) 0) as [E | E]; cbn [negb].
  - destruct (tail s) as [l | q st | l] eqn:Et; [| by destruct (Hn q st) |];
      unfold sbind, sret, str_delete, smod, set_strs; cbn [run_bind strs ranges is_arena tab req heap_state andb]; by rewrite delete_insert_eq.
  - unfold JS_FreeAtomStruct, sbind, sget. cbn. rewrite Ha. done.
Qed.

Lemma drop_ref_alive w refs p s :
  strings_ok w refs -> strs w !! p = Some s -> is_base w p = false -> 1 <= refs p -> ref_count s - 1 <= 0 ->
  refs p = 1 /\ slices (strs w) p = 0.
Proof. intros H Hp Hb Hr Hc. rewrite (so_count _ _ H p s Hp Hb) in Hc. pose proof (slices_nonneg (strs w) p). lia. Qed.

Lemma no_slices h p q s st : slices h p = 0 -> h !! q = Some s -> tail s = SliceOf p st -> False.
Proof. intros H0 Hq Ht. pose proof (slices_pos h p q s st Hq Ht). lia. Qed.

(** Delete a string nobody refers to any more and that is not a slice. *)
Lemma ok_delete w refs p s :
  strings_ok w refs -> strs w !! p = Some s -> is_base w p = false -> refs p = 1 -> slices (strs w) p = 0 ->
  (forall q, slices (delete p (strs w)) q = slices (strs w) q) ->
  strings_ok (set_strs w (delete p (strs w))) (drop_ref refs p).
Proof.
  intros H Hp Hb Hr Hs Hsl. split; unfold is_base, drop_ref in *; simpl; try exact (so_arena _ _ H).
  - intros q t Hq. apply lookup_delete_Some in Hq as [Hne Hq]. destruct (so_str _ _ H q t Hq) as [Hq0 Hok]. split; [done |].
    apply (str_ok_keeps (strs w) _ t t); [done | done | done |]. intros r st Ht. apply keeps_delete. intros ->.
    by apply (no_slices _ p q t st Hs).
  - intros q. destruct (so_refs _ _ H q) as [A B]. destruct (Z.eqb_spec q p) as [-> | Hne]; [split; lia |]. split; [done |].
    intros L. rewrite lookup_delete_ne by done. by apply B.
  - intros q t Hq Hqb. apply lookup_delete_Some in Hq as [Hne Hq]. rewrite Hsl. destruct (Z.eqb_spec q p); [congruence |]. by apply (so_count _ _ H).
  - intros q t Hq Hqb Hat. apply lookup_delete_Some in Hq as [Hne Hq]. by apply (so_alive _ _ H q).
  - intros q t r st Hq Ht. apply lookup_delete_Some in Hq as [Hne Hq]. by apply (so_base _ _ H q t r st).
Qed.

Lemma not_slice_b2z s p : not_slice s -> b2z (is_slice_of p s) = 0.
Proof. intros H. unfold is_slice_of. destruct (tail s) as [l | q st | l] eqn:E; [done | by destruct (H q st) | done]. Qed.

Lemma freed_ok w refs p s :
  strings_ok w refs -> strs w !! p = Some s -> not_slice s -> 1 <= refs p -> strings_ok (set_strs w (freed w p s (strs w))) (drop_ref refs p).
Proof.
  intros H Hp Hn Hr. unfold freed. destruct (is_base w p) eqn:Eb.
  - rewrite set_strs_strs. apply (strings_ok_ext _ (fun q => if q =? p then refs q + -1 else refs q)); [done |]. apply ok_base_ref; [done | done | by eexists | lia].
  - destruct (Z.leb_spec (ref_count s - 1) 0) as [L | L], (Z.eqb_spec (atom_type s) 0) as [E | E]; cbn [andb].
    1: { destruct (drop_ref_alive w refs p s H Hp Eb Hr L) as [Hr1 Hs0]. apply (ok_delete w refs p s); try done.
      intros q. rewrite (slices_delete _ p s) by done. rewrite (not_slice_b2z s q Hn). lia. }
    all: apply (strings_ok_ext _ (fun q => if q =? p then refs q + -1 else refs q)); [done |]; apply (ok_recount w refs p s (-1)); try done; try lia.
Qed.

(** What is still held is still there. *)
Definition held (w : world) (refs : Z -> Z) (p : Z) : Prop := 1 <= refs p \/ is_base w p = true.

Lemma freed_keeps w refs p s q :
  strings_ok w refs -> strs w !! p = Some s -> 1 <= refs p -> (q = p -> held w (drop_ref refs p) p \/ 1 <= slices (strs w) p) ->
  keeps (strs w) (freed w p s (strs w)) q.
Proof.
  intros H Hp Hr Hq. unfold freed. destruct (is_base w p) eqn:Eb; [apply keep_refl |].
  destruct ((ref_count s - 1 <=? 0) && (atom_type s =? 0)) eqn:E; [| by apply (keeps_insert _ _ s)]. apply keeps_delete. intros ->.
  apply andb_true_iff in E as [E _]. apply Z.leb_le in E. destruct (drop_ref_alive w refs p s H Hp Eb Hr E) as [Hr1 Hs0].
  destruct (Hq eq_refl) as [[Hh | Hh] | Hh]; [unfold drop_ref in Hh; rewrite Z.eqb_refl in Hh; lia | congruence | lia].
Qed.

(** Contents of what is held survive. *)
Lemma freed_contents w refs p s q us :
  strings_ok w refs -> strs w !! p = Some s -> 1 <= refs p -> held w (drop_ref refs p) q ->
  contents (strs w) q = Some us -> contents (freed w p s (strs w)) q = Some us.
Proof.
  intros H Hp Hr Hq Hc. apply (contents_keeps (strs w)); [done | |].
  - apply (freed_keeps w refs); try done. intros ->. by left.
  - intros t r st Ht Htt. apply (freed_keeps w refs); try done. intros ->. right. by apply (slices_pos _ p q t st).
Qed.

Lemma slice_parent w refs p s q st :
  strings_ok w refs -> strs w !! p = Some s -> tail s = SliceOf q st -> exists t, strs w !! q = Some t /\ not_slice t /\ q <> p.
Proof.
  intros H Hp Ht. destruct (so_str _ _ H p s Hp) as [_ [_ Hok]]. rewrite Ht in Hok. destruct Hok as (t & l & k & Hq & Htt & _).
  exists t. split; [done |]. split; [intros r st' E; congruence |]. intros ->. congruence.
Qed.

Lemma free_slice_run w p s q st t :
  is_arena w = true -> strs w !! p = Some s -> tail s = SliceOf q st -> strs w !! q = Some t -> not_slice t -> q <> p ->
  js_free_string p w = Done (tt, set_strs w (
    if is_base w p then strs w
    else if (ref_count s - 1 <=? 0) && (atom_type s =? 0) then freed w q t (delete p (strs w))
    else <[p := set_ref_count s (ref_count s - 1)]> (strs w))).
Proof.
  intros Ha Hp Ht Hq Hn Hne. unfold js_free_string. cbn [free_string]. unfold sbind at 1. rewrite (rc_dec_run w p s Hp).
  destruct (is_base w p) eqn:Eb; cbn [run_bind]; [simpl; by rewrite set_strs_strs |].
  destruct (Z.leb_spec (ref_count s - 1) 0) as [L | L]; [| done]. set (h1 := <[p := set_ref_count s (ref_count s - 1)]> (strs w)).
  unfold sbind, str_load, sderef. simpl strs. unfold h1 at 1. rewrite lookup_insert_eq. cbn [run_bind].
  change (atom_type (set_ref_count s (ref_count s - 1))) with (atom_type s). change (tail (set_ref_count s (ref_count s - 1))) with (tail s).
  destruct (Z.eqb_spec (atom_type s) 0) as [E | E]; cbn [negb andb].
  - rewrite Ht. assert (Hq1 : strs (set_strs w h1) !! q = Some t) by (unfold h1; simpl; by rewrite lookup_insert_ne).
    pose proof (free_plain_run 0 (set_strs w h1) q t Ha Hq1 Hn) as Hf. cbn [free_string] in Hf. unfold sbind, str_load, sderef in Hf. rewrite Hf. cbn [run_bind].
    unfold str_delete, smod, set_strs. cbn [strs ranges is_arena tab req heap_state]. do 3 f_equal.
    unfold freed, is_base, h1. cbn [ranges strs]. destruct (js_arena_ptr_is_base (ranges w) q); [by rewrite delete_insert_eq |].
    destruct ((ref_count t - 1 <=? 0) && (atom_type t =? 0)).
    + by rewrite delete_delete, delete_insert_eq, delete_delete.
    + rewrite delete_insert_ne by done. by rewrite delete_insert_eq.
  - unfold JS_FreeAtomStruct, sbind, sget. cbn. rewrite Ha. done.
Qed.

(** Delete a slice nobody refers to, and hold its parent instead. *)
Lemma ok_delete_slice w refs p s q st :
  strings_ok w refs -> strs w !! p = Some s -> tail s = SliceOf q st -> is_base w p = false -> refs p = 1 -> slices (strs w) p = 0 -> q <> p ->
  strings_ok (set_strs w (delete p (strs w))) (take_ref (drop_ref refs p) q).
Proof.
  intros H Hp Htl Hb Hr Hs Hne. assert (Hsl : forall r, slices (delete p (strs w)) r = slices (strs w) r - b2z (q =? r)).
  { intros r. rewrite (slices_delete _ p s) by done. unfold is_slice_of. by rewrite Htl. }
  destruct (slice_parent w refs p s q st H Hp Htl) as (t & Hq & _ & _).
  split; unfold is_base, drop_ref, take_ref in *; simpl; try exact (so_arena _ _ H).
  - intros r u Hr'. apply lookup_delete_Some in Hr' as [Hrne Hr']. destruct (so_str _ _ H r u Hr') as [Hr0 Hok]. split; [done |].
    apply (str_ok_keeps (strs w) _ u u); [done | done | done |]. intros r' st' Ht. apply keeps_delete. intros ->. by apply (no_slices _ p r u st' Hs).
  - intros r. destruct (so_refs _ _ H r) as [A B]. destruct (Z.eqb_spec r p) as [Hrp | Hrp], (Z.eqb_spec r q) as [Hrq | Hrq]; try (subst; congruence).
    + subst r. split; lia.
    + split; [lia |]. intros _. rewrite Hrq, lookup_delete_ne by done. by eexists.
    + split; [done |]. intros L. rewrite lookup_delete_ne by done. by apply B.
  - intros r u Hr' Hrb. apply lookup_delete_Some in Hr' as [Hrne Hr']. rewrite Hsl. pose proof (so_count _ _ H r u Hr' Hrb) as Hc.
    destruct (Z.eqb_spec r p); [congruence |]. destruct (Z.eqb_spec r q), (Z.eqb_spec q r); try congruence; simpl; lia.
  - intros r u Hr' Hrb Hat. apply lookup_delete_Some in Hr' as [Hrne Hr']. by apply (so_alive _ _ H r).
  - intros r u r' st' Hr' Ht. apply lookup_delete_Some in Hr' as [Hrne Hr']. by apply (so_base _ _ H r u r' st').
Qed.

(** The last reference to a slice: it goes, and the reference it had on its
    parent. *)
Lemma free_slice_ok w refs p s q st t :
  strings_ok w refs -> strs w !! p = Some s -> tail s = SliceOf q st -> strs w !! q = Some t -> not_slice t -> q <> p ->
  is_base w p = false -> refs p = 1 -> slices (strs w) p = 0 ->
  let h' := freed w q t (delete p (strs w)) in
  strings_ok (set_strs w h') (drop_ref refs p) /\
  forall r, held w (drop_ref refs p) r -> keeps (strs w) h' r /\ forall us, contents (strs w) r = Some us -> contents h' r = Some us.
Proof.
  intros H Hp Et Hq Hn Hne Eb Hr1 Hs0. pose proof (ok_delete_slice w refs p s q st H Hp Et Eb Hr1 Hs0 Hne) as H2. set (w2 := set_strs w (delete p (strs w))) in *.
  assert (Hq2 : strs w2 !! q = Some t) by (unfold w2; simpl; by rewrite lookup_delete_ne).
  assert (Href : 1 <= take_ref (drop_ref refs p) q q) by (unfold take_ref, drop_ref; rewrite Z.eqb_refl; destruct (so_refs _ _ H q); destruct (Z.eqb_spec q p); [congruence | lia]).
  assert (Hext : forall r, drop_ref (take_ref (drop_ref refs p) q) q r = drop_ref refs p r) by (intros r; unfold take_ref; unfold drop_ref at 1; destruct (r =? q); lia).
  split; [apply (strings_ok_ext _ _ _ Hext); exact (freed_ok w2 _ q t H2 Hq2 Hn Href) |]. intros r Hheld.
  assert (Hrp : r <> p) by (intros ->; destruct Hheld as [Hh | Hh]; [unfold drop_ref in Hh; rewrite Z.eqb_refl in Hh; lia | congruence]).
  assert (Hheld2 : held w2 (drop_ref (take_ref (drop_ref refs p) q) q) r) by (unfold held in *; rewrite Hext; exact Hheld).
  split.
  - apply (keep_trans _ (strs w2)); [by apply keeps_delete |]. apply (freed_keeps w2 (take_ref (drop_ref refs p) q)); try done. intros ->. by left.
  - intros us Hc. apply (freed_contents w2 (take_ref (drop_ref refs p) q) q t r us H2 Hq2 Href Hheld2).
    apply (contents_keeps (strs w)); [done | by apply keeps_delete |]. intros u r' st' Hu Htu. apply keeps_delete. intros ->. by apply (no_slices _ p r u st' Hs0).
Qed.

(** [js_free_string] of a reference that is held: it returns, one reference is
    gone, and what anybody else holds shows the same text. *)
Lemma free_ok w refs p :
  strings_ok w refs -> 1 <= refs p ->
  exists h', js_free_string p w = Done (tt, set_strs w h') /\ strings_ok (set_strs w h') (drop_ref refs p) /\
    forall q, held w (drop_ref refs p) q ->
      keeps (strs w) h' q /\ forall us, contents (strs w) q = Some us -> contents h' q = Some us.
Proof.
  intros H Hr. destruct (proj2 (so_refs _ _ H p) Hr) as [s Hp]. pose proof (so_arena _ _ H) as Ha.
  destruct (tail s) as [l | q st | l] eqn:Et.
  1, 3: assert (Hn : not_slice s) by (intros r st' E; congruence); exists (freed w p s (strs w)); (split; [by apply free_plain_run |]);
    (split; [by apply freed_ok |]); intros q Hq; (split; [apply (freed_keeps w refs); [done | done | done | by intros ->; left] | intros us; by apply (freed_contents w refs)]).
  destruct (slice_parent w refs p s q st H Hp Et) as (t & Hq & Hn & Hne). eexists. split; [by apply (free_slice_run w p s q st t) |].
  assert (Hdec : is_base w p = false -> (atom_type s = 0 -> 1 <= ref_count s - 1) ->
    let h' := <[p := set_ref_count s (ref_count s - 1)]> (strs w) in strings_ok (set_strs w h') (drop_ref refs p) /\
    forall q, held w (drop_ref refs p) q -> keeps (strs w) h' q /\ forall us, contents (strs w) q = Some us -> contents h' q = Some us).
  { intros Hb Hc. split.
    - apply (strings_ok_ext _ (fun q => if q =? p then refs q + -1 else refs q)); [done |]. apply (ok_recount w refs p s (-1)); try done; lia.
    - intros r _. split; [by apply (keeps_insert _ _ s) |]. intros us Hr'. by apply (contents_keeps (strs w)); [| apply (keeps_insert _ _ s) | intros; apply (keeps_insert _ _ s)]. }
  destruct (is_base w p) eqn:Eb.
  { rewrite set_strs_strs. split; [| intros; split; [apply keep_refl | done]]. apply (strings_ok_ext _ (fun q => if q =? p then refs q + -1 else refs q)); [done |].
    apply ok_base_ref; [done | done | by eexists | lia]. }
  destruct (Z.leb_spec (ref_count s - 1) 0) as [L | L], (Z.eqb_spec (atom_type s) 0) as [E | E]; cbn [andb]; [| apply Hdec; [done | lia] ..].
  destruct (drop_ref_alive w refs p s H Hp Eb Hr L) as [Hr1 Hs0]. exact (free_slice_ok w refs p s q st t H Hp Et Hq Hn Hne Eb Hr1 Hs0).
Qed.

(** ** What survives a free *)

Lemma set_rc_same s : set_ref_count s (ref_count s) = s.
Proof. by destruct s. Qed.

(** A string that is held, is an atom or has a slice left is still there, and
    only its count may differ. *)
Definition survives (w : world) (refs : Z -> Z) (h' : gmap Z JSString) (q : Z) (s : JSString) : Prop :=
  held w refs q \/ atom_type s <> 0 \/ exists q' s' st, strs w !! q' = Some s' /\ tail s' = SliceOf q st /\ is_Some (h' !! q').

Lemma freed_survivor w refs p s q t :
  strings_ok w refs -> strs w !! p = Some s -> not_slice s -> 1 <= refs p -> strs w !! q = Some t ->
  survives w (drop_ref refs p) (freed w p s (strs w)) q t -> exists n, freed w p s (strs w) !! q = Some (set_ref_count t n) /\ (is_base w q = true -> n = ref_count t).
Proof.
  intros H Hp Hn Hr Hq Hs. unfold freed in *. destruct (is_base w p) eqn:Eb; [exists (ref_count t); by rewrite set_rc_same |].
  destruct (decide (q = p)) as [-> | Hne].
  - rewrite Hp in Hq. injection Hq as <-. destruct ((ref_count s - 1 <=? 0) && (atom_type s =? 0)) eqn:E; [| exists (ref_count s - 1); rewrite lookup_insert_eq; split; [done | congruence]].
    exfalso. apply andb_true_iff in E as [E1 E2]. apply Z.leb_le in E1. apply Z.eqb_eq in E2. destruct (drop_ref_alive w refs p s H Hp Eb Hr E1) as [Hr1 Hs0].
    destruct Hs as [[Hh | Hh] | [Hh | (q' & s' & st & Hq' & Ht' & _)]]; [unfold drop_ref in Hh; rewrite Z.eqb_refl in Hh; lia | congruence | done | by apply (no_slices _ p q' s' st Hs0)].
  - exists (ref_count t). rewrite set_rc_same. split; [| done]. destruct ((ref_count s - 1 <=? 0) && (atom_type s =? 0)); [by rewrite lookup_delete_ne | by rewrite lookup_insert_ne].
Qed.

Lemma free_survivor w refs p h' q t :
  strings_ok w refs -> 1 <= refs p -> js_free_string p w = Done (tt, set_strs w h') -> strs w !! q = Some t ->
  survives w (drop_ref refs p) h' q t -> exists n, h' !! q = Some (set_ref_count t n) /\ (is_base w q = true -> n = ref_count t).
Proof.
  intros H Hr Hrun Hq Hs. destruct (proj2 (so_refs _ _ H p) Hr) as [s Hp]. pose proof (so_arena _ _ H) as Ha.
  assert (Hinj : forall h1, js_free_string p w = Done (tt, set_strs w h1) -> h' = h1) by (intros h1 E; rewrite E in Hrun; by injection Hrun as ->).
  destruct (tail s) as [l | r st | l] eqn:Et.
  1, 3: assert (Hn : not_slice s) by (intros r st' E; congruence); rewrite (Hinj (freed w p s (strs w)) (free_plain_run 1 w p s Ha Hp Hn)) in *; by apply (freed_survivor w refs).
  destruct (slice_parent w refs p s r st H Hp Et) as (u & Hu & Hn & Hne). pose proof (Hinj _ (free_slice_run w p s r st u Ha Hp Et Hu Hn Hne)) as Eh.
  destruct (is_base w p) eqn:Eb; [rewrite Eh; exists (ref_count t); by rewrite set_rc_same |].
  destruct ((ref_count s - 1 <=? 0) && (atom_type s =? 0)) eqn:E.
  - apply andb_true_iff in E as [E1 E2]. apply Z.leb_le in E1. apply Z.eqb_eq in E2. destruct (drop_ref_alive w refs p s H Hp Eb Hr E1) as [Hr1 Hs0].
    pose proof (ok_delete_slice w refs p s r st H Hp Et Eb Hr1 Hs0 Hne) as H2. set (w2 := set_strs w (delete p (strs w))) in *.
    assert (Hqp : q <> p).
    { intros ->. rewrite Hp in Hq. injection Hq as <-. destruct Hs as [[Hh | Hh] | [Hh | (q' & s' & st' & Hq' & Ht' & _)]];
        [unfold drop_ref in Hh; rewrite Z.eqb_refl in Hh; lia | congruence | done | by apply (no_slices _ p q' s' st' Hs0)]. }
    assert (Href : 1 <= take_ref (drop_ref refs p) r r) by (unfold take_ref, drop_ref; rewrite Z.eqb_refl; destruct (so_refs _ _ H r); destruct (Z.eqb_spec r p); [congruence | lia]).
    rewrite Eh. change (freed w r u (delete p (strs w))) with (freed w2 r u (strs w2)).
    apply (freed_survivor w2 (take_ref (drop_ref refs p) r) r u q t H2); [unfold w2; simpl; by rewrite lookup_delete_ne | done | done | unfold w2; simpl; by rewrite lookup_delete_ne |].
    rewrite Eh in Hs. destruct Hs as [Hh | [Hh | (q' & s' & st' & Hq' & Ht' & Hsome)]]; [left | by right; left | right; right].
    + unfold held in *. unfold drop_ref at 1, take_ref. destruct (Z.eqb_spec q r); [| done]. destruct Hh as [Hh | Hh]; [left; lia | by right].
    + exists q', s', st'. split_and!; try done. unfold w2. simpl. rewrite lookup_delete_ne; [done |]. intros <-. destruct Hsome as [x Hx].
      unfold freed in Hx. simpl in Hx. destruct (is_base w r); [by rewrite lookup_delete_eq in Hx |].
      destruct ((ref_count u - 1 <=? 0) && (atom_type u =? 0)); [by rewrite delete_delete, lookup_delete_eq in Hx | by rewrite lookup_insert_ne, lookup_delete_eq in Hx].
  - rewrite Eh. destruct (decide (q = p)) as [-> | Hqp]; [rewrite lookup_insert_eq; rewrite Hp in Hq; injection Hq as <-; exists (ref_count s - 1); split; [done | congruence] |].
    exists (ref_count t). by rewrite lookup_insert_ne, set_rc_same.
Qed.

(** Atoms outlive their references during a request. *)
Lemma free_atom_kept w refs p h' q t :
  strings_ok w refs -> 1 <= refs p -> js_free_string p w = Done (tt, set_strs w h') -> strs w !! q = Some t -> atom_type t <> 0 \/ is_base w q = true ->
  (exists n, h' !! q = Some (set_ref_count t n) /\ (is_base w q = true -> n = ref_count t)) /\ forall us, contents (strs w) q = Some us -> contents h' q = Some us.
Proof.
  intros H Hr Hrun Hq Hat. assert (Hsv : survives w (drop_ref refs p) h' q t) by (destruct Hat; [by right; left | by left; right]).
  pose proof (free_survivor w refs p h' q t H Hr Hrun Hq Hsv) as Hq'. split; [done |]. destruct Hq' as (n & Hn & _).
  intros us Hc. apply (contents_keeps (strs w)); [done | |].
  - intros s Hs. rewrite Hq in Hs. injection Hs as <-. eexists. split; [exact Hn | done].
  - intros s r st Hs Hst u Hu. rewrite Hq in Hs. injection Hs as <-.
    destruct (free_survivor w refs p h' r u H Hr Hrun Hu) as (m & Hm & _); [right; right; exists q, t, st; split_and!; try done; by eexists |].
    eexists. split; [exact Hm | done].
Qed.

End proofs.
