(* ===== verification/JsStringOps.v ===== *)
(** * Strings: making them

    The functions that allocate a string either run out of memory and change
    nothing, or return a new string with the units they are asked for. *)

From stdpp Require Import base list numbers gmap fin_maps.
From Stdlib Require Import ZArith Lia.
From S2P Require Import Prelude StateRun BaseRanges Utf8 Utf8Proofs JsString JsStringProofs.

#[local] Open Scope Z_scope.
#[local] Open Scope st_scope.

Section make.
Context `{SA : StrAlloc}.
Context (rng : base_ranges) {SL : StrAllocLaws rng}.

(** The cells of a finished string: an 8-bit one has a terminator. *)
Definition cells_with (wide : bool) (us : list Z) : list Z := us ++ if wide then [] else [0].

(** [m] makes a string of the units [us] or runs out of memory. *)
Definition makes (m : ST world str_result) (w : world) (wide : bool) (us : list Z) : Prop :=
  exists a, m w = Done (ROutOfMemory, set_heap_state w a) \/
    exists p j, (0 < p /\ Z.even p = true) /\ strs w !! p = None /\ js_arena_ptr_is_base rng p = false /\
      m w = Done (RString p, set_strs (set_heap_state w a) (<[p := mkString 1 (lenZ us) wide 0 0 0 j (Cells (cells_with wide us))]> (strs w))).

(** ** Allocation *)

Lemma alloc_run w n wide :
  exists a, js_alloc_string_rt n wide w = Done (0, set_heap_state w a) \/
    exists p j l, (0 < p /\ Z.even p = true) /\ strs w !! p = None /\ js_arena_ptr_is_base rng p = false /\ length l = Z.to_nat (n + 1 - b2z wide) /\
      js_alloc_string_rt n wide w = Done (p, set_strs (set_heap_state w a) (<[p := mkString 1 n wide 0 0 0 j (Cells l)]> (strs w))).
Proof.
  unfold js_alloc_string_rt, sbind, js_malloc_string, scall. destruct (str_malloc (heap_state w) (strs w) (string_size n wide)) as [p a] eqn:E.
  exists a. cbn [run_bind]. destruct (str_malloc_fresh _ _ _ _ _ E) as [-> | (Hp & Hn & Hb & Hev)]; [by left |]. right.
  exists p, (junk a 0), (fresh_cells a n wide). destruct (Z.eqb_spec p 0); [lia |]. split_and!; try done.
  unfold fresh_cells. by rewrite length_fmap, length_seq.
Qed.

Lemma write_run w p s l l' i us :
  strs w !! p = Some s -> tail s = Cells l -> put_all l i us = Done l' ->
  write_units p i us w = Done (tt, set_strs w (<[p := set_tail s (Cells l')]> (strs w))).
Proof.
  intros Hp Ht Hl. unfold write_units, sbind, str_load, sderef. rewrite Hp. cbn [run_bind]. rewrite Ht. unfold slift. rewrite Hl. done.
Qed.

Lemma put_all_fill l us : (length us <= length l)%nat -> put_all l 0 us = Done (us ++ drop (length us) l).
Proof. exact (put_all_here [] l us). Qed.

(** Fill a fresh narrow string and terminate it. *)
Lemma fill_narrow w p j n l us :
  lenZ us = n -> length l = Z.to_nat (n + 1) -> strs w !! p = Some (mkString 1 n false 0 0 0 j (Cells l)) ->
  (write_units p 0 us ;^ write_units p n [0]) w
  = Done (tt, set_strs w (<[p := mkString 1 n false 0 0 0 j (Cells (us ++ [0]))]> (strs w))).
Proof.
  intros Hn Hl Hp. unfold lenZ in Hn. unfold sbind. rewrite (write_run w p _ l (us ++ drop (length us) l) 0 us Hp eq_refl) by (apply put_all_fill; lia). cbn [run_bind].
  assert (exists x, drop (length us) l = [x]) as [x Hx].
  { destruct (drop (length us) l) as [| x [| y r]] eqn:E; [| by exists x |]; apply (f_equal length) in E; rewrite length_drop in E; simpl in E; lia. }
  rewrite Hx. erewrite (write_run _ p _ (us ++ [x]) (us ++ [0]) n [0]); [| simpl; by rewrite lookup_insert_eq | done |].
  - unfold set_strs. cbn [strs ranges is_arena tab req heap_state]. by rewrite insert_insert_eq.
  - replace n with (lenZ us) by (unfold lenZ; lia). rewrite put_all_here by (simpl; lia). simpl. by rewrite app_nil_r.
Qed.

Lemma fill_wide w p j n l us :
  lenZ us = n -> length l = Z.to_nat n -> strs w !! p = Some (mkString 1 n true 0 0 0 j (Cells l)) ->
  write_units p 0 us w = Done (tt, set_strs w (<[p := mkString 1 n true 0 0 0 j (Cells us)]> (strs w))).
Proof.
  intros Hn Hl Hp. unfold lenZ in Hn. rewrite (write_run w p _ l (us ++ drop (length us) l) 0 us Hp eq_refl) by (apply put_all_fill; lia).
  rewrite drop_ge by lia. by rewrite app_nil_r.
Qed.

(** A fresh string that is filled at once. *)
Lemma set_strs_twice w h h' : set_strs (set_strs w h) h' = set_strs w h'.
Proof. done. Qed.

Lemma makes_alloc n wide (k : Z -> ST world unit) us w :
  lenZ us = n ->
  (forall w p j l, strs w !! p = Some (mkString 1 n wide 0 0 0 j (Cells l)) -> length l = Z.to_nat (n + 1 - b2z wide) ->
     k p w = Done (tt, set_strs w (<[p := mkString 1 n wide 0 0 0 j (Cells (cells_with wide us))]> (strs w)))) ->
  makes (let^ p := js_alloc_string_rt n wide in if p =? 0 then sret ROutOfMemory else k p ;^ sret (RString p)) w wide us.
Proof.
  intros Hn Hk. unfold makes. destruct (alloc_run w n wide) as (a & [E | (p & j & l & [Hp Hev] & Hf & Hb & Hl & E)]); exists a.
  - left. unfold sbind. rewrite E. done.
  - right. exists p, j. split_and!; try done. unfold sbind at 1. rewrite E. cbn [run_bind]. destruct (Z.eqb_spec p 0); [lia |]. unfold sbind.
    erewrite Hk; [| simpl; by rewrite lookup_insert_eq | done]. cbn [run_bind]. unfold sret. rewrite set_strs_twice. simpl strs. by rewrite insert_insert_eq, Hn.
Qed.

Lemma new_string8_makes us w : makes (js_new_string8_len us) w false us.
Proof.
  assert (E : forall w', js_new_string8_len us w' = (let^ p := js_alloc_string_rt (lenZ us) false in
    if p =? 0 then sret ROutOfMemory else (write_units p 0 us ;^ write_units p (lenZ us) [0]) ;^ sret (RString p)) w').
  { intros w'. unfold js_new_string8_len, sbind. destruct (js_alloc_string_rt _ _ w') as [[p w1] | |]; [| done | done]. cbn [run_bind]. destruct (p =? 0); [done |].
    by destruct (write_units p 0 us w1) as [[? ?] | |]. }
  unfold makes. rewrite E. apply (makes_alloc (lenZ us) false (fun p => write_units p 0 us ;^ write_units p (lenZ us) [0])); [done |].
  intros w' p j l Hp Hl. apply (fill_narrow w' p j (lenZ us) l us); [done | simpl in Hl; by rewrite Z.sub_0_r in Hl | done].
Qed.

Lemma new_string16_makes us w : makes (js_new_string16_len us) w true us.
Proof.
  apply (makes_alloc (lenZ us) true (fun p => write_units p 0 us)); [done |]. intros w' p j l Hp Hl. unfold cells_with. rewrite app_nil_r.
  apply (fill_wide w' p j (lenZ us) l us); [done | rewrite Hl; simpl; f_equal; lia | done].
Qed.

(** ** The invariant *)

(** [m] returns a string of the units [us] that the caller holds, or runs out of
    memory; what there was shows the same text. *)
Definition gives (m : ST world str_result) (w : world) (refs : Z -> Z) (us : list Z) : Prop :=
  exists r w', m w = Done (r, w') /\ ranges w' = ranges w /\ tab w' = tab w /\ req w' = req w /\
    (forall q vs, contents (strs w) q = Some vs -> contents (strs w') q = Some vs) /\
    match r with
    | RString p => strings_ok w' (take_ref refs p) /\ contents (strs w') p = Some us
    | ROutOfMemory => strings_ok w' refs /\ strs w' = strs w
    | RRangeError => False
    end.

Lemma fresh_ref w refs p : strings_ok w refs -> strs w !! p = None -> refs p = 0.
Proof. intros H Hp. destruct (so_refs _ _ H p) as [A B]. destruct (Z.le_gt_cases 1 (refs p)) as [L | L]; [| lia]. destruct (B L) as [s Hs]. congruence. Qed.

Lemma fresh_slices w refs p : strings_ok w refs -> strs w !! p = None -> slices (strs w) p = 0.
Proof.
  intros H Hp. unfold slices. enough (E : filter (fun kv => is_slice_of p kv.2 = true) (strs w) = ∅) by (rewrite E; by rewrite map_size_empty).
  apply map_empty. intros q. apply map_lookup_filter_None. right. intros s Hq Hs. simpl in Hs. unfold is_slice_of in Hs. destruct (tail s) as [| r st |] eqn:E; try done. apply Z.eqb_eq in Hs as ->.
  destruct (slice_parent w refs q s p st H Hq E) as (t & Ht & _). congruence.
Qed.

(** The allocator's state is not part of the invariant. *)
Lemma ok_heap_state w refs a : strings_ok w refs -> strings_ok (set_heap_state w a) refs.
Proof. intros H. split; destruct H; done. Qed.

(** A new string of its own. *)
Lemma ok_new w refs p s :
  strings_ok w refs -> 0 < p -> strs w !! p = None -> is_base w p = false -> not_slice s -> ref_count s = 1 -> str_ok (strs w) s ->
  strings_ok (set_strs w (<[p := s]> (strs w))) (take_ref refs p).
Proof.
  intros H Hp0 Hp Hb Hn Hrc Hs. pose proof (fresh_ref w refs p H Hp) as Hr. pose proof (fresh_slices w refs p H Hp) as Hsl0.
  assert (Hsl : forall q, slices (<[p := s]> (strs w)) q = slices (strs w) q) by (intros q; rewrite slices_insert_new, not_slice_b2z by done; lia).
  assert (Hk : forall q, keeps (strs w) (<[p := s]> (strs w)) q) by (intros q; by apply keeps_insert_new).
  split; unfold is_base, take_ref in *; simpl; try exact (so_arena _ _ H).
  - intros q t Hq. apply lookup_insert_Some in Hq as [[-> ->] | [Hne Hq]].
    + split; [lia |]. by apply (str_ok_keeps (strs w) _ t t).
    + destruct (so_str _ _ H q t Hq) as [Hq0 Hok]. split; [done |]. by apply (str_ok_keeps (strs w) _ t t).
  - intros q. destruct (so_refs _ _ H q) as [A B]. destruct (Z.eqb_spec q p) as [-> | Hne]; [split; [lia |]; intros _; rewrite lookup_insert_eq; by eexists |].
    by rewrite lookup_insert_ne.
  - intros q t Hq Hqb. rewrite Hsl. apply lookup_insert_Some in Hq as [[-> ->] | [Hne Hq]]; [rewrite Z.eqb_refl; lia |].
    destruct (Z.eqb_spec q p); [congruence |]. by apply (so_count _ _ H).
  - intros q t Hq Hqb Hat. apply lookup_insert_Some in Hq as [[-> ->] | [Hne Hq]]; [lia |]. by apply (so_alive _ _ H q).
  - intros q t r st Hq Ht Hqb. apply lookup_insert_Some in Hq as [[-> ->] | [Hne Hq]]; [congruence |]. by apply (so_base _ _ H q t r st).
Qed.

Lemma str_ok_made h wide us j :
  Forall (unit_ok wide) us -> lenZ us < 2 ^ 31 -> str_ok h (mkString 1 (lenZ us) wide 0 0 0 j (Cells (cells_with wide us))).
Proof.
  intros Hu Hl. unfold str_ok, cells_with. cbn [slen tail is_wide_char atom_type]. pose proof (lenZ_nonneg us). unfold lenZ in *. rewrite Nat2Z.id. split; [lia |].
  split; [rewrite length_app; lia |]. rewrite take_app_length. split; [done |]. intros -> _. by rewrite list_lookup_middle.
Qed.

Lemma contents_made h p wide us j :
  h !! p = Some (mkString 1 (lenZ us) wide 0 0 0 j (Cells (cells_with wide us))) -> contents h p = Some us.
Proof.
  intros Hp. unfold contents. rewrite Hp. unfold cells_of, cells_with. cbn [tail slen]. rewrite lenZ_app. pose proof (lenZ_nonneg us). pose proof (lenZ_nonneg (if wide then [] else [0])).
  destruct (Z.leb_spec 0 (lenZ us)), (Z.leb_spec (lenZ us) (lenZ us + lenZ (if wide then [] else [0]))); try lia. simpl. unfold lenZ. by rewrite Nat2Z.id, take_app_length.
Qed.

Lemma makes_gives m w refs wide us :
  makes m w wide us -> strings_ok w refs -> ranges w = rng -> Forall (unit_ok wide) us -> lenZ us < 2 ^ 31 -> gives m w refs us.
Proof.
  intros (a & [E | (p & j & [Hp _] & Hf & Hb & E)]) H Hrng Hu Hl; do 2 eexists; (split; [exact E |]); (split; [done |]); (split; [done |]); (split; [done |]).
  - split; [done |]. split; [by apply ok_heap_state | done].
  - split; [intros q vs Hc; by apply (contents_keeps (strs w)); [| apply keeps_insert_new | intros; apply keeps_insert_new] |]. split.
    + apply (ok_new (set_heap_state w a)); try done; [by apply ok_heap_state | unfold is_base; simpl; by rewrite Hrng | by apply str_ok_made].
    + apply (contents_made _ p wide us j). simpl. by rewrite lookup_insert_eq.
Qed.
End make.

(** * Strings: substrings and the embedder's strings

    [js_sub_string], [JS_NewStringLen] and [JS_NewStringUTF16] give the units they
    should, whichever representation they choose. *)

Section ops.
Context `{SA : StrAlloc}.
Context (rng : base_ranges) {SL : StrAllocLaws rng}.

(** The atom of the empty string is there, in the base. *)
Definition empty_atom (w : world) : Prop :=
  exists p s, js_atom_struct JS_ATOM_empty_string w = Done (p, w) /\ strs w !! p = Some s /\ contents (strs w) p = Some [] /\ is_base w p = true.

Lemma rc_inc_contents w p s q us : strs w !! p = Some s -> contents (strs w) q = Some us -> contents (strs (rc_incremented w p s)) q = Some us.
Proof. intros Hp Hc. apply (contents_keeps (strs w)); [done | by apply rc_inc_keeps | intros; by apply rc_inc_keeps]. Qed.

Lemma rc_inc_fields w p s : ranges (rc_incremented w p s) = ranges w /\ tab (rc_incremented w p s) = tab w /\ req (rc_incremented w p s) = req w.
Proof. unfold rc_incremented. by destruct (is_base w p). Qed.

(** Another reference to a string that is there. *)
Lemma dup_gives w refs p s us :
  strings_ok w refs -> strs w !! p = Some s -> contents (strs w) p = Some us -> gives (str_rc_inc p ;^ sret (RString p)) w refs us.
Proof.
  intros H Hp Hc. exists (RString p), (rc_incremented w p s). destruct (rc_inc_fields w p s) as (E1 & E2 & E3).
  split; [unfold sbind; by rewrite (rc_inc_run w p s Hp) |]. split_and!; try done; [intros q vs; by apply rc_inc_contents | by apply rc_inc_ok | by apply rc_inc_contents].
Qed.

Lemma empty_gives w refs : strings_ok w refs -> empty_atom w -> gives js_empty_string w refs [].
Proof.
  intros H (p & s & Hj & Hp & Hc & _). destruct (dup_gives w refs p s [] H Hp Hc) as (r & w' & E & Hrest). exists r, w'. split; [| done].
  unfold js_empty_string, sbind in *. rewrite Hj. exact E.
Qed.

(** ** Slices *)

(** A new slice takes over a reference on its parent. *)
Lemma ok_new_slice w refs p q s t l st :
  strings_ok w refs -> 0 < q -> strs w !! q = None -> is_base w q = false -> strs w !! p = Some t -> tail t = Cells l -> 1 <= refs p ->
  tail s = SliceOf p st -> ref_count s = 1 -> str_ok (strs w) s ->
  strings_ok (set_strs w (<[q := s]> (strs w))) (take_ref (drop_ref refs p) q).
Proof.
  intros H Hq0 Hq Hb Hp Ht Hr Hs Hrc Hok. pose proof (fresh_ref w refs q H Hq) as Hrq. pose proof (fresh_slices w refs q H Hq) as Hsl0.
  assert (Hpq : p <> q) by congruence.
  assert (Hsl : forall r, slices (<[q := s]> (strs w)) r = slices (strs w) r + b2z (p =? r)) by (intros r; rewrite slices_insert_new by done; unfold is_slice_of; by rewrite Hs).
  assert (Hk : forall r, keeps (strs w) (<[q := s]> (strs w)) r) by (intros r; by apply keeps_insert_new).
  split; unfold is_base, take_ref, drop_ref in *; simpl; try exact (so_arena _ _ H).
  - intros r u Hu. apply lookup_insert_Some in Hu as [[-> ->] | [Hne Hu]].
    + split; [lia |]. by apply (str_ok_keeps (strs w) _ u u).
    + destruct (so_str _ _ H r u Hu) as [Hu0 Huok]. split; [done |]. by apply (str_ok_keeps (strs w) _ u u).
  - intros r. destruct (so_refs _ _ H r) as [A B]. destruct (Z.eqb_spec r q) as [Hrq' | Hrq']; [subst r; split; [destruct (q =? p); lia |]; intros _; rewrite lookup_insert_eq; by eexists |].
    rewrite lookup_insert_ne by done. destruct (Z.eqb_spec r p) as [Hrp | Hrp]; [subst r; split; [lia |]; intros _; by eexists | done].
  - intros r u Hu Hub. rewrite Hsl. apply lookup_insert_Some in Hu as [[-> ->] | [Hne Hu]].
    + rewrite Z.eqb_refl. destruct (Z.eqb_spec r p), (Z.eqb_spec p r); try congruence. simpl. lia.
    + pose proof (so_count _ _ H r u Hu Hub) as Hc. destruct (Z.eqb_spec r q); [congruence |]. destruct (Z.eqb_spec r p), (Z.eqb_spec p r); try congruence; simpl; lia.
  - intros r u Hu Hub Hat. apply lookup_insert_Some in Hu as [[-> ->] | [Hne Hu]]; [lia |]. by apply (so_alive _ _ H r).
  - intros r u r' st' Hu Htu Hub. apply lookup_insert_Some in Hu as [[-> ->] | [Hne Hu]]; [congruence |]. by apply (so_base _ _ H r u r' st').
Qed.

(** The code of the slice branch, from the parent on. *)
Definition make_slice (p start len : Z) : ST world str_result :=
  let^ q := js_alloc_string_rt (SIZEOF_JSStringSlice / 2) true in
  if q =? 0 then sret ROutOfMemory
  else
    let^ s := str_load p in
    let^ r := str_load q in
    str_store q (set_tail (set_slen (set_is_wide_char r (is_wide_char s)) len) (SliceOf p (Z.shiftl start (b2z (is_wide_char s))))) ;^
    str_rc_inc p ;^ sret (RString q).

Lemma make_slice_gives w refs p t l start len :
  strings_ok w refs -> ranges w = rng -> strs w !! p = Some t -> tail t = Cells l -> 0 <= start -> 0 <= len < 2 ^ 31 -> start + len <= slen t ->
  gives (make_slice p start len) w refs (take (Z.to_nat len) (drop (Z.to_nat start) l)).
Proof.
  intros H Hrng Hp Ht Hst Hlen Hle. unfold make_slice, gives.
  destruct (alloc_run rng w (SIZEOF_JSStringSlice / 2) true) as (a & [E | (q & j & l0 & [Hq0 _] & Hq & Hqb & Hl0 & E)]).
  { exists ROutOfMemory. eexists. split; [unfold sbind; rewrite E; done |]. split_and!; try done. by apply ok_heap_state. }
  assert (Hpq : p <> q) by congruence. set (r := mkString 1 (SIZEOF_JSStringSlice / 2) true 0 0 0 j (Cells l0)) in *.
  set (sl := set_tail (set_slen (set_is_wide_char r (is_wide_char t)) len) (SliceOf p (Z.shiftl start (b2z (is_wide_char t))))).
  set (w0 := set_heap_state w a). set (w1 := set_strs w0 (<[q := sl]> (strs w))).
  assert (Hp1 : strs w1 !! p = Some t) by (unfold w1; simpl; by rewrite lookup_insert_ne).
  exists (RString q), (rc_incremented w1 p t). split.
  { unfold sbind at 1. rewrite E. cbn [run_bind]. destruct (Z.eqb_spec q 0); [lia |]. unfold sbind at 1, str_load at 1, sderef at 1. simpl strs. rewrite lookup_insert_ne, Hp by done. cbn [run_bind].
    unfold sbind at 1, str_load at 1, sderef at 1. simpl strs. rewrite lookup_insert_eq. cbn [run_bind]. unfold sbind, str_store, smod. cbn [run_bind]. simpl strs. rewrite insert_insert_eq.
    rewrite set_strs_twice. fold r. fold sl. fold w0. fold w1. by rewrite (rc_inc_run w1 p t Hp1). }
  destruct (rc_inc_fields w1 p t) as (F1 & F2 & F3). rewrite F1, F2, F3. do 3 (split; [done |]).
  assert (Hkeep : forall x, keeps (strs w) (strs (rc_incremented w1 p t)) x).
  { intros x. apply (keep_trans _ (strs w1)); [unfold w1; simpl; by apply keeps_insert_new | by apply rc_inc_keeps]. }
  split; [intros x vs Hc; by apply (contents_keeps (strs w))|].
  assert (Hsl : str_ok (strs w) sl) by (split; [done |]; simpl; exists t, l, start; done).
  split.
  - pose proof (ok_heap_state w refs a H) as Hw0. fold w0 in Hw0. pose proof (rc_inc_ok w0 refs p t Hw0 Hp) as Hinc. set (w2 := rc_incremented w0 p t) in *.
    assert (Hb0 : is_base w2 q = false) by (unfold w2, is_base; destruct (rc_inc_fields w0 p t) as (-> & _); simpl; by rewrite Hrng).
    assert (Hq2 : strs w2 !! q = None) by (unfold w2, rc_incremented; destruct (is_base w0 p); [done |]; simpl; by rewrite lookup_insert_ne).
    assert (Hp2 : exists t2, strs w2 !! p = Some t2 /\ tail t2 = Cells l).
    { destruct (rc_inc_keeps w0 p t p Hp t Hp) as (t2 & Ht2 & _ & _ & Htl). exists t2. split; [done | by rewrite Htl]. }
    destruct Hp2 as (t2 & Hp2 & Ht2). assert (Hr1 : 1 <= take_ref refs p p) by (unfold take_ref; rewrite Z.eqb_refl; destruct (so_refs _ _ H p); lia).
    assert (Hsl2 : str_ok (strs w2) sl) by (apply (str_ok_keeps (strs w0) _ sl sl); [done | done | done |]; intros x y _; by apply rc_inc_keeps).
    pose proof (ok_new_slice w2 _ p q sl t2 l _ Hinc Hq0 Hq2 Hb0 Hp2 Ht2 Hr1 eq_refl eq_refl Hsl2) as Hfin.
    replace (rc_incremented w1 p t) with (set_strs w2 (<[q := sl]> (strs w2))).
    + revert Hfin. apply strings_ok_ext. intros x. unfold take_ref, drop_ref. destruct (x =? q), (x =? p); lia.
    + unfold w2, w1, rc_incremented, is_base. simpl. destruct (js_arena_ptr_is_base (ranges w) p); [done |]. rewrite set_strs_twice. simpl strs. by rewrite insert_insert_ne by congruence.
  - destruct (Hkeep p t Hp) as (t' & Hp' & Ht').
    assert (Hq' : exists s', strs (rc_incremented w1 p t) !! q = Some s' /\ same_text sl s') by (apply (rc_inc_keeps w1 p t q Hp1); unfold w1; simpl; by rewrite lookup_insert_eq).
    destruct Hq' as (s' & Hq' & Hs'). unfold contents. rewrite Hq'. assert (Hc : cells_of (strs (rc_incremented w1 p t)) s' = Some (drop (Z.to_nat start) l)).
    { apply (cells_keeps (strs w) _ sl); [| done | intros; apply Hkeep]. unfold cells_of. simpl. rewrite Hp, Ht, unshift. done. }
    rewrite Hc. destruct Hs' as (-> & _). simpl slen. destruct (so_str _ _ H p t Hp) as [_ [_ Htok]]. rewrite Ht in Htok. destruct Htok as (Hlt & _).
    destruct (Z.leb_spec 0 len), (Z.leb_spec len (lenZ (drop (Z.to_nat start) l))) as [|L]; try lia; [done |]. unfold lenZ in *. rewrite length_drop in L. lia.
Qed.
(** ** Substrings *)

Lemma u8_narrow us : Forall (unit_ok true) us -> (255 <? foldl Z.lor 0 us) = false -> u8 <$> us = us /\ Forall (unit_ok false) us.
Proof.
  intros Hu Hf. assert (Hn : Forall (fun b => 0 <= b) us) by (eapply Forall_impl; [exact Hu |]; intros b [? _]; done).
  pose proof (lor_spec 8 us 0 ltac:(lia) Hn ltac:(lia)) as E. replace (2 ^ 8 <=? foldl Z.lor 0 us) with (255 <? foldl Z.lor 0 us) in E by lia.
  rewrite Hf in E. simpl in E. symmetry in E. clear Hf Hn. induction us as [| c us IH]; [done |]. inversion Hu as [| ? ? Hc Hu']; subst. simpl in E. apply orb_false_iff in E as [E1 E2].
  destruct (IH Hu' E2) as [E3 E4]. apply Z.leb_gt in E1. unfold unit_ok in *. split; [| constructor; [lia | done]]. rewrite fmap_cons, E3. unfold u8. by rewrite Z.mod_small by lia.
Qed.

Lemma u8_units us : Forall (unit_ok false) us -> u8 <$> us = us.
Proof. induction 1 as [| c us Hc _ IH]; [done |]. rewrite fmap_cons, IH. unfold u8, unit_ok in *. by rewrite Z.mod_small by lia. Qed.

(** Reads that change nothing. *)
Lemma gives_step {A} (m : ST world A) (k : A -> ST world str_result) w refs us a :
  m w = Done (a, w) -> gives (k a) w refs us -> gives (sbind m k) w refs us.
Proof. intros E (r & w' & Hk & Hrest). exists r, w'. split; [| done]. unfold sbind. by rewrite E. Qed.

Lemma narrow_gives w refs us len :
  strings_ok w refs -> ranges w = rng -> Forall (unit_ok false) us -> lenZ us = len -> len < 2 ^ 31 ->
  gives (let^ q := js_alloc_string_rt len false in
         if q =? 0 then sret ROutOfMemory else write_units q 0 us ;^ write_units q len [0] ;^ sret (RString q)) w refs us.
Proof. intros H Hrng Hu <- Hl. apply (makes_gives rng _ _ _ false); [apply (new_string8_makes rng us w) | done | done | done | done]. Qed.

Lemma sub_string_gives w refs p s us start end_ :
  strings_ok w refs -> ranges w = rng -> empty_atom w -> strs w !! p = Some s -> contents (strs w) p = Some us ->
  (forall l, tail s <> IndirectTo l) -> 0 <= start -> end_ <= slen s ->
  gives (js_sub_string p start end_) w refs (take (Z.to_nat (end_ - start)) (drop (Z.to_nat start) us)).
Proof.
  intros H Hrng He Hp Hc Hni Hst Hen. pose proof (strings_heap_ok w refs H) as Hh.
  destruct (heap_ok_contents _ p s Hh Hp) as (l & us' & Hl & Hc' & Hle & Hus & Hlen & Hunits). rewrite Hc in Hc'. injection Hc' as <-.
  destruct (Hh p s Hp) as [Hsl _]. unfold js_sub_string. apply (gives_step _ _ w refs _ s); [unfold str_load, sderef; by rewrite Hp |].
  destruct ((start =? 0) && (end_ =? slen s)) eqn:E0.
  { apply andb_true_iff in E0 as [E1 E2]. apply Z.eqb_eq in E1, E2. rewrite E1, E2, drop_0, Z.sub_0_r, take_ge by (unfold lenZ in Hlen; lia). by apply (dup_gives w refs p s). }
  destruct (Z.leb_spec (end_ - start) 0) as [L0 | L0].
  { replace (Z.to_nat (end_ - start)) with 0%nat by lia. rewrite take_0. by apply empty_gives. }
  remember (end_ - start) as len eqn:El. set (res := take (Z.to_nat len) (drop (Z.to_nat start) us)).
  assert (Hres : res = take (Z.to_nat len) (drop (Z.to_nat start) l)) by (unfold res; rewrite Hus; symmetry; apply take_drop_within; lia).
  assert (Hru : Forall (unit_ok (is_wide_char s)) res) by (by apply Forall_take, Forall_drop).
  assert (Hrl : lenZ res = len) by (unfold res, lenZ in *; rewrite length_take, length_drop; lia).
  destruct (Z.ltb_spec (Z.shiftr JS_STRING_SLICE_LEN_MAX (b2z (is_wide_char s))) len) as [L1 | L1].
  - unfold cells_of in Hl. destruct (tail s) as [l0 | q st | l0] eqn:Et; [| | by destruct (Hni l0)].
    + injection Hl as ->. apply (gives_step _ _ w refs _ (p, start)); [done |]. rewrite Hres. apply (make_slice_gives w refs p s l); try done; lia.
    + destruct (Hh p s Hp) as [_ Hok]. rewrite Et in Hok. destruct Hok as (t & lt & k & Hq & Htt & Hw & -> & Hk & Hkle). rewrite Hq, Htt, unshift in Hl. injection Hl as <-.
      apply (gives_step _ _ w refs _ (q, start + k)); [unfold sbind, str_load, sderef; rewrite Hq; cbn [run_bind]; by rewrite Hw, unshift |].
      rewrite Hres, drop_drop. replace (Z.to_nat k + Z.to_nat start)%nat with (Z.to_nat (start + k)) by lia. apply (make_slice_gives w refs q t lt); try done; lia.
  - apply (gives_step _ _ w refs _ l); [by apply (strv_run w p s) |]. apply (gives_step _ _ w refs _ res); [rewrite Hres; apply read_units_run; lia |].
    destruct (is_wide_char s) eqn:Ew.
    + destruct (255 <? foldl Z.lor 0 res) eqn:Ef.
      * apply (makes_gives rng _ _ _ true); [by apply new_string16_makes | done | done | done | lia].
      * destruct (u8_narrow res Hru Ef) as [E8 H8]. rewrite E8. apply narrow_gives; try done. lia.
    + apply (makes_gives rng _ _ _ false); [by apply new_string8_makes | done | done | done | lia].
Qed.
(** ** Strings from UTF-8 and UTF-16 *)

Lemma fill_run w p s l f l' n :
  strs w !! p = Some s -> tail s = Cells l -> f l = Done (l', n) -> fill p f w = Done (tt, set_strs w (<[p := set_tail s (Cells l')]> (strs w))).
Proof. intros Hp Ht Hf. unfold fill, sbind, str_load, sderef. rewrite Hp. cbn [run_bind]. rewrite Ht. unfold slift. rewrite Hf. done. Qed.

(** A string allocated for the units of a decoder and filled by it. *)
Lemma filled_gives w refs wide us n f :
  strings_ok w refs -> ranges w = rng -> Forall (unit_ok wide) us -> lenZ us = n -> n < 2 ^ 31 ->
  (forall l, length l = Z.to_nat (n + 1 - b2z wide) -> exists m, f l = Done (cells_with wide us, m)) ->
  gives (let^ p := js_alloc_string_rt n wide in if p =? 0 then sret ROutOfMemory else fill p f ;^ sret (RString p)) w refs us.
Proof.
  intros H Hrng Hu Hn Hl Hf. apply (makes_gives rng _ _ _ wide); [| done | done | done | lia].
  apply (makes_alloc rng n wide (fun p => fill p f)); [done |]. intros w' p j l Hp Hlen. destruct (Hf l Hlen) as [m Hm].
  by rewrite (fill_run w' p _ l f _ m Hp eq_refl Hm).
Qed.

Lemma overwrite_all dest us : length us = length dest -> overwrite dest us = us.
Proof. intros E. unfold overwrite. rewrite take_ge, drop_ge by lia. by rewrite app_nil_r. Qed.

Lemma units8_ok us : units8 us -> Forall (unit_ok false) us.
Proof. done. Qed.

Lemma units16_ok us : units16 us -> Forall (unit_ok true) us.
Proof. done. Qed.

Lemma new_string_len w refs buf os :
  strings_ok w refs -> ranges w = rng -> empty_atom w -> bytes_ok buf -> text buf os ->
  if lenZ (text_units os) <=? JS_STRING_LEN_MAX then gives (JS_NewStringLen buf) w refs (text_units os)
  else JS_NewStringLen buf w = Done (RRangeError, w).
Proof.
  intros H Hrng He Hb Ht. unfold JS_NewStringLen. destruct (Z.leb_spec (lenZ buf) 0) as [L | L].
  { destruct buf; [| rewrite lenZ_cons in L; pose proof (lenZ_nonneg buf); lia]. rewrite (text_functional [] os [] Ht text_nil). by apply empty_gives. }
  pose proof (scan_result buf os Ht Hb) as Hscan. set (us := text_units os) in *. set (kind := if existsb _ buf then _ else _) in Hscan.
  destruct (Z.leb_spec (lenZ us) JS_STRING_LEN_MAX) as [Lm | Lm].
  2: { unfold sbind, slift. rewrite Hscan. cbn [run_bind]. destruct (Z.ltb_spec JS_STRING_LEN_MAX (lenZ us)); [done | lia]. }
  apply (gives_step _ _ w refs _ (kind, lenZ us)); [unfold slift; by rewrite Hscan |]. destruct (Z.ltb_spec JS_STRING_LEN_MAX (lenZ us)); [lia |].
  unfold JS_STRING_LEN_MAX in Lm. assert (Hu16 : units16 us) by (by apply (text_units16 buf)).
  destruct (Z.eqb_spec kind UTF8_PLAIN_ASCII) as [Ek | Ek].
  - assert (Hascii : existsb (fun b => 128 <=? b) buf = false) by (unfold kind in Ek; destruct (existsb _ buf); [unfold flags in Ek; repeat case_match; discriminate Ek | done]).
    assert (Hus : us = buf) by (unfold us; rewrite (text_functional buf os _ Ht (text_ascii buf Hb Hascii)), text_units_some; by apply units_narrow).
    rewrite take_ge by (rewrite Hus; unfold lenZ; lia). rewrite Hus in Lm |- *. apply narrow_gives; try done. lia.
  - destruct (Z.eqb_spec kind UTF8_NON_ASCII) as [Ek1 | Ek1].
    + assert (Hk : Z.lor UTF8_NON_ASCII (flags os) = UTF8_NON_ASCII) by (unfold kind in Ek1; destruct (existsb _ buf); [done | discriminate Ek1]).
      apply flags_narrow in Hk. destruct (narrow_units os buf Ht Hb Hk) as (cs & Hos & Hcs & Hus). fold us in Hus. rewrite Hus in Lm |- *. apply filled_gives; try done; [lia |].
      intros l Hl. exists (lenZ cs). simpl in Hl. rewrite Hos in Ht. rewrite (encoding_text cs buf Ht), decode8_result by done. do 2 f_equal. unfold lenZ in *.
      rewrite (take_ge l), Hl by lia. rewrite take_ge by lia. unfold cells_with. apply overwrite_all. rewrite length_app. simpl. lia.
    + apply filled_gives; try done; [lia |]. intros l Hl. exists (lenZ us). simpl in Hl. rewrite (decode16_result _ _ os) by done. fold us. do 2 f_equal. unfold cells_with, lenZ in *.
      rewrite app_nil_r, take_ge by lia. apply overwrite_all. lia.
Qed.

Lemma new_string_utf16 w refs buf :
  strings_ok w refs -> ranges w = rng -> empty_atom w -> units16 buf ->
  if lenZ buf <=? JS_STRING_LEN_MAX then gives (JS_NewStringUTF16 buf) w refs buf else JS_NewStringUTF16 buf w = Done (RRangeError, w).
Proof.
  intros H Hrng He Hu. unfold JS_NewStringUTF16. destruct (Z.eqb_spec (lenZ buf) 0) as [L | L].
  { destruct buf; [| rewrite lenZ_cons in L; pose proof (lenZ_nonneg buf); lia]. by apply empty_gives. }
  destruct (Z.leb_spec (lenZ buf) JS_STRING_LEN_MAX) as [Lm | Lm], (Z.ltb_spec JS_STRING_LEN_MAX (lenZ buf)); try lia; [| done].
  unfold JS_STRING_LEN_MAX in Lm. apply (makes_gives rng _ _ _ true); [apply (new_string16_makes rng buf w) | done | done | done | lia].
Qed.
End ops.

(** * Strings: C strings of the embedder

    [JS_ToCStringLen2] and [JS_ToCStringLenUTF16] lend the embedder a buffer that
    [js_free_cstring] takes back. *)

(** ** The bytes *)

(** The code points that are encoded: CESU-8 keeps the halves of a pair apart. *)
Definition code_points (cesu8 : bool) (us : list Z) : list Z := if cesu8 then us else codes us.

Lemma unit_bytes c : 0 <= c < 65536 -> 1 <= lenZ (utf8_encode c) <= 3.
Proof.
  intros Hc. destruct (encode_len c) as [_ <-]; [unfold MAX_CODE; lia |]. unfold utf8_encode_len. repeat case_match; try lia.
Qed.

Lemma code_bytes k : 0 <= k < MAX_CODE -> lenZ (utf8_encode k) <= 3 * lenZ (to_units k).
Proof.
  intros Hk. unfold to_units. destruct (Z.ltb_spec 65535 k) as [L | L]; [| apply unit_bytes; lia].
  destruct (encode_len k Hk) as [_ <-]. unfold utf8_encode_len. change (lenZ [_; _]) with 2. repeat case_match; lia.
Qed.

Lemma encoding_bound us : units16 us -> lenZ (encoding us) <= 3 * lenZ us.
Proof.
  induction 1 as [| c us Hc _ IH]; [done |]. unfold encoding in *. rewrite bind_cons, lenZ_app, lenZ_cons. pose proof (unit_bytes c Hc). lia.
Qed.

Lemma encoding_codes_bound us : units16 us -> lenZ (encoding (codes us)) <= 3 * lenZ us.
Proof.
  revert us. apply codes_ind; [done |]. intros c l k rest E1 E2 Hk Hr _ IH. rewrite E2, E1. unfold encoding in *. rewrite bind_cons, !lenZ_app.
  pose proof (code_bytes k Hk). lia.
Qed.

Lemma code_points_bound cesu8 us : units16 us -> lenZ (encoding (code_points cesu8 us)) <= 3 * lenZ us.
Proof. destruct cesu8; [apply encoding_bound | apply encoding_codes_bound]. Qed.

Lemma code_points_range cesu8 us : units16 us -> Forall (fun c => 0 <= c < MAX_CODE) (code_points cesu8 us).
Proof.
  intros Hu. destruct cesu8; [| by apply codes_range]. simpl. unfold units16 in Hu. induction Hu as [| c us Hc _ IH]; constructor; [unfold MAX_CODE; lia | done].
Qed.

(** A string is recovered from its bytes in both encodings. *)
Lemma code_points_units cesu8 us : units16 us -> units (code_points cesu8 us) = us.
Proof.
  intros Hu. destruct cesu8; [| by apply units_codes]. simpl. induction Hu as [| c us Hc _ IH]; [done |]. unfold units in *.
  rewrite bind_cons, IH. unfold to_units. by destruct (Z.ltb_spec 65535 c); [lia |].
Qed.

(** ** The loops *)

(** [l] stored from the end of [pd] on, in a loop over a buffer [pd ++ room]. *)
Definition stored (pd room l : list Z) : run (list Z * Z) := Done ((pd ++ l) ++ drop (length l) room, lenZ pd + lenZ l).

Lemma stored_app pd room l l' : stored (pd ++ l) (drop (length l) room) l' = stored pd room (l ++ l').
Proof. unfold stored. by rewrite drop_drop, <- length_app, <- !app_assoc, !lenZ_app, Z.add_assoc. Qed.

Lemma stored_nil pd room : stored pd room [] = Done (pd ++ room, lenZ pd).
Proof. unfold stored. simpl. by rewrite drop_0, app_nil_r, Z.add_0_r. Qed.

Lemma narrow_loop_spec us pd room :
  units8 us -> (length (encoding us) <= length room)%nat -> narrow_loop us (pd ++ room) (lenZ pd) = stored pd room (encoding us).
Proof.
  intros H. revert pd room. induction H as [| c us Hc _ IH]; intros pd room Hl; [by rewrite stored_nil |].
  unfold encoding in *. rewrite bind_cons in Hl |- *. rewrite length_app in Hl.
  assert (G : narrow_loop (c :: us) (pd ++ room) (lenZ pd) =
    let* q := put_all (pd ++ room) (lenZ pd) (utf8_encode c) in narrow_loop us q (lenZ pd + lenZ (utf8_encode c))).
  { cbn [narrow_loop]. rewrite (encode_narrow c Hc). destruct (c <? 128); cbn [put_all]; [by destruct (put_at (pd ++ room) (lenZ pd) (u8 c)) |].
    destruct (put_at (pd ++ room) (lenZ pd) _); [| done | done]. cbn [run_bind]. by destruct (put_at _ (lenZ pd + 1) _). }
  rewrite G, put_all_here by lia. cbn [run_bind]. rewrite <- lenZ_app, IH by (rewrite length_drop; lia). apply stored_app.
Qed.

(** One step of the wide loop. *)
Lemma wide_step fuel cesu8 us q pos j :
  pos < lenZ us ->
  wide_loop (S fuel) cesu8 us q pos j =
    let* (c, pos) := if cesu8 then let* c := fetch us (Z.to_nat pos) in Done (c, pos + 1) else next_code us pos in
    let* q := put_all q j (utf8_encode c) in wide_loop fuel cesu8 us q pos (j + lenZ (utf8_encode c)).
Proof.
  intros Hp. cbn [wide_loop]. destruct (Z.ltb_spec pos (lenZ us)); [| lia].
  assert (G : forall c pos', (c <? 128) = true -> (let* q := put_at q j (u8 c) in wide_loop fuel cesu8 us q pos' (j + 1)) =
    let* q := put_all q j (utf8_encode c) in wide_loop fuel cesu8 us q pos' (j + lenZ (utf8_encode c))).
  { intros c pos' Hc. assert (E : utf8_encode c = [u8 c]) by (unfold utf8_encode; by rewrite Hc). rewrite E. cbn [put_all]. by destruct (put_at q j (u8 c)). }
  destruct cesu8.
  - destruct (fetch us (Z.to_nat pos)) as [c | |]; [| done | done]. cbn [run_bind]. destruct (c <? 128) eqn:Ec; [by apply G |]. by rewrite andb_false_r.
  - unfold next_code. destruct (fetch us (Z.to_nat pos)) as [c | |]; [| done | done]. cbn [run_bind]. destruct (c <? 128) eqn:Ec; [by apply G |]. rewrite andb_true_r.
    destruct (is_hi_surrogate c && (pos + 1 <? lenZ us)); [| done]. destruct (fetch us (Z.to_nat (pos + 1))) as [d | |]; [| done | done]. cbn [run_bind].
    by destruct (is_lo_surrogate d).
Qed.

Lemma wide_loop_pairs l :
  units16 l -> forall fuel pre pd room, (length l < fuel)%nat -> (length (encoding (codes l)) <= length room)%nat ->
  wide_loop fuel false (pre ++ l) (pd ++ room) (lenZ pre) (lenZ pd) = stored pd room (encoding (codes l)).
Proof.
  revert l. apply (codes_ind (fun l => forall fuel pre pd room, (length l < fuel)%nat -> (length (encoding (codes l)) <= length room)%nat ->
    wide_loop fuel false (pre ++ l) (pd ++ room) (lenZ pre) (lenZ pd) = stored pd room (encoding (codes l)))).
  - intros fuel pre pd room Hf _. destruct fuel as [| fuel]; [simpl in Hf; lia |]. cbn [wide_loop]. by rewrite at_end, stored_nil.
  - intros c l k rest E1 E2 Hk Hr _ IH fuel pre pd room Hf Hl. destruct fuel as [| fuel]; [simpl in Hf; lia |]. pose proof (before_end pre c l) as Hb. apply Z.ltb_lt in Hb.
    rewrite wide_step, (next_code_spec pre c l k rest) by (done || by apply (units16_cons c l k rest)). cbn [run_bind].
    rewrite E2 in Hl |- *. unfold encoding in *. rewrite bind_cons in Hl |- *. rewrite length_app in Hl. rewrite put_all_here by lia. cbn [run_bind].
    pose proof (shorter c l k rest E1). simpl in Hf. rewrite (next_src pre c l k rest E1), <- !lenZ_app, IH by (rewrite ?length_drop; lia). apply stored_app.
Qed.

Lemma wide_loop_units l :
  units16 l -> forall fuel pre pd room, (length l < fuel)%nat -> (length (encoding l) <= length room)%nat ->
  wide_loop fuel true (pre ++ l) (pd ++ room) (lenZ pre) (lenZ pd) = stored pd room (encoding l).
Proof.
  induction 1 as [| c l Hc _ IH]; intros fuel pre pd room Hf Hl; (destruct fuel as [| fuel]; [simpl in Hf; lia |]).
  { cbn [wide_loop]. by rewrite at_end, stored_nil. }
  pose proof (before_end pre c l) as Hb. apply Z.ltb_lt in Hb. rewrite wide_step by done. unfold fetch.
  assert (L0 : (pre ++ c :: l) !! Z.to_nat (lenZ pre) = Some c) by (unfold lenZ; rewrite Nat2Z.id; by apply list_lookup_middle). rewrite L0. cbn [run_bind].
  unfold encoding in *. rewrite bind_cons in Hl |- *. rewrite length_app in Hl. rewrite put_all_here by lia. cbn [run_bind]. simpl in Hf.
  rewrite cons_middle, app_assoc, (lenZ_snoc pre c), <- lenZ_app, IH by (rewrite ?length_drop; lia). apply stored_app.
Qed.

Lemma wide_loop_spec cesu8 us room :
  units16 us -> (length (encoding (code_points cesu8 us)) <= length room)%nat ->
  wide_loop (S (length us)) cesu8 us room 0 0 = stored [] room (encoding (code_points cesu8 us)).
Proof.
  intros Hu Hl. destruct cesu8; [exact (wide_loop_units us Hu (S (length us)) [] [] room ltac:(lia) Hl) |].
  exact (wide_loop_pairs us Hu (S (length us)) [] [] room ltac:(lia) Hl).
Qed.

(** The finished buffer has a terminator behind the bytes. *)
Lemma finish_spec room l :
  (length l < length room)%nat -> finish_cstring (stored [] room l) = Done (l ++ 0 :: drop (S (length l)) room, lenZ l).
Proof.
  intros H. unfold finish_cstring, stored. cbn [run_bind app]. rewrite Z.add_0_l. destruct (drop (length l) room) as [| x r] eqn:E.
  { apply (f_equal length) in E. rewrite length_drop in E. simpl in E. lia. }
  rewrite put_here. cbn [run_bind]. rewrite <- Nat.add_1_r, <- drop_drop, E. done.
Qed.

(** ** C strings *)

Lemma count_spec us n : units8 us -> n + lenZ us + foldl (fun n c => n + Z.shiftr c 7) 0 us = n + lenZ (encoding us).
Proof.
  intros H. assert (G : forall m, foldl (fun n c => n + Z.shiftr c 7) m us = m + (lenZ (encoding us) - lenZ us)).
  { induction H as [| c us Hc _ IH]; intros m; [simpl; lia |]. simpl foldl. rewrite IH. unfold encoding. rewrite bind_cons, lenZ_app, lenZ_cons, (encode_narrow c Hc).
    rewrite Z.shiftr_div_pow2 by lia. change (2 ^ 7) with 128. destruct (Z.ltb_spec c 128).
    - rewrite Z.div_small by lia. unfold lenZ. simpl. lia.
    - replace (c / 128) with 1 by (apply (Z.div_unique _ _ _ (c - 128)); lia). unfold lenZ. simpl. lia. }
  rewrite G. lia.
Qed.

Lemma encoding8_bound us : units8 us -> lenZ us <= lenZ (encoding us) <= 2 * lenZ us.
Proof.
  unfold encoding. induction 1 as [| c us Hc _ IH]; [done |]. rewrite bind_cons, lenZ_app, lenZ_cons, (encode_narrow c Hc).
  destruct (c <? 128); [change (lenZ [_]) with 1 | change (lenZ [_; _]) with 2]; lia.
Qed.

Lemma all_ascii us : units8 us -> lenZ (encoding us) = lenZ us -> encoding us = us.
Proof.
  induction 1 as [| c us Hc Hus IH]; intros E; [done |]. unfold encoding in *. rewrite bind_cons, lenZ_app, lenZ_cons in *.
  pose proof (proj1 (encoding8_bound us Hus)) as Hge. unfold encoding in Hge.
  rewrite (encode_narrow c Hc) in *. destruct (Z.ltb_spec c 128); [| unfold lenZ in E, Hge; simpl in E; lia].
  change (lenZ [u8 c]) with 1 in E. rewrite IH by lia. unfold u8. by rewrite Z.mod_small by lia.
Qed.

Section cstrings.
Context `{SA : StrAlloc}.
Context (rng : base_ranges) {SL : StrAllocLaws rng}.

(** [q] is a buffer of the bytes and a terminator, right behind a header. *)
Definition lent (w : world) (q : Z) (bytes : list Z) : Prop :=
  exists s l, strs w !! q = Some s /\ tail s = Cells l /\ take (length bytes) l = bytes /\ l !! length bytes = Some 0.

(** What there was and is held shows the same text. *)
Definition still (w w' : world) (refs : Z -> Z) : Prop :=
  ranges w' = ranges w /\ tab w' = tab w /\ req w' = req w /\
  forall r us, held w refs r -> contents (strs w) r = Some us -> contents (strs w') r = Some us.

(** A new string [sq] is made, and the reference on the original given back. *)
Lemma copy_out w refs p s q sq a :
  strings_ok w refs -> ranges w = rng -> strs w !! p = Some s -> 0 < q -> strs w !! q = None -> js_arena_ptr_is_base rng q = false ->
  not_slice sq -> ref_count sq = 1 -> (forall h, str_ok h sq) ->
  let w1 := set_strs (set_heap_state (rc_incremented w p s) a) (<[q := sq]> (strs (rc_incremented w p s))) in
  exists w', js_free_string p w1 = Done (tt, w') /\ still w w' refs /\ strings_ok w' (take_ref refs q) /\
    exists s', strs w' !! q = Some s' /\ same_text sq s'.
Proof.
  intros H Hrng Hp Hq0 Hq Hqb Hns Hrc Hok w1. destruct (rc_inc_fields w p s) as (F1 & F2 & F3). set (w0 := rc_incremented w p s) in *.
  pose proof (rc_inc_ok w refs p s H Hp) as H0. fold w0 in H0. assert (Hpq : p <> q) by congruence.
  assert (Hq' : strs w0 !! q = None) by (unfold w0, rc_incremented; destruct (is_base w p); [done |]; simpl; by rewrite lookup_insert_ne).
  assert (Hqb0 : is_base (set_heap_state w0 a) q = false) by (unfold is_base; simpl; by rewrite F1, Hrng).
  pose proof (ok_new (set_heap_state w0 a) _ q sq (ok_heap_state w0 _ a H0) Hq0 Hq' Hqb0 Hns Hrc (Hok _)) as H1.
  change (set_strs (set_heap_state w0 a) (<[q := sq]> (strs (set_heap_state w0 a)))) with w1 in H1.
  assert (Hr : 1 <= take_ref (take_ref refs p) q p) by (unfold take_ref; rewrite Z.eqb_refl; destruct (so_refs _ _ H p); destruct (Z.eqb_spec p q); [congruence | lia]).
  destruct (free_ok w1 _ p H1 Hr) as (h' & Hrun & Hfin & Hkeep). exists (set_strs w1 h'). split; [exact Hrun |].
  assert (Hext : forall r, drop_ref (take_ref (take_ref refs p) q) p r = take_ref refs q r) by (intros r; unfold drop_ref, take_ref; destruct (r =? p), (r =? q); lia).
  assert (Hheld : forall r, held w (take_ref refs q) r -> held w1 (drop_ref (take_ref (take_ref refs p) q) p) r) by (intros r Hr'; unfold held, is_base in *; rewrite Hext; simpl; by rewrite F1).
  split; [| split; [by apply (strings_ok_ext _ _ _ Hext) |]].
  - split; [simpl; by rewrite F1 |]. split; [simpl; by rewrite F2 |]. split; [simpl; by rewrite F3 |]. intros r us Hr' Hc. simpl.
    apply Hkeep; [apply Hheld; unfold held, take_ref in *; destruct (r =? q); [destruct Hr'; [left; lia | by right] | done] |].
    assert (Hk : forall x, keeps (strs w) (strs w1) x) by (intros x; apply (keep_trans _ (strs w0)); [by apply rc_inc_keeps | by apply keeps_insert_new]).
    by apply (contents_keeps (strs w)).
  - destruct (Hkeep q) as [Hkq _]; [apply Hheld; left; unfold take_ref; rewrite Z.eqb_refl; destruct (so_refs _ _ H q); lia |].
    apply (Hkq sq). unfold w1. simpl. by rewrite lookup_insert_eq.
Qed.

(** The outcome of [JS_ToCStringLen2]: a buffer that is held, or NULL; then the
    reference taken on the string is not given back. *)
Definition to_cstring_outcome (w w' : world) (refs : Z -> Z) (p : Z) (bytes : list Z) (c : cptr) (n : Z) : Prop :=
  (c = CNull /\ n = 0 /\ strings_ok w' (take_ref refs p)) \/
  (exists q, c = CPtr q 0 /\ n = lenZ bytes /\ strings_ok w' (take_ref refs q) /\ lent w' q bytes).

Lemma rc_inc_still w refs p s a : strs w !! p = Some s -> still w (set_heap_state (rc_incremented w p s) a) refs.
Proof.
  intros Hp. destruct (rc_inc_fields w p s) as (F1 & F2 & F3). split; [done |]. split; [done |]. split; [done |]. intros r us _ Hc. by apply rc_inc_contents.
Qed.

(** The copying part of [JS_ToCStringLen2], for a loop that stores [bytes]. *)
Lemma copy_run w refs p s bytes max_len (loop : list Z -> run (list Z * Z)) :
  strings_ok w refs -> ranges w = rng -> strs w !! p = Some s -> units8 bytes -> lenZ bytes <= max_len < 2 ^ 31 ->
  (forall room, length room = Z.to_nat (max_len + 1) -> loop room = stored [] room bytes) ->
  exists c n w',
    (let^ q := js_alloc_string_rt max_len false in
     if q =? 0 then sret (CNull, 0)
     else
       let^ r := str_load q in
       match tail r with
       | Cells l =>
           let^ (l, n) := slift (finish_cstring (loop l)) in
           str_store q (set_slen (set_tail r (Cells l)) n) ;^
           js_free_string p ;^ sret (CPtr q 0, n)
       | _ => sabort
       end) (rc_incremented w p s) = Done ((c, n), w') /\ still w w' refs /\ to_cstring_outcome w w' refs p bytes c n.
Proof.
  intros H Hrng Hp Hb Hmax Hloop. set (w0 := rc_incremented w p s).
  destruct (alloc_run rng w0 max_len false) as (a & [E | (q & j & l & [Hq0 _] & Hq & Hqb & Hl & E)]).
  { exists CNull, 0, (set_heap_state w0 a). split; [unfold sbind; by rewrite E |]. split; [by apply rc_inc_still |]. left. split_and!; try done. by apply ok_heap_state, rc_inc_ok. }
  assert (Hqw : strs w !! q = None).
  { unfold w0, rc_incremented in Hq. destruct (is_base w p); [done |]. simpl in Hq. by apply lookup_insert_None in Hq as [? _]. }
  simpl b2z in Hl. rewrite Z.sub_0_r in Hl. assert (Hfin : finish_cstring (loop l) = Done (bytes ++ 0 :: drop (S (length bytes)) l, lenZ bytes)).
  { rewrite (Hloop l Hl). apply finish_spec. unfold lenZ in Hmax. lia. }
  set (cells := bytes ++ 0 :: drop (S (length bytes)) l) in *. set (sq := mkString 1 (lenZ bytes) false 0 0 0 j (Cells cells)).
  assert (Hcells : take (length bytes) cells = bytes /\ cells !! length bytes = Some 0) by (unfold cells; rewrite take_app_length; split; [done | by apply list_lookup_middle]).
  assert (Hok : forall h, str_ok h sq).
  { intros h. split; [pose proof (lenZ_nonneg bytes); simpl; lia |]. simpl. unfold lenZ. rewrite Nat2Z.id. destruct Hcells as [-> ?]. split; [| done]. unfold cells. rewrite length_app. lia. }
  destruct (copy_out w refs p s q sq a H Hrng Hp Hq0 Hqw Hqb (fun _ _ E => ltac:(discriminate E)) eq_refl Hok) as (w' & Hfree & Hstill & Hfin' & s' & Hs' & _ & _ & Ht').
  exists (CPtr q 0), (lenZ bytes), w'. split.
  - unfold sbind at 1. rewrite E. cbn [run_bind]. destruct (Z.eqb_spec q 0); [lia |]. unfold sbind at 1, str_load at 1, sderef at 1. simpl strs. rewrite lookup_insert_eq. cbn [run_bind tail].
    unfold sbind at 1, slift at 1. rewrite Hfin. cbn [run_bind]. unfold sbind at 1, str_store, smod. cbn [run_bind]. rewrite set_strs_twice. simpl strs. rewrite insert_insert_eq.
    unfold sbind.
    match goal with |- context [js_free_string p ?x] => replace (js_free_string p x) with (Done (tt, w')) by (symmetry; exact Hfree) end. done.
  - split; [done |]. right. exists q. split_and!; try done. exists s', cells. split; [done |]. split; [by rewrite Ht' | done].
Qed.

Lemma to_cstring_ok w refs p s us cesu8 :
  strings_ok w refs -> ranges w = rng -> strs w !! p = Some s -> contents (strs w) p = Some us -> atom_type s <> JS_ATOM_TYPE_SYMBOL ->
  slen s <= JS_STRING_LEN_MAX -> (is_wide_char s = true -> slen s * 3 <= INT_MAX) ->
  exists c n w', JS_ToCStringLen2 p cesu8 w = Done ((c, n), w') /\ still w w' refs /\
    to_cstring_outcome w w' refs p (encoding (code_points cesu8 us)) c n.
Proof.
  intros H Hrng Hp Hc Hat Hlen Hint. pose proof (strings_heap_ok w refs H) as Hh.
  destruct (heap_ok_contents _ p s Hh Hp) as (l & us' & Hcl & Hc' & Hle & Hus & Hul & Hu). rewrite Hc in Hc'. injection Hc' as <-.
  set (w0 := rc_incremented w p s). destruct (rc_inc_keeps w p s p Hp s Hp) as (s0 & Hp0 & E1 & E2 & E3).
  assert (Hc0 : contents (strs w0) p = Some us) by (by apply rc_inc_contents). fold w0 in Hp0.
  unfold JS_ToCStringLen2. unfold sbind at 1. rewrite (rc_inc_run w p s Hp). cbn [run_bind]. fold w0. unfold sbind at 1, str_load at 1, sderef at 1. rewrite Hp0. cbn [run_bind].
  unfold sbind at 1. rewrite (str_units_run w0 p us Hc0). cbn [run_bind]. rewrite E1, E2. unfold strv_ptr. rewrite E3.
  set (count := foldl (fun n c => n + Z.shiftr c 7) 0 us). unfold JS_STRING_LEN_MAX, INT_MAX in *.
  destruct (is_wide_char s) eqn:Ew; cbn [negb andb].
  - destruct (Z.ltb_spec (2 ^ 31 - 1) (slen s * 3)); [specialize (Hint eq_refl); lia |]. pose proof (code_points_bound cesu8 us Hu) as Hbd. specialize (Hint eq_refl).
    apply (copy_run w refs p s (encoding (code_points cesu8 us)) (slen s * 3) (fun l => wide_loop (S (length us)) cesu8 us l 0 0) H Hrng Hp); [apply bytes_encoding; by apply code_points_range | lia |].
    intros room Hroom. apply wide_loop_spec; [done |]. unfold lenZ in *. lia.
  - assert (Hcp : code_points cesu8 us = us) by (destruct cesu8; [done | by apply codes_narrow]). rewrite Hcp.
    pose proof (count_spec us 0 Hu) as Hcount. fold count in Hcount.
    pose proof (encoding8_bound us Hu) as Hb2. assert (Hmax : lenZ (encoding us) <= slen s + count < 2 ^ 31) by lia.
    assert (Hb8 : units8 (encoding us)) by (apply bytes_encoding; pose proof (code_points_range cesu8 us (units8_16 us Hu)) as Hr; by rewrite Hcp in Hr).
    pose proof (copy_run w refs p s (encoding us) (slen s + count) (fun l => narrow_loop us l 0) H Hrng Hp Hb8 Hmax) as Hcopy. fold w0 in Hcopy.
    specialize (Hcopy ltac:(intros room Hroom; apply (narrow_loop_spec us [] room Hu); unfold lenZ in *; lia)).
    destruct (Z.eqb_spec count 0) as [E0 | E0]; cbn [andb]; [| destruct (Z.ltb_spec (2 ^ 31 - 1) (slen s + count)); [lia | exact Hcopy]].
    destruct (tail s) as [l0 | q st | l0] eqn:Et; [| destruct (Z.ltb_spec (2 ^ 31 - 1) (slen s + count)); [lia | exact Hcopy] ..].
    exists (CPtr p 0), (slen s), w0. split; [done |]. split; [destruct (rc_inc_fields w p s) as (F1 & F2 & F3); split; [done |]; split; [done |]; split; [done |]; intros r vs _ Hr; by apply rc_inc_contents |].
    right. exists p. rewrite (all_ascii us Hu) by lia. split; [done |]. split; [done |]. split; [by apply rc_inc_ok |].
    exists s0, l0. split; [done |]. split; [by rewrite E3 |]. unfold cells_of in Hcl. rewrite Et in Hcl. injection Hcl as ->. destruct (Hh p s Hp) as [_ Hok]. rewrite Et, Ew in Hok.
    destruct Hok as (_ & _ & Hz). unfold lenZ in Hul. replace (length us) with (Z.to_nat (slen s)) by lia. split; [done | by apply Hz].
Qed.

(** ** UTF-16 buffers *)

Definition lent16 (w : world) (q : Z) (us : list Z) : Prop :=
  exists s l, strs w !! q = Some s /\ tail s = Cells l /\ take (length us) l = us.

(** [JS_ToCStringLenUTF16] of a string that is not a wide slice. *)
Lemma to_utf16_ok w refs p s us :
  strings_ok w refs -> ranges w = rng -> strs w !! p = Some s -> contents (strs w) p = Some us -> (is_wide_char s = true -> not_slice s) ->
  exists c n w', JS_ToCStringLenUTF16 p w = Done ((c, n), w') /\ still w w' refs /\
    ((c = CNull /\ n = 0 /\ strings_ok w' refs) \/
     (exists q, c = CPtr q 0 /\ n = lenZ us /\ strings_ok w' (take_ref refs q) /\ lent16 w' q us)).
Proof.
  intros H Hrng Hp Hc Hwide. pose proof (strings_heap_ok w refs H) as Hh.
  destruct (heap_ok_contents _ p s Hh Hp) as (l & us' & Hcl & Hc' & Hle & Hus & Hul & Hu). rewrite Hc in Hc'. injection Hc' as <-.
  set (w0 := rc_incremented w p s). destruct (rc_inc_keeps w p s p Hp s Hp) as (s0 & Hp0 & E1 & E2 & E3). fold w0 in Hp0.
  assert (Hc0 : contents (strs w0) p = Some us) by (by apply rc_inc_contents). pose proof (rc_inc_ok w refs p s H Hp) as H0. fold w0 in H0.
  unfold JS_ToCStringLenUTF16. unfold sbind at 1. rewrite (rc_inc_run w p s Hp). cbn [run_bind]. fold w0. unfold sbind at 1, str_load at 1, sderef at 1. rewrite Hp0. cbn [run_bind].
  rewrite E1, E2. unfold strv_ptr. rewrite E3. destruct (is_wide_char s) eqn:Ew; cbn [negb].
  { unfold cells_of in Hcl. destruct (Hh p s Hp) as [_ Hok]. destruct (tail s) as [l0 | q st | l0] eqn:Et; [| by destruct (Hwide eq_refl q st) | destruct Hok; congruence].
    injection Hcl as ->. exists (CPtr p 0), (slen s), w0. split; [done |]. split; [exact (rc_inc_still w refs p s (heap_state w0) Hp) |]. right. exists p.
    split_and!; try done. exists s0, l. split_and!; try done. unfold lenZ in Hul. rewrite Hus at 2. f_equal. lia. }
  unfold sbind at 1. destruct (alloc_run rng w0 (slen s) true) as (a & [E | (q & j & lq & [Hq0 _] & Hq & Hqb & Hlq & E)]); rewrite E; cbn [run_bind].
  - assert (Hr : 1 <= take_ref refs p p) by (unfold take_ref; rewrite Z.eqb_refl; destruct (so_refs _ _ H p); lia).
    destruct (free_ok _ _ p (ok_heap_state w0 _ a H0) Hr) as (h' & Hfree & Hfin & Hkeep).
    assert (Hext : forall r, drop_ref (take_ref refs p) p r = refs r) by (intros r; unfold drop_ref, take_ref; destruct (r =? p); lia).
    exists CNull, 0, (set_strs (set_heap_state w0 a) h'). split; [unfold sbind; simpl; by rewrite Hfree |]. destruct (rc_inc_fields w p s) as (F1 & F2 & F3). split.
    + split; [done |]. split; [done |]. split; [done |]. intros r vs Hr' Hcr. apply Hkeep; [unfold held, is_base in *; rewrite Hext; simpl; unfold w0; by rewrite F1 | by apply rc_inc_contents].
    + left. split_and!; try done. by apply (strings_ok_ext _ _ _ Hext).
  - destruct (Z.eqb_spec q 0); [lia |]. simpl b2z in Hlq.
    assert (Hqw : strs w !! q = None) by (unfold w0, rc_incremented in Hq; destruct (is_base w p); [done |]; simpl in Hq; by apply lookup_insert_None in Hq as [? _]).
    set (sq := mkString 1 (slen s) true 0 0 0 j (Cells us)).
    assert (Hok : forall h, str_ok h sq).
    { intros h. split; [by destruct (Hh p s Hp) |]. simpl. unfold lenZ in *. split; [lia |]. rewrite take_ge by lia. split; [| done]. eapply Forall_impl; [exact Hu |]. unfold unit_ok. intros c Hc1. lia. }
    destruct (copy_out w refs p s q sq a H Hrng Hp Hq0 Hqw Hqb (fun _ _ Eq => ltac:(discriminate Eq)) eq_refl Hok) as (w' & Hfree & Hstill & Hfin & s' & Hs' & _ & _ & Ht').
    exists (CPtr q 0), (slen s), w'. split.
    + unfold sbind at 1. erewrite str_units_run; [| apply (contents_keeps (strs w0)); [exact Hc0 | by apply keeps_insert_new | intros; by apply keeps_insert_new]]. cbn [run_bind].
      unfold sbind at 1. erewrite (fill_wide _ q j (slen s) lq us); [| done | rewrite Hlq; f_equal; lia | simpl; by rewrite lookup_insert_eq]. cbn [run_bind].
      rewrite set_strs_twice. simpl strs. rewrite insert_insert_eq. fold sq. unfold sbind.
      match goal with |- context [js_free_string p ?x] => replace (js_free_string p x) with (Done (tt, w')) by (symmetry; exact Hfree) end. done.
    + split; [done |]. right. exists q. split_and!; try done. exists s', us. split; [done |]. split; [by rewrite Ht' | by rewrite firstn_all].
Qed.

(** [js_free_cstring] gives a lent buffer back. *)
Lemma free_cstring_ok w refs q :
  strings_ok w (take_ref refs q) -> 0 <= refs q -> exists w', js_free_cstring (CPtr q 0) w = Done (tt, w') /\ strings_ok w' refs /\ still w w' refs.
Proof.
  intros H Hq. assert (Hr : 1 <= take_ref refs q q) by (unfold take_ref; rewrite Z.eqb_refl; lia).
  destruct (free_ok w _ q H Hr) as (h' & Hrun & Hfin & Hkeep).
  assert (Hext : forall r, drop_ref (take_ref refs q) q r = refs r) by (intros r; unfold drop_ref, take_ref; destruct (r =? q); lia).
  exists (set_strs w h'). split; [done |]. split; [by apply (strings_ok_ext _ _ _ Hext) |]. split; [done |]. split; [done |]. split; [done |].
  intros r us Hr'. apply Hkeep. unfold held in *. by rewrite Hext.
Qed.
End cstrings.
