(* ===== verification/JsStringTheorems.v ===== *)
(** * Strings: what they promise

    Clients that release only what they hold never touch freed memory; strings
    made from UTF-8, UTF-16 or other strings have the right units; C strings give
    the string back; comparison is the order of UTF-16 units. *)

From stdpp Require Import base list numbers gmap fin_maps.
From Stdlib Require Import ZArith Lia.
From S2P Require Import Prelude StateRun BaseRanges Utf8 Utf8Proofs JsString JsStringProofs JsStringOps.

#[local] Open Scope Z_scope.
#[local] Open Scope st_scope.

(** The order of strings: by units, a proper prefix first. *)
Fixpoint lex (l1 l2 : list Z) : comparison :=
  match l1, l2 with
  | [], [] => Eq
  | [], _ :: _ => Lt
  | _ :: _, [] => Gt
  | c :: l1, d :: l2 => match c ?= d with Eq => lex l1 l2 | r => r end
  end.

Lemma memcmp_lex l1 l2 :
  let n := Nat.min (length l1) (length l2) in
  let r := memcmp16 (take n l1) (take n l2) in
  if r =? 0 then lex l1 l2 = (lenZ l1 ?= lenZ l2) else lex l1 l2 = (r ?= 0).
Proof.
  revert l2. induction l1 as [| c l1 IH]; intros [| d l2]; [done | done | done |]. cbn [length Nat.min take memcmp16 lex]. specialize (IH l2). cbv zeta in IH |- *.
  destruct (Z.eqb_spec (c - d) 0) as [E | E].
  - replace d with c by lia. rewrite Z.compare_refl. rewrite !lenZ_cons, Z.add_compare_mono_l. exact IH.
  - destruct (Z.eqb_spec (c - d) 0); [done |]. rewrite Z.compare_sub. destruct (c - d ?= 0) eqn:Ec; try done. apply Z.compare_eq in Ec. lia.
Qed.

Lemma memcmp_opp l1 l2 : length l1 = length l2 -> memcmp16 l2 l1 = - memcmp16 l1 l2.
Proof.
  revert l2. induction l1 as [| c l1 IH]; intros [| d l2] Hl; try done. simpl. injection Hl as Hl.
  destruct (Z.eqb_spec (c - d) 0), (Z.eqb_spec (d - c) 0); try lia. by apply IH.
Qed.

Lemma lex_eq l1 l2 : lex l1 l2 = Eq <-> l1 = l2.
Proof.
  revert l2. induction l1 as [| c l1 IH]; intros [| d l2]; simpl; try done. destruct (c ?= d) eqn:E.
  - apply Z.compare_eq in E as ->. rewrite IH. split; [by intros -> | by intros [= ->]].
  - split; [done |]. intros [= -> ->]. by rewrite Z.compare_refl in E.
  - split; [done |]. intros [= -> ->]. by rewrite Z.compare_refl in E.
Qed.

Section theorems.
Context `{SA : StrAlloc}.
Context (rng : base_ranges) {SL : StrAllocLaws rng}.

Lemma memcmp_run w refs p1 p2 us1 us2 n :
  strings_ok w refs -> contents (strs w) p1 = Some us1 -> contents (strs w) p2 = Some us2 -> 0 <= n <= Z.min (lenZ us1) (lenZ us2) ->
  js_string_memcmp p1 p2 n w = Done (memcmp16 (take (Z.to_nat n) us1) (take (Z.to_nat n) us2), w).
Proof.
  intros H H1 H2 Hn. pose proof (strings_heap_ok w refs H) as Hh.
  assert (G : forall p us, contents (strs w) p = Some us -> n <= lenZ us -> exists s l, strs w !! p = Some s /\ strv p w = Done (l, w) /\
    read_units l 0 n w = Done (take (Z.to_nat n) us, w)).
  { intros p us Hc Hnu. assert (exists s, strs w !! p = Some s) as [s Hp] by (unfold contents in Hc; destruct (strs w !! p); [by eexists | done]).
    destruct (heap_ok_contents _ p s Hh Hp) as (l & us' & Hcl & Hc' & Hle & Hus & Hul & _). rewrite Hc in Hc'. injection Hc' as <-. exists s, l.
    split; [done |]. split; [by apply (strv_run w p s) |]. rewrite read_units_run by lia. rewrite drop_0. do 2 f_equal. rewrite Hus, take_take. f_equal. lia. }
  destruct (G p1 us1 H1 ltac:(lia)) as (s1 & l1 & Hs1 & Hl1 & Hr1). destruct (G p2 us2 H2 ltac:(lia)) as (s2 & l2 & Hs2 & Hl2 & Hr2).
  unfold js_string_memcmp. unfold sbind, str_load, sderef. rewrite Hs1. cbn [run_bind]. rewrite Hs2. cbn [run_bind]. rewrite Hl1. cbn [run_bind]. rewrite Hl2. cbn [run_bind].
  rewrite Hr1. cbn [run_bind]. rewrite Hr2. cbn [run_bind]. destruct (negb (is_wide_char s1)), (negb (is_wide_char s2)); try done. unfold sret.
  rewrite (memcmp_opp (take (Z.to_nat n) us1)), Z.opp_involutive by (unfold lenZ in Hn; rewrite !length_take; lia). done.
Qed.

Lemma contents_string w refs p us :
  strings_ok w refs -> contents (strs w) p = Some us -> exists s, strs w !! p = Some s /\ slen s = lenZ us.
Proof.
  intros H Hc. assert (exists s, strs w !! p = Some s) as [s Hp] by (unfold contents in Hc; destruct (strs w !! p); [by eexists | done]). exists s. split; [done |].
  destruct (heap_ok_contents _ p s (strings_heap_ok w refs H) Hp) as (l & us' & _ & Hc' & _ & _ & Hul & _). rewrite Hc in Hc'. by injection Hc' as <-.
Qed.

(** Strings compare as sequences of UTF-16 units, whatever their width and
    kind: the sign of [js_string_compare] is the lexicographic order, and
    [js_string_eq] is equality of the units. *)
Theorem string_compare_lexicographic w refs p1 p2 us1 us2 :
  strings_ok w refs -> contents (strs w) p1 = Some us1 -> contents (strs w) p2 = Some us2 ->
  (exists r, js_string_compare p1 p2 w = Done (r, w) /\ (r ?= 0) = lex us1 us2) /\
  (exists b, js_string_eq p1 p2 w = Done (b, w) /\ (b = true <-> us1 = us2)).
Proof.
  intros H H1 H2. destruct (contents_string w refs p1 us1 H H1) as (s1 & Hs1 & Hl1). destruct (contents_string w refs p2 us2 H H2) as (s2 & Hs2 & Hl2).
  pose proof (lenZ_nonneg us1). pose proof (lenZ_nonneg us2). pose proof (memcmp_lex us1 us2) as Hlex. cbv zeta in Hlex. split.
  - unfold js_string_compare, sbind, str_load, sderef. rewrite Hs1. cbn [run_bind]. rewrite Hs2. cbn [run_bind]. rewrite Hl1, Hl2.
    rewrite (memcmp_run w refs p1 p2 us1 us2) by (done || lia). cbn [run_bind]. replace (Z.to_nat (Z.min (lenZ us1) (lenZ us2))) with (Nat.min (length us1) (length us2)) by (unfold lenZ; lia).
    destruct (_ =? 0) in Hlex |- *; eexists; (split; [done |]); rewrite Hlex; [| done].
    destruct (Z.ltb_spec (lenZ us2) (lenZ us1)), (Z.ltb_spec (lenZ us1) (lenZ us2)); simpl; symmetry; [lia | by apply Z.compare_gt_iff | by apply Z.compare_lt_iff | apply Z.compare_eq_iff; lia].
  - unfold js_string_eq, sbind, str_load, sderef. rewrite Hs1. cbn [run_bind]. rewrite Hs2. cbn [run_bind]. rewrite Hl1, Hl2.
    destruct (Z.eqb_spec (lenZ us1) (lenZ us2)) as [El | El]; cbn [negb]; [| exists false; split; [done |]; split; [done | intros ->; lia]].
    rewrite (memcmp_run w refs p1 p2 us1 us2) by (done || lia). cbn [run_bind]. eexists. split; [done |].
    replace (Z.to_nat (lenZ us1)) with (Nat.min (length us1) (length us2)) by (unfold lenZ in *; lia). rewrite <- lex_eq.
    destruct (Z.eqb_spec (memcmp16 (take (Nat.min (length us1) (length us2)) us1) (take (Nat.min (length us1) (length us2)) us2)) 0) as [E | E].
    + rewrite Hlex, El, Z.compare_refl. done.
    + rewrite Hlex, Z.compare_eq_iff. split; [done | lia].
Qed.

(** ** Clients *)

(** The operations of a client that holds references. *)
Inductive str_op :=
  | OpNew (buf : list Z)
  | OpNew16 (buf : list Z)
  | OpSub (p start end_ : Z)
  | OpDup (p : Z)
  | OpFree (p : Z).

Definition exec (o : str_op) : ST world (option str_result) :=
  match o with
  | OpNew buf => let^ r := JS_NewStringLen buf in sret (Some r)
  | OpNew16 buf => let^ r := JS_NewStringUTF16 buf in sret (Some r)
  | OpSub p start end_ => let^ r := js_sub_string p start end_ in sret (Some r)
  | OpDup p => str_rc_inc p ;^ sret (Some (RString p))
  | OpFree p => js_free_string p ;^ sret None
  end.

(** The client uses strings it holds, and bounds inside them. *)
Definition allowed (w : world) (refs : Z -> Z) (o : str_op) : Prop :=
  match o with
  | OpNew buf => bytes_ok buf
  | OpNew16 buf => units16 buf
  | OpSub p start end_ =>
      exists s, held w refs p /\ strs w !! p = Some s /\ (forall l, tail s <> IndirectTo l) /\ 0 <= start /\ end_ <= slen s
  | OpDup p => exists s, held w refs p /\ strs w !! p = Some s
  | OpFree p => 1 <= refs p
  end.

(** The references after the operation. *)
Definition owned (refs : Z -> Z) (o : str_op) (r : option str_result) : Z -> Z :=
  match o, r with
  | OpFree p, _ => drop_ref refs p
  | _, Some (RString p) => take_ref refs p
  | _, _ => refs
  end.

(** A step of a client, and what it may reach. *)
Inductive client_step : world * (Z -> Z) -> world * (Z -> Z) -> Prop :=
  | client_op w refs o r w' :
      allowed w refs o -> exec o w = Done (r, w') -> client_step (w, refs) (w', owned refs o r).

Definition client_ok (w : world) (refs : Z -> Z) : Prop := strings_ok w refs /\ ranges w = rng /\ empty_atom w.

Lemma empty_atom_still w w' :
  empty_atom w -> ranges w' = ranges w -> tab w' = tab w -> req w' = req w ->
  (forall q us, is_base w q = true -> contents (strs w) q = Some us -> contents (strs w') q = Some us) -> empty_atom w'.
Proof.
  intros (p & s & Hj & Hp & Hc & Hb) Er Et Eq Hk. pose proof (Hk p [] Hb Hc) as Hc'.
  assert (exists s', strs w' !! p = Some s') as [s' Hp'] by (unfold contents in Hc'; destruct (strs w' !! p); [by eexists | done]). exists p, s'. split; [| split; [done |]; split; [done |]; unfold is_base in *; by rewrite Er].
  unfold js_atom_struct, sbind, sget in *. cbn [run_bind] in *. rewrite Et, Eq. destruct (_ <? _).
  - unfold nth_word in *. destruct (0 <=? _); [| done]. unfold sderef in *. destruct (_ !! _); [| done]. by injection Hj as ->.
  - destruct (atom_overlay (req w)); [| done]. unfold nth_word in *. destruct (0 <=? _); [| done]. unfold sderef in *. destruct (_ !! _); [| done]. by injection Hj as ->.
Qed.

(** What an operation keeps. *)
Definition op_result (w : world) (refs : Z -> Z) (o : str_op) : Prop :=
  exists r w', exec o w = Done (r, w') /\ client_ok w' (owned refs o r) /\
    forall q us, held w (owned refs o r) q -> contents (strs w) q = Some us -> contents (strs w') q = Some us.

Lemma gives_result (m : ST world str_result) w refs us o :
  (forall p, owned refs o (Some (RString p)) = take_ref refs p) -> owned refs o (Some ROutOfMemory) = refs ->
  exec o = (let^ r := m in sret (Some r)) -> client_ok w refs -> gives m w refs us -> op_result w refs o.
Proof.
  intros Ho Hoom He (H & Hrng & Hemp) (r & w' & E & Er & Et & Eq & Hk & Hr). exists (Some r), w'. split; [rewrite He; unfold sbind; by rewrite E |].
  assert (Hemp' : empty_atom w') by (apply (empty_atom_still w); try done; intros q vs _; apply Hk).
  destruct r as [p | |]; [rewrite Ho; destruct Hr as [Hok _] | rewrite Hoom; destruct Hr as [Hok _] | done]; (split; [split_and!; [done | congruence | done] | intros q vs _; apply Hk]).
Qed.

Lemma still_client w w' refs : client_ok w refs -> strings_ok w' refs -> still w w' refs -> client_ok w' refs.
Proof.
  intros (H & Hrng & Hemp) H' (Er & Et & Eq & Hk). split_and!; [done | congruence |]. apply (empty_atom_still w); try done. intros q us Hb. apply Hk. by right.
Qed.

Lemma op_safe w refs o : client_ok w refs -> allowed w refs o -> op_result w refs o.
Proof.
  intros Hcl Ha. destruct Hcl as (H & Hrng & Hemp). assert (Hcl : client_ok w refs) by done. destruct o as [buf | buf | p start end_ | p | p]; simpl in Ha.
  - destruct (text_total buf Ha) as [os Ht]. pose proof (new_string_len rng w refs buf os H Hrng Hemp Ha Ht) as Hn. destruct (_ <=? _) in Hn; [by apply (gives_result (JS_NewStringLen buf) w refs (text_units os) (OpNew buf)) |].
    exists (Some RRangeError), w. split; [simpl; unfold sbind; by rewrite Hn |]. done.
  - pose proof (new_string_utf16 rng w refs buf H Hrng Hemp Ha) as Hn. destruct (_ <=? _) in Hn; [by apply (gives_result (JS_NewStringUTF16 buf) w refs buf (OpNew16 buf)) |].
    exists (Some RRangeError), w. split; [simpl; unfold sbind; by rewrite Hn |]. done.
  - destruct Ha as (s & Hh & Hp & Hni & Hst & Hen). destruct (heap_ok_contents _ p s (strings_heap_ok w refs H) Hp) as (l & us & _ & Hc & _).
    apply (gives_result (js_sub_string p start end_) w refs (take (Z.to_nat (end_ - start)) (drop (Z.to_nat start) us)) (OpSub p start end_)); try done. by apply (sub_string_gives rng w refs p s).
  - destruct Ha as (s & Hh & Hp). destruct (heap_ok_contents _ p s (strings_heap_ok w refs H) Hp) as (l & us & _ & Hc & _).
    destruct (dup_gives w refs p s us H Hp Hc) as (r & w' & E & Er & Et & Eq & Hk & Hr). unfold sbind in E. rewrite (rc_inc_run w p s Hp) in E. cbn [run_bind] in E. unfold sret in E. injection E as <- <-.
    exists (Some (RString p)), (rc_incremented w p s). split; [simpl; unfold sbind; by rewrite (rc_inc_run w p s Hp) |]. destruct Hr as [Hok _].
    split; [split_and!; [done | congruence | apply (empty_atom_still w); try done; intros q vs _; apply Hk] | intros q vs _; apply Hk].
  - destruct (free_ok w refs p H Ha) as (h' & E & Hok & Hk). exists None, (set_strs w h'). split; [simpl; unfold sbind; by rewrite E |]. simpl owned.
    split; [split_and!; [done | done | apply (empty_atom_still w); try done; intros q vs Hb; apply (Hk q); by right] | intros q vs Hq; by apply (Hk q Hq)].
Qed.

(** C21: A client that releases only references it holds never aborts, uses freed
    memory or frees twice: from a well formed heap, after any sequence of making,
    slicing, duplicating and freeing strings, the next allowed operation returns
    into a well formed heap whose counts are the references held and the slices
    that exist, and every string still held shows the same text. *)
Theorem string_clients_safe w0 refs0 w refs o :
  client_ok w0 refs0 -> rtc client_step (w0, refs0) (w, refs) -> allowed w refs o ->
  exists r w', exec o w = Done (r, w') /\ client_ok w' (owned refs o r) /\
    forall q us, held w (owned refs o r) q -> contents (strs w) q = Some us -> contents (strs w') q = Some us.
Proof.
  intros H0 Hsteps Ha. apply (op_safe w refs o); [| done]. remember (w0, refs0) as x eqn:Ex. remember (w, refs) as y eqn:Ey. revert w0 refs0 Ex H0.
  induction Hsteps as [x | x y z Hxy Hyz IH]; intros w0 refs0 -> H0; [by injection Ey as -> ->|]. inversion Hxy as [w1 refs1 o1 r1 w1' Ha1 He1]; subst.
  destruct (op_safe w0 refs0 o1 H0 Ha1) as (r' & w' & He' & Hok & _). rewrite He1 in He'. injection He' as <- <-. by apply (IH eq_refl w1' (owned refs0 o1 r1)).
Qed.

(** A string made from UTF-8 has the UTF-16 units of the one reading of the
    bytes; too long a text is a RangeError, a refused allocation an exception,
    and neither changes the heap. *)
Theorem new_string_has_units w refs buf os :
  client_ok w refs -> bytes_ok buf -> text buf os ->
  exists r w', JS_NewStringLen buf w = Done (r, w') /\
    (r = RRangeError <-> JS_STRING_LEN_MAX < lenZ (text_units os)) /\
    match r with
    | RString p => client_ok w' (take_ref refs p) /\ contents (strs w') p = Some (text_units os) /\
        (forall q vs, contents (strs w) q = Some vs -> contents (strs w') q = Some vs)
    | _ => client_ok w' refs /\ strs w' = strs w
    end.
Proof.
  intros (H & Hrng & Hemp) Hb Ht. pose proof (new_string_len rng w refs buf os H Hrng Hemp Hb Ht) as Hn.
  destruct (Z.leb_spec (lenZ (text_units os)) JS_STRING_LEN_MAX) as [L | L].
  - destruct Hn as (r & w' & E & Er & Et & Eq & Hk & Hr). exists r, w'. split; [done |]. split; [split; [by intros -> | lia] |].
    assert (Hemp' : empty_atom w') by (apply (empty_atom_still w); try done; intros q vs _; apply Hk).
    destruct r as [p | |]; [destruct Hr as [Hok Hc] | destruct Hr as [Hok Hs] | done]; split_and!; try done; split_and!; try done; congruence.
  - exists RRangeError, w. split; [done |]. split; [done |]. done.
Qed.

(** A substring has the units between its bounds, whether it is the string
    itself, the empty string, a slice (of the parent, when the string is a slice)
    or a copy that is narrowed if it can be. *)
Theorem sub_string_has_units w refs p s us start end_ :
  client_ok w refs -> strs w !! p = Some s -> contents (strs w) p = Some us -> (forall l, tail s <> IndirectTo l) ->
  0 <= start -> end_ <= slen s ->
  exists r w', js_sub_string p start end_ w = Done (r, w') /\
    match r with
    | RString q => strings_ok w' (take_ref refs q) /\ contents (strs w') q = Some (take (Z.to_nat (end_ - start)) (drop (Z.to_nat start) us)) /\
        (forall q vs, contents (strs w) q = Some vs -> contents (strs w') q = Some vs)
    | ROutOfMemory => strings_ok w' refs /\ strs w' = strs w
    | RRangeError => False
    end.
Proof.
  intros (H & Hrng & Hemp) Hp Hc Hni Hst Hen. destruct (sub_string_gives rng w refs p s us start end_ H Hrng Hemp Hp Hc Hni Hst Hen) as (r & w' & E & _ & _ & _ & Hk & Hr).
  exists r, w'. split; [done |]. destruct r; [destruct Hr | done | done]. done.
Qed.

(** C23: C strings give the string back, in UTF-8 and CESU-8: unless an allocation
    is refused, the buffer lent to the embedder is terminated, a string made from
    its bytes has the same units, and freeing the buffer leaves the client with the
    references it had. *)
Theorem cstring_roundtrip w refs p s us cesu8 :
  client_ok w refs -> held w refs p -> strs w !! p = Some s -> contents (strs w) p = Some us -> atom_type s <> JS_ATOM_TYPE_SYMBOL ->
  slen s <= JS_STRING_LEN_MAX -> (is_wide_char s = true -> slen s * 3 <= INT_MAX) ->
  exists c n w', JS_ToCStringLen2 p cesu8 w = Done ((c, n), w') /\
    (c = CNull \/ exists q bytes, c = CPtr q 0 /\ n = lenZ bytes /\ lent w' q bytes /\ client_ok w' (take_ref refs q) /\
      (exists r w1, JS_NewStringLen bytes w' = Done (r, w1) /\ match r with RString p' => contents (strs w1) p' = Some us | ROutOfMemory => True | RRangeError => False end) /\
      (exists w2, js_free_cstring c w' = Done (tt, w2) /\ client_ok w2 refs /\ contents (strs w2) p = Some us)).
Proof.
  intros Hcl Hheld Hp Hc Hat Hlen Hint. pose proof Hcl as (H & Hrng & Hemp).
  destruct (to_cstring_ok rng w refs p s us cesu8 H Hrng Hp Hc Hat Hlen Hint) as (c & n & w' & E & Hstill & Hout). exists c, n, w'. split; [done |].
  destruct Hout as [(-> & _) | (q & -> & -> & Hok & Hlent)]; [by left |]. right. set (bytes := encoding (code_points cesu8 us)) in *. exists q, bytes.
  assert (Hr0 : forall x, 0 <= refs x) by (intros x; apply (so_refs _ _ H x)).
  pose proof Hstill as (Er & Et & Eq & Hk).
  assert (Hcl' : client_ok w' (take_ref refs q)) by (split_and!; [done | congruence |]; apply (empty_atom_still w); try done; intros x vs Hb; apply Hk; by right).
  split; [done |]. split; [done |]. split; [done |]. split; [done |]. split.
  - assert (Hu : units16 us).
    { destruct (heap_ok_contents _ p s (strings_heap_ok w refs H) Hp) as (l & us' & _ & Hc' & _ & _ & _ & Hu). rewrite Hc in Hc'. injection Hc' as <-.
      destruct (is_wide_char s); [done | by apply units8_16]. }
    pose proof (code_points_range cesu8 us Hu) as Hr. destruct Hcl' as (H' & Hrng' & Hemp').
    pose proof (new_string_len rng w' _ bytes (Some <$> code_points cesu8 us) H' Hrng' Hemp' (bytes_encoding _ Hr) (text_encoding _ Hr)) as Hn.
    rewrite text_units_some, (code_points_units cesu8 us Hu) in Hn. destruct (contents_string w refs p us H Hc) as (s2 & Hs2 & Hl2). rewrite Hp in Hs2. injection Hs2 as <-.
    destruct (Z.leb_spec (lenZ us) JS_STRING_LEN_MAX); [| lia]. destruct Hn as (r & w1 & E1 & _ & _ & _ & _ & Hr1). exists r, w1. split; [done |]. destruct r; [by destruct Hr1 | done | done].
  - destruct (free_cstring_ok w' refs q Hok (Hr0 q)) as (w2 & E2 & Hok2 & Hstill2). exists w2. split; [done |]. destruct Hstill2 as (Er2 & Et2 & Eq2 & Hk2).
    assert (Hb' : forall x, held w refs x -> held w' refs x) by (intros x; unfold held, is_base; by rewrite Er). destruct Hcl' as (_ & Hrng' & Hemp').
    split; [split_and!; [done | congruence |]; apply (empty_atom_still w'); try done; intros x vs Hb; apply Hk2; by right |]. apply Hk2; [by apply Hb' | by apply Hk].
Qed.
End theorems.

(** ** A concrete heap *)

Module StrDemo.

(** Addresses in [1000, 2000) are base memory. *)
Definition ranges0 : base_ranges := snd (js_arena_register_base base_ranges_init 1000 2000).

(** An allocator with a number of allocations left. *)
#[export] Instance demo_alloc : StrAlloc := {
  salloc := Z * Z;
  str_malloc := fun '(next, quota) h _ =>
    if (0 <? quota) && (0 <? next) && negb (js_arena_ptr_is_base ranges0 next) && Z.even next && bool_decide (h !! next = None)
    then (next, (next + 16, quota - 1)) else (0, (next, quota));
  arr_malloc := fun '(next, quota) _ => if 0 <? quota then (true, (next, quota - 1)) else (false, (next, quota));
  junk := fun _ _ => 170
}.

#[export] Instance demo_laws : StrAllocLaws ranges0.
Proof.
  intros [next quota] h n p a' E. simpl in E.
  destruct ((0 <? quota) && (0 <? next) && negb (js_arena_ptr_is_base ranges0 next) && Z.even next && bool_decide (h !! next = None)) eqn:Ec; injection E as <- <-; [right | by left].
  rewrite !andb_true_iff, !Z.ltb_lt, negb_true_iff, bool_decide_eq_true in Ec. tauto.
Qed.

Definition table0 : atom_table :=
  {| atom_hash := [0]; atom_hash_size := 1; atom_array := replicate 48 1 ++ [1000]; atom_size := 49; atom_count := 1; atom_count_resize := 2; atom_free_index := 0 |}.
Definition request0 : atom_request :=
  {| atom_overlay := None; atom_overlay_base := 49; atom_overlay_size := 0; atom_overlay_count := 0; atom_overlay_free_index := 0;
     atom_hash_overlay := None; atom_hash_overlay_size := 0 |}.

(** The empty string of the base, a narrow string, a wide string of which only a
    slice is held. *)
Definition heap0 : gmap Z JSString :=
  <[1000 := mkString 1 0 false 0 JS_ATOM_TYPE_STRING 48 0 (Cells [0])]>
  (<[3000 := mkString 1 2 false 0 0 0 0 (Cells [104; 233; 0])]>
  (<[3016 := mkString 1 3 true 0 0 0 0 (Cells [97; 55357; 56832])]>
  (<[3032 := mkString 1 2 true 0 0 0 0 (SliceOf 3016 2)]> ∅))).

Definition world0 (quota : Z) : world :=
  {| strs := heap0; ranges := ranges0; is_arena := true; tab := table0; req := request0; heap_state := (4000, quota) |}.

Definition refs0 (p : Z) : Z := if (p =? 3000) || (p =? 3032) then 1 else 0.

Lemma heap0_cases p s : heap0 !! p = Some s -> p = 1000 \/ p = 3000 \/ p = 3016 \/ p = 3032.
Proof. unfold heap0. rewrite !lookup_insert_Some, lookup_empty. intuition congruence. Qed.

Ltac heap0_cases H := destruct (heap0_cases _ _ H) as [-> | [-> | [-> | ->]]]; vm_compute in H; injection H as <-.

Lemma strings0 quota : strings_ok (world0 quota) refs0.
Proof.
  split; simpl; [done | | | | |].
  - intros p s Hp. heap0_cases Hp; (split; [lia |]); (split; [simpl; lia |]); simpl; try (split_and!; [unfold lenZ; simpl; lia | repeat constructor; unfold unit_ok; lia | done]).
    by exists (mkString 1 3 true 0 0 0 0 (Cells [97; 55357; 56832])), [97; 55357; 56832], 1.
  - intros p. unfold refs0. destruct (Z.eqb_spec p 3000) as [-> | H1]; [split; [simpl; lia |]; intros _; by eexists |].
    destruct (Z.eqb_spec p 3032) as [-> | H2]; [split; [simpl; lia |]; intros _; by eexists | simpl; split; lia].
  - intros p s Hp Hb. heap0_cases Hp; try reflexivity. by vm_compute in Hb.
  - intros p s Hp Hb Ha. heap0_cases Hp; simpl; lia.
  - intros p s q st Hp Ht Hb. heap0_cases Hp; try discriminate Ht. by vm_compute in Hb.
Qed.

Lemma client0 quota : client_ok ranges0 (world0 quota) refs0.
Proof.
  split; [apply strings0 |]. split; [done |]. exists 1000, (mkString 1 0 false 0 JS_ATOM_TYPE_STRING 48 0 (Cells [0])). split_and!; reflexivity.
Qed.

Lemma string_clients_safe_witness :
  exists r w', exec (OpFree 3032) (world0 5) = Done (r, w') /\ client_ok ranges0 w' (owned refs0 (OpFree 3032) r) /\
    forall q us, held (world0 5) (owned refs0 (OpFree 3032) r) q -> contents heap0 q = Some us -> contents (strs w') q = Some us.
Proof. apply (string_clients_safe ranges0 (world0 5) refs0 (world0 5) refs0 (OpFree 3032)); [apply client0 | apply rtc_refl | done]. Defined.

Lemma new_string_has_units_witness :
  exists os r w', text [104; 195; 169; 255] os /\ JS_NewStringLen [104; 195; 169; 255] (world0 5) = Done (r, w') /\
    match r with RString p => contents (strs w') p = Some (text_units os) | _ => strs w' = heap0 end.
Proof.
  assert (Hb : bytes_ok [104; 195; 169; 255]) by (repeat constructor; lia). destruct (text_total _ Hb) as [os Ht]. exists os.
  destruct (new_string_has_units ranges0 (world0 5) refs0 [104; 195; 169; 255] os (client0 5) Hb Ht) as (r & w' & E & _ & Hr). exists r, w'.
  split; [exact Ht |]. split; [exact E |]. destruct r; [destruct Hr as (_ & Hc & _); exact Hc | exact (proj2 Hr) | exact (proj2 Hr)].
Defined.

Lemma sub_string_has_units_witness :
  exists r w', js_sub_string 3032 0 1 (world0 5) = Done (r, w') /\
    match r with
    | RString q => strings_ok w' (take_ref refs0 q) /\ contents (strs w') q = Some (take (Z.to_nat (1 - 0)) (drop (Z.to_nat 0) [55357; 56832])) /\
        (forall q vs, contents heap0 q = Some vs -> contents (strs w') q = Some vs)
    | ROutOfMemory => strings_ok w' refs0 /\ strs w' = heap0
    | RRangeError => False
    end.
Proof.
  apply (sub_string_has_units ranges0 (world0 5) refs0 3032 (mkString 1 2 true 0 0 0 0 (SliceOf 3016 2)) [55357; 56832] 0 1); [apply client0 | reflexivity | reflexivity | discriminate | lia | simpl; lia].
Defined.

Lemma cstring_roundtrip_witness :
  exists c n w', JS_ToCStringLen2 3032 false (world0 5) = Done ((c, n), w') /\
    (c = CNull \/ exists q bytes, c = CPtr q 0 /\ n = lenZ bytes /\ lent w' q bytes /\ client_ok ranges0 w' (take_ref refs0 q) /\
      (exists r w1, JS_NewStringLen bytes w' = Done (r, w1) /\ match r with RString p' => contents (strs w1) p' = Some [55357; 56832] | ROutOfMemory => True | RRangeError => False end) /\
      (exists w2, js_free_cstring c w' = Done (tt, w2) /\ client_ok ranges0 w2 refs0 /\ contents (strs w2) 3032 = Some [55357; 56832])).
Proof.
  apply (cstring_roundtrip ranges0 (world0 5) refs0 3032 (mkString 1 2 true 0 0 0 0 (SliceOf 3016 2)) [55357; 56832] false);
    [apply client0 | by left | reflexivity | reflexivity | discriminate | discriminate | discriminate].
Defined.

Lemma string_compare_lexicographic_witness :
  (exists r, js_string_compare 3000 3032 (world0 5) = Done (r, world0 5) /\ (r ?= 0) = lex [104; 233] [55357; 56832]) /\
  (exists b, js_string_eq 3000 3032 (world0 5) = Done (b, world0 5) /\ (b = true <-> [104; 233] = [55357; 56832])).
Proof. apply (string_compare_lexicographic (world0 5) refs0 3000 3032); [apply strings0 | reflexivity | reflexivity]. Defined.

(** ** Where the code falls short *)

(** A UTF-16 buffer of a wide slice points into the parent's units;
    [JS_FreeCStringUTF16] then takes what lies before them for a header. *)
Theorem utf16_slice_cannot_be_freed :
  exists w', JS_ToCStringLenUTF16 3032 (world0 5) = Done ((CPtr 3016 2, 2), w') /\ js_free_cstring (CPtr 3016 2) w' = Aborts.
Proof. eexists. split; reflexivity. Qed.

(** When the buffer cannot be allocated, [JS_ToCStringLen2] keeps the reference
    it took: the string can never be freed again. *)
Theorem failed_cstring_leaks :
  exists w', JS_ToCStringLen2 3000 false (world0 0) = Done ((CNull, 0), w') /\ ref_count <$> strs (world0 0) !! 3000 = Some 1 /\ ref_count <$> strs w' !! 3000 = Some 2.
Proof. eexists. split; [vm_compute; reflexivity |]. split; vm_compute; reflexivity. Qed.

End StrDemo.

(** The size [len * 3] of a C string's buffer is an [int]: for a wide string of
    more than 715827882 units it overflows, although strings may be longer. *)
Theorem cstring_size_overflows `{SA : StrAlloc} w refs p s cesu8 :
  strings_ok w refs -> strs w !! p = Some s -> is_wide_char s = true -> 715827882 < slen s -> JS_ToCStringLen2 p cesu8 w = Aborts.
Proof.
  intros H Hp Hw Hl. destruct (heap_ok_contents _ p s (strings_heap_ok w refs H) Hp) as (l & us & _ & Hc & _).
  destruct (rc_inc_keeps w p s p Hp s Hp) as (s0 & Hp0 & E1 & E2 & _). unfold JS_ToCStringLen2. unfold sbind at 1. rewrite (rc_inc_run w p s Hp). cbn [run_bind].
  unfold sbind at 1, str_load at 1, sderef at 1. rewrite Hp0. cbn [run_bind]. unfold sbind at 1. erewrite str_units_run by (by apply rc_inc_contents). cbn [run_bind].
  rewrite E1, E2, Hw. cbn [negb andb]. unfold INT_MAX. destruct (Z.ltb_spec (2 ^ 31 - 1) (slen s * 3)); [done | lia].
Qed.
