(* ===== verification/AtomsProofs.v ===== *)
(** * Atoms: the invariant of the two tables

    Hash chains through the base array and the overlay, what the atoms on them
    show, and that the atoms of a request change nothing of the base. *)

From stdpp Require Import base list numbers gmap fin_maps.
From Stdlib Require Import ZArith Lia.
From S2P Require Import Prelude StateRun BaseRanges Utf8 Utf8Proofs JsString JsStringProofs JsStringOps Atoms JsStringTheorems.

#[local] Open Scope Z_scope.
#[local] Open Scope st_scope.

Section atoms.
Context `{SA : StrAlloc}.

(** ** Slots *)

Definition slot_in (l : list Z) (i : Z) : option Z := if 0 <=? i then l !! Z.to_nat i else None.

(** The word of the atom with index [i]. *)
Definition struct_at (w : world) (i : Z) : option Z :=
  if i <? atom_overlay_base (req w) then slot_in (atom_array (tab w)) i
  else match atom_overlay (req w) with Some l => slot_in l (i - atom_overlay_base (req w)) | None => None end.

Lemma nth_word_run (w : world) l i x : slot_in l i = Some x -> nth_word l i w = Done (x, w).
Proof. unfold slot_in, nth_word. destruct (0 <=? i); [| done]. intros H. unfold sderef. by rewrite H. Qed.

Lemma set_word_run (w : world) l i x y : slot_in l i = Some x -> set_word l i y w = Done (setZ i y l, w).
Proof.
  unfold slot_in, set_word. destruct (Z.leb_spec 0 i); [| done]. intros Hx. apply lookup_lt_Some in Hx. destruct (Z.ltb_spec i (lenZ l)); [done | unfold lenZ in *; lia].
Qed.

Lemma js_atom_struct_run w i p : struct_at w i = Some p -> js_atom_struct i w = Done (p, w).
Proof.
  unfold struct_at, js_atom_struct, sbind, sget. cbn [run_bind]. destruct (i <? atom_overlay_base (req w)); [apply nth_word_run |].
  destruct (atom_overlay (req w)); [apply nth_word_run | done].
Qed.

(** ** Chains *)

(** The indices from [i] along [hash_next]. *)
Inductive chain (w : world) : Z -> list Z -> Prop :=
  | chain_nil : chain w 0 []
  | chain_cons i p s l : i <> 0 -> struct_at w i = Some p -> strs w !! p = Some s -> chain w (hash_next s) l -> chain w i (i :: l).

Lemma chain_functional w i l l' : chain w i l -> chain w i l' -> l = l'.
Proof.
  intros H. revert l'. induction H as [| i p s l Hi Hp Hs Hc IH]; intros l' H'; inversion H' as [| ? p' s' l0 Hi' Hp' Hs' Hc']; subst; try done.
  rewrite Hp in Hp'. injection Hp' as <-. rewrite Hs in Hs'. injection Hs' as <-. f_equal. by apply IH.
Qed.

Lemma chain_suffix w i l j : chain w i l -> j ∈ l -> exists l1 l2, l = l1 ++ l2 /\ chain w j l2.
Proof.
  induction 1 as [| i p s l Hi Hp Hs Hc IH]; intros Hj; [by apply not_elem_of_nil in Hj |]. apply elem_of_cons in Hj as [-> | Hj].
  - exists [], (i :: l). split; [done |]. by apply (chain_cons w i p s).
  - destruct (IH Hj) as (l1 & l2 & -> & H2). by exists (i :: l1), l2.
Qed.

(** A chain visits no atom twice. *)
Lemma chain_nodup w i l : chain w i l -> NoDup l.
Proof.
  induction 1 as [| i p s l Hi Hp Hs Hc IH]; constructor; [| done]. intros Hin. destruct (chain_suffix w _ l i Hc Hin) as (l1 & l2 & -> & H2).
  assert (E : i :: l1 ++ l2 = l2) by (apply (chain_functional w i); [by apply (chain_cons w i p s) | done]).
  apply (f_equal length) in E. simpl in E. rewrite length_app in E. lia.
Qed.

Lemma slot_in_range l i x : slot_in l i = Some x -> 0 <= i < lenZ l.
Proof. unfold slot_in. destruct (Z.leb_spec 0 i); [| done]. intros Hx. apply lookup_lt_Some in Hx. unfold lenZ. lia. Qed.

Lemma chain_slots w i l j : chain w i l -> j ∈ l -> exists p s, j <> 0 /\ struct_at w j = Some p /\ strs w !! p = Some s.
Proof.
  intros Hc Hj. destruct (chain_suffix w i l j Hc Hj) as (l1 & l2 & _ & H2). inversion H2; subst; [exfalso; clear -Hc Hj |by eexists _, _].
  induction Hc as [| i p s l Hi Hp Hs Hc IH]; [by apply not_elem_of_nil in Hj |]. apply elem_of_cons in Hj as [<- | Hj]; [done | by apply IH].
Qed.

(** So the fuel of the loops is enough. *)
Lemma chain_fuel_enough w i l : 0 <= atom_overlay_base (req w) <= lenZ (atom_array (tab w)) -> chain w i l -> (length l < chain_fuel w)%nat.
Proof.
  intros Hb Hc. unfold chain_fuel. set (n := length (atom_array (tab w))) in *. set (m := length (default [] (atom_overlay (req w)))).
  assert (Hin : forall j, j ∈ l -> Z.to_nat j ∈ seq 0 (n + m)).
  { intros j Hj. destruct (chain_slots w i l j Hc Hj) as (p & s & Hj0 & Hp & _). apply elem_of_seq. unfold struct_at in Hp. destruct (Z.ltb_spec j (atom_overlay_base (req w))) as [L | L].
    - apply slot_in_range in Hp. unfold lenZ in Hp. fold n in Hp. lia.
    - unfold m. destruct (atom_overlay (req w)) as [lo |]; [| done]. simpl. apply slot_in_range in Hp. unfold lenZ in *. fold n in Hb. lia. }
  assert (Hnd : NoDup (Z.to_nat <$> l)).
  { apply NoDup_fmap_2_strong; [| by apply (chain_nodup w i)]. intros x y Hx Hy E. destruct (chain_slots w i l x Hc Hx) as (p & s & Hx0 & Hp & _). destruct (chain_slots w i l y Hc Hy) as (p' & s' & Hy0 & Hp' & _).
    assert (0 <= x /\ 0 <= y); [| lia]. unfold struct_at in Hp, Hp'. split.
    - destruct (Z.ltb_spec x (atom_overlay_base (req w))); [apply slot_in_range in Hp; lia | lia].
    - destruct (Z.ltb_spec y (atom_overlay_base (req w))); [apply slot_in_range in Hp'; lia | lia]. }
  assert (Hle : (length (Z.to_nat <$> l) <= length (seq 0 (n + m)))%nat).
  { apply submseteq_length, NoDup_submseteq; [done |]. intros x Hx. apply list_elem_of_fmap in Hx as (j & -> & Hj). by apply Hin. }
  rewrite length_fmap, length_seq in Hle. lia.
Qed.
(** ** The invariant *)

Definition atom_hash_of (t : Z) (us : list Z) : Z := Z.land (hash_units us t) JS_ATOM_HASH_MASK.

(** The types of atoms that are on chains: strings and global symbols. *)
Definition chained_type (t : Z) : Prop := 0 < t < JS_ATOM_TYPE_SYMBOL.

(** The atom [i] belongs into bucket [b] of a table of the given size. *)
Definition atom_entry (w : world) (size b : Z) (base : bool) (i : Z) : Prop :=
  exists p s us, struct_at w i = Some p /\ strs w !! p = Some s /\ contents (strs w) p = Some us /\ chained_type (atom_type s) /\
    hash s = atom_hash_of (atom_type s) us /\ Z.land (hash s) (size - 1) = b /\ is_base w p = base /\
    if base then 0 < i < atom_overlay_base (req w) else atom_overlay_base (req w) < i.

Definition buckets_ok (w : world) (base : bool) (heads : list Z) (size : Z) : Prop :=
  lenZ heads = size /\ (exists k, 0 <= k /\ size = 2 ^ k) /\
  forall b head, heads !! b = Some head -> exists l, chain w head l /\ Forall (atom_entry w size (Z.of_nat b) base) l.

(** The chain heads of the base and of the overlay. *)
Definition heads_of (w : world) (base : bool) : list Z :=
  if base then atom_hash (tab w) else default [] (atom_hash_overlay (req w)).

Definition on_chain (w : world) (heads : list Z) (i : Z) : Prop :=
  exists b head l, heads !! b = Some head /\ chain w head l /\ i ∈ l.

(** The abstract state: which atom stands for which string. *)
Definition interned (w : world) (t : Z) (us : list Z) (i : Z) : Prop :=
  (exists base, on_chain w (heads_of w base) i) /\
  exists p s, struct_at w i = Some p /\ strs w !! p = Some s /\ atom_type s = t /\ contents (strs w) p = Some us.

(** The free slots of the overlay from [rel] on. *)
Inductive free_chain (l : list Z) : Z -> list Z -> Prop :=
  | free_nil : free_chain l 0 []
  | free_cons rel next fs : 0 < rel -> slot_in l rel = Some (atom_set_free next) -> 0 <= next < 2 ^ 31 -> free_chain l next fs -> free_chain l rel (rel :: fs).

Record atoms_ok (w : world) : Prop := {
  ao_sizes : JS_ATOM_END <= atom_overlay_base (req w) /\ atom_overlay_base (req w) = atom_size (tab w) /\ atom_size (tab w) = lenZ (atom_array (tab w));
  ao_base : buckets_ok w true (atom_hash (tab w)) (atom_hash_size (tab w));
  ao_over : match atom_hash_overlay (req w) with Some lo => buckets_ok w false lo (atom_hash_overlay_size (req w)) | None => True end;
  ao_slots : match atom_overlay (req w) with
    | Some l => lenZ l = atom_overlay_size (req w) /\ 0 < atom_overlay_size (req w)
    | None => atom_overlay_size (req w) = 0 /\ atom_overlay_free_index (req w) = 0 end;
  ao_free : exists fs, free_chain (default [] (atom_overlay (req w))) (atom_overlay_free_index (req w)) fs;
  ao_unique : forall t us i j, interned w t us i -> interned w t us j -> i = j;
  ao_complete : forall p s, strs w !! p = Some s -> chained_type (atom_type s) -> exists i, on_chain w (heads_of w (is_base w p)) i /\ struct_at w i = Some p;
  ao_even : forall p, is_Some (strs w !! p) -> Z.even p = true
}.

(** ** Steps that leave the chains alone *)

(** The atoms on chains keep their slots and what they show. *)
Record atoms_ext (w w' : world) : Prop := {
  ae_tab : tab w' = tab w;
  ae_ranges : ranges w' = ranges w;
  ae_obase : atom_overlay_base (req w') = atom_overlay_base (req w);
  ae_atom : forall i p s, struct_at w i = Some p -> strs w !! p = Some s -> chained_type (atom_type s) ->
    struct_at w' i = Some p /\ exists s', strs w' !! p = Some s' /\ hash s' = hash s /\ hash_next s' = hash_next s /\ atom_type s' = atom_type s /\
      forall us, contents (strs w) p = Some us -> contents (strs w') p = Some us
}.

Lemma entry_ext w w' size b base i : atoms_ext w w' -> atom_entry w size b base i -> atom_entry w' size b base i.
Proof.
  intros He (p & s & us & Hp & Hs & Hc & Ht & Hh & Hb & Hbase & Hi). destruct (ae_atom _ _ He i p s Hp Hs Ht) as (Hp' & s' & Hs' & E1 & E2 & E3 & Hc').
  exists p, s', us. rewrite E1, E3. split_and!; try done; [by apply Hc' | unfold is_base in *; by rewrite (ae_ranges _ _ He) | by rewrite (ae_obase _ _ He)].
Qed.

Lemma chain_ext w w' head l size b base :
  atoms_ext w w' -> chain w head l -> Forall (atom_entry w size b base) l -> chain w' head l.
Proof.
  intros He Hc. induction Hc as [| i p s l Hi Hp Hs Hc IH]; intros Hf; [constructor |]. inversion Hf as [| ? ? He1 Hf']; subst.
  destruct He1 as (p' & s0 & us & Hp' & Hs0 & _ & Ht & _). rewrite Hp in Hp'. injection Hp' as <-. rewrite Hs in Hs0. injection Hs0 as <-.
  destruct (ae_atom _ _ He i p s Hp Hs Ht) as (Hp2 & s' & Hs' & _ & E2 & _). apply (chain_cons w' i p s'); try done. rewrite E2. by apply IH.
Qed.

Lemma buckets_ext w w' base heads size : atoms_ext w w' -> buckets_ok w base heads size -> buckets_ok w' base heads size.
Proof.
  intros He (Hl & Hk & Hb). split; [done |]. split; [done |]. intros b head Hh. destruct (Hb b head Hh) as (l & Hc & Hf). exists l.
  split; [by apply (chain_ext w w' head l size (Z.of_nat b) base) |]. eapply Forall_impl; [exact Hf |]. intros i. by apply entry_ext.
Qed.

Lemma on_chain_ext w w' base heads size i : atoms_ext w w' -> buckets_ok w base heads size -> on_chain w' heads i <-> on_chain w heads i.
Proof.
  intros He (Hl & Hk & Hb). split; intros (b & head & l & Hh & Hc & Hi); destruct (Hb b head Hh) as (l0 & Hc0 & Hf);
    pose proof (chain_ext w w' head l0 size (Z.of_nat b) base He Hc0 Hf) as Hc1.
  - rewrite (chain_functional w' head l l0 Hc Hc1) in Hi. by exists b, head, l0.
  - rewrite (chain_functional w head l l0 Hc Hc0) in Hi. by exists b, head, l0.
Qed.

(** What an index on a chain is. *)
Lemma on_chain_entry w base heads size i :
  buckets_ok w base heads size -> on_chain w heads i -> exists b, heads !! b <> None /\ atom_entry w size (Z.of_nat b) base i.
Proof.
  intros (_ & _ & Hb) (b & head & l & Hh & Hc & Hi). destruct (Hb b head Hh) as (l0 & Hc0 & Hf). rewrite (chain_functional w head l l0 Hc Hc0) in Hi.
  exists b. split; [congruence |]. rewrite Forall_forall in Hf. by apply Hf.
Qed.

Lemma heads_buckets w base : atoms_ok w -> heads_of w base = [] \/ exists size, buckets_ok w base (heads_of w base) size.
Proof.
  intros H. destruct base; simpl; [right; eexists; exact (ao_base _ H) |]. pose proof (ao_over _ H) as Ho. destruct (atom_hash_overlay (req w)) as [lo |]; [right; by eexists | by left].
Qed.

Lemma not_on_nil w i : ~ on_chain w [] i.
Proof. intros (b & head & l & Hh & _). done. Qed.

(** With the same heads, the same strings are interned. *)
Lemma interned_ext w w' t us i :
  atoms_ok w -> atoms_ext w w' -> (forall base, heads_of w' base = heads_of w base) -> interned w' t us i <-> interned w t us i.
Proof.
  intros H He Hheads. assert (Hon : forall base, on_chain w' (heads_of w' base) i <-> on_chain w (heads_of w base) i).
  { intros base. rewrite Hheads. destruct (heads_buckets w base H) as [-> | [size Hb]]; [split; intros Hn; by destruct (not_on_nil _ _ Hn) | by apply (on_chain_ext w w' base _ size)]. }
  assert (Hentry : forall base, on_chain w (heads_of w base) i -> exists p s vs, struct_at w i = Some p /\ strs w !! p = Some s /\ contents (strs w) p = Some vs /\ chained_type (atom_type s)).
  { intros base Ho. destruct (heads_buckets w base H) as [E | [size Hb]]; [rewrite E in Ho; by destruct (not_on_nil _ _ Ho) |].
    destruct (on_chain_entry w base _ size i Hb Ho) as (b & _ & p & s & vs & Hp & Hs & Hc & Ht & _). by exists p, s, vs. }
  split; intros [(base & Ho) (p & s & Hp & Hs & Ht & Hc)].
  - apply Hon in Ho. split; [by exists base |]. destruct (Hentry base Ho) as (p0 & s0 & vs & Hp0 & Hs0 & Hc0 & Ht0).
    destruct (ae_atom _ _ He i p0 s0 Hp0 Hs0 Ht0) as (Hp1 & s1 & Hs1 & _ & _ & E3 & Hk). rewrite Hp in Hp1. injection Hp1 as ->. rewrite Hs in Hs1. injection Hs1 as ->.
    rewrite (Hk vs Hc0) in Hc. injection Hc as ->. exists p0, s0. split_and!; try done. congruence.
  - destruct (Hentry base Ho) as (p0 & s0 & vs & Hp0 & Hs0 & Hc0 & Ht0). rewrite Hp in Hp0. injection Hp0 as <-. rewrite Hs in Hs0. injection Hs0 as <-.
    split; [exists base; by apply Hon |]. destruct (ae_atom _ _ He i p s Hp Hs Ht0) as (Hp1 & s1 & Hs1 & _ & _ & E3 & Hk). exists p, s1. split_and!; try done; [congruence | by apply Hk].
Qed.
(** The invariant after such a step. *)
Lemma atoms_ok_ext w w' :
  atoms_ok w -> atoms_ext w w' -> atom_hash_overlay (req w') = atom_hash_overlay (req w) -> atom_hash_overlay_size (req w') = atom_hash_overlay_size (req w) ->
  match atom_overlay (req w') with
  | Some l => lenZ l = atom_overlay_size (req w') /\ 0 < atom_overlay_size (req w')
  | None => atom_overlay_size (req w') = 0 /\ atom_overlay_free_index (req w') = 0 end ->
  (exists fs, free_chain (default [] (atom_overlay (req w'))) (atom_overlay_free_index (req w')) fs) ->
  (forall p s', strs w' !! p = Some s' -> chained_type (atom_type s') -> exists s, strs w !! p = Some s /\ chained_type (atom_type s)) ->
  (forall p, is_Some (strs w' !! p) -> Z.even p = true) -> atoms_ok w'.
Proof.
  intros H He Hho Hhs Hslots Hfree Hold Heven. assert (Hheads : forall base, heads_of w' base = heads_of w base) by (intros []; simpl; [by rewrite (ae_tab _ _ He) | by rewrite Hho]).
  split; try done.
  - rewrite (ae_obase _ _ He), (ae_tab _ _ He). exact (ao_sizes _ H).
  - rewrite (ae_tab _ _ He). apply (buckets_ext w w'); [done | exact (ao_base _ H)].
  - rewrite Hho, Hhs. pose proof (ao_over _ H) as Ho. destruct (atom_hash_overlay (req w)); [by apply (buckets_ext w w') | done].
  - intros t us i j Hi Hj. apply (ao_unique _ H t us); by apply (interned_ext w w').
  - intros p s' Hs' Ht'. destruct (Hold p s' Hs' Ht') as (s & Hs & Ht). destruct (ao_complete _ H p s Hs Ht) as (i & Ho & Hp). exists i.
    destruct (ae_atom _ _ He i p s Hp Hs Ht) as (Hp' & _). split; [| done]. unfold is_base. rewrite (ae_ranges _ _ He). fold (is_base w p). rewrite Hheads.
    destruct (heads_buckets w (is_base w p) H) as [E | [size Hb]]; [rewrite E in Ho; by destruct (not_on_nil _ _ Ho) | by apply (on_chain_ext w w' (is_base w p) _ size)].
Qed.

(** Only the heap of strings changes, and only counts of what is kept. *)
Lemma counts_ext w w' :
  tab w' = tab w -> ranges w' = ranges w -> req w' = req w ->
  (forall p s, strs w !! p = Some s -> chained_type (atom_type s) -> (exists n, strs w' !! p = Some (set_ref_count s n)) /\ forall us, contents (strs w) p = Some us -> contents (strs w') p = Some us) ->
  atoms_ext w w'.
Proof.
  intros Et Er Eq Hk. split; [done | done | by rewrite Eq |]. intros i p s Hp Hs Ht. destruct (Hk p s Hs Ht) as [(n & Hn) Hc].
  split; [unfold struct_at in *; by rewrite Et, Eq |]. eexists. split; [exact Hn |]. done.
Qed.

Lemma counts_ok w w' :
  atoms_ok w -> tab w' = tab w -> ranges w' = ranges w -> req w' = req w ->
  (forall p s, strs w !! p = Some s -> chained_type (atom_type s) -> (exists n, strs w' !! p = Some (set_ref_count s n)) /\ forall us, contents (strs w) p = Some us -> contents (strs w') p = Some us) ->
  (forall p s', strs w' !! p = Some s' -> (exists s, strs w !! p = Some s /\ atom_type s' = atom_type s) \/ atom_type s' = 0 /\ Z.even p = true) -> atoms_ok w'.
Proof.
  intros H Et Er Eq Hk Hold. apply (atoms_ok_ext w w' H); try (by rewrite Eq); [by apply counts_ext | rewrite Eq; exact (ao_slots _ H) | rewrite Eq; exact (ao_free _ H) | |].
  - intros p s' Hs' Ht. destruct (Hold p s' Hs') as [(s & Hs & E) | [E _]]; [exists s; by rewrite <- E | unfold chained_type in Ht; lia].
  - intros p [s' Hs']. destruct (Hold p s' Hs') as [(s & Hs & _) | [_ E]]; [apply (ao_even _ H); by eexists | done].
Qed.

Lemma heap_state_ok w a : atoms_ok w -> atoms_ok (set_heap_state w a).
Proof.
  intros H. apply (counts_ok w); try done.
  - intros p s Hs _. split; [exists (ref_count s); simpl; by rewrite set_rc_same | done].
  - intros p s Hs. left. by exists s.
Qed.

Lemma rc_inc_kept w p s q t :
  strs w !! p = Some s -> strs w !! q = Some t -> exists n, strs (rc_incremented w p s) !! q = Some (set_ref_count t n).
Proof.
  intros Hp Hq. unfold rc_incremented. destruct (is_base w p); [exists (ref_count t); by rewrite set_rc_same |]. simpl.
  destruct (decide (q = p)) as [-> | Hne]; [rewrite lookup_insert_eq; rewrite Hp in Hq; injection Hq as <-; by eexists |].
  rewrite lookup_insert_ne by done. exists (ref_count t). by rewrite set_rc_same.
Qed.

Lemma rc_inc_old w p s q t' :
  strs w !! p = Some s -> strs (rc_incremented w p s) !! q = Some t' -> exists t, strs w !! q = Some t /\ atom_type t' = atom_type t.
Proof.
  intros Hp Hq. unfold rc_incremented in Hq. destruct (is_base w p); [by exists t' |]. simpl in Hq. apply lookup_insert_Some in Hq as [[-> <-] | [_ Hq]]; [by exists s | by exists t'].
Qed.

Lemma rc_inc_atoms w p s : atoms_ok w -> strs w !! p = Some s -> atoms_ok (rc_incremented w p s) /\ atoms_ext w (rc_incremented w p s).
Proof.
  intros H Hp. destruct (rc_inc_fields w p s) as (E1 & E2 & E3).
  assert (Hk : forall q t, strs w !! q = Some t -> chained_type (atom_type t) -> (exists n, strs (rc_incremented w p s) !! q = Some (set_ref_count t n)) /\
    forall us, contents (strs w) q = Some us -> contents (strs (rc_incremented w p s)) q = Some us).
  { intros q t Hq _. split; [by apply (rc_inc_kept w p s q t) | intros us; by apply rc_inc_contents]. }
  split; [| by apply counts_ext]. apply (counts_ok w); try done. intros q t' Hq. left. by apply (rc_inc_old w p s).
Qed.

Lemma free_old w refs p h' q t' :
  strings_ok w refs -> 1 <= refs p -> js_free_string p w = Done (tt, set_strs w h') -> h' !! q = Some t' -> exists t, strs w !! q = Some t /\ atom_type t' = atom_type t.
Proof.
  intros H Hr Hrun Hq. destruct (proj2 (so_refs _ _ H p) Hr) as [s Hp]. pose proof (so_arena _ _ H) as Ha.
  assert (Hinj : forall h1, js_free_string p w = Done (tt, set_strs w h1) -> h' = h1) by (intros h1 E; rewrite E in Hrun; by injection Hrun as ->).
  assert (Hf : forall w0 r u h, freed w0 r u h !! q = Some t' -> h !! r = Some u -> exists t, h !! q = Some t /\ atom_type t' = atom_type t).
  { intros w0 r u h. unfold freed. destruct (is_base w0 r); [intros Hx _; by exists t' |]. destruct ((ref_count u - 1 <=? 0) && (atom_type u =? 0)).
    - intros Hx _. apply lookup_delete_Some in Hx as [_ Hx]. by exists t'.
    - intros Hx Hu. apply lookup_insert_Some in Hx as [[-> <-] | [_ Hx]]; [by exists u | by exists t']. }
  destruct (tail s) as [l | r st | l] eqn:Et.
  1, 3: assert (Hn : not_slice s) by (intros r st' E; congruence); rewrite (Hinj _ (free_plain_run 1 w p s Ha Hp Hn)) in Hq; by apply (Hf w p s).
  destruct (slice_parent w refs p s r st H Hp Et) as (u & Hu & Hn & Hne). rewrite (Hinj _ (free_slice_run w p s r st u Ha Hp Et Hu Hn Hne)) in Hq.
  destruct (is_base w p); [by exists t' |]. destruct ((ref_count s - 1 <=? 0) && (atom_type s =? 0)).
  - destruct (Hf w r u (delete p (strs w)) Hq) as (t & Hx & E); [by rewrite lookup_delete_ne |]. apply lookup_delete_Some in Hx as [_ Hx]. by exists t.
  - apply lookup_insert_Some in Hq as [[-> <-] | [_ Hq]]; [by exists s | by exists t'].
Qed.

Lemma free_atoms w refs p h' :
  atoms_ok w -> strings_ok w refs -> 1 <= refs p -> js_free_string p w = Done (tt, set_strs w h') -> atoms_ok (set_strs w h') /\ atoms_ext w (set_strs w h').
Proof.
  intros H Hs Hr Hrun. assert (Hk : forall q t, strs w !! q = Some t -> chained_type (atom_type t) -> (exists n, h' !! q = Some (set_ref_count t n)) /\
    forall us, contents (strs w) q = Some us -> contents h' q = Some us).
  { intros q t Hq Ht. destruct (free_atom_kept w refs p h' q t Hs Hr Hrun Hq) as [(n & Hn & _) Hc]; [left; unfold chained_type in Ht; lia |]. split; [by exists n | done]. }
  split; [| by apply counts_ext]. apply (counts_ok w); try done. intros q t' Hq. left. by apply (free_old w refs p h').
Qed.
End atoms.

(** * Atoms: looking up

    Walking the chains finds the atom of a string if there is one. *)

Section find.
Context `{SA : StrAlloc}.

(** The state after an atom was found: its count is raised unless it is one of the
    predefined atoms. *)
Definition found_state (w : world) (j p : Z) (s : JSString) : world := if AtomIsConst j then w else rc_incremented w p s.

Lemma find_loop_run w accept (P : Z -> Prop) i l fuel :
  chain w i l -> (length l < fuel)%nat ->
  (forall j p s, j ∈ l -> struct_at w j = Some p -> strs w !! p = Some s -> exists b, accept p s w = Done (b, w) /\ (b = true <-> P j)) ->
  (exists j p s, j ∈ l /\ P j /\ struct_at w j = Some p /\ strs w !! p = Some s /\ find_in_chain fuel accept i w = Done (j, found_state w j p s)) \/
  ((forall j, j ∈ l -> ~ P j) /\ find_in_chain fuel accept i w = Done (0, w)).
Proof.
  intros Hc. revert fuel. induction Hc as [| i p s l Hi Hp Hs Hc IH]; intros fuel Hf Hacc; (destruct fuel as [| fuel]; [simpl in Hf; lia |]).
  { right. split; [intros j Hj; by apply not_elem_of_nil in Hj | done]. }
  destruct (Hacc i p s) as (b & Eb & Hb); [left | done | done |].
  assert (Estep : find_in_chain (S fuel) accept i w = (if b then (if negb (AtomIsConst i) then str_rc_inc p else sret tt) ;^ sret i else find_in_chain fuel accept (hash_next s)) w).
  { cbn [find_in_chain]. destruct (Z.eqb_spec i 0); [done |]. unfold sbind at 1. rewrite (js_atom_struct_run w i p Hp). cbn [run_bind].
    unfold sbind at 1, str_load, sderef. rewrite Hs. cbn [run_bind]. unfold sbind at 1. rewrite Eb. done. }
  rewrite Estep. destruct b.
  - left. exists i, p, s. split; [left |]. split; [by apply Hb |]. split; [done |]. split; [done |]. unfold found_state. destruct (AtomIsConst i); cbn [negb]; [done |].
    unfold sbind. by rewrite (rc_inc_run w p s Hs).
  - assert (HnP : ~ P i) by (rewrite <- Hb; done). simpl in Hf.
    destruct (IH fuel ltac:(lia)) as [(j & q & t & Hj & HP & Hq & Ht & E) | [Hno E]]; [intros j q t Hj; apply Hacc; by right | |].
    + left. exists j, q, t. split; [by right |]. done.
    + right. split; [| exact E]. intros j Hj. apply elem_of_cons in Hj as [-> | Hj]; [done | by apply Hno].
Qed.

Lemma land_bucket k h : 0 <= k -> 0 <= h -> 0 <= Z.land h (2 ^ k - 1) < 2 ^ k.
Proof. intros Hk Hh. replace (2 ^ k - 1) with (Z.ones k) by (rewrite Z.ones_equiv; lia). rewrite Z.land_ones by done. apply Z.mod_pos_bound. lia. Qed.

(** The chain of a bucket. *)
Lemma bucket_chain w base heads size h :
  buckets_ok w base heads size -> 0 <= h -> exists head l, slot_in heads (Z.land h (size - 1)) = Some head /\ chain w head l /\
    Forall (atom_entry w size (Z.land h (size - 1)) base) l /\ (forall i, i ∈ l -> on_chain w heads i).
Proof.
  intros (Hl & (k & Hk & ->) & Hb) Hh. pose proof (land_bucket k h Hk Hh) as Hr. set (b := Z.land h (2 ^ k - 1)) in *.
  destruct (lookup_lt_is_Some_2 heads (Z.to_nat b)) as [head Hhead]; [unfold lenZ in Hl; lia |]. destruct (Hb _ _ Hhead) as (l & Hc & Hf). exists head, l.
  split; [unfold slot_in; destruct (Z.leb_spec 0 b); [done | lia] |]. split; [done |]. rewrite Z2Nat.id in Hf by lia. split; [done |].
  intros i Hi. by exists (Z.to_nat b), head, l.
Qed.

(** An atom on a chain is on the chain of its hash. *)
Lemma on_chain_bucket w base heads size i p s us head l :
  buckets_ok w base heads size -> on_chain w heads i -> struct_at w i = Some p -> strs w !! p = Some s -> contents (strs w) p = Some us ->
  slot_in heads (Z.land (hash s) (size - 1)) = Some head -> chain w head l -> i ∈ l.
Proof.
  intros (Hl & Hk & Hb) (b & head' & l' & Hh' & Hc' & Hi) Hp Hs Hc Hhead Hchain. destruct (Hb b head' Hh') as (l0 & Hc0 & Hf). rewrite (chain_functional w head' l' l0 Hc' Hc0) in Hi.
  rewrite Forall_forall in Hf. destruct (Hf i Hi) as (p0 & s0 & us0 & Hp0 & Hs0 & _ & _ & _ & Hland & _). rewrite Hp in Hp0. injection Hp0 as <-. rewrite Hs in Hs0. injection Hs0 as <-.
  rewrite Hland in Hhead. unfold slot_in in Hhead. destruct (Z.leb_spec 0 (Z.of_nat b)); [| lia]. rewrite Nat2Z.id, Hh' in Hhead. injection Hhead as <-. by rewrite (chain_functional w head' l l0 Hchain Hc0).
Qed.

(** A test for the string [us] as an atom of type [t]. *)
Definition tests_for (w : world) (accept : Z -> JSString -> ST world bool) (t : Z) (us : list Z) : Prop :=
  forall i p s vs, struct_at w i = Some p -> strs w !! p = Some s -> contents (strs w) p = Some vs -> hash s = atom_hash_of (atom_type s) vs ->
    exists b, accept p s w = Done (b, w) /\ (b = true <-> atom_type s = t /\ vs = us).

(** Walking the chain of a hash in one table. *)
Lemma walk_table w accept t us base size :
  atoms_ok w -> tests_for w accept t us -> 0 <= atom_hash_of t us -> buckets_ok w base (heads_of w base) size ->
  exists head, slot_in (heads_of w base) (Z.land (atom_hash_of t us) (size - 1)) = Some head /\
    ((exists i p s, interned w t us i /\ i <> 0 /\ struct_at w i = Some p /\ strs w !! p = Some s /\ find_in_chain (chain_fuel w) accept head w = Done (i, found_state w i p s)) \/
     ((forall i, on_chain w (heads_of w base) i -> ~ interned w t us i) /\ find_in_chain (chain_fuel w) accept head w = Done (0, w))).
Proof.
  intros H Hacc Hh0 Hb. destruct (ao_sizes _ H) as (Hs1 & Hs2 & Hs3). unfold JS_ATOM_END in Hs1.
  destruct (bucket_chain w base (heads_of w base) size _ Hb Hh0) as (head & l & Hhead & Hc & Hf & Hon). exists head. split; [done |]. rewrite Forall_forall in Hf.
  assert (Hfuel : (length l < chain_fuel w)%nat) by (apply (chain_fuel_enough w head); [lia | done]).
  destruct (find_loop_run w accept (fun j => interned w t us j) head l (chain_fuel w) Hc Hfuel) as [(j & p & s & Hj & HP & Hp & Hs & E) | [Hno E]].
  - intros j p s Hj Hp Hs. destruct (Hf j Hj) as (p0 & s0 & vs & Hp0 & Hs0 & Hcv & _ & Hhs & _). rewrite Hp in Hp0. injection Hp0 as <-. rewrite Hs in Hs0. injection Hs0 as <-.
    destruct (Hacc j p s vs Hp Hs Hcv Hhs) as (b & Eb & Hbi). exists b. split; [done |]. rewrite Hbi. split.
    + intros [Ht ->]. split; [exists base; by apply Hon |]. by exists p, s.
    + intros [_ (p1 & s1 & Hp1 & Hs1' & Ht1 & Hc1)]. rewrite Hp in Hp1. injection Hp1 as <-. rewrite Hs in Hs1'. injection Hs1' as <-. rewrite Hcv in Hc1. by injection Hc1 as ->.
  - left. exists j, p, s. destruct (chain_slots w head l j Hc Hj) as (_ & _ & Hj0 & _). done.
  - right. split; [| done]. intros i Hoi [_ (p & s & Hp & Hs & Ht & Hcu)]. apply (Hno i); [| split; [by exists base | by exists p, s]].
    destruct (on_chain_entry w base _ size i Hb Hoi) as (b & _ & p0 & s0 & vs & Hp0 & Hs0 & Hcv & _ & Hhs & _). rewrite Hp in Hp0. injection Hp0 as <-. rewrite Hs in Hs0. injection Hs0 as <-.
    rewrite Hcu in Hcv. injection Hcv as <-. apply (on_chain_bucket w base _ size i p s us head l Hb Hoi Hp Hs Hcu); [| done]. by rewrite Hhs, Ht.
Qed.

(** [find_atom] with a test for one string. *)
Lemma find_atom_run w accept t us :
  atoms_ok w -> tests_for w accept t us -> 0 <= atom_hash_of t us ->
  let h := atom_hash_of t us in
  (exists i p s, interned w t us i /\ struct_at w i = Some p /\ strs w !! p = Some s /\ i <> 0 /\ find_atom accept h w = Done (i, found_state w i p s)) \/
  ((forall i, ~ interned w t us i) /\ find_atom accept h w = Done (0, w)).
Proof.
  intros H Hacc Hh0 h. assert (Hwalk := fun base size => walk_table w accept t us base size H Hacc Hh0). fold h in Hwalk.
  destruct (Hwalk true _ (ao_base _ H)) as (headb & Hheadb & Hbase).
  set (search := find_in_chain (chain_fuel w) accept) in *.
  assert (Hrest : (forall i, on_chain w (heads_of w false) i -> ~ interned w t us i) -> find_atom accept h w = search headb w ->
    (exists i p s, interned w t us i /\ struct_at w i = Some p /\ strs w !! p = Some s /\ i <> 0 /\ find_atom accept h w = Done (i, found_state w i p s)) \/
    ((forall i, ~ interned w t us i) /\ find_atom accept h w = Done (0, w))).
  { intros Hno ->. destruct Hbase as [(i & p & s & Hint & Hi0 & Hp & Hs & E) | [Hno' E]]; [left; by exists i, p, s | right]. split; [| done].
    intros i Hi. destruct Hi as [[[] Ho] Hr]; [apply (Hno' i Ho) | apply (Hno i Ho)]; (split; [by eexists | done]). }
  assert (Ebase : (let^ t := sget tab in let^ i := nth_word (atom_hash t) (Z.land h (atom_hash_size t - 1)) in search i) w = search headb w).
  { unfold sbind, sget. cbn [run_bind]. by rewrite (nth_word_run w (atom_hash (tab w)) _ headb Hheadb). }
  pose proof (ao_over _ H) as Hover. destruct (atom_hash_overlay (req w)) as [lo |] eqn:Elo.
  - assert (Eh : heads_of w false = lo) by (simpl; by rewrite Elo). pose proof Hover as Hover'. rewrite <- Eh in Hover'. destruct (Hwalk false _ Hover') as (heado & Hheado & Hov). rewrite Eh in Hheado.
    assert (Efind : find_atom accept h w = (let* (i, w1) := search heado w in
      (if negb (i =? 0) then sret i else let^ t := sget tab in let^ i := nth_word (atom_hash t) (Z.land h (atom_hash_size t - 1)) in search i) w1)).
    { unfold find_atom. unfold sbind at 1, sget at 1. cbn [run_bind]. unfold sbind at 1, sget at 1. cbn [run_bind]. rewrite Elo. unfold sbind at 1. unfold sbind at 1.
      by rewrite (nth_word_run w lo _ heado Hheado). }
    destruct Hov as [(i & p & s & Hint & Hi0 & Hp & Hs & E) | [Hno E]].
    + left. exists i, p, s. split_and!; try done. rewrite Efind, E. cbn [run_bind]. by destruct (Z.eqb_spec i 0).
    + apply Hrest; [done |]. rewrite Efind, E. exact Ebase.
  - apply Hrest.
    + intros i Ho. simpl in Ho. rewrite Elo in Ho. by destruct (not_on_nil _ _ Ho).
    + unfold find_atom. unfold sbind at 1, sget at 1. cbn [run_bind]. unfold sbind at 1, sget at 1. cbn [run_bind]. rewrite Elo. exact Ebase.
Qed.

(** ** The tests *)

Lemma memcmp_zero l1 l2 : length l1 = length l2 -> (memcmp16 l1 l2 =? 0) = true <-> l1 = l2.
Proof.
  intros Hl. pose proof (memcmp_lex l1 l2) as Hx. cbv zeta in Hx. rewrite <- Hl, Nat.min_id, (take_ge l1), (take_ge l2) in Hx by lia. rewrite <- lex_eq.
  unfold lenZ in Hx. rewrite Hl, Z.compare_refl in Hx. destruct (Z.eqb_spec (memcmp16 l1 l2) 0) as [E | E]; [done |]. rewrite Hx, Z.compare_eq_iff. done.
Qed.

Lemma same_string_tests w refs str us t :
  strings_ok w refs -> contents (strs w) str = Some us -> tests_for w (same_string str (atom_hash_of t us) t (lenZ us)) t us.
Proof.
  intros H Hc i p s vs _ Hs Hcv Hhs. destruct (contents_string w refs p vs H Hcv) as (s' & Hs' & Hl). rewrite Hs in Hs'. injection Hs' as <-. unfold same_string.
  destruct ((hash s =? atom_hash_of t us) && (atom_type s =? t) && (slen s =? lenZ us)) eqn:E.
  - rewrite !andb_true_iff, !Z.eqb_eq in E. destruct E as [[_ Et] El]. rewrite Hl in El. pose proof (lenZ_nonneg us). unfold sbind. rewrite (memcmp_run w refs p str vs us) by (done || lia). cbn [run_bind].
    eexists. split; [done |]. unfold lenZ in El |- *. rewrite Nat2Z.id, !take_ge by lia. rewrite memcmp_zero by lia. split; [done | by intros []].
  - exists false. split; [done |]. split; [done |]. intros [Et ->]. rewrite Hhs, Et, Hl, !Z.eqb_refl in E. done.
Qed.

(** ** The index of an atom *)

Lemma index_loop_run w p i head l fuel :
  chain w head l -> i ∈ l -> struct_at w i = Some p -> (forall j, j ∈ l -> struct_at w j = Some p -> j = i) -> (length l < fuel)%nat ->
  index_loop fuel p head w = Done (i, w).
Proof.
  intros Hc. revert fuel. induction Hc as [| j q s l Hj Hq Hs Hc IH]; intros fuel Hi Hp Huniq Hf; [by apply not_elem_of_nil in Hi |]. destruct fuel as [| fuel]; [simpl in Hf; lia |].
  cbn [index_loop]. unfold sbind at 1. rewrite (js_atom_struct_run w j q Hq). cbn [run_bind]. destruct (Z.eqb_spec q p) as [-> | Hne].
  - rewrite (Huniq j) by (done || left). done.
  - destruct (Z.eqb_spec j 0); [done |]. unfold sbind, str_load, sderef. rewrite Hs. cbn [run_bind]. simpl in Hf. apply IH; [| done | | lia].
    + apply elem_of_cons in Hi as [-> | Hi]; [congruence | done].
    + intros k Hk. apply Huniq. by right.
Qed.

Lemma hash_of_nonneg t us : 0 <= atom_hash_of t us.
Proof. unfold atom_hash_of, JS_ATOM_HASH_MASK. apply Z.land_nonneg. right. lia. Qed.

Lemma get_atom_index_run w p s us :
  atoms_ok w -> strs w !! p = Some s -> chained_type (atom_type s) -> contents (strs w) p = Some us ->
  exists i, js_get_atom_index p w = Done (i, w) /\ interned w (atom_type s) us i /\ struct_at w i = Some p /\ i <> 0.
Proof.
  intros H Hp Ht Hc. destruct (ao_complete _ H p s Hp Ht) as (i & Hon & Hi). destruct (ao_sizes _ H) as (Hs1 & Hs2 & Hs3). unfold JS_ATOM_END in Hs1.
  assert (Hint : interned w (atom_type s) us i) by (split; [by eexists | by exists p, s]).
  destruct (heads_buckets w (is_base w p) H) as [E | [size0 Hb0]]; [rewrite E in Hon; by destruct (not_on_nil _ _ Hon) |].
  set (size := if is_base w p then atom_hash_size (tab w) else atom_hash_overlay_size (req w)).
  assert (Hb : buckets_ok w (is_base w p) (heads_of w (is_base w p)) size).
  { unfold size. destruct (is_base w p); [exact (ao_base _ H) |]. pose proof (ao_over _ H) as Ho. simpl in *. destruct (atom_hash_overlay (req w)); [done | by destruct (not_on_nil _ _ Hon)]. }
  destruct (on_chain_entry w _ _ size i Hb Hon) as (b & _ & p0 & s0 & vs & Hp0 & Hs0 & Hcv & _ & Hhs & _). rewrite Hi in Hp0. injection Hp0 as <-. rewrite Hp in Hs0. injection Hs0 as <-. rewrite Hc in Hcv. injection Hcv as <-.
  assert (Hh0 : 0 <= hash s) by (rewrite Hhs; apply hash_of_nonneg).
  destruct (bucket_chain w _ _ size (hash s) Hb Hh0) as (head & l & Hhead & Hchain & Hf & Honl).
  assert (Hil : i ∈ l) by exact (on_chain_bucket w _ _ size i p s us head l Hb Hon Hi Hp Hc Hhead Hchain).
  exists i. split; [| split; [done |]; split; [done | by destruct (chain_slots w head l i Hchain Hil) as (_ & _ & ? & _)]].
  assert (Hloop : index_loop (chain_fuel w) p head w = Done (i, w)).
  { apply (index_loop_run w p i head l); try done; [| apply (chain_fuel_enough w head); [lia | done]]. intros j Hj Hpj. apply (ao_unique _ H (atom_type s) us j i); [| done].
    split; [eexists; by apply Honl | by exists p, s]. }
  unfold js_get_atom_index. unfold sbind at 1, str_load, sderef. rewrite Hp. cbn [run_bind]. unfold chained_type in Ht. destruct (Z.eqb_spec (atom_type s) JS_ATOM_TYPE_SYMBOL); [lia |]. cbn [negb].
  unfold sbind at 1, sget at 1. cbn [run_bind]. unfold sbind at 1, sget at 1. cbn [run_bind]. unfold sbind at 1, base_ptr, sget at 1. cbn [run_bind]. fold (is_base w p).
  unfold sbind at 1. assert (Eh : (match atom_hash_overlay (req w) with
      | Some l => if negb (is_base w p) then nth_word l (Z.land (hash s) (atom_hash_overlay_size (req w) - 1)) else nth_word (atom_hash (tab w)) (Z.land (hash s) (atom_hash_size (tab w) - 1))
      | None => nth_word (atom_hash (tab w)) (Z.land (hash s) (atom_hash_size (tab w) - 1)) end) w = Done (head, w)).
  { unfold size in Hhead. destruct (is_base w p); simpl in Hhead, Hon; [destruct (atom_hash_overlay (req w)); by apply nth_word_run |].
    destruct (atom_hash_overlay (req w)); [by apply nth_word_run | by destruct (not_on_nil _ _ Hon)]. }
  rewrite Eh. cbn [run_bind]. unfold sbind, sget. cbn [run_bind]. exact Hloop.
Qed.
End find.
