(* ===== verification/AtomsIntern.v ===== *)
(** * Atoms: interning during a request

    A new atom takes a free slot of the overlay and goes to the front of its
    overlay chain; nothing of the base changes. *)

From stdpp Require Import base list numbers gmap fin_maps.
From Stdlib Require Import ZArith Lia.
From S2P Require Import Prelude StateRun BaseRanges Utf8 Utf8Proofs JsString JsStringProofs JsStringOps JsStringTheorems Atoms AtomsProofs.

#[local] Open Scope Z_scope.
#[local] Open Scope st_scope.

(** ** Free slots *)

Lemma set_free_value v : atom_set_free v = 2 * v + 1.
Proof.
  unfold atom_set_free. rewrite Z.shiftl_mul_pow2, Z.lor_comm, (lor_plus 1 v 1) by lia. lia.
Qed.

Lemma get_set_free v : 0 <= v < 2 ^ 31 -> atom_get_free (atom_set_free v) = v.
Proof.
  intros Hv. unfold atom_get_free. rewrite set_free_value, Z.shiftr_div_pow2 by lia. change (2 ^ 1) with 2. replace ((2 * v + 1) / 2) with v by (apply (Z.div_unique _ _ _ 1); lia).
  apply u32_small. lia.
Qed.

Lemma set_free_odd v : Z.even (atom_set_free v) = false.
Proof. rewrite set_free_value. by rewrite Z.even_add, Z.even_mul. Qed.

Lemma free_functional l x fs fs' : free_chain l x fs -> free_chain l x fs' -> fs = fs'.
Proof.
  intros H. revert fs'. induction H as [| rel next fs Hr Hs Hn Hc IH]; intros fs' H'; inversion H' as [| ? next' fs0 Hr' Hs' Hn' Hc']; subst; try done; try lia.
  rewrite Hs in Hs'. injection Hs' as E. rewrite !set_free_value in E. replace next' with next in * by lia. f_equal. by apply IH.
Qed.

Lemma free_suffix l x fs y : free_chain l x fs -> y ∈ fs -> exists fs1 fs2, fs = fs1 ++ fs2 /\ free_chain l y fs2.
Proof.
  induction 1 as [| rel next fs Hr Hs Hn Hc IH]; intros Hy; [by apply not_elem_of_nil in Hy |]. apply elem_of_cons in Hy as [-> | Hy].
  - exists [], (rel :: fs). split; [done |]. by apply (free_cons l rel next).
  - destruct (IH Hy) as (f1 & f2 & -> & H2). by exists (rel :: f1), f2.
Qed.

(** A slot is not free twice. *)
Lemma free_head_fresh l rel next fs :
  0 < rel -> slot_in l rel = Some (atom_set_free next) -> 0 <= next < 2 ^ 31 -> free_chain l next fs -> rel ∉ fs.
Proof.
  intros Hr Hs Hn Hc Hin. destruct (free_suffix l next fs rel Hc Hin) as (f1 & f2 & -> & H2).
  assert (E : rel :: f1 ++ f2 = f2) by (apply (free_functional l rel); [by apply (free_cons l rel next) | done]).
  apply (f_equal length) in E. simpl in E. rewrite length_app in E. lia.
Qed.

Lemma slot_in_set l i x j : 0 <= i < lenZ l -> slot_in (setZ i x l) j = if j =? i then Some x else slot_in l j.
Proof.
  intros Hi. unfold slot_in, setZ, lenZ in *. destruct (Z.eqb_spec j i) as [-> | Hne].
  - destruct (Z.leb_spec 0 i); [| lia]. by rewrite list_lookup_insert_eq by lia.
  - destruct (Z.leb_spec 0 j); [| done]. by rewrite list_lookup_insert_ne by lia.
Qed.

Lemma free_set l x fs rel p : free_chain l x fs -> rel ∉ fs -> 0 <= rel < lenZ l -> free_chain (setZ rel p l) x fs.
Proof.
  intros H Hn Hr. induction H as [| y next fs Hy Hs Hnx Hc IH]; [constructor |]. apply not_elem_of_cons in Hn as [Hne Hn]. apply (free_cons _ y next); try done; [| by apply IH].
  rewrite slot_in_set by done. destruct (Z.eqb_spec y rel); [congruence | done].
Qed.

Lemma slot_in_app_l l l' i x : slot_in l i = Some x -> slot_in (l ++ l') i = Some x.
Proof. unfold slot_in. destruct (0 <=? i); [| done]. intros H. by apply lookup_app_l_Some. Qed.

Lemma free_slots_at pre start n i :
  lenZ pre = start -> start <= i < n -> slot_in (pre ++ free_slots start n) i = Some (atom_set_free (if i =? n - 1 then 0 else i + 1)).
Proof.
  intros Hp Hi. unfold slot_in, lenZ in *. destruct (Z.leb_spec 0 i); [| lia]. rewrite lookup_app_r by lia. unfold free_slots. rewrite list_lookup_fmap, lookup_seq_lt by lia. simpl.
  replace (start + Z.of_nat (Z.to_nat i - length pre)) with i by lia. done.
Qed.

Lemma free_slots_chain pre start n :
  lenZ pre = start -> 0 < start < n -> n < 2 ^ 31 -> exists fs, free_chain (pre ++ free_slots start n) start fs.
Proof.
  intros Hp Hs Hn. assert (G : forall m i, i = n - 1 - Z.of_nat m -> start <= i -> exists fs, free_chain (pre ++ free_slots start n) i fs).
  { induction m as [| m IH]; intros i Hi Hsi.
    - exists [i]. apply (free_cons _ i 0); [lia | | lia | constructor]. rewrite (free_slots_at pre start n i Hp) by lia. destruct (Z.eqb_spec i (n - 1)); [done | lia].
    - destruct (IH (i + 1)) as [fs Hfs]; [lia | lia |]. exists (i :: fs). apply (free_cons _ i (i + 1)); [lia | | lia | done].
      rewrite (free_slots_at pre start n i Hp) by lia. destruct (Z.eqb_spec i (n - 1)); [lia | done]. }
  apply (G (Z.to_nat (n - 1 - start))); lia.
Qed.

Lemma free_slots_length start n : start <= n -> lenZ (free_slots start n) = n - start.
Proof. intros H. unfold lenZ, free_slots. rewrite length_fmap, length_seq. lia. Qed.

Section new.
Context `{SA : StrAlloc}.

(** ** Room in the overlay *)

(** Indices stay below 2^31 when the overlay doubles. *)
Definition room (w : world) : Prop := atom_overlay_base (req w) + 2 * Z.max ATOM_OVERLAY_INITIAL (atom_overlay_size (req w)) < 2 ^ 31.

Definition slot_ensured (r : atom_request) : atom_request :=
  if negb (atom_overlay_free_index r =? 0) then r
  else
    let old_size := atom_overlay_size r in
    let new_size := if old_size =? 0 then ATOM_OVERLAY_INITIAL else u32 (old_size * 2) in
    let start := if old_size =? 0 then 1 else old_size in
    let kept := if old_size =? 0 then [0] else take (Z.to_nat old_size) (default [] (atom_overlay r)) in
    set_overlay r (kept ++ free_slots start new_size) new_size (atom_overlay_count r) start.

Lemma ensure_slot_run w :
  exists ok a, js_atom_overlay_ensure_slot w = Done (ok, if ok : bool then set_req (set_heap_state w a) (slot_ensured (req w)) else set_heap_state w a).
Proof.
  unfold js_atom_overlay_ensure_slot, slot_ensured, sbind, sget. cbn [run_bind]. destruct (negb (atom_overlay_free_index (req w) =? 0)).
  - exists true, (heap_state w). by destruct w.
  - unfold js_array, scall. destruct (arr_malloc (heap_state w) _) as [ok a]. cbn [run_bind]. exists ok, a. by destruct ok.
Qed.

Lemma slot_ensured_ok w :
  atoms_ok w -> room w -> let w' := set_req w (slot_ensured (req w)) in
  atoms_ok w' /\ atoms_ext w w' /\ 0 < atom_overlay_free_index (req w') /\ atom_overlay_base (req w') = atom_overlay_base (req w) /\
  atom_hash_overlay (req w') = atom_hash_overlay (req w) /\ atom_hash_overlay_size (req w') = atom_hash_overlay_size (req w).
Proof.
  intros H Hroom w'. destruct (Z.eqb_spec (atom_overlay_free_index (req w)) 0) as [E0 | E0].
  2: { assert (Ew : w' = w) by (unfold w', slot_ensured; destruct (Z.eqb_spec (atom_overlay_free_index (req w)) 0); [done |]; by destruct w). rewrite Ew. split; [done |].
    split; [apply (counts_ext w); try done; intros p s Hs _; split; [exists (ref_count s); by rewrite set_rc_same | done] |]. split; [| done].
    destruct (ao_free _ H) as [fs Hfs]. inversion Hfs; [congruence | done]. }
  unfold slot_ensured in w'. destruct (Z.eqb_spec (atom_overlay_free_index (req w)) 0); [| done]. cbn [negb] in w'. unfold room, ATOM_OVERLAY_INITIAL in *.
  pose proof (ao_slots _ H) as Hsl. destruct (ao_sizes _ H) as (Hs1 & _). unfold JS_ATOM_END in Hs1. set (old := atom_overlay_size (req w)) in *.
  set (kept := if old =? 0 then [0] else take (Z.to_nat old) (default [] (atom_overlay (req w)))) in *. set (start := if old =? 0 then 1 else old) in *. set (new := if old =? 0 then 64 else u32 (old * 2)) in *.
  assert (Hold : 0 <= old) by (unfold old in *; destruct (atom_overlay (req w)); lia).
  assert (Hnum : lenZ kept = start /\ 0 < start < new /\ new < 2 ^ 31).
  { unfold kept, start, new. destruct (Z.eqb_spec old 0) as [-> | Hne]; [done |]. rewrite u32_small by lia. destruct (atom_overlay (req w)) as [l |]; [| lia]. simpl.
    destruct Hsl as [Hl Hpos]. fold old in Hl. unfold lenZ in *. rewrite length_take. lia. }
  destruct Hnum as (Hk & Hst & Hnew).
  assert (Hext : atoms_ext w w').
  { split; try done. intros i p s Hp Hs Ht. split; [| exists s; done]. unfold struct_at in *. simpl. destruct (i <? atom_overlay_base (req w)); [done |].
    destruct (atom_overlay (req w)) as [l |] eqn:El; [| done]. apply slot_in_app_l. destruct Hsl as [Hl Hpos]. fold old in Hl, Hpos. unfold kept. destruct (Z.eqb_spec old 0); [lia |]. simpl.
    rewrite take_ge by (unfold lenZ in Hl; lia). done. }
  assert (Hlen : lenZ (kept ++ free_slots start new) = new) by (rewrite lenZ_app, free_slots_length by lia; lia).
  split; [| split; [done |]; split; [simpl; lia | done]]. apply (atoms_ok_ext w w' H Hext); try done.
  - simpl. split; [done | lia].
  - simpl. by apply free_slots_chain.
  - intros p s Hs Ht. by exists s.
  - exact (ao_even _ H).
Qed.

(** The chain heads of the overlay. *)
Definition hash_ensured (r : atom_request) : atom_request :=
  match atom_hash_overlay r with
  | Some _ => r
  | None => set_hash_overlay r (replicate (Z.to_nat ATOM_HASH_OVERLAY_INITIAL) 0) ATOM_HASH_OVERLAY_INITIAL
  end.

Lemma ensure_hash_run w :
  exists ok a, js_atom_hash_overlay_ensure w = Done (ok, if ok : bool then set_req (set_heap_state w a) (hash_ensured (req w)) else set_heap_state w a).
Proof.
  unfold js_atom_hash_overlay_ensure, hash_ensured, sbind, sget. cbn [run_bind]. destruct (atom_hash_overlay (req w)).
  - exists true, (heap_state w). by destruct w.
  - unfold js_array, scall. destruct (arr_malloc (heap_state w) _) as [ok a]. cbn [run_bind]. exists ok, a. by destruct ok.
Qed.

Lemma hash_ensured_ok w :
  atoms_ok w -> let w' := set_req w (hash_ensured (req w)) in
  atoms_ok w' /\ atoms_ext w w' /\ (forall t us i, interned w' t us i <-> interned w t us i) /\ exists lo, atom_hash_overlay (req w') = Some lo.
Proof.
  intros H w'. unfold hash_ensured in w'. destruct (atom_hash_overlay (req w)) as [lo |] eqn:El.
  { assert (Ew : w' = w) by (unfold w'; by destruct w). rewrite Ew. split; [done |]. split; [| split; [done | by exists lo]].
    apply (counts_ext w); try done; intros p s Hs _; split; [exists (ref_count s); by rewrite set_rc_same | done]. }
  assert (Hext : atoms_ext w w') by (split; try done; intros i p s Hp Hs Ht; split; [done | by exists s]).
  assert (Hempty : forall i, ~ on_chain w' (heads_of w' false) i).
  { intros i (b & head & l & Hh & Hc & Hi). change (replicate (Z.to_nat ATOM_HASH_OVERLAY_INITIAL) 0 !! b = Some head) in Hh. apply lookup_replicate in Hh as [-> _]. inversion Hc; subst; [by apply not_elem_of_nil in Hi | done]. }
  assert (Hbase : forall i, on_chain w' (heads_of w' true) i <-> on_chain w (heads_of w true) i) by (intros i; apply (on_chain_ext w w' true _ _ i Hext (ao_base _ H))).
  assert (Hno : forall i, ~ on_chain w (heads_of w false) i) by (intros i Ho; simpl in Ho; rewrite El in Ho; by destruct (not_on_nil _ _ Ho)).
  assert (Hint : forall t us i, interned w' t us i <-> interned w t us i).
  { intros t us i. split; intros [([] & Ho) Hr]; try (by destruct (Hempty _ Ho)); try (by destruct (Hno _ Ho)); (split; [exists true; by apply Hbase | done]). }
  split; [| split; [done |]; split; [done | by eexists]]. split; try exact (ao_sizes _ H); try exact (ao_slots _ H); try exact (ao_free _ H); try exact (ao_even _ H).
  - exact (buckets_ext w w' _ _ _ Hext (ao_base _ H)).
  - split; [done |]. split; [by exists 6 |]. intros b head Hh. apply lookup_replicate in Hh as [-> _]. exists []. split; constructor.
  - intros t us i j Hi Hj. apply (ao_unique _ H t us); by apply Hint.
  - intros p s Hs Ht. destruct (ao_complete _ H p s Hs Ht) as (i & Ho & Hp). exists i. split; [| done]. change (is_base w' p) with (is_base w p).
    destruct (is_base w p); [by apply Hbase | by destruct (Hno _ Ho)].
Qed.
End new.

(** * Atoms: a new atom

    Taking a slot and linking the string at the front of its chain adds exactly one
    atom to what is interned. *)

Section intern.
Context `{SA : StrAlloc}.

(** ** Taking a slot *)

Definition take_slot (r : atom_request) (p : Z) : atom_request :=
  let l := default [] (atom_overlay r) in
  let rel := atom_overlay_free_index r in
  set_overlay r (setZ rel p l) (atom_overlay_size r) (atom_overlay_count r + 1) (atom_get_free (default 0 (slot_in l rel))).

Lemma take_slot_ok w p :
  atoms_ok w -> 0 < atom_overlay_free_index (req w) -> let w' := set_req w (take_slot (req w) p) in let i := atom_overlay_base (req w) + atom_overlay_free_index (req w) in
  atoms_ok w' /\ atoms_ext w w' /\ struct_at w' i = Some p /\ (exists l, atom_overlay (req w) = Some l /\ slot_in l (atom_overlay_free_index (req w)) <> None).
Proof.
  intros H Hpos w' i. destruct (ao_free _ H) as [fs Hfs]. inversion Hfs as [E | rel next fs' Hr Hs Hn Hc]; [lia | subst rel]. pose proof (ao_slots _ H) as Hsl.
  destruct (atom_overlay (req w)) as [l |] eqn:El; [| simpl in Hs; unfold slot_in in Hs; by destruct (0 <=? _)]. simpl in Hs, Hc. set (rel := atom_overlay_free_index (req w)) in *.
  pose proof (slot_in_range l rel _ Hs) as Hrange.
  assert (Hov : atom_overlay (req w') = Some (setZ rel p l)) by (unfold w', take_slot; simpl; by rewrite El).
  assert (Hfr : atom_overlay_free_index (req w') = next) by (unfold w', take_slot; simpl; rewrite El; simpl; fold rel; rewrite Hs; simpl; by apply get_set_free).
  assert (Hext : atoms_ext w w').
  { split; try done. intros j q s Hq Hqs Ht. split; [| by exists s]. unfold struct_at in *. rewrite Hov. change (atom_overlay_base (req w')) with (atom_overlay_base (req w)).
    destruct (j <? atom_overlay_base (req w)); [done |]. rewrite El in Hq. rewrite slot_in_set by done. destruct (Z.eqb_spec (j - atom_overlay_base (req w)) rel) as [E | E]; [| done].
    rewrite E, Hs in Hq. injection Hq as <-. pose proof (ao_even _ H (atom_set_free next) ltac:(by eexists)) as Hev. rewrite set_free_odd in Hev. done. }
  split; [| split; [done |]; split; [| exists l; split; [done | by rewrite Hs]]].
  - apply (atoms_ok_ext w w' H Hext); try done.
    + rewrite Hov. unfold lenZ, setZ. rewrite length_insert. exact Hsl.
    + rewrite Hov, Hfr. exists fs'. simpl. apply free_set; [done | | lia]. by apply (free_head_fresh l rel next).
    + intros q s Hq Ht. by exists s.
    + exact (ao_even _ H).
  - unfold struct_at. change (atom_overlay_base (req w')) with (atom_overlay_base (req w)). destruct (Z.ltb_spec i (atom_overlay_base (req w))); [unfold i in *; lia |].
    rewrite Hov, slot_in_set by done. replace (i - atom_overlay_base (req w)) with rel by (unfold i; lia). by rewrite Z.eqb_refl.
Qed.

(** ** Linking *)

Definition as_atom (s : JSString) (ty h next : Z) : JSString := set_first_weak_ref (set_atom_type (set_hash_next (set_hash s h) next) ty) 0.

(** The atom [i] with the string [p] at the front of its overlay chain. *)
Definition link_state (w : world) (p : Z) (s : JSString) (ty h i head : Z) : world :=
  set_req (set_strs w (<[p := as_atom s ty h head]> (strs w)))
    (set_hash_overlay (req w) (setZ (Z.land h (atom_hash_overlay_size (req w) - 1)) i (default [] (atom_hash_overlay (req w)))) (atom_hash_overlay_size (req w))).

Lemma as_atom_contents w refs p s ty h next q us :
  strings_ok w refs -> strs w !! p = Some s -> contents (strs w) q = Some us -> contents (<[p := as_atom s ty h next]> (strs w)) q = Some us.
Proof.
  intros H Hp Hc. assert (Hk : forall r, keeps (strs w) (<[p := as_atom s ty h next]> (strs w)) r) by (intros r; by apply (keeps_insert _ _ s)).
  by apply (contents_keeps (strs w)).
Qed.

Lemma link_ext w refs p s ty h i head : strings_ok w refs -> strs w !! p = Some s -> atom_type s = 0 -> atoms_ext w (link_state w p s ty h i head).
Proof.
  intros H Hp Ha. split; try done. intros j q t Hq Ht Hty. split; [done |]. exists t. assert (Hne : q <> p) by (intros ->; rewrite Hp in Ht; injection Ht as <-; unfold chained_type in Hty; lia).
  simpl. rewrite lookup_insert_ne by done. split_and!; try done. intros us. by apply (as_atom_contents w refs).
Qed.

(** Which atoms are on the chains of the overlay then. *)
Lemma link_chains w refs p s us ty lo i head l :
  atoms_ok w -> strings_ok w refs -> strs w !! p = Some s -> atom_type s = 0 -> contents (strs w) p = Some us -> is_base w p = false -> chained_type ty ->
  struct_at w i = Some p -> atom_overlay_base (req w) < i -> atom_hash_overlay (req w) = Some lo ->
  let h := atom_hash_of ty us in let size := atom_hash_overlay_size (req w) in let w' := link_state w p s ty h i head in
  slot_in lo (Z.land h (size - 1)) = Some head -> chain w head l -> Forall (atom_entry w size (Z.land h (size - 1)) false) l ->
  buckets_ok w' false (setZ (Z.land h (size - 1)) i lo) size /\
  forall j, on_chain w' (setZ (Z.land h (size - 1)) i lo) j <-> on_chain w lo j \/ j = i.
Proof.
  intros H Hstr Hp Ha Hc Hb Hty Hi Hio Hlo h size w' Hhead Hch Hf. pose proof (ao_over _ H) as Hov. rewrite Hlo in Hov. fold size in Hov. set (b := Z.land h (size - 1)) in *.
  assert (Hext : atoms_ext w w') by (by apply (link_ext w refs)).
  assert (Hi0 : i <> 0) by (destruct (ao_sizes _ H) as (Hs1 & _); unfold JS_ATOM_END in Hs1; lia).
  assert (Hp' : strs w' !! p = Some (as_atom s ty h head)) by (simpl; by rewrite lookup_insert_eq).
  assert (Hch' : chain w' i (i :: l)) by (apply (chain_cons w' i p (as_atom s ty h head)); try done; by apply (chain_ext w w' head l size b false)).
  assert (Hei : atom_entry w' size b false i).
  { exists p, (as_atom s ty h head), us. split_and!; try done. by apply (as_atom_contents w refs). }
  pose proof (slot_in_range lo b head Hhead) as Hr. destruct (buckets_ext w w' _ _ _ Hext Hov) as (Hl & Hk & Hbk).
  assert (Hbn : lo !! Z.to_nat b = Some head) by (unfold slot_in in Hhead; by destruct (0 <=? b)).
  split.
  - split; [unfold lenZ, setZ in *; by rewrite length_insert |]. split; [done |]. intros k hd Hkd. unfold setZ in Hkd. apply list_lookup_insert_Some in Hkd as [(Ek & Eh & _) | [Hne Hkd]].
    + subst hd. exists (i :: l). split; [done |]. replace (Z.of_nat k) with b by lia. constructor; [done |]. eapply Forall_impl; [exact Hf |]. intros j. by apply entry_ext.
    + by apply Hbk.
  - intros j. split.
    + intros (k & hd & lj & Hkd & Hcj & Hj). unfold setZ in Hkd. apply list_lookup_insert_Some in Hkd as [(Ek & Eh & _) | [Hne Hkd]].
      * subst hd. rewrite (chain_functional w' i lj _ Hcj Hch') in Hj. apply elem_of_cons in Hj as [-> | Hj]; [by right | left]. by exists (Z.to_nat b), head, l.
      * left. apply (on_chain_ext w w' false lo size); [done | done |]. by exists k, hd, lj.
    + unfold lenZ in Hr. intros [Ho | ->]; [| exists (Z.to_nat b), i, (i :: l); split; [apply list_lookup_insert_eq; lia |]; split; [done | left]].
      apply (on_chain_ext w w' false lo size) in Ho as (k & hd & lj & Hkd & Hcj & Hj); [| done | done]. destruct (decide (k = Z.to_nat b)) as [-> | Hne].
      * rewrite Hbn in Hkd. injection Hkd as <-. exists (Z.to_nat b), i, (i :: l). split; [apply list_lookup_insert_eq; lia |]. split; [done |]. right.
        by rewrite (chain_functional w' head l lj) by (done || by apply (chain_ext w w' head l size b false)).
      * exists k, hd, lj. split; [unfold setZ; by rewrite list_lookup_insert_ne |]. done.
Qed.

(** The invariant, and the one new atom. *)
Lemma link_ok w refs p s us ty i :
  atoms_ok w -> strings_ok w refs -> strs w !! p = Some s -> atom_type s = 0 -> contents (strs w) p = Some us -> is_base w p = false -> chained_type ty ->
  struct_at w i = Some p -> atom_overlay_base (req w) < i -> is_Some (atom_hash_overlay (req w)) -> (forall j, ~ interned w ty us j) ->
  let h := atom_hash_of ty us in
  exists head, slot_in (default [] (atom_hash_overlay (req w))) (Z.land h (atom_hash_overlay_size (req w) - 1)) = Some head /\
    let w' := link_state w p s ty h i head in
    atoms_ok w' /\ forall t vs j, interned w' t vs j <-> interned w t vs j \/ (t = ty /\ vs = us /\ j = i).
Proof.
  intros H Hstr Hp Ha Hc Hb Hty Hi Hio [lo Hlo] Hnone h. pose proof (ao_over _ H) as Hov. rewrite Hlo in Hov. set (size := atom_hash_overlay_size (req w)) in *.
  destruct (bucket_chain w false lo size h Hov (hash_of_nonneg ty us)) as (head & l & Hhead & Hch & Hf & _). exists head. rewrite Hlo. split; [done |]. intros w'.
  destruct (link_chains w refs p s us ty lo i head l H Hstr Hp Ha Hc Hb Hty Hi Hio Hlo Hhead Hch Hf) as [Hbk Hon]. fold h size in Hbk, Hon. change (link_state w p s ty h i head) with w' in Hbk, Hon.
  assert (Hext : atoms_ext w w') by (by apply (link_ext w refs)).
  assert (Hheads : heads_of w' false = setZ (Z.land h (size - 1)) i lo) by (unfold w'; simpl; by rewrite Hlo).
  assert (Hbase : forall j, on_chain w' (heads_of w' true) j <-> on_chain w (heads_of w true) j) by (intros j; exact (on_chain_ext w w' true _ _ j Hext (ao_base _ H))).
  assert (Hover : forall j, on_chain w' (heads_of w' false) j <-> on_chain w (heads_of w false) j \/ j = i) by (intros j; rewrite Hheads, Hon; simpl; by rewrite Hlo).
  assert (Hpi : forall t vs, interned w' t vs i -> t = ty /\ vs = us).
  { intros t vs [_ (q & u & Hq & Hu & Htt & Hcv)]. change (struct_at w i = Some q) in Hq. rewrite Hi in Hq. injection Hq as <-. unfold w' in Hu; simpl in Hu. rewrite lookup_insert_eq in Hu. injection Hu as <-.
    split; [done |]. unfold w' in Hcv; simpl in Hcv. rewrite (as_atom_contents w refs p s ty h head p us) in Hcv by done. congruence. }
  assert (Hshow : forall t vs j, (exists base, on_chain w (heads_of w base) j) -> interned w' t vs j <-> interned w t vs j).
  { intros t vs j (base & Ho). assert (Ho' : on_chain w' (heads_of w' base) j) by (destruct base; [by apply Hbase | apply Hover; by left]).
    destruct (heads_buckets w base H) as [E | [sz Hsz]]; [rewrite E in Ho; by destruct (not_on_nil _ _ Ho) |]. destruct (on_chain_entry w base _ sz j Hsz Ho) as (b0 & _ & q & u & xs & Hq & Hu & Hcx & Htu & _).
    destruct (ae_atom _ _ Hext j q u Hq Hu Htu) as (Hq' & u' & Hu' & _ & _ & Et & Hk). split; intros [_ (q1 & u1 & Hq1 & Hu1 & Ht1 & Hc1)].
    - split; [by exists base |]. exists q, u. rewrite Hq' in Hq1. injection Hq1 as <-. rewrite Hu' in Hu1. injection Hu1 as <-. rewrite (Hk xs Hcx) in Hc1. injection Hc1 as <-. split_and!; try done. congruence.
    - split; [by exists base |]. rewrite Hq in Hq1. injection Hq1 as <-. rewrite Hu in Hu1. injection Hu1 as <-. exists q, u'. split_and!; try done; [congruence | by apply Hk]. }
  assert (Hint : forall t vs j, interned w' t vs j <-> interned w t vs j \/ (t = ty /\ vs = us /\ j = i)).
  { intros t vs j. split.
    - intros Hj. pose proof Hj as [(base & Ho) _]. destruct base; [left; apply Hshow; [exists true; by apply Hbase | done] |].
      apply Hover in Ho as [Ho | ->]; [left; apply Hshow; [by exists false | done] | right; by destruct (Hpi t vs Hj)].
    - intros [Hj | (-> & -> & ->)]; [apply Hshow; [by destruct Hj | done] |]. split; [exists false; apply Hover; by right |]. exists p, (as_atom s ty h head).
      split; [done |]. split; [unfold w'; simpl; by rewrite lookup_insert_eq |]. split; [done |]. by apply (as_atom_contents w refs). }
  split; [| done]. split; try exact (ao_sizes _ H); try exact (ao_slots _ H); try exact (ao_free _ H).
  - exact (buckets_ext w w' _ _ _ Hext (ao_base _ H)).
  - unfold w'. simpl. rewrite Hlo. exact Hbk.
  - intros t vs j k Hj Hk. apply Hint in Hj, Hk. destruct Hj as [Hj | (-> & -> & ->)], Hk as [Hk | (Et & Ev & ->)]; try done; [by apply (ao_unique _ H t vs) | subst; by destruct (Hnone j) | by destruct (Hnone k)].
  - intros q u Hq Htu. change (is_base w' q) with (is_base w q). destruct (decide (q = p)) as [-> | Hne]; [exists i; rewrite Hb; split; [apply Hover; by right | done] |].
    unfold w' in Hq. simpl in Hq. rewrite lookup_insert_ne in Hq by done. destruct (ao_complete _ H q u Hq Htu) as (j & Ho & Hj). exists j. split; [| done].
    destruct (is_base w q); [by apply Hbase | apply Hover; by left].
  - intros q [u Hq]. unfold w' in Hq. simpl in Hq. apply lookup_insert_Some in Hq as [[<- _] | [_ Hq]]; apply (ao_even _ H); by eexists.
Qed.

(** ** Counts *)

Lemma strings_ok_req w refs r : strings_ok w refs -> strings_ok (set_req w r) refs.
Proof. intros H. destruct H. by split. Qed.

(** A string that becomes an atom in place. *)
Lemma ok_retag w refs p s u :
  strings_ok w refs -> strs w !! p = Some s -> atom_type s = 0 -> chained_type (atom_type u) -> same_text s u -> ref_count u = ref_count s ->
  strings_ok (set_strs w (<[p := u]> (strs w))) refs.
Proof.
  intros H Hp Ha Hty Hsu Hrc. pose proof Hsu as (_ & _ & Etl).
  assert (Hsl : forall q, slices (<[p := u]> (strs w)) q = slices (strs w) q) by (intros q; rewrite (slices_insert _ p s) by done; unfold is_slice_of; rewrite Etl; lia).
  assert (G : forall q v, <[p := u]> (strs w) !! q = Some v -> exists v0, strs w !! q = Some v0 /\ same_text v0 v /\ ref_count v = ref_count v0 /\ (v = v0 \/ q = p)).
  { intros q v Hq. apply lookup_insert_Some in Hq as [[<- <-] | [_ Hq]]; [exists s; split_and!; try done; by right | exists v; split_and!; try done; by left]. }
  split; unfold is_base; simpl; try exact (so_arena _ _ H).
  - intros q v Hq. destruct (G q v Hq) as (v0 & Hv0 & Hst & _ & Heq). destruct (so_str _ _ H q v0 Hv0) as [Hq0 Hok]. split; [done |].
    apply (str_ok_keeps (strs w) _ v0 v); [done | done | | intros r st _; by apply (keeps_insert _ _ s)].
    destruct Heq as [-> | ->]; [done |]. rewrite Hp in Hv0. injection Hv0 as <-. rewrite Ha. done.
  - intros q. destruct (so_refs _ _ H q) as [A B]. split; [done |]. intros Hr. destruct (decide (q = p)) as [-> | Hne]; [rewrite lookup_insert_eq; by eexists | rewrite lookup_insert_ne by done; by apply B].
  - intros q v Hq Hqb. destruct (G q v Hq) as (v0 & Hv0 & _ & -> & _). rewrite Hsl. by apply (so_count _ _ H).
  - intros q v Hq Hqb Hat. destruct (decide (q = p)) as [-> | Hne]; [rewrite lookup_insert_eq in Hq; injection Hq as <-; unfold chained_type in Hty; lia |].
    rewrite lookup_insert_ne in Hq by done. by apply (so_alive _ _ H q).
  - intros q v r st Hq Hv. destruct (G q v Hq) as (v0 & Hv0 & (_ & _ & E3) & _). apply (so_base _ _ H q v0 r st); [done | congruence].
Qed.

(** ** The run *)

Lemma slot_run w p l x :
  let r := slot_ensured (req w) in let rel := atom_overlay_free_index r in
  is_arena w = true -> atom_overlay r = Some l -> slot_in l rel = Some x -> 0 <= atom_overlay_base r + rel < 2 ^ 32 ->
  exists a, atom_slot p w = Done (0, set_heap_state w a) \/ atom_slot p w = Done (atom_overlay_base r + rel, set_req (set_heap_state w a) (take_slot r p)).
Proof.
  intros r rel Ha Hl Hx Hlt. destruct (ensure_slot_run w) as (ok & a & Eok). exists a. fold r in Eok.
  assert (E : atom_slot p w = (let* (ok, w1) := Done (ok, if ok : bool then set_req (set_heap_state w a) r else set_heap_state w a) in (if negb ok then sret 0
    else let^ r := sget req in let l := default [] (atom_overlay r) in let rel := atom_overlay_free_index r in let^ next := nth_word l rel in let^ l := set_word l rel p in
      smod (fun w => set_req w (set_overlay r l (atom_overlay_size r) (atom_overlay_count r + 1) (atom_get_free next))) ;^ sret (u32 (atom_overlay_base r + rel))) w1)).
  { unfold atom_slot. unfold sbind at 1, sget at 1. cbn [run_bind]. rewrite Ha. unfold sbind at 1. by rewrite Eok. }
  rewrite E. destruct ok; [right | by left]. cbn [run_bind negb]. set (w1 := set_req (set_heap_state w a) r). unfold sbind at 1, sget at 1. cbn [run_bind]. change (req w1) with r. fold rel. rewrite Hl. cbn [default].
  unfold sbind at 1. unfold from_option, id.  rewrite (nth_word_run w1 l rel x Hx). cbn [run_bind]. unfold sbind at 1. rewrite (set_word_run w1 l rel x p Hx). cbn [run_bind]. unfold sbind, smod. cbn [run_bind].
  rewrite u32_small by lia. unfold sret, take_slot. rewrite Hl. unfold default, from_option, id. fold rel. by rewrite Hx.
Qed.

Lemma link_run w p s i h :
  is_arena w = true -> strs w !! p = Some s -> let r := hash_ensured (req w) in let b := Z.land h (atom_hash_overlay_size r - 1) in
  forall lo head, atom_hash_overlay r = Some lo -> slot_in lo b = Some head ->
  exists a, link_atom p i h w = Done (false, set_heap_state w a) \/
    link_atom p i h w = Done (true, set_req (set_strs (set_heap_state w a) (<[p := set_hash_next s head]> (strs w))) (set_hash_overlay r (setZ b i lo) (atom_hash_overlay_size r))).
Proof.
  intros Ha Hp r b lo head Hlo Hhead. destruct (ensure_hash_run w) as (ok & a & Eok). exists a. fold r in Eok.
  assert (E : link_atom p i h w = (let* (ok, w1) := Done (ok, if ok : bool then set_req (set_heap_state w a) r else set_heap_state w a) in (if negb ok then sret false
    else let^ r := sget req in let l := default [] (atom_hash_overlay r) in let b := Z.land h (atom_hash_overlay_size r - 1) in let^ head := nth_word l b in let^ s := str_load p in
      str_store p (set_hash_next s head) ;^ let^ l := set_word l b i in smod (fun w => set_req w (set_hash_overlay r l (atom_hash_overlay_size r))) ;^ sret true) w1)).
  { unfold link_atom. unfold sbind at 1, sget at 1. cbn [run_bind]. rewrite Ha. unfold sbind at 1. by rewrite Eok. }
  rewrite E. destruct ok; [right | by left]. cbn [run_bind negb]. set (w1 := set_req (set_heap_state w a) r). unfold sbind at 1, sget at 1. cbn [run_bind]. change (req w1) with r. rewrite Hlo. fold b.
  unfold default, from_option, id. unfold sbind at 1. rewrite (nth_word_run w1 lo b head Hhead). cbn [run_bind]. unfold sbind at 1, str_load, sderef. change (strs w1) with (strs w). rewrite Hp. cbn [run_bind].
  unfold sbind at 1, str_store at 1, smod at 1. cbn [run_bind]. unfold sbind at 1. by rewrite (set_word_run _ lo b head i Hhead).
Qed.
End intern.
