(* ===== verification/AtomsTheorems.v ===== *)
(** * Atoms: what interning promises

    [__JS_NewAtom] during a request gives equal strings the same atom and different
    strings different ones, keeps the counts exact, and writes nothing of the
    base. *)

From stdpp Require Import base list numbers gmap fin_maps relations.
From Stdlib Require Import ZArith Lia.
From S2P Require Import Prelude StateRun BaseRanges Utf8 Utf8Proofs JsString JsStringProofs JsStringOps JsStringTheorems Atoms AtomsProofs AtomsIntern.

#[local] Open Scope Z_scope.
#[local] Open Scope st_scope.

Section theorems.
Context `{SA : StrAlloc}.

(** ** A slot and the chain heads *)

(** The overlay with a slot taken for [p] and its chain heads allocated. *)
Definition prepared (w : world) (p : Z) (a : salloc) : world := set_req (set_heap_state w a) (hash_ensured (take_slot (slot_ensured (req w)) p)).

Definition next_index (w : world) : Z := atom_overlay_base (req w) + atom_overlay_free_index (slot_ensured (req w)).

Lemma interned_same w w' t us i : atoms_ok w -> atoms_ext w w' -> atom_hash_overlay (req w') = atom_hash_overlay (req w) -> interned w' t us i <-> interned w t us i.
Proof. intros H He Eh. apply interned_ext; try done. intros []; simpl; [by rewrite (ae_tab _ _ He) | by rewrite Eh]. Qed.

Lemma slot_bounds w : atoms_ok w -> room w -> 0 < atom_overlay_free_index (slot_ensured (req w)) -> forall l x,
  atom_overlay (slot_ensured (req w)) = Some l -> slot_in l (atom_overlay_free_index (slot_ensured (req w))) = Some x -> atom_overlay_base (req w) < next_index w < 2 ^ 31.
Proof.
  intros H Hroom Hpos l x Hl Hx. unfold next_index. destruct (slot_ensured_ok w H Hroom) as (Hok & _). pose proof (ao_slots _ Hok) as Hsl. simpl in Hsl. rewrite Hl in Hsl. destruct Hsl as [Hlen _].
  apply slot_in_range in Hx. enough (atom_overlay_size (slot_ensured (req w)) <= 2 * Z.max ATOM_OVERLAY_INITIAL (atom_overlay_size (req w))) by (unfold room in Hroom; lia).
  unfold slot_ensured, ATOM_OVERLAY_INITIAL. destruct (negb _); [lia |]. simpl. destruct (Z.eqb_spec (atom_overlay_size (req w)) 0); [lia |]. unfold u32. pose proof (ao_slots _ H) as Hs.
  assert (0 <= atom_overlay_size (req w)) by (destruct (atom_overlay (req w)); lia). pose proof (Z.mod_le (atom_overlay_size (req w) * 2) (2 ^ 32)). lia.
Qed.

Lemma prepared_ok w p a :
  atoms_ok w -> room w -> let w0 := prepared w p a in
  atoms_ok w0 /\ (forall t us i, interned w0 t us i <-> interned w t us i) /\ struct_at w0 (next_index w) = Some p /\
  atom_overlay_base (req w) < next_index w < 2 ^ 31 /\ is_Some (atom_hash_overlay (req w0)) /\
  exists l x, atom_overlay (slot_ensured (req w)) = Some l /\ slot_in l (atom_overlay_free_index (slot_ensured (req w))) = Some x.
Proof.
  intros H Hroom w0. set (w1 := set_heap_state w a). assert (H1 : atoms_ok w1) by (by apply heap_state_ok).
  assert (E1 : atoms_ext w w1) by (apply (counts_ext w); try done; intros q s Hs _; split; [exists (ref_count s); by rewrite set_rc_same | done]).
  destruct (slot_ensured_ok w1 H1 Hroom) as (H2 & E2 & Hpos & Hbase & Hho & _). set (w2 := set_req w1 (slot_ensured (req w1))) in *.
  destruct (take_slot_ok w2 p H2 Hpos) as (H3 & E3 & Hst & l & Hl & Hx). set (w3 := set_req w2 (take_slot (req w2) p)) in *.
  destruct (hash_ensured_ok w3 H3) as (H4 & E4 & Hint & Hsome). destruct (slot_in l _) as [x |] eqn:Ex; [| done].
  split; [exact H4 |]. split.
  { intros t us i. transitivity (interned w3 t us i); [exact (Hint t us i) |]. rewrite (interned_same w2 w3) by done. rewrite (interned_same w1 w2) by done. by apply interned_same. }
  split. { assert (Hs : struct_at w3 (next_index w) = Some p) by (replace (next_index w) with (atom_overlay_base (req w2) + atom_overlay_free_index (req w2)) by (unfold next_index; rewrite Hbase; done); done).
    unfold struct_at in *. change (tab w0) with (tab w3). replace (atom_overlay_base (req w0)) with (atom_overlay_base (req w3)) by (symmetry; exact (ae_obase _ _ E4)).
    replace (atom_overlay (req w0)) with (atom_overlay (req w3)); [done |]. unfold w0, prepared, hash_ensured. simpl. by destruct (atom_hash_overlay _). }
  split; [by apply (slot_bounds w H Hroom Hpos l x) |]. split; [destruct Hsome as [lo Hlo]; by exists lo |]. by exists l, x.
Qed.

(** ** A string that becomes an atom in place *)

(** Only the string [p] was retagged, the overlay and the allocator may differ. *)
Definition retagged (w : world) (p : Z) (u : JSString) (r : atom_request) (a : salloc) : world :=
  {| strs := <[p := u]> (strs w); ranges := ranges w; is_arena := is_arena w; tab := tab w; req := r; heap_state := a |}.

Lemma new_atom_start w str s ty h :
  is_arena w = true -> strs w !! str = Some s -> str <> 0 -> atom_type s = 0 ->
  new_atom str ty h w = place_atom str str ty h (set_strs w (<[str := set_atom_type s ty]> (strs w))).
Proof.
  intros Harena Hp Hstr0 Ha. unfold new_atom. unfold sbind at 1, grow_atom_array. unfold sbind at 1, sget at 1. cbn [run_bind]. unfold sbind at 1, sget at 1. cbn [run_bind]. rewrite Harena. cbn [negb andb].
  unfold sret at 1. cbn [run_bind negb]. unfold sbind at 1, atom_string. destruct (Z.eqb_spec str 0); [done |]. cbn [negb]. unfold sbind at 1, str_load at 1, sderef at 1. rewrite Hp. cbn [run_bind]. rewrite Ha. cbn [Z.eqb].
  unfold sbind at 1, str_store at 1, smod at 1. cbn [run_bind]. unfold sret at 1. cbn [run_bind]. destruct (Z.eqb_spec str 0); [done |]. done.
Qed.

(** Once there is a slot. *)
Lemma place_atom_run w str s ty h i r a (w2 := retagged w str (as_atom s ty h i) r a) :
  is_arena w = true -> i <> 0 -> ty <> JS_ATOM_TYPE_SYMBOL ->
  let w1 := set_strs w (<[str := set_atom_type s ty]> (strs w)) in
  atom_slot str w1 = Done (i, set_req (set_heap_state w1 a) r) ->
  place_atom str str ty h w1 = (let* (ok, w3) := link_atom str i h w2 in (if ok : bool then sret i else done_atom str JS_ATOM_NULL) w3).
Proof.
  intros Harena Hi Hty w1 Hslot. unfold place_atom. unfold sbind at 1. rewrite Hslot. cbn [run_bind]. unfold sbind at 1, sget at 1. cbn [run_bind]. change (is_arena _) with (is_arena w). rewrite Harena.
  destruct (Z.eqb_spec i 0) as [E | _]; [lia |]. cbn [andb negb]. unfold sbind at 1, str_load, sderef. cbn [strs set_req set_heap_state w1 set_strs]. rewrite lookup_insert_eq. cbn [run_bind].
  unfold sbind at 1, str_store, smod. cbn [run_bind]. unfold sbind at 1, sret at 1. cbn [run_bind]. destruct (Z.eqb_spec ty JS_ATOM_TYPE_SYMBOL) as [E | _]; [done |]. cbn [negb]. unfold sbind at 1.
  replace (set_strs _ _) with w2; [done |]. unfold w2, retagged, set_strs. cbn. by rewrite insert_insert_eq.
Qed.

Lemma new_atom_run w refs str s us ty :
  strings_ok w refs -> atoms_ok w -> room w -> strs w !! str = Some s -> atom_type s = 0 -> contents (strs w) str = Some us -> is_base w str = false ->
  chained_type ty -> (forall j, ~ interned w ty us j) -> let h := atom_hash_of ty us in
  (exists u r a, new_atom str ty h w = done_atom str 0 (retagged w str u r a) /\ same_text s u /\ ref_count u = ref_count s /\ atom_type u = ty) \/
  (exists a head, let w' := link_state (prepared w str a) str s ty h (next_index w) head in
     new_atom str ty h w = Done (next_index w, w') /\ atoms_ok w' /\
     forall t vs j, interned w' t vs j <-> interned w t vs j \/ (t = ty /\ vs = us /\ j = next_index w)).
Proof.
  intros Hstr H Hroom Hp Ha Hc Hb Hty Hnone h. pose proof (so_arena _ _ Hstr) as Harena. destruct (so_str _ _ Hstr str s Hp) as [Hstr0 _].
  set (w1 := set_strs w (<[str := set_atom_type s ty]> (strs w))). rewrite (new_atom_start w str s ty h Harena Hp Hstr0 Ha). fold w1.
  destruct (prepared_ok w str (heap_state w) H Hroom) as (_ & _ & _ & Hnext & _ & l & x & Hl & Hx). destruct (ao_sizes _ H) as (Hs1 & _). unfold JS_ATOM_END in Hs1.
  assert (Hty3 : ty <> JS_ATOM_TYPE_SYMBOL) by (unfold chained_type in Hty; lia).
  set (r1 := slot_ensured (req w)) in *. assert (Hbase : atom_overlay_base r1 = atom_overlay_base (req w)) by (unfold r1, slot_ensured; by destruct (negb _)).
  destruct (slot_run w1 str l x Harena Hl Hx) as (a1 & Hslot); [change (slot_ensured (req w1)) with r1; rewrite Hbase; unfold next_index in Hnext; fold r1 in Hnext; lia |].
  change (slot_ensured (req w1)) with r1 in Hslot. rewrite Hbase in Hslot. change (atom_overlay_base (req w) + atom_overlay_free_index r1) with (next_index w) in Hslot.
  destruct Hslot as [Hslot | Hslot].
  { left. exists (set_atom_type s ty), (req w), a1. split; [| done]. unfold place_atom, sbind at 1. rewrite Hslot. cbn [run_bind]. unfold sbind at 1, sget at 1. cbn [run_bind]. change (is_arena _) with (is_arena w). by rewrite Harena. }
  set (i := next_index w) in *. unfold w1. rewrite (place_atom_run w str s ty h i (take_slot r1 str) a1 Harena) by (done || lia). set (w2 := retagged w str (as_atom s ty h i) (take_slot r1 str) a1).
  assert (Hlink : forall a, exists lo head, atom_hash_overlay (req (prepared w str a)) = Some lo /\ slot_in lo (Z.land h (atom_hash_overlay_size (req (prepared w str a)) - 1)) = Some head /\
    let w' := link_state (prepared w str a) str s ty h i head in atoms_ok w' /\ forall t vs j, interned w' t vs j <-> interned w t vs j \/ (t = ty /\ vs = us /\ j = i)).
  { intros a. destruct (prepared_ok w str a H Hroom) as (Hok & Hint & Hst & _ & [lo Hlo] & _).
    destruct (link_ok (prepared w str a) refs str s us ty i) as (head & Hh & Hok' & Hint'); try done; [by apply strings_ok_req, ok_heap_state | | intros j; rewrite Hint; by apply Hnone |].
    - assert (Eb : atom_overlay_base (req (prepared w str a)) = atom_overlay_base r1) by (unfold prepared; cbn [req set_req]; fold r1; unfold hash_ensured; by destruct (atom_hash_overlay (take_slot r1 str))). lia.
    - exists lo, head. rewrite Hlo in Hh. split; [done |]. split; [done |]. split; [done |]. intros t vs j. etransitivity; [apply Hint' | by rewrite Hint]. }
  destruct (Hlink (heap_state w)) as (lo & head & Hlo & Hhead & _). assert (Hp2 : strs w2 !! str = Some (as_atom s ty h i)) by (simpl; by rewrite lookup_insert_eq).
  destruct (link_run w2 str (as_atom s ty h i) i h Harena Hp2 lo head Hlo Hhead) as (a2 & [E | E]); rewrite E; cbn [run_bind].
  { left. exists (as_atom s ty h i), (take_slot r1 str), a2. done. }
  right. destruct (Hlink a2) as (lo' & head' & Hlo' & Hhead' & Hok). exists a2, head'. change (req (prepared w str a2)) with (req (prepared w str (heap_state w))) in Hlo', Hhead'. rewrite Hlo in Hlo'. injection Hlo' as <-. rewrite Hhead in Hhead'. injection Hhead' as <-. split; [| done].
  unfold sret. do 2 f_equal. unfold link_state. change (req (prepared w str a2)) with (req (prepared w str (heap_state w))). rewrite Hlo. simpl strs. by rewrite insert_insert_eq.
Qed.

(** ** Atoms that exist *)

Lemma interned_index w t us i p :
  atoms_ok w -> room w -> interned w t us i -> struct_at w i = Some p -> 0 < i < 2 ^ 31 /\ (AtomIsConst i = true -> is_base w p = true).
Proof.
  intros H Hroom [(base & Ho) _] Hp. destruct (ao_sizes _ H) as (Hs1 & _). unfold room, ATOM_OVERLAY_INITIAL, JS_ATOM_END in *.
  destruct (heads_buckets w base H) as [E | [size Hb]]; [rewrite E in Ho; by destruct (not_on_nil _ _ Ho) |].
  destruct (on_chain_entry w base _ size i Hb Ho) as (b & _ & p' & s & vs & Hp' & _ & _ & _ & _ & _ & Hbase & Hi). rewrite Hp in Hp'. injection Hp' as <-.
  assert (Hlt : 0 < i < 2 ^ 31).
  { destruct base; [lia |]. split; [lia |]. unfold struct_at in Hp. destruct (Z.ltb_spec i (atom_overlay_base (req w))); [lia |]. pose proof (ao_slots _ H) as Hsl.
    destruct (atom_overlay (req w)); [| done]. apply slot_in_range in Hp. lia. }
  split; [done |]. unfold AtomIsConst, JS_ATOM_END, i32. rewrite Z.mod_small by lia. intros Hc. apply Z.ltb_lt in Hc. destruct base; [done | lia].
Qed.

(** What a request may not touch: the table, and every string of the base. *)
Definition frozen (w w' : world) : Prop :=
  tab w' = tab w /\ ranges w' = ranges w /\ forall q, is_base w q = true -> strs w' !! q = strs w !! q.

Lemma freed_frozen w refs p h' : strings_ok w refs -> 1 <= refs p -> js_free_string p w = Done (tt, set_strs w h') -> frozen w (set_strs w h').
Proof.
  intros H Hr Hrun. split; [done |]. split; [done |]. intros q Hb. simpl. destruct (strs w !! q) as [t |] eqn:Hq.
  - destruct (free_atom_kept w refs p h' q t H Hr Hrun Hq) as [(n & Hn & En) _]; [by right |]. rewrite Hn, (En Hb). by rewrite set_rc_same.
  - destruct (h' !! q) as [t' |] eqn:Hq'; [| done]. destruct (free_old w refs p h' q t' H Hr Hrun Hq') as (t & Ht & _). congruence.
Qed.

Lemma frozen_trans w1 w2 w3 : frozen w1 w2 -> frozen w2 w3 -> frozen w1 w3.
Proof.
  intros (T1 & R1 & S1) (T2 & R2 & S2). split; [congruence |]. split; [congruence |]. intros q Hb. rewrite S2; [by apply S1 | unfold is_base in *; by rewrite R1].
Qed.

(** Finding an atom takes a reference. *)
Lemma found_ok w refs i p s :
  strings_ok w refs -> atoms_ok w -> strs w !! p = Some s -> (AtomIsConst i = true -> is_base w p = true) -> let w' := found_state w i p s in
  strings_ok w' (take_ref refs p) /\ atoms_ok w' /\ atoms_ext w w' /\ frozen w w' /\ req w' = req w.
Proof.
  intros Hs H Hp Hc w'. destruct (so_refs _ _ Hs p) as [Hr _]. unfold w', found_state. destruct (AtomIsConst i).
  - split; [apply ok_base_ref; [done | by apply Hc | by eexists | lia] |]. split; [done |]. split; [| done].
    apply (counts_ext w); try done. intros q t Hq _. split; [exists (ref_count t); by rewrite set_rc_same | done].
  - destruct (rc_inc_atoms w p s H Hp) as [Ha He]. destruct (rc_inc_fields w p s) as (E1 & E2 & E3). split; [by apply rc_inc_ok |]. split; [done |]. split; [done |]. split; [| done].
    split; [done |]. split; [done |]. intros q Hb. unfold rc_incremented. destruct (is_base w p) eqn:Eb; [done |]. simpl. by rewrite lookup_insert_ne by congruence.
Qed.

Lemma take_drop_swap w refs p q : strings_ok w (drop_ref (take_ref refs p) q) -> strings_ok w (take_ref (drop_ref refs q) p).
Proof. apply strings_ok_ext. intros x. unfold take_ref, drop_ref. destruct (x =? p), (x =? q); lia. Qed.

(** The result of interning [us] with the reference on [str]. *)
Definition intern_result (w : world) (refs : Z -> Z) (str ty : Z) (us : list Z) (i : Z) (w' : world) : Prop :=
  frozen w w' /\
  if i =? 0 then strings_ok w' (drop_ref refs str) /\ (forall j, ~ interned w ty us j)
  else atoms_ok w' /\ (exists p, struct_at w' i = Some p /\ strings_ok w' (take_ref (drop_ref refs str) p)) /\
    forall t vs j, interned w' t vs j <-> interned w t vs j \/ (t = ty /\ vs = us /\ j = i).

Lemma intern_found w refs str ty us i p s :
  strings_ok w refs -> atoms_ok w -> room w -> 1 <= refs str -> interned w ty us i -> struct_at w i = Some p -> strs w !! p = Some s ->
  exists w', done_atom str i (found_state w i p s) = Done (i, w') /\ intern_result w refs str ty us i w'.
Proof.
  intros Hstr H Hroom Hr Hint Hp Hs. destruct (interned_index w ty us i p H Hroom Hint Hp) as [Hi Hconst]. destruct (found_ok w refs i p s Hstr H Hs Hconst) as (Hs1 & H1 & E1 & F1 & Q1).
  set (w1 := found_state w i p s) in *. assert (Hr1 : 1 <= take_ref refs p str) by (unfold take_ref; destruct (str =? p); lia).
  destruct (free_ok w1 _ str Hs1 Hr1) as (h' & Erun & Hs2 & _). destruct (free_atoms w1 _ str h' H1 Hs1 Hr1 Erun) as [H2 E2].
  assert (Hstr0 : str <> 0) by (destruct (proj2 (so_refs _ _ Hstr str) Hr) as [t Ht]; by destruct (so_str _ _ Hstr str t Ht)).
  exists (set_strs w1 h'). split; [unfold done_atom; destruct (Z.eqb_spec str 0); [done |]; cbn [negb]; unfold sbind; by rewrite Erun |].
  split; [apply (frozen_trans w w1); [done | by apply (freed_frozen w1 (take_ref refs p) str)] |]. destruct (Z.eqb_spec i 0); [lia |]. split; [done |].
  assert (Hsame : forall t vs j, interned (set_strs w1 h') t vs j <-> interned w t vs j).
  { intros t vs j. rewrite (interned_same w1 (set_strs w1 h')) by done. apply (interned_same w w1); [done | done | by rewrite Q1]. }
  split.
  - exists p. split; [| by apply take_drop_swap]. unfold struct_at in *. change (tab (set_strs w1 h')) with (tab w1). change (req (set_strs w1 h')) with (req w1). by rewrite Q1, (ae_tab _ _ E1).
  - intros t vs j. rewrite Hsame. split; [by left |]. intros [Hj | (-> & -> & ->)]; done.
Qed.

Lemma intern_new w refs str s us ty :
  strings_ok w refs -> atoms_ok w -> room w -> 1 <= refs str -> strs w !! str = Some s -> atom_type s = 0 -> contents (strs w) str = Some us -> is_base w str = false ->
  chained_type ty -> (forall j, ~ interned w ty us j) ->
  exists i w', new_atom str ty (atom_hash_of ty us) w = Done (i, w') /\ intern_result w refs str ty us i w'.
Proof.
  intros Hstr H Hroom Hr Hp Ha Hc Hb Hty Hnone. destruct (prepared_ok w str (heap_state w) H Hroom) as (_ & _ & _ & Hnext & _). destruct (ao_sizes _ H) as (Hs1 & _). unfold JS_ATOM_END in Hs1.
  assert (Hfr : forall u r a, frozen w (retagged w str u r a)) by (intros u r a; split; [done |]; split; [done |]; intros q Hbq; simpl; by rewrite lookup_insert_ne by congruence).
  destruct (new_atom_run w refs str s us ty Hstr H Hroom Hp Ha Hc Hb Hty Hnone) as [(u & r & a & E & Hst & Hrc & Hat) | (a & head & E & Hok & Hint)].
  - set (w1 := retagged w str u r a) in *. assert (Hs : strings_ok w1 refs) by (change w1 with (set_req (set_strs (set_heap_state w a) (<[str := u]> (strs (set_heap_state w a)))) r); apply strings_ok_req, ok_retag with s; [by apply ok_heap_state | done | done | by rewrite Hat | done | done]).
    destruct (free_ok w1 refs str Hs Hr) as (h' & Erun & Hs' & _). destruct (so_str _ _ Hstr str s Hp) as [Hstr0 _]. exists 0, (set_strs w1 h').
    split; [rewrite E; unfold done_atom; destruct (Z.eqb_spec str 0); [done |]; cbn [negb]; unfold sbind; by rewrite Erun |].
    split; [apply (frozen_trans w w1); [apply Hfr | by apply (freed_frozen w1 refs str)] |]. by rewrite Z.eqb_refl.
  - eexists _, _. split; [exact E |]. split; [exact (Hfr (as_atom s ty (atom_hash_of ty us) head) _ a) |]. destruct (Z.eqb_spec (next_index w) 0); [lia |]. split; [done |]. split; [| done].
    destruct (prepared_ok w str a H Hroom) as (_ & _ & Hst & _). exists str. split; [exact Hst |]. apply (strings_ok_ext _ refs); [intros q; unfold take_ref, drop_ref; destruct (q =? str); lia |].
    apply strings_ok_req. apply ok_retag with s; try done. by apply strings_ok_req, ok_heap_state.
Qed.

Lemma intern_total w refs str s us ty :
  strings_ok w refs -> atoms_ok w -> room w -> 1 <= refs str -> strs w !! str = Some s -> contents (strs w) str = Some us -> chained_type ty ->
  (atom_type s = 0 /\ is_base w str = false) \/ atom_type s = ty ->
  exists i w', NewAtom str ty w = Done (i, w') /\ intern_result w refs str ty us i w'.
Proof.
  intros Hstr H Hroom Hr Hp Hc Hty Hcase.
  unfold NewAtom. destruct (Z.ltb_spec ty JS_ATOM_TYPE_SYMBOL) as [_ | L]; [| unfold chained_type in Hty; lia]. unfold sbind at 1, str_load, sderef. rewrite Hp. cbn [run_bind].
  destruct (Z.eqb_spec (atom_type s) ty) as [Et | Et].
  - destruct (get_atom_index_run w str s us H Hp ltac:(by rewrite Et) Hc) as (i & E & Hint & Hst & Hi). rewrite Et in Hint. destruct (interned_index w ty us i str H Hroom Hint Hst) as [_ Hconst].
    exists i, w. split; [unfold sbind at 1; rewrite E; cbn [run_bind]; destruct (AtomIsConst i); [unfold sbind; rewrite (rc_dec_run w str s Hp), (Hconst eq_refl); done | done] |].
    split; [done |]. destruct (Z.eqb_spec i 0); [done |]. split; [done |]. split.
    + exists str. split; [done |]. apply (strings_ok_ext _ refs); [intros q; unfold take_ref, drop_ref; destruct (q =? str); lia | done].
    + intros t vs j. split; [by left |]. intros [Hj | (-> & -> & ->)]; done.
  - destruct Hcase as [[Ha Hb] | Hcase]; [| done]. destruct (contents_string w refs str us Hstr Hc) as (s' & Hs' & Hl). rewrite Hp in Hs'. injection Hs' as <-.
    unfold sbind at 1, hash_string. unfold sbind at 1. rewrite (str_units_run w str us Hc). cbn [run_bind]. unfold sret at 1. cbn [run_bind]. change (Z.land (hash_units us ty) JS_ATOM_HASH_MASK) with (atom_hash_of ty us).
    unfold sbind at 1. rewrite Hl. destruct (find_atom_run w _ ty us H (same_string_tests w refs str us ty Hstr Hc) (hash_of_nonneg ty us)) as [(i & p & t & Hint & Hst & Ht & Hi & E) | [Hnone E]];
      rewrite E; cbn [run_bind].
    + destruct (Z.eqb_spec i 0); [done |]. cbn [negb]. exists i. by apply (intern_found w refs str ty us i p t).
    + cbn [negb Z.eqb]. by apply (intern_new w refs str s us ty).
Qed.

End theorems.

(** ** A concrete table *)

Module AtomDemo.
Import StrDemo.

(** The base has the empty string as its atom 48, and a string that is no atom. *)
Definition empty1 : JSString := mkString 1 0 false (atom_hash_of JS_ATOM_TYPE_STRING []) JS_ATOM_TYPE_STRING 0 0 (Cells [0]).
Definition heap1 : gmap Z JSString :=
  <[1000 := empty1]>
  (<[1016 := mkString 1 1 false 0 0 0 0 (Cells [107; 0])]>
  (<[3000 := mkString 2 2 false 0 0 0 0 (Cells [104; 105; 0])]> ∅)).

Definition table1 : atom_table :=
  {| atom_hash := [48]; atom_hash_size := 1; atom_array := replicate 48 1 ++ [1000] ++ replicate 193 1; atom_size := 242; atom_count := 1; atom_count_resize := 2; atom_free_index := 0 |}.
Definition request1 : atom_request :=
  init_request_atoms {| atom_overlay := None; atom_overlay_base := 0; atom_overlay_size := 0; atom_overlay_count := 0; atom_overlay_free_index := 0;
    atom_hash_overlay := None; atom_hash_overlay_size := 0 |} table1.

Definition world1 (quota : Z) : world :=
  {| strs := heap1; ranges := ranges0; is_arena := true; tab := table1; req := request1; heap_state := (4000, quota) |}.
Definition refs1 (p : Z) : Z := if p =? 3000 then 2 else 0.

Lemma heap1_cases p s : heap1 !! p = Some s -> p = 1000 \/ p = 1016 \/ p = 3000.
Proof. unfold heap1. rewrite !lookup_insert_Some, lookup_empty. intuition congruence. Qed.

Ltac heap1_cases H := destruct (heap1_cases _ _ H) as [-> | [-> | ->]]; vm_compute in H; injection H as <-.

Lemma strings1 quota : strings_ok (world1 quota) refs1.
Proof.
  split; simpl; [done | | | | |].
  - intros p s Hp. heap1_cases Hp; (split; [lia |]); (split; [simpl; lia |]); simpl; (split_and!; [unfold lenZ; simpl; lia | repeat constructor; unfold unit_ok; lia | done]).
  - intros p. unfold refs1. destruct (Z.eqb_spec p 3000) as [-> | H1]; [split; [lia |]; intros _; by eexists | split; lia].
  - intros p s Hp Hb. heap1_cases Hp; try reflexivity; by vm_compute in Hb.
  - intros p s Hp Hb Ha. heap1_cases Hp; simpl; lia.
  - intros p s q st Hp Ht Hb. heap1_cases Hp; discriminate Ht.
Qed.

Lemma chain1 quota : chain (world1 quota) 48 [48].
Proof. apply (chain_cons _ 48 1000 empty1); [done | reflexivity | reflexivity |]. constructor. Qed.

Lemma on_chain1 quota base i : on_chain (world1 quota) (heads_of (world1 quota) base) i -> i = 48.
Proof.
  intros (b & head & l & Hh & Hc & Hi). destruct base; [| done]. simpl in Hh. destruct b as [| b]; [| done]. injection Hh as <-.
  rewrite (chain_functional _ _ _ _ Hc (chain1 quota)) in Hi. by apply list_elem_of_singleton in Hi.
Qed.

Lemma atoms1 quota : atoms_ok (world1 quota).
Proof.
  split; try done.
  - split; [done |]. split; [by exists 0 |]. intros b head Hh. simpl in Hh. destruct b as [| b]; [| done]. injection Hh as <-. exists [48]. split; [apply chain1 |].
    constructor; [| constructor]. exists 1000, empty1, []. split_and!; done.
  - exists []. constructor.
  - intros t us i j [(b & Hi) _] [(b' & Hj) _]. apply on_chain1 in Hi, Hj. congruence.
  - intros p s Hp Ht. simpl in Hp. heap1_cases Hp; try (unfold chained_type in Ht; simpl in Ht; lia). exists 48. split; [| done].
    exists 0%nat, 48, [48]. split; [done |]. split; [apply chain1 | left].
  - intros p [s Hp]. simpl in Hp. heap1_cases Hp; done.
Qed.


(** ** Where the code falls short *)

(** A string of the base that is not an atom becomes one in place when a request
    uses it as a property name: base memory is written, and the string names an
    atom of an overlay that is gone when the next request starts, which aborts on
    it. *)
Theorem base_string_retagged :
  exists i w', NewAtom 1016 JS_ATOM_TYPE_STRING (world1 5) = Done (i, w') /\ 242 <= i /\ is_base (world1 5) 1016 = true /\
    strs w' !! 1016 <> strs (world1 5) !! 1016 /\ NewAtom 1016 JS_ATOM_TYPE_STRING (set_req w' request1) = Aborts.
Proof. eexists _, _. split; [vm_compute; reflexivity |]. split_and!; [lia | vm_compute; reflexivity | vm_compute; discriminate | vm_compute; reflexivity]. Qed.

(** When the overlay cannot be allocated, the string stays marked as an atom
    although it is in no table: interning it again aborts. *)
Theorem refused_atom_aborts_later :
  exists w', NewAtom 3000 JS_ATOM_TYPE_STRING (world1 0) = Done (JS_ATOM_NULL, w') /\
    NewAtom 3000 JS_ATOM_TYPE_STRING (set_heap_state w' (4000, 5)) = Aborts.
Proof. eexists. split; [vm_compute; reflexivity |]. vm_compute. reflexivity. Qed.
End AtomDemo.

(** A symbol cannot be made from an atom of the overlay: the assertion
    [descr < rt->atom_size] counts the base's atoms only. *)
Theorem overlay_atom_makes_no_symbol `{SA : StrAlloc} w descr ty :
  atom_size (tab w) <= descr -> JS_NewSymbolFromAtom descr ty w = Aborts.
Proof.
  intros Hd. unfold JS_NewSymbolFromAtom, sbind at 1, slift. destruct (assert_ _) as [[] | |] eqn:E; cbn [run_bind]; [| done |].
  - unfold sbind, sget. cbn [run_bind]. destruct (Z.ltb_spec descr (atom_size (tab w))); [lia | done].
  - unfold assert_ in E. by destruct (negb _).
Qed.

(** * Atoms: from request to request

    Whatever a request interns, the next request starts from the base's atoms and
    from those only. *)

Section requests.
Context `{SA : StrAlloc}.

(** ** The next request *)

Definition no_atoms : atom_request :=
  {| atom_overlay := None; atom_overlay_base := 0; atom_overlay_size := 0; atom_overlay_count := 0; atom_overlay_free_index := 0;
     atom_hash_overlay := None; atom_hash_overlay_size := 0 |}.

(** The request arena is reset, the base stays. *)
Definition next_request (w : world) (a : salloc) : world :=
  {| strs := filter (fun kv => is_base w kv.1 = true) (strs w); ranges := ranges w; is_arena := is_arena w; tab := tab w;
     req := init_request_atoms no_atoms (tab w); heap_state := a |}.

Lemma next_frozen w w' a : is_arena w' = is_arena w -> frozen w w' -> next_request w' a = next_request w a.
Proof.
  intros Ha (Et & Er & Hs). unfold next_request. rewrite Et, Er, Ha. f_equal. apply map_eq. intros q. apply option_eq. intros s. rewrite !map_lookup_filter_Some. simpl. unfold is_base in *. rewrite Er.
  split; intros [Hq Hb]; (split; [| done]); [by rewrite <- Hs | by rewrite Hs].
Qed.

Section next.
Context (w : world) (refs : Z -> Z) (a : salloc) (Hstr : strings_ok w refs) (H : atoms_ok w).
Abbreviation w1 := (next_request w a).

Lemma next_string p s : strs w1 !! p = Some s <-> strs w !! p = Some s /\ is_base w p = true.
Proof. apply map_lookup_filter_Some. Qed.

Lemma next_keeps p : is_base w p = true -> keeps (strs w) (strs w1) p.
Proof. intros Hb s Hs. exists s. split; [by apply next_string | done]. Qed.

Lemma next_contents p us : is_base w p = true -> contents (strs w) p = Some us -> contents (strs w1) p = Some us.
Proof.
  intros Hb Hc. apply (contents_keeps (strs w)); [done | by apply next_keeps |]. intros s q st Hs Ht. apply next_keeps. by apply (so_base _ _ Hstr p s q st).
Qed.

Lemma next_strings : strings_ok w1 (fun _ => 0).
Proof.
  split; [exact (so_arena _ _ Hstr) | | intros p; split; lia | | |].
  - intros p s Hp. apply next_string in Hp as [Hp Hb]. destruct (so_str _ _ Hstr p s Hp) as [Hp0 Hok]. split; [done |].
    apply (str_ok_keeps (strs w) _ s s); try done. intros q st Ht. apply next_keeps. by apply (so_base _ _ Hstr p s q st).
  - intros p s Hp Hb. apply next_string in Hp as [_ Hb']. change (is_base w p = false) in Hb. congruence.
  - intros p s Hp Hb. apply next_string in Hp as [_ Hb']. change (is_base w p = false) in Hb. congruence.
  - intros p s q st Hp Ht Hb. apply next_string in Hp as [Hp _]. by apply (so_base _ _ Hstr p s q st).
Qed.

Lemma next_struct i p : i < atom_overlay_base (req w) -> struct_at w1 i = Some p <-> struct_at w i = Some p.
Proof.
  intros Hi. destruct (ao_sizes _ H) as (_ & E & _). unfold struct_at. simpl. rewrite <- E. by destruct (Z.ltb_spec i (atom_overlay_base (req w))); [| lia].
Qed.

Lemma next_chain size b head l :
  chain w head l -> Forall (atom_entry w size b true) l -> chain w1 head l /\ Forall (atom_entry w1 size b true) l.
Proof.
  destruct (ao_sizes _ H) as (_ & E & _). induction 1 as [| i p s l Hi Hp Hs Hc IH]; intros Hf; [split; constructor |]. apply Forall_cons in Hf as [He Hf].
  destruct He as (p' & s' & us & Hp' & Hs' & Hcu & Ht & Hh & Hbk & Hb & Hr). rewrite Hp in Hp'. injection Hp' as <-. rewrite Hs in Hs'. injection Hs' as <-. destruct (IH Hf) as [Hc1 Hf1].
  assert (Hp1 : struct_at w1 i = Some p) by (apply next_struct; [lia | done]). assert (Hs1 : strs w1 !! p = Some s) by (by apply next_string).
  split; [by apply (chain_cons w1 i p s) |]. constructor; [| done]. exists p, s, us. split_and!; try done; [by apply next_contents | | simpl; lia]. lia.
Qed.

Lemma next_on_chain i : on_chain w1 (heads_of w1 true) i <-> on_chain w (heads_of w true) i.
Proof.
  destruct (ao_base _ H) as (_ & _ & Hb). split; intros (b & head & l & Hh & Hc & Hi); destruct (Hb b head Hh) as (l0 & Hc0 & Hf); destruct (next_chain _ _ head l0 Hc0 Hf) as [Hc1 _].
  - rewrite (chain_functional _ _ _ _ Hc Hc1) in Hi. by exists b, head, l0.
  - rewrite (chain_functional _ _ _ _ Hc Hc0) in Hi. by exists b, head, l0.
Qed.

(** The next request sees the atoms of the base. *)
Lemma next_interned t us i : interned w1 t us i <-> interned w t us i /\ i < atom_overlay_base (req w).
Proof.
  assert (Hlt : on_chain w (heads_of w true) i -> exists p s vs, i < atom_overlay_base (req w) /\ struct_at w i = Some p /\ strs w !! p = Some s /\ contents (strs w) p = Some vs /\ is_base w p = true).
  { intros Ho. destruct (on_chain_entry w true _ _ i (ao_base _ H) Ho) as (b & _ & p & s & vs & Hp & Hs & Hc & _ & _ & _ & Hb & Hi). exists p, s, vs. split_and!; try done. lia. }
  split.
  - intros [([] & Ho) (p & s & Hp & Hs & Ht & Hc)]; [| by destruct (not_on_nil _ _ Ho)]. apply next_on_chain in Ho. destruct (Hlt Ho) as (p0 & s0 & vs & Hi & Hp0 & Hs0 & Hc0 & Hb).
    split; [| done]. apply next_struct in Hp; [| done]. rewrite Hp0 in Hp. injection Hp as <-. apply next_string in Hs as [Hs _]. rewrite Hs0 in Hs. injection Hs as <-. rewrite (next_contents p0 vs Hb Hc0) in Hc.
    injection Hc as <-. split; [by exists true | by exists p0, s0].
  - intros [[(base & Ho) (p & s & Hp & Hs & Ht & Hc)] Hi]. destruct base.
    + destruct (Hlt Ho) as (p0 & s0 & vs & _ & Hp0 & Hs0 & Hc0 & Hb). rewrite Hp in Hp0. injection Hp0 as <-. split; [exists true; by apply next_on_chain |]. exists p, s.
      split_and!; [by apply next_struct | by apply next_string | done | by apply next_contents].
    + destruct (heads_buckets w false H) as [E | [size Hb]]; [rewrite E in Ho; by destruct (not_on_nil _ _ Ho) |].
      destruct (on_chain_entry w false _ size i Hb Ho) as (b & _ & p' & s' & vs & _ & _ & _ & _ & _ & _ & _ & Hgt). lia.
Qed.

Lemma next_atoms : atoms_ok w1.
Proof.
  destruct (ao_sizes _ H) as (Hs1 & Hs2 & Hs3). split; try done; simpl.
  - split; [lia | done].
  - destruct (ao_base _ H) as (Hl & Hk & Hb). split; [done |]. split; [done |]. intros b head Hh. destruct (Hb b head Hh) as (l & Hc & Hf). exists l. by apply next_chain.
  - exists []. constructor.
  - intros t us i j Hi Hj. apply next_interned in Hi as [Hi _], Hj as [Hj _]. by apply (ao_unique _ H t us).
  - intros p s Hp Ht. apply next_string in Hp as [Hp Hb]. destruct (ao_complete _ H p s Hp Ht) as (i & Ho & Hi). change (is_base w1 p) with (is_base w p). rewrite Hb in Ho |- *. exists i.
    split; [by apply next_on_chain |]. destruct (on_chain_entry w true _ _ i (ao_base _ H) Ho) as (b & _ & p' & s' & vs & _ & _ & _ & _ & _ & _ & _ & Hr). apply next_struct; [lia | done].
  - intros p [s Hp]. apply next_string in Hp as [Hp _]. apply (ao_even _ H). by eexists.
Qed.
End next.

(** ** The steps of a request *)

Context (rng : base_ranges) {SL : StrAllocLaws rng}.

(** Making strings, interning strings that are held, duplicating and releasing
    atoms, releasing strings; [refs] are the references the request holds. *)
Inductive atom_step : world * (Z -> Z) -> world * (Z -> Z) -> Prop :=
  | step_new8 w refs us p w' :
      Forall (unit_ok false) us -> lenZ us < 2 ^ 31 -> js_new_string8_len us w = Done (RString p, w') -> atom_step (w, refs) (w', take_ref refs p)
  | step_new16 w refs us p w' :
      Forall (unit_ok true) us -> lenZ us < 2 ^ 31 -> js_new_string16_len us w = Done (RString p, w') -> atom_step (w, refs) (w', take_ref refs p)
  | step_intern w refs str s ty i p w' :
      room w -> 1 <= refs str -> strs w !! str = Some s -> chained_type ty -> (atom_type s = 0 /\ is_base w str = false) \/ atom_type s = ty ->
      NewAtom str ty w = Done (i, w') -> i <> JS_ATOM_NULL -> struct_at w' i = Some p -> atom_step (w, refs) (w', take_ref (drop_ref refs str) p)
  | step_dup w refs t us i p w' :
      room w -> interned w t us i -> struct_at w i = Some p -> JS_DupAtom i w = Done (i, w') -> atom_step (w, refs) (w', take_ref refs p)
  | step_free_atom w refs t us i p w' :
      room w -> interned w t us i -> struct_at w i = Some p -> 1 <= refs p -> JS_FreeAtom i w = Done (tt, w') -> atom_step (w, refs) (w', drop_ref refs p)
  | step_free w refs p w' :
      1 <= refs p -> js_free_string p w = Done (tt, w') -> atom_step (w, refs) (w', drop_ref refs p).

Definition request_ok (w : world) (refs : Z -> Z) : Prop := strings_ok w refs /\ atoms_ok w /\ ranges w = rng.

(** What a step keeps. *)
Definition step_keeps (w w' : world) : Prop :=
  frozen w w' /\ is_arena w' = is_arena w /\ atom_overlay_base (req w') = atom_overlay_base (req w) /\ forall t us i, interned w t us i -> interned w' t us i.

Lemma ext_keeps w w' : atoms_ok w -> atoms_ext w w' -> frozen w w' -> is_arena w' = is_arena w -> req w' = req w -> step_keeps w w'.
Proof.
  intros H He Hf Ha Hr. split; [done |]. split; [done |]. split; [by rewrite Hr |]. intros t us i. apply (interned_same w w'); [done | done | by rewrite Hr].
Qed.

Lemma makes_step m w refs wide us p w' :
  request_ok w refs -> makes rng m w wide us -> Forall (unit_ok wide) us -> lenZ us < 2 ^ 31 -> m w = Done (RString p, w') -> request_ok w' (take_ref refs p) /\ step_keeps w w'.
Proof.
  intros (Hs & H & Hrng) (a & [E | (q & j & [Hq Hev] & Hf & Hb & E)]) Hu Hl Erun; rewrite E in Erun; [done |]. injection Erun as <- <-. set (s := mkString _ _ _ _ _ _ _ _). set (w1 := set_heap_state w a).
  set (w' := set_strs w1 (<[q := s]> (strs w))).
  assert (Hbq : is_base w q = false) by (unfold is_base; by rewrite Hrng).
  assert (Hkeep : forall r, keeps (strs w) (strs w') r) by (intros r; by apply keeps_insert_new).
  assert (Hk : forall r t, strs w !! r = Some t -> chained_type (atom_type t) -> (exists n, strs w' !! r = Some (set_ref_count t n)) /\ forall vs, contents (strs w) r = Some vs -> contents (strs w') r = Some vs).
  { intros r t Hr _. split; [exists (ref_count t); rewrite set_rc_same; simpl; rewrite lookup_insert_ne by congruence; done |]. intros vs Hc. by apply (contents_keeps (strs w)). }
  split; [split_and!; [apply (ok_new w1 refs q s); try done; [by apply ok_heap_state | by apply str_ok_made] | | done] | apply ext_keeps; try done].
  - apply (counts_ok w); try done. intros r t' Hr. simpl in Hr. apply lookup_insert_Some in Hr as [[<- <-] | [_ Hr]]; [by right | left; by exists t'].
  - by apply counts_ext.
  - split; [done |]. split; [done |]. intros r Hbr. simpl. by rewrite lookup_insert_ne by congruence.
Qed.

Lemma free_atom_run w refs t us i p :
  request_ok w refs -> room w -> interned w t us i -> struct_at w i = Some p -> 1 <= refs p ->
  exists w', JS_FreeAtom i w = Done (tt, w') /\ request_ok w' (drop_ref refs p) /\ step_keeps w w'.
Proof.
  intros (Hs & H & Hrng) Hroom Hint Hp Hr. destruct (interned_index w t us i p H Hroom Hint Hp) as [_ Hconst]. destruct (proj2 (so_refs _ _ Hs p) Hr) as [s Hps]. pose proof (so_arena _ _ Hs) as Ha.
  assert (Hat : atom_type s <> 0).
  { destruct Hint as [(base & Ho) _]. destruct (heads_buckets w base H) as [E | [size Hb]]; [rewrite E in Ho; by destruct (not_on_nil _ _ Ho) |].
    destruct (on_chain_entry w base _ size i Hb Ho) as (b & _ & p' & s' & vs & Hp' & Hs' & _ & Ht' & _). rewrite Hp in Hp'. injection Hp' as <-. rewrite Hps in Hs'. injection Hs' as <-. unfold chained_type in Ht'. lia. }
  assert (Hbase : is_base w p = true -> request_ok w (drop_ref refs p) /\ step_keeps w w).
  { intros Hb. split; [split_and!; [| done | done] |]; [apply (strings_ok_ext _ (fun q => if q =? p then refs q + -1 else refs q)); [done |]; apply ok_base_ref; [done | done | by eexists | lia] |].
    by split_and!. }
  unfold JS_FreeAtom. destruct (AtomIsConst i); cbn [negb]; [exists w; split; [done | by apply Hbase, Hconst] |].
  unfold FreeAtom. unfold sbind at 1. rewrite (js_atom_struct_run w i p Hp). cbn [run_bind]. unfold sbind at 1. rewrite (rc_dec_run w p s Hps). destruct (is_base w p) eqn:Eb; cbn [run_bind].
  { exists w. split; [done | by apply Hbase]. }
  set (w' := set_strs w (<[p := set_ref_count s (ref_count s - 1)]> (strs w))). exists w'. split.
  { destruct (0 <? ref_count s - 1); [done |]. unfold JS_FreeAtomStruct, sbind, sget. cbn [run_bind]. change (is_arena w') with (is_arena w). by rewrite Ha. }
  assert (Hk : forall r u, strs w !! r = Some u -> (exists n, strs w' !! r = Some (set_ref_count u n)) /\ forall vs, contents (strs w) r = Some vs -> contents (strs w') r = Some vs).
  { intros r u Hu. split.
    - simpl. destruct (decide (r = p)) as [-> | Hne]; [rewrite lookup_insert_eq; rewrite Hps in Hu; injection Hu as <-; by eexists | rewrite lookup_insert_ne by done; exists (ref_count u); by rewrite set_rc_same].
    - intros vs Hc. apply (contents_keeps (strs w)); [done | by apply (keeps_insert _ _ s) | intros; by apply (keeps_insert _ _ s)]. }
  split; [split_and!; [| | done] | apply ext_keeps; try done].
  - apply (strings_ok_ext _ (fun q => if q =? p then refs q + -1 else refs q)); [done |]. apply (ok_recount w refs p s (-1)); try done; lia.
  - apply (counts_ok w); try done; [intros r u Hu _; by apply Hk |]. intros r u' Hu. simpl in Hu. apply lookup_insert_Some in Hu as [[<- <-] | [_ Hu]]; left; [by exists s | by exists u'].
  - apply counts_ext; try done. intros r u Hu _. by apply Hk.
  - split; [done |]. split; [done |]. intros r Hbr. simpl. by rewrite lookup_insert_ne by congruence.
Qed.

Lemma dup_atom_run w refs t us i p :
  request_ok w refs -> room w -> interned w t us i -> struct_at w i = Some p ->
  exists w', JS_DupAtom i w = Done (i, w') /\ request_ok w' (take_ref refs p) /\ step_keeps w w'.
Proof.
  intros (Hs & H & Hrng) Hroom Hint Hp. destruct (interned_index w t us i p H Hroom Hint Hp) as [_ Hconst].
  assert (exists s, strs w !! p = Some s) as [s Hps] by (destruct Hint as [_ (q & s & Hq & Hqs & _)]; exists s; congruence).
  destruct (found_ok w refs i p s Hs H Hps Hconst) as (Hs1 & H1 & E1 & F1 & Q1). exists (found_state w i p s). split.
  - unfold JS_DupAtom, found_state. destruct (AtomIsConst i); cbn [negb]; [done |]. unfold sbind at 1. unfold sbind at 1. rewrite (js_atom_struct_run w i p Hp). cbn [run_bind]. by rewrite (rc_inc_run w p s Hps).
  - assert (Ha : is_arena (found_state w i p s) = is_arena w) by (rewrite (so_arena _ _ Hs1); symmetry; exact (so_arena _ _ Hs)).
    split; [split_and!; [done | done | destruct F1 as (_ & R1 & _); congruence] | by apply ext_keeps].
Qed.

Lemma intern_step w refs str s ty i p w' :
  request_ok w refs -> room w -> 1 <= refs str -> strs w !! str = Some s -> chained_type ty -> (atom_type s = 0 /\ is_base w str = false) \/ atom_type s = ty ->
  NewAtom str ty w = Done (i, w') -> i <> JS_ATOM_NULL -> struct_at w' i = Some p -> request_ok w' (take_ref (drop_ref refs str) p) /\ step_keeps w w'.
Proof.
  intros (Hs & H & Hrng) Hroom Hr Hp Hty Hcase E Hi Hst. destruct (heap_ok_contents _ str s (strings_heap_ok w refs Hs) Hp) as (l & us & _ & Hc & _).
  destruct (intern_total w refs str s us ty Hs H Hroom Hr Hp Hc Hty Hcase) as (i' & w1 & E' & Hf & Hres). rewrite E in E'. injection E' as <- <-.
  destruct (Z.eqb_spec i 0) as [E0 | _]; [by destruct Hi |]. destruct Hres as (H' & (q & Hq & Hs') & Hint). rewrite Hst in Hq. injection Hq as <-. pose proof Hf as (Et & Er & _).
  split; [split_and!; [done | done | congruence] |]. split; [done |]. split; [by rewrite (so_arena _ _ Hs'), (so_arena _ _ Hs) |].
  split; [destruct (ao_sizes _ H') as (_ & -> & _); destruct (ao_sizes _ H) as (_ & -> & _); by rewrite Et |]. intros t vs j Hj. apply Hint. by left.
Qed.

Lemma atom_step_ok w refs w' refs' : request_ok w refs -> atom_step (w, refs) (w', refs') -> request_ok w' refs' /\ step_keeps w w'.
Proof.
  intros Hok Hstep. inversion Hstep as [? ? us p ? Hu Hl E | ? ? us p ? Hu Hl E | ? ? str s ty i p ? Hroom Hr Hp Hty Hcase E Hi Hst | ? ? t us i p ? Hroom Hint Hp E | ? ? t us i p ? Hroom Hint Hp Hr E | ? ? p ? Hr E]; subst.
  - by apply (makes_step (js_new_string8_len us) w refs false us p w' Hok (new_string8_makes rng us w)).
  - by apply (makes_step (js_new_string16_len us) w refs true us p w' Hok (new_string16_makes rng us w)).
  - by apply (intern_step w refs str s ty i p w').
  - destruct (dup_atom_run w refs t us i p Hok Hroom Hint Hp) as (w1 & E1 & Hres). rewrite E in E1. injection E1 as <-. done.
  - destruct (free_atom_run w refs t us i p Hok Hroom Hint Hp Hr) as (w1 & E1 & Hres). rewrite E in E1. injection E1 as <-. done.
  - destruct Hok as (Hs & H & Hrng). destruct (free_ok w refs p Hs Hr) as (h' & E1 & Hs' & _). rewrite E in E1. injection E1 as ->. destruct (free_atoms w refs p h' H Hs Hr E) as [H' He].
    split; [done |]. apply ext_keeps; try done. by apply (freed_frozen w refs p).
Qed.

Lemma steps_ok w refs w' refs' : request_ok w refs -> rtc atom_step (w, refs) (w', refs') -> request_ok w' refs' /\ step_keeps w w'.
Proof.
  intros Hok Hsteps. remember (w, refs) as x eqn:Ex. remember (w', refs') as y eqn:Ey. revert w refs Ex Hok. induction Hsteps as [x | x [w1 refs1] z Hxy Hyz IH]; intros w refs -> Hok.
  - injection Ey as <- <-. split; [done |]. by split_and!.
  - destruct (atom_step_ok w refs w1 refs1 Hok Hxy) as [Hok1 (F1 & A1 & B1 & I1)]. destruct (IH Ey w1 refs1 eq_refl Hok1) as [Hok2 (F2 & A2 & B2 & I2)]. split; [done |].
    split; [by apply (frozen_trans w w1) |]. split; [congruence |]. split; [congruence |]. intros t us i Hi. by apply I2, I1.
Qed.

End requests.

(** The concrete base: a request makes a string and interns it. *)
Module RequestDemo.
Import StrDemo AtomDemo.

Definition ran (o : ST world Z) (w : world) : world := match o w with Done (_, w') => w' | _ => w end.
Definition made1 : world := ran (NewAtom 3000 JS_ATOM_TYPE_STRING) (world1 5).

End RequestDemo.
