(* ===== verification/Dtoa.v ===== *)
(** * Numbers and text: arithmetic (dtoa.c)

    Conversion between binary floating point numbers and text goes through
    numbers of up to 52 limbs of 32 bits, least significant first.  A number
    [mpb_t] is the list of its [len] limbs; functions that can make it longer take
    the number [cap] of limbs that were allocated for it and abort past it.  The
    array arguments of a call are one array, as in every call of the source. *)

From stdpp Require Import base list numbers.
From Stdlib Require Import ZArith Lia.
From S2P Require Import Prelude Utf8.

#[local] Open Scope Z_scope.

Definition LIMB_BITS : Z := 32.
Definition JS_RADIX_MAX : Z := 36.
Definition DBIGNUM_LEN_MAX : Z := 52.
Definition MANT_LEN_MAX : Z := 18.

Definition clz32 (x : Z) : Z := if x =? 0 then 32 else 31 - Z.log2 x.
Definition clz64 (x : Z) : Z := if x =? 0 then 64 else 63 - Z.log2 x.

(** ** Limb arrays *)

(** The array after the call, and the carry. *)
Fixpoint mp_add_ui (tab : list Z) (k : Z) : list Z * Z :=
  match tab with
  | [] => ([], k)
  | x :: t =>
      if k =? 0 then (tab, k)
      else
        let a := u32 (x + k) in
        let '(t, k) := mp_add_ui t (b2z (a <? k)) in (a :: t, k)
  end.

Fixpoint mp_mul1 (taba : list Z) (b l : Z) : list Z * Z :=
  match taba with
  | [] => ([], l)
  | a :: taba =>
      let t := u64 (a * b + l) in
      let '(r, l) := mp_mul1 taba b (u32 (Z.shiftr t LIMB_BITS)) in (u32 t :: r, l)
  end.

(** From the most significant limb down. *)
Fixpoint mp_div1 (taba : list Z) (b r : Z) : list Z * Z :=
  match taba with
  | [] => ([], r)
  | a :: taba =>
      let '(q, r) := mp_div1 taba b r in
      let a1 := Z.lor (Z.shiftl r LIMB_BITS) a in
      (u32 (a1 / b) :: q, u32 (a1 mod b))
  end.

Fixpoint shr_loop (tab : list Z) (shift l : Z) : list Z * Z :=
  match tab with
  | [] => ([], l)
  | a :: tab =>
      let '(r, l) := shr_loop tab shift l in
      (u32 (Z.lor (Z.shiftr a shift) (Z.shiftl l (LIMB_BITS - shift))) :: r, a)
  end.

Definition mp_shr (tab : list Z) (shift high : Z) : run (list Z * Z) :=
  let* _ := assert_ ((1 <=? shift) && (shift <? LIMB_BITS)) in
  let '(r, l) := shr_loop tab shift high in
  Done (r, Z.land l (u32 (Z.shiftl 1 shift) - 1)).

Fixpoint shl_loop (tab : list Z) (shift l : Z) : list Z * Z :=
  match tab with
  | [] => ([], l)
  | a :: tab =>
      let '(r, l') := shl_loop tab shift (Z.shiftr a (LIMB_BITS - shift)) in
      (u32 (Z.lor (Z.shiftl a shift) l) :: r, l')
  end.

Definition mp_shl (tab : list Z) (shift low : Z) : run (list Z * Z) :=
  let* _ := assert_ ((1 <=? shift) && (shift <? LIMB_BITS)) in Done (shl_loop tab shift low).

(** ** Division by an invariant limb *)

Definition udiv1norm_init (d : Z) : Z :=
  let a1 := u32 (- d - 1) in
  let a0 := u32 (-1) in
  u32 (Z.lor (Z.shiftl a1 LIMB_BITS) a0 / d).

(** The quotient and the remainder. *)
Definition udiv1norm (a1 a0 d d_inv : Z) : Z * Z :=
  let n1m := u32 (Z.shiftr (i32 a0) (LIMB_BITS - 1)) in
  let n_adj := u32 (a0 + Z.land n1m d) in
  let a := u64 (d_inv * u32 (a1 - n1m) + n_adj) in
  let q := u32 (Z.shiftr a LIMB_BITS + a1) in
  let a := Z.lor (Z.shiftl a1 LIMB_BITS) a0 in
  let a := u64 (a - q * d - d) in
  let ah := u32 (Z.shiftr a LIMB_BITS) in
  (u32 (q + 1 + ah), u32 (u32 a + Z.land ah d)).

Fixpoint div1norm_loop (tab : list Z) (b r b_inv : Z) : list Z * Z :=
  match tab with
  | [] => ([], r)
  | a :: tab =>
      let '(q, r) := div1norm_loop tab b r b_inv in
      let '(q0, r) := udiv1norm r a b b_inv in (q0 :: q, r)
  end.

Definition mp_div1norm (tab : list Z) (b r b_inv shift : Z) : run (list Z * Z) :=
  let* (tab, r) :=
    if negb (shift =? 0) then
      let* (tab, h) := mp_shl tab shift 0 in Done (tab, Z.lor (u32 (Z.shiftl r shift)) h)
    else Done (tab, r) in
  let '(q, r) := div1norm_loop tab b r b_inv in
  Done (q, Z.shiftr r shift).

(** ** Powers *)

Definition pow5_table : list Z :=
  [5; 25; 125; 625; 3125; 15625; 78125; 390625; 1953125; 9765625; 48828125; 244140625; 1220703125;
   1808548329; 452807053; 2264035265; 2730241733].

Definition pow5h_table : list Z := [1; 7; 35; 177].

Definition pow5_inv_table : list Z :=
  [2576980377; 1202590842; 103079215; 2741907121; 1334532238; 208632331; 2910792107; 1469640227; 316718722;
   3083730333; 1607990807; 427399186; 3260819076].

(** [for(i = n_bits - 2; i >= 0; i--)] with [n] bits left. *)
Fixpoint pow_loop (n : nat) (a b r : Z) : Z :=
  match n with
  | O => r
  | S i =>
      let r := u64 (r * r) in
      pow_loop i a b (if Z.testbit b (Z.of_nat i) then u64 (r * a) else r)
  end.

Definition pow_ui (a b : Z) : Z :=
  if b =? 0 then 1
  else if b =? 1 then a
  else if ((a =? 5) || (a =? 10)) && (b <=? 17) then
    let r := nthZ 0 pow5_table (b - 1) in
    let r := if 14 <=? b then Z.lor r (Z.shiftl (nthZ 0 pow5h_table (b - 14)) 32) else r in
    if a =? 10 then u64 (Z.shiftl r b) else r
  else pow_loop (Z.to_nat (32 - clz32 b - 1)) a b a.

(** The divisor shifted to the top, its inverse and the shift. *)
Definition pow_ui_inv (a b : Z) : Z * Z * Z :=
  if (a =? 5) && (1 <=? b) && (b <=? 13) then
    let r := nthZ 0 pow5_table (b - 1) in
    let shift := clz32 r in
    (u32 (Z.shiftl r shift), nthZ 0 pow5_inv_table (b - 1), shift)
  else
    let r := u32 (pow_ui a b) in
    let shift := clz32 r in
    let r := u32 (Z.shiftl r shift) in
    (r, udiv1norm_init r, shift).

(** ** Numbers *)

Inductive rnd_mode := JS_RNDN | JS_RNDNA | JS_RNDZ.

(** [while (r->len > 1 && r->tab[r->len - 1] == 0) r->len--] *)
Fixpoint renorm_loop (len : nat) (tab : list Z) : list Z :=
  match len with
  | S (S _ as len) => if nthZ 0 tab (Z.of_nat len) =? 0 then renorm_loop len (take len tab) else tab
  | _ => tab
  end.

Definition mpb_renorm (tab : list Z) : list Z := renorm_loop (length tab) tab.

Definition mpb_get_bit (tab : list Z) (k : Z) : Z :=
  let l := k / LIMB_BITS in
  let k := Z.land k (LIMB_BITS - 1) in
  if lenZ tab <=? l then 0 else Z.land (Z.shiftr (nthZ 0 tab l) k) 1.

(** [r->tab[r->len++] = h] *)
Definition mpb_push (cap : Z) (tab : list Z) (h : Z) : run (list Z) :=
  if lenZ tab <? cap then Done (tab ++ [h]) else Aborts.

(** The bits below bit [shift - 1], ored. *)
Definition low_bits (tab : list Z) (shift : Z) : Z :=
  if 2 <=? shift then
    let k := shift - 1 in
    let l := k / LIMB_BITS in
    let k := Z.land k (LIMB_BITS - 1) in
    let bit2 := foldl Z.lor 0 (take (Z.to_nat (Z.min l (lenZ tab))) tab) in
    if l <? lenZ tab then Z.lor bit2 (Z.land (nthZ 0 tab l) (u32 (Z.shiftl 1 k) - 1)) else bit2
  else 0.

(** Whether a right shift rounds up. *)
Definition add_one (tab : list Z) (shift : Z) (mode : rnd_mode) : Z :=
  match mode with
  | JS_RNDZ => 0
  | _ =>
      if negb (mpb_get_bit tab (shift - 1) =? 0) then
        let bit2 := match mode with JS_RNDNA => 1 | _ => low_bits tab shift end in
        if negb (bit2 =? 0) then 1 else mpb_get_bit tab shift
      else 0
  end.

Definition mpb_shr_round (cap : Z) (tab : list Z) (shift : Z) (mode : rnd_mode) : run (list Z) :=
  if shift =? 0 then Done tab
  else if shift <? 0 then
    let shift := - shift in
    let l := shift / LIMB_BITS in
    let shift := Z.land shift (LIMB_BITS - 1) in
    let* tab :=
      if negb (shift =? 0) then
        let* (tab, h) := mp_shl tab shift 0 in
        let* tab := mpb_push cap tab h in Done (mpb_renorm tab)
      else Done tab in
    if 0 <? l then
      if lenZ tab + l <=? cap then Done (replicate (Z.to_nat l) 0 ++ tab) else Aborts
    else Done tab
  else
    let one := add_one tab shift mode in
    let l := shift / LIMB_BITS in
    let shift := Z.land shift (LIMB_BITS - 1) in
    if lenZ tab <=? l then Done [one]
    else
      let tab := if 0 <? l then drop (Z.to_nat l) tab else tab in
      let* tab := if negb (shift =? 0) then let* (tab, _) := mp_shr tab shift 0 in Done (mpb_renorm tab) else Done tab in
      if negb (one =? 0) then
        let '(tab, a) := mp_add_ui tab 1 in
        if negb (a =? 0) then mpb_push cap tab a else Done tab
      else Done tab.

(** From the most significant limb down. *)
Fixpoint cmp_loop (a b : list Z) : Z :=
  match a, b with
  | x :: a, y :: b =>
      let r := cmp_loop a b in
      if negb (r =? 0) then r else if negb (x =? y) then (if x <? y then -1 else 1) else 0
  | _, _ => 0
  end.

Definition mpb_cmp (a b : list Z) : Z :=
  if lenZ a <? lenZ b then -1 else if lenZ b <? lenZ a then 1 else cmp_loop a b.

Definition mpb_set_u64 (cap m : Z) : run (list Z) :=
  if 2 <=? cap then Done (let h := u32 (Z.shiftr m LIMB_BITS) in if h =? 0 then [u32 m] else [u32 m; h]) else Aborts.

Definition mpb_get_u64 (tab : list Z) : Z :=
  if lenZ tab =? 1 then nthZ 0 tab 0 else Z.lor (nthZ 0 tab 0) (Z.shiftl (nthZ 0 tab 1) LIMB_BITS).

Definition mpb_floor_log2 (tab : list Z) : Z :=
  let v := nthZ 0 tab (lenZ tab - 1) in
  if v =? 0 then -1 else lenZ tab * LIMB_BITS - 1 - clz32 v.

(** [r * radix_base + a] *)
Definition mpb_mul1_base (cap : Z) (tab : list Z) (radix_base a : Z) : run (list Z) :=
  if (nthZ 0 tab 0 =? 0) && (lenZ tab =? 1) then Done [a]
  else
    let* tab :=
      if radix_base =? 0 then (if lenZ tab + 1 <? cap then Done (a :: tab) else Aborts)
      else let '(tab, h) := mp_mul1 tab radix_base a in mpb_push cap tab h in
    Done (mpb_renorm tab).

(** ** Radixes *)

Definition MUL_LOG2_RADIX_BASE_LOG2 : Z := 24.

Definition mul_log2_radix_table : list Z :=
  [0; 10585245; 0; 7225554; 6490313; 5976165; 0; 5292622; 5050445; 4849703; 4679886; 4533844; 4406528; 4294263;
   0; 4104555; 4023386; 3949506; 3881882; 3819673; 3762187; 3708851; 3659183; 3612777; 3569286; 3528415;
   3489906; 3453537; 3419114; 3386466; 0; 3325913; 3297757; 3270870; 3245157].

Definition is_pow2 (radix : Z) : bool := Z.land radix (radix - 1) =? 0.

(** [floor(a / log2(radix))] *)
Definition mul_log2_radix (a radix : Z) : Z :=
  if is_pow2 radix then
    let radix_bits := 31 - clz32 radix in
    let a := if a <? 0 then a - (radix_bits - 1) else a in
    Z.quot a radix_bits
  else Z.shiftr (a * nthZ 0 mul_log2_radix_table (radix - 2)) MUL_LOG2_RADIX_BASE_LOG2.

Definition digits_per_limb_table : list Z :=
  [32; 20; 16; 13; 12; 11; 10; 10; 9; 9; 8; 8; 8; 8; 8; 7; 7; 7; 7; 7; 7; 7; 6; 6; 6; 6; 6; 6; 6; 6; 6; 6; 6; 6; 6].

Definition radix_base_table : list Z :=
  [0; 3486784401; 0; 1220703125; 2176782336; 1977326743; 1073741824; 3486784401; 1000000000; 2357947691;
   429981696; 815730721; 1475789056; 2562890625; 0; 410338673; 612220032; 893871739; 1280000000; 1801088541;
   2494357888; 3404825447; 191102976; 244140625; 308915776; 387420489; 481890304; 594823321; 729000000;
   887503681; 1073741824; 1291467969; 1544804416; 1838265625; 2176782336].

Definition dtoa_max_digits_table : list Z :=
  [54; 35; 28; 24; 22; 20; 19; 18; 17; 17; 16; 16; 15; 15; 15; 14; 14; 14; 14; 14; 13; 13; 13; 13; 13; 13; 13; 12; 12; 12; 12; 12; 12; 12; 12].

Definition atod_max_digits_table : list Z :=
  [64; 80; 32; 55; 49; 45; 21; 40; 38; 37; 35; 34; 33; 32; 16; 31; 30; 30; 29; 29; 28; 28; 27; 27; 27; 26; 26; 26; 26; 25; 12; 25; 25; 24; 24].

Definition max_exponent : list Z :=
  [1024; 647; 512; 442; 397; 365; 342; 324; 309; 297; 286; 277; 269; 263; 256; 251; 246; 242; 237; 234; 230; 227; 224; 221;
   218; 216; 214; 211; 209; 207; 205; 203; 202; 200; 199].

Definition min_exponent : list Z :=
  [-1075; -679; -538; -463; -416; -383; -359; -340; -324; -311; -300; -291; -283; -276; -269; -263; -258; -254; -249; -245;
   -242; -238; -235; -232; -229; -227; -224; -222; -220; -217; -215; -214; -212; -210; -208].

(** ** Integers as text *)

Definition digit_char (digit : Z) : Z := if digit <? 10 then digit + 48 else digit + (97 - 10).

(** [for(i = len - 1; i >= 0; i--)] over [len] cells, the last digit first. *)
Fixpoint u32toa_len (n : Z) (len : nat) (acc : list Z) : list Z :=
  match len with
  | O => acc
  | S len => u32toa_len (n / 10) len (n mod 10 + 48 :: acc)
  end.

Fixpoint bin_loop (n radix_bits : Z) (len : nat) (acc : list Z) : list Z :=
  match len with
  | O => acc
  | S len => bin_loop (Z.shiftr n radix_bits) radix_bits len (digit_char (Z.land n (Z.shiftl 1 radix_bits - 1)) :: acc)
  end.

Definition u64toa_bin_len (n radix_bits len : Z) : list Z := bin_loop n radix_bits (Z.to_nat len) [].

Fixpoint limb_loop (n radix : Z) (len : nat) (acc : list Z) : list Z :=
  match len with
  | O => acc
  | S len => limb_loop (n / radix) radix len (digit_char (n mod radix) :: acc)
  end.

Definition limb_to_a (n radix len : Z) : list Z :=
  if radix =? 10 then u32toa_len n (Z.to_nat len) [] else limb_loop n radix (Z.to_nat len) [].

(** [do ... while (n != 0)] into a buffer with [room] cells in front of [q]. *)
Fixpoint u32toa_loop (room : nat) (n : Z) (q : list Z) : run (list Z) :=
  match room with
  | O => Aborts
  | S room => let q := n mod 10 + 48 :: q in let n := n / 10 in if n =? 0 then Done q else u32toa_loop room n q
  end.

Definition u32toa (n : Z) : run (list Z) := u32toa_loop 10 n [].

Definition i32toa (n : Z) : run (list Z) :=
  if 0 <=? n then u32toa n else let* s := u32toa (u32 (- u32 n)) in Done (45 :: s).

Definition u64toa (n : Z) : run (list Z) :=
  if n <? 4294967296 then u32toa n
  else
    let n1 := n / 1000000000 in
    let n := n mod 1000000000 in
    let* q :=
      if 4294967296 <=? n1 then
        let n2 := u32 (n1 / 1000000000) in
        let n1 := n1 mod 1000000000 in
        Done ((if 10 <=? n2 then [n2 / 10 + 48; n2 mod 10 + 48] else [n2 + 48]) ++ u32toa_len n1 9 [])
      else u32toa n1 in
    Done (q ++ u32toa_len n 9 []).

Definition i64toa (n : Z) : run (list Z) :=
  if 0 <=? n then u64toa n else let* s := u64toa (u64 (- u64 n)) in Done (45 :: s).

Fixpoint radix_loop (room : nat) (n radix : Z) (q : list Z) : run (list Z) :=
  match room with
  | O => Aborts
  | S room => let q := digit_char (n mod radix) :: q in let n := n / radix in if n =? 0 then Done q else radix_loop room n radix q
  end.

Definition u64toa_radix (n radix : Z) : run (list Z) :=
  if radix =? 10 then u64toa n
  else if is_pow2 radix then
    let radix_bits := 31 - clz32 radix in
    let l := if n =? 0 then 1 else (64 - clz64 n + radix_bits - 1) / radix_bits in
    Done (u64toa_bin_len n radix_bits l)
  else radix_loop 41 n radix [].

Definition i64toa_radix (n radix : Z) : run (list Z) :=
  if 0 <=? n then u64toa_radix n radix else let* s := u64toa_radix (u64 (- u64 n)) radix in Done (45 :: s).

(** ** Digits of a number *)

(** The [for(;;)] of [output_digits] when the radix is a power of two. *)
Fixpoint output_bin (fuel : nat) (cap : Z) (tab : list Z) (n_digits digits_per_limb radix_bits : Z) (buf : list Z) : run (list Z) :=
  match fuel with
  | O => Spins
  | S fuel =>
      let n := Z.min n_digits digits_per_limb in
      let n_digits := n_digits - n in
      let buf := u64toa_bin_len (nthZ 0 tab 0) radix_bits n ++ buf in
      if n_digits =? 0 then Done buf
      else
        let* tab := mpb_shr_round cap tab (digits_per_limb * radix_bits) JS_RNDZ in
        output_bin fuel cap tab n_digits digits_per_limb radix_bits buf
  end.

(** The [while (n_digits != 0)] of [output_digits]. *)
Fixpoint output_div (fuel : nat) (tab : list Z) (n_digits digits_per_limb radix : Z) (buf : list Z) : run (list Z) :=
  match fuel with
  | O => Spins
  | S fuel =>
      if n_digits =? 0 then Done buf
      else
        let n := Z.min n_digits digits_per_limb in
        let n_digits := n_digits - n in
        let '(tab, r) := mp_div1 tab (nthZ 0 radix_base_table (radix - 2)) 0 in
        output_div fuel (mpb_renorm tab) n_digits digits_per_limb radix (limb_to_a r radix n ++ buf)
  end.

(** The characters that are written. *)
Definition output_digits (cap : Z) (tab : list Z) (radix n_digits dot_pos : Z) : run (list Z) :=
  let digits_per_limb := nthZ 0 digits_per_limb_table (radix - 2) in
  let fuel := S (Z.to_nat n_digits) in
  let* buf :=
    if is_pow2 radix then output_bin fuel cap tab n_digits digits_per_limb (31 - clz32 radix) []
    else output_div fuel tab n_digits digits_per_limb radix [] in
  Done (if negb (dot_pos =? n_digits) then take (Z.to_nat dot_pos) buf ++ 46 :: drop (Z.to_nat dot_pos) buf else buf).

(** ** Scaling by powers of the radix *)

(** [while (f != 0)] for [f >= 0]; [b] is [pow_ui(radix1, n0)]. *)
Fixpoint mul_pow_up (fuel : nat) (cap : Z) (a : list Z) (radix1 d f b n0 : Z) : run (list Z) :=
  match fuel with
  | O => Spins
  | S fuel =>
      if f =? 0 then Done a
      else
        let n := Z.min f d in
        let '(b, n0) := if negb (n =? n0) then (u32 (pow_ui radix1 n), n) else (b, n0) in
        let '(a, h) := mp_mul1 a b 0 in
        let* a := if negb (h =? 0) then mpb_push cap a h else Done a in
        mul_pow_up fuel cap a radix1 d (f - n) b n0
  end.

(** The same loop when [f] was negative: the number and the remainders, ored. *)
Fixpoint mul_pow_down (fuel : nat) (a : list Z) (radix1 d f b b_inv shift n0 rem : Z) : run (list Z * Z) :=
  match fuel with
  | O => Spins
  | S fuel =>
      if f =? 0 then Done (a, rem)
      else
        let n := Z.min f d in
        let '(b, b_inv, shift, n0) := if negb (n =? n0) then (pow_ui_inv radix1 n, n) else (b, b_inv, shift, n0) in
        let* (a, r) := mp_div1norm a b 0 b_inv shift in
        mul_pow_down fuel (mpb_renorm a) radix1 d (f - n) b b_inv shift n0 (Z.lor rem r)
  end.

(** [a->tab[0] |= x] *)
Definition or_low (tab : list Z) (x : Z) : list Z := match tab with [] => [] | a :: t => Z.lor a x :: t end.

(** The number and [e_offset]. *)
Definition mul_pow (cap : Z) (a : list Z) (radix1 radix_shift f : Z) (is_int : bool) (e : Z) : run (list Z * Z) :=
  let e_offset := - f * radix_shift in
  if negb (radix1 =? 1) then
    let d := nthZ 0 digits_per_limb_table (radix1 - 2) in
    if 0 <=? f then
      let* a := mul_pow_up (S (Z.to_nat f)) cap a radix1 d f 0 0 in Done (a, e_offset)
    else
      let f := - f in
      let l := (f + d - 1) / d in
      let e_offset := e_offset + l * LIMB_BITS in
      let extra_bits := if negb is_int then Z.max (e - mpb_floor_log2 a) 0 else Z.max (2 + e - e_offset) 0 in
      let e_offset := e_offset + extra_bits in
      let* a := mpb_shr_round cap a (- (l * LIMB_BITS + extra_bits)) JS_RNDZ in
      let* (a, rem) := mul_pow_down (S (Z.to_nat f)) a radix1 d f 0 0 0 0 0 in
      Done (or_low a (b2z (negb (rem =? 0))), e_offset)
  else Done (a, e_offset).

Definition mul_pow_round (cap m e radix1 radix_shift f : Z) (mode : rnd_mode) : run (list Z) :=
  let* tmp1 := mpb_set_u64 cap m in
  let* (tmp1, e_offset) := mul_pow cap tmp1 radix1 radix_shift f true e in
  mpb_shr_round cap tmp1 (- e + e_offset) mode.

(** The significand and the exponent; a shift by 64 or more is undefined. *)
Definition round_to_d (cap : Z) (a : list Z) (e_offset : Z) (mode : rnd_mode) : run (Z * Z) :=
  if (nthZ 0 a 0 =? 0) && (lenZ a =? 1) then Done (0, 0)
  else
    let e := mpb_floor_log2 a + 1 - e_offset in
    let prec := if e <? -1021 then 53 - (-1021 - e) else 53 in
    let* a := mpb_shr_round cap a (e + e_offset - prec) mode in
    let m := mpb_get_u64 a in
    let* m := if 53 - prec <? 64 then Done (u64 (Z.shiftl m (53 - prec))) else Aborts in
    if 2 ^ 53 <=? m then Done (Z.shiftr m 1, e + 1) else Done (m, e).

Definition mul_pow_round_to_d (cap : Z) (a : list Z) (radix1 radix_shift f : Z) (mode : rnd_mode) : run (Z * Z) :=
  let* (a, e_offset) := mul_pow cap a radix1 radix_shift f false 55 in
  round_to_d cap a e_offset mode.
