(* ===== verification/DtoaText.v ===== *)
(** * Numbers and text: printing and parsing (dtoa.c)

    [js_dtoa] and [js_atod].  A [double] is its 64 bits, a text the list of its
    characters; the text [js_atod] reads ends with a zero. *)

From stdpp Require Import base list numbers.
From Stdlib Require Import ZArith Lia.
From S2P Require Import Prelude Utf8 Dtoa.

#[local] Open Scope Z_scope.

Definition JS_DTOA_MAX_DIGITS : Z := 101.
Definition JS_DTOA_FORMAT_FREE : Z := 0.
Definition JS_DTOA_FORMAT_FIXED : Z := 1.
Definition JS_DTOA_FORMAT_FRAC : Z := 2.
Definition JS_DTOA_FORMAT_MASK : Z := 3.
Definition JS_DTOA_EXP_AUTO : Z := 0.
Definition JS_DTOA_EXP_ENABLED : Z := 4.
Definition JS_DTOA_EXP_DISABLED : Z := 8.
Definition JS_DTOA_EXP_MASK : Z := 12.
Definition JS_DTOA_MINUS_ZERO : Z := 16.
Definition JS_ATOD_INT_ONLY : Z := 1.
Definition JS_ATOD_ACCEPT_BIN_OCT : Z := 2.
Definition JS_ATOD_ACCEPT_LEGACY_OCTAL : Z := 4.
Definition JS_ATOD_ACCEPT_UNDERSCORES : Z := 8.

Definition ctz32 (x : Z) : Z := if x =? 0 then 32 else Z.log2 (Z.land x (- x)).

Definition js_dtoa_max_len (d radix n_digits flags : Z) : Z :=
  let fmt := Z.land flags JS_DTOA_FORMAT_MASK in
  let e := Z.land (Z.shiftr d 52) 2047 in
  let n :=
    if negb (fmt =? JS_DTOA_FORMAT_FRAC) then
      let n := if fmt =? JS_DTOA_FORMAT_FREE then nthZ 0 dtoa_max_digits_table (radix - 2) else n_digits in
      if Z.land flags JS_DTOA_EXP_MASK =? JS_DTOA_EXP_DISABLED then
        if e =? 2047 then 0 else n + (10 + Z.abs (mul_log2_radix (e - 1023 - 1) radix))
      else n + (1 + 1 + 6)
    else if e =? 2047 then 0
    else
      let e := e - 1023 in
      (if e <? 0 then 1 else 2 + mul_log2_radix (e - 1) radix) + (1 + 1 + 1 + n_digits) in
  Z.max n 9.

(** ** Printing *)

(** [while ((mant % radix) == 0)] *)
Fixpoint strip_zeros (fuel : nat) (mant P radix : Z) : run (Z * Z) :=
  match fuel with
  | O => Spins
  | S fuel => if mant mod radix =? 0 then strip_zeros fuel (mant / radix) (P - 1) radix else Done (mant, P)
  end.

(** The inner [for(;;)] of the free format: the mantissa with [P] digits, and
    the exponent. *)
Fixpoint find_mant (fuel : nat) (m e radix radix1 radix_shift P E mant_max1 : Z) : run (Z * Z) :=
  match fuel with
  | O => Spins
  | S fuel =>
      let* tmp1 := mul_pow_round DBIGNUM_LEN_MAX m (e - 53) radix1 radix_shift (P - E) JS_RNDN in
      let mant := mpb_get_u64 tmp1 in
      if mant <? mant_max1 then Done (mant, E) else find_mant fuel m e radix radix1 radix_shift P (E + 1) mant_max1
  end.

(** The outer [for(;;)]: mantissa, digits and exponent that were found. *)
Fixpoint free_loop (fuel : nat) (m e radix radix1 radix_shift E0 P : Z) (found : option (Z * Z * Z)) : run (Z * Z * Z) :=
  match fuel with
  | O => Spins
  | S fuel =>
      let* (mant, E) := find_mant 3 m e radix radix1 radix_shift P E0 (pow_ui radix P) in
      let* (mant, P) := strip_zeros 65 mant P radix in
      let next := if P =? 1 then Done (mant, P, E) else free_loop fuel m e radix radix1 radix_shift E0 (P - 1) (Some (mant, P, E)) in
      match found with
      | None => next
      | Some best =>
          let* tmp1 := mpb_set_u64 DBIGNUM_LEN_MAX mant in
          let* (m1, e1) := mul_pow_round_to_d DBIGNUM_LEN_MAX tmp1 radix1 radix_shift (E - P) JS_RNDN in
          if (m1 =? m) && (e1 =? e) then next else Done best
      end
  end.

(** The [for(;;)] of the fixed format: the mantissa and the exponent. *)
Fixpoint fixed_loop (fuel : nat) (m e radix1 radix_shift P E : Z) (mant_max : list Z) : run (list Z * Z) :=
  match fuel with
  | O => Spins
  | S fuel =>
      let* tmp1 := mul_pow_round DBIGNUM_LEN_MAX m (e - 53) radix1 radix_shift (P - E) JS_RNDNA in
      if mpb_cmp tmp1 mant_max <? 0 then Done (tmp1, E) else fixed_loop fuel m e radix1 radix_shift P (E + 1) mant_max
  end.

(** From the label [output] on: the characters after the sign. *)
Definition dtoa_output (tmp1 : list Z) (radix radix1 radix_shift n_digits flags P E : Z) : run (list Z) :=
  let fmt := Z.land flags JS_DTOA_FORMAT_MASK in
  let expm := Z.land flags JS_DTOA_EXP_MASK in
  let E_max := if fmt =? JS_DTOA_FORMAT_FIXED then n_digits else nthZ 0 dtoa_max_digits_table (radix - 2) + 4 in
  if (expm =? JS_DTOA_EXP_ENABLED) || (expm =? JS_DTOA_EXP_AUTO) && ((E <=? -6) || (E_max <? E)) then
    let* q := output_digits DBIGNUM_LEN_MAX tmp1 radix P 1 in
    let E := E - 1 in
    let '(mark, E) :=
      if radix =? 10 then (101, E) else if (radix1 =? 1) && (radix_shift <=? 4) then (112, E * radix_shift) else (64, E) in
    let* s := u32toa (if E <? 0 then - E else E) in
    Done (q ++ mark :: (if E <? 0 then 45 else 43) :: s)
  else if E <=? 0 then
    let* q := output_digits DBIGNUM_LEN_MAX tmp1 radix P P in
    Done (48 :: 46 :: replicate (Z.to_nat (- E)) 48 ++ q)
  else
    let* q := output_digits DBIGNUM_LEN_MAX tmp1 radix P (Z.min P E) in
    Done (q ++ replicate (Z.to_nat (E - P)) 48).

Definition INFINITY_TEXT : list Z := [73; 110; 102; 105; 110; 105; 116; 121].
Definition NAN_TEXT : list Z := [78; 97; 78].

(** A finite number that is not zero, [2^(e-53) * m]: the characters after the
    sign. *)
Definition dtoa_finite (m e radix n_digits flags : Z) : run (list Z) :=
  let fmt := Z.land flags JS_DTOA_FORMAT_MASK in
  let radix_shift := ctz32 radix in
  let radix1 := Z.shiftr radix radix_shift in
  if (fmt =? JS_DTOA_FORMAT_FREE) && (1 <=? e) && (e <=? 53) && (Z.land m (Z.shiftl 1 (53 - e) - 1) =? 0) &&
     negb (Z.land flags JS_DTOA_EXP_MASK =? JS_DTOA_EXP_ENABLED)
  then u64toa_radix (Z.shiftr m (53 - e)) radix
  else
    let E := 1 + mul_log2_radix (e - 1) radix in
    if fmt =? JS_DTOA_FORMAT_FREE then
      let P_max := nthZ 0 dtoa_max_digits_table (radix - 2) in
      let* (mant, P, E) := free_loop 60 m e radix radix1 radix_shift E P_max None in
      let* tmp1 := mpb_set_u64 DBIGNUM_LEN_MAX mant in
      dtoa_output tmp1 radix radix1 radix_shift n_digits flags P E
    else if fmt =? JS_DTOA_FORMAT_FRAC then
      let* _ := assert_ ((0 <=? n_digits) && (n_digits <=? JS_DTOA_MAX_DIGITS)) in
      let* tmp1 := mul_pow_round DBIGNUM_LEN_MAX m (e - 53) radix1 radix_shift n_digits JS_RNDNA in
      let* q := output_digits DBIGNUM_LEN_MAX tmp1 radix (Z.max (E + 1) 1 + n_digits) (Z.max (E + 1) 1) in
      Done (match q with c :: c1 :: q' => if (c =? 48) && negb (c1 =? 46) then c1 :: q' else q | _ => q end)
    else
      let* _ := assert_ ((1 <=? n_digits) && (n_digits <=? JS_DTOA_MAX_DIGITS)) in
      let P := n_digits in
      let* (mant_max, pow_shift) := mul_pow MANT_LEN_MAX [1] radix1 radix_shift P false 0 in
      let* mant_max := mpb_shr_round MANT_LEN_MAX mant_max pow_shift JS_RNDZ in
      let* (tmp1, E) := fixed_loop 3 m e radix1 radix_shift P E mant_max in
      dtoa_output tmp1 radix radix1 radix_shift n_digits flags P E.

(** [js_dtoa]: the characters before the terminator. *)
Definition js_dtoa (d radix n_digits flags : Z) : run (list Z) :=
  let fmt := Z.land flags JS_DTOA_FORMAT_MASK in
  let radix_shift := ctz32 radix in
  let radix1 := Z.shiftr radix radix_shift in
  let sgn := Z.shiftr d 63 in
  let e := Z.land (Z.shiftr d 52) 2047 in
  let m := Z.land d (Z.shiftl 1 52 - 1) in
  let sign := if negb (sgn =? 0) then [45] else [] in
  if e =? 2047 then Done (if m =? 0 then sign ++ INFINITY_TEXT else NAN_TEXT)
  else if (e =? 0) && (m =? 0) then
    let P := if fmt =? JS_DTOA_FORMAT_FREE then 1 else if fmt =? JS_DTOA_FORMAT_FRAC then n_digits + 1 else n_digits in
    let sign := if negb (sgn =? 0) && negb (Z.land flags JS_DTOA_MINUS_ZERO =? 0) then [45] else [] in
    let* q := dtoa_output [0] radix radix1 radix_shift n_digits flags P 1 in
    Done (sign ++ q)
  else
    let '(m, e) :=
      if e =? 0 then let l := clz64 m - 11 in (u64 (Z.shiftl m l), e - (l - 1))
      else (Z.lor m (Z.shiftl 1 52), e) in
    let* q := dtoa_finite m (e - 1022) radix n_digits flags in
    Done (sign ++ q).

(** ** Parsing *)

Definition to_digit (c : Z) : Z :=
  if (48 <=? c) && (c <=? 57) then c - 48
  else if (65 <=? c) && (c <=? 90) then c - 65 + 10
  else if (97 <=? c) && (c <=? 122) then c - 97 + 10
  else 36.

(** [p[0]] *)
Definition char_at (str : list Z) (p : Z) : run Z := fetch str (Z.to_nat p).

(** What does not change while the digits are read. *)
Record atod_in := mkAtodIn { ai_str : list Z; ai_start : Z; ai_radix : Z; ai_sep : Z; ai_flags : Z }.

Definition int_only (c : atod_in) : bool := negb (Z.land (ai_flags c) JS_ATOD_INT_ONLY =? 0).

(** [*p == '.' && (p > p_start || to_digit(p[1]) < radix) && !(flags & JS_ATOD_INT_ONLY)] *)
Definition at_dot (c : atod_in) (p : Z) : run bool :=
  let* x := char_at (ai_str c) p in
  if x =? 46 then
    if ai_start c <? p then Done (negb (int_only c))
    else let* y := char_at (ai_str c) (p + 1) in Done ((to_digit y <? ai_radix c) && negb (int_only c))
  else Done false.

(** Skip a separator that is followed by an accepted character. *)
Definition skip_sep (c : atod_in) (p : Z) (started : bool) (accept : Z -> bool) : run Z :=
  let* x := char_at (ai_str c) p in
  if (x =? ai_sep c) && started then
    let* y := char_at (ai_str c) (p + 1) in Done (if accept y then p + 1 else p)
  else Done p.

(** [for(;;)] over leading zeros: [p], [pos] and [dot_pos]. *)
Fixpoint skip_zeros (fuel : nat) (c : atod_in) (p pos dot_pos : Z) : run (Z * Z * Z) :=
  match fuel with
  | O => Spins
  | S fuel =>
      let* dot := at_dot c p in
      if dot && (0 <=? dot_pos) then Done (p, pos, dot_pos)
      else
        let '(p, dot_pos) := if dot then (p + 1, pos) else (p, dot_pos) in
        let* p := skip_sep c p (ai_start c <? p) (fun y => y =? 48) in
        let* x := char_at (ai_str c) p in
        if negb (x =? 48) then Done (p, pos, dot_pos) else skip_zeros fuel c (p + 1) (pos + 1) dot_pos
  end.

(** The digits read so far. *)
Record atod_digits := mkDigits { ad_tab : list Z; ad_cur : Z; ad_limb : Z; ad_count : Z; ad_extra : Z }.

(** Take one digit. *)
Definition take_digit (radix : Z) (s : atod_digits) (c : Z) : run atod_digits :=
  if ad_count s <? nthZ 0 atod_max_digits_table (radix - 2) then
    let cur := u32 (ad_cur s * radix + c) in
    let n := ad_limb s + 1 in
    if n =? nthZ 0 digits_per_limb_table (radix - 2) then
      let* tab := mpb_mul1_base DBIGNUM_LEN_MAX (ad_tab s) (nthZ 0 radix_base_table (radix - 2)) cur in
      Done (mkDigits tab 0 0 (ad_count s + 1) (ad_extra s))
    else Done (mkDigits (ad_tab s) cur n (ad_count s + 1) (ad_extra s))
  else Done (mkDigits (ad_tab s) (ad_cur s) (ad_limb s) (ad_count s) (Z.lor (ad_extra s) c)).

(** [for(;;)] over the significant digits. *)
Fixpoint read_digits (fuel : nat) (c : atod_in) (p pos dot_pos : Z) (s : atod_digits) : run (Z * Z * Z * atod_digits) :=
  match fuel with
  | O => Spins
  | S fuel =>
      let* dot := at_dot c p in
      if dot && (0 <=? dot_pos) then Done (p, pos, dot_pos, s)
      else
        let '(p, dot_pos) := if dot then (p + 1, pos) else (p, dot_pos) in
        let* p := skip_sep c p (ai_start c <? p) (fun y => to_digit y <? ai_radix c) in
        let* x := char_at (ai_str c) p in
        let x := to_digit x in
        if ai_radix c <=? x then Done (p, pos, dot_pos, s)
        else let* s := take_digit (ai_radix c) s x in read_digits fuel c (p + 1) (pos + 1) dot_pos s
  end.

(** [for(;;)] over the digits of the exponent: [p], [expn], [expn_overflow]. *)
Fixpoint read_expn (fuel : nat) (c : atod_in) (p expn : Z) (overflow : bool) : run (Z * Z * bool) :=
  match fuel with
  | O => Spins
  | S fuel =>
      let* p := skip_sep c p true (fun y => to_digit y <? 10) in
      let* x := char_at (ai_str c) p in
      let x := to_digit x in
      if 10 <=? x then Done (p, expn, overflow)
      else
        let '(expn, overflow) :=
          if overflow then (expn, true) else if (2147483647 - 2 - 9) / 10 <? expn then (expn, true) else (expn * 10 + x, false) in
        read_expn fuel c (p + 1) expn overflow
  end.

(** Whether an exponent follows, and whether it is one of base 2. *)
Definition expn_mark (radix radix_bits x : Z) : bool :=
  (radix =? 10) && ((x =? 101) || (x =? 69)) ||
  negb (radix =? 10) && ((x =? 64) || (1 <=? radix_bits) && (radix_bits <=? 4) && ((x =? 112) || (x =? 80))).
Definition is_bin_mark (x : Z) : bool := (x =? 112) || (x =? 80).

(** The bits of the result for the significand [m] and the exponent [e]. *)
Definition pack_double (m e : Z) : Z :=
  if m =? 0 then 0
  else if 1024 <? e then Z.shiftl 2047 52
  else if e <? -1073 then 0
  else if e <? -1021 then Z.shiftr m (- e - 1021)
  else Z.lor (Z.shiftl (e + 1022) 52) (Z.land m (Z.shiftl 1 52 - 1)).

(** [int] arithmetic: overflow is undefined. *)
Definition int_ (x : Z) : run Z := if (- 2 ^ 31 <=? x) && (x <? 2 ^ 31) then Done x else Aborts.

(** The number with the digits and the exponent, without its sign. *)
Definition atod_value (radix radix_bits : Z) (tmp0 : list Z) (digit_count expn_offset expn : Z) (is_bin_exp : bool) : run Z :=
  if negb (radix_bits =? 0) then
    let* expn := int_ (if negb is_bin_exp then expn * radix_bits else expn) in
    let* expn := int_ (expn - expn_offset * radix_bits) in
    let* expn1 := int_ (expn + digit_count * radix_bits) in
    if 1024 + radix_bits <=? expn1 then Done (Z.shiftl 2047 52)
    else if expn1 <=? -1075 then Done 0
    else let* (m, e) := round_to_d DBIGNUM_LEN_MAX tmp0 (- expn) JS_RNDN in Done (pack_double m e)
  else
    let* expn := int_ (expn - expn_offset) in
    let* expn1 := int_ (expn + digit_count) in
    if nthZ 0 max_exponent (radix - 2) + 1 <=? expn1 then Done (Z.shiftl 2047 52)
    else if expn1 <=? nthZ 0 min_exponent (radix - 2) then Done 0
    else
      let* (m, e) := mul_pow_round_to_d DBIGNUM_LEN_MAX tmp0 (Z.shiftr radix (ctz32 radix)) (ctz32 radix) expn JS_RNDN in
      Done (pack_double m e).

(** What [js_atod] returns: the number without its sign, or NaN; and [*pnext]. *)
Definition atod_out : Type := option Z * Z.

(** The exponent, and the end: from the last digit at [p] on. *)
Definition atod_finish (c : atod_in) (p pos sig_pos dot_pos : Z) (s : atod_digits) : run atod_out :=
  let radix := ai_radix c in
  let radix_bits := if Z.shiftr radix (ctz32 radix) =? 1 then ctz32 radix else 0 in
  let* tab :=
    if negb (ad_limb s =? 0) then mpb_mul1_base DBIGNUM_LEN_MAX (ad_tab s) (u32 (pow_ui radix (ad_limb s))) (ad_cur s) else Done (ad_tab s) in
  let is_zero := ad_count s =? 0 in
  let expn_offset := if is_zero then 0 else sig_pos + ad_count s - (if dot_pos <? 0 then pos else dot_pos) in
  let tab := if negb (radix_bits =? 0) && negb (ad_extra s =? 0) then or_low tab 1 else tab in
  let finish (p expn : Z) (is_bin_exp : bool) : run atod_out :=
    if p =? ai_start c then Done (None, p)
    else if is_zero then Done (Some 0, p)
    else let* a := atod_value radix radix_bits tab (ad_count s) expn_offset expn is_bin_exp in Done (Some a, p) in
  let* x := char_at (ai_str c) p in
  if negb (int_only c) && expn_mark radix radix_bits x && (ai_start c <? p) then
    let is_bin_exp := is_bin_mark x in
    let* y := char_at (ai_str c) (p + 1) in
    let exp_is_neg := y =? 45 in
    let p := if (y =? 43) || exp_is_neg then p + 2 else p + 1 in
    let* d := char_at (ai_str c) p in
    if 10 <=? to_digit d then Done (None, p)
    else
      let* (p, expn, overflow) := read_expn (S (length (ai_str c))) c (p + 1) (to_digit d) false in
      if negb is_zero && overflow then Done (Some (if exp_is_neg then 0 else Z.shiftl 2047 52), p)
      else finish p (if exp_is_neg then - expn else expn) is_bin_exp
  else finish p 0 false.

(** The characters of "Infinity" from [p] on. *)
Fixpoint starts_with (str : list Z) (p : Z) (l : list Z) : run bool :=
  match l with
  | [] => Done true
  | x :: l => let* y := char_at str p in if y =? x then starts_with str (p + 1) l else Done false
  end.

(** [for (i = 1; (p[i] >= '0' && p[i] <= '7'); i++)]: the character after them. *)
Fixpoint after_octal (fuel : nat) (str : list Z) (p : Z) : run Z :=
  match fuel with
  | O => Spins
  | S fuel => let* x := char_at str p in if (48 <=? x) && (x <=? 55) then after_octal fuel str (p + 1) else Done x
  end.

(** The prefix: where the digits start, the radix and the separator. *)
Definition atod_prefix (str : list Z) (p radix flags sep : Z) : run (Z * Z * Z * bool) :=
  let* x := char_at str p in
  if x =? 48 then
    let* y := char_at str (p + 1) in
    if ((y =? 120) || (y =? 88)) && ((radix =? 0) || (radix =? 16)) then Done (p + 2, 16, sep, true)
    else if ((y =? 111) || (y =? 79)) && (radix =? 0) && negb (Z.land flags JS_ATOD_ACCEPT_BIN_OCT =? 0) then Done (p + 2, 8, sep, true)
    else if ((y =? 98) || (y =? 66)) && (radix =? 0) && negb (Z.land flags JS_ATOD_ACCEPT_BIN_OCT =? 0) then Done (p + 2, 2, sep, true)
    else if ((48 <=? y) && (y <=? 57)) && (radix =? 0) && negb (Z.land flags JS_ATOD_ACCEPT_LEGACY_OCTAL =? 0) then
      let* z := after_octal (S (length str)) str (p + 1) in
      if (z =? 56) || (z =? 57) then Done (p, radix, 256, false) else Done (p + 1, 8, 256, true)
    else Done (p, radix, sep, false)
  else Done (p, radix, sep, false).

Definition atod_number (str : list Z) (p_start radix flags : Z) : run atod_out :=
  let sep := if negb (Z.land flags JS_ATOD_ACCEPT_UNDERSCORES =? 0) then 95 else 256 in
  let* x := char_at str p_start in
  let* inf := if negb (x =? 48) && (Z.land flags JS_ATOD_INT_ONLY =? 0) then starts_with str p_start INFINITY_TEXT else Done false in
  if inf : bool then Done (Some (Z.shiftl 2047 52), p_start + 8)
  else
    let* (p, radix, sep, prefixed) := atod_prefix str p_start radix flags sep in
    let* d := char_at str p in
    if (prefixed : bool) && (radix <=? to_digit d) then Done (None, p)
    else
      let c := mkAtodIn str p_start (if radix =? 0 then 10 else radix) sep flags in
      let fuel := S (length str) in
      let* (p, pos, dot_pos) := skip_zeros fuel c p 0 (-1) in
      let* (p, pos', dot_pos, s) := read_digits fuel c p pos dot_pos (mkDigits [0] 0 0 0 0) in
      atod_finish c p pos' pos dot_pos s.

(** The bits of the number, [None] for NaN, and [*pnext]. *)
Definition js_atod (str : list Z) (radix flags : Z) : run atod_out :=
  let* x := char_at str 0 in
  let is_neg := x =? 45 in
  let p := if (x =? 43) || is_neg then 1 else 0 in
  let* (a, p) := atod_number str p radix flags in
  Done (match a with Some a => Some (Z.lor a (Z.shiftl (b2z is_neg) 63)) | None => None end, p).
