(* ===== verification/DtoaProofs.v ===== *)
(** * Numbers and text: the arithmetic is exact

    Limb arrays as integers; rounding shifts; scaling by powers of the radix. *)

From stdpp Require Import base list numbers.
From Stdlib Require Import ZArith Lia.
From S2P Require Import Prelude Utf8 Utf8Proofs Dtoa.

#[local] Open Scope Z_scope.

(** ** Values *)

(** The number [sum(i, tab[i]*2^(LIMB_BITS * i))]. *)
Fixpoint value (tab : list Z) : Z := match tab with [] => 0 | a :: t => a + 2 ^ 32 * value t end.

Definition limb (a : Z) : Prop := 0 <= a < 2 ^ 32.
Definition limbs (tab : list Z) : Prop := Forall limb tab.

(** [2^(LIMB_BITS * n)] *)
Definition top (tab : list Z) : Z := 2 ^ (32 * lenZ tab).

Lemma top_nil : top [] = 1.
Proof. done. Qed.

Lemma top_cons a t : top (a :: t) = 2 ^ 32 * top t.
Proof. unfold top. rewrite lenZ_cons. rewrite <- Z.pow_add_r by (pose proof (lenZ_nonneg t); lia). f_equal. lia. Qed.

Lemma top_pos t : 0 < top t.
Proof. unfold top. pose proof (lenZ_nonneg t). lia. Qed.

Lemma top_same t t' : length t' = length t -> top t' = top t.
Proof. unfold top, lenZ. by intros ->. Qed.

Lemma value_range t : limbs t -> 0 <= value t < top t.
Proof. induction 1 as [| a t Ha Ht IH]; [done |]. cbn [value]. rewrite top_cons. unfold limb in Ha. nia. Qed.

Lemma value_app t t' : value (t ++ t') = value t + top t * value t'.
Proof. induction t as [| a t IH]; [cbn [app value]; rewrite top_nil; lia |]. cbn [app value]. rewrite IH, top_cons. lia. Qed.

Lemma lor_limbs r a : 0 <= r -> limb a -> Z.lor (Z.shiftl r LIMB_BITS) a = r * 2 ^ 32 + a.
Proof. intros Hr Ha. unfold LIMB_BITS, limb in *. rewrite Z.shiftl_mul_pow2, Z.lor_comm, (lor_plus a r 32) by lia. lia. Qed.

Lemma limb_div x : 0 <= x < 2 ^ 64 -> limb (u32 (Z.shiftr x LIMB_BITS)) /\ x = u32 x + 2 ^ 32 * u32 (Z.shiftr x LIMB_BITS).
Proof.
  intros Hx. unfold LIMB_BITS. rewrite Z.shiftr_div_pow2 by lia. assert (0 <= x / 2 ^ 32 < 2 ^ 32) by (split; [apply Z.div_pos; lia | apply Z.div_lt_upper_bound; lia]).
  rewrite (u32_small (x / 2 ^ 32)) by lia. split; [done |]. unfold u32. pose proof (Z.div_mod x (2 ^ 32)). lia.
Qed.

Lemma limb_u32 x : limb (u32 x).
Proof. apply u32_range. Qed.

(** ** The array operations *)

Ltac base_case := rewrite top_nil; split; [apply Forall_nil; exact I |]; split; [reflexivity |]; split; [assumption || lia | cbn [value]; lia].

Lemma mp_add_ui_spec tab k :
  limbs tab -> limb k -> let '(r, c) := mp_add_ui tab k in limbs r /\ length r = length tab /\ limb c /\ value r + c * top tab = value tab + k.
Proof.
  intros Ht. revert k. induction Ht as [| a t Ha Ht IH]; intros k Hk; cbn [mp_add_ui]; [base_case |].
  destruct (Z.eqb_spec k 0) as [-> | Hk0]; [split; [by constructor |]; split; [done |]; split; [done | lia] |].
  set (s := u32 (a + k)). specialize (IH (b2z (s <? k))). destruct (mp_add_ui t (b2z (s <? k))) as [r c]. unfold limb in *.
  destruct IH as (Hr & Hl & Hc & Hv); [destruct (s <? k); simpl; lia |]. pose proof (u32_range (a + k)) as Hs. fold s in Hs.
  split; [by constructor |]; split; [simpl; by rewrite Hl |]; split; [lia |]. cbn [value]. rewrite top_cons.
  assert (E : s + 2 ^ 32 * b2z (s <? k) = a + k).
  { unfold s, u32. destruct (Z.le_gt_cases (2 ^ 32) (a + k)) as [L | L].
    - rewrite <- (Z.mod_unique (a + k) (2 ^ 32) 1 (a + k - 2 ^ 32)) by lia. destruct (Z.ltb_spec (a + k - 2 ^ 32) k); simpl; lia.
    - rewrite Z.mod_small by lia. destruct (Z.ltb_spec (a + k) k); simpl; lia. }
  nia.
Qed.

Lemma mp_mul1_spec tab b l :
  limbs tab -> limb b -> limb l -> let '(r, h) := mp_mul1 tab b l in limbs r /\ length r = length tab /\ limb h /\ value r + h * top tab = value tab * b + l.
Proof.
  intros Ht Hb. revert l. induction Ht as [| a t Ha Ht IH]; intros l Hl; cbn [mp_mul1]; [base_case |].
  unfold limb in Ha, Hb, Hl. assert (Hx : 0 <= a * b + l < 2 ^ 64) by nia. rewrite u64_small by lia. destruct (limb_div (a * b + l) Hx) as [Hh E].
  specialize (IH _ Hh). destruct (mp_mul1 t b _) as [r h]. destruct IH as (Hr & Hlen & Hc & Hv). pose proof (u32_range (a * b + l)).
  split; [constructor; [apply u32_range | done] |]; split; [simpl; by rewrite Hlen |]; split; [apply Hc |]. cbn [value]. rewrite top_cons. nia.
Qed.

Lemma div_step r a b : 0 <= r < b -> limb a -> 0 < b <= 2 ^ 32 -> limb ((r * 2 ^ 32 + a) / b) /\ 0 <= (r * 2 ^ 32 + a) mod b < b.
Proof.
  intros Hr Ha Hb. unfold limb in *. split; [split; [apply Z.div_pos; nia | apply Z.div_lt_upper_bound; nia] | apply Z.mod_pos_bound; lia].
Qed.

Lemma mp_div1_spec tab b r :
  limbs tab -> 0 < b < 2 ^ 32 -> 0 <= r < b ->
  let '(q, r') := mp_div1 tab b r in limbs q /\ length q = length tab /\ 0 <= r' < b /\ r * top tab + value tab = value q * b + r'.
Proof.
  intros Ht Hb Hr. induction Ht as [| a t Ha Ht IH]; cbn [mp_div1]; [base_case |].
  destruct (mp_div1 t b r) as [q r']. destruct IH as (Hq & Hl & Hr' & Hv). rewrite lor_limbs by (done || lia). destruct (div_step r' a b Hr' Ha ltac:(lia)) as [Hd Hm].
  rewrite (u32_small (_ / b)) by apply Hd. rewrite (u32_small (_ mod b)) by lia.
  split; [by constructor |]; split; [simpl; by rewrite Hl |]; split; [lia |]. cbn [value]. rewrite top_cons. pose proof (Z.div_mod (r' * 2 ^ 32 + a) b). nia.
Qed.

Lemma shl_loop_spec tab shift l :
  limbs tab -> 1 <= shift < 32 -> 0 <= l < 2 ^ shift ->
  let '(r, h) := shl_loop tab shift l in limbs r /\ length r = length tab /\ 0 <= h < 2 ^ shift /\ value r + h * top tab = value tab * 2 ^ shift + l.
Proof.
  intros Ht Hs. revert l. induction Ht as [| a t Ha Ht IH]; intros l Hl; cbn [shl_loop]; [base_case |].
  unfold LIMB_BITS. rewrite Z.shiftr_div_pow2, Z.shiftl_mul_pow2 by lia. unfold limb in Ha.
  assert (Hp : 2 ^ 32 = 2 ^ (32 - shift) * 2 ^ shift) by (rewrite <- Z.pow_add_r by lia; f_equal; lia). assert (H32 : 0 < 2 ^ (32 - shift)) by lia. assert (H2s : 0 < 2 ^ shift) by lia.
  assert (Hd : 0 <= a / 2 ^ (32 - shift) < 2 ^ shift) by (split; [apply Z.div_pos; lia | apply Z.div_lt_upper_bound; lia]).
  specialize (IH _ Hd). destruct (shl_loop t shift _) as [r h]. destruct IH as (Hr & Hlen & Hh & Hv).
  rewrite Z.lor_comm, (lor_plus l a shift) by lia. split; [constructor; [apply u32_range | done] |]; split; [simpl; by rewrite Hlen |]; split; [lia |]. cbn [value]. rewrite top_cons.
  assert (E : u32 (l + a * 2 ^ shift) + 2 ^ 32 * (a / 2 ^ (32 - shift)) = l + a * 2 ^ shift).
  { unfold u32. pose proof (Z.div_mod (l + a * 2 ^ shift) (2 ^ 32)) as D. enough (Ed : (l + a * 2 ^ shift) / 2 ^ 32 = a / 2 ^ (32 - shift)) by (rewrite Ed in D; lia).
    rewrite Hp, (Z.mul_comm (2 ^ (32 - shift))), <- Z.div_div by lia. f_equal. rewrite Z.div_add, Z.div_small by lia. lia. }
  nia.
Qed.

Lemma shr_loop_spec tab shift high :
  limbs tab -> 1 <= shift < 32 -> 0 <= high < 2 ^ shift ->
  let '(r, l) := shr_loop tab shift high in let v := value tab + high * top tab in
  limbs r /\ length r = length tab /\ 0 <= l < 2 ^ 32 /\ value r = v / 2 ^ shift /\ v mod 2 ^ shift = l mod 2 ^ shift.
Proof.
  intros Ht Hs Hh. assert (Hp : 2 ^ 32 = 2 ^ (32 - shift) * 2 ^ shift) by (rewrite <- Z.pow_add_r by lia; f_equal; lia). assert (H32 : 0 < 2 ^ (32 - shift)) by lia. assert (H2s : 0 < 2 ^ shift) by lia.
  assert (Hlt : 2 ^ shift < 2 ^ 32) by (apply Z.pow_lt_mono_r; lia).
  induction Ht as [| a t Ha Ht IH]; cbn [shr_loop].
  { rewrite top_nil. cbn [value]. replace (0 + high * 1) with high by lia. split; [apply Forall_nil; exact I |]. rewrite Z.div_small by lia. split_and!; done || lia. }
  destruct (shr_loop t shift high) as [r l]. destruct IH as (Hr & Hl & Hll & Hv & Hm). unfold limb in Ha. cbn [value]. rewrite top_cons. set (T := value t + high * top t) in *.
  replace (a + 2 ^ 32 * value t + high * (2 ^ 32 * top t)) with (a + 2 ^ 32 * T) by (unfold T; lia). unfold LIMB_BITS. rewrite Z.shiftr_div_pow2, Z.shiftl_mul_pow2 by lia.
  assert (Ha2 : 0 <= a / 2 ^ shift < 2 ^ (32 - shift)) by (split; [apply Z.div_pos; lia | apply Z.div_lt_upper_bound; lia]).
  rewrite (lor_plus (a / 2 ^ shift) l (32 - shift)) by lia.
  assert (E : u32 (a / 2 ^ shift + l * 2 ^ (32 - shift)) = a / 2 ^ shift + (T mod 2 ^ shift) * 2 ^ (32 - shift)).
  { unfold u32. rewrite Hm. symmetry. apply (Z.mod_unique _ _ (l / 2 ^ shift)); [left; pose proof (Z.mod_pos_bound l (2 ^ shift)); nia |].
    rewrite Hp. rewrite (Z.div_mod l (2 ^ shift)) at 1 by lia. ring. }
  assert (Ed : (a + 2 ^ 32 * T) / 2 ^ shift = a / 2 ^ shift + T * 2 ^ (32 - shift)) by (replace (a + 2 ^ 32 * T) with (a + T * 2 ^ (32 - shift) * 2 ^ shift) by (rewrite Hp; ring); rewrite Z.div_add by lia; done).
  split; [constructor; [apply u32_range | done] |]. split; [simpl; by rewrite Hl |]. split; [lia |]. split.
  - rewrite Ed, E, Hv, Hp. transitivity (a / 2 ^ shift + (2 ^ shift * (T / 2 ^ shift) + T mod 2 ^ shift) * 2 ^ (32 - shift)); [ring |]. by rewrite <- Z.div_mod by lia.
  - replace (a + 2 ^ 32 * T) with (a + T * 2 ^ (32 - shift) * 2 ^ shift) by (rewrite Hp; ring). by rewrite Z.mod_add by lia.
Qed.

Lemma mp_shl_run tab shift :
  limbs tab -> 1 <= shift < 32 ->
  exists r h, mp_shl tab shift 0 = Done (r, h) /\ limbs r /\ length r = length tab /\ limb h /\ value r + h * top tab = value tab * 2 ^ shift.
Proof.
  intros Ht Hs. unfold mp_shl, LIMB_BITS. destruct (Z.leb_spec 1 shift), (Z.ltb_spec shift 32); try lia. cbn [andb assert_ run_bind].
  pose proof (shl_loop_spec tab shift 0 Ht Hs) as H1. assert (2 ^ shift < 2 ^ 32) by (apply Z.pow_lt_mono_r; lia). destruct (shl_loop tab shift 0) as [r h]. destruct H1 as (Hr & Hl & Hh & Hv); [lia |].
  exists r, h. unfold limb. split_and!; try done; lia.
Qed.

Lemma mp_shr_run tab shift :
  limbs tab -> 1 <= shift < 32 -> exists r x, mp_shr tab shift 0 = Done (r, x) /\ limbs r /\ length r = length tab /\ value r = value tab / 2 ^ shift.
Proof.
  intros Ht Hs. unfold mp_shr, LIMB_BITS. destruct (Z.leb_spec 1 shift), (Z.ltb_spec shift 32); try lia. cbn [andb assert_ run_bind].
  pose proof (shr_loop_spec tab shift 0 Ht Hs ltac:(lia)) as H1. destruct (shr_loop tab shift 0) as [r l]. cbv zeta in H1. rewrite Z.mul_0_l, Z.add_0_r in H1. destruct H1 as (Hr & Hl & _ & Hv & _).
  by exists r, (Z.land l (u32 (Z.shiftl 1 shift) - 1)).
Qed.

(** ** Normal numbers *)

(** The most significant limb is not 0, unless the number is one limb. *)
Definition normal (t : list Z) : Prop := t <> [] /\ ((1 < length t)%nat -> nthZ 0 t (lenZ t - 1) <> 0).

Lemma nth_last t a : nthZ 0 (t ++ [a]) (lenZ (t ++ [a]) - 1) = a.
Proof. unfold nthZ, lenZ. rewrite length_app. simpl. replace (Z.to_nat (Z.of_nat (length t + 1) - 1)) with (length t) by lia. by rewrite list_lookup_middle. Qed.

Lemma top_snoc t a : top (t ++ [a]) = 2 ^ 32 * top t.
Proof. unfold top. rewrite lenZ_app. change (lenZ [a]) with 1. rewrite <- Z.pow_add_r by (pose proof (lenZ_nonneg t); lia). f_equal. lia. Qed.

Lemma snoc_view (t : list Z) : t <> [] -> exists t' a, t = t' ++ [a].
Proof. intros Ht. destruct (exists_last Ht) as (t' & a & ->). by exists t', a. Qed.

(** So the value tells the length. *)
Lemma normal_len t n : limbs t -> normal t -> 1 <= n -> value t < 2 ^ (32 * n) -> lenZ t <= n.
Proof.
  intros Hl [Hne Hn] H1 Hv. destruct (snoc_view t Hne) as (t' & a & ->). rewrite nth_last in Hn. apply Forall_app in Hl as [Hl' Ha]. apply Forall_inv in Ha. unfold limb in Ha.
  rewrite value_app in Hv. cbn [value] in Hv. rewrite lenZ_app in *. change (lenZ [a]) with 1. pose proof (value_range t' Hl') as Hr. pose proof (lenZ_nonneg t').
  destruct (decide (length t' = 0%nat)) as [E | E]; [unfold lenZ; lia |]. assert (Ha0 : a <> 0) by (apply Hn; rewrite length_app; simpl; lia).
  assert (Hlt : top t' < 2 ^ (32 * n)) by nia. unfold top in Hlt. apply Z.pow_lt_mono_r_iff in Hlt; lia.
Qed.

Lemma normal_low t : limbs t -> normal t -> 1 < lenZ t -> 2 ^ (32 * (lenZ t - 1)) <= value t.
Proof.
  intros Hl [Hne Hn] Hlen. destruct (snoc_view t Hne) as (t' & a & ->). rewrite nth_last in Hn. apply Forall_app in Hl as [Hl' Ha]. apply Forall_inv in Ha. unfold limb in Ha.
  rewrite value_app. cbn [value]. rewrite lenZ_app in *. change (lenZ [a]) with 1 in *. pose proof (value_range t' Hl') as Hr. assert (Ha0 : a <> 0) by (apply Hn; unfold lenZ in Hlen; rewrite length_app; simpl; lia).
  replace (lenZ t' + 1 - 1) with (lenZ t') by lia. change (2 ^ (32 * lenZ t')) with (top t'). nia.
Qed.

Lemma renorm_spec t : limbs t -> t <> [] -> limbs (mpb_renorm t) /\ normal (mpb_renorm t) /\ value (mpb_renorm t) = value t /\ (length (mpb_renorm t) <= length t)%nat.
Proof.
  intros Hl Hne. unfold mpb_renorm. remember (length t) as n eqn:En. revert t En Hl Hne. induction n as [| n IH]; intros t En Hl Hne; [by destruct t |]. destruct n as [| n].
  { cbn [renorm_loop]. split; [done |]. split; [split; [done | lia] |]. split; [done | lia]. }
  change (renorm_loop (S (S n)) t) with (if nthZ 0 t (Z.of_nat (S n)) =? 0 then renorm_loop (S n) (take (S n) t) else t).
  destruct (snoc_view t Hne) as (t' & a & ->). rewrite length_app in En. simpl in En. assert (Hlt : length t' = S n) by lia.
  assert (Ea : nthZ 0 (t' ++ [a]) (Z.of_nat (S n)) = a) by (rewrite <- (nth_last t' a) at 2; f_equal; unfold lenZ; rewrite length_app; simpl; lia). rewrite Ea. apply Forall_app in Hl as [Hl' Ha].
  destruct (Z.eqb_spec a 0) as [-> | Ha0].
  - rewrite take_app_length' by done. destruct (IH t') as (H1 & H2 & H3 & H4); [done | done | by destruct t' |]. split; [done |]. split; [done |]. split; [rewrite H3, value_app; cbn [value]; lia | lia].
  - split; [by apply Forall_app |]. split; [split; [by destruct t' | intros _; by rewrite nth_last] |]. split; [done | rewrite length_app; simpl; lia].
Qed.

(** ** Bits *)

Lemma testbit_div v k : 0 <= k -> Z.testbit v k = Z.odd (v / 2 ^ k).
Proof. intros Hk. rewrite Z.testbit_odd, Z.shiftr_div_pow2 by done. done. Qed.

Lemma testbit_limb a v k : limb a -> 0 <= k -> Z.testbit (a + 2 ^ 32 * v) k = if k <? 32 then Z.testbit a k else Z.testbit v (k - 32).
Proof.
  intros Ha Hk. unfold limb in Ha. destruct (Z.ltb_spec k 32) as [L | L]; rewrite !testbit_div by lia.
  - replace (2 ^ 32 * v) with (v * 2 ^ (32 - k) * 2 ^ k) by (rewrite <- Z.mul_assoc, <- Z.pow_add_r by lia; replace (32 - k + k) with 32 by lia; lia). rewrite Z.div_add by lia.
    rewrite Z.odd_add, Z.odd_mul, (Z.odd_pow 2) by lia. by rewrite andb_false_r, xorb_false_r.
  - replace (2 ^ k) with (2 ^ 32 * 2 ^ (k - 32)) by (rewrite <- Z.pow_add_r by lia; f_equal; lia). rewrite <- Z.div_div by lia. f_equal. f_equal.
    rewrite Z.mul_comm, Z.div_add, Z.div_small by lia. lia.
Qed.

Lemma nthZ_cons a t i : 0 <= i -> nthZ 0 (a :: t) i = if i =? 0 then a else nthZ 0 t (i - 1).
Proof. intros Hi. unfold nthZ. destruct (Z.eqb_spec i 0) as [-> | Hne]; [done |]. replace (Z.to_nat i) with (S (Z.to_nat (i - 1))) by lia. done. Qed.

Lemma value_testbit t k : limbs t -> 0 <= k -> Z.testbit (value t) k = Z.testbit (nthZ 0 t (k / 32)) (k mod 32).
Proof.
  intros Ht. revert k. induction Ht as [| a t Ha Ht IH]; intros k Hk; [unfold nthZ; by rewrite !Z.testbit_0_l |]. cbn [value]. rewrite testbit_limb, nthZ_cons by (done || apply Z.div_pos; lia).
  destruct (Z.ltb_spec k 32) as [L | L]; [by rewrite Z.div_small, Z.mod_small by lia |]. rewrite IH by lia.
  replace k with ((k - 32) + 1 * 32) by lia. rewrite Z.div_add, Z.mod_add by lia. assert (0 <= (k - 32) / 32) by (apply Z.div_pos; lia).
  destruct (Z.eqb_spec ((k - 32) / 32 + 1) 0); [lia |]. by replace (k - 32 + 1 * 32 - 32) with (k - 32) by lia; replace ((k - 32) / 32 + 1 - 1) with ((k - 32) / 32) by lia.
Qed.

Lemma land_31 k : 0 <= k -> Z.land k (LIMB_BITS - 1) = k mod 32.
Proof. intros Hk. change (LIMB_BITS - 1) with (Z.ones 5). by rewrite Z.land_ones. Qed.

Lemma mpb_get_bit_spec t k : limbs t -> 0 <= k -> mpb_get_bit t k = b2z (Z.testbit (value t) k).
Proof.
  intros Ht Hk. rewrite value_testbit by done. unfold mpb_get_bit. rewrite land_31 by done. unfold LIMB_BITS. assert (0 <= k / 32) by (apply Z.div_pos; lia). destruct (Z.leb_spec (lenZ t) (k / 32)) as [L | L].
  - unfold nthZ. rewrite lookup_ge_None_2 by (unfold lenZ in L; lia). simpl. by rewrite Z.testbit_0_l.
  - pose proof (Z.mod_pos_bound k 32). rewrite testbit_div by lia. change 1 with (Z.ones 1). rewrite Z.land_ones, Z.shiftr_div_pow2, Zmod_odd by lia. by destruct (Z.odd _).
Qed.

Lemma foldl_lor_zero l acc : foldl Z.lor acc l = 0 <-> acc = 0 /\ Forall (fun x => x = 0) l.
Proof.
  revert acc. induction l as [| x l IH]; intros acc; simpl; [split; [intros ->; split; [done | constructor] | by intros []] |]. rewrite IH, Z.lor_eq_0_iff. split.
  - intros [[-> ->] H]. split; [done | by constructor].
  - intros [-> H]. inversion H; subst. done.
Qed.

Lemma value_zero t : limbs t -> value t = 0 <-> Forall (fun x => x = 0) t.
Proof.
  induction 1 as [| a t Ha Ht IH]; [split; [constructor | done] |]. cbn [value]. pose proof (value_range t Ht). unfold limb in Ha. split.
  - intros E. assert (a = 0 /\ value t = 0) as [-> E0] by nia. constructor; [done | by apply IH].
  - intros E. inversion E as [| ? ? E1 E2]; subst. apply IH in E2. lia.
Qed.

(** The low bits of a number whose limbs are split at [l]. *)
Lemma value_mod t1 a t2 k : limbs t1 -> limb a -> 0 <= k <= 32 -> value (t1 ++ a :: t2) mod (top t1 * 2 ^ k) = value t1 + top t1 * (a mod 2 ^ k).
Proof.
  intros H1 Ha Hk. rewrite value_app. cbn [value]. pose proof (value_range t1 H1). pose proof (top_pos t1). pose proof (Z.mod_pos_bound a (2 ^ k)).
  symmetry. apply (Z.mod_unique _ _ (a / 2 ^ k + 2 ^ (32 - k) * value t2)); [left; nia |].
  replace (2 ^ 32) with (2 ^ k * 2 ^ (32 - k)) by (rewrite <- Z.pow_add_r by lia; f_equal; lia). rewrite (Z.div_mod a (2 ^ k)) at 1 by lia. ring.
Qed.

Lemma low_bits_spec t shift : limbs t -> 1 <= shift -> (low_bits t shift =? 0) = (value t mod 2 ^ (shift - 1) =? 0).
Proof.
  intros Ht Hs. apply eq_bool_prop_intro. rewrite !Is_true_true, !Z.eqb_eq. unfold low_bits. destruct (Z.leb_spec 2 shift) as [L | L].
  2: { replace shift with 1 by lia. by rewrite Z.mod_1_r. }
  rewrite land_31 by lia. unfold LIMB_BITS. set (k := shift - 1). set (l := k / 32). assert (Hl : 0 <= l) by (apply Z.div_pos; lia). pose proof (Z.mod_pos_bound k 32) as Hk. pose proof (Z.div_mod k 32) as Ek. fold l in Ek.
  destruct (Z.ltb_spec l (lenZ t)) as [Ll | Ll].
  - unfold lenZ in Ll. destruct (lookup_lt_is_Some_2 t (Z.to_nat l)) as [a Ea]; [lia |]. rewrite Z.min_l by (unfold lenZ; lia). assert (En : nthZ 0 t l = a) by (unfold nthZ; by rewrite Ea).
    rewrite En, Z.lor_eq_0_iff, foldl_lor_zero. set (t1 := take (Z.to_nat l) t). assert (Et : t = t1 ++ a :: drop (S (Z.to_nat l)) t) by (symmetry; by apply take_drop_middle).
    assert (H1 : limbs t1) by (by apply Forall_take). assert (Ha : limb a) by (by apply (Forall_lookup_1 _ _ _ _ Ht Ea)).
    assert (Etop : top t1 = 2 ^ (32 * l)) by (unfold top, lenZ, t1; rewrite length_take; do 2 f_equal; lia).
    assert (Epow : 2 ^ k = top t1 * 2 ^ (k mod 32)) by (rewrite Etop, <- Z.pow_add_r by lia; f_equal; lia).
    rewrite Z.shiftl_1_l, u32_small by (split; [lia | apply Z.pow_lt_mono_r; lia]). replace (2 ^ (k mod 32) - 1) with (Z.ones (k mod 32)) by (rewrite Z.ones_equiv; lia). rewrite Z.land_ones by lia.
    rewrite Epow. assert (Ev : value t mod (top t1 * 2 ^ (k mod 32)) = value t1 + top t1 * (a mod 2 ^ (k mod 32))) by (rewrite <- (value_mod t1 a (drop (S (Z.to_nat l)) t)), <- Et by (done || lia); done). rewrite Ev. rewrite <- (value_zero t1 H1). pose proof (value_range t1 H1). pose proof (top_pos t1). pose proof (Z.mod_pos_bound a (2 ^ (k mod 32))). split; [intros [[_ E1] E2]; nia | intros E; split; [split; [done |] |]; nia].
  - rewrite Z.min_r, take_ge, foldl_lor_zero by (unfold lenZ in *; lia). rewrite <- (value_zero t Ht). pose proof (value_range t Ht). rewrite Z.mod_small; [tauto |].
    split; [lia |]. enough (top t <= 2 ^ k) by lia. unfold top. apply Z.pow_le_mono_r; lia.
Qed.

(** ** Rounding *)

(** [n / d] as an integer. *)
Definition round_div (mode : rnd_mode) (n d : Z) : Z :=
  let q := n / d in
  let r := n mod d in
  match mode with
  | JS_RNDZ => q
  | JS_RNDNA => if d <=? 2 * r then q + 1 else q
  | JS_RNDN => if (d <? 2 * r) || (d =? 2 * r) && Z.odd q then q + 1 else q
  end.

Lemma add_one_spec t shift mode :
  limbs t -> 1 <= shift -> round_div mode (value t) (2 ^ shift) = value t / 2 ^ shift + add_one t shift mode /\ 0 <= add_one t shift mode <= 1.
Proof.
  intros Ht Hs. set (V := value t). set (q := V / 2 ^ shift). set (w := V mod 2 ^ (shift - 1)). set (bit := b2z (Z.testbit V (shift - 1))).
  assert (Ep : 2 ^ shift = 2 * 2 ^ (shift - 1)) by (rewrite <- Z.pow_succ_r by lia; f_equal; lia).
  assert (Er : V mod 2 ^ shift = bit * 2 ^ (shift - 1) + w) by (unfold bit, w; rewrite testbit_div, Ep, Z.mul_comm, Z.rem_mul_r, Zmod_odd by lia; destruct (Z.odd _); simpl; lia).
  pose proof (Z.mod_pos_bound V (2 ^ (shift - 1))) as Hw. fold w in Hw. assert (0 < 2 ^ (shift - 1)) by lia.
  assert (Hodd : b2z (Z.testbit V shift) = b2z (Z.odd q)) by (by rewrite testbit_div by lia).
  unfold round_div, add_one. fold V q. rewrite Er, !mpb_get_bit_spec by (done || lia). fold V. rewrite Hodd. fold bit.
  assert (Hb : bit = 0 \/ bit = 1) by (unfold bit; destruct (Z.testbit _ _); auto).
  destruct mode; [rewrite low_bits_spec by done; fold V w | | lia].
  - destruct (Z.ltb_spec (2 ^ shift) (2 * (bit * 2 ^ (shift - 1) + w))), (Z.eqb_spec (2 ^ shift) (2 * (bit * 2 ^ (shift - 1) + w))), Hb as [E | E]; rewrite E in *; cbn [negb Z.eqb orb andb]; try lia.
    + destruct (Z.eqb_spec w 0); cbn [negb]; lia.
    + destruct (Z.eqb_spec w 0); cbn [negb]; [destruct (Z.odd q); simpl; lia | lia].
  - destruct (Z.leb_spec (2 ^ shift) (2 * (bit * 2 ^ (shift - 1) + w))), Hb as [E | E]; rewrite E in *; cbn [negb Z.eqb]; lia.
Qed.

(** A number: at least one limb, and none to spare. *)
Definition num (t : list Z) : Prop := limbs t /\ normal t.

Lemma normal_value t : limbs t -> t <> [] -> (1 < lenZ t -> 2 ^ (32 * (lenZ t - 1)) <= value t) -> normal t.
Proof.
  intros Hl Hne Hv. split; [done |]. intros Hlen. destruct (snoc_view t Hne) as (t' & a & ->). rewrite nth_last. intros ->.
  rewrite value_app in Hv. cbn [value] in Hv. rewrite length_app in Hlen. simpl in Hlen. apply Forall_app in Hl as [Hl' _]. pose proof (value_range t' Hl') as Hr.
  rewrite lenZ_app in Hv. change (lenZ [0]) with 1 in Hv. replace (lenZ t' + 1 - 1) with (lenZ t') in Hv by lia. change (2 ^ (32 * lenZ t')) with (top t') in Hv. unfold lenZ in Hv. lia.
Qed.

Lemma num_drop n t : num t -> (n < length t)%nat -> num (drop n t) /\ value (drop n t) = value t / 2 ^ (32 * Z.of_nat n).
Proof.
  intros [Hl Hn] Hlt. assert (Ht : top (take n t) = 2 ^ (32 * Z.of_nat n)) by (unfold top, lenZ; rewrite length_take; do 2 f_equal; lia).
  assert (Hv : value (drop n t) = value t / 2 ^ (32 * Z.of_nat n)).
  { rewrite <- Ht. assert (E : value t = value (take n t) + top (take n t) * value (drop n t)) by (by rewrite <- value_app, take_drop). rewrite E. pose proof (value_range (take n t) ltac:(by apply Forall_take)). rewrite (Z.mul_comm (top _)), Z.div_add, Z.div_small by lia. lia. }
  split; [| done]. split; [by apply Forall_drop |]. destruct Hn as [_ Hn]. split; [intros E; apply (f_equal length) in E; rewrite length_drop in E; simpl in E; lia |].
  rewrite length_drop. intros H1. specialize (Hn ltac:(lia)). unfold nthZ, lenZ in *. rewrite lookup_drop, length_drop. replace (n + Z.to_nat (Z.of_nat (length t - n) - 1))%nat with (Z.to_nat (Z.of_nat (length t) - 1)) by lia. done.
Qed.

Lemma num_nonempty t : num t -> 1 <= lenZ t.
Proof. intros [_ [H _]]. destruct t; [done |]. unfold lenZ. simpl. lia. Qed.

Lemma num_single a : limb a -> num [a].
Proof. intros Ha. split; [by apply Forall_singleton |]. split; [done |]. simpl. lia. Qed.

Lemma num_snoc t a : limbs t -> limb a -> a <> 0 -> num (t ++ [a]).
Proof. intros Hl Ha H0. split; [apply Forall_app; split; [done | by apply Forall_singleton] |]. split; [by destruct t |]. intros _. by rewrite nth_last. Qed.

Lemma num_renorm t : limbs t -> t <> [] -> num (mpb_renorm t) /\ value (mpb_renorm t) = value t /\ lenZ (mpb_renorm t) <= lenZ t.
Proof. intros Hl Hne. destruct (renorm_spec t Hl Hne) as (H1 & H2 & H3 & H4). split; [done |]. split; [done | unfold lenZ; lia]. Qed.

Lemma lenZ_same (t t' : list Z) : length t' = length t -> lenZ t' = lenZ t.
Proof. unfold lenZ. by intros ->. Qed.

Lemma same_nonempty (t t' : list Z) : length t' = length t -> t <> [] -> t' <> [].
Proof. by destruct t, t'. Qed.

(** The last step of a right shift. *)
Lemma add_carry cap t :
  num t -> lenZ t <= cap -> (value t + 1 < 2 ^ (32 * cap)) ->
  exists r, (let '(tab, a) := mp_add_ui t 1 in if negb (a =? 0) then mpb_push cap tab a else Done tab) = Done r /\ num r /\ value r = value t + 1.
Proof.
  intros [Hl Hn] Hcap Hv. pose proof (mp_add_ui_spec t 1 Hl) as H1. destruct (mp_add_ui t 1) as [r c]. destruct H1 as (Hr & Hlen & Hc & Ev); [unfold limb; lia |]. unfold limb in Hc. pose proof (value_range r Hr) as Hrr. pose proof (value_range t Hl) as Htr. rewrite (top_same t r Hlen) in Hrr.
  pose proof (top_pos t) as Htp. destruct (Z.eqb_spec c 0) as [-> | Hc0]; cbn [negb].
  - exists r. split; [done |]. split; [| lia]. split; [done |]. apply normal_value; [done | by eapply same_nonempty; [apply Hlen | apply Hn] |]. rewrite (lenZ_same t r Hlen). intros H1. pose proof (normal_low t Hl Hn H1). lia.
  - assert (c = 1) as -> by nia. unfold mpb_push. rewrite (lenZ_same t r Hlen). destruct (Z.ltb_spec (lenZ t) cap) as [L | L].
    + exists (r ++ [1]). split; [done |]. split; [by apply num_snoc |]. rewrite value_app, (top_same t r Hlen). cbn [value]. lia.
    + assert (lenZ t = cap) by lia. subst cap. change (2 ^ (32 * lenZ t)) with (top t) in Hv. lia.
Qed.

Lemma shr_round_right cap t shift mode :
  num t -> 1 <= shift -> lenZ t <= cap ->
  exists r, mpb_shr_round cap t shift mode = Done r /\ num r /\ value r = round_div mode (value t) (2 ^ shift).
Proof.
  intros Hnum Hs Hcap. pose proof Hnum as [Hl Hn]. destruct (add_one_spec t shift mode Hl Hs) as [-> Hone]. unfold mpb_shr_round. destruct (Z.eqb_spec shift 0), (Z.ltb_spec shift 0); try lia.
  set (one := add_one t shift mode) in *. rewrite land_31 by lia. unfold LIMB_BITS. pose proof (Z.div_mod shift 32 ltac:(lia)) as Ed. pose proof (Z.mod_pos_bound shift 32 ltac:(lia)) as Hm. assert (H0l : 0 <= shift / 32) by (apply Z.div_pos; lia).
  set (l := shift / 32) in *. set (k := shift mod 32) in *. pose proof (value_range t Hl) as Hr. destruct (Z.leb_spec (lenZ t) l) as [L | L].
  { exists [one]. split; [done |]. split; [apply num_single; unfold limb; lia |]. cbn [value]. rewrite Z.div_small; [lia |]. split; [lia |]. enough (top t <= 2 ^ shift) by lia. unfold top. apply Z.pow_le_mono_r; lia. }
  destruct (num_drop (Z.to_nat l) t Hnum ltac:(unfold lenZ in L; lia)) as [Hd Ed1]. rewrite Z2Nat.id in Ed1 by done.
  assert (E0 : (if 0 <? l then drop (Z.to_nat l) t else t) = drop (Z.to_nat l) t) by (destruct (Z.ltb_spec 0 l); [done |]; by replace l with 0 by lia). rewrite E0. clear E0. set (u := drop (Z.to_nat l) t) in *.
  assert (Hul : lenZ u <= cap) by (unfold u, lenZ in *; rewrite length_drop; lia).
  assert (Hk : exists w, (if negb (k =? 0) then (let* (tab, _) := mp_shr u k 0 in Done (mpb_renorm tab)) else Done u) = Done w /\ num w /\ value w = value t / 2 ^ shift /\ lenZ w <= lenZ u).
  { rewrite Ed, Z.pow_add_r, <- Z.div_div, <- Ed1 by lia. destruct (Z.eqb_spec k 0) as [E | Hk0]; cbn [negb]; [exists u; rewrite E, Z.div_1_r; split_and!; try apply Hd; done |].
    destruct (mp_shr_run u k) as (r & x & E & Hr1 & Hr2 & Hr3); [apply Hd | lia |]. rewrite E. cbn [run_bind]. destruct (num_renorm r Hr1) as (N1 & N2 & N3); [eapply same_nonempty; [apply Hr2 | apply Hd] |].
    exists (mpb_renorm r). rewrite (lenZ_same u r Hr2) in N3. split; [done |]. split; [done |]. split; [by rewrite N2 | done]. }
  destruct Hk as (w & -> & Hw & Ew & Hwl). cbn [run_bind]. destruct (Z.eqb_spec one 0) as [E1 | E1]; cbn [negb]; [exists w; split; [done |]; split; [done | lia] |].
  destruct (add_carry cap w Hw) as (r & -> & Hr' & Er); [lia | | exists r; split; [done |]; split; [done |]; lia].
  assert (Hhalf : value t / 2 ^ shift < 2 ^ (32 * cap) / 2); [| pose proof (Z.mul_div_le (2 ^ (32 * cap)) 2 ltac:(lia)); pose proof (Z.div_pos (value t) (2 ^ shift) ltac:(lia) ltac:(lia)); lia].
  pose proof (num_nonempty t Hnum). assert (top t <= 2 ^ (32 * cap)) by (apply Z.pow_le_mono_r; lia). assert (Hp : 2 ^ (32 * cap) = 2 * 2 ^ (32 * cap - 1)) by (rewrite <- Z.pow_succ_r by lia; f_equal; lia).
  assert (Hs2 : 2 <= 2 ^ shift) by (change 2 with (2 ^ 1) at 1; apply Z.pow_le_mono_r; lia). rewrite Hp, Z.mul_comm, Z.div_mul by lia. apply Z.div_lt_upper_bound; nia.
Qed.

Lemma value_zeros n t : value (replicate n 0 ++ t) = 2 ^ (32 * Z.of_nat n) * value t.
Proof.
  induction n as [| n IH]; [change (2 ^ (32 * Z.of_nat 0)) with 1; cbn [replicate app]; lia |]. cbn [replicate app value]. rewrite IH, Nat2Z.inj_succ, <- Z.add_1_r, Z.mul_add_distr_l, Z.pow_add_r by lia. lia.
Qed.

Lemma num_zeros n t : num t -> 0 < value t -> num (replicate n 0 ++ t).
Proof.
  intros [Hl [Hne Hn]] Hv. split; [apply Forall_app; split; [apply Forall_replicate; unfold limb; lia | done] |]. destruct (snoc_view t Hne) as (t' & a & ->). rewrite app_assoc.
  assert (a <> 0) as Ha; [| split; [by destruct (replicate n 0 ++ t') | intros _; by rewrite nth_last]]. rewrite nth_last in Hn. destruct t' as [| x t']; [cbn [app value] in Hv; lia | apply Hn; rewrite length_app; simpl; lia].
Qed.

Lemma limb_push_spec cap t h : limbs t -> limb h -> lenZ t < cap -> mpb_push cap t h = Done (t ++ [h]) /\ limbs (t ++ [h]) /\ value (t ++ [h]) = value t + h * top t.
Proof.
  intros Hl Hh Hc. unfold mpb_push. destruct (Z.ltb_spec (lenZ t) cap); [| lia]. split; [done |]. split; [apply Forall_app; split; [done | by apply Forall_singleton] |]. rewrite value_app. cbn [value]. lia.
Qed.

Lemma pow_32_lt a b : 0 <= b -> 2 ^ (32 * a) < 2 ^ (32 * b) -> a < b.
Proof. intros Hb H. destruct (Z.lt_ge_cases a b) as [| L]; [done |]. enough (2 ^ (32 * b) <= 2 ^ (32 * a)) by lia. apply Z.pow_le_mono_r; lia. Qed.

Lemma shr_round_left cap t shift mode :
  num t -> 0 <= shift -> 0 < value t -> value t * 2 ^ shift < 2 ^ (32 * (cap - 1)) -> 1 <= cap ->
  exists r, mpb_shr_round cap t (- shift) mode = Done r /\ num r /\ value r = value t * 2 ^ shift.
Proof.
  intros Hnum Hs Hpos Hv Hcap. unfold mpb_shr_round. destruct (Z.eqb_spec (- shift) 0) as [E | E]; [exists t; replace shift with 0 by lia; split; [done |]; split; [done | lia] |].
  destruct (Z.ltb_spec (- shift) 0); [| lia]. rewrite Z.opp_involutive, land_31 by lia. unfold LIMB_BITS. pose proof (Z.div_mod shift 32 ltac:(lia)) as Ed. pose proof (Z.mod_pos_bound shift 32 ltac:(lia)) as Hm. assert (H0l : 0 <= shift / 32) by (apply Z.div_pos; lia).
  set (l := shift / 32) in *. set (k := shift mod 32) in *. assert (Ep : 2 ^ shift = 2 ^ (32 * l) * 2 ^ k) by (rewrite <- Z.pow_add_r by lia; f_equal; lia). rewrite Ep in *. assert (H32l : 0 < 2 ^ (32 * l)) by lia. assert (H2k : 0 < 2 ^ k) by lia.
  assert (Hlc : l < cap - 1) by (apply pow_32_lt; [| nia]; destruct (Z.le_gt_cases 0 (cap - 1)); [done | rewrite (Z.pow_neg_r 2) in Hv; nia]).
  assert (Hk : exists w, (if negb (k =? 0) then (let* (tab, h) := mp_shl t k 0 in let* tab := mpb_push cap tab h in Done (mpb_renorm tab)) else Done t) = Done w /\ num w /\ value w = value t * 2 ^ k).
  { destruct (Z.eqb_spec k 0) as [E0 | Hk0]; cbn [negb]; [exists t; rewrite E0; split; [done |]; split; [done | lia] |]. destruct (mp_shl_run t k) as (r & h & E1 & Hr1 & Hr2 & Hr3 & Hr4); [apply Hnum | lia |]. rewrite E1. cbn [run_bind].
    assert (lenZ t <= cap - 1) by (apply normal_len; [apply Hnum | apply Hnum | lia | nia]). destruct (limb_push_spec cap r h Hr1 Hr3) as (-> & P1 & P2); [rewrite (lenZ_same t r Hr2); lia |]. cbn [run_bind].
    destruct (num_renorm (r ++ [h]) P1) as (N1 & N2 & N3); [by destruct r |]. exists (mpb_renorm (r ++ [h])). split; [done |]. split; [done |]. rewrite N2, P2, (top_same t r Hr2). done. }
  destruct Hk as (w & -> & Hw & Ew). cbn [run_bind]. assert (Hwp : 0 < value w) by nia.
  assert (Hwl : lenZ w + l <= cap - 1).
  { enough (lenZ w <= cap - 1 - l) by lia. apply normal_len; [apply Hw | apply Hw | lia |]. apply (Z.mul_lt_mono_pos_l (2 ^ (32 * l))); [done |].
    rewrite <- Z.pow_add_r by lia. replace (32 * l + 32 * (cap - 1 - l)) with (32 * (cap - 1)) by lia. rewrite Ew. lia. }
  destruct (Z.ltb_spec 0 l) as [L | L].
  - destruct (Z.leb_spec (lenZ w + l) cap); [| lia]. exists (replicate (Z.to_nat l) 0 ++ w). split; [done |]. split; [by apply num_zeros |]. rewrite value_zeros, Z2Nat.id, Ew by lia. ring.
  - exists w. split; [done |]. split; [done |]. replace l with 0 by lia. lia.
Qed.

(** ** Division by an invariant limb *)

Lemma udiv1norm_init_spec d : 2 ^ 31 <= d < 2 ^ 32 -> limb (udiv1norm_init d) /\ exists k, 1 <= k <= d /\ (2 ^ 32 + udiv1norm_init d) * d = 2 ^ 64 - k.
Proof.
  intros Hd. unfold udiv1norm_init. replace (u32 (- d - 1)) with (2 ^ 32 - d - 1) by (unfold u32; rewrite <- (Z.mod_unique (- d - 1) (2 ^ 32) (-1) (2 ^ 32 - d - 1)); lia). change (u32 (-1)) with (2 ^ 32 - 1).
  rewrite lor_limbs by (unfold limb; lia). set (n := (2 ^ 32 - d - 1) * 2 ^ 32 + (2 ^ 32 - 1)). assert (Hq : 0 <= n / d < 2 ^ 32) by (split; [apply Z.div_pos; lia | apply Z.div_lt_upper_bound; lia]).
  rewrite u32_small by done. split; [done |]. pose proof (Z.div_mod n d). pose proof (Z.mod_pos_bound n d). exists (1 + n mod d). split; [lia |]. unfold n in *. lia.
Qed.

(** Multiplying by the inverse finds the quotient or one less. *)
Lemma inverse_low N d m k a1 a0 :
  N <= 2 * d -> d < N -> 1 <= k <= d -> (N + m) * d = N * N - k -> 0 <= a1 < d -> 0 <= a0 -> 2 * a0 < N ->
  let q := a1 + (m * a1 + a0) / N in 0 <= a1 * N + a0 - q * d < 2 * d.
Proof.
  intros HN Hd Hk Hm H1 H0 Hh. cbv zeta. set (X := m * a1 + a0). pose proof (Z.div_mod X N ltac:(lia)) as E. pose proof (Z.mod_pos_bound X N ltac:(lia)) as Hr. set (f := X / N) in *. set (r := X mod N) in *.
  assert (EN : N * (a1 * N + a0 - (a1 + f) * d) = a0 * (N - d) + k * a1 + d * r).
  { transitivity (a1 * (N * N) + a0 * N - a1 * (N * d) - d * (N * f)); [ring |]. replace (N * f) with (X - r) by lia. replace (N * N) with ((N + m) * d + k) by lia. unfold X. ring. }
  assert (Hlow : 0 <= a0 * (N - d) + k * a1 + d * r) by nia. assert (Hup : a0 * (N - d) + k * a1 + d * r < N * (2 * d)).
  { assert (2 * (a0 * (N - d)) <= N * (N - d)) by nia. assert (k * a1 <= d * d) by nia. assert (d * r < d * N) by nia. assert (0 <= (N - d) * (2 * d - N)) by nia. lia. }
  nia.
Qed.

Lemma inverse_high N d m k a1 a0 :
  N <= 2 * d -> d < N -> 1 <= k <= d -> (N + m) * d = N * N - k -> 0 <= a1 < d -> a0 < N -> N <= 2 * a0 ->
  let q := a1 + (m * (a1 + 1) + (a0 + d - N)) / N in 0 <= a1 * N + a0 - q * d < 2 * d.
Proof.
  intros HN Hd Hk Hm H1 H0 Hh. cbv zeta. set (X := m * (a1 + 1) + (a0 + d - N)). pose proof (Z.div_mod X N ltac:(lia)) as E. pose proof (Z.mod_pos_bound X N ltac:(lia)) as Hr. set (f := X / N) in *. set (r := X mod N) in *.
  assert (EN : N * (a1 * N + a0 - (a1 + f) * d) = (N - d) * (a0 + d - N) + k * (a1 + 1) + d * r).
  { transitivity (a1 * (N * N) + a0 * N - a1 * (N * d) - d * (N * f)); [ring |]. replace (N * f) with (X - r) by lia. replace (N * N) with ((N + m) * d + k) by lia. unfold X.
    transitivity (a1 * ((N + m) * d + k) + a0 * N - a1 * (N * d) - d * m * (a1 + 1) - d * (a0 + d - N) + d * r); [ring |]. assert (Hdm : d * m = N * N - k - N * d) by lia. rewrite Hdm, Hm. ring. }
  assert (Hlow : 0 <= (N - d) * (a0 + d - N) + k * (a1 + 1) + d * r) by nia. assert (Hup : (N - d) * (a0 + d - N) + k * (a1 + 1) + d * r < N * (2 * d)).
  { assert ((N - d) * (a0 + d - N) <= (N - d) * d) by nia. assert (k * (a1 + 1) <= d * d) by nia. assert (d * r < d * N) by nia. lia. }
  nia.
Qed.

(** The top bit of a limb, as a mask. *)
Lemma sign_mask a : limb a -> u32 (Z.shiftr (i32 a) (LIMB_BITS - 1)) = if a <? 2 ^ 31 then 0 else 2 ^ 32 - 1.
Proof.
  intros Ha. unfold limb in Ha. unfold LIMB_BITS, i32. rewrite Z.shiftr_div_pow2 by lia. destruct (Z.ltb_spec a (2 ^ 31)) as [L | L].
  - rewrite Z.mod_small by lia. replace (a + 2 ^ 31 - 2 ^ 31) with a by lia. by rewrite Z.div_small by lia.
  - rewrite <- (Z.mod_unique (a + 2 ^ 31) (2 ^ 32) 1 (a - 2 ^ 31)) by lia. replace (a - 2 ^ 31 - 2 ^ 31) with (a - 2 ^ 32) by lia. rewrite <- (Z.div_unique (a - 2 ^ 32) (2 ^ (32 - 1)) (-1) (a - 2 ^ 31)) by lia. done.
Qed.

Lemma mask_all x : limb x -> Z.land (2 ^ 32 - 1) x = x.
Proof. intros Hx. unfold limb in Hx. change (2 ^ 32 - 1) with (Z.ones 32). rewrite Z.land_comm, Z.land_ones by lia. by apply Z.mod_small. Qed.

(** The quotient that is tried. *)
Definition try_quot (a1 a0 d d_inv : Z) : Z :=
  let n1m := u32 (Z.shiftr (i32 a0) (LIMB_BITS - 1)) in
  u32 (Z.shiftr (u64 (d_inv * u32 (a1 - n1m) + u32 (a0 + Z.land n1m d))) LIMB_BITS + a1).

Lemma try_quot_spec a1 a0 d :
  2 ^ 31 <= d < 2 ^ 32 -> 0 <= a1 < d -> limb a0 -> let q := try_quot a1 a0 d (udiv1norm_init d) in 0 <= q < 2 ^ 32 /\ 0 <= a1 * 2 ^ 32 + a0 - q * d < 2 * d.
Proof.
  intros Hd H1 H0. cbv zeta. destruct (udiv1norm_init_spec d Hd) as (Hi & k & Hk & Ek). change (2 ^ 64) with (2 ^ 32 * 2 ^ 32) in Ek. unfold try_quot. set (m := udiv1norm_init d) in *. rewrite sign_mask by done. unfold limb in *.
  set (q1 := a1 + (if a0 <? 2 ^ 31 then m * a1 + a0 else m * (a1 + 1) + (a0 + d - 2 ^ 32)) / 2 ^ 32).
  assert (Hq : 0 <= a1 * 2 ^ 32 + a0 - q1 * d < 2 * d).
  { unfold q1. destruct (Z.ltb_spec a0 (2 ^ 31)); [apply (inverse_low (2 ^ 32) d m k) | apply (inverse_high (2 ^ 32) d m k)]; lia. }
  assert (Hr : 0 <= q1 < 2 ^ 32). { split; [| nia]. unfold q1. enough (0 <= (if a0 <? 2 ^ 31 then m * a1 + a0 else m * (a1 + 1) + (a0 + d - 2 ^ 32)) / 2 ^ 32) by lia. apply Z.div_pos; [destruct (Z.ltb_spec a0 (2 ^ 31)); nia | lia]. }
  match goal with |- context [u32 (Z.shiftr ?x LIMB_BITS + a1)] => enough (Ex : x = if a0 <? 2 ^ 31 then m * a1 + a0 else m * (a1 + 1) + (a0 + d - 2 ^ 32)) end.
  { unfold LIMB_BITS. rewrite Ex, Z.shiftr_div_pow2 by lia. rewrite Z.add_comm. fold q1. rewrite u32_small by lia. done. }
  destruct (Z.ltb_spec a0 (2 ^ 31)) as [L | L].
  - rewrite Z.land_0_l, Z.sub_0_r, Z.add_0_r, !u32_small, u64_small by nia. done.
  - rewrite mask_all by (unfold limb; lia). replace (u32 (a1 - (2 ^ 32 - 1))) with (a1 + 1) by (unfold u32; rewrite <- (Z.mod_unique (a1 - (2 ^ 32 - 1)) (2 ^ 32) (-1) (a1 + 1)); lia).
    replace (u32 (a0 + d)) with (a0 + d - 2 ^ 32) by (unfold u32; rewrite <- (Z.mod_unique (a0 + d) (2 ^ 32) 1 (a0 + d - 2 ^ 32)); lia). rewrite u64_small by nia. done.
Qed.

Lemma udiv1norm_spec a1 a0 d :
  2 ^ 31 <= d < 2 ^ 32 -> 0 <= a1 < d -> limb a0 -> udiv1norm a1 a0 d (udiv1norm_init d) = ((a1 * 2 ^ 32 + a0) / d, (a1 * 2 ^ 32 + a0) mod d).
Proof.
  intros Hd H1 H0. unfold udiv1norm. fold (try_quot a1 a0 d (udiv1norm_init d)). destruct (try_quot_spec a1 a0 d Hd H1 H0) as [Hq Hr]. set (q := try_quot _ _ _ _) in *. rewrite lor_limbs by (done || lia).
  set (n := a1 * 2 ^ 32 + a0) in *. unfold LIMB_BITS. rewrite Z.shiftr_div_pow2 by lia. destruct (Z.lt_ge_cases (n - q * d) d) as [L | L].
  - set (t := n - q * d) in *. assert (E : u64 (t - d) = t - d + 2 ^ 64) by (unfold u64; symmetry; apply (Z.mod_unique _ _ (-1)); lia). rewrite E.
    assert (E1 : (t - d + 2 ^ 64) / 2 ^ 32 = 2 ^ 32 - 1) by (symmetry; apply (Z.div_unique _ _ _ (t - d + 2 ^ 32)); lia). rewrite E1, (u32_small (2 ^ 32 - 1)) by lia. rewrite mask_all by (unfold limb; lia).
    rewrite (Z.mod_eq n d), <- (Z.div_unique n d q t) by lia. f_equal.
    + replace (q + 1 + (2 ^ 32 - 1)) with (q + 1 * 2 ^ 32) by lia. unfold u32. by rewrite Z.mod_add, Z.mod_small by lia.
    + unfold u32. rewrite Z.add_mod_idemp_l by lia. replace (t - d + 2 ^ 64 + d) with (t + 2 ^ 32 * 2 ^ 32) by lia. rewrite Z.mod_add, Z.mod_small by lia. lia.
  - set (t := n - q * d) in *. rewrite u64_small by lia. rewrite (Z.div_small (t - d)) by lia. change (u32 0) with 0. assert (Hlt : q + 1 < 2 ^ 32) by (apply (Z.mul_lt_mono_pos_r d); [lia |]; unfold limb in H0; enough (n < 2 ^ 32 * d) by lia; unfold n; nia).
    rewrite Z.land_0_l, !Z.add_0_r, !u32_small by lia. rewrite (Z.mod_eq n d), <- (Z.div_unique n d (q + 1) (t - d)) by lia. f_equal. rewrite (u32_small (t - d)), u32_small by lia. lia.
Qed.

Lemma div1norm_loop_spec tab b r :
  limbs tab -> 2 ^ 31 <= b < 2 ^ 32 -> 0 <= r < b ->
  let '(q, r') := div1norm_loop tab b r (udiv1norm_init b) in limbs q /\ length q = length tab /\ 0 <= r' < b /\ r * top tab + value tab = value q * b + r'.
Proof.
  intros Ht Hb Hr. induction Ht as [| a t Ha Ht IH]; cbn [div1norm_loop]; [base_case |].
  destruct (div1norm_loop t b r _) as [q r']. destruct IH as (Hq & Hl & Hr' & Hv). rewrite udiv1norm_spec by done. destruct (div_step r' a b Hr' Ha ltac:(lia)) as [Hd Hm].
  split; [by constructor |]; split; [simpl; by rewrite Hl |]; split; [lia |]. cbn [value]. rewrite top_cons. pose proof (Z.div_mod (r' * 2 ^ 32 + a) b). nia.
Qed.

(** The divisor [d], shifted to the top of a limb. *)
Lemma mp_div1norm_spec tab d shift :
  limbs tab -> 0 <= shift < 32 -> 2 ^ 31 <= d * 2 ^ shift < 2 ^ 32 ->
  exists q, mp_div1norm tab (d * 2 ^ shift) 0 (udiv1norm_init (d * 2 ^ shift)) shift = Done (q, value tab mod d) /\ limbs q /\ length q = length tab /\ value q = value tab / d.
Proof.
  intros Ht Hs Hb. set (b := d * 2 ^ shift) in *. assert (H2s : 0 < 2 ^ shift) by lia. assert (Hd : 0 < d) by nia.
  assert (E : exists tab' h, (if negb (shift =? 0) then (let* (tab, h) := mp_shl tab shift 0 in Done (tab, Z.lor (u32 (Z.shiftl 0 shift)) h)) else Done (tab, 0)) = Done (tab', h) /\
    limbs tab' /\ length tab' = length tab /\ 0 <= h < b /\ h * top tab' + value tab' = value tab * 2 ^ shift).
  { destruct (Z.eqb_spec shift 0) as [E0 | E0]; cbn [negb]; [exists tab, 0; rewrite E0; split_and!; try done; lia |].
    unfold mp_shl, LIMB_BITS. destruct (Z.leb_spec 1 shift), (Z.ltb_spec shift 32); try lia. cbn [andb assert_ run_bind].
    pose proof (shl_loop_spec tab shift 0 Ht ltac:(lia)) as H1. destruct (shl_loop tab shift 0) as [r h]. destruct H1 as (Hr & Hl & Hh & Hv); [lia |]. cbn [run_bind]. exists r, h. rewrite Z.shiftl_0_l, Z.lor_0_l. rewrite (top_same tab r Hl).
    assert (2 ^ shift <= 2 ^ 31) by (apply Z.pow_le_mono_r; lia). split_and!; try done; lia. }
  destruct E as (tab' & h & E & Ht' & Hl & Hh & Hv). unfold mp_div1norm. rewrite E. cbn [run_bind].
  pose proof (div1norm_loop_spec tab' b h Ht' Hb Hh) as H1. destruct (div1norm_loop tab' b h _) as [q r]. destruct H1 as (Hq & Hlq & Hr & Hvq). exists q.
  assert (Er : r = (value tab - value q * d) * 2 ^ shift) by (unfold b in Hvq; lia). rewrite Z.shiftr_div_pow2 by lia. rewrite Er, Z.div_mul by lia.
  assert (Hlow : 0 <= value tab - value q * d < d) by (unfold b in Hr; nia).
  rewrite <- (Z.mod_unique (value tab) d (value q) (value tab - value q * d)) by lia. rewrite <- (Z.div_unique (value tab) d (value q) (value tab - value q * d)) by lia. split_and!; congruence || done.
Qed.

(** ** Powers of the odd part of a radix *)

Definition odd_radixes : list Z := [3; 5; 7; 9; 11; 13; 15; 17; 19; 21; 23; 25; 27; 29; 31; 33; 35].
Definition per_limb (r : Z) : Z := nthZ 0 digits_per_limb_table (r - 2).
Definition exponents (r : Z) : list Z := map Z.of_nat (seq 1 (Z.to_nat (per_limb r))).

Definition pow_check (r n : Z) : bool :=
  let '(b, inv, shift) := pow_ui_inv r n in
  (pow_ui r n =? r ^ n) && (r ^ n <? 2 ^ 32) && (0 <=? shift) && (shift <? 32) && (b =? r ^ n * 2 ^ shift) && (2 ^ 31 <=? b) && (b <? 2 ^ 32) && (inv =? udiv1norm_init b).

Lemma pow_checked : forallb (fun r => (1 <=? per_limb r) && forallb (pow_check r) (exponents r)) odd_radixes = true.
Proof. vm_compute. reflexivity. Qed.

Lemma pow_at r n :
  In r odd_radixes -> 1 <= n <= per_limb r ->
  pow_ui r n = r ^ n /\ limb (r ^ n) /\ exists shift, pow_ui_inv r n = (r ^ n * 2 ^ shift, udiv1norm_init (r ^ n * 2 ^ shift), shift) /\ 0 <= shift < 32 /\ 2 ^ 31 <= r ^ n * 2 ^ shift < 2 ^ 32.
Proof.
  intros Hr Hn. pose proof pow_checked as H. rewrite forallb_forall in H. specialize (H r Hr). apply andb_prop in H as [_ H]. rewrite forallb_forall in H. specialize (H n).
  assert (Hin : In n (exponents r)) by (apply in_map_iff; exists (Z.to_nat n); split; [lia | apply in_seq; lia]). specialize (H Hin). unfold pow_check in H. destruct (pow_ui_inv r n) as [[b inv] shift].
  rewrite !andb_true_iff, !Z.eqb_eq, !Z.leb_le, !Z.ltb_lt in H. destruct H as [[[[[[[H1 H2] H3] H4] H5] H6] H7] H8]. assert (0 <= r ^ n) by (apply Z.pow_nonneg; repeat destruct Hr as [<- | Hr]; lia || done).
  split; [done |]. split; [done |]. exists shift. subst b. rewrite H8. done.
Qed.

Lemma per_limb_pos r : In r odd_radixes -> 1 <= per_limb r.
Proof. intros Hr. pose proof pow_checked as H. rewrite forallb_forall in H. specialize (H r Hr). apply andb_prop in H as [H _]. by apply Z.leb_le in H. Qed.

Lemma odd_radix_pos r : In r odd_radixes -> 3 <= r <= 35.
Proof. intros Hr. repeat destruct Hr as [<- | Hr]; lia || done. Qed.

(** ** Scaling *)

Lemma num_mul cap t b :
  num t -> limb b -> 1 <= b -> value t * b < 2 ^ (32 * cap) -> 1 <= cap ->
  exists r, (let '(a, h) := mp_mul1 t b 0 in if negb (h =? 0) then mpb_push cap a h else Done a) = Done r /\ num r /\ value r = value t * b.
Proof.
  intros [Hl Hn] Hb H1 Hv Hcap. pose proof (mp_mul1_spec t b 0 Hl Hb) as H. destruct (mp_mul1 t b 0) as [r h]. destruct H as (Hr & Hlen & Hh & Ev); [unfold limb; lia |]. pose proof (value_range t Hl) as Hvt. pose proof (value_range r Hr) as Hvr. pose proof (top_pos t).
  destruct (Z.eqb_spec h 0) as [-> | H0]; cbn [negb].
  - exists r. split; [done |]. split; [| lia]. split; [done |]. apply normal_value; [done | by eapply same_nonempty; [apply Hlen | apply Hn] |]. rewrite (lenZ_same t r Hlen). intros H1l. pose proof (normal_low t Hl Hn H1l). nia.
  - unfold limb in Hh. destruct (limb_push_spec cap r h Hr Hh) as (-> & P1 & P2).
    + rewrite (lenZ_same t r Hlen). apply pow_32_lt; [lia |]. change (2 ^ (32 * lenZ t)) with (top t). nia.
    + exists (r ++ [h]). split; [done |]. split; [by apply num_snoc |]. rewrite P2, (top_same t r Hlen). lia.
Qed.

Lemma run_bind_assoc_push (t : list Z) b cap (k : list Z -> run (list Z)) r :
  (let '(a, h) := mp_mul1 t b 0 in if negb (h =? 0) then mpb_push cap a h else Done a) = Done r ->
  (let '(a, h) := mp_mul1 t b 0 in let* a := if negb (h =? 0) then mpb_push cap a h else Done a in k a) = k r.
Proof. destruct (mp_mul1 t b 0) as [a h]. by intros ->. Qed.

Lemma mul_pow_up_spec cap r fuel t f b n0 :
  In r odd_radixes -> num t -> 0 <= f -> (Z.to_nat f < fuel)%nat -> 1 <= cap -> value t * r ^ f < 2 ^ (32 * cap) -> n0 = 0 \/ b = r ^ n0 ->
  exists a, mul_pow_up fuel cap t r (per_limb r) f b n0 = Done a /\ num a /\ value a = value t * r ^ f.
Proof.
  intros Hr. pose proof (per_limb_pos r Hr) as Hd. pose proof (odd_radix_pos r Hr) as Hr3. revert t f b n0. induction fuel as [| fuel IH]; intros t f b n0 Ht Hf Hfuel Hcap Hv Hc; [lia |]. cbn [mul_pow_up]. destruct (Z.eqb_spec f 0) as [-> | Hf0]; [exists t; split; [done |]; split; [done | lia] |].
  set (n := Z.min f (per_limb r)). destruct (pow_at r n Hr ltac:(lia)) as (Ep & Hl & _).
  assert (E : (if negb (n =? n0) then (u32 (pow_ui r n), n) else (b, n0)) = (r ^ n, n)) by (destruct (Z.eqb_spec n n0) as [<- | Hne]; cbn [negb]; [destruct Hc; [lia | by subst b] | by rewrite Ep, u32_small by apply Hl]). rewrite E.
  assert (Ef : r ^ f = r ^ n * r ^ (f - n)) by (rewrite <- Z.pow_add_r by lia; f_equal; lia). assert (0 < r ^ n) by (apply Z.pow_pos_nonneg; lia). assert (0 < r ^ (f - n)) by (apply Z.pow_pos_nonneg; lia). pose proof (value_range t ltac:(apply Ht)).
  destruct (num_mul cap t (r ^ n) Ht Hl) as (a & E1 & Ha & Ev); [lia | nia | done |]. rewrite (run_bind_assoc_push _ _ _ _ _ E1).
  destruct (IH a (f - n) (r ^ n) n Ha) as (a' & -> & Ha' & Ev'); [lia | lia | done | rewrite Ev; nia | by right |]. exists a'. split; [done |]. split; [done |]. rewrite Ev', Ev, Ef. ring.
Qed.

Lemma mod_mul_zero v b c : 0 < b -> 0 < c -> 0 <= v -> v mod (b * c) = 0 <-> v mod b = 0 /\ (v / b) mod c = 0.
Proof.
  intros Hb Hc Hv. rewrite Z.rem_mul_r by lia. pose proof (Z.mod_pos_bound v b). pose proof (Z.mod_pos_bound (v / b) c). nia.
Qed.

Lemma mul_pow_down_spec r fuel t f b inv shift n0 rem :
  In r odd_radixes -> num t -> 0 <= f -> (Z.to_nat f < fuel)%nat -> 0 <= rem -> n0 = 0 \/ pow_ui_inv r n0 = (b, inv, shift) ->
  exists a rem', mul_pow_down fuel t r (per_limb r) f b inv shift n0 rem = Done (a, rem') /\ num a /\ value a = value t / r ^ f /\ (rem' = 0 <-> rem = 0 /\ value t mod r ^ f = 0) /\ lenZ a <= lenZ t.
Proof.
  intros Hr. pose proof (per_limb_pos r Hr) as Hd. pose proof (odd_radix_pos r Hr) as Hr3. revert t f b inv shift n0 rem. induction fuel as [| fuel IH]; intros t f b inv shift n0 rem Ht Hf Hfuel Hrem Hc; [lia |]. cbn [mul_pow_down].
  destruct (Z.eqb_spec f 0) as [-> | Hf0]; [exists t, rem; rewrite Z.div_1_r, Z.mod_1_r; split; [done |]; split; [done |]; split; [done |]; split; [tauto | lia] |].
  set (n := Z.min f (per_limb r)). destruct (pow_at r n Hr ltac:(lia)) as (_ & _ & s & Ep & Hs & Hb).
  assert (E : (if negb (n =? n0) then (pow_ui_inv r n, n) else (b, inv, shift, n0)) = (r ^ n * 2 ^ s, udiv1norm_init (r ^ n * 2 ^ s), s, n)) by (destruct (Z.eqb_spec n n0) as [<- | Hne]; cbn [negb]; [destruct Hc as [Hc | Hc]; [lia | rewrite <- Hc, Ep; done] | by rewrite Ep]). rewrite E.
  destruct (mp_div1norm_spec t (r ^ n) s ltac:(apply Ht) Hs Hb) as (q & -> & Hq & Hlq & Eq). cbn [run_bind].
  destruct (num_renorm q Hq) as (N1 & N2 & N3); [eapply same_nonempty; [apply Hlq | apply Ht] |]. rewrite (lenZ_same t q Hlq) in N3.
  assert (0 < r ^ n) by (apply Z.pow_pos_nonneg; lia). assert (0 < r ^ (f - n)) by (apply Z.pow_pos_nonneg; lia). assert (Ef : r ^ f = r ^ n * r ^ (f - n)) by (rewrite <- Z.pow_add_r by lia; f_equal; lia). pose proof (value_range t ltac:(apply Ht)). pose proof (Z.mod_pos_bound (value t) (r ^ n)).
  destruct (IH (mpb_renorm q) (f - n) (r ^ n * 2 ^ s) (udiv1norm_init (r ^ n * 2 ^ s)) s n (Z.lor rem (value t mod r ^ n)) N1) as (a & rem' & -> & Ha & Ev & Hz & Hla); [lia | lia | apply Z.lor_nonneg; lia | by right |].
  exists a, rem'. split; [done |]. split; [done |]. rewrite Ef, Ev, N2, Eq, Z.div_div by lia. split; [done |]. split; [| lia]. rewrite Hz, N2, Eq, Z.lor_eq_0_iff, mod_mul_zero by lia. tauto.
Qed.

(** A remainder is remembered in the lowest bit: rounding two bits higher or
    more sees the same number. *)
Lemma or_low_spec t b : num t -> 0 <= b <= 1 -> num (or_low t b) /\ value (or_low t b) = Z.lor (value t) b /\ lenZ (or_low t b) = lenZ t.
Proof.
  intros [Hl [Hne Hn]] Hb. destruct t as [| a t]; [done |]. pose proof (Forall_inv Hl) as Ha. pose proof (Forall_inv_tail Hl) as Ht. cbn [or_low value]. pose proof (value_range t Ht) as Hvt.
  assert (Hab : limb (Z.lor a b)).
  { unfold limb in *. split; [apply Z.lor_nonneg; lia |]. apply Z.log2_lt_cancel. rewrite Z.log2_lor by lia. change (Z.log2 (2 ^ 32)) with 32. apply Z.max_lub_lt; [destruct (Z.eq_dec a 0) as [-> | ]; [done | apply Z.log2_lt_pow2; lia] |].
    assert (b = 0 \/ b = 1) as [-> | ->] by lia; done. }
  assert (Elen : length (Z.lor a b :: t) = length (a :: t)) by done. split; [| split; [| by apply lenZ_same]].
  - split; [by constructor |]. split; [done |]. intros Hlen. rewrite (lenZ_same _ _ Elen). assert (H1 : 1 < lenZ (a :: t)) by (unfold lenZ; simpl in *; lia). specialize (Hn ltac:(simpl in *; lia)). rewrite nthZ_cons in * by lia. by destruct (Z.eqb_spec (lenZ (a :: t) - 1) 0); [lia |].
  - unfold limb in *. apply Z.bits_inj'. intros k Hk. rewrite Z.lor_spec, !testbit_limb by (done || lia). destruct (Z.ltb_spec k 32); [by rewrite Z.lor_spec |]. assert (Hbk : Z.testbit b k = false) by (assert (b = 0 \/ b = 1) as [-> | ->] by lia; [apply Z.testbit_0_l | apply Z.bits_above_log2; [lia | change (Z.log2 1) with 0; lia]]). by rewrite Hbk, orb_false_r.
Qed.
