(* ===== verification/DtoaRound.v ===== *)
(** * Numbers and text: rounding

    Scaling by a power of the radix and rounding, as quotients of integers, and
    the binary64 number nearest to a quotient. *)

From stdpp Require Import base list numbers.
From Stdlib Require Import ZArith Lia.
From S2P Require Import Prelude Utf8 Utf8Proofs Dtoa DtoaText DtoaProofs.

#[local] Open Scope Z_scope.

(** ** Rounding quotients *)

Lemma round_scale mode n d c : 0 < d -> 0 < c -> round_div mode (c * n) (c * d) = round_div mode n d.
Proof.
  intros Hd Hc. unfold round_div. rewrite Z.div_mul_cancel_l, Z.mul_mod_distr_l by lia. set (q := n / d). set (r := n mod d).
  assert (E1 : (c * d <=? 2 * (c * r)) = (d <=? 2 * r)) by (destruct (Z.leb_spec d (2 * r)), (Z.leb_spec (c * d) (2 * (c * r))); done || nia).
  assert (E2 : (c * d <? 2 * (c * r)) = (d <? 2 * r)) by (destruct (Z.ltb_spec d (2 * r)), (Z.ltb_spec (c * d) (2 * (c * r))); done || nia).
  assert (E3 : (c * d =? 2 * (c * r)) = (d =? 2 * r)) by (destruct (Z.eqb_spec d (2 * r)), (Z.eqb_spec (c * d) (2 * (c * r))); done || nia).
  by rewrite E1, E2, E3.
Qed.

Lemma round_ratio mode n1 d1 n2 d2 : 0 < d1 -> 0 < d2 -> n1 * d2 = n2 * d1 -> round_div mode n1 d1 = round_div mode n2 d2.
Proof. intros H1 H2 E. rewrite <- (round_scale mode n1 d1 d2), <- (round_scale mode n2 d2 d1) by done. f_equal; lia. Qed.

Lemma round_exact mode c d : 0 < d -> round_div mode (c * d) d = c.
Proof.
  intros Hd. unfold round_div. rewrite Z.div_mul, Z.mod_mul by lia. destruct (Z.leb_spec d (2 * 0)), (Z.ltb_spec d (2 * 0)), (Z.eqb_spec d (2 * 0)); try lia. by destruct mode.
Qed.

Lemma lor_bit n b : 0 <= b <= 1 -> Z.lor n b = if Z.odd n then n else n + b.
Proof.
  intros Hb. assert (b = 0 \/ b = 1) as [-> | ->] by lia; [rewrite Z.lor_0_r, Z.add_0_r; by destruct (Z.odd n) |].
  destruct (Z.odd n) eqn:Ho.
  - apply Z.bits_inj'. intros k Hk. rewrite Z.lor_spec. destruct (Z.eq_dec k 0) as [-> | H0]; [by rewrite Z.bit0_odd, Ho |]. rewrite (Z.bits_above_log2 1 k) by (change (Z.log2 1) with 0; lia). by rewrite orb_false_r.
  - symmetry. rewrite Z.lor_comm. change 1 with (2 ^ 1 - 1) at 2. pose proof (Z.div2_odd n) as E. rewrite Ho in E. simpl Z.b2z in E. rewrite Z.add_0_r in E. rewrite E. replace (2 * Z.div2 n) with (Z.div2 n * 2 ^ 1) by lia.
    change (2 ^ 1 - 1) with 1. rewrite (lor_plus 1 (Z.div2 n) 1) by lia. lia.
Qed.

Lemma round_sticky mode X D s : 0 <= X -> 0 < D -> 2 <= s -> round_div mode (Z.lor (X / D) (b2z (negb (X mod D =? 0)))) (2 ^ s) = round_div mode X (D * 2 ^ s).
Proof.
  intros HX HD Hs. set (Q := X / D). set (ro := X mod D). pose proof (Z.mod_pos_bound X D HD) as Hro. fold ro in Hro. pose proof (Z.div_mod X D ltac:(lia)) as EX. fold Q ro in EX. assert (HQ : 0 <= Q) by (apply Z.div_pos; lia).
  set (H := 2 ^ (s - 2)). assert (Es : 2 ^ s = 4 * H) by (unfold H; change 4 with (2 ^ 2); rewrite <- Z.pow_add_r by lia; f_equal; lia). assert (HH : 0 < H) by (unfold H; lia). rewrite Es.
  set (q := Q / (4 * H)). set (t := Q mod (4 * H)). pose proof (Z.div_mod Q (4 * H) ltac:(lia)) as EQ. fold q t in EQ. pose proof (Z.mod_pos_bound Q (4 * H) ltac:(lia)) as Ht. fold t in Ht.
  set (b := b2z (negb (ro =? 0))). assert (Hb : 0 <= b <= 1) by (unfold b; destruct (ro =? 0); simpl; lia).
  set (t' := if Z.odd t then t else t + b). assert (Eodd : Z.odd Q = Z.odd t) by (rewrite EQ, Z.odd_add, !Z.odd_mul; by destruct (Z.odd q), (Z.odd t)).
  assert (EQ' : Z.lor Q b = 4 * H * q + t') by (rewrite lor_bit by done; unfold t'; rewrite Eodd; destruct (Z.odd t); lia).
  assert (Ht4 : Z.odd t = true -> exists x, t = 2 * x + 1) by (intros Ho; apply Z.odd_spec in Ho as [x ->]; by exists x). assert (Ht5 : Z.odd t = false -> exists x, t = 2 * x) by (rewrite <- Z.negb_even; intros Ho; apply negb_false_iff, Z.even_spec in Ho as [x ->]; by exists x).
  assert (Ht' : 0 <= t' < 4 * H) by (unfold t'; destruct (Z.odd t) eqn:Ho; [lia | destruct (Ht5 eq_refl); lia]).
  assert (Eq1 : Z.lor Q b / (4 * H) = q /\ Z.lor Q b mod (4 * H) = t') by (split; symmetry; [apply (Z.div_unique _ _ _ t') | apply (Z.mod_unique _ _ q)]; lia).
  assert (Eq2 : X / (D * (4 * H)) = q /\ X mod (D * (4 * H)) = t * D + ro) by (split; symmetry; [apply (Z.div_unique _ _ _ (t * D + ro)) | apply (Z.mod_unique _ _ q)]; nia).
  destruct Eq1 as [Ea Eb], Eq2 as [Ec Ed]. unfold round_div. rewrite Ea, Eb, Ec, Ed. assert (Hcmp : (t' ?= 2 * H) = (t * D + ro ?= 2 * H * D)).
  { unfold t', b. destruct (Z.eqb_spec ro 0) as [E0 | E0]; cbn [negb b2z].
    - rewrite E0, !Z.add_0_r. replace (if Z.odd t then t else t) with t by (by destruct (Z.odd t)). destruct (Z.compare_spec t (2 * H)), (Z.compare_spec (t * D) (2 * H * D)); done || nia.
    - destruct (Z.odd t) eqn:Ho; [destruct (Ht4 eq_refl) as [x Ex] | destruct (Ht5 eq_refl) as [x Ex]].
      + destruct (Z.compare_spec t (2 * H)), (Z.compare_spec (t * D + ro) (2 * H * D)); done || nia.
      + destruct (Z.compare_spec (t + 1) (2 * H)), (Z.compare_spec (t * D + ro) (2 * H * D)); done || nia. }
  assert (C1 : (4 * H <=? 2 * t') = (D * (4 * H) <=? 2 * (t * D + ro)) /\ (4 * H <? 2 * t') = (D * (4 * H) <? 2 * (t * D + ro)) /\ (4 * H =? 2 * t') = (D * (4 * H) =? 2 * (t * D + ro))).
  { destruct (Z.compare_spec t' (2 * H)), (Z.compare_spec (t * D + ro) (2 * H * D)); try done;
      destruct (Z.leb_spec (4 * H) (2 * t')), (Z.ltb_spec (4 * H) (2 * t')), (Z.eqb_spec (4 * H) (2 * t')), (Z.leb_spec (D * (4 * H)) (2 * (t * D + ro))), (Z.ltb_spec (D * (4 * H)) (2 * (t * D + ro))), (Z.eqb_spec (D * (4 * H)) (2 * (t * D + ro))); done || lia. }
  destruct C1 as (-> & -> & ->). done.
Qed.

(** ** Scaling a number and rounding it *)

Lemma set_u64_spec cap m : 2 <= cap -> 0 <= m < 2 ^ 64 -> exists t, mpb_set_u64 cap m = Done t /\ num t /\ value t = m.
Proof.
  intros Hc Hm. unfold mpb_set_u64. destruct (Z.leb_spec 2 cap); [| lia]. destruct (limb_div m Hm) as [Hh E]. pose proof (limb_u32 m) as Hl. unfold LIMB_BITS in *. eexists. split; [reflexivity |].
  destruct (Z.eqb_spec (u32 (Z.shiftr m 32)) 0) as [E0 | E0]; [split; [by apply num_single | cbn [value]; lia] |]. split; [apply (num_snoc [u32 m]); [by apply Forall_singleton | done | done] | cbn [value]; lia].
Qed.

Lemma mul_pow_0 cap t r rs f is_int e :
  (r = 1 \/ In r odd_radixes) -> num t -> 0 <= f \/ r = 1 -> 1 <= cap -> value t * r ^ Z.max f 0 < 2 ^ (32 * cap) ->
  exists a, mul_pow cap t r rs f is_int e = Done (a, - f * rs) /\ num a /\ value a = value t * r ^ Z.max f 0.
Proof.
  intros Hr Ht Hf Hcap Hv. unfold mul_pow. destruct (Z.eqb_spec r 1) as [-> | Hr1]; cbn [negb]; [exists t; rewrite Z.pow_1_l by lia; split; [done |]; split; [done | lia] |].
  destruct Hr as [| Hr]; [done |]. destruct Hf as [Hf |]; [| done]. destruct (Z.leb_spec 0 f); [| lia]. rewrite Z.max_l in * by done.
  destruct (mul_pow_up_spec cap r (S (Z.to_nat f)) t f 0 0 Hr Ht) as (a & E & Ha & Ev); [done | lia | done | done | by left |]. unfold per_limb in E. rewrite E. cbn [run_bind]. by exists a.
Qed.

(** The limbs and bits a number is shifted up by before it is divided by [r ^ f]. *)
Definition down_limbs (r f : Z) : Z := (f + per_limb r - 1) / per_limb r.
Definition down_extra (t : list Z) (r rs f : Z) (is_int : bool) (e : Z) : Z :=
  if is_int then Z.max (2 + e - (f * rs + 32 * down_limbs r f)) 0 else Z.max (e - mpb_floor_log2 t) 0.

Lemma mul_pow_neg cap t r rs f is_int e :
  In r odd_radixes -> num t -> 0 < value t -> 0 < f -> 1 <= cap ->
  let K := 32 * down_limbs r f + down_extra t r rs f is_int e in let X := value t * 2 ^ K in
  X < 2 ^ (32 * (cap - 1)) ->
  exists a, mul_pow cap t r rs (- f) is_int e = Done (a, f * rs + K) /\ num a /\ value a = Z.lor (X / r ^ f) (b2z (negb (X mod r ^ f =? 0))) /\ lenZ a <= cap.
Proof.
  intros Hr Ht Hpos Hf Hcap. cbv zeta. set (K := 32 * down_limbs r f + down_extra t r rs f is_int e). intros Hv. pose proof (odd_radix_pos r Hr). pose proof (per_limb_pos r Hr) as Hd.
  unfold mul_pow. destruct (Z.eqb_spec r 1); [lia |]. cbn [negb]. fold (per_limb r). destruct (Z.leb_spec 0 (- f)); [lia |]. rewrite !Z.opp_involutive. fold (down_limbs r f). unfold LIMB_BITS.
  assert (Hdl : 0 <= down_limbs r f) by (apply Z.div_pos; lia). assert (Hde : 0 <= down_extra t r rs f is_int e) by (unfold down_extra; destruct is_int; lia).
  assert (Ex : (if negb is_int then Z.max (e - mpb_floor_log2 t) 0 else Z.max (2 + e - (f * rs + down_limbs r f * 32)) 0) = down_extra t r rs f is_int e) by (unfold down_extra; destruct is_int; cbn [negb]; do 2 f_equal; lia). rewrite Ex.
  replace (down_limbs r f * 32 + down_extra t r rs f is_int e) with K by (unfold K; lia).
  destruct (shr_round_left cap t K JS_RNDZ Ht) as (u & -> & Hu & Eu); [lia | done | done | done |]. cbn [run_bind].
  destruct (mul_pow_down_spec r (S (Z.to_nat f)) u f 0 0 0 0 0 Hr Hu) as (a & rem & -> & Ha & Ea & Hrem & Hla); [lia | lia | lia | by left |]. cbn [run_bind].
  assert (Hlu : lenZ u <= cap) by (enough (lenZ u <= Z.max 1 (cap - 1)) by lia; apply normal_len; [apply Hu | apply Hu | lia |]; apply Z.lt_le_trans with (2 ^ (32 * (cap - 1))); [by rewrite Eu | apply Z.pow_le_mono_r; lia]).
  destruct (or_low_spec a (b2z (negb (rem =? 0))) Ha) as (O1 & O2 & O3); [destruct (rem =? 0); simpl; lia |]. exists (or_low a (b2z (negb (rem =? 0)))).
  split; [f_equal; f_equal; unfold K; lia |]. split; [done |]. split; [| lia]. rewrite O2, Ea, Eu. do 3 f_equal. rewrite Eu in Hrem. destruct (Z.eqb_spec rem 0), (Z.eqb_spec ((value t * 2 ^ K) mod r ^ f) 0); tauto.
Qed.

(** The largest number that [mul_pow_round] forms. *)
Definition work (m e r rs f : Z) : Z :=
  if (f <? 0) && negb (r =? 1) then m * 2 ^ (32 * down_limbs r (- f) + down_extra [] r rs (- f) true e)
  else m * r ^ Z.max f 0 * 2 ^ Z.max (e + f * rs) 0.

(** [m * 2^e * radix^f] as a fraction. *)
Definition scaled_num (m e radix f : Z) : Z := m * 2 ^ Z.max e 0 * radix ^ Z.max f 0.
Definition scaled_den (e radix f : Z) : Z := 2 ^ Z.max (- e) 0 * radix ^ Z.max (- f) 0.

Lemma scaled_den_pos e radix f : 0 < radix -> 0 < scaled_den e radix f.
Proof. intros Hr. unfold scaled_den. apply Z.mul_pos_pos; apply Z.pow_pos_nonneg; lia. Qed.

Lemma mul_pow_round_spec cap m e r rs f mode :
  r = 1 \/ In r odd_radixes -> 0 <= rs -> 0 < m < 2 ^ 64 -> 2 <= cap -> work m e r rs f < 2 ^ (32 * (cap - 1)) ->
  exists t, mul_pow_round cap m e r rs f mode = Done t /\ num t /\ value t = round_div mode (scaled_num m e (r * 2 ^ rs) f) (scaled_den e (r * 2 ^ rs) f).
Proof.
  intros Hr Hrs Hm Hcap Hw. assert (Hr0 : 0 < r) by (destruct Hr as [-> | Hr]; [lia | pose proof (odd_radix_pos r Hr); lia]). assert (Hradix : 0 < r * 2 ^ rs) by nia. pose proof (scaled_den_pos e (r * 2 ^ rs) f Hradix) as Hden.
  destruct (set_u64_spec cap m Hcap ltac:(lia)) as (t & E & Ht & Et). unfold mul_pow_round. rewrite E. cbn [run_bind]. unfold work in Hw.
  destruct ((f <? 0) && negb (r =? 1)) eqn:Eneg.
  - apply andb_prop in Eneg as [Hf Hr1]. apply Z.ltb_lt in Hf. apply negb_true_iff, Z.eqb_neq in Hr1. destruct Hr as [| Hr]; [done |]. set (F := - f) in *. replace f with (- F) by lia.
    set (K := 32 * down_limbs r F + down_extra [] r rs F true e) in *. destruct (mul_pow_neg cap t r rs F true e Hr Ht) as (a & -> & Ha & Ea & Hla); [lia | lia | lia | by rewrite Et |].
    change (32 * down_limbs r F + down_extra t r rs F true e) with K in *. rewrite Et in Ea. cbn [run_bind]. assert (Hs : 2 <= - e + (F * rs + K)) by (unfold K, down_extra; lia).
    destruct (shr_round_right cap a (- e + (F * rs + K)) mode Ha) as (u & -> & Hu & Eu); [lia | done |]. exists u. split; [done |]. split; [done |]. rewrite Eu, Ea.
    assert (HrF : 0 < r ^ F) by (apply Z.pow_pos_nonneg; lia). assert (HK : 0 <= K) by (pose proof (per_limb_pos r Hr); unfold K, down_extra; pose proof (Z.div_pos (F + per_limb r - 1) (per_limb r)); unfold down_limbs; lia).
    rewrite round_sticky by (done || nia). apply round_ratio; [nia | replace (- F) with f by lia; done |].
    unfold scaled_num, scaled_den. rewrite Z.opp_involutive, (Z.max_r (- F)), (Z.max_l F), Z.pow_mul_l, <- (Z.pow_mul_r 2) by lia. rewrite Z.pow_0_r.
    assert (E2 : 2 ^ K * 2 ^ Z.max (- e) 0 * 2 ^ (rs * F) = 2 ^ Z.max e 0 * 2 ^ (- e + (F * rs + K))) by (rewrite <- !Z.pow_add_r by lia; f_equal; lia).
    transitivity (m * r ^ F * (2 ^ K * 2 ^ Z.max (- e) 0 * 2 ^ (rs * F))); [ring | rewrite E2; ring].
  - set (X := m * r ^ Z.max f 0) in *. assert (Hf : 0 <= f \/ r = 1) by (apply andb_false_iff in Eneg as [Hf | Hf]; [left; by apply Z.ltb_ge in Hf | right; by apply negb_false_iff, Z.eqb_eq in Hf]).
    assert (HX : 0 < X) by (apply Z.mul_pos_pos; [lia | apply Z.pow_pos_nonneg; lia]). assert (H2 : 1 <= 2 ^ Z.max (e + f * rs) 0) by (apply (Z.pow_le_mono_r 2 0); lia).
    assert (Hb : X < 2 ^ (32 * (cap - 1))) by nia. assert (Hbig : 2 ^ (32 * (cap - 1)) <= 2 ^ (32 * cap)) by (apply Z.pow_le_mono_r; lia).
    destruct (mul_pow_0 cap t r rs f true e Hr Ht Hf) as (a & -> & Ha & Ea); [lia | rewrite Et; fold X; lia |]. rewrite Et in Ea. fold X in Ea. cbn [run_bind].
    assert (Hfrac : X * 2 ^ Z.max (e + f * rs) 0 * scaled_den e (r * 2 ^ rs) f = scaled_num m e (r * 2 ^ rs) f * 2 ^ Z.max (- e - f * rs) 0).
    { unfold scaled_num, scaled_den, X. rewrite !Z.pow_mul_l, <- !(Z.pow_mul_r 2) by lia. assert (Er : r ^ Z.max (- f) 0 = 1) by (destruct Hf as [Hf | ->]; [by rewrite Z.max_r by lia | apply Z.pow_1_l; lia]). rewrite Er.
      assert (E2 : 2 ^ Z.max (e + f * rs) 0 * 2 ^ Z.max (- e) 0 * 2 ^ (rs * Z.max (- f) 0) = 2 ^ Z.max e 0 * 2 ^ (rs * Z.max f 0) * 2 ^ Z.max (- e - f * rs) 0) by (rewrite <- !Z.pow_add_r by lia; f_equal; lia).
      transitivity (m * r ^ Z.max f 0 * (2 ^ Z.max (e + f * rs) 0 * 2 ^ Z.max (- e) 0 * 2 ^ (rs * Z.max (- f) 0))); [ring | rewrite E2; ring]. }
    destruct (Z.le_gt_cases (- e + - f * rs) 0) as [L | L].
    + destruct (shr_round_left cap a (e + f * rs) mode Ha) as (u & Eu & Hu & Ev); [lia | lia | rewrite Ea; by rewrite Z.max_l in Hw by lia | lia |]. replace (- (e + f * rs)) with (- e + - f * rs) in Eu by lia. exists u. split; [done |]. split; [done |].
      rewrite Ev, Ea. rewrite Z.max_l, (Z.max_r (- e - f * rs)), Z.pow_0_r, Z.mul_1_r in Hfrac by lia. by rewrite <- Hfrac, round_exact.
    + assert (Hla : lenZ a <= cap) by (apply normal_len; [apply Ha | apply Ha | lia | rewrite Ea; lia]). destruct (shr_round_right cap a (- e + - f * rs) mode Ha) as (u & -> & Hu & Eu); [lia | done |]. exists u. split; [done |]. split; [done |]. rewrite Eu, Ea. apply round_ratio; [lia | done |].
      rewrite Z.max_r, Z.max_l, Z.pow_0_r, Z.mul_1_r in Hfrac by lia. by replace (- e + - f * rs) with (- e - f * rs) by lia.
Qed.

(** ** Binary64 *)

Lemma log2_bounds n k : 0 < n -> 2 ^ k <= n < 2 ^ (k + 1) -> 0 <= k -> Z.log2 n = k.
Proof. intros Hn Hk H0. apply Z.log2_unique; [done |]. by replace (Z.succ k) with (k + 1) by lia. Qed.

Lemma floor_log2_spec t : num t -> 0 < value t -> mpb_floor_log2 t = Z.log2 (value t).
Proof.
  intros [Hl [Hne Hn]] Hv. destruct (snoc_view t Hne) as (t' & a & ->). unfold mpb_floor_log2. rewrite nth_last in *. apply Forall_app in Hl as [Hl' Ha]. apply Forall_inv in Ha. unfold limb in Ha. pose proof (value_range t' Hl') as Hr.
  rewrite value_app in *. cbn [value] in *. assert (Ha0 : a <> 0) by (destruct t' as [| x t']; [cbn [value] in Hv; lia | apply Hn; rewrite length_app; simpl; lia]). unfold clz32. destruct (Z.eqb_spec a 0); [done |].
  symmetry. rewrite lenZ_app. change (lenZ [a]) with 1. pose proof (lenZ_nonneg t'). pose proof (Z.log2_nonneg a). unfold LIMB_BITS. replace ((lenZ t' + 1) * 32 - 1 - (31 - Z.log2 a)) with (32 * lenZ t' + Z.log2 a) by lia.
  pose proof (Z.log2_spec a ltac:(lia)) as [B1 B2]. rewrite <- Z.add_1_r in B2. apply log2_bounds; [lia | | lia]. rewrite Z.pow_add_r by lia. replace (32 * lenZ t' + Z.log2 a + 1) with (32 * lenZ t' + (Z.log2 a + 1)) by lia. rewrite Z.pow_add_r by lia. change (2 ^ (32 * lenZ t')) with (top t'). nia.
Qed.

Lemma get_u64_spec t : num t -> value t < 2 ^ 64 -> mpb_get_u64 t = value t.
Proof.
  intros Ht Hv. assert (Hlen : lenZ t <= 2) by (apply normal_len; [apply Ht | apply Ht | lia | done]). pose proof (num_nonempty t Ht). destruct Ht as [Hl _]. unfold mpb_get_u64.
  destruct t as [| a [| b [| c t]]]; [done | change (a = a + 2 ^ 32 * 0); lia | | unfold lenZ in Hlen; simpl in Hlen; lia]. change (lenZ [a; b] =? 1) with false. cbn [value]. unfold nthZ. simpl default. pose proof (Forall_inv Hl) as Ha. pose proof (Forall_inv (Forall_inv_tail Hl)) as Hb. rewrite Z.lor_comm, lor_limbs by (done || apply Hb). lia.
Qed.

Lemma round_le mode n d c : 0 < d -> n <= c * d -> round_div mode n d <= c.
Proof.
  intros Hd Hn. unfold round_div. pose proof (Z.div_mod n d ltac:(lia)). pose proof (Z.mod_pos_bound n d Hd). destruct mode; [destruct (_ || _) eqn:E | destruct (Z.leb_spec d (2 * (n mod d))) |]; try nia.
Qed.

Lemma round_ge mode n d c : 0 < d -> c * d <= n -> c <= round_div mode n d.
Proof. intros Hd Hn. unfold round_div. assert (c <= n / d) by (apply Z.div_le_lower_bound; lia). destruct mode; [destruct (_ || _) | destruct (_ <=? _) |]; lia. Qed.

Lemma round_zero mode n d : 0 <= n -> 2 * n < d -> round_div mode n d = 0.
Proof. intros Hn Hd. unfold round_div. rewrite Z.div_small, Z.mod_small by lia. destruct (Z.ltb_spec d (2 * n)), (Z.eqb_spec d (2 * n)), (Z.leb_spec d (2 * n)); try lia. by destruct mode. Qed.

(** [n / d], rounded to a multiple of [2^q]. *)
Definition round_at (mode : rnd_mode) (n d q : Z) : Z := round_div mode (n * 2 ^ Z.max (- q) 0) (d * 2 ^ Z.max q 0).

Lemma round_at_shift mode n d q c : 0 < d -> 0 <= c -> 0 <= q + c -> round_at mode n d q = round_div mode (n * 2 ^ c) (d * 2 ^ (q + c)).
Proof.
  intros Hd Hc Hq. apply round_ratio; [nia | nia |]. assert (E : 2 ^ Z.max (- q) 0 * 2 ^ (q + c) = 2 ^ c * 2 ^ Z.max q 0) by (rewrite <- !Z.pow_add_r by lia; f_equal; lia). transitivity (n * d * (2 ^ Z.max (- q) 0 * 2 ^ (q + c))); [ring | rewrite E; ring].
Qed.

(** [2^e <= n / d] *)
Definition le_pow2 (e n d : Z) : bool := d * 2 ^ Z.max e 0 <=? n * 2 ^ Z.max (- e) 0.

Lemma le_pow2_shift e n d c : 0 <= c -> 0 <= e + c -> le_pow2 e n d = (d * 2 ^ (e + c) <=? n * 2 ^ c).
Proof.
  intros Hc He. unfold le_pow2. assert (E : 2 ^ Z.max (- e) 0 * 2 ^ (e + c) = 2 ^ c * 2 ^ Z.max e 0) by (rewrite <- !Z.pow_add_r by lia; f_equal; lia).
  assert (H1 : 0 < 2 ^ Z.max (- e) 0) by (apply Z.pow_pos_nonneg; lia). assert (H2 : 0 < 2 ^ c) by lia.
  apply eq_bool_prop_intro. rewrite !Is_true_true, !Z.leb_le, (Z.mul_le_mono_pos_r _ _ (2 ^ c)), (Z.mul_le_mono_pos_r (d * 2 ^ (e + c)) _ (2 ^ Z.max (- e) 0)) by done.
  replace (d * 2 ^ Z.max e 0 * 2 ^ c) with (d * 2 ^ (e + c) * 2 ^ Z.max (- e) 0) by (rewrite <- !Z.mul_assoc, (Z.mul_comm (2 ^ (e + c))), E; ring). replace (n * 2 ^ Z.max (- e) 0 * 2 ^ c) with (n * 2 ^ c * 2 ^ Z.max (- e) 0) by ring. done.
Qed.

(** The [e] such that [2^(e-1) <= n / d < 2^e]. *)
Definition exponent (n d : Z) : Z := let k := Z.log2 n - Z.log2 d in if le_pow2 k n d then k + 1 else k.

Lemma exponent_spec n d : 0 < n -> 0 < d -> le_pow2 (exponent n d - 1) n d = true /\ le_pow2 (exponent n d) n d = false.
Proof.
  intros Hn Hd. pose proof (Z.log2_spec n Hn) as [N1 N2]. pose proof (Z.log2_spec d Hd) as [D1 D2]. pose proof (Z.log2_nonneg n). pose proof (Z.log2_nonneg d). rewrite <- Z.add_1_r in N2, D2. rewrite Z.pow_add_r in N2, D2 by lia. set (a := Z.log2 n) in *. set (b := Z.log2 d) in *.
  unfold exponent. fold a b. destruct (le_pow2 (a - b) n d) eqn:E; [replace (a - b + 1 - 1) with (a - b) by lia; split; [done |] | split; [| done]].
  - rewrite (le_pow2_shift _ _ _ b) by lia. apply Z.leb_gt. replace (a - b + 1 + b) with (a + 1) by lia. rewrite Z.pow_add_r by lia. nia.
  - rewrite (le_pow2_shift _ _ _ (b + 1)) by lia. apply Z.leb_le. replace (a - b - 1 + (b + 1)) with a by lia. rewrite Z.pow_add_r by lia. nia.
Qed.

Lemma le_pow2_mono e e' n d : 0 < d -> e' <= e -> le_pow2 e n d = true -> le_pow2 e' n d = true.
Proof.
  intros Hd He. rewrite (le_pow2_shift e n d (Z.max 0 (- e'))), (le_pow2_shift e' n d (Z.max 0 (- e'))) by lia. rewrite !Z.leb_le. intros H. assert (2 ^ (e' + Z.max 0 (- e')) <= 2 ^ (e + Z.max 0 (- e'))) by (apply Z.pow_le_mono_r; lia). nia.
Qed.

Lemma exponent_unique n d e : 0 < n -> 0 < d -> le_pow2 (e - 1) n d = true -> le_pow2 e n d = false -> exponent n d = e.
Proof.
  intros Hn Hd H1 H2. destruct (exponent_spec n d Hn Hd) as [E1 E2]. destruct (Z.lt_trichotomy (exponent n d) e) as [L | [| L]]; [| done |].
  - rewrite (le_pow2_mono (e - 1) (exponent n d)) in E2 by (done || lia). done.
  - rewrite (le_pow2_mono (exponent n d - 1) e) in H2 by (done || lia). done.
Qed.

(** The bits of the binary64 number nearest to [n / d], ties to even: [2^q] is
    the distance of two numbers around it. *)
Definition unit_exponent (n d : Z) : Z := Z.max (exponent n d - 53) (-1074).
Definition nearest64 (n d : Z) : Z :=
  if n =? 0 then 0
  else let q := unit_exponent n d in Z.min (2047 * 2 ^ 52) ((q + 1074) * 2 ^ 52 + round_at JS_RNDN n d q).

(** Significand and exponent, for [M * 2^q] below [2^e]. *)
Definition norm64 (M q e : Z) : Z * Z := let m := M * 2 ^ (53 - e + q) in if 2 ^ 53 <=? m then (m / 2, e + 1) else (m, e).

Lemma round_at_1 mode n q : round_at mode n 1 q = round_div mode (n * 2 ^ Z.max (- q) 0) (2 ^ Z.max q 0).
Proof. unfold round_at. by rewrite Z.mul_1_l. Qed.

Lemma shr_round_spec cap t s mode :
  num t -> 0 < value t -> lenZ t <= cap -> 1 <= cap -> value t * 2 ^ Z.max (- s) 0 < 2 ^ (32 * (cap - 1)) \/ 0 < s ->
  exists r, mpb_shr_round cap t s mode = Done r /\ num r /\ value r = round_at mode (value t) 1 s.
Proof.
  intros Ht Hv Hl Hcap Hw. rewrite round_at_1. destruct (Z.lt_ge_cases 0 s) as [L | L].
  - destruct (shr_round_right cap t s mode Ht) as (r & -> & Hr & Er); [lia | done |]. exists r. rewrite Z.max_r, Z.max_l, Z.pow_0_r, Z.mul_1_r by lia. done.
  - destruct Hw as [Hw |]; [| lia]. rewrite Z.max_l in * by lia. destruct (shr_round_left cap t (- s) mode Ht) as (r & E & Hr & Er); [lia | done | done | done |]. rewrite Z.opp_involutive in E. exists r. split; [done |]. split; [done |].
    rewrite Er, Z.max_r, Z.pow_0_r by lia. rewrite <- (round_exact mode (value t * 2 ^ (- s)) 1) at 1 by lia. by rewrite Z.mul_1_r.
Qed.

(** How much a number below [2^e] is after rounding to a multiple of [2^q]. *)
Lemma round_at_range mode n q : 0 < n -> let e := Z.log2 n + 1 in let M := round_at mode n 1 q in 0 <= M /\ (e < q -> M = 0) /\ (q <= e -> M <= 2 ^ (e - q)) /\ (q < e -> 2 ^ (e - q - 1) <= M).
Proof.
  intros Hn. cbv zeta. pose proof (Z.log2_spec n Hn) as [N1 N2]. rewrite <- Z.add_1_r in N2. pose proof (Z.log2_nonneg n). set (e := Z.log2 n + 1) in *. set (c := Z.max (- q) 0). assert (Hc : 0 < 2 ^ Z.max (- q) 0) by (apply Z.pow_pos_nonneg; lia). assert (Hq : 0 < 2 ^ Z.max q 0) by (apply Z.pow_pos_nonneg; lia).
  rewrite round_at_1. split; [apply round_ge; nia |]. split; [| split]; intros Hle.
  - rewrite Z.max_r, Z.max_l, Z.pow_0_r, Z.mul_1_r by lia. apply round_zero; [lia |]. assert (2 ^ (e + 1) <= 2 ^ q) by (apply Z.pow_le_mono_r; lia). rewrite Z.pow_add_r in * by lia. lia.
  - apply round_le; [done |]. rewrite <- Z.pow_add_r by lia. replace (e - q + Z.max q 0) with (e + Z.max (- q) 0) by lia. rewrite Z.pow_add_r by lia. nia.
  - apply round_ge; [done |]. rewrite <- Z.pow_add_r by lia. replace (e - q - 1 + Z.max q 0) with (Z.log2 n + Z.max (- q) 0) by lia. rewrite Z.pow_add_r by lia. nia.
Qed.

Lemma round_to_d_spec cap a off mode :
  num a -> 0 < value a -> lenZ a <= cap -> 3 <= cap -> let e := Z.log2 (value a) + 1 - off in let q := Z.max (e - 53) (-1074) in
  -1084 <= e -> round_to_d cap a off mode = Done (norm64 (round_at mode (value a) 1 (q + off)) q e).
Proof.
  intros Ha Hv Hl Hcap. cbv zeta. set (e := Z.log2 (value a) + 1 - off). set (q := Z.max (e - 53) (-1074)). intros He. unfold round_to_d.
  assert (E0 : (nthZ 0 a 0 =? 0) && (lenZ a =? 1) = false) by (apply andb_false_iff; destruct (Z.eqb_spec (lenZ a) 1) as [E | E]; [left | by right]; destruct a as [| x [| y a]]; [done | apply Z.eqb_neq; cbn [value] in Hv; change (nthZ 0 [x] 0) with x; lia | unfold lenZ in E; simpl in E; lia]). rewrite E0.
  rewrite floor_log2_spec by done. fold e. assert (Ep : (if e <? -1021 then 53 - (-1021 - e) else 53) = e - q) by (unfold q; destruct (Z.ltb_spec e (-1021)); lia). rewrite Ep. replace (e + off - (e - q)) with (q + off) by lia.
  pose proof (round_at_range mode (value a) (q + off) Hv) as (M0 & M1 & M2 & M3). fold e in M1, M2, M3. replace (Z.log2 (value a) + 1) with (e + off) in * by (unfold e; lia). replace (e + off - (q + off)) with (e - q) in * by lia. set (M := round_at mode (value a) 1 (q + off)) in *.
  assert (HM : M <= 2 ^ 53) by (destruct (Z.le_gt_cases q e); [transitivity (2 ^ (e - q)); [apply M2; lia | apply Z.pow_le_mono_r; unfold q; lia] | rewrite M1; lia]).
  destruct (shr_round_spec cap a (q + off) mode Ha Hv Hl) as (r & -> & Hr & Er); [lia | | ].
  { destruct (Z.lt_ge_cases 0 (q + off)); [by right | left]. rewrite Z.max_l by lia. assert (value a * 2 ^ (- (q + off)) < 2 ^ 54); [| apply Z.lt_le_trans with (2 ^ 64); [lia | apply Z.pow_le_mono_r; lia]].
    assert (Hqo : Z.log2 (value a) - 52 <= q + off) by (unfold q, e; lia). pose proof (Z.log2_nonneg (value a)). pose proof (Z.log2_spec (value a) Hv) as [_ B]. rewrite <- Z.add_1_r in B. replace (2 ^ 54) with (2 ^ (54 + (q + off)) * 2 ^ (- (q + off))) by (rewrite <- Z.pow_add_r by lia; f_equal; lia). apply Z.mul_lt_mono_pos_r; [lia |]. apply Z.lt_le_trans with (1 := B). apply Z.pow_le_mono_r; lia. }
  cbn [run_bind]. fold M in Er. rewrite get_u64_spec, Er by (done || lia). destruct (Z.ltb_spec (53 - (e - q)) 64) as [L | L]; [| unfold q in L; lia]. cbn [run_bind]. unfold norm64. replace (53 - e + q) with (53 - (e - q)) by lia. rewrite Z.shiftl_mul_pow2 by (unfold q; lia).
  assert (Hm : M * 2 ^ (53 - (e - q)) <= 2 ^ 53). { destruct (Z.le_gt_cases q e); [| rewrite M1; lia]. replace (2 ^ 53) with (2 ^ (e - q) * 2 ^ (53 - (e - q))) by (rewrite <- Z.pow_add_r by (unfold q in *; lia); f_equal; lia). apply Z.mul_le_mono_nonneg_r; [lia |]. apply M2. lia. }
  assert (0 <= M * 2 ^ (53 - (e - q))) by (apply Z.mul_nonneg_nonneg; lia). rewrite u64_small by lia. destruct (2 ^ 53 <=? _); [| done]. by rewrite Z.shiftr_div_pow2, Z.pow_1_r by lia.
Qed.

Definition pack_pair (me : Z * Z) : Z := pack_double (fst me) (snd me).

Lemma pack_norm64 M e :
  let q := Z.max (e - 53) (-1074) in
  0 <= M -> (e < q -> M = 0) -> (q <= e -> M <= 2 ^ (e - q)) -> (q < e -> 2 ^ (e - q - 1) <= M) -> pack_pair (norm64 M q e) = Z.min (2047 * 2 ^ 52) ((q + 1074) * 2 ^ 52 + M).
Proof.
  cbv zeta. set (q := Z.max (e - 53) (-1074)). intros H0 H1 H2 H3. unfold pack_pair, norm64. destruct (Z.lt_ge_cases e (-1021)) as [L | L].
  - assert (Hq : q = -1074) by (unfold q; lia). rewrite Hq in *. replace (53 - e + -1074) with (-1021 - e) by lia. rewrite (Z.min_r (2047 * 2 ^ 52)).
    2: { destruct (Z.le_gt_cases (-1074) e); [| rewrite H1; lia]. assert (2 ^ (e - -1074) <= 2 ^ 52) by (apply Z.pow_le_mono_r; lia). lia. }
    change ((-1074 + 1074) * 2 ^ 52 + M) with M. destruct (Z.eq_dec M 0) as [-> | HM]; [done |]. assert (Hge : -1074 <= e) by (destruct (Z.le_gt_cases (-1074) e); [done | rewrite H1 in HM; lia]). specialize (H2 Hge).
    assert (Hpow : 2 ^ (e - -1074) * 2 ^ (-1021 - e) = 2 ^ 53) by (rewrite <- Z.pow_add_r by lia; f_equal; lia). assert (Hp : 0 < 2 ^ (-1021 - e)) by lia. destruct (Z.leb_spec (2 ^ 53) (M * 2 ^ (-1021 - e))) as [G | G]; unfold pack_double; cbn [fst snd].
    + assert (EM : M = 2 ^ (e - -1074)) by nia. rewrite EM, Hpow. change (2 ^ 53 / 2) with (2 ^ 52). change (2 ^ 52 =? 0) with false. cbn match. destruct (Z.ltb_spec 1024 (e + 1)), (Z.ltb_spec (e + 1) (-1073)); try lia. destruct (Z.ltb_spec (e + 1) (-1021)) as [L1 | L1].
      * rewrite Z.shiftr_div_pow2 by lia. replace (2 ^ 52) with (2 ^ (e - -1074) * 2 ^ (- (e + 1) - 1021)) by (rewrite <- Z.pow_add_r by lia; f_equal; lia). by rewrite Z.div_mul by lia.
      * replace e with (-1022) by lia. done.
    + destruct (Z.eqb_spec (M * 2 ^ (-1021 - e)) 0); [lia |]. destruct (Z.ltb_spec 1024 e), (Z.ltb_spec e (-1073)), (Z.ltb_spec e (-1021)); try lia.
      * replace e with (-1074) in * by lia. assert (M = 1) as -> by (change (2 ^ (-1074 - -1074)) with 1 in H2; lia). done.
      * rewrite Z.shiftr_div_pow2 by lia. replace (- e - 1021) with (-1021 - e) by lia. by rewrite Z.div_mul by lia.
  - assert (Hq : q = e - 53) by (unfold q; lia). rewrite Hq in *. replace (53 - e + (e - 53)) with 0 by lia. rewrite Z.pow_0_r, Z.mul_1_r. replace (e - (e - 53)) with 53 in * by lia. specialize (H2 ltac:(lia)). specialize (H3 ltac:(lia)). change (2 ^ (53 - 1)) with (2 ^ 52) in H3. replace (e - 53 + 1074) with (e + 1021) by lia.
    assert (Hnorm : forall m e', 2 ^ 52 <= m < 2 ^ 53 -> -1021 <= e' -> pack_double m e' = Z.min (2047 * 2 ^ 52) ((e' + 1021) * 2 ^ 52 + m)).
    { intros m e' Hm He'. unfold pack_double. destruct (Z.eqb_spec m 0), (Z.ltb_spec 1024 e'), (Z.ltb_spec e' (-1073)), (Z.ltb_spec e' (-1021)); try lia; [rewrite Z.min_l by lia; done |]. change (Z.shiftl 1 52 - 1) with (Z.ones 52). rewrite Z.land_ones, Z.shiftl_mul_pow2, Z.lor_comm by lia.
      rewrite <- (Z.mod_unique m (2 ^ 52) 1 (m - 2 ^ 52)) by lia. rewrite lor_plus by lia. rewrite Z.min_r; lia. }
    destruct (Z.leb_spec (2 ^ 53) M) as [G | G]; cbn [fst snd]; [| apply Hnorm; lia]. assert (M = 2 ^ 53) as -> by lia. change (2 ^ 53 / 2) with (2 ^ 52). rewrite Hnorm by lia. f_equal. lia.
Qed.

(** [n / d] is [X / D] times [2^-off]. *)
Definition ratio_at (n d X D off : Z) : Prop := exists c, 0 <= c /\ 0 <= c - off /\ n * D * 2 ^ c = X * d * 2 ^ (c - off).

Lemma ratio_exponent n d X D off : 0 < n -> 0 < d -> 0 < D -> 0 < X / D -> ratio_at n d X D off -> exponent n d = Z.log2 (X / D) + 1 - off.
Proof.
  intros Hn Hd HD HQ (c & Hc & Hco & E). set (Q := X / D) in *. pose proof (Z.log2_spec Q HQ) as [B1 B2]. rewrite <- Z.add_1_r in B2. pose proof (Z.log2_nonneg Q). set (k := Z.log2 Q) in *.
  pose proof (Z.div_mod X D ltac:(lia)) as EX. pose proof (Z.mod_pos_bound X D HD) as Hm. fold Q in EX. set (A := 2 ^ (c - off)) in *. assert (HA : 0 < A) by (unfold A; lia). assert (Lo : 2 ^ k * D <= X) by nia. assert (Hi : X < 2 ^ (k + 1) * D) by nia.
  apply exponent_unique; [done | done | |].
  - rewrite (le_pow2_shift _ _ _ c) by lia. apply Z.leb_le. replace (k + 1 - off - 1 + c) with (k + (c - off)) by lia. rewrite Z.pow_add_r by lia. fold A. apply (Z.mul_le_mono_pos_r _ _ D HD). replace (n * 2 ^ c * D) with (X * d * A) by lia. replace (d * (2 ^ k * A) * D) with (2 ^ k * D * (d * A)) by ring. replace (X * d * A) with (X * (d * A)) by ring. apply Z.mul_le_mono_nonneg_r; nia.
  - rewrite (le_pow2_shift _ _ _ c) by lia. apply Z.leb_gt. replace (k + 1 - off + c) with (k + 1 + (c - off)) by lia. rewrite (Z.pow_add_r 2 (k + 1)) by lia. fold A. apply (Z.mul_lt_mono_pos_r D _ _ HD). replace (n * 2 ^ c * D) with (X * d * A) by lia. replace (d * (2 ^ (k + 1) * A) * D) with (2 ^ (k + 1) * D * (d * A)) by ring. replace (X * d * A) with (X * (d * A)) by ring. apply Z.mul_lt_mono_pos_r; nia.
Qed.

Lemma ratio_round mode n d X D off q : 0 < d -> 0 < D -> ratio_at n d X D off -> round_at mode n d q = round_at mode X D (q + off).
Proof.
  intros Hd HD (c & Hc & Hco & E). set (k := Z.max 0 (Z.max (- q) (- (q + off)))). rewrite (round_at_shift mode n d q k), (round_at_shift mode X D (q + off) k) by (done || lia). apply round_ratio; [nia | nia |].
  apply (Z.mul_reg_r _ _ (2 ^ c)); [lia |]. transitivity (n * D * 2 ^ c * (2 ^ k * 2 ^ (q + off + k))); [ring |]. rewrite E. replace (X * 2 ^ k * (d * 2 ^ (q + k)) * 2 ^ c) with (X * d * (2 ^ k * (2 ^ (q + k) * 2 ^ c))) by ring. rewrite <- !Z.mul_assoc. do 2 f_equal.
  rewrite <- !Z.pow_add_r by lia. f_equal. lia.
Qed.

Lemma down_limbs_enough r f : In r odd_radixes -> 0 < f -> r ^ f <= 2 ^ (32 * down_limbs r f).
Proof.
  intros Hr Hf. pose proof (per_limb_pos r Hr) as Hd. pose proof (odd_radix_pos r Hr). destruct (pow_at r (per_limb r) Hr ltac:(lia)) as (_ & Hl & _). unfold limb in Hl. set (l := down_limbs r f).
  pose proof (Z.div_mod (f + per_limb r - 1) (per_limb r) ltac:(lia)) as E. pose proof (Z.mod_pos_bound (f + per_limb r - 1) (per_limb r) ltac:(lia)). fold (down_limbs r f) in E. fold l in E. assert (0 <= l) by (apply Z.div_pos; lia).
  transitivity (r ^ (per_limb r * l)); [apply Z.pow_le_mono_r; lia |]. rewrite !Z.pow_mul_r by lia. apply Z.pow_le_mono_l. lia.
Qed.

(** The value of [t * radix^f] as a fraction. *)
Definition pow_num (v radix f : Z) : Z := v * radix ^ Z.max f 0.
Definition pow_den (radix f : Z) : Z := radix ^ Z.max (- f) 0.

Definition room_to_d (cap v r f : Z) : Prop :=
  if (f <? 0) && negb (r =? 1) then v * 2 ^ (32 * down_limbs r (- f) + Z.max (55 - Z.log2 v) 0) < 2 ^ (32 * (cap - 1)) else v * r ^ Z.max f 0 < 2 ^ (32 * cap).

(** The number nearest to [n / d]: significand and exponent. *)
Definition nearest_pair (n d : Z) : Z * Z := norm64 (round_at JS_RNDN n d (unit_exponent n d)) (unit_exponent n d) (exponent n d).

Lemma to_d_down cap t r rs F :
  In r odd_radixes -> 0 <= rs -> num t -> 0 < value t -> 3 <= cap -> 0 < F ->
  value t * 2 ^ (32 * down_limbs r F + Z.max (55 - Z.log2 (value t)) 0) < 2 ^ (32 * (cap - 1)) -> -1084 <= exponent (value t) ((r * 2 ^ rs) ^ F) ->
  mul_pow_round_to_d cap t r rs (- F) JS_RNDN = Done (nearest_pair (value t) ((r * 2 ^ rs) ^ F)).
Proof.
  intros Hr Hrs Ht Hv Hcap HF Hroom He. pose proof (odd_radix_pos r Hr). set (K := 32 * down_limbs r F + Z.max (55 - Z.log2 (value t)) 0) in *.
  assert (EK : 32 * down_limbs r F + down_extra t r rs F false 55 = K) by (unfold K, down_extra; by rewrite floor_log2_spec by done).
  destruct (mul_pow_neg cap t r rs F false 55 Hr Ht Hv HF) as (a & E & Ha & Ea & Hla); [lia | by rewrite EK |]. rewrite EK in *. unfold mul_pow_round_to_d. rewrite E. cbn [run_bind]. clear E.
  set (X := value t * 2 ^ K) in *. set (D := r ^ F) in *. set (Q := X / D) in *. set (b := b2z (negb (X mod D =? 0))) in *. assert (HD : 0 < D) by (apply Z.pow_pos_nonneg; lia).
  assert (Hdl : 0 <= down_limbs r F) by (pose proof (per_limb_pos r Hr); apply Z.div_pos; lia). pose proof (Z.log2_spec (value t) Hv) as [B1 _]. pose proof (Z.log2_nonneg (value t)).
  assert (HQ : 2 ^ 55 <= Q). { apply Z.div_le_lower_bound; [done |]. pose proof (down_limbs_enough r F Hr HF) as Hpow. fold D in Hpow. unfold X, K. rewrite Z.pow_add_r by lia. set (x := Z.max (55 - Z.log2 (value t)) 0).
    assert (2 ^ 55 <= value t * 2 ^ x). { transitivity (2 ^ (Z.log2 (value t) + x)); [apply Z.pow_le_mono_r; lia |]. rewrite Z.pow_add_r by lia. apply Z.mul_le_mono_nonneg_r; lia. } nia. }
  assert (Hb : 0 <= b <= 1) by (unfold b; destruct (_ =? _); simpl; lia). assert (Hlog : Z.log2 (Z.lor Q b) = Z.log2 Q) by (rewrite Z.log2_lor by lia; assert (Z.log2 b = 0) as -> by (assert (b = 0 \/ b = 1) as [-> | ->] by lia; done); pose proof (Z.log2_nonneg Q); lia).
  assert (Hd : 0 < (r * 2 ^ rs) ^ F) by (apply Z.pow_pos_nonneg; nia). assert (HK : 0 <= K) by lia.
  assert (HR : ratio_at (value t) ((r * 2 ^ rs) ^ F) X D (F * rs + K)). { exists (F * rs + K). split; [lia |]. split; [lia |]. replace (F * rs + K - (F * rs + K)) with 0 by lia. unfold X, D. rewrite Z.pow_mul_l, <- Z.pow_mul_r, Z.pow_add_r by lia. rewrite (Z.mul_comm F). ring. }
  assert (Q0 : 0 < X / D) by (fold Q; lia). pose proof (ratio_exponent _ _ _ _ _ Hv Hd HD Q0 HR) as Eexp. fold Q in Eexp. assert (HV : 0 < value a) by (rewrite Ea, lor_bit by done; destruct (Z.odd Q); lia).
  rewrite round_to_d_spec by (done || (rewrite Ea, Hlog, <- Eexp; done)). rewrite Ea, Hlog, <- Eexp. unfold nearest_pair. fold (unit_exponent (value t) ((r * 2 ^ rs) ^ F)). set (q := unit_exponent _ _). f_equal. f_equal.
  rewrite (ratio_round JS_RNDN _ _ _ _ _ q Hd HD HR). assert (H55 : 55 <= Z.log2 Q) by (change 55 with (Z.log2 (2 ^ 55)); by apply Z.log2_le_mono). set (s := q + (F * rs + K)). assert (Hs : 3 <= s) by (unfold s, q, unit_exponent; lia).
  unfold round_at. rewrite !(Z.max_r (- s)), !(Z.max_l s), !Z.pow_0_r, !Z.mul_1_r, Z.mul_1_l by lia. unfold Q, b. apply round_sticky; [unfold X; nia | done | lia].
Qed.

Lemma to_d_exact cap t r rs f :
  r = 1 \/ In r odd_radixes -> 0 <= rs -> num t -> 0 < value t -> 3 <= cap -> 0 <= f \/ r = 1 -> value t * r ^ Z.max f 0 < 2 ^ (32 * cap) ->
  let n := pow_num (value t) (r * 2 ^ rs) f in let d := pow_den (r * 2 ^ rs) f in
  -1084 <= exponent n d -> mul_pow_round_to_d cap t r rs f JS_RNDN = Done (nearest_pair n d).
Proof.
  intros Hr Hrs Ht Hv Hcap Hf Hroom. cbv zeta. intros He. assert (Hr0 : 0 < r) by (destruct Hr as [-> | Hr]; [lia | pose proof (odd_radix_pos r Hr); lia]).
  destruct (mul_pow_0 cap t r rs f false 55 Hr Ht Hf) as (a & E & Ha & Ea); [lia | done |]. unfold mul_pow_round_to_d. rewrite E. cbn [run_bind]. clear E. set (V := value a) in *. set (n := pow_num _ _ _) in *. set (d := pow_den _ _) in *. assert (Hp : 0 < r * 2 ^ rs) by nia.
  assert (Hd : 0 < d) by (apply Z.pow_pos_nonneg; lia). assert (Hn : 0 < n) by (apply Z.mul_pos_pos; [done | apply Z.pow_pos_nonneg; lia]). assert (HV : 0 < V) by (rewrite Ea; apply Z.mul_pos_pos; [done | apply Z.pow_pos_nonneg; lia]).
  assert (Hla : lenZ a <= cap) by (apply normal_len; [apply Ha | apply Ha | lia | fold V; lia]).
  assert (HR : ratio_at n d V 1 (- f * rs)).
  { assert (Hm1 : 0 <= Z.max (- f) 0 * rs) by (apply Z.mul_nonneg_nonneg; lia). assert (Hm2 : 0 <= Z.max f 0 * rs) by (apply Z.mul_nonneg_nonneg; lia). assert (Hm3 : Z.max (- f) 0 * rs - - f * rs = rs * Z.max f 0) by (rewrite <- Z.mul_sub_distr_r, Z.mul_comm; f_equal; lia).
    exists (Z.max (- f) 0 * rs). split; [lia |]. split; [lia |]. unfold n, d, pow_num, pow_den. rewrite Ea, !Z.pow_mul_l, <- !Z.pow_mul_r by lia. assert (Er : r ^ Z.max (- f) 0 = 1) by (destruct Hf as [Hf | ->]; [by rewrite Z.max_r by lia | apply Z.pow_1_l; lia]). rewrite Er.
    rewrite Hm3. rewrite (Z.mul_comm rs (Z.max (- f) 0)). ring. }
  pose proof (ratio_exponent n d V 1 _ Hn Hd ltac:(lia) ltac:(by rewrite Z.div_1_r) HR) as Eexp. rewrite Z.div_1_r in Eexp.
  rewrite round_to_d_spec by (done || (fold V; rewrite <- Eexp; done)). fold V. rewrite <- Eexp. unfold nearest_pair. fold (unit_exponent n d). by rewrite (ratio_round JS_RNDN n d V 1 (- f * rs)) by done.
Qed.
