(* ===== verification/DtoaPrint.v ===== *)
(** * Numbers and text: printing is exact

    Digits of a number; the decimal exponent; the formats with a number of
    digits after the dot, with a number of significant digits, and with as few
    digits as give the number back. *)

From stdpp Require Import base list numbers.
From Stdlib Require Import ZArith Lia.
From S2P Require Import Prelude Utf8 Utf8Proofs Dtoa DtoaText DtoaProofs DtoaRound.

#[local] Open Scope Z_scope.

(** ** Digits *)

(** The last [n] digits of [v]. *)
Fixpoint digits (radix : Z) (n : nat) (v : Z) : list Z := match n with O => [] | S n => digits radix n (v / radix) ++ [v mod radix] end.
Definition text (radix : Z) (n : nat) (v : Z) : list Z := map digit_char (digits radix n v).

Lemma digits_length radix n v : length (digits radix n v) = n.
Proof. revert v. induction n as [| n IH]; intros v; [done |]. cbn [digits]. rewrite length_app, IH. simpl. lia. Qed.

Lemma text_length radix n v : length (text radix n v) = n.
Proof. unfold text. by rewrite length_map, digits_length. Qed.

Lemma text_S radix n v : text radix (S n) v = text radix n (v / radix) ++ [digit_char (v mod radix)].
Proof. unfold text. cbn [digits]. by rewrite map_app. Qed.

Lemma text_split radix n k v : 0 < radix -> text radix (n + k) v = text radix n (v / radix ^ Z.of_nat k) ++ text radix k v.
Proof.
  intros Hr. revert v. induction k as [| k IH]; intros v; [rewrite Nat.add_0_r; cbn [Z.of_nat]; rewrite Z.pow_0_r, Z.div_1_r; unfold text at 3; simpl; by rewrite app_nil_r |].
  rewrite Nat.add_succ_r, !text_S, IH, app_assoc, Z.div_div by (try apply Z.pow_pos_nonneg; lia). do 3 f_equal. rewrite Nat2Z.inj_succ, Z.pow_succ_r by lia. done.
Qed.

Lemma text_mod radix n v k : 0 < radix -> Z.of_nat n <= k -> text radix n (v mod radix ^ k) = text radix n v.
Proof.
  intros Hr. revert v k. induction n as [| n IH]; intros v k Hk; [done |]. rewrite !text_S. assert (Hp : 0 < radix ^ (k - 1)) by (apply Z.pow_pos_nonneg; lia). replace (radix ^ k) with (radix * radix ^ (k - 1)) by (rewrite <- Z.pow_succ_r by lia; f_equal; lia).
  rewrite Z.rem_mul_r by lia. rewrite (Z.mul_comm radix ((v / radix) mod _)), Z.div_add, Z.mod_add, Z.mod_mod, (Z.div_small (v mod radix)) by (pose proof (Z.mod_pos_bound v radix); lia). by rewrite Z.add_0_l, IH by lia.
Qed.

Lemma limb_loop_text radix len n acc : limb_loop n radix len acc = text radix len n ++ acc.
Proof. revert n acc. induction len as [| len IH]; intros n acc; [done |]. cbn [limb_loop]. by rewrite IH, text_S, <- app_assoc. Qed.

Lemma u32toa_len_text n len acc : 0 <= n -> u32toa_len n len acc = text 10 len n ++ acc.
Proof.
  revert n acc. induction len as [| len IH]; intros n acc Hn; [done |]. cbn [u32toa_len]. rewrite IH, text_S, <- app_assoc by (apply Z.div_pos; lia). cbn [app]. do 2 f_equal. unfold digit_char. pose proof (Z.mod_pos_bound n 10). destruct (Z.ltb_spec (n mod 10) 10); lia.
Qed.

Lemma bin_loop_text bits len n acc : 0 <= bits -> bin_loop n bits len acc = text (2 ^ bits) len n ++ acc.
Proof.
  intros Hb. revert n acc. induction len as [| len IH]; intros n acc; [done |]. cbn [bin_loop]. rewrite IH, text_S, <- app_assoc, Z.shiftr_div_pow2 by done. cbn [app]. do 3 f_equal.
  rewrite Z.shiftl_1_l. replace (2 ^ bits - 1) with (Z.ones bits) by (rewrite Z.ones_equiv; lia). by rewrite Z.land_ones.
Qed.

Lemma limb_to_a_text n radix len : 0 <= n -> limb_to_a n radix len = text radix (Z.to_nat len) n.
Proof. intros Hn. unfold limb_to_a. destruct (Z.eqb_spec radix 10) as [-> | _]; [rewrite u32toa_len_text by done | rewrite limb_loop_text]; apply app_nil_r. Qed.

(** The tables agree: [digits_per_limb] digits of the radix fit a limb. *)
Definition radixes : list Z := map Z.of_nat (seq 2 35).
Definition radix_check (radix : Z) : bool :=
  let d := per_limb radix in let bits := 31 - clz32 radix in
  (1 <=? d) && (if is_pow2 radix then (1 <=? bits) && (radix =? 2 ^ bits) && (d * bits <=? 32) else (nthZ 0 radix_base_table (radix - 2) =? radix ^ d) && (radix ^ d <? 2 ^ 32)).

Lemma radixes_checked : forallb radix_check radixes = true.
Proof. vm_compute. reflexivity. Qed.

Lemma radix_at radix :
  2 <= radix <= 36 ->
  1 <= per_limb radix /\
  if is_pow2 radix then let bits := 31 - clz32 radix in 1 <= bits /\ radix = 2 ^ bits /\ per_limb radix * bits <= 32
  else nthZ 0 radix_base_table (radix - 2) = radix ^ per_limb radix /\ radix ^ per_limb radix < 2 ^ 32.
Proof.
  intros Hr. pose proof radixes_checked as H. rewrite forallb_forall in H. specialize (H radix ltac:(apply in_map_iff; exists (Z.to_nat radix); split; [lia | apply in_seq; lia])).
  unfold radix_check in H. apply andb_prop in H as [H1 H2]. split; [lia |]. destruct (is_pow2 radix); cbv zeta; lia.
Qed.

Lemma output_div_spec radix fuel t n buf :
  2 <= radix <= 36 -> is_pow2 radix = false -> num t -> 0 <= n -> (Z.to_nat n < fuel)%nat -> output_div fuel t n (per_limb radix) radix buf = Done (text radix (Z.to_nat n) (value t) ++ buf).
Proof.
  intros Hr Hp. destruct (radix_at radix Hr) as [Hd Hb]. rewrite Hp in Hb. destruct Hb as [Eb Hlt]. set (d := per_limb radix) in *. revert t n buf. induction fuel as [| fuel IH]; intros t n buf Ht Hn Hf; [lia |].
  cbn [output_div]. destruct (Z.eqb_spec n 0) as [-> | Hn0]; [done |]. rewrite Eb. assert (Hpos : 0 < radix ^ d) by (apply Z.pow_pos_nonneg; lia). pose proof (mp_div1_spec t (radix ^ d) 0 ltac:(apply Ht) ltac:(lia) ltac:(lia)) as H. destruct (mp_div1 t (radix ^ d) 0) as [q r].
  destruct H as (Hq & Hl & Hrr & Hv). rewrite Z.mul_0_l, Z.add_0_l in Hv. destruct (num_renorm q Hq) as (N1 & N2 & _); [eapply same_nonempty; [apply Hl | apply Ht] |].
  assert (Er : r = value t mod radix ^ d) by (apply (Z.mod_unique _ _ (value q)); lia). assert (Eq : value q = value t / radix ^ d) by (apply (Z.div_unique _ _ _ r); lia).
  rewrite IH by (done || lia). rewrite N2, Eq, app_assoc, limb_to_a_text, Er, text_mod by lia. do 2 f_equal. destruct (Z.le_gt_cases n d) as [L | L].
  - rewrite Z.min_l by done. replace (Z.to_nat (n - n)) with 0%nat by lia. done.
  - rewrite Z.min_r by lia. replace (Z.to_nat n) with (Z.to_nat (n - d) + Z.to_nat d)%nat by lia. rewrite (text_split radix (Z.to_nat (n - d)) (Z.to_nat d)) by lia. by rewrite Z2Nat.id by lia.
Qed.

Lemma nth0_mod t k : limbs t -> t <> [] -> 0 <= k <= 32 -> nthZ 0 t 0 mod 2 ^ k = value t mod 2 ^ k.
Proof.
  intros Ht Hne Hk. destruct t as [| a t]; [done |]. change (nthZ 0 (a :: t) 0) with a. cbn [value]. replace (2 ^ 32) with (2 ^ (32 - k) * 2 ^ k) by (rewrite <- Z.pow_add_r by lia; f_equal; lia).
  replace (a + 2 ^ (32 - k) * 2 ^ k * value t) with (a + 2 ^ (32 - k) * value t * 2 ^ k) by ring. by rewrite Z.mod_add by lia.
Qed.

Lemma output_bin_spec radix fuel cap t n buf :
  2 <= radix <= 36 -> is_pow2 radix = true -> num t -> lenZ t <= cap -> 0 <= n -> (Z.to_nat n < fuel)%nat ->
  output_bin fuel cap t n (per_limb radix) (31 - clz32 radix) buf = Done (text radix (Z.to_nat n) (value t) ++ buf).
Proof.
  intros Hr Hp. destruct (radix_at radix Hr) as [Hd Hb]. rewrite Hp in Hb. cbv zeta in Hb. set (bits := 31 - clz32 radix) in *. destruct Hb as (Hb1 & Eb & Hdb). set (d := per_limb radix) in *. revert t n buf. induction fuel as [| fuel IH]; intros t n buf Ht Hcap Hn Hf; [lia |].
  assert (Epow : radix ^ d = 2 ^ (d * bits)) by (transitivity ((2 ^ bits) ^ d); [by rewrite <- Eb | rewrite <- Z.pow_mul_r by lia; f_equal; lia]).
  cbn [output_bin]. set (k := Z.min n d). assert (Et : u64toa_bin_len (nthZ 0 t 0) bits k = text radix (Z.to_nat k) (value t)).
  { unfold u64toa_bin_len. rewrite bin_loop_text, app_nil_r, <- Eb by lia. rewrite <- (text_mod radix (Z.to_nat k) (nthZ 0 t 0) d), <- (text_mod radix (Z.to_nat k) (value t) d) by lia. f_equal. rewrite Epow. apply nth0_mod; [apply Ht | apply Ht | nia]. }
  rewrite Et. destruct (Z.eqb_spec (n - k) 0) as [E | E]; [replace k with n by lia; done |]. assert (Ek : k = d) by lia. rewrite Ek in *.
  destruct (shr_round_right cap t (d * bits) JS_RNDZ Ht) as (u & E1 & Hu & Eu); [nia | done |]. rewrite E1. cbn [run_bind].
  assert (Hlu : lenZ u <= cap) by (assert (value u <= value t) by (rewrite Eu; apply Z.div_le_upper_bound; [lia |]; pose proof (value_range t ltac:(apply Ht)); assert (1 <= 2 ^ (d * bits)) by (apply (Z.pow_le_mono_r 2 0); nia); nia); pose proof (num_nonempty t Ht); apply normal_len; [apply Hu | apply Hu | lia |]; pose proof (value_range t ltac:(apply Ht)) as B; unfold top in B; assert (2 ^ (32 * lenZ t) <= 2 ^ (32 * cap)) by (apply Z.pow_le_mono_r; lia); lia).
  rewrite IH by (done || lia). rewrite app_assoc. do 2 f_equal. replace (Z.to_nat n) with (Z.to_nat (n - d) + Z.to_nat d)%nat by lia. rewrite (text_split radix (Z.to_nat (n - d)) (Z.to_nat d)) by lia. rewrite Z2Nat.id by lia. f_equal. rewrite Eu. unfold round_div. by rewrite Epow.
Qed.

(** A dot after [k] characters, unless it would be the last. *)
Definition with_dot (k : Z) (l : list Z) : list Z := if k =? lenZ l then l else take (Z.to_nat k) l ++ 46 :: drop (Z.to_nat k) l.

Lemma output_digits_spec cap t radix n dot :
  2 <= radix <= 36 -> num t -> lenZ t <= cap -> 0 <= n -> output_digits cap t radix n dot = Done (with_dot dot (text radix (Z.to_nat n) (value t))).
Proof.
  intros Hr Ht Hc Hn. unfold output_digits. fold (per_limb radix). assert (E : (if is_pow2 radix then output_bin (S (Z.to_nat n)) cap t n (per_limb radix) (31 - clz32 radix) [] else output_div (S (Z.to_nat n)) t n (per_limb radix) radix []) = Done (text radix (Z.to_nat n) (value t))).
  { destruct (is_pow2 radix) eqn:Ep; [rewrite output_bin_spec by (done || lia) | rewrite output_div_spec by (done || lia)]; by rewrite app_nil_r. }
  rewrite E. cbn [run_bind]. unfold with_dot, lenZ. rewrite text_length, Z2Nat.id by done. by destruct (dot =? n).
Qed.

(** ** Integers *)

(** [k] digits, none to spare. *)
Definition canonical (radix : Z) (k : nat) (v : Z) : Prop := (1 <= k)%nat /\ v < radix ^ Z.of_nat k /\ (k = 1%nat \/ radix ^ (Z.of_nat k - 1) <= v).

Lemma pow_S radix k : radix ^ Z.of_nat (S k) = radix * radix ^ Z.of_nat k.
Proof. rewrite Nat2Z.inj_succ, Z.pow_succ_r by lia. done. Qed.

Lemma radix_loop_spec radix room n q :
  2 <= radix -> 0 <= n < radix ^ Z.of_nat (S room) -> exists k, radix_loop (S room) n radix q = Done (text radix k n ++ q) /\ canonical radix k n.
Proof.
  intros Hr. revert n q. induction room as [| room IH]; intros n q Hn; rewrite pow_S in Hn; cbn [radix_loop]; pose proof (Z.div_mod n radix ltac:(lia)) as E; pose proof (Z.mod_pos_bound n radix ltac:(lia)) as Hm; (destruct (Z.eqb_spec (n / radix) 0) as [E0 | E0];
    [exists 1%nat; rewrite E0 in E; split; [done |]; split; [lia |]; split; [rewrite Z.pow_1_r; lia | by left] |]); [rewrite Z.pow_0_r in Hn; rewrite Z.div_small in E0 by lia; done |].
  assert (H0 : 0 <= n / radix) by (apply Z.div_pos; lia). destruct (IH (n / radix) (digit_char (n mod radix) :: q)) as (k & Ek & Hk); [split; [done | apply Z.div_lt_upper_bound; lia] |].
  exists (S k). cbn [radix_loop] in Ek. rewrite Ek, text_S, <- app_assoc. split; [done |]. destruct Hk as (H1 & H2 & H3). split; [lia |]. rewrite pow_S. split; [nia |]. right. replace (Z.of_nat (S k) - 1) with (Z.succ (Z.of_nat k - 1)) by lia. rewrite Z.pow_succ_r by lia. destruct H3 as [-> | H3]; [simpl; nia | nia].
Qed.

Lemma u32toa_loop_radix room n q : 0 <= n -> u32toa_loop room n q = radix_loop room n 10 q.
Proof.
  revert n q. induction room as [| room IH]; intros n q Hn; [done |]. cbn [u32toa_loop radix_loop]. pose proof (Z.mod_pos_bound n 10). assert (E : digit_char (n mod 10) = n mod 10 + 48) by (unfold digit_char; destruct (Z.ltb_spec (n mod 10) 10); lia). rewrite E. by rewrite IH by (apply Z.div_pos; lia).
Qed.

Lemma u32toa_spec n : 0 <= n < 2 ^ 32 -> exists k, u32toa n = Done (text 10 k n) /\ canonical 10 k n.
Proof. intros Hn. unfold u32toa. rewrite u32toa_loop_radix by lia. destruct (radix_loop_spec 10 9 n []) as (k & E & Hk); [lia | lia |]. exists k. by rewrite E, app_nil_r. Qed.

(** Nine digits more. *)
Lemma canonical_more k j n : canonical 10 k (n / 10 ^ Z.of_nat j) -> 1 <= n / 10 ^ Z.of_nat j -> canonical 10 (k + j) n.
Proof.
  intros (H1 & H2 & H3) Hn. assert (Hp : 0 < 10 ^ Z.of_nat j) by (apply Z.pow_pos_nonneg; lia). pose proof (Z.div_mod n (10 ^ Z.of_nat j) ltac:(lia)). pose proof (Z.mod_pos_bound n (10 ^ Z.of_nat j) Hp). split; [lia |]. rewrite Nat2Z.inj_add, Z.pow_add_r by lia. split; [nia |]. right.
  replace (Z.of_nat k + Z.of_nat j - 1) with (Z.of_nat k - 1 + Z.of_nat j) by lia. rewrite Z.pow_add_r by lia. destruct H3 as [-> | H3]; [simpl; nia | nia].
Qed.

Lemma two_digits n : 0 <= n < 100 -> exists k, (if 10 <=? n then [n / 10 + 48; n mod 10 + 48] else [n + 48]) = text 10 k n /\ canonical 10 k n.
Proof.
  intros Hn. assert (D : forall x, 0 <= x < 10 -> digit_char x = x + 48) by (intros x Hx; unfold digit_char; destruct (Z.ltb_spec x 10); lia). pose proof (Z.mod_pos_bound n 10). pose proof (Z.div_mod n 10). destruct (Z.leb_spec 10 n).
  - exists 2%nat. assert (0 <= n / 10 < 10) by (split; [apply Z.div_pos; lia | apply Z.div_lt_upper_bound; lia]). unfold text. cbn [digits app map]. rewrite (Z.mod_small (n / 10)), !D by lia. split; [done |]. split; [lia |]. split; [simpl; lia | right; simpl; lia].
  - exists 1%nat. unfold text. cbn [digits app map]. rewrite Z.mod_small, D by lia. split; [done |]. split; [lia |]. split; [simpl; lia | by left].
Qed.

Lemma u64toa_spec n : 0 <= n < 2 ^ 64 -> exists k, u64toa n = Done (text 10 k n) /\ canonical 10 k n.
Proof.
  intros Hn. unfold u64toa. destruct (Z.ltb_spec n 4294967296); [apply u32toa_spec; lia |]. change 1000000000 with (10 ^ Z.of_nat 9). set (n1 := n / 10 ^ Z.of_nat 9).
  assert (H1 : 4 <= n1 < 2 ^ 35) by (split; [apply Z.div_le_lower_bound; lia | apply Z.div_lt_upper_bound; lia]). rewrite (u32toa_len_text (n mod 10 ^ Z.of_nat 9)), app_nil_r by (apply Z.mod_pos_bound; lia). rewrite text_mod by lia.
  assert (Hhead : exists k, (if 4294967296 <=? n1 then Done ((if 10 <=? u32 (n1 / 10 ^ Z.of_nat 9) then [u32 (n1 / 10 ^ Z.of_nat 9) / 10 + 48; u32 (n1 / 10 ^ Z.of_nat 9) mod 10 + 48] else [u32 (n1 / 10 ^ Z.of_nat 9) + 48]) ++ u32toa_len (n1 mod 10 ^ Z.of_nat 9) 9 []) else u32toa n1) = Done (text 10 k n1) /\ canonical 10 k n1).
  { destruct (Z.leb_spec 4294967296 n1); [| apply u32toa_spec; lia]. assert (H2 : 4 <= n1 / 10 ^ Z.of_nat 9 < 100) by (split; [apply Z.div_le_lower_bound; lia | apply Z.div_lt_upper_bound; lia]). rewrite u32_small by lia. destruct (two_digits (n1 / 10 ^ Z.of_nat 9) ltac:(lia)) as (k & -> & Hk).
    rewrite u32toa_len_text, app_nil_r, text_mod, <- text_split by (try apply Z.mod_pos_bound; lia). exists (k + 9)%nat. split; [done |]. apply canonical_more; [done | lia]. }
  destruct Hhead as (k & -> & Hk). cbn [run_bind]. exists (k + 9)%nat. rewrite (text_split 10 k 9) by lia. split; [done |]. apply canonical_more; [done | lia].
Qed.

Lemma u64toa_radix_spec n radix : 0 <= n < 2 ^ 64 -> 2 <= radix <= 36 -> exists k, u64toa_radix n radix = Done (text radix k n) /\ canonical radix k n.
Proof.
  intros Hn Hr. unfold u64toa_radix. destruct (Z.eqb_spec radix 10) as [-> | Hne]; [by apply u64toa_spec |]. destruct (radix_at radix Hr) as [_ Hb]. destruct (is_pow2 radix) eqn:Ep.
  - cbv zeta in *. set (bits := 31 - clz32 radix) in *. destruct Hb as (Hb & Eb & _). set (l := if n =? 0 then 1 else (64 - clz64 n + bits - 1) / bits). exists (Z.to_nat l). unfold u64toa_bin_len. rewrite bin_loop_text, app_nil_r, <- Eb by lia. split; [done |].
    unfold l, clz64. destruct (Z.eqb_spec n 0) as [-> | H0]; [split; [lia |]; split; [rewrite Z.pow_1_r; lia | by left] |]. set (b := Z.log2 n + 1). replace (64 - (63 - Z.log2 n) + bits - 1) with (b + (bits - 1)) by (unfold b; lia). pose proof (Z.log2_nonneg n). pose proof (Z.log2_spec n ltac:(lia)) as [B1 B2]. rewrite <- Z.add_1_r in B2. fold b in B2.
    pose proof (Z.div_mod (b + (bits - 1)) bits ltac:(lia)) as E. pose proof (Z.mod_pos_bound (b + (bits - 1)) bits ltac:(lia)). set (k := (b + (bits - 1)) / bits) in *. assert (1 <= k) by nia. unfold canonical. rewrite !Z2Nat.id by lia. split; [lia |]. rewrite Eb, <- !Z.pow_mul_r by lia. split.
    + apply Z.lt_le_trans with (1 := B2). apply Z.pow_le_mono_r; lia.
    + right. transitivity (2 ^ Z.log2 n); [apply Z.pow_le_mono_r; nia | done].
  - destruct (radix_loop_spec radix 40 n []) as (k & E & Hk); [lia | | exists k; by rewrite E, app_nil_r]. split; [lia |]. apply Z.lt_le_trans with (3 ^ Z.of_nat 41); [lia |]. apply Z.pow_le_mono_l. assert (radix <> 2) by (intros ->; by vm_compute in Ep). lia.
Qed.

(** ** The decimal exponent *)

Definition decimal_exponent (e : Z) : Z := 1 + mul_log2_radix (e - 1) 10.

(** [10^(E-1) <= 2^(e-1) < 10^E] for [e], [e+1], ..., with [p2 = 2^(e-1)] and
    [p10 = 10^(E-1)]. *)
Fixpoint up_check (n : nat) (e E p2 p10 : Z) : bool :=
  (E =? decimal_exponent e) && (p10 <=? p2) && (p2 <? 10 * p10) &&
  match n with
  | O => true
  | S n => let E' := decimal_exponent (e + 1) in ((E' =? E) || (E' =? E + 1)) && up_check n (e + 1) E' (2 * p2) (if E' =? E then p10 else 10 * p10)
  end.

(** The same for [e], [e-1], ..., with [p2 = 2^(1-e)] and [p10 = 10^-E]. *)
Fixpoint down_check (n : nat) (e E p2 p10 : Z) : bool :=
  (E =? decimal_exponent e) && (p10 <? p2) && (p2 <=? 10 * p10) &&
  match n with
  | O => true
  | S n => let E' := decimal_exponent (e - 1) in ((E' =? E) || (E' =? E - 1)) && down_check n (e - 1) E' (2 * p2) (if E' =? E then p10 else 10 * p10)
  end.

Lemma up_checked : up_check 1023 1 1 1 1 = true.
Proof. vm_compute. reflexivity. Qed.

Lemma down_checked : down_check 1073 0 0 2 1 = true.
Proof. vm_compute. reflexivity. Qed.

Lemma up_check_spec n e E :
  1 <= e -> 1 <= E -> up_check n e E (2 ^ (e - 1)) (10 ^ (E - 1)) = true ->
  forall e', e <= e' <= e + Z.of_nat n -> let E' := decimal_exponent e' in 1 <= E' /\ 10 ^ (E' - 1) <= 2 ^ (e' - 1) < 10 ^ E'.
Proof.
  revert e E. induction n as [| n IH]; intros e E He HE H e' He'; cbn [up_check] in H; apply andb_prop in H as [H H'].
  - assert (e' = e) as -> by lia. assert (decimal_exponent e = E) as -> by lia. cbv zeta. split; [done |]. replace (10 ^ E) with (10 * 10 ^ (E - 1)) by (rewrite <- Z.pow_succ_r by lia; f_equal; lia). lia.
  - destruct (Z.eq_dec e' e) as [-> | Hne]. { assert (decimal_exponent e = E) as -> by lia. cbv zeta. split; [done |]. replace (10 ^ E) with (10 * 10 ^ (E - 1)) by (rewrite <- Z.pow_succ_r by lia; f_equal; lia). lia. }
    apply andb_prop in H' as [H1 H2]. apply (IH (e + 1) (decimal_exponent (e + 1))); [lia | lia | | lia].
    replace (2 ^ (e + 1 - 1)) with (2 * 2 ^ (e - 1)) by (rewrite <- Z.pow_succ_r by lia; f_equal; lia). rewrite <- H2. f_equal. destruct (Z.eqb_spec (decimal_exponent (e + 1)) E) as [-> | N]; [done |]. assert (decimal_exponent (e + 1) = E + 1) as -> by lia. rewrite <- Z.pow_succ_r by lia. f_equal. lia.
Qed.

Lemma down_check_spec n e E :
  e <= 0 -> E <= 0 -> down_check n e E (2 ^ (1 - e)) (10 ^ (- E)) = true ->
  forall e', e - Z.of_nat n <= e' <= e -> let E' := decimal_exponent e' in E' <= 0 /\ 10 ^ (- E') < 2 ^ (1 - e') <= 10 ^ (1 - E').
Proof.
  revert e E. induction n as [| n IH]; intros e E He HE H e' He'; cbn [down_check] in H; apply andb_prop in H as [H H'].
  - assert (e' = e) as -> by lia. assert (decimal_exponent e = E) as -> by lia. cbv zeta. split; [done |]. replace (10 ^ (1 - E)) with (10 * 10 ^ (- E)) by (rewrite <- Z.pow_succ_r by lia; f_equal; lia). lia.
  - destruct (Z.eq_dec e' e) as [-> | Hne]. { assert (decimal_exponent e = E) as -> by lia. cbv zeta. split; [done |]. replace (10 ^ (1 - E)) with (10 * 10 ^ (- E)) by (rewrite <- Z.pow_succ_r by lia; f_equal; lia). lia. }
    apply andb_prop in H' as [H1 H2]. apply (IH (e - 1) (decimal_exponent (e - 1))); [lia | lia | | lia].
    replace (2 ^ (1 - (e - 1))) with (2 * 2 ^ (1 - e)) by (rewrite <- Z.pow_succ_r by lia; f_equal; lia). rewrite <- H2. f_equal. destruct (Z.eqb_spec (decimal_exponent (e - 1)) E) as [-> | N]; [done |]. assert (decimal_exponent (e - 1) = E - 1) as -> by lia. rewrite <- Z.pow_succ_r by lia. f_equal. lia.
Qed.

Lemma exponent_up e : 1 <= e <= 1024 -> let E := decimal_exponent e in 1 <= E /\ 10 ^ (E - 1) <= 2 ^ (e - 1) < 10 ^ E.
Proof. intros He. apply (up_check_spec 1023 1 1); [lia | lia | apply up_checked | lia]. Qed.

Lemma exponent_down e : -1073 <= e <= 0 -> let E := decimal_exponent e in E <= 0 /\ 10 ^ (- E) < 2 ^ (1 - e) <= 10 ^ (1 - E).
Proof. intros He. apply (down_check_spec 1073 0 0); [lia | lia | apply down_checked | lia]. Qed.

Lemma text_cons radix k v : 0 < radix -> text radix (S k) v = digit_char ((v / radix ^ Z.of_nat k) mod radix) :: text radix k v.
Proof. intros Hr. change (S k) with (1 + k)%nat. by rewrite text_split. Qed.

Lemma with_dot_text radix k n v : 0 < radix -> with_dot (Z.of_nat k) (text radix (k + n) v) = text radix k (v / radix ^ Z.of_nat n) ++ (match n with O => [] | S _ => 46 :: text radix n v end).
Proof.
  intros Hr. unfold with_dot, lenZ. rewrite text_length, text_split by done. destruct n as [| n]; [rewrite Nat.add_0_r, Z.eqb_refl; by unfold text at 2 |]. destruct (Z.eqb_spec (Z.of_nat k) (Z.of_nat (k + S n))); [lia |]. rewrite Nat2Z.id.
  rewrite take_app_length', drop_app_length' by (by rewrite text_length). done.
Qed.

Lemma digit_char_zero x : 0 <= x < 10 -> (digit_char x =? 48) = (x =? 0).
Proof. intros Hx. unfold digit_char. destruct (Z.ltb_spec x 10); [| lia]. destruct (Z.eqb_spec x 0); [subst; done | apply Z.eqb_neq; lia]. Qed.

(** Leaving out one leading zero. *)
Definition drop_zero (q : list Z) : list Z := match q with c :: c1 :: q' => if (c =? 48) && negb (c1 =? 46) then c1 :: q' else q | _ => q end.

Lemma digit_char_not_dot x : 0 <= x -> (digit_char x =? 46) = false.
Proof. intros Hx. unfold digit_char. apply Z.eqb_neq. destruct (x <? 10); lia. Qed.

Lemma drop_zero_spec k v rest :
  0 <= v < 10 ^ Z.of_nat (S k) -> (k <> 0)%nat -> 10 ^ (Z.of_nat k - 1) <= v -> exists j, drop_zero (text 10 (S k) v ++ rest) = text 10 j v ++ rest /\ canonical 10 j v.
Proof.
  intros Hv Hk Hlow. destruct k as [| k]; [done |]. rewrite text_cons by lia. set (p := 10 ^ Z.of_nat (S k)). assert (Hp : 0 < p) by (apply Z.pow_pos_nonneg; lia). rewrite pow_S in Hv. fold p in Hv. pose proof (Z.div_mod v p ltac:(lia)). pose proof (Z.mod_pos_bound v p Hp).
  assert (Hd : 0 <= v / p < 10) by (split; [apply Z.div_pos; lia | apply Z.div_lt_upper_bound; lia]). rewrite (Z.mod_small (v / p)) by lia. rewrite (text_cons 10 k) by lia. cbn [app drop_zero]. rewrite digit_char_zero, digit_char_not_dot by (done || apply Z.mod_pos_bound; lia). rewrite andb_true_r.
  destruct (Z.eqb_spec (v / p) 0) as [E | E].
  - exists (S k). rewrite text_cons by lia. split; [done |]. split; [lia |]. fold p. split; [nia | by right].
  - exists (S (S k)). rewrite (text_cons 10 (S k)), (text_cons 10 k) by lia. fold p. rewrite (Z.mod_small (v / p)) by lia. split; [done |]. split; [lia |]. rewrite pow_S. fold p. split; [lia |]. right. replace (Z.of_nat (S (S k)) - 1) with (Z.of_nat (S k)) by lia. fold p. nia.
Qed.

Lemma radix10 : ctz32 10 = 1 /\ Z.shiftr 10 1 = 5 /\ In 5 odd_radixes.
Proof. split; [done |]. split; [done |]. simpl. tauto. Qed.

(** Every normal significand. *)
Definition normalized (m e : Z) : Prop := 2 ^ 52 <= m < 2 ^ 53 /\ -1073 <= e <= 1024.

(** What is printed with [n] digits after the dot: [x * 10^n] rounded, ties away
    from zero. *)
Definition frac_value (m e n : Z) : Z := round_div JS_RNDNA (scaled_num m (e - 53) 10 n) (scaled_den (e - 53) 10 n).

Lemma frac_work m e n : normalized m e -> 0 <= n <= 101 -> work m (e - 53) 5 1 n < 2 ^ (32 * (DBIGNUM_LEN_MAX - 1)).
Proof.
  intros [Hm He] Hn. unfold work. destruct (Z.ltb_spec n 0); [lia |]. cbn [andb]. rewrite Z.max_l by lia. change (2 ^ (32 * (DBIGNUM_LEN_MAX - 1))) with (2 ^ 53 * 2 ^ 303 * 2 ^ 1276). assert (5 ^ n <= 8 ^ n) by (apply Z.pow_le_mono_l; lia). assert (H8 : 8 ^ n <= 2 ^ 303) by (change 8 with (2 ^ 3); rewrite <- Z.pow_mul_r by lia; apply Z.pow_le_mono_r; lia).
  assert (2 ^ Z.max (e - 53 + n * 1) 0 <= 2 ^ 1276) by (apply Z.pow_le_mono_r; lia). assert (0 < 5 ^ n) by (apply Z.pow_pos_nonneg; lia). assert (0 < 2 ^ Z.max (e - 53 + n * 1) 0) by (apply Z.pow_pos_nonneg; lia).
  apply Z.lt_le_trans with (2 ^ 53 * 5 ^ n * 2 ^ Z.max (e - 53 + n * 1) 0); [apply Z.mul_lt_mono_pos_r; [done |]; apply Z.mul_lt_mono_pos_r; lia |]. apply Z.mul_le_mono_nonneg; [lia | | lia | done]. apply Z.mul_le_mono_nonneg_l; lia.
Qed.

(** The integer part has [E] or [E + 1] digits. *)
Lemma frac_range m e n : normalized m e -> 0 <= n -> let V := frac_value m e n in let E := decimal_exponent e in 0 <= V < 10 ^ (Z.max (E + 1) 1 + n) /\ (1 <= E -> 10 ^ (E - 1) <= V / 10 ^ n).
Proof.
  intros [Hm He] Hn. cbv zeta. unfold frac_value, scaled_num, scaled_den. rewrite (Z.max_r (- n)), (Z.max_l n), Z.pow_0_r, Z.mul_1_r by lia. set (p := 10 ^ n). assert (Hp : 0 < p) by (apply Z.pow_pos_nonneg; lia).
  set (A := 2 ^ Z.max (e - 53) 0). set (B := 2 ^ Z.max (- (e - 53)) 0). assert (HA : 0 < A) by (apply Z.pow_pos_nonneg; lia). assert (HB : 0 < B) by (apply Z.pow_pos_nonneg; lia). destruct (Z.le_gt_cases 1 e) as [L | L].
  - destruct (exponent_up e ltac:(lia)) as (HE & E1 & E2). set (E := decimal_exponent e) in *. assert (EA : 2 ^ 52 * A = 2 ^ (e - 1) * B) by (unfold A, B; rewrite <- !Z.pow_add_r by lia; f_equal; lia). assert (H53 : 2 ^ 53 = 2 * 2 ^ 52) by done.
    rewrite Z.max_l by lia. split; [split |].
    + apply round_ge; [done |]. apply Z.mul_nonneg_nonneg; nia.
    + enough (round_div JS_RNDNA (m * A * p) B <= 2 * 10 ^ E * p) by (rewrite !Z.pow_add_r by lia; fold p; nia). apply round_le; [done |]. assert (m * A <= 2 * 10 ^ E * B) by nia. nia.
    + intros _. apply Z.div_le_lower_bound; [done |]. apply round_ge; [done |]. assert (10 ^ (E - 1) * B <= m * A) by nia. nia.
  - destruct (exponent_down e ltac:(lia)) as (HE & _ & _). set (E := decimal_exponent e) in *. split; [split; [apply round_ge; [done |]; apply Z.mul_nonneg_nonneg; nia |] | lia].
    enough (round_div JS_RNDNA (m * A * p) B <= p) by (assert (p < 10 ^ (Z.max (E + 1) 1 + n)) by (apply Z.pow_lt_mono_r; lia); lia). apply round_le; [done |]. assert (2 ^ 53 * A <= B) by (unfold A, B; rewrite <- Z.pow_add_r by lia; apply Z.pow_le_mono_r; lia). rewrite (Z.mul_comm p). apply Z.mul_le_mono_nonneg_r; [lia |]. transitivity (2 ^ 53 * A); [apply Z.mul_le_mono_nonneg_r; lia | done].
Qed.

Lemma frac_spec m e n flags :
  normalized m e -> 0 <= n <= 101 -> Z.land flags JS_DTOA_FORMAT_MASK = JS_DTOA_FORMAT_FRAC ->
  let V := frac_value m e n in
  exists k, dtoa_finite m e 10 n flags = Done (text 10 k (V / 10 ^ n) ++ (if n =? 0 then [] else 46 :: text 10 (Z.to_nat n) V)) /\ canonical 10 k (V / 10 ^ n).
Proof.
  intros Hme Hn Hfmt. cbv zeta. destruct (frac_range m e n Hme ltac:(lia)) as [HV Hlow]. destruct radix10 as (R1 & R2 & R3). unfold dtoa_finite. rewrite Hfmt, R1, R2. change (JS_DTOA_FORMAT_FRAC =? JS_DTOA_FORMAT_FREE) with false. cbn [andb]. rewrite Z.eqb_refl. fold (decimal_exponent e).
  assert (Ea : (0 <=? n) && (n <=? JS_DTOA_MAX_DIGITS) = true) by (unfold JS_DTOA_MAX_DIGITS; lia). rewrite Ea. cbn [assert_ run_bind]. destruct Hme as [Hm He] eqn:EH. clear EH.
  destruct (mul_pow_round_spec DBIGNUM_LEN_MAX m (e - 53) 5 1 n JS_RNDNA) as (t & -> & Ht & Et); [by right | lia | lia | done | by apply frac_work |]. change (5 * 2 ^ 1) with 10 in Et. fold (frac_value m e n) in Et. set (V := frac_value m e n) in *. set (E := decimal_exponent e) in *. cbn [run_bind].
  set (k := Z.to_nat (Z.max (E + 1) 1)). assert (Hk : Z.max (E + 1) 1 = Z.of_nat k) by lia. rewrite Hk in *.
  assert (Hlen : lenZ t <= DBIGNUM_LEN_MAX).
  { apply normal_len; [apply Ht | apply Ht | done |]. rewrite Et. apply Z.lt_le_trans with (1 := proj2 HV). assert (He400 : E <= 309) by (unfold E, decimal_exponent, mul_log2_radix; change (is_pow2 10) with false; cbn iota; rewrite Z.shiftr_div_pow2 by done; change (nthZ 0 mul_log2_radix_table (10 - 2)) with 5050445; unfold MUL_LOG2_RADIX_BASE_LOG2; apply (proj1 (Z.add_le_mono_l _ 308 1)); apply Z.div_le_upper_bound; lia).
    transitivity (10 ^ 411); [apply Z.pow_le_mono_r; lia | vm_compute; discriminate]. }
  rewrite output_digits_spec by (done || lia). cbn [run_bind]. rewrite Et. replace (Z.to_nat (Z.of_nat k + n)) with (k + Z.to_nat n)%nat by lia. rewrite with_dot_text, Z2Nat.id by lia. fold (drop_zero (text 10 k (V / 10 ^ n) ++ match Z.to_nat n with O => [] | S _ => 46 :: text 10 (Z.to_nat n) V end)).
  replace (match Z.to_nat n with O => [] | S _ => 46 :: text 10 (Z.to_nat n) V end) with (if n =? 0 then [] else 46 :: text 10 (Z.to_nat n) V) by (destruct (Z.eqb_spec n 0) as [-> | N]; [done |]; destruct (Z.to_nat n) eqn:E0; [lia | done]).
  assert (Hp : 0 < 10 ^ n) by (apply Z.pow_pos_nonneg; lia). assert (HVn : 0 <= V / 10 ^ n < 10 ^ Z.of_nat k) by (split; [apply Z.div_pos; lia | apply Z.div_lt_upper_bound; [done |]; rewrite <- Z.pow_add_r by lia; rewrite Z.add_comm; apply HV]).
  destruct (Z.le_gt_cases 1 E) as [L | L].
  - destruct k as [| k1]; [lia |]. destruct (drop_zero_spec k1 (V / 10 ^ n) (if n =? 0 then [] else 46 :: text 10 (Z.to_nat n) V)) as (j & Ej & Hj); [done | lia | replace (Z.of_nat k1 - 1) with (E - 1) by lia; by apply Hlow |]. exists j. by rewrite Ej.
  - assert (Ek : k = 1%nat) by lia. rewrite Ek in *. exists 1%nat. split; [| split; [lia |]; split; [lia | by left]]. rewrite text_cons by lia. unfold text at 1 3. cbn [digits map app]. destruct (n =? 0); [done |]. unfold drop_zero. by rewrite Z.eqb_refl, andb_false_r.
Qed.

(** ** Binary64 numbers *)

Definition exp_field (d : Z) : Z := d / 2 ^ 52 mod 2048.
Definition frac_field (d : Z) : Z := d mod 2 ^ 52.
Definition negative (d : Z) : bool := 2 ^ 63 <=? d.

(** A finite number is [mant64 * 2^exp64]. *)
Definition mant64 (d : Z) : Z := if exp_field d =? 0 then frac_field d else frac_field d + 2 ^ 52.
Definition exp64 (d : Z) : Z := if exp_field d =? 0 then -1074 else exp_field d - 1075.
Definition finite64 (d : Z) : Prop := 0 <= d < 2 ^ 64 /\ exp_field d <> 2047.

Definition sign_text (d : Z) : list Z := if negative d then [45] else [].

Lemma js_dtoa_finite d radix n flags :
  finite64 d -> mant64 d <> 0 ->
  exists m e l, normalized m e /\ 0 <= l /\ m = mant64 d * 2 ^ l /\ e - 53 = exp64 d - l /\ js_dtoa d radix n flags = (let* q := dtoa_finite m e radix n flags in Done (sign_text d ++ q)).
Proof.
  intros [Hd Hf] Hm. unfold js_dtoa. change 2047 with (Z.ones 11). change (Z.shiftl 1 52 - 1) with (Z.ones 52). rewrite !Z.land_ones, !Z.shiftr_div_pow2 by lia. change (2 ^ 11) with 2048. fold (exp_field d) (frac_field d). change (Z.ones 11) with 2047. unfold mant64, exp64 in *.
  destruct (Z.eqb_spec (exp_field d) 2047); [done |]. assert (Hfr : 0 <= frac_field d < 2 ^ 52) by (apply Z.mod_pos_bound; lia). assert (Hef : 0 <= exp_field d < 2048) by (apply Z.mod_pos_bound; lia).
  assert (Hs : (if negb (d / 2 ^ 63 =? 0) then [45] else []) = sign_text d). { unfold sign_text, negative. destruct (Z.leb_spec (2 ^ 63) d); [| by rewrite Z.div_small by lia]. replace (d / 2 ^ 63) with 1; [done |]. apply (Z.div_unique _ _ _ (d - 2 ^ 63)); lia. }
  rewrite Hs. destruct (Z.eqb_spec (exp_field d) 0) as [E | E]; cbn [andb].
  - destruct (Z.eqb_spec (frac_field d) 0); [done |]. unfold clz64. destruct (Z.eqb_spec (frac_field d) 0); [done |]. pose proof (Z.log2_spec (frac_field d) ltac:(lia)) as [B1 B2]. rewrite <- Z.add_1_r in B2. assert (Hlog : Z.log2 (frac_field d) < 52) by (apply Z.log2_lt_pow2; lia). pose proof (Z.log2_nonneg (frac_field d)).
    set (b := Z.log2 (frac_field d)) in *. set (l := 63 - b - 11). assert (Hn : 2 ^ 52 <= frac_field d * 2 ^ l < 2 ^ 53). { assert (E1 : 2 ^ 52 = 2 ^ b * 2 ^ l) by (rewrite <- Z.pow_add_r by lia; f_equal; lia). assert (E2 : 2 ^ 53 = 2 ^ (b + 1) * 2 ^ l) by (rewrite <- Z.pow_add_r by lia; f_equal; lia). assert (0 < 2 ^ l) by lia. nia. }
    exists (frac_field d * 2 ^ l), (exp_field d - (l - 1) - 1022), l. rewrite Z.shiftl_mul_pow2, u64_small by lia. split; [split; lia |]. split; [lia |]. split; [done |]. split; [lia | done].
  - exists (frac_field d + 2 ^ 52), (exp_field d - 1022), 0. assert (Hor : Z.lor (frac_field d) (Z.shiftl 1 52) = frac_field d + 2 ^ 52) by (rewrite Z.shiftl_mul_pow2 by lia; apply (lor_plus (frac_field d) 1 52); lia). rewrite Hor. split; [split; lia |]. split; [lia |]. split; [lia |]. split; [lia | done].
Qed.

(** The same number with the bits moved. *)
Lemma scaled_same mode m0 q0 m e l radix f :
  0 < radix -> 0 <= l -> m = m0 * 2 ^ l -> e = q0 - l -> round_div mode (scaled_num m e radix f) (scaled_den e radix f) = round_div mode (scaled_num m0 q0 radix f) (scaled_den q0 radix f).
Proof.
  intros Hr Hl -> ->. apply round_ratio; [by apply scaled_den_pos | by apply scaled_den_pos |]. unfold scaled_num, scaled_den. assert (E : 2 ^ l * 2 ^ Z.max (q0 - l) 0 * 2 ^ Z.max (- q0) 0 = 2 ^ Z.max q0 0 * 2 ^ Z.max (- (q0 - l)) 0) by (rewrite <- !Z.pow_add_r by lia; f_equal; lia).
  transitivity (m0 * radix ^ Z.max f 0 * radix ^ Z.max (- f) 0 * (2 ^ l * 2 ^ Z.max (q0 - l) 0 * 2 ^ Z.max (- q0) 0)); [ring | rewrite E; ring].
Qed.

(** ** Bounds on the decimal exponent *)

Lemma decimal_exponent_lin e : let E := decimal_exponent e in 16777216 * (E - 1) <= (e - 1) * 5050445 < 16777216 * E.
Proof.
  cbv zeta. unfold decimal_exponent, mul_log2_radix. change (is_pow2 10) with false. cbn iota. rewrite Z.shiftr_div_pow2 by done. change (nthZ 0 mul_log2_radix_table (10 - 2)) with 5050445. change (2 ^ MUL_LOG2_RADIX_BASE_LOG2) with 16777216.
  pose proof (Z.div_mod ((e - 1) * 5050445) 16777216 ltac:(lia)). pose proof (Z.mod_pos_bound ((e - 1) * 5050445) 16777216 ltac:(lia)). lia.
Qed.

Lemma pow5_bound f k : 0 <= f -> 7 * f <= 3 * k -> 5 ^ f <= 2 ^ k.
Proof.
  intros Hf Hk. destruct (Z.le_gt_cases (5 ^ f) (2 ^ k)) as [| L]; [done | exfalso]. assert (H3 : (2 ^ k) ^ 3 < (5 ^ f) ^ 3) by (apply Z.pow_lt_mono_l; lia).
  assert (E2 : (2 ^ k) ^ 3 = 2 ^ (3 * k)) by (rewrite <- Z.pow_mul_r by lia; f_equal; lia). assert (E5 : (5 ^ f) ^ 3 = 125 ^ f) by (change 125 with (5 ^ 3); rewrite <- !Z.pow_mul_r by lia; f_equal; lia).
  assert (E7 : 128 ^ f = 2 ^ (7 * f)) by (change 128 with (2 ^ 7); by rewrite <- Z.pow_mul_r by lia). assert (125 ^ f <= 128 ^ f) by (apply Z.pow_le_mono_l; lia). assert (2 ^ (7 * f) <= 2 ^ (3 * k)) by (apply Z.pow_le_mono_r; lia). lia.
Qed.

Lemma down_limbs_5 f : 0 < f <= 330 -> 0 <= down_limbs 5 f <= 26.
Proof. intros Hf. unfold down_limbs. change (per_limb 5) with 13. split; [apply Z.div_pos; lia |]. apply Z.lt_succ_r, Z.div_lt_upper_bound; lia. Qed.

Lemma work10 m e f : normalized m e -> -330 <= f <= 430 -> (0 <= f -> e + f <= 600) -> work m (e - 53) 5 1 f < 2 ^ (32 * (DBIGNUM_LEN_MAX - 1)).
Proof.
  intros [Hm He] Hf Hef. change (2 ^ (32 * (DBIGNUM_LEN_MAX - 1))) with (2 ^ 53 * 2 ^ 1579). unfold work. destruct (Z.ltb_spec f 0) as [L | L]; cbn [andb negb Z.eqb].
  - pose proof (down_limbs_5 (- f) ltac:(lia)) as Hd. set (K := 32 * down_limbs 5 (- f) + down_extra [] 5 1 (- f) true (e - 53)). assert (HK : 0 <= K <= 1579) by (unfold K, down_extra; lia). assert (2 ^ K <= 2 ^ 1579) by (apply Z.pow_le_mono_r; lia). assert (0 < 2 ^ K) by lia. apply Z.lt_le_trans with (2 ^ 53 * 2 ^ K); [apply Z.mul_lt_mono_pos_r; lia | apply Z.mul_le_mono_nonneg_l; lia].
  - rewrite Z.max_l by lia. assert (H5 : 5 ^ f <= 2 ^ 1004) by (apply pow5_bound; lia). assert (H2 : 2 ^ Z.max (e - 53 + f * 1) 0 <= 2 ^ 575) by (apply Z.pow_le_mono_r; lia). assert (0 < 5 ^ f) by (apply Z.pow_pos_nonneg; lia). assert (0 < 2 ^ Z.max (e - 53 + f * 1) 0) by (apply Z.pow_pos_nonneg; lia).
    rewrite <- Z.mul_assoc. change (2 ^ 1579) with (2 ^ 1004 * 2 ^ 575). apply Z.lt_le_trans with (2 ^ 53 * (5 ^ f * 2 ^ Z.max (e - 53 + f * 1) 0)); [apply Z.mul_lt_mono_pos_r; [by apply Z.mul_pos_pos | lia] |]. apply Z.mul_le_mono_nonneg_l; [lia |]. apply Z.mul_le_mono_nonneg; lia.
Qed.

(** ** Significant digits *)

(** [x * 10^(P-E)], rounded: [P] digits when [x] is near [10^E]. *)
Definition sig_value (mode : rnd_mode) (m e P E : Z) : Z := round_div mode (scaled_num m (e - 53) 10 (P - E)) (scaled_den (e - 53) 10 (P - E)).

Lemma round_half mode n d c : 0 < d -> mode <> JS_RNDZ -> ((2 * c - 1) * d < 2 * n -> c <= round_div mode n d) /\ (c <= round_div mode n d -> (2 * c - 1) * d <= 2 * n).
Proof.
  intros Hd Hm. unfold round_div. pose proof (Z.div_mod n d ltac:(lia)) as E. pose proof (Z.mod_pos_bound n d Hd) as Hr. set (q := n / d) in *. set (r := n mod d) in *. rewrite E. destruct mode; [| | done].
  - destruct (Z.ltb_spec d (2 * r)), (Z.eqb_spec d (2 * r)); try lia; cbn [orb andb]; try (destruct (Z.odd q)); split; nia.
  - destruct (Z.leb_spec d (2 * r)); split; nia.
Qed.

Lemma round_err mode n d : 0 < d -> mode <> JS_RNDZ -> 2 * Z.abs (round_div mode n d * d - n) <= d.
Proof.
  intros Hd Hm. unfold round_div. pose proof (Z.div_mod n d ltac:(lia)) as E. pose proof (Z.mod_pos_bound n d Hd) as Hr. set (q := n / d) in *. set (r := n mod d) in *. rewrite E. destruct mode; [| | done].
  - destruct (Z.ltb_spec d (2 * r)), (Z.eqb_spec d (2 * r)); try lia; cbn [orb andb]; try (destruct (Z.odd q)); lia.
  - destruct (Z.leb_spec d (2 * r)); lia.
Qed.

Section scaled.
Context (m e E c g : Z) (Hme : normalized m e) (HE : E = decimal_exponent e) (Hc : 0 <= c) (Hec : 53 <= e + c) (Hg : 0 <= g) (HEg : 1 <= E + g).

(** [x], [10^(E-1)] and one, as multiples of the same number. *)
Let X : Z := m * 2 ^ (e - 53 + c) * 10 ^ g.
Let B : Z := 10 ^ (E - 1 + g) * 2 ^ c.

Lemma B_pos : 0 < B.
Proof using All. unfold B. apply Z.mul_pos_pos; apply Z.pow_pos_nonneg; lia. Qed.

Lemma X_range : B <= X < 20 * B.
Proof using All.
  destruct Hme as [Hm He]. set (T := 2 ^ (e - 1 + c) * 10 ^ g). assert (HT : B <= T < 10 * B).
  { unfold B, T. destruct (Z.le_gt_cases 1 e) as [L | L].
    - destruct (exponent_up e ltac:(lia)) as (H1 & H2 & H3). rewrite <- HE in *. rewrite (Z.pow_add_r 10 (E - 1)), (Z.pow_add_r 2 (e - 1)) by lia. assert (E10 : 10 ^ E = 10 * 10 ^ (E - 1)) by (rewrite <- Z.pow_succ_r by lia; f_equal; lia). assert (0 < 10 ^ g) by (apply Z.pow_pos_nonneg; lia). assert (0 < 2 ^ c) by lia. rewrite E10 in H3. set (p := 10 ^ (E - 1)) in *. set (s := 2 ^ (e - 1)) in *.
      replace (p * 10 ^ g * 2 ^ c) with (p * (10 ^ g * 2 ^ c)) by ring. replace (s * 2 ^ c * 10 ^ g) with (s * (10 ^ g * 2 ^ c)) by ring. assert (0 < 10 ^ g * 2 ^ c) by nia. nia.
    - destruct (exponent_down e ltac:(lia)) as (H1 & H2 & H3). rewrite <- HE in *. assert (Ec : 2 ^ c = 2 ^ (e - 1 + c) * 2 ^ (1 - e)) by (rewrite <- Z.pow_add_r by lia; f_equal; lia). assert (Eg : 10 ^ g = 10 ^ (E - 1 + g) * 10 ^ (1 - E)) by (rewrite <- Z.pow_add_r by lia; f_equal; lia). assert (E10 : 10 ^ (1 - E) = 10 * 10 ^ (- E)) by (rewrite <- Z.pow_succ_r by lia; f_equal; lia).
      rewrite Ec, Eg, E10 in *. set (p := 10 ^ (- E)) in *. set (s := 2 ^ (1 - e)) in *. assert (Hpos : 0 < 10 ^ (E - 1 + g) * 2 ^ (e - 1 + c)) by (apply Z.mul_pos_pos; [apply Z.pow_pos_nonneg; lia | lia]). set (w := 10 ^ (E - 1 + g)) in *. set (v := 2 ^ (e - 1 + c)) in *.
      replace (w * (v * s)) with (w * v * s) by ring. replace (v * (w * (10 * p))) with (w * v * (10 * p)) by ring. nia. }
  assert (EX : 2 ^ 52 * X = m * T) by (unfold X, T; replace (2 ^ (e - 1 + c)) with (2 ^ 52 * 2 ^ (e - 53 + c)) by (rewrite <- Z.pow_add_r by lia; f_equal; lia); ring). assert (0 < B) by (apply B_pos). nia.
Qed.

Lemma sig_value_eq mode P i : 0 <= P -> 0 <= i -> sig_value mode m e P (E + i) = round_div mode (X * 10 ^ P) (10 ^ (i + 1) * B).
Proof using All.
  intros HP Hi. unfold sig_value. assert (Hp : 0 < 10 ^ (i + 1) * B) by (apply Z.mul_pos_pos; [apply Z.pow_pos_nonneg; lia | apply B_pos]). apply round_ratio; [apply scaled_den_pos; lia | done |]. unfold scaled_num, scaled_den, X, B. set (f := P - (E + i)).
  assert (E2 : 2 ^ Z.max (e - 53) 0 * 2 ^ c = 2 ^ (e - 53 + c) * 2 ^ Z.max (- (e - 53)) 0) by (rewrite <- !Z.pow_add_r by lia; f_equal; lia). assert (E10 : 10 ^ Z.max f 0 * 10 ^ (i + 1) * 10 ^ (E - 1 + g) = 10 ^ g * 10 ^ P * 10 ^ Z.max (- f) 0) by (rewrite <- !Z.pow_add_r by lia; f_equal; lia).
  transitivity (m * (2 ^ Z.max (e - 53) 0 * 2 ^ c) * (10 ^ Z.max f 0 * 10 ^ (i + 1) * 10 ^ (E - 1 + g))); [ring | rewrite E2, E10; ring].
Qed.

Lemma sig_0 mode P : 1 <= P -> 10 ^ (P - 1) <= sig_value mode m e P E <= 2 * 10 ^ P.
Proof using All.
  intros HP. pose proof X_range. pose proof B_pos. replace E with (E + 0) at 1 2 by lia. rewrite sig_value_eq by lia. change (10 ^ (0 + 1)) with 10. assert (E10 : 10 ^ P = 10 * 10 ^ (P - 1)) by (rewrite <- Z.pow_succ_r by lia; f_equal; lia). assert (0 < 10 ^ (P - 1)) by (apply Z.pow_pos_nonneg; lia). split; [apply round_ge; nia | apply round_le; nia].
Qed.

Lemma sig_1 mode P : 1 <= P -> mode <> JS_RNDZ -> 10 ^ P <= sig_value mode m e P E -> 10 ^ (P - 1) <= sig_value mode m e P (E + 1) < 10 ^ P.
Proof using All.
  intros HP Hm. pose proof X_range. pose proof B_pos. replace E with (E + 0) at 1 by lia. rewrite !sig_value_eq by lia. change (10 ^ (0 + 1)) with 10. change (10 ^ (1 + 1)) with 100. assert (E10 : 10 ^ P = 10 * 10 ^ (P - 1)) by (rewrite <- Z.pow_succ_r by lia; f_equal; lia). assert (0 < 10 ^ (P - 1)) by (apply Z.pow_pos_nonneg; lia). intros H2.
  apply round_half in H2; [| lia | done]. split; [apply round_half; [lia | done |]; nia |]. apply Z.le_lt_trans with (2 * 10 ^ (P - 1)); [apply round_le; nia | lia].
Qed.
End scaled.

Lemma E_range m e : normalized m e -> -323 <= decimal_exponent e <= 309.
Proof. intros [_ He]. pose proof (decimal_exponent_lin e). cbv zeta in *. lia. Qed.

(** [P] digits that are the right ones: the first of [E], [E + 1] with less than
    [10^P]. *)
Definition sig_exponent (mode : rnd_mode) (m e P : Z) : Z := let E := decimal_exponent e in if sig_value mode m e P E <? 10 ^ P then E else E + 1.

Lemma sig_digits mode m e P : normalized m e -> 1 <= P -> mode <> JS_RNDZ -> 10 ^ (P - 1) <= sig_value mode m e P (sig_exponent mode m e P) < 10 ^ P.
Proof.
  intros Hme HP Hm. pose proof (E_range m e Hme) as HE. destruct Hme as [H1 H2] eqn:EH. clear EH. unfold sig_exponent. set (E := decimal_exponent e) in *. pose proof (sig_0 m e E 1200 400 Hme eq_refl ltac:(lia) ltac:(lia) ltac:(lia) ltac:(lia) mode P HP) as H0. cbv zeta in H0.
  destruct (Z.ltb_spec (sig_value mode m e P E) (10 ^ P)); [lia |]. apply (sig_1 m e E 1200 400); done || lia.
Qed.

Lemma sig_run mode m e P E :
  normalized m e -> 1 <= P <= 101 -> decimal_exponent e <= E <= decimal_exponent e + 1 ->
  exists t, mul_pow_round DBIGNUM_LEN_MAX m (e - 53) 5 1 (P - E) mode = Done t /\ num t /\ value t = sig_value mode m e P E.
Proof.
  intros Hme HP HE. pose proof (E_range m e Hme). pose proof (decimal_exponent_lin e) as Hlin. cbv zeta in Hlin. destruct Hme as [H1 H2] eqn:EH. clear EH. destruct radix10 as (_ & _ & R3).
  destruct (mul_pow_round_spec DBIGNUM_LEN_MAX m (e - 53) 5 1 (P - E) mode) as (t & E0 & Ht & Et); [by right | lia | lia | done | apply work10; [done | lia | lia] |]. by exists t.
Qed.

(** ** Comparing *)

Lemma cmp_loop_spec a b : limbs a -> limbs b -> length a = length b -> cmp_loop a b = match value a ?= value b with Lt => -1 | Eq => 0 | Gt => 1 end.
Proof.
  intros Ha. revert b. induction Ha as [| x a Hx Ha IH]; intros b Hb Hl; [by destruct b |]. destruct b as [| y b]; [done |]. pose proof (Forall_inv Hb) as Hy. pose proof (Forall_inv_tail Hb) as Hb'. unfold limb in *. cbn [cmp_loop value]. rewrite IH by (done || simpl in Hl; lia).
  destruct (Z.compare_spec (value a) (value b)), (Z.compare_spec (x + 2 ^ 32 * value a) (y + 2 ^ 32 * value b)), (Z.eqb_spec x y), (Z.ltb_spec x y); cbn [negb Z.eqb]; try done; lia.
Qed.

Lemma cmp_spec a b : num a -> num b -> (mpb_cmp a b <? 0) = (value a <? value b).
Proof.
  intros [Ha Na] [Hb Nb]. unfold mpb_cmp. assert (L : forall t u, limbs t -> limbs u -> normal u -> t <> [] -> lenZ t < lenZ u -> value t < value u).
  { intros t u Ht Hu Nu Hne Hl. pose proof (value_range t Ht) as [_ Hr]. assert (1 <= lenZ t) by (destruct t; [done |]; unfold lenZ; simpl; lia). pose proof (normal_low u Hu Nu ltac:(lia)). assert (top t <= 2 ^ (32 * (lenZ u - 1))) by (unfold top; apply Z.pow_le_mono_r; lia). lia. }
  destruct (Z.ltb_spec (lenZ a) (lenZ b)) as [H | H]; [pose proof (L a b Ha Hb Nb (proj1 Na) H); symmetry; by apply Z.ltb_lt |]. destruct (Z.ltb_spec (lenZ b) (lenZ a)) as [H' | H']; [pose proof (L b a Hb Ha Na (proj1 Nb) H'); symmetry; apply Z.ltb_ge; lia |].
  rewrite cmp_loop_spec by (done || unfold lenZ in *; lia). destruct (Z.compare_spec (value a) (value b)); symmetry; (apply Z.ltb_lt || apply Z.ltb_ge); lia.
Qed.

(** ** The fixed format *)

Lemma fixed_max P : 1 <= P <= 101 -> exists a t, mul_pow MANT_LEN_MAX [1] 5 1 P false 0 = Done (a, - P * 1) /\ mpb_shr_round MANT_LEN_MAX a (- P * 1) JS_RNDZ = Done t /\ num t /\ value t = 10 ^ P.
Proof.
  intros HP. destruct radix10 as (_ & _ & R3). assert (N1 : num [1]) by (apply num_single; unfold limb; lia). assert (H5 : 5 ^ P <= 2 ^ 236) by (apply pow5_bound; lia).
  destruct (mul_pow_0 MANT_LEN_MAX [1] 5 1 P false 0) as (a & Ea & Ha & Va); [by right | done | by left; lia | done | |].
  { change (value [1]) with 1. rewrite Z.mul_1_l, Z.max_l by lia. apply Z.le_lt_trans with (1 := H5). apply Z.pow_lt_mono_r; done || lia. }
  change (value [1]) with 1 in Va. rewrite Z.mul_1_l, Z.max_l in Va by lia. assert (0 < 5 ^ P) by (apply Z.pow_pos_nonneg; lia).
  destruct (shr_round_left MANT_LEN_MAX a P JS_RNDZ Ha) as (t & Et & Ht & Vt); [lia | lia | | done |].
  { rewrite Va. change (2 ^ (32 * (MANT_LEN_MAX - 1))) with (2 ^ 236 * 2 ^ 308). assert (2 ^ P < 2 ^ 308) by (apply Z.pow_lt_mono_r; lia). assert (0 < 2 ^ P) by lia. apply Z.le_lt_trans with (2 ^ 236 * 2 ^ P); [apply Z.mul_le_mono_nonneg_r; lia | apply Z.mul_lt_mono_pos_l; lia]. }
  exists a, t. replace (- P * 1) with (- P) in * by lia. rewrite Ea, Et, Vt, Va. change 10 with (5 * 2). rewrite Z.pow_mul_l. done.
Qed.

Lemma fixed_loop_spec m e P t :
  normalized m e -> 1 <= P <= 101 -> num t -> value t = 10 ^ P ->
  let E := sig_exponent JS_RNDNA m e P in exists r, fixed_loop 3 m e 5 1 P (decimal_exponent e) t = Done (r, E) /\ num r /\ value r = sig_value JS_RNDNA m e P E.
Proof.
  intros Hme HP Ht Vt. cbv zeta. pose proof (sig_digits JS_RNDNA m e P Hme ltac:(lia) ltac:(done)) as Hs. unfold sig_exponent in *. set (E := decimal_exponent e) in *. cbn [fixed_loop]. destruct (sig_run JS_RNDNA m e P E Hme HP ltac:(fold E; lia)) as (u & -> & Hu & Vu). cbn [run_bind].
  rewrite cmp_spec, Vu, Vt by done. destruct (Z.ltb_spec (sig_value JS_RNDNA m e P E) (10 ^ P)); [by exists u |].
  destruct (sig_run JS_RNDNA m e P (E + 1) Hme HP ltac:(fold E; lia)) as (w & -> & Hw & Vw). cbn [run_bind]. rewrite cmp_spec, Vw, Vt by done. destruct (Z.ltb_spec (sig_value JS_RNDNA m e P (E + 1)) (10 ^ P)); [by exists w | lia].
Qed.

(** ** Layout *)

(** [d.ddde+x], with [j] digits in the exponent. *)
Definition sci_text (ds : list Z) (E : Z) (j : nat) : list Z := with_dot 1 ds ++ 101 :: (if E - 1 <? 0 then 45 else 43) :: text 10 j (Z.abs (E - 1)).

(** [0.000ddd], [d.dd] or [ddd000]. *)
Definition plain_text (ds : list Z) (E : Z) : list Z :=
  if E <=? 0 then 48 :: 46 :: replicate (Z.to_nat (- E)) 48 ++ ds else with_dot (Z.min (lenZ ds) E) ds ++ replicate (Z.to_nat (E - lenZ ds)) 48.

(** Whether the exponent is written. *)
Definition with_exponent (flags n_digits E : Z) : bool :=
  let expm := Z.land flags JS_DTOA_EXP_MASK in
  (expm =? JS_DTOA_EXP_ENABLED) || (expm =? JS_DTOA_EXP_AUTO) && ((E <=? -6) || ((if Z.land flags JS_DTOA_FORMAT_MASK =? JS_DTOA_FORMAT_FIXED then n_digits else 21) <? E)).

Lemma with_dot_end (l : list Z) : with_dot (lenZ l) l = l.
Proof. unfold with_dot. by rewrite Z.eqb_refl. Qed.

Lemma dtoa_output_spec t n_digits flags P E :
  num t -> lenZ t <= DBIGNUM_LEN_MAX -> 0 <= P -> - 2 ^ 31 < E < 2 ^ 31 ->
  let ds := text 10 (Z.to_nat P) (value t) in
  exists j, canonical 10 j (Z.abs (E - 1)) /\ dtoa_output t 10 5 1 n_digits flags P E = Done (if with_exponent flags n_digits E then sci_text ds E j else plain_text ds E).
Proof.
  intros Ht Hl HP HE. cbv zeta. destruct (u32toa_spec (Z.abs (E - 1)) ltac:(lia)) as (j & Ej & Hj). exists j. split; [done |]. unfold dtoa_output, with_exponent. change (nthZ 0 dtoa_max_digits_table (10 - 2) + 4) with 21. cbv zeta.
  assert (Hds : lenZ (text 10 (Z.to_nat P) (value t)) = P) by (unfold lenZ; rewrite text_length; lia). destruct (_ || _).
  - rewrite output_digits_spec by (done || lia). cbn [run_bind Z.eqb Pos.eqb]. replace (if E - 1 <? 0 then - (E - 1) else E - 1) with (Z.abs (E - 1)) by (destruct (Z.ltb_spec (E - 1) 0); lia). rewrite Ej. done.
  - unfold plain_text. destruct (E <=? 0); rewrite output_digits_spec by (done || lia); cbn [run_bind]; [rewrite <- Hds at 1; by rewrite with_dot_end | by rewrite Hds].
Qed.

Lemma sig_len mode m e P t E : normalized m e -> 1 <= P <= 101 -> num t -> value t = sig_value mode m e P E -> sig_value mode m e P E < 10 ^ P -> lenZ t <= DBIGNUM_LEN_MAX.
Proof.
  intros Hme HP Ht Vt Hlt. apply normal_len; [apply Ht | apply Ht | done |]. rewrite Vt. apply Z.lt_le_trans with (1 := Hlt). transitivity (10 ^ 101); [apply Z.pow_le_mono_r; lia | vm_compute; discriminate].
Qed.

(** [n] significant digits. *)
Lemma fixed_spec m e n flags :
  normalized m e -> 1 <= n <= 101 -> Z.land flags JS_DTOA_FORMAT_MASK = JS_DTOA_FORMAT_FIXED ->
  let E := sig_exponent JS_RNDNA m e n in let ds := text 10 (Z.to_nat n) (sig_value JS_RNDNA m e n E) in
  exists j, canonical 10 j (Z.abs (E - 1)) /\ dtoa_finite m e 10 n flags = Done (if with_exponent flags n E then sci_text ds E j else plain_text ds E).
Proof.
  intros Hme Hn Hfmt. cbv zeta. destruct radix10 as (R1 & R2 & R3). pose proof (E_range m e Hme). pose proof (sig_digits JS_RNDNA m e n Hme ltac:(lia) ltac:(done)) as Hs. destruct (fixed_max n Hn) as (a & t & E1 & E2 & Ht & Vt). destruct (fixed_loop_spec m e n t Hme Hn Ht Vt) as (r & E3 & Hr & Vr). cbv zeta in E3, Vr.
  unfold dtoa_finite. rewrite Hfmt, R1, R2. change (JS_DTOA_FORMAT_FIXED =? JS_DTOA_FORMAT_FREE) with false. change (JS_DTOA_FORMAT_FIXED =? JS_DTOA_FORMAT_FRAC) with false. cbn [andb]. fold (decimal_exponent e).
  assert (Ea : (1 <=? n) && (n <=? JS_DTOA_MAX_DIGITS) = true) by (unfold JS_DTOA_MAX_DIGITS; lia). rewrite Ea. cbn [assert_ run_bind]. rewrite E1. cbn [run_bind]. rewrite E2. cbn [run_bind]. rewrite E3. cbn [run_bind]. set (E := sig_exponent JS_RNDNA m e n) in *. rewrite <- Vr.
  apply dtoa_output_spec; [done | apply (sig_len JS_RNDNA m e n r E); done || lia | lia |]. unfold E, sig_exponent. destruct (_ <? _); lia.
Qed.

(** ** Seventeen digits are enough *)

Lemma round_nearest n d M : 0 < d -> 2 * Z.abs (n - M * d) < d -> round_div JS_RNDN n d = M.
Proof.
  intros Hd He. pose proof (round_err JS_RNDN n d Hd ltac:(done)). set (R := round_div JS_RNDN n d) in *. destruct (Z.eq_dec R M) as [| N]; [done |]. exfalso. assert (d <= Z.abs ((R - M) * d)) by (rewrite Z.abs_mul, (Z.abs_eq d) by lia; nia). lia.
Qed.

(** The number has the bits of a binary64 number. *)
Definition representable (m e : Z) : Prop := normalized m e /\ exists M, m = M * 2 ^ Z.max (-1021 - e) 0.

Section close.
Context (n d m e c : Z) (Hn : 0 < n) (Hd : 0 < d) (Hme : representable m e) (Hc : 1200 <= c).

Let H : Z := d * 2 ^ (e - 55 + c).
Let Y : Z := n * 2 ^ c.

Lemma H_pos : 0 < H.
Proof using All. unfold H. destruct Hme as [[_ He] _]. apply Z.mul_pos_pos; [done | lia]. Qed.

Lemma H_shift k : 0 <= k -> d * 2 ^ (e - 55 + k + c) = H * 2 ^ k.
Proof using All. intros Hk. destruct Hme as [[_ He] _]. unfold H. replace (e - 55 + k + c) with (e - 55 + c + k) by lia. rewrite Z.pow_add_r by lia. ring. Qed.

Lemma X_H : d * m * 2 ^ (e - 53 + c) = 4 * m * H.
Proof using All. pose proof (H_shift 2 ltac:(lia)) as E. replace (e - 55 + 2 + c) with (e - 53 + c) in E by lia. change (2 ^ 2) with 4 in E. transitivity (m * (d * 2 ^ (e - 53 + c))); [ring | rewrite E; ring]. Qed.

Context (Hclose : 2 * 10 ^ 16 * Z.abs (n * 2 ^ c - d * m * 2 ^ (e - 53 + c)) <= n * 2 ^ c).

Lemma delta_small : Z.abs (Y - 4 * m * H) < 2 * H /\ (Y < 2 ^ 54 * H -> Z.abs (Y - 4 * m * H) < H).
Proof using All.
  destruct Hme as [[Hm _] _]. pose proof H_pos. rewrite X_H in Hclose. fold Y in Hclose. set (D := Z.abs (Y - 4 * m * H)) in *. assert (Hy : Y <= 4 * m * H + D) by lia. assert (4 * m * H <= 4 * (2 ^ 53 - 1) * H) by nia. change (10 ^ 16) with 10000000000000000 in Hclose. split; [| intros HY]; lia.
Qed.

(** In the binade of [m]. *)
Lemma close_same : 2 ^ 54 * H <= Y -> nearest_pair n d = (m, e).
Proof using All.
  intros Hlow. pose proof H_pos as HH. destruct delta_small as [D1 _]. destruct Hme as [[Hm He] [M EM]]. assert (Hexp : exponent n d = e).
  { apply exponent_unique; [done | done | |]; rewrite (le_pow2_shift _ _ _ c) by lia; [apply Z.leb_le | apply Z.leb_gt]; fold Y.
    - replace (e - 1 + c) with (e - 55 + 54 + c) by lia. rewrite H_shift by lia. lia.
    - replace (e + c) with (e - 55 + 55 + c) by lia. rewrite H_shift by lia. change (2 ^ 55) with (4 * 2 ^ 53). assert (4 * m * H <= 4 * (2 ^ 53 - 1) * H) by nia. lia. }
  unfold nearest_pair, unit_exponent. rewrite Hexp. set (q := Z.max (e - 53) (-1074)). set (s := Z.max (-1021 - e) 0) in *. assert (Eq : q = e - 53 + s) by lia. assert (HS : 1 <= 2 ^ s) by (apply (Z.pow_le_mono_r 2 0); lia).
  assert (ER : round_at JS_RNDN n d q = M). { rewrite (round_at_shift JS_RNDN n d q c) by lia. fold Y. replace (q + c) with (e - 55 + (2 + s) + c) by lia. rewrite H_shift, Z.pow_add_r by lia. change (2 ^ 2) with 4. apply round_nearest; [nia |]. replace (M * (H * (4 * 2 ^ s))) with (4 * m * H) by (rewrite EM; ring). nia. }
  rewrite ER. unfold norm64. replace (53 - e + q) with s by lia. rewrite <- EM. destruct (Z.leb_spec (2 ^ 53) m); [lia | done].
Qed.

(** Just below the power of two [m]. *)
Lemma close_below : Y < 2 ^ 54 * H -> nearest_pair n d = (m, e).
Proof using All.
  intros Hlow. pose proof H_pos as HH. destruct delta_small as [_ D2]. specialize (D2 Hlow). destruct Hme as [[Hm He] _]. assert (Em : m = 2 ^ 52) by nia. rewrite Em in D2. assert (Hexp : exponent n d = e - 1).
  { apply exponent_unique; [done | done | |]; rewrite (le_pow2_shift _ _ _ c) by lia; [apply Z.leb_le | apply Z.leb_gt]; fold Y.
    - replace (e - 1 - 1 + c) with (e - 55 + 53 + c) by lia. rewrite H_shift by lia. change (2 ^ 52) with 4503599627370496 in *. lia.
    - replace (e - 1 + c) with (e - 55 + 54 + c) by lia. rewrite H_shift by lia. lia. }
  unfold nearest_pair, unit_exponent. rewrite Hexp. set (q := Z.max (e - 1 - 53) (-1074)). set (s := Z.max (-1020 - e) 0) in *. assert (Eq : q = e - 54 + s) by lia. assert (HS : 1 <= 2 ^ s) by (apply (Z.pow_le_mono_r 2 0); lia).
  assert (E53 : 2 ^ (53 - s) * 2 ^ s = 2 ^ 53) by (rewrite <- Z.pow_add_r by lia; f_equal; lia).
  assert (ER : round_at JS_RNDN n d q = 2 ^ (53 - s)). { rewrite (round_at_shift JS_RNDN n d q c) by lia. fold Y. replace (q + c) with (e - 55 + (1 + s) + c) by lia. rewrite H_shift, Z.pow_add_r by lia. change (2 ^ 1) with 2. apply round_nearest; [nia |]. replace (2 ^ (53 - s) * (H * (2 * 2 ^ s))) with (4 * 2 ^ 52 * H) by (transitivity (2 * H * (2 ^ (53 - s) * 2 ^ s)); [rewrite E53; change (2 ^ 53) with (2 * 2 ^ 52); ring | ring]). nia. }
  rewrite ER. unfold norm64. replace (53 - (e - 1) + q) with s by lia. rewrite E53. change (2 ^ 53 <=? 2 ^ 53) with true. cbn iota. rewrite Em. f_equal. lia.
Qed.

Lemma nearest_close : nearest_pair n d = (m, e).
Proof using All. destruct (Z.le_gt_cases (2 ^ 54 * H) Y); [by apply close_same | by apply close_below]. Qed.
End close.

Lemma seventeen m e : representable m e -> let E := sig_exponent JS_RNDN m e 17 in let V := sig_value JS_RNDN m e 17 E in nearest_pair (pow_num V 10 (E - 17)) (pow_den 10 (E - 17)) = (m, e).
Proof.
  intros Hrep. destruct Hrep as [Hme HM] eqn:EH. clear EH. cbv zeta. pose proof (sig_digits JS_RNDN m e 17 Hme ltac:(lia) ltac:(done)) as HV. set (E := sig_exponent JS_RNDN m e 17) in *. set (V := sig_value JS_RNDN m e 17 E) in *. change (10 ^ (17 - 1)) with (10 ^ 16) in HV.
  assert (HV0 : 0 < V) by (assert (0 < 10 ^ 16) by done; lia). destruct Hme as [Hm He] eqn:EH. clear EH.
  pose proof (round_err JS_RNDN (scaled_num m (e - 53) 10 (17 - E)) (scaled_den (e - 53) 10 (17 - E)) (scaled_den_pos (e - 53) 10 (17 - E) ltac:(lia)) ltac:(done)) as Herr. fold (sig_value JS_RNDN m e 17 E) in Herr. fold V in Herr.
  unfold scaled_num, scaled_den in Herr. unfold pow_num, pow_den. replace (- (17 - E)) with (E - 17) in Herr by lia. replace (17 - E) with (- (E - 17)) in Herr by lia. set (f := E - 17) in *. set (A := 10 ^ Z.max f 0) in *. set (D := 10 ^ Z.max (- f) 0) in *. assert (HA : 0 < A) by (apply Z.pow_pos_nonneg; lia). assert (HD : 0 < D) by (apply Z.pow_pos_nonneg; lia).
  apply (nearest_close (V * A) D m e 1200); [nia | done | done | lia |]. set (k := 1200 - Z.max (- (e - 53)) 0). set (P := 2 ^ Z.max (- (e - 53)) 0) in *. assert (E1 : 2 ^ 1200 = P * 2 ^ k) by (unfold P; rewrite <- Z.pow_add_r by lia; f_equal; lia). assert (E2 : 2 ^ (e - 53 + 1200) = 2 ^ Z.max (e - 53) 0 * 2 ^ k) by (rewrite <- Z.pow_add_r by lia; f_equal; lia). rewrite E1, E2. set (R := 2 ^ Z.max (e - 53) 0) in *. assert (HP : 0 < P) by (apply Z.pow_pos_nonneg; lia). assert (Hk : 0 < 2 ^ k) by lia. set (K := 2 ^ k) in *.
  replace (V * A * (P * K) - D * m * (R * K)) with ((V * (P * A) - m * R * D) * K) by ring. rewrite Z.abs_mul, (Z.abs_eq K) by lia. set (T := Z.abs (V * (P * A) - m * R * D)) in *. transitivity (10 ^ 16 * (P * A * K)).
  2: { replace (V * A * (P * K)) with (V * (P * A * K)) by ring. apply Z.mul_le_mono_nonneg_r; [nia | lia]. }
  replace (2 * 10 ^ 16 * (T * K)) with (10 ^ 16 * (2 * T * K)) by ring. apply Z.mul_le_mono_nonneg_l; [done |]. apply Z.mul_le_mono_nonneg_r; [lia | done].
Qed.

(** ** The shortest digits *)

Lemma to_d_spec cap t r rs f :
  r = 1 \/ In r odd_radixes -> 0 <= rs -> num t -> 0 < value t -> 3 <= cap -> room_to_d cap (value t) r f ->
  let n := pow_num (value t) (r * 2 ^ rs) f in let d := pow_den (r * 2 ^ rs) f in
  -1084 <= exponent n d -> mul_pow_round_to_d cap t r rs f JS_RNDN = Done (nearest_pair n d).
Proof.
  intros Hr Hrs Ht Hv Hcap Hroom. cbv zeta. intros He. unfold room_to_d in Hroom. destruct ((f <? 0) && negb (r =? 1)) eqn:E.
  - apply andb_prop in E as [Hf Hr1]. apply Z.ltb_lt in Hf. apply negb_true_iff, Z.eqb_neq in Hr1. destruct Hr as [| Hr]; [done |]. unfold pow_num, pow_den in *. rewrite Z.max_r, Z.max_l, Z.pow_0_r, Z.mul_1_r in * by lia. replace f with (- - f) at 1 by lia. apply to_d_down; done || lia.
  - apply to_d_exact; try done. apply andb_false_iff in E as [Hf | Hf]; [left; by apply Z.ltb_ge in Hf | right; by apply negb_false_iff, Z.eqb_eq in Hf].
Qed.

Lemma exponent_gt n d k : 0 < n -> 0 < d -> le_pow2 k n d = true -> k < exponent n d.
Proof. intros Hn Hd H. destruct (Z.lt_ge_cases k (exponent n d)) as [| L]; [done |]. destruct (exponent_spec n d Hn Hd) as [_ E2]. rewrite (le_pow2_mono k (exponent n d)) in E2; done. Qed.

(** Decimal digits [mant] of which there are [P], scaled to [E]. *)
Definition decimal (mant P E : Z) : Prop := 1 <= P <= 38 /\ 10 ^ (P - 1) <= mant < 10 ^ P /\ -323 <= E <= 310.

Lemma decimal_pos mant P E : decimal mant P E -> 0 < mant < 2 ^ 127.
Proof.
  intros (HP & Hm & _). assert (0 < 10 ^ (P - 1)) by (apply Z.pow_pos_nonneg; lia). assert (10 ^ P <= 10 ^ 38) by (apply Z.pow_le_mono_r; lia). assert (10 ^ 38 < 2 ^ 127) by done. lia.
Qed.

Lemma decimal_17 mant P E : decimal mant P E -> P <= 17 -> 0 < mant < 2 ^ 57.
Proof.
  intros Hdec HP. pose proof (decimal_pos _ _ _ Hdec). destruct Hdec as (H1 & Hm & _). assert (10 ^ P <= 10 ^ 17) by (apply Z.pow_le_mono_r; lia). assert (10 ^ 17 < 2 ^ 57) by done. lia.
Qed.

Lemma decimal_room mant P E : decimal mant P E -> room_to_d DBIGNUM_LEN_MAX mant 5 (E - P).
Proof.
  intros Hdec. pose proof (decimal_pos _ _ _ Hdec) as Hm. destruct Hdec as (HP & _ & HE). unfold room_to_d. destruct (Z.ltb_spec (E - P) 0) as [L | L]; cbn [andb negb Z.eqb].
  - assert (Hd : 0 <= down_limbs 5 (- (E - P)) <= 28). { unfold down_limbs. change (per_limb 5) with 13. split; [apply Z.div_pos; lia |]. apply Z.lt_succ_r, Z.div_lt_upper_bound; lia. }
    set (x := Z.max (55 - Z.log2 mant) 0). rewrite Z.pow_add_r by lia. assert (Hx : 0 < mant * 2 ^ x <= 2 ^ 127). { pose proof (Z.log2_spec mant ltac:(lia)) as [_ B]. rewrite <- Z.add_1_r in B. pose proof (Z.log2_nonneg mant). destruct (Z.le_gt_cases 55 (Z.log2 mant)) as [G | G]; [unfold x; rewrite Z.max_r by lia; lia |].
      unfold x. rewrite Z.max_l by lia. assert (E2 : 2 ^ 57 = 2 * (2 ^ (Z.log2 mant + 1) * 2 ^ (55 - Z.log2 mant))) by (rewrite <- Z.pow_add_r, <- Z.pow_succ_r by lia; f_equal; lia). assert (0 < 2 ^ (55 - Z.log2 mant)) by lia. assert (2 ^ 57 < 2 ^ 127) by done. nia. }
    assert (H2 : 2 ^ (32 * down_limbs 5 (- (E - P))) <= 2 ^ 896) by (apply Z.pow_le_mono_r; lia). change (2 ^ (32 * (DBIGNUM_LEN_MAX - 1))) with (2 ^ 127 * 2 ^ 1505). assert (2 ^ 896 < 2 ^ 1505) by done. rewrite (Z.mul_comm (2 ^ (32 * _))), Z.mul_assoc. apply Z.le_lt_trans with (2 ^ 127 * 2 ^ 896); [apply Z.mul_le_mono_nonneg; lia | apply Z.mul_lt_mono_pos_l; lia].
  - rewrite Z.max_l by lia. assert (H5 : 5 ^ (E - P) <= 2 ^ 724) by (apply pow5_bound; lia). assert (0 < 5 ^ (E - P)) by (apply Z.pow_pos_nonneg; lia). change (2 ^ (32 * DBIGNUM_LEN_MAX)) with (2 ^ 127 * 2 ^ 1537). assert (2 ^ 724 < 2 ^ 1537) by done. apply Z.mul_lt_mono_nonneg; lia.
Qed.

Lemma decimal_exponent_low mant P E : decimal mant P E -> -1084 <= exponent (pow_num mant 10 (E - P)) (pow_den 10 (E - P)).
Proof.
  intros Hdec. pose proof (decimal_pos _ _ _ Hdec) as Hm. destruct Hdec as (HP & Hmant & HE). enough (-1085 < exponent (pow_num mant 10 (E - P)) (pow_den 10 (E - P))) by lia. unfold pow_num, pow_den. set (f := E - P) in *. assert (HA : 0 < 10 ^ Z.max f 0) by (apply Z.pow_pos_nonneg; lia). assert (HD : 0 < 10 ^ Z.max (- f) 0) by (apply Z.pow_pos_nonneg; lia).
  apply exponent_gt; [nia | done |]. rewrite (le_pow2_shift _ _ _ 1085) by lia. apply Z.leb_le. change (2 ^ (-1085 + 1085)) with 1. rewrite Z.mul_1_r. destruct (Z.le_gt_cases 0 f) as [L | L].
  - rewrite (Z.max_r (- f)), Z.pow_0_r by lia. assert (1 <= 2 ^ 1085) by done. nia.
  - rewrite Z.max_l, Z.max_r, Z.pow_0_r, Z.mul_1_r by lia. replace (- f) with (P - 1 + (1 - E)) by lia. assert (H324 : 10 ^ Z.max (1 - E) 0 <= 10 ^ 324) by (apply Z.pow_le_mono_r; lia). assert (H1 : 10 ^ 324 <= 2 ^ 1085) by (vm_compute; discriminate). destruct (Z.le_gt_cases 0 (1 - E)) as [G | G].
    + rewrite Z.pow_add_r by lia. rewrite Z.max_l in H324 by lia. assert (0 < 10 ^ (1 - E)) by (apply Z.pow_pos_nonneg; lia). assert (0 < 10 ^ (P - 1)) by (apply Z.pow_pos_nonneg; lia). apply Z.mul_le_mono_nonneg; lia.
    + assert (10 ^ (P - 1 + (1 - E)) <= 10 ^ (P - 1)) by (apply Z.pow_le_mono_r; lia). assert (1 <= 2 ^ 1085) by done. nia.
Qed.

(** What [mul_pow_round_to_d] gives for them. *)
Lemma decimal_to_d t P E :
  num t -> decimal (value t) P E -> mul_pow_round_to_d DBIGNUM_LEN_MAX t 5 1 (E - P) JS_RNDN = Done (nearest_pair (pow_num (value t) 10 (E - P)) (pow_den 10 (E - P))).
Proof.
  intros Ht Hdec. pose proof (decimal_pos _ _ _ Hdec) as Hm. destruct radix10 as (_ & _ & R3). change 10 with (5 * 2 ^ 1).
  apply to_d_spec; [by right | lia | done | lia | done | by apply decimal_room with (P := P) | by apply decimal_exponent_low].
Qed.

Lemma strip_spec fuel mant P n :
  0 < mant < 10 ^ Z.of_nat n -> (n <= fuel)%nat -> exists j, 0 <= j /\ strip_zeros fuel mant P 10 = Done (mant / 10 ^ j, P - j) /\ mant = mant / 10 ^ j * 10 ^ j.
Proof.
  revert mant P n. induction fuel as [| fuel IH]; intros mant P n Hm Hn; [assert (n = 0%nat) as -> by lia; rewrite Z.pow_0_r in Hm; lia |]. destruct n as [| n]; [rewrite Z.pow_0_r in Hm; lia |]. rewrite pow_S in Hm. cbn [strip_zeros]. destruct (Z.eqb_spec (mant mod 10) 0) as [E | E].
  - pose proof (Z.div_mod mant 10 ltac:(lia)) as D. destruct (IH (mant / 10) (P - 1) n) as (j & Hj & Ej & EM); [lia | lia |]. exists (j + 1). split; [lia |]. rewrite Ej. assert (Ep : 10 ^ (j + 1) = 10 * 10 ^ j) by (rewrite Z.pow_add_r by lia; lia). assert (0 < 10 ^ j) by (apply Z.pow_pos_nonneg; lia). rewrite Z.div_div, <- Ep in * by lia. split; [do 2 f_equal; lia |]. lia.
  - exists 0. rewrite Z.pow_0_r, Z.div_1_r, Z.sub_0_r. split; [lia |]. split; [done | lia].
Qed.


(** Equal fractions. *)
Lemma le_pow2_ratio e n1 d1 n2 d2 : 0 < d1 -> 0 < d2 -> n1 * d2 = n2 * d1 -> le_pow2 e n1 d1 = le_pow2 e n2 d2.
Proof.
  intros H1 H2 E. unfold le_pow2. set (A := 2 ^ Z.max e 0). set (B := 2 ^ Z.max (- e) 0). apply eq_bool_prop_intro. rewrite !Is_true_true, !Z.leb_le, (Z.mul_le_mono_pos_r _ _ d2), (Z.mul_le_mono_pos_r (d2 * A) _ d1) by done.
  replace (n1 * B * d2) with (n1 * d2 * B) by ring. replace (n2 * B * d1) with (n2 * d1 * B) by ring. rewrite E. replace (d2 * A * d1) with (d1 * A * d2) by ring. done.
Qed.

Lemma nearest_ratio n1 d1 n2 d2 : 0 < n1 -> 0 < n2 -> 0 < d1 -> 0 < d2 -> n1 * d2 = n2 * d1 -> nearest_pair n1 d1 = nearest_pair n2 d2.
Proof.
  intros N1 N2 D1 D2 E. assert (Ee : exponent n1 d1 = exponent n2 d2) by (destruct (exponent_spec n2 d2 N2 D2); apply exponent_unique; try done; by rewrite (le_pow2_ratio _ n1 d1 n2 d2)). unfold nearest_pair, unit_exponent. rewrite Ee. f_equal. unfold round_at.
  apply round_ratio; [apply Z.mul_pos_pos; [done | apply Z.pow_pos_nonneg; lia] | apply Z.mul_pos_pos; [done | apply Z.pow_pos_nonneg; lia] |]. set (q := Z.max (exponent n2 d2 - 53) (-1074)). transitivity (n1 * d2 * (2 ^ Z.max (- q) 0 * 2 ^ Z.max q 0)); [ring | rewrite E; ring].
Qed.

(** Trailing zeros left out, or other zeros written: the same number. *)
Lemma pow_shift mant j f : 0 < mant -> 0 <= j -> nearest_pair (pow_num (mant * 10 ^ j) 10 f) (pow_den 10 f) = nearest_pair (pow_num mant 10 (f + j)) (pow_den 10 (f + j)).
Proof.
  intros Hm Hj. unfold pow_num, pow_den. assert (P : forall k, 0 <= k -> 0 < 10 ^ k) by (intros; apply Z.pow_pos_nonneg; lia). apply nearest_ratio; try (repeat apply Z.mul_pos_pos; try apply P; lia).
  assert (E : 10 ^ j * 10 ^ Z.max f 0 * 10 ^ Z.max (- (f + j)) 0 = 10 ^ Z.max (f + j) 0 * 10 ^ Z.max (- f) 0) by (rewrite <- !Z.pow_add_r by lia; f_equal; lia). transitivity (mant * (10 ^ j * 10 ^ Z.max f 0 * 10 ^ Z.max (- (f + j)) 0)); [ring | rewrite E; ring].
Qed.

Lemma strip_decimal mant P E :
  decimal mant P E -> exists mant' P', strip_zeros 65 mant P 10 = Done (mant', P') /\ decimal mant' P' E /\ P' <= P /\ nearest_pair (pow_num mant' 10 (E - P')) (pow_den 10 (E - P')) = nearest_pair (pow_num mant 10 (E - P)) (pow_den 10 (E - P)).
Proof.
  intros Hdec. pose proof (decimal_pos _ _ _ Hdec) as Hm. destruct Hdec as (HP & Hmant & HE). assert (Hp38 : 10 ^ P <= 10 ^ 38) by (apply Z.pow_le_mono_r; lia). destruct (strip_spec 65 mant P 38) as (j & Hj & Es & EM); [change (Z.of_nat 38) with 38; lia | lia |]. set (mant' := mant / 10 ^ j) in *. assert (Hpj : 0 < 10 ^ j) by (apply Z.pow_pos_nonneg; lia). assert (Hm' : 0 < mant') by nia.
  assert (HjP : j < P) by (apply (Z.pow_lt_mono_r_iff 10); [lia | lia |]; nia).
  exists mant', (P - j). split; [done |]. assert (E1 : 10 ^ P = 10 ^ (P - j) * 10 ^ j) by (rewrite <- Z.pow_add_r by lia; f_equal; lia). assert (E2 : 10 ^ (P - 1) = 10 ^ (P - j - 1) * 10 ^ j) by (rewrite <- Z.pow_add_r by lia; f_equal; lia).
  split; [split; [lia |]; split; [nia | lia] |]. split; [lia |]. rewrite EM, pow_shift by done. do 2 f_equal; lia.
Qed.

Lemma pow_ui_10 P : 1 <= P <= 17 -> pow_ui 10 P = 10 ^ P.
Proof.
  intros HP. assert (H : forallb (fun P => pow_ui 10 P =? 10 ^ P) (map Z.of_nat (seq 1 17)) = true) by (vm_compute; reflexivity). rewrite forallb_forall in H. apply Z.eqb_eq, H, in_map_iff. exists (Z.to_nat P). split; [lia | apply in_seq; lia].
Qed.

Lemma find_mant_spec m e P :
  normalized m e -> 1 <= P <= 17 -> let E := sig_exponent JS_RNDN m e P in
  find_mant 3 m e 10 5 1 P (decimal_exponent e) (pow_ui 10 P) = Done (sig_value JS_RNDN m e P E, E) /\ decimal (sig_value JS_RNDN m e P E) P E.
Proof.
  intros Hme HP. cbv zeta. rewrite pow_ui_10 by done. pose proof (sig_digits JS_RNDN m e P Hme ltac:(lia) ltac:(done)) as Hs. pose proof (E_range m e Hme) as HE.
  assert (Hdec : decimal (sig_value JS_RNDN m e P (sig_exponent JS_RNDN m e P)) P (sig_exponent JS_RNDN m e P)) by (split; [lia |]; split; [done |]; unfold sig_exponent; destruct (_ <? _); lia). split; [| done]. pose proof (decimal_17 _ _ _ Hdec ltac:(lia)) as Hd57.
  unfold sig_exponent in *. set (E := decimal_exponent e) in *. pose proof (sig_0 m e E 1200 400 Hme eq_refl ltac:(lia) ltac:(destruct Hme; lia) ltac:(lia) ltac:(lia) JS_RNDN P ltac:(lia)) as H0. cbv zeta in H0. assert (10 ^ P <= 10 ^ 17) by (apply Z.pow_le_mono_r; lia). assert (2 * 10 ^ 17 < 2 ^ 64) by done.
  cbn [find_mant]. destruct (sig_run JS_RNDN m e P E Hme ltac:(lia) ltac:(fold E; lia)) as (u & -> & Hu & Vu). cbn [run_bind]. rewrite get_u64_spec by (assumption || lia). rewrite Vu. destruct (Z.ltb_spec (sig_value JS_RNDN m e P E) (10 ^ P)); [done |].
  destruct (sig_run JS_RNDN m e P (E + 1) Hme ltac:(lia) ltac:(fold E; lia)) as (w & -> & Hw & Vw). cbn [run_bind]. rewrite get_u64_spec by (assumption || lia). rewrite Vw. destruct (Z.ltb_spec (sig_value JS_RNDN m e P (E + 1)) (10 ^ P)); [done | lia].
Qed.


(** Digits that give the number back. *)
Definition gives_back (m e : Z) (r : Z * Z * Z) : Prop := let '(mant, P, E) := r in decimal mant P E /\ P <= 17 /\ nearest_pair (pow_num mant 10 (E - P)) (pow_den 10 (E - P)) = (m, e).

Lemma free_loop_spec fuel m e P found :
  representable m e -> 1 <= P <= 17 -> (Z.to_nat P <= fuel)%nat -> match found with Some r => gives_back m e r | None => P = 17 end ->
  exists r, free_loop fuel m e 10 5 1 (decimal_exponent e) P found = Done r /\ gives_back m e r.
Proof.
  intros Hrep. revert P found. induction fuel as [| fuel IH]; intros P found HP Hf Hfound; [lia |]. cbn [free_loop]. destruct (find_mant_spec m e P (proj1 Hrep) HP) as [-> Hdec]. cbn [run_bind].
  destruct (strip_decimal _ _ _ Hdec) as (mant & P' & -> & Hdec' & HP' & Esame). cbn [run_bind]. set (E := sig_exponent JS_RNDN m e P) in *.
  set (next := if P' =? 1 then Done (mant, P', E) else free_loop fuel m e 10 5 1 (decimal_exponent e) (P' - 1) (Some (mant, P', E))).
  assert (Hnext : gives_back m e (mant, P', E) -> exists r, next = Done r /\ gives_back m e r).
  { intros Hg. unfold next. destruct (Z.eqb_spec P' 1); [by exists (mant, P', E) |]. destruct Hdec' as (? & _). apply IH; [lia | lia | done]. }
  destruct found as [best |].
  - pose proof (decimal_17 _ _ _ Hdec' ltac:(lia)). destruct (set_u64_spec DBIGNUM_LEN_MAX mant ltac:(done) ltac:(lia)) as (t & -> & Ht & Vt). cbn [run_bind]. rewrite decimal_to_d, Vt by (try rewrite Vt; done). cbn [run_bind]. destruct (nearest_pair (pow_num mant 10 (E - P')) (pow_den 10 (E - P'))) as [m1 e1] eqn:En. destruct ((m1 =? m) && (e1 =? e)) eqn:Eq; [| by exists best]. apply andb_prop in Eq as [Em Ee]. apply Z.eqb_eq in Em, Ee. apply Hnext. split; [done |]. split; [lia |]. by rewrite En, Em, Ee.
  - apply Hnext. split; [done |]. split; [lia |]. rewrite Esame. unfold E. rewrite Hfound. by apply seventeen.
Qed.

Lemma free_spec m e n_digits flags :
  representable m e -> Z.land flags JS_DTOA_FORMAT_MASK = JS_DTOA_FORMAT_FREE ->
  ((1 <=? e) && (e <=? 53) && (Z.land m (Z.shiftl 1 (53 - e) - 1) =? 0) && negb (Z.land flags JS_DTOA_EXP_MASK =? JS_DTOA_EXP_ENABLED)) = false ->
  exists mant P E j, gives_back m e (mant, P, E) /\ canonical 10 j (Z.abs (E - 1)) /\
    dtoa_finite m e 10 n_digits flags = Done (let ds := text 10 (Z.to_nat P) mant in if with_exponent flags n_digits E then sci_text ds E j else plain_text ds E).
Proof.
  intros Hrep Hfmt Hint. destruct radix10 as (R1 & R2 & R3). unfold dtoa_finite. rewrite Hfmt, R1, R2. rewrite !Z.eqb_refl. cbn [andb]. rewrite Hint. fold (decimal_exponent e). change (nthZ 0 dtoa_max_digits_table (10 - 2)) with 17.
  destruct (free_loop_spec 60 m e 17 None Hrep ltac:(lia) ltac:(lia) eq_refl) as ([[mant P] E] & -> & Hg). cbn [run_bind]. pose proof Hg as (Hdec & Hp17 & _). pose proof (decimal_17 _ _ _ Hdec Hp17) as Hm. destruct (set_u64_spec DBIGNUM_LEN_MAX mant ltac:(done) ltac:(lia)) as (t & -> & Ht & Vt). cbn [run_bind]. destruct Hdec as (HP & _ & HE).
  destruct (dtoa_output_spec t n_digits flags P E Ht) as (j & Hj & Ho); [apply normal_len; [apply Ht | apply Ht | done |]; rewrite Vt; apply Z.lt_le_trans with (2 ^ 57); [lia | apply Z.pow_le_mono_r; done] | lia | lia |].
  exists mant, P, E, j. split; [done |]. split; [done |]. cbv zeta in *. by rewrite Ho, Vt.
Qed.
