(* ===== verification/DtoaParse.v ===== *)
(** * Numbers and text: parsing is exact

    What [js_atod] makes of a decimal numeral. *)

From stdpp Require Import base list numbers.
From Stdlib Require Import ZArith Lia.
From S2P Require Import Prelude Utf8 Utf8Proofs Dtoa DtoaText DtoaProofs DtoaRound DtoaPrint.

#[local] Open Scope Z_scope.

(** ** Reading *)

(** The characters from [p] on. *)
Definition rest (str : list Z) (p : Z) : list Z := drop (Z.to_nat p) str.

Lemma rest_cons str p x l : 0 <= p -> rest str p = x :: l -> char_at str p = Done x /\ rest str (p + 1) = l.
Proof.
  intros Hp E. unfold rest, char_at, fetch in *. assert (Hx : str !! Z.to_nat p = Some x) by (rewrite <- (Nat.add_0_r (Z.to_nat p)), <- lookup_drop, E; done). rewrite Hx. split; [done |].
  replace (Z.to_nat (p + 1)) with (S (Z.to_nat p)) by lia. rewrite <- Nat.add_1_r, <- drop_drop, E. done.
Qed.

Definition digit (x : Z) : Prop := 0 <= x < 10.

Lemma to_digit_char x : digit x -> to_digit (digit_char x) = x.
Proof. intros Hx. unfold digit, digit_char, to_digit in *. destruct (Z.ltb_spec x 10); [| lia]. destruct (Z.leb_spec 48 (x + 48)), (Z.leb_spec (x + 48) 57); cbn [andb]; lia. Qed.

Lemma digit_char_eq x : digit x -> digit_char x = x + 48.
Proof. intros Hx. unfold digit, digit_char in *. destruct (Z.ltb_spec x 10); lia. Qed.

(** The number with the digits [ds] after [N]. *)
Fixpoint append (N : Z) (ds : list Z) : Z := match ds with [] => N | x :: ds => append (N * 10 + x) ds end.

Lemma append_app N l l' : append N (l ++ l') = append (append N l) l'.
Proof. revert N. induction l as [| x l IH]; intros N; [done |]. cbn [app append]. apply IH. Qed.

Lemma append_digits N n v : 0 <= v < 10 ^ Z.of_nat n -> append N (digits 10 n v) = N * 10 ^ Z.of_nat n + v.
Proof.
  revert N v. induction n as [| n IH]; intros N v Hv; [rewrite Z.pow_0_r in *; cbn [digits append]; lia |]. rewrite pow_S in *. cbn [digits]. rewrite append_app. pose proof (Z.div_mod v 10 ltac:(lia)). assert (0 <= v / 10) by (apply Z.div_pos; lia). pose proof (Z.mod_pos_bound v 10 ltac:(lia)). rewrite IH by lia. cbn [append]. lia.
Qed.

Lemma append_zeros N n : append N (replicate n 0) = N * 10 ^ Z.of_nat n.
Proof. revert N. induction n as [| n IH]; intros N; [cbn [replicate append]; rewrite Z.pow_0_r; lia |]. cbn [replicate append]. rewrite IH, pow_S. lia. Qed.

Lemma append_bound N ds k : Forall digit ds -> 0 <= N < 10 ^ k -> 0 <= k -> 0 <= append N ds < 10 ^ (k + lenZ ds).
Proof.
  intros Hd. revert N k. induction Hd as [| x ds Hx Hds IH]; intros N k HN Hk; [cbn [append]; unfold lenZ; simpl; by rewrite Z.add_0_r |]. cbn [append]. rewrite lenZ_cons. replace (k + (1 + lenZ ds)) with (k + 1 + lenZ ds) by lia. unfold digit in Hx. apply IH; [| lia]. rewrite Z.pow_add_r by lia. lia.
Qed.

(** What has been read: the number [N] of [k] digits. *)
Definition has_read (s : atod_digits) (N k : Z) : Prop :=
  num (ad_tab s) /\ 0 <= ad_limb s < 9 /\ 0 <= ad_cur s < 10 ^ ad_limb s /\ value (ad_tab s) * 10 ^ ad_limb s + ad_cur s = N /\ ad_count s = k /\ ad_extra s = 0 /\ N < 10 ^ k /\ 0 <= k.

Lemma has_read_init : has_read (mkDigits [0] 0 0 0 0) 0 0.
Proof. split; [apply num_single; unfold limb; lia |]. cbn [ad_limb ad_cur ad_tab ad_count ad_extra]. change (value [0]) with 0. rewrite !Z.pow_0_r. lia. Qed.

Lemma mul1_base_spec t b a : num t -> 1 <= b < 2 ^ 32 -> limb a -> value t * b + a < 2 ^ 160 -> exists r, mpb_mul1_base DBIGNUM_LEN_MAX t b a = Done r /\ num r /\ value r = value t * b + a.
Proof.
  intros Ht Hb Ha Hv. unfold mpb_mul1_base. destruct ((nthZ 0 t 0 =? 0) && (lenZ t =? 1)) eqn:E0.
  - apply andb_prop in E0 as [E1 E2]. apply Z.eqb_eq in E1, E2. destruct t as [| x [| y t]]; [done | | unfold lenZ in E2; simpl in E2; lia]. change (nthZ 0 [x] 0) with x in E1. subst x. exists [a]. split; [done |]. split; [by apply num_single | cbn [value]; lia].
  - destruct (Z.eqb_spec b 0); [lia |]. pose proof (value_range t ltac:(apply Ht)) as Hr. assert (Hlen : lenZ t <= 5) by (apply normal_len; [apply Ht | apply Ht | lia | change (2 ^ (32 * 5)) with (2 ^ 160); unfold limb in Ha; nia]).
    pose proof (mp_mul1_spec t b a ltac:(apply Ht) ltac:(unfold limb; lia) Ha) as H. destruct (mp_mul1 t b a) as [r h]. destruct H as (Hr1 & Hl & Hh & Ev). destruct (limb_push_spec DBIGNUM_LEN_MAX r h Hr1 Hh) as (-> & P1 & P2); [rewrite (lenZ_same t r Hl); unfold DBIGNUM_LEN_MAX; lia |]. cbn [run_bind].
    destruct (num_renorm (r ++ [h]) P1) as (N1 & N2 & _); [by destruct r |]. exists (mpb_renorm (r ++ [h])). split; [done |]. split; [done |]. rewrite N2, P2, (top_same t r Hl). lia.
Qed.

Lemma pow10_38 k : 0 <= k <= 38 -> 10 ^ k <= 2 ^ 127.
Proof. intros Hk. transitivity (10 ^ 38); [apply Z.pow_le_mono_r; lia | vm_compute; discriminate]. Qed.

Lemma take_digit_spec s N k x : has_read s N k -> k < 38 -> digit x -> exists s', take_digit 10 s x = Done s' /\ has_read s' (N * 10 + x) (k + 1).
Proof.
  intros (Ht & Hl & Hc & HN & Hk & He & HNk & Hk0) Hk38 Hx. unfold digit in Hx. unfold take_digit. change (nthZ 0 atod_max_digits_table (10 - 2)) with 38. rewrite Hk. destruct (Z.ltb_spec k 38); [| lia]. change (nthZ 0 digits_per_limb_table (10 - 2)) with 9. change (nthZ 0 radix_base_table (10 - 2)) with 1000000000.
  set (cur := ad_cur s) in *. set (l := ad_limb s) in *. assert (Hp : 10 ^ (l + 1) = 10 * 10 ^ l) by (rewrite Z.pow_add_r by lia; lia). assert (Hp9 : 10 ^ (l + 1) <= 10 ^ 9) by (apply Z.pow_le_mono_r; lia). change (10 ^ 9) with 1000000000 in Hp9. rewrite u32_small by lia. assert (Hk1 : 10 ^ (k + 1) = 10 * 10 ^ k) by (rewrite Z.pow_add_r by lia; lia). pose proof (value_range (ad_tab s) ltac:(apply Ht)) as Hv.
  destruct (Z.eqb_spec (l + 1) 9) as [E | E].
  - assert (El : l = 8) by lia. rewrite El in *. change (10 ^ (8 + 1)) with 1000000000 in *. pose proof (pow10_38 (k + 1) ltac:(lia)). destruct (mul1_base_spec (ad_tab s) 1000000000 (cur * 10 + x) Ht) as (r & -> & Hr & Vr); [lia | unfold limb; lia | assert (2 ^ 127 < 2 ^ 160) by done; lia |]. cbn [run_bind].
    eexists. split; [reflexivity |]. split; [done |]. cbn [ad_limb ad_cur ad_tab ad_count ad_extra]. rewrite Z.pow_0_r, Vr. repeat (split; [lia |]). lia.
  - eexists. split; [reflexivity |]. split; [done |]. cbn [ad_limb ad_cur ad_tab ad_count ad_extra]. rewrite Hp. repeat (split; [lia |]). lia.
Qed.

Section reading.
Context (c : atod_in) (Hradix : ai_radix c = 10) (Hsep : ai_sep c = 95 \/ ai_sep c = 256) (Hint : int_only c = false).

Lemma at_dot_other p x l : 0 <= p -> rest (ai_str c) p = x :: l -> x <> 46 -> at_dot c p = Done false.
Proof using All. intros Hp E Hx. destruct (rest_cons _ _ _ _ Hp E) as [E1 _]. unfold at_dot. rewrite E1. cbn [run_bind]. by destruct (Z.eqb_spec x 46). Qed.

Lemma at_dot_dot p l : 0 <= p -> rest (ai_str c) p = 46 :: l -> ai_start c < p -> at_dot c p = Done true.
Proof using All. intros Hp E Hs. destruct (rest_cons _ _ _ _ Hp E) as [E1 _]. unfold at_dot. rewrite E1. cbn [run_bind]. rewrite Z.eqb_refl. destruct (Z.ltb_spec (ai_start c) p); [| lia]. by rewrite Hint. Qed.

Lemma skip_sep_other p x l b f : 0 <= p -> rest (ai_str c) p = x :: l -> x <> 95 -> x <> 256 -> skip_sep c p b f = Done p.
Proof using All. intros Hp E Hx Hx'. destruct (rest_cons _ _ _ _ Hp E) as [E1 _]. unfold skip_sep. rewrite E1. cbn [run_bind]. destruct (Z.eqb_spec x (ai_sep c)); [lia |]. done. Qed.

(** Digits. *)
Lemma read_digits_run ds : Forall digit ds -> forall fuel p pos dp s N k l,
  0 <= p -> rest (ai_str c) p = map digit_char ds ++ l -> has_read s N k -> k + lenZ ds <= 38 -> (length ds <= fuel)%nat ->
  exists s', read_digits fuel c p pos dp s = read_digits (fuel - length ds) c (p + lenZ ds) (pos + lenZ ds) dp s' /\ has_read s' (append N ds) (k + lenZ ds) /\ rest (ai_str c) (p + lenZ ds) = l.
Proof using All.
  induction 1 as [| x ds Hx Hds IH]; intros fuel p pos dp s N k l Hp E Hs Hk Hf.
  { exists s. unfold lenZ. simpl length. rewrite Nat.sub_0_r, !Z.add_0_r. done. }
  destruct fuel as [| fuel]; [simpl in Hf; lia |]. cbn [map app] in E. rewrite lenZ_cons in *. pose proof (lenZ_nonneg ds). pose proof (digit_char_eq x Hx) as Ex. unfold digit in Hx. cbn [read_digits]. rewrite (at_dot_other p _ _ Hp E) by lia. cbn [run_bind andb]. rewrite (skip_sep_other p _ _ _ _ Hp E) by lia. cbn [run_bind].
  destruct (rest_cons _ _ _ _ Hp E) as [E1 E2]. rewrite E1. cbn [run_bind]. rewrite Hradix, to_digit_char by done. destruct (Z.leb_spec 10 x); [lia |]. destruct (take_digit_spec s N k x Hs) as (s1 & -> & Hs1); [lia | done |]. cbn [run_bind].
  destruct (IH fuel (p + 1) (pos + 1) dp s1 (N * 10 + x) (k + 1) l) as (s' & E3 & Hs' & E4); [lia | done | done | lia | simpl in Hf; lia |].
  exists s'. simpl length. rewrite Nat.sub_succ. replace (p + (1 + lenZ ds)) with (p + 1 + lenZ ds) by lia. replace (pos + (1 + lenZ ds)) with (pos + 1 + lenZ ds) by lia. replace (k + (1 + lenZ ds)) with (k + 1 + lenZ ds) by lia. done.
Qed.

(** The dot. *)
Lemma read_digits_dot fuel p pos s x l :
  0 <= p -> rest (ai_str c) p = 46 :: x :: l -> ai_start c < p -> x <> 46 -> 0 <= pos -> read_digits (S fuel) c p pos (-1) s = read_digits (S fuel) c (p + 1) pos pos s.
Proof using All.
  intros Hp E Hst Hx Hpos. destruct (rest_cons _ _ _ _ Hp E) as [_ E2]. cbn [read_digits]. rewrite (at_dot_dot p _ Hp E Hst), (at_dot_other (p + 1) x l) by (done || lia). cbn [run_bind andb Z.leb Z.compare]. done.
Qed.

(** The end: not a digit, a dot or a separator. *)
Definition ends (x : Z) : Prop := x <> 46 /\ x <> 95 /\ x <> 256 /\ 10 <= to_digit x.

Lemma read_digits_end fuel p pos dp s x l : 0 <= p -> rest (ai_str c) p = x :: l -> ends x -> read_digits (S fuel) c p pos dp s = Done (p, pos, dp, s).
Proof using All.
  intros Hp E (H1 & H2 & H3 & H4). destruct (rest_cons _ _ _ _ Hp E) as [E1 _]. cbn [read_digits]. rewrite (at_dot_other p x l) by done. cbn [run_bind andb]. rewrite (skip_sep_other p x l) by done. cbn [run_bind]. rewrite E1. cbn [run_bind]. rewrite Hradix. destruct (Z.leb_spec 10 (to_digit x)); [done | lia].
Qed.

(** Leading zeros. *)
Lemma skip_zeros_run n : forall fuel p pos dp l,
  0 <= p -> rest (ai_str c) p = replicate n 48 ++ l -> (n <= fuel)%nat -> skip_zeros fuel c p pos dp = skip_zeros (fuel - n) c (p + Z.of_nat n) (pos + Z.of_nat n) dp /\ rest (ai_str c) (p + Z.of_nat n) = l.
Proof using All.
  induction n as [| n IH]; intros fuel p pos dp l Hp E Hf; [rewrite Nat.sub_0_r, !Z.add_0_r; done |]. destruct fuel as [| fuel]; [lia |]. cbn [replicate app] in E. destruct (rest_cons _ _ _ _ Hp E) as [E1 E2]. cbn [skip_zeros]. rewrite (at_dot_other p 48 _ Hp E) by lia. cbn [run_bind andb].
  rewrite (skip_sep_other p 48 _ _ _ Hp E) by lia. cbn [run_bind]. rewrite E1. cbn [run_bind negb Z.eqb Pos.eqb]. destruct (IH fuel (p + 1) (pos + 1) dp l) as [-> E3]; [lia | done | lia |]. rewrite Nat.sub_succ. replace (p + Z.of_nat (S n)) with (p + 1 + Z.of_nat n) by lia. replace (pos + Z.of_nat (S n)) with (pos + 1 + Z.of_nat n) by lia. done.
Qed.

Lemma skip_zeros_dot fuel p pos x l :
  0 <= p -> rest (ai_str c) p = 46 :: x :: l -> ai_start c < p -> x <> 46 -> 0 <= pos -> skip_zeros (S fuel) c p pos (-1) = skip_zeros (S fuel) c (p + 1) pos pos.
Proof using All.
  intros Hp E Hst Hx Hpos. destruct (rest_cons _ _ _ _ Hp E) as [_ E2]. cbn [skip_zeros]. rewrite (at_dot_dot p _ Hp E Hst), (at_dot_other (p + 1) x l) by (done || lia). cbn [run_bind andb Z.leb Z.compare]. done.
Qed.

Lemma skip_zeros_end fuel p pos dp x l : 0 <= p -> rest (ai_str c) p = x :: l -> x <> 46 -> x <> 95 -> x <> 256 -> x <> 48 -> skip_zeros (S fuel) c p pos dp = Done (p, pos, dp).
Proof using All.
  intros Hp E H1 H2 H3 H4. destruct (rest_cons _ _ _ _ Hp E) as [E1 _]. cbn [skip_zeros]. rewrite (at_dot_other p x l) by done. cbn [run_bind andb]. rewrite (skip_sep_other p x l) by done. cbn [run_bind]. rewrite E1. cbn [run_bind]. by destruct (Z.eqb_spec x 48).
Qed.

(** The digits of the exponent. *)
Lemma read_expn_run ds : Forall digit ds -> forall fuel p expn x l k,
  0 <= p -> rest (ai_str c) p = map digit_char ds ++ x :: l -> ends x -> (length ds < fuel)%nat -> 0 <= expn < 10 ^ k -> 0 <= k -> k + lenZ ds <= 8 ->
  read_expn fuel c p expn false = Done (p + lenZ ds, append expn ds, false).
Proof using All.
  induction 1 as [| y ds Hy Hds IH]; intros fuel p expn x l k Hp E Hx Hf He Hk0 Hk; (destruct fuel as [| fuel]; [simpl in Hf; lia |]); cbn [map app] in E; cbn [read_expn].
  { destruct Hx as (H1 & H2 & H3 & H4). destruct (rest_cons _ _ _ _ Hp E) as [E1 _]. rewrite (skip_sep_other p x l) by done. cbn [run_bind]. rewrite E1. cbn [run_bind]. destruct (Z.leb_spec 10 (to_digit x)); [| lia]. unfold lenZ. simpl. by rewrite Z.add_0_r. }
  pose proof (digit_char_eq y Hy) as Ey. unfold digit in Hy. destruct (rest_cons _ _ _ _ Hp E) as [E1 E2]. rewrite (skip_sep_other p _ _ _ _ Hp E) by lia. cbn [run_bind]. rewrite E1. cbn [run_bind]. rewrite to_digit_char by done. destruct (Z.leb_spec 10 y); [lia |]. rewrite lenZ_cons in *. pose proof (lenZ_nonneg ds).
  assert (10 ^ k <= 10 ^ 7) by (apply Z.pow_le_mono_r; lia). change (10 ^ 7) with 10000000 in *. change ((2147483647 - 2 - 9) / 10) with 214748363. destruct (Z.ltb_spec 214748363 expn); [lia |]. assert (10 ^ (k + 1) = 10 ^ k * 10) by (by rewrite Z.pow_add_r by lia).
  rewrite (IH fuel (p + 1) (expn * 10 + y) x l (k + 1)); [cbn [append]; do 3 f_equal; lia | lia | done | done | simpl in Hf; lia | lia | lia | lia].
Qed.
End reading.

(** A significant digit first. *)
Definition significant (ds : list Z) : Prop := Forall digit ds /\ match ds with [] => False | x :: _ => x <> 0 end.

Lemma significant_char ds l : significant ds -> exists x r, map digit_char ds ++ l = x :: r /\ x <> 46 /\ x <> 95 /\ x <> 256 /\ x <> 48.
Proof.
  intros [Hd Hs]. destruct ds as [| x ds]; [done |]. pose proof (Forall_inv Hd) as Hx. exists (digit_char x), (map digit_char ds ++ l). cbn [map app]. rewrite digit_char_eq by done. unfold digit in Hx. split; [done | lia].
Qed.

(** The fraction: a dot and digits, or nothing. *)
Definition frac_text (ds : list Z) : list Z := match ds with [] => [] | _ => 46 :: map digit_char ds end.

Lemma digit_not_special x : digit x -> digit_char x <> 46.
Proof. intros Hx. rewrite digit_char_eq by done. unfold digit in Hx. lia. Qed.

Section mantissa.
Context (c : atod_in) (Hradix : ai_radix c = 10) (Hsep : ai_sep c = 95 \/ ai_sep c = 256) (Hint : int_only c = false).

(** What the two loops give: where the digits end, the number [N] of [k]
    digits, of which [off] are behind the dot. *)
Definition reads (fuel : nat) (p p' N k off : Z) : Prop :=
  exists p1 sig pos dp dp' s, skip_zeros fuel c p 0 (-1) = Done (p1, sig, dp) /\ read_digits fuel c p1 sig dp (mkDigits [0] 0 0 0 0) = Done (p', pos, dp', s) /\ has_read s N k /\ sig + k - (if dp' <? 0 then pos else dp') = off.

(** [ddd] or [ddd.ddd] after zeros. *)
Lemma reads_int fuel a p ds fs x l :
  0 <= p -> ai_start c <= p -> rest (ai_str c) p = replicate a 48 ++ map digit_char ds ++ frac_text fs ++ x :: l -> significant ds -> Forall digit fs -> ends x ->
  (a + length ds + length fs < fuel)%nat -> lenZ ds + lenZ fs <= 38 ->
  let p' := p + Z.of_nat a + lenZ ds + lenZ (frac_text fs) in reads fuel p p' (append 0 (ds ++ fs)) (lenZ ds + lenZ fs) (lenZ fs) /\ rest (ai_str c) p' = x :: l.
Proof using All.
  intros Hp Hst E Hds Hfs Hx Hf H38. cbv zeta. destruct (skip_zeros_run c Hradix Hsep Hint a fuel p 0 (-1) _ Hp E ltac:(lia)) as [E1 E2]. set (p1 := p + Z.of_nat a) in *. destruct (fuel - a)%nat as [| f1] eqn:Ef; [lia |].
  destruct (significant_char ds (frac_text fs ++ x :: l) Hds) as (y & r & Ey & Y1 & Y2 & Y3 & Y4). pose proof (lenZ_nonneg ds). pose proof (lenZ_nonneg fs). assert (Hlen : 1 <= lenZ ds) by (destruct Hds as [_ Hs]; destruct ds; [done |]; unfold lenZ; simpl; lia).
  assert (E3 : skip_zeros fuel c p 0 (-1) = Done (p1, Z.of_nat a, -1)) by (rewrite E1; rewrite Ey in E2; by apply (skip_zeros_end c Hradix Hsep Hint f1 p1 _ _ y r); [lia | ..]).
  destruct (read_digits_run c Hradix Hsep Hint ds (proj1 Hds) fuel p1 (Z.of_nat a) (-1) _ 0 0 _ ltac:(lia) E2 has_read_init) as (s1 & E4 & Hs1 & E5); [lia | lia |]. set (p2 := p1 + lenZ ds) in *. destruct (fuel - length ds)%nat as [| f2] eqn:Ef2; [lia |].
  destruct fs as [| y2 fs].
  - cbn [frac_text app] in *. rewrite app_nil_r. change (lenZ (@nil Z)) with 0 in *. rewrite !Z.add_0_r in *. split; [| done]. exists p1, (Z.of_nat a), (Z.of_nat a + lenZ ds), (-1), (-1), s1. split; [done |]. split; [rewrite E4; by apply (read_digits_end c Hradix Hsep Hint f2 p2 _ _ _ x l); [lia | ..] |]. split; [done |]. cbn [Z.ltb Z.compare]. lia.
  - pose proof (Forall_inv Hfs) as Hy2. cbn [frac_text app map] in E5. change (lenZ (frac_text (y2 :: fs))) with (lenZ (46 :: map digit_char (y2 :: fs))). rewrite lenZ_cons. assert (Elen : lenZ (map digit_char (y2 :: fs)) = lenZ (y2 :: fs)) by (unfold lenZ; by rewrite length_map). rewrite Elen.
    pose proof (read_digits_dot c Hradix Hsep Hint f2 p2 (Z.of_nat a + lenZ ds) s1 _ _ ltac:(lia) E5 ltac:(lia) (digit_not_special y2 Hy2) ltac:(lia)) as E6. destruct (rest_cons (ai_str c) p2 46 _ ltac:(lia) E5) as [_ E7].
    destruct (read_digits_run c Hradix Hsep Hint (y2 :: fs) Hfs (S f2) (p2 + 1) (Z.of_nat a + lenZ ds) (Z.of_nat a + lenZ ds) s1 (append 0 ds) (0 + lenZ ds) (x :: l) ltac:(lia)) as (s2 & E8 & Hs2 & E9); [by rewrite E7 | done | lia | lia |].
    destruct (S f2 - length (y2 :: fs))%nat as [| f3] eqn:Ef3; [lia |]. replace (p2 + (1 + lenZ (y2 :: fs))) with (p2 + 1 + lenZ (y2 :: fs)) by lia. split; [| done].
    exists p1, (Z.of_nat a), (Z.of_nat a + lenZ ds + lenZ (y2 :: fs)), (-1), (Z.of_nat a + lenZ ds), s2. split; [done |]. split; [rewrite E4, E6, E8; by apply (read_digits_end c Hradix Hsep Hint f3 (p2 + 1 + lenZ (y2 :: fs)) _ _ _ x l); [lia | ..] |]. rewrite append_app. split; [done |]. destruct (Z.ltb_spec (Z.of_nat a + lenZ ds) 0); lia.
Qed.

(** [0.000ddd] *)
Lemma reads_frac fuel a b p ds x l :
  0 <= p -> ai_start c <= p -> rest (ai_str c) p = replicate a 48 ++ 46 :: replicate b 48 ++ map digit_char ds ++ x :: l -> (1 <= a)%nat -> significant ds -> ends x -> (a + b + length ds < fuel)%nat -> lenZ ds <= 38 ->
  let p' := p + Z.of_nat a + 1 + Z.of_nat b + lenZ ds in reads fuel p p' (append 0 ds) (lenZ ds) (Z.of_nat b + lenZ ds) /\ rest (ai_str c) p' = x :: l.
Proof using All.
  intros Hp Hst E Ha Hds Hx Hf H38. cbv zeta. destruct (skip_zeros_run c Hradix Hsep Hint a fuel p 0 (-1) _ Hp E ltac:(lia)) as [E1 E2]. set (p1 := p + Z.of_nat a) in *. destruct (fuel - a)%nat as [| f1] eqn:Ef; [lia |]. destruct (rest_cons (ai_str c) p1 46 _ ltac:(lia) E2) as [_ E3].
  destruct (significant_char ds (x :: l) Hds) as (y & r & Ey & Y1 & Y2 & Y3 & Y4). assert (E4 : skip_zeros (S f1) c p1 (0 + Z.of_nat a) (-1) = skip_zeros (S f1) c (p1 + 1) (0 + Z.of_nat a) (0 + Z.of_nat a)).
  { rewrite Ey in E2. destruct b as [| b]; cbn [replicate app] in E2; eapply (skip_zeros_dot c Hradix Hsep Hint f1 p1); try apply E2; done || lia. }
  destruct (skip_zeros_run c Hradix Hsep Hint b (S f1) (p1 + 1) (0 + Z.of_nat a) (0 + Z.of_nat a) _ ltac:(lia) E3 ltac:(lia)) as [E5 E6]. set (p2 := p1 + 1 + Z.of_nat b) in *. destruct (S f1 - b)%nat as [| f2] eqn:Ef2; [lia |].
  assert (E7 : skip_zeros fuel c p 0 (-1) = Done (p2, 0 + Z.of_nat a + Z.of_nat b, 0 + Z.of_nat a)) by (rewrite E1, E4, E5; rewrite Ey in E6; by apply (skip_zeros_end c Hradix Hsep Hint f2 p2 _ _ y r); [lia | ..]).
  destruct (read_digits_run c Hradix Hsep Hint ds (proj1 Hds) fuel p2 (0 + Z.of_nat a + Z.of_nat b) (0 + Z.of_nat a) _ 0 0 _ ltac:(lia) E6 has_read_init) as (s1 & E8 & Hs1 & E9); [lia | lia |]. pose proof (lenZ_nonneg ds). destruct (fuel - length ds)%nat as [| f3] eqn:Ef3; [lia |]. split; [| done].
  exists p2, (0 + Z.of_nat a + Z.of_nat b), (0 + Z.of_nat a + Z.of_nat b + lenZ ds), (0 + Z.of_nat a), (0 + Z.of_nat a), s1. split; [done |]. split; [rewrite E8; by apply (read_digits_end c Hradix Hsep Hint f3 (p2 + lenZ ds) _ _ _ x l); [lia | ..] |]. split; [done |]. destruct (Z.ltb_spec (0 + Z.of_nat a) 0); lia.
Qed.
End mantissa.

(** ** Decimal numerals *)

Lemma round_at_bounds mode n d q :
  0 < n -> 0 < d -> let e := exponent n d in let M := round_at mode n d q in 0 <= M /\ (e < q -> M = 0) /\ (q <= e -> M <= 2 ^ (e - q)) /\ (q < e -> 2 ^ (e - q - 1) <= M).
Proof.
  intros Hn Hd. cbv zeta. destruct (exponent_spec n d Hn Hd) as [E1 E2]. set (e := exponent n d) in *. set (c := Z.max 0 (Z.max (1 - e) (- q))). rewrite (le_pow2_shift _ _ _ c) in E1 by lia. rewrite (le_pow2_shift _ _ _ c) in E2 by lia. apply Z.leb_le in E1. apply Z.leb_gt in E2. rewrite (round_at_shift mode n d q c) by (done || lia). assert (Hq : 0 < 2 ^ (q + c)) by lia. assert (Hdq : 0 < d * 2 ^ (q + c)) by nia.
  split; [apply round_ge; nia |]. split; [| split]; intros Hle.
  - apply round_zero; [nia |]. assert (2 * 2 ^ (e + c) <= 2 ^ (q + c)) by (rewrite <- Z.pow_succ_r by lia; apply Z.pow_le_mono_r; lia). nia.
  - apply round_le; [done |]. replace (2 ^ (e - q) * (d * 2 ^ (q + c))) with (d * (2 ^ (e - q) * 2 ^ (q + c))) by ring. rewrite <- Z.pow_add_r by lia. replace (e - q + (q + c)) with (e + c) by lia. lia.
  - apply round_ge; [done |]. replace (2 ^ (e - q - 1) * (d * 2 ^ (q + c))) with (d * (2 ^ (e - q - 1) * 2 ^ (q + c))) by ring. rewrite <- Z.pow_add_r by lia. by replace (e - q - 1 + (q + c)) with (e - 1 + c) by lia.
Qed.

Lemma nearest64_pair n d : 0 < n -> 0 < d -> pack_pair (nearest_pair n d) = nearest64 n d.
Proof.
  intros Hn Hd. unfold nearest_pair, nearest64. destruct (Z.eqb_spec n 0); [lia |]. destruct (round_at_bounds JS_RNDN n d (unit_exponent n d) Hn Hd) as (B0 & B1 & B2 & B3). unfold unit_exponent in *. by apply pack_norm64.
Qed.

Lemma nearest64_tiny n d : 0 < n -> 0 < d -> exponent n d <= -1075 -> nearest64 n d = 0.
Proof.
  intros Hn Hd He. unfold nearest64. destruct (Z.eqb_spec n 0); [done |]. assert (Eq : unit_exponent n d = -1074) by (unfold unit_exponent; lia). rewrite Eq. destruct (round_at_bounds JS_RNDN n d (-1074) Hn Hd) as (_ & B1 & _). rewrite B1 by lia. done.
Qed.

Lemma nearest64_huge n d : 0 < n -> 0 < d -> 1025 <= exponent n d -> nearest64 n d = Z.shiftl 2047 52.
Proof.
  intros Hn Hd He. unfold nearest64. destruct (Z.eqb_spec n 0); [lia |]. assert (Eq : unit_exponent n d = exponent n d - 53) by (unfold unit_exponent; lia). rewrite Eq. destruct (round_at_bounds JS_RNDN n d (exponent n d - 53) Hn Hd) as (_ & _ & _ & B3). specialize (B3 ltac:(lia)). replace (exponent n d - (exponent n d - 53) - 1) with 52 in B3 by lia. rewrite Z.min_l; [done | lia].
Qed.

Lemma pow10_pos k : 0 <= k -> 0 < 10 ^ k.
Proof. intros Hk. apply Z.pow_pos_nonneg; lia. Qed.

Lemma pow_parts_pos N f : 0 < N -> 0 < pow_num N 10 f /\ 0 < pow_den 10 f.
Proof. intros HN. unfold pow_num, pow_den. split; [apply Z.mul_pos_pos; [done |] |]; apply pow10_pos; lia. Qed.

Lemma le_exponent n d k : 0 < n -> 0 < d -> le_pow2 k n d = false -> exponent n d <= k.
Proof. intros Hn Hd H. destruct (exponent_spec n d Hn Hd) as [E1 _]. destruct (Z.le_gt_cases (exponent n d) k) as [| L]; [done |]. rewrite (le_pow2_mono (exponent n d - 1) k) in H by (done || lia). done. Qed.

Lemma decimal_huge N k f : 1 <= k -> 10 ^ (k - 1) <= N -> 310 <= k + f -> 1025 <= exponent (pow_num N 10 f) (pow_den 10 f).
Proof.
  intros Hk HN Hf. pose proof (pow10_pos (k - 1) ltac:(lia)). destruct (pow_parts_pos N f ltac:(lia)) as [Pn Pd]. enough (1024 < exponent (pow_num N 10 f) (pow_den 10 f)) by lia. apply exponent_gt; [done | done |]. unfold le_pow2, pow_num, pow_den. apply Z.leb_le. change (Z.max 1024 0) with 1024. change (Z.max (-1024) 0) with 0. rewrite Z.pow_0_r, Z.mul_1_r.
  assert (H309 : 2 ^ 1024 <= 10 ^ 309) by (vm_compute; discriminate). pose proof (pow10_pos (Z.max (- f) 0) ltac:(lia)). transitivity (10 ^ (k - 1) * 10 ^ Z.max f 0); [| apply Z.mul_le_mono_nonneg_r; [apply Z.lt_le_incl, pow10_pos; lia | done]].
  rewrite <- Z.pow_add_r by lia. replace (k - 1 + Z.max f 0) with (Z.max (- f) 0 + (k - 1 + f)) by lia. rewrite Z.pow_add_r by lia. apply Z.mul_le_mono_nonneg_l; [lia |]. transitivity (10 ^ 309); [done |]. apply Z.pow_le_mono_r; lia.
Qed.

Lemma decimal_tiny N k f : 1 <= k -> 0 < N < 10 ^ k -> k + f <= -324 -> exponent (pow_num N 10 f) (pow_den 10 f) <= -1075.
Proof.
  intros Hk HN Hf. destruct (pow_parts_pos N f ltac:(lia)) as [Pn Pd]. apply le_exponent; [done | done |]. unfold le_pow2, pow_num, pow_den. apply Z.leb_gt. change (Z.max (-1075) 0) with 0. change (Z.max (- -1075) 0) with 1075. rewrite Z.max_r, Z.max_l, Z.pow_0_r, !Z.mul_1_r by lia.
  assert (H324 : 2 ^ 1075 <= 10 ^ 324) by (vm_compute; discriminate). apply Z.lt_le_trans with (10 ^ k * 10 ^ 324); [apply Z.lt_le_trans with (10 ^ k * 2 ^ 1075); [apply Z.mul_lt_mono_pos_r; lia | apply Z.mul_le_mono_nonneg_l; lia] |]. rewrite <- Z.pow_add_r by lia. apply Z.pow_le_mono_r; lia.
Qed.

Lemma int_small x : - 2 ^ 31 <= x < 2 ^ 31 -> int_ x = Done x.
Proof. intros Hx. unfold int_. destruct (Z.leb_spec (- 2 ^ 31) x), (Z.ltb_spec x (2 ^ 31)); try lia. done. Qed.

Lemma atod_value_spec t k off expn b :
  num t -> 1 <= k <= 38 -> 10 ^ (k - 1) <= value t < 10 ^ k -> Z.abs expn <= 10 ^ 8 -> Z.abs off <= 10 ^ 8 ->
  atod_value 10 0 t k off expn b = Done (nearest64 (pow_num (value t) 10 (expn - off)) (pow_den 10 (expn - off))).
Proof.
  intros Ht Hk Hv Hexp Hoff. change (10 ^ 8) with 100000000 in *. unfold atod_value. cbn [negb Z.eqb]. rewrite int_small by lia. cbn [run_bind]. rewrite int_small by lia. cbn [run_bind]. change (nthZ 0 max_exponent (10 - 2) + 1) with 310. change (nthZ 0 min_exponent (10 - 2)) with (-324). change (ctz32 10) with 1. change (Z.shiftr 10 1) with 5. set (f := expn - off).
  pose proof (pow10_pos (k - 1) ltac:(lia)). destruct (pow_parts_pos (value t) f ltac:(lia)) as [Pn Pd]. destruct (Z.leb_spec 310 (f + k)) as [L | L]; [rewrite nearest64_huge; [done | done | done | apply (decimal_huge _ k); lia] |]. destruct (Z.leb_spec (f + k) (-324)) as [G | G]; [rewrite nearest64_tiny; [done | done | done | apply (decimal_tiny _ k); lia] |].
  pose proof (decimal_to_d t k (f + k) Ht) as Hd. replace (f + k - k) with f in Hd by lia. rewrite Hd by (split; [lia |]; split; [done | lia]). cbn [run_bind]. rewrite <- nearest64_pair by done. by destruct (nearest_pair _ _).
Qed.

(** [e+ddd] or [e-ddd], or nothing. *)
Definition exp_text (ex : option (bool * list Z)) : list Z := match ex with None => [] | Some (neg, es) => 101 :: (if neg : bool then 45 else 43) :: map digit_char es end.
Definition exp_value (ex : option (bool * list Z)) : Z := match ex with None => 0 | Some (neg, es) => if neg : bool then - append 0 es else append 0 es end.
Definition exp_ok (ex : option (bool * list Z)) : Prop := match ex with None => True | Some (_, es) => Forall digit es /\ 1 <= lenZ es <= 8 end.

Lemma exp_value_range ex : exp_ok ex -> Z.abs (exp_value ex) <= 10 ^ 8.
Proof.
  destruct ex as [[neg es] |]; [| done]. intros [Hd Hl]. pose proof (append_bound 0 es 0 Hd ltac:(lia) ltac:(lia)) as B. assert (10 ^ (0 + lenZ es) <= 10 ^ 8) by (apply Z.pow_le_mono_r; lia). cbn [exp_value]. destruct neg; lia.
Qed.

Lemma ends_0 : ends 0.
Proof. unfold ends. vm_compute. repeat split; discriminate. Qed.

Lemma lenZ_pos_digit (es : list Z) : 1 <= lenZ es -> exists y es', es = y :: es'.
Proof. destruct es as [| y es']; [unfold lenZ; simpl; lia |]. by exists y, es'. Qed.

Section finish.
Context (c : atod_in) (Hradix : ai_radix c = 10) (Hsep : ai_sep c = 95 \/ ai_sep c = 256) (Hint : int_only c = false).

Lemma last_limb s N k : has_read s N k -> 1 <= k <= 38 -> exists t,
  (if negb (ad_limb s =? 0) then mpb_mul1_base DBIGNUM_LEN_MAX (ad_tab s) (u32 (pow_ui 10 (ad_limb s))) (ad_cur s) else Done (ad_tab s)) = Done t /\ num t /\ value t = N.
Proof using All.
  intros (Ht & Hl & Hc & HN & Hk & He & HNk & Hk0) Hk1. destruct (Z.eqb_spec (ad_limb s) 0) as [E | E]; cbn [negb]; [exists (ad_tab s); rewrite E, Z.pow_0_r in *; split; [done |]; split; [done | lia] |].
  assert (Hp : 10 ^ ad_limb s <= 10 ^ 8) by (apply Z.pow_le_mono_r; lia). change (10 ^ 8) with 100000000 in Hp. pose proof (pow10_pos (ad_limb s) ltac:(lia)). pose proof (pow10_38 k ltac:(lia)). assert (2 ^ 127 < 2 ^ 160) by done. rewrite pow_ui_10, u32_small by lia. destruct (mul1_base_spec (ad_tab s) (10 ^ ad_limb s) (ad_cur s) Ht) as (r & Er & Hr & Vr); [lia | unfold limb; lia | lia |]. exists r. by rewrite Vr.
Qed.

Lemma atod_finish_spec p pos sig dp s N k ex l :
  has_read s N k -> 1 <= k <= 38 -> 10 ^ (k - 1) <= N -> 0 <= p -> ai_start c < p -> rest (ai_str c) p = exp_text ex ++ 0 :: l -> exp_ok ex -> let off := sig + k - (if dp <? 0 then pos else dp) in Z.abs off <= 10 ^ 8 ->
  atod_finish c p pos sig dp s = Done (Some (nearest64 (pow_num N 10 (exp_value ex - off)) (pow_den 10 (exp_value ex - off))), p + lenZ (exp_text ex)).
Proof using All.
  intros Hs Hk HN Hp Hst E Hex. cbv zeta. intros Hoff. unfold atod_finish. rewrite Hradix. change (ctz32 10) with 1. change (Z.shiftr 10 1) with 5. cbn [Z.eqb Pos.eqb negb andb]. destruct (last_limb s N k Hs Hk) as (t & -> & Ht & Vt). cbn [run_bind]. destruct Hs as (_ & _ & _ & _ & Ek & _ & HNk & _). rewrite Ek. destruct (Z.eqb_spec k 0); [lia |]. cbn [negb andb].
  assert (Hval : forall e b, Z.abs e <= 10 ^ 8 -> atod_value 10 0 t k (sig + k - (if dp <? 0 then pos else dp)) e b = Done (nearest64 (pow_num N 10 (e - (sig + k - (if dp <? 0 then pos else dp)))) (pow_den 10 (e - (sig + k - (if dp <? 0 then pos else dp)))))) by (intros e b He; rewrite <- Vt; apply atod_value_spec; rewrite ?Vt; done || lia).
  set (off := sig + k - (if dp <? 0 then pos else dp)) in *. pose proof (exp_value_range ex Hex) as Hev. rewrite Hint. destruct ex as [[neg es] |]; cbn [exp_text app] in E.
  - destruct Hex as [Hes Hlen]. destruct (rest_cons _ _ _ _ Hp E) as [E1 E2]. rewrite E1. cbn [run_bind]. change (expn_mark 10 0 101) with true. destruct (Z.ltb_spec (ai_start c) p); [| lia]. cbn [andb negb]. destruct (rest_cons (ai_str c) (p + 1) _ _ ltac:(lia) E2) as [E3 E4]. rewrite E3. cbn [run_bind].
    destruct (lenZ_pos_digit es ltac:(lia)) as (y & es' & ->). pose proof (Forall_inv Hes) as Hy. pose proof (Forall_inv_tail Hes) as Hes'. assert (Hskip : (if ((if neg then 45 else 43) =? 43) || ((if neg then 45 else 43) =? 45) then p + 2 else p + 1) = p + 2) by (by destruct neg). rewrite Hskip. replace (p + 1 + 1) with (p + 2) in E4 by lia. cbn [map app] in E4. destruct (rest_cons (ai_str c) (p + 2) _ _ ltac:(lia) E4) as [E5 E6]. rewrite E5. cbn [run_bind]. rewrite to_digit_char by done. pose proof Hy as Hy'. unfold digit in Hy'. destruct (Z.leb_spec 10 y); [lia |].
    rewrite lenZ_cons in Hlen. assert (Hfuel : (length es' < S (length (ai_str c)))%nat) by (apply (f_equal length) in E6; unfold rest in E6; rewrite length_drop, length_app, length_map in E6; lia).
    rewrite (read_expn_run c Hradix Hsep Hint es' Hes' _ (p + 2 + 1) y 0 l 1) by (done || apply ends_0 || lia). cbn [run_bind andb]. destruct (Z.eqb_spec (p + 2 + 1 + lenZ es') (ai_start c)); [pose proof (lenZ_nonneg es'); lia |].
    assert (Hneg : (if (if neg then 45 else 43) =? 45 then - append y es' else append y es') = exp_value (Some (neg, y :: es'))) by (cbn [exp_value append]; rewrite Z.mul_0_l, Z.add_0_l; by destruct neg). rewrite Hneg, Hval by done. cbn [run_bind]. do 2 f_equal. cbn [exp_text map]. rewrite !lenZ_cons. unfold lenZ. rewrite length_map. lia.
  - destruct (rest_cons _ _ _ _ Hp E) as [E1 _]. rewrite E1. cbn [run_bind]. change (expn_mark 10 0 0) with false. cbn [andb negb]. destruct (Z.eqb_spec p (ai_start c)); [lia |]. rewrite (Hval 0 false) by lia. cbn [run_bind exp_text]. change (lenZ []) with 0. by rewrite Z.add_0_r.
Qed.
End finish.

(** A decimal numeral: the digits before and after the dot, and the exponent. *)
Definition numeral_text (ds fs : list Z) (ex : option (bool * list Z)) : list Z := map digit_char ds ++ frac_text fs ++ exp_text ex.
Definition numeral_num (ds fs : list Z) (ex : option (bool * list Z)) : Z := pow_num (append 0 (ds ++ fs)) 10 (exp_value ex - lenZ fs).
Definition numeral_den (fs : list Z) (ex : option (bool * list Z)) : Z := pow_den 10 (exp_value ex - lenZ fs).

(** The digits from the first that is not zero on. *)
Fixpoint drop_zeros (ds : list Z) : list Z := match ds with x :: ds' => if x =? 0 then drop_zeros ds' else ds | [] => [] end.

Lemma drop_zeros_split ds : Forall digit ds -> exists a, ds = replicate a 0 ++ drop_zeros ds /\ (drop_zeros ds = [] \/ significant (drop_zeros ds)).
Proof.
  induction 1 as [| x ds Hx Hds IH]; [exists 0%nat; split; [done | by left] |]. cbn [drop_zeros]. destruct (Z.eqb_spec x 0) as [-> | N]; [| exists 0%nat; split; [done |]; right; split; [by constructor | done]]. destruct IH as (a & E & H). exists (S a). split; [cbn [replicate app]; by rewrite <- E | done].
Qed.

Lemma drop_zeros_app a ds : drop_zeros (replicate a 0 ++ ds) = drop_zeros ds.
Proof. induction a as [| a IH]; [done | apply IH]. Qed.

Lemma drop_significant ds l : significant ds -> drop_zeros (ds ++ l) = ds ++ l.
Proof. intros [_ H]. destruct ds as [| x ds]; [done |]. cbn [app drop_zeros]. by destruct (Z.eqb_spec x 0). Qed.

Lemma append_leading a ds : append 0 (replicate a 0 ++ ds) = append 0 ds.
Proof. rewrite append_app, append_zeros. by rewrite Z.mul_0_l. Qed.

Lemma append_low N ds : 1 <= N -> Forall digit ds -> 10 ^ lenZ ds <= append N ds.
Proof.
  intros HN Hd. revert N HN. induction Hd as [| x ds Hx Hds IH]; intros N HN; [cbn [append]; change (10 ^ lenZ []) with 1; lia |]. cbn [append]. unfold digit in Hx. rewrite lenZ_cons. assert (HN10 : 1 <= N * 10 + x) by lia.
  enough (H : forall M K, Forall digit ds -> K <= M -> K * 10 ^ lenZ ds <= append M ds) by (specialize (H (N * 10 + x) 10 Hds ltac:(lia)); rewrite Z.pow_add_r by (pose proof (lenZ_nonneg ds); lia); lia).
  clear. intros M K Hd. revert M K. induction Hd as [| x ds Hx Hds IH]; intros M K HK; [cbn [append]; change (10 ^ lenZ []) with 1; lia |]. cbn [append]. unfold digit in Hx. rewrite lenZ_cons. specialize (IH (M * 10 + x) (K * 10) ltac:(lia)). rewrite Z.pow_add_r by (pose proof (lenZ_nonneg ds); lia). lia.
Qed.

Lemma significant_low ds : significant ds -> 10 ^ (lenZ ds - 1) <= append 0 ds.
Proof.
  intros [Hd Hs]. destruct ds as [| x ds]; [done |]. pose proof (Forall_inv Hd) as Hx. unfold digit in Hx. rewrite lenZ_cons. cbn [append]. replace (1 + lenZ ds - 1) with (lenZ ds) by lia. rewrite Z.mul_0_l, Z.add_0_l. apply append_low; [lia | by apply Forall_inv_tail in Hd].
Qed.

Lemma map_zeros a : map digit_char (replicate a 0) = replicate a 48.
Proof. induction a as [| a IH]; [done |]. cbn [replicate map]. by rewrite IH. Qed.

Lemma significant_app ds l : significant ds -> Forall digit l -> significant (ds ++ l).
Proof. intros [H1 H2] Hl. split; [by apply Forall_app |]. by destruct ds. Qed.

Section numeral.
Context (c : atod_in) (Hradix : ai_radix c = 10) (Hsep : ai_sep c = 95 \/ ai_sep c = 256) (Hint : int_only c = false).

Lemma exp_text_ends ex l : exists x r, exp_text ex ++ 0 :: l = x :: r /\ ends x.
Proof using All. destruct ex as [[neg es] |]; cbn [exp_text app]; [exists 101 | exists 0]; eexists; (split; [reflexivity |]); unfold ends; vm_compute; repeat split; discriminate. Qed.

(** Any numeral that is not zero. *)
Lemma reads_numeral p ds fs ex l :
  0 <= p -> ai_start c <= p -> rest (ai_str c) p = numeral_text ds fs ex ++ 0 :: l -> Forall digit ds -> Forall digit fs -> ds <> [] -> 0 < append 0 (ds ++ fs) -> lenZ (drop_zeros (ds ++ fs)) <= 38 ->
  let p' := p + lenZ ds + lenZ (frac_text fs) in let k := lenZ (drop_zeros (ds ++ fs)) in
  reads c (S (length (ai_str c))) p p' (append 0 (ds ++ fs)) k (lenZ fs) /\ rest (ai_str c) p' = exp_text ex ++ 0 :: l /\ 1 <= k /\ 10 ^ (k - 1) <= append 0 (ds ++ fs).
Proof using All.
  intros Hp Hst E Hds Hfs Hne HN H38. cbv zeta. destruct (exp_text_ends ex l) as (x & r & Ex & Hx). assert (Hfuel : (length ds + length fs < S (length (ai_str c)))%nat).
  { apply (f_equal length) in E. unfold rest, numeral_text in E. rewrite length_drop, !length_app, length_map in E. destruct fs as [| y fs]; cbn [frac_text] in E; simpl in *; rewrite ?length_map in E; lia. }
  unfold numeral_text in E. rewrite <- !app_assoc, Ex in E. rewrite Ex. destruct (drop_zeros_split ds Hds) as (a & Eds & Hz). set (ds' := drop_zeros ds) in *. destruct Hz as [Hz | Hsig].
  - rewrite Hz, app_nil_r in Eds. destruct (drop_zeros_split fs Hfs) as (b & Efs & Hz2). set (fs' := drop_zeros fs) in *. assert (Hsig : significant fs').
    { destruct Hz2 as [Hz2 | Hz2]; [| done]. rewrite Hz2, app_nil_r in Efs. rewrite Eds, Efs, append_leading, append_zeros, Z.mul_0_l in HN. lia. }
    rewrite Eds, drop_zeros_app, append_leading in *. fold fs' in H38 |- *. assert (Efs0 : append 0 fs = append 0 fs') by (rewrite Efs at 1; apply append_leading). rewrite Efs0. assert (Eft : frac_text fs = 46 :: replicate b 48 ++ map digit_char fs').
    { destruct fs as [| y fs0]; [unfold fs' in Hsig; destruct Hsig as [_ []] |]. cbn [frac_text]. rewrite Efs at 1. by rewrite map_app, map_zeros. }
    assert (Elen : lenZ fs = Z.of_nat b + lenZ fs') by (rewrite Efs at 1; rewrite lenZ_app; unfold lenZ at 1; rewrite length_replicate; lia). assert (Ha : (1 <= a)%nat) by (destruct a; [done | lia]).
    rewrite map_zeros, Eft in E. cbn [app] in E. rewrite <- app_assoc in E. rewrite length_replicate in Hfuel. assert (Hlf : length fs = (b + length fs')%nat) by (rewrite Efs at 1; by rewrite length_app, length_replicate).
    destruct (reads_frac c Hradix Hsep Hint (S (length (ai_str c))) a b p fs' x r Hp Hst E Ha Hsig Hx ltac:(lia) H38) as [R1 R2]. assert (Ep : p + lenZ (replicate a 0) + lenZ (frac_text fs) = p + Z.of_nat a + 1 + Z.of_nat b + lenZ fs') by (rewrite Eft, lenZ_cons, lenZ_app; unfold lenZ; rewrite !length_replicate, length_map; lia).
    rewrite Ep, Elen. split; [done |]. split; [done |]. split; [| by apply significant_low]. destruct Hsig as [_ Hs]. destruct fs' as [| z fs']; [done |]. rewrite lenZ_cons. pose proof (lenZ_nonneg fs'). lia.
  - assert (Edrop : drop_zeros (ds ++ fs) = ds' ++ fs) by (rewrite Eds at 1; rewrite <- app_assoc, drop_zeros_app; by apply drop_significant). assert (Eapp : append 0 (ds ++ fs) = append 0 (ds' ++ fs)) by (rewrite Eds at 1; rewrite <- app_assoc; apply append_leading). rewrite Edrop, Eapp in *. rewrite Eds in E at 1. rewrite map_app, map_zeros, <- app_assoc in E.
    assert (Hlf : length ds = (a + length ds')%nat) by (rewrite Eds at 1; by rewrite length_app, length_replicate). rewrite lenZ_app in *. destruct (reads_int c Hradix Hsep Hint (S (length (ai_str c))) a p ds' fs x r Hp Hst E Hsig Hfs Hx ltac:(lia) H38) as [R1 R2].
    assert (Ep : p + lenZ ds + lenZ (frac_text fs) = p + Z.of_nat a + lenZ ds' + lenZ (frac_text fs)) by (unfold lenZ at 1; rewrite Hlf; unfold lenZ; lia). rewrite Ep. split; [done |]. split; [done |]. pose proof (significant_app ds' fs Hsig Hfs) as Hsa. split; [| rewrite <- lenZ_app; by apply significant_low]. destruct Hsig as [_ Hs]. pose proof (lenZ_nonneg fs). destruct ds' as [| z ds'0]; [done |]. rewrite lenZ_cons. pose proof (lenZ_nonneg ds'0). lia.
Qed.
End numeral.

Lemma nearest64_range n d : 0 < n -> 0 < d -> 0 <= nearest64 n d <= 2047 * 2 ^ 52.
Proof.
  intros Hn Hd. unfold nearest64. destruct (Z.eqb_spec n 0); [lia |]. destruct (round_at_bounds JS_RNDN n d (unit_exponent n d) Hn Hd) as (B0 & _). assert (-1074 <= unit_exponent n d) by (unfold unit_exponent; lia). lia.
Qed.

Lemma atod_number_numeral str p ds fs ex l flags :
  0 <= p -> rest str p = numeral_text ds fs ex ++ 0 :: l -> Z.land flags JS_ATOD_INT_ONLY = 0 -> Forall digit ds -> Forall digit fs -> ds <> [] -> 0 < append 0 (ds ++ fs) -> lenZ (drop_zeros (ds ++ fs)) <= 38 -> lenZ fs <= 10 ^ 8 -> exp_ok ex ->
  atod_number str p 10 flags = Done (Some (nearest64 (numeral_num ds fs ex) (numeral_den fs ex)), p + lenZ (numeral_text ds fs ex)).
Proof.
  intros Hp E Hfl Hds Hfs Hne HN H38 Hlen Hex. destruct ds as [| y ds]; [done |]. pose proof (Forall_inv Hds) as Hy. pose proof (digit_char_eq y Hy) as Ey. unfold digit in Hy. assert (Hc : exists x r, rest str p = x :: r /\ x = y + 48 /\ exists x' r', r = x' :: r').
  { unfold numeral_text in E. cbn [map app] in E. eexists _, _. split; [apply E |]. split; [done |]. rewrite <- !app_assoc. destruct (map digit_char ds) as [| z zs]; [| by eexists _, _]. destruct fs as [| f fs]; [| by eexists _, _]. destruct ex as [[neg es] |]; by eexists _, _. }
  destruct Hc as (x & r & Ex & -> & x' & r' & ->). destruct (rest_cons _ _ _ _ Hp Ex) as [E1 E2]. destruct (rest_cons str (p + 1) _ _ ltac:(lia) E2) as [E3 _].
  unfold atod_number. rewrite E1. cbn [run_bind]. rewrite Hfl. set (sep := if negb (Z.land flags JS_ATOD_ACCEPT_UNDERSCORES =? 0) then 95 else 256). assert (Hsep : sep = 95 \/ sep = 256) by (unfold sep; destruct (negb _); auto).
  assert (Hinf : (if negb (y + 48 =? 48) && (0 =? 0) then starts_with str p INFINITY_TEXT else Done false) = Done false). { destruct (negb (y + 48 =? 48)); [| done]. cbn [andb Z.eqb]. unfold INFINITY_TEXT. cbn [starts_with]. rewrite E1. cbn [run_bind]. by destruct (Z.eqb_spec (y + 48) 73); [lia |]. }
  rewrite Hinf. cbn [run_bind]. assert (Hpre : atod_prefix str p 10 flags sep = Done (p, 10, sep, false)).
  { unfold atod_prefix. rewrite E1. cbn [run_bind]. destruct (y + 48 =? 48); [| done]. rewrite E3. cbn [run_bind Z.eqb Pos.eqb orb]. rewrite !andb_false_r. cbn [andb]. rewrite ?andb_false_r. done. }
  rewrite Hpre. cbn [run_bind]. rewrite E1. cbn [run_bind andb Z.eqb]. set (c := mkAtodIn str p 10 sep flags). assert (Hint : int_only c = false) by (unfold int_only; cbn [ai_flags c]; by rewrite Hfl).
  destruct (reads_numeral c eq_refl Hsep Hint p (y :: ds) fs ex l Hp ltac:(cbn; lia) E Hds Hfs Hne HN H38) as ((p1 & sig & pos & dp & dp' & s & R1 & R2 & R3 & R4) & Er & Hk1 & Hklow). cbn [ai_str c] in R1, R2. rewrite R1. cbn [run_bind]. rewrite R2. cbn [run_bind].
  set (p' := p + lenZ (y :: ds) + lenZ (frac_text fs)) in *. assert (Hpp : p < p') by (unfold p'; rewrite lenZ_cons; pose proof (lenZ_nonneg ds); pose proof (lenZ_nonneg (frac_text fs)); lia). pose proof (lenZ_nonneg fs).
  rewrite (atod_finish_spec c eq_refl Hsep Hint p' pos sig dp' s _ _ ex l R3 ltac:(lia) Hklow ltac:(lia) ltac:(cbn; lia) Er Hex) by (rewrite R4; lia). rewrite R4. unfold numeral_num, numeral_den. do 2 f_equal. unfold p', numeral_text. rewrite !lenZ_app. unfold lenZ at 4. rewrite length_map. unfold lenZ at 1. lia.
Qed.

(** The sign that is written. *)
Definition sign_of (neg : bool) : list Z := if neg then [45] else [].

Lemma js_atod_sign neg str l a p flags :
  str = sign_of neg ++ l -> (exists y r, l = (y + 48) :: r /\ digit y) -> atod_number str (lenZ (sign_of neg)) 10 flags = Done (Some a, p) -> 0 <= a < 2 ^ 63 -> js_atod str 10 flags = Done (Some (a + (if neg then 2 ^ 63 else 0)), p).
Proof.
  intros Es (y & r & -> & Hy) Ha Hr. unfold digit in Hy. unfold js_atod. destruct neg; cbn [sign_of app] in *.
  - assert (E0 : char_at str 0 = Done 45) by (by rewrite Es). rewrite E0. cbn [run_bind Z.eqb Pos.eqb orb]. change (lenZ [45]) with 1 in Ha. rewrite Ha. cbn [run_bind b2z]. do 3 f_equal. rewrite Z.shiftl_mul_pow2 by lia. apply (lor_plus a 1 63); lia.
  - assert (E0 : char_at str 0 = Done (y + 48)) by (by rewrite Es). rewrite E0. cbn [run_bind]. destruct (Z.eqb_spec (y + 48) 43), (Z.eqb_spec (y + 48) 45); try lia. cbn [orb b2z]. change (lenZ []) with 0 in Ha. rewrite Ha. cbn [run_bind]. rewrite Z.shiftl_0_l, Z.lor_0_r, Z.add_0_r. done.
Qed.

Lemma js_atod_numeral neg ds fs ex l flags :
  Z.land flags JS_ATOD_INT_ONLY = 0 -> Forall digit ds -> Forall digit fs -> ds <> [] -> 0 < append 0 (ds ++ fs) -> lenZ (drop_zeros (ds ++ fs)) <= 38 -> lenZ fs <= 10 ^ 8 -> exp_ok ex ->
  let t := sign_of neg ++ numeral_text ds fs ex in
  js_atod (t ++ 0 :: l) 10 flags = Done (Some (nearest64 (numeral_num ds fs ex) (numeral_den fs ex) + (if neg then 2 ^ 63 else 0)), lenZ t).
Proof.
  intros Hfl Hds Hfs Hne HN H38 Hlen Hex. cbv zeta. rewrite <- app_assoc. set (str := sign_of neg ++ numeral_text ds fs ex ++ 0 :: l).
  assert (Er : rest str (lenZ (sign_of neg)) = numeral_text ds fs ex ++ 0 :: l) by (unfold rest, str, lenZ; rewrite Nat2Z.id; apply drop_app_length).
  pose proof (atod_number_numeral str _ ds fs ex l flags (lenZ_nonneg _) Er Hfl Hds Hfs Hne HN H38 Hlen Hex) as Ha. destruct (pow_parts_pos (append 0 (ds ++ fs)) (exp_value ex - lenZ fs) HN) as [Pn Pd]. pose proof (nearest64_range _ _ Pn Pd) as Hr.
  rewrite lenZ_app. apply (js_atod_sign neg str (numeral_text ds fs ex ++ 0 :: l)); [done | | done | unfold numeral_num, numeral_den; lia]. destruct ds as [| y ds]; [done |]. pose proof (Forall_inv Hds) as Hy. unfold numeral_text. cbn [map app]. rewrite digit_char_eq by done. by eexists _, _.
Qed.
