(* ===== verification/DtoaTheorems.v ===== *)
(** * Numbers and text: theorems

    Printing and parsing together. *)

From stdpp Require Import base list numbers.
From Stdlib Require Import ZArith Lia.
From S2P Require Import Prelude Utf8 Utf8Proofs Dtoa DtoaText DtoaProofs DtoaRound DtoaPrint DtoaParse.

#[local] Open Scope Z_scope.

(** ** There and back *)

Lemma digits_split radix n k v : 0 < radix -> digits radix (n + k) v = digits radix n (v / radix ^ Z.of_nat k) ++ digits radix k v.
Proof.
  intros Hr. revert v. induction k as [| k IH]; intros v; [rewrite Nat.add_0_r; cbn [Z.of_nat digits]; rewrite Z.pow_0_r, Z.div_1_r; by rewrite app_nil_r |].
  rewrite Nat.add_succ_r. cbn [digits]. rewrite IH, app_assoc, Z.div_div by (try apply Z.pow_pos_nonneg; lia). do 3 f_equal. by rewrite pow_S.
Qed.

Lemma digits_digit n v : Forall digit (digits 10 n v).
Proof. revert v. induction n as [| n IH]; intros v; [by constructor |]. cbn [digits]. apply Forall_app. split; [done |]. apply Forall_singleton. unfold digit. apply Z.mod_pos_bound. lia. Qed.

Lemma append_text n v : 0 <= v < 10 ^ Z.of_nat n -> append 0 (digits 10 n v) = v.
Proof. intros Hv. rewrite append_digits by done. lia. Qed.

Lemma drop_zeros_len ds : lenZ (drop_zeros ds) <= lenZ ds.
Proof. induction ds as [| x ds IH]; [done |]. cbn [drop_zeros]. destruct (x =? 0); [| done]. rewrite lenZ_cons. lia. Qed.

Lemma lenZ_digits radix n v : lenZ (digits radix n v) = Z.of_nat n.
Proof. unfold lenZ. by rewrite digits_length. Qed.

Lemma zeros_ok a : Forall digit (replicate a 0).
Proof. apply Forall_replicate. unfold digit. lia. Qed.

(** The text of the digits of [mant]: a numeral for [mant * 10^(E-P)]. *)
Definition denotes (t : list Z) (mant f : Z) : Prop :=
  exists ds fs ex, t = numeral_text ds fs ex /\ Forall digit ds /\ Forall digit fs /\ ds <> [] /\ lenZ (drop_zeros (ds ++ fs)) <= 38 /\ lenZ fs <= 10 ^ 8 /\ exp_ok ex /\ 0 < append 0 (ds ++ fs) /\
  nearest_pair (numeral_num ds fs ex) (numeral_den fs ex) = nearest_pair (pow_num mant 10 f) (pow_den 10 f).

Lemma frac_text_digits n v : frac_text (digits 10 n v) = match n with O => [] | S _ => 46 :: text 10 n v end.
Proof. destruct n as [| n]; [done |]. unfold text, frac_text. destruct (digits 10 (S n) v) eqn:E; [| done]. apply (f_equal length) in E. rewrite digits_length in E. done. Qed.

Lemma denotes_sci mant P E j : decimal mant P E -> P <= 17 -> canonical 10 j (Z.abs (E - 1)) -> denotes (sci_text (text 10 (Z.to_nat P) mant) E j) mant (E - P).
Proof.
  intros Hdec HP Hj. pose proof (decimal_17 _ _ _ Hdec HP) as Hm. destruct Hdec as (H1 & Hmant & HE). set (n := Z.to_nat (P - 1)). assert (En : Z.to_nat P = (1 + n)%nat) by lia. destruct Hj as (J1 & J2 & J3). assert (Hj3 : (j <= 3)%nat).
  { destruct J3 as [-> | J3]; [lia |]. destruct (le_lt_dec j 3); [done |]. exfalso. assert (10 ^ 3 <= 10 ^ (Z.of_nat j - 1)) by (apply Z.pow_le_mono_r; lia). change (10 ^ 3) with 1000 in *. lia. }
  exists (digits 10 1 (mant / 10 ^ Z.of_nat n)), (digits 10 n mant), (Some (E - 1 <? 0, digits 10 j (Z.abs (E - 1)))). assert (Eapp : digits 10 1 (mant / 10 ^ Z.of_nat n) ++ digits 10 n mant = digits 10 (1 + n) mant) by (symmetry; apply digits_split; lia).
  assert (EN : append 0 (digits 10 (1 + n) mant) = mant) by (apply append_text; replace (Z.of_nat (1 + n)) with P by lia; lia).
  split; [unfold sci_text, numeral_text; rewrite En; change 1 with (Z.of_nat 1) at 1; rewrite with_dot_text, frac_text_digits, <- app_assoc by lia; done |]. split; [apply digits_digit |]. split; [apply digits_digit |]. split; [done |]. rewrite Eapp, EN. pose proof (drop_zeros_len (digits 10 (1 + n) mant)) as Hdl. rewrite !lenZ_digits in *. split; [lia |]. split; [lia |]. split; [split; [apply digits_digit | rewrite lenZ_digits; lia] |]. split; [lia |].
  assert (Ef : exp_value (Some (E - 1 <? 0, digits 10 j (Z.abs (E - 1)))) - Z.of_nat n = E - P) by (cbn [exp_value]; rewrite append_text by lia; destruct (Z.ltb_spec (E - 1) 0); lia). unfold numeral_num, numeral_den. rewrite Eapp, EN, !lenZ_digits, Ef. done.
Qed.

Lemma denotes_small mant P E : decimal mant P E -> P <= 17 -> E <= 0 -> denotes (plain_text (text 10 (Z.to_nat P) mant) E) mant (E - P).
Proof.
  intros Hdec HP HE0. pose proof (decimal_17 _ _ _ Hdec HP) as Hm. destruct Hdec as (H1 & Hmant & HE). set (b := Z.to_nat (- E)). set (ms := digits 10 (Z.to_nat P) mant). exists [0], (replicate b 0 ++ ms), None. assert (EN : append 0 ([0] ++ replicate b 0 ++ ms) = mant) by (cbn [app append]; rewrite Z.mul_0_l, Z.add_0_l, append_leading; apply append_text; rewrite Z2Nat.id by lia; lia).
  assert (Hlen : lenZ (replicate b 0 ++ ms) = P - E) by (rewrite lenZ_app; unfold ms; rewrite lenZ_digits; unfold lenZ; rewrite length_replicate; lia). assert (Hms : Forall digit (replicate b 0 ++ ms)) by (apply Forall_app; split; [apply zeros_ok | apply digits_digit]).
  split.
  { unfold plain_text, numeral_text. destruct (Z.leb_spec E 0); [| lia]. cbn [map app]. assert (Hft : frac_text (replicate b 0 ++ ms) = 46 :: map digit_char (replicate b 0 ++ ms)) by (unfold frac_text; destruct (replicate b 0 ++ ms); [change (lenZ (@nil Z)) with 0 in Hlen; lia | done]). rewrite Hft. cbn [exp_text]. rewrite app_nil_r, map_app, map_zeros. done. }
  split; [apply Forall_singleton; unfold digit; lia |]. split; [done |]. split; [done |]. rewrite EN. split.
  { change ([0] ++ replicate b 0 ++ ms) with (replicate (S b) 0 ++ ms). rewrite drop_zeros_app. pose proof (drop_zeros_len ms) as Hd. unfold ms in Hd at 2. rewrite lenZ_digits in Hd. lia. }
  split; [change (10 ^ 8) with 100000000; lia |]. split; [done |]. split; [lia |]. unfold numeral_num, numeral_den. rewrite EN, Hlen. cbn [exp_value]. by replace (0 - (P - E)) with (E - P) by lia.
Qed.

Lemma denotes_dot mant P E : decimal mant P E -> P <= 17 -> 0 < E < P -> denotes (plain_text (text 10 (Z.to_nat P) mant) E) mant (E - P).
Proof.
  intros Hdec HP HE0. pose proof (decimal_17 _ _ _ Hdec HP) as Hm. destruct Hdec as (H1 & Hmant & HE). set (n := Z.to_nat (P - E)). set (i := Z.to_nat E). assert (En : Z.to_nat P = (i + n)%nat) by lia. exists (digits 10 i (mant / 10 ^ Z.of_nat n)), (digits 10 n mant), None.
  assert (Eapp : digits 10 i (mant / 10 ^ Z.of_nat n) ++ digits 10 n mant = digits 10 (i + n) mant) by (symmetry; apply digits_split; lia). assert (EN : append 0 (digits 10 (i + n) mant) = mant) by (apply append_text; replace (Z.of_nat (i + n)) with P by lia; lia).
  split.
  { unfold plain_text, numeral_text. destruct (Z.leb_spec E 0); [lia |]. unfold lenZ. rewrite text_length, En. rewrite Z.min_r by lia. replace E with (Z.of_nat i) at 1 by lia. rewrite with_dot_text, frac_text_digits by lia. replace (Z.to_nat (E - Z.of_nat (i + n))) with 0%nat by lia. cbn [replicate exp_text]. by rewrite !app_nil_r. }
  split; [apply digits_digit |]. split; [apply digits_digit |]. split; [intros E0; apply (f_equal length) in E0; rewrite digits_length in E0; simpl in E0; lia |]. rewrite Eapp, EN. pose proof (drop_zeros_len (digits 10 (i + n) mant)) as Hdl. rewrite !lenZ_digits in *. split; [lia |]. split; [change (10 ^ 8) with 100000000; lia |]. split; [done |]. split; [lia |].
  unfold numeral_num, numeral_den. rewrite Eapp, EN, lenZ_digits. cbn [exp_value]. by replace (0 - Z.of_nat n) with (E - P) by lia.
Qed.

Lemma denotes_int ds mant f : Forall digit ds -> ds <> [] -> lenZ ds <= 38 -> 0 < mant -> 0 <= f -> append 0 ds = mant * 10 ^ f -> denotes (map digit_char ds) mant f.
Proof.
  intros Hds Hne Hl Hm Hf EN. pose proof (pow10_pos f Hf). exists ds, [], None. split; [unfold numeral_text; cbn [frac_text exp_text app]; by rewrite app_nil_r |]. split; [done |]. split; [by constructor |]. split; [done |]. rewrite app_nil_r. pose proof (drop_zeros_len ds). split; [lia |]. split; [done |]. split; [done |]. split; [rewrite EN; nia |].
  unfold numeral_num, numeral_den. rewrite app_nil_r, EN. cbn [exp_value]. change (lenZ []) with 0. rewrite pow_shift by done. done.
Qed.

Lemma denotes_large mant P E : decimal mant P E -> P <= 17 -> P <= E <= 38 -> denotes (plain_text (text 10 (Z.to_nat P) mant) E) mant (E - P).
Proof.
  intros Hdec HP HE0. pose proof (decimal_17 _ _ _ Hdec HP) as Hm. destruct Hdec as (H1 & Hmant & HE). assert (Et : plain_text (text 10 (Z.to_nat P) mant) E = map digit_char (digits 10 (Z.to_nat P) mant ++ replicate (Z.to_nat (E - P)) 0)).
  { unfold plain_text. destruct (Z.leb_spec E 0); [lia |]. assert (Hl : lenZ (text 10 (Z.to_nat P) mant) = P) by (unfold lenZ; rewrite text_length; lia). rewrite Hl, Z.min_l by lia. rewrite <- Hl at 1. by rewrite with_dot_end, map_app, map_zeros. }
  rewrite Et. apply denotes_int; [apply Forall_app; split; [apply digits_digit | apply zeros_ok] | | | lia | lia |].
  - intros E0. apply (f_equal length) in E0. rewrite length_app, digits_length in E0. simpl in E0. lia.
  - rewrite lenZ_app, lenZ_digits. unfold lenZ. rewrite length_replicate. lia.
  - rewrite append_app, append_zeros, append_text, Z2Nat.id by (rewrite ?Z2Nat.id by lia; lia). done.
Qed.

Lemma denotes_free mant P E j :
  decimal mant P E -> P <= 17 -> canonical 10 j (Z.abs (E - 1)) -> let ds := text 10 (Z.to_nat P) mant in denotes (if with_exponent 0 0 E then sci_text ds E j else plain_text ds E) mant (E - P).
Proof.
  intros Hdec HP Hj. cbv zeta. unfold with_exponent. change (Z.land 0 JS_DTOA_EXP_MASK) with 0. change (0 =? JS_DTOA_EXP_ENABLED) with false. change (0 =? JS_DTOA_EXP_AUTO) with true. change (Z.land 0 JS_DTOA_FORMAT_MASK =? JS_DTOA_FORMAT_FIXED) with false. cbn [orb andb].
  destruct ((E <=? -6) || (21 <? E)) eqn:Ex; [by apply denotes_sci |]. destruct (Z.le_gt_cases E 0); [by apply denotes_small |]. destruct (Z.lt_ge_cases E P); [apply denotes_dot; done || lia | apply denotes_large; done || lia].
Qed.

Lemma low_bits64 d : 0 <= d < 2 ^ 64 -> d mod 2 ^ 63 = exp_field d * 2 ^ 52 + frac_field d /\ d = d mod 2 ^ 63 + (if negative d then 2 ^ 63 else 0).
Proof.
  intros Hd. split.
  - unfold exp_field, frac_field. change (2 ^ 63) with (2 ^ 52 * 2048). rewrite Z.rem_mul_r by lia. lia.
  - unfold negative. destruct (Z.leb_spec (2 ^ 63) d); [| rewrite Z.mod_small; lia]. rewrite <- (Z.mod_unique d (2 ^ 63) 1 (d - 2 ^ 63)); lia.
Qed.

Lemma decode_bits d m e l :
  finite64 d -> normalized m e -> 0 <= l -> m = mant64 d * 2 ^ l -> e - 53 = exp64 d - l -> representable m e /\ pack_double m e = d mod 2 ^ 63.
Proof.
  intros [Hd Hf] Hme Hl Em Ee. rewrite (proj1 (low_bits64 d Hd)). pose proof Hme as [Hm He]. assert (Hfr : 0 <= frac_field d < 2 ^ 52) by (apply Z.mod_pos_bound; lia). assert (Hef : 0 <= exp_field d < 2048) by (apply Z.mod_pos_bound; lia). unfold mant64, exp64, pack_double in *. destruct (Z.eqb_spec m 0), (Z.ltb_spec 1024 e), (Z.ltb_spec e (-1073)); try lia. destruct (Z.eqb_spec (exp_field d) 0) as [E | E].
  - assert (Hl1 : 1 <= l) by (destruct (Z.eq_dec l 0) as [-> |]; [rewrite Z.pow_0_r in Em; lia | lia]). split; [split; [done |]; exists (frac_field d); rewrite Em; do 2 f_equal; lia |]. destruct (Z.ltb_spec e (-1021)); [| lia]. rewrite Z.shiftr_div_pow2 by lia. replace (- e - 1021) with l by lia. rewrite Em, Z.div_mul by lia. lia.
  - assert (Hl0 : l = 0) by (destruct (Z.eq_dec l 0); [done |]; assert (2 <= 2 ^ l) by (apply (Z.pow_le_mono_r 2 1); lia); nia). rewrite Hl0, Z.pow_0_r, Z.mul_1_r, Z.sub_0_r in *. split; [split; [done |]; exists m; rewrite Z.max_r, Z.pow_0_r by lia; lia |]. destruct (Z.ltb_spec e (-1021)); [lia |].
    change (Z.shiftl 1 52 - 1) with (Z.ones 52). rewrite Z.land_ones, Z.shiftl_mul_pow2, Z.lor_comm by lia. rewrite <- (Z.mod_unique m (2 ^ 52) 1 (frac_field d)) by lia. rewrite (lor_plus (frac_field d) (e + 1022) 52) by lia. replace (e + 1022) with (exp_field d) by lia. lia.
Qed.

(** An integer is printed as it is. *)
Lemma nearest_int m e v : representable m e -> 1 <= e <= 53 -> m = v * 2 ^ (53 - e) -> 0 < v -> nearest_pair v 1 = (m, e).
Proof.
  intros Hrep He Em Hv. apply (nearest_close v 1 m e 1200); [done | lia | done | lia |]. assert (E0 : v * 2 ^ 1200 - 1 * m * 2 ^ (e - 53 + 1200) = 0). { rewrite Em, Z.mul_1_l. replace (2 ^ 1200) with (2 ^ (53 - e) * 2 ^ (e - 53 + 1200)) by (rewrite <- Z.pow_add_r by lia; f_equal; lia). lia. } rewrite E0. change (Z.abs 0) with 0. rewrite Z.mul_0_r. apply Z.mul_nonneg_nonneg; [lia | apply Z.pow_nonneg; lia].
Qed.

Lemma free_text m e n :
  representable m e -> exists t mant f, dtoa_finite m e 10 n 0 = Done t /\ denotes t mant f /\ nearest_pair (pow_num mant 10 f) (pow_den 10 f) = (m, e).
Proof.
  intros Hrep. destruct ((1 <=? e) && (e <=? 53) && (Z.land m (Z.shiftl 1 (53 - e) - 1) =? 0) && negb (Z.land 0 JS_DTOA_EXP_MASK =? JS_DTOA_EXP_ENABLED)) eqn:Eint.
  - pose proof Hrep as [[Hm _] _]. unfold dtoa_finite. change (Z.land 0 JS_DTOA_FORMAT_MASK =? JS_DTOA_FORMAT_FREE) with true. cbn [andb]. rewrite Eint. rewrite !andb_true_iff, !Z.leb_le, Z.eqb_eq in Eint. destruct Eint as [[He Hlow] _]. rewrite Z.shiftl_1_l in Hlow. replace (2 ^ (53 - e) - 1) with (Z.ones (53 - e)) in Hlow by (rewrite Z.ones_equiv; lia). rewrite Z.land_ones in Hlow by lia. rewrite Z.shiftr_div_pow2 by lia. set (v := m / 2 ^ (53 - e)).
    assert (Em : m = v * 2 ^ (53 - e)) by (pose proof (Z.div_mod m (2 ^ (53 - e)) ltac:(lia)); unfold v; lia). assert (H2 : 0 < 2 ^ (53 - e)) by lia. assert (Hv : 0 < v < 2 ^ 53) by nia. destruct (u64toa_radix_spec v 10 ltac:(lia) ltac:(lia)) as (k & Ek & K1 & K2 & K3). exists (text 10 k v), v, 0. split; [done |].
    assert (Hk38 : (k <= 38)%nat). { destruct K3 as [-> | K3]; [lia |]. destruct (le_lt_dec k 38); [done | exfalso]. assert (10 ^ 38 <= 10 ^ (Z.of_nat k - 1)) by (apply Z.pow_le_mono_r; lia). assert (2 ^ 53 < 10 ^ 38) by done. lia. }
    split; [unfold text; apply denotes_int; [apply digits_digit | | rewrite lenZ_digits; lia | lia | lia | rewrite append_text by lia; lia] |].
    { intros E0. apply (f_equal length) in E0. rewrite digits_length in E0. simpl in E0. lia. }
    unfold pow_num, pow_den. cbn [Z.max Z.opp Z.compare]. rewrite Z.pow_0_r, Z.mul_1_r. apply nearest_int; done || lia.
  - destruct (free_spec m e n 0 Hrep eq_refl Eint) as (mant & P & E & j & (Hdec & HP & Hn) & Hj & Et). cbv zeta in Et. rewrite Et. eexists _, mant, (E - P). split; [reflexivity |]. split; [| done]. by apply denotes_free.
Qed.

Lemma finite_roundtrip d n : finite64 d -> mant64 d <> 0 -> exists t, js_dtoa d 10 n 0 = Done t /\ js_atod (t ++ [0]) 10 0 = Done (Some d, lenZ t).
Proof.
  intros Hf Hm. destruct (js_dtoa_finite d 10 n 0 Hf Hm) as (m & e & l & Hme & Hl & Em & Ee & ->). destruct (decode_bits d m e l Hf Hme Hl Em Ee) as [Hrep Hpack]. destruct (free_text m e n Hrep) as (t & mant & f & -> & Hden & Hnear). cbn [run_bind]. exists (sign_text d ++ t). split; [done |].
  destruct Hden as (ds & fs & ex & -> & Hds & Hfs & Hne & H38 & Hlen & Hex & HN & Enear). change (sign_text d) with (sign_of (negative d)). rewrite (js_atod_numeral (negative d) ds fs ex []) by done. do 3 f_equal. destruct (pow_parts_pos (append 0 (ds ++ fs)) (exp_value ex - lenZ fs) HN) as [Pn Pd].
  unfold numeral_num, numeral_den in *. rewrite <- nearest64_pair, Enear, Hnear by done. unfold pack_pair. cbn [fst snd]. rewrite Hpack. symmetry. apply low_bits64, Hf.
Qed.

(** ** The nearest number *)

(** The absolute value, in units of the smallest number [2^-1074]. *)
Definition units64 (b : Z) : Z := mant64 b * 2 ^ (exp64 b + 1074).

(** Numbers have 52 bits behind the first, whatever their size. *)
Lemma units64_grid b k : 0 <= b < 2047 * 2 ^ 52 -> 0 <= k -> (exists W, units64 b = W * 2 ^ k) \/ units64 b < 2 ^ (52 + k).
Proof.
  intros Hb Hk. unfold units64, mant64, exp64. assert (Hfr : 0 <= frac_field b < 2 ^ 52) by (apply Z.mod_pos_bound; lia). assert (Hef : 0 <= exp_field b) by (apply Z.mod_pos_bound; lia). destruct (Z.eqb_spec (exp_field b) 0) as [E | E].
  - right. change (2 ^ (-1074 + 1074)) with 1. rewrite Z.mul_1_r. apply Z.lt_le_trans with (2 ^ 52); [lia | apply Z.pow_le_mono_r; lia].
  - set (f := exp_field b - 1075 + 1074). destruct (Z.le_gt_cases k f) as [L | L].
    + left. exists ((frac_field b + 2 ^ 52) * 2 ^ (f - k)). rewrite <- Z.mul_assoc, <- Z.pow_add_r by lia. do 2 f_equal. lia.
    + right. assert (H53 : 2 ^ (53 + f) <= 2 ^ (52 + k)) by (apply Z.pow_le_mono_r; lia). rewrite (Z.pow_add_r 2 53) in H53 by lia. assert (0 < 2 ^ f) by lia. change (2 ^ 53) with (2 * 2 ^ 52) in H53. nia.
Qed.

Lemma units64_bits M k : 0 <= M <= 2 ^ 53 -> 0 <= k -> (0 < k -> 2 ^ 52 <= M) -> k * 2 ^ 52 + M < 2047 * 2 ^ 52 -> units64 (k * 2 ^ 52 + M) = M * 2 ^ k.
Proof.
  intros HM Hk Hlow Hb. set (b := k * 2 ^ 52 + M) in *. assert (Hfields : forall x y, 0 <= y < 2 ^ 52 -> 0 <= x < 2048 -> b = x * 2 ^ 52 + y -> exp_field b = x /\ frac_field b = y).
  { intros x y Hy Hx E. assert (Ed : b / 2 ^ 52 = x) by (symmetry; apply (Z.div_unique _ _ _ y); lia). assert (Er : b mod 2 ^ 52 = y) by (symmetry; apply (Z.mod_unique _ _ x); lia). unfold exp_field, frac_field. rewrite Ed, Er, Z.mod_small by lia. done. }
  unfold units64, mant64, exp64. destruct (Z.lt_ge_cases M (2 ^ 52)) as [L | L].
  - assert (k = 0) as -> by (destruct (Z.eq_dec k 0); [done | lia]). destruct (Hfields 0 M) as [-> ->]; [lia | lia | unfold b; lia |]. done.
  - destruct (Z.eq_dec M (2 ^ 53)) as [E53 | N].
    + destruct (Hfields (k + 2) 0) as [-> ->]; [lia | lia | unfold b; lia |]. destruct (Z.eqb_spec (k + 2) 0); [lia |]. rewrite E53. replace (k + 2 - 1075 + 1074) with (1 + k) by lia. rewrite Z.pow_add_r by lia. change (2 ^ 53) with (2 ^ 52 * 2 ^ 1). ring.
    + destruct (Hfields (k + 1) (M - 2 ^ 52)) as [-> ->]; [lia | lia | unfold b; lia |]. destruct (Z.eqb_spec (k + 1) 0); [lia |]. replace (k + 1 - 1075 + 1074) with k by lia. f_equal. lia.
Qed.

Lemma round_best x U M W : 0 < U -> 2 * Z.abs (M * U - x) <= U -> Z.abs (x - M * U) <= Z.abs (x - W * U).
Proof.
  intros HU HM. destruct (Z.eq_dec W M) as [-> | N]; [done |]. assert (U <= Z.abs ((M - W) * U)) by (rewrite Z.abs_mul, (Z.abs_eq U) by lia; nia). lia.
Qed.

(** No number is nearer. *)
Lemma nearest64_best n d b :
  0 < n -> 0 < d -> nearest64 n d < 2047 * 2 ^ 52 -> 0 <= b < 2047 * 2 ^ 52 -> Z.abs (n * 2 ^ 1074 - units64 (nearest64 n d) * d) <= Z.abs (n * 2 ^ 1074 - units64 b * d).
Proof.
  intros Hn Hd Hfin Hb. destruct (round_at_bounds JS_RNDN n d (unit_exponent n d) Hn Hd) as (B0 & B1 & B2 & B3). destruct (exponent_spec n d Hn Hd) as [X1 _]. unfold nearest64 in *. destruct (Z.eqb_spec n 0); [lia |]. set (q := unit_exponent n d) in *. set (M := round_at JS_RNDN n d q) in *. set (k := q + 1074). fold k in Hfin |- *. assert (Hk : 0 <= k) by (unfold k, q, unit_exponent; lia).
  rewrite Z.min_r in * by lia. assert (Hx : 0 < k -> q = exponent n d - 53) by (unfold k, q, unit_exponent; lia). assert (Hq53 : exponent n d - q <= 53) by (unfold q, unit_exponent; lia).
  assert (HM : M <= 2 ^ 53) by (destruct (Z.le_gt_cases q (exponent n d)); [transitivity (2 ^ (exponent n d - q)); [by apply B2 | apply Z.pow_le_mono_r; lia] | rewrite B1; lia]). rewrite units64_bits; [| lia | done | intros Hk0; specialize (Hx Hk0); specialize (B3 ltac:(lia)); by replace (exponent n d - q - 1) with 52 in B3 by lia | done].
  set (U := d * 2 ^ k). assert (HU : 0 < U) by (unfold U; nia). assert (Herr : 2 * Z.abs (M * U - n * 2 ^ 1074) <= U) by (unfold M; rewrite (round_at_shift JS_RNDN n d q 1074) by lia; fold k U; by apply round_err). replace (M * 2 ^ k * d) with (M * U) by (unfold U; ring).
  destruct (units64_grid b k Hb Hk) as [[W ->] | Hsmall]; [replace (W * 2 ^ k * d) with (W * U) by (unfold U; ring); by apply round_best |]. destruct (Z.eq_dec k 0) as [E0 | N0]; [pose proof (round_best (n * 2 ^ 1074) U M (units64 b) HU Herr) as Hb1; unfold U in Hb1 at 2; rewrite E0, Z.pow_0_r, Z.mul_1_r in Hb1; done |].
  transitivity (Z.abs (n * 2 ^ 1074 - 2 ^ 52 * U)); [by apply round_best |]. specialize (Hx ltac:(lia)). rewrite (le_pow2_shift _ _ _ 1074) in X1 by lia. apply Z.leb_le in X1. replace (exponent n d - 1 + 1074) with (52 + k) in X1 by lia. rewrite Z.pow_add_r in X1, Hsmall by lia. replace (d * (2 ^ 52 * 2 ^ k)) with (2 ^ 52 * U) in X1 by (unfold U; ring). assert (units64 b * d <= 2 ^ 52 * U) by (unfold U; nia). lia.
Qed.

(** ** Lengths *)

Lemma lenZ_text radix n v : lenZ (text radix n v) = Z.of_nat n.
Proof. unfold lenZ. by rewrite text_length. Qed.

Lemma lenZ_with_dot k (l : list Z) : lenZ l <= lenZ (with_dot k l) <= lenZ l + 1.
Proof.
  unfold with_dot. destruct (k =? lenZ l); [lia |]. assert (E : lenZ l = lenZ (take (Z.to_nat k) l) + lenZ (drop (Z.to_nat k) l)) by (by rewrite <- lenZ_app, take_drop). rewrite lenZ_app, lenZ_cons. lia.
Qed.

Lemma canonical_len k v p : canonical 10 k v -> v < 10 ^ p -> 1 <= p -> Z.of_nat k <= p.
Proof.
  intros (_ & _ & H) Hv Hp. destruct H as [-> | H]; [lia |]. destruct (Z.le_gt_cases (Z.of_nat k) p) as [| L]; [done |]. assert (10 ^ p <= 10 ^ (Z.of_nat k - 1)) by (apply Z.pow_le_mono_r; lia). lia.
Qed.

Lemma layout_len flags nd ds E j :
  canonical 10 j (Z.abs (E - 1)) -> -323 <= E <= 310 -> 1 <= lenZ ds ->
  (Z.land flags JS_DTOA_EXP_MASK = JS_DTOA_EXP_AUTO \/ Z.land flags JS_DTOA_EXP_MASK = JS_DTOA_EXP_ENABLED) -> lenZ ds <= nd -> nd <= 17 \/ Z.land flags JS_DTOA_FORMAT_MASK = JS_DTOA_FORMAT_FIXED ->
  lenZ (if with_exponent flags nd E then sci_text ds E j else plain_text ds E) <= Z.max (nd + 7) (if Z.land flags JS_DTOA_FORMAT_MASK =? JS_DTOA_FORMAT_FIXED then 0 else 21).
Proof.
  intros Hj HE Hds Hexp Hnd Hfmt. assert (Hj3 : Z.of_nat j <= 3) by (apply (canonical_len j (Z.abs (E - 1)) 3 Hj); [change (10 ^ 3) with 1000; lia | lia]). destruct (with_exponent flags nd E) eqn:Ew.
  - unfold sci_text. rewrite lenZ_app, !lenZ_cons, lenZ_text. pose proof (lenZ_with_dot 1 ds). lia.
  - unfold with_exponent in Ew. cbv zeta in Ew. destruct Hexp as [Hexp | Hexp]; rewrite Hexp in Ew; [| done]. change (JS_DTOA_EXP_AUTO =? JS_DTOA_EXP_ENABLED) with false in Ew. rewrite Z.eqb_refl in Ew. cbn [orb andb] in Ew. apply orb_false_iff in Ew as [E1 E2]. unfold plain_text. destruct (Z.leb_spec E 0).
    + rewrite !lenZ_cons, lenZ_app. unfold lenZ at 1. rewrite length_replicate. lia.
    + rewrite lenZ_app. pose proof (lenZ_with_dot (Z.min (lenZ ds) E) ds) as Hd. assert (Hr : lenZ (replicate (Z.to_nat (E - lenZ ds)) 48) = Z.max (E - lenZ ds) 0) by (unfold lenZ; rewrite length_replicate; lia). rewrite Hr. destruct (Z.le_gt_cases (lenZ ds) E) as [L | L]; [rewrite Z.min_l in * by done; rewrite with_dot_end in *; destruct (_ =? _); lia | destruct (_ =? _); lia].
Qed.

Lemma land_exp_field d : Z.land (Z.shiftr d 52) 2047 = exp_field d.
Proof. change 2047 with (Z.ones 11). by rewrite Z.land_ones, Z.shiftr_div_pow2 by lia. Qed.

Lemma lenZ_sign d : lenZ (sign_text d) <= 1.
Proof. unfold sign_text. destruct (negative d); done. Qed.

Lemma free_len m e n flags :
  representable m e -> Z.land flags JS_DTOA_FORMAT_MASK = JS_DTOA_FORMAT_FREE -> (Z.land flags JS_DTOA_EXP_MASK = JS_DTOA_EXP_AUTO \/ Z.land flags JS_DTOA_EXP_MASK = JS_DTOA_EXP_ENABLED) ->
  exists t, dtoa_finite m e 10 n flags = Done t /\ lenZ t <= 24.
Proof.
  intros Hrep Hfmt Hexp. destruct ((1 <=? e) && (e <=? 53) && (Z.land m (Z.shiftl 1 (53 - e) - 1) =? 0) && negb (Z.land flags JS_DTOA_EXP_MASK =? JS_DTOA_EXP_ENABLED)) eqn:Eint.
  - pose proof Hrep as [[Hm _] _]. unfold dtoa_finite. rewrite Hfmt, Z.eqb_refl. cbn [andb]. rewrite Eint. rewrite !andb_true_iff, !Z.leb_le in Eint. destruct Eint as [[He _] _]. rewrite Z.shiftr_div_pow2 by lia. set (v := m / 2 ^ (53 - e)). assert (Hv : 0 <= v <= m) by (split; [apply Z.div_pos; lia | apply Z.div_le_upper_bound; [lia |]; assert (1 <= 2 ^ (53 - e)) by (apply (Z.pow_le_mono_r 2 0); lia); nia]).
    destruct (u64toa_radix_spec v 10 ltac:(lia) ltac:(lia)) as (k & Ek & Hk). exists (text 10 k v). split; [done |]. rewrite lenZ_text. apply Z.le_trans with 16; [| lia]. apply (canonical_len k v); [done | change (10 ^ 16) with 10000000000000000; lia | lia].
  - destruct (free_spec m e n flags Hrep Hfmt Eint) as (mant & P & E & j & (Hdec & HP & _) & Hj & ->). eexists. split; [reflexivity |]. destruct Hdec as (H1 & _ & HE). cbv zeta. assert (Hw : with_exponent flags n E = with_exponent flags 17 E) by (unfold with_exponent; by rewrite Hfmt). rewrite Hw.
    pose proof (layout_len flags 17 (text 10 (Z.to_nat P) mant) E j Hj HE) as Hl. rewrite lenZ_text, Hfmt in Hl. change (JS_DTOA_FORMAT_FREE =? JS_DTOA_FORMAT_FIXED) with false in Hl. change (Z.max (17 + 7) 21) with 24 in Hl. apply Hl; [lia | done | lia | by left].
Qed.

Lemma fixed_len m e n flags :
  normalized m e -> 1 <= n <= 101 -> Z.land flags JS_DTOA_FORMAT_MASK = JS_DTOA_FORMAT_FIXED -> (Z.land flags JS_DTOA_EXP_MASK = JS_DTOA_EXP_AUTO \/ Z.land flags JS_DTOA_EXP_MASK = JS_DTOA_EXP_ENABLED) ->
  exists t, dtoa_finite m e 10 n flags = Done t /\ lenZ t <= n + 7.
Proof.
  intros Hme Hn Hfmt Hexp. destruct (fixed_spec m e n flags Hme Hn Hfmt) as (j & Hj & ->). cbv zeta in Hj |- *. set (E := sig_exponent JS_RNDNA m e n) in *. set (V := sig_value JS_RNDNA m e n E). eexists. split; [reflexivity |]. pose proof (E_range m e Hme) as HE. assert (HE' : -323 <= E <= 310) by (unfold E, sig_exponent; destruct (_ <? _); lia).
  pose proof (layout_len flags n (text 10 (Z.to_nat n) V) E j Hj HE') as Hl. rewrite lenZ_text, Hfmt in Hl. change (JS_DTOA_FORMAT_FIXED =? JS_DTOA_FORMAT_FIXED) with true in Hl. cbn iota in Hl. replace (Z.max (n + 7) 0) with (n + 7) in Hl by lia. apply Hl; [lia | done | lia | by right].
Qed.

Lemma frac_len m e n flags :
  normalized m e -> 0 <= n <= 101 -> Z.land flags JS_DTOA_FORMAT_MASK = JS_DTOA_FORMAT_FRAC -> exists t, dtoa_finite m e 10 n flags = Done t /\ lenZ t <= Z.max (decimal_exponent e + 1) 1 + 1 + n.
Proof.
  intros Hme Hn Hfmt. destruct (frac_spec m e n flags Hme Hn Hfmt) as (k & -> & Hk). eexists. split; [reflexivity |]. destruct (frac_range m e n Hme ltac:(lia)) as [HV _]. set (V := frac_value m e n) in *. set (p := Z.max (decimal_exponent e + 1) 1) in *.
  assert (Hkp : Z.of_nat k <= p) by (apply (canonical_len k (V / 10 ^ n) p Hk); [| lia]; apply Z.div_lt_upper_bound; [apply pow10_pos; lia |]; rewrite <- Z.pow_add_r by lia; rewrite Z.add_comm; apply HV). rewrite lenZ_app, lenZ_text. destruct (n =? 0); [change (lenZ []) with 0; lia | rewrite lenZ_cons, lenZ_text; lia].
Qed.

(** The exponent of a finite number and its exponent field. *)
Lemma field_exponent d m e l :
  finite64 d -> normalized m e -> 0 <= l -> m = mant64 d * 2 ^ l -> e - 53 = exp64 d - l -> if exp_field d =? 0 then e <= -1021 else e = exp_field d - 1022.
Proof.
  intros [Hd _] [Hm _] Hl Em Ee. assert (Hfr : 0 <= frac_field d < 2 ^ 52) by (apply Z.mod_pos_bound; lia). unfold mant64, exp64 in *. destruct (exp_field d =? 0); [lia |]. destruct (Z.eq_dec l 0); [lia |]. assert (2 <= 2 ^ l) by (apply (Z.pow_le_mono_r 2 1); lia). nia.
Qed.

Lemma ml_lin a : 16777216 * mul_log2_radix a 10 <= a * 5050445 < 16777216 * (mul_log2_radix a 10 + 1).
Proof. pose proof (decimal_exponent_lin (a + 1)) as H. cbv zeta in H. unfold decimal_exponent in H. replace (a + 1 - 1) with a in H by lia. lia. Qed.

(** C39: The length [js_dtoa_max_len] promises is enough: for every finite decimal
    number that is not zero, each of the formats of [js_dtoa] gives at most that
    many characters. *)
Theorem dtoa_fits_max_len d n flags :
  finite64 d -> mant64 d <> 0 -> 0 <= n <= JS_DTOA_MAX_DIGITS ->
  Z.land flags JS_DTOA_FORMAT_MASK = JS_DTOA_FORMAT_FRAC \/
  (Z.land flags JS_DTOA_FORMAT_MASK = JS_DTOA_FORMAT_FREE \/ Z.land flags JS_DTOA_FORMAT_MASK = JS_DTOA_FORMAT_FIXED /\ 1 <= n) /\
  (Z.land flags JS_DTOA_EXP_MASK = JS_DTOA_EXP_AUTO \/ Z.land flags JS_DTOA_EXP_MASK = JS_DTOA_EXP_ENABLED) ->
  exists t, js_dtoa d 10 n flags = Done t /\ lenZ t <= js_dtoa_max_len d 10 n flags.
Proof.
  intros Hf Hm Hn Hfmt. unfold JS_DTOA_MAX_DIGITS in Hn. destruct (js_dtoa_finite d 10 n flags Hf Hm) as (m & e & l & Hme & Hl & Em & Ee & ->). destruct (decode_bits d m e l Hf Hme Hl Em Ee) as [Hrep _]. pose proof (lenZ_sign d) as Hs. unfold js_dtoa_max_len. cbv zeta. rewrite land_exp_field. destruct Hf as [Hd Hinf] eqn:EH. clear EH.
  destruct Hfmt as [Hfmt | [Hfmt Hexp]].
  - destruct (frac_len m e n flags Hme Hn Hfmt) as (t & -> & Ht). exists (sign_text d ++ t). split; [done |]. rewrite lenZ_app, Hfmt, Z.eqb_refl. cbn [negb]. destruct (Z.eqb_spec (exp_field d) 2047); [done |]. pose proof (field_exponent d m e l Hf Hme Hl Em Ee) as He. pose proof (decimal_exponent_lin e) as HE. cbv zeta in HE. pose proof (ml_lin (exp_field d - 1023 - 1)).
    destruct (Z.eqb_spec (exp_field d) 0), (Z.ltb_spec (exp_field d - 1023) 0); lia.
  - assert (Hnd : (Z.land flags JS_DTOA_EXP_MASK =? JS_DTOA_EXP_DISABLED) = false) by (destruct Hexp as [-> | ->]; done). rewrite Hnd. destruct Hfmt as [Hfmt | [Hfmt Hn1]]; rewrite Hfmt; cbn [negb].
    + destruct (free_len m e n flags Hrep Hfmt Hexp) as (t & -> & Ht). exists (sign_text d ++ t). split; [done |]. rewrite lenZ_app. change (JS_DTOA_FORMAT_FREE =? JS_DTOA_FORMAT_FRAC) with false. cbn [negb]. rewrite Z.eqb_refl. change (nthZ 0 dtoa_max_digits_table (10 - 2)) with 17. lia.
    + destruct (fixed_len m e n flags Hme ltac:(lia) Hfmt Hexp) as (t & -> & Ht). exists (sign_text d ++ t). split; [done |]. rewrite lenZ_app. change (JS_DTOA_FORMAT_FIXED =? JS_DTOA_FORMAT_FRAC) with false. change (JS_DTOA_FORMAT_FIXED =? JS_DTOA_FORMAT_FREE) with false. cbn [negb]. lia.
Qed.

(** ** The theorems *)

Definition is_nan (d : Z) : bool := (exp_field d =? 2047) && negb (frac_field d =? 0).

(** The fields are the number. *)
Lemma fields_inj d : 0 <= d < 2 ^ 64 -> d = exp_field d * 2 ^ 52 + frac_field d + (if negative d then 2 ^ 63 else 0).
Proof. intros Hd. destruct (low_bits64 d Hd) as [E1 E2]. by rewrite <- E1. Qed.

Lemma special_roundtrip d n :
  0 <= d < 2 ^ 64 -> exp_field d = 2047 \/ mant64 d = 0 ->
  exists t, js_dtoa d 10 n 0 = Done t /\ js_atod (t ++ [0]) 10 0 = Done (if is_nan d then (None, 0) else (Some (if d =? 2 ^ 63 then 0 else d), lenZ t)).
Proof.
  intros Hd Hs. pose proof (fields_inj d Hd) as Ef. destruct (is_nan d) eqn:En.
  - exists NAN_TEXT. split; [| done]. unfold is_nan in En. apply andb_prop in En as [E1 E2]. unfold js_dtoa. rewrite land_exp_field, E1. change (Z.shiftl 1 52 - 1) with (Z.ones 52). rewrite Z.land_ones by lia. fold (frac_field d). destruct (frac_field d =? 0); done.
  - unfold is_nan in En. assert (Hz : frac_field d = 0 /\ (exp_field d = 2047 \/ exp_field d = 0)).
    { assert (Hfr : 0 <= frac_field d) by (apply Z.mod_pos_bound; lia). unfold mant64 in Hs. destruct (Z.eqb_spec (exp_field d) 2047), (Z.eqb_spec (frac_field d) 0), (Z.eqb_spec (exp_field d) 0); try done; try (split; [done |]; tauto); lia. }
    destruct Hz as [Hz1 Hz2]. rewrite Hz1 in Ef. destruct Hz2 as [Hz2 | Hz2]; rewrite Hz2 in Ef; destruct (negative d); rewrite Ef; eexists; (split; [vm_compute; reflexivity |]); vm_compute; reflexivity.
Qed.

(** C5: Printing a number in as few decimal digits as [js_dtoa] finds and reading
    the text with [js_atod] gives the number back, bit by bit, for every binary64
    number: finite, subnormal, infinite or not a number.  Only -0, which is printed
    without its sign, becomes 0. *)
Theorem number_text_roundtrip d n :
  0 <= d < 2 ^ 64 -> exists t, js_dtoa d 10 n 0 = Done t /\ js_atod (t ++ [0]) 10 0 = Done (if is_nan d then (None, 0) else (Some (if d =? 2 ^ 63 then 0 else d), lenZ t)).
Proof.
  intros Hd. destruct (Z.eq_dec (exp_field d) 2047) as [E | E]; [apply special_roundtrip; auto |]. destruct (Z.eq_dec (mant64 d) 0) as [E0 | E0]; [apply special_roundtrip; auto |].
  destruct (finite_roundtrip d n (conj Hd E) E0) as (t & E1 & E2). exists t. split; [done |]. rewrite E2. assert (En : is_nan d = false) by (unfold is_nan; by destruct (Z.eqb_spec (exp_field d) 2047)). rewrite En. destruct (Z.eqb_spec d (2 ^ 63)) as [-> | N]; [vm_compute in E0; done | done].
Qed.


(** C37: With [JS_DTOA_FORMAT_FRAC] and [n] digits, as [toFixed] asks for them,
    [js_dtoa] returns and prints the number times [10^n], rounded to an integer
    with ties away from zero: its canonical digits, the last [n] behind a dot. *)
Theorem fixed_point_exact d n flags :
  finite64 d -> mant64 d <> 0 -> 0 <= n <= JS_DTOA_MAX_DIGITS -> Z.land flags JS_DTOA_FORMAT_MASK = JS_DTOA_FORMAT_FRAC ->
  let V := round_div JS_RNDNA (scaled_num (mant64 d) (exp64 d) 10 n) (scaled_den (exp64 d) 10 n) in
  exists k, js_dtoa d 10 n flags = Done (sign_text d ++ text 10 k (V / 10 ^ n) ++ (if n =? 0 then [] else 46 :: text 10 (Z.to_nat n) V)) /\ canonical 10 k (V / 10 ^ n).
Proof.
  intros Hf Hm Hn Hfmt. cbv zeta. destruct (js_dtoa_finite d 10 n flags Hf Hm) as (m & e & l & Hme & Hl & Em & Ee & ->). rewrite <- (scaled_same JS_RNDNA (mant64 d) (exp64 d) m (e - 53) l 10 n ltac:(lia) Hl Em Ee).
  destruct (frac_spec m e n flags Hme Hn Hfmt) as (k & -> & Hk). by exists k.
Qed.

(** C38: With [JS_DTOA_FORMAT_FIXED] and [n] digits, as [toPrecision] and
    [toExponential] ask for them, [js_dtoa] returns and prints [n] digits, the first
    of them not 0, that are the number times a power of ten, rounded with ties away
    from zero, laid out with or without an exponent. *)
Theorem significant_digits_exact d n flags :
  finite64 d -> mant64 d <> 0 -> 1 <= n <= JS_DTOA_MAX_DIGITS -> Z.land flags JS_DTOA_FORMAT_MASK = JS_DTOA_FORMAT_FIXED ->
  exists E j, let V := round_div JS_RNDNA (scaled_num (mant64 d) (exp64 d) 10 (n - E)) (scaled_den (exp64 d) 10 (n - E)) in let ds := text 10 (Z.to_nat n) V in
    10 ^ (n - 1) <= V < 10 ^ n /\ canonical 10 j (Z.abs (E - 1)) /\ js_dtoa d 10 n flags = Done (sign_text d ++ (if with_exponent flags n E then sci_text ds E j else plain_text ds E)).
Proof.
  intros Hf Hm Hn Hfmt. destruct (js_dtoa_finite d 10 n flags Hf Hm) as (m & e & l & Hme & Hl & Em & Ee & ->). destruct (fixed_spec m e n flags Hme Hn Hfmt) as (j & Hj & ->). cbv zeta in Hj |- *. set (E := sig_exponent JS_RNDNA m e n) in *. exists E, j.
  rewrite <- (scaled_same JS_RNDNA (mant64 d) (exp64 d) m (e - 53) l 10 (n - E) ltac:(lia) Hl Em Ee). fold (sig_value JS_RNDNA m e n E). split; [apply sig_digits; [done | lia | done] |]. split; [done |]. done.
Qed.

(** C40: An integer of 64 bits is printed in any radix from 2 to 36 with its
    canonical digits, after a minus sign when it is negative. *)
Theorem integer_text_canonical n radix :
  - 2 ^ 63 <= n < 2 ^ 63 -> 2 <= radix <= 36 -> exists k, i64toa_radix n radix = Done (sign_of (n <? 0) ++ text radix k (Z.abs n)) /\ canonical radix k (Z.abs n).
Proof.
  intros Hn Hr. destruct (u64toa_radix_spec (Z.abs n) radix ltac:(lia) Hr) as (k & Ek & Hk). exists k. split; [| done]. unfold i64toa_radix. destruct (Z.leb_spec 0 n), (Z.ltb_spec n 0); try lia; [by rewrite Z.abs_eq in * by lia |].
  replace (u64 (- u64 n)) with (Z.abs n); [by rewrite Ek |]. unfold u64. rewrite <- (Z.mod_unique n (2 ^ 64) (-1) (n + 2 ^ 64)) by lia. rewrite <- (Z.mod_unique (- (n + 2 ^ 64)) (2 ^ 64) (-1) (- n)) by lia. lia.
Qed.

(** ** Instances *)

Module NumberDemo.

(** 0.1, 2.5 and the smallest number. *)
Definition tenth : Z := 4591870180066957722.
Definition two_and_half : Z := 4612811918334230528.
Definition smallest : Z := 1.

Example prints_tenth : js_dtoa tenth 10 0 0 = Done [48; 46; 49].
Proof. vm_compute. reflexivity. Qed.

Example rounds_half_away : js_dtoa two_and_half 10 0 JS_DTOA_FORMAT_FRAC = Done [51].
Proof. vm_compute. reflexivity. Qed.

Lemma number_text_roundtrip_witness : 0 <= tenth < 2 ^ 64 /\ exists t, js_dtoa tenth 10 0 0 = Done t /\ js_atod (t ++ [0]) 10 0 = Done (if is_nan tenth then (None, 0) else (Some (if tenth =? 2 ^ 63 then 0 else tenth), lenZ t)).
Proof. assert (H : 0 <= tenth < 2 ^ 64) by (split; [discriminate | reflexivity]). split; [exact H |]. exact (number_text_roundtrip tenth 0 H). Defined.


Lemma two_and_half_finite : finite64 two_and_half /\ mant64 two_and_half <> 0.
Proof. split; [split; [split; [discriminate | reflexivity] | vm_compute; discriminate] | vm_compute; discriminate]. Qed.

Lemma fixed_point_exact_witness : exists k, js_dtoa two_and_half 10 0 JS_DTOA_FORMAT_FRAC = Done (text 10 k 3) /\ canonical 10 k 3.
Proof.
  destruct two_and_half_finite as [F M]. destruct (fixed_point_exact two_and_half 0 JS_DTOA_FORMAT_FRAC F M) as (k & E & Hk); [unfold JS_DTOA_MAX_DIGITS; lia | reflexivity |].
  exists k. change (round_div JS_RNDNA _ _ / 10 ^ 0) with 3 in E, Hk. rewrite E. cbn [Z.eqb]. rewrite app_nil_r. split; [reflexivity | exact Hk].
Defined.

Lemma significant_digits_exact_witness : exists E j, let V := round_div JS_RNDNA (scaled_num (mant64 two_and_half) (exp64 two_and_half) 10 (3 - E)) (scaled_den (exp64 two_and_half) 10 (3 - E)) in let ds := text 10 3 V in
  10 ^ (3 - 1) <= V < 10 ^ 3 /\ canonical 10 j (Z.abs (E - 1)) /\ Done [50; 46; 53; 48] = Done (sign_text two_and_half ++ (if with_exponent JS_DTOA_FORMAT_FIXED 3 E then sci_text ds E j else plain_text ds E)).
Proof.
  destruct two_and_half_finite as [F M]. destruct (significant_digits_exact two_and_half 3 JS_DTOA_FORMAT_FIXED F M) as (E & j & H1 & H2 & H3); [unfold JS_DTOA_MAX_DIGITS; lia | reflexivity |].
  exists E, j. split; [exact H1 |]. split; [exact H2 |]. etransitivity; [| exact H3]. vm_compute. reflexivity.
Defined.

Lemma integer_text_canonical_witness : exists k, Done [45; 102; 102] = Done (sign_of true ++ text 16 k 255) /\ canonical 16 k 255.
Proof. destruct (integer_text_canonical (-255) 16) as (k & E & Hk); [lia | lia |]. exists k. split; [etransitivity; [| exact E]; vm_compute; reflexivity | exact Hk]. Defined.

Lemma dtoa_fits_max_len_witness : exists t, js_dtoa two_and_half 10 0 JS_DTOA_FORMAT_FRAC = Done t /\ lenZ t <= js_dtoa_max_len two_and_half 10 0 JS_DTOA_FORMAT_FRAC.
Proof. destruct two_and_half_finite as [F M]. apply (dtoa_fits_max_len two_and_half 0 JS_DTOA_FORMAT_FRAC F M); [unfold JS_DTOA_MAX_DIGITS; lia | left; reflexivity]. Defined.

(** One digit of the smallest number without an exponent takes six characters
    more than [js_dtoa_max_len] allows for. *)
Theorem fixed_exceeds_max_len : exists t, js_dtoa smallest 10 1 (JS_DTOA_FORMAT_FIXED + JS_DTOA_EXP_DISABLED) = Done t /\ lenZ t = 326 /\ js_dtoa_max_len smallest 10 1 (JS_DTOA_FORMAT_FIXED + JS_DTOA_EXP_DISABLED) = 320.
Proof. eexists. split; [vm_compute; reflexivity |]. split; vm_compute; reflexivity. Qed.

(** "0.00000000001e-2147483639": the exponent is accepted, and subtracting the
    digits behind the dot from it overflows [int]. *)
Theorem accepted_exponent_overflows :
  js_atod ([48; 46] ++ replicate 10 48 ++ [49; 101; 45; 50; 49; 52; 55; 52; 56; 51; 54; 51; 57; 0]) 10 0 = Aborts.
Proof. vm_compute. reflexivity. Qed.

End NumberDemo.
